(* ===== verification/_CoqProject ===== *)
-Q . S2P
Prelude.v
Exposure.v
HelperDB.v
Protocol.v
NetIP.v
Coordinator.v
CoordinatorProofs.v
CoordinatorProps.v
ExposurePolicy.v
ExposureProps.v
Containers.v
Topology.v
LifecycleStore.v
MultiStore.v
ReconciliationStore.v
LifecycleStoreProofs.v
MultiStoreProofs.v
LifecycleStoreProps.v
Runner.v
Reconciliation.v
MultiRunner.v
SingleRunner.v
Repair.v
Recovery.v
RunnerProofs.v
RunnerProps.v
SessionProofs.v
MutationProofs.v
ReconcileProofs.v
MultiReplaceProofs.v
MultiReplaceProps.v
SessionProps.v
ReconcileProps.v
RecoveryProps.v
Ingress.v
IngressProofs.v
IngressRender.v
IngressRuntime.v
IngressSwitch.v
Manifest.v
ManifestProofs.v
ManifestSamples.v
ManifestProps.v
HelperPlan.v
HelperPlanProofs.v
HelperCreate.v
HelperPlanProps.v
ExternalStorage.v
ExternalStorageProofs.v
ExternalStorageProps.v
Serve.v
ServeProps.v
Secrets.v
SecretsProps.v
BackupPlan.v
Restore.v
RestoreProofs.v
RestoreRecoveryProofs.v
RestoreOwnProofs.v
RestoreSwapProofs.v
RestoreRunProofs.v
RestoreProps.v
Archive.v
ArchivePaths.v
ArchiveProofs.v
ArchiveExtract.v
ArchiveRoundtrip.v
ArchiveProps.v
Backup.v
BackupProofs.v
BackupProps.v
Auth.v
AuthProofs.v
AuthProps.v
ControlPlane.v
ControlPlaneProps.v
IngressApply.v
IngressApplyProofs.v
IngressProps.v
IngressStore.v
