(* ===== verification/Prelude.v ===== *)
(** * KITPro Server: the verified core of the helper and of its API

    KITPro runs self-hosted applications in containers.  An unprivileged API
    sends requests over a local socket to a privileged helper; the helper
    accepts each request as an operation, fences it against concurrent ones,
    and drives a container engine through staged, recorded steps.  What the
    helper knows is in one SQLite database; what is true of the containers is
    only ever observed.  The helper also makes backups of applications and
    restores them.  The API authenticates its users, records the operations it
    asks for and projects what the helper committed into tables of its own.
    Sources named here are under [src/software/server/internal], or under
    [src/software/server] where the name begins with [cmd].

    ** The parts and the files that model them

    - [Prelude]: Go errors, results, transactions ([tx]) as functions that
      return a value and a database or an error, tables as finite maps with
      [update], [select] and [affected] for SQL, record update, [sort.Slice].
    - [HelperDB] ([state/state.go]): the helper's tables as a record of
      finite maps, with their keys, enumerations, unique indexes and foreign
      keys.
    - [Protocol] ([protocol/protocol.go]): requests, responses, frames, the
      canonical form and its hash, the duplicate-key scan.
    - [Coordinator] ([helperops/coordinator.go]): acceptance of operations,
      leases with fencing tokens, phase records, completion, the recovery
      after a restart.  [CoordinatorProofs] and [CoordinatorProps] hold its
      lemmas and claims.
    - [NetIP], [Exposure], [ExposurePolicy] ([exposure/exposure.go],
      [exposure/store.go]): service bindings, address policy, conflicts, the
      comparison with what the engine publishes, port allocation, the kernel's
      socket tables, stored assignments.  Claims in [ExposureProps].
    - [Containers] ([containers/runtime.go], [ownership/ownership.go] and the
      comparisons of [lifecycle/runner.go]): the engine as the class
      [LifecycleRuntime], observations, plans, and when one matches the other.
    - [Topology] ([multicontainer/plan.go]): start order and the hashed
      topology of an application of several components.
    - [LifecycleStore], [MultiStore], [ReconciliationStore]
      ([lifecycle/store.go], [lifecycle/multi_store.go] and the statements of
      [lifecycle/reconciliation.go] and [lifecycle/repair.go]): every statement
      on generations, components, bindings, the step ledger and
      reconciliation records.  Lemmas in [LifecycleStoreProofs] and
      [MultiStoreProofs], claims in [LifecycleStoreProps].
    - [Runner] ([lifecycle/runner.go]): programs over an arbitrary environment,
      and the replacement of a single-container generation.
    - [MultiRunner], [SingleRunner] ([lifecycle/multi_runner.go],
      [lifecycle/single_runner.go]): replacement and ordinary actions of
      applications of several components, and of one.
    - [Reconciliation], [Repair], [Recovery] ([lifecycle/reconciliation.go],
      [lifecycle/repair.go], [lifecycle/recovery.go]): comparing records and
      runtime, acting on the difference, and completing at startup what was
      cut short.
    - [Ingress] ([ingress/model.go], [ingress/render.go]): host names, routes,
      the active set of routes and the configuration rendered for it.  Lemmas
      in [IngressProofs]; [IngressRender] holds a reader of configurations, the
      reference the renderer is proved against.
    - [IngressRuntime] ([ingress/transaction.go], [ingress/runtime.go], the
      checks of [ingress/validator.go]): the apply transaction over an abstract
      runtime, and the nginx runtime over a file system in which any call may
      fail.  [IngressSwitch] states the contract between the two as the class
      [Switch], proves the transaction against it and the runtime to satisfy
      it.
    - [IngressApply] ([applyIngressGeneration] of
      [cmd/kitpro-helper/ingress.go]) composes resolution, rendering, the
      transaction and the tables, with any of its database statements failing
      where [db_faults] says so; lemmas in [IngressApplyProofs], claims of the
      ingress in [IngressProps].  [IngressStore] ([ingress/store.go]) is the
      record of the unprivileged side.
    - [Manifest] ([manifest/manifest.go]): application manifests, the JSON walk
      for repeated fields and the whole validation; lemmas in [ManifestProofs],
      samples in [ManifestSamples], claims in [ManifestProps].
    - [HelperPlan], [HelperCreate] ([cmd/kitpro-helper/main.go]): the checks of
      a request against the trusted catalogue and the creation of the
      containers of an accepted one; [HelperPlanProofs], [HelperPlanProps].
    - [ExternalStorage] ([cmd/kitpro-helper/storage.go]): approved host
      directories, their bindings to installations and the mounts made of them;
      [ExternalStorageProofs], [ExternalStorageProps].
    - [Serve] ([serve] of [cmd/kitpro-helper/main.go]): the request loop of a
      connection around the coordinator, its handlers a parameter;
      [ServeProps].  [Secrets]: generated credentials; [SecretsProps].
    - [BackupPlan] ([loadApplicationBackupPlan] and what it calls in
      [cmd/kitpro-helper/application_backup.go]): what a backup covers, and the
      checks of an archive's manifest against it.
    - [Archive] ([appbackup/archive.go]): measuring, writing, publishing and
      extracting an archive on a disk whose calls may fail.  Names in
      [ArchivePaths], confinement in [ArchiveProofs], effects in
      [ArchiveExtract], the round trip in [ArchiveRoundtrip], claims in
      [ArchiveProps].
    - [Restore] ([restoreApplicationBackupWithFence] and
      [cmd/kitpro-helper/restore_journal.go]): restoring an application with a
      journal, the rollback, the recovery at startup and the deferred cleanup.
      Lemmas in [RestoreProofs] (the calculus), [RestoreRecoveryProofs],
      [RestoreOwnProofs], [RestoreSwapProofs] and [RestoreRunProofs]; claims in
      [RestoreProps].
    - [Backup] ([createApplicationBackup]) composes the plan, the engine calls
      of [Restore] and [Create] of [Archive], and instantiates the archive a
      restore opens; [BackupProofs], [BackupProps].
    - [Auth] ([auth/auth.go], [auth/recovery.go], the guard and the handlers of
      [cmd/kitpro-api/main.go]): administrators, sessions, CSRF tokens, the
      throttle of logins, and histories of requests as the relation [reach].
      Lemmas in [AuthProofs], claims in [AuthProps].
    - [ControlPlane] ([operations/operations.go] and [ops],
      [buildServiceBindings], [callHelperOperation], [repairCommittedProjection],
      [runInstallationLifecycle], [installationReconciliation] and
      [installationRepair] of [cmd/kitpro-api/main.go]): operation records, the
      request built from the catalogue, exchanges with the helper that may be
      lost, projections, and runs of requests, polls and restarts ([api_run]).
      Lemmas and claims in [ControlPlaneProps].

    ** How programs are modelled

    A program ([prog]) takes a world, made of the database, an environment of
    arbitrary type and the record of the calls made to the engine, and ends
    normally or is killed.  The environment ([Host]) answers every call of the
    container engine, the clock and the test hooks in any way it likes, may
    fail any database statement (which is then rolled back), and may kill the
    process before any call: the claims about programs hold for all of them.
    A weakest-precondition calculus ([wp] in [RunnerProofs]) has a second
    postcondition for a process that died.  [SessionProofs] builds on it what
    every program keeps, [ReconcileProps] a calculus of programs that only
    observe ([sees]).

    A transaction is atomic; a read of several queries is one snapshot of the
    database.  Timestamps are strings given by the clock.  Hashing is the
    parameter [sha] wherever it appears, and no property assumes anything of
    it.  The JSON decoder of [encoding/json] is a parameter; the encoder is
    modelled.  Checks that the dependencies of a runner are non-nil are left
    out: they are arguments here.

    A restore ([rprog] in [Restore]) is such a program over the restore tables,
    a file system of directory trees with identities, and the engine
    ([RestoreHost]); it may die before every call, and startups follow it.  An
    extraction is a computation over a disk with an oracle that may fail any
    call.  Further parameters are the codec of manifests and indexes
    ([ArchiveCodec], with the law that it reads back what it wrote), SHA-256
    and bcrypt, [net/url.ParseRequestURI], the resolution of links and mounts of
    the host, random bytes, the clock, the walking order of a Go map, and the
    results of calls collected in [backup_calls] and [archive].  The API's side
    of the socket is the class [ControlHost], with the decoded form of a result
    of the helper a parameter of [ControlPlane].  [Auth] and [ControlPlane]
    handle requests one after the other.

    The ingress works on files instead of containers: there a computation
    ([io] in [IngressRuntime]) takes files, links, directories and a script of
    the outcomes of its system calls, an error keeps what was done before it,
    and a failed call may have made any progress.

    ** What the theorems show

    - The coordinator refines an abstract fenced lock; operations of one
      installation exclude each other; a stale executor cannot write; a
      replayed request is not executed again; recovery after a restart
      terminates and classifies every interrupted operation.
    - The generation store keeps at most one active generation per
      installation; statuses follow the life-cycle graph; a retired generation
      is not activated again; a commit switches exactly the verified candidate
      in.  Coordinator and store together are one transition system
      ([sys_step] with [sys_inv]), and every program is a sequence of its
      steps.
    - A replacement, of one container or of several, activates only what it
      has observed to match its plan; an ordinary error leaves nothing behind;
      from any crash point the database is a reachable state; old containers
      are stopped only when the candidate is ready; only resources of inactive
      generations are removed; every mutation was recorded before it was sent,
      except that the replacement of several containers removes those of older
      generations, after its commit, without an entry.
    - Ordinary actions follow the dependency order; they and the repairs have
      a dispatched entry of the step ledger for every mutation.
    - Reconciliation only observes, acknowledges the loss of a generation only
      when all of it was seen to be gone, and calls an installation consistent
      only when all of it was seen as recorded; a repair acts only on a verdict
      without identity mismatches; startup recovery activates only what it has
      seen running.
    - Exposure, topology, protocol and mount comparison: the decisions are
      equivalent to their specifications (pairwise separated endpoints,
      existence of a dependency-first order of an admitted list of components,
      absence of repeated keys, exact sets of mounts and ports).
    - Ingress: normal host names are those of a reference grammar; the active
      set of routes is canonical; the rendered configuration reads back as the
      server blocks of the routes and no field can inject a directive; whatever
      fails, an apply leaves the active link where its result says, and after
      every operation the table of generations agrees with the link or has the
      row of this operation as pending a rollback or, when the database failed
      at the end, as prepared.
    - Manifests and plans: validation accepts exactly the well-formed manifests
      of a reference predicate; a request, in the parts that are compared, is
      accepted exactly when it is what the catalogue gives; every created container has a pinned image and the
      command, environment and mounts of its manifest, its host directories
      those declared within the installation or registered roots, if the request
      has components exactly when its application does.
    - The request loop executes no operation twice, only under the lease and
      after acceptance; restart recovery unblocks every installation that no
      unfinished restore blocks; the credential shown is the one injected.
    - Restore: whatever fails and wherever the process dies, every original
      directory survives or all are replaced; recovery starts containers only on
      a consistent set of directories and secrets; a reported success is
      complete.
    - Archives: extraction is confined to its destination, bounded, verified
      against the index, undone when it fails, and inverts the writer for
      portable names and within the limits.  A created backup passes, under the
      same conditions, every check of a restore, and the application is running
      again after it unless the container engine failed to start or to inspect
      a container.
    - Authentication: a handler behind the guard runs only for a live session of
      a client that proved the password, with the CSRF token of that session
      where it is needed.
    - The API: what it records of an operation never says more than the helper
      showed, whatever exchanges are lost; the request it builds is refused by
      the checks of [HelperPlan] only where the application is not installable.

    ** Fuel and bounds

    Recursion is structural except in a few places.  [Topology.StartOrder]
    runs with fuel equal to the number of components plus one;
    [start_order_decides] shows that it is enough.  The duplicate-key scan
    and the JSON tokens run on fuel bounded by the length of the input, and
    [NetIP] reads at most nine groups of an IPv6 address; symbolic links are
    followed at most 255 times, the limit of Go's library.  The JSON walks of
    manifests and archives have one more unit of fuel than tokens, and the
    reading of UTF-8 one for every byte.  Port numbers, frame lengths, result
    sizes and the limits of archives keep the bounds of the code; the additions
    of sizes wrap at 64 bits as Go's do.

    ** What is not modelled

    Certificates and ACME, the Cloudflare tunnel, the clients of the container
    engines, host facts and diagnostics, the backups of the databases and of the
    host ([backup], [hostbackup]), the copying of trees and the verification of
    SQLite files ([appbackup/staging.go]), the pages and handlers of the API
    other than those of authentication and of operations, and the prototypes:
    mostly input and output on files, processes and remote services.  Of the helper program, the
    hash of a plan, the comparison of observed storage and hardware with the
    record, and the stopping of installations whose storage is gone are not
    modelled, and the handlers are a parameter of the request loop.  The bytes
    of the tar and gzip formats are not modelled: an archive is its sequence of
    entries.  Of the ingress, the frames of the validator socket
    and the reload bridge are not modelled: the nginx runtime takes them as
    functions. *)

From stdpp Require Import base gmap strings list sorting fin_maps.
From Stdlib Require Import ZArith Lia Ascii.

Set Default Proof Using "Type".

(** ** Go errors

    A Go [error] value.  [ErrNoRows] is [sql.ErrNoRows]; [ErrSQL] is any other
    failure of the SQLite driver (constraint violation, I/O, a NULL scanned
    into a non-nullable variable); [ErrWrap] is [fmt.Errorf("...: %w", err)];
    [ErrJoin] is [errors.Join]; [ErrUnknownOutcome] is
    [lifecycle.UnknownOutcomeError] and [ErrConflict] is
    [helperops.ConflictError]. *)
Inductive error : Type :=
| ErrMsg (msg : string)
| ErrNoRows
| ErrSQL (what : string)
| ErrWrap (msg : string) (cause : error)
| ErrJoin (causes : list error)
| ErrUnknownOutcome (phase : string) (cause : error)
| ErrConflict (active : string).

(** [errors.Is(err, sql.ErrNoRows)]: the chain of wrapped causes is searched.
    The cause carried by [UnknownOutcomeError] is reachable through its
    [Unwrap] method. *)
Fixpoint is_no_rows (e : error) : bool :=
  match e with
  | ErrNoRows => true
  | ErrWrap _ c | ErrUnknownOutcome _ c => is_no_rows c
  | ErrJoin cs => existsb is_no_rows cs
  | _ => false
  end.

(** [errors.As(err, &UnknownOutcomeError{})]. *)
Fixpoint is_unknown_outcome (e : error) : bool :=
  match e with
  | ErrUnknownOutcome _ _ => true
  | ErrWrap _ c => is_unknown_outcome c
  | ErrJoin cs => existsb is_unknown_outcome cs
  | _ => false
  end.

(** [err.Error()].  Joined errors are separated by newlines. *)
Fixpoint error_text (e : error) : string :=
  match e with
  | ErrMsg msg => msg
  | ErrNoRows => "sql: no rows in result set"
  | ErrSQL what => what
  | ErrWrap msg cause => String.append msg (String.append ": " (error_text cause))
  | ErrJoin causes => String.concat (String (Ascii.ascii_of_nat 10) EmptyString) (map error_text causes)
  | ErrUnknownOutcome phase cause =>
      String.append "runtime outcome requires reconciliation at "
        (String.append phase (String.append ": " (error_text cause)))
  | ErrConflict _ => "installation already has an active privileged operation"
  end.

(** ** Results: a Go [(value, error)] pair of which exactly one is meaningful. *)
Inductive res (A : Type) : Type :=
| Ok (a : A)
| Err (e : error).
Arguments Ok {A} a.
Arguments Err {A} e.

Definition rbind {A B} (m : res A) (f : A -> res B) : res B :=
  match m with Ok a => f a | Err e => Err e end.

Definition is_ok {A} (m : res A) : bool :=
  match m with Ok _ => true | Err _ => false end.

(** ** Transactions

    The code between [BeginTx] and [tx.Commit]: every early return runs the
    deferred [Rollback], so a computation either yields a value and a new
    store or an error and no store at all. *)
Definition tx (S A : Type) : Type := S -> res (A * S).

Definition tret {S A} (a : A) : tx S A := fun s => Ok (a, s).
Definition tfail {S A} (e : error) : tx S A := fun _ => Err e.
Definition tbind {S A B} (m : tx S A) (f : A -> tx S B) : tx S B :=
  fun s => match m s with Ok (a, s') => f a s' | Err e => Err e end.
Definition tget {S} : tx S S := fun s => Ok (s, s).

(** [tassert P msg]: the [if !P { return errors.New(msg) }] guard. *)
Definition tassert {S} (P : Prop) `{!Decision P} (msg : string) : tx S unit :=
  if decide P then tret () else tfail (ErrMsg msg).

(** [QueryRowContext(...).Scan(...)]: the first row, or [sql.ErrNoRows]. *)
Definition trow {S A} (q : S -> option A) : tx S A :=
  fun s => match q s with Some a => Ok (a, s) | None => Err ErrNoRows end.

(** [fmt.Errorf("msg: %w", err)] around the error of a step. *)
Definition twrap {S A} (msg : string) (m : tx S A) : tx S A :=
  fun s => match m s with Ok r => Ok r | Err e => Err (ErrWrap msg e) end.

(** What a caller of a transactional function sees: its error, and the store
    rolled back to where it was when the function failed. *)
Definition atomically {S A} (m : tx S A) (s : S) : res A * S :=
  match m s with Ok (a, s') => (Ok a, s') | Err e => (Err e, s) end.

Declare Scope kit_scope.
Delimit Scope kit_scope with kit.
Notation "'let*' x ':=' c 'in' k" := (tbind c (fun x => k))
  (at level 10, x name, c at level 100, k at level 200) : kit_scope.
Notation "'do*' c 'in' k" := (tbind c (fun _ => k))
  (at level 10, c at level 100, k at level 200) : kit_scope.
Open Scope kit_scope.

(** ** Inversion lemmas for the transaction monad *)
Lemma tbind_Ok {S A B} (m : tx S A) (f : A -> tx S B) s b s' :
  tbind m f s = Ok (b, s') <-> exists a s1, m s = Ok (a, s1) /\ f a s1 = Ok (b, s').
Proof. unfold tbind. destruct (m s) as [[a s1]|e]; naive_solver. Qed.

Lemma tret_Ok {S A} (a b : A) (s s' : S) : tret a s = Ok (b, s') <-> a = b /\ s = s'.
Proof. unfold tret. naive_solver. Qed.

Lemma tget_Ok {S} (a s s' : S) : tget s = Ok (a, s') <-> a = s /\ s = s'.
Proof. unfold tget. naive_solver. Qed.

Lemma tfail_Ok {S A} (e : error) (b : A) (s s' : S) : tfail e s = Ok (b, s') <-> False.
Proof. unfold tfail. naive_solver. Qed.

Lemma tassert_Ok {S} (P : Prop) `{!Decision P} msg (s s' : S) u :
  tassert P msg s = Ok (u, s') <-> P /\ s = s'.
Proof. unfold tassert, tret, tfail. destruct u. case_decide; naive_solver. Qed.

Lemma trow_Ok {S A} (q : S -> option A) (s s' : S) a :
  trow q s = Ok (a, s') <-> q s = Some a /\ s = s'.
Proof. unfold trow. destruct (q s); naive_solver. Qed.

Lemma twrap_Ok {S A} msg (m : tx S A) s r : twrap msg m s = Ok r <-> m s = Ok r.
Proof. unfold twrap. destruct (m s); naive_solver. Qed.

Lemma atomically_Ok {S A} (m : tx S A) s a s' :
  atomically m s = (Ok a, s') <-> m s = Ok (a, s').
Proof. unfold atomically. destruct (m s) as [[? ?]|?]; naive_solver. Qed.

Lemma atomically_Err {S A} (m : tx S A) s e s' :
  atomically m s = (Err e, s') <-> m s = Err e /\ s = s'.
Proof. unfold atomically. destruct (m s) as [[? ?]|?]; naive_solver. Qed.

Create HintDb kit.
#[export] Hint Unfold tret tfail tget : kit.

(** [inv_tx]: turn a hypothesis [f args s = Ok (a, s')] about a transaction
    into the list of the guards it passed and the stores it went through. *)
Ltac inv_tx_step :=
  match goal with
  | H : tbind _ _ _ = Ok (_, _) |- _ =>
      apply tbind_Ok in H; destruct H as (? & ? & ? & H)
  | H : tret _ _ = Ok (_, _) |- _ => apply tret_Ok in H; destruct H as [? ?]
  | H : tget _ = Ok (_, _) |- _ => apply tget_Ok in H; destruct H as [? ?]
  | H : tfail _ _ = Ok (_, _) |- _ => apply tfail_Ok in H; destruct H
  | H : tassert _ _ _ = Ok (_, _) |- _ => apply tassert_Ok in H; destruct H as [? ?]
  | H : twrap _ _ _ = Ok _ |- _ => apply twrap_Ok in H
  | H : trow _ _ = Ok (_, _) |- _ => apply trow_Ok in H; destruct H as [? ?]
  end.
Ltac inv_tx := repeat (inv_tx_step; simplify_eq/=).

(** A [WHERE] clause is a decidable predicate on key and row. *)
#[export] Hint Extern 1 (Decision ((fun _ => _) _)) => progress cbv beta : typeclass_instances.
#[export] Hint Extern 1 (Decision ((fun _ => _) _ _)) => progress cbv beta : typeclass_instances.

(** ** Tables

    A table is a finite map from its primary key to its row.  [update P f]
    is [UPDATE t SET f WHERE P]; [affected P] is what [RowsAffected] reports. *)
Section tables.
Context {K : Type} `{Countable K} {R : Type}.
Implicit Types (m : gmap K R) (P : K -> R -> Prop).

Definition update P `{!forall k r, Decision (P k r)} (f : R -> R) m : gmap K R :=
  map_imap (fun k r => Some (if decide (P k r) then f r else r)) m.

Definition select P `{!forall k r, Decision (P k r)} m : list (K * R) :=
  map_to_list (filter (fun kr => P kr.1 kr.2) m).

Definition affected P `{!forall k r, Decision (P k r)} m : nat :=
  length (select P m).

Lemma lookup_update P `{!forall k r, Decision (P k r)} f m k :
  update P f m !! k = (fun r => if decide (P k r) then f r else r) <$> m !! k.
Proof. unfold update. rewrite map_lookup_imap. by destruct (m !! k). Qed.

Lemma lookup_update_Some P `{!forall k r, Decision (P k r)} f m k r' :
  update P f m !! k = Some r' <->
  exists r, m !! k = Some r /\ r' = if decide (P k r) then f r else r.
Proof. rewrite lookup_update. destruct (m !! k); naive_solver. Qed.

Lemma lookup_update_None P `{!forall k r, Decision (P k r)} f m k :
  update P f m !! k = None <-> m !! k = None.
Proof. rewrite lookup_update. by destruct (m !! k). Qed.

Lemma elem_of_select P `{!forall k r, Decision (P k r)} m k r :
  (k, r) ∈ select P m <-> m !! k = Some r /\ P k r.
Proof.
  unfold select. rewrite elem_of_map_to_list, map_lookup_filter_Some. done.
Qed.

(** A [WHERE] clause that pins the primary key touches at most one row. *)
Lemma affected_pk P `{!forall k r, Decision (P k r)} m k :
  (forall k' r, P k' r -> k' = k) ->
  affected P m = match m !! k with
                 | Some r => if decide (P k r) then 1 else 0
                 | None => 0
                 end.
Proof.
  intros Hpk. unfold affected, select.
  destruct (m !! k) as [r|] eqn:Hk; [case_decide as HP|].
  - assert (filter (fun kr => P kr.1 kr.2) m = {[ k := r ]}) as ->.
    { apply map_eq. intros k'. destruct (decide (k = k')) as [<-|Hne].
      - rewrite lookup_singleton_eq. apply map_lookup_filter_Some. done.
      - rewrite lookup_singleton_ne by done. apply map_lookup_filter_None.
        right. intros r' _ HP'. apply Hne. symmetry. by eapply Hpk. }
    by rewrite map_to_list_singleton.
  - assert (filter (fun kr => P kr.1 kr.2) m = ∅) as ->; [|by rewrite map_to_list_empty].
    apply map_empty. intros k'. apply map_lookup_filter_None. right.
    intros r' Hr' HP'. assert (k' = k) as -> by (by eapply Hpk). naive_solver.
  - assert (filter (fun kr => P kr.1 kr.2) m = ∅) as ->; [|by rewrite map_to_list_empty].
    apply map_empty. intros k'. apply map_lookup_filter_None. right.
    intros r' Hr' HP'. assert (k' = k) as -> by (by eapply Hpk). naive_solver.
Qed.

(** On a pinned key, [UPDATE] is an insertion at that key or nothing. *)
Lemma update_pk P `{!forall k r, Decision (P k r)} f m k r :
  (forall k' r', P k' r' -> k' = k) -> m !! k = Some r -> P k r ->
  update P f m = <[k := f r]> m.
Proof.
  intros Hpk Hk HP. apply map_eq. intros k'. rewrite lookup_update.
  destruct (decide (k = k')) as [<-|Hne].
  - by rewrite Hk, lookup_insert_eq; simpl; rewrite decide_True.
  - rewrite lookup_insert_ne by done. destruct (m !! k') as [r'|] eqn:E; [|done].
    simpl. rewrite decide_False; [done|]. intros HP'. apply Hne. symmetry. by eapply Hpk.
Qed.

Lemma update_none P `{!forall k r, Decision (P k r)} f m :
  (forall k r, m !! k = Some r -> ~ P k r) -> update P f m = m.
Proof.
  intros HP. apply map_eq. intros k. rewrite lookup_update.
  destruct (m !! k) as [r|] eqn:E; [|done]. simpl. rewrite decide_False; [done|]. eauto.
Qed.

Lemma affected_pk_1 P `{!forall k r, Decision (P k r)} m k :
  (forall k' r, P k' r -> k' = k) ->
  affected P m = 1 <-> exists r, m !! k = Some r /\ P k r.
Proof.
  intros Hpk. rewrite (affected_pk P m k Hpk).
  destruct (m !! k); [case_decide|]; naive_solver.
Qed.
End tables.

(** ** Record update

    [r <| f := v |>] is [r] with field [f] replaced by [v].  A record declares
    its eta expansion once; [mk_setter] derives the setter of a field from it. *)
Class Eta (R : Type) := eta : R -> R.
Class Setter {R T : Type} (proj : R -> T) := set : T -> R -> R.
Arguments set {R T} proj {_} _ _.
Notation "r <| f := v |>" := (set f v r)
  (at level 12, left associativity, f constr, v constr at level 200) : kit_scope.

Ltac mk_setter :=
  lazymatch goal with
  | |- @Setter ?R ?T ?p =>
      let v := fresh "v" in let r := fresh "r" in
      refine (fun (v : T) (r : R) => _);
      let e := eval hnf in (@eta R _ r) in
      let e' := eval pattern (p r) in e in
      lazymatch e' with
      | ?F _ => let t := eval cbv beta in (F v) in exact t
      end
  end.

(** ** Ordering by a string key

    [sort.Strings] and [sort.Slice(x, x[i].Key < x[j].Key)]: insertion before
    the first element whose key is strictly greater, which keeps equal keys in
    their original order. *)
Section sort_by.
Context {A : Type} (key : A -> string).

Fixpoint insert_by (x : A) (l : list A) : list A :=
  match l with
  | [] => [x]
  | y :: l' => if String.leb (key y) (key x) then y :: insert_by x l' else x :: l
  end.

(* the elements already placed come first: ties keep their order *)
Definition sort_by (l : list A) : list A := foldl (fun acc x => insert_by x acc) [] l.

Definition key_le (x y : A) : Prop := String.leb (key x) (key y) = true.

Lemma key_le_trans x y z : key_le x y -> key_le y z -> key_le x z.
Proof.
  unfold key_le. intros H1 H2.
  assert (String.le (key x) (key z)) as H3.
  { transitivity (key y); unfold String.le; [by rewrite H1 | by rewrite H2]. }
  by apply Is_true_true.
Qed.

Lemma insert_by_perm x l : insert_by x l ≡ₚ x :: l.
Proof.
  induction l as [|y l IH]; simpl; [done|].
  destruct (String.leb (key y) (key x)); [|done]. rewrite IH. apply Permutation_swap.
Qed.

Lemma insert_by_sorted x l : StronglySorted key_le l -> StronglySorted key_le (insert_by x l).
Proof.
  induction 1 as [|y l HS IH HF]; simpl; [repeat constructor|].
  destruct (String.leb (key y) (key x)) eqn:E.
  - constructor; [done|]. rewrite insert_by_perm. by constructor.
  - assert (key_le x y) as Hxy.
    { unfold key_le. destruct (String.leb_total (key x) (key y)); congruence. }
    repeat (constructor; try done). eapply Forall_impl; [done|].
    intros z Hz. by eapply key_le_trans.
Qed.

Lemma sort_by_acc l acc :
  foldl (fun acc x => insert_by x acc) acc l ≡ₚ acc ++ l /\
  (StronglySorted key_le acc ->
   StronglySorted key_le (foldl (fun acc x => insert_by x acc) acc l)).
Proof.
  revert acc. induction l as [|x l IH]; intros acc; simpl; [by rewrite app_nil_r|].
  destruct (IH (insert_by x acc)) as [HP HS]. split.
  - rewrite HP, insert_by_perm. simpl. by rewrite Permutation_middle.
  - eauto using insert_by_sorted.
Qed.

Lemma sort_by_perm l : sort_by l ≡ₚ l.
Proof. apply (sort_by_acc l []). Qed.

Lemma sort_by_sorted l : StronglySorted key_le (sort_by l).
Proof. apply (sort_by_acc l []). constructor. Qed.

Lemma elem_of_sort_by x l : x ∈ sort_by l <-> x ∈ l.
Proof. by rewrite sort_by_perm. Qed.

Lemma length_sort_by l : length (sort_by l) = length l.
Proof. by rewrite sort_by_perm. Qed.

(** Two sorted rearrangements of one list with distinct keys are equal. *)
Lemma sorted_perm_unique l1 l2 :
  NoDup (key <$> l1) -> StronglySorted key_le l1 -> StronglySorted key_le l2 ->
  l1 ≡ₚ l2 -> l1 = l2.
Proof.
  intros Hnd HS1. revert l2 Hnd. induction HS1 as [|x l1 HS1 IH HF1]; intros l2 Hnd HS2 HP.
  { symmetry in HP. by apply Permutation_nil_r in HP as ->. }
  destruct l2 as [|y l2]; [by apply Permutation_nil_r in HP|].
  apply StronglySorted_inv in HS2 as [HS2 HF2].
  rewrite Forall_forall in HF1, HF2.
  assert (x = y) as ->.
  { assert (x ∈ y :: l2) as Hx by (rewrite <- HP; apply list_elem_of_here).
    assert (y ∈ x :: l1) as Hy by (rewrite HP; apply list_elem_of_here).
    apply elem_of_cons in Hx as [?|Hx], Hy as [?|Hy]; try congruence.
    assert (key x = key y) as Hk.
    { apply String.leb_antisym; [by apply HF1 | by apply HF2]. }
    exfalso. apply NoDup_cons in Hnd as [Hnd _]. apply Hnd.
    rewrite Hk. by apply list_elem_of_fmap_2. }
  f_equal. apply IH; [by apply NoDup_cons in Hnd as [_ ?] | done |].
  by apply Permutation_cons_inv in HP.
Qed.

Lemma sort_by_canonical l1 l2 :
  NoDup (key <$> l1) -> l1 ≡ₚ l2 -> sort_by l1 = sort_by l2.
Proof.
  intros Hnd HP. apply sorted_perm_unique; auto using sort_by_sorted.
  - by rewrite sort_by_perm.
  - by rewrite !sort_by_perm.
Qed.
End sort_by.

Definition sort_strings : list string -> list string := sort_by id.

(** [sort.Strings] depends on the elements alone, duplicates included. *)
Lemma sorted_strings_unique (l1 l2 : list string) :
  StronglySorted (key_le id) l1 -> StronglySorted (key_le id) l2 -> l1 ≡ₚ l2 -> l1 = l2.
Proof.
  intros HS1. revert l2. induction HS1 as [|x l1 HS1 IH HF1]; intros l2 HS2 HP.
  { symmetry in HP. by apply Permutation_nil_r in HP as ->. }
  destruct l2 as [|y l2]; [by apply Permutation_nil_r in HP|].
  apply StronglySorted_inv in HS2 as [HS2 HF2]. rewrite Forall_forall in HF1, HF2.
  assert (x = y) as ->.
  { assert (x ∈ y :: l2) as Hx by (rewrite <- HP; apply list_elem_of_here).
    assert (y ∈ x :: l1) as Hy by (rewrite HP; apply list_elem_of_here).
    apply elem_of_cons in Hx as [?|Hx], Hy as [?|Hy]; try congruence.
    apply String.leb_antisym; [by apply HF1 | by apply HF2]. }
  f_equal. apply IH; [done|]. by apply Permutation_cons_inv in HP.
Qed.

Lemma sort_strings_perm (l1 l2 : list string) : l1 ≡ₚ l2 -> sort_strings l1 = sort_strings l2.
Proof.
  intros HP. apply sorted_strings_unique; [apply sort_by_sorted..|].
  unfold sort_strings. by rewrite !sort_by_perm.
Qed.
