(* ===== verification/Exposure.v ===== *)
(** * Service exposure ([internal/exposure])

    Bindings of declared services to host addresses and ports: validation,
    conflict detection, comparison with what the runtime reports, and the
    allocation of host ports from the managed range. *)

From S2P Require Import Prelude.
From stdpp Require Import base gmap strings list.
From Stdlib Require Import ZArith Lia.

Open Scope Z_scope.

(** [type Mode string] and [type Transport string]: open string types whose
    named constants are the ones the validators accept. *)
Definition Internal : string := "internal".
Definition Loopback : string := "loopback".
Definition LAN : string := "lan".
Definition TCP : string := "tcp".
Definition UDP : string := "udp".
Definition FirstPort : Z := 20000.
Definition LastPort : Z := 29999.
Definition MaxBindings : Z := 8.

Record Assignment : Type := { a_Mode : string; a_Address : string; a_Port : Z }.

Record ServiceBinding : Type := {
  ServiceID : string;
  Transport : string;
  ContainerPort : Z;
  Mode : string;
  HostAddress : string;
  HostPort : Z
}.

#[export] Instance ServiceBinding_eq_dec : EqDecision ServiceBinding.
Proof. solve_decision. Defined.

(** [Normalize]: a copy of the bindings ordered by service. *)
Definition Normalize (bindings : list ServiceBinding) : list ServiceBinding :=
  sort_by ServiceID bindings.
