(* ===== verification/HelperDB.v ===== *)
(** * The helper's database ([internal/state], helper schema)

    One Coq record per row type, one finite map per table, with the table's
    primary key as the key of the map.  Columns whose SQL [CHECK] lists their
    values are enumerations.  The statements at the end of the file are the
    [INSERT] and [UPDATE] forms the code uses, with the uniqueness and foreign
    key constraints the schema declares. *)

From S2P Require Import Prelude Exposure.
From stdpp Require Import base gmap strings list.
From Stdlib Require Import ZArith Lia.

Open Scope Z_scope.

(** ** Enumerated columns *)
Inductive op_state_t : Type :=
| StateAccepted | StateExecuting | StateReconciling | StateSucceeded
| StateFailed | StateActionRequired | StateCancelled | StateSuperseded.

Inductive outcome_t : Type :=
| NotDispatched | ConfirmedAbsent | ConfirmedApplied | OutcomeUnknown | OutcomeMixed.

Inductive disposition_t : Type :=
| Completed | RetryAfterValidation | ReconcileFirst | AdministratorAction | RetryForbidden.

Inductive lease_state_t : Type := LeaseHeld | LeaseRecoveryRequired | LeaseReleased.

Inductive gen_status_t : Type :=
| GenVerificationRequired | GenPrepared | GenCandidate | GenActive
| GenRetained | GenFailed | GenCleanupPending | GenRemoved.

Inductive cleanup_state_t : Type := CleanupNotRequired | CleanupClean | CleanupPending.

Inductive comp_state_t : Type :=
| CompUnknown | CompCreated | CompStopped | CompRunning
| CompMissing | CompFailed | CompRemoved.

#[export] Instance op_state_eq_dec : EqDecision op_state_t.
Proof. solve_decision. Defined.
#[export] Instance outcome_eq_dec : EqDecision outcome_t.
Proof. solve_decision. Defined.
#[export] Instance disposition_eq_dec : EqDecision disposition_t.
Proof. solve_decision. Defined.
#[export] Instance lease_state_eq_dec : EqDecision lease_state_t.
Proof. solve_decision. Defined.
#[export] Instance gen_status_eq_dec : EqDecision gen_status_t.
Proof. solve_decision. Defined.
#[export] Instance cleanup_state_eq_dec : EqDecision cleanup_state_t.
Proof. solve_decision. Defined.
#[export] Instance comp_state_eq_dec : EqDecision comp_state_t.
Proof. solve_decision. Defined.

(** The text stored in the column, where the code builds strings from it. *)
Definition op_state_text (s : op_state_t) : string :=
  match s with
  | StateAccepted => "accepted" | StateExecuting => "executing"
  | StateReconciling => "reconciling" | StateSucceeded => "succeeded"
  | StateFailed => "failed" | StateActionRequired => "action_required"
  | StateCancelled => "cancelled" | StateSuperseded => "superseded"
  end.

Definition gen_status_text (s : gen_status_t) : string :=
  match s with
  | GenVerificationRequired => "verification_required" | GenPrepared => "prepared"
  | GenCandidate => "candidate" | GenActive => "active" | GenRetained => "retained"
  | GenFailed => "failed" | GenCleanupPending => "cleanup_pending" | GenRemoved => "removed"
  end.

Definition cleanup_text (s : cleanup_state_t) : string :=
  match s with
  | CleanupNotRequired => "not_required" | CleanupClean => "clean" | CleanupPending => "pending"
  end.

Definition comp_state_text (s : comp_state_t) : string :=
  match s with
  | CompUnknown => "unknown" | CompCreated => "created" | CompStopped => "stopped"
  | CompRunning => "running" | CompMissing => "missing" | CompFailed => "failed"
  | CompRemoved => "removed"
  end.

(** ** Rows *)
(** [helper_operations], keyed by [operation_id]: one row per operation identity. *)
Record opRow : Type := {
  op_request_hash : string;
  op_request_json : string;
  op_protocol_version : Z;
  op_operation_revision : Z;
  op_kind : string;
  op_installation : string;
  op_caller_uid : Z;
  op_state : op_state_t;
  op_phase : string;
  op_outcome : outcome_t;
  op_recovery : disposition_t;
  op_expected_generation : option Z;
  op_token : option Z;
  op_accepted_at : string;
  op_started_at : option string;
  op_updated_at : string;
  op_completed_at : option string;
  op_result_json : string;
  op_error_code : string;
  op_error_detail : string
}.

#[export] Instance opRow_eta : Eta opRow :=
  fun r => Build_opRow
    (op_request_hash r) (op_request_json r) (op_protocol_version r) (op_operation_revision r) (op_kind r)
    (op_installation r) (op_caller_uid r) (op_state r) (op_phase r) (op_outcome r)
    (op_recovery r) (op_expected_generation r) (op_token r) (op_accepted_at r) (op_started_at r)
    (op_updated_at r) (op_completed_at r) (op_result_json r) (op_error_code r) (op_error_detail r).
#[export] Instance set_op_request_hash : Setter op_request_hash := ltac:(mk_setter).
#[export] Instance set_op_request_json : Setter op_request_json := ltac:(mk_setter).
#[export] Instance set_op_protocol_version : Setter op_protocol_version := ltac:(mk_setter).
#[export] Instance set_op_operation_revision : Setter op_operation_revision := ltac:(mk_setter).
#[export] Instance set_op_kind : Setter op_kind := ltac:(mk_setter).
#[export] Instance set_op_installation : Setter op_installation := ltac:(mk_setter).
#[export] Instance set_op_caller_uid : Setter op_caller_uid := ltac:(mk_setter).
#[export] Instance set_op_state : Setter op_state := ltac:(mk_setter).
#[export] Instance set_op_phase : Setter op_phase := ltac:(mk_setter).
#[export] Instance set_op_outcome : Setter op_outcome := ltac:(mk_setter).
#[export] Instance set_op_recovery : Setter op_recovery := ltac:(mk_setter).
#[export] Instance set_op_expected_generation : Setter op_expected_generation := ltac:(mk_setter).
#[export] Instance set_op_token : Setter op_token := ltac:(mk_setter).
#[export] Instance set_op_accepted_at : Setter op_accepted_at := ltac:(mk_setter).
#[export] Instance set_op_started_at : Setter op_started_at := ltac:(mk_setter).
#[export] Instance set_op_updated_at : Setter op_updated_at := ltac:(mk_setter).
#[export] Instance set_op_completed_at : Setter op_completed_at := ltac:(mk_setter).
#[export] Instance set_op_result_json : Setter op_result_json := ltac:(mk_setter).
#[export] Instance set_op_error_code : Setter op_error_code := ltac:(mk_setter).
#[export] Instance set_op_error_detail : Setter op_error_detail := ltac:(mk_setter).

(** [installation_leases], keyed by [installation_id]. *)
Record leaseRow : Type := {
  ls_operation : string;
  ls_token : Z;
  ls_state : lease_state_t;
  ls_acquired_at : string;
  ls_updated_at : string;
  ls_recovery_required : bool
}.

#[export] Instance leaseRow_eta : Eta leaseRow :=
  fun r => Build_leaseRow
    (ls_operation r) (ls_token r) (ls_state r) (ls_acquired_at r) (ls_updated_at r)
    (ls_recovery_required r).
#[export] Instance set_ls_operation : Setter ls_operation := ltac:(mk_setter).
#[export] Instance set_ls_token : Setter ls_token := ltac:(mk_setter).
#[export] Instance set_ls_state : Setter ls_state := ltac:(mk_setter).
#[export] Instance set_ls_acquired_at : Setter ls_acquired_at := ltac:(mk_setter).
#[export] Instance set_ls_updated_at : Setter ls_updated_at := ltac:(mk_setter).
#[export] Instance set_ls_recovery_required : Setter ls_recovery_required := ltac:(mk_setter).

(** [runtime_generations], keyed by installation and generation number. *)
Record genRow : Type := {
  g_operation : string;
  g_application : string;
  g_release : string;
  g_status : gen_status_t;
  g_network_name : string;
  g_network_id : string;
  g_plan_hash : string;
  g_topology_hash : string;
  g_data_path : string;
  g_exposure_mode : string;
  g_service_id : string;
  g_host_address : string;
  g_host_port : Z;
  g_container_port : Z;
  g_service_protocol : string;
  g_created_at : string;
  g_verified_at : option string;
  g_committed_at : option string;
  g_retired_at : option string;
  g_cleanup : cleanup_state_t
}.

#[export] Instance genRow_eta : Eta genRow :=
  fun r => Build_genRow
    (g_operation r) (g_application r) (g_release r) (g_status r) (g_network_name r)
    (g_network_id r) (g_plan_hash r) (g_topology_hash r) (g_data_path r) (g_exposure_mode r)
    (g_service_id r) (g_host_address r) (g_host_port r) (g_container_port r) (g_service_protocol r)
    (g_created_at r) (g_verified_at r) (g_committed_at r) (g_retired_at r) (g_cleanup r).
#[export] Instance set_g_operation : Setter g_operation := ltac:(mk_setter).
#[export] Instance set_g_application : Setter g_application := ltac:(mk_setter).
#[export] Instance set_g_release : Setter g_release := ltac:(mk_setter).
#[export] Instance set_g_status : Setter g_status := ltac:(mk_setter).
#[export] Instance set_g_network_name : Setter g_network_name := ltac:(mk_setter).
#[export] Instance set_g_network_id : Setter g_network_id := ltac:(mk_setter).
#[export] Instance set_g_plan_hash : Setter g_plan_hash := ltac:(mk_setter).
#[export] Instance set_g_topology_hash : Setter g_topology_hash := ltac:(mk_setter).
#[export] Instance set_g_data_path : Setter g_data_path := ltac:(mk_setter).
#[export] Instance set_g_exposure_mode : Setter g_exposure_mode := ltac:(mk_setter).
#[export] Instance set_g_service_id : Setter g_service_id := ltac:(mk_setter).
#[export] Instance set_g_host_address : Setter g_host_address := ltac:(mk_setter).
#[export] Instance set_g_host_port : Setter g_host_port := ltac:(mk_setter).
#[export] Instance set_g_container_port : Setter g_container_port := ltac:(mk_setter).
#[export] Instance set_g_service_protocol : Setter g_service_protocol := ltac:(mk_setter).
#[export] Instance set_g_created_at : Setter g_created_at := ltac:(mk_setter).
#[export] Instance set_g_verified_at : Setter g_verified_at := ltac:(mk_setter).
#[export] Instance set_g_committed_at : Setter g_committed_at := ltac:(mk_setter).
#[export] Instance set_g_retired_at : Setter g_retired_at := ltac:(mk_setter).
#[export] Instance set_g_cleanup : Setter g_cleanup := ltac:(mk_setter).

(** [runtime_components], keyed by installation, generation and component. *)
Record compRow : Type := {
  c_container_name : string;
  c_container_id : string;
  c_image : string;
  c_image_id : string;
  c_config_hash : string;
  c_state : comp_state_t;
  c_depends_on : list string;
  c_ordinal : Z;
  c_created_at : string;
  c_started_at : option string;
  c_verified_at : option string
}.

#[export] Instance compRow_eta : Eta compRow :=
  fun r => Build_compRow
    (c_container_name r) (c_container_id r) (c_image r) (c_image_id r) (c_config_hash r)
    (c_state r) (c_depends_on r) (c_ordinal r) (c_created_at r) (c_started_at r)
    (c_verified_at r).
#[export] Instance set_c_container_name : Setter c_container_name := ltac:(mk_setter).
#[export] Instance set_c_container_id : Setter c_container_id := ltac:(mk_setter).
#[export] Instance set_c_image : Setter c_image := ltac:(mk_setter).
#[export] Instance set_c_image_id : Setter c_image_id := ltac:(mk_setter).
#[export] Instance set_c_config_hash : Setter c_config_hash := ltac:(mk_setter).
#[export] Instance set_c_state : Setter c_state := ltac:(mk_setter).
#[export] Instance set_c_depends_on : Setter c_depends_on := ltac:(mk_setter).
#[export] Instance set_c_ordinal : Setter c_ordinal := ltac:(mk_setter).
#[export] Instance set_c_created_at : Setter c_created_at := ltac:(mk_setter).
#[export] Instance set_c_started_at : Setter c_started_at := ltac:(mk_setter).
#[export] Instance set_c_verified_at : Setter c_verified_at := ltac:(mk_setter).

(** [lifecycle_component_steps], keyed by operation, generation, component,
    action and attempt. *)
Record stepRow : Type := {
  st_installation : string;
  st_expected_id : string;
  st_observed_id : string;
  st_intent_at : string;
  st_dispatched_at : option string;
  st_verified_at : option string;
  st_outcome : outcome_t;
  st_error_detail : string
}.

#[export] Instance stepRow_eta : Eta stepRow :=
  fun r => Build_stepRow
    (st_installation r) (st_expected_id r) (st_observed_id r) (st_intent_at r) (st_dispatched_at r)
    (st_verified_at r) (st_outcome r) (st_error_detail r).
#[export] Instance set_st_installation : Setter st_installation := ltac:(mk_setter).
#[export] Instance set_st_expected_id : Setter st_expected_id := ltac:(mk_setter).
#[export] Instance set_st_observed_id : Setter st_observed_id := ltac:(mk_setter).
#[export] Instance set_st_intent_at : Setter st_intent_at := ltac:(mk_setter).
#[export] Instance set_st_dispatched_at : Setter st_dispatched_at := ltac:(mk_setter).
#[export] Instance set_st_verified_at : Setter st_verified_at := ltac:(mk_setter).
#[export] Instance set_st_outcome : Setter st_outcome := ltac:(mk_setter).
#[export] Instance set_st_error_detail : Setter st_error_detail := ltac:(mk_setter).

(** [ownership], keyed by [instance_id]: the record kept before generations
    existed. *)
Record ownRow : Type := {
  ow_container_id : string;
  ow_container_name : string;
  ow_network_name : string;
  ow_image : string;
  ow_data_path : string;
  ow_created_at : string;
  ow_generation : Z;
  ow_application : string;
  ow_release : string;
  ow_exposure_mode : string;
  ow_service_id : string;
  ow_host_address : string;
  ow_host_port : Z;
  ow_container_port : Z;
  ow_service_protocol : string
}.

#[export] Instance ownRow_eta : Eta ownRow :=
  fun r => Build_ownRow
    (ow_container_id r) (ow_container_name r) (ow_network_name r) (ow_image r) (ow_data_path r)
    (ow_created_at r) (ow_generation r) (ow_application r) (ow_release r) (ow_exposure_mode r)
    (ow_service_id r) (ow_host_address r) (ow_host_port r) (ow_container_port r) (ow_service_protocol r).
#[export] Instance set_ow_container_id : Setter ow_container_id := ltac:(mk_setter).
#[export] Instance set_ow_container_name : Setter ow_container_name := ltac:(mk_setter).
#[export] Instance set_ow_network_name : Setter ow_network_name := ltac:(mk_setter).
#[export] Instance set_ow_image : Setter ow_image := ltac:(mk_setter).
#[export] Instance set_ow_data_path : Setter ow_data_path := ltac:(mk_setter).
#[export] Instance set_ow_created_at : Setter ow_created_at := ltac:(mk_setter).
#[export] Instance set_ow_generation : Setter ow_generation := ltac:(mk_setter).
#[export] Instance set_ow_application : Setter ow_application := ltac:(mk_setter).
#[export] Instance set_ow_release : Setter ow_release := ltac:(mk_setter).
#[export] Instance set_ow_exposure_mode : Setter ow_exposure_mode := ltac:(mk_setter).
#[export] Instance set_ow_service_id : Setter ow_service_id := ltac:(mk_setter).
#[export] Instance set_ow_host_address : Setter ow_host_address := ltac:(mk_setter).
#[export] Instance set_ow_host_port : Setter ow_host_port := ltac:(mk_setter).
#[export] Instance set_ow_container_port : Setter ow_container_port := ltac:(mk_setter).
#[export] Instance set_ow_service_protocol : Setter ow_service_protocol := ltac:(mk_setter).

(** One entry of [reconciliation.evidence_json] ([ComponentFinding] of
    [lifecycle/reconciliation.go]); mismatch codes are strings. *)
Record ComponentFinding : Type := {
  cf_ComponentID : string;
  cf_Generation : Z;
  cf_Role : string;
  cf_ExpectedRuntime : string;
  cf_ObservedRuntime : string;
  cf_ExpectedRuntimeID : string;
  cf_ObservedRuntimeID : string;
  cf_MismatchCodes : list string
}.

#[export] Instance ComponentFinding_eta : Eta ComponentFinding :=
  fun f => Build_ComponentFinding (cf_ComponentID f) (cf_Generation f) (cf_Role f)
    (cf_ExpectedRuntime f) (cf_ObservedRuntime f) (cf_ExpectedRuntimeID f) (cf_ObservedRuntimeID f)
    (cf_MismatchCodes f).
#[export] Instance set_cf_ObservedRuntime : Setter cf_ObservedRuntime := ltac:(mk_setter).
#[export] Instance set_cf_ObservedRuntimeID : Setter cf_ObservedRuntimeID := ltac:(mk_setter).
#[export] Instance set_cf_MismatchCodes : Setter cf_MismatchCodes := ltac:(mk_setter).

(** [reconciliation], keyed by [instance_id].  The two JSON columns are kept
    as what they encode. *)
Record reconRow : Type := {
  rc_classification : string;
  rc_observed_at : string;
  rc_summary : string;
  rc_checked_generation : Z;
  rc_runtime_state : string;
  rc_runtime_identity : string;
  rc_codes : list string;
  rc_action : string;
  rc_operation : string;
  rc_evidence : list ComponentFinding
}.

(** [helper_operation_events]; [event_id] is the position in the table. *)
Record eventRow : Type := {
  ev_operation : string;
  ev_installation : string;
  ev_token : option Z;
  ev_kind : string;
  ev_phase : string;
  ev_facts : list (string * string);
  ev_created_at : string
}.

#[export] Instance eventRow_eta : Eta eventRow :=
  fun r => Build_eventRow
    (ev_operation r) (ev_installation r) (ev_token r) (ev_kind r) (ev_phase r)
    (ev_facts r) (ev_created_at r).
#[export] Instance set_ev_operation : Setter ev_operation := ltac:(mk_setter).
#[export] Instance set_ev_installation : Setter ev_installation := ltac:(mk_setter).
#[export] Instance set_ev_token : Setter ev_token := ltac:(mk_setter).
#[export] Instance set_ev_kind : Setter ev_kind := ltac:(mk_setter).
#[export] Instance set_ev_phase : Setter ev_phase := ltac:(mk_setter).
#[export] Instance set_ev_facts : Setter ev_facts := ltac:(mk_setter).
#[export] Instance set_ev_created_at : Setter ev_created_at := ltac:(mk_setter).

(** The helper's database. *)
Record db : Type := {
  db_ops : gmap string opRow;
  db_leases : gmap string leaseRow;
  db_events : list eventRow;
  db_gens : gmap (string * Z) genRow;
  db_comps : gmap (string * Z * string) compRow;
  db_binds : gmap (string * Z * string) ServiceBinding;
  db_steps : gmap (string * Z * string * string * Z) stepRow;
  db_ownership : gmap string ownRow;
  db_recon : gmap string reconRow
}.

#[export] Instance db_eta : Eta db :=
  fun r => Build_db
    (db_ops r) (db_leases r) (db_events r) (db_gens r) (db_comps r)
    (db_binds r) (db_steps r) (db_ownership r) (db_recon r).
#[export] Instance set_db_ops : Setter db_ops := ltac:(mk_setter).
#[export] Instance set_db_leases : Setter db_leases := ltac:(mk_setter).
#[export] Instance set_db_events : Setter db_events := ltac:(mk_setter).
#[export] Instance set_db_gens : Setter db_gens := ltac:(mk_setter).
#[export] Instance set_db_comps : Setter db_comps := ltac:(mk_setter).
#[export] Instance set_db_binds : Setter db_binds := ltac:(mk_setter).
#[export] Instance set_db_steps : Setter db_steps := ltac:(mk_setter).
#[export] Instance set_db_ownership : Setter db_ownership := ltac:(mk_setter).
#[export] Instance set_db_recon : Setter db_recon := ltac:(mk_setter).

(** ** Statements *)

(** [INSERT INTO helper_operation_events]; its foreign key requires the
    operation row. *)
Definition insert_event (e : eventRow) : tx db unit := fun d =>
  match db_ops d !! ev_operation e with
  | Some _ => Ok (tt, d <| db_events := db_events d ++ [e] |>)
  | None => Err (ErrSQL "FOREIGN KEY constraint failed")
  end.

(** [INSERT INTO helper_operations]. *)
Definition insert_op (id : string) (r : opRow) : tx db unit := fun d =>
  match db_ops d !! id with
  | Some _ => Err (ErrSQL "UNIQUE constraint failed: helper_operations.operation_id")
  | None => Ok (tt, d <| db_ops := <[id:=r]> (db_ops d) |>)
  end.

(** [INSERT INTO installation_leases]. *)
Definition insert_lease (inst : string) (r : leaseRow) : tx db unit := fun d =>
  match db_leases d !! inst, db_ops d !! ls_operation r with
  | Some _, _ => Err (ErrSQL "UNIQUE constraint failed: installation_leases.installation_id")
  | None, None => Err (ErrSQL "FOREIGN KEY constraint failed")
  | None, Some _ => Ok (tt, d <| db_leases := <[inst:=r]> (db_leases d) |>)
  end.

(** [UPDATE helper_operations SET f WHERE P], returning the affected rows. *)
Definition update_ops (P : string -> opRow -> Prop) `{!forall k r, Decision (P k r)}
    (f : opRow -> opRow) : tx db nat := fun d =>
  Ok (affected P (db_ops d), d <| db_ops := update P f (db_ops d) |>).

(** [UPDATE installation_leases SET f WHERE P].  The foreign key of a changed
    holder is checked by [leases_fk]. *)
Definition leases_fk (d : db) : Prop :=
  map_Forall (fun _ l => is_Some (db_ops d !! ls_operation l)) (db_leases d).

Definition update_leases (P : string -> leaseRow -> Prop) `{!forall k r, Decision (P k r)}
    (f : leaseRow -> leaseRow) : tx db nat := fun d =>
  let d' := d <| db_leases := update P f (db_leases d) |> in
  if decide (leases_fk d') then Ok (affected P (db_leases d), d')
  else Err (ErrSQL "FOREIGN KEY constraint failed").

(** The partial unique index [runtime_generations_one_active]. *)
Definition one_active (m : gmap (string * Z) genRow) : Prop :=
  map_Forall (fun k r => g_status r = GenActive ->
    map_Forall (fun k' r' => g_status r' = GenActive -> k'.1 = k.1 -> k' = k) m) m.

Definition update_gens (P : string * Z -> genRow -> Prop) `{!forall k r, Decision (P k r)}
    (f : genRow -> genRow) : tx db nat := fun d =>
  let m := update P f (db_gens d) in
  if decide (one_active m) then Ok (affected P (db_gens d), d <| db_gens := m |>)
  else Err (ErrSQL "UNIQUE constraint failed: runtime_generations.installation_id").

Definition insert_gen (k : string * Z) (r : genRow) : tx db unit := fun d =>
  let m := <[k:=r]> (db_gens d) in
  match db_gens d !! k with
  | Some _ => Err (ErrSQL "UNIQUE constraint failed: runtime_generations")
  | None => if decide (one_active m) then Ok (tt, d <| db_gens := m |>)
            else Err (ErrSQL "UNIQUE constraint failed: runtime_generations.installation_id")
  end.

(** The unique index [runtime_components_generation_ordinal] against a new row. *)
Definition ordinal_free (k : string * Z * string) (r : compRow)
    (m : gmap (string * Z * string) compRow) : Prop :=
  map_Forall (fun k' r' => k'.1 = k.1 -> c_ordinal r' <> c_ordinal r) m.

Definition insert_comp (k : string * Z * string) (r : compRow) : tx db unit := fun d =>
  match db_comps d !! k with
  | Some _ => Err (ErrSQL "UNIQUE constraint failed: runtime_components")
  | None =>
      if decide (ordinal_free k r (db_comps d)) then
        match db_gens d !! k.1 with
        | Some _ => Ok (tt, d <| db_comps := <[k:=r]> (db_comps d) |>)
        | None => Err (ErrSQL "FOREIGN KEY constraint failed")
        end
      else Err (ErrSQL "UNIQUE constraint failed: runtime_components.start_ordinal")
  end.

Definition update_comps (P : string * Z * string -> compRow -> Prop)
    `{!forall k r, Decision (P k r)} (f : compRow -> compRow) : tx db nat := fun d =>
  Ok (affected P (db_comps d), d <| db_comps := update P f (db_comps d) |>).

(** An [UPDATE] that sets [start_ordinal] is subject to the unique index. *)
Definition ordinals_unique (m : gmap (string * Z * string) compRow) : Prop :=
  map_Forall (fun k r => map_Forall (fun k' r' =>
    k'.1 = k.1 -> c_ordinal r' = c_ordinal r -> k' = k) m) m.

Definition update_comps_ordinal (P : string * Z * string -> compRow -> Prop)
    `{!forall k r, Decision (P k r)} (f : compRow -> compRow) : tx db nat := fun d =>
  let m := update P f (db_comps d) in
  if decide (ordinals_unique m) then Ok (affected P (db_comps d), d <| db_comps := m |>)
  else Err (ErrSQL "UNIQUE constraint failed: runtime_components.start_ordinal").

(** [INSERT OR IGNORE]: a row that breaks a uniqueness or [CHECK] constraint is
    skipped; a missing foreign key is still an error. *)
Definition insert_gen_ignore (k : string * Z) (r : genRow) : tx db unit := fun d =>
  match insert_gen k r d with Ok x => Ok x | Err _ => Ok (tt, d) end.

Definition insert_comp_ignore (k : string * Z * string) (r : compRow) : tx db unit := fun d =>
  match db_comps d !! k with
  | Some _ => Ok (tt, d)
  | None => if decide (ordinal_free k r (db_comps d)) then insert_comp k r d else Ok (tt, d)
  end.

(** The [CHECK]s of [runtime_generation_bindings]. *)
Definition binding_checks (b : ServiceBinding) : Prop :=
  (Transport b = TCP \/ Transport b = UDP) /\ 1 <= ContainerPort b <= 65535 /\
  (Mode b = Internal \/ Mode b = Loopback \/ Mode b = LAN) /\ 0 <= HostPort b <= 65535.

Definition insert_binding (k : string * Z) (b : ServiceBinding) : tx db unit := fun d =>
  match db_binds d !! (k, ServiceID b), db_gens d !! k with
  | Some _, _ => Err (ErrSQL "UNIQUE constraint failed: runtime_generation_bindings")
  | None, None => Err (ErrSQL "FOREIGN KEY constraint failed")
  | None, Some _ =>
      if decide (binding_checks b) then
        Ok (tt, d <| db_binds := <[(k, ServiceID b):=b]> (db_binds d) |>)
      else Err (ErrSQL "CHECK constraint failed")
  end.

Definition insert_binding_ignore (k : string * Z) (b : ServiceBinding) : tx db unit := fun d =>
  match db_binds d !! (k, ServiceID b) with
  | Some _ => Ok (tt, d)
  | None => if decide (binding_checks b) then insert_binding k b d else Ok (tt, d)
  end.

Definition delete_bindings (k : string * Z) : tx db unit := fun d =>
  Ok (tt, d <| db_binds := filter (fun kb => kb.1.1 <> k) (db_binds d) |>).

(** A freshly created database. *)
Definition empty_db : db :=
  {| db_ops := ∅; db_leases := ∅; db_events := []; db_gens := ∅; db_comps := ∅;
     db_binds := ∅; db_steps := ∅; db_ownership := ∅; db_recon := ∅ |}.
