(* ===== verification/Protocol.v ===== *)
(** * The API-to-helper protocol ([internal/protocol])

    The wire types with their JSON encoding, the canonical form and hash of a
    request, the length-prefixed frames, and the scan that refuses a request
    with repeated object keys.

    [encoding/json]'s encoder is modelled down to the bytes it writes.  Its
    strict struct decoder and SHA-256 are arguments of the definitions that
    call them. *)

From S2P Require Import Prelude.
From stdpp Require Import base gmap strings list.
From Stdlib Require Import ZArith Lia Ascii DecimalString DecimalPos.

Open Scope Z_scope.

(** ** JSON values and [json.Marshal] *)
Inductive json : Type :=
| JNull
| JBool (b : bool)
| JNum (z : Z)
| JStr (s : string)
| JArr (l : list json)
| JObj (fields : list (string * json)).

Definition byte_of (c : ascii) : N := N_of_ascii c.

Definition hex_digit (n : N) : ascii :=
  ascii_of_N (if (n <? 10)%N then n + 48 else n + 87)%N.

Definition hex_byte (n : N) : string :=
  String (hex_digit (n / 16)) (String (hex_digit (n mod 16)) EmptyString).

(** The length of the well-formed UTF-8 sequence at the head of a string, as
    [utf8.DecodeRuneInString] finds it; [None] for an invalid lead byte or a
    truncated, overlong, surrogate or out-of-range sequence. *)
Definition cont_byte (lo hi : N) (c : ascii) : bool :=
  ((lo <=? byte_of c) && (byte_of c <=? hi))%N.

Definition rune_len (s : string) : option nat :=
  match s with
  | EmptyString => None
  | String c s1 =>
      let b := byte_of c in
      if (b <? 128)%N then Some 1%nat
      else if ((194 <=? b) && (b <=? 223))%N then
        match s1 with
        | String c1 _ => if cont_byte 128 191 c1 then Some 2%nat else None
        | _ => None
        end
      else if ((224 <=? b) && (b <=? 239))%N then
        match s1 with
        | String c1 (String c2 _) =>
            let lo := (if b =? 224 then 160 else 128)%N in
            let hi := (if b =? 237 then 159 else 191)%N in
            if cont_byte lo hi c1 && cont_byte 128 191 c2 then Some 3%nat else None
        | _ => None
        end
      else if ((240 <=? b) && (b <=? 244))%N then
        match s1 with
        | String c1 (String c2 (String c3 _)) =>
            let lo := (if b =? 240 then 144 else 128)%N in
            let hi := (if b =? 244 then 143 else 191)%N in
            if cont_byte lo hi c1 && cont_byte 128 191 c2 && cont_byte 128 191 c3
            then Some 4%nat else None
        | _ => None
        end
      else None
  end.

(** One ASCII byte of a JSON string, with the encoder's default HTML escapes. *)
Definition escape_ascii (c : ascii) : string :=
  let b := byte_of c in
  if (b =? 34)%N then "\" +:+ String c ""
  else if (b =? 92)%N then "\\"
  else if (b =? 8)%N then "\b" else if (b =? 12)%N then "\f"
  else if (b =? 10)%N then "\n" else if (b =? 13)%N then "\r"
  else if (b =? 9)%N then "\t"
  else if ((b <? 32) || (b =? 60) || (b =? 62) || (b =? 38))%N
    then "\u00" +:+ hex_byte b
  else String c "".

Fixpoint escape_string (fuel : nat) (s : string) : string :=
  match fuel, s with
  | O, _ | _, EmptyString => ""
  | S fuel, String c s' =>
      match rune_len s with
      | Some 1%nat => escape_ascii c +:+ escape_string fuel s'
      | Some n =>
          let r := String.substring 0 n s in
          let rest := String.substring n (String.length s - n) s in
          (match r with
           | String a (String b (String d EmptyString)) =>
               if ((byte_of a =? 226) && (byte_of b =? 128) && (byte_of d =? 168))%N then "\u2028"
               else if ((byte_of a =? 226) && (byte_of b =? 128) && (byte_of d =? 169))%N then "\u2029"
               else r
           | _ => r
           end) +:+ escape_string fuel rest
      | None => "\ufffd" +:+ escape_string fuel s'
      end
  end.

Definition quote : string := String (ascii_of_N 34) "".

Definition json_string (s : string) : string :=
  quote +:+ escape_string (String.length s) s +:+ quote.

Definition json_num (z : Z) : string := NilEmpty.string_of_int (Z.to_int z).

Fixpoint join (sep : string) (l : list string) : string :=
  match l with
  | [] => ""
  | [x] => x
  | x :: l' => x +:+ sep +:+ join sep l'
  end.

Fixpoint marshal (v : json) : string :=
  match v with
  | JNull => "null"
  | JBool b => if b then "true" else "false"
  | JNum z => json_num z
  | JStr s => json_string s
  | JArr l => "[" +:+ join "," (map marshal l) +:+ "]"
  | JObj fs =>
      "{" +:+ join "," (map (fun kv => json_string kv.1 +:+ ":" +:+ marshal kv.2) fs) +:+ "}"
  end.

(** Struct fields: [freq] always, [fopt] under [omitempty] (dropped when
    false, 0, a nil pointer, or an empty string, slice or map). *)
Definition json_empty (v : json) : bool :=
  match v with
  | JNull | JBool false | JNum 0 | JStr EmptyString | JArr [] | JObj [] => true
  | _ => false
  end.
Definition freq (name : string) (v : json) : list (string * json) := [(name, v)].
Definition fopt (name : string) (v : json) : list (string * json) :=
  if json_empty v then [] else [(name, v)].
Definition jarr {A} (f : A -> json) (l : list A) : json := JArr (map f l).
Definition jptr {A} (f : A -> json) (o : option A) : json :=
  match o with Some a => f a | None => JNull end.

(** ** Wire types, with the JSON object each is encoded to *)
Module Wire.

Record EnvVar : Type := {
  ev_Name : string;
  ev_Value : string;
  ev_Secret : bool;
  ev_Generate : string
}.

Definition EnvVar_json (r : EnvVar) : json :=
  JObj (concat [
    freq "name" (JStr (ev_Name r));
    fopt "value" (JStr (ev_Value r));
    fopt "secret" (JBool (ev_Secret r));
    fopt "generate" (JStr (ev_Generate r))
  ]).

#[export] Instance EnvVar_eta : Eta EnvVar :=
  fun r => Build_EnvVar
    (ev_Name r) (ev_Value r) (ev_Secret r) (ev_Generate r).
#[export] Instance set_ev_Value : Setter ev_Value := ltac:(mk_setter).

Record WireMount : Type := {
  sm_ID : string;
  sm_ContainerPath : string;
  sm_HostPath : string;
  sm_ReadOnly : bool;
  sm_OwnerUID : Z;
  sm_OwnerGID : Z
}.

Definition WireMount_json (r : WireMount) : json :=
  JObj (concat [
    freq "id" (JStr (sm_ID r));
    freq "container_path" (JStr (sm_ContainerPath r));
    freq "host_path" (JStr (sm_HostPath r));
    fopt "read_only" (JBool (sm_ReadOnly r));
    fopt "owner_uid" (JNum (sm_OwnerUID r));
    fopt "owner_gid" (JNum (sm_OwnerGID r))
  ]).

Record RuntimeIdentity : Type := {
  ri_UID : Z;
  ri_GID : Z
}.

Definition RuntimeIdentity_json (r : RuntimeIdentity) : json :=
  JObj (concat [
    freq "uid" (JNum (ri_UID r));
    freq "gid" (JNum (ri_GID r))
  ]).

Record ConfigurationPolicy : Type := {
  cp_Type : string;
  cp_StorageID : string
}.

Definition ConfigurationPolicy_json (r : ConfigurationPolicy) : json :=
  JObj (concat [
    freq "type" (JStr (cp_Type r));
    freq "storage_id" (JStr (cp_StorageID r))
  ]).

Record ExternalStorageBinding : Type := {
  es_SlotID : string;
  es_RootID : string
}.

Definition ExternalStorageBinding_json (r : ExternalStorageBinding) : json :=
  JObj (concat [
    freq "slot_id" (JStr (es_SlotID r));
    freq "root_id" (JStr (es_RootID r))
  ]).

Record Service : Type := {
  sv_ID : string;
  sv_Protocol : string;
  sv_ContainerPort : Z
}.

Definition Service_json (r : Service) : json :=
  JObj (concat [
    freq "id" (JStr (sv_ID r));
    freq "protocol" (JStr (sv_Protocol r));
    freq "container_port" (JNum (sv_ContainerPort r))
  ]).

Record WireBinding : Type := {
  sb_ServiceID : string;
  sb_Transport : string;
  sb_ContainerPort : Z;
  sb_Mode : string;
  sb_HostAddress : string;
  sb_HostPort : Z
}.

Definition WireBinding_json (r : WireBinding) : json :=
  JObj (concat [
    freq "service_id" (JStr (sb_ServiceID r));
    freq "transport" (JStr (sb_Transport r));
    freq "container_port" (JNum (sb_ContainerPort r));
    freq "mode" (JStr (sb_Mode r));
    fopt "host_address" (JStr (sb_HostAddress r));
    fopt "host_port" (JNum (sb_HostPort r))
  ]).

Record HardwareRequirement : Type := {
  hw_Class : string;
  hw_Optional : bool;
  hw_CPUFallback : bool
}.

Definition HardwareRequirement_json (r : HardwareRequirement) : json :=
  JObj (concat [
    freq "class" (JStr (hw_Class r));
    fopt "optional" (JBool (hw_Optional r));
    fopt "cpu_fallback" (JBool (hw_CPUFallback r))
  ]).

Record IngressRoute : Type := {
  ir_RouteID : string;
  ir_InstallationID : string;
  ir_ServiceID : string;
  ir_Hostname : string;
  ir_ExposureMode : string;
  ir_UpstreamProtocol : string;
  ir_TLSPolicy : string;
  ir_CertificateID : string;
  ir_ProviderID : string
}.

Definition IngressRoute_json (r : IngressRoute) : json :=
  JObj (concat [
    freq "route_id" (JStr (ir_RouteID r));
    freq "installation_id" (JStr (ir_InstallationID r));
    freq "service_id" (JStr (ir_ServiceID r));
    freq "hostname" (JStr (ir_Hostname r));
    freq "exposure_mode" (JStr (ir_ExposureMode r));
    freq "upstream_protocol" (JStr (ir_UpstreamProtocol r));
    freq "tls_policy" (JStr (ir_TLSPolicy r));
    fopt "certificate_id" (JStr (ir_CertificateID r));
    fopt "provider_id" (JStr (ir_ProviderID r))
  ]).

Record WireComponent : Type := {
  co_ID : string;
  co_Image : string;
  co_Command : list string;
  co_Environment : list EnvVar;
  co_Storage : list WireMount;
  co_Services : list Service;
  co_DependsOn : list string;
  co_Restart : string;
  co_Hardware : list HardwareRequirement;
  co_ExternalStorage : list ExternalStorageBinding;
  co_RunAs : option RuntimeIdentity
}.

Definition WireComponent_json (r : WireComponent) : json :=
  JObj (concat [
    freq "id" (JStr (co_ID r));
    freq "image" (JStr (co_Image r));
    fopt "command" (jarr (fun x => JStr x) (co_Command r));
    fopt "environment" (jarr (fun x => EnvVar_json x) (co_Environment r));
    fopt "storage" (jarr (fun x => WireMount_json x) (co_Storage r));
    fopt "services" (jarr (fun x => Service_json x) (co_Services r));
    fopt "depends_on" (jarr (fun x => JStr x) (co_DependsOn r));
    fopt "restart" (JStr (co_Restart r));
    fopt "hardware" (jarr (fun x => HardwareRequirement_json x) (co_Hardware r));
    fopt "external_storage" (jarr (fun x => ExternalStorageBinding_json x) (co_ExternalStorage r));
    fopt "run_as" (jptr RuntimeIdentity_json (co_RunAs r))
  ]).

#[export] Instance WireComponent_eta : Eta WireComponent :=
  fun r => Build_WireComponent
    (co_ID r) (co_Image r) (co_Command r) (co_Environment r)
    (co_Storage r) (co_Services r) (co_DependsOn r) (co_Restart r)
    (co_Hardware r) (co_ExternalStorage r) (co_RunAs r).
#[export] Instance set_co_Environment : Setter co_Environment := ltac:(mk_setter).

Record Request : Type := {
  rq_Version : Z;
  rq_ID : string;
  rq_OperationID : string;
  rq_Operation : string;
  rq_OperationRevision : Z;
  rq_Deadline : string;
  rq_InstanceID : string;
  rq_RuntimeGeneration : Z;
  rq_Image : string;
  rq_ApplicationID : string;
  rq_ReleaseID : string;
  rq_NetworkName : string;
  rq_DataPath : string;
  rq_RestartPolicy : string;
  rq_Command : list string;
  rq_Environment : list EnvVar;
  rq_Storage : list WireMount;
  rq_Bindings : list WireBinding;
  rq_ExposureMode : string;
  rq_HostAddress : string;
  rq_HostPort : Z;
  rq_ServiceID : string;
  rq_ContainerPort : Z;
  rq_ServiceProtocol : string;
  rq_Services : list Service;
  rq_Components : list WireComponent;
  rq_Hardware : list HardwareRequirement;
  rq_ExternalStorage : list ExternalStorageBinding;
  rq_RootID : string;
  rq_RootName : string;
  rq_RootPath : string;
  rq_RootMode : string;
  rq_RunAs : option RuntimeIdentity;
  rq_BackupID : string;
  rq_RepairAction : string;
  rq_CredentialID : string;
  rq_Configuration : option ConfigurationPolicy;
  rq_IngressRoutes : list IngressRoute;
  rq_CertificateID : string;
  rq_Hostname : string;
  rq_CertificatePEM : string;
  rq_PrivateKeyPEM : string;
  rq_ACMEEmail : string;
  rq_ACMEDirectory : string;
  rq_AcceptACMETerms : bool;
  rq_ProviderID : string;
  rq_ProviderToken : string;
  rq_ProviderAccount : string;
  rq_ProviderZone : string;
  rq_ProviderTunnel : string;
  rq_ConfirmRemote : bool
}.

Definition Request_json (r : Request) : json :=
  JObj (concat [
    freq "version" (JNum (rq_Version r));
    freq "request_id" (JStr (rq_ID r));
    fopt "operation_id" (JStr (rq_OperationID r));
    freq "operation" (JStr (rq_Operation r));
    fopt "operation_revision" (JNum (rq_OperationRevision r));
    fopt "deadline" (JStr (rq_Deadline r));
    freq "instance_id" (JStr (rq_InstanceID r));
    fopt "runtime_generation" (JNum (rq_RuntimeGeneration r));
    fopt "image" (JStr (rq_Image r));
    fopt "application_id" (JStr (rq_ApplicationID r));
    fopt "release_id" (JStr (rq_ReleaseID r));
    fopt "network_name" (JStr (rq_NetworkName r));
    fopt "data_path" (JStr (rq_DataPath r));
    fopt "restart_policy" (JStr (rq_RestartPolicy r));
    fopt "command" (jarr (fun x => JStr x) (rq_Command r));
    fopt "environment" (jarr (fun x => EnvVar_json x) (rq_Environment r));
    fopt "storage" (jarr (fun x => WireMount_json x) (rq_Storage r));
    fopt "bindings" (jarr (fun x => WireBinding_json x) (rq_Bindings r));
    fopt "exposure_mode" (JStr (rq_ExposureMode r));
    fopt "host_address" (JStr (rq_HostAddress r));
    fopt "host_port" (JNum (rq_HostPort r));
    fopt "service_id" (JStr (rq_ServiceID r));
    fopt "container_port" (JNum (rq_ContainerPort r));
    fopt "service_protocol" (JStr (rq_ServiceProtocol r));
    fopt "services" (jarr (fun x => Service_json x) (rq_Services r));
    fopt "components" (jarr (fun x => WireComponent_json x) (rq_Components r));
    fopt "hardware" (jarr (fun x => HardwareRequirement_json x) (rq_Hardware r));
    fopt "external_storage" (jarr (fun x => ExternalStorageBinding_json x) (rq_ExternalStorage r));
    fopt "root_id" (JStr (rq_RootID r));
    fopt "root_name" (JStr (rq_RootName r));
    fopt "root_path" (JStr (rq_RootPath r));
    fopt "root_mode" (JStr (rq_RootMode r));
    fopt "run_as" (jptr RuntimeIdentity_json (rq_RunAs r));
    fopt "backup_id" (JStr (rq_BackupID r));
    fopt "repair_action" (JStr (rq_RepairAction r));
    fopt "credential_id" (JStr (rq_CredentialID r));
    fopt "configuration" (jptr ConfigurationPolicy_json (rq_Configuration r));
    fopt "ingress_routes" (jarr (fun x => IngressRoute_json x) (rq_IngressRoutes r));
    fopt "certificate_id" (JStr (rq_CertificateID r));
    fopt "hostname" (JStr (rq_Hostname r));
    fopt "certificate_pem" (JStr (rq_CertificatePEM r));
    fopt "private_key_pem" (JStr (rq_PrivateKeyPEM r));
    fopt "acme_email" (JStr (rq_ACMEEmail r));
    fopt "acme_directory" (JStr (rq_ACMEDirectory r));
    fopt "accept_acme_terms" (JBool (rq_AcceptACMETerms r));
    fopt "provider_id" (JStr (rq_ProviderID r));
    fopt "provider_token" (JStr (rq_ProviderToken r));
    fopt "provider_account" (JStr (rq_ProviderAccount r));
    fopt "provider_zone" (JStr (rq_ProviderZone r));
    fopt "provider_tunnel" (JStr (rq_ProviderTunnel r));
    fopt "confirm_remote" (JBool (rq_ConfirmRemote r))
  ]).

#[export] Instance Request_eta : Eta Request :=
  fun r => Build_Request
    (rq_Version r) (rq_ID r) (rq_OperationID r) (rq_Operation r)
    (rq_OperationRevision r) (rq_Deadline r) (rq_InstanceID r) (rq_RuntimeGeneration r)
    (rq_Image r) (rq_ApplicationID r) (rq_ReleaseID r) (rq_NetworkName r)
    (rq_DataPath r) (rq_RestartPolicy r) (rq_Command r) (rq_Environment r)
    (rq_Storage r) (rq_Bindings r) (rq_ExposureMode r) (rq_HostAddress r)
    (rq_HostPort r) (rq_ServiceID r) (rq_ContainerPort r) (rq_ServiceProtocol r)
    (rq_Services r) (rq_Components r) (rq_Hardware r) (rq_ExternalStorage r)
    (rq_RootID r) (rq_RootName r) (rq_RootPath r) (rq_RootMode r)
    (rq_RunAs r) (rq_BackupID r) (rq_RepairAction r) (rq_CredentialID r)
    (rq_Configuration r) (rq_IngressRoutes r) (rq_CertificateID r) (rq_Hostname r)
    (rq_CertificatePEM r) (rq_PrivateKeyPEM r) (rq_ACMEEmail r) (rq_ACMEDirectory r)
    (rq_AcceptACMETerms r) (rq_ProviderID r) (rq_ProviderToken r) (rq_ProviderAccount r)
    (rq_ProviderZone r) (rq_ProviderTunnel r) (rq_ConfirmRemote r).
#[export] Instance set_rq_ID : Setter rq_ID := ltac:(mk_setter).
#[export] Instance set_rq_OperationID : Setter rq_OperationID := ltac:(mk_setter).
#[export] Instance set_rq_Deadline : Setter rq_Deadline := ltac:(mk_setter).
#[export] Instance set_rq_CertificatePEM : Setter rq_CertificatePEM := ltac:(mk_setter).
#[export] Instance set_rq_PrivateKeyPEM : Setter rq_PrivateKeyPEM := ltac:(mk_setter).
#[export] Instance set_rq_ProviderToken : Setter rq_ProviderToken := ltac:(mk_setter).
#[export] Instance set_rq_Environment : Setter rq_Environment := ltac:(mk_setter).
#[export] Instance set_rq_Components : Setter rq_Components := ltac:(mk_setter).
#[export] Instance set_rq_Version : Setter rq_Version := ltac:(mk_setter).
#[export] Instance set_rq_OperationRevision : Setter rq_OperationRevision := ltac:(mk_setter).
#[export] Instance set_rq_Operation : Setter rq_Operation := ltac:(mk_setter).
#[export] Instance set_rq_RepairAction : Setter rq_RepairAction := ltac:(mk_setter).
#[export] Instance set_rq_RuntimeGeneration : Setter rq_RuntimeGeneration := ltac:(mk_setter).
#[export] Instance set_rq_InstanceID : Setter rq_InstanceID := ltac:(mk_setter).

End Wire.
Import Wire.

(** [Response]; [Result any] is an optional JSON value (nil is [None]). *)
Record Response : Type := {
  rs_OK : bool;
  rs_RequestID : string;
  rs_OperationID : string;
  rs_State : string;
  rs_Phase : string;
  rs_ActiveOperationID : string;
  rs_Result : option json;
  rs_ErrorCode : string;
  rs_Error : string;
  rs_Retryable : bool
}.

Definition Response_json (r : Response) : json :=
  JObj (concat [
    freq "ok" (JBool (rs_OK r)); fopt "request_id" (JStr (rs_RequestID r));
    fopt "operation_id" (JStr (rs_OperationID r)); fopt "state" (JStr (rs_State r));
    fopt "phase" (JStr (rs_Phase r)); fopt "active_operation_id" (JStr (rs_ActiveOperationID r));
    match rs_Result r with Some v => [("result", v)] | None => [] end;
    fopt "error_code" (JStr (rs_ErrorCode r)); fopt "error" (JStr (rs_Error r));
    fopt "retryable" (JBool (rs_Retryable r))
  ]).

Definition zero_response : Response :=
  {| rs_OK := false; rs_RequestID := ""; rs_OperationID := ""; rs_State := "";
     rs_Phase := ""; rs_ActiveOperationID := ""; rs_Result := None;
     rs_ErrorCode := ""; rs_Error := ""; rs_Retryable := false |}.

#[export] Instance Response_eta : Eta Response :=
  fun r => Build_Response (rs_OK r) (rs_RequestID r) (rs_OperationID r) (rs_State r)
    (rs_Phase r) (rs_ActiveOperationID r) (rs_Result r) (rs_ErrorCode r) (rs_Error r)
    (rs_Retryable r).
#[export] Instance set_rs_OK : Setter rs_OK := ltac:(mk_setter).
#[export] Instance set_rs_RequestID : Setter rs_RequestID := ltac:(mk_setter).
#[export] Instance set_rs_OperationID : Setter rs_OperationID := ltac:(mk_setter).
#[export] Instance set_rs_State : Setter rs_State := ltac:(mk_setter).
#[export] Instance set_rs_Phase : Setter rs_Phase := ltac:(mk_setter).
#[export] Instance set_rs_ActiveOperationID : Setter rs_ActiveOperationID := ltac:(mk_setter).
#[export] Instance set_rs_Result : Setter rs_Result := ltac:(mk_setter).
#[export] Instance set_rs_ErrorCode : Setter rs_ErrorCode := ltac:(mk_setter).
#[export] Instance set_rs_Error : Setter rs_Error := ltac:(mk_setter).
#[export] Instance set_rs_Retryable : Setter rs_Retryable := ltac:(mk_setter).

Definition SemanticOperationID (r : Request) : string :=
  if decide (rq_OperationID r <> "") then rq_OperationID r else rq_ID r.

Definition MaxFrame : Z := 64 * 1024.

(** ** Canonical form *)

(** [if env[i].Secret { env[i].Value = "" }] over a slice of variables. *)
Definition scrub_env (env : list EnvVar) : list EnvVar :=
  map (fun v => if ev_Secret v then v <| ev_Value := "" |> else v) env.

Definition scrub_component (c : WireComponent) : WireComponent :=
  c <| co_Environment := scrub_env (co_Environment c) |>.

(** [Canonical] receives the request by value, but [r.Environment] and
    [r.Components] are slices: the assignments to their elements write into
    the arrays the caller's request also points to.  [canonical_caller] is the
    caller's request after the call: its scalar fields are as before, its
    secret values are gone. *)
Definition canonical_caller (r : Request) : Request :=
  r <| rq_Environment := scrub_env (rq_Environment r) |>
    <| rq_Components := map scrub_component (rq_Components r) |>.

(** The local copy that is encoded. *)
Definition canonical_local (r : Request) : Request :=
  canonical_caller r
    <| rq_ID := "" |> <| rq_OperationID := "" |> <| rq_Deadline := "" |>
    <| rq_CertificatePEM := "" |> <| rq_PrivateKeyPEM := "" |> <| rq_ProviderToken := "" |>.

Definition Canonical (r : Request) : res string :=
  let b := marshal (Request_json (canonical_local r)) in
  if decide (Z.of_nat (String.length b) > MaxFrame)
  then Err (ErrMsg "canonical request too large") else Ok b.

(** [Hash]; [sha256_hex] is [hex.EncodeToString(sha256.Sum256(b)[:])]. *)
Definition Hash (sha256_hex : string -> string) (r : Request) : res string :=
  match Canonical r with Ok b => Ok (sha256_hex b) | Err e => Err e end.

(** ** Frames: a 4-byte big-endian length and the body *)
Definition be32 (n : Z) : list Z :=
  [Z.land (Z.shiftr n 24) 255; Z.land (Z.shiftr n 16) 255;
   Z.land (Z.shiftr n 8) 255; Z.land n 255].

Definition of_be32 (a b c d : Z) : Z :=
  Z.lor (Z.shiftl a 24) (Z.lor (Z.shiftl b 16) (Z.lor (Z.shiftl c 8) d)).

Definition bytes_of (s : string) : list Z :=
  map (fun c => Z.of_N (N_of_ascii c)) (String.list_ascii_of_string s).

(** [Write] on the marshalled value: the bytes put on the connection. *)
Definition Write (v : json) : res (list Z) :=
  let b := bytes_of (marshal v) in
  if decide (Z.of_nat (length b) > MaxFrame) then Err (ErrMsg "response too large")
  else Ok (be32 (Z.of_nat (length b)) ++ b).

(** The header checks and [io.ReadFull] shared by [Read] and [ReadResponse];
    returns the body and what is left on the connection. *)
Definition read_frame (input : list Z) : res (list Z * list Z) :=
  match input with
  | a :: b :: c :: d :: rest =>
      let n := of_be32 a b c d in
      if decide (n = 0 \/ n > MaxFrame) then Err (ErrMsg "invalid frame length")
      else if decide (Z.of_nat (length rest) < n) then Err (ErrMsg "unexpected EOF")
      else Ok (take (Z.to_nat n) rest, drop (Z.to_nat n) rest)
  | _ => Err (ErrMsg "unexpected EOF")
  end.

(** ** Duplicate keys

    The tokens [json.Decoder.Token] yields: delimiters, object keys and string
    values as strings, and other scalars.  [d.More()] reports that the current
    array or object has another element. *)
Inductive delim : Type := LBrace | RBrace | LBrack | RBrack.
Inductive token : Type := TDelim (d : delim) | TString (s : string) | TScalar (v : json).

#[export] Instance delim_eq_dec : EqDecision delim.
Proof. solve_decision. Defined.

Definition more (ts : list token) : bool :=
  match ts with
  | [] | TDelim RBrace :: _ | TDelim RBrack :: _ => false
  | _ => true
  end.

(** [readUniqueValue]: consume one value, refusing an object with a repeated
    key.  The two loops are the bodies of [case '{'] and [case '[']; every
    iteration of either consumes a token, so the number of tokens is enough
    fuel. *)
Fixpoint readUniqueValue (fuel : nat) (ts : list token) : res (list token) :=
  match fuel with
  | O => Err (ErrMsg "EOF")
  | S fuel =>
      match ts with
      | [] => Err (ErrMsg "EOF")
      | TDelim LBrace :: ts => object_loop fuel ∅ ts
      | TDelim LBrack :: ts => array_loop fuel ts
      | TDelim _ :: _ => Err (ErrMsg "unexpected JSON delimiter")
      | _ :: ts => Ok ts
      end
  end
with object_loop (fuel : nat) (seen : gset string) (ts : list token) : res (list token) :=
  match fuel with
  | O => Err (ErrMsg "EOF")
  | S fuel =>
      if more ts then
        match ts with
        | TString key :: ts =>
            if decide (key ∈ seen) then Err (ErrMsg "duplicate JSON key")
            else rbind (readUniqueValue fuel ts) (object_loop fuel ({[key]} ∪ seen))
        | _ => Err (ErrMsg "object key is not a string")
        end
      else match ts with
           | TDelim RBrace :: ts => Ok ts
           | _ => Err (ErrMsg "invalid object termination")
           end
  end
with array_loop (fuel : nat) (ts : list token) : res (list token) :=
  match fuel with
  | O => Err (ErrMsg "EOF")
  | S fuel =>
      if more ts then rbind (readUniqueValue fuel ts) (array_loop fuel)
      else match ts with
           | TDelim RBrack :: ts => Ok ts
           | _ => Err (ErrMsg "invalid array termination")
           end
  end.

Definition rejectDuplicateKeys (ts : list token) : res unit :=
  match readUniqueValue (S (length ts)) ts with
  | Ok [] => Ok tt
  | Ok _ => Err (ErrMsg "trailing JSON token")
  | Err e => Err e
  end.

(** [Read] after the frame: [tokens] is the decoder's token stream of the
    body, [decode] its strict decoding into a [Request] (unknown fields
    refused) with the trailing-data check of the second [Decode]. *)
Definition Read (tokens : list Z -> res (list token)) (decode : list Z -> res Request)
    (input : list Z) : res (Request * list Z) :=
  rbind (read_frame input) (fun '(body, rest) =>
  rbind (tokens body) (fun ts =>
  rbind (rejectDuplicateKeys ts) (fun _ =>
  rbind (decode body) (fun q => Ok (q, rest))))).

Definition ReadResponse (decode : list Z -> res Response) (input : list Z)
    : res (Response * list Z) :=
  rbind (read_frame input) (fun '(body, rest) =>
  rbind (decode body) (fun v => Ok (v, rest))).

(** ** Canonical form: properties *)

Lemma scrub_env_idemp env : scrub_env (scrub_env env) = scrub_env env.
Proof.
  unfold scrub_env. rewrite map_map. apply map_ext. intros v.
  destruct v as [n val [] g]; reflexivity.
Qed.

Lemma scrub_components_idemp cs :
  map scrub_component (map scrub_component cs) = map scrub_component cs.
Proof.
  rewrite map_map. apply map_ext. intros c. unfold scrub_component. cbn.
  by rewrite scrub_env_idemp.
Qed.

(** Two requests have the same semantic contents when they differ only in the
    transport identity, the semantic identity, the deadline, secret values,
    and the certificate, key and provider-token material. *)
Definition same_contents (r1 r2 : Request) : Prop := canonical_local r1 = canonical_local r2.

Definition env_secrets_empty (env : list EnvVar) : Prop :=
  Forall (fun v => ev_Secret v = true -> ev_Value v = "") env.

Lemma scrub_env_empty env : env_secrets_empty (scrub_env env).
Proof.
  apply Forall_forall. intros v Hv. apply list_elem_of_fmap in Hv as (w & -> & _).
  destruct w as [n val [] g]; done.
Qed.

(** The helper's plan validation: a secret variable must not carry a value
    ([r.Environment] and every component's environment). *)
Definition secrets_absent (r : Request) : Prop :=
  env_secrets_empty (rq_Environment r) /\
  Forall (fun c => env_secrets_empty (co_Environment c)) (rq_Components r).

Lemma canonical_caller_idemp r : canonical_caller (canonical_caller r) = canonical_caller r.
Proof.
  unfold canonical_caller. cbn. by rewrite scrub_env_idemp, scrub_components_idemp.
Qed.

Lemma canonical_local_caller r : canonical_local (canonical_caller r) = canonical_local r.
Proof.
  unfold canonical_local, canonical_caller. cbn.
  by rewrite scrub_env_idemp, scrub_components_idemp.
Qed.

(** ** Frames: properties *)
Lemma of_be32_be32 n : 0 <= n < 2 ^ 32 ->
  match be32 n with [a; b; c; d] => of_be32 a b c d | _ => -1 end = n.
Proof.
  intros Hn. unfold be32, of_be32. apply Z.bits_inj'. intros i Hi.
  change 255 with (Z.ones 8).
  repeat rewrite ?Z.lor_spec, ?Z.shiftl_spec, ?Z.land_spec, ?Z.shiftr_spec, ?Z.testbit_ones
    by lia.
  assert (Hhigh : 32 <= i -> Z.testbit n i = false).
  { intros Hi'. rewrite Z.testbit_eqb by lia. rewrite Z.div_small; [done|].
    split; [lia|]. eapply Z.lt_le_trans; [apply Hn|]. apply Z.pow_le_mono_r; lia. }
  destruct (decide (i < 8)) as [?|?];
    [|destruct (decide (i < 16)) as [?|?]; [|destruct (decide (i < 24)) as [?|?];
      [|destruct (decide (i < 32)) as [?|?]]]];
  repeat match goal with
  | |- context [Z.testbit (Z.shiftr n ?k) ?j] =>
      first [rewrite (Z.shiftr_spec n k j) by lia | rewrite (Z.testbit_neg_r _ j) by lia]
  | |- context [Z.testbit n ?j] =>
      lazymatch j with
      | i => fail
      | _ => first [replace j with i by lia | rewrite (Z.testbit_neg_r n j) by lia]
      end
  end;
  repeat match goal with
  | |- context [(?a <=? ?b)] => destruct (Z.leb_spec a b); try lia
  | |- context [(?a <? ?b)] => destruct (Z.ltb_spec a b); try lia
  end; simpl; rewrite ?andb_false_r, ?andb_true_r, ?orb_false_r, ?orb_false_l;
  try done; rewrite ?Hhigh by lia; done.
Qed.

Lemma read_frame_be32 (body rest : list Z) :
  0 < Z.of_nat (length body) <= MaxFrame ->
  read_frame (be32 (Z.of_nat (length body)) ++ body ++ rest) = Ok (body, rest).
Proof.
  intros Hlen. pose proof (of_be32_be32 (Z.of_nat (length body))) as Hrt.
  unfold be32 in *. cbn -[of_be32 Z.land Z.shiftr] in *. unfold MaxFrame in *. rewrite Hrt by lia.
  rewrite decide_False by (unfold MaxFrame; lia). rewrite length_app, decide_False by lia.
  rewrite Nat2Z.id. by rewrite take_app_length, drop_app_length.
Qed.

Lemma bytes_of_length s : length (bytes_of s) = String.length s.
Proof. unfold bytes_of. rewrite length_map. induction s; simpl; congruence. Qed.

Lemma marshal_nonempty v : (0 < String.length (marshal v))%nat.
Proof.
  destruct v as [|[]|z|s|l|fs]; simpl; try lia.
  unfold json_num. destruct (Z.to_int z) as [u|u] eqn:E; simpl; [|lia].
  destruct z as [|p|p]; simpl in E; inversion E; subst; simpl; [lia|].
  destruct (Pos.to_uint p) eqn:E2; simpl; try lia.
  by apply DecimalPos.Unsigned.to_uint_nonnil in E2.
Qed.

(** ** Duplicate keys: the scan against the JSON value it reads *)

(** The token stream of a value. *)
Fixpoint tokens_of (v : json) : list token :=
  match v with
  | JStr s => [TString s]
  | JArr l => TDelim LBrack :: concat (map tokens_of l) ++ [TDelim RBrack]
  | JObj fs =>
      TDelim LBrace :: concat (map (fun kv => TString kv.1 :: tokens_of kv.2) fs)
        ++ [TDelim RBrace]
  | _ => [TScalar v]
  end.

(** No object anywhere in the value repeats a key. *)
Fixpoint unique_keys (v : json) : bool :=
  match v with
  | JArr l => forallb unique_keys l
  | JObj fs => bool_decide (NoDup (map fst fs)) && forallb (fun kv => unique_keys kv.2) fs
  | _ => true
  end.

Lemma json_rect_nested (P : json -> Prop)
  (Hnull : P JNull) (Hbool : forall b, P (JBool b)) (Hnum : forall z, P (JNum z))
  (Hstr : forall s, P (JStr s)) (Harr : forall l, Forall P l -> P (JArr l))
  (Hobj : forall fs, Forall (fun kv => P kv.2) fs -> P (JObj fs)) : forall v, P v.
Proof.
  fix IH 1. intros [|b|z|s|l|fs].
  - exact Hnull.
  - exact (Hbool b).
  - exact (Hnum z).
  - exact (Hstr s).
  - apply Harr. induction l as [|v l IHl]; constructor; [apply IH | exact IHl].
  - apply Hobj. induction fs as [|[k v] fs IHl]; constructor; [apply IH | exact IHl].
Qed.

Definition dup_error : error := ErrMsg "duplicate JSON key".

Definition reads_value (v : json) : Prop := forall fuel ts,
  (length (tokens_of v) <= fuel)%nat ->
  readUniqueValue fuel (tokens_of v ++ ts) = if unique_keys v then Ok ts else Err dup_error.

Lemma more_tokens_of v ts : more (tokens_of v ++ ts) = true.
Proof. by destruct v. Qed.

Lemma array_loop_spec l : Forall reads_value l -> forall fuel ts,
  (length (concat (map tokens_of l)) < fuel)%nat ->
  array_loop fuel (concat (map tokens_of l) ++ TDelim RBrack :: ts) =
  if forallb unique_keys l then Ok ts else Err dup_error.
Proof.
  induction 1 as [|v l Hv _ IH]; intros [|fuel] ts Hf; simpl in *; try lia; [done|].
  rewrite length_app in Hf. rewrite <- app_assoc, more_tokens_of.
  rewrite Hv by lia. destruct (unique_keys v); simpl; [|done]. apply IH.
  destruct v; simpl in *; lia.
Qed.

Lemma object_loop_spec fs : Forall (fun kv => reads_value kv.2) fs -> forall fuel seen ts,
  (length (concat (map (fun kv : string * json => TString kv.1 :: tokens_of kv.2) fs)) < fuel)%nat ->
  object_loop fuel seen
    (concat (map (fun kv => TString kv.1 :: tokens_of kv.2) fs) ++ TDelim RBrace :: ts) =
  if bool_decide (NoDup (map fst fs)) && bool_decide (Forall (.∉ seen) (map fst fs))
     && forallb (fun kv => unique_keys kv.2) fs
  then Ok ts else Err dup_error.
Proof.
  induction 1 as [|[k v] fs Hv _ IH]; intros [|fuel] seen ts Hf; simpl in *; try lia.
  - done.
  - rewrite length_app in Hf. case_decide as Hk.
    + rewrite andb_comm, (bool_decide_eq_false_2 (Forall _ (k :: _))), andb_false_r; [|inversion 1; done].
      by rewrite andb_false_r.
    + rewrite <- app_assoc, Hv by lia. destruct (unique_keys v); simpl.
      2: { by rewrite !andb_false_r. }
      rewrite IH by lia.
      replace (bool_decide (NoDup (k :: map fst fs)) &&
               bool_decide (Forall (.∉ seen) (k :: map fst fs)))
        with (bool_decide (NoDup (map fst fs)) &&
              bool_decide (Forall (.∉ {[k]} ∪ seen) (map fst fs))); [done|].
      rewrite <- !bool_decide_and. apply bool_decide_ext.
      rewrite NoDup_cons, Forall_cons, !Forall_forall. set_solver.
Qed.

Lemma readUniqueValue_spec v : reads_value v.
Proof.
  induction v as [| | | |l IH|fs IH] using json_rect_nested; intros [|fuel] ts Hf;
    simpl in *; try lia; try done; rewrite length_app in Hf; simpl in Hf.
  - rewrite <- app_assoc. simpl. by apply array_loop_spec; [|lia].
  - rewrite <- app_assoc. simpl. rewrite object_loop_spec; [|done|lia].
    rewrite (bool_decide_eq_true_2 (Forall _ _)), andb_true_r; [done|].
    apply Forall_forall. set_solver.
Qed.

(** ** Properties of the protocol *)
Module ProtocolProps.

(** The scan that guards request decoding accepts
    the token stream of a JSON value exactly when no object in it, at any
    depth, repeats a key, and fails with the duplicate-key error otherwise. *)
Theorem duplicate_keys_rejected (v : json) :
  rejectDuplicateKeys (tokens_of v) = if unique_keys v then Ok tt else Err dup_error.
Proof.
  unfold rejectDuplicateKeys.
  pose proof (readUniqueValue_spec v (S (length (tokens_of v))) []) as H.
  rewrite app_nil_r in H. rewrite H by lia. by destruct (unique_keys v).
Qed.

(** The idempotency hash does not depend
    on the request ID, the operation ID, the deadline, certificate, key and
    provider-token material, or the values of secret variables. *)
Theorem hash_ignores_transport_and_secrets
    (sha : string -> string) (r : Request) (id op deadline cert key token : string)
    (env : list EnvVar) (comps : list WireComponent)
    (Henv : scrub_env env = scrub_env (rq_Environment r))
    (Hcomps : map scrub_component comps = map scrub_component (rq_Components r)) :
  Hash sha (r <| rq_ID := id |> <| rq_OperationID := op |> <| rq_Deadline := deadline |>
              <| rq_CertificatePEM := cert |> <| rq_PrivateKeyPEM := key |>
              <| rq_ProviderToken := token |> <| rq_Environment := env |>
              <| rq_Components := comps |>) = Hash sha r.
Proof.
  unfold Hash, Canonical.
  assert (forall a b : Request, canonical_local a = canonical_local b ->
    marshal (Request_json (canonical_local a)) = marshal (Request_json (canonical_local b)))
    as Heq by congruence.
  erewrite Heq; [done|]. unfold canonical_local, canonical_caller.
  cbn -[scrub_env scrub_component map]. by rewrite Henv, Hcomps.
Qed.

(** [Canonical] takes the request by value
    but writes through its slices: afterwards the caller's own request carries
    no secret value at all, whatever it carried before, so the helper's later
    check that secret variables are empty cannot fail; canonicalising the
    changed request again gives the same bytes. *)
Theorem canonical_clears_caller_secrets (r : Request) :
  secrets_absent (canonical_caller r) /\
  Canonical (canonical_caller r) = Canonical r /\
  canonical_caller (canonical_caller r) = canonical_caller r.
Proof.
  split_and!.
  - split; [apply scrub_env_empty|]. cbn. apply Forall_forall.
    intros c Hc. apply list_elem_of_fmap in Hc as (c' & -> & _). apply scrub_env_empty.
  - unfold Canonical. by rewrite canonical_local_caller.
  - apply canonical_caller_idemp.
Qed.

(** C38. A frame written for any value is read back as exactly
    the bytes of that value, leaving the rest of the connection untouched. *)
Theorem frame_round_trip (v : json) (frame rest : list Z)
    (Hw : Write v = Ok frame) :
  read_frame (frame ++ rest) = Ok (bytes_of (marshal v), rest).
Proof.
  unfold Write in Hw. case_decide; [done|].
  assert (frame = be32 (Z.of_nat (length (bytes_of (marshal v)))) ++ bytes_of (marshal v))
    as -> by congruence.
  rewrite <- app_assoc. apply read_frame_be32. pose proof (marshal_nonempty v).
  rewrite bytes_of_length in *. lia.
Qed.

Lemma frame_round_trip_witness :
  exists frame, Write (JArr [JNum 1; JBool true]) = Ok frame /\
    read_frame (frame ++ [9]) = Ok (bytes_of (marshal (JArr [JNum 1; JBool true])), [9]).
Proof.
  eexists. split; [vm_compute; reflexivity|].
  apply frame_round_trip. vm_compute. reflexivity.
Defined.

(** A frame is accepted only when its body has
    between 1 and 65536 bytes, all of them present on the connection. *)
Theorem frame_length_enforced (input body rest : list Z)
    (Hbytes : Forall (fun b => 0 <= b < 256) input)
    (Hr : read_frame input = Ok (body, rest)) :
  1 <= Z.of_nat (length body) <= 65536 /\
  exists header, length header = 4%nat /\ input = header ++ body ++ rest.
Proof.
  destruct input as [|a [|b [|c [|d l]]]]; try done. cbn -[of_be32] in Hr.
  case_decide; [done|]. case_decide as Hlen; [done|]. injection Hr as <- <-.
  assert (0 <= of_be32 a b c d).
  { rewrite !Forall_cons in Hbytes. unfold of_be32.
    repeat (apply Z.lor_nonneg; split); try apply Z.shiftl_nonneg; lia. }
  split.
  - rewrite length_take. unfold MaxFrame in *. lia.
  - exists [a; b; c; d]. by rewrite take_drop.
Qed.

Lemma frame_length_enforced_witness :
  read_frame [0; 0; 0; 2; 123; 125; 7] = Ok ([123; 125], [7]) /\
  1 <= Z.of_nat (length [123; 125]) <= 65536.
Proof.
  split; [vm_compute; reflexivity|].
  refine (proj1 (frame_length_enforced [0; 0; 0; 2; 123; 125; 7] [123; 125] [7] _ _)).
  - repeat constructor; lia.
  - vm_compute. reflexivity.
Defined.

Definition sample_env (v : string) : list EnvVar :=
  [{| ev_Name := "TOKEN"; ev_Value := v; ev_Secret := true; ev_Generate := "random-hex-32" |}].

Definition empty_request : Request :=
  Build_Request 2 "" "" "" 1 "" "" 0 "" "" "" "" "" "" [] [] [] [] "" "" 0 "" 0 "" [] [] [] []
    "" "" "" "" None "" "" "" None [] "" "" "" "" "" "" false "" "" "" "" "" false.

Lemma hash_ignores_transport_and_secrets_witness :
  Hash (fun b => b) (empty_request <| rq_ID := "req-1" |> <| rq_OperationID := "op-1" |>
    <| rq_Deadline := "soon" |> <| rq_CertificatePEM := "c" |> <| rq_PrivateKeyPEM := "k" |>
    <| rq_ProviderToken := "t" |> <| rq_Environment := [] |> <| rq_Components := [] |>) =
  Hash (fun b => b) empty_request /\
  is_ok (Hash (fun b => b) empty_request) = true.
Proof.
  split; [|vm_compute; reflexivity].
  apply hash_ignores_transport_and_secrets; reflexivity.
Defined.

(** The aliasing on a concrete request: the secret sent by the caller is gone. *)
Example canonical_caller_example :
  rq_Environment (canonical_caller (empty_request <| rq_Environment := sample_env "hunter2" |>))
  = sample_env "".
Proof. reflexivity. Qed.
End ProtocolProps.
