(* ===== verification/NetIP.v ===== *)
(** * Internet addresses of Go's [net] package

    [net.ParseIP], the classification methods of [net.IP] and its text form,
    as far as the exposure code uses them.  A text is its bytes; an address is
    4 or 16 of them. *)

From S2P Require Import Prelude Protocol.
From stdpp Require Import base strings list.
From Stdlib Require Import ZArith Lia Ascii.

Open Scope N_scope.

Definition text (s : string) : list N := map N_of_ascii (String.list_ascii_of_string s).
Definition untext (l : list N) : string := String.string_of_list_ascii (map ascii_of_N l).

Definition IP : Type := list N.

(** [strconv.Itoa] *)
Definition itoa (z : Z) : string := json_num z.

(** ** Parsing ([netip.ParseAddr] without a zone) *)
Definition is_digit (c : N) : bool := (48 <=? c) && (c <=? 57).

(** Dotted decimal: no empty octet, no leading zero, no octet above 255,
    exactly four octets. *)
Fixpoint ipv4_fields (s : list N) (fields : list N) (val : N) (digits : nat) : option (list N) :=
  match s with
  | [] => if decide (length fields < 3)%nat then None else Some (fields ++ [val])
  | c :: rest =>
      if is_digit c then
        if decide (digits = 1%nat /\ val = 0) then None
        else let val := val * 10 + (c - 48) in
             if 255 <? val then None else ipv4_fields rest fields val (S digits)
      else if c =? 46 then
        (* an octet that starts or ends the text, or is empty *)
        if decide (digits = 0%nat \/ rest = []) then None
        else if decide (length fields = 3%nat) then None
        else ipv4_fields rest (fields ++ [val]) 0 0
      else None
  end.

Definition hex_value (c : N) : option N :=
  if is_digit c then Some (c - 48)
  else if (97 <=? c) && (c <=? 102) then Some (c - 87)
  else if (65 <=? c) && (c <=? 70) then Some (c - 55)
  else None.

(** One group of at most four hexadecimal digits: its value, how many digits
    it has, and what follows. *)
Fixpoint hex_group (s : list N) (off : nat) (acc : N) : option (N * nat * list N) :=
  match s with
  | c :: rest =>
      match hex_value c with
      | Some v => if decide (3 < off)%nat then None else hex_group rest (S off) (acc * 16 + v)
      | None => Some (acc, off, s)
      end
  | [] => Some (acc, off, [])
  end.

(** The group loop: the bytes stored so far, the position of the ellipsis. *)
Fixpoint ipv6_loop (fuel : nat) (s : list N) (ip : list N) (ellipsis : option nat)
    : option (list N * list N * option nat) :=
  match fuel with
  | O => Some (ip, s, ellipsis)
  | S fuel =>
      if decide (16 <= length ip)%nat then Some (ip, s, ellipsis) else
      match hex_group s 0 0 with
      | None => None
      | Some (acc, off, rest) =>
          if decide (off = 0%nat) then None
          else if decide (head rest = Some 46) then
            (* a trailing dotted-decimal part *)
            if decide (ellipsis = None /\ length ip <> 12%nat) then None
            else if decide (16 < length ip + 4)%nat then None
            else match ipv4_fields s [] 0 0 with
                 | Some fields => Some (ip ++ fields, [], ellipsis)
                 | None => None
                 end
          else
            let ip := ip ++ [acc / 256; acc mod 256] in
            match rest with
            | [] => Some (ip, [], ellipsis)
            | [_] => None
            | c :: (c' :: rest') as rest1 =>
                if decide (c <> 58) then None
                else if decide (c' = 58) then
                  match ellipsis with
                  | Some _ => None
                  | None =>
                      match rest' with
                      | [] => Some (ip, [], Some (length ip))
                      | _ => ipv6_loop fuel rest' ip (Some (length ip))
                      end
                  end
                else ipv6_loop fuel rest1 ip ellipsis
            end
      end
  end.

Definition expand_ellipsis (ip : list N) (ellipsis : option nat) : option IP :=
  if decide (length ip < 16)%nat then
    match ellipsis with
    | Some e => Some (take e ip ++ replicate (16 - length ip) 0 ++ drop e ip)
    | None => None
    end
  else match ellipsis with Some _ => None | None => Some ip end.

(** Eight groups at most, so nine rounds are enough. *)
Definition parseIPv6 (s : list N) : option IP :=
  let run s ellipsis :=
    match ipv6_loop 9 s [] ellipsis with
    | Some (ip, [], ellipsis) => expand_ellipsis ip ellipsis
    | _ => None
    end in
  match s with
  | 58 :: 58 :: [] => Some (replicate 16 0)
  | 58 :: 58 :: rest => run rest (Some 0%nat)
  | _ => run s None
  end.

(** An IPv4 address as the 16 bytes [net.ParseIP] returns for it. *)
Definition v4_mapped (fields : list N) : IP := replicate 10 0 ++ [255; 255] ++ fields.

Fixpoint first_separator (s : list N) : option N :=
  match s with
  | [] => None
  | c :: s => if decide (c = 46 \/ c = 58 \/ c = 37) then Some c else first_separator s
  end.

(** [net.ParseIP]: [None] is nil.  A zone is never accepted. *)
Definition ParseIP (address : string) : option IP :=
  let s := text address in
  match first_separator s with
  | Some 46 => v4_mapped <$> ipv4_fields s [] 0 0
  | Some 58 => if decide (37 ∈ s) then None else parseIPv6 s
  | _ => None
  end.

(** ** Classification *)
Definition To4 (ip : IP) : option (list N) :=
  if decide (length ip = 4%nat) then Some ip
  else if decide (length ip = 16%nat /\ take 12 ip = replicate 10 0 ++ [255; 255])
  then Some (drop 12 ip) else None.

Definition is_v4 (ip : IP) : bool := match To4 ip with Some _ => true | None => false end.

Definition IPv4zero : IP := v4_mapped [0; 0; 0; 0].
Definition IPv6unspecified : IP := replicate 16 0.
Definition IPv6loopback : IP := replicate 15 0 ++ [1].

(** [IP.Equal] of two addresses in the 16-byte form. *)
Definition Equal (a b : IP) : bool := bool_decide (a = b).

Definition IsUnspecified (ip : IP) : bool := Equal ip IPv4zero || Equal ip IPv6unspecified.

Definition IsLoopback (ip : IP) : bool :=
  match To4 ip with
  | Some ip4 => bool_decide (head ip4 = Some 127)
  | None => Equal ip IPv6loopback
  end.

Definition byte_at (ip : IP) (i : nat) : N := default 0 (ip !! i).

Definition IsMulticast (ip : IP) : bool :=
  match To4 ip with
  | Some ip4 => N.land (byte_at ip4 0) 240 =? 224
  | None => bool_decide (length ip = 16%nat) && (byte_at ip 0 =? 255)
  end.

Definition IsLinkLocalUnicast (ip : IP) : bool :=
  match To4 ip with
  | Some ip4 => (byte_at ip4 0 =? 169) && (byte_at ip4 1 =? 254)
  | None => bool_decide (length ip = 16%nat) && (byte_at ip 0 =? 254)
            && (N.land (byte_at ip 1) 192 =? 128)
  end.

(** ** Text *)
Definition dotted (fields : list N) : string :=
  Protocol.join "." (map (fun b => itoa (Z.of_N b)) fields).

Definition group (ip : IP) (i : nat) : N := byte_at ip (2 * i) * 256 + byte_at ip (2 * i + 1).

(** Hexadecimal without leading zeros. *)
Definition hex_text (n : N) : string :=
  let ds := [n / 4096; n / 256 mod 16; n / 16 mod 16; n mod 16] in
  let strip := fix strip (l : list N) := match l with
    | [d] => [d] | 0 :: l => strip l | _ => l end in
  untext (map (fun d => if d <? 10 then d + 48 else d + 87) (strip ds)).

(** The length of the run of zero groups that starts at a group. *)
Fixpoint zero_run (fuel : nat) (ip : IP) (i : nat) : nat :=
  match fuel with
  | O => 0
  | S fuel => if decide ((i < 8)%nat /\ group ip i = 0) then S (zero_run fuel ip (S i)) else 0
  end.

(** The first longest run of at least two zero groups: its start and end. *)
Definition longest_zero_run (ip : IP) : option (nat * nat) :=
  foldl (fun best i =>
    let l := zero_run 8 ip i in
    let have := match best with Some (a, b) => (b - a)%nat | None => 0%nat end in
    if decide (2 <= l /\ have < l)%nat then Some (i, (i + l)%nat) else best) None (seq 0 8).

Fixpoint v6_text (fuel : nat) (ip : IP) (zeros : option (nat * nat)) (i : nat) : string :=
  match fuel with
  | O => ""
  | S fuel =>
      if decide (8 <= i)%nat then "" else
      match zeros with
      | Some (a, b) =>
          if decide (i = a) then
            if decide (8 <= b)%nat then "::"
            else "::" +:+ hex_text (group ip b) +:+ v6_text fuel ip zeros (S b)
          else (if decide (0 < i)%nat then ":" else "") +:+ hex_text (group ip i)
                 +:+ v6_text fuel ip zeros (S i)
      | None => (if decide (0 < i)%nat then ":" else "") +:+ hex_text (group ip i)
                  +:+ v6_text fuel ip zeros (S i)
      end
  end.

(** [IP.String] of 4 or 16 bytes. *)
Definition IP_String (ip : IP) : string :=
  match To4 ip with
  | Some ip4 => dotted ip4
  | None => v6_text 8 ip (longest_zero_run ip) 0
  end.

Example parse_forms :
  map ParseIP ["127.0.0.1"; "01.2.3.4"; "1.2.3"; "::"; "fe80::1%eth0"; "2001:db8::1"; "1::2::3"; ":::"] =
  [Some (v4_mapped [127; 0; 0; 1]); None; None; Some (replicate 16 0); None;
   Some ([32; 1; 13; 184] ++ replicate 11 0 ++ [1]); None; None].
Proof. vm_compute. reflexivity. Qed.

Example print_forms :
  map IP_String [v4_mapped [10; 0; 0; 2]; replicate 16 0; IPv6loopback;
                 [32; 1; 13; 184; 0; 0; 0; 0; 0; 1; 0; 0; 0; 0; 0; 1]] =
  ["10.0.0.2"; "::"; "::1"; "2001:db8::1:0:0:1"].
Proof. vm_compute. reflexivity. Qed.

(** ** The dotted form is read back *)

(** The effect of a run of digits on the octet being read. *)
Fixpoint octet_run (ds : list N) (val : N) (digits : nat) : option (N * nat) :=
  match ds with
  | [] => Some (val, digits)
  | c :: ds =>
      if is_digit c then
        if decide (digits = 1%nat /\ val = 0) then None
        else let val := val * 10 + (c - 48) in if 255 <? val then None else octet_run ds val (S digits)
      else None
  end.

Lemma octet_run_fields ds rest fields val digits v n :
  octet_run ds val digits = Some (v, n) ->
  ipv4_fields (ds ++ rest) fields val digits = ipv4_fields rest fields v n.
Proof.
  revert val digits. induction ds as [|c ds IH]; intros val digits; cbn; [by intros [= -> ->]|].
  destruct (is_digit c); [|done]. case_decide; [done|].
  destruct (255 <? val * 10 + (c - 48)); [done|]. apply IH.
Qed.

Definition octet_text (b : N) : list N := text (itoa (Z.of_N b)).

Lemma octets_checked :
  forallb (fun b => match octet_run (octet_text b) 0 0 with
                    | Some (v, S _) => (v =? b) && forallb is_digit (octet_text b)
                    | _ => false
                    end) (map N.of_nat (seq 0 256)) = true.
Proof. vm_compute. reflexivity. Qed.

Lemma octet_read b : b < 256 ->
  (exists n, octet_run (octet_text b) 0 0 = Some (b, S n)) /\ forallb is_digit (octet_text b) = true.
Proof.
  intros Hb. pose proof octets_checked as H. rewrite forallb_forall in H.
  specialize (H b). assert (In b (map N.of_nat (seq 0 256))) as Hin.
  { apply in_map_iff. exists (N.to_nat b). split; [lia|]. apply in_seq. lia. }
  apply H in Hin. destruct (octet_run _ _ _) as [[v [|n]]|]; try done.
  apply andb_true_iff in Hin as [->%N.eqb_eq ?]. eauto.
Qed.

Lemma text_app s1 s2 : text (s1 +:+ s2) = text s1 ++ text s2.
Proof.
  unfold text. rewrite <- map_app. f_equal. induction s1 as [|c s1 IH]; cbn; [done|]. rewrite <- IH. done.
Qed.

Lemma first_separator_digits ds rest :
  forallb is_digit ds = true -> first_separator (ds ++ rest) = first_separator rest.
Proof.
  induction ds as [|c ds IH]; cbn; [done|]. intros [Hc ?]%andb_true_iff.
  rewrite decide_False; [by apply IH|]. intros [-> | [-> | ->]]; discriminate Hc.
Qed.

Lemma dotted_text a b c d :
  text (dotted [a; b; c; d]) =
  octet_text a ++ 46 :: octet_text b ++ 46 :: octet_text c ++ 46 :: octet_text d.
Proof. unfold dotted. cbn [map Protocol.join]. rewrite !text_app. reflexivity. Qed.

Lemma octet_text_nonempty b rest : b < 256 -> octet_text b ++ rest <> [].
Proof.
  intros Hb [Hn _]%app_nil. destruct (octet_read b Hb) as [[n Hr] _]. by rewrite Hn in Hr.
Qed.

(** One octet and the dot after it. *)
Lemma ipv4_fields_octet b rest fields :
  b < 256 -> rest <> [] -> (length fields < 3)%nat ->
  ipv4_fields (octet_text b ++ 46 :: rest) fields 0 0 = ipv4_fields rest (fields ++ [b]) 0 0.
Proof.
  intros Hb Hrest Hlen. destruct (octet_read b Hb) as [[n Hr] _].
  rewrite (octet_run_fields _ _ _ _ _ _ _ Hr). cbn.
  rewrite !decide_False; [done|lia|naive_solver].
Qed.

Lemma ParseIP_dotted a b c d : a < 256 -> b < 256 -> c < 256 -> d < 256 ->
  ParseIP (dotted [a; b; c; d]) = Some (v4_mapped [a; b; c; d]).
Proof.
  intros Ha Hb Hc Hd. unfold ParseIP. rewrite dotted_text.
  destruct (octet_read a Ha) as [_ Hda]. rewrite (first_separator_digits _ _ Hda). cbn.
  destruct (octet_read d Hd) as [[n Hr] _].
  assert (octet_text d <> []) as Hne.
  { rewrite <- (app_nil_r (octet_text d)). by apply octet_text_nonempty. }
  rewrite !ipv4_fields_octet by (try done; try (by apply octet_text_nonempty); cbn; lia).
  rewrite <- (app_nil_r (octet_text d)), (octet_run_fields _ _ _ _ _ _ _ Hr). done.
Qed.
