(* ===== verification/Coordinator.v ===== *)
(** * Durable operation acceptance and leases ([internal/helperops])

    The coordinator binds an operation identity to the canonical form of its
    request, serialises privileged operations per installation with a lease
    row, fences stale executors with a token that advances on every change of
    authority, and classifies interrupted work after a restart.

    [now] is the formatted clock reading of the call; [sha] is SHA-256 in hex;
    [unmarshal] is [json.Unmarshal] into an [any].  The in-process mutex around
    [Begin] serialises acceptance, which the model has by construction: each
    transaction is one step. *)

From S2P Require Import Prelude Protocol Exposure HelperDB.
From stdpp Require Import base gmap strings list.
From Stdlib Require Import ZArith Lia Ascii.
Import Wire.

Open Scope Z_scope.

Definition maxResultBytes : Z := 32 * 1024.
Definition maxErrorBytes : nat := 512.

(** [^op-[a-f0-9]{32}$] *)
Definition is_lower_hex (c : ascii) : bool :=
  let b := byte_of c in
  (((97 <=? b) && (b <=? 102)) || ((48 <=? b) && (b <=? 57)))%N.

Definition operationIDPattern (s : string) : bool :=
  match String.list_ascii_of_string s with
  | c1 :: c2 :: c3 :: rest =>
      bool_decide (String c1 (String c2 (String c3 "")) = "op-")
      && bool_decide (length rest = 32%nat) && forallb is_lower_hex rest
  | _ => false
  end.

Record Decision_t : Type := {
  Execute : bool;
  FencingToken : Z;
  dResponse : Response
}.

(** ** [sanitize]: error text as it is stored *)

(** A string cut into its UTF-8 sequences; a byte that starts none is a
    sequence of its own. *)
Fixpoint runes (fuel : nat) (s : string) : list string :=
  match fuel, s with
  | O, _ | _, EmptyString => []
  | S fuel, String c s' =>
      match rune_len s with
      | Some n =>
          String.substring 0 n s :: runes fuel (String.substring n (String.length s - n) s)
      | None => String c "" :: runes fuel s'
      end
  end.

Definition rune_bytes (r : string) : list N := map byte_of (String.list_ascii_of_string r).

(** [unicode.IsSpace] *)
Definition is_space (r : string) : bool :=
  match rune_bytes r with
  | [b] => ((b =? 32) || ((9 <=? b) && (b <=? 13)))%N
  | [194%N; b] => ((b =? 133) || (b =? 160))%N
  | [225%N; 154%N; 128%N] | [226%N; 129%N; 159%N] | [227%N; 128%N; 128%N] => true
  | [226%N; 128%N; b] =>
      (((128 <=? b) && (b <=? 138)) || (b =? 168) || (b =? 169) || (b =? 175))%N
  | _ => false
  end.

(** [unicode.IsControl]: U+0000 to U+001F and U+007F to U+009F *)
Definition is_control (r : string) : bool :=
  match rune_bytes r with
  | [b] => ((b <? 32) || (b =? 127))%N
  | [194%N; b] => ((128 <=? b) && (b <=? 159))%N
  | _ => false
  end.

Fixpoint drop_while {A} (p : A -> bool) (l : list A) : list A :=
  match l with
  | [] => []
  | x :: l' => if p x then drop_while p l' else l
  end.

Definition tab : string := String (ascii_of_N 9) "".
Definition rune_error : string :=
  String (ascii_of_N 239) (String (ascii_of_N 191) (String (ascii_of_N 189) "")).

Definition trim_space (rs : list string) : list string :=
  rev (drop_while is_space (rev (drop_while is_space rs))).

(** The mapping of [strings.Map]: control characters other than tab are
    dropped, invalid bytes become U+FFFD. *)
Definition keep_rune (r : string) : list string :=
  if is_control r && negb (bool_decide (r = tab)) then []
  else match rune_len r with Some _ => [r] | None => [rune_error] end.

Definition sanitize (value : string) : string :=
  let v := String.concat "" (concat (map keep_rune (trim_space (runes (String.length value) value)))) in
  if (maxErrorBytes <? String.length v)%nat then String.substring 0 maxErrorBytes v else v.

(** ** Helpers *)
Definition expectedGeneration (request : Request) : option Z :=
  let value :=
    if decide (rq_Operation request = "InstallApplication" \/
               rq_Operation request = "ConfigureServiceExposure" \/
               rq_Operation request = "UpdateApplication")
    then rq_RuntimeGeneration request - 1 else rq_RuntimeGeneration request in
  if decide (value < 0) then None else Some value.

Definition appendEvent (operationID scope : string) (token : option Z) (kind phase : string)
    (facts : list (string * string)) (now : string) : tx db unit :=
  insert_event {| ev_operation := operationID; ev_installation := scope; ev_token := token;
                  ev_kind := kind; ev_phase := phase; ev_facts := facts; ev_created_at := now |}.

Definition responseFor (unmarshal : string -> option json) (id : string) (record : opRow)
    (requestID : string) : Response :=
  {| rs_OK := bool_decide (op_state record = StateSucceeded \/ op_state record = StateAccepted \/
                           op_state record = StateExecuting \/ op_state record = StateReconciling);
     rs_RequestID := requestID; rs_OperationID := id;
     rs_State := op_state_text (op_state record); rs_Phase := op_phase record;
     rs_ActiveOperationID := "";
     rs_Result := if decide (op_result_json record <> "")
                  then unmarshal (op_result_json record) else None;
     rs_ErrorCode := op_error_code record; rs_Error := op_error_detail record;
     rs_Retryable := bool_decide (op_recovery record = RetryAfterValidation) |}.

(** [Scan] of the nullable token column into an [int64]. *)
Definition scan_token (r : opRow) : tx db Z :=
  match op_token r with
  | Some t => tret t
  | None => tfail (ErrSQL "converting NULL to int64 is unsupported")
  end.

Definition get_op (id : string) : tx db opRow := trow (fun d => db_ops d !! id).
Definition get_lease (inst : string) : tx db leaseRow := trow (fun d => db_leases d !! inst).

Definition verifyFence (operationID : string) (token : Z) : tx db unit :=
  let* o := get_op operationID in
  let* operationToken := scan_token o in
  let* l := get_lease (op_installation o) in
  tassert (ls_operation l = operationID /\ operationToken = token /\
           ls_token l = token /\ ls_state l = LeaseHeld) "stale operation fencing token".

(** ** [Begin] *)

(** The row inserted for a new operation. *)
Definition new_op (request : Request) (hash canonical scope now : string) (callerUID : Z) : opRow :=
  {| op_request_hash := hash; op_request_json := canonical;
     op_protocol_version := rq_Version request;
     op_operation_revision := rq_OperationRevision request;
     op_kind := rq_Operation request; op_installation := scope; op_caller_uid := callerUID;
     op_state := StateAccepted; op_phase := "accepted"; op_outcome := NotDispatched;
     op_recovery := ReconcileFirst; op_expected_generation := expectedGeneration request;
     op_token := None; op_accepted_at := now; op_started_at := None; op_updated_at := now;
     op_completed_at := None; op_result_json := ""; op_error_code := ""; op_error_detail := "" |}.

Definition is_repair (request : Request) : Prop :=
  rq_Operation request = "RepairInstallation" \/
  (rq_Operation request = "InstallApplication" /\
   rq_RepairAction request = "recreate_generation").

#[export] Instance is_repair_dec request : Decision (is_repair request).
Proof. unfold is_repair. apply _. Defined.

(** The conflict branch: the new row is failed and the transaction commits. *)
Definition begin_conflict (request : Request) (scope now activeID : string)
    : tx db (Decision_t * option error) :=
  let id := rq_OperationID request in
  do* update_ops (fun k _ => k = id) (fun r =>
        r <| op_state := StateFailed |> <| op_phase := "lease_conflict" |>
          <| op_outcome := NotDispatched |> <| op_recovery := RetryAfterValidation |>
          <| op_updated_at := now |> <| op_completed_at := Some now |>
          <| op_error_code := "OperationConflict" |>
          <| op_error_detail := sanitize ("installation already has active operation " +:+ activeID) |>) in
  do* appendEvent id scope None "operation_conflict" "lease_conflict"
        [("active_operation_id", activeID)] now in
  tret ({| Execute := false; FencingToken := 0;
           dResponse := zero_response <| rs_RequestID := rq_ID request |>
             <| rs_OperationID := id |> <| rs_State := op_state_text StateFailed |>
             <| rs_Phase := "lease_conflict" |> <| rs_ActiveOperationID := activeID |>
             <| rs_ErrorCode := "OperationConflict" |>
             <| rs_Error := "installation already has an active privileged operation" |> |},
        Some (ErrConflict activeID)).

(** What the switch on the lease row does: the token of the acquired lease, or
    the holder that blocks the new operation. *)
Definition acquire_lease (request : Request) (scope now : string) : tx db (Z + string) :=
  let id := rq_OperationID request in
  let* d := tget in
  match db_leases d !! scope with
  | None =>
      do* insert_lease scope {| ls_operation := id; ls_token := 1; ls_state := LeaseHeld;
            ls_acquired_at := now; ls_updated_at := now; ls_recovery_required := false |} in
      tret (inl 1)
  | Some l =>
      let activeID := ls_operation l in
      let token := ls_token l in
      if decide (ls_state l = LeaseReleased) then
        do* update_leases (fun k r => k = scope /\ ls_token r = token /\ ls_state r = LeaseReleased)
              (fun r => r <| ls_operation := id |> <| ls_token := token + 1 |>
                 <| ls_state := LeaseHeld |> <| ls_acquired_at := now |>
                 <| ls_updated_at := now |> <| ls_recovery_required := false |>) in
        tret (inl (token + 1))
      else if decide (is_repair request /\ ls_state l = LeaseRecoveryRequired) then
        let* prior := get_op activeID in
        do* tassert (op_state prior = StateActionRequired) "recovery lease holder is not repairable" in
        do* update_ops (fun k r => k = activeID /\ op_state r = StateActionRequired) (fun r =>
              r <| op_state := StateSuperseded |> <| op_phase := "superseded_by_repair" |>
                <| op_recovery := Completed |> <| op_updated_at := now |>
                <| op_completed_at := Some now |>) in
        do* appendEvent activeID scope (Some (token + 1)) "operation_superseded_by_repair"
              "superseded_by_repair" [("repair_operation_id", id)] now in
        do* update_leases (fun k r => k = scope /\ ls_operation r = activeID /\
                                      ls_state r = LeaseRecoveryRequired)
              (fun r => r <| ls_operation := id |> <| ls_token := token + 1 |>
                 <| ls_state := LeaseHeld |> <| ls_acquired_at := now |>
                 <| ls_updated_at := now |> <| ls_recovery_required := false |>) in
        tret (inl (token + 1))
      else if decide (activeID = id) then tret (inl token)
      else tret (inr activeID)
  end.

(** The acquired token is recorded in the operation row and the acceptance is
    logged. *)
Definition begin_accept (request : Request) (scope now : string) (token : Z)
    : tx db (Decision_t * option error) :=
  let id := rq_OperationID request in
  let* changed := update_ops (fun k _ => k = id)
        (fun r => r <| op_token := Some token |> <| op_updated_at := now |>) in
  do* tassert (changed = 1%nat) "operation lease acquisition lost" in
  do* appendEvent id scope (Some token) "operation_accepted" "accepted" [] now in
  tret ({| Execute := true; FencingToken := token; dResponse := zero_response |}, None).

Definition begin_new (request : Request) (hash canonical scope now : string) (callerUID : Z)
    : tx db (Decision_t * option error) :=
  let id := rq_OperationID request in
  do* insert_op id (new_op request hash canonical scope now callerUID) in
  let* lease := acquire_lease request scope now in
  match lease with
  | inr activeID => begin_conflict request scope now activeID
  | inl token => begin_accept request scope now token
  end.

Definition Begin (sha : string -> string) (unmarshal : string -> option json)
    (request : Request) (callerUID : Z) (scope now : string)
    : tx db (Decision_t * option error) :=
  let id := rq_OperationID request in
  do* tassert (rq_Version request = 2 /\ rq_OperationRevision request = 1)
        "durable mutations require protocol version 2 operation revision 1" in
  do* tassert (operationIDPattern id = true) "invalid operation ID" in
  do* tassert (scope <> "" /\ (String.length scope <= 128)%nat) "invalid operation scope" in
  match Canonical request, Hash sha request with
  | Err e, _ | _, Err e => tfail e
  | Ok canonical, Ok hash =>
      let* d := tget in
      match db_ops d !! id with
      | Some existing =>
          if decide (op_request_hash existing <> hash) then
            tret ({| Execute := false; FencingToken := 0;
                     dResponse := zero_response <| rs_RequestID := rq_ID request |>
                       <| rs_OperationID := id |>
                       <| rs_State := op_state_text (op_state existing) |>
                       <| rs_ErrorCode := "OperationConflict" |>
                       <| rs_Error := "operation ID was already used for different semantic contents" |> |},
                  None)
          else
            tret ({| Execute := false; FencingToken := 0;
                     dResponse := responseFor unmarshal id existing (rq_ID request) |}, None)
      | None => begin_new request hash canonical scope now callerUID
      end
  end.

(** ** Execution *)
Definition AuthorizeMutation (operationID : string) (token : Z) (now : string) : tx db unit :=
  do* verifyFence operationID token in
  let* changed := update_ops
        (fun k r => k = operationID /\ op_token r = Some token /\ op_state r = StateAccepted)
        (fun r => r <| op_state := StateExecuting |> <| op_phase := "mutation_authorized" |>
           <| op_outcome := OutcomeUnknown |> <| op_recovery := ReconcileFirst |>
           <| op_started_at := match op_started_at r with Some t => Some t | None => Some now end |>
           <| op_updated_at := now |>) in
  do* tassert (changed = 1%nat) "operation is not eligible for execution" in
  let* o := get_op operationID in
  appendEvent operationID (op_installation o) (Some token) "mutation_authorized"
    "mutation_authorized" [] now.

Definition RecordPhase (operationID : string) (token : Z) (phase outcome : string)
    (facts : list (string * string)) (now : string) : tx db unit :=
  do* verifyFence operationID token in
  let* changed := update_ops
        (fun k r => k = operationID /\ op_token r = Some token /\ op_state r = StateExecuting)
        (fun r => r <| op_phase := phase |> <| op_updated_at := now |>) in
  do* tassert (changed = 1%nat) "stale executor cannot record lifecycle phase" in
  let* o := get_op operationID in
  appendEvent operationID (op_installation o) (Some token) ("lifecycle_phase_" +:+ outcome)
    phase facts now.

(** The result column of [Complete]: absent, or its JSON when it is small enough. *)
Definition encode_result (r : option json) (msg : string) : res string :=
  match r with
  | None => Ok ""
  | Some v =>
      let b := marshal v in
      if decide (Z.of_nat (String.length b) > maxResultBytes) then Err (ErrMsg msg) else Ok b
  end.

(** [Complete] for [ErrorCode == "RecoveryRequired"]: the operation and its
    lease move to recovery under the next token. *)
Definition complete_recovery_required (operationID : string) (token : Z) (detail now : string)
    : tx db unit :=
  let newToken := token + 1 in
  let* changed := update_ops
        (fun k r => k = operationID /\ op_token r = Some token /\ op_state r = StateExecuting)
        (fun r => r <| op_state := StateActionRequired |>
           <| op_phase := "runtime_reconciliation_required" |>
           <| op_outcome := OutcomeUnknown |> <| op_recovery := AdministratorAction |>
           <| op_token := Some newToken |> <| op_updated_at := now |>
           <| op_completed_at := Some now |> <| op_error_code := "RecoveryRequired" |>
           <| op_error_detail := detail |>) in
  do* tassert (changed = 1%nat) "stale executor cannot require reconciliation" in
  let* o := get_op operationID in
  do* update_leases (fun k r => k = op_installation o /\ ls_operation r = operationID /\
                                ls_token r = token /\ ls_state r = LeaseHeld)
        (fun r => r <| ls_token := newToken |> <| ls_state := LeaseRecoveryRequired |>
           <| ls_updated_at := now |> <| ls_recovery_required := true |>) in
  appendEvent operationID (op_installation o) (Some newToken)
    "runtime_reconciliation_required" "runtime_reconciliation_required" [] now.

Definition Complete (unmarshal : string -> option json) (operationID : string) (token : Z)
    (response : Response) (now : string) : tx db Response :=
  match encode_result (rs_Result response) "operation result too large" with
  | Err e => tfail e
  | Ok resultJSON =>
      let '(state, outcome, recovery, errorCode, detail) :=
        if rs_OK response then (StateSucceeded, ConfirmedApplied, Completed, "", "")
        else (StateFailed, OutcomeMixed, RetryAfterValidation,
              (if decide (rs_ErrorCode response = "") then "ExecutionFailed"
               else rs_ErrorCode response),
              sanitize (rs_Error response)) in
      do* verifyFence operationID token in
      do* (if decide (rs_ErrorCode response = "RecoveryRequired") then
             complete_recovery_required operationID token detail now
           else
             let* changed := update_ops
                   (fun k r => k = operationID /\ op_token r = Some token /\
                               op_state r = StateExecuting)
                   (fun r => r <| op_state := state |> <| op_phase := "completed" |>
                      <| op_outcome := outcome |> <| op_recovery := recovery |>
                      <| op_updated_at := now |> <| op_completed_at := Some now |>
                      <| op_result_json := resultJSON |> <| op_error_code := errorCode |>
                      <| op_error_detail := detail |>) in
             do* tassert (changed = 1%nat) "stale executor cannot commit operation result" in
             let* o := get_op operationID in
             do* appendEvent operationID (op_installation o) (Some token)
                   ("operation_" +:+ op_state_text state) "completed" [] now in
             let* released := update_leases
                   (fun k r => k = op_installation o /\ ls_operation r = operationID /\
                               ls_token r = token /\ ls_state r = LeaseHeld)
                   (fun r => r <| ls_state := LeaseReleased |> <| ls_updated_at := now |>
                      <| ls_recovery_required := false |>) in
             tassert (released = 1%nat) "stale executor cannot release operation lease") in
      let* record := get_op operationID in
      tret (responseFor unmarshal operationID record (rs_RequestID response))
  end.

Definition CompleteRecovery (unmarshal : string -> option json) (operationID : string)
    (token : Z) (response : Response) (now : string) : tx db Response :=
  match encode_result (rs_Result response) "recovery result is invalid" with
  | Err e => tfail e
  | Ok resultJSON =>
      let '(state, outcome, errorCode, detail) :=
        if rs_OK response then (StateSucceeded, ConfirmedApplied, "", "")
        else (StateFailed, ConfirmedAbsent,
              (if decide (rs_ErrorCode response = "") then "RecoveryRolledBack"
               else rs_ErrorCode response),
              sanitize (rs_Error response)) in
      let* o := trow (fun d => match db_ops d !! operationID with
        | Some o => if decide (op_token o = Some token /\ op_state o = StateActionRequired)
                    then Some o else None
        | None => None end) in
      let* changed := update_ops
            (fun k r => k = operationID /\ op_token r = Some token /\
                        op_state r = StateActionRequired)
            (fun r => r <| op_state := state |> <| op_phase := "recovery_completed" |>
               <| op_outcome := outcome |> <| op_recovery := Completed |>
               <| op_updated_at := now |> <| op_completed_at := Some now |>
               <| op_result_json := resultJSON |> <| op_error_code := errorCode |>
               <| op_error_detail := detail |>) in
      do* tassert (changed = 1%nat) "stale recovery executor cannot commit operation result" in
      let* released := update_leases
            (fun k r => k = op_installation o /\ ls_operation r = operationID /\
                        ls_token r = token /\ ls_state r = LeaseRecoveryRequired)
            (fun r => r <| ls_state := LeaseReleased |> <| ls_updated_at := now |>
               <| ls_recovery_required := false |>) in
      do* tassert (released = 1%nat) "stale recovery executor cannot release operation lease" in
      do* appendEvent operationID (op_installation o) (Some token)
            ("operation_" +:+ op_state_text state) "recovery_completed" [] now in
      let* record := get_op operationID in
      tret (responseFor unmarshal operationID record (rs_RequestID response))
  end.

(** [Coordinator.Response]: the stored answer to a replayed request. *)
Definition StoredResponse (unmarshal : string -> option json) (operationID requestID : string)
    : tx db Response :=
  let* record := get_op operationID in
  tret (responseFor unmarshal operationID record requestID).

(** ** Restart recovery *)
Definition markReconciling (operationID now : string) : tx db unit :=
  let* o := get_op operationID in
  let* prior := scan_token o in
  let token := prior + 1 in
  let scope := op_installation o in
  do* update_ops (fun k _ => k = operationID) (fun r =>
        r <| op_state := StateReconciling |> <| op_phase := "restart_observation" |>
          <| op_outcome := OutcomeUnknown |> <| op_recovery := ReconcileFirst |>
          <| op_token := Some token |> <| op_updated_at := now |>) in
  do* update_leases (fun k r => k = scope /\ ls_operation r = operationID) (fun r =>
        r <| ls_token := token |> <| ls_state := LeaseRecoveryRequired |>
          <| ls_updated_at := now |> <| ls_recovery_required := true |>) in
  appendEvent operationID scope (Some token) "restart_reconciliation_started"
    "restart_observation" [] now.

Definition recoverOne (operationID : string) (priorState : op_state_t) (now : string)
    : tx db unit :=
  let* o := get_op operationID in
  let scope := op_installation o in
  let* l := trow (fun d => match db_leases d !! scope with
    | Some l => if decide (ls_operation l = operationID) then Some l else None
    | None => None end) in
  let token := ls_token l in
  if decide (priorState = StateAccepted) then
    do* update_ops (fun k _ => k = operationID) (fun r =>
          r <| op_state := StateFailed |> <| op_phase := "restart_before_mutation" |>
            <| op_outcome := ConfirmedAbsent |> <| op_recovery := RetryAfterValidation |>
            <| op_updated_at := now |> <| op_completed_at := Some now |>
            <| op_error_code := "HelperRestarted" |>
            <| op_error_detail := "helper restarted before mutation intent was recorded" |>) in
    do* update_leases (fun k r => k = scope /\ ls_operation r = operationID) (fun r =>
          r <| ls_state := LeaseReleased |> <| ls_updated_at := now |>
            <| ls_recovery_required := false |>) in
    appendEvent operationID scope (Some token) "restart_classified_no_mutation"
      "restart_before_mutation" [] now
  else
    do* update_ops (fun k _ => k = operationID) (fun r =>
          r <| op_state := StateActionRequired |> <| op_phase := "interrupted_legacy_mutation" |>
            <| op_outcome := OutcomeUnknown |> <| op_recovery := AdministratorAction |>
            <| op_updated_at := now |> <| op_completed_at := Some now |>
            <| op_error_code := "RecoveryRequired" |>
            <| op_error_detail := "helper restarted after mutation intent; inspect the installation before releasing the recovery lock" |>) in
    do* update_leases (fun k r => k = scope /\ ls_operation r = operationID) (fun r =>
          r <| ls_state := LeaseRecoveryRequired |> <| ls_updated_at := now |>
            <| ls_recovery_required := true |>) in
    appendEvent operationID scope (Some token) "restart_requires_administrator"
      "interrupted_legacy_mutation" [] now.

Definition is_interrupted (s : op_state_t) : Prop :=
  s = StateAccepted \/ s = StateExecuting \/ s = StateReconciling.

#[export] Instance is_interrupted_dec s : Decision (is_interrupted s).
Proof. unfold is_interrupted. apply _. Defined.

Definition interrupted (d : db) : list (string * op_state_t) :=
  map (fun kr => (kr.1, op_state kr.2))
    (sort_by (fun kr : string * opRow => op_accepted_at kr.2)
       (select (fun _ r => is_interrupted (op_state r)) (db_ops d))).

(** The loop over the interrupted operations: two transactions each, and the
    first failure stops it with what was committed so far. *)
Fixpoint recover_loop (clock : nat -> string) (i : nat) (items : list (string * op_state_t))
    (d : db) : res unit * db :=
  match items with
  | [] => (Ok tt, d)
  | (id, state) :: rest =>
      match atomically (markReconciling id (clock i)) d with
      | (Err e, d1) => (Err e, d1)
      | (Ok _, d1) =>
          match atomically (recoverOne id state (clock (S i))) d1 with
          | (Err e, d2) => (Err e, d2)
          | (Ok _, d2) => recover_loop clock (S (S i)) rest d2
          end
      end
  end.

Definition RecoverInterrupted (clock : nat -> string) (d : db) : res nat * db :=
  match recover_loop clock 0 (interrupted d) d with
  | (Ok _, d') => (Ok (length (interrupted d)), d')
  | (Err e, d') => (Err e, d')
  end.

Definition ResolveActionRequired (operationID now : string) : tx db unit :=
  let* o := twrap "operation is not awaiting administrator recovery" (trow (fun d => match db_ops d !! operationID with
    | Some o => if decide (op_state o = StateActionRequired) then Some o else None
    | None => None end)) in
  let scope := op_installation o in
  let* l := twrap "recovery lease unavailable" (trow (fun d => match db_leases d !! scope with
    | Some l => if decide (ls_operation l = operationID /\ ls_state l = LeaseRecoveryRequired)
                then Some l else None
    | None => None end)) in
  let token := ls_token l in
  do* update_ops (fun k _ => k = operationID) (fun r =>
        r <| op_state := StateFailed |> <| op_phase := "administrator_resolved" |>
          <| op_recovery := Completed |> <| op_updated_at := now |>
          <| op_completed_at := Some now |> <| op_error_code := "AdministratorResolved" |>
          <| op_error_detail := "administrator inspected the interrupted operation and released its recovery lock" |>) in
  do* update_leases (fun k r => k = scope /\ ls_operation r = operationID /\ ls_token r = token)
        (fun r => r <| ls_state := LeaseReleased |> <| ls_updated_at := now |>
           <| ls_recovery_required := false |>) in
  appendEvent operationID scope (Some token) "administrator_released_recovery_lock"
    "administrator_resolved" [] now.
