(* ===== verification/CoordinatorProofs.v ===== *)
(** * The coordinator is a fenced lock

    The invariant that ties operation rows to lease rows, its preservation by
    every transaction of the coordinator, the refinement of a small abstract
    lock with fencing tokens, and the consequences: mutual exclusion, refusal
    of stale executors, replay without re-execution, and complete
    classification after a restart. *)

From S2P Require Import Prelude Protocol Exposure HelperDB Coordinator.
From stdpp Require Import base gmap strings list.
From Stdlib Require Import ZArith Lia Relations.
Import Wire.

Open Scope Z_scope.

(** ** Statement-level inversion *)
Lemma insert_event_Ok e d u d' :
  insert_event e d = Ok (u, d') <->
  is_Some (db_ops d !! ev_operation e) /\ d' = d <| db_events := db_events d ++ [e] |>.
Proof.
  unfold insert_event. destruct u. destruct (db_ops d !! ev_operation e); naive_solver.
Qed.

Lemma update_leases_Ok P `{!forall k r, Decision (P k r)} f d n d' :
  update_leases P f d = Ok (n, d') <->
  leases_fk d' /\ n = affected P (db_leases d) /\
  d' = d <| db_leases := update P f (db_leases d) |>.
Proof. unfold update_leases. case_decide; naive_solver. Qed.

Lemma update_ops_Ok P `{!forall k r, Decision (P k r)} f d n d' :
  update_ops P f d = Ok (n, d') <->
  n = affected P (db_ops d) /\ d' = d <| db_ops := update P f (db_ops d) |>.
Proof. unfold update_ops. naive_solver. Qed.

Lemma insert_op_Ok id r d u d' :
  insert_op id r d = Ok (u, d') <->
  db_ops d !! id = None /\ d' = d <| db_ops := <[id:=r]> (db_ops d) |>.
Proof. unfold insert_op. destruct u. destruct (db_ops d !! id); naive_solver. Qed.

Lemma insert_lease_Ok i r d u d' :
  insert_lease i r d = Ok (u, d') <->
  db_leases d !! i = None /\ is_Some (db_ops d !! ls_operation r) /\
  d' = d <| db_leases := <[i:=r]> (db_leases d) |>.
Proof.
  unfold insert_lease. destruct u.
  destruct (db_leases d !! i), (db_ops d !! ls_operation r); naive_solver.
Qed.

Lemma scan_token_Ok o d t d' : scan_token o d = Ok (t, d') <-> op_token o = Some t /\ d' = d.
Proof. unfold scan_token. destruct (op_token o); unfold tret, tfail; naive_solver. Qed.

(** A [WHERE] clause pins the primary key. *)
Ltac pk_side :=
  let H := fresh in intros ? ? H; cbv beta in H; destruct_and?; first [eassumption | congruence].

Ltac inv_db_step :=
  match goal with
  | H : insert_event _ _ = Ok (_, _) |- _ => apply insert_event_Ok in H; destruct H as [? ?]
  | H : update_leases _ _ _ = Ok (_, _) |- _ =>
      apply update_leases_Ok in H; destruct H as (? & ? & ?)
  | H : update_ops _ _ _ = Ok (_, _) |- _ => apply update_ops_Ok in H; destruct H as [? ?]
  | H : insert_op _ _ _ = Ok (_, _) |- _ => apply insert_op_Ok in H; destruct H as [? ?]
  | H : insert_lease _ _ _ = Ok (_, _) |- _ =>
      apply insert_lease_Ok in H; destruct H as (? & ? & ?)
  | H : scan_token _ _ = Ok (_, _) |- _ => apply scan_token_Ok in H; destruct H as [? ?]
  | H : affected _ _ = 1%nat |- _ =>
      eapply affected_pk_1 in H; [destruct H as (? & ? & ?)|pk_side]
  | H : 1%nat = affected _ _ |- _ => symmetry in H
  | H : match ?x with Some _ => _ | None => None end = Some _ |- _ =>
      destruct x eqn:?; [|discriminate H]
  | H : (if decide ?P then _ else None) = Some _ |- _ =>
      destruct (decide P); [|discriminate H]
  end.
Ltac inv_db := repeat (first [inv_tx_step | inv_db_step]; simplify_eq/=).

(** ** The invariant *)

(** The lease an operation in a given state must hold. *)
Definition lease_of (s : op_state_t) : option lease_state_t :=
  match s with
  | StateAccepted | StateExecuting => Some LeaseHeld
  | StateReconciling | StateActionRequired => Some LeaseRecoveryRequired
  | _ => None
  end.

Definition live (s : op_state_t) : Prop := is_Some (lease_of s).

Definition agree (s : op_state_t) (l : lease_state_t) : Prop :=
  match lease_of s with Some x => l = x | None => l = LeaseReleased end.

(** Operation rows and lease rows describe one authority:
    every live operation holds its installation's lease, in the lease state
    that fits its own, under the same token; every lease names an existing
    operation of its installation, and is released exactly when that
    operation is no longer live. *)
Record coord_ok (ops : gmap string opRow) (leases : gmap string leaseRow) : Prop := {
  ok_live : forall id o, ops !! id = Some o -> live (op_state o) ->
    exists l, leases !! op_installation o = Some l /\ ls_operation l = id;
  ok_lease : forall inst l, leases !! inst = Some l ->
    1 <= ls_token l /\
    ls_recovery_required l = bool_decide (ls_state l = LeaseRecoveryRequired) /\
    exists o, ops !! ls_operation l = Some o /\ op_installation o = inst /\
      op_token o = Some (ls_token l) /\ agree (op_state o) (ls_state l)
}.

Definition coord_inv (d : db) : Prop := coord_ok (db_ops d) (db_leases d).

(** Everything but the operation, lease and event tables is untouched. *)
Definition coord_frame (d d' : db) : Prop :=
  db_gens d' = db_gens d /\ db_comps d' = db_comps d /\ db_binds d' = db_binds d /\
  db_steps d' = db_steps d /\ db_ownership d' = db_ownership d.

Lemma coord_frame_refl d : coord_frame d d.
Proof. done. Qed.
Lemma coord_frame_trans d1 d2 d3 : coord_frame d1 d2 -> coord_frame d2 d3 -> coord_frame d1 d3.
Proof. unfold coord_frame. intros (? & ? & ? & ? & ?) (? & ? & ? & ? & ?). split_and!; congruence. Qed.
#[export] Hint Resolve coord_frame_refl coord_frame_trans : kit.

Lemma coord_ok_fk d : coord_inv d -> leases_fk d.
Proof.
  intros [_ Hl] inst l Hi. destruct (Hl inst l Hi) as (_ & _ & o & Ho & _). by exists o.
Qed.

(** The one preservation argument: an operation row and the lease row of its
    installation are rewritten together, consistently, when the lease was
    free or already this operation's. *)
Lemma coord_ok_set ops leases id o' l' :
  coord_ok ops leases ->
  (forall o, ops !! id = Some o -> op_installation o = op_installation o') ->
  (forall l, leases !! op_installation o' = Some l ->
     ls_operation l = id \/ ls_state l = LeaseReleased) ->
  ls_operation l' = id -> op_token o' = Some (ls_token l') -> 1 <= ls_token l' ->
  ls_recovery_required l' = bool_decide (ls_state l' = LeaseRecoveryRequired) ->
  agree (op_state o') (ls_state l') ->
  coord_ok (<[id:=o']> ops) (<[op_installation o':=l']> leases).
Proof.
  intros [Hlive Hlease] Hinst Hfree Hop Htok Hpos Hrec Hagree. split.
  - intros id2 o2 Ho2 Hl2. apply lookup_insert_Some in Ho2 as [[<- <-]|[Hne Ho2]].
    { exists l'. by rewrite lookup_insert_eq. }
    destruct (Hlive id2 o2 Ho2 Hl2) as (l & Hl & Hlop).
    destruct (decide (op_installation o' = op_installation o2)) as [Heq|Hne2].
    2: { exists l. by rewrite lookup_insert_ne. }
    exfalso. rewrite <- Heq in Hl. destruct (Hfree l Hl) as [?|Hrel]; [congruence|].
    destruct (Hlease _ _ Hl) as (_ & _ & o3 & Ho3 & _ & _ & Hag).
    assert (o3 = o2) as -> by congruence. unfold agree, live in *.
    destruct Hl2 as [x Hx]. rewrite Hx in Hag. rewrite Hrel in Hag. subst x.
    by destruct (op_state o2).
  - intros inst l Hi. apply lookup_insert_Some in Hi as [[<- <-]|[Hne Hi]].
    { split_and!; [done..|]. exists o'. rewrite Hop, lookup_insert_eq. done. }
    destruct (Hlease inst l Hi) as (? & ? & o & Ho & Hoi & Hot & Hag).
    split_and!; [done..|]. exists o. rewrite lookup_insert_ne; [done|].
    intros Heq. rewrite <- Heq in Ho. apply Hne. rewrite <- Hoi. symmetry. by apply Hinst.
Qed.

(** An operation row may also change alone: it keeps its state and token, or
    it is new and not live. *)
Lemma coord_ok_op ops leases id o' :
  coord_ok ops leases ->
  (forall o, ops !! id = Some o -> op_state o' = op_state o /\
     op_installation o' = op_installation o /\ op_token o' = op_token o) ->
  (ops !! id = None -> ~ live (op_state o')) ->
  coord_ok (<[id:=o']> ops) leases.
Proof.
  intros [Hlive Hlease] Hsame Hnew. split.
  - intros id2 o2 Ho2 Hl2. apply lookup_insert_Some in Ho2 as [[<- <-]|[Hne Ho2]]; [|eauto].
    destruct (ops !! id) as [o|] eqn:Ho; [|naive_solver].
    destruct (Hsame o eq_refl) as (Hs & Hi & _). rewrite Hi. rewrite Hs in Hl2. eauto.
  - intros inst l Hi. destruct (Hlease inst l Hi) as (? & ? & o & Ho & Hoi & Hot & Hag).
    split_and!; [done..|]. destruct (decide (id = ls_operation l)) as [->|Hne].
    + destruct (Hsame o Ho) as (Hs & Hi' & Ht). exists o'. rewrite lookup_insert_eq.
      rewrite Hs, Hi', Ht. done.
    + exists o. by rewrite lookup_insert_ne.
Qed.

(** ** Effects of the transactions on the two tables *)

(** [fenced d id t o l]: the fence check of [id] under token [t] passes, on
    these two rows. *)
Definition fenced (d : db) (id : string) (t : Z) (o : opRow) (l : leaseRow) : Prop :=
  db_ops d !! id = Some o /\ op_token o = Some t /\
  db_leases d !! op_installation o = Some l /\ ls_operation l = id /\
  ls_token l = t /\ ls_state l = LeaseHeld.

Lemma verifyFence_Ok id t d u d' :
  verifyFence id t d = Ok (u, d') <-> d' = d /\ exists o l, fenced d id t o l.
Proof.
  unfold verifyFence, get_op, get_lease, fenced. split.
  - intros H. inv_db. naive_solver.
  - intros (-> & o & l & Ho & Ht & Hl & H1 & H2 & H3). destruct u.
    unfold tbind, trow. rewrite Ho. unfold scan_token. rewrite Ht. simpl. rewrite Hl.
    unfold tassert. rewrite decide_True by done. done.
Qed.

Ltac inv_fence :=
  repeat match goal with
  | H : verifyFence _ _ _ = Ok (_, _) |- _ =>
      apply verifyFence_Ok in H; destruct H as (? & ? & ? & ?); simplify_eq/=
  | H : get_op _ _ = Ok (_, _) |- _ => unfold get_op in H
  | H : get_lease _ _ = Ok (_, _) |- _ => unfold get_lease in H
  | H : appendEvent _ _ _ _ _ _ _ _ = Ok (_, _) |- _ => unfold appendEvent in H
  end.
Ltac inv_coord := repeat (progress (inv_db; inv_fence)).

(** [pk_simpl]: an [UPDATE] that pins a key whose row is known to satisfy its
    [WHERE] clause is an insertion at that key. *)
Ltac pk_simpl :=
  repeat match goal with
  | Hk : ?m !! ?k = Some ?r, H : context [update ?P ?f ?m] |- _ =>
      rewrite (update_pk P f m k r ltac:(pk_side) Hk ltac:(cbv beta; split_and?; done)) in H
  | Hk : ?m !! ?k = Some ?r |- context [update ?P ?f ?m] =>
      rewrite (update_pk P f m k r ltac:(pk_side) Hk ltac:(cbv beta; split_and?; done))
  end;
  repeat match goal with
  | H : <[?k:=_]> _ !! ?k = Some _ |- _ => rewrite lookup_insert_eq in H; injection H as <-
  end.

(** The row the fence check saw is the row a pinned [UPDATE] changes. *)
Ltac same_rows :=
  repeat match goal with
  | H1 : ?m !! ?k = Some ?a, H2 : ?m !! ?k = Some ?b |- _ =>
      rewrite H1 in H2; injection H2 as ->
  end.

(** What an operation row keeps for its whole life. *)
Definition same_identity (o o' : opRow) : Prop :=
  op_installation o' = op_installation o /\ op_request_hash o' = op_request_hash o.

Definition lease_flag (l : leaseRow) : Prop :=
  ls_recovery_required l = bool_decide (ls_state l = LeaseRecoveryRequired).

(** How a lease row may change while its holder stays: it is released or kept
    under the same token, or moves to recovery under the next one. *)
Definition lease_move (l l' : leaseRow) : Prop :=
  ls_operation l' = ls_operation l /\
  ((ls_token l' = ls_token l /\ (ls_state l' = ls_state l \/ ls_state l' = LeaseReleased)) \/
   (ls_token l' = ls_token l + 1 /\ ls_state l' = LeaseRecoveryRequired)).

(** The five shapes of change a coordinator transaction makes to the
    operation and lease tables. *)
Inductive txn (d d' : db) : Prop :=
| txn_same : db_ops d' = db_ops d -> db_leases d' = db_leases d -> txn d d'
| txn_touch id o o' :
    db_ops d !! id = Some o -> db_ops d' = <[id:=o']> (db_ops d) ->
    db_leases d' = db_leases d -> same_identity o o' -> live (op_state o) ->
    lease_of (op_state o') = lease_of (op_state o) -> op_token o' = op_token o -> txn d d'
| txn_move id o o' l l' :
    db_ops d !! id = Some o -> db_leases d !! op_installation o = Some l ->
    ls_operation l = id -> db_ops d' = <[id:=o']> (db_ops d) ->
    db_leases d' = <[op_installation o:=l']> (db_leases d) ->
    same_identity o o' -> live (op_state o) -> lease_move l l' ->
    op_token o' = Some (ls_token l') -> agree (op_state o') (ls_state l') ->
    lease_flag l' -> txn d d'
| txn_accept id o' l' :
    db_ops d !! id = None -> db_ops d' = <[id:=o']> (db_ops d) ->
    db_leases d' = <[op_installation o':=l']> (db_leases d) ->
    ls_operation l' = id -> op_token o' = Some (ls_token l') -> ls_state l' = LeaseHeld ->
    op_state o' = StateAccepted -> lease_flag l' ->
    match db_leases d !! op_installation o' with
    | None => ls_token l' = 1
    | Some l => ls_state l = LeaseReleased /\ ls_token l' = ls_token l + 1
    end -> txn d d'
| txn_takeover id o' l' old oo oo' l :
    db_ops d !! id = None -> id <> old ->
    db_ops d !! old = Some oo -> op_state oo = StateActionRequired ->
    op_state oo' = StateSuperseded -> op_token oo' = op_token oo -> same_identity oo oo' ->
    db_leases d !! op_installation o' = Some l -> ls_operation l = old ->
    ls_state l = LeaseRecoveryRequired ->
    db_ops d' = <[id:=o']> (<[old:=oo']> (db_ops d)) ->
    db_leases d' = <[op_installation o':=l']> (db_leases d) ->
    ls_operation l' = id -> op_token o' = Some (ls_token l') -> ls_state l' = LeaseHeld ->
    op_state o' = StateAccepted -> lease_flag l' -> ls_token l' = ls_token l + 1 -> txn d d'
| txn_refuse id o' :
    db_ops d !! id = None -> db_ops d' = <[id:=o']> (db_ops d) ->
    db_leases d' = db_leases d -> op_state o' = StateFailed -> txn d d'.

Lemma txn_coord_inv d d' : txn d d' -> coord_inv d -> coord_inv d'.
Proof.
  unfold coord_inv. intros Ht Hok. destruct Ht as
    [-> ->|id o o' Ho -> -> [Hi _] Hl Hs Ht
    |id o o' l l' Ho Hlk Hop -> -> [Hi _] Hl [Hmo Hm] Htok Hag Hfl
    |id o' l' Hn -> -> Hop Htok Hst Hos Hfl Hfree
    |id o' l' old oo oo' l Hn Hne Hold Hoos Hoos' Hoot [Hooi _] Hlk Hlop Hls -> -> Hop Htok Hst Hos Hfl Htk
    |id o' Hn -> -> Hos].
  - done.
  - destruct Hok as [Hlive Hlease]. split.
    + intros id2 o2 Ho2 Hl2. apply lookup_insert_Some in Ho2 as [[<- <-]|[_ Ho2]]; [|eauto].
      rewrite Hi. unfold live in Hl2. rewrite Hs in Hl2. eauto.
    + intros inst l Hli. destruct (Hlease inst l Hli) as (? & ? & o2 & Ho2 & Hoi & Hot & Hag).
      split_and!; [done..|]. destruct (decide (id = ls_operation l)) as [->|Hne].
      * exists o'. rewrite lookup_insert_eq. assert (o2 = o) as -> by congruence.
        unfold agree in *. rewrite Hs. rewrite Hi, Ht. done.
      * exists o2. by rewrite lookup_insert_ne.
  - rewrite <- Hi. assert (1 <= ls_token l) by apply (ok_lease _ _ Hok _ _ Hlk).
    apply coord_ok_set; auto; rewrite ?Hi; naive_solver (lia || congruence).
  - apply coord_ok_set; auto; try naive_solver.
    + intros l Hl. rewrite Hl in Hfree. naive_solver.
    + destruct (db_leases d !! op_installation o') as [l|] eqn:E; [|lia].
      pose proof (ok_lease _ _ Hok _ _ E). lia.
    + by rewrite Hos, Hst.
  - destruct (ok_lease _ _ Hok _ _ Hlk) as (Hpos & _ & oo2 & Hoo2 & Hoo2i & Hoo2t & _).
    rewrite Hlop in Hoo2. assert (oo2 = oo) as -> by congruence.
    set (l0 := l <| ls_state := LeaseReleased |> <| ls_recovery_required := false |>).
    assert (coord_ok (<[old:=oo']> (db_ops d)) (<[op_installation oo':=l0]> (db_leases d))) as Hok1.
    { apply coord_ok_set; auto; try naive_solver.
      - intros l2. rewrite Hooi, Hoo2i, Hlk. naive_solver.
      - by rewrite Hoot, Hoo2t.
      - by rewrite Hoos'. }
    rewrite Hooi, Hoo2i in Hok1.
    rewrite <- (insert_insert_eq (db_leases d) (op_installation o') l' l0).
    apply coord_ok_set; auto.
    + intros o2. rewrite lookup_insert_ne by done. congruence.
    + intros l2. rewrite lookup_insert_eq. intros [= <-]. by right.
    + lia.
    + by rewrite Hos, Hst.
  - apply coord_ok_op; [done| |].
    + congruence.
    + intros _ [x Hx]. by rewrite Hos in Hx.
Qed.

(** ** Every transaction is one of the five shapes *)

(** Side conditions of the [txn] constructors on concrete rows. *)
Ltac solve_state :=
  try assumption; unfold live, agree, same_identity, lease_flag, lease_move; cbn;
  repeat match goal with
  | H : op_state _ = _ |- _ => rewrite H
  | H : ls_state _ = _ |- _ => rewrite H
  end; cbn; split_and?; eauto; try congruence.

Lemma AuthorizeMutation_txn id t now d u d' :
  AuthorizeMutation id t now d = Ok (u, d') ->
  txn d d' /\ coord_frame d d' /\ exists o l, fenced d id t o l /\ op_state o = StateAccepted.
Proof.
  unfold AuthorizeMutation. intros H. inv_coord.
  match goal with H : fenced _ _ _ ?o ?l |- _ => pose proof (proj1 H) end.
  same_rows. destruct_and?. pk_simpl. simpl. split_and!; [|done|eauto].
  eapply txn_touch; [eassumption|reflexivity|reflexivity|..]; solve_state.
Qed.

Lemma RecordPhase_txn id t phase outcome facts now d u d' :
  RecordPhase id t phase outcome facts now d = Ok (u, d') ->
  txn d d' /\ coord_frame d d' /\ exists o l, fenced d id t o l /\ op_state o = StateExecuting.
Proof.
  unfold RecordPhase. intros H. inv_coord.
  match goal with H : fenced _ _ _ ?o ?l |- _ => pose proof (proj1 H) end.
  same_rows. destruct_and?. pk_simpl. simpl. split_and!; [|done|eauto].
  eapply txn_touch; [eassumption|reflexivity|reflexivity|..]; solve_state.
Qed.

Lemma complete_recovery_required_txn id t detail now d u d' o l :
  fenced d id t o l ->
  complete_recovery_required id t detail now d = Ok (u, d') ->
  txn d d' /\ coord_frame d d' /\ op_state o = StateExecuting.
Proof.
  unfold complete_recovery_required. intros Hf H. pose proof Hf as (Ho & Ht & Hl & Hop & Hlt & Hls).
  inv_coord. same_rows. destruct_and?. pk_simpl. cbn [op_installation set set_op_token] in *.
  simpl in *. pk_simpl. simpl. split_and!; [|done|done].
  eapply txn_move; [eassumption|eassumption|done|reflexivity|reflexivity|..]; solve_state.
Qed.

Lemma Complete_txn um id t response now d r d' :
  Complete um id t response now d = Ok (r, d') ->
  txn d d' /\ coord_frame d d' /\ exists o l, fenced d id t o l /\ op_state o = StateExecuting.
Proof.
  unfold Complete. intros H. destruct (encode_result _ _); [|done].
  destruct (if rs_OK response then _ else _) as [[[[state outcome] recovery] code] detail] eqn:Est.
  assert (lease_of state = None) as Hst by (destruct (rs_OK response); simplify_eq; done).
  inv_coord. case_decide.
  - inv_coord. edestruct complete_recovery_required_txn as (? & ? & ?); [eassumption..|].
    split_and!; [done..|]. eexists _, _. split; [eassumption|done].
  - inv_coord. match goal with H : fenced _ _ _ ?o ?l |- _ =>
      pose proof H as (Ho & Ht & Hl & Hop & Hlt & Hls) end.
    same_rows. destruct_and?. pk_simpl. simpl in *. same_rows. destruct_and?. pk_simpl. simpl.
    split_and!; [|done|eauto].
    eapply txn_move; [eassumption|eassumption|done|reflexivity|reflexivity|..]; solve_state.
    by rewrite Hst.
Qed.

Lemma CompleteRecovery_txn um id t response now d r d' :
  CompleteRecovery um id t response now d = Ok (r, d') ->
  txn d d' /\ coord_frame d d' /\
  exists o, db_ops d !! id = Some o /\ op_token o = Some t /\ op_state o = StateActionRequired.
Proof.
  unfold CompleteRecovery. intros H. destruct (encode_result _ _); [|done].
  destruct (if rs_OK response then _ else _) as [[[state outcome] code] detail] eqn:Est.
  assert (lease_of state = None) as Hst by (destruct (rs_OK response); simplify_eq; done).
  inv_coord. destruct_and?. same_rows. pk_simpl. simpl in *. same_rows. destruct_and?. pk_simpl. simpl.
  split_and!; [|done|eauto].
  eapply txn_move; [eassumption|eassumption|done|reflexivity|reflexivity|..]; solve_state.
  by rewrite Hst.
Qed.

(** The lease row of a live operation. *)
Lemma coord_inv_live d id o :
  coord_inv d -> db_ops d !! id = Some o -> live (op_state o) ->
  exists l, db_leases d !! op_installation o = Some l /\ ls_operation l = id /\
    op_token o = Some (ls_token l) /\ agree (op_state o) (ls_state l) /\ 1 <= ls_token l.
Proof.
  intros [Hlive Hlease] Ho Hl. destruct (Hlive id o Ho Hl) as (l & Hlk & Hop).
  destruct (Hlease _ _ Hlk) as (Hpos & _ & o2 & Ho2 & _ & Ht & Hag).
  exists l. rewrite Hop in Ho2. assert (o2 = o) as -> by congruence. done.
Qed.

Lemma markReconciling_txn id now d u d' o :
  coord_inv d -> db_ops d !! id = Some o -> live (op_state o) ->
  markReconciling id now d = Ok (u, d') ->
  txn d d' /\ coord_frame d d' /\
  exists o', db_ops d' = <[id:=o']> (db_ops d) /\ op_state o' = StateReconciling.
Proof.
  intros Hok Ho Hlive H. destruct (coord_inv_live d id o Hok Ho Hlive) as (l & Hl & Hop & Ht & _ & _).
  unfold markReconciling in H. inv_coord. same_rows. pk_simpl. simpl in *. pk_simpl. simpl.
  split_and!; [|done|by eexists].
  eapply txn_move; [eassumption|eassumption|done|reflexivity|reflexivity|..]; solve_state.
Qed.

Lemma recoverOne_txn id prior now d u d' o :
  coord_inv d -> db_ops d !! id = Some o -> op_state o = StateReconciling ->
  recoverOne id prior now d = Ok (u, d') ->
  txn d d' /\ coord_frame d d' /\
  exists o', db_ops d' = <[id:=o']> (db_ops d) /\
    op_state o' = if decide (prior = StateAccepted) then StateFailed else StateActionRequired.
Proof.
  intros Hok Ho Hst H.
  destruct (coord_inv_live d id o Hok Ho) as (l & Hl & Hop & Ht & Hag & _); [rewrite Hst; by eexists|].
  unfold agree in Hag. rewrite Hst in Hag. simpl in Hag.
  unfold recoverOne in H. case_decide; inv_coord; same_rows; pk_simpl; simpl in *; pk_simpl; simpl;
    (split_and!; [|done|eexists; split; [reflexivity|done]]);
    (eapply txn_move; [eassumption|eassumption|done|reflexivity|reflexivity|..]; solve_state).
Qed.

Lemma ResolveActionRequired_txn id now d u d' :
  coord_inv d -> ResolveActionRequired id now d = Ok (u, d') -> txn d d' /\ coord_frame d d'.
Proof.
  unfold ResolveActionRequired. intros Hok H. inv_coord. destruct_and?. same_rows.
  match goal with H : db_ops _ !! id = Some ?o, Hs : op_state ?o = _ |- _ =>
    destruct (coord_inv_live _ id o Hok H) as (l0 & Hl & Hop & Ht & Hag & _); [rewrite Hs; by eexists|] end.
  same_rows. pk_simpl. simpl. split; [|done].
  eapply txn_move; [eassumption|eassumption|done|reflexivity|reflexivity|..]; solve_state.
Qed.

(** [begin_new] on a fresh identity: accepted with a fresh token, accepted by
    taking a recovery lease over, or refused because of the current holder. *)
Definition begin_spec (request : Request) (hash scope : string) (d : db)
    (r : Decision_t * option error) (d' : db) : Prop :=
  let id := rq_OperationID request in
  exists o', db_ops d' !! id = Some o' /\ op_installation o' = scope /\
    op_request_hash o' = hash /\
    ((Execute r.1 = true /\ r.2 = None /\ op_state o' = StateAccepted /\
      op_token o' = Some (FencingToken r.1)) \/
     (Execute r.1 = false /\ op_state o' = StateFailed /\
      exists l, db_leases d !! scope = Some l /\ ls_state l <> LeaseReleased /\
        r.2 = Some (ErrConflict (ls_operation l)))).

(** The lease switch, on a store where the new operation holds nothing yet. *)
Lemma acquire_lease_effect request scope now d x d' :
  acquire_lease request scope now d = Ok (x, d') ->
  (forall l, db_leases d !! scope = Some l -> ls_operation l <> rq_OperationID request) ->
  coord_frame d d' /\
  match x with
  | inr a =>
      db_ops d' = db_ops d /\ db_leases d' = db_leases d /\
      exists l, db_leases d !! scope = Some l /\ ls_state l <> LeaseReleased /\ a = ls_operation l
  | inl token =>
      exists l', db_leases d' = <[scope:=l']> (db_leases d) /\
        ls_operation l' = rq_OperationID request /\ ls_token l' = token /\
        ls_state l' = LeaseHeld /\ lease_flag l' /\
        match db_leases d !! scope with
        | None => token = 1 /\ db_ops d' = db_ops d
        | Some l => token = ls_token l + 1 /\
            ((ls_state l = LeaseReleased /\ db_ops d' = db_ops d) \/
             (ls_state l = LeaseRecoveryRequired /\ is_repair request /\
              exists oo oo', db_ops d !! ls_operation l = Some oo /\
                op_state oo = StateActionRequired /\
                db_ops d' = <[ls_operation l:=oo']> (db_ops d) /\
                op_state oo' = StateSuperseded /\ op_token oo' = op_token oo /\
                same_identity oo oo'))
        end
  end.
Proof.
  unfold acquire_lease. intros H Hfree. inv_coord.
  destruct (db_leases _ !! scope) as [l|] eqn:Hl.
  - specialize (Hfree l eq_refl).
    case_decide as Hrel; [|case_decide as Hrep; [|case_decide as Hsame]]; [| |done|].
    + inv_coord. pk_simpl. simpl. split; [done|]. eexists. split; [reflexivity|].
      solve_state.
    + destruct Hrep as [Hrep Hrec]. inv_coord. pk_simpl. simpl. split; [done|].
      eexists. split; [reflexivity|]. solve_state. right. split_and!; [done..|].
      eexists _, _. split_and!; try done. all: done.
    + inv_coord. split; [done|]. split_and!; [done..|]. eauto.
  - inv_coord. split; [done|]. eexists. split; [reflexivity|]. done.
Qed.

Lemma begin_accept_effect request scope now token d r d' o :
  db_ops d !! rq_OperationID request = Some o ->
  begin_accept request scope now token d = Ok (r, d') ->
  db_ops d' = <[rq_OperationID request:=o <| op_token := Some token |> <| op_updated_at := now |>]> (db_ops d) /\
  db_leases d' = db_leases d /\ coord_frame d d' /\
  Execute r.1 = true /\ FencingToken r.1 = token /\ r.2 = None.
Proof. unfold begin_accept. intros Ho H. inv_coord. by pk_simpl. Qed.

Lemma begin_conflict_effect request scope now active d r d' o :
  db_ops d !! rq_OperationID request = Some o ->
  begin_conflict request scope now active d = Ok (r, d') ->
  exists o', db_ops d' = <[rq_OperationID request:=o']> (db_ops d) /\
  same_identity o o' /\ op_state o' = StateFailed /\
  db_leases d' = db_leases d /\ coord_frame d d' /\
  Execute r.1 = false /\ r.2 = Some (ErrConflict active).
Proof.
  unfold begin_conflict. intros Ho H. inv_coord. pk_simpl. simpl. eexists.
  split; [reflexivity|]. done.
Qed.

Lemma begin_new_txn request hash canonical scope now uid d r d' :
  coord_inv d -> begin_new request hash canonical scope now uid d = Ok (r, d') ->
  txn d d' /\ coord_frame d d' /\ db_ops d !! rq_OperationID request = None /\
  begin_spec request hash scope d r d'.
Proof.
  intros Hok H. unfold begin_new in H. cbn zeta in H. unfold begin_spec. cbn zeta.
  set (o1 := new_op request hash canonical scope now uid) in *.
  apply tbind_Ok in H as ([] & d1 & [Hnone ->]%insert_op_Ok & H).
  apply tbind_Ok in H as (x & d2 & Hacq & H).
  assert (Hne : forall l, db_leases d !! scope = Some l -> ls_operation l <> rq_OperationID request).
  { intros l Hl Heq. destruct (ok_lease _ _ Hok scope l Hl) as (_ & _ & oo & Hoo & _). congruence. }
  apply acquire_lease_effect in Hacq as [Hfr Hx]; [|done].
  simpl in Hx. pose proof (lookup_insert_eq (db_ops d) (rq_OperationID request) o1) as Hid1.
  destruct x as [token|a].
  - destruct Hx as (l' & Hls & Hop & <- & Hst & Hfl & Hcase).
    destruct (db_leases d !! scope) as [l|] eqn:Hl;
      [destruct Hcase as [Ht [[Hrel Hops]|(Hrec & Hrep & oo & oo' & Hoo & Hoos & Hops & Hs & Hot & Hoid)]]
      |destruct Hcase as [Ht Hops]].
    2: { rewrite lookup_insert_ne in Hoo by (intros Heq; by apply (Hne l)).
      rewrite insert_insert_ne in Hops by (by apply Hne).
      eapply begin_accept_effect in H as (Hops' & Hls' & Hfr' & Hex & Htk & Herr);
        [|rewrite Hops; apply lookup_insert_eq].
      rewrite Hops, insert_insert_eq in Hops'. split_and!; [|exact (coord_frame_trans _ _ _ Hfr Hfr')|done|].
      - eapply txn_takeover. 11: exact Hops'. 1: exact Hnone. 2: exact Hoo.
        1: by apply not_eq_sym, Hne. 5: exact Hl. 7: (rewrite Hls', Hls; reflexivity).
        all: solve_state.
      - eexists. rewrite Hops'. split; [apply lookup_insert_eq|]. split_and!; [done..|].
        left. rewrite Htk. done. }
    all: eapply begin_accept_effect in H as (Hops' & Hls' & Hfr' & Hex & Htk & Herr);
        [|rewrite Hops; apply lookup_insert_eq];
      rewrite Hops, insert_insert_eq in Hops';
      (split_and!; [|exact (coord_frame_trans _ _ _ Hfr Hfr')|done|]);
      [eapply txn_accept; [exact Hnone|exact Hops'|by rewrite Hls'|..]; solve_state; cbn; by rewrite Hl
      |eexists; rewrite Hops'; split; [apply lookup_insert_eq|]; split_and!; [done..|];
        left; rewrite Htk; done].
  - destruct Hx as (Hops & Hls & l & Hl & Hst & ->).
    eapply begin_conflict_effect in H as (o' & Hops' & [Hi Hh] & Hos & Hls' & Hfr' & Hex & Herr);
      [|by rewrite Hops].
    rewrite Hops, insert_insert_eq in Hops'. split_and!; [|exact (coord_frame_trans _ _ _ Hfr Hfr')|done|].
    + eapply txn_refuse; [exact Hnone|exact Hops'|congruence|done].
    + exists o'. rewrite Hops'. split; [apply lookup_insert_eq|]. split_and!; [done..|].
      right. split_and!; eauto.
Qed.

Lemma Begin_txn sha um request uid scope now d r d' :
  coord_inv d -> Begin sha um request uid scope now d = Ok (r, d') ->
  txn d d' /\ coord_frame d d' /\
  match db_ops d !! rq_OperationID request with
  | Some _ => d' = d /\ Execute r.1 = false /\ r.2 = None
  | None => exists hash, Hash sha request = Ok hash /\ begin_spec request hash scope d r d'
  end.
Proof.
  intros Hok H. unfold Begin in H. cbn zeta in H.
  apply tbind_Ok in H as (u1 & ? & [_ <-]%tassert_Ok & H).
  apply tbind_Ok in H as (u2 & ? & [_ <-]%tassert_Ok & H).
  apply tbind_Ok in H as (u3 & ? & [_ <-]%tassert_Ok & H).
  destruct (Canonical request) as [canonical|]; [|discriminate H].
  destruct (Hash sha request) as [hash|]; [|discriminate H].
  apply tbind_Ok in H as (d0 & d1 & [-> ->]%tget_Ok & H).
  destruct (db_ops d1 !! rq_OperationID request) as [existing|].
  - destruct (decide (op_request_hash existing <> hash)); apply tret_Ok in H as [<- ->];
      (split_and!; [by apply txn_same|done..]).
  - apply begin_new_txn in H as (? & ? & ? & ?); eauto.
Qed.

Lemma Begin_hashed sha um request uid scope now d r :
  Begin sha um request uid scope now d = Ok r -> exists hash, Hash sha request = Ok hash.
Proof.
  intros H. destruct r as [r d']. unfold Begin in H. cbn zeta in H.
  do 3 (apply tbind_Ok in H as (? & ? & _ & H)).
  destruct (Canonical request); [|discriminate H].
  destruct (Hash sha request); [by eexists|discriminate H].
Qed.

(** A known identity: the two answers of the replay branch. *)
Lemma Begin_replay sha um request uid scope now d r d' o hash :
  db_ops d !! rq_OperationID request = Some o -> Hash sha request = Ok hash ->
  Begin sha um request uid scope now d = Ok (r, d') ->
  if decide (op_request_hash o = hash)
  then dResponse r.1 = responseFor um (rq_OperationID request) o (rq_ID request)
  else rs_ErrorCode (dResponse r.1) = "OperationConflict".
Proof.
  intros Ho Hh H. unfold Begin in H. cbn zeta in H.
  apply tbind_Ok in H as (u1 & d1 & [_ <-]%tassert_Ok & H).
  apply tbind_Ok in H as (u2 & d2 & [_ <-]%tassert_Ok & H).
  apply tbind_Ok in H as (u3 & d3 & [_ <-]%tassert_Ok & H).
  destruct (Canonical request) as [canonical|e]; [|discriminate H]. rewrite Hh in H.
  apply tbind_Ok in H as (d4 & d5 & [-> <-]%tget_Ok & H). rewrite Ho in H.
  destruct (decide (op_request_hash o <> hash)); apply tret_Ok in H as [<- _]; case_decide; done.
Qed.

(** ** Runs of the coordinator

    One step is one committed transaction: a failed transaction is rolled
    back and a crash between transactions leaves the store as the last one
    committed it. *)
Inductive step (d d' : db) : Prop :=
| step_Begin sha um request uid scope now r :
    Begin sha um request uid scope now d = Ok (r, d') -> step d d'
| step_Authorize id t now u : AuthorizeMutation id t now d = Ok (u, d') -> step d d'
| step_RecordPhase id t phase outcome facts now u :
    RecordPhase id t phase outcome facts now d = Ok (u, d') -> step d d'
| step_Complete um id t response now r :
    Complete um id t response now d = Ok (r, d') -> step d d'
| step_CompleteRecovery um id t response now r :
    CompleteRecovery um id t response now d = Ok (r, d') -> step d d'
| step_mark id now o u :
    db_ops d !! id = Some o -> is_interrupted (op_state o) ->
    markReconciling id now d = Ok (u, d') -> step d d'
| step_recover id prior now o u :
    db_ops d !! id = Some o -> op_state o = StateReconciling ->
    recoverOne id prior now d = Ok (u, d') -> step d d'
| step_Resolve id now u : ResolveActionRequired id now d = Ok (u, d') -> step d d'.

Lemma is_interrupted_live s : is_interrupted s -> live s.
Proof. intros [-> | [-> | ->]]; by eexists. Qed.

Lemma step_txn d d' : coord_inv d -> step d d' -> txn d d' /\ coord_frame d d'.
Proof.
  intros Hok [??????? H|???? H|??????? H|?????? H|?????? H|???? Ho Hi H|????? Ho Hs H|??? H].
  - apply Begin_txn in H; naive_solver.
  - apply AuthorizeMutation_txn in H; naive_solver.
  - apply RecordPhase_txn in H; naive_solver.
  - apply Complete_txn in H; naive_solver.
  - apply CompleteRecovery_txn in H; naive_solver.
  - eapply markReconciling_txn in H; eauto using is_interrupted_live; naive_solver.
  - eapply recoverOne_txn in H; eauto; naive_solver.
  - by apply ResolveActionRequired_txn in H.
Qed.

Lemma step_coord_inv d d' : coord_inv d -> step d d' -> coord_inv d'.
Proof. intros Hok Hs. destruct (step_txn d d' Hok Hs) as [Ht _]. by eapply txn_coord_inv. Qed.

Lemma steps_coord_inv d d' : coord_inv d -> rtc step d d' -> coord_inv d'.
Proof. intros Hok Hs. induction Hs; eauto using step_coord_inv. Qed.

Lemma empty_coord_inv : coord_inv empty_db.
Proof. split; intros ? ? H; cbn in H; by rewrite lookup_empty in H. Qed.

(** ** The abstract lock *)
Record alock : Type := { al_token : Z; al_holder : option (string * bool) }.

(** Installations are locked by at most one operation at a time, normally or
    for recovery; the token advances whenever authority changes hands or is
    suspended, and never otherwise. *)
Inductive lock_step (m : gmap string alock) : gmap string alock -> Prop :=
| lock_skip : lock_step m m
| lock_first i id : m !! i = None ->
    lock_step m (<[i := {| al_token := 1; al_holder := Some (id, false) |}]> m)
| lock_grant i t id : m !! i = Some {| al_token := t; al_holder := None |} ->
    lock_step m (<[i := {| al_token := t + 1; al_holder := Some (id, false) |}]> m)
| lock_takeover i t old id : id <> old ->
    m !! i = Some {| al_token := t; al_holder := Some (old, true) |} ->
    lock_step m (<[i := {| al_token := t + 1; al_holder := Some (id, false) |}]> m)
| lock_suspend i t id b : m !! i = Some {| al_token := t; al_holder := Some (id, b) |} ->
    lock_step m (<[i := {| al_token := t + 1; al_holder := Some (id, true) |}]> m)
| lock_release i t id b : m !! i = Some {| al_token := t; al_holder := Some (id, b) |} ->
    lock_step m (<[i := {| al_token := t; al_holder := None |}]> m).

Definition abs_lease (l : leaseRow) : alock :=
  {| al_token := ls_token l;
     al_holder := match ls_state l with
                  | LeaseHeld => Some (ls_operation l, false)
                  | LeaseRecoveryRequired => Some (ls_operation l, true)
                  | LeaseReleased => None
                  end |}.

Definition abs (d : db) : gmap string alock := abs_lease <$> db_leases d.

Lemma abs_lookup d i l : db_leases d !! i = Some l -> abs d !! i = Some (abs_lease l).
Proof. intros Hl. unfold abs. by rewrite lookup_fmap, Hl. Qed.

Lemma abs_insert d d' i l' : db_leases d' = <[i:=l']> (db_leases d) ->
  abs d' = <[i:=abs_lease l']> (abs d).
Proof. unfold abs. intros ->. by rewrite fmap_insert. Qed.

Lemma txn_lock_step d d' : coord_inv d -> txn d d' -> lock_step (abs d) (abs d').
Proof.
  intros Hok Ht. destruct Ht as
    [_ Hls|id o o' Ho _ Hls _ _ _ _
    |id o o' l l' Ho Hlk Hop _ Hls _ Hl [Hmo Hm] _ Hag _
    |id o' l' Hn _ Hls Hop Htok Hst _ _ Hfree
    |id o' l' old oo oo' l Hn Hne Hold _ _ _ _ Hlk Hlop Hlst _ Hls Hop Htok Hst _ _ Htk
    |id o' Hn _ Hls _].
  1, 2, 6: unfold abs; rewrite Hls; apply lock_skip.
  - destruct (coord_inv_live d id o Hok Ho Hl) as (l2 & Hl2 & _ & _ & Hag2 & _).
    assert (l2 = l) as -> by congruence. apply abs_insert in Hls as ->.
    pose proof (abs_lookup d _ l Hlk) as Habs.
    assert (exists b, abs_lease l = {| al_token := ls_token l; al_holder := Some (ls_operation l, b) |})
      as [b Hb].
    { unfold abs_lease. unfold agree in Hag2. destruct Hl as [x Hx]. rewrite Hx in Hag2.
      rewrite Hag2. destruct x; [by eexists..|]. by destruct (op_state o) in Hx. }
    destruct Hm as [[Ht [Hs|Hs]]|[Ht Hs]].
    + replace (abs_lease l') with (abs_lease l) by (unfold abs_lease; by rewrite Hs, Hmo, Ht).
      rewrite insert_id by done. apply lock_skip.
    + unfold abs_lease at 1. rewrite Hs, Ht. rewrite Hb in Habs. by eapply lock_release.
    + unfold abs_lease at 1. rewrite Hs, Ht, Hmo. rewrite Hb in Habs. by eapply lock_suspend.
  - apply abs_insert in Hls as ->. unfold abs_lease at 1. rewrite Hst, Hop.
    destruct (db_leases d !! op_installation o') as [l|] eqn:Hl.
    + destruct Hfree as [Hrel ->]. apply lock_grant. rewrite (abs_lookup d _ l Hl).
      unfold abs_lease. by rewrite Hrel.
    + rewrite Hfree. apply lock_first. unfold abs. by rewrite lookup_fmap, Hl.
  - apply abs_insert in Hls as ->. unfold abs_lease at 1. rewrite Hst, Hop, Htk.
    eapply lock_takeover; [done|]. rewrite (abs_lookup d _ l Hlk). unfold abs_lease.
    by rewrite Hlst, Hlop.
Qed.

(** Tokens of an installation never decrease, and a token never changes
    hands: as long as it is unchanged the holder is the same or gone. *)
Definition lock_le (a b : alock) : Prop :=
  al_token a <= al_token b /\
  (al_token a = al_token b -> al_holder b = al_holder a \/ al_holder b = None).

Lemma lock_le_refl a : lock_le a a.
Proof. split; [lia|auto]. Qed.

Lemma lock_le_trans a b c : lock_le a b -> lock_le b c -> lock_le a c.
Proof.
  unfold lock_le. intros [? H1] [? H2]. split; [lia|]. intros Heq.
  destruct H1 as [H1|H1], H2 as [H2|H2]; try lia; rewrite H2; auto.
Qed.

Lemma lock_step_le m m' i a : lock_step m m' -> m !! i = Some a ->
  exists b, m' !! i = Some b /\ lock_le a b.
Proof.
  intros Hs Ha. destruct Hs; try (exists a; by split; [|apply lock_le_refl]);
  match goal with |- context [<[?j:=?x]> m] =>
    destruct (decide (j = i)) as [->|];
    [exists x; rewrite lookup_insert_eq; split; [done|]; unfold lock_le; simplify_eq/=; naive_solver lia
    |exists a; rewrite lookup_insert_ne by done; split; [done|apply lock_le_refl]] end.
Qed.

Lemma steps_lock_le d d' i a : coord_inv d -> rtc step d d' -> abs d !! i = Some a ->
  exists b, abs d' !! i = Some b /\ lock_le a b.
Proof.
  intros Hok Hs. revert a. induction Hs as [d|d d1 d2 H1 Hs IH]; intros a Ha.
  { exists a. split; [done|apply lock_le_refl]. }
  destruct (step_txn d d1 Hok H1) as [Ht _].
  destruct (lock_step_le _ _ i a (txn_lock_step d d1 Hok Ht) Ha) as (b & Hb & Hle).
  destruct (IH (step_coord_inv _ _ Hok H1) b Hb) as (c & Hc & Hle2). eauto using lock_le_trans.
Qed.

(** Operation rows are never deleted or rebound, and a finished one is final. *)
Lemma txn_op_kept d d' id o : txn d d' -> db_ops d !! id = Some o ->
  exists o', db_ops d' !! id = Some o' /\ same_identity o o' /\
    (~ live (op_state o) -> o' = o).
Proof.
  intros Ht Ho. destruct Ht as
    [-> _|i a a' Ha -> _ Hid Hl _ _|i a a' l l' Ha _ _ -> _ Hid Hl _ _ _ _
    |i a' l' Hn -> _ _ _ _ _ _ _
    |i a' l' old oo oo' l Hn Hne Hold Hoos _ _ Hid _ _ _ -> _ _ _ _ _ _ _
    |i a' Hn -> _ _].
  1: exists o; done.
  1, 2: destruct (decide (i = id)) as [->|]; [exists a'; rewrite lookup_insert_eq|exists o; by rewrite lookup_insert_ne];
    assert (a = o) as -> by congruence; split_and!; [done..|]; done.
  1, 3: exists o; rewrite lookup_insert_ne; [done|congruence].
  rewrite lookup_insert_ne by congruence. destruct (decide (old = id)) as [->|].
  - exists oo'. rewrite lookup_insert_eq. assert (oo = o) as -> by congruence. split_and!; [done..|].
    intros Hnl. destruct Hnl. rewrite Hoos. by eexists.
  - exists o. by rewrite lookup_insert_ne.
Qed.

Lemma steps_op_kept d d' id o : coord_inv d -> rtc step d d' -> db_ops d !! id = Some o ->
  exists o', db_ops d' !! id = Some o' /\ same_identity o o' /\ (~ live (op_state o) -> o' = o).
Proof.
  intros Hok Hs. revert o. induction Hs as [d|d d1 d2 H1 Hs IH]; intros o Ho; [by exists o|].
  destruct (step_txn d d1 Hok H1) as [Ht _].
  destruct (txn_op_kept d d1 id o Ht Ho) as (o1 & Ho1 & [Hi Hh] & Hf).
  destruct (IH (step_coord_inv _ _ Hok H1) o1 Ho1) as (o2 & Ho2 & [Hi2 Hh2] & Hf2).
  exists o2. split_and!; [done|split; congruence|].
  intros Hnl. specialize (Hf Hnl) as ->. by apply Hf2.
Qed.

(** ** Progress: under the invariant no statement fails *)
Lemma update_leases_total P `{!forall k r, Decision (P k r)} f d :
  leases_fk d ->
  (forall l, ls_operation (f l) = ls_operation l \/ is_Some (db_ops d !! ls_operation (f l))) ->
  update_leases P f d =
    Ok (affected P (db_leases d), d <| db_leases := update P f (db_leases d) |>).
Proof.
  intros Hfk Hf. unfold update_leases. rewrite decide_True; [done|].
  intros i l Hi. cbn in Hi |- *. apply lookup_update_Some in Hi as (l0 & Hl0 & ->).
  specialize (Hfk i l0 Hl0). case_decide; [|done]. destruct (Hf l0) as [->|]; done.
Qed.

(** The foreign key survives changes of operation rows. *)
Lemma leases_fk_ops P `{!forall k r, Decision (P k r)} f d :
  leases_fk d -> leases_fk (d <| db_ops := update P f (db_ops d) |>).
Proof.
  intros Hfk i l Hi. specialize (Hfk i l Hi). cbn. rewrite lookup_update. by apply fmap_is_Some.
Qed.

Lemma markReconciling_total id now d o :
  coord_inv d -> db_ops d !! id = Some o -> live (op_state o) ->
  exists d', markReconciling id now d = Ok (tt, d').
Proof.
  intros Hok Ho Hl. destruct (coord_inv_live d id o Hok Ho Hl) as (l & _ & _ & Ht & _).
  eexists. unfold markReconciling, get_op, tbind, trow. rewrite Ho.
  unfold scan_token. rewrite Ht. unfold tret, update_ops.
  rewrite update_leases_total; [|by apply leases_fk_ops, coord_ok_fk|by left].
  unfold appendEvent, insert_event. cbn. rewrite lookup_update, Ho. reflexivity.
Qed.

Lemma recoverOne_total id prior now d o :
  coord_inv d -> db_ops d !! id = Some o -> op_state o = StateReconciling ->
  exists d', recoverOne id prior now d = Ok (tt, d').
Proof.
  intros Hok Ho Hs.
  destruct (coord_inv_live d id o Hok Ho) as (l & Hl & Hop & _); [rewrite Hs; by eexists|].
  unfold recoverOne, get_op, tbind, trow. rewrite Ho, Hl. rewrite (decide_True (P := ls_operation l = id)) by done.
  case_decide; eexists; unfold update_ops;
    (rewrite update_leases_total; [|by apply leases_fk_ops, coord_ok_fk|by left]);
    unfold appendEvent, insert_event; cbn; rewrite lookup_update, Ho; reflexivity.
Qed.

(** The verdict of restart recovery on one operation. *)
Definition verdict (s : op_state_t) : op_state_t :=
  if decide (s = StateAccepted) then StateFailed else StateActionRequired.

Lemma recover_loop_spec clock items i d :
  coord_inv d -> NoDup (map fst items) ->
  Forall (fun it => exists o, db_ops d !! it.1 = Some o /\ op_state o = it.2 /\
                              is_interrupted (op_state o)) items ->
  exists d', recover_loop clock i items d = (Ok tt, d') /\ coord_inv d' /\ rtc step d d' /\
    coord_frame d d' /\
    Forall (fun it => exists o', db_ops d' !! it.1 = Some o' /\ op_state o' = verdict it.2) items /\
    (forall id, id ∉ map fst items -> db_ops d' !! id = db_ops d !! id).
Proof.
  revert i d. induction items as [|[id s] items IH]; intros i d Hok Hnd Hall.
  { exists d. split_and!; auto with kit. apply rtc_refl. }
  apply Forall_cons in Hall as [(o & Ho & Hs & Hint) Hall]. simpl in Ho, Hs. subst s.
  apply NoDup_cons in Hnd as [Hni Hnd].
  destruct (markReconciling_total id (clock i) d o Hok Ho) as [d1 Hm]; [by apply is_interrupted_live|].
  destruct (markReconciling_txn _ _ _ _ _ _ Hok Ho (is_interrupted_live _ Hint) Hm)
    as (Ht1 & Hf1 & o1 & Hops1 & Hs1).
  pose proof (txn_coord_inv _ _ Ht1 Hok) as Hok1.
  assert (db_ops d1 !! id = Some o1) as Ho1 by (rewrite Hops1; apply lookup_insert_eq).
  destruct (recoverOne_total id (op_state o) (clock (S i)) d1 o1 Hok1 Ho1 Hs1) as [d2 Hr].
  destruct (recoverOne_txn _ _ _ _ _ _ _ Hok1 Ho1 Hs1 Hr) as (Ht2 & Hf2 & o2 & Hops2 & Hs2).
  pose proof (txn_coord_inv _ _ Ht2 Hok1) as Hok2.
  assert (Hother : forall k, k <> id -> db_ops d2 !! k = db_ops d !! k).
  { intros k Hk. by rewrite Hops2, lookup_insert_ne, Hops1, lookup_insert_ne. }
  destruct (IH (S (S i)) d2 Hok2 Hnd) as (d3 & Hl & Hok3 & Hst & Hf3 & Hv & Hrest).
  { eapply Forall_impl; [apply Forall_and; split; [exact Hall|apply Forall_forall; intros x Hx; exact Hx]|].
    intros [k s] [(ok & Hk & ?) Hin]. exists ok. simpl in *. rewrite Hother; [done|].
    intros ->. apply Hni. by apply (list_elem_of_fmap_2 fst _ (id, s)). }
  exists d3. split_and!.
  - simpl. unfold atomically. rewrite Hm, Hr. done.
  - done.
  - eapply rtc_l; [by eapply step_mark|]. eapply rtc_l; [by eapply step_recover|done].
  - eauto with kit.
  - constructor; [|done]. exists o2. simpl. rewrite Hrest by done. rewrite Hops2, lookup_insert_eq. done.
  - intros k Hk. simpl in Hk. apply not_elem_of_cons in Hk as [Hk1 Hk2]. rewrite Hrest by done. by apply Hother.
Qed.

Lemma interrupted_spec d :
  NoDup (map fst (interrupted d)) /\
  forall id s, (id, s) ∈ interrupted d <->
    exists o, db_ops d !! id = Some o /\ op_state o = s /\ is_interrupted s.
Proof.
  unfold interrupted. split.
  - rewrite map_map. simpl. change (fun x : string * opRow => x.1) with (@fst string opRow).
    rewrite sort_by_perm. apply NoDup_fst_map_to_list.
  - intros id s. split.
    + intros H. apply list_elem_of_fmap in H as ([k o] & [= -> ->] & H).
      apply elem_of_sort_by, elem_of_select in H. naive_solver.
    + intros (o & Ho & <- & Hi). apply list_elem_of_fmap. exists (id, o). split; [done|].
      by apply elem_of_sort_by, elem_of_select.
Qed.

(** Whether a new operation can take the lease of its installation. *)
Definition lease_available (d : db) (request : Request) (scope : string) : Prop :=
  match db_leases d !! scope with
  | None => True
  | Some l => ls_state l = LeaseReleased \/
              (is_repair request /\ ls_state l = LeaseRecoveryRequired)
  end.

(** Startup recovery has finished for this installation. *)
Definition settled (d : db) (scope : string) : Prop :=
  forall l o, db_leases d !! scope = Some l -> db_ops d !! ls_operation l = Some o ->
    op_state o <> StateReconciling.

Lemma acquire_lease_total request scope now d d1 o1 :
  coord_inv d -> db_ops d !! rq_OperationID request = None -> settled d scope ->
  db_ops d1 = <[rq_OperationID request:=o1]> (db_ops d) -> db_leases d1 = db_leases d ->
  exists x d2, acquire_lease request scope now d1 = Ok (x, d2) /\
    is_Some (db_ops d2 !! rq_OperationID request) /\
    (lease_available d request scope <-> exists t, x = inl t).
Proof.
  intros Hok Hnone Hset Hops1 Hls1. unfold lease_available.
  assert (Hself : db_ops d1 !! rq_OperationID request = Some o1)
    by (rewrite Hops1; apply lookup_insert_eq).
  assert (Hfk : leases_fk d1).
  { intros i l Hi. rewrite Hls1 in Hi. destruct (coord_ok_fk d Hok i l Hi) as [o Ho]. rewrite Hops1.
    destruct (decide (rq_OperationID request = ls_operation l)) as [->|];
      [rewrite lookup_insert_eq|rewrite lookup_insert_ne by done]; eauto. }
  unfold acquire_lease. cbn zeta. unfold tget. unfold tbind at 1. rewrite Hls1.
  destruct (db_leases d !! scope) as [l|] eqn:Hl.
  - destruct (ok_lease _ _ Hok scope l Hl) as (_ & _ & o & Ho & _ & _ & Hag).
    assert (rq_OperationID request <> ls_operation l) as Hne by (intros Heq; congruence).
    assert (db_ops d1 !! ls_operation l = Some o) as Ho1
      by (rewrite Hops1; by rewrite lookup_insert_ne).
    case_decide as Hrel; [|case_decide as Hrep].
    + unfold tbind. rewrite update_leases_total; [|done|intros; right; cbn; eauto].
      eexists _, _. split_and!; [reflexivity|cbn; eauto|]. naive_solver.
    + destruct Hrep as [Hrep Hrec]. assert (op_state o = StateActionRequired) as Hs.
      { specialize (Hset l o Hl Ho). rewrite Hrec in Hag. by destruct (op_state o). }
      unfold get_op, tbind, trow. rewrite Ho1. unfold tassert. rewrite decide_True by done.
      unfold tret, update_ops, appendEvent, insert_event. cbn [ev_operation].
      cbn -[update]. rewrite lookup_update, Ho1. cbn -[update update_leases].
      rewrite update_leases_total.
      * eexists _, _. split_and!; [reflexivity| |naive_solver].
        cbn -[update]. rewrite lookup_update, Hself. by eexists.
      * intros i l2 Hi. cbn -[update]. rewrite lookup_update. apply fmap_is_Some. by apply (Hfk i).
      * intros l2. right. cbn -[update]. rewrite lookup_update, Hself. by eexists.
    + rewrite decide_False by done. eexists _, _. split_and!; [reflexivity|eauto|].
      split; [intros [?|[? ?]]; exfalso; tauto|by intros [t ?]].
  - unfold tbind, insert_lease. rewrite Hls1, Hl. cbn [ls_operation].
    rewrite Hself. eexists _, _. split_and!; [reflexivity|cbn; eauto|]. naive_solver.
Qed.

Lemma begin_new_total request hash canonical scope now uid d :
  coord_inv d -> db_ops d !! rq_OperationID request = None -> settled d scope ->
  exists r d', begin_new request hash canonical scope now uid d = Ok (r, d') /\
    (lease_available d request scope <-> Execute r.1 = true).
Proof.
  intros Hok Hnone Hset. unfold begin_new. cbn zeta.
  set (o1 := new_op request hash canonical scope now uid).
  destruct (acquire_lease_total request scope now d
    (d <| db_ops := <[rq_OperationID request:=o1]> (db_ops d) |>) o1 Hok Hnone Hset)
    as (x & d2 & Hacq & [o2 Ho2] & Hx); [done..|].
  unfold tbind at 1. unfold insert_op at 1. rewrite Hnone. unfold tbind at 1. rewrite Hacq.
  destruct x as [t|a].
  - unfold begin_accept, tbind, update_ops, tassert.
    rewrite decide_True by (apply (affected_pk_1 _ _ (rq_OperationID request)); [pk_side|eauto]).
    unfold tret, appendEvent, insert_event. cbn -[update]. rewrite lookup_update, Ho2. cbn -[update].
    eexists _, _. split; [reflexivity|]. naive_solver.
  - unfold begin_conflict, tbind, update_ops, appendEvent, insert_event. cbn -[update sanitize].
    rewrite lookup_update, Ho2. cbn -[update sanitize]. eexists _, _. split; [reflexivity|].
    split; [intros [t ?]%Hx; done|done].
Qed.
