(* ===== verification/CoordinatorProps.v ===== *)
(** * What the coordinator promises

    The claims about [internal/helperops], each with a concrete run where its
    hypotheses hold. *)

From S2P Require Import Prelude Protocol Exposure HelperDB Coordinator CoordinatorProofs.
From stdpp Require Import base gmap strings list.
From Stdlib Require Import ZArith Lia Ascii.
Import Wire.

Open Scope Z_scope.

(** ** A concrete run *)
Definition run {A} (m : tx db A) (d : db) : db :=
  match m d with Ok (_, d') => d' | Err _ => d end.

Lemma run_Ok {A} (m : tx db A) d : is_ok (m d) = true -> exists a, m d = Ok (a, run m d).
Proof. unfold run. destruct (m d) as [[a d']|]; [by eexists|done]. Qed.

Definition no_json : string -> option json := fun _ => None.
Definition op1 : string := "op-00000000000000000000000000000001".
Definition op2 : string := "op-00000000000000000000000000000002".

Definition install (id : string) : Request :=
  ProtocolProps.empty_request <| rq_OperationID := id |>
    <| rq_Operation := "InstallApplication" |> <| rq_RuntimeGeneration := 1 |>
    <| rq_InstanceID := "inst-a" |>.

Local Notation begin1 := (Begin (fun b => b) no_json (install op1) 1000 "inst-a" "t1").

(** accepted, executing, interrupted, and recovered *)
Definition run1 : db := run begin1 empty_db.
Definition run2 : db := run (AuthorizeMutation op1 1 "t2") run1.
Definition run3 : db := run (markReconciling op1 "t3") run2.

Lemma run1_step : step empty_db run1.
Proof.
  destruct (run_Ok begin1 empty_db) as [a Ha]; [vm_compute; reflexivity|]. by eapply step_Begin.
Qed.

Lemma run2_step : step run1 run2.
Proof.
  destruct (run_Ok (AuthorizeMutation op1 1 "t2") run1) as [a Ha]; [vm_compute; reflexivity|].
  by eapply step_Authorize.
Qed.

Lemma run3_step : step run2 run3.
Proof.
  destruct (run_Ok (markReconciling op1 "t3") run2) as [a Ha]; [vm_compute; reflexivity|].
  destruct (db_ops run2 !! op1) as [o|] eqn:Ho; [|by vm_compute in Ho].
  eapply step_mark; [exact Ho| |exact Ha]. right. left.
  assert (op_state <$> db_ops run2 !! op1 = Some StateExecuting) as H by (vm_compute; reflexivity).
  rewrite Ho in H. by injection H.
Qed.

Lemma run1_inv : coord_inv run1.
Proof. eapply step_coord_inv; [apply empty_coord_inv|apply run1_step]. Qed.

Lemma run2_inv : coord_inv run2.
Proof. eapply step_coord_inv; [apply run1_inv|apply run2_step]. Qed.

(** ** Claims *)

(** C3. Every committed transaction of the coordinator
    preserves the agreement between operation rows and leases, and is a step
    of the abstract fenced lock: grant, takeover by an explicit repair,
    suspension under the next token, release, or no change. *)
Theorem coordinator_refines_lock (d d' : db) (Hinv : coord_inv d) (Hstep : step d d') :
  coord_inv d' /\ lock_step (abs d) (abs d').
Proof.
  split; [by eapply step_coord_inv|].
  destruct (step_txn d d' Hinv Hstep) as [Ht _]. by apply txn_lock_step.
Qed.

Lemma coordinator_refines_lock_witness :
  coord_inv run2 /\ lock_step (abs run1) (abs run2).
Proof. exact (coordinator_refines_lock run1 run2 run1_inv run2_step). Defined.

(** C20. In every state the coordinator can reach from an empty
    database, two unfinished operations of one installation are the same
    operation, and it is the recorded holder of that installation's lease
    under its own token. *)
Theorem mutual_exclusion (d : db) (id1 id2 : string) (o1 o2 : opRow)
    (Hreach : rtc step empty_db d)
    (H1 : db_ops d !! id1 = Some o1) (H2 : db_ops d !! id2 = Some o2)
    (L1 : live (op_state o1)) (L2 : live (op_state o2))
    (Hsame : op_installation o1 = op_installation o2) :
  id1 = id2 /\ exists l, db_leases d !! op_installation o1 = Some l /\
    ls_operation l = id1 /\ op_token o1 = Some (ls_token l) /\ ls_state l <> LeaseReleased.
Proof.
  pose proof (steps_coord_inv _ _ empty_coord_inv Hreach) as Hok.
  destruct (coord_inv_live d id1 o1 Hok H1 L1) as (l & Hl & Hop & Ht & Hag & _).
  destruct (coord_inv_live d id2 o2 Hok H2 L2) as (l2 & Hl2 & Hop2 & _).
  rewrite <- Hsame in Hl2. assert (l2 = l) as -> by congruence. split; [congruence|].
  exists l. split_and!; try done. destruct L1 as [x Hx]. unfold agree in Hag. rewrite Hx in Hag.
  rewrite Hag. destruct x; [done..|]. by destruct (op_state o1) in Hx.
Qed.

Lemma mutual_exclusion_witness :
  exists o, db_ops run2 !! op1 = Some o /\ op1 = op1 /\
  exists l, db_leases run2 !! op_installation o = Some l /\
    ls_operation l = op1 /\ op_token o = Some (ls_token l) /\ ls_state l <> LeaseReleased.
Proof.
  destruct (db_ops run2 !! op1) as [o|] eqn:Ho; [|by vm_compute in Ho].
  exists o. split; [reflexivity|].
  assert (op_state <$> db_ops run2 !! op1 = Some StateExecuting) as H by (vm_compute; reflexivity).
  rewrite Ho in H. injection H as Hs.
  refine (mutual_exclusion run2 op1 op1 o o _ Ho Ho _ _ eq_refl).
  - exact (rtc_l _ _ _ _ run1_step (rtc_once _ _ run2_step)).
  - rewrite Hs. by eexists.
  - rewrite Hs. by eexists.
Defined.

(** Once the fencing token of an installation has
    advanced past the token an executor was given, every later attempt of any
    operation of that installation to authorise, record a phase or complete
    under the old token fails and leaves the database unchanged. *)
Theorem stale_executor_refused (d d' : db) (inst : string) (l l' : leaseRow)
    (id : string) (o : opRow)
    (Hinv : coord_inv d) (Hrun : rtc step d d')
    (Hl : db_leases d !! inst = Some l) (Hl' : db_leases d' !! inst = Some l')
    (Hadv : ls_token l < ls_token l')
    (Ho : db_ops d' !! id = Some o) (Hi : op_installation o = inst) :
  (forall now, exists e, atomically (AuthorizeMutation id (ls_token l) now) d' = (Err e, d')) /\
  (forall phase outcome facts now, exists e,
     atomically (RecordPhase id (ls_token l) phase outcome facts now) d' = (Err e, d')) /\
  (forall um response now, exists e,
     atomically (Complete um id (ls_token l) response now) d' = (Err e, d')) /\
  forall d'', rtc step d' d'' ->
    exists l'', db_leases d'' !! inst = Some l'' /\ ls_token l < ls_token l''.
Proof.
  assert (Hstale : forall o2 l2, ~ fenced d' id (ls_token l) o2 l2).
  { intros o2 l2 (Ho2 & _ & Hl2 & _ & Ht & _). assert (o2 = o) as -> by congruence.
    assert (l2 = l') as -> by congruence. lia. }
  split_and!.
  - intros now. unfold atomically. destruct (AuthorizeMutation _ _ _ _) as [[u d2]|e] eqn:E; [|by eexists].
    apply AuthorizeMutation_txn in E as (_ & _ & o2 & l2 & Hf & _). by destruct (Hstale o2 l2).
  - intros. unfold atomically. destruct (RecordPhase _ _ _ _ _ _ _) as [[u d2]|e] eqn:E; [|by eexists].
    apply RecordPhase_txn in E as (_ & _ & o2 & l2 & Hf & _). by destruct (Hstale o2 l2).
  - intros. unfold atomically. destruct (Complete _ _ _ _ _ _) as [[u d2]|e] eqn:E; [|by eexists].
    apply Complete_txn in E as (_ & _ & o2 & l2 & Hf & _). by destruct (Hstale o2 l2).
  - intros d'' Hs. pose proof (steps_coord_inv _ _ Hinv Hrun) as Hok'.
    destruct (steps_lock_le d' d'' inst (abs_lease l') Hok' Hs) as (b & Hb & Hle & _);
      [by apply abs_lookup|].
    unfold abs in Hb. rewrite lookup_fmap in Hb. destruct (db_leases d'' !! inst) as [l2|]; [|done].
    injection Hb as <-. exists l2. split; [done|]. simpl in Hle. lia.
Qed.

Lemma stale_executor_refused_witness :
  exists e, atomically (RecordPhase op1 1 "p" "intent" [] "t9") run3 = (Err e, run3).
Proof.
  destruct (db_leases run2 !! "inst-a") as [l|] eqn:Hl; [|by vm_compute in Hl].
  destruct (db_leases run3 !! "inst-a") as [l'|] eqn:Hl'; [|by vm_compute in Hl'].
  destruct (db_ops run3 !! op1) as [o|] eqn:Ho; [|by vm_compute in Ho].
  assert (ls_token <$> db_leases run2 !! "inst-a" = Some 1) as Ht by (vm_compute; reflexivity).
  assert (ls_token <$> db_leases run3 !! "inst-a" = Some 2) as Ht' by (vm_compute; reflexivity).
  assert (op_installation <$> db_ops run3 !! op1 = Some "inst-a") as Hi by (vm_compute; reflexivity).
  rewrite Hl in Ht. rewrite Hl' in Ht'. rewrite Ho in Hi.
  injection Ht as Ht. injection Ht' as Ht'. injection Hi as Hi.
  rewrite <- Ht.
  refine (proj1 (proj2 (stale_executor_refused run2 run3 "inst-a" l l' op1 o _ _ Hl Hl' _ Ho Hi)) _ _ _ _).
  - exact run2_inv.
  - apply rtc_once, run3_step.
  - lia.
Defined.

(** After an operation identity has been accepted
    for execution, whatever happens in between, beginning the same identity
    again never executes and changes nothing: with the same semantic contents
    it answers with the stored state, with different contents it reports
    [OperationConflict]. *)
Theorem replay_never_reexecutes (sha : string -> string) (um : string -> option json)
    (q q2 : Request) (uid uid2 : Z) (scope scope2 now now2 : string)
    (d d1 d2 d3 : db) (r r2 : Decision_t * option error)
    (Hinv : coord_inv d)
    (H1 : Begin sha um q uid scope now d = Ok (r, d1))
    (Hexec : Execute r.1 = true)
    (Hrun : rtc step d1 d2)
    (Hid : rq_OperationID q2 = rq_OperationID q)
    (H2 : Begin sha um q2 uid2 scope2 now2 d2 = Ok (r2, d3)) :
  d3 = d2 /\ Execute r2.1 = false /\ r2.2 = None /\
  (Hash sha q2 <> Hash sha q -> rs_ErrorCode (dResponse r2.1) = "OperationConflict") /\
  (Hash sha q2 = Hash sha q -> exists o, db_ops d2 !! rq_OperationID q = Some o /\
     dResponse r2.1 = responseFor um (rq_OperationID q) o (rq_ID q2)).
Proof.
  destruct (Begin_txn _ _ _ _ _ _ _ _ _ Hinv H1) as (Ht & _ & Hcase).
  pose proof (txn_coord_inv _ _ Ht Hinv) as Hinv1.
  destruct (db_ops d !! rq_OperationID q); [destruct Hcase as (_ & ? & _); congruence|].
  destruct Hcase as (hash & Hhash & o1 & Ho1 & _ & Hoh & _).
  destruct (steps_op_kept d1 d2 _ o1 Hinv1 Hrun Ho1) as (o2 & Ho2 & [_ Hh2] & _).
  pose proof (steps_coord_inv _ _ Hinv1 Hrun) as Hinv2.
  destruct (Begin_txn _ _ _ _ _ _ _ _ _ Hinv2 H2) as (_ & _ & Hcase2).
  rewrite Hid, Ho2 in Hcase2. destruct Hcase2 as (-> & Hex & Herr).
  destruct (Begin_hashed _ _ _ _ _ _ _ _ H2) as [h2 Hh2'].
  rewrite <- Hid in Ho2. pose proof (Begin_replay _ _ _ _ _ _ _ _ _ _ _ Ho2 Hh2' H2) as Hr.
  rewrite Hhash, Hh2', Hid in *. split_and!; [done..| |].
  - intros Hne. rewrite decide_False in Hr; [done|congruence].
  - intros Heq. rewrite decide_True in Hr; [eauto|congruence].
Qed.

Lemma replay_never_reexecutes_witness :
  exists r2, Begin (fun b => b) no_json (install op1) 1000 "inst-a" "t9" run2 = Ok (r2, run2) /\
    Execute r2.1 = false.
Proof.
  destruct (run_Ok begin1 empty_db) as [r Hr]; [vm_compute; reflexivity|].
  destruct (run_Ok (Begin (fun b => b) no_json (install op1) 1000 "inst-a" "t9") run2) as [r2 Hr2];
    [vm_compute; reflexivity|].
  assert (Execute (match begin1 empty_db with Ok (x, _) => x.1 | Err _ => r.1 end) = true) as He
    by (vm_compute; reflexivity).
  rewrite Hr in He. fold run1 in Hr.
  destruct (replay_never_reexecutes (fun b => b) no_json (install op1) (install op1) 1000 1000
    "inst-a" "inst-a" "t1" "t9" empty_db run1 run2 _ r r2 empty_coord_inv Hr He
    (rtc_once _ _ run2_step) eq_refl Hr2) as (Hd & Hex & _).
  exists r2. split; [|exact Hex]. rewrite Hr2. rewrite Hd. reflexivity.
Defined.

(** C36. Recovery after a restart never fails and
    leaves nothing unclassified: from any coordinated state it terminates with
    every accepted operation failed as not dispatched and every executing or
    reconciling one waiting for an administrator, touches no other operation,
    and reports how many it classified. *)
Theorem restart_recovery_complete (clock : nat -> string) (d : db) (Hinv : coord_inv d) :
  exists d', RecoverInterrupted clock d = (Ok (length (interrupted d)), d') /\
    coord_inv d' /\ interrupted d' = [] /\
    forall id o, db_ops d !! id = Some o ->
      exists o', db_ops d' !! id = Some o' /\
        (if decide (is_interrupted (op_state o)) then op_state o' = verdict (op_state o)
         else o' = o).
Proof.
  destruct (interrupted_spec d) as [Hnd Hin].
  destruct (recover_loop_spec clock (interrupted d) 0 d Hinv Hnd) as (d' & Hl & Hok & _ & _ & Hv & Hrest).
  { apply Forall_forall. intros [id s] (o & Ho & <- & Hi)%Hin. eauto. }
  exists d'. rewrite Forall_forall in Hv.
  assert (Hcl : forall id o, db_ops d !! id = Some o -> exists o', db_ops d' !! id = Some o' /\
    (if decide (is_interrupted (op_state o)) then op_state o' = verdict (op_state o) else o' = o)).
  { intros id o Ho. case_decide as Hi.
    - destruct (Hv (id, op_state o)) as (o' & Ho' & Hs'); [apply Hin; eauto|]. eauto.
    - exists o. rewrite Hrest; [done|]. intros ([k s] & -> & (o2 & Ho2 & <- & Hi2)%Hin)%list_elem_of_fmap.
      simpl in *. congruence. }
  split_and!; [by unfold RecoverInterrupted; rewrite Hl|done| |done].
  destruct (interrupted d') as [|[id s] rest] eqn:E; [done|].
  destruct (interrupted_spec d') as [_ Hin'].
  destruct (proj1 (Hin' id s)) as (o & Ho & <- & Hi); [rewrite E; by left|].
  destruct (db_ops d !! id) as [o0|] eqn:Ho0.
  - destruct (Hcl id o0 Ho0) as (o' & Ho' & Hs'). assert (o' = o) as -> by congruence.
    case_decide as Hi0; [|naive_solver]. rewrite Hs' in Hi. unfold verdict, is_interrupted in Hi.
    case_decide; naive_solver.
  - rewrite Hrest, Ho0 in Ho; [done|]. intros ([k s] & -> & (o2 & Ho2 & _)%Hin)%list_elem_of_fmap.
    simpl in *. congruence.
Qed.

Lemma restart_recovery_complete_witness :
  exists d', RecoverInterrupted (fun _ => "t5") run2 = (Ok (length (interrupted run2)), d') /\
    coord_inv d' /\ interrupted d' = [].
Proof.
  destruct (restart_recovery_complete (fun _ => "t5") run2 run2_inv) as (d' & H1 & H2 & H3 & _).
  exists d'. exact (conj H1 (conj H2 H3)).
Defined.

(** An operation that succeeded, failed, was
    cancelled or superseded keeps its row, unchanged, in every later state. *)
Theorem finished_operations_final (d d' : db) (id : string) (o : opRow)
    (Hinv : coord_inv d) (Hrun : rtc step d d') (Ho : db_ops d !! id = Some o)
    (Hdone : op_state o ∈ [StateSucceeded; StateFailed; StateCancelled; StateSuperseded]) :
  db_ops d' !! id = Some o.
Proof.
  destruct (steps_op_kept d d' id o Hinv Hrun Ho) as (o' & Ho' & _ & Heq).
  rewrite Ho', Heq; [done|]. intros [x Hx].
  rewrite !elem_of_cons in Hdone. destruct Hdone as [Hs|[Hs|[Hs|[Hs|Hs]]]];
    [rewrite Hs in Hx; discriminate Hx..|]. by apply elem_of_nil in Hs.
Qed.

Definition run1_done : db :=
  run (Complete no_json op1 1 (zero_response <| rs_OK := true |>) "t3") run2.

Lemma run1_done_step : step run2 run1_done.
Proof.
  destruct (run_Ok (Complete no_json op1 1 (zero_response <| rs_OK := true |>) "t3") run2) as [a Ha];
    [vm_compute; reflexivity|]. by eapply step_Complete.
Qed.

Local Notation begin2 := (Begin (fun b => b) no_json (install op2) 1000 "inst-a" "t4").
Definition run_next : db := run begin2 run1_done.

Lemma run_next_step : step run1_done run_next.
Proof.
  destruct (run_Ok begin2 run1_done) as [a Ha]; [vm_compute; reflexivity|]. by eapply step_Begin.
Qed.

Lemma finished_operations_final_witness :
  exists o, db_ops run1_done !! op1 = Some o /\ op_state o = StateSucceeded /\
    db_ops run_next !! op1 = Some o.
Proof.
  destruct (db_ops run1_done !! op1) as [o|] eqn:Ho; [|by vm_compute in Ho].
  assert (op_state <$> db_ops run1_done !! op1 = Some StateSucceeded) as Hs by (vm_compute; reflexivity).
  rewrite Ho in Hs. injection Hs as Hs. exists o. split; [reflexivity|]. split; [exact Hs|].
  refine (finished_operations_final run1_done run_next op1 o _ (rtc_once _ _ run_next_step) Ho _).
  - exact (step_coord_inv _ _ run2_inv run1_done_step).
  - rewrite Hs. by left.
Defined.

(** For a fresh, well-formed request on an installation
    whose restart recovery is settled, [Begin] always reaches a decision, and
    it executes exactly when the lease is absent, released, or waiting for
    recovery and the request is an explicit repair. *)
Theorem begin_admission (sha : string -> string) (um : string -> option json)
    (q : Request) (uid : Z) (scope now canonical : string) (d : db)
    (Hinv : coord_inv d)
    (Hver : rq_Version q = 2 /\ rq_OperationRevision q = 1)
    (Hpat : operationIDPattern (rq_OperationID q) = true)
    (Hscope : scope <> "" /\ (String.length scope <= 128)%nat)
    (Hcan : Canonical q = Ok canonical)
    (Hfresh : db_ops d !! rq_OperationID q = None)
    (Hset : settled d scope) :
  exists r d', Begin sha um q uid scope now d = Ok (r, d') /\
    (Execute r.1 = true <-> lease_available d q scope) /\
    (Execute r.1 = false -> exists l, db_leases d !! scope = Some l /\
       r.2 = Some (ErrConflict (ls_operation l))).
Proof.
  destruct (begin_new_total q (sha canonical) canonical scope now uid d Hinv Hfresh Hset)
    as (r & d' & Hb & Hav).
  exists r, d'. split_and!; [|by rewrite Hav|].
  - unfold Begin. cbn zeta. unfold tbind, tassert. rewrite !decide_True by done.
    unfold tret, Hash. rewrite Hcan. unfold tget. by rewrite Hfresh.
  - intros Hf. apply begin_new_txn in Hb as (_ & _ & _ & o' & _ & _ & _ & [(? & _)|(_ & _ & l & Hl & _ & He)]);
      [congruence| |done]. eauto.
Qed.

Lemma begin_admission_witness :
  exists canonical, Canonical (install op1) = Ok canonical /\
  exists r d', Begin (fun b => b) no_json (install op1) 1000 "inst-a" "t1" empty_db = Ok (r, d') /\
    (Execute r.1 = true <-> lease_available empty_db (install op1) "inst-a").
Proof.
  destruct (Canonical (install op1)) as [c|] eqn:Hc; [|by vm_compute in Hc].
  exists c. split; [reflexivity|].
  destruct (begin_admission (fun b => b) no_json (install op1) 1000 "inst-a" "t1" c empty_db)
    as (r & d' & H1 & H2 & _).
  - exact empty_coord_inv.
  - split; reflexivity.
  - vm_compute. reflexivity.
  - split; [discriminate|vm_compute; lia].
  - exact Hc.
  - vm_compute. reflexivity.
  - intros l o H. by vm_compute in H.
  - exists r, d'. split; [exact H1|exact H2].
Defined.

(** ** [sanitize] *)
Definition string_bytes (s : string) : list N := rune_bytes s.

(** Printable, or a tab, or part of a multi-byte sequence. *)
Definition clean_byte (b : N) : Prop := (b = 9 \/ (32 <= b /\ b <> 127))%N.

Definition clean (s : string) : Prop := Forall clean_byte (string_bytes s).

Lemma clean_app s1 s2 : clean s1 -> clean s2 -> clean (s1 +:+ s2).
Proof.
  unfold clean, string_bytes, rune_bytes. intros H1 H2. induction s1 as [|c s1 IH]; [done|].
  simpl in *. apply Forall_cons in H1 as [Hc H1]. constructor; auto.
Qed.

Lemma clean_concat l : Forall clean l -> clean (String.concat "" l).
Proof.
  induction 1 as [|x l Hx _ IH]; [constructor|]. destruct l as [|y l]; [done|].
  change (clean (x +:+ String.concat "" (y :: l))). by apply clean_app.
Qed.

Lemma clean_substring n m s : clean s -> clean (String.substring n m s).
Proof.
  unfold clean, string_bytes, rune_bytes. revert n m. induction s as [|c s IH]; intros [|n] [|m] H; simpl in *;
    try constructor; apply Forall_cons in H as [Hc H]; auto; by apply IH.
Qed.

Lemma substring_length m s : (String.length (String.substring 0 m s) <= m)%nat.
Proof. revert s. induction m as [|m IH]; intros [|c s]; simpl; try lia. specialize (IH s). lia. Qed.

Lemma cont_byte_ge lo hi c : (128 <= lo)%N -> cont_byte lo hi c = true -> (128 <= byte_of c)%N.
Proof. unfold cont_byte. intros H [H1 _]%andb_true_iff. apply N.leb_le in H1. lia. Qed.

Lemma substring_0_0 s : String.substring 0 0 s = "".
Proof. by destruct s. Qed.

(** A sequence of two or more bytes consists of bytes from 128 up. *)
Lemma rune_len_bytes s n : rune_len s = Some n -> n <> 1%nat ->
  Forall (fun b => (128 <= b)%N) (rune_bytes (String.substring 0 n s)).
Proof.
  destruct s as [|c s]; [done|]. unfold rune_len. destruct (byte_of c <? 128)%N eqn:Hc; [naive_solver|].
  apply N.ltb_ge in Hc. unfold rune_bytes. intros H Hn.
  destruct ((194 <=? byte_of c) && _)%N; [|destruct ((224 <=? byte_of c) && _)%N;
    [|destruct ((240 <=? byte_of c) && _)%N; [|done]]].
  - destruct s as [|c1 s]; [done|]. destruct (cont_byte 128 191 c1) eqn:H1; [|done]. simplify_eq.
    apply cont_byte_ge in H1; [|lia]. simpl. rewrite substring_0_0. repeat constructor; done.
  - destruct s as [|c1 [|c2 s]]; try done. destruct (cont_byte _ _ c1 && _) eqn:H1; [|done]. simplify_eq.
    apply andb_true_iff in H1 as [H1 H2]. apply cont_byte_ge in H1, H2; [|lia|destruct (_ =? _)%N; lia].
    simpl. rewrite substring_0_0. repeat constructor; done.
  - destruct s as [|c1 [|c2 [|c3 s]]]; try done. destruct (_ && _ && _) eqn:H1; [|done]. simplify_eq.
    apply andb_true_iff in H1 as [H1 H3]. apply andb_true_iff in H1 as [H1 H2].
    apply cont_byte_ge in H1, H2, H3; [|lia|lia|destruct (_ =? _)%N; lia].
    simpl. rewrite substring_0_0. repeat constructor; done.
Qed.

(** Every piece [runes] yields is one byte below 128, one byte that starts no
    sequence, or a multi-byte sequence. *)
Lemma runes_pieces fuel s r : r ∈ runes fuel s ->
  (exists c, r = String c "") \/ Forall (fun b => (128 <= b)%N) (rune_bytes r).
Proof.
  revert s. induction fuel as [|fuel IH]; intros [|c s] H; cbn [runes] in H; try by apply elem_of_nil in H.
  destruct (rune_len (String c s)) as [n|] eqn:Hn.
  - apply elem_of_cons in H as [->|H]; [|by eapply IH].
    destruct (decide (n = 1%nat)) as [->|Hne].
    + left. exists c. simpl. by rewrite substring_0_0.
    + right. by apply rune_len_bytes.
  - apply elem_of_cons in H as [->|H]; [left; by exists c|by eapply IH].
Qed.

Lemma keep_rune_clean r k :
  (exists c, r = String c "") \/ Forall (fun b => (128 <= b)%N) (rune_bytes r) ->
  k ∈ keep_rune r -> clean k.
Proof.
  intros Hr Hk. unfold keep_rune in Hk.
  destruct (is_control r && negb (bool_decide (r = tab))) eqn:Hc; [by apply elem_of_nil in Hk|].
  assert (clean rune_error) as Hre 
    by (unfold clean; change (string_bytes rune_error) with [239; 191; 189]%N;
        repeat apply Forall_cons_2; [unfold clean_byte; lia..|apply Forall_nil_2]).
  destruct (rune_len r) eqn:Hn; apply list_elem_of_singleton in Hk as ->; [|done].
  destruct Hr as [[c ->]|Hr].
  - apply andb_false_iff in Hc as [Hc|Hc].
    + assert (((byte_of c <? 32) || (byte_of c =? 127))%N = false) as Hb.
      { rewrite <- Hc. unfold is_control. cbn. by repeat case_match. }
      clear Hc. rename Hb into Hc. apply orb_false_iff in Hc as [H1 H2].
      apply N.ltb_ge in H1. apply N.eqb_neq in H2. unfold clean, string_bytes. cbn. apply Forall_singleton. by right.
    + apply negb_false_iff, bool_decide_eq_true in Hc as ->. unfold clean. change (string_bytes tab) with [9%N].
      apply Forall_singleton. by left.
  - eapply Forall_impl; [exact Hr|]. intros b Hb. right. cbn in Hb. lia.
Qed.

Lemma elem_of_drop_while {A} (p : A -> bool) l x : x ∈ drop_while p l -> x ∈ l.
Proof. induction l as [|y l IH]; simpl; [done|]. destruct (p y); [|done]. intros H. right. auto. Qed.

(** Stored error text is at most 512 bytes long and contains
    no ASCII control character other than tab, whatever bytes it came from. *)
Theorem sanitize_safe (value : string) :
  (String.length (sanitize value) <= 512)%nat /\ clean (sanitize value).
Proof.
  unfold sanitize.
  set (v := String.concat _ _). assert (clean v) as Hv.
  { apply clean_concat, Forall_forall. intros k Hk%list_elem_of_In%in_concat.
    destruct Hk as (ks & (r & <- & Hr)%in_map_iff & Hk).
    apply list_elem_of_In in Hk. eapply keep_rune_clean; [|exact Hk].
    apply runes_pieces with (String.length value) value.
    unfold trim_space in Hr. apply in_rev, list_elem_of_In, elem_of_drop_while, list_elem_of_In in Hr.
    by apply in_rev, list_elem_of_In, elem_of_drop_while in Hr. }
  destruct (Nat.ltb_spec maxErrorBytes (String.length v)); split; try done.
  - apply substring_length.
  - by apply clean_substring.
Qed.
