(* ===== verification/ExposurePolicy.v ===== *)
(** * Exposure policy ([internal/exposure])

    Which host endpoints a service may bind, when two bindings collide, how
    the bindings the runtime reports are compared with the trusted ones, how
    host ports are allocated, what the kernel's socket tables say, and the
    persisted assignments.

    Binding a socket and opening a file are arguments; [now] is the clock. *)

From S2P Require Import Prelude Protocol Exposure HelperDB Coordinator NetIP.
From stdpp Require Import base gmap strings list.
From Stdlib Require Import ZArith Lia Ascii.

Open Scope Z_scope.

(** ** Validation *)
Definition lan_address (ip : IP) : bool :=
  negb (IsLoopback ip || IsUnspecified ip || IsMulticast ip || IsLinkLocalUnicast ip).

Definition validateAddress (mode address : string) (port : Z) (configuredLAN : string) : res unit :=
  if decide (mode = Internal) then
    if decide (address <> "") then Err (ErrMsg "internal exposure cannot bind a host") else Ok ()
  else if decide (mode = Loopback) then
    match ParseIP address with
    | Some ip => if negb (IsLoopback ip) || bool_decide (port = 0)
                 then Err (ErrMsg "loopback address required") else Ok ()
    | None => Err (ErrMsg "loopback address required")
    end
  else if decide (mode = LAN) then
    match ParseIP address with
    | Some ip => if negb (lan_address ip) || bool_decide (address <> configuredLAN) || bool_decide (port = 0)
                 then Err (ErrMsg "LAN address is not the configured host address") else Ok ()
    | None => Err (ErrMsg "LAN address is not the configured host address")
    end
  else Err (ErrMsg "unsupported exposure mode").

Definition ValidateBinding (b : ServiceBinding) (configuredLAN : string) (fixedHostPort : Z) : res unit :=
  if decide (ServiceID b = "" \/ ContainerPort b < 1 \/ 65535 < ContainerPort b \/
             (Transport b <> TCP /\ Transport b <> UDP))
  then Err (ErrMsg "invalid service binding")
  else if decide (fixedHostPort <> 0) then
    if decide (fixedHostPort < 1 \/ 65535 < fixedHostPort \/ HostPort b <> fixedHostPort)
    then Err (ErrMsg "host port does not match trusted fixed-port policy")
    else validateAddress (Mode b) (HostAddress b) (HostPort b) configuredLAN
  else if decide (HostPort b <> 0 /\ (HostPort b < FirstPort \/ LastPort < HostPort b))
  then Err (ErrMsg "host port outside approved range")
  else validateAddress (Mode b) (HostAddress b) (HostPort b) configuredLAN.

Definition Validate (a : Assignment) (configuredLAN : string) : res unit :=
  if decide (a_Mode a = Internal) then
    if decide (a_Address a <> "" \/
               (a_Port a <> 0 /\ (a_Port a < FirstPort \/ LastPort < a_Port a)))
    then Err (ErrMsg "internal exposure cannot bind a host") else Ok ()
  else if decide (a_Mode a = Loopback) then
    match ParseIP (a_Address a) with
    | Some ip =>
        if negb (IsLoopback ip) then Err (ErrMsg "loopback address required")
        else if decide (a_Port a < FirstPort \/ LastPort < a_Port a)
        then Err (ErrMsg "host port outside approved range") else Ok ()
    | None => Err (ErrMsg "loopback address required")
    end
  else if decide (a_Mode a = LAN) then
    match ParseIP (a_Address a) with
    | Some ip =>
        if negb (lan_address ip) || bool_decide (a_Address a <> configuredLAN)
        then Err (ErrMsg "LAN address is not the configured host address")
        else if decide (a_Port a < FirstPort \/ LastPort < a_Port a)
        then Err (ErrMsg "host port outside approved range") else Ok ()
    | None => Err (ErrMsg "LAN address is not the configured host address")
    end
  else Err (ErrMsg "unsupported exposure mode").

Definition ContainerProtocol (protocol : string) : res string :=
  if decide (protocol = "http" \/ protocol = "https" \/ protocol = "tcp") then Ok "tcp"
  else if decide (protocol = "udp") then Ok "udp"
  else Err (ErrMsg "unsupported service protocol").

Definition TransportFor (protocol : string) : res string := ContainerProtocol protocol.
Definition DockerProtocol (protocol : string) : res string := ContainerProtocol protocol.

(** ** Conflicts *)
Definition addressesOverlap (a b : string) : bool :=
  match ParseIP a, ParseIP b with
  | Some aIP, Some bIP =>
      if negb (Bool.eqb (is_v4 aIP) (is_v4 bIP)) then false
      else IsUnspecified aIP || IsUnspecified bIP || Equal aIP bIP
  | _, _ => bool_decide (a = b)
  end.

Definition BindingsConflict (a b : ServiceBinding) : bool :=
  if decide (Transport a <> Transport b \/ HostPort a = 0 \/ HostPort a <> HostPort b \/
             Mode a = Internal \/ Mode b = Internal)
  then false else addressesOverlap (HostAddress a) (HostAddress b).

Definition conflict_error (b : ServiceBinding) : error :=
  ErrMsg ("binding conflict: " +:+ HostAddress b +:+ ":" +:+ itoa (HostPort b) +:+ "/" +:+ Transport b).

(** The inner loop compares with the bindings before it. *)
Fixpoint validate_conflicts (before bindings : list ServiceBinding) : res unit :=
  match bindings with
  | [] => Ok ()
  | b :: rest =>
      if bool_decide (Mode b <> Internal) && existsb (BindingsConflict b) before
      then Err (conflict_error b) else validate_conflicts (before ++ [b]) rest
  end.

Definition ValidateConflicts (bindings : list ServiceBinding) : res unit :=
  validate_conflicts [] bindings.

(** ** Comparison with the runtime

    The decoded port map: every value is what [json.Unmarshal] made of it. *)
Definition port_key (port : Z) (transport : string) : string := itoa port +:+ "/" +:+ transport.

Definition want (expected : list ServiceBinding) : gmap string (list ServiceBinding) :=
  foldl (fun m b =>
    if decide (Mode b = Internal) then m
    else let key := port_key (ContainerPort b) (Transport b) in
         <[key := default [] (m !! key) ++ [b]]> m) ∅ expected.

(** [value[name].(string)] *)
Fixpoint string_field (name : string) (fields : list (string * json)) : option string :=
  match fields with
  | [] => None
  | (k, v) :: fields =>
      if decide (k = name) then match v with JStr s => Some s | _ => None end
      else string_field name fields
  end.

(** An entry with exactly a host address and a host port. *)
Definition host_entry (item : json) : option (string * string) :=
  match item with
  | JObj value =>
      if decide (length value <> 2%nat) then None
      else match string_field "HostIp" value, string_field "HostPort" value with
           | Some ip, Some port => Some (ip, port)
           | _, _ => None
           end
  | _ => None
  end.

Definition endpoint (b : ServiceBinding) : string * string := (HostAddress b, itoa (HostPort b)).

(** The first expected binding not matched yet is marked. *)
Fixpoint claim_slot (entry : string * string) (slots : list (ServiceBinding * bool))
    : option (list (ServiceBinding * bool)) :=
  match slots with
  | [] => None
  | (b, matched) :: slots =>
      if negb matched && bool_decide (entry = endpoint b) then Some ((b, true) :: slots)
      else cons (b, matched) <$> claim_slot entry slots
  end.

Fixpoint match_items (items : list json) (slots : list (ServiceBinding * bool)) : bool :=
  match items with
  | [] => true
  | item :: items =>
      match host_entry item with
      | Some entry =>
          match claim_slot entry slots with
          | Some slots => match_items items slots
          | None => false
          end
      | None => false
      end
  end.

Definition key_matches (observed : gmap string json) (key : string) (expectedItems : list ServiceBinding) : bool :=
  match observed !! key with
  | Some (JArr items) =>
      bool_decide (length items = length expectedItems) &&
      match_items items (map (fun b => (b, false)) expectedItems)
  | _ => false
  end.

Definition ObservedBindingsExactSet (expected : list ServiceBinding) (observed : gmap string json) : bool :=
  bool_decide (size (want expected) = size observed) &&
  forallb (fun kv => key_matches observed kv.1 kv.2) (map_to_list (want expected)).

Definition ObservedBindingsExact (a : Assignment) (containerPort : Z) (protocol : string)
    (bindings : gmap string json) : bool :=
  if decide (a_Mode a = Internal) then bool_decide (size bindings = 0%nat)
  else if negb (is_ok (Validate a (a_Address a))) || bool_decide (containerPort < 1 \/ 65535 < containerPort)
  then false
  else match ContainerProtocol protocol with
       | Err _ => false
       | Ok runtimeProtocol =>
           if decide (size bindings <> 1%nat) then false
           else match bindings !! port_key containerPort runtimeProtocol with
                | Some (JArr [item]) => bool_decide (host_entry item = Some (a_Address a, itoa (a_Port a)))
                | _ => false
                end
       end.

(** ** Allocation *)
Fixpoint allocate_from (n : nat) (p : Z) (used : gset Z) : option Z :=
  match n with
  | O => None
  | S n => if decide (p ∈ used) then allocate_from n (p + 1) used else Some p
  end.

Definition port_count : nat := Z.to_nat (LastPort - FirstPort + 1).

Definition Allocate (used : gset Z) : res Z :=
  match allocate_from port_count FirstPort used with
  | Some p => Ok p
  | None => Err (ErrMsg "exposure port range exhausted")
  end.

(** [net.JoinHostPort] *)
Definition JoinHostPort (host : string) (port : string) : string :=
  if decide (58%N ∈ text host \/ 37%N ∈ text host) then "[" +:+ host +:+ "]:" +:+ port
  else host +:+ ":" +:+ port.

Section sockets.
(** The host: binding a listener (which is closed again at once) may depend on
    everything that happened before. *)
Context {E : Type} (listen : string -> string -> E -> res unit * E).

Fixpoint allocate_available (n : nat) (p : Z) (used : gset Z) (network address : string) (e : E)
    : res Z * E :=
  match n with
  | O => (Err (ErrMsg "no available exposure port"), e)
  | S n =>
      if decide (p ∈ used) then allocate_available n (p + 1) used network address e
      else match listen network (JoinHostPort address (itoa p)) e with
           | (Ok _, e) => (Ok p, e)
           | (Err _, e) => allocate_available n (p + 1) used network address e
           end
  end.

Definition AllocateAvailableTransport (used : gset Z) (address transport : string) (e : E) : res Z * E :=
  allocate_available port_count FirstPort used (if decide (transport = UDP) then "udp" else "tcp") address e.

Definition AllocateAvailable (used : gset Z) (address : string) (e : E) : res Z * E :=
  AllocateAvailableTransport used address TCP e.

Definition VerifyLocalAddress (address : string) (e : E) : res unit * E :=
  match ParseIP address with
  | Some ip =>
      if negb (lan_address ip) then (Err (ErrMsg "invalid LAN bind address"), e)
      else match listen "tcp" (JoinHostPort address "0") e with
           | (Ok _, e) => (Ok (), e)
           | (Err err, e) => (Err (ErrWrap "LAN bind address is not assigned" err), e)
           end
  | None => (Err (ErrMsg "invalid LAN bind address"), e)
  end.
End sockets.

(** ** The kernel's socket tables *)

(** [strconv.ParseUint(s, 16, bits)] *)
Fixpoint hex_number (s : list N) (acc : Z) : option Z :=
  match s with
  | [] => Some acc
  | c :: s => match hex_value c with Some v => hex_number s (acc * 16 + Z.of_N v) | None => None end
  end.

Definition ParseUint16 (s : list N) (bits : Z) : res Z :=
  match s, hex_number s 0 with
  | _ :: _, Some v => if decide (v < 2 ^ bits) then Ok v else Err (ErrMsg "value out of range")
  | _, _ => Err (ErrMsg "invalid syntax")
  end.

Fixpoint collect (l : list (res N)) : res (list N) :=
  match l with
  | [] => Ok []
  | x :: l => rbind x (fun v => rbind (collect l) (fun vs => Ok (v :: vs)))
  end.

(** Each 32-bit word is written with its bytes reversed. *)
Definition proc_byte (raw : list N) (k : nat) : res N :=
  let word := (k - k mod 4)%nat in
  let i := (k mod 4)%nat in
  rbind (ParseUint16 (take 2 (drop ((word + 3 - i) * 2) raw)) 8) (fun v => Ok (Z.to_N v)).

Definition decodeProcAddress (raw : list N) (ipv6 : bool) : res string :=
  let wanted := if ipv6 then 32%nat else 8%nat in
  if decide (length raw <> wanted) then Err (ErrMsg "invalid proc address")
  else rbind (collect (map (proc_byte raw) (seq 0 (wanted / 2)))) (fun bytes => Ok (IP_String bytes)).

(** [bufio.Scanner] with its default limit: lines without their ending. *)
Fixpoint split_lines (s cur : list N) : list (list N) :=
  match s with
  | [] => match cur with [] => [] | _ => [cur] end
  | 10%N :: s => cur :: split_lines s []
  | c :: s => split_lines s (cur ++ [c])
  end.

Definition drop_cr (l : list N) : list N :=
  match rev l with 13%N :: r => rev r | _ => l end.

Definition max_line : nat := Z.to_nat 65536.

(** [strings.Fields] *)
Fixpoint fields_of (rs : list string) (cur : string) : list string :=
  match rs with
  | [] => if decide (cur = "") then [] else [cur]
  | r :: rs =>
      if is_space r then (if decide (cur = "") then fields_of rs "" else cur :: fields_of rs "")
      else fields_of rs (cur +:+ r)
  end.

Definition Fields (s : string) : list string := fields_of (runes (String.length s) s) "".

(** [strings.Split(s, ":")] *)
Fixpoint split_colon (s cur : list N) : list (list N) :=
  match s with
  | [] => [cur]
  | 58%N :: s => cur :: split_colon s []
  | c :: s => split_colon s (cur ++ [c])
  end.

Definition proc_line (line transport : string) (ipv6 : bool) : res (list ServiceBinding) :=
  match Fields line with
  | _ :: local :: _ :: status :: _ =>
      if decide (transport = TCP /\ status <> "0A") then Ok []
      else match split_colon (text local) [] with
           | [address; port] =>
               rbind (ParseUint16 port 16) (fun port =>
               rbind (decodeProcAddress address ipv6) (fun address =>
               Ok [{| ServiceID := ""; Transport := transport; ContainerPort := 0; Mode := LAN;
                      HostAddress := address; HostPort := port |}]))
           | _ => Ok []
           end
  | _ => Ok []
  end.

Fixpoint proc_lines (lines : list (list N)) (first : bool) (transport : string) (ipv6 : bool)
    : res (list ServiceBinding) :=
  match lines with
  | [] => Ok []
  | line :: lines =>
      if decide (max_line <= length line)%nat then Err (ErrMsg "bufio.Scanner: token too long")
      else if first then proc_lines lines false transport ipv6
      else rbind (proc_line (untext (drop_cr line)) transport ipv6) (fun found =>
           rbind (proc_lines lines false transport ipv6) (fun out => Ok (found ++ out)))
  end.

Definition parseProcNet (content transport : string) (ipv6 : bool) : res (list ServiceBinding) :=
  proc_lines (split_lines (text content) []) true transport ipv6.

Definition proc_sources : list (string * string * bool) :=
  [("/proc/net/tcp", TCP, false); ("/proc/net/tcp6", TCP, true);
   ("/proc/net/udp", UDP, false); ("/proc/net/udp6", UDP, true)].

Fixpoint host_listeners (open : string -> res string) (sources : list (string * string * bool))
    : res (list ServiceBinding) :=
  match sources with
  | [] => Ok []
  | (path, transport, ipv6) :: sources =>
      rbind (open path) (fun content =>
      rbind (parseProcNet content transport ipv6) (fun parsed =>
      rbind (host_listeners open sources) (fun out => Ok (parsed ++ out))))
  end.

Definition HostListeners (open : string -> res string) : res (list ServiceBinding) :=
  host_listeners open proc_sources.

(** ** Persisted assignments *)
Record ExposureRecord : Type := {
  er_InstallationID : string;
  er_ServiceID : string;
  er_Transport : string;
  er_Mode : string;
  er_HostAddress : string;
  er_HostPort : Z;
  er_CreatedAt : string;
  er_UpdatedAt : string
}.

Definition exposures : Type := gmap (string * string) ExposureRecord.

(** [^[a-z][a-z0-9-]{1,63}$] *)
Definition lower (c : N) : bool := ((97 <=? c) && (c <=? 122))%N.
Definition identityPattern (s : string) : bool :=
  match text s with
  | c :: rest =>
      lower c && bool_decide (1 <= length rest <= 63)%nat &&
      forallb (fun c => lower c || is_digit c || (c =? 45)%N) rest
  | [] => false
  end.

Definition exposure_checks (r : ExposureRecord) : Prop :=
  (er_Transport r = TCP \/ er_Transport r = UDP) /\
  (er_Mode r = Internal \/ er_Mode r = Loopback \/ er_Mode r = LAN) /\ 0 <= er_HostPort r <= 65535.

#[export] Instance exposure_checks_dec r : Decision (exposure_checks r).
Proof. unfold exposure_checks. apply _. Defined.

(** Two rows that bind the same host endpoint. *)
Definition same_endpoint (r s : ExposureRecord) : Prop :=
  er_HostAddress r = er_HostAddress s /\ er_HostPort r = er_HostPort s /\ er_Transport r = er_Transport s /\
  er_Mode r <> Internal /\ er_Mode s <> Internal.

#[export] Instance same_endpoint_dec r s : Decision (same_endpoint r s).
Proof. unfold same_endpoint. apply _. Defined.

(** The unique index on host address, host port and transport. *)
Definition endpoint_free (t : exposures) (k : string * string) (r : ExposureRecord) : Prop :=
  Forall (fun kv => kv.1 <> k -> ~ same_endpoint r kv.2) (map_to_list t).

#[export] Instance endpoint_free_dec t k r : Decision (endpoint_free t k r).
Proof. unfold endpoint_free. apply _. Defined.

Definition Get (installationID serviceID : string) : tx exposures ExposureRecord :=
  trow (fun t => t !! (installationID, serviceID)).

Definition List (installationID : string) (t : exposures) : list ExposureRecord :=
  sort_by er_ServiceID (snd <$> select (fun k _ => k.1 = installationID) t).

Definition UpsertBinding (now installationID : string) (binding : ServiceBinding) (configuredLAN : string)
    (fixedHostPort : Z) : tx exposures ExposureRecord :=
  let serviceID := ServiceID binding in
  do* tassert (identityPattern installationID = true /\ identityPattern serviceID = true)
        "invalid exposure identity" in
  let binding := {| ServiceID := serviceID; Transport := Transport binding;
    ContainerPort := if decide (ContainerPort binding = 0) then 1 else ContainerPort binding;
    Mode := Mode binding; HostAddress := HostAddress binding; HostPort := HostPort binding |} in
  match ValidateBinding binding configuredLAN fixedHostPort with
  | Err e => tfail e
  | Ok _ =>
      let* t := tget in
      let created := match t !! (installationID, serviceID) with
                     | Some old => er_CreatedAt old
                     | None => now
                     end in
      let row := {| er_InstallationID := installationID; er_ServiceID := serviceID;
        er_Transport := Transport binding; er_Mode := Mode binding;
        er_HostAddress := HostAddress binding; er_HostPort := HostPort binding;
        er_CreatedAt := created; er_UpdatedAt := now |} in
      if decide (exposure_checks row /\ endpoint_free t (installationID, serviceID) row) then
        do* (fun t => Ok ((), <[(installationID, serviceID) := row]> t)) in
        Get installationID serviceID
      else tfail (ErrSQL "installation_service_exposure")
  end.

Definition Upsert (now installationID serviceID : string) (assignment : Assignment) (configuredLAN : string)
    : tx exposures ExposureRecord :=
  UpsertBinding now installationID
    {| ServiceID := serviceID; Transport := TCP; ContainerPort := 0; Mode := a_Mode assignment;
       HostAddress := a_Address assignment; HostPort := a_Port assignment |} configuredLAN 0.

Definition nl : string := String (ascii_of_N 10) "".
Example parse_listeners :
  parseProcNet ("sl local_address rem_address st" +:+ nl +:+ " 0: 0100007F:4E20 00000000:0000 0A" +:+ nl +:+
                " 1: 00000000:0035 00000000:0000 01" +:+ nl) TCP false =
  Ok [{| ServiceID := ""; Transport := TCP; ContainerPort := 0; Mode := LAN; HostAddress := "127.0.0.1";
         HostPort := 20000 |}].
Proof. vm_compute. reflexivity. Qed.
