(* ===== verification/ExposureProps.v ===== *)
(** * What the exposure policy promises

    Lemmas and claims about [internal/exposure]: accepted bindings are local,
    conflicts are complete, the comparison with the runtime is exact,
    allocation is sound, kernel addresses are decoded exactly and persisted
    assignments are read back. *)

From S2P Require Import Prelude Protocol Exposure HelperDB Coordinator NetIP ExposurePolicy.
From stdpp Require Import base gmap strings list.
From Stdlib Require Import ZArith Lia Ascii.

Open Scope Z_scope.

(** ** Addresses *)
Lemma loopback_specific ip : IsLoopback ip = true -> IsUnspecified ip = false /\ IsMulticast ip = false.
Proof.
  unfold IsLoopback, IsMulticast, IsUnspecified, Equal. intros H. split.
  - apply orb_false_iff. split; apply bool_decide_eq_false; intros ->; vm_compute in H; discriminate H.
  - destruct (To4 ip) as [ip4|] eqn:H4.
    + apply bool_decide_eq_true in H. destruct ip4 as [|b ip4]; [done|]. cbn in H. injection H as ->.
      reflexivity.
    + apply bool_decide_eq_true in H as ->. reflexivity.
Qed.

Lemma lan_specific ip : lan_address ip = true ->
  IsLoopback ip = false /\ IsUnspecified ip = false /\ IsMulticast ip = false.
Proof. unfold lan_address. rewrite negb_true_iff, !orb_false_iff. tauto. Qed.

(** ** Conflicts *)
Lemma Equal_sym a b : Equal a b = Equal b a.
Proof. unfold Equal. apply bool_decide_ext. split; congruence. Qed.

Lemma addressesOverlap_sym a b : addressesOverlap a b = addressesOverlap b a.
Proof.
  unfold addressesOverlap. destruct (ParseIP a) as [x|], (ParseIP b) as [y|];
    try (apply bool_decide_ext; split; congruence).
  rewrite (Equal_sym x y), (orb_comm (IsUnspecified x)). by destruct (is_v4 x), (is_v4 y).
Qed.

Lemma BindingsConflict_sym a b : BindingsConflict a b = BindingsConflict b a.
Proof.
  unfold BindingsConflict. rewrite addressesOverlap_sym.
  case_decide as H; case_decide as H'; try done; exfalso; intuition congruence.
Qed.

(** No binding of a list collides with one of another. *)
Definition apart (l1 l2 : list ServiceBinding) : Prop :=
  forall a b, a ∈ l1 -> b ∈ l2 -> BindingsConflict a b = false.

Definition pairwise_apart (l : list ServiceBinding) : Prop :=
  forall i j a b, i <> j -> l !! i = Some a -> l !! j = Some b -> BindingsConflict a b = false.

Lemma conflict_not_internal a b : BindingsConflict a b = true -> Mode a <> Internal.
Proof. unfold BindingsConflict. case_decide; [done|]. intros _. tauto. Qed.

Lemma pairwise_apart_cons b l : pairwise_apart (b :: l) <-> apart [b] l /\ pairwise_apart l.
Proof.
  split.
  - intros H. split.
    + intros x y ->%list_elem_of_singleton [j Hj]%list_elem_of_lookup. by apply (H 0%nat (S j)).
    + intros i j x y Hij Hi Hj. apply (H (S i) (S j)); [congruence|done..].
  - intros [H1 H2] [|i] [|j] x y Hij Hi Hj; cbn in *; simplify_eq.
    + apply H1; [apply list_elem_of_here|by eapply list_elem_of_lookup_2].
    + rewrite BindingsConflict_sym. apply H1; [apply list_elem_of_here|by eapply list_elem_of_lookup_2].
    + apply (H2 i j); [congruence|done..].
Qed.

Lemma validate_conflicts_spec before l :
  validate_conflicts before l = Ok () <-> apart l before /\ pairwise_apart l.
Proof.
  revert before. induction l as [|b l IH]; intros before; cbn.
  { split; [|done]. intros _. split; [by intros ? ? ?%elem_of_nil|by intros i]. }
  assert ((bool_decide (Mode b <> Internal) && existsb (BindingsConflict b) before = false) <->
          apart [b] before) as Hb.
  { split.
    - intros H x y ->%list_elem_of_singleton Hy. apply not_true_iff_false. intros Hc.
      apply conflict_not_internal in Hc as Hi. rewrite bool_decide_eq_true_2 in H by done. cbn in H.
      apply not_true_iff_false in H. apply H, existsb_exists. exists y.
      split; [by apply list_elem_of_In|done].
    - intros H. apply andb_false_iff. right. apply not_true_iff_false.
      intros (y & Hy%list_elem_of_In & Hc)%existsb_exists.
      rewrite (H b y) in Hc; [done|apply list_elem_of_here|done]. }
  rewrite pairwise_apart_cons. destruct (_ && _).
  - split; [done|]. intros [Ha _]. assert (true = false) by (apply Hb; intros x y Hx; apply Ha; set_solver).
    done.
  - rewrite IH. apply proj1 in Hb. specialize (Hb eq_refl). split.
    + intros [H1 H2]. split; [|split; [|done]].
      * intros x y [->|Hx]%elem_of_cons Hy; [apply Hb; [set_solver|done]|apply H1; set_solver].
      * intros x y ->%list_elem_of_singleton Hy. rewrite BindingsConflict_sym. apply H1; set_solver.
    + intros (H1 & H2 & H3). split; [|done].
      intros x y Hx [Hy| ->%list_elem_of_singleton]%elem_of_app; [apply H1; set_solver|].
      rewrite BindingsConflict_sym. apply H2; set_solver.
Qed.

(** ** The expected port map *)
Definition published (key : string) (expected : list ServiceBinding) : list ServiceBinding :=
  filter (fun b => Mode b <> Internal /\ port_key (ContainerPort b) (Transport b) = key) expected.

Lemma lookup_want expected key :
  want expected !! key = match published key expected with [] => None | l => Some l end.
Proof.
  unfold want, published.
  enough (forall m : gmap string (list ServiceBinding), foldl (fun m b => if decide (Mode b = Internal) then m
      else <[port_key (ContainerPort b) (Transport b) :=
             default [] (m !! port_key (ContainerPort b) (Transport b)) ++ [b]]> m) m expected !! key =
    match filter (fun b => Mode b <> Internal /\ port_key (ContainerPort b) (Transport b) = key) expected with
    | [] => m !! key | l => Some (default [] (m !! key) ++ l) end) as H.
  { rewrite (H ∅), lookup_empty. by destruct (filter _ _). }
  induction expected as [|b l IH]; intros m; [done|]. cbn [foldl]. rewrite IH, filter_cons.
  case_decide as Hm; [rewrite decide_False by tauto; done|].
  destruct (decide (port_key (ContainerPort b) (Transport b) = key)) as [<-|Hk].
  - rewrite decide_True by done. rewrite lookup_insert_eq. cbn.
    destruct (filter _ l); [done|]. by rewrite <- (assoc_L app).
  - rewrite decide_False by tauto. by rewrite lookup_insert_ne.
Qed.

(** ** Matching *)
Definition free (slots : list (ServiceBinding * bool)) : list (string * string) :=
  concat (map (fun s : ServiceBinding * bool => if s.2 then [] else [endpoint s.1]) slots).

Lemma claim_slot_spec entry slots :
  match claim_slot entry slots with
  | Some slots' => free slots ≡ₚ entry :: free slots'
  | None => entry ∉ free slots
  end.
Proof.
  induction slots as [|[b m] slots IH]; cbn; [apply not_elem_of_nil|].
  destruct m; cbn.
  { by destruct (claim_slot entry slots). }
  case_bool_decide as He; cbn; [by rewrite He|].
  destruct (claim_slot entry slots) as [slots'|]; cbn.
  - rewrite IH. apply Permutation_swap.
  - rewrite elem_of_cons. tauto.
Qed.

Lemma match_items_spec items slots :
  match_items items slots = true <->
  exists entries rest, Forall2 (fun item e => host_entry item = Some e) items entries /\
    free slots ≡ₚ entries ++ rest.
Proof.
  revert slots. induction items as [|item items IH]; intros slots; cbn.
  { split; [|done]. intros _. by exists [], (free slots). }
  destruct (host_entry item) as [e|] eqn:He.
  - pose proof (claim_slot_spec e slots) as Hc. destruct (claim_slot e slots) as [slots'|].
    + rewrite IH. split.
      * intros (es & rest & HF & HP). exists (e :: es), rest. split; [by constructor|].
        by rewrite Hc, HP.
      * intros (es & rest & HF & HP). apply Forall2_cons_inv_l in HF as (e' & es' & He' & HF & ->).
        exists es', rest. split; [done|]. assert (e' = e) as -> by congruence.
        rewrite Hc in HP. by apply Permutation_cons_inv in HP.
    + split; [done|]. intros (es & rest & HF & HP).
      apply Forall2_cons_inv_l in HF as (e' & es' & He' & HF & ->). exfalso. apply Hc.
      rewrite HP. assert (e' = e) as -> by congruence. apply list_elem_of_here.
  - split; [done|]. intros (es & rest & HF & _).
    apply Forall2_cons_inv_l in HF as (e' & es' & He' & _). congruence.
Qed.

Lemma free_all l : free (map (fun b => (b, false)) l) = map endpoint l.
Proof. unfold free. induction l; cbn; [done|]. by f_equal. Qed.

(** The reported entries of one port are exactly the expected ones. *)
Definition reports (raw : json) (expected : list ServiceBinding) : Prop :=
  exists items entries, raw = JArr items /\
    Forall2 (fun item e => host_entry item = Some e) items entries /\ entries ≡ₚ map endpoint expected.

Lemma key_matches_spec observed key l :
  key_matches observed key l = true <-> exists raw, observed !! key = Some raw /\ reports raw l.
Proof.
  unfold key_matches, reports. split.
  - destruct (observed !! key) as [[]|] eqn:Ho; try done.
    intros [Hlen%bool_decide_eq_true H]%andb_true_iff.
    apply match_items_spec in H as (es & rest & HF & HP). rewrite free_all in HP.
    assert (rest = []) as ->.
    { apply nil_length_inv. apply Permutation_length in HP. apply Forall2_length in HF.
      rewrite length_app, length_map in HP. lia. }
    rewrite app_nil_r in HP. eexists. split; [done|]. by exists l0, es.
  - intros (raw & -> & items & es & -> & HF & HP). apply andb_true_iff. split.
    + apply bool_decide_eq_true. apply Forall2_length in HF as ->. rewrite HP. by rewrite length_map.
    + apply match_items_spec. exists es, []. rewrite free_all, app_nil_r. by split.
Qed.

(** ** Kernel addresses *)

(** How the kernel prints an address: each 32-bit word as eight upper-case
    digits, least significant byte of the network order last. *)
Definition hex_upper (n : N) : N := (if n <? 10 then n + 48 else n + 55)%N.
Definition hex2 (b : N) : list N := [hex_upper (b / 16); hex_upper (b mod 16)]%N.
Fixpoint kernel_hex (bytes : list N) : list N :=
  match bytes with
  | a :: b :: c :: d :: rest => hex2 d ++ hex2 c ++ hex2 b ++ hex2 a ++ kernel_hex rest
  | _ => []
  end.

Lemma hex2_checked :
  forallb (fun b => match ParseUint16 (hex2 b) 8 with Ok v => (Z.to_N v =? b)%N | Err _ => false end)
    (map N.of_nat (seq 0 256)) = true.
Proof. vm_compute. reflexivity. Qed.

Lemma hex2_read b : (b < 256)%N -> rbind (ParseUint16 (hex2 b) 8) (fun v => Ok (Z.to_N v)) = Ok b.
Proof.
  intros Hb. pose proof hex2_checked as H. rewrite forallb_forall in H. specialize (H b).
  assert (In b (map N.of_nat (seq 0 256))) as Hin.
  { apply in_map_iff. exists (N.to_nat b). split; [lia|]. apply in_seq. lia. }
  apply H in Hin. destruct (ParseUint16 (hex2 b) 8); [|done]. cbn. by apply N.eqb_eq in Hin as ->.
Qed.

Lemma decode_words bytes rest : (length bytes = 4 \/ length bytes = 16)%nat ->
  Forall (fun b => b < 256)%N bytes ->
  collect (map (proc_byte (kernel_hex bytes ++ rest)) (seq 0 (length bytes))) = Ok bytes.
Proof.
  intros Hlen HF.
  assert (forall raw k b, (b < 256)%N ->
    take 2 (drop ((k - k mod 4 + 3 - k mod 4) * 2) raw) = hex2 b -> proc_byte raw k = Ok b) as Hbyte.
  { intros raw k b Hb Heq. unfold proc_byte. rewrite Heq. by apply hex2_read. }
  destruct Hlen as [Hlen|Hlen]; do 17 (try destruct bytes as [|? bytes]; try discriminate Hlen);
    repeat match goal with H : Forall _ (_ :: _) |- _ => apply Forall_cons in H as [? H] end;
    cbn [length seq map collect];
    repeat match goal with |- context [proc_byte ?raw ?k] =>
      erewrite (Hbyte raw k); [| |reflexivity]; [|eassumption] end; reflexivity.
Qed.

Lemma kernel_hex_length bytes : (length bytes = 4 \/ length bytes = 16)%nat ->
  length (kernel_hex bytes) = (2 * length bytes)%nat.
Proof.
  intros [H|H]; do 17 (try destruct bytes as [|? bytes]; try discriminate H); reflexivity.
Qed.

Lemma decode_kernel_hex bytes (ipv6 : bool) : (length bytes = if ipv6 then 16 else 4)%nat ->
  Forall (fun b => b < 256)%N bytes -> decodeProcAddress (kernel_hex bytes) ipv6 = Ok (IP_String bytes).
Proof.
  intros Hlen HF. assert (length bytes = 4 \/ length bytes = 16)%nat as H by (destruct ipv6; auto).
  unfold decodeProcAddress. rewrite decide_False
    by (rewrite kernel_hex_length by done; destruct ipv6; rewrite Hlen; cbn; lia).
  replace ((if ipv6 then 32 else 8) / 2)%nat with (length bytes) by (by destruct ipv6).
  pose proof (decode_words bytes [] H HF) as Hd. rewrite app_nil_r in Hd. by rewrite Hd.
Qed.

(** ** Allocation *)
Section allocation.
Context {E : Type} (listen : string -> string -> E -> res unit * E).

Definition refused (network address : string) (p : Z) : Prop :=
  exists e err e', listen network (JoinHostPort address (itoa p)) e = (Err err, e').

Lemma allocate_available_spec n p used network address e r e' :
  allocate_available listen n p used network address e = (r, e') ->
  match r with
  | Ok q => p <= q < p + Z.of_nat n /\ q ∉ used /\
      (exists e1, listen network (JoinHostPort address (itoa q)) e1 = (Ok (), e')) /\
      forall x, p <= x < q -> x ∈ used \/ refused network address x
  | Err _ => forall x, p <= x < p + Z.of_nat n -> x ∈ used \/ refused network address x
  end.
Proof.
  revert p e. induction n as [|n IH]; intros p e; cbn [allocate_available].
  { intros [= <- <-] x Hx. lia. }
  case_decide as Hu; [|destruct (listen _ _ e) as [[[]|err] e1] eqn:Hl].
  - intros H%IH. destruct r as [q|].
    + destruct H as (? & ? & ? & H). split_and!; try done; try lia. intros x Hx.
      destruct (decide (x = p)) as [->|]; [by left|]. apply H. lia.
    + intros x Hx. destruct (decide (x = p)) as [->|]; [by left|]. apply H. lia.
  - intros [= <- <-]. split; [lia|]. split; [done|]. split; [by exists e|]. intros x Hx. lia.
  - assert (refused network address p) as Hrefused by (by exists e, err, e1). intros H%IH. destruct r as [q|].
    + destruct H as (? & ? & ? & H). split_and!; try done; try lia. intros x Hx.
      destruct (decide (x = p)) as [->|]; [by right|]. apply H. lia.
    + intros x Hx. destruct (decide (x = p)) as [->|]; [by right|]. apply H. lia.
Qed.
End allocation.

(** ** Persisted assignments *)

(** The unique index. *)
Definition endpoints_unique (t : exposures) : Prop :=
  forall k1 k2 r1 r2, t !! k1 = Some r1 -> t !! k2 = Some r2 -> k1 <> k2 -> ~ same_endpoint r1 r2.

Lemma same_endpoint_sym r s : same_endpoint r s -> same_endpoint s r.
Proof. intros (? & ? & ? & ? & ?). by split_and!. Qed.

Lemma endpoints_unique_insert t k r :
  endpoints_unique t -> endpoint_free t k r -> endpoints_unique (<[k := r]> t).
Proof.
  intros Hu Hf. unfold endpoint_free in Hf. rewrite Forall_forall in Hf.
  assert (forall k' r', t !! k' = Some r' -> k' <> k -> ~ same_endpoint r r') as Hf'.
  { intros k' r' H Hne. apply (Hf (k', r')); [by apply elem_of_map_to_list|done]. }
  intros k1 k2 r1 r2 H1 H2 Hne.
  apply lookup_insert_Some in H1, H2. destruct H1 as [[<- <-]|[? H1]], H2 as [[<- <-]|[? H2]].
  - done.
  - by apply (Hf' k2).
  - intros Hs%same_endpoint_sym. by eapply (Hf' k1).
  - by eapply Hu.
Qed.

(** ** Claims *)
Definition web_lan : ServiceBinding :=
  {| ServiceID := "web"; Transport := TCP; ContainerPort := 80; Mode := LAN; HostAddress := "10.0.0.2";
     HostPort := 20000 |}.
Definition dns_udp : ServiceBinding :=
  {| ServiceID := "dns"; Transport := UDP; ContainerPort := 53; Mode := LAN; HostAddress := "10.0.0.2";
     HostPort := 20000 |}.

(** A binding the policy accepts either stays internal
    with no host address, or binds a definite unicast address: a loopback
    address, or the configured LAN address and no loopback one; never a
    wildcard or a multicast group.  Its host port is the trusted fixed port, or
    it comes from the managed range. *)
Theorem accepted_binding_local (b : ServiceBinding) (lan : string) (fixed : Z)
    (Hok : ValidateBinding b lan fixed = Ok ()) :
  (fixed <> 0 -> HostPort b = fixed /\ 1 <= fixed <= 65535) /\
  (fixed = 0 -> HostPort b = 0 \/ FirstPort <= HostPort b <= LastPort) /\
  ((Mode b = Internal /\ HostAddress b = "") \/
   exists ip, ParseIP (HostAddress b) = Some ip /\ HostPort b <> 0 /\
     IsUnspecified ip = false /\ IsMulticast ip = false /\
     ((Mode b = Loopback /\ IsLoopback ip = true) \/
      (Mode b = LAN /\ IsLoopback ip = false /\ HostAddress b = lan))).
Proof.
  unfold ValidateBinding in Hok. case_decide; [done|].
  assert (validateAddress (Mode b) (HostAddress b) (HostPort b) lan = Ok () /\
    (fixed <> 0 -> HostPort b = fixed /\ 1 <= fixed <= 65535) /\
    (fixed = 0 -> HostPort b = 0 \/ FirstPort <= HostPort b <= LastPort)) as (Ha & H1 & H2).
  { case_decide; [case_decide; [done|]|case_decide; [done|]]; (split; [done|]); split; intros; lia. }
  split_and!; [done..|]. unfold validateAddress in Ha. case_decide as Hi.
  { left. case_decide as He; [done|]. split; [done|]. destruct (decide (HostAddress b = "")); tauto. }
  right. case_decide as Hl; [|case_decide as HL; [|done]];
    (destruct (ParseIP (HostAddress b)) as [ip|]; [|done]); exists ip; (split; [done|]).
  - destruct (IsLoopback ip) eqn:Hip; [|done]. cbn in Ha. case_bool_decide; [done|].
    destruct (loopback_specific ip Hip). split_and!; try done. by left.
  - destruct (lan_address ip) eqn:Hip; [|done]. cbn in Ha. case_bool_decide as Hc; [done|].
    case_bool_decide; [done|]. destruct (lan_specific ip Hip) as (? & ? & ?).
    split_and!; try done. right. split_and!; try done.
Qed.

Lemma accepted_binding_local_witness :
  exists ip, ParseIP "10.0.0.2" = Some ip /\ IsUnspecified ip = false.
Proof.
  assert (ValidateBinding web_lan "10.0.0.2" 0 = Ok ()) as Hok by (vm_compute; reflexivity).
  destruct (accepted_binding_local web_lan "10.0.0.2" 0 Hok) as (_ & _ & [[H _]|(ip & H & _ & Hu & _)]);
    [discriminate H|]. exists ip. exact (conj H Hu).
Defined.

(** A list of bindings passes the conflict check exactly
    when no two of its entries, in either order, claim an overlapping host
    endpoint. *)
Theorem conflicts_complete (bindings : list ServiceBinding) :
  ValidateConflicts bindings = Ok () <-> pairwise_apart bindings.
Proof.
  unfold ValidateConflicts. rewrite validate_conflicts_spec. split; [tauto|]. intros H. split; [|done].
  by intros x y _ ?%elem_of_nil.
Qed.

(** The comparison with the runtime accepts exactly
    when, for every container port, the runtime reports a list of
    address-and-port entries that is a rearrangement of the non-internal
    bindings expected on it, and reports nothing for a port without any:
    nothing missing, extra, wildcarded or changed. *)
Theorem observed_bindings_exact (expected : list ServiceBinding) (observed : gmap string json) :
  ObservedBindingsExactSet expected observed = true <->
  forall key, match observed !! key with
              | Some raw => published key expected <> [] /\ reports raw (published key expected)
              | None => published key expected = []
              end.
Proof.
  unfold ObservedBindingsExactSet. rewrite andb_true_iff, bool_decide_eq_true, forallb_forall.
  assert ((forall kv, In kv (map_to_list (want expected)) -> key_matches observed kv.1 kv.2 = true) <->
    forall key, published key expected <> [] ->
      exists raw, observed !! key = Some raw /\ reports raw (published key expected)) as ->.
  { setoid_rewrite <- list_elem_of_In. split.
    - intros H key Hne. apply key_matches_spec, (H (key, published key expected)).
      apply elem_of_map_to_list. rewrite lookup_want. by destruct (published key expected).
    - intros H [key l] Hl%elem_of_map_to_list. rewrite lookup_want in Hl. apply key_matches_spec; cbn.
      specialize (H key). destruct (published key expected) as [|b l']; [done|]. injection Hl as <-. by apply H. }
  assert (forall key, key ∈ dom (want expected) <-> published key expected <> []) as Hdom.
  { intros key. rewrite elem_of_dom, lookup_want. by destruct (published key expected). }
  split.
  - intros [Hsize H] key.
    assert ((dom (want expected) : gset string) = dom observed) as Heq.
    { apply set_subseteq_size_eq; [|rewrite !size_dom; lia].
      intros k Hk%Hdom%H. destruct Hk as (raw & Hr & _). by apply elem_of_dom_2 in Hr. }
    destruct (observed !! key) as [raw|] eqn:Ho.
    + assert (published key expected <> []) as Hne.
      { apply Hdom. rewrite Heq. by apply elem_of_dom_2 in Ho. }
      split; [done|]. destruct (H key Hne) as (raw' & ? & ?). by simplify_eq.
    + destruct (decide (published key expected = [])); [done|].
      destruct (H key) as (raw' & ? & ?); [done|]. congruence.
  - intros H. split.
    + rewrite <- !(size_dom (D := gset string)). apply (f_equal size), set_eq. intros key. rewrite Hdom, elem_of_dom.
      specialize (H key). destruct (observed !! key); [|by rewrite H].
      split; [done|]. by intros _; destruct H.
    + intros key Hne. specialize (H key). destruct (observed !! key) as [raw|]; [|by destruct Hne].
      exists raw. by destruct H.
Qed.

(** An allocated port lies in the managed range, is not
    assigned yet and could be bound on the requested address at that moment;
    every lower port was assigned or refused by the host, and the allocator
    gives up only when that is true of the whole range. *)
Theorem allocation_sound (E : Type) (listen : string -> string -> E -> res unit * E) (used : gset Z)
    (address transport : string) (e : E) :
  let network := if decide (transport = UDP) then "udp" else "tcp" in
  match AllocateAvailableTransport listen used address transport e with
  | (Ok p, e') => FirstPort <= p <= LastPort /\ p ∉ used /\
      (exists e1, listen network (JoinHostPort address (itoa p)) e1 = (Ok (), e')) /\
      forall q, FirstPort <= q < p -> q ∈ used \/ refused listen network address q
  | (Err _, _) => forall q, FirstPort <= q <= LastPort -> q ∈ used \/ refused listen network address q
  end.
Proof.
  cbv zeta. destruct (AllocateAvailableTransport listen used address transport e) as [r e'] eqn:H.
  apply allocate_available_spec in H. unfold port_count, FirstPort, LastPort in *.
  rewrite Z2Nat.id in H by lia. destruct r as [p|err]; [|intros q Hq; apply H; lia].
  destruct H as (? & ? & ? & ?). split_and!; try done; lia.
Qed.

(** The local address of a socket, printed by the
    kernel as words with their bytes reversed, is decoded to the standard text
    of that address, and the text of an IPv4 address parses back to it. *)
Theorem kernel_address_decoded (bytes : list N) (ipv6 : bool)
    (Hlen : (length bytes = if ipv6 then 16 else 4)%nat) (Hbytes : Forall (fun b => b < 256)%N bytes) :
  decodeProcAddress (kernel_hex bytes) ipv6 = Ok (IP_String bytes) /\
  (ipv6 = false -> ParseIP (IP_String bytes) = Some (v4_mapped bytes)).
Proof.
  split; [by apply decode_kernel_hex|]. intros ->.
  destruct bytes as [|a [|b [|c [|d [|]]]]]; try discriminate Hlen.
  repeat (apply Forall_cons in Hbytes as [? Hbytes]). by apply ParseIP_dotted.
Qed.

Lemma kernel_address_decoded_witness :
  decodeProcAddress (text "0100007F") false = Ok "127.0.0.1" /\
  ParseIP "127.0.0.1" = Some (v4_mapped [127; 0; 0; 1]%N).
Proof.
  destruct (kernel_address_decoded [127; 0; 0; 1]%N false eq_refl) as [H1 H2];
    [repeat constructor|]. exact (conj H1 (H2 eq_refl)).
Defined.

(** A stored assignment is the one read back, keeps the
    time of its creation, leaves every other row alone and never shares its
    host endpoint with another row. *)
Theorem assignment_read_back (now installation : string) (b : ServiceBinding) (lan : string) (fixed : Z)
    (t t' : exposures) (r : ExposureRecord) (Hu : endpoints_unique t)
    (Hok : UpsertBinding now installation b lan fixed t = Ok (r, t')) :
  Get installation (ServiceID b) t' = Ok (r, t') /\
  (er_Transport r, er_Mode r, er_HostAddress r, er_HostPort r) =
    (Transport b, Mode b, HostAddress b, HostPort b) /\
  er_CreatedAt r = default now (er_CreatedAt <$> t !! (installation, ServiceID b)) /\
  (forall k, k <> (installation, ServiceID b) -> t' !! k = t !! k) /\ endpoints_unique t'.
Proof.
  unfold UpsertBinding in Hok. inv_tx. destruct (ValidateBinding _ lan fixed); [|inv_tx].
  inv_tx. case_decide as Hc; [|inv_tx]. unfold Get in *. inv_tx.
  unfold exposures in *.
  match goal with H : _ = Some r |- _ => rewrite lookup_insert_eq in H; injection H as <- end.
  split_and!; [by unfold trow; rewrite lookup_insert_eq|done|by destruct (_ !! _)| |].
  - intros k Hk. by rewrite lookup_insert_ne.
  - apply endpoints_unique_insert; [done|apply Hc].
Qed.

Lemma assignment_read_back_witness :
  exists r t', UpsertBinding "now" "inst-a" web_lan "10.0.0.2" 0 ∅ = Ok (r, t') /\
    Get "inst-a" "web" t' = Ok (r, t').
Proof.
  destruct (UpsertBinding "now" "inst-a" web_lan "10.0.0.2" 0 ∅) as [[r t']|e] eqn:Hok;
    [|vm_compute in Hok; discriminate Hok].
  exists r, t'. split; [reflexivity|].
  refine (proj1 (assignment_read_back "now" "inst-a" web_lan "10.0.0.2" 0 ∅ t' r _ Hok)).
  intros k1 k2 r1 r2 H. discriminate H.
Defined.
