(* ===== verification/Containers.v ===== *)
(** * Container runtime contract ([internal/containers], [internal/ownership])

    The typed values the helper exchanges with the container runtime, the
    labels that mark KITPro's resources, and the part of [lifecycle/runner.go]
    that compares an observation with a plan.

    A Go slice or map that is encoded to JSON by a hash is a [slice]: [None]
    is [nil], which encodes as [null], while an empty non-nil value encodes as
    [[]] or [{}]. *)

From S2P Require Import Prelude Protocol.
From stdpp Require Import base gmap strings list sorting.
From Stdlib Require Import ZArith Lia.

Open Scope Z_scope.

Definition slice (A : Type) : Type := option (list A).
Definition items {A} (s : slice A) : list A := default [] s.
Definition gomap (A : Type) : Type := option (gmap string A).
Definition entries {A} (m : gomap A) : gmap string A := default ∅ m.

(** [type RuntimeState string] *)
Definition RuntimeUnknown : string := "unknown".
Definition RuntimeMissing : string := "missing".
Definition RuntimeStopped : string := "stopped".
Definition RuntimeRunning : string := "running".
Definition RuntimeRestarting : string := "restarting".
Definition RuntimePaused : string := "paused".

Record ImageObservation : Type := {
  im_Exists : bool;
  im_ID : string;
  im_RepoDigests : list string;
  im_ConfiguredUser : string;
  im_ConfiguredVolumes : list string
}.

Record RuntimeIdentityObservation : Type := {
  id_Name : string;
  id_ID : string;
  id_Version : string
}.

Record NetworkObservation : Type := {
  nw_Exists : bool;
  nw_ID : string;
  nw_Name : string;
  nw_Labels : gmap string string
}.

Record MountObservation : Type := {
  mt_Source : string;
  mt_Destination : string;
  mt_ReadOnly : bool
}.

Record NetworkAttachment : Type := {
  na_NetworkID : string;
  na_Aliases : list string
}.

Record PortBinding : Type := { pb_HostIP : string; pb_HostPort : string }.

Record StorageMount : Type := {
  sg_ContainerPath : string;
  sg_HostPath : string;
  sg_ReadOnly : bool
}.

Record DeviceMapping : Type := {
  dv_PathOnHost : string;
  dv_PathInContainer : string;
  dv_CgroupPermissions : string
}.

Record DeviceRequest : Type := {
  dr_Driver : string;
  dr_Count : Z;
  dr_Capabilities : slice (slice string)
}.

#[export] Instance MountObservation_eq_dec : EqDecision MountObservation.
Proof. solve_decision. Defined.

Record ContainerObservation : Type := {
  ob_Exists : bool;
  ob_ID : string;
  ob_Name : string;
  ob_ImageID : string;
  ob_ImageReference : string;
  ob_State : string;
  ob_Health : string;
  ob_Labels : gomap string;
  ob_User : string;
  ob_Command : slice string;
  ob_Environment : list string;
  ob_RestartPolicy : string;
  ob_Mounts : list MountObservation;
  ob_Networks : gmap string NetworkAttachment;
  ob_NetworkMode : string;
  ob_PortBindings : gomap (slice PortBinding);
  ob_Devices : slice DeviceMapping;
  ob_DeviceRequests : slice DeviceRequest
}.

#[export] Instance ContainerObservation_eta : Eta ContainerObservation :=
  fun r => Build_ContainerObservation (ob_Exists r) (ob_ID r) (ob_Name r) (ob_ImageID r)
    (ob_ImageReference r) (ob_State r) (ob_Health r) (ob_Labels r) (ob_User r) (ob_Command r)
    (ob_Environment r) (ob_RestartPolicy r) (ob_Mounts r) (ob_Networks r) (ob_NetworkMode r)
    (ob_PortBindings r) (ob_Devices r) (ob_DeviceRequests r).
#[export] Instance set_ob_Networks : Setter ob_Networks := ltac:(mk_setter).
#[export] Instance set_ob_State : Setter ob_State := ltac:(mk_setter).

(** The zero value [ContainerObservation{}]. *)
Definition zero_observation : ContainerObservation :=
  {| ob_Exists := false; ob_ID := ""; ob_Name := ""; ob_ImageID := ""; ob_ImageReference := "";
     ob_State := ""; ob_Health := ""; ob_Labels := None; ob_User := ""; ob_Command := None;
     ob_Environment := []; ob_RestartPolicy := ""; ob_Mounts := []; ob_Networks := ∅;
     ob_NetworkMode := ""; ob_PortBindings := None; ob_Devices := None;
     ob_DeviceRequests := None |}.

Record ContainerPlan : Type := {
  pl_Image : string;
  pl_Name : string;
  pl_Network : string;
  pl_User : string;
  pl_ImageDefaultUser : string;
  pl_ImageDefaultVolumes : list string;
  pl_Labels : gomap string;
  pl_Command : slice string;
  pl_Environment : list string;
  pl_DataPath : string;
  pl_ReadOnly : bool;
  pl_Storage : list StorageMount;
  pl_PortBindings : gomap (slice PortBinding);
  pl_RestartPolicy : string;
  pl_NetworkAliases : list string;
  pl_Dependencies : list string;
  pl_Devices : slice DeviceMapping;
  pl_DeviceRequests : slice DeviceRequest
}.

#[export] Instance ContainerPlan_eta : Eta ContainerPlan :=
  fun r => Build_ContainerPlan (pl_Image r) (pl_Name r) (pl_Network r) (pl_User r)
    (pl_ImageDefaultUser r) (pl_ImageDefaultVolumes r) (pl_Labels r) (pl_Command r)
    (pl_Environment r) (pl_DataPath r) (pl_ReadOnly r) (pl_Storage r) (pl_PortBindings r)
    (pl_RestartPolicy r) (pl_NetworkAliases r) (pl_Dependencies r) (pl_Devices r)
    (pl_DeviceRequests r).
#[export] Instance set_pl_ImageDefaultUser : Setter pl_ImageDefaultUser := ltac:(mk_setter).
#[export] Instance set_pl_ImageDefaultVolumes : Setter pl_ImageDefaultVolumes := ltac:(mk_setter).

(** [LifecycleRuntime]: the container runtime behind the narrow contract of
    staged replacement.  [E] is everything outside the helper; each method may
    answer anything and change anything in it.  The timeouts of [PullImage]
    and [WaitContainer] are among the errors they may return. *)
Class LifecycleRuntime (E : Type) : Type := {
  PullImage : string -> E -> res unit * E;
  ObserveImage : string -> E -> res ImageObservation * E;
  CreateLifecycleNetwork : string -> gomap string -> E -> res NetworkObservation * E;
  ObserveNetwork : string -> E -> res NetworkObservation * E;
  CreateLifecycleContainer : ContainerPlan -> E -> res string * E;
  ObserveContainer : string -> E -> res ContainerObservation * E;
  StartContainer : string -> E -> res unit * E;
  StopContainer : string -> E -> res unit * E;
  RemoveContainer : string -> E -> res unit * E;
  RemoveLifecycleNetwork : string -> E -> res unit * E;
  WaitContainer : string -> string -> E -> res ContainerObservation * E
}.

(** ** Ownership evidence ([ownership.go]) *)
Definition LabelManaged : string := "com.kitpro.managed".
Definition LabelInstance : string := "com.kitpro.instance".
Definition LabelResource : string := "com.kitpro.resource".
Definition LabelGeneration : string := "com.kitpro.runtime-generation".

(** [observed.Labels[key]]: a missing key reads as the empty string. *)
Definition label (o : ContainerObservation) (key : string) : string :=
  default "" (entries (ob_Labels o) !! key).

Definition instance_char (c : Ascii.ascii) : bool :=
  let b := byte_of c in
  (((97 <=? b) && (b <=? 122)) || ((48 <=? b) && (b <=? 57)) || (b =? 45))%N.

(** The characters of a valid instance are single bytes, and a byte from 128
    up is not one of them, so the scan by runes and the scan by bytes agree. *)
Definition Names (instance : string) : res (string * string) :=
  if decide ((String.length instance < 6)%nat \/ (64 < String.length instance)%nat)
  then Err (ErrMsg "invalid instance id")
  else if forallb instance_char (String.list_ascii_of_string instance)
  then Ok ("kitpro-test-" +:+ instance, "kitpro-net-" +:+ instance)
  else Err (ErrMsg "invalid instance id").

(** ** Comparing an observation with a plan (the pure part of [runner.go]) *)

(** [fmt.Sprint] of an [int]. *)
Definition sprint (n : Z) : string := json_num n.

Definition normalizeRestart (value : string) : string :=
  if decide (value = "") then "no" else value.

Definition sortedStrings (values : list string) : list string := sort_strings values.

Definition containsStrings (have required : list string) : bool :=
  forallb (fun v => bool_decide (v ∈ have)) required.

Definition normalizeMounts (mounts : list MountObservation) : list MountObservation :=
  sort_by mt_Destination mounts.

Definition normalizeExpectedMounts (plan : ContainerPlan) : list MountObservation :=
  let storage :=
    if decide (pl_Storage plan = [] /\ pl_DataPath plan <> "") then
      [ {| sg_HostPath := pl_DataPath plan; sg_ContainerPath := "/data";
           sg_ReadOnly := pl_ReadOnly plan |} ]
    else pl_Storage plan in
  normalizeMounts (map (fun m => {| mt_Source := sg_HostPath m;
                                    mt_Destination := sg_ContainerPath m;
                                    mt_ReadOnly := sg_ReadOnly m |}) storage).

(** The first loop of [mountsMatch]: the mounts by destination, or a repeated
    destination. *)
Fixpoint by_destination (actual : list MountObservation) (m : gmap string MountObservation)
    : option (gmap string MountObservation) :=
  match actual with
  | [] => Some m
  | mount :: rest =>
      match m !! mt_Destination mount with
      | Some _ => None
      | None => by_destination rest (<[mt_Destination mount := mount]> m)
      end
  end.

(** The second loop: every expected mount is found exactly and taken out. *)
Fixpoint take_expected (expected : list MountObservation) (m : gmap string MountObservation)
    : option (gmap string MountObservation) :=
  match expected with
  | [] => Some m
  | mount :: rest =>
      match m !! mt_Destination mount with
      | Some got => if decide (got = mount)
                    then take_expected rest (delete (mt_Destination mount) m) else None
      | None => None
      end
  end.

Definition mountsMatch (plan : ContainerPlan) (observed : list MountObservation) : bool :=
  match by_destination (normalizeMounts observed) ∅ with
  | None => false
  | Some byDestination =>
      match take_expected (normalizeExpectedMounts plan) byDestination with
      | None => false
      | Some remaining =>
          forallb (fun kv => bool_decide (kv.1 ∈ pl_ImageDefaultVolumes plan))
            (map_to_list remaining)
      end
  end.

Definition runtimeUserMatches (plan : ContainerPlan) (observed : string) : bool :=
  let expected := if decide (pl_User plan = "") then pl_ImageDefaultUser plan
                  else pl_User plan in
  bool_decide (observed = expected).

(** [strings.TrimPrefix] *)
Definition trim_prefix (prefix s : string) : string :=
  if String.prefix prefix s
  then String.substring (String.length prefix) (String.length s - String.length prefix) s
  else s.

Definition canonicalDigestReference (image : string) : string :=
  trim_prefix "library/" (trim_prefix "index.docker.io/" (trim_prefix "docker.io/" image)).

Definition imageContainsDigest (observed : ImageObservation) (image : string) : bool :=
  im_Exists observed &&
  existsb (fun d => bool_decide (canonicalDigestReference d = canonicalDigestReference image))
    (im_RepoDigests observed).

(** *** JSON of the runtime values *)
Definition jslice {A} (f : A -> json) (s : slice A) : json :=
  match s with None => JNull | Some l => JArr (map f l) end.

(** Object keys are written in increasing order. *)
Definition jmap {A} (f : A -> json) (m : gomap A) : json :=
  match m with
  | None => JNull
  | Some m => JObj (map (fun kv => (kv.1, f kv.2)) (sort_by fst (map_to_list m)))
  end.

(** A slice built by appending to [nil] is [nil] when nothing was appended. *)
Definition appended {A} (l : list A) : slice A := match l with [] => None | _ => Some l end.

Definition PortBinding_json (b : PortBinding) : json :=
  JObj [("HostIp", JStr (pb_HostIP b)); ("HostPort", JStr (pb_HostPort b))].
Definition MountObservation_json (m : MountObservation) : json :=
  JObj [("Source", JStr (mt_Source m)); ("Destination", JStr (mt_Destination m));
        ("ReadOnly", JBool (mt_ReadOnly m))].
Definition DeviceMapping_json (d : DeviceMapping) : json :=
  JObj [("PathOnHost", JStr (dv_PathOnHost d)); ("PathInContainer", JStr (dv_PathInContainer d));
        ("CgroupPermissions", JStr (dv_CgroupPermissions d))].
Definition DeviceRequest_json (r : DeviceRequest) : json :=
  JObj [("Driver", JStr (dr_Driver r)); ("Count", JNum (dr_Count r));
        ("Capabilities", jslice (jslice JStr) (dr_Capabilities r))].

Definition ports_json (m : gomap (slice PortBinding)) : json := jmap (jslice PortBinding_json) m.

Definition equalJSON (a b : json) : bool := bool_decide (marshal a = marshal b).

(** [len(values) == 0] becomes an empty, non-nil value. *)
Definition normalizePortBindings (values : gomap (slice PortBinding)) : gomap (slice PortBinding) :=
  if decide (entries values = ∅) then Some ∅ else values.
Definition normalizeDevices (values : slice DeviceMapping) : slice DeviceMapping :=
  match items values with [] => Some [] | _ => values end.
Definition normalizeDeviceRequests (values : slice DeviceRequest) : slice DeviceRequest :=
  match items values with [] => Some [] | _ => values end.

Definition networkNames (networks : gmap string NetworkAttachment) : list string :=
  sort_strings (map fst (map_to_list networks)).

(** The value [observationHash] encodes. *)
Definition observation_json (o : ContainerObservation) : json :=
  JObj [ ("Image", JStr (ob_ImageReference o)); ("User", JStr (ob_User o));
         ("Restart", JStr (normalizeRestart (ob_RestartPolicy o)));
         ("Command", jslice JStr (ob_Command o));
         ("Environment", jslice JStr (appended (sortedStrings (ob_Environment o))));
         ("Labels", jmap JStr (ob_Labels o));
         ("Mounts", jslice MountObservation_json (appended (normalizeMounts (ob_Mounts o))));
         ("Networks", JArr (map JStr (networkNames (ob_Networks o))));
         ("NetworkMode", JStr (ob_NetworkMode o));
         ("Ports", ports_json (ob_PortBindings o));
         ("Devices", jslice DeviceMapping_json (ob_Devices o));
         ("Requests", jslice DeviceRequest_json (ob_DeviceRequests o)) ].

Section hashing.
Context (sha : string -> string).

Definition observationHash (o : ContainerObservation) : string :=
  sha (marshal (observation_json o)).

Definition ConfigurationHash (o : ContainerObservation) : string := observationHash o.

Definition detachedStoppedConfigurationMatches (observed : ContainerObservation)
    (expectedHash networkName networkID : string) : bool :=
  if decide (expectedHash = "" \/ ob_Exists observed = false \/
             ob_State observed <> RuntimeStopped \/ ob_NetworkMode observed <> networkName \/
             ob_Networks observed <> ∅ \/ networkName = "" \/ networkID = "")
  then false
  else bool_decide (observationHash (observed <| ob_Networks :=
         {[ networkName := {| na_NetworkID := networkID; na_Aliases := [] |} ]} |>) = expectedHash).
End hashing.

(** The fields of a container's configuration both verifiers compare. *)
Definition configuration_matches (plan : ContainerPlan) (o : ContainerObservation) : bool :=
  runtimeUserMatches plan (ob_User o) &&
  bool_decide (normalizeRestart (ob_RestartPolicy o) = normalizeRestart (pl_RestartPolicy plan)) &&
  (bool_decide (items (pl_Command plan) = []) ||
   equalJSON (jslice JStr (ob_Command o)) (jslice JStr (pl_Command plan))) &&
  containsStrings (ob_Environment o) (pl_Environment plan).

Definition resources_match (plan : ContainerPlan) (o : ContainerObservation) : bool :=
  mountsMatch plan (ob_Mounts o) &&
  equalJSON (ports_json (normalizePortBindings (ob_PortBindings o)))
            (ports_json (normalizePortBindings (pl_PortBindings plan))) &&
  equalJSON (jslice DeviceMapping_json (normalizeDevices (ob_Devices o)))
            (jslice DeviceMapping_json (normalizeDevices (pl_Devices plan))) &&
  equalJSON (jslice DeviceRequest_json (normalizeDeviceRequests (ob_DeviceRequests o)))
            (jslice DeviceRequest_json (normalizeDeviceRequests (pl_DeviceRequests plan))).

Definition VerifyMigratedConfiguration (plan : ContainerPlan) (observed : ContainerObservation)
    : res unit :=
  if negb (bool_decide (ob_NetworkMode observed = pl_Network plan) &&
           equalJSON (jmap JStr (ob_Labels observed)) (jmap JStr (pl_Labels plan)) &&
           configuration_matches plan observed)
  then Err (ErrMsg "migrated runtime configuration mismatch")
  else if negb (resources_match plan observed)
  then Err (ErrMsg "migrated runtime mounts, ports, or devices mismatch")
  else Ok tt.

(** ** What [mountsMatch] decides *)
Lemma by_destination_spec l m m' :
  by_destination l m = Some m' ->
  NoDup (mt_Destination <$> l) /\ (forall x, x ∈ l -> m !! mt_Destination x = None) /\
  forall k v, m' !! k = Some v <-> m !! k = Some v \/ (v ∈ l /\ mt_Destination v = k).
Proof.
  revert m. induction l as [|x l IH]; intros m H; simpl in H.
  { simplify_eq. split_and!; [constructor|set_solver|set_solver]. }
  destruct (m !! mt_Destination x) eqn:Hx; [done|]. apply IH in H as (Hnd & Hfree & Hm').
  assert (forall y, y ∈ l -> mt_Destination y <> mt_Destination x) as Hne.
  { intros y Hy Heq. specialize (Hfree y Hy). rewrite Heq in Hfree. by simplify_map_eq. }
  split_and!.
  - constructor; [|done]. intros (y & Heq & Hy)%list_elem_of_fmap. by eapply Hne.
  - intros y [->|Hy]%elem_of_cons; [done|]. specialize (Hfree y Hy).
    by rewrite lookup_insert_ne in Hfree by (intros Heq; by eapply Hne).
  - intros k v. rewrite Hm', elem_of_cons. destruct (decide (k = mt_Destination x)) as [->|Hk].
    + rewrite lookup_insert_eq. split; [naive_solver|].
      intros [?|[[->|Hv] Hd]]; [congruence|naive_solver|]. by destruct (Hne v Hv).
    + rewrite lookup_insert_ne by done. naive_solver.
Qed.

Lemma by_destination_total l m :
  NoDup (mt_Destination <$> l) -> (forall x, x ∈ l -> m !! mt_Destination x = None) ->
  is_Some (by_destination l m).
Proof.
  revert m. induction l as [|x l IH]; intros m Hnd Hfree; simpl; [by eexists|].
  rewrite fmap_cons in Hnd. apply NoDup_cons in Hnd as [Hx Hnd].
  rewrite (Hfree x) by set_solver. apply IH; [done|]. intros y Hy.
  rewrite lookup_insert_ne; [apply Hfree; set_solver|]. intros Heq. apply Hx.
  rewrite Heq. by apply list_elem_of_fmap_2.
Qed.

Lemma take_expected_spec e m m' :
  take_expected e m = Some m' <->
  NoDup (mt_Destination <$> e) /\ (forall x, x ∈ e -> m !! mt_Destination x = Some x) /\
  m' = foldr (fun x acc => delete (mt_Destination x) acc) m (reverse e).
Proof.
  revert m. induction e as [|x e IH]; intros m; simpl.
  { split; [intros [= ->]; split_and!; [constructor|set_solver|done]|naive_solver]. }
  rewrite reverse_cons, foldr_app. simpl.
  destruct (m !! mt_Destination x) as [got|] eqn:Hg.
  2:{ split; [done|]. intros (_ & Hall & _). specialize (Hall x). rewrite Hg in Hall. set_solver. }
  case_decide as Heq.
  2:{ split; [done|]. intros (_ & Hall & _). rewrite Hall in Hg by set_solver. by simplify_eq. }
  subst got. rewrite IH. split.
  - intros (Hnd & Hall & ->). split_and!; [|set_unfold; intros y [->|Hy]|done].
    + constructor; [|done]. intros (y & Hk & Hy)%list_elem_of_fmap.
      specialize (Hall y Hy). rewrite <- Hk in Hall. by simplify_map_eq.
    + done.
    + specialize (Hall y Hy). by apply lookup_delete_Some in Hall as [_ ?].
  - intros (Hnd & Hall & ->). apply NoDup_cons in Hnd as [Hx Hnd]. split_and!; [done| |done].
    intros y Hy. apply lookup_delete_Some. split; [|apply Hall; set_solver].
    intros Heq. apply Hx. rewrite Heq. by apply list_elem_of_fmap_2.
Qed.

Lemma lookup_delete_all e (m : gmap string MountObservation) k v :
  foldr (fun x acc => delete (mt_Destination x) acc) m e !! k = Some v <->
  m !! k = Some v /\ forall x, x ∈ e -> mt_Destination x <> k.
Proof.
  induction e as [|x e IH]; simpl; [set_solver|].
  rewrite lookup_delete_Some, IH. set_solver.
Qed.

Module ContainersProps.

(** The mount check accepts an observation exactly when its
    destinations are distinct, the plan's are, every planned mount is present
    with the same source and mode, and every other observed mount sits on a
    volume destination declared by the pinned image. *)
Theorem mounts_exact (plan : ContainerPlan) (observed : list MountObservation) :
  mountsMatch plan observed = true <->
  NoDup (mt_Destination <$> observed) /\
  NoDup (mt_Destination <$> normalizeExpectedMounts plan) /\
  (forall m, m ∈ normalizeExpectedMounts plan -> m ∈ observed) /\
  (forall m, m ∈ observed -> m ∈ normalizeExpectedMounts plan \/
     mt_Destination m ∈ pl_ImageDefaultVolumes plan).
Proof.
  unfold mountsMatch.
  assert (mt_Destination <$> normalizeMounts observed ≡ₚ mt_Destination <$> observed) as HP
    by (apply fmap_Permutation, sort_by_perm).
  destruct (by_destination (normalizeMounts observed) ∅) as [bd|] eqn:Hbd.
  2:{ split; [done|]. intros (Hnd & _).
      destruct (by_destination_total (normalizeMounts observed) ∅) as [? ?]; [by rewrite HP|done|congruence]. }
  apply by_destination_spec in Hbd as (Hnd & _ & Hbd). rewrite HP in Hnd.
  assert (forall k v, bd !! k = Some v <-> v ∈ observed /\ mt_Destination v = k) as Hbd'.
  { intros k v. rewrite Hbd, lookup_empty. unfold normalizeMounts. rewrite elem_of_sort_by. naive_solver. }
  destruct (take_expected _ bd) as [rem|] eqn:Hte.
  - apply take_expected_spec in Hte as (Hne & Hall & ->).
    rewrite forallb_forall. setoid_rewrite <- list_elem_of_In. setoid_rewrite bool_decide_eq_true.
    split.
    + intros Hvol. split_and!; [done..| |].
      * intros m Hm. by apply Hall, Hbd' in Hm as [? _].
      * intros m Hm. destruct (decide (m ∈ normalizeExpectedMounts plan)) as [?|Hno]; [by left|right].
        apply (Hvol (mt_Destination m, m)), elem_of_map_to_list, lookup_delete_all.
        rewrite Hbd'. split; [done|]. intros x Hx Heq. rewrite elem_of_reverse in Hx.
        pose proof (Hall x Hx) as Hbx. rewrite Heq in Hbx.
        assert (bd !! mt_Destination m = Some m) as Hbm by by apply Hbd'. congruence.
    + intros (_ & _ & _ & Hvol) [k v] Hkv%elem_of_map_to_list%lookup_delete_all. simpl.
      destruct Hkv as [[Hv <-]%Hbd' Hno]. destruct (Hvol v Hv) as [He|?]; [|done].
      destruct (Hno v); [by rewrite elem_of_reverse|done].
  - split; [done|]. intros (_ & Hne & Hsub & _).
    assert (exists r, take_expected (normalizeExpectedMounts plan) bd = Some r) as [r Hr]; [|congruence].
    eexists. apply take_expected_spec. split_and!; [done| |done].
    intros x Hx. apply Hbd'. auto.
Qed.

End ContainersProps.
