(* ===== verification/Topology.v ===== *)
(** * Component topology ([internal/multicontainer])

    The dependency order in which the components of an application are
    started, the persisted description of the graph, and what they promise. *)

From S2P Require Import Prelude Protocol Containers.
From stdpp Require Import base gmap strings list relations.
From Stdlib Require Import ZArith Lia.

(** ** Data *)

(** The fields of [manifest.Component] the graph is built from. *)
Record Node : Type := { n_ID : string; n_DependsOn : list string }.

Record TopologyComponent : Type := {
  tc_ID : string;
  tc_DependsOn : slice string;
  tc_Ordinal : Z
}.

Record Topology : Type := {
  to_Components : list TopologyComponent;
  to_StartOrder : list string;
  to_StopOrder : list string;
  to_Hash : string
}.

Definition TopologyComponent_json (c : TopologyComponent) : json :=
  JObj [("id", JStr (tc_ID c)); ("depends_on", jslice JStr (tc_DependsOn c));
        ("start_ordinal", JNum (tc_Ordinal c))].

(** ** [StartOrder] *)

(** The [uint8] marks: 1 while a component is on the recursion stack, 2 once
    it is in the order; 0 is an absent key. *)
Inductive mark : Type := Visiting | Visited.

Definition marks_t : Type := gmap string mark * list string.

Section visit.
Context (byID : gmap string Node).

(** Error texts name a component as it is, where the code quotes it.  The
    dependency loop: the first error stops it.  [None] is recursion that
    ran out of fuel. *)
Fixpoint visit_all (visit : string -> marks_t -> option (res marks_t)) (l : list string)
    (s : marks_t) : option (res marks_t) :=
  match l with
  | [] => Some (Ok s)
  | dep :: l =>
      match visit dep s with
      | Some (Ok s) => visit_all visit l s
      | r => r
      end
  end.

Fixpoint visit (fuel : nat) (id : string) (s : marks_t) : option (res marks_t) :=
  match fuel with
  | O => None
  | S fuel =>
      match s.1 !! id with
      | Some Visiting => Some (Err (ErrMsg "component dependency cycle"))
      | Some Visited => Some (Ok s)
      | None =>
          match byID !! id with
          | None => Some (Err (ErrMsg ("component dependency " +:+ id +:+ " not found")))
          | Some c =>
              match visit_all (visit fuel) (sort_strings (n_DependsOn c))
                      (<[id := Visiting]> s.1, s.2) with
              | Some (Ok (state, order)) => Some (Ok (<[id := Visited]> state, order ++ [id]))
              | r => r
              end
          end
      end
  end.
End visit.

(** The loop that indexes the components. *)
Fixpoint index_components (components : list Node) (byID : gmap string Node) (ids : list string)
    : res (gmap string Node * list string) :=
  match components with
  | [] => Ok (byID, ids)
  | c :: components =>
      if decide (n_ID c = "") then Err (ErrMsg "component ID is required")
      else match byID !! n_ID c with
           | Some _ => Err (ErrMsg ("duplicate component " +:+ n_ID c))
           | None => index_components components (<[n_ID c := c]> byID) (ids ++ [n_ID c])
           end
  end.

(** A recursion is never deeper than the components there are, so their
    number bounds the fuel ([start_order_terminates]). *)
Definition StartOrder_run (components : list Node) : option (res (list string)) :=
  if decide (length components < 2 \/ 16 < length components)%nat
  then Some (Err (ErrMsg "component count outside policy"))
  else match index_components components ∅ [] with
       | Err e => Some (Err e)
       | Ok (byID, ids) =>
           match visit_all (visit byID (S (length components))) (sort_strings ids) (∅, []) with
           | Some (Ok (_, order)) => Some (Ok order)
           | Some (Err e) => Some (Err e)
           | None => None
           end
       end.

Definition StartOrder (components : list Node) : res (list string) :=
  default (Err (ErrMsg "out of fuel")) (StartOrder_run components).

(** ** [BuildTopology] *)

(** The in-place reversal of the stop order. *)
Fixpoint swap_loop (fuel : nat) (left right : nat) (l : list string) : list string :=
  match fuel with
  | O => l
  | S fuel =>
      if decide (left < right)%nat then
        match l !! left, l !! right with
        | Some x, Some y => swap_loop fuel (left + 1) (right - 1) (<[left := y]> (<[right := x]> l))
        | _, _ => l
        end
      else l
  end.

(** [byID[component.ID] = f component] for every component in turn. *)
Definition by_id {B} (f : Node -> B) (components : list Node) (m : gmap string B) : gmap string B :=
  foldl (fun m c => <[n_ID c := f c]> m) m components.

Definition sorted_dependencies (components : list Node) : gmap string (slice string) :=
  by_id (fun c => appended (sort_strings (n_DependsOn c))) components ∅.

Section build.
Context (sha256 : string -> string).

Definition BuildTopology (components : list Node) : res Topology :=
  rbind (StartOrder components) (fun order =>
    let byID := sorted_dependencies components in
    let entries := imap (fun ordinal id =>
      {| tc_ID := id; tc_DependsOn := default None (byID !! id);
         tc_Ordinal := Z.of_nat ordinal |}) order in
    Ok {| to_Components := entries; to_StartOrder := order;
          to_StopOrder := swap_loop (length order) 0 (length order - 1) order;
          to_Hash := sha256 (marshal (JObj [
            ("components", jarr TopologyComponent_json entries);
            ("start_order", jarr JStr order)])) |}).
End build.

(** ** The traversal *)
Section traversal.
Context (byID : gmap string Node).

Definition depends (x d : string) : Prop :=
  exists c, byID !! x = Some c /\ d ∈ n_DependsOn c.

(** A graph no order exists for: a cycle, or a dependency nobody declares. *)
Definition defective : Prop :=
  (exists x, tc depends x x) \/ (exists x d, depends x d /\ byID !! d = None).

(** Every component of an order is declared and its dependencies are earlier. *)
Definition dependency_first (order : list string) : Prop :=
  forall i x, order !! i = Some x ->
    exists c, byID !! x = Some c /\
      forall d, d ∈ n_DependsOn c -> exists j, (j < i)%nat /\ order !! j = Some d.

Record Inv (s : marks_t) : Prop := {
  inv_visited : forall x, s.1 !! x = Some Visited <-> x ∈ s.2;
  inv_nodup : NoDup s.2;
  inv_order : dependency_first s.2;
  inv_declared : dom s.1 ⊆ dom byID
}.

Record Grown (s s' : marks_t) : Prop := {
  gr_inv : Inv s';
  gr_stack : forall x, s'.1 !! x = Some Visiting <-> s.1 !! x = Some Visiting;
  gr_order : s.2 `prefix_of` s'.2;
  gr_dom : dom s.1 ⊆ dom s'.1
}.

Lemma Grown_refl s : Inv s -> Grown s s.
Proof. by split. Qed.

Lemma Grown_trans s1 s2 s3 : Grown s1 s2 -> Grown s2 s3 -> Grown s1 s3.
Proof.
  intros [] [Hi Hs Ho Hd]. split; [done| | by etrans | by etrans].
  intros x. by rewrite Hs.
Qed.

Definition unmarked (s : marks_t) : nat := size (dom byID ∖ dom s.1).

Lemma unmarked_mono s s' : dom s.1 ⊆ dom s'.1 -> (unmarked s' <= unmarked s)%nat.
Proof. unfold unmarked. intros H. apply subseteq_size. set_solver. Qed.

Lemma dependency_first_snoc order x c :
  dependency_first order -> byID !! x = Some c ->
  (forall d, d ∈ n_DependsOn c -> d ∈ order) -> dependency_first (order ++ [x]).
Proof.
  intros Ho Hx Hd i y Hi. apply lookup_app_Some in Hi as [Hi|[Hi Hy]].
  - destruct (Ho i y Hi) as (c' & ? & Hc'). exists c'. split; [done|].
    intros d (j & ? & Hj)%Hc'. exists j. split; [done|]. by apply lookup_app_l_Some.
  - apply list_lookup_singleton_Some in Hy as [Hz <-]. exists c. split; [done|].
    intros d (j & Hj)%Hd%list_elem_of_lookup_1. exists j.
    split; [apply lookup_lt_Some in Hj; lia|]. by apply lookup_app_l_Some.
Qed.

(** What a call promises: it never runs out of fuel, an error means that the
    graph is defective, and success puts the component into the order. *)
Definition outcome (s : marks_t) (l : list string) (r : option (res marks_t)) : Prop :=
  match r with
  | None => False
  | Some (Err _) => defective
  | Some (Ok s') => Grown s s' /\ forall x, x ∈ l -> x ∈ s'.2
  end.

Definition callable (fuel : nat) (s : marks_t) (id : string) : Prop :=
  (unmarked s < fuel)%nat /\ (forall x, s.1 !! x = Some Visiting -> tc depends x id) /\
  (byID !! id = None -> defective).

Lemma visit_all_outcome fuel l s :
  (forall id s, Inv s -> callable fuel s id -> outcome s [id] (visit byID fuel id s)) ->
  Inv s -> (forall id, id ∈ l -> callable fuel s id) ->
  outcome s l (visit_all (visit byID fuel) l s).
Proof.
  intros Hv. revert s. induction l as [|id l IH]; intros s Hs Hl; cbn.
  { split; [by apply Grown_refl|]. by intros x ?%elem_of_nil. }
  pose proof (Hv id s Hs (Hl id (list_elem_of_here _ _))) as H1.
  destruct (visit byID fuel id s) as [[s1|e]|]; cbn in *; [|done..].
  destruct H1 as [Hg Hin].
  assert (outcome s1 l (visit_all (visit byID fuel) l s1)) as H2.
  { apply IH; [apply Hg|]. intros x Hx.
    destruct (Hl x (list_elem_of_further _ _ _ Hx)) as (Hf & Hst & Hb). split_and!; [|by intros y Hy%Hg; apply Hst|done].
    pose proof (unmarked_mono _ _ (gr_dom _ _ Hg)). lia. }
  destruct (visit_all _ l s1) as [[s2|e]|]; cbn in *; [|done..].
  destruct H2 as [Hg2 Hin2]. split; [by eapply Grown_trans|].
  intros x [->|Hx]%elem_of_cons; [|by apply Hin2].
  eapply elem_of_prefix; [|apply Hg2]. apply Hin. apply list_elem_of_here.
Qed.

Lemma Inv_enter s id c : Inv s -> s.1 !! id = None -> byID !! id = Some c ->
  Inv (<[id := Visiting]> s.1, s.2).
Proof.
  intros [Hv Hn Ho Hd] Hid Hc. split; cbn; [|done|done|].
  - intros x. destruct (decide (x = id)) as [->|].
    + rewrite lookup_insert_eq. split; [done|]. intros Hx%Hv. congruence.
    + by rewrite lookup_insert_ne.
  - rewrite dom_insert. apply elem_of_dom_2 in Hc. set_solver.
Qed.

Lemma Grown_leave s s' id c : Inv s -> s.1 !! id = None -> byID !! id = Some c ->
  Grown (<[id := Visiting]> s.1, s.2) s' -> (forall d, d ∈ n_DependsOn c -> d ∈ s'.2) ->
  Grown s (<[id := Visited]> s'.1, s'.2 ++ [id]).
Proof.
  intros Hs Hid Hc [[Hv Hn Ho Hd] Hst Hp Hdom] Hdeps; cbn in *.
  assert (id ∉ s'.2) as Hfresh.
  { intros Hx%Hv. assert (s'.1 !! id = Some Visiting) by (apply Hst; by rewrite lookup_insert_eq).
    congruence. }
  split; cbn.
  - split; cbn.
    + intros x. rewrite elem_of_app, list_elem_of_singleton.
      destruct (decide (x = id)) as [->|]; [rewrite lookup_insert_eq; naive_solver|].
      rewrite lookup_insert_ne by done. rewrite Hv. naive_solver.
    + apply NoDup_app. split_and!; [done| |apply NoDup_singleton].
      intros x Hx ->%list_elem_of_singleton. done.
    + by eapply dependency_first_snoc.
    + rewrite dom_insert. apply elem_of_dom_2 in Hc. set_solver.
  - intros x. destruct (decide (x = id)) as [->|].
    + rewrite lookup_insert_eq. split; [done|congruence].
    + rewrite lookup_insert_ne by done. rewrite Hst. by rewrite lookup_insert_ne.
  - by apply prefix_app_r.
  - rewrite dom_insert in *. set_solver.
Qed.

Lemma visit_outcome fuel id s :
  Inv s -> callable fuel s id -> outcome s [id] (visit byID fuel id s).
Proof.
  revert id s. induction fuel as [|fuel IH]; intros id s Hs (Hf & Hst & Hb); [lia|]. cbn.
  destruct (s.1 !! id) as [[]|] eqn:Hid.
  - cbn. left. exists id. by apply Hst.
  - cbn. split; [by apply Grown_refl|]. intros x ->%list_elem_of_singleton. by apply Hs.
  - destruct (byID !! id) as [c|] eqn:Hc; [|by apply Hb].
    assert (outcome (<[id := Visiting]> s.1, s.2) (sort_strings (n_DependsOn c))
              (visit_all (visit byID fuel) (sort_strings (n_DependsOn c)) (<[id := Visiting]> s.1, s.2)))
      as H.
    { apply visit_all_outcome; [done|by eapply Inv_enter|]. intros d Hd.
      apply elem_of_sort_by in Hd. assert (depends id d) as He by (by exists c).
      split_and!.
      - unfold unmarked in *. cbn. rewrite dom_insert.
        assert (dom byID ∖ dom s.1 = {[id]} ∪ dom byID ∖ ({[id]} ∪ dom s.1)) as Heq.
        { apply set_eq. intros x. apply elem_of_dom_2 in Hc. apply not_elem_of_dom in Hid.
          destruct (decide (x = id)); set_solver. }
        rewrite Heq, size_union, size_singleton in Hf by set_solver. lia.
      - cbn. intros x Hx. destruct (decide (x = id)) as [->|]; [by apply tc_once|].
        rewrite lookup_insert_ne in Hx by done. eapply tc_r; [by apply Hst|done].
      - intros Hn. right. by exists id, d. }
    destruct (visit_all _ _ _) as [[[state order]|e]|]; cbn in *; [|done..].
    destruct H as [Hg Hin]. split.
    + apply (Grown_leave s (state, order) id c); try done.
      intros d Hd. apply Hin. by apply elem_of_sort_by.
    + intros x ->%list_elem_of_singleton. rewrite elem_of_app, list_elem_of_singleton. by right.
Qed.

(** An order with the dependencies first excludes both defects. *)
Lemma dependency_first_tc order x y i :
  dependency_first order -> tc depends x y -> order !! i = Some x ->
  exists j, (j < i)%nat /\ order !! j = Some y.
Proof.
  intros Ho Hxy. revert i. induction Hxy as [x y (c & Hc & Hd)|x y z (c & Hc & Hd) _ IH]; intros i Hi;
    destruct (Ho i x Hi) as (c' & Hc' & Hj); assert (c' = c) as -> by congruence;
    destruct (Hj _ Hd) as (j & ? & Hj'); [by exists j|].
  destruct (IH j Hj') as (k & ? & ?). exists k. split; [lia|done].
Qed.

Lemma dependency_first_sound order :
  NoDup order -> dependency_first order -> (forall x, x ∈ dom byID -> x ∈ order) -> ~ defective.
Proof.
  intros Hn Ho Hall [[x Hx]|(x & d & (c & Hc & Hd) & Hnone)].
  - assert (x ∈ order) as [i Hi]%list_elem_of_lookup_1.
    { apply Hall, elem_of_dom. inversion Hx as [? ? (c & Hc & _)|? ? ? (c & Hc & _) _]; by exists c. }
    destruct (dependency_first_tc order x x i Ho Hx Hi) as (j & Hj & Hj').
    rewrite (NoDup_lookup order j i x Hn Hj' Hi) in Hj. lia.
  - apply elem_of_dom_2 in Hc as Hx. apply Hall, list_elem_of_lookup_1 in Hx as [i Hi].
    destruct (Ho i x Hi) as (c' & Hc' & Hj). assert (c' = c) as -> by congruence.
    destruct (Hj d Hd) as (j & _ & Hj'). destruct (Ho j d Hj') as (? & ? & _). congruence.
Qed.
End traversal.

(** ** Whole graphs *)
Lemma lookup_by_id {B} (f : Node -> B) cs m x b : NoDup (n_ID <$> cs) ->
  by_id f cs m !! x = Some b <->
  (exists c, c ∈ cs /\ n_ID c = x /\ f c = b) \/ (x ∉ n_ID <$> cs /\ m !! x = Some b).
Proof.
  revert m. induction cs as [|c cs IH]; intros m Hn; cbn in *.
  { split; [right; split; [apply not_elem_of_nil|done]|].
    intros [(c & Hc%elem_of_nil & _)|[_ ?]]; done. }
  apply NoDup_cons in Hn as [Hc Hn]. unfold by_id in *. cbn. rewrite IH by done.
  setoid_rewrite elem_of_cons. rewrite lookup_insert_Some. split.
  - intros [(c' & ? & ? & ?)|(Hx & [[<- <-]|[? ?]])]; [left; by exists c'; eauto|left; exists c; eauto|].
    right. split; [|done]. naive_solver.
  - intros [(c' & [->|?] & <- & <-)|[Hx ?]]; [right; split; [done|by left]|left; by exists c'|].
    right. split; [naive_solver|]. right. naive_solver.
Qed.

Definition identified (cs : list Node) : Prop :=
  (forall c, c ∈ cs -> n_ID c <> "") /\ NoDup (n_ID <$> cs).

Lemma index_components_Ok cs m ids r :
  index_components cs m ids = Ok r <->
  (identified cs /\ forall c, c ∈ cs -> m !! n_ID c = None) /\
  r = (by_id id cs m, ids ++ (n_ID <$> cs)).
Proof.
  revert m ids. induction cs as [|c cs IH]; intros m ids; cbn.
  { rewrite app_nil_r. split; [|by intros [_ ->]]. intros [= <-]. split; [|done].
    split; [split|]; [by intros ? ?%elem_of_nil|constructor|by intros ? ?%elem_of_nil]. }
  unfold identified in *. cbn. rewrite NoDup_cons.
  case_decide as He.
  { split; [done|]. intros [[[H _] _] _]. destruct (H c (list_elem_of_here _ _) He). }
  destruct (m !! n_ID c) eqn:Hc.
  { split; [done|]. intros [[_ H] _]. specialize (H c (list_elem_of_here _ _)). congruence. }
  rewrite IH, <- (assoc_L app). cbn. unfold by_id. cbn. split.
  - intros [[[H1 H2] H3] ->]. split_and!; try done.
    + intros c' [->|Hin]%elem_of_cons; [done|by apply H1].
    + intros (c' & Heq & Hin)%list_elem_of_fmap. specialize (H3 c' Hin).
      rewrite <- Heq, lookup_insert_eq in H3. done.
    + intros c' [->|Hin]%elem_of_cons; [done|]. specialize (H3 c' Hin).
      by apply lookup_insert_None in H3 as [? _].
  - intros [[[H1 [H2 H2']] H3] ->]. split_and!; try done.
    + intros c' Hc'. apply H1. by apply list_elem_of_further.
    + intros c' Hc'. rewrite lookup_insert_ne; [apply H3; by apply list_elem_of_further|].
      intros Heq. apply H2. rewrite Heq. by apply list_elem_of_fmap_2.
Qed.

(** The edges of a component list. *)
Definition dep_edge (cs : list Node) (x d : string) : Prop :=
  exists c, c ∈ cs /\ n_ID c = x /\ d ∈ n_DependsOn c.

(** The lists [StartOrder] accepts, by their graph ([start_order_orderable]
    relates this to the existence of an order). *)
Record orderable (cs : list Node) : Prop := {
  or_count : (2 <= length cs <= 16)%nat;
  or_identified : identified cs;
  or_declared : forall x d, dep_edge cs x d -> d ∈ n_ID <$> cs;
  or_acyclic : forall x, ~ tc (dep_edge cs) x x
}.

Lemma lookup_index cs x c : NoDup (n_ID <$> cs) ->
  by_id id cs ∅ !! x = Some c <-> c ∈ cs /\ n_ID c = x.
Proof.
  intros H. rewrite (lookup_by_id _ _ _ _ _ H), lookup_empty. unfold id. naive_solver.
Qed.

Lemma depends_dep_edge cs x d : NoDup (n_ID <$> cs) -> depends (by_id id cs ∅) x d <-> dep_edge cs x d.
Proof. intros H. unfold depends, dep_edge. setoid_rewrite (lookup_index _ _ _ H). naive_solver. Qed.

Lemma declared_index cs x : NoDup (n_ID <$> cs) -> x ∈ dom (by_id id cs ∅) <-> x ∈ n_ID <$> cs.
Proof.
  intros H. rewrite elem_of_dom, list_elem_of_fmap. unfold is_Some. setoid_rewrite (lookup_index _ _ _ H). naive_solver.
Qed.

Lemma defective_orderable cs : (2 <= length cs <= 16)%nat -> identified cs ->
  ~ defective (by_id id cs ∅) <-> orderable cs.
Proof.
  intros Hlen Hid. pose proof (proj2 Hid) as Hn. unfold defective.
  assert (forall x y, tc (depends (by_id id cs ∅)) x y <-> tc (dep_edge cs) x y) as Htc.
  { assert (forall R R' : relation string, (forall x y, R x y -> R' x y) -> forall x y, tc R x y -> tc R' x y)
      as Hmono by (intros R R' HR x y; induction 1; eauto using tc_once, tc_l).
    intros x y. split; apply Hmono; intros ? ?; by rewrite depends_dep_edge. }
  setoid_rewrite Htc. setoid_rewrite (fun x d => depends_dep_edge cs x d Hn).
  setoid_rewrite <- not_elem_of_dom. setoid_rewrite (fun x => declared_index cs x Hn). split.
  - intros H. split; try done; [|naive_solver]. intros x d He.
    destruct (decide (d ∈ n_ID <$> cs)); [done|naive_solver].
  - intros [_ _ Hd Ha] [[x Hx]|(x & d & He & Hx)]; [by eapply Ha|]. apply Hx. by eapply Hd.
Qed.

(** The whole of [StartOrder]: it ends, an error means that no order exists,
    and an order lists every component once, dependencies first. *)
Lemma StartOrder_spec cs :
  match StartOrder_run cs with
  | None => False
  | Some (Err _) => ~ orderable cs
  | Some (Ok order) => orderable cs /\ order ≡ₚ n_ID <$> cs /\ dependency_first (by_id id cs ∅) order
  end.
Proof.
  unfold StartOrder_run. case_decide as Hlen; [intros [? _ _ _]; lia|].
  destruct (index_components cs ∅ []) as [[byID ids]|e] eqn:Hi.
  - apply index_components_Ok in Hi as [[Hid _] [= -> ->]]. cbn.
    set (byID := by_id id cs ∅). pose proof (proj2 Hid) as Hn.
    assert (outcome byID (∅, []) (sort_strings (n_ID <$> cs))
      (visit_all (visit byID (S (length cs))) (sort_strings (n_ID <$> cs)) (∅, []))) as H.
    { apply visit_all_outcome; [apply visit_outcome| |].
      - split; cbn; [|constructor|by intros i x|set_solver].
        intros x. rewrite lookup_empty. split; [done|by intros ?%elem_of_nil].
      - intros x Hx. apply elem_of_sort_by in Hx. split_and!.
        + unfold unmarked. cbn. rewrite dom_empty_L, difference_empty_L.
          assert (dom byID = list_to_set (n_ID <$> cs)) as ->.
          { apply set_eq. intros y. rewrite elem_of_list_to_set. by apply declared_index. }
          rewrite size_list_to_set, length_fmap by done. lia.
        + cbn. intros y. by rewrite lookup_empty.
        + intros Hnone. apply not_elem_of_dom in Hnone. by apply declared_index in Hx. }
    destruct (visit_all _ _ _) as [[[state order]|e]|]; cbn in H; [| |done].
    + destruct H as [[[Hv Hnd Ho Hdom] _ _ _] Hin]; cbn in *.
      assert (forall x, x ∈ n_ID <$> cs -> x ∈ order) as Hall.
      { intros x Hx. apply Hin. by apply elem_of_sort_by. }
      split_and!; [|apply NoDup_Permutation; try done|done].
      * apply defective_orderable; [lia|done|].
        eapply dependency_first_sound; try done. intros x Hx. apply Hall. by apply declared_index.
      * intros x. split; [|apply Hall]. intros Hx%Hv%elem_of_dom_2%Hdom. by apply declared_index.
    + intros Hor. by apply (defective_orderable cs (or_count _ Hor) (or_identified _ Hor)) in H.
  - intros Hor. assert (index_components cs ∅ [] = Ok (by_id id cs ∅, [] ++ (n_ID <$> cs))) as Heq.
    { apply index_components_Ok. split; [|done]. split; [apply Hor|]. intros c _. apply lookup_empty. }
    congruence.
Qed.

(** ** Serialization independence *)

(** The same component written with its dependencies in another order. *)
Definition like (a b : Node) : Prop := n_ID a = n_ID b /\ n_DependsOn a ≡ₚ n_DependsOn b.

(** The same graph: components and dependencies listed in any order. *)
Definition same_graph (cs1 cs2 : list Node) : Prop := exists cs, cs1 ≡ₚ cs /\ Forall2 like cs cs2.

Lemma same_graph_ids cs1 cs2 : same_graph cs1 cs2 -> n_ID <$> cs1 ≡ₚ n_ID <$> cs2.
Proof.
  intros (cs & HP & HF). rewrite HP. clear HP. induction HF as [|a b l1 l2 [Hid _] _ IH]; cbn; [done|].
  by rewrite Hid, IH.
Qed.

Lemma same_graph_length cs1 cs2 : same_graph cs1 cs2 -> length cs1 = length cs2.
Proof. intros H%same_graph_ids%Permutation_length. by rewrite !length_fmap in H. Qed.

Lemma same_graph_l cs1 cs2 a : same_graph cs1 cs2 -> a ∈ cs1 -> exists b, b ∈ cs2 /\ like a b.
Proof.
  intros (cs & HP & HF) Ha. rewrite HP in Ha. apply list_elem_of_lookup in Ha as [i Hi].
  destruct (Forall2_lookup_l _ _ _ _ _ HF Hi) as (b & Hb & ?). exists b.
  split; [by eapply list_elem_of_lookup_2|done].
Qed.

Lemma same_graph_r cs1 cs2 b : same_graph cs1 cs2 -> b ∈ cs2 -> exists a, a ∈ cs1 /\ like a b.
Proof.
  intros (cs & HP & HF) Hb. apply list_elem_of_lookup in Hb as [i Hi].
  destruct (Forall2_lookup_r _ _ _ _ _ HF Hi) as (a & Ha & ?). exists a.
  split; [rewrite HP; by eapply list_elem_of_lookup_2|done].
Qed.

Lemma same_graph_identified cs1 cs2 : same_graph cs1 cs2 -> identified cs1 -> identified cs2.
Proof.
  intros Hs [H1 H2]. split.
  - intros b (a & Ha & [Hid _])%(same_graph_r _ _ _ Hs). rewrite <- Hid. by apply H1.
  - by rewrite <- (same_graph_ids _ _ Hs).
Qed.

Lemma by_id_fmap {B C} (g : B -> C) (f : Node -> B) cs m :
  g <$> by_id f cs m = by_id (g ∘ f) cs (g <$> m).
Proof.
  revert m. induction cs as [|c cs IH]; intros m; cbn; [done|].
  unfold by_id in *. cbn. by rewrite IH, fmap_insert.
Qed.

Lemma by_id_same {B} (f : Node -> B) cs1 cs2 :
  (forall a b, like a b -> f a = f b) -> NoDup (n_ID <$> cs1) -> same_graph cs1 cs2 ->
  by_id f cs1 ∅ = by_id f cs2 ∅.
Proof.
  intros Hf Hn Hs. assert (NoDup (n_ID <$> cs2)) as Hn2 by (by rewrite <- (same_graph_ids _ _ Hs)).
  apply map_eq. intros x. apply option_eq. intros v.
  rewrite (lookup_by_id _ _ _ _ _ Hn), (lookup_by_id _ _ _ _ _ Hn2), lookup_empty. split.
  - intros [(a & Ha & <- & <-)|[_ ?]]; [|done].
    destruct (same_graph_l _ _ _ Hs Ha) as (b & Hb & Hab). left. exists b.
    split_and!; [done|symmetry; apply Hab|symmetry; by apply Hf].
  - intros [(b & Hb & <- & <-)|[_ ?]]; [|done].
    destruct (same_graph_r _ _ _ Hs Hb) as (a & Ha & Hab). left. exists a.
    split_and!; [done|apply Hab|by apply Hf].
Qed.

Lemma visit_all_ext f g l s : (forall x s, f x s = g x s) -> visit_all f l s = visit_all g l s.
Proof.
  intros Hfg. revert s. induction l as [|x l IH]; intros s; cbn; [done|].
  rewrite Hfg. destruct (g x s) as [[]|]; [by rewrite IH|done..].
Qed.

(** The traversal reads the graph through the sorted dependencies only. *)
Lemma visit_ext G1 G2 fuel id s :
  (sort_strings ∘ n_DependsOn) <$> G1 = (sort_strings ∘ n_DependsOn) <$> G2 ->
  visit G1 fuel id s = visit G2 fuel id s.
Proof.
  intros HG. revert id s. induction fuel as [|fuel IH]; intros id s; cbn; [done|].
  destruct (s.1 !! id) as [[]|]; [done..|].
  assert ((sort_strings ∘ n_DependsOn) <$> G1 !! id = (sort_strings ∘ n_DependsOn) <$> G2 !! id) as H
    by (by rewrite <- !lookup_fmap, HG).
  destruct (G1 !! id), (G2 !! id); cbn in H; simplify_eq; [|done].
  rewrite H. by erewrite visit_all_ext.
Qed.

Lemma StartOrder_canonical cs1 cs2 order :
  same_graph cs1 cs2 -> StartOrder cs1 = Ok order -> StartOrder cs2 = Ok order.
Proof.
  unfold StartOrder, StartOrder_run. intros Hs. rewrite <- (same_graph_length _ _ Hs).
  case_decide; [done|]. destruct (index_components cs1 ∅ []) as [r|e] eqn:Hi; [|done].
  apply index_components_Ok in Hi as [[Hid _] ->]. intros Ho.
  rewrite (proj2 (index_components_Ok cs2 ∅ [] (by_id id cs2 ∅, [] ++ (n_ID <$> cs2)))); cycle 1.
  { split; [split; [by eapply same_graph_identified|by intros; apply lookup_empty]|done]. }
  rewrite app_nil_l in *. cbv beta iota in *. rewrite <- (sort_strings_perm _ _ (same_graph_ids _ _ Hs)).
  erewrite visit_all_ext; [done|]. intros x s. apply visit_ext.
  rewrite !by_id_fmap, !fmap_empty. symmetry. apply by_id_same; [|apply Hid|done].
  intros a b [_ HP]. cbn. by apply sort_strings_perm.
Qed.

Lemma sorted_dependencies_same cs1 cs2 : NoDup (n_ID <$> cs1) -> same_graph cs1 cs2 ->
  sorted_dependencies cs1 = sorted_dependencies cs2.
Proof.
  intros. apply by_id_same; [|done..]. intros a b [_ HP]. by rewrite (sort_strings_perm _ _ HP).
Qed.

(** ** The stop order *)
Lemma swap_loop_lookup fuel left right l i :
  (right <= left + 2 * fuel)%nat -> (right < length l)%nat ->
  swap_loop fuel left right l !! i =
  if decide (left <= i <= right)%nat then l !! (left + right - i)%nat else l !! i.
Proof.
  revert left right l. induction fuel as [|fuel IH]; intros left right l Hf Hl; cbn.
  { case_decide; [|done]. f_equal. lia. }
  case_decide as Hlt; [|case_decide; [f_equal; lia|done]].
  destruct (lookup_lt_is_Some_2 l left) as [x Hx]; [lia|].
  destruct (lookup_lt_is_Some_2 l right) as [y Hy]; [lia|]. rewrite Hx, Hy.
  rewrite IH by (rewrite ?length_insert; lia).
  replace (left + 1 + (right - 1))%nat with (left + right)%nat by lia.
  destruct (decide (i = left)) as [->|]; [|destruct (decide (i = right)) as [->|]].
  - rewrite (decide_False (P := (left + 1 <= _ <= _)%nat)), list_lookup_insert_eq by (rewrite ?length_insert; lia).
    rewrite decide_True by lia. rewrite <- Hy. f_equal. lia.
  - rewrite (decide_False (P := (left + 1 <= _ <= _)%nat)), list_lookup_insert_ne, list_lookup_insert_eq by lia.
    rewrite decide_True by lia. rewrite <- Hx. f_equal. lia.
  - repeat case_decide; try lia; by rewrite !list_lookup_insert_ne by lia.
Qed.

Lemma stop_order_reverse l : swap_loop (length l) 0 (length l - 1) l = reverse l.
Proof.
  destruct (decide (length l = 0)%nat) as [->%nil_length_inv|Hne]; [done|].
  apply list_eq. intros i. rewrite swap_loop_lookup by lia. case_decide.
  - rewrite reverse_lookup by lia. f_equal. lia.
  - rewrite !lookup_ge_None_2 by (rewrite ?length_reverse; lia). done.
Qed.

(** ** Start orders *)

(** The lists [StartOrder] looks at: 2 to 16 components with identities. *)
Definition policy_admits (cs : list Node) : Prop := (2 <= length cs <= 16)%nat /\ identified cs.

(** A dependency-first order: every component once, after what it needs. *)
Definition start_order_of (cs : list Node) (order : list string) : Prop :=
  order ≡ₚ n_ID <$> cs /\
  forall c d, c ∈ cs -> d ∈ n_DependsOn c ->
    exists i j, order !! i = Some (n_ID c) /\ order !! j = Some d /\ (j < i)%nat.

Lemma identified_inj cs c c' : NoDup (n_ID <$> cs) -> c ∈ cs -> c' ∈ cs -> n_ID c' = n_ID c -> c' = c.
Proof.
  intros Hn [k Hk]%list_elem_of_lookup [k' Hk']%list_elem_of_lookup Hid.
  assert (k' = k) as ->; [|congruence].
  apply (NoDup_lookup (n_ID <$> cs) k' k (n_ID c) Hn); rewrite list_lookup_fmap.
  - rewrite Hk'. cbn. by rewrite Hid.
  - by rewrite Hk.
Qed.

Lemma start_order_of_intro cs order : identified cs -> order ≡ₚ n_ID <$> cs ->
  dependency_first (by_id id cs ∅) order -> start_order_of cs order.
Proof.
  intros [_ Hn] HP Ho. split; [done|]. intros c d Hc Hd.
  assert (n_ID c ∈ order) as [i Hi]%list_elem_of_lookup by (rewrite HP; by apply list_elem_of_fmap_2).
  destruct (Ho i _ Hi) as (c' & Hc' & Hj). apply lookup_index in Hc' as [Hc' Hid]; [|done].
  rewrite (identified_inj cs c c') in Hj by done. destruct (Hj d Hd) as (j & ? & ?). by exists i, j.
Qed.

(** Only an acyclic graph with declared dependencies has such an order. *)
Lemma start_order_orderable cs order : policy_admits cs -> start_order_of cs order -> orderable cs.
Proof.
  intros [Hlen Hid] [HP Ho]. pose proof (proj2 Hid) as Hn. apply defective_orderable; [done..|].
  apply (dependency_first_sound _ order); [by rewrite HP| |].
  - intros i x Hi. assert (x ∈ n_ID <$> cs) as (c & -> & Hc)%list_elem_of_fmap
      by (rewrite <- HP; by eapply list_elem_of_lookup_2).
    exists c. split; [by apply lookup_index|]. intros d Hd. destruct (Ho c d Hc Hd) as (i' & j & Hi' & Hj & Hlt).
    assert (i' = i) as -> by (eapply (NoDup_lookup order); [by rewrite HP|done..]). by exists j.
  - intros x Hx. rewrite HP. by apply declared_index.
Qed.

Module TopologyProps.

Definition looped : list Node :=
  [{| n_ID := "a"; n_DependsOn := ["b"] |}; {| n_ID := "b"; n_DependsOn := ["a"] |}].
Definition web3 : list Node :=
  [{| n_ID := "web"; n_DependsOn := ["db"; "cache"] |}; {| n_ID := "db"; n_DependsOn := [] |};
   {| n_ID := "cache"; n_DependsOn := [] |}].
Definition web3' : list Node :=
  [{| n_ID := "cache"; n_DependsOn := [] |}; {| n_ID := "web"; n_DependsOn := ["cache"; "db"] |};
   {| n_ID := "db"; n_DependsOn := [] |}].

(** C39. [StartOrder] ends within the fuel its component count gives.  It answers
    with an order that lists every component exactly once and every dependency
    before its dependents, or with an error; and an error means that the list
    is refused as such (it has fewer than 2 or more than 16 components, or an
    identity is empty or repeated) or that no such order of it exists. *)
Theorem start_order_decides (cs : list Node) :
  exists r, StartOrder_run cs = Some r /\ StartOrder cs = r /\
  match r with
  | Ok order => policy_admits cs /\ start_order_of cs order
  | Err _ => policy_admits cs -> forall order, ~ start_order_of cs order
  end.
Proof.
  pose proof (StartOrder_spec cs) as H. unfold StartOrder.
  destruct (StartOrder_run cs) as [r|]; [|done]. exists r. split_and!; [done..|].
  destruct r as [order|e].
  - destruct H as ([Hlen Hid _ _] & HP & Ho). split; [done|]. by apply start_order_of_intro.
  - intros Hp order Ho. by eapply H, start_order_orderable.
Qed.

Lemma start_order_decides_witness :
  start_order_of web3 ["cache"; "db"; "web"] /\
  (forall order, ~ start_order_of looped order).
Proof.
  split.
  - destruct (start_order_decides web3) as (r & Hr & _ & H). vm_compute in Hr.
    injection Hr as <-. exact (proj2 H).
  - destruct (start_order_decides looped) as (r & Hr & _ & H). vm_compute in Hr.
    injection Hr as <-. apply H. split; [cbn; lia|]. split.
    + intros c Hc. destruct (list_elem_of_In looped c) as [Hin _]. destruct (Hin Hc) as [<-|[<-|[]]]; discriminate.
    + vm_compute. apply (bool_decide_unpack (NoDup ["a"; "b"])). vm_compute. exact I.
Defined.

(** The persisted topology lists the components in start order
    with their ordinals and sorted dependencies, and its stop order is the
    start order reversed. *)
Theorem topology_exact (sha256 : string -> string) (cs : list Node) (t : Topology)
    (Hok : BuildTopology sha256 cs = Ok t) :
  StartOrder cs = Ok (to_StartOrder t) /\ to_StopOrder t = reverse (to_StartOrder t) /\
  tc_ID <$> to_Components t = to_StartOrder t /\
  forall i e, to_Components t !! i = Some e ->
    tc_Ordinal e = Z.of_nat i /\
    exists c, c ∈ cs /\ n_ID c = tc_ID e /\ items (tc_DependsOn e) = sort_strings (n_DependsOn c).
Proof.
  unfold BuildTopology in Hok. destruct (StartOrder cs) as [order|e] eqn:Ho; cbn in Hok; [|done].
  injection Hok as <-. cbn. split_and!; [done|apply stop_order_reverse| |].
  - apply list_eq. intros i. rewrite list_lookup_fmap, list_lookup_imap. by destruct (order !! i).
  - intros i e He. rewrite list_lookup_imap in He. destruct (order !! i) as [x|] eqn:Hx; [|done].
    cbn in He. injection He as <-. cbn. split; [done|].
    pose proof (StartOrder_spec cs) as H. unfold StartOrder in Ho.
    destruct (StartOrder_run cs) as [r|]; [|done]. cbn in Ho. subst r.
    destruct H as ([_ [_ Hn] _ _] & HP & _).
    assert (x ∈ n_ID <$> cs) as (c & -> & Hc)%list_elem_of_fmap
      by (rewrite <- HP; by eapply list_elem_of_lookup_2).
    exists c. split_and!; [done..|].
    unfold sorted_dependencies. rewrite (proj2 (lookup_by_id _ cs ∅ (n_ID c) (appended (sort_strings (n_DependsOn c))) Hn)) by eauto.
    cbn. by destruct (sort_strings (n_DependsOn c)).
Qed.

Lemma topology_exact_witness :
  exists t, BuildTopology (fun s => s) web3 = Ok t /\ to_StopOrder t = reverse (to_StartOrder t).
Proof.
  destruct (BuildTopology (fun s => s) web3) as [t|e] eqn:Hok; [|vm_compute in Hok; discriminate Hok].
  exists t. split; [reflexivity|]. exact (proj1 (proj2 (topology_exact (fun s => s) web3 t Hok))).
Defined.

(** Two descriptions of the same graph, with components
    and dependencies listed in any order, have the same topology, hash
    included. *)
Theorem topology_canonical (sha256 : string -> string) (cs1 cs2 : list Node) (t : Topology)
    (Hsame : same_graph cs1 cs2) (Hok : BuildTopology sha256 cs1 = Ok t) :
  BuildTopology sha256 cs2 = Ok t.
Proof.
  unfold BuildTopology in *. destruct (StartOrder cs1) as [order|e] eqn:Ho; cbn in Hok; [|done].
  rewrite (StartOrder_canonical _ _ _ Hsame Ho). cbn. rewrite <- Hok.
  pose proof (StartOrder_spec cs1) as H. unfold StartOrder in Ho.
  destruct (StartOrder_run cs1) as [r|]; [|done]. cbn in Ho. subst r.
  destruct H as ([_ [_ Hn] _ _] & _). by rewrite (sorted_dependencies_same _ _ Hn Hsame).
Qed.

Lemma topology_canonical_witness :
  exists t, BuildTopology (fun s => s) web3 = Ok t /\ BuildTopology (fun s => s) web3' = Ok t.
Proof.
  destruct (BuildTopology (fun s => s) web3) as [t|e] eqn:Hok; [|vm_compute in Hok; discriminate Hok].
  exists t. split; [reflexivity|]. apply (topology_canonical (fun s => s) web3 web3' t); [|exact Hok].
  exists [{| n_ID := "cache"; n_DependsOn := [] |}; {| n_ID := "web"; n_DependsOn := ["db"; "cache"] |};
          {| n_ID := "db"; n_DependsOn := [] |}]. split.
  - unfold web3. apply (Permutation_app_comm [_; _] [_]).
  - repeat constructor.
Defined.

End TopologyProps.
