(* ===== verification/LifecycleStore.v ===== *)
(** * Runtime generations in the database ([lifecycle/model.go], [store.go])

    The records of one installation's runtime generations and the
    transactions that move them: preparation of a candidate, its observed
    network and container, the commit that makes it active, failure, cleanup
    and the two forward recoveries after a restart.

    [now] is the formatted clock reading of the call. *)

From S2P Require Import Prelude Protocol Exposure HelperDB Coordinator Containers.
From stdpp Require Import base gmap strings list sorting.
From Stdlib Require Import ZArith Lia.

Open Scope Z_scope.

(** ** Data ([model.go]) *)
Definition PhaseBeforePull : string := "before_pull".
Definition PhaseAfterPull : string := "after_pull".
Definition PhaseBeforeNetwork : string := "before_candidate_network".
Definition PhaseAfterNetwork : string := "after_candidate_network".
Definition PhaseBeforeContainer : string := "before_candidate_container".
Definition PhaseAfterContainer : string := "after_candidate_container".
Definition PhaseBeforeOldStop : string := "before_old_stop".
Definition PhaseAfterOldStop : string := "after_old_stop".
Definition PhaseBeforeCandidateStart : string := "before_candidate_start".
Definition PhaseAfterCandidateStart : string := "after_candidate_start".
Definition PhaseBeforeVerification : string := "before_runtime_verification".
Definition PhaseAfterVerification : string := "after_runtime_verification".
Definition PhaseBeforeCommit : string := "before_generation_commit".
Definition PhaseAfterCommit : string := "after_generation_commit".
Definition PhaseCleanup : string := "old_generation_cleanup".

Record Plan : Type := {
  p_OperationID : string;
  p_InstallationID : string;
  p_ApplicationID : string;
  p_ReleaseID : string;
  p_Generation : Z;
  p_ExpectedGeneration : Z;
  p_FencingToken : Z;
  p_Image : string;
  p_NetworkName : string;
  p_ContainerName : string;
  p_PlanHash : string;
  p_DataPath : string;
  p_Bindings : list ServiceBinding;
  p_Container : ContainerPlan;
  p_RollbackSafe : bool;
  p_AllowMissingActive : bool
}.

#[export] Instance Plan_eta : Eta Plan :=
  fun r => Build_Plan (p_OperationID r) (p_InstallationID r) (p_ApplicationID r) (p_ReleaseID r)
    (p_Generation r) (p_ExpectedGeneration r) (p_FencingToken r) (p_Image r) (p_NetworkName r)
    (p_ContainerName r) (p_PlanHash r) (p_DataPath r) (p_Bindings r) (p_Container r)
    (p_RollbackSafe r) (p_AllowMissingActive r).
#[export] Instance set_p_Container : Setter p_Container := ltac:(mk_setter).

Record Component : Type := {
  cm_ID : string;
  cm_ContainerName : string;
  cm_ContainerID : string;
  cm_Image : string;
  cm_ImageID : string;
  cm_ConfigurationHash : string;
  cm_State : string;
  cm_DependsOn : list string;
  cm_StartOrdinal : Z
}.

#[export] Instance Component_eta : Eta Component :=
  fun r => Build_Component (cm_ID r) (cm_ContainerName r) (cm_ContainerID r) (cm_Image r)
    (cm_ImageID r) (cm_ConfigurationHash r) (cm_State r) (cm_DependsOn r) (cm_StartOrdinal r).
#[export] Instance set_cm_ImageID : Setter cm_ImageID := ltac:(mk_setter).
#[export] Instance set_cm_ConfigurationHash : Setter cm_ConfigurationHash := ltac:(mk_setter).
#[export] Instance set_cm_ContainerID : Setter cm_ContainerID := ltac:(mk_setter).
#[export] Instance set_cm_State : Setter cm_State := ltac:(mk_setter).

Definition zero_component : Component :=
  {| cm_ID := ""; cm_ContainerName := ""; cm_ContainerID := ""; cm_Image := ""; cm_ImageID := "";
     cm_ConfigurationHash := ""; cm_State := ""; cm_DependsOn := []; cm_StartOrdinal := 0 |}.

Record Generation : Type := {
  gn_InstallationID : string;
  gn_CreatingOperationID : string;
  gn_ApplicationID : string;
  gn_ReleaseID : string;
  gn_Generation : Z;
  gn_Status : string;
  gn_NetworkName : string;
  gn_NetworkID : string;
  gn_PlanHash : string;
  gn_DataPath : string;
  gn_Bindings : list ServiceBinding;
  gn_CleanupState : string;
  gn_Component : Component
}.

#[export] Instance Generation_eta : Eta Generation :=
  fun r => Build_Generation (gn_InstallationID r) (gn_CreatingOperationID r) (gn_ApplicationID r)
    (gn_ReleaseID r) (gn_Generation r) (gn_Status r) (gn_NetworkName r) (gn_NetworkID r)
    (gn_PlanHash r) (gn_DataPath r) (gn_Bindings r) (gn_CleanupState r) (gn_Component r).
#[export] Instance set_gn_Status : Setter gn_Status := ltac:(mk_setter).
#[export] Instance set_gn_NetworkID : Setter gn_NetworkID := ltac:(mk_setter).
#[export] Instance set_gn_Bindings : Setter gn_Bindings := ltac:(mk_setter).
#[export] Instance set_gn_Component : Setter gn_Component := ltac:(mk_setter).

(** The zero value [Generation{}]: no prior runtime. *)
Definition zero_generation : Generation :=
  {| gn_InstallationID := ""; gn_CreatingOperationID := ""; gn_ApplicationID := "";
     gn_ReleaseID := ""; gn_Generation := 0; gn_Status := ""; gn_NetworkName := "";
     gn_NetworkID := ""; gn_PlanHash := ""; gn_DataPath := ""; gn_Bindings := [];
     gn_CleanupState := ""; gn_Component := zero_component |}.

Record Result : Type := {
  re_Generation : Z;
  re_ReleaseID : string;
  re_RuntimeState : string;
  re_ContainerName : string;
  re_ContainerID : string;
  re_NetworkName : string;
  re_Bindings : list ServiceBinding;
  re_CleanupDeferred : bool;
  re_Components : gmap string string
}.

#[export] Instance Result_eta : Eta Result :=
  fun r => Build_Result (re_Generation r) (re_ReleaseID r) (re_RuntimeState r)
    (re_ContainerName r) (re_ContainerID r) (re_NetworkName r) (re_Bindings r)
    (re_CleanupDeferred r) (re_Components r).
#[export] Instance set_re_CleanupDeferred : Setter re_CleanupDeferred := ltac:(mk_setter).
#[export] Instance set_re_Components : Setter re_Components := ltac:(mk_setter).

Definition zero_result : Result :=
  {| re_Generation := 0; re_ReleaseID := ""; re_RuntimeState := ""; re_ContainerName := "";
     re_ContainerID := ""; re_NetworkName := ""; re_Bindings := []; re_CleanupDeferred := false;
     re_Components := ∅ |}.

Definition ServiceBinding_json (b : ServiceBinding) : json :=
  JObj (concat [freq "service_id" (JStr (ServiceID b)); freq "transport" (JStr (Transport b));
    freq "container_port" (JNum (ContainerPort b)); freq "mode" (JStr (Mode b));
    fopt "host_address" (JStr (HostAddress b)); fopt "host_port" (JNum (HostPort b))]).

Definition Result_json (r : Result) : json :=
  JObj (concat [freq "runtime_generation" (JNum (re_Generation r));
    freq "release_id" (JStr (re_ReleaseID r)); freq "runtime_state" (JStr (re_RuntimeState r));
    freq "container" (JStr (re_ContainerName r)); freq "container_id" (JStr (re_ContainerID r));
    freq "network" (JStr (re_NetworkName r));
    fopt "bindings" (jarr ServiceBinding_json (re_Bindings r));
    fopt "cleanup_deferred" (JBool (re_CleanupDeferred r));
    fopt "components" (jmap JStr (Some (re_Components r)))]).

(** ** Queries *)

(** The components of a generation.  Statements that read one of them without
    an [ORDER BY] see them in the order of their key. *)
Definition components_of (k : string * Z) (d : db) : list (string * compRow) :=
  sort_by fst (map (fun kc => (kc.1.2, kc.2)) (select (fun kc _ => kc.1 = k) (db_comps d))).

(** [SELECT ... FROM runtime_generation_bindings ... ORDER BY service_id] *)
Definition loadBindings (k : string * Z) (d : db) : list ServiceBinding :=
  sort_by ServiceID (map snd (select (fun kb _ => kb.1 = k) (db_binds d))).

(** One row of [generationSelect]. *)
Definition scanGeneration (k : string * Z) (g : genRow) (cid : string) (c : compRow) : Generation :=
  {| gn_InstallationID := k.1; gn_CreatingOperationID := g_operation g;
     gn_ApplicationID := g_application g; gn_ReleaseID := g_release g; gn_Generation := k.2;
     gn_Status := gen_status_text (g_status g); gn_NetworkName := g_network_name g;
     gn_NetworkID := g_network_id g; gn_PlanHash := g_plan_hash g; gn_DataPath := g_data_path g;
     gn_Bindings := []; gn_CleanupState := cleanup_text (g_cleanup g);
     gn_Component := {| cm_ID := cid; cm_ContainerName := c_container_name c;
       cm_ContainerID := c_container_id c; cm_Image := c_image c; cm_ImageID := c_image_id c;
       cm_ConfigurationHash := c_config_hash c; cm_State := comp_state_text (c_state c);
       cm_DependsOn := []; cm_StartOrdinal := 0 |} |}.

(** [generationSelect WHERE P]: generations joined with their components. *)
Definition generationSelect (P : string * Z -> genRow -> Prop) `{!forall k r, Decision (P k r)}
    (d : db) : list Generation :=
  flat_map (fun kg => map (fun cc => scanGeneration kg.1 kg.2 cc.1 cc.2) (components_of kg.1 d))
    (select P (db_gens d)).

Definition with_bindings (g : Generation) (d : db) : Generation :=
  g <| gn_Bindings := loadBindings (gn_InstallationID g, gn_Generation g) d |>.

(** The [ORDER BY] of [Current]: active, then verification required, then
    removed; the highest generation first. *)
Definition current_rank (g : Generation) : Z :=
  if decide (gn_Status g = "active") then 0
  else if decide (gn_Status g = "verification_required") then 1 else 2.

Definition current_le (g1 g2 : Generation) : Prop :=
  current_rank g1 < current_rank g2 \/
  (current_rank g1 = current_rank g2 /\ gn_Generation g2 <= gn_Generation g1).

Definition newest_le (g1 g2 : Generation) : Prop := gn_Generation g2 <= gn_Generation g1.
Definition oldest_le (g1 g2 : Generation) : Prop := gn_Generation g1 <= gn_Generation g2.

#[export] Instance current_le_dec g1 g2 : Decision (current_le g1 g2).
Proof. unfold current_le. apply _. Defined.
#[export] Instance newest_le_dec g1 g2 : Decision (newest_le g1 g2).
Proof. unfold newest_le. apply _. Defined.
#[export] Instance oldest_le_dec g1 g2 : Decision (oldest_le g1 g2).
Proof. unfold oldest_le. apply _. Defined.

Definition is_current (s : gen_status_t) : Prop :=
  s = GenActive \/ s = GenVerificationRequired \/ s = GenRemoved.
#[export] Instance is_current_dec s : Decision (is_current s).
Proof. unfold is_current. apply _. Defined.

Definition Current (installation : string) : tx db Generation :=
  let* g := trow (fun d => head (merge_sort current_le
              (generationSelect (fun k r => k.1 = installation /\ is_current (g_status r)) d))) in
  let* d := tget in tret (with_bindings g d).

Definition ByOperation (operationID : string) : tx db Generation :=
  let* g := trow (fun d => head (merge_sort newest_le
              (generationSelect (fun _ r => g_operation r = operationID) d))) in
  let* d := tget in tret (with_bindings g d).

(** The row a target retry goes back to ([loadAndVerifyActive]). *)
Definition removed_generation (installation : string) (generation : Z) : tx db Generation :=
  trow (fun d => head (generationSelect (fun k r => k = (installation, generation) /\
    g_status r = GenRemoved /\ g_cleanup r = CleanupClean) d)).

Definition awaits_cleanup (r : genRow) : Prop :=
  g_status r = GenRetained \/ g_status r = GenCleanupPending \/
  (g_status r = GenFailed /\ g_cleanup r = CleanupPending).
#[export] Instance awaits_cleanup_dec r : Decision (awaits_cleanup r).
Proof. unfold awaits_cleanup. apply _. Defined.

Definition OlderRetained (installation : string) (keepGeneration : Z) : tx db (list Generation) :=
  let* d := tget in
  tret (map (fun g => with_bindings g d) (merge_sort oldest_le
    (generationSelect (fun k r => k.1 = installation /\ awaits_cleanup r /\
                                  k.2 <> keepGeneration) d))).

(** [SELECT runtime_generation ... WHERE status='active'] *)
Definition active_generation (installation : string) (d : db) : option Z :=
  head (map (fun kr => kr.1.2)
    (select (fun k r => k.1 = installation /\ g_status r = GenActive) (db_gens d))).

(** [SELECT COALESCE(MAX(runtime_generation),0) ... WHERE status='removed'] *)
Definition max_removed (installation : string) (d : db) : Z :=
  match map (fun kr => kr.1.2)
    (select (fun k r => k.1 = installation /\ g_status r = GenRemoved) (db_gens d)) with
  | [] => 0
  | x :: l => foldr Z.max x l
  end.

(** ** Transactions *)

(** [multi_store.go]; [Commit] repeats the same query and test in line. *)
Definition verifyGenerationFence (installation operation : string) (token : Z) : tx db unit :=
  let* l := get_lease installation in
  let* o := get_op (ls_operation l) in
  let* operationToken := scan_token o in
  tassert (ls_operation l = operation /\ ls_state l = LeaseHeld /\ ls_token l = token /\
           operationToken = token) "stale fencing token cannot commit generation".

Definition tforeach {A} (f : A -> tx db unit) (l : list A) : tx db unit :=
  foldr (fun x k => do* f x in k) (tret tt) l.

Definition replaceBindings (k : string * Z) (bindings : list ServiceBinding) : tx db unit :=
  do* tassert (Z.of_nat (length bindings) <= MaxBindings) "too many service bindings" in
  do* delete_bindings k in
  tforeach (insert_binding k) (Normalize bindings).

(** The generation row a migration derives from an ownership record. *)
Definition legacy_gen (o : ownRow) (status : gen_status_t) (cleanup : cleanup_state_t) : genRow :=
  {| g_operation := "legacy-migration"; g_application := ow_application o;
     g_release := ow_release o; g_status := status; g_network_name := ow_network_name o;
     g_network_id := ""; g_plan_hash := ""; g_topology_hash := ""; g_data_path := ow_data_path o;
     g_exposure_mode := ow_exposure_mode o; g_service_id := ow_service_id o;
     g_host_address := ow_host_address o; g_host_port := ow_host_port o;
     g_container_port := ow_container_port o; g_service_protocol := ow_service_protocol o;
     g_created_at := ow_created_at o; g_verified_at := None; g_committed_at := None;
     g_retired_at := None; g_cleanup := cleanup |}.

Definition legacy_comp (o : ownRow) (state : comp_state_t) : compRow :=
  {| c_container_name := ow_container_name o; c_container_id := ow_container_id o;
     c_image := ow_image o; c_image_id := ""; c_config_hash := ""; c_state := state;
     c_depends_on := []; c_ordinal := 0; c_created_at := ow_created_at o;
     c_started_at := None; c_verified_at := None |}.

Definition legacy_binding (o : ownRow) : ServiceBinding :=
  {| ServiceID := ow_service_id o;
     Transport := if decide (ow_service_protocol o = "udp") then UDP else TCP;
     ContainerPort := ow_container_port o; Mode := ow_exposure_mode o;
     HostAddress := ow_host_address o; HostPort := ow_host_port o |}.

Definition twhen (P : Prop) `{!Decision P} (m : tx db unit) : tx db unit :=
  if decide P then m else tret tt.

Definition BackfillInstallation (installation : string) : tx db unit :=
  let* d := tget in
  match db_ownership d !! installation with
  | None => tret tt
  | Some o =>
      let k := (installation, ow_generation o) in
      do* twhen (0 < ow_generation o /\ ow_container_id o <> "")
            (insert_gen_ignore k (legacy_gen o GenVerificationRequired CleanupNotRequired)) in
      do* twhen (0 < ow_generation o /\ ow_container_id o <> "")
            (insert_comp_ignore (k, "app") (legacy_comp o CompUnknown)) in
      do* twhen (0 < ow_generation o /\ ow_container_id o = "")
            (insert_gen_ignore k (legacy_gen o GenRemoved CleanupClean)) in
      do* twhen (0 < ow_generation o /\ ow_container_id o = "")
            (insert_comp_ignore (k, "app") (legacy_comp o CompRemoved)) in
      twhen (ow_service_id o <> "" /\ 1 <= ow_container_port o <= 65535)
        (insert_binding_ignore k (legacy_binding o))
  end.

Definition RecordMigratedConfiguration (installation : string) (generation : Z)
    (configurationHash : string) : tx db unit :=
  do* tassert (configurationHash <> "") "migrated configuration hash is required" in
  let* d := tget in
  let unverified := match db_gens d !! (installation, generation) with
    | Some g => bool_decide (g_status g = GenVerificationRequired /\ g_topology_hash g = "")
    | None => false end in
  let* changed := update_comps (fun k r => k = ((installation, generation), "app") /\
                                           c_config_hash r = "" /\ unverified = true)
        (fun r => r <| c_config_hash := configurationHash |>) in
  tassert (changed = 1%nat) "migrated configuration expectation is not recordable".

Definition PromoteMigratedState (generation : Generation) (networkID imageID configurationHash : string)
    (runtimeState : comp_state_t) (operationID : string) (token : Z) (now : string) : tx db unit :=
  let k := (gn_InstallationID generation, gn_Generation generation) in
  do* twhen (operationID <> "")
        (verifyGenerationFence (gn_InstallationID generation) operationID token) in
  let* changed := update_gens (fun k' r => k' = k /\ g_status r = GenVerificationRequired)
        (fun r => r <| g_status := GenActive |> <| g_network_id := networkID |>
           <| g_verified_at := Some now |> <| g_committed_at := Some now |>
           <| g_cleanup := CleanupClean |>) in
  do* tassert (changed = 1%nat) "migrated generation is not promotable" in
  do* update_comps (fun k' _ => k' = (k, "app"))
        (fun r => r <| c_image_id := imageID |> <| c_config_hash := configurationHash |>
           <| c_state := runtimeState |> <| c_verified_at := Some now |>) in
  tret tt.

Definition PromoteMigrated (generation : Generation) (networkID imageID configurationHash now : string)
    : tx db unit :=
  PromoteMigratedState generation networkID imageID configurationHash CompRunning "" 0 now.

Definition MarkActiveRemoved (installation : string) (generation : Z) (operationID : string)
    (token : Z) : tx db unit :=
  do* verifyGenerationFence installation operationID token in
  let* changed := update_gens (fun k r => k = (installation, generation) /\ g_status r = GenActive)
        (fun r => r <| g_status := GenRemoved |> <| g_cleanup := CleanupClean |>) in
  do* tassert (changed = 1%nat) "active runtime removal transition lost" in
  do* update_comps (fun k _ => k.1 = (installation, generation))
        (fun r => r <| c_state := CompRemoved |>) in
  tret tt.

Definition plan_key (plan : Plan) : string * Z := (p_InstallationID plan, p_Generation plan).

(** The rows [Prepare] writes: as a new row, or over a cleaned-up one. *)
Definition prepared_gen (plan : Plan) (now : string) : genRow :=
  {| g_operation := p_OperationID plan; g_application := p_ApplicationID plan;
     g_release := p_ReleaseID plan; g_status := GenPrepared; g_network_name := p_NetworkName plan;
     g_network_id := ""; g_plan_hash := p_PlanHash plan; g_topology_hash := "";
     g_data_path := p_DataPath plan; g_exposure_mode := "internal"; g_service_id := "";
     g_host_address := ""; g_host_port := 0; g_container_port := 0; g_service_protocol := "";
     g_created_at := now; g_verified_at := None; g_committed_at := None; g_retired_at := None;
     g_cleanup := CleanupNotRequired |}.

Definition prepared_comp (plan : Plan) (now : string) : compRow :=
  {| c_container_name := p_ContainerName plan; c_container_id := ""; c_image := p_Image plan;
     c_image_id := ""; c_config_hash := ""; c_state := CompUnknown; c_depends_on := [];
     c_ordinal := 0; c_created_at := now; c_started_at := None; c_verified_at := None |}.

Definition reusable (r : genRow) : Prop :=
  (g_status r = GenFailed \/ g_status r = GenRemoved) /\ g_cleanup r = CleanupClean.
#[export] Instance reusable_dec r : Decision (reusable r).
Proof. unfold reusable. apply _. Defined.

(** The generation and component rows: a cleaned-up target is reused, a new
    one inserted. *)
Definition prepare_rows (plan : Plan) (now : string) : tx db unit :=
  let k := plan_key plan in
  let* d := tget in
  match db_gens d !! k with
  | Some existing =>
      do* tassert (reusable existing) "target generation already has unresolved lifecycle evidence" in
      let* componentID := trow (fun d => fst <$> head (components_of k d)) in
      do* tassert (componentID = "app") "clean target generation topology cannot be safely reused" in
      let* changed := update_gens (fun k' r => k' = k /\ reusable r)
            (fun _ => prepared_gen plan now) in
      do* tassert (changed = 1%nat) "clean target generation reuse lost" in
      let* changed := update_comps_ordinal (fun k' _ => k' = (k, "app"))
            (fun _ => prepared_comp plan now) in
      tassert (changed = 1%nat) "removed target generation component reuse lost"
  | None =>
      do* insert_gen k (prepared_gen plan now) in
      insert_comp (k, "app") (prepared_comp plan now)
  end.

Definition Prepare (plan : Plan) (now : string) : tx db unit :=
  do* prepare_rows plan now in
  replaceBindings (plan_key plan) (p_Bindings plan).

Definition RecordNetwork (plan : Plan) (networkID : string) : tx db unit :=
  let* changed := update_gens (fun k r => k = plan_key plan /\ g_operation r = p_OperationID plan /\
                                          g_status r = GenPrepared)
        (fun r => r <| g_status := GenCandidate |> <| g_network_id := networkID |>) in
  tassert (changed = 1%nat) "candidate network transition lost".

(** The [EXISTS] of [RecordContainer]: the plan's own candidate generation. *)
Definition own_candidate (plan : Plan) (d : db) : bool :=
  match db_gens d !! plan_key plan with
  | Some g => bool_decide (g_operation g = p_OperationID plan /\ g_status g = GenCandidate)
  | None => false
  end.

Definition RecordContainer (plan : Plan) (containerID imageID configHash : string)
    (state : comp_state_t) (now : string) : tx db unit :=
  do* verifyGenerationFence (p_InstallationID plan) (p_OperationID plan) (p_FencingToken plan) in
  let* d := tget in
  let* changed := update_comps
        (fun k _ => k = (plan_key plan, "app") /\ own_candidate plan d = true)
        (fun r => r <| c_container_id := containerID |> <| c_image_id := imageID |>
           <| c_config_hash := configHash |> <| c_state := state |> <| c_created_at := now |>
           <| c_verified_at := if decide (state = CompStopped) then Some now
                               else c_verified_at r |>) in
  tassert (changed = 1%nat) "candidate container transition lost".

Definition RecordState (plan : Plan) (state : comp_state_t) (verified : bool) (now : string)
    : tx db unit :=
  let* changed := update_comps (fun k _ => k = (plan_key plan, "app"))
        (fun r => r <| c_state := state |>
           <| c_started_at := if decide (state = CompRunning)
                then Some (default now (c_started_at r)) else c_started_at r |>
           <| c_verified_at := if verified then Some now else c_verified_at r |>) in
  tassert (changed = 1%nat) "candidate state transition lost".

(** The candidate row joined with its [app] component. *)
Definition candidate_row (k : string * Z) (operation : string) (d : db) : option (genRow * compRow) :=
  match db_gens d !! k, db_comps d !! (k, "app") with
  | Some g, Some c => if decide (g_operation g = operation) then Some (g, c) else None
  | _, _ => None
  end.

Definition verified_candidate (g : genRow) (c : compRow) : Prop :=
  g_status g = GenCandidate /\ c_state c = CompRunning /\ c_config_hash c <> "".
#[export] Instance verified_candidate_dec g c : Decision (verified_candidate g c).
Proof. unfold verified_candidate. apply _. Defined.

(** The generation a commit replaces: the active one, or the last removed. *)
Definition baseline (installation : string) (d : db) : bool * Z :=
  match active_generation installation d with
  | Some n => (true, n)
  | None => (false, max_removed installation d)
  end.

Definition retire (installation : string) (keep : Z) : tx db nat :=
  update_gens (fun k r => k.1 = installation /\ g_status r = GenRetained /\ k.2 <> keep)
    (fun r => r <| g_status := GenCleanupPending |> <| g_cleanup := CleanupPending |>).

Definition Commit (plan : Plan) (now : string) : tx db unit :=
  let inst := p_InstallationID plan in
  let expected := p_ExpectedGeneration plan in
  do* verifyGenerationFence inst (p_OperationID plan) (p_FencingToken plan) in
  let* d := tget in
  do* tassert ((baseline inst d).2 = expected)
        ("active generation changed: expected " +:+ sprint expected +:+ " observed " +:+
         sprint (baseline inst d).2) in
  let* gc := trow (candidate_row (plan_key plan) (p_OperationID plan)) in
  do* tassert (verified_candidate gc.1 gc.2) "candidate generation has not been verified" in
  do* (if (baseline inst d).1 then
         let* changed := update_gens (fun k r => k = (inst, expected) /\ g_status r = GenActive)
               (fun r => r
                  <| g_status := if p_AllowMissingActive plan then GenCleanupPending else GenRetained |>
                  <| g_retired_at := Some now |>
                  <| g_cleanup := if p_AllowMissingActive plan then CleanupPending
                                  else CleanupNotRequired |>) in
         tassert (changed = 1%nat) "active generation retirement lost"
       else tret tt) in
  do* retire inst expected in
  let* changed := update_gens (fun k r => k = plan_key plan /\ g_operation r = p_OperationID plan /\
                                          g_status r = GenCandidate)
        (fun r => r <| g_status := GenActive |>
           <| g_verified_at := Some (default now (g_verified_at r)) |>
           <| g_committed_at := Some now |> <| g_cleanup := CleanupClean |>) in
  do* tassert (changed = 1%nat) "candidate generation activation lost" in
  appendEvent (p_OperationID plan) inst (Some (p_FencingToken plan)) "generation_committed"
    "generation_commit" [("active_generation", sprint (p_Generation plan));
                         ("previous_generation", sprint expected)] now.

Definition MarkFailed (plan : Plan) (cleanupState : cleanup_state_t) : tx db unit :=
  let* changed := update_gens (fun k r => k = plan_key plan /\ g_operation r = p_OperationID plan /\
                                (g_status r = GenPrepared \/ g_status r = GenCandidate))
        (fun r => r <| g_status := GenFailed |> <| g_cleanup := cleanupState |>) in
  tassert (changed = 1%nat) "candidate failure transition lost".

(** [MarkRemoved] is two statements outside a transaction. *)
Definition gen_key (g : Generation) : string * Z := (gn_InstallationID g, gn_Generation g).

Definition MarkRemoved_generation (generation : Generation) : tx db unit :=
  do* update_gens (fun k r => k = gen_key generation /\
        (g_status r = GenRetained \/ g_status r = GenCleanupPending \/ g_status r = GenFailed))
        (fun r => r <| g_status := GenRemoved |> <| g_cleanup := CleanupClean |>) in
  tret tt.

Definition MarkRemoved_components (generation : Generation) : tx db unit :=
  do* update_comps (fun k _ => k.1 = gen_key generation)
        (fun r => r <| c_state := CompRemoved |>) in
  tret tt.

Definition MarkCleanupPending (generation : Generation) : tx db unit :=
  do* update_gens (fun k r => k = gen_key generation /\ g_status r = GenRetained)
        (fun r => r <| g_status := GenCleanupPending |> <| g_cleanup := CleanupPending |>) in
  tret tt.

(** The fence of [RecoverForward]: the interrupted operation and the lease of
    its installation, both waiting for recovery under one token. *)
Definition recovery_fence (operation refusal : string) : tx db Z :=
  let* o := get_op operation in
  let* l := get_lease (op_installation o) in
  let* operationToken := scan_token o in
  do* tassert (op_state o = StateActionRequired /\ ls_state l = LeaseRecoveryRequired /\
               ls_operation l = operation /\ operationToken = ls_token l)
        refusal in
  tret operationToken.

(** The operation is completed and its recovery lease released. *)
Definition complete_operation (operation : string) (phase encoded now : string)
    (P : opRow -> Prop) `{!forall r, Decision (P r)} : tx db nat :=
  update_ops (fun k r => k = operation /\ op_state r = StateActionRequired /\ P r)
    (fun r => r <| op_state := StateSucceeded |> <| op_phase := phase |>
       <| op_outcome := ConfirmedApplied |> <| op_recovery := Completed |>
       <| op_result_json := encoded |> <| op_error_code := "" |> <| op_error_detail := "" |>
       <| op_updated_at := now |> <| op_completed_at := Some now |>).

Definition release_recovery (installation operation : string) (token : Z) (now : string)
    (P : leaseRow -> Prop) `{!forall r, Decision (P r)} : tx db nat :=
  update_leases (fun k r => k = installation /\ ls_operation r = operation /\
                            ls_token r = token /\ P r)
    (fun r => r <| ls_state := LeaseReleased |> <| ls_recovery_required := false |>
       <| ls_updated_at := now |>).

(** The baseline of a forward recovery is retired, or was already removed. *)
Definition retire_baseline (installation : string) (expected : Z) (now : string) : tx db unit :=
  let* d := tget in
  match active_generation installation d with
  | None =>
      let removed := match db_gens d !! (installation, expected) with
        | Some g => bool_decide (g_status g = GenRemoved) | None => false end in
      tassert (removed = true) "recovery baseline generation changed"
  | Some active =>
      do* tassert (active = expected) "active generation changed during recovery" in
      do* update_gens (fun k r => k = (installation, expected) /\ g_status r = GenActive)
            (fun r => r <| g_status := GenRetained |> <| g_retired_at := Some now |>
               <| g_cleanup := CleanupNotRequired |>) in
      tret tt
  end.

Definition RecoverForward (candidate : Generation) (result : Result) (now : string) : tx db unit :=
  let inst := gn_InstallationID candidate in
  let operation := gn_CreatingOperationID candidate in
  let encoded := marshal (Result_json result) in
  let* token := recovery_fence operation "generation recovery fence is not valid" in
  let* gc := trow (candidate_row (gen_key candidate) operation) in
  do* tassert (verified_candidate gc.1 gc.2) "candidate is not eligible for forward recovery" in
  let expected := gn_Generation candidate - 1 in
  do* twhen (0 < expected) (retire_baseline inst expected now) in
  do* retire inst expected in
  do* update_gens (fun k r => k = gen_key candidate /\ g_status r = GenCandidate)
        (fun r => r <| g_status := GenActive |> <| g_committed_at := Some now |>
           <| g_cleanup := CleanupClean |>) in
  do* complete_operation operation "recovered_generation_commit" encoded now
        (fun r => op_token r = Some token) in
  do* release_recovery inst operation token now (fun r => ls_state r = LeaseRecoveryRequired) in
  appendEvent operation inst (Some token) "generation_recovered" "recovered_generation_commit"
    [("active_generation", sprint (gn_Generation candidate))] now.

Definition FinalizeCommittedRecovery (generation : Generation) (result : Result) (now : string)
    : tx db unit :=
  let operation := gn_CreatingOperationID generation in
  let encoded := marshal (Result_json result) in
  let* token := trow (fun d => match db_ops d !! operation with
    | Some o => match db_leases d !! op_installation o with
        | Some l => if decide (ls_operation l = operation /\ op_token o = Some (ls_token l) /\
                               op_state o = StateActionRequired /\
                               ls_state l = LeaseRecoveryRequired)
                    then Some (ls_token l) else None
        | None => None end
    | None => None end) in
  do* complete_operation operation "recovered_post_commit" encoded now (fun _ => True) in
  do* release_recovery (gn_InstallationID generation) operation token now (fun _ => True) in
  tret tt.
