(* ===== verification/MultiStore.v ===== *)
(** * Multi-component generations ([lifecycle/multi_store.go])

    The statements [lifecycle.Store] runs for an application of several
    components, which share one generation row, and the ledger of component
    steps.  [now] is the clock of the call and [sha] SHA-256 in hex. *)

From S2P Require Import Prelude Protocol Exposure HelperDB Coordinator Containers LifecycleStore.
From stdpp Require Import base gmap strings list sorting.
From Stdlib Require Import ZArith Lia.

Open Scope Z_scope.

(** ** Data ([model.go]) *)
Record MultiComponentPlan : Type := {
  mc_ID : string;
  mc_Image : string;
  mc_ContainerName : string;
  mc_DependsOn : list string;
  mc_StartOrdinal : Z;
  mc_Container : ContainerPlan
}.

#[export] Instance MultiComponentPlan_eta : Eta MultiComponentPlan :=
  fun c => Build_MultiComponentPlan (mc_ID c) (mc_Image c) (mc_ContainerName c) (mc_DependsOn c)
    (mc_StartOrdinal c) (mc_Container c).
#[export] Instance set_mc_Container : Setter mc_Container := ltac:(mk_setter).

Record MultiPlan : Type := {
  mp_OperationID : string;
  mp_InstallationID : string;
  mp_ApplicationID : string;
  mp_ReleaseID : string;
  mp_Generation : Z;
  mp_ExpectedGeneration : Z;
  mp_FencingToken : Z;
  mp_NetworkName : string;
  mp_PlanHash : string;
  mp_TopologyHash : string;
  mp_DataPath : string;
  mp_Bindings : list ServiceBinding;
  mp_Components : list MultiComponentPlan;
  mp_RollbackSafe : bool;
  mp_AllowMissingActive : bool
}.

#[export] Instance MultiPlan_eta : Eta MultiPlan :=
  fun p => Build_MultiPlan (mp_OperationID p) (mp_InstallationID p) (mp_ApplicationID p)
    (mp_ReleaseID p) (mp_Generation p) (mp_ExpectedGeneration p) (mp_FencingToken p)
    (mp_NetworkName p) (mp_PlanHash p) (mp_TopologyHash p) (mp_DataPath p) (mp_Bindings p)
    (mp_Components p) (mp_RollbackSafe p) (mp_AllowMissingActive p).
#[export] Instance set_mp_Components : Setter mp_Components := ltac:(mk_setter).
#[export] Instance set_mp_Generation : Setter mp_Generation := ltac:(mk_setter).

Record MultiGeneration : Type := {
  mg_InstallationID : string;
  mg_CreatingOperationID : string;
  mg_ApplicationID : string;
  mg_ReleaseID : string;
  mg_Generation : Z;
  mg_Status : string;
  mg_NetworkName : string;
  mg_NetworkID : string;
  mg_PlanHash : string;
  mg_TopologyHash : string;
  mg_DataPath : string;
  mg_Bindings : list ServiceBinding;
  mg_CleanupState : string;
  mg_Components : list Component
}.

#[export] Instance MultiGeneration_eta : Eta MultiGeneration :=
  fun g => Build_MultiGeneration (mg_InstallationID g) (mg_CreatingOperationID g)
    (mg_ApplicationID g) (mg_ReleaseID g) (mg_Generation g) (mg_Status g) (mg_NetworkName g)
    (mg_NetworkID g) (mg_PlanHash g) (mg_TopologyHash g) (mg_DataPath g) (mg_Bindings g)
    (mg_CleanupState g) (mg_Components g).
#[export] Instance set_mg_Status : Setter mg_Status := ltac:(mk_setter).
#[export] Instance set_mg_NetworkID : Setter mg_NetworkID := ltac:(mk_setter).
#[export] Instance set_mg_Components : Setter mg_Components := ltac:(mk_setter).

Definition zero_multi : MultiGeneration :=
  {| mg_InstallationID := ""; mg_CreatingOperationID := ""; mg_ApplicationID := ""; mg_ReleaseID := "";
     mg_Generation := 0; mg_Status := ""; mg_NetworkName := ""; mg_NetworkID := ""; mg_PlanHash := "";
     mg_TopologyHash := ""; mg_DataPath := ""; mg_Bindings := []; mg_CleanupState := "";
     mg_Components := [] |}.

Record ComponentStep : Type := {
  cs_OperationID : string;
  cs_InstallationID : string;
  cs_ComponentID : string;
  cs_Action : string;
  cs_Generation : Z;
  cs_Attempt : Z;
  cs_ExpectedRuntimeID : string;
  cs_ObservedRuntimeID : string;
  cs_IntentAt : string;
  cs_DispatchedAt : string;
  cs_VerifiedAt : string;
  cs_OutcomeConfidence : outcome_t;
  cs_ErrorDetail : string
}.

Definition mplan_key (plan : MultiPlan) : string * Z := (mp_InstallationID plan, mp_Generation plan).
Definition mgen_key (g : MultiGeneration) : string * Z := (mg_InstallationID g, mg_Generation g).

(** ** Queries *)
Definition ordinal_le (a b : string * compRow) : Prop :=
  c_ordinal a.2 < c_ordinal b.2 \/ (c_ordinal a.2 = c_ordinal b.2 /\ String.leb a.1 b.1 = true).
#[export] Instance ordinal_le_dec a b : Decision (ordinal_le a b).
Proof. unfold ordinal_le. apply _. Defined.

Definition scan_component (cc : string * compRow) : Component :=
  {| cm_ID := cc.1; cm_ContainerName := c_container_name cc.2; cm_ContainerID := c_container_id cc.2;
     cm_Image := c_image cc.2; cm_ImageID := c_image_id cc.2; cm_ConfigurationHash := c_config_hash cc.2;
     cm_State := comp_state_text (c_state cc.2); cm_DependsOn := c_depends_on cc.2;
     cm_StartOrdinal := c_ordinal cc.2 |}.

Definition load_multi (k : string * Z) (g : genRow) (d : db) : MultiGeneration :=
  {| mg_InstallationID := k.1; mg_CreatingOperationID := g_operation g;
     mg_ApplicationID := g_application g; mg_ReleaseID := g_release g; mg_Generation := k.2;
     mg_Status := gen_status_text (g_status g); mg_NetworkName := g_network_name g;
     mg_NetworkID := g_network_id g; mg_PlanHash := g_plan_hash g; mg_TopologyHash := g_topology_hash g;
     mg_DataPath := g_data_path g; mg_Bindings := loadBindings k d;
     mg_CleanupState := cleanup_text (g_cleanup g);
     mg_Components := map scan_component (merge_sort ordinal_le (components_of k d)) |}.

Definition LoadMultiGeneration (installation : string) (generation : Z) : tx db MultiGeneration :=
  trow (fun d => (fun g => load_multi (installation, generation) g d) <$> db_gens d !! (installation, generation)).

(** A generation number with its row: the [ORDER BY]s of the queries. *)
Definition row_rank (s : gen_status_t) : Z :=
  match s with GenActive => 0 | GenVerificationRequired => 1 | _ => 2 end.

Definition current_row_le (a b : (string * Z) * genRow) : Prop :=
  row_rank (g_status a.2) < row_rank (g_status b.2) \/
  (row_rank (g_status a.2) = row_rank (g_status b.2) /\ b.1.2 <= a.1.2).
#[export] Instance current_row_le_dec a b : Decision (current_row_le a b).
Proof. unfold current_row_le. apply _. Defined.

Definition newest_row_le (a b : (string * Z) * genRow) : Prop := b.1.2 <= a.1.2.
#[export] Instance newest_row_le_dec a b : Decision (newest_row_le a b).
Proof. unfold newest_row_le. apply _. Defined.
Definition oldest_row_le (a b : (string * Z) * genRow) : Prop := a.1.2 <= b.1.2.
#[export] Instance oldest_row_le_dec a b : Decision (oldest_row_le a b).
Proof. unfold oldest_row_le. apply _. Defined.

Definition MultiCurrent (installation : string) : tx db MultiGeneration :=
  let* kr := trow (fun d => head (merge_sort current_row_le
    (select (fun k r => k.1 = installation /\ is_current (g_status r)) (db_gens d)))) in
  LoadMultiGeneration installation kr.1.2.

Definition MultiByOperation (operationID : string) : tx db MultiGeneration :=
  let* kr := trow (fun d => head (merge_sort newest_row_le
    (select (fun _ r => g_operation r = operationID) (db_gens d)))) in
  LoadMultiGeneration kr.1.1 kr.1.2.

Fixpoint load_all (installation : string) (generations : list Z) : tx db (list MultiGeneration) :=
  match generations with
  | [] => tret []
  | n :: rest =>
      let* g := LoadMultiGeneration installation n in
      let* gs := load_all installation rest in
      tret (g :: gs)
  end.

Definition MultiOlderRetained (installation : string) (keep : Z) : tx db (list MultiGeneration) :=
  let* d := tget in
  load_all installation (map (fun kr => kr.1.2) (merge_sort oldest_row_le
    (select (fun k r => k.1 = installation /\ awaits_cleanup r /\ k.2 <> keep) (db_gens d)))).

(** A copy of the components, highest start ordinal first. *)
Definition reverse_le (a b : Component) : Prop := cm_StartOrdinal b <= cm_StartOrdinal a.
#[export] Instance reverse_le_dec a b : Decision (reverse_le a b).
Proof. unfold reverse_le. apply _. Defined.
Definition sortedComponentsReverse (components : list Component) : list Component :=
  merge_sort reverse_le components.

(** [COUNT] of the components of a generation and the [SUM] of the verified
    ones; the [SUM] of no row is NULL, which cannot be scanned. *)
Definition verified_component (c : compRow) : Prop :=
  c_state c = CompRunning /\ c_config_hash c <> "" /\ is_Some (c_verified_at c).
#[export] Instance verified_component_dec c : Decision (verified_component c).
Proof. unfold verified_component. apply _. Defined.

Definition count_verified (k : string * Z) : tx db (nat * nat) := fun d =>
  let total := affected (fun kc _ => kc.1 = k) (db_comps d) in
  if decide (total = 0%nat) then Err (ErrSQL "converting NULL to int is unsupported")
  else Ok ((total, affected (fun kc r => kc.1 = k /\ verified_component r) (db_comps d)), d).

(** ** Transactions *)
Definition prepared_multi (plan : MultiPlan) (now : string) : genRow :=
  {| g_operation := mp_OperationID plan; g_application := mp_ApplicationID plan;
     g_release := mp_ReleaseID plan; g_status := GenPrepared; g_network_name := mp_NetworkName plan;
     g_network_id := ""; g_plan_hash := mp_PlanHash plan; g_topology_hash := mp_TopologyHash plan;
     g_data_path := mp_DataPath plan; g_exposure_mode := "internal"; g_service_id := "";
     g_host_address := ""; g_host_port := 0; g_container_port := 0; g_service_protocol := "";
     g_created_at := now; g_verified_at := None; g_committed_at := None; g_retired_at := None;
     g_cleanup := CleanupNotRequired |}.

Definition prepared_component (c : MultiComponentPlan) (ordinal : Z) (now : string) : compRow :=
  {| c_container_name := mc_ContainerName c; c_container_id := ""; c_image := mc_Image c;
     c_image_id := ""; c_config_hash := ""; c_state := CompUnknown; c_depends_on := mc_DependsOn c;
     c_ordinal := ordinal; c_created_at := now; c_started_at := None; c_verified_at := None |}.

(** The component loop, which counts its ordinals. *)
Fixpoint prepare_components (k : string * Z) (reusing : bool) (ordinal : Z)
    (components : list MultiComponentPlan) (now : string) : tx db unit :=
  match components with
  | [] => tret tt
  | c :: rest =>
      do* tassert (mc_StartOrdinal c = ordinal) "component plan is not in normalized dependency order" in
      do* (if reusing then
             let* changed := update_comps_ordinal (fun k' _ => k' = (k, mc_ID c))
                   (fun _ => prepared_component c ordinal now) in
             tassert (changed = 1%nat) "failed target generation component topology changed"
           else insert_comp (k, mc_ID c) (prepared_component c ordinal now)) in
      prepare_components k reusing (ordinal + 1) rest now
  end.

(** A cleaned-up target is reused, a new one inserted; [true] when reused. *)
Definition prepare_multi_row (plan : MultiPlan) (now : string) : tx db bool :=
  let k := mplan_key plan in
  let* d := tget in
  match db_gens d !! k with
  | Some existing =>
      do* tassert (reusable existing) "target generation already has unresolved lifecycle evidence" in
      do* tassert (affected (fun kc _ => kc.1 = k) (db_comps d) = length (mp_Components plan))
            "failed target generation topology cannot be safely reused" in
      do* update_comps_ordinal (fun kc _ => kc.1 = k)
            (fun r => r <| c_ordinal := c_ordinal r + 100 |>) in
      let* changed := update_gens (fun k' r => k' = k /\ reusable r)
            (fun _ => prepared_multi plan now) in
      do* tassert (changed = 1%nat) "clean target generation reuse lost" in
      tret true
  | None =>
      do* insert_gen k (prepared_multi plan now) in
      tret false
  end.

Definition PrepareMulti (plan : MultiPlan) (now : string) : tx db unit :=
  do* tassert (2 <= length (mp_Components plan))%nat
        "multi-component plan requires at least two components" in
  let* reusing := prepare_multi_row plan now in
  do* prepare_components (mplan_key plan) reusing 0 (mp_Components plan) now in
  replaceBindings (mplan_key plan) (mp_Bindings plan).

Definition legacy_multi_gen (g : MultiGeneration) (now : string) : genRow :=
  {| g_operation := "legacy-multi-migration"; g_application := mg_ApplicationID g;
     g_release := mg_ReleaseID g; g_status := GenVerificationRequired;
     g_network_name := mg_NetworkName g; g_network_id := ""; g_plan_hash := mg_PlanHash g;
     g_topology_hash := mg_TopologyHash g; g_data_path := mg_DataPath g;
     g_exposure_mode := "internal"; g_service_id := ""; g_host_address := ""; g_host_port := 0;
     g_container_port := 0; g_service_protocol := ""; g_created_at := now; g_verified_at := None;
     g_committed_at := None; g_retired_at := None; g_cleanup := CleanupNotRequired |}.

Definition legacy_component (c : Component) (now : string) : compRow :=
  {| c_container_name := cm_ContainerName c; c_container_id := cm_ContainerID c; c_image := cm_Image c;
     c_image_id := ""; c_config_hash := ""; c_state := CompUnknown; c_depends_on := cm_DependsOn c;
     c_ordinal := cm_StartOrdinal c; c_created_at := now; c_started_at := None; c_verified_at := None |}.

Definition BackfillLegacyMulti (generation : MultiGeneration) (now : string) : tx db unit :=
  let k := mgen_key generation in
  do* tassert ((2 <= length (mg_Components generation))%nat /\ mg_TopologyHash generation <> "")
        "legacy multi-component topology is incomplete" in
  let* d := tget in
  if decide (affected (fun k' _ => k'.1 = mg_InstallationID generation) (db_gens d) <> 0%nat)
  then tret tt
  else
    do* insert_gen k (legacy_multi_gen generation now) in
    do* tforeach (fun c => insert_comp (k, cm_ID c) (legacy_component c now)) (mg_Components generation) in
    replaceBindings k (mg_Bindings generation).

Section hash.
Context (sha : string -> string).

Definition promote_component (k : string * Z) (observations : gmap string ContainerObservation)
    (runtimeState : comp_state_t) (now : string) (c : Component) : tx db unit :=
  match observations !! cm_ID c with
  | None => tfail (ErrMsg "migrated component observation is incomplete")
  | Some observed =>
      let* changed := update_comps (fun k' r => k' = (k, cm_ID c) /\ c_container_id r = cm_ContainerID c)
            (fun r => r <| c_image_id := ob_ImageID observed |>
               <| c_config_hash := observationHash sha observed |>
               <| c_state := runtimeState |> <| c_verified_at := Some now |>) in
      tassert (changed = 1%nat) "migrated component promotion lost"
  end.

Definition PromoteMigratedMulti (generation : MultiGeneration) (networkID : string)
    (observations : gmap string ContainerObservation) (runtimeState : comp_state_t)
    (operationID : string) (token : Z) (now : string) : tx db unit :=
  let k := mgen_key generation in
  do* tassert (runtimeState = CompRunning \/ runtimeState = CompStopped)
        "migrated generation state is not promotable" in
  do* verifyGenerationFence (mg_InstallationID generation) operationID token in
  let* changed := update_gens (fun k' r => k' = k /\ g_status r = GenVerificationRequired)
        (fun r => r <| g_status := GenActive |> <| g_network_id := networkID |>
           <| g_verified_at := Some now |> <| g_committed_at := Some now |>
           <| g_cleanup := CleanupClean |>) in
  do* tassert (changed = 1%nat) "migrated multi-component generation is not promotable" in
  tforeach (promote_component k observations runtimeState now) (mg_Components generation).
End hash.

Definition RecordMultiNetwork (plan : MultiPlan) (networkID : string) : tx db unit :=
  let* changed := update_gens (fun k r => k = mplan_key plan /\ g_operation r = mp_OperationID plan /\
                                          g_status r = GenPrepared)
        (fun r => r <| g_status := GenCandidate |> <| g_network_id := networkID |>) in
  tassert (changed = 1%nat) "candidate network transition lost".

(** [CASE WHEN ?<>'' THEN ? ELSE column END] *)
Definition keep_empty (new old : string) : string := if decide (new <> "") then new else old.

Definition RecordMultiContainer (plan : MultiPlan) (componentID containerID imageID configHash : string)
    (state : comp_state_t) (verified : bool) (now : string) : tx db unit :=
  do* verifyGenerationFence (mp_InstallationID plan) (mp_OperationID plan) (mp_FencingToken plan) in
  let* changed := update_comps (fun k _ => k = (mplan_key plan, componentID))
        (fun r => r <| c_container_id := keep_empty containerID (c_container_id r) |>
           <| c_image_id := keep_empty imageID (c_image_id r) |>
           <| c_config_hash := keep_empty configHash (c_config_hash r) |>
           <| c_state := state |>
           <| c_started_at := if decide (state = CompRunning)
                then Some (default now (c_started_at r)) else c_started_at r |>
           <| c_verified_at := if verified then Some now else c_verified_at r |>) in
  tassert (changed = 1%nat) "component state transition lost".

(** *** The step ledger

    The ledger's [CHECK] admits every outcome but the mixed one. *)
Definition insert_step (k : string * Z * string * string * Z) (r : stepRow) : tx db unit := fun d =>
  let '(operation, generation, component, _, _) := k in
  match db_steps d !! k, db_ops d !! operation,
        db_comps d !! ((st_installation r, generation), component) with
  | Some _, _, _ => Err (ErrSQL "UNIQUE constraint failed: lifecycle_component_steps")
  | None, Some _, Some _ => Ok (tt, d <| db_steps := <[k := r]> (db_steps d) |>)
  | None, _, _ => Err (ErrSQL "FOREIGN KEY constraint failed")
  end.

Definition update_steps (P : string * Z * string * string * Z -> stepRow -> Prop)
    `{!forall k r, Decision (P k r)} (f : stepRow -> stepRow) : tx db nat := fun d =>
  let m := update P f (db_steps d) in
  if decide (map_Forall (fun _ r => st_outcome r <> OutcomeMixed) m)
  then Ok (affected P (db_steps d), d <| db_steps := m |>)
  else Err (ErrSQL "CHECK constraint failed: outcome_confidence").

Definition step_key (plan : MultiPlan) (componentID action : string) (attempt : Z)
    : string * Z * string * string * Z :=
  (mp_OperationID plan, mp_Generation plan, componentID, action, attempt).

Definition BeginComponentStep (plan : MultiPlan) (componentID action expectedID : string) (attempt : Z)
    (now : string) : tx db unit :=
  do* verifyGenerationFence (mp_InstallationID plan) (mp_OperationID plan) (mp_FencingToken plan) in
  insert_step (step_key plan componentID action attempt)
    {| st_installation := mp_InstallationID plan; st_expected_id := expectedID; st_observed_id := "";
       st_intent_at := now; st_dispatched_at := None; st_verified_at := None;
       st_outcome := NotDispatched; st_error_detail := "" |}.

Definition DispatchComponentStep (plan : MultiPlan) (componentID action : string) (attempt : Z)
    (now : string) : tx db unit :=
  do* verifyGenerationFence (mp_InstallationID plan) (mp_OperationID plan) (mp_FencingToken plan) in
  let* changed := update_steps (fun k r => k = step_key plan componentID action attempt /\
                                           st_dispatched_at r = None)
        (fun r => r <| st_dispatched_at := Some now |> <| st_outcome := OutcomeUnknown |>) in
  tassert (changed = 1%nat) "component mutation dispatch evidence lost".

Definition FinishComponentStep (plan : MultiPlan) (componentID action : string) (attempt : Z)
    (observedID : string) (confidence : outcome_t) (detail now : string) : tx db unit :=
  do* verifyGenerationFence (mp_InstallationID plan) (mp_OperationID plan) (mp_FencingToken plan) in
  let* changed := update_steps (fun k _ => k = step_key plan componentID action attempt)
        (fun r => r <| st_observed_id := observedID |> <| st_verified_at := Some now |>
           <| st_outcome := confidence |> <| st_error_detail := detail |>) in
  tassert (changed = 1%nat) "component mutation result evidence lost".

(** [ORDER BY runtime_generation,component_id,action,attempt] *)
Definition step_le (a b : (string * Z * string * string * Z) * stepRow) : Prop :=
  let '(_, n1, c1, a1, t1) := a.1 in
  let '(_, n2, c2, a2, t2) := b.1 in
  n1 < n2 \/ (n1 = n2 /\ ((String.leb c1 c2 = true /\ c1 <> c2) \/
    (c1 = c2 /\ ((String.leb a1 a2 = true /\ a1 <> a2) \/ (a1 = a2 /\ t1 <= t2))))).
#[export] Instance step_le_dec a b : Decision (step_le a b).
Proof.
  unfold step_le. destruct a as [[[[[? ?] ?] ?] ?] ?], b as [[[[[? ?] ?] ?] ?] ?]. cbn. apply _.
Defined.

Definition scan_step (ks : (string * Z * string * string * Z) * stepRow) : ComponentStep :=
  let '(operation, generation, component, action, attempt) := ks.1 in
  {| cs_OperationID := operation; cs_InstallationID := st_installation ks.2;
     cs_ComponentID := component; cs_Action := action; cs_Generation := generation;
     cs_Attempt := attempt; cs_ExpectedRuntimeID := st_expected_id ks.2;
     cs_ObservedRuntimeID := st_observed_id ks.2; cs_IntentAt := st_intent_at ks.2;
     cs_DispatchedAt := default "" (st_dispatched_at ks.2); cs_VerifiedAt := default "" (st_verified_at ks.2);
     cs_OutcomeConfidence := st_outcome ks.2; cs_ErrorDetail := st_error_detail ks.2 |}.

Definition ComponentSteps (operationID : string) (d : db) : list ComponentStep :=
  map scan_step (merge_sort step_le
    (select (fun k _ => k.1.1.1.1 = operationID) (db_steps d))).

(** *** Commit and recovery *)

(** The candidate row of the operation. *)
Definition multi_candidate (k : string * Z) (operation : string) (d : db) : option genRow :=
  match db_gens d !! k with
  | Some g => if decide (g_operation g = operation) then Some g else None
  | None => None
  end.

Definition CommitMulti (plan : MultiPlan) (now : string) : tx db unit :=
  let inst := mp_InstallationID plan in
  let expected := mp_ExpectedGeneration plan in
  do* verifyGenerationFence inst (mp_OperationID plan) (mp_FencingToken plan) in
  let* d := tget in
  do* tassert ((baseline inst d).2 = expected)
        ("active generation changed: expected " +:+ sprint expected +:+ " observed " +:+
         sprint (baseline inst d).2) in
  let* g := trow (multi_candidate (mplan_key plan) (mp_OperationID plan)) in
  do* tassert (g_status g = GenCandidate /\ g_topology_hash g = mp_TopologyHash plan)
        "candidate application topology is not committable" in
  let* counts := count_verified (mplan_key plan) in
  do* tassert (counts.1 = length (mp_Components plan) /\ counts.2 = counts.1)
        "not every required candidate component is verified" in
  do* (if (baseline inst d).1 then
         let* changed := update_gens (fun k r => k = (inst, expected) /\ g_status r = GenActive)
               (fun r => r
                  <| g_status := if mp_AllowMissingActive plan then GenCleanupPending else GenRetained |>
                  <| g_retired_at := Some now |>
                  <| g_cleanup := if mp_AllowMissingActive plan then CleanupPending
                                  else CleanupNotRequired |>) in
         tassert (changed = 1%nat) "active generation retirement lost"
       else tret tt) in
  do* retire inst expected in
  let* changed := update_gens (fun k r => k = mplan_key plan /\ g_operation r = mp_OperationID plan /\
                                          g_status r = GenCandidate)
        (fun r => r <| g_status := GenActive |> <| g_verified_at := Some now |>
           <| g_committed_at := Some now |> <| g_cleanup := CleanupClean |>) in
  do* tassert (changed = 1%nat) "candidate generation activation lost" in
  appendEvent (mp_OperationID plan) inst (Some (mp_FencingToken plan)) "generation_committed"
    "generation_commit" [("active_generation", sprint (mp_Generation plan));
                         ("component_count", sprint (Z.of_nat counts.1));
                         ("previous_generation", sprint expected)] now.

(** The retirement of [RecoverForwardMulti], whose row count is checked. *)
Definition retire_multi_baseline (installation : string) (expected : Z) (now : string) : tx db unit :=
  let* d := tget in
  match active_generation installation d with
  | None =>
      let removed := match db_gens d !! (installation, expected) with
        | Some g => bool_decide (g_status g = GenRemoved) | None => false end in
      tassert (removed = true) "recovery baseline generation changed"
  | Some active =>
      do* tassert (active = expected) "active generation changed during recovery" in
      let* changed := update_gens (fun k r => k = (installation, expected) /\ g_status r = GenActive)
            (fun r => r <| g_status := GenRetained |> <| g_retired_at := Some now |>
               <| g_cleanup := CleanupNotRequired |>) in
      tassert (changed = 1%nat) "recovery retirement lost"
  end.

Definition RecoverForwardMulti (candidate : MultiGeneration) (result : Result) (now : string) : tx db unit :=
  let inst := mg_InstallationID candidate in
  let operation := mg_CreatingOperationID candidate in
  let encoded := marshal (Result_json result) in
  let* token := recovery_fence operation "multi-component recovery fence is not valid" in
  let* counts := count_verified (mgen_key candidate) in
  do* tassert (counts.1 = length (mg_Components candidate) /\ counts.2 = counts.1 /\
               (2 <= counts.1)%nat /\ mg_TopologyHash candidate <> "")
        "multi-component candidate is not eligible for forward recovery" in
  let expected := mg_Generation candidate - 1 in
  do* twhen (0 < expected) (retire_multi_baseline inst expected now) in
  do* retire inst expected in
  let* changed := update_gens (fun k r => k = mgen_key candidate /\ g_status r = GenCandidate)
        (fun r => r <| g_status := GenActive |> <| g_committed_at := Some now |>
           <| g_cleanup := CleanupClean |>) in
  do* tassert (changed = 1%nat) "recovery activation lost" in
  do* complete_operation operation "recovered_multi_generation_commit" encoded now
        (fun r => op_token r = Some token) in
  do* release_recovery inst operation token now (fun r => ls_state r = LeaseRecoveryRequired) in
  tret tt.

Definition record_recovered (k : string * Z) (now : string) (c : Component) : tx db unit :=
  do* tassert (cm_ContainerID c <> "" /\ cm_ConfigurationHash c <> "")
        "candidate recovery evidence is incomplete" in
  let* changed := update_comps (fun k' r => k' = (k, cm_ID c) /\ c_container_id r = cm_ContainerID c /\
                                            c_config_hash r = cm_ConfigurationHash c)
        (fun r => r <| c_state := CompRunning |> <| c_verified_at := Some now |>) in
  tassert (changed = 1%nat) "candidate recovery verification lost".

Definition RecordRecoveredMultiVerification (candidate : MultiGeneration) (now : string) : tx db unit :=
  let* g := trow (multi_candidate (mgen_key candidate) (mg_CreatingOperationID candidate)) in
  do* tassert (g_status g = GenCandidate)
        "only a candidate generation can record recovered verification" in
  tforeach (record_recovered (mgen_key candidate) now) (mg_Components candidate).

Definition MarkMultiFailed (plan : MultiPlan) (cleanupState : cleanup_state_t) : tx db unit :=
  let* changed := update_gens (fun k r => k = mplan_key plan /\ g_operation r = mp_OperationID plan /\
                                (g_status r = GenPrepared \/ g_status r = GenCandidate))
        (fun r => r <| g_status := GenFailed |> <| g_cleanup := cleanupState |>) in
  tassert (changed = 1%nat) "multi candidate failure transition lost".
