(* ===== verification/ReconciliationStore.v ===== *)
(** * Reconciliation records ([lifecycle/reconciliation.go], data and store)

    The vocabulary of drift, the verdict drawn from a set of mismatch codes
    ([finish]), the statements that read generations for reconciliation and
    keep its result, and those that conclude a repair. *)

From S2P Require Import Prelude Protocol Exposure HelperDB Coordinator Containers LifecycleStore MultiStore.
From stdpp Require Import base gmap strings list sorting.
From Stdlib Require Import ZArith Lia.

Open Scope Z_scope.

(** [type ReconciliationState string] *)
Definition ReconciliationConsistent : string := "consistent".
Definition ReconciliationRepairable : string := "repairable".
Definition ReconciliationDegraded : string := "degraded".
Definition ReconciliationActionRequired : string := "action_required".
Definition ReconciliationRuntimeMissing : string := "runtime_missing".
Definition ReconciliationRuntimeUnknown : string := "runtime_unknown".
Definition ReconciliationCleanupPending : string := "cleanup_pending".

(** [type MismatchCode string] *)
Definition MismatchActiveContainerMissing : string := "active_container_missing".
Definition MismatchActiveContainerStopped : string := "active_container_stopped".
Definition MismatchActiveContainerDetached : string := "active_container_detached".
Definition MismatchActiveContainerRunning : string := "active_container_unexpectedly_running".
Definition MismatchActiveContainerUnstable : string := "active_container_unstable".
Definition MismatchImage : string := "image_mismatch".
Definition MismatchConfiguration : string := "configuration_mismatch".
Definition MismatchNetwork : string := "network_mismatch".
Definition MismatchComponentMissing : string := "component_missing".
Definition MismatchComponentStateMixed : string := "component_state_mixed".
Definition MismatchDependencyState : string := "dependency_state_inconsistent".
Definition MismatchRetainedGenerationMissing : string := "retained_generation_missing".
Definition MismatchRetainedGenerationRunning : string := "retained_generation_running".
Definition MismatchCandidateOrphaned : string := "candidate_orphaned".
Definition MismatchCleanupPending : string := "cleanup_pending".
Definition MismatchControlProjectionStale : string := "control_projection_stale".
Definition MismatchRuntimeUnreachable : string := "runtime_unreachable".
Definition MismatchRuntimeStateUnknown : string := "runtime_state_unclassified".
Definition MismatchOwnershipAmbiguous : string := "ownership_ambiguous".

Definition RepairNone : string := "none".
Definition RepairStartActive : string := "start_active".
Definition RepairRecreateGeneration : string := "recreate_generation".
Definition RepairCleanupResources : string := "cleanup_resources".
Definition RepairAcknowledgeRetainedLoss : string := "acknowledge_retained_missing".

Record CommittedProjection : Type := {
  cp_Generation : Z;
  cp_ReleaseID : string;
  cp_RuntimeState : string;
  cp_Bindings : list ServiceBinding
}.

Record ReconciliationResult : Type := {
  rr_InstallationID : string;
  rr_CheckedGeneration : Z;
  rr_State : string;
  rr_RuntimeState : string;
  rr_RuntimeIdentity : string;
  rr_ObservedAt : string;
  rr_MismatchCodes : list string;
  rr_RecommendedAction : string;
  rr_OriginatingOperation : string;
  rr_Summary : string;
  rr_Components : list ComponentFinding;
  rr_Projection : option CommittedProjection
}.

#[export] Instance ReconciliationResult_eta : Eta ReconciliationResult :=
  fun r => Build_ReconciliationResult (rr_InstallationID r) (rr_CheckedGeneration r) (rr_State r)
    (rr_RuntimeState r) (rr_RuntimeIdentity r) (rr_ObservedAt r) (rr_MismatchCodes r)
    (rr_RecommendedAction r) (rr_OriginatingOperation r) (rr_Summary r) (rr_Components r)
    (rr_Projection r).
#[export] Instance set_rr_CheckedGeneration : Setter rr_CheckedGeneration := ltac:(mk_setter).
#[export] Instance set_rr_State : Setter rr_State := ltac:(mk_setter).
#[export] Instance set_rr_RuntimeState : Setter rr_RuntimeState := ltac:(mk_setter).
#[export] Instance set_rr_RuntimeIdentity : Setter rr_RuntimeIdentity := ltac:(mk_setter).
#[export] Instance set_rr_MismatchCodes : Setter rr_MismatchCodes := ltac:(mk_setter).
#[export] Instance set_rr_RecommendedAction : Setter rr_RecommendedAction := ltac:(mk_setter).
#[export] Instance set_rr_OriginatingOperation : Setter rr_OriginatingOperation := ltac:(mk_setter).
#[export] Instance set_rr_Summary : Setter rr_Summary := ltac:(mk_setter).
#[export] Instance set_rr_Components : Setter rr_Components := ltac:(mk_setter).
#[export] Instance set_rr_Projection : Setter rr_Projection := ltac:(mk_setter).

Definition new_result (installation observedAt : string) : ReconciliationResult :=
  {| rr_InstallationID := installation; rr_CheckedGeneration := 0; rr_State := ReconciliationConsistent;
     rr_RuntimeState := "unknown"; rr_RuntimeIdentity := ""; rr_ObservedAt := observedAt;
     rr_MismatchCodes := []; rr_RecommendedAction := RepairNone; rr_OriginatingOperation := "";
     rr_Summary := ""; rr_Components := []; rr_Projection := None |}.

(** ** The verdict *)

(** [uniqueCodes]: empty codes and repetitions dropped, the rest sorted. *)
Fixpoint unique_from (seen values : list string) : list string :=
  match values with
  | [] => []
  | v :: values =>
      if decide (v = "" \/ v ∈ seen) then unique_from seen values
      else v :: unique_from (v :: seen) values
  end.
Definition uniqueCodes (values : list string) : list string := sort_strings (unique_from [] values).

(** The cases of the [switch], in order. *)
Definition classify (codes : list string) : string * string * string :=
  let has code := bool_decide (code ∈ codes) in
  if has MismatchRuntimeUnreachable then
    (ReconciliationRuntimeUnknown, RepairNone, "container runtime unavailable")
  else if has MismatchRuntimeStateUnknown then
    (ReconciliationActionRequired, RepairNone, "runtime state cannot be safely classified")
  else if has MismatchOwnershipAmbiguous || has MismatchImage || has MismatchConfiguration
          || has MismatchNetwork || has MismatchRetainedGenerationRunning
          || has MismatchActiveContainerRunning then
    (ReconciliationActionRequired, RepairNone,
     "runtime identity or configuration differs from helper authority")
  else if has MismatchActiveContainerDetached then
    (ReconciliationRepairable, RepairRecreateGeneration,
     "exact stopped runtime detached after a failed start; recreate the generation")
  else if has MismatchActiveContainerMissing || has MismatchComponentMissing then
    (ReconciliationRuntimeMissing, RepairRecreateGeneration, "active runtime resources are missing")
  else if has MismatchDependencyState || has MismatchComponentStateMixed then
    (ReconciliationDegraded, RepairStartActive, "active components are in a mixed dependency state")
  else if has MismatchActiveContainerUnstable then
    (ReconciliationDegraded, RepairNone,
     "exact active runtime is unstable; bounded lifecycle actions remain available")
  else if has MismatchActiveContainerStopped then
    (ReconciliationRepairable, RepairStartActive, "exact active runtime is stopped")
  else if has MismatchCandidateOrphaned || has MismatchCleanupPending then
    (ReconciliationCleanupPending, RepairCleanupResources,
     "exact non-active runtime resources require cleanup")
  else if has MismatchRetainedGenerationMissing then
    (ReconciliationDegraded, RepairAcknowledgeRetainedLoss,
     "retained recovery generation is no longer available")
  else (ReconciliationConsistent, RepairNone, "helper authority and runtime observation agree").

Definition finish (r : ReconciliationResult) : ReconciliationResult :=
  let codes := uniqueCodes (rr_MismatchCodes r) in
  let '(state, action, summary) := classify codes in
  r <| rr_MismatchCodes := codes |> <| rr_State := state |> <| rr_RecommendedAction := action |>
    <| rr_Summary := summary |>.

(** ** Statements *)
Definition reconcile_rank (s : gen_status_t) : Z :=
  match s with
  | GenActive => 0 | GenVerificationRequired => 1 | GenRetained => 2 | GenCleanupPending => 3 | _ => 4
  end.

Definition reconcile_le (a b : (string * Z) * genRow) : Prop :=
  reconcile_rank (g_status a.2) < reconcile_rank (g_status b.2) \/
  (reconcile_rank (g_status a.2) = reconcile_rank (g_status b.2) /\ b.1.2 <= a.1.2).
#[export] Instance reconcile_le_dec a b : Decision (reconcile_le a b).
Proof. unfold reconcile_le. apply _. Defined.

Definition ReconciliationGenerations (installation : string) : tx db (list MultiGeneration) :=
  let* d := tget in
  load_all installation (map (fun kr => kr.1.2) (merge_sort reconcile_le
    (select (fun k r => k.1 = installation /\ g_status r <> GenRemoved) (db_gens d)))).

Definition LatestRemovedGeneration (installation : string) : tx db MultiGeneration :=
  let* kr := trow (fun d => head (merge_sort newest_row_le
    (select (fun k r => k.1 = installation /\ g_status r = GenRemoved) (db_gens d)))) in
  LoadMultiGeneration installation kr.1.2.

Definition ComponentFinding_json (f : ComponentFinding) : json :=
  JObj (freq "component_id" (JStr (cf_ComponentID f)) ++ freq "generation" (JNum (cf_Generation f)) ++
        freq "role" (JStr (cf_Role f)) ++ freq "expected_runtime_state" (JStr (cf_ExpectedRuntime f)) ++
        freq "observed_runtime_state" (JStr (cf_ObservedRuntime f)) ++
        fopt "expected_runtime_id" (JStr (cf_ExpectedRuntimeID f)) ++
        fopt "observed_runtime_id" (JStr (cf_ObservedRuntimeID f)) ++
        fopt "mismatch_codes" (jarr JStr (cf_MismatchCodes f))).

(** Evidence is bounded; a nil slice is written as null. *)
Definition evidence_json (findings : list ComponentFinding) : string :=
  marshal (jslice ComponentFinding_json (appended findings)).

Definition result_row (r : ReconciliationResult) : reconRow :=
  {| rc_classification := rr_State r; rc_observed_at := rr_ObservedAt r; rc_summary := rr_Summary r;
     rc_checked_generation := rr_CheckedGeneration r; rc_runtime_state := rr_RuntimeState r;
     rc_runtime_identity := rr_RuntimeIdentity r; rc_codes := rr_MismatchCodes r;
     rc_action := rr_RecommendedAction r; rc_operation := rr_OriginatingOperation r;
     rc_evidence := rr_Components r |}.

Definition SaveReconciliation (result : ReconciliationResult) : tx db unit :=
  do* tassert (Z.of_nat (String.length (evidence_json (rr_Components result))) <= 32 * 1024)
        "reconciliation evidence exceeds bounded record" in
  fun d => Ok (tt, d <| db_recon := <[rr_InstallationID result := result_row result]> (db_recon d) |>).

(** The projection is attached again when the checked generation is active. *)
Definition loaded_projection (installation : string) (row : reconRow) (d : db) : option CommittedProjection :=
  if decide (0 < rc_checked_generation row) then
    match LoadMultiGeneration installation (rc_checked_generation row) d with
    | Ok (g, _) =>
        if decide (mg_Status g = "active") then
          Some {| cp_Generation := mg_Generation g; cp_ReleaseID := mg_ReleaseID g;
                  cp_RuntimeState := rc_runtime_state row; cp_Bindings := mg_Bindings g |}
        else None
    | Err _ => None
    end
  else None.

Definition LoadReconciliation (installation : string) : tx db ReconciliationResult :=
  let* row := trow (fun d => db_recon d !! installation) in
  let* d := tget in
  tret {| rr_InstallationID := installation; rr_CheckedGeneration := rc_checked_generation row;
          rr_State := rc_classification row; rr_RuntimeState := rc_runtime_state row;
          rr_RuntimeIdentity := rc_runtime_identity row; rr_ObservedAt := rc_observed_at row;
          rr_MismatchCodes := rc_codes row; rr_RecommendedAction := rc_action row;
          rr_OriginatingOperation := rc_operation row; rr_Summary := rc_summary row;
          rr_Components := rc_evidence row; rr_Projection := loaded_projection installation row d |}.

Definition MarkReconciledAbsent (generation : MultiGeneration) : tx db unit :=
  let k := mgen_key generation in
  let* changed := update_gens (fun k' r => k' = k /\
        (g_status r = GenCleanupPending \/ g_status r = GenFailed))
        (fun r => r <| g_status := GenRemoved |> <| g_cleanup := CleanupClean |>) in
  if decide (changed = 0%nat) then tret tt
  else
    do* update_comps (fun kc _ => kc.1 = k) (fun r => r <| c_state := CompRemoved |>) in
    tret tt.

(** [SELECT DISTINCT installation_id ... WHERE status<>'removed' ORDER BY installation_id] *)
Definition live_installations (d : db) : list string :=
  sort_strings (elements (list_to_set (map (fun kr => kr.1.1)
    (select (fun _ r => g_status r <> GenRemoved) (db_gens d))) : gset string)).

(** ** Statements of a repair ([lifecycle/repair.go]) *)
Definition MarkRetainedCleanupPending (g : MultiGeneration) (operationID : string) (token : Z) : tx db unit :=
  do* verifyGenerationFence (mg_InstallationID g) operationID token in
  let* changed := update_gens (fun k r => k = mgen_key g /\ g_status r = GenRetained)
        (fun r => r <| g_status := GenCleanupPending |> <| g_cleanup := CleanupPending |>) in
  tassert (changed = 1%nat) "retained cleanup transition lost".

Definition non_active (s : gen_status_t) : Prop :=
  s = GenRetained \/ s = GenCleanupPending \/ s = GenFailed \/ s = GenCandidate \/ s = GenPrepared.
#[export] Instance non_active_dec s : Decision (non_active s).
Proof. unfold non_active. apply _. Defined.

Definition MarkNonActiveRemoved (g : MultiGeneration) (operationID : string) (token : Z) : tx db unit :=
  do* verifyGenerationFence (mg_InstallationID g) operationID token in
  let* changed := update_gens (fun k r => k = mgen_key g /\ non_active (g_status r))
        (fun r => r <| g_status := GenRemoved |> <| g_cleanup := CleanupClean |>) in
  do* tassert (changed = 1%nat) "non-active generation cleanup transition lost" in
  do* update_comps (fun kc _ => kc.1 = mgen_key g) (fun r => r <| c_state := CompRemoved |>) in
  tret tt.
