(* ===== verification/LifecycleStoreProofs.v ===== *)
(** * The generation store keeps its history straight

    Inversion of the store's statements, the status graph every transaction
    follows, and the exact effect of the commit. *)

From S2P Require Import Prelude Protocol Exposure HelperDB Coordinator CoordinatorProofs Containers LifecycleStore.
From stdpp Require Import base gmap strings list sorting.
From Stdlib Require Import ZArith Lia.

Open Scope Z_scope.

(** ** Statement-level inversion *)
Lemma update_gens_Ok P `{!forall k r, Decision (P k r)} f d n d' :
  update_gens P f d = Ok (n, d') <->
  one_active (update P f (db_gens d)) /\ n = affected P (db_gens d) /\
  d' = d <| db_gens := update P f (db_gens d) |>.
Proof. unfold update_gens. case_decide; naive_solver. Qed.

Lemma update_comps_Ok P `{!forall k r, Decision (P k r)} f d n d' :
  update_comps P f d = Ok (n, d') <->
  n = affected P (db_comps d) /\ d' = d <| db_comps := update P f (db_comps d) |>.
Proof. unfold update_comps. naive_solver. Qed.

Lemma update_comps_ordinal_Ok P `{!forall k r, Decision (P k r)} f d n d' :
  update_comps_ordinal P f d = Ok (n, d') <->
  ordinals_unique (update P f (db_comps d)) /\ n = affected P (db_comps d) /\
  d' = d <| db_comps := update P f (db_comps d) |>.
Proof. unfold update_comps_ordinal. case_decide; naive_solver. Qed.

Lemma insert_gen_Ok k r d u d' :
  insert_gen k r d = Ok (u, d') <->
  db_gens d !! k = None /\ one_active (<[k:=r]> (db_gens d)) /\
  d' = d <| db_gens := <[k:=r]> (db_gens d) |>.
Proof. unfold insert_gen. destruct u. destruct (db_gens d !! k); [|case_decide]; naive_solver. Qed.

Lemma insert_comp_Ok k r d u d' :
  insert_comp k r d = Ok (u, d') <->
  db_comps d !! k = None /\ ordinal_free k r (db_comps d) /\ is_Some (db_gens d !! k.1) /\
  d' = d <| db_comps := <[k:=r]> (db_comps d) |>.
Proof.
  unfold insert_comp. destruct u. unfold is_Some. destruct (db_comps d !! k); [naive_solver|].
  case_decide; [|naive_solver]. destruct (db_gens d !! k.1); naive_solver.
Qed.

Lemma insert_binding_Ok k b d u d' :
  insert_binding k b d = Ok (u, d') <->
  db_binds d !! (k, ServiceID b) = None /\ is_Some (db_gens d !! k) /\ binding_checks b /\
  d' = d <| db_binds := <[(k, ServiceID b):=b]> (db_binds d) |>.
Proof.
  unfold insert_binding. destruct u. unfold is_Some.
  destruct (db_binds d !! (k, ServiceID b)), (db_gens d !! k); try case_decide; naive_solver.
Qed.

Lemma twhen_Ok P `{!Decision P} m d u d' :
  twhen P m d = Ok (u, d') <-> (P /\ m d = Ok (u, d')) \/ (~ P /\ d' = d).
Proof. unfold twhen, tret. destruct u. case_decide; naive_solver. Qed.

Ltac inv_store_step :=
  match goal with
  | H : update_gens _ _ _ = Ok (_, _) |- _ => apply update_gens_Ok in H; destruct H as (? & ? & ?)
  | H : update_comps _ _ _ = Ok (_, _) |- _ => apply update_comps_Ok in H; destruct H as [? ?]
  | H : update_comps_ordinal _ _ _ = Ok (_, _) |- _ =>
      apply update_comps_ordinal_Ok in H; destruct H as (? & ? & ?)
  | H : insert_gen _ _ _ = Ok (_, _) |- _ => apply insert_gen_Ok in H; destruct H as (? & ? & ?)
  | H : insert_comp _ _ _ = Ok (_, _) |- _ => apply insert_comp_Ok in H; destruct H as (? & ? & ? & ?)
  | H : delete_bindings _ _ = Ok (_, _) |- _ => unfold delete_bindings in H; injection H as ? ?
  | H : twhen _ _ _ = Ok (_, _) |- _ => apply twhen_Ok in H; destruct H as [[? H]|[? H]]
  end.
Ltac inv_store := repeat (first [inv_tx_step | inv_store_step | inv_db_step]; simplify_eq/=).

(** Replacing bindings touches only the bindings of that generation. *)
Definition only_bindings (k : string * Z) (d d' : db) : Prop :=
  exists m, d' = d <| db_binds := m |> /\
    forall k', k'.1 <> k -> m !! k' = db_binds d !! k'.

Lemma only_bindings_refl k d : only_bindings k d d.
Proof. exists (db_binds d). by destruct d. Qed.

Lemma only_bindings_trans k d1 d2 d3 :
  only_bindings k d1 d2 -> only_bindings k d2 d3 -> only_bindings k d1 d3.
Proof.
  intros (m1 & -> & H1) (m2 & -> & H2). exists m2. split; [done|].
  intros k' Hk. rewrite H2 by done. by apply H1.
Qed.

Lemma tforeach_bindings k l d u d' :
  tforeach (insert_binding k) l d = Ok (u, d') ->
  only_bindings k d d' /\ NoDup (ServiceID <$> l) /\
  (forall b, b ∈ l -> db_binds d !! (k, ServiceID b) = None) /\
  forall sid b, db_binds d' !! (k, sid) = Some b <->
    db_binds d !! (k, sid) = Some b \/ (b ∈ l /\ ServiceID b = sid).
Proof.
  revert d. induction l as [|x l IH]; intros d H; cbn in H.
  - inv_tx. split_and!; [apply only_bindings_refl|constructor|set_solver|set_solver].
  - apply tbind_Ok in H as (? & d1 & Hb & H). apply insert_binding_Ok in Hb as (Hfree & _ & _ & ->).
    destruct (IH _ H) as (Ho & Hnd & Hn & Hl). cbn in Hn, Hl.
    assert (forall b, b ∈ l -> ServiceID b <> ServiceID x) as Hne.
    { intros b Hb Heq. specialize (Hn b Hb). rewrite Heq in Hn. by simplify_map_eq. }
    split_and!.
    + eapply only_bindings_trans; [|exact Ho]. eexists. split; [reflexivity|].
      intros k' Hk'. rewrite lookup_insert_ne; [done|]. by intros <-.
    + rewrite fmap_cons. constructor; [|done]. intros (b & Heq & Hb)%list_elem_of_fmap. by eapply Hne.
    + intros b [->|Hb]%elem_of_cons; [done|]. specialize (Hn b Hb).
      apply lookup_insert_None in Hn. naive_solver.
    + intros sid b. rewrite Hl, elem_of_cons. destruct (decide (sid = ServiceID x)) as [->|Hs].
      * rewrite lookup_insert_eq. split; [naive_solver|].
        intros [?|[[->|Hb] Hsb]]; [congruence|naive_solver|]. by destruct (Hne b Hb).
      * rewrite lookup_insert_ne by congruence. naive_solver.
Qed.

Lemma replaceBindings_Ok k bs d u d' :
  replaceBindings k bs d = Ok (u, d') ->
  only_bindings k d d' /\ Z.of_nat (length bs) <= MaxBindings /\ NoDup (ServiceID <$> bs) /\
  forall sid b, db_binds d' !! (k, sid) = Some b <-> b ∈ bs /\ ServiceID b = sid.
Proof.
  unfold replaceBindings. intros H. apply tbind_Ok in H as (? & d0 & Ha & H).
  apply tassert_Ok in Ha as [Hlen <-]. apply tbind_Ok in H as (? & d1 & Hd & H).
  unfold delete_bindings in Hd. injection Hd as _ <-.
  apply tforeach_bindings in H as (Ho & Hnd & _ & Hl). cbn in Hl. split_and!; [|done| |].
  - eapply only_bindings_trans; [|exact Ho]. eexists. split; [reflexivity|].
    intros k' Hk'. destruct (db_binds d !! k') as [b|] eqn:E.
    + apply map_lookup_filter_Some. done.
    + apply map_lookup_filter_None. by left.
  - unfold Normalize in Hnd. by rewrite sort_by_perm in Hnd.
  - intros sid b. rewrite Hl. unfold Normalize. rewrite elem_of_sort_by.
    rewrite map_lookup_filter_Some. cbn. naive_solver.
Qed.

(** ** The status graph *)

(** The edges a generation's status may take in one transaction. *)
Definition edge (s s' : gen_status_t) : bool :=
  match s, s' with
  | GenVerificationRequired, GenActive
  | GenPrepared, (GenCandidate | GenFailed | GenRemoved)
  | GenCandidate, (GenActive | GenFailed | GenRemoved)
  | GenActive, (GenRetained | GenCleanupPending | GenRemoved)
  | GenRetained, (GenCleanupPending | GenRemoved)
  | GenCleanupPending, GenRemoved
  | GenFailed, (GenRemoved | GenPrepared)
  | GenRemoved, GenPrepared => true
  | _, _ => false
  end.

(** What a generation row keeps until it is cleaned up and prepared again. *)
Definition same_plan (r r' : genRow) : Prop :=
  g_operation r' = g_operation r /\ g_application r' = g_application r /\
  g_release r' = g_release r /\ g_network_name r' = g_network_name r /\
  g_plan_hash r' = g_plan_hash r /\ g_topology_hash r' = g_topology_hash r /\
  g_data_path r' = g_data_path r /\ g_created_at r' = g_created_at r.

Definition gen_change (o o' : option genRow) : Prop :=
  match o, o' with
  | None, None => True
  | None, Some r => g_status r = GenPrepared \/ g_status r = GenVerificationRequired \/
                    (g_status r = GenRemoved /\ g_cleanup r = CleanupClean)
  | Some r, Some r' =>
      r' = r \/
      (edge (g_status r) (g_status r') = true /\
       if decide (g_status r' = GenPrepared) then g_cleanup r = CleanupClean else same_plan r r')
  | Some _, None => False
  end.

(** The step ledger: no step is forgotten, and what it intends and when it was
    dispatched never change. *)
Definition step_change (o o' : option stepRow) : Prop :=
  match o, o' with
  | None, _ => True
  | Some r, Some r' =>
      st_installation r' = st_installation r /\ st_expected_id r' = st_expected_id r /\
      st_intent_at r' = st_intent_at r /\
      (is_Some (st_dispatched_at r) -> st_dispatched_at r' = st_dispatched_at r)
  | Some _, None => False
  end.

Record store_effect (inst : string) (d d' : db) : Prop := {
  se_active : one_active (db_gens d) -> one_active (db_gens d');
  se_gens : forall k, gen_change (db_gens d !! k) (db_gens d' !! k);
  se_other_gens : forall k, k.1 <> inst -> db_gens d' !! k = db_gens d !! k;
  se_other_comps : forall k, k.1.1 <> inst -> db_comps d' !! k = db_comps d !! k;
  se_other_binds : forall k, k.1.1 <> inst -> db_binds d' !! k = db_binds d !! k;
  se_comps_kept : forall k, is_Some (db_comps d !! k) -> is_Some (db_comps d' !! k);
  se_steps : forall k, step_change (db_steps d !! k) (db_steps d' !! k);
  se_ownership : db_ownership d' = db_ownership d
}.

Lemma gen_change_refl o : gen_change o o.
Proof. destruct o; simpl; auto. Qed.

Lemma step_change_refl o : step_change o o.
Proof. destruct o; simpl; auto. Qed.

Lemma step_change_trans o1 o2 o3 : step_change o1 o2 -> step_change o2 o3 -> step_change o1 o3.
Proof.
  destruct o1 as [r1|], o2 as [r2|], o3 as [r3|]; simpl; try done.
  intros (? & ? & ? & Hd1) (? & ? & ? & Hd2). split_and!; try congruence.
  intros Hs. rewrite Hd2; [by apply Hd1|]. by rewrite (Hd1 Hs).
Qed.

Lemma store_effect_refl inst d : store_effect inst d d.
Proof. split; auto using gen_change_refl, step_change_refl. Qed.
#[export] Hint Resolve gen_change_refl step_change_refl store_effect_refl : kit.

(** The operation and lease tables are not touched. *)
Definition no_authority (d d' : db) : Prop :=
  db_ops d' = db_ops d /\ db_leases d' = db_leases d.

Lemma only_bindings_effect k d d' :
  only_bindings k d d' -> store_effect k.1 d d' /\ no_authority d d' /\
  db_gens d' = db_gens d /\ db_comps d' = db_comps d /\ db_events d' = db_events d.
Proof.
  intros (m & -> & Hm). split; [split; cbn; auto with kit|done].
  intros k' Hk'. apply Hm. by intros <-.
Qed.

(** Effects compose when each key changes in at most one of the two. *)
Lemma store_effect_seq inst d1 d2 d3 :
  store_effect inst d1 d2 -> store_effect inst d2 d3 ->
  (forall k, gen_change (db_gens d1 !! k) (db_gens d3 !! k)) -> store_effect inst d1 d3.
Proof.
  intros [] [] Hg. split; intuition; try congruence.
  - rewrite se_other_gens1, se_other_gens0; auto.
  - rewrite se_other_comps1, se_other_comps0; auto.
  - rewrite se_other_binds1, se_other_binds0; auto.
  - eauto using step_change_trans.
Qed.

Lemma update_is_Some {K R} `{Countable K} (P : K -> R -> Prop) `{!forall k r, Decision (P k r)} f m k :
  is_Some (update P f m !! k) <-> is_Some (m !! k).
Proof. rewrite lookup_update. by rewrite fmap_is_Some. Qed.

(** [solve_effect]: every key of the tables after a list of statements. *)
Ltac lookup_rows :=
  repeat first
    [ rewrite lookup_update
    | match goal with
      | |- context [<[?k:=_]> _ !! ?k'] =>
          destruct (decide (k = k')) as [<-|]; [rewrite lookup_insert_eq|rewrite lookup_insert_ne by done]
      end ].

Ltac solve_rows :=
  intros; lookup_rows;
  repeat match goal with
  | |- context [?m !! ?k] => destruct (m !! k) eqn:?; cbn
  end;
  repeat case_decide; destruct_and?; destruct_or?; simplify_eq/=;
  rewrite ?decide_True, ?decide_False by done;
  unfold same_plan, reusable in *; destruct_and?;
  repeat match goal with H : g_status _ = _ |- _ => rewrite H end;
  repeat match goal with H : ?k.1 = _, H' : context [?k.1] |- _ =>
    lazymatch H' with H => fail | _ => rewrite H in H' end end;
  try done; intuition (try congruence); eauto.

Ltac solve_effect :=
  split; cbn;
  [ try done; auto | solve_rows | solve_rows | solve_rows | solve_rows
  | intros; rewrite ?update_is_Some, ?lookup_insert_is_Some; intuition
  | intros; apply step_change_refl | done ].

Lemma RecordNetwork_effect plan nid d u d' :
  RecordNetwork plan nid d = Ok (u, d') ->
  store_effect (p_InstallationID plan) d d' /\ no_authority d d'.
Proof. unfold RecordNetwork, plan_key. intros H. inv_store. split; [solve_effect|done]. Qed.

Lemma MarkFailed_effect plan c d u d' :
  MarkFailed plan c d = Ok (u, d') ->
  store_effect (p_InstallationID plan) d d' /\ no_authority d d'.
Proof. unfold MarkFailed, plan_key. intros H. inv_store. split; [solve_effect|done]. Qed.

Lemma RecordState_effect plan s v now d u d' :
  RecordState plan s v now d = Ok (u, d') ->
  store_effect (p_InstallationID plan) d d' /\ no_authority d d'.
Proof. unfold RecordState, plan_key. intros H. inv_store. split; [solve_effect|done]. Qed.

(** ** The generation fence *)
Definition gen_fenced (d : db) (inst operation : string) (token : Z) (o : opRow) (l : leaseRow) : Prop :=
  db_leases d !! inst = Some l /\ ls_operation l = operation /\ ls_token l = token /\
  ls_state l = LeaseHeld /\ db_ops d !! operation = Some o /\ op_token o = Some token.

Lemma verifyGenerationFence_Ok inst operation token d u d' :
  verifyGenerationFence inst operation token d = Ok (u, d') <->
  d' = d /\ exists o l, gen_fenced d inst operation token o l.
Proof.
  unfold verifyGenerationFence, get_op, get_lease, gen_fenced. split.
  - intros H. inv_db. naive_solver.
  - intros (-> & o & l & Hl & <- & <- & Hs & Ho & Ht). destruct u.
    unfold tbind, trow. rewrite Hl. simpl. rewrite Ho. unfold scan_token. rewrite Ht. simpl.
    unfold tassert. rewrite decide_True by done. done.
Qed.

Ltac inv_gen_fence :=
  repeat match goal with
  | H : verifyGenerationFence _ _ _ _ = Ok (_, _) |- _ =>
      apply verifyGenerationFence_Ok in H; destruct H as (? & ? & ? & ?); simplify_eq/=
  | H : appendEvent _ _ _ _ _ _ _ _ = Ok (_, _) |- _ => unfold appendEvent in H
  end.
Ltac inv_gen := repeat (progress (inv_store; inv_gen_fence)).

Lemma RecordContainer_effect plan cid iid h s now d u d' :
  RecordContainer plan cid iid h s now d = Ok (u, d') ->
  store_effect (p_InstallationID plan) d d' /\ no_authority d d' /\
  exists o l, gen_fenced d (p_InstallationID plan) (p_OperationID plan) (p_FencingToken plan) o l.
Proof.
  unfold RecordContainer, plan_key. intros H. inv_gen.
  split_and!; [solve_effect|done|eauto].
Qed.

Lemma RecordMigratedConfiguration_effect inst gen h d u d' :
  RecordMigratedConfiguration inst gen h d = Ok (u, d') ->
  store_effect inst d d' /\ no_authority d d'.
Proof.
  unfold RecordMigratedConfiguration. intros H. inv_gen. split; [solve_effect|done].
Qed.

Lemma PromoteMigratedState_effect g nid iid h s op t now d u d' :
  PromoteMigratedState g nid iid h s op t now d = Ok (u, d') ->
  store_effect (gn_InstallationID g) d d' /\ no_authority d d'.
Proof.
  unfold PromoteMigratedState. intros H. inv_gen; (split; [solve_effect|done]).
Qed.

Lemma MarkActiveRemoved_effect inst gen op t d u d' :
  MarkActiveRemoved inst gen op t d = Ok (u, d') ->
  store_effect inst d d' /\ no_authority d d' /\ exists o l, gen_fenced d inst op t o l.
Proof.
  unfold MarkActiveRemoved. intros H. inv_gen. split_and!; [solve_effect|done|eauto].
Qed.

Lemma MarkRemoved_generation_effect g d u d' :
  MarkRemoved_generation g d = Ok (u, d') ->
  store_effect (gn_InstallationID g) d d' /\ no_authority d d'.
Proof.
  unfold MarkRemoved_generation, gen_key. intros H. inv_gen. split; [solve_effect|done].
Qed.

Lemma MarkRemoved_components_effect g d u d' :
  MarkRemoved_components g d = Ok (u, d') ->
  store_effect (gn_InstallationID g) d d' /\ no_authority d d'.
Proof.
  unfold MarkRemoved_components, gen_key. intros H. inv_gen. split; [solve_effect|done].
Qed.

Lemma MarkCleanupPending_effect g d u d' :
  MarkCleanupPending g d = Ok (u, d') ->
  store_effect (gn_InstallationID g) d d' /\ no_authority d d'.
Proof.
  unfold MarkCleanupPending, gen_key. intros H. inv_gen. split; [solve_effect|done].
Qed.

Lemma prepare_rows_Ok plan now d u d' :
  prepare_rows plan now d = Ok (u, d') ->
  d' = d <| db_gens := <[plan_key plan := prepared_gen plan now]> (db_gens d) |>
         <| db_comps := <[(plan_key plan, "app") := prepared_comp plan now]> (db_comps d) |> /\
  (forall r, db_gens d !! plan_key plan = Some r -> reusable r) /\
  one_active (<[plan_key plan := prepared_gen plan now]> (db_gens d)).
Proof.
  unfold prepare_rows. intros H. apply tbind_Ok in H as (d0 & ? & Hd & H).
  apply tget_Ok in Hd as [-> <-]. destruct (db_gens d !! plan_key plan) as [r|] eqn:Hr.
  - inv_gen.
    rewrite (update_pk _ _ _ (plan_key plan) r) in * by (try pk_side; done).
    erewrite (update_pk _ _ _ (plan_key plan, "app")) in * by (try pk_side; done).
    split_and!; try done; naive_solver.
  - inv_gen. done.
Qed.

Lemma Prepare_Ok plan now d u d' :
  Prepare plan now d = Ok (u, d') ->
  exists d1, d1 = d <| db_gens := <[plan_key plan := prepared_gen plan now]> (db_gens d) |>
      <| db_comps := <[(plan_key plan, "app") := prepared_comp plan now]> (db_comps d) |> /\
    only_bindings (plan_key plan) d1 d' /\
    (forall r, db_gens d !! plan_key plan = Some r -> reusable r) /\
    one_active (db_gens d1) /\ NoDup (ServiceID <$> p_Bindings plan) /\
    (forall sid b, db_binds d' !! (plan_key plan, sid) = Some b <->
       b ∈ p_Bindings plan /\ ServiceID b = sid).
Proof.
  unfold Prepare. intros H. apply tbind_Ok in H as (? & d1 & Hp & H).
  apply prepare_rows_Ok in Hp as (-> & Hr & Ho). apply replaceBindings_Ok in H as (Hb & _ & Hnd & Hl).
  eauto 10.
Qed.

Lemma Prepare_effect plan now d u d' :
  Prepare plan now d = Ok (u, d') ->
  store_effect (p_InstallationID plan) d d' /\ no_authority d d'.
Proof.
  intros H. apply Prepare_Ok in H as (d1 & Hd1 & (m & -> & Hm) & Hr & Ho & _). subst d1. split; [|done].
  split; cbn; auto with kit.
  - intros k. lookup_rows; [|auto with kit].
    destruct (db_gens d !! plan_key plan) as [r|] eqn:E; cbn; [|by left].
    destruct (Hr r eq_refl) as [Hs ?]. right. split; [|done].
    destruct Hs as [-> | ->]; done.
  - intros k Hk. rewrite lookup_insert_ne; [done|]. by intros <-.
  - intros k Hk. rewrite lookup_insert_ne; [done|]. by intros <-.
  - intros k Hk. apply Hm. intros Heq. rewrite Heq in Hk. done.
  - intros k Hk. rewrite lookup_insert_is_Some. destruct (decide ((plan_key plan, "app") = k)); auto.
Qed.

(** ** [INSERT OR IGNORE] *)
Lemma insert_gen_ignore_Ok k r d u d' :
  insert_gen_ignore k r d = Ok (u, d') -> d' = d \/
  (db_gens d !! k = None /\ one_active (<[k:=r]> (db_gens d)) /\
   d' = d <| db_gens := <[k:=r]> (db_gens d) |>).
Proof.
  unfold insert_gen_ignore. destruct (insert_gen k r d) as [[? ?]|] eqn:E; intros [= <- <-]; [right|by left].
  by apply insert_gen_Ok in E.
Qed.

Lemma insert_comp_ignore_Ok k r d u d' :
  insert_comp_ignore k r d = Ok (u, d') -> d' = d \/
  (db_comps d !! k = None /\ d' = d <| db_comps := <[k:=r]> (db_comps d) |>).
Proof.
  unfold insert_comp_ignore. destruct (db_comps d !! k) eqn:Hk; [intros [= <- <-]; by left|].
  case_decide; [|intros [= <- <-]; by left]. intros Hi%insert_comp_Ok. naive_solver.
Qed.

Lemma insert_binding_ignore_Ok k b d u d' :
  insert_binding_ignore k b d = Ok (u, d') -> only_bindings k d d'.
Proof.
  unfold insert_binding_ignore. destruct (db_binds d !! _) eqn:Hk;
    [intros [= <- <-]; apply only_bindings_refl|].
  case_decide; [|intros [= <- <-]; apply only_bindings_refl].
  intros (_ & _ & _ & ->)%insert_binding_Ok. eexists. split; [reflexivity|].
  intros k' Hk'. rewrite lookup_insert_ne; [done|]. by intros <-.
Qed.

(** A statement that leaves the generation table alone composes on the right. *)
Lemma store_effect_then inst d1 d2 d3 :
  store_effect inst d1 d2 -> store_effect inst d2 d3 -> db_gens d3 = db_gens d2 ->
  store_effect inst d1 d3.
Proof.
  intros H1 H2 Hg. eapply store_effect_seq; [done..|]. rewrite Hg. apply H1.
Qed.

Lemma legacy_gen_effect inst n r d u d' :
  insert_gen_ignore (inst, n) r d = Ok (u, d') ->
  g_status r = GenVerificationRequired \/ (g_status r = GenRemoved /\ g_cleanup r = CleanupClean) ->
  store_effect inst d d' /\ no_authority d d'.
Proof.
  intros [->|(Hn & Ho & ->)]%insert_gen_ignore_Ok Hs; [by split; auto with kit|].
  split; [|done]. split; cbn; auto with kit.
  - intros k. lookup_rows; [rewrite Hn; cbn; naive_solver|auto with kit].
  - intros k Hk. rewrite lookup_insert_ne; [done|]. by intros <-.
Qed.

Lemma legacy_comp_effect inst n c r d u d' :
  insert_comp_ignore ((inst, n), c) r d = Ok (u, d') ->
  store_effect inst d d' /\ no_authority d d' /\ db_gens d' = db_gens d.
Proof.
  intros [->|(Hn & ->)]%insert_comp_ignore_Ok; [by split_and!; auto with kit|].
  split_and!; [|done..]. split; cbn; auto with kit.
  - intros k Hk. rewrite lookup_insert_ne; [done|]. by intros <-.
  - intros k Hk. rewrite lookup_insert_is_Some. destruct (decide (((inst, n), c) = k)); auto.
Qed.

Lemma no_authority_trans d1 d2 d3 : no_authority d1 d2 -> no_authority d2 d3 -> no_authority d1 d3.
Proof. unfold no_authority. intros [-> ->] [-> ->]. done. Qed.

Lemma BackfillInstallation_effect inst d u d' :
  BackfillInstallation inst d = Ok (u, d') ->
  store_effect inst d d' /\ no_authority d d'.
Proof.
  unfold BackfillInstallation. intros H. apply tbind_Ok in H as (d0 & ? & Hd & H).
  apply tget_Ok in Hd as [-> <-]. destruct (db_ownership d !! inst) as [o|].
  2:{ apply tret_Ok in H as [_ <-]. by split; auto with kit. }
  apply tbind_Ok in H as (? & d1 & H1 & H). apply tbind_Ok in H as (? & d2 & H2 & H).
  apply tbind_Ok in H as (? & d3 & H3 & H). apply tbind_Ok in H as (? & d4 & H4 & H5).
  apply twhen_Ok in H1, H2, H3, H4, H5.
  assert (store_effect inst d4 d' /\ no_authority d4 d' /\ db_gens d' = db_gens d4) as (E5 & A5 & G5).
  { destruct H5 as [[_ H5]|[_ ->]]; [|by split_and!; auto with kit].
    apply insert_binding_ignore_Ok, only_bindings_effect in H5. naive_solver. }
  assert (forall da db c s v, (c /\ insert_comp_ignore (inst, ow_generation o, "app") (legacy_comp o s) da = Ok (v, db)) \/
            (~ c /\ db = da) -> store_effect inst da db /\ no_authority da db /\ db_gens db = db_gens da) as Hc.
  { intros da db c s v [[_ Hc]|[_ ->]]; [by eapply legacy_comp_effect|by split_and!; auto with kit]. }
  destruct (Hc _ _ _ _ _ H2) as (E2 & A2 & G2), (Hc _ _ _ _ _ H4) as (E4 & A4 & G4).
  destruct H1 as [[[_ Hne] H1]|[_ ->]].
  - destruct H3 as [[[_ He] _]|[_ ->]]; [done|].
    apply legacy_gen_effect in H1 as [E1 A1]; [|by left].
    split; [|eauto using no_authority_trans].
    eapply store_effect_then; [|exact E5|done]. eapply store_effect_then; [|exact E4|done].
    by eapply store_effect_then.
  - assert (store_effect inst d2 d3 /\ no_authority d2 d3) as [E3 A3].
    { destruct H3 as [[_ H3]|[_ ->]]; [|by split; auto with kit].
      eapply legacy_gen_effect; [exact H3|]. by right. }
    split; [|eauto using no_authority_trans].
    eapply store_effect_then; [|exact E5|done]. eapply store_effect_then; [|exact E4|done].
    eapply store_effect_seq; [done..|]. rewrite <- G2. apply E3.
Qed.

(** ** The commit *)
Lemma active_generation_Some inst d n :
  active_generation inst d = Some n ->
  exists r, db_gens d !! (inst, n) = Some r /\ g_status r = GenActive.
Proof.
  unfold active_generation. intros ([[i m] r] & -> & Hin)%head_Some_elem_of%list_elem_of_fmap.
  apply elem_of_select in Hin as (Hr & Hi & Hs). cbn in *. subst i. eauto.
Qed.

Lemma active_generation_None inst d :
  active_generation inst d = None <->
  forall n r, db_gens d !! (inst, n) = Some r -> g_status r <> GenActive.
Proof.
  unfold active_generation. rewrite head_None. split.
  - intros Hn n r Hr Hs. apply fmap_nil_inv in Hn.
    assert (((inst, n), r) ∈ select (fun k r => k.1 = inst /\ g_status r = GenActive) (db_gens d)) as Hin
      by by apply elem_of_select.
    rewrite Hn in Hin. by apply elem_of_nil in Hin.
  - intros Hn. apply elem_of_nil_inv. intros n ([[i m] r] & _ & Hin)%list_elem_of_fmap.
    apply elem_of_select in Hin as (Hr & Hi & Hs). cbn in *. subst i. by eapply Hn.
Qed.

Lemma active_generation_iff inst d n :
  one_active (db_gens d) ->
  active_generation inst d = Some n <->
  exists r, db_gens d !! (inst, n) = Some r /\ g_status r = GenActive.
Proof.
  intros Ho. split; [apply active_generation_Some|]. intros (r & Hr & Hs).
  destruct (active_generation inst d) as [m|] eqn:E.
  - apply active_generation_Some in E as (r' & Hr' & Hs').
    assert ((inst, n) = (inst, m)) as Hnm by exact (Ho _ _ Hr' Hs' _ _ Hr Hs eq_refl). congruence.
  - by destruct (proj1 (active_generation_None inst d) E n r Hr).
Qed.

(** An [UPDATE] that activates no row keeps the index. *)
Lemma one_active_update P `{!forall k r, Decision (P k r)} f m :
  one_active m -> (forall k r, P k r -> g_status (f r) = GenActive -> g_status r = GenActive) ->
  one_active (update P f m).
Proof.
  intros Ho Hf k r Hr Hs k' r' Hr' Hs' Hk.
  apply lookup_update_Some in Hr as (r0 & Hr0 & ->), Hr' as (r0' & Hr0' & ->).
  assert (forall k r, g_status (if decide (P k r) then f r else r) = GenActive -> g_status r = GenActive)
    as Hf' by (intros k1 r1; destruct (decide (P k1 r1)); [by apply (Hf k1)|done]).
  eapply Ho; eauto.
Qed.

(** Activating one row of an installation without an active one keeps it. *)
Lemma one_active_activate P `{!forall k r, Decision (P k r)} f m k0 :
  one_active m -> (forall k r, P k r -> k = k0) ->
  (forall k r, m !! k = Some r -> k.1 = k0.1 -> g_status r <> GenActive) ->
  one_active (update P f m).
Proof.
  intros Ho Hk0 Hno k r Hr Hs k' r' Hr' Hs' Hk.
  apply lookup_update_Some in Hr as (r0 & Hr0 & ->), Hr' as (r0' & Hr0' & ->).
  destruct (decide (P k r0)) as [Hp|Hp], (decide (P k' r0')) as [Hp'|Hp'].
  - by rewrite (Hk0 k' r0'), (Hk0 k r0).
  - apply Hk0 in Hp as ->. by destruct (Hno k' r0').
  - apply Hk0 in Hp' as ->. by destruct (Hno k r0).
  - eapply Ho; eauto.
Qed.

(** What the commit makes of each row of its installation: the candidate
    becomes active, the active one is retained (or queued for cleanup when it
    was being repaired), and older retained ones are queued for cleanup. *)
Definition commit_row (plan : Plan) (now : string) (k : string * Z) (r : genRow) : genRow :=
  if decide (k = plan_key plan) then
    r <| g_status := GenActive |> <| g_verified_at := Some (default now (g_verified_at r)) |>
      <| g_committed_at := Some now |> <| g_cleanup := CleanupClean |>
  else if decide (k.1 = p_InstallationID plan /\ g_status r = GenActive) then
    r <| g_status := if p_AllowMissingActive plan then GenCleanupPending else GenRetained |>
      <| g_retired_at := Some now |>
      <| g_cleanup := if p_AllowMissingActive plan then CleanupPending else CleanupNotRequired |>
  else if decide (k.1 = p_InstallationID plan /\ g_status r = GenRetained /\
                  k.2 <> p_ExpectedGeneration plan) then
    r <| g_status := GenCleanupPending |> <| g_cleanup := CleanupPending |>
  else r.

Definition commit_event (plan : Plan) (now : string) : eventRow :=
  {| ev_operation := p_OperationID plan; ev_installation := p_InstallationID plan;
     ev_token := Some (p_FencingToken plan); ev_kind := "generation_committed";
     ev_phase := "generation_commit";
     ev_facts := [("active_generation", sprint (p_Generation plan));
                  ("previous_generation", sprint (p_ExpectedGeneration plan))];
     ev_created_at := now |}.

Definition commit_db (plan : Plan) (now : string) (d : db) : db :=
  d <| db_gens := map_imap (fun k r => Some (commit_row plan now k r)) (db_gens d) |>
    <| db_events := db_events d ++ [commit_event plan now] |>.

(** When it may happen: the operation holds the lease under its token, the
    generation it expects to replace is the current one, and its own
    candidate is recorded as running with a configuration hash. *)
Definition commit_guard (plan : Plan) (d : db) : Prop :=
  (exists o l, gen_fenced d (p_InstallationID plan) (p_OperationID plan) (p_FencingToken plan) o l) /\
  (baseline (p_InstallationID plan) d).2 = p_ExpectedGeneration plan /\
  exists g c, db_gens d !! plan_key plan = Some g /\ g_operation g = p_OperationID plan /\
    db_comps d !! (plan_key plan, "app") = Some c /\ verified_candidate g c.

Lemma candidate_row_Some k op d g c :
  candidate_row k op d = Some (g, c) <->
  db_gens d !! k = Some g /\ db_comps d !! (k, "app") = Some c /\ g_operation g = op.
Proof.
  unfold candidate_row. destruct (db_gens d !! k), (db_comps d !! (k, "app")); try case_decide; naive_solver.
Qed.

Lemma tbind_run {S A B} (m : tx S A) (f : A -> tx S B) s a s1 :
  m s = Ok (a, s1) -> tbind m f s = f a s1.
Proof. unfold tbind. by intros ->. Qed.

Section commit.
Context (plan : Plan) (now : string) (d : db).
Let inst := p_InstallationID plan.
Let expected := p_ExpectedGeneration plan.

(** The three [UPDATE]s of the commit, on the generation table. *)
Definition retire_active (m : gmap (string * Z) genRow) : gmap (string * Z) genRow :=
  update (fun k r => k = (inst, expected) /\ g_status r = GenActive)
    (fun r => r <| g_status := if p_AllowMissingActive plan then GenCleanupPending else GenRetained |>
       <| g_retired_at := Some now |>
       <| g_cleanup := if p_AllowMissingActive plan then CleanupPending else CleanupNotRequired |>) m.
Definition retire_older (m : gmap (string * Z) genRow) : gmap (string * Z) genRow :=
  update (fun k r => k.1 = inst /\ g_status r = GenRetained /\ k.2 <> expected)
    (fun r => r <| g_status := GenCleanupPending |> <| g_cleanup := CleanupPending |>) m.
Definition activate (m : gmap (string * Z) genRow) : gmap (string * Z) genRow :=
  update (fun k r => k = plan_key plan /\ g_operation r = p_OperationID plan /\ g_status r = GenCandidate)
    (fun r => r <| g_status := GenActive |>
       <| g_verified_at := Some (default now (g_verified_at r)) |>
       <| g_committed_at := Some now |> <| g_cleanup := CleanupClean |>) m.

Definition committed (m : gmap (string * Z) genRow) : gmap (string * Z) genRow :=
  activate (retire_older (if (baseline inst d).1 then retire_active m else m)).

Hypothesis Hone : one_active (db_gens d).
Hypothesis Hguard : commit_guard plan d.

Lemma guard_candidate : exists g, db_gens d !! plan_key plan = Some g /\
  g_operation g = p_OperationID plan /\ g_status g = GenCandidate.
Proof using Hguard. destruct Hguard as (_ & _ & g & c & ? & ? & _ & ? & _). eauto. Qed.

Lemma guard_baseline k r :
  db_gens d !! k = Some r -> k.1 = inst -> g_status r = GenActive ->
  (baseline inst d).1 = true /\ k = (inst, expected).
Proof using Hone Hguard.
  intros Hr Hk Hs. destruct Hguard as (_ & Hb & _). destruct k as [i n]. cbn in Hk. subst i.
  assert (active_generation inst d = Some n) as E by (apply active_generation_iff; eauto).
  unfold baseline in *. fold inst in Hb. rewrite E in Hb |- *. cbn in Hb |- *.
  unfold expected. by rewrite <- Hb.
Qed.

Lemma baseline_active : (baseline inst d).1 = true ->
  exists r, db_gens d !! (inst, expected) = Some r /\ g_status r = GenActive.
Proof using Hguard.
  destruct Hguard as (_ & Hb & _). unfold baseline in *.
  destruct (active_generation _ d) as [n|] eqn:E; [|done]. cbn in Hb.
  apply active_generation_Some in E. unfold expected. by rewrite <- Hb.
Qed.

Lemma committed_rows k :
  committed (db_gens d) !! k = commit_row plan now k <$> db_gens d !! k.
Proof using Hone Hguard.
  destruct guard_candidate as (g & Hg & Hgo & Hgs).
  unfold committed, activate, retire_older, retire_active, commit_row. fold inst. rewrite !lookup_update.
  assert (forall r, db_gens d !! k = Some r -> k.1 = inst -> g_status r = GenActive ->
            (baseline inst d).1 = true /\ k = (inst, expected)) as Hact by apply guard_baseline.
  destruct (decide (k = plan_key plan)) as [->|Hne].
  - destruct (baseline inst d).1; rewrite ?lookup_update, Hg; cbn;
      repeat case_decide; destruct_and?; simplify_eq/=; try congruence; naive_solver.
  - destruct (baseline inst d).1 eqn:Hb; rewrite ?lookup_update;
      destruct (db_gens d !! k) as [r|] eqn:Hr; cbn; try done.
    all: fold inst; fold expected; destruct (decide (k.1 = inst /\ g_status r = GenActive)) as [[Hi Hs]|Hn].
    1, 3: destruct (Hact r eq_refl Hi Hs) as [? ->].
    all: repeat case_decide; destruct_and?; simplify_eq/=; try congruence; naive_solver.
Qed.

(** No statement of the commit breaks the one-active index. *)
Lemma committed_one_active :
  let m1 := if (baseline inst d).1 then retire_active (db_gens d) else db_gens d in
  one_active m1 /\ one_active (retire_older m1) /\ one_active (committed (db_gens d)).
Proof using Hone Hguard.
  intros m1. assert (one_active m1) as H1.
  { subst m1. destruct (baseline inst d).1; [|done]. apply one_active_update; [done|].
    intros k r _. cbn. by destruct (p_AllowMissingActive plan). }
  assert (one_active (retire_older m1)) as H2 by (apply one_active_update; [done|by intros ? ? _]).
  split_and!; [done..|]. apply one_active_activate with (plan_key plan); [done|naive_solver|].
  intros k r Hr Hk Hs. apply lookup_update_Some in Hr as (r1 & Hr1 & ->).
  destruct (decide _); [done|]. subst m1.
  assert (exists r0, db_gens d !! k = Some r0 /\ g_status r0 = GenActive /\
            ((baseline inst d).1 = true -> r1 = r0 /\ k <> (inst, expected))) as (r0 & Hr0 & Hs0 & Hb).
  { destruct (baseline inst d).1; [|by eauto]. apply lookup_update_Some in Hr1 as (r0 & Hr0 & ->).
    exists r0. case_decide; [by destruct (p_AllowMissingActive plan)|]. naive_solver. }
  destruct (guard_baseline k r0 Hr0 Hk Hs0) as [Hb1 ->]. by destruct (Hb Hb1) as [_ []].
Qed.

Lemma retire_active_affected : (baseline inst d).1 = true ->
  affected (fun k r => k = (inst, expected) /\ g_status r = GenActive) (db_gens d) = 1%nat.
Proof using Hguard.
  intros Hb. destruct (baseline_active Hb) as (r & Hr & Hs).
  apply (affected_pk_1 _ _ (inst, expected)); [naive_solver|eauto].
Qed.

Lemma activate_affected m :
  (exists g, m !! plan_key plan = Some g /\ g_operation g = p_OperationID plan /\
     g_status g = GenCandidate) ->
  affected (fun k r => k = plan_key plan /\ g_operation r = p_OperationID plan /\
                       g_status r = GenCandidate) m = 1%nat.
Proof using Type.
  intros (g & Hg & ? & ?). apply (affected_pk_1 _ _ (plan_key plan)); [naive_solver|eauto].
Qed.

Lemma candidate_survives :
  let m1 := if (baseline inst d).1 then retire_active (db_gens d) else db_gens d in
  exists g, retire_older m1 !! plan_key plan = Some g /\ g_operation g = p_OperationID plan /\
    g_status g = GenCandidate.
Proof using Hguard.
  destruct guard_candidate as (g & Hg & Hgo & Hgs). exists g. unfold retire_older. rewrite lookup_update.
  destruct (baseline inst d).1; unfold retire_active; rewrite ?lookup_update, Hg; cbn;
    repeat case_decide; destruct_and?; simplify_eq/=; try congruence; done.
Qed.

Lemma Commit_total : Commit plan now d = Ok (tt, commit_db plan now d).
Proof using Hone Hguard.
  destruct committed_one_active as (O1 & O2 & O3). pose proof committed_rows as Hrows.
  pose proof candidate_survives as Hcand. pose proof retire_active_affected as Hret.
  destruct Hguard as ((o & l & Hf) & Hb & g & c & Hg & Hgo & Hc & Hv).
  unfold Commit. fold inst. fold expected.
  rewrite (tbind_run _ _ _ tt d) by (apply verifyGenerationFence_Ok; eauto).
  rewrite (tbind_run _ _ _ d d) by done.
  rewrite (tbind_run _ _ _ tt d) by by apply tassert_Ok.
  rewrite (tbind_run _ _ _ (g, c) d) by (apply trow_Ok; split; [by apply candidate_row_Some|done]).
  rewrite (tbind_run _ _ _ tt d) by by apply tassert_Ok.
  set (m1 := if (baseline inst d).1 then retire_active (db_gens d) else db_gens d) in *.
  rewrite (tbind_run _ _ _ tt (d <| db_gens := m1 |>)).
  2:{ subst m1. destruct (baseline inst d).1; [|by destruct d].
      rewrite (tbind_run _ _ _ 1%nat (d <| db_gens := retire_active (db_gens d) |>)); [by apply tassert_Ok|].
      apply update_gens_Ok. split_and!; [done|symmetry; by apply Hret|done]. }
  rewrite (tbind_run _ _ _ (affected (fun k r => k.1 = inst /\ g_status r = GenRetained /\ k.2 <> expected) m1)
             (d <| db_gens := retire_older m1 |>)) by by apply update_gens_Ok.
  rewrite (tbind_run _ _ _ 1%nat (d <| db_gens := committed (db_gens d) |>)).
  2:{ apply update_gens_Ok. split_and!; [done|symmetry; by apply activate_affected|done]. }
  rewrite (tbind_run _ _ _ tt (d <| db_gens := committed (db_gens d) |>)) by by apply tassert_Ok.
  unfold appendEvent. apply insert_event_Ok. cbn. destruct Hf as (_ & _ & _ & _ & Ho & _).
  split; [by eexists|]. unfold commit_db, commit_event. fold inst. fold expected.
  f_equal. apply (f_equal (fun m => d <| db_gens := m |>)). apply map_eq. intros k.
  rewrite map_lookup_imap, Hrows. by destruct (db_gens d !! k).
Qed.
End commit.

Lemma Commit_guard plan now d u d' : Commit plan now d = Ok (u, d') -> commit_guard plan d.
Proof.
  unfold Commit, commit_guard. intros H. apply tbind_Ok in H as (? & ? & H1 & H).
  apply verifyGenerationFence_Ok in H1 as (-> & Hf).
  apply tbind_Ok in H as (? & ? & H1 & H). apply tget_Ok in H1 as [-> <-].
  apply tbind_Ok in H as (? & ? & H1 & H). apply tassert_Ok in H1 as [Hb <-].
  apply tbind_Ok in H as ([g c] & ? & H1 & H). apply trow_Ok in H1 as [Hrow <-].
  apply tbind_Ok in H as (? & ? & H1 & _). apply tassert_Ok in H1 as [Hv <-].
  apply candidate_row_Some in Hrow as (? & ? & ?). eauto 10.
Qed.

Lemma Commit_Ok plan now d u d' :
  one_active (db_gens d) ->
  Commit plan now d = Ok (u, d') <-> commit_guard plan d /\ d' = commit_db plan now d.
Proof.
  intros Hone. split.
  - intros H. pose proof (Commit_guard _ _ _ _ _ H) as Hg. split; [done|].
    rewrite (Commit_total plan now d Hone Hg) in H. by injection H.
  - intros [Hg ->]. destruct u. by apply Commit_total.
Qed.

Lemma commit_row_change plan now d k :
  commit_guard plan d ->
  gen_change (db_gens d !! k) (commit_row plan now k <$> db_gens d !! k).
Proof.
  intros (_ & _ & g & c & Hg & _ & _ & Hs & _). unfold commit_row.
  destruct (db_gens d !! k) as [r|] eqn:Hr; [|done]. cbn.
  repeat case_decide; destruct_and?; simplify_eq/=; try by left.
  all: right; unfold same_plan; cbn;
    repeat match goal with H : g_status _ = _ |- _ => rewrite H end;
    destruct (p_AllowMissingActive plan); cbn; done.
Qed.

Lemma Commit_effect plan now d u d' :
  one_active (db_gens d) -> Commit plan now d = Ok (u, d') ->
  store_effect (p_InstallationID plan) d d' /\ no_authority d d'.
Proof.
  intros Hone H. pose proof (Commit_guard _ _ _ _ _ H) as Hg.
  assert (one_active (db_gens d')) as Hone'.
  { unfold Commit in H. inv_gen; done. }
  apply Commit_Ok in H as [_ ->]; [|done]. split; [|done].
  split; cbn; auto with kit.
  - intros k. rewrite map_lookup_imap. pose proof (commit_row_change plan now d k Hg).
    by destruct (db_gens d !! k).
  - intros k Hk. rewrite map_lookup_imap. destruct (db_gens d !! k) as [r|]; [|done]. cbn. f_equal.
    unfold commit_row, plan_key. repeat case_decide; destruct_and?; simplify_eq/=; done.
Qed.

(** ** Forward recovery *)

(** The operation and the lease are released together, as the coordinator
    releases them. *)
Lemma release_txn d d' op inst token phase encoded now o l
    (P : opRow -> Prop) `{!forall r, Decision (P r)} (Q : leaseRow -> Prop) `{!forall r, Decision (Q r)} :
  db_ops d !! op = Some o -> db_leases d !! inst = Some l -> op_installation o = inst ->
  op_state o = StateActionRequired -> ls_state l = LeaseRecoveryRequired ->
  ls_operation l = op -> ls_token l = token -> op_token o = Some token -> P o -> Q l ->
  db_ops d' = update (fun k r => k = op /\ op_state r = StateActionRequired /\ P r)
    (fun r => r <| op_state := StateSucceeded |> <| op_phase := phase |>
       <| op_outcome := ConfirmedApplied |> <| op_recovery := Completed |>
       <| op_result_json := encoded |> <| op_error_code := "" |> <| op_error_detail := "" |>
       <| op_updated_at := now |> <| op_completed_at := Some now |>) (db_ops d) ->
  db_leases d' = update (fun k r => k = inst /\ ls_operation r = op /\ ls_token r = token /\ Q r)
    (fun r => r <| ls_state := LeaseReleased |> <| ls_recovery_required := false |>
       <| ls_updated_at := now |>) (db_leases d) ->
  txn d d'.
Proof.
  intros Ho Hl Hi Hs Hls Hlo Ht Hot HP HQ Hops Hleases.
  rewrite (update_pk _ _ _ op o) in Hops by (naive_solver || done).
  rewrite (update_pk _ _ _ inst l) in Hleases by (naive_solver || done). subst inst.
  eapply (txn_move d d' op o _ l _); try done; solve_state.
Qed.

Lemma recovery_fence_Ok op refusal d t d' :
  recovery_fence op refusal d = Ok (t, d') ->
  d' = d /\ exists o l, db_ops d !! op = Some o /\ db_leases d !! op_installation o = Some l /\
    op_state o = StateActionRequired /\ ls_state l = LeaseRecoveryRequired /\
    ls_operation l = op /\ op_token o = Some t /\ ls_token l = t.
Proof.
  unfold recovery_fence, get_op, get_lease. intros H. inv_db. naive_solver.
Qed.

Lemma retire_baseline_Ok inst expected now d u d' :
  retire_baseline inst expected now d = Ok (u, d') ->
  (d' = d /\ exists r, db_gens d !! (inst, expected) = Some r /\ g_status r = GenRemoved) \/
  d' = d <| db_gens := update (fun k r => k = (inst, expected) /\ g_status r = GenActive)
     (fun r => r <| g_status := GenRetained |> <| g_retired_at := Some now |>
        <| g_cleanup := CleanupNotRequired |>) (db_gens d) |>.
Proof.
  unfold retire_baseline. intros H. apply tbind_Ok in H as (? & ? & H1 & H).
  apply tget_Ok in H1 as [-> <-]. destruct (active_generation inst d).
  - inv_store. by right.
  - apply tassert_Ok in H as [H <-]. left. split; [done|].
    destruct (db_gens d !! (inst, expected)) as [r|]; [|done]. apply bool_decide_eq_true in H. eauto.
Qed.

(** One row through a chain of [UPDATE]s. *)
Ltac light_rows :=
  repeat case_decide; destruct_and?; simplify_eq/=; try done; try (by left); right;
  unfold same_plan; cbn;
  repeat match goal with H : g_status _ = _ |- _ => rewrite H end; done.

Lemma RecoverForward_effect cand result now d u d' :
  RecoverForward cand result now d = Ok (u, d') ->
  store_effect (gn_InstallationID cand) d d' /\
  (exists o, db_ops d !! gn_CreatingOperationID cand = Some o /\
     (op_installation o = gn_InstallationID cand -> txn d d')) /\
  exists g, db_gens d !! gen_key cand = Some g /\ g_status g = GenCandidate /\
    active_generation (gn_InstallationID cand) d' = Some (gn_Generation cand) /\
    forall n, active_generation (gn_InstallationID cand) d = Some n ->
      n = gn_Generation cand - 1 /\
      exists r, db_gens d' !! (gn_InstallationID cand, n) = Some r /\ g_status r = GenRetained.
Proof.
  unfold RecoverForward, complete_operation, release_recovery, retire.
  generalize (marshal (Result_json result)) as enc. intros enc H.
  apply tbind_Ok in H as (t & ? & H1 & H). apply recovery_fence_Ok in H1 as (-> & o & l & Ho & Hl & Hs & Hls & Hlo & Hot & Hlt).
  apply tbind_Ok in H as ([g c] & ? & H1 & H). apply trow_Ok in H1 as [Hrow <-].
  apply candidate_row_Some in Hrow as (Hg & Hc & Hgo).
  apply tbind_Ok in H as (? & ? & H1 & H). apply tassert_Ok in H1 as [(Hgs & _ & _) <-].
  apply tbind_Ok in H as (? & d1 & H1 & H).
  assert (exists m, d1 = d <| db_gens := m |> /\ (m = db_gens d \/
     m = update (fun k r => k = (gn_InstallationID cand, gn_Generation cand - 1) /\ g_status r = GenActive)
     (fun r => r <| g_status := GenRetained |> <| g_retired_at := Some now |>
        <| g_cleanup := CleanupNotRequired |>) (db_gens d))) as (m & -> & Hm).
  { apply twhen_Ok in H1 as [[_ H1]|[_ ->]].
    - apply retire_baseline_Ok in H1 as [[-> _]| ->].
      + exists (db_gens d). split; [by destruct d|by left].
      + eexists. split; [done|by right].
    - exists (db_gens d). split; [by destruct d|by left]. }
  clear H1. unfold gen_key in *. inv_gen. split_and!.
  - split; cbn; auto with kit.
    + intros k. rewrite !lookup_update. destruct Hm as [-> | ->]; rewrite ?lookup_update;
        (destruct (db_gens d !! k) as [r|] eqn:Hr; [|done]); cbn; light_rows.
    + intros k Hk. rewrite !lookup_update. destruct Hm as [-> | ->]; rewrite ?lookup_update;
        (destruct (db_gens d !! k) as [r|] eqn:Hr; [|done]); cbn; light_rows.
  - exists o. split; [done|]. intros Hi2. rewrite Hi2 in Hl.
    eapply (release_txn d _ _ _ (ls_token l) _ _ _ o l (fun r => op_token r = Some (ls_token l))
              (fun r => ls_state r = LeaseRecoveryRequired)); try eassumption; reflexivity.
  - exists g. match goal with H : one_active (update _ _ (update _ _ _)) |- _ => rename H into Hone' end.
    set (m' := update _ _ (update _ _ m)) in *.
    assert (exists g', m' !! (gn_InstallationID cand, gn_Generation cand) = Some g' /\
              g_status g' = GenActive) as (g' & Hg' & Hgs').
    { subst m'. rewrite !lookup_update. destruct Hm as [-> | ->]; rewrite ?lookup_update, Hg; cbn;
        repeat case_decide; destruct_and?; simplify_eq/=; try congruence; naive_solver. }
    split_and!; [done..| |].
    + apply active_generation_iff; [done|]. eauto.
    + intros n (r & Hr & Hrs)%active_generation_Some. cbn.
      assert (exists r', m' !! (gn_InstallationID cand, n) = Some r' /\ (g_status r' = GenActive \/
        (n = gn_Generation cand - 1 /\ g_status r' = GenRetained))) as (r' & Hr' & [Hs'|Hs']);
        [|exfalso|naive_solver].
      { subst m'. rewrite !lookup_update. destruct Hm as [-> | ->]; rewrite ?lookup_update, Hr; cbn;
          repeat case_decide; destruct_and?; simplify_eq/=; try congruence; naive_solver. }
      pose proof (Hone' _ _ Hg' Hgs' _ _ Hr' Hs' eq_refl) as Heq. injection Heq as ->. congruence.
Qed.

Lemma FinalizeCommittedRecovery_effect g result now d u d' :
  FinalizeCommittedRecovery g result now d = Ok (u, d') ->
  coord_frame d d' /\
  exists o, db_ops d !! gn_CreatingOperationID g = Some o /\
     (op_installation o = gn_InstallationID g -> txn d d').
Proof.
  unfold FinalizeCommittedRecovery, complete_operation, release_recovery.
  generalize (marshal (Result_json result)) as enc. intros enc H.
  apply tbind_Ok in H as (t & ? & H1 & H). apply trow_Ok in H1 as [Hrow <-].
  destruct (db_ops d !! gn_CreatingOperationID g) as [o|] eqn:Ho; [|done].
  destruct (db_leases d !! op_installation o) as [l|] eqn:Hl; [|done].
  case_decide as Hd; [|done]. injection Hrow as <-. destruct Hd as (Hlo & Hot & Hs & Hls).
  inv_gen. split; [done|]. exists o. split; [done|]. intros Hi. rewrite Hi in Hl.
  eapply (release_txn d _ _ _ (ls_token l) _ _ _ o l (fun _ => True) (fun _ => True));
    try eassumption; reflexivity || exact I.
Qed.
