(* ===== verification/MultiStoreProofs.v ===== *)
(** * Lemmas about multi-component generations

    The effect of every transaction of [lifecycle/multi_store.go] on the
    tables, in the terms used for the single-component store: one
    installation is touched, statuses follow the life-cycle graph, the step
    ledger only grows. *)

From S2P Require Import Prelude Protocol Exposure HelperDB Coordinator CoordinatorProofs Containers LifecycleStore LifecycleStoreProofs MultiStore ReconciliationStore.
From stdpp Require Import base gmap strings list sorting.
From Stdlib Require Import ZArith Lia.

Open Scope Z_scope.

(** ** Counting *)
Lemma affected_all {K R} `{Countable K} (P : K -> R -> Prop) `{!forall k r, Decision (P k r)}
    (Q : K -> R -> Prop) `{!forall k r, Decision (Q k r)} (m : gmap K R) :
  (forall k r, Q k r -> P k r) -> affected Q m = affected P m ->
  forall k r, m !! k = Some r -> P k r -> Q k r.
Proof.
  intros HQP Hn k r Hk HP. unfold affected, select in Hn. rewrite !length_map_to_list in Hn.
  assert (filter (fun kr => Q kr.1 kr.2) m ⊆ filter (fun kr => P kr.1 kr.2) m) as Hsub.
  { apply map_subseteq_spec. intros k' r' [? ?]%map_lookup_filter_Some.
    apply map_lookup_filter_Some. split; [done|]. by apply HQP. }
  pose proof (map_subseteq_size_eq _ _ Hsub ltac:(lia)) as Heq.
  assert (filter (fun kr => P kr.1 kr.2) m !! k = Some r) as Hf by (by apply map_lookup_filter_Some).
  rewrite <- Heq in Hf. by apply map_lookup_filter_Some in Hf as [_ ?].
Qed.

Lemma count_verified_Ok k d c d' :
  count_verified k d = Ok (c, d') ->
  d' = d /\ c.1 = affected (fun kc _ => kc.1 = k) (db_comps d) /\
  (c.2 = c.1 -> forall id r, db_comps d !! (k, id) = Some r -> verified_component r).
Proof.
  unfold count_verified. case_decide; [done|]. intros [= <- <-]. split_and!; [done..|].
  cbn. intros Hn id r Hr.
  refine (proj2 (affected_all (fun kc _ => kc.1 = k) (fun kc r => kc.1 = k /\ verified_component r)
    (db_comps d) _ Hn (k, id) r Hr eq_refl)). naive_solver.
Qed.

(** ** Statements on the components of one generation *)
Definition only_comps (k : string * Z) (d d' : db) : Prop :=
  exists m, d' = d <| db_comps := m |> /\
    (forall kc, kc.1 <> k -> m !! kc = db_comps d !! kc) /\
    (forall kc, is_Some (db_comps d !! kc) -> is_Some (m !! kc)).

Lemma only_comps_refl k d : only_comps k d d.
Proof. exists (db_comps d). by destruct d. Qed.

Lemma only_comps_trans k d1 d2 d3 : only_comps k d1 d2 -> only_comps k d2 d3 -> only_comps k d1 d3.
Proof.
  intros (m1 & -> & H1 & K1) (m2 & -> & H2 & K2). exists m2. split; [done|]. split; [|naive_solver].
  intros kc Hk. rewrite H2 by done. by apply H1.
Qed.

Lemma only_comps_effect k d d' :
  only_comps k d d' -> store_effect k.1 d d' /\ no_authority d d' /\ db_gens d' = db_gens d.
Proof.
  intros (m & -> & Hm & Hk). split_and!; [split; cbn; auto with kit|done..].
  intros kc Hne. apply Hm. by intros <-.
Qed.

Lemma update_comps_only k P `{!forall k r, Decision (P k r)} f d n d' :
  (forall kc r, P kc r -> kc.1 = k) -> update_comps P f d = Ok (n, d') -> only_comps k d d'.
Proof.
  intros HP [-> ->]%update_comps_Ok. eexists. split; [done|]. split.
  - intros kc Hne. rewrite lookup_update. destruct (db_comps d !! kc) as [r|]; [|done]. cbn.
    rewrite decide_False; [done|]. intros Hp. by destruct Hne; eapply HP.
  - intros kc Hs. by apply update_is_Some.
Qed.

Lemma update_comps_ordinal_only k P `{!forall k r, Decision (P k r)} f d n d' :
  (forall kc r, P kc r -> kc.1 = k) -> update_comps_ordinal P f d = Ok (n, d') -> only_comps k d d'.
Proof.
  intros HP (_ & Hn & ->)%update_comps_ordinal_Ok.
  apply (update_comps_only k P f d n); [done|]. apply update_comps_Ok. by subst.
Qed.

Lemma insert_comp_only k c r d u d' : insert_comp (k, c) r d = Ok (u, d') -> only_comps k d d'.
Proof.
  intros (Hn & _ & _ & ->)%insert_comp_Ok. eexists. split; [done|]. split.
  - intros kc Hne. rewrite lookup_insert_ne; [done|]. by intros <-.
  - intros kc Hs. rewrite lookup_insert_is_Some. destruct (decide ((k, c) = kc)); auto.
Qed.

Lemma tforeach_only {A} k (f : A -> tx db unit) l d u d' :
  (forall x d u d', f x d = Ok (u, d') -> only_comps k d d') ->
  tforeach f l d = Ok (u, d') -> only_comps k d d'.
Proof.
  intros Hf. revert d. induction l as [|x l IH]; intros d H; cbn in H.
  - inv_tx. apply only_comps_refl.
  - apply tbind_Ok in H as (? & d1 & H1 & H). eapply only_comps_trans; eauto.
Qed.

Ltac only_comps_tac :=
  first [ eapply update_comps_only; [|eassumption]; naive_solver
        | eapply update_comps_ordinal_only; [|eassumption]; naive_solver
        | by eapply insert_comp_only ].

Lemma prepare_components_only k reusing n l now d u d' :
  prepare_components k reusing n l now d = Ok (u, d') -> only_comps k d d'.
Proof.
  revert n d. induction l as [|c l IH]; intros n d H; cbn in H.
  - inv_tx. apply only_comps_refl.
  - apply tbind_Ok in H as (? & ? & Ha & H). apply tassert_Ok in Ha as [_ <-].
    apply tbind_Ok in H as (? & d1 & H1 & H). eapply only_comps_trans; [|by eapply IH].
    destruct reusing; [|only_comps_tac].
    apply tbind_Ok in H1 as (? & d2 & Hu & Ha). apply tassert_Ok in Ha as [_ <-]. only_comps_tac.
Qed.

Lemma promote_component_only sha k obs s now c d u d' :
  promote_component sha k obs s now c d = Ok (u, d') -> only_comps k d d'.
Proof.
  unfold promote_component. destruct (obs !! cm_ID c); [|by intros ?%tfail_Ok]. intros H.
  apply tbind_Ok in H as (? & d2 & Hu & Ha). apply tassert_Ok in Ha as [_ <-]. only_comps_tac.
Qed.

Lemma record_recovered_only k now c d u d' :
  record_recovered k now c d = Ok (u, d') -> only_comps k d d'.
Proof.
  unfold record_recovered. intros H. apply tbind_Ok in H as (? & ? & Ha & H).
  apply tassert_Ok in Ha as [_ <-].
  apply tbind_Ok in H as (? & d2 & Hu & Ha). apply tassert_Ok in Ha as [_ <-]. only_comps_tac.
Qed.

(** An effect followed by statements on components and bindings. *)
Lemma effect_comps inst k d1 d2 d3 : k.1 = inst ->
  store_effect inst d1 d2 /\ no_authority d1 d2 -> only_comps k d2 d3 ->
  store_effect inst d1 d3 /\ no_authority d1 d3.
Proof.
  intros <- [He Ha] (Hc & Ha' & Hg)%only_comps_effect. split; [by eapply store_effect_then|].
  by eapply no_authority_trans.
Qed.

Lemma effect_binds inst k d1 d2 d3 : k.1 = inst ->
  store_effect inst d1 d2 /\ no_authority d1 d2 -> only_bindings k d2 d3 ->
  store_effect inst d1 d3 /\ no_authority d1 d3.
Proof.
  intros <- [He Ha] (Hc & Ha' & Hg & _)%only_bindings_effect. split; [by eapply store_effect_then|].
  by eapply no_authority_trans.
Qed.

(** ** Effects *)
Lemma update_gens_effect inst P `{!forall k r, Decision (P k r)} f d n d' :
  (forall k r, P k r -> k.1 = inst) -> (forall k r, P k r -> gen_change (Some r) (Some (f r))) ->
  update_gens P f d = Ok (n, d') -> store_effect inst d d' /\ no_authority d d'.
Proof.
  intros Hi Hc (Ho & _ & ->)%update_gens_Ok. split; [|done]. split; cbn; auto with kit.
  - intros k. rewrite lookup_update. destruct (db_gens d !! k) as [r|]; [|done]. cbn.
    case_decide; [by eapply Hc|by left].
  - intros k Hne. rewrite lookup_update. destruct (db_gens d !! k) as [r|]; [|done]. cbn.
    rewrite decide_False; [done|]. intros Hp. by destruct Hne; eapply Hi.
Qed.

(** The row that takes one edge of the graph and keeps its plan. *)
Ltac edge_tac :=
  intros k r Hp; cbv beta in Hp; destruct_and?; destruct_or?; simplify_eq/=; try done; unfold gen_change, same_plan; right; cbn;
  repeat match goal with H : g_status _ = _ |- _ => rewrite H end; done.

Lemma prepare_multi_row_effect plan now d b d' :
  prepare_multi_row plan now d = Ok (b, d') ->
  store_effect (mp_InstallationID plan) d d' /\ no_authority d d'.
Proof.
  unfold prepare_multi_row. intros H. apply tbind_Ok in H as (? & ? & Hd & H).
  apply tget_Ok in Hd as [-> <-]. destruct (db_gens d !! mplan_key plan) as [g|] eqn:Hg.
  - apply tbind_Ok in H as (? & ? & Ha & H). apply tassert_Ok in Ha as [Hre <-].
    apply tbind_Ok in H as (? & ? & Ha & H). apply tassert_Ok in Ha as [_ <-].
    apply tbind_Ok in H as (? & d1 & Hu & H).
    assert (only_comps (mplan_key plan) d d1) as Hc by only_comps_tac. clear Hu.
    destruct Hc as (m & -> & Hm & Hk). inv_store. split; [|done]. unfold mplan_key in *.
    split; cbn; auto with kit.
    + intros k. rewrite lookup_update. destruct (db_gens d !! k) as [r|]; [|done]. cbn.
      case_decide as Hp; [|by left]. destruct Hp as [-> [Hs ?]]. right. cbn.
      split; [by destruct Hs as [-> | ->]|done].
    + intros k Hne. rewrite lookup_update. destruct (db_gens d !! k) as [r|]; [|done]. cbn.
      rewrite decide_False; [done|]. intros [-> _]. done.
    + intros kc Hne. apply Hm. by intros Heq; rewrite Heq in Hne.
  - inv_store. split; [|done]. split; cbn; auto with kit.
    + intros k. lookup_rows; [rewrite Hg; by left|auto with kit].
    + intros k Hne. rewrite lookup_insert_ne; [done|]. by intros <-.
Qed.

Lemma PrepareMulti_effect plan now d u d' :
  PrepareMulti plan now d = Ok (u, d') ->
  store_effect (mp_InstallationID plan) d d' /\ no_authority d d'.
Proof.
  unfold PrepareMulti. intros H. apply tbind_Ok in H as (? & ? & Ha & H).
  apply tassert_Ok in Ha as [_ <-]. apply tbind_Ok in H as (b & d1 & H1 & H).
  apply tbind_Ok in H as (? & d2 & H2 & H3). apply prepare_multi_row_effect in H1.
  apply prepare_components_only in H2. apply replaceBindings_Ok in H3 as [H3 _].
  eapply effect_binds; [|eapply effect_comps; [|exact H1|exact H2]|exact H3]; done.
Qed.

Lemma BackfillLegacyMulti_effect g now d u d' :
  BackfillLegacyMulti g now d = Ok (u, d') ->
  store_effect (mg_InstallationID g) d d' /\ no_authority d d'.
Proof.
  unfold BackfillLegacyMulti. intros H. apply tbind_Ok in H as (? & ? & Ha & H).
  apply tassert_Ok in Ha as [_ <-]. apply tbind_Ok in H as (? & ? & Hd & H).
  apply tget_Ok in Hd as [-> <-]. case_decide; [inv_tx; split; auto with kit; done|].
  apply tbind_Ok in H as (? & d1 & H1 & H). apply tbind_Ok in H as (? & d2 & H2 & H3).
  apply insert_gen_Ok in H1 as (Hn & Ho & ->). apply replaceBindings_Ok in H3 as [H3 _].
  apply (tforeach_only (mgen_key g)) in H2; [|by intros; eapply insert_comp_only].
  eapply effect_binds; [|eapply effect_comps; [| |exact H2]|exact H3]; [done..|]. split; [|done].
  split; cbn; auto with kit.
  - intros k. lookup_rows; [rewrite Hn; cbn; auto|auto with kit].
  - intros k Hne. rewrite lookup_insert_ne; [done|]. by intros <-.
Qed.

Lemma PromoteMigratedMulti_effect sha g nid obs s op t now d u d' :
  PromoteMigratedMulti sha g nid obs s op t now d = Ok (u, d') ->
  (store_effect (mg_InstallationID g) d d' /\ no_authority d d') /\
  exists o l, gen_fenced d (mg_InstallationID g) op t o l.
Proof.
  unfold PromoteMigratedMulti. intros H. apply tbind_Ok in H as (? & ? & Ha & H).
  apply tassert_Ok in Ha as [_ <-]. apply tbind_Ok in H as (? & ? & Hf & H).
  apply verifyGenerationFence_Ok in Hf as (-> & o & l & Hf). split; [|eauto].
  apply tbind_Ok in H as (? & d1 & Hu & H). apply tbind_Ok in H as (? & ? & Ha & H).
  apply tassert_Ok in Ha as [_ <-].
  apply (tforeach_only (mgen_key g)) in H; [|by intros; eapply promote_component_only].
  eapply effect_comps; [| |exact H]; [done|].
  eapply update_gens_effect; [| |exact Hu]; edge_tac.
Qed.

Lemma RecordMultiNetwork_effect plan nid d u d' :
  RecordMultiNetwork plan nid d = Ok (u, d') ->
  store_effect (mp_InstallationID plan) d d' /\ no_authority d d'.
Proof. unfold RecordMultiNetwork, mplan_key. intros H. inv_store. split; [solve_effect|done]. Qed.

Lemma MarkMultiFailed_effect plan c d u d' :
  MarkMultiFailed plan c d = Ok (u, d') ->
  store_effect (mp_InstallationID plan) d d' /\ no_authority d d'.
Proof. unfold MarkMultiFailed, mplan_key. intros H. inv_store. split; [solve_effect|done]. Qed.

Lemma RecordMultiContainer_effect plan c cid iid h s v now d u d' :
  RecordMultiContainer plan c cid iid h s v now d = Ok (u, d') ->
  (store_effect (mp_InstallationID plan) d d' /\ no_authority d d') /\
  exists o l, gen_fenced d (mp_InstallationID plan) (mp_OperationID plan) (mp_FencingToken plan) o l.
Proof.
  unfold RecordMultiContainer, mplan_key. intros H. inv_gen. split; [split; [solve_effect|done]|eauto].
Qed.

Lemma RecordRecoveredMultiVerification_effect g now d u d' :
  RecordRecoveredMultiVerification g now d = Ok (u, d') ->
  store_effect (mg_InstallationID g) d d' /\ no_authority d d'.
Proof.
  unfold RecordRecoveredMultiVerification. intros H. apply tbind_Ok in H as (? & ? & Hr & H).
  apply trow_Ok in Hr as [_ <-]. apply tbind_Ok in H as (? & ? & Ha & H).
  apply tassert_Ok in Ha as [_ <-].
  apply (tforeach_only (mgen_key g)) in H; [|by intros; eapply record_recovered_only].
  eapply effect_comps; [| |exact H]; [done|]. split; auto with kit. done.
Qed.

(** ** The step ledger *)
Lemma update_steps_Ok P `{!forall k r, Decision (P k r)} f d n d' :
  update_steps P f d = Ok (n, d') ->
  n = affected P (db_steps d) /\ d' = d <| db_steps := update P f (db_steps d) |>.
Proof. unfold update_steps. case_decide; naive_solver. Qed.

Lemma steps_effect inst d m :
  (forall k, step_change (db_steps d !! k) (m !! k)) ->
  store_effect inst d (d <| db_steps := m |>) /\ no_authority d (d <| db_steps := m |>).
Proof. intros H. split; [split; cbn; auto with kit|done]. Qed.

Definition plan_fenced (plan : MultiPlan) (d : db) : Prop :=
  exists o l, gen_fenced d (mp_InstallationID plan) (mp_OperationID plan) (mp_FencingToken plan) o l.

Lemma fenced_bind {A} plan (m : tx db A) d r :
  tbind (verifyGenerationFence (mp_InstallationID plan) (mp_OperationID plan) (mp_FencingToken plan))
    (fun _ => m) d = Ok r -> plan_fenced plan d /\ m d = Ok r.
Proof.
  destruct r as [a d']. intros H. apply tbind_Ok in H as (? & ? & Hf & H).
  apply verifyGenerationFence_Ok in Hf as (-> & Hf). by split.
Qed.

Lemma BeginComponentStep_Ok plan c a e n now d u d' :
  BeginComponentStep plan c a e n now d = Ok (u, d') ->
  plan_fenced plan d /\ db_steps d !! step_key plan c a n = None /\
  exists r, d' = d <| db_steps := <[step_key plan c a n := r]> (db_steps d) |> /\
    st_expected_id r = e /\ st_intent_at r = now /\ st_dispatched_at r = None.
Proof.
  unfold BeginComponentStep. intros [Hf H]%fenced_bind. split; [done|]. unfold insert_step in H.
  cbn in H. destruct (db_steps d !! step_key plan c a n) eqn:Hs; [done|].
  destruct (db_ops d !! _); [|done]. destruct (db_comps d !! _); [|done]. injection H as _ <-.
  split; [done|]. by eexists.
Qed.

Lemma DispatchComponentStep_Ok plan c a n now d u d' :
  DispatchComponentStep plan c a n now d = Ok (u, d') ->
  plan_fenced plan d /\ exists r, db_steps d !! step_key plan c a n = Some r /\ st_dispatched_at r = None /\
  d' = d <| db_steps := <[step_key plan c a n :=
    r <| st_dispatched_at := Some now |> <| st_outcome := OutcomeUnknown |>]> (db_steps d) |>.
Proof.
  unfold DispatchComponentStep. intros [Hf H]%fenced_bind. split; [done|].
  apply tbind_Ok in H as (x & d1 & Hu & Ha). apply tassert_Ok in Ha as [-> <-].
  apply update_steps_Ok in Hu as [Hn ->]. symmetry in Hn.
  apply (affected_pk_1 _ _ (step_key plan c a n)) in Hn as (r & Hr & Hk & Hd); [|naive_solver].
  exists r. split_and!; [done..|]. by rewrite (update_pk _ _ _ (step_key plan c a n) r) by (naive_solver || done).
Qed.

Lemma FinishComponentStep_Ok plan c a n oid oc e now d u d' :
  FinishComponentStep plan c a n oid oc e now d = Ok (u, d') ->
  plan_fenced plan d /\ exists r, db_steps d !! step_key plan c a n = Some r /\
  d' = d <| db_steps := <[step_key plan c a n :=
    r <| st_observed_id := oid |> <| st_verified_at := Some now |> <| st_outcome := oc |>
      <| st_error_detail := e |>]> (db_steps d) |>.
Proof.
  unfold FinishComponentStep. intros [Hf H]%fenced_bind. split; [done|].
  apply tbind_Ok in H as (x & d1 & Hu & Ha). apply tassert_Ok in Ha as [-> <-].
  apply update_steps_Ok in Hu as [Hn ->]. symmetry in Hn.
  apply (affected_pk_1 _ _ (step_key plan c a n)) in Hn as (r & Hr & Hk); [|naive_solver].
  exists r. split_and!; [done..|]. by rewrite (update_pk _ _ _ (step_key plan c a n) r) by (naive_solver || done).
Qed.

Lemma step_insert_change (m : gmap (string * Z * string * string * Z) stepRow) k r' k' :
  (forall r, m !! k = Some r -> step_change (Some r) (Some r')) ->
  step_change (m !! k') (<[k := r']> m !! k').
Proof.
  intros H. destruct (decide (k = k')) as [<-|]; [|rewrite lookup_insert_ne by done; apply step_change_refl].
  rewrite lookup_insert_eq. destruct (m !! k) as [r|] eqn:E; [|done]. by apply H.
Qed.

Lemma component_step_effect plan d u d' :
  (exists c a e n now, BeginComponentStep plan c a e n now d = Ok (u, d')) \/
  (exists c a n now, DispatchComponentStep plan c a n now d = Ok (u, d')) \/
  (exists c a n oid oc e now, FinishComponentStep plan c a n oid oc e now d = Ok (u, d')) ->
  (store_effect (mp_InstallationID plan) d d' /\ no_authority d d') /\ plan_fenced plan d.
Proof.
  intros [(c & a & e & n & now & H)|[(c & a & n & now & H)|(c & a & n & oid & oc & e & now & H)]].
  - apply BeginComponentStep_Ok in H as (Hf & Hn & r & -> & _). split; [|done].
    apply steps_effect. intros k. apply step_insert_change. intros r' Hr. congruence.
  - apply DispatchComponentStep_Ok in H as (Hf & r & Hr & Hd & ->). split; [|done].
    apply steps_effect. intros k. apply step_insert_change. intros r' Hr'. assert (r' = r) as -> by congruence.
    cbn. split_and!; try done. rewrite Hd. by intros [? ?].
  - apply FinishComponentStep_Ok in H as (Hf & r & Hr & ->). split; [|done].
    apply steps_effect. intros k. apply step_insert_change. intros r' Hr'. assert (r' = r) as -> by congruence.
    done.
Qed.

(** ** Commit *)

(** When a multi-component commit may happen. *)
Record multi_guard (plan : MultiPlan) (d : db) : Prop := {
  mg_fenced : plan_fenced plan d;
  mg_baseline : (baseline (mp_InstallationID plan) d).2 = mp_ExpectedGeneration plan;
  mg_candidate : exists g, db_gens d !! mplan_key plan = Some g /\ g_operation g = mp_OperationID plan /\
    g_status g = GenCandidate /\ g_topology_hash g = mp_TopologyHash plan;
  mg_count : affected (fun kc _ => kc.1 = mplan_key plan) (db_comps d) = length (mp_Components plan);
  mg_verified : forall c r, db_comps d !! (mplan_key plan, c) = Some r -> verified_component r
}.

(** What it makes of the rows of its installation. *)
Definition multi_commit_row (plan : MultiPlan) (now : string) (k : string * Z) (r : genRow) : genRow :=
  if decide (k = mplan_key plan) then
    r <| g_status := GenActive |> <| g_verified_at := Some now |>
      <| g_committed_at := Some now |> <| g_cleanup := CleanupClean |>
  else if decide (k.1 = mp_InstallationID plan /\ g_status r = GenActive) then
    r <| g_status := if mp_AllowMissingActive plan then GenCleanupPending else GenRetained |>
      <| g_retired_at := Some now |>
      <| g_cleanup := if mp_AllowMissingActive plan then CleanupPending else CleanupNotRequired |>
  else if decide (k.1 = mp_InstallationID plan /\ g_status r = GenRetained /\
                  k.2 <> mp_ExpectedGeneration plan) then
    r <| g_status := GenCleanupPending |> <| g_cleanup := CleanupPending |>
  else r.

Lemma multi_candidate_Some k op d g :
  multi_candidate k op d = Some g -> db_gens d !! k = Some g /\ g_operation g = op.
Proof. unfold multi_candidate. destruct (db_gens d !! k); [case_decide|]; naive_solver. Qed.

Lemma baseline_guard inst expected d k r :
  one_active (db_gens d) -> (baseline inst d).2 = expected ->
  db_gens d !! k = Some r -> k.1 = inst -> g_status r = GenActive ->
  (baseline inst d).1 = true /\ k = (inst, expected).
Proof.
  intros Hone Hb Hr Hk Hs. destruct k as [i n]. cbn in Hk. subst i.
  assert (active_generation inst d = Some n) as E by (apply active_generation_iff; eauto).
  unfold baseline in *. rewrite E in Hb |- *. cbn in Hb |- *. by rewrite <- Hb.
Qed.

Lemma CommitMulti_Ok plan now d u d' :
  one_active (db_gens d) -> CommitMulti plan now d = Ok (u, d') ->
  multi_guard plan d /\ one_active (db_gens d') /\ no_authority d d' /\
  (exists m e, d' = d <| db_gens := m |> <| db_events := db_events d ++ [e] |>) /\
  forall k, db_gens d' !! k = multi_commit_row plan now k <$> db_gens d !! k.
Proof.
  intros Hone. unfold CommitMulti. intros [Hf H]%fenced_bind.
  apply tbind_Ok in H as (? & ? & Hd & H). apply tget_Ok in Hd as [-> <-].
  apply tbind_Ok in H as (? & ? & Ha & H). apply tassert_Ok in Ha as [Hb <-].
  apply tbind_Ok in H as (g & ? & Hr & H). apply trow_Ok in Hr as [(Hg & Hgo)%multi_candidate_Some <-].
  apply tbind_Ok in H as (? & ? & Ha & H). apply tassert_Ok in Ha as [[Hgs Hgt] <-].
  apply tbind_Ok in H as (cn & ? & Hc & H). apply count_verified_Ok in Hc as (-> & Hn & Hv).
  apply tbind_Ok in H as (? & ? & Ha & H). apply tassert_Ok in Ha as [[Hlen Heq] <-].
  split; [split; eauto; by rewrite <- Hn|].
  apply tbind_Ok in H as (? & d1 & H1 & H).
  assert (exists m, d1 = d <| db_gens := m |> /\ forall k, m !! k = (fun r =>
     if decide ((baseline (mp_InstallationID plan) d).1 = true /\ k = (mp_InstallationID plan, mp_ExpectedGeneration plan) /\ g_status r = GenActive) then
       r <| g_status := if mp_AllowMissingActive plan then GenCleanupPending else GenRetained |>
         <| g_retired_at := Some now |>
         <| g_cleanup := if mp_AllowMissingActive plan then CleanupPending else CleanupNotRequired |>
     else r) <$> db_gens d !! k) as (m & -> & Hm).
  { destruct (baseline (mp_InstallationID plan) d).1.
    - inv_store. eexists. split; [done|]. intros k. rewrite lookup_update.
      destruct (db_gens d !! k); [|done]. cbn. repeat case_decide; naive_solver.
    - inv_tx. exists (db_gens d1). split; [by destruct d1|]. intros k.
      by destruct (db_gens d1 !! k). }
  unfold retire in H. inv_gen. split_and!; [done..|by repeat eexists|].
  intros k. rewrite !lookup_update, Hm. destruct (db_gens d !! k) as [r|] eqn:Hr; [|done]. cbn. f_equal.
  unfold multi_commit_row. 
  pose proof (baseline_guard _ _ d k r Hone Hb Hr) as Hact.
  assert (k = mplan_key plan -> r = g) as Hcand by (intros ->; congruence).
  destruct (mp_AllowMissingActive plan) eqn:Hmiss; cbn;
    repeat case_decide; destruct_and?; simplify_eq/=; try done;
    try (specialize (Hcand eq_refl); subst r); try congruence; exfalso; naive_solver congruence.
Qed.

Lemma CommitMulti_effect plan now d u d' :
  one_active (db_gens d) -> CommitMulti plan now d = Ok (u, d') ->
  store_effect (mp_InstallationID plan) d d' /\ no_authority d d'.
Proof.
  intros Hone H. apply CommitMulti_Ok in H as (Hg & Hone' & Ha & (m & e & ->) & Hrow); [|done].
  split; [|done]. destruct (mg_candidate _ _ Hg) as (g & Hk & _ & Hs & _).
  split; cbn in *; auto with kit.
  - intros k. rewrite Hrow. destruct (db_gens d !! k) as [r|] eqn:Hr; [|done]. cbn.
    unfold multi_commit_row. case_decide as H1; [|case_decide as H2; [|case_decide as H3]].
    + subst k. assert (r = g) as -> by congruence. right. cbn. by rewrite Hs.
    + right. destruct H2 as [_ ->]. cbn. by destruct (mp_AllowMissingActive plan).
    + right. destruct H3 as (_ & -> & _). done.
    + by left.
  - intros k Hne. rewrite Hrow. destruct (db_gens d !! k) as [r|]; [|done]. cbn. f_equal.
    unfold multi_commit_row, mplan_key. repeat case_decide; destruct_and?; simplify_eq/=; done.
Qed.

(** ** Forward recovery *)
Definition retired_baseline (inst : string) (expected : Z) (now : string) (m m' : gmap (string * Z) genRow)
    : Prop :=
  m' = m \/ m' = update (fun k r => k = (inst, expected) /\ g_status r = GenActive)
     (fun r => r <| g_status := GenRetained |> <| g_retired_at := Some now |>
        <| g_cleanup := CleanupNotRequired |>) m.

Lemma retire_multi_baseline_Ok inst expected now d u d' :
  retire_multi_baseline inst expected now d = Ok (u, d') ->
  exists m, d' = d <| db_gens := m |> /\ retired_baseline inst expected now (db_gens d) m.
Proof.
  unfold retire_multi_baseline. intros H. apply tbind_Ok in H as (? & ? & H1 & H).
  apply tget_Ok in H1 as [-> <-]. destruct (active_generation inst d).
  - inv_store. eexists. split; [done|by right].
  - apply tassert_Ok in H as [_ <-]. exists (db_gens d). split; [by destruct d|by left].
Qed.

(** The generation that a forward recovery activates. *)
Definition recovered_rows (inst : string) (n : Z) (now : string) (m : gmap (string * Z) genRow)
    : gmap (string * Z) genRow :=
  update (fun k r => k = (inst, n) /\ g_status r = GenCandidate)
    (fun r => r <| g_status := GenActive |> <| g_committed_at := Some now |>
       <| g_cleanup := CleanupClean |>)
    (update (fun k r => k.1 = inst /\ g_status r = GenRetained /\ k.2 <> n - 1)
      (fun r => r <| g_status := GenCleanupPending |> <| g_cleanup := CleanupPending |>) m).

Lemma recovered_change inst n now m0 m k :
  retired_baseline inst (n - 1) now m0 m ->
  gen_change (m0 !! k) (recovered_rows inst n now m !! k) /\
  (k.1 <> inst -> recovered_rows inst n now m !! k = m0 !! k).
Proof.
  intros Hm. unfold recovered_rows. rewrite !lookup_update.
  destruct Hm as [-> | ->]; rewrite ?lookup_update; (destruct (m0 !! k) as [r|] eqn:Hr; [|done]); cbn;
    (split; [light_rows|intros Hne]); repeat case_decide; destruct_and?; simplify_eq/=; done.
Qed.

Lemma recovered_active inst n now m0 m g :
  retired_baseline inst (n - 1) now m0 m -> m0 !! (inst, n) = Some g -> g_status g = GenCandidate ->
  exists g', recovered_rows inst n now m !! (inst, n) = Some g' /\ g_status g' = GenActive.
Proof.
  intros Hm Hg Hs. unfold recovered_rows. rewrite !lookup_update.
  destruct Hm as [-> | ->]; rewrite ?lookup_update, Hg; cbn;
    repeat case_decide; destruct_and?; simplify_eq/=; try congruence; naive_solver.
Qed.

Lemma recovered_previous inst n now m0 m k r :
  retired_baseline inst (n - 1) now m0 m -> m0 !! k = Some r -> k.1 = inst -> g_status r = GenActive ->
  exists r', recovered_rows inst n now m !! k = Some r' /\
    (g_status r' = GenActive \/ (k.2 = n - 1 /\ g_status r' = GenRetained)).
Proof.
  intros Hm Hr Hk Hs. unfold recovered_rows. rewrite !lookup_update.
  destruct Hm as [-> | ->]; rewrite ?lookup_update, Hr; cbn;
    repeat case_decide; destruct_and?; simplify_eq/=; try congruence; naive_solver.
Qed.

Lemma RecoverForwardMulti_effect cand result now d u d' :
  RecoverForwardMulti cand result now d = Ok (u, d') ->
  store_effect (mg_InstallationID cand) d d' /\
  (exists o, db_ops d !! mg_CreatingOperationID cand = Some o /\
     (op_installation o = mg_InstallationID cand -> txn d d')) /\
  affected (fun kc _ => kc.1 = mgen_key cand) (db_comps d) = length (mg_Components cand) /\
  (forall c r, db_comps d !! (mgen_key cand, c) = Some r -> verified_component r) /\
  exists g, db_gens d !! mgen_key cand = Some g /\ g_status g = GenCandidate /\
    active_generation (mg_InstallationID cand) d' = Some (mg_Generation cand) /\
    forall n, active_generation (mg_InstallationID cand) d = Some n ->
      n = mg_Generation cand - 1 /\
      exists r, db_gens d' !! (mg_InstallationID cand, n) = Some r /\ g_status r = GenRetained.
Proof.
  unfold RecoverForwardMulti, complete_operation, release_recovery, retire.
  generalize (marshal (Result_json result)) as enc. intros enc H.
  apply tbind_Ok in H as (t & ? & H1 & H). apply recovery_fence_Ok in H1 as (-> & o & l & Ho & Hl & Hs & Hls & Hlo & Hot & Hlt).
  apply tbind_Ok in H as (cn & ? & Hc & H). apply count_verified_Ok in Hc as (-> & Hn & Hv).
  apply tbind_Ok in H as (? & ? & Ha & H). apply tassert_Ok in Ha as [(Hlen & Heq & Htwo & Htop) <-].
  apply tbind_Ok in H as (? & d1 & H1 & H).
  assert (exists m, d1 = d <| db_gens := m |> /\
    retired_baseline (mg_InstallationID cand) (mg_Generation cand - 1) now (db_gens d) m) as (m & -> & Hm).
  { apply twhen_Ok in H1 as [[_ H1]|[_ ->]]; [by apply retire_multi_baseline_Ok in H1|].
    exists (db_gens d). split; [by destruct d|by left]. }
  clear H1. apply tbind_Ok in H as (? & d1 & H1 & H). apply update_gens_Ok in H1 as (_ & _ & ->).
  apply tbind_Ok in H as (? & d1 & H1 & H). apply update_gens_Ok in H1 as (Hone' & Hx & ->). cbn in Hone', Hx, H.
  unfold mgen_key in H, Hone', Hx.
  change (one_active (recovered_rows (mg_InstallationID cand) (mg_Generation cand) now m)) in Hone'.
  apply tbind_Ok in H as (? & ? & Ha & H). apply tassert_Ok in Ha as [-> <-].
  symmetry in Hx. apply (affected_pk_1 _ _ (mgen_key cand)) in Hx as (g1 & Hg1 & _ & Hgs1); [|naive_solver].
  assert (exists g, db_gens d !! mgen_key cand = Some g /\ g_status g = GenCandidate) as (g & Hg & Hgs).
  { rewrite lookup_update in Hg1. unfold mgen_key in *. destruct Hm as [-> | ->]; rewrite ?lookup_update in Hg1;
      (destruct (db_gens d !! _) as [g|] eqn:Hg; [|done]); cbn in Hg1; injection Hg1 as <-; exists g;
      (split; [done|]); repeat case_decide; destruct_and?; simplify_eq/=; done. }
  unfold mgen_key in Hg. inv_gen. split_and!.
  - split; cbn; auto with kit; intros k; apply (recovered_change _ _ _ _ _ k Hm).
  - exists o. split; [done|]. intros Hi2. rewrite Hi2 in Hl.
    eapply (release_txn d _ _ _ (ls_token l) _ _ _ o l (fun r => op_token r = Some (ls_token l))
              (fun r => ls_state r = LeaseRecoveryRequired)); try eassumption; reflexivity.
  - congruence.
  - by apply Hv.
  - exists g. destruct (recovered_active _ _ _ _ _ _ Hm Hg Hgs) as (g' & Hg' & Hgs').
    split_and!; [done..| |].
    + apply active_generation_iff; [done|]. eauto.
    + intros n (r & Hr & Hrs)%active_generation_Some. cbn.
      destruct (recovered_previous _ _ _ _ _ (mg_InstallationID cand, n) r Hm Hr eq_refl Hrs) as (r' & Hr' & Hs').
      destruct Hs' as [Hs'|Hs']; [exfalso|naive_solver].
      pose proof (Hone' _ _ Hg' Hgs' _ _ Hr' Hs' eq_refl) as Hk. injection Hk as ->. congruence.
Qed.

(** ** Reconciliation *)
Lemma SaveReconciliation_effect inst r d u d' :
  SaveReconciliation r d = Ok (u, d') ->
  (store_effect inst d d' /\ no_authority d d') /\
  d' = d <| db_recon := <[rr_InstallationID r := result_row r]> (db_recon d) |>.
Proof.
  unfold SaveReconciliation. intros H. apply tbind_Ok in H as (? & ? & Ha & H).
  apply tassert_Ok in Ha as [_ <-]. injection H as <- <-. split; [|done].
  split; [split; cbn; auto with kit|done].
Qed.

Lemma MarkReconciledAbsent_effect g d u d' :
  MarkReconciledAbsent g d = Ok (u, d') ->
  store_effect (mg_InstallationID g) d d' /\ no_authority d d'.
Proof.
  unfold MarkReconciledAbsent. intros H. apply tbind_Ok in H as (n & d1 & Hu & H).
  apply (update_gens_effect (mg_InstallationID g)) in Hu; [|edge_tac..].
  case_decide; [by inv_tx|]. apply tbind_Ok in H as (? & d2 & Hc & H). apply tret_Ok in H as [_ <-].
  eapply (effect_comps _ (mgen_key g)); [done|exact Hu|]. only_comps_tac.
Qed.

Lemma MarkRetainedCleanupPending_effect g op t d u d' :
  MarkRetainedCleanupPending g op t d = Ok (u, d') ->
  store_effect (mg_InstallationID g) d d' /\ no_authority d d' /\
  exists o l, gen_fenced d (mg_InstallationID g) op t o l.
Proof.
  unfold MarkRetainedCleanupPending. intros H. apply tbind_Ok in H as (? & ? & Hf & H).
  apply verifyGenerationFence_Ok in Hf as (<- & o & l & Hf). apply tbind_Ok in H as (n & d1 & Hu & H).
  apply tassert_Ok in H as [_ <-]. apply (update_gens_effect (mg_InstallationID g)) in Hu; [|edge_tac..].
  naive_solver.
Qed.

Lemma MarkNonActiveRemoved_effect g op t d u d' :
  MarkNonActiveRemoved g op t d = Ok (u, d') ->
  store_effect (mg_InstallationID g) d d' /\ no_authority d d' /\
  exists o l, gen_fenced d (mg_InstallationID g) op t o l.
Proof.
  unfold MarkNonActiveRemoved. intros H. apply tbind_Ok in H as (? & x0 & Hf & H).
  apply verifyGenerationFence_Ok in Hf as (<- & o & l & Hf). apply tbind_Ok in H as (n & d1 & Hu & H).
  apply tbind_Ok in H as (? & ? & Ha & H). apply tassert_Ok in Ha as [_ <-].
  unfold non_active in Hu. apply (update_gens_effect (mg_InstallationID g)) in Hu; [|edge_tac..].
  apply tbind_Ok in H as (? & d2 & Hc & H). apply tret_Ok in H as [_ <-].
  assert (store_effect (mg_InstallationID g) x0 d2 /\ no_authority x0 d2) as [? ?]; [|by eauto].
  eapply (effect_comps _ (mgen_key g)); [done|exact Hu|]. only_comps_tac.
Qed.
