(* ===== verification/LifecycleStoreProps.v ===== *)
(** * What the generation store promises

    The coordinator and the store as one system, the claims about
    [lifecycle/store.go], and a concrete installation on which their
    hypotheses hold. *)

From S2P Require Import Prelude Protocol Exposure HelperDB Coordinator CoordinatorProofs CoordinatorProps Containers LifecycleStore LifecycleStoreProofs MultiStore ReconciliationStore MultiStoreProofs.
From stdpp Require Import base gmap strings list sorting.
From Stdlib Require Import ZArith Lia.

Open Scope Z_scope.

(** ** The system: coordinator and store transactions in any order *)
Inductive lstep (d d' : db) : Prop :=
| l_Backfill inst u : BackfillInstallation inst d = Ok (u, d') -> lstep d d'
| l_RecordMigrated inst gen h u : RecordMigratedConfiguration inst gen h d = Ok (u, d') -> lstep d d'
| l_Promote g nid iid h s op t now u :
    PromoteMigratedState g nid iid h s op t now d = Ok (u, d') -> lstep d d'
| l_MarkActiveRemoved inst gen op t u : MarkActiveRemoved inst gen op t d = Ok (u, d') -> lstep d d'
| l_Prepare plan now u : Prepare plan now d = Ok (u, d') -> lstep d d'
| l_RecordNetwork plan nid u : RecordNetwork plan nid d = Ok (u, d') -> lstep d d'
| l_RecordContainer plan cid iid h s now u :
    RecordContainer plan cid iid h s now d = Ok (u, d') -> lstep d d'
| l_RecordState plan s v now u : RecordState plan s v now d = Ok (u, d') -> lstep d d'
| l_Commit plan now u : Commit plan now d = Ok (u, d') -> lstep d d'
| l_MarkFailed plan c u : MarkFailed plan c d = Ok (u, d') -> lstep d d'
| l_MarkRemovedG g u : MarkRemoved_generation g d = Ok (u, d') -> lstep d d'
| l_MarkRemovedC g u : MarkRemoved_components g d = Ok (u, d') -> lstep d d'
| l_MarkCleanupPending g u : MarkCleanupPending g d = Ok (u, d') -> lstep d d'
| l_RecoverForward g result now u :
    (forall o, db_ops d !! gn_CreatingOperationID g = Some o -> op_installation o = gn_InstallationID g) ->
    RecoverForward g result now d = Ok (u, d') -> lstep d d'
| l_Finalize g result now u :
    (forall o, db_ops d !! gn_CreatingOperationID g = Some o -> op_installation o = gn_InstallationID g) ->
    FinalizeCommittedRecovery g result now d = Ok (u, d') -> lstep d d'
| l_PrepareMulti plan now u : PrepareMulti plan now d = Ok (u, d') -> lstep d d'
| l_BackfillLegacyMulti g now u : BackfillLegacyMulti g now d = Ok (u, d') -> lstep d d'
| l_PromoteMulti sha g nid obs s op t now u :
    PromoteMigratedMulti sha g nid obs s op t now d = Ok (u, d') -> lstep d d'
| l_RecordMultiNetwork plan nid u : RecordMultiNetwork plan nid d = Ok (u, d') -> lstep d d'
| l_RecordMultiContainer plan c cid iid h s v now u :
    RecordMultiContainer plan c cid iid h s v now d = Ok (u, d') -> lstep d d'
| l_BeginStep plan c a e n now u : BeginComponentStep plan c a e n now d = Ok (u, d') -> lstep d d'
| l_DispatchStep plan c a n now u : DispatchComponentStep plan c a n now d = Ok (u, d') -> lstep d d'
| l_FinishStep plan c a n oid oc e now u :
    FinishComponentStep plan c a n oid oc e now d = Ok (u, d') -> lstep d d'
| l_CommitMulti plan now u : CommitMulti plan now d = Ok (u, d') -> lstep d d'
| l_RecoverForwardMulti g result now u :
    (forall o, db_ops d !! mg_CreatingOperationID g = Some o -> op_installation o = mg_InstallationID g) ->
    RecoverForwardMulti g result now d = Ok (u, d') -> lstep d d'
| l_RecordRecovered g now u : RecordRecoveredMultiVerification g now d = Ok (u, d') -> lstep d d'
| l_MarkMultiFailed plan c u : MarkMultiFailed plan c d = Ok (u, d') -> lstep d d'
| l_SaveReconciliation r u : SaveReconciliation r d = Ok (u, d') -> lstep d d'
| l_MarkReconciledAbsent g u : MarkReconciledAbsent g d = Ok (u, d') -> lstep d d'
| l_MarkRetainedPending g op t u : MarkRetainedCleanupPending g op t d = Ok (u, d') -> lstep d d'
| l_MarkNonActiveRemoved g op t u : MarkNonActiveRemoved g op t d = Ok (u, d') -> lstep d d'.

(** The recoveries are given a generation created by an operation of the
    generation's own installation. *)
Definition sys_step (d d' : db) : Prop := step d d' \/ lstep d d'.

Definition sys_inv (d : db) : Prop := coord_inv d /\ one_active (db_gens d).

Lemma frame_effect inst d d' : coord_frame d d' -> store_effect inst d d'.
Proof.
  intros (Hg & Hc & Hb & Hs & Ho). split; rewrite ?Hg, ?Hc, ?Hb, ?Hs; auto with kit.
Qed.

Lemma lstep_effect d d' :
  one_active (db_gens d) -> lstep d d' ->
  exists inst, store_effect inst d d' /\ (no_authority d d' \/ txn d d').
Proof.
  intros Hone Hs. destruct Hs as
    [inst u H|inst gen h u H|g nid iid h s op t now u H|inst gen op t u H|plan now u H|plan nid u H
    |plan cid iid h s now u H|plan s v now u H|plan now u H|plan c u H|g u H|g u H|g u H
    |g result now u Hi H|g result now u Hi H
    |plan now u H|g now u H|sha g nid obs s op t now u H|plan nid u H|plan c cid iid h s v now u H
    |plan c a e n now u H|plan c a n now u H|plan c a n oid oc e now u H|plan now u H
    |g result now u Hi H|g now u H|plan c u H|r u H|g u H|g op t u H|g op t u H].
  - exists inst. apply BackfillInstallation_effect in H; naive_solver.
  - exists inst. apply RecordMigratedConfiguration_effect in H; naive_solver.
  - exists (gn_InstallationID g). apply PromoteMigratedState_effect in H; naive_solver.
  - exists inst. apply MarkActiveRemoved_effect in H; naive_solver.
  - exists (p_InstallationID plan). apply Prepare_effect in H; naive_solver.
  - exists (p_InstallationID plan). apply RecordNetwork_effect in H; naive_solver.
  - exists (p_InstallationID plan). apply RecordContainer_effect in H; naive_solver.
  - exists (p_InstallationID plan). apply RecordState_effect in H; naive_solver.
  - exists (p_InstallationID plan). apply Commit_effect in H; naive_solver.
  - exists (p_InstallationID plan). apply MarkFailed_effect in H; naive_solver.
  - exists (gn_InstallationID g). apply MarkRemoved_generation_effect in H; naive_solver.
  - exists (gn_InstallationID g). apply MarkRemoved_components_effect in H; naive_solver.
  - exists (gn_InstallationID g). apply MarkCleanupPending_effect in H; naive_solver.
  - exists (gn_InstallationID g). apply RecoverForward_effect in H as (He & (o & Ho & Ht) & _).
    split; [done|]. right. eauto.
  - exists (gn_InstallationID g). apply FinalizeCommittedRecovery_effect in H as (He & o & Ho & Ht).
    split; [by apply frame_effect|]. right. eauto.
  - exists (mp_InstallationID plan). apply PrepareMulti_effect in H; naive_solver.
  - exists (mg_InstallationID g). apply BackfillLegacyMulti_effect in H; naive_solver.
  - exists (mg_InstallationID g). apply PromoteMigratedMulti_effect in H; naive_solver.
  - exists (mp_InstallationID plan). apply RecordMultiNetwork_effect in H; naive_solver.
  - exists (mp_InstallationID plan). apply RecordMultiContainer_effect in H; naive_solver.
  - exists (mp_InstallationID plan).
    destruct (component_step_effect plan d u d') as [[] _]; [left; by exists c, a, e, n, now|auto].
  - exists (mp_InstallationID plan).
    destruct (component_step_effect plan d u d') as [[] _]; [right; left; by exists c, a, n, now|auto].
  - exists (mp_InstallationID plan).
    destruct (component_step_effect plan d u d') as [[] _];
      [right; right; by exists c, a, n, oid, oc, e, now|auto].
  - exists (mp_InstallationID plan). apply CommitMulti_effect in H; naive_solver.
  - exists (mg_InstallationID g). apply RecoverForwardMulti_effect in H as (He & (o & Ho & Ht) & _).
    split; [done|]. right. eauto.
  - exists (mg_InstallationID g). apply RecordRecoveredMultiVerification_effect in H; naive_solver.
  - exists (mp_InstallationID plan). apply MarkMultiFailed_effect in H; naive_solver.
  - exists "". apply (SaveReconciliation_effect "") in H; naive_solver.
  - exists (mg_InstallationID g). apply MarkReconciledAbsent_effect in H; naive_solver.
  - exists (mg_InstallationID g). apply MarkRetainedCleanupPending_effect in H; naive_solver.
  - exists (mg_InstallationID g). apply MarkNonActiveRemoved_effect in H; naive_solver.
Qed.

Lemma no_authority_txn d d' : no_authority d d' -> txn d d'.
Proof. intros [? ?]. by apply txn_same. Qed.

Lemma sys_step_effect d d' :
  sys_inv d -> sys_step d d' ->
  sys_inv d' /\ txn d d' /\ exists inst, store_effect inst d d'.
Proof.
  intros [Hc Ho] Hs.
  assert (txn d d' /\ exists inst, store_effect inst d d') as [Ht (inst & He)].
  { destruct Hs as [Hs|Hs].
    - destruct (step_txn d d' Hc Hs) as [Ht Hf]. split; [done|]. exists "". by apply frame_effect.
    - destruct (lstep_effect d d' Ho Hs) as (inst & He & [Ha|Ht]); [|by eauto].
      split; [by apply no_authority_txn|eauto]. }
  split; [|by eauto]. split; [by eapply txn_coord_inv|by apply (se_active _ _ _ He)].
Qed.

Lemma sys_steps_inv d d' : sys_inv d -> rtc sys_step d d' -> sys_inv d'.
Proof.
  intros Hi Hs. induction Hs as [|d1 d2 d3 H1 _ IH]; [done|].
  apply IH. by apply (sys_step_effect d1 d2).
Qed.

Lemma sys_steps_lock d d' i l :
  sys_inv d -> rtc sys_step d d' -> db_leases d !! i = Some l ->
  exists l', db_leases d' !! i = Some l' /\ lock_le (abs_lease l) (abs_lease l').
Proof.
  intros Hi Hs. revert l. induction Hs as [|d1 d2 d3 H1 _ IH]; intros l Hl.
  { exists l. split; [done|apply lock_le_refl]. }
  destruct (sys_step_effect d1 d2 Hi H1) as (Hi2 & Ht & _).
  destruct (lock_step_le _ _ i (abs_lease l) (txn_lock_step d1 d2 (proj1 Hi) Ht)) as (b & Hb & Hle);
    [by apply abs_lookup|].
  unfold abs in Hb. rewrite lookup_fmap in Hb. destruct (db_leases d2 !! i) as [l2|]; [|done].
  injection Hb as <-. destruct (IH Hi2 l2 eq_refl) as (l3 & Hl3 & Hle3).
  exists l3. eauto using lock_le_trans.
Qed.

Lemma empty_sys_inv : sys_inv empty_db.
Proof. split; [apply empty_coord_inv|]. intros k r Hr. cbn in Hr. by rewrite lookup_empty in Hr. Qed.

(** ** A concrete installation *)
Definition web : ServiceBinding :=
  {| ServiceID := "web"; Transport := TCP; ContainerPort := 8080; Mode := Loopback;
     HostAddress := "127.0.0.1"; HostPort := 20000 |}.
Definition api : ServiceBinding :=
  {| ServiceID := "api"; Transport := TCP; ContainerPort := 9090; Mode := Internal;
     HostAddress := ""; HostPort := 0 |}.

Definition plain_container : ContainerPlan :=
  {| pl_Image := "img@sha256:1"; pl_Name := "kitpro-inst-a-1"; pl_Network := "kitpro-net-a-1";
     pl_User := ""; pl_ImageDefaultUser := ""; pl_ImageDefaultVolumes := [];
     pl_Labels := Some {[ LabelManaged := "true"; LabelInstance := "inst-a"; LabelGeneration := "1" ]};
     pl_Command := None; pl_Environment := []; pl_DataPath := ""; pl_ReadOnly := false;
     pl_Storage := []; pl_PortBindings := None; pl_RestartPolicy := ""; pl_NetworkAliases := [];
     pl_Dependencies := []; pl_Devices := None; pl_DeviceRequests := None |}.

Definition plan1 : Plan :=
  {| p_OperationID := op1; p_InstallationID := "inst-a"; p_ApplicationID := "app";
     p_ReleaseID := "r1"; p_Generation := 1; p_ExpectedGeneration := 0; p_FencingToken := 1;
     p_Image := "img@sha256:1"; p_NetworkName := "kitpro-net-a-1";
     p_ContainerName := "kitpro-inst-a-1"; p_PlanHash := "ph"; p_DataPath := "/srv/a";
     p_Bindings := [web; api]; p_Container := plain_container; p_RollbackSafe := true;
     p_AllowMissingActive := false |}.

(** An accepted and executing operation prepares, builds, verifies and
    commits generation 1. *)
Definition st1 : db := run (Prepare plan1 "t3") run2.
Definition st2 : db := run (RecordNetwork plan1 "net-1") st1.
Definition st3 : db := run (RecordContainer plan1 "c1" "i1" "hash" CompStopped "t4") st2.
Definition st4 : db := run (RecordState plan1 CompRunning true "t5") st3.
Definition st5 : db := run (Commit plan1 "t6") st4.

Ltac run_step tm d c :=
  let a := fresh "a" in let Ha := fresh "Ha" in
  destruct (run_Ok tm d) as [a Ha]; [vm_compute; reflexivity|]; right; by eapply c.

Lemma run1_sys : sys_step empty_db run1. Proof. left. apply run1_step. Qed.
Lemma run2_sys : sys_step run1 run2. Proof. left. apply run2_step. Qed.
Lemma st1_sys : sys_step run2 st1. Proof. run_step (Prepare plan1 "t3") run2 l_Prepare. Qed.
Lemma st2_sys : sys_step st1 st2. Proof. run_step (RecordNetwork plan1 "net-1") st1 l_RecordNetwork. Qed.
Lemma st3_sys : sys_step st2 st3.
Proof. run_step (RecordContainer plan1 "c1" "i1" "hash" CompStopped "t4") st2 l_RecordContainer. Qed.
Lemma st4_sys : sys_step st3 st4.
Proof. run_step (RecordState plan1 CompRunning true "t5") st3 l_RecordState. Qed.
Lemma st5_sys : sys_step st4 st5. Proof. run_step (Commit plan1 "t6") st4 l_Commit. Qed.

Lemma run2_sys_inv : sys_inv run2.
Proof.
  eapply sys_steps_inv; [apply empty_sys_inv|].
  eapply rtc_l; [apply run1_sys|apply rtc_once, run2_sys].
Qed.

Lemma st4_reach : rtc sys_step run2 st4.
Proof.
  eapply rtc_l; [apply st1_sys|]. eapply rtc_l; [apply st2_sys|].
  eapply rtc_l; [apply st3_sys|]. apply rtc_once, st4_sys.
Qed.

Lemma st4_inv : sys_inv st4.
Proof. eapply sys_steps_inv; [apply run2_sys_inv|apply st4_reach]. Qed.

(** ** Claims *)

(** [Commit] succeeds exactly when the operation holds the
    installation's lease under its token, the expected generation is the
    current one, and its own candidate is recorded running with a
    configuration hash; and then it makes exactly one change: the candidate
    becomes the active generation, the previous one is retired, older
    retained ones are queued for cleanup, the switch is logged, and no other
    installation is touched. *)
Theorem commit_exact (plan : Plan) (now : string) (d d' : db) (Hone : one_active (db_gens d)) :
  (Commit plan now d = Ok (tt, d') <-> commit_guard plan d /\ d' = commit_db plan now d) /\
  (Commit plan now d = Ok (tt, d') ->
   active_generation (p_InstallationID plan) d' = Some (p_Generation plan) /\
   forall inst, inst <> p_InstallationID plan ->
     active_generation inst d' = active_generation inst d).
Proof.
  split; [by apply Commit_Ok|]. intros H.
  destruct (Commit_effect _ _ _ _ _ Hone H) as [He _].
  pose proof (se_active _ _ _ He Hone) as Hone'.
  pose proof (Commit_guard _ _ _ _ _ H) as (_ & _ & g & c & Hg & _).
  split.
  - apply active_generation_iff; [done|]. apply Commit_Ok in H as [_ ->]; [|done].
    cbn. rewrite map_lookup_imap. unfold plan_key in Hg. rewrite Hg. cbn.
    eexists. split; [done|]. unfold commit_row. by rewrite decide_True.
  - intros inst Hne. destruct (active_generation inst d) as [n|] eqn:E.
    + apply active_generation_Some in E as (r & Hr & Hs). apply active_generation_iff; [done|].
      exists r. by rewrite (se_other_gens _ _ _ He).
    + apply active_generation_None. intros n r Hr.
      rewrite (se_other_gens _ _ _ He) in Hr by done. by eapply active_generation_None.
Qed.

Lemma commit_exact_witness :
  commit_guard plan1 st4 /\ active_generation "inst-a" st5 = Some 1.
Proof.
  destruct (commit_exact plan1 "t6" st4 st5 (proj2 st4_inv)) as [[Hgo _] Hact].
  assert (Commit plan1 "t6" st4 = Ok (tt, st5)) as H.
  { destruct (run_Ok (Commit plan1 "t6") st4) as [[] Ha]; [vm_compute; reflexivity|exact Ha]. }
  split; [apply Hgo, H|apply (Hact H)].
Defined.

(** C37. Every transaction of the coordinator and of the store
    preserves the lock invariant and the uniqueness of the active generation,
    moves each generation only along the edges of the status graph, never
    deletes one, keeps what it was planned with until it has been cleaned up
    and prepared again, and touches the rows of one installation only. *)
Theorem generation_graph (d d' : db) (Hinv : sys_inv d) (Hstep : sys_step d d') :
  sys_inv d' /\
  (forall k, gen_change (db_gens d !! k) (db_gens d' !! k)) /\
  exists inst, forall k, k.1 <> inst ->
    db_gens d' !! k = db_gens d !! k /\
    (forall c, db_comps d' !! (k, c) = db_comps d !! (k, c)) /\
    (forall s, db_binds d' !! (k, s) = db_binds d !! (k, s)).
Proof.
  destruct (sys_step_effect d d' Hinv Hstep) as (Hinv' & _ & inst & He).
  split_and!; [done|apply He|]. exists inst. intros k Hk.
  split_and!; [by apply He|intros c; by apply He|intros s; by apply He].
Qed.

Lemma generation_graph_witness :
  sys_inv st5 /\ gen_change (db_gens st4 !! ("inst-a", 1)) (db_gens st5 !! ("inst-a", 1)).
Proof.
  destruct (generation_graph st4 st5 st4_inv st5_sys) as (Hinv & Hg & _).
  exact (conj Hinv (Hg ("inst-a", 1))).
Defined.

(** A generation that has been retired, has
    failed or was removed is active again only after it was cleaned up and
    prepared anew: between the two there is a state in which it is prepared. *)
Theorem retired_never_reactivated (d d' : db) (k : string * Z) (r r' : genRow)
    (Hinv : sys_inv d) (Hrun : rtc sys_step d d')
    (Hr : db_gens d !! k = Some r) (Hr' : db_gens d' !! k = Some r')
    (Hold : g_status r = GenRetained \/ g_status r = GenCleanupPending \/
            g_status r = GenFailed \/ g_status r = GenRemoved)
    (Hact : g_status r' = GenActive) :
  exists d1 d2 r1 r2, rtc sys_step d d1 /\ sys_step d1 d2 /\ rtc sys_step d2 d' /\
    db_gens d1 !! k = Some r1 /\ g_cleanup r1 = CleanupClean /\
    db_gens d2 !! k = Some r2 /\ g_status r2 = GenPrepared.
Proof.
  revert r Hr Hold. induction Hrun as [d|d d1 d2 H1 Hrun IH]; intros r Hr Hold.
  { simplify_eq. naive_solver congruence. }
  destruct (sys_step_effect d d1 Hinv H1) as (Hinv1 & _ & inst & He).
  pose proof (se_gens _ _ _ He k) as Hc. rewrite Hr in Hc. cbn in Hc.
  destruct (db_gens d1 !! k) as [r1|] eqn:Hr1; [|done].
  destruct (decide (g_status r1 = GenPrepared)) as [Hp|Hp].
  - destruct Hc as [->|[_ Hcl]]; [naive_solver congruence|].
    exists d, d1, r, r1. by split_and!.
  - destruct (IH Hinv1 Hr' r1 eq_refl) as (e1 & e2 & s1 & s2 & ? & ? & ? & ?).
    { destruct Hc as [->|[Hedge _]]; [done|].
      destruct Hold as [Hx|[Hx|[Hx|Hx]]]; rewrite Hx in Hedge; destruct (g_status r1); naive_solver. }
    exists e1, e2, s1, s2. split_and!; try naive_solver. by eapply rtc_l.
Qed.

(** Once the fencing token of an
    installation has advanced, in whatever order coordinator and store
    transactions ran, an executor that still carries the old token can
    neither commit a generation, nor record a container, nor remove or
    promote the active runtime, and the refused call changes nothing. *)
Theorem stale_generation_writer_refused (d d' : db) (plan : Plan) (l l' : leaseRow)
    (Hinv : sys_inv d) (Hrun : rtc sys_step d d')
    (Hl : db_leases d !! p_InstallationID plan = Some l)
    (Hl' : db_leases d' !! p_InstallationID plan = Some l')
    (Htok : p_FencingToken plan = ls_token l) (Hadv : ls_token l < ls_token l') :
  (forall now, exists e, atomically (Commit plan now) d' = (Err e, d')) /\
  (forall cid iid h s now, exists e, atomically (RecordContainer plan cid iid h s now) d' = (Err e, d')) /\
  (forall gen, exists e, atomically (MarkActiveRemoved (p_InstallationID plan) gen
     (p_OperationID plan) (p_FencingToken plan)) d' = (Err e, d')) /\
  forall d'', rtc sys_step d' d'' ->
    exists l'', db_leases d'' !! p_InstallationID plan = Some l'' /\ ls_token l < ls_token l''.
Proof.
  assert (Hstale : forall o l2,
    ~ gen_fenced d' (p_InstallationID plan) (p_OperationID plan) (p_FencingToken plan) o l2).
  { intros o l2 (Hl2 & _ & Ht & _). assert (l2 = l') as -> by congruence. lia. }
  split_and!.
  - intros now. unfold atomically. destruct (Commit plan now d') as [[u d2]|e] eqn:E; [|by eexists].
    apply Commit_guard in E as ((o & l2 & Hf) & _). by destruct (Hstale o l2).
  - intros. unfold atomically. destruct (RecordContainer _ _ _ _ _ _ _) as [[u d2]|e] eqn:E; [|by eexists].
    apply RecordContainer_effect in E as (_ & _ & o & l2 & Hf). by destruct (Hstale o l2).
  - intros. unfold atomically. destruct (MarkActiveRemoved _ _ _ _ _) as [[u d2]|e] eqn:E; [|by eexists].
    apply MarkActiveRemoved_effect in E as (_ & _ & o & l2 & Hf). by destruct (Hstale o l2).
  - intros d'' Hs. pose proof (sys_steps_inv _ _ Hinv Hrun) as Hi'.
    destruct (sys_steps_lock d' d'' _ l' Hi' Hs Hl') as (l2 & Hl2 & Hle & _).
    exists l2. split; [done|]. cbn in Hle. lia.
Qed.

Lemma stale_generation_writer_refused_witness :
  exists e, atomically (Commit plan1 "t9") run3 = (Err e, run3).
Proof.
  destruct (db_leases run2 !! "inst-a") as [l|] eqn:Hl; [|by vm_compute in Hl].
  destruct (db_leases run3 !! "inst-a") as [l'|] eqn:Hl'; [|by vm_compute in Hl'].
  assert (ls_token <$> db_leases run2 !! "inst-a" = Some 1) as Ht by (vm_compute; reflexivity).
  assert (ls_token <$> db_leases run3 !! "inst-a" = Some 2) as Ht' by (vm_compute; reflexivity).
  rewrite Hl in Ht. rewrite Hl' in Ht'. injection Ht as Ht. injection Ht' as Ht'.
  refine (proj1 (stale_generation_writer_refused run2 run3 plan1 l l' run2_sys_inv _ Hl Hl' _ _) "t9").
  - apply rtc_once. left. apply run3_step.
  - symmetry. exact Ht.
  - lia.
Defined.

(** A failed candidate is cleaned up, prepared again and committed. *)
Definition rt1 : db := run (MarkFailed plan1 CleanupClean) st2.
Definition rt2 : db := run (Prepare plan1 "t7") rt1.
Definition rt3 : db := run (RecordNetwork plan1 "net-2") rt2.
Definition rt4 : db := run (RecordContainer plan1 "c2" "i1" "hash" CompStopped "t8") rt3.
Definition rt5 : db := run (RecordState plan1 CompRunning true "t9") rt4.
Definition rt6 : db := run (Commit plan1 "t10") rt5.

Lemma rt1_sys : sys_step st2 rt1. Proof. run_step (MarkFailed plan1 CleanupClean) st2 l_MarkFailed. Qed.
Lemma rt2_sys : sys_step rt1 rt2. Proof. run_step (Prepare plan1 "t7") rt1 l_Prepare. Qed.
Lemma rt3_sys : sys_step rt2 rt3. Proof. run_step (RecordNetwork plan1 "net-2") rt2 l_RecordNetwork. Qed.
Lemma rt4_sys : sys_step rt3 rt4.
Proof. run_step (RecordContainer plan1 "c2" "i1" "hash" CompStopped "t8") rt3 l_RecordContainer. Qed.
Lemma rt5_sys : sys_step rt4 rt5. Proof. run_step (RecordState plan1 CompRunning true "t9") rt4 l_RecordState. Qed.
Lemma rt6_sys : sys_step rt5 rt6. Proof. run_step (Commit plan1 "t10") rt5 l_Commit. Qed.

Lemma rt1_inv : sys_inv rt1.
Proof.
  eapply sys_steps_inv; [apply run2_sys_inv|]. eapply rtc_l; [apply st1_sys|].
  eapply rtc_l; [apply st2_sys|]. apply rtc_once, rt1_sys.
Qed.

Lemma rt6_reach : rtc sys_step rt1 rt6.
Proof.
  eapply rtc_l; [apply rt2_sys|]. eapply rtc_l; [apply rt3_sys|]. eapply rtc_l; [apply rt4_sys|].
  eapply rtc_l; [apply rt5_sys|]. apply rtc_once, rt6_sys.
Qed.

Lemma retired_never_reactivated_witness :
  exists d1 d2 r1 r2, rtc sys_step rt1 d1 /\ sys_step d1 d2 /\ rtc sys_step d2 rt6 /\
    db_gens d1 !! ("inst-a", 1) = Some r1 /\ g_cleanup r1 = CleanupClean /\
    db_gens d2 !! ("inst-a", 1) = Some r2 /\ g_status r2 = GenPrepared.
Proof.
  destruct (db_gens rt1 !! ("inst-a", 1)) as [r|] eqn:Hr; [|by vm_compute in Hr].
  destruct (db_gens rt6 !! ("inst-a", 1)) as [r'|] eqn:Hr'; [|by vm_compute in Hr'].
  assert (g_status <$> db_gens rt1 !! ("inst-a", 1) = Some GenFailed) as Hs by (vm_compute; reflexivity).
  assert (g_status <$> db_gens rt6 !! ("inst-a", 1) = Some GenActive) as Hs' by (vm_compute; reflexivity).
  rewrite Hr in Hs. rewrite Hr' in Hs'. injection Hs as Hs. injection Hs' as Hs'.
  refine (retired_never_reactivated rt1 rt6 ("inst-a", 1) r r' rt1_inv rt6_reach Hr Hr' _ Hs').
  right. right. left. exact Hs.
Defined.

(** The bindings stored when a candidate is prepared are
    read back complete and in service order, whatever was stored for that
    generation before; a plan that names a service twice, or has more than
    eight bindings, is refused. *)
Theorem bindings_round_trip (plan : Plan) (now : string) (d d' : db)
    (Hprep : Prepare plan now d = Ok (tt, d')) :
  loadBindings (plan_key plan) d' = Normalize (p_Bindings plan) /\
  NoDup (ServiceID <$> p_Bindings plan) /\ Z.of_nat (length (p_Bindings plan)) <= MaxBindings.
Proof.
  assert (Z.of_nat (length (p_Bindings plan)) <= MaxBindings) as Hlen.
  { unfold Prepare in Hprep. apply tbind_Ok in Hprep as (? & ? & _ & H).
    by apply replaceBindings_Ok in H as (_ & ? & _). }
  apply Prepare_Ok in Hprep as (d1 & _ & _ & _ & _ & Hnd & Hb). split_and!; [|done..].
  unfold loadBindings, Normalize. apply sort_by_canonical; [|apply NoDup_Permutation].
  - assert (forall x y, x ∈ select (fun kb (_ : ServiceBinding) => kb.1 = plan_key plan) (db_binds d') ->
      y ∈ select (fun kb (_ : ServiceBinding) => kb.1 = plan_key plan) (db_binds d') ->
      ServiceID x.2 = ServiceID y.2 -> x = y) as Hinj.
    { intros [[k1 s1] b1] [[k2 s2] b2] H1 H2 Heq. apply elem_of_select in H1 as [H1 Hk1], H2 as [H2 Hk2].
      cbn in *. subst k1 k2. pose proof (proj1 (Hb _ _) H1) as [_ <-]. pose proof (proj1 (Hb _ _) H2) as [_ <-].
      congruence. }
    change (map snd ?l) with (snd <$> l). rewrite <- list_fmap_compose.
    apply NoDup_fmap_2_strong; [done|]. apply NoDup_map_to_list.
  - change (map snd ?l) with (snd <$> l). apply NoDup_fmap_2_strong; [|apply NoDup_map_to_list].
    intros [[k1 s1] b1] [[k2 s2] b2] H1 H2 Heq. apply elem_of_select in H1 as [H1 Hk1], H2 as [H2 Hk2].
    cbn in *. subst. pose proof (proj1 (Hb _ _) H1) as [_ <-]. by pose proof (proj1 (Hb _ _) H2) as [_ <-].
  - eapply NoDup_fmap_1, Hnd.
  - intros b. change (map snd ?l) with (snd <$> l). rewrite list_elem_of_fmap. split.
    + intros ([[k1 s1] b1] & -> & [H1 Hk1]%elem_of_select). cbn in *. subst. by apply Hb in H1 as [? _].
    + intros Hin. exists ((plan_key plan, ServiceID b), b). split; [done|].
      apply elem_of_select. split; [|done]. by apply Hb.
Qed.

Lemma bindings_round_trip_witness :
  loadBindings ("inst-a", 1) st1 = Normalize [web; api].
Proof.
  assert (Prepare plan1 "t3" run2 = Ok (tt, st1)) as H.
  { destruct (run_Ok (Prepare plan1 "t3") run2) as [[] Ha]; [vm_compute; reflexivity|exact Ha]. }
  exact (proj1 (bindings_round_trip plan1 "t3" run2 st1 H)).
Defined.

(** Forward recovery of a verified candidate, allowed
    only while the interrupted operation and the lease of its installation
    both wait for recovery under one token, keeps the lock invariant, releases
    the lease as the coordinator would, and makes the candidate the only
    active generation; the generation it replaces can only be its direct
    predecessor, which is retained. *)
Theorem recover_forward_safe (cand : Generation) (result : Result) (now : string) (d d' : db)
    (Hinv : sys_inv d)
    (Hown : forall o, db_ops d !! gn_CreatingOperationID cand = Some o ->
              op_installation o = gn_InstallationID cand)
    (Hrec : RecoverForward cand result now d = Ok (tt, d')) :
  sys_inv d' /\ lock_step (abs d) (abs d') /\
  active_generation (gn_InstallationID cand) d' = Some (gn_Generation cand) /\
  forall n, active_generation (gn_InstallationID cand) d = Some n ->
    n = gn_Generation cand - 1 /\
    exists r, db_gens d' !! (gn_InstallationID cand, n) = Some r /\ g_status r = GenRetained.
Proof.
  destruct (sys_step_effect d d' Hinv) as (Hinv' & Ht & _).
  { right. by eapply l_RecoverForward. }
  apply RecoverForward_effect in Hrec as (_ & _ & g & _ & _ & Hact & Hprev).
  split_and!; [done|by apply txn_lock_step; [apply Hinv|]|done..].
Qed.

(** The helper dies after verification and before the commit. *)
Definition rf1 : db := run (markReconciling op1 "t7") st4.
Definition rf2 : db := run (recoverOne op1 StateExecuting "t8") rf1.
Definition candidate1 : Generation :=
  match ByOperation op1 rf2 with Ok (g, _) => g | Err _ => zero_generation end.
Definition rf3 : db := run (RecoverForward candidate1 zero_result "t9") rf2.

Lemma rf2_inv : sys_inv rf2.
Proof.
  assert (forall id, db_ops st4 !! op1 = id -> op_state <$> id = Some StateExecuting) as H1
    by (intros id <-; vm_compute; reflexivity).
  assert (forall id, db_ops rf1 !! op1 = id -> op_state <$> id = Some StateReconciling) as H2
    by (intros id <-; vm_compute; reflexivity).
  apply (sys_steps_inv st4 rf2 st4_inv). apply (rtc_l _ st4 rf1 rf2); [left|apply rtc_once; left].
  - destruct (run_Ok (markReconciling op1 "t7") st4) as [a Ha]; [vm_compute; reflexivity|].
    destruct (db_ops st4 !! op1) as [o|] eqn:Ho; [|discriminate (H1 None eq_refl)].
    specialize (H1 _ eq_refl). injection H1 as H1.
    eapply step_mark; [exact Ho| |exact Ha]. right. left. exact H1.
  - destruct (run_Ok (recoverOne op1 StateExecuting "t8") rf1) as [a Ha]; [vm_compute; reflexivity|].
    destruct (db_ops rf1 !! op1) as [o|] eqn:Ho; [|discriminate (H2 None eq_refl)].
    specialize (H2 _ eq_refl). injection H2 as H2.
    eapply step_recover; [exact Ho|exact H2|exact Ha].
Qed.

Lemma recover_forward_safe_witness : active_generation "inst-a" rf3 = Some 1.
Proof.
  assert (RecoverForward candidate1 zero_result "t9" rf2 = Ok (tt, rf3)) as H.
  { destruct (run_Ok (RecoverForward candidate1 zero_result "t9") rf2) as [[] Ha];
      [vm_compute; reflexivity|exact Ha]. }
  refine (proj1 (proj2 (proj2 (recover_forward_safe candidate1 zero_result "t9" rf2 rf3 rf2_inv _ H)))).
  intros o Ho. assert (op_installation <$> db_ops rf2 !! gn_CreatingOperationID candidate1 = Some "inst-a") as Hi
    by (vm_compute; reflexivity).
  rewrite Ho in Hi. injection Hi as ->. vm_compute. reflexivity.
Defined.
