(* ===== verification/Runner.v ===== *)
(** * Staged replacement of a single-container runtime ([lifecycle/runner.go])

    A program of the helper runs against its database and everything outside
    it: the container runtime, the clock, the database driver, the hook used
    by tests, and whatever may kill the process.  All of these are the
    environment [E], whose answers are arbitrary.

    Each call to the runtime is recorded with its answer and the database at
    that moment; the record is only used to state what the program does. *)

From S2P Require Import Prelude Protocol Exposure HelperDB Coordinator CoordinatorProofs Containers LifecycleStore LifecycleStoreProofs.
From stdpp Require Import base gmap strings list.
From Stdlib Require Import ZArith Lia.

Open Scope Z_scope.

(** ** Programs *)
Inductive rt_call : Type :=
| CPull (image : string) (r : res unit)
| CObserveImage (image : string) (r : res ImageObservation)
| CCreateNetwork (name : string) (r : res NetworkObservation)
| CObserveNetwork (name : string) (r : res NetworkObservation)
| CCreateContainer (plan : ContainerPlan) (r : res string)
| CObserveContainer (id : string) (r : res ContainerObservation)
| CStart (id : string) (r : res unit)
| CStop (id : string) (r : res unit)
| CRemove (id : string) (r : res unit)
| CRemoveNetwork (name : string) (r : res unit)
| CWait (id state : string) (r : res ContainerObservation)
| CObserveIdentity (r : res RuntimeIdentityObservation).

(** What surrounds the helper.  [host_crash]: the process dies here;
    [host_fault]: the database driver fails, with the transaction rolled
    back; [host_hook]: [Runner.Hook], [nil] being the hook that never fails. *)
Class Host (E : Type) : Type := {
  host_runtime :: LifecycleRuntime E;
  host_now : E -> string * E;
  host_crash : E -> bool * E;
  host_fault : E -> option error * E;
  host_hook : string -> E -> option error * E
}.

Record world (E : Type) : Type := World {
  w_db : db;
  w_env : E;
  w_log : list (rt_call * db)
}.
Arguments World {E} _ _ _.
Arguments w_db {E} _.
Arguments w_env {E} _.
Arguments w_log {E} _.

Inductive out (E A : Type) : Type :=
| Done (a : A) (w : world E)
| Crashed (w : world E).
Arguments Done {E A} a w.
Arguments Crashed {E A} w.

Definition prog (E A : Type) : Type := world E -> out E A.

Definition pret {E A} (a : A) : prog E A := Done a.
Definition pbind {E A B} (m : prog E A) (f : A -> prog E B) : prog E B := fun w =>
  match m w with Done a w' => f a w' | Crashed w' => Crashed w' end.

(** [x, err := m; if err != nil { h }; k] *)
Definition ptry {E A B} (m : prog E (res A)) (h : error -> prog E B) (k : A -> prog E B)
    : prog E B :=
  pbind m (fun r => match r with Ok a => k a | Err e => h e end).

Notation "'run*' x ':=' m 'in' k" := (pbind m (fun x => k))
  (at level 10, x name, m at level 100, k at level 200) : kit_scope.
Notation "'try*' x ':=' m 'catch' e '=>' h 'in' k" := (ptry m (fun e => h) (fun x => k))
  (at level 10, x name, e name, m at level 100, h at level 100, k at level 200) : kit_scope.

(** The interface [lifecycle.Evidence]: phases of an operation are recorded
    under its fencing token.  The runner relies on a successful record being a
    fenced step of the coordinator that leaves the leases and the generation
    tables alone and appends one event that says what was recorded. *)
Class Evidence : Type := {
  record_phase : string -> Z -> string -> string -> list (string * string) -> string -> tx db unit;
  record_phase_ok operationID token phase outcome facts now d u d' :
    record_phase operationID token phase outcome facts now d = Ok (u, d') ->
    step d d' /\ coord_frame d d' /\ db_leases d' = db_leases d /\
    (exists o l, fenced d operationID token o l) /\
    exists e, db_events d' = db_events d ++ [e] /\ ev_operation e = operationID /\
      ev_token e = Some token /\ ev_kind e = "lifecycle_phase_" +:+ outcome /\ ev_phase e = phase
}.

(** The coordinator is the evidence the helper passes to the runner. *)
#[export] Instance coordinator_evidence : Evidence.
Proof.
  refine {| record_phase := RecordPhase |}.
  intros op token phase outcome facts now d u d' H.
  split; [by eapply step_RecordPhase|]. pose proof (RecordPhase_txn _ _ _ _ _ _ _ _ _ H) as Ht.
  unfold RecordPhase in H. inv_coord. split_and!; naive_solver.
Defined.

Section runner.
Context {E : Type} `{HostE : Host E} `{Ev : Evidence} (sha : string -> string).

(** Every call gives the process a chance to die first. *)
Definition alive {A} (k : prog E A) : prog E A := fun w =>
  let (dies, e) := host_crash (w_env w) in
  let w' := World (w_db w) e (w_log w) in
  if dies then Crashed w' else k w'.

Definition runtime {A} (f : E -> res A * E) (c : res A -> rt_call) : prog E (res A) :=
  alive (fun w => let (r, e) := f (w_env w) in
    Done r (World (w_db w) e (w_log w ++ [(c r, w_db w)]))).

(** One transaction (or one statement outside a transaction). *)
Definition store {A} (m : string -> tx db A) : prog E (res A) :=
  alive (fun w =>
    let (now, e) := host_now (w_env w) in
    match host_fault e with
    | (Some err, e') => Done (Err err) (World (w_db w) e' (w_log w))
    | (None, e') =>
        let (r, d') := atomically (m now) (w_db w) in Done r (World d' e' (w_log w))
    end).

Definition hook (phase : string) : prog E (res unit) :=
  alive (fun w => match host_hook phase (w_env w) with
    | (Some err, e) => Done (Err err) (World (w_db w) e (w_log w))
    | (None, e) => Done (Ok tt) (World (w_db w) e (w_log w))
    end).

Definition pull_image (image : string) := runtime (PullImage image) (CPull image).
Definition observe_image (image : string) := runtime (ObserveImage image) (CObserveImage image).
Definition create_network (name : string) (labels : gomap string) :=
  runtime (CreateLifecycleNetwork name labels) (CCreateNetwork name).
Definition observe_network (name : string) := runtime (ObserveNetwork name) (CObserveNetwork name).
Definition create_container (plan : ContainerPlan) :=
  runtime (CreateLifecycleContainer plan) (CCreateContainer plan).
Definition observe_container (id : string) := runtime (ObserveContainer id) (CObserveContainer id).
Definition start_container (id : string) := runtime (StartContainer id) (CStart id).
Definition stop_container (id : string) := runtime (StopContainer id) (CStop id).
Definition remove_container (id : string) := runtime (RemoveContainer id) (CRemove id).
Definition remove_network (name : string) := runtime (RemoveLifecycleNetwork name) (CRemoveNetwork name).
Definition wait_container (id state : string) := runtime (WaitContainer id state) (CWait id state).

(** ** Verification *)
Definition owner_matches (o : ContainerObservation) (installation : string) (generation : Z) : bool :=
  bool_decide (label o LabelManaged = "true") &&
  bool_decide (label o LabelInstance = installation) &&
  bool_decide (label o LabelGeneration = sprint generation).

Definition verifyCandidate (plan : Plan) (network : NetworkObservation)
    (observed : ContainerObservation) (want : string) : res unit :=
  if negb (nw_Exists network && bool_decide (nw_Name network = p_NetworkName plan) &&
           bool_decide (ob_State observed = want) && ob_Exists observed &&
           bool_decide (ob_Name observed = p_ContainerName plan) &&
           bool_decide (ob_ImageReference observed = p_Image plan))
  then Err (ErrMsg "candidate runtime identity mismatch")
  else if negb (owner_matches observed (p_InstallationID plan) (p_Generation plan))
  then Err (ErrMsg "candidate ownership evidence mismatch")
  else if negb (match ob_Networks observed !! p_NetworkName plan with
      | None => false
      | Some attachment =>
          bool_decide (na_NetworkID attachment = nw_ID network) ||
          (bool_decide (want = RuntimeStopped) && bool_decide (na_NetworkID attachment = "") &&
           bool_decide (ob_NetworkMode observed = p_NetworkName plan))
      end)
  then Err (ErrMsg "candidate network identity mismatch")
  else if negb (configuration_matches (p_Container plan) observed)
  then Err (ErrMsg "candidate runtime configuration mismatch")
  else if negb (resources_match (p_Container plan) observed)
  then Err (ErrMsg "candidate mounts, ports, or devices mismatch")
  else Ok tt.

(** The checks of [verifyStoredGeneration] on one observation. *)
Definition stored_matches (g : Generation) (want : string) (o : ContainerObservation) : res unit :=
  let c := gn_Component g in
  if negb (ob_Exists o && bool_decide (ob_ID o = cm_ContainerID c) &&
           bool_decide (ob_Name o = cm_ContainerName c) &&
           bool_decide (ob_ImageReference o = cm_Image c) && bool_decide (ob_State o = want))
  then Err (ErrMsg "container identity or state mismatch")
  else if negb (owner_matches o (gn_InstallationID g) (gn_Generation g))
  then Err (ErrMsg "container ownership evidence mismatch")
  else if negb (bool_decide (is_Some (ob_Networks o !! gn_NetworkName g)))
  then Err (ErrMsg "container network mismatch")
  else if decide (gn_Status g = "verification_required" /\ cm_ConfigurationHash c = "")
  then Err (ErrMsg "migrated container configuration is not verified")
  else if decide (cm_ConfigurationHash c <> "" /\ observationHash sha o <> cm_ConfigurationHash c)
  then Err (ErrMsg "container configuration hash mismatch")
  else Ok tt.

Definition verifyStoredGeneration (g : Generation) (want : string)
    : prog E (res ContainerObservation) :=
  try* observed := observe_container (cm_ContainerID (gn_Component g)) catch e => pret (Err e) in
  pret (match stored_matches g want observed with Ok _ => Ok observed | Err e => Err e end).

Definition observeRepairableActive (g : Generation) : prog E (res ContainerObservation) :=
  let c := gn_Component g in
  try* observed := observe_container (cm_ContainerID c) catch e => pret (Err e) in
  if negb (ob_Exists observed) then
    try* byName := observe_container (cm_ContainerName c) catch e => pret (Err e) in
    if ob_Exists byName
    then pret (Err (ErrMsg "expected container name is occupied by an untrusted runtime object"))
    else pret (Ok observed)
  else if negb (bool_decide (ob_ID observed = cm_ContainerID c) &&
                bool_decide (ob_Name observed = cm_ContainerName c) &&
                bool_decide (ob_ImageReference observed = cm_Image c) &&
                owner_matches observed (gn_InstallationID g) (gn_Generation g))
  then pret (Err (ErrMsg "active container identity changed"))
  else
    let state_ok := if decide (ob_State observed <> RuntimeRunning /\
                               ob_State observed <> RuntimeStopped)
      then Err (ErrMsg "active container state is not repairable") else Ok observed in
    if decide (cm_ConfigurationHash c <> "" /\ observationHash sha observed <> cm_ConfigurationHash c)
    then
      run* network := observe_network (gn_NetworkName g) in
      match network with
      | Ok network =>
          if nw_Exists network &&
             (bool_decide (gn_NetworkID g = "") || bool_decide (nw_ID network = gn_NetworkID g)) &&
             detachedStoppedConfigurationMatches sha observed (cm_ConfigurationHash c)
               (gn_NetworkName g) (nw_ID network)
          then pret state_ok
          else pret (Err (ErrMsg "active container configuration changed"))
      | Err _ => pret (Err (ErrMsg "active container configuration changed"))
      end
    else pret state_ok.

(** ** The runner *)
Definition checkpoint (plan : Plan) (phase outcome : string) (facts : list (string * string))
    : prog E (res unit) :=
  try* _ := store (record_phase (p_OperationID plan) (p_FencingToken plan) phase outcome facts)
    catch e => pret (Err e) in
  hook phase.

Definition loadAndVerifyActive (plan : Plan) : prog E (res Generation) :=
  let inst := p_InstallationID plan in
  try* _ := store (fun _ => BackfillInstallation inst) catch e => pret (Err e) in
  run* current := store (fun _ => Current inst) in
  match current with
  | Err e =>
      if is_no_rows e then
        if decide (p_ExpectedGeneration plan <> 0)
        then pret (Err (ErrMsg "active generation is missing"))
        else pret (Ok zero_generation)
      else pret (Err e)
  | Ok active =>
      (* the target being retried is not the prior generation *)
      let retry := bool_decide (gn_Status active = "removed" /\
                                gn_Generation active = p_Generation plan) in
      if retry && negb (bool_decide (gn_CleanupState active = "clean"))
      then pret (Err (ErrMsg "target generation has unresolved cleanup evidence"))
      else if retry && bool_decide (p_ExpectedGeneration plan = 0) then pret (Ok zero_generation)
      else
        try* active :=
          (if retry then
             try* removed := store (fun _ => removed_generation inst (p_ExpectedGeneration plan))
               catch e => pret (Err (ErrMsg "previous removed generation is unavailable for target retry")) in
             store (fun _ => let* d := tget in tret (with_bindings removed d))
           else pret (Ok active)) catch e => pret (Err e) in
        if decide (gn_Status active = "removed") then pret (Ok active) else
        run* observed := verifyStoredGeneration active RuntimeRunning in
        match observed with
        | Err err =>
            let ambiguous := Err (ErrWrap "active runtime ownership is ambiguous" err) in
            if p_AllowMissingActive plan && bool_decide (gn_Status active = "active") then
              run* repairable := observeRepairableActive active in
              match repairable with Ok _ => pret (Ok active) | Err _ => pret ambiguous end
            else pret ambiguous
        | Ok observed =>
            if decide (gn_Status active = "verification_required") then
              run* network := observe_network (gn_NetworkName active) in
              match network with
              | Ok network =>
                  if negb (nw_Exists network)
                  then pret (Err (ErrMsg "migrated network cannot be verified"))
                  else
                    try* _ := store (PromoteMigrated active (nw_ID network) (ob_ImageID observed)
                                       (observationHash sha observed)) catch e => pret (Err e) in
                    pret (Ok (active <| gn_Status := "active" |> <| gn_NetworkID := nw_ID network |>
                      <| gn_Component := gn_Component active <| cm_ImageID := ob_ImageID observed |>
                           <| cm_ConfigurationHash := observationHash sha observed |> |>))
              | Err _ => pret (Err (ErrMsg "migrated network cannot be verified"))
              end
            else pret (Ok active)
        end
  end.

(** [cleanupCandidate], the container and the network in turn. *)
Definition cleanup_candidate_container (g : Generation) : prog E (res unit) :=
  let id := cm_ContainerID (gn_Component g) in
  if decide (id = "") then pret (Ok tt) else
  run* observed := observe_container id in
  match observed with
  | Err _ => pret (Err (ErrMsg "candidate ownership changed during cleanup"))
  | Ok observed =>
      if negb (ob_Exists observed) then pret (Ok tt)
      else if decide (ob_ID observed <> id)
      then pret (Err (ErrMsg "candidate ownership changed during cleanup"))
      else
        run* _ := (if decide (ob_State observed = RuntimeRunning)
                   then stop_container (ob_ID observed) else pret (Ok tt)) in
        try* _ := remove_container (ob_ID observed) catch e => pret (Err e) in
        run* removed := observe_container (ob_ID observed) in
        match removed with
        | Ok removed =>
            if decide (ob_State removed = RuntimeMissing) then pret (Ok tt)
            else pret (Err (ErrMsg "candidate container removal could not be verified"))
        | Err _ => pret (Err (ErrMsg "candidate container removal could not be verified"))
        end
  end.

Definition cleanup_candidate_network (g : Generation) : prog E (res unit) :=
  let name := gn_NetworkName g in
  if decide (name = "") then pret (Ok tt) else
  try* network := observe_network name catch e => pret (Err e) in
  if negb (nw_Exists network) then pret (Ok tt)
  else if decide (nw_ID network <> gn_NetworkID g)
  then pret (Err (ErrMsg "candidate network ownership changed during cleanup"))
  else
    try* _ := remove_network name catch e => pret (Err e) in
    run* removed := observe_network name in
    match removed with
    | Ok removed =>
        if nw_Exists removed
        then pret (Err (ErrMsg "candidate network removal could not be verified"))
        else pret (Ok tt)
    | Err _ => pret (Err (ErrMsg "candidate network removal could not be verified"))
    end.

Definition generation_fact (n : Z) : list (string * string) := [("generation", sprint n)].

Definition cleanupCandidate (plan : Plan) : prog E (res unit) :=
  try* g := store (fun _ => ByOperation (p_OperationID plan)) catch e => pret (Err e) in
  try* _ := store (record_phase (p_OperationID plan) (p_FencingToken plan) "candidate_cleanup"
                     "intent" (generation_fact (p_Generation plan))) catch e => pret (Err e) in
  try* _ := cleanup_candidate_container g catch e => pret (Err e) in
  try* _ := cleanup_candidate_network g catch e => pret (Err e) in
  store (record_phase (p_OperationID plan) (p_FencingToken plan) "candidate_cleanup"
           "confirmed" (generation_fact (p_Generation plan))).

Definition errs {A} (r : res A) : list error := match r with Ok _ => [] | Err e => [e] end.

Definition failBeforeCutover (plan : Plan) (cause : error) : prog E error :=
  run* cleanup := cleanupCandidate plan in
  run* mark := store (fun _ => MarkFailed plan (if is_ok cleanup then CleanupClean else CleanupPending)) in
  pret (if is_ok cleanup && is_ok mark then cause
        else ErrUnknownOutcome PhaseCleanup (ErrJoin (cause :: errs cleanup ++ errs mark))).

Definition afterCutoverFailure (plan : Plan) (active : Generation) (containerID phase : string)
    (cause : error) : prog E error :=
  let unknown := ErrUnknownOutcome phase cause in
  let old := cm_ContainerID (gn_Component active) in
  try* observed := observe_container containerID catch _e => pret unknown in
  try* _ := (if decide (ob_State observed = RuntimeRunning) then stop_container containerID
             else pret (Ok tt)) catch _e => pret unknown in
  if decide (gn_Status active = "active" /\ p_RollbackSafe plan = true) then
    try* _ := start_container old catch _e => pret unknown in
    try* _ := wait_container old RuntimeRunning catch _e => pret unknown in
    run* cleanup := cleanupCandidate plan in
    run* mark := store (fun _ => MarkFailed plan (if is_ok cleanup then CleanupClean else CleanupPending)) in
    pret (if is_ok cleanup && is_ok mark then cause
          else ErrUnknownOutcome PhaseCleanup (ErrJoin (cause :: errs cleanup ++ errs mark)))
  else pret unknown.

Definition MarkRemoved (g : Generation) : prog E (res unit) :=
  try* _ := store (fun _ => MarkRemoved_generation g) catch e => pret (Err e) in
  store (fun _ => MarkRemoved_components g).

(** One older generation; [true] when its cleanup is deferred. *)
Definition defer (g : Generation) : prog E bool :=
  run* _ := store (fun _ => MarkCleanupPending g) in pret true.

Definition cleanup_older_container (plan : Plan) (g : Generation) : prog E (res unit) :=
  try* observed := observe_container (cm_ContainerID (gn_Component g)) catch e => pret (Err e) in
  if negb (ob_Exists observed) then pret (Ok tt) else
  try* _ := (if p_AllowMissingActive plan && bool_decide (gn_Generation g = p_ExpectedGeneration plan)
             then observeRepairableActive g
             else verifyStoredGeneration g RuntimeStopped) catch e => pret (Err e) in
  try* _ := remove_container (ob_ID observed) catch e => pret (Err e) in
  try* removed := observe_container (ob_ID observed) catch e => pret (Err e) in
  pret (if decide (ob_State removed = RuntimeMissing) then Ok tt
        else Err (ErrMsg "container still present")).

Definition cleanup_older_network (g : Generation) : prog E (res unit) :=
  try* network := observe_network (gn_NetworkName g) catch e => pret (Err e) in
  if negb (nw_Exists network) then pret (Ok tt)
  else if decide (nw_ID network <> gn_NetworkID g)
  then pret (Err (ErrMsg "network ownership changed"))
  else
    try* _ := remove_network (gn_NetworkName g) catch e => pret (Err e) in
    try* removed := observe_network (gn_NetworkName g) catch e => pret (Err e) in
    pret (if nw_Exists removed then Err (ErrMsg "network still present") else Ok tt).

Definition cleanup_one (plan : Plan) (g : Generation) : prog E bool :=
  try* _ := checkpoint plan PhaseCleanup "intent" (generation_fact (gn_Generation g))
    catch _e => defer g in
  try* _ := cleanup_older_container plan g catch _e => defer g in
  try* _ := cleanup_older_network g catch _e => defer g in
  try* _ := store (record_phase (p_OperationID plan) (p_FencingToken plan) PhaseCleanup "confirmed"
                     (generation_fact (gn_Generation g))) catch _e => defer g in
  run* mark := MarkRemoved g in pret (negb (is_ok mark)).

Fixpoint cleanup_loop (plan : Plan) (older : list Generation) (deferred : bool) : prog E bool :=
  match older with
  | [] => pret deferred
  | g :: rest => run* x := cleanup_one plan g in cleanup_loop plan rest (deferred || x)
  end.

Definition cleanupOlder (plan : Plan) (keepGeneration : Z) : prog E bool :=
  try* older := store (fun _ => OlderRetained (p_InstallationID plan) keepGeneration)
    catch _e => pret true in
  cleanup_loop plan older false.

(** *** [Replace], from its end to its beginning *)
Definition fail (e : error) : prog E (Result * option error) := pret (zero_result, Some e).
Definition fail_with (m : prog E error) : prog E (Result * option error) :=
  run* e := m in fail e.

(** From the commit intent to the end. *)
Definition replace_commit (plan : Plan) (observed : ContainerObservation)
    : prog E (Result * option error) :=
  let unknown phase e := fail (ErrUnknownOutcome phase e) in
  try* _ := checkpoint plan PhaseBeforeCommit "intent" [] catch e => unknown PhaseBeforeCommit e in
  try* _ := store (Commit plan) catch e => unknown PhaseBeforeCommit e in
  let result := {| re_Generation := p_Generation plan; re_ReleaseID := p_ReleaseID plan;
    re_RuntimeState := "running"; re_ContainerName := p_ContainerName plan;
    re_ContainerID := ob_ID observed; re_NetworkName := p_NetworkName plan;
    re_Bindings := Normalize (p_Bindings plan); re_CleanupDeferred := false; re_Components := ∅ |} in
  try* _ := checkpoint plan PhaseAfterCommit "confirmed" []
    catch e => pret (result, Some (ErrUnknownOutcome PhaseAfterCommit e)) in
  let keepGeneration := if p_AllowMissingActive plan then 0 else p_ExpectedGeneration plan in
  run* deferred := cleanupOlder plan keepGeneration in
  pret (result <| re_CleanupDeferred := deferred |>, None).

(** The candidate is started, verified running and recorded as verified. *)
Definition replace_start (plan : Plan) (active : Generation) (containerID configHash : string)
    : prog E (Result * option error) :=
  let after phase e := fail_with (afterCutoverFailure plan active containerID phase e) in
  let unknown phase e := fail (ErrUnknownOutcome phase e) in
  try* _ := checkpoint plan PhaseBeforeCandidateStart "intent" []
    catch e => after PhaseBeforeCandidateStart e in
  try* _ := start_container containerID catch e => after PhaseBeforeCandidateStart e in
  try* _ := wait_container containerID RuntimeRunning catch e => after PhaseAfterCandidateStart e in
  try* _ := store (RecordState plan CompRunning false) catch e => unknown PhaseAfterCandidateStart e in
  try* _ := checkpoint plan PhaseAfterCandidateStart "confirmed" []
    catch e => unknown PhaseAfterCandidateStart e in
  try* _ := checkpoint plan PhaseBeforeVerification "intent" []
    catch e => after PhaseBeforeVerification e in
  try* network := observe_network (p_NetworkName plan) catch e => after PhaseBeforeVerification e in
  try* observed := observe_container containerID catch e => after PhaseBeforeVerification e in
  match verifyCandidate plan network observed RuntimeRunning with
  | Err e => after PhaseBeforeVerification e
  | Ok _ =>
      if decide (observationHash sha observed <> configHash)
      then after PhaseBeforeVerification (ErrMsg "candidate configuration changed before commit")
      else
        try* _ := store (RecordState plan CompRunning true) catch e => unknown PhaseAfterVerification e in
        try* _ := checkpoint plan PhaseAfterVerification "confirmed"
                    [("health", ob_Health observed); ("runtime_state", "running")]
          catch e => unknown PhaseAfterVerification e in
        replace_commit plan observed
  end.

(** The old container is stopped, if there is one running. *)
Definition replace_stop_old (plan : Plan) (active : Generation) (containerID configHash : string)
    : prog E (Result * option error) :=
  let before e := fail_with (failBeforeCutover plan e) in
  let unknown phase e := fail (ErrUnknownOutcome phase e) in
  let old := cm_ContainerID (gn_Component active) in
  try* _ := checkpoint plan PhaseBeforeOldStop "intent"
              [("rollback_policy", if p_RollbackSafe plan then "same_image_restart_allowed"
                                   else "shared_data_conservative")] catch e => before e in
  run* stopped := stop_container old in
  match stopped with
  | Err err =>
      run* oldObserved := observe_container old in
      match oldObserved with
      | Ok o => if decide (ob_State o = RuntimeRunning)
                then before (ErrWrap "old generation stop failed" err)
                else unknown PhaseBeforeOldStop err
      | Err _ => unknown PhaseBeforeOldStop err
      end
  | Ok _ =>
      try* _ := wait_container old RuntimeStopped catch e => unknown PhaseAfterOldStop e in
      try* _ := checkpoint plan PhaseAfterOldStop "confirmed" [] catch e => unknown PhaseAfterOldStop e in
      replace_start plan active containerID configHash
  end.

(** Fresh observation of both generations before anything old is touched. *)
Definition replace_precutover (plan : Plan) (active : Generation) (containerID configHash : string)
    : prog E (Result * option error) :=
  let before e := fail_with (failBeforeCutover plan e) in
  try* activeObserved :=
    (if decide (gn_Status active = "active") then
       if p_AllowMissingActive plan then observeRepairableActive active
       else verifyStoredGeneration active RuntimeRunning
     else pret (Ok zero_observation)) catch e => before e in
  try* network := observe_network (p_NetworkName plan) catch e => before e in
  try* observed := observe_container containerID catch e => before e in
  match verifyCandidate plan network observed RuntimeStopped with
  | Err e => before e
  | Ok _ =>
      if decide (gn_Status active = "active" /\ ob_Exists activeObserved = true /\
                 ob_State activeObserved = RuntimeRunning)
      then replace_stop_old plan active containerID configHash
      else replace_start plan active containerID configHash
  end.

(** The stopped candidate container. *)
Definition replace_container (plan : Plan) (active : Generation) (network : NetworkObservation)
    : prog E (Result * option error) :=
  let before e := fail_with (failBeforeCutover plan e) in
  let unknown phase e := fail (ErrUnknownOutcome phase e) in
  try* _ := checkpoint plan PhaseBeforeContainer "intent" [] catch e => before e in
  run* created := create_container (p_Container plan) in
  match created with
  | Err err =>
      run* existing := observe_container (p_ContainerName plan) in
      match existing with
      | Ok o => if ob_Exists o then unknown PhaseBeforeContainer err
                else before (ErrWrap "create stopped candidate" err)
      | Err _ => unknown PhaseBeforeContainer err
      end
  | Ok containerID =>
      try* _ := store (RecordContainer plan containerID "" "" CompCreated)
        catch e => unknown PhaseAfterContainer e in
      try* observed := observe_container containerID catch e => unknown PhaseAfterContainer e in
      match verifyCandidate plan network observed RuntimeStopped with
      | Err e => before e
      | Ok _ =>
          let configHash := observationHash sha observed in
          try* _ := store (RecordContainer plan (ob_ID observed) (ob_ImageID observed) configHash CompStopped)
            catch e => unknown PhaseAfterContainer e in
          try* _ := checkpoint plan PhaseAfterContainer "confirmed"
                      [("configuration_hash", configHash); ("container_id", ob_ID observed)]
            catch e => unknown PhaseAfterContainer e in
          replace_precutover plan active containerID configHash
      end
  end.

(** The candidate network. *)
Definition replace_network (plan : Plan) (active : Generation) : prog E (Result * option error) :=
  let before e := fail_with (failBeforeCutover plan e) in
  let unknown phase e := fail (ErrUnknownOutcome phase e) in
  try* _ := checkpoint plan PhaseBeforeNetwork "intent" [] catch e => before e in
  run* created := create_network (p_NetworkName plan) (pl_Labels (p_Container plan)) in
  match created with
  | Err err =>
      run* existing := observe_network (p_NetworkName plan) in
      match existing with
      | Ok n => if nw_Exists n then unknown PhaseBeforeNetwork err
                else before (ErrWrap "create candidate network" err)
      | Err _ => unknown PhaseBeforeNetwork err
      end
  | Ok network =>
      try* _ := store (fun _ => RecordNetwork plan (nw_ID network))
        catch e => unknown PhaseAfterNetwork e in
      try* _ := checkpoint plan PhaseAfterNetwork "confirmed" [("network_id", nw_ID network)]
        catch e => unknown PhaseAfterNetwork e in
      replace_container plan active network
  end.

(** The plan with the user and volumes of the observed image. *)
Definition with_image (plan : Plan) (image : ImageObservation) : Plan :=
  plan <| p_Container := p_Container plan
    <| pl_ImageDefaultUser := im_ConfiguredUser image |>
    <| pl_ImageDefaultVolumes := im_ConfiguredVolumes image |> |>.

Definition Replace (plan : Plan) : prog E (Result * option error) :=
  try* active := loadAndVerifyActive plan catch e => fail e in
  if decide (gn_Generation active <> p_ExpectedGeneration plan \/
             p_Generation plan <> p_ExpectedGeneration plan + 1)
  then fail (ErrMsg ("stale runtime generation: expected " +:+ sprint (p_ExpectedGeneration plan)
         +:+ " active " +:+ sprint (gn_Generation active) +:+ " target " +:+ sprint (p_Generation plan)))
  else
    try* _ := checkpoint plan PhaseBeforePull "intent" [] catch e => fail e in
    try* _ := pull_image (p_Image plan) catch e => fail (ErrWrap "pull target image" e) in
    try* image := observe_image (p_Image plan) catch e => fail (ErrUnknownOutcome PhaseAfterPull e) in
    if negb (imageContainsDigest image (p_Image plan))
    then fail (ErrMsg "pulled target digest could not be verified")
    else
      let plan := with_image plan image in
      try* _ := checkpoint plan PhaseAfterPull "confirmed" [("image_id", im_ID image)]
        catch e => fail e in
      try* _ := store (Prepare plan) catch e => fail e in
      replace_network plan active.
End runner.
