(* ===== verification/Reconciliation.v ===== *)
(** * Reconciliation ([lifecycle/reconciliation.go], observation)

    The comparison of the helper's records with what the container runtime
    shows.  [provider] is the runtime seen as a
    [containers.RuntimeIdentityProvider], when it is one. *)

From S2P Require Import Prelude Protocol Exposure HelperDB Coordinator Containers LifecycleStore MultiStore ReconciliationStore Runner.
From stdpp Require Import base gmap strings list.
From Stdlib Require Import ZArith Lia.

Open Scope Z_scope.

(** [if b { codes = append(codes, code) }] *)
Definition flag (b : bool) (code : string) : list string := if b then [code] else [].

(** [observed.Networks[name].NetworkID], empty when there is no attachment. *)
Definition attachment_id (o : ContainerObservation) (network : string) : string :=
  match ob_Networks o !! network with Some a => na_NetworkID a | None => "" end.

(** ** One component *)
Definition expected_runtime (role : string) (component : Component) : string :=
  let expected := cm_State component in
  if decide (role = "retained") then "stopped"
  else if decide (expected <> "running" /\ expected <> "stopped") then
    if decide (role = "cleanup" \/ role = "candidate") then "stopped" else "running"
  else expected.

Definition ownership_ambiguous (g : MultiGeneration) (c : Component) (o : ContainerObservation) : bool :=
  (bool_decide (cm_ContainerID c <> "") && bool_decide (ob_ID o <> cm_ContainerID c)) ||
  bool_decide (ob_Name o <> cm_ContainerName c) ||
  negb (owner_matches o (mg_InstallationID g) (mg_Generation g)).

Definition image_differs (c : Component) (o : ContainerObservation) : bool :=
  bool_decide (ob_ImageReference o <> cm_Image c) ||
  (bool_decide (cm_ImageID c <> "") && bool_decide (ob_ImageID o <> cm_ImageID c)).

(** The network checks, for which a generation on its way in or out
    ([transient]) has two allowances. *)
Definition stopped_before_first_start (transient : bool) (network : string) (o : ContainerObservation) : bool :=
  transient && bool_decide (ob_State o = RuntimeStopped) &&
  bool_decide (attachment_id o network = "") && bool_decide (ob_NetworkMode o = network).

Definition network_differs (transient : bool) (name networkID : string) (n : NetworkObservation)
    (o : ContainerObservation) : bool :=
  let stale := transient && bool_decide (ob_State o = RuntimeStopped) && negb (nw_Exists n) in
  (negb (nw_Exists n) && negb stale) ||
  (negb stale && bool_decide (networkID <> "") && bool_decide (nw_ID n <> networkID)) ||
  negb (bool_decide (is_Some (ob_Networks o !! name))) ||
  (bool_decide (nw_ID n <> "") && bool_decide (attachment_id o name <> nw_ID n) &&
   negb (stopped_before_first_start transient name o)).

Section hash.
Context (sha : string -> string).

Definition detached_after_failed_start (g : MultiGeneration) (c : Component) (n : NetworkObservation)
    (o : ContainerObservation) : bool :=
  nw_Exists n && (bool_decide (mg_NetworkID g = "") || bool_decide (nw_ID n = mg_NetworkID g)) &&
  detachedStoppedConfigurationMatches sha o (cm_ConfigurationHash c) (mg_NetworkName g) (nw_ID n).

Definition configuration_differs (g : MultiGeneration) (c : Component) (detached : bool)
    (o : ContainerObservation) : bool :=
  if decide (mg_Status g = "verification_required" /\ mg_TopologyHash g = "" /\
             length (mg_Components g) = 1%nat /\ cm_ConfigurationHash c = "")
  then true
  else bool_decide (cm_ConfigurationHash c <> "" /\ observationHash sha o <> cm_ConfigurationHash c) &&
       negb detached.

Definition missing_codes (g : MultiGeneration) (role : string) : list string :=
  if decide (role = "active") then
    if decide (length (mg_Components g) = 1%nat) then [MismatchActiveContainerMissing]
    else [MismatchComponentMissing]
  else if decide (role = "retained") then [MismatchRetainedGenerationMissing] else [].

(** The codes of a container that exists, in the order they are appended. *)
Definition existing_codes (g : MultiGeneration) (role : string) (c : Component) (n : NetworkObservation)
    (o : ContainerObservation) : list string :=
  let active := bool_decide (role = "active") in
  let transient := bool_decide (role = "candidate" \/ role = "cleanup") in
  let detached := detached_after_failed_start g c n o in
  let expected := expected_runtime role c in
  let state s := bool_decide (ob_State o = s) in
  flag (ownership_ambiguous g c o) MismatchOwnershipAmbiguous ++
  flag (image_differs c o) MismatchImage ++
  (if detached then [if active then MismatchActiveContainerDetached else MismatchCleanupPending]
   else flag (network_differs transient (mg_NetworkName g) (mg_NetworkID g) n o) MismatchNetwork) ++
  flag (configuration_differs g c detached o) MismatchConfiguration ++
  flag (active && bool_decide (expected = "running") && state RuntimeStopped) MismatchActiveContainerStopped ++
  flag (active && bool_decide (expected = "stopped") && state RuntimeRunning) MismatchActiveContainerRunning ++
  flag (active && (state RuntimeRestarting || state RuntimePaused)) MismatchActiveContainerUnstable ++
  flag (active && state RuntimeUnknown) MismatchRuntimeStateUnknown ++
  flag (bool_decide (role = "retained") && state RuntimeRunning) MismatchRetainedGenerationRunning.

Definition component_finding (g : MultiGeneration) (role : string) (n : NetworkObservation)
    (c : Component) (o : ContainerObservation) : ComponentFinding :=
  {| cf_ComponentID := cm_ID c; cf_Generation := mg_Generation g; cf_Role := role;
     cf_ExpectedRuntime := expected_runtime role c;
     cf_ObservedRuntime := if ob_Exists o then ob_State o else "missing";
     cf_ExpectedRuntimeID := cm_ContainerID c;
     cf_ObservedRuntimeID := if ob_Exists o then ob_ID o else "";
     cf_MismatchCodes := if ob_Exists o then existing_codes g role c n o else missing_codes g role |}.

(** ** One generation *)

(** [findings], [states] and [observedByID] of the component loop. *)
Record survey : Type := {
  sv_findings : list ComponentFinding;
  sv_states : gmap string nat;
  sv_observed : gmap string string
}.

Definition survey_add (s : survey) (c : Component) (f : ComponentFinding) (exists_ : bool) : survey :=
  {| sv_findings := sv_findings s ++ [f];
     sv_states := <[cf_ObservedRuntime f := S (default 0%nat (sv_states s !! cf_ObservedRuntime f))]> (sv_states s);
     sv_observed := if exists_ then <[cm_ID c := cf_ObservedRuntime f]> (sv_observed s) else sv_observed s |}.

Definition add_codes (codes : list string) (f : ComponentFinding) : ComponentFinding :=
  f <| cf_MismatchCodes := cf_MismatchCodes f ++ codes |>.

(** One code for every dependency of a running component that is not running. *)
Definition dependency_codes (observed : gmap string string) (c : Component) : list string :=
  if decide (observed !! cm_ID c = Some "running") then
    map (fun _ => MismatchDependencyState)
      (filter (fun dependency => observed !! dependency <> Some "running") (cm_DependsOn c))
  else [].

Definition survey_findings (g : MultiGeneration) (role : string) (s : survey) : list ComponentFinding :=
  if decide (role = "active") then
    let mixed := if decide (1 < size (sv_states s))%nat
      then map (add_codes [MismatchComponentStateMixed]) (sv_findings s) else sv_findings s in
    zip_with (fun c => add_codes (dependency_codes (sv_observed s) c)) (mg_Components g) mixed
  else sv_findings s.

Definition survey_state (g : MultiGeneration) (s : survey) : string :=
  let all state := bool_decide (default 0%nat (sv_states s !! state) = length (mg_Components g)) in
  if all "running" then "running"
  else if all "stopped" then "stopped"
  else if all "missing" then "missing"
  else if all RuntimeRestarting then RuntimeRestarting
  else if all RuntimePaused then RuntimePaused
  else if all RuntimeUnknown then RuntimeUnknown
  else "degraded".

Section programs.
Context {E : Type} `{HostE : Host E}.

Class RuntimeIdentityProvider : Type :=
  ObserveRuntimeIdentity : E -> res RuntimeIdentityObservation * E.

Context (provider : option RuntimeIdentityProvider).

(** The stored identity first, the trusted name as a fallback. *)
Definition observeComponent (component : Component) : prog E (res ContainerObservation) :=
  let by_name :=
    if decide (cm_ContainerName component = "")
    then pret (Ok (zero_observation <| ob_State := RuntimeMissing |>))
    else observe_container (cm_ContainerName component) in
  if decide (cm_ContainerID component <> "") then
    try* observed := observe_container (cm_ContainerID component) catch e => pret (Err e) in
    if ob_Exists observed then pret (Ok observed) else by_name
  else by_name.

Fixpoint observe_components (g : MultiGeneration) (role : string) (network : NetworkObservation)
    (components : list Component) (s : survey) : prog E (res survey) :=
  match components with
  | [] => pret (Ok s)
  | c :: rest =>
      try* observed := observeComponent c catch e => pret (Err e) in
      observe_components g role network rest
        (survey_add s c (component_finding g role network c observed) (ob_Exists observed))
  end.

Definition observeGeneration (g : MultiGeneration) (role : string)
    : prog E (res (list ComponentFinding * string)) :=
  try* network := observe_network (mg_NetworkName g) catch e => pret (Err e) in
  try* s := observe_components g role network (mg_Components g)
              {| sv_findings := []; sv_states := ∅; sv_observed := ∅ |} catch e => pret (Err e) in
  pret (Ok (survey_findings g role s, survey_state g s)).

(** ** One installation *)
Definition non_active_role (status : string) : option string :=
  if decide (status = "retained") then Some "retained"
  else if decide (status = "cleanup_pending") then Some "cleanup"
  else if decide (status = "candidate" \/ status = "prepared" \/ status = "failed") then Some "candidate"
  else None.

Definition add_findings (findings : list ComponentFinding) (r : ReconciliationResult) : ReconciliationResult :=
  r <| rr_Components := rr_Components r ++ findings |>
    <| rr_MismatchCodes := rr_MismatchCodes r ++ findings ≫= cf_MismatchCodes |>.

Definition add_code (code : string) (r : ReconciliationResult) : ReconciliationResult :=
  r <| rr_MismatchCodes := rr_MismatchCodes r ++ [code] |>.

Definition all_missing (findings : list ComponentFinding) : bool :=
  bool_decide (findings <> []) && forallb (fun f => bool_decide (cf_ObservedRuntime f = "missing")) findings.

Definition any_exact (findings : list ComponentFinding) : bool :=
  existsb (fun f => bool_decide (cf_ObservedRuntime f <> "missing") &&
                    bool_decide (cf_MismatchCodes f = [])) findings.

(** What an unfinished cleanup amounts to. *)
Definition classify_cleanup (g : MultiGeneration) (missing : bool) (r : ReconciliationResult)
    : prog E (ReconciliationResult * option error) :=
  if decide (mg_CleanupState g = "pending") then
    if missing then
      try* network := observe_network (mg_NetworkName g) catch e => pret (r, Some e) in
      if nw_Exists network then pret (add_code MismatchCleanupPending r, None)
      else try* _ := store (fun _ => MarkReconciledAbsent g) catch e => pret (r, Some e) in pret (r, None)
    else pret (add_code MismatchCleanupPending r, None)
  else pret (r, None).

Definition classify_candidate (g : MultiGeneration) (role : string) (exact : bool)
    (r : ReconciliationResult) : ReconciliationResult :=
  if bool_decide (role = "candidate") && exact then
    let r := add_code MismatchCandidateOrphaned r in
    if decide (rr_OriginatingOperation r = "")
    then r <| rr_OriginatingOperation := mg_CreatingOperationID g |> else r
  else r.

(** The result is updated through a pointer: what was gathered before a
    failure is kept. *)
Fixpoint classifyNonActive (r : ReconciliationResult) (generations : list MultiGeneration)
    : prog E (ReconciliationResult * option error) :=
  match generations with
  | [] => pret (r, None)
  | g :: rest =>
      match non_active_role (mg_Status g) with
      | None => classifyNonActive r rest
      | Some role =>
          try* observed := observeGeneration g role catch e => pret (r, Some e) in
          let findings := observed.1 in
          run* x := classify_cleanup g (all_missing findings) (add_findings findings r) in
          match x with
          | (r, Some e) => pret (r, Some e)
          | (r, None) => classifyNonActive (classify_candidate g role (any_exact findings) r) rest
          end
      end
  end.

(** [return result, r.Store.SaveReconciliation(ctx, result)] *)
Definition save (r : ReconciliationResult) : prog E (ReconciliationResult * option error) :=
  run* saved := store (fun _ => SaveReconciliation r) in
  pret (r, match saved with Ok _ => None | Err e => Some e end).

Definition runtimeUnknown (r : ReconciliationResult) : prog E (ReconciliationResult * option error) :=
  save (r <| rr_State := ReconciliationRuntimeUnknown |> <| rr_RuntimeState := "unknown" |>
          <| rr_MismatchCodes := uniqueCodes (rr_MismatchCodes r ++ [MismatchRuntimeUnreachable]) |>
          <| rr_RecommendedAction := RepairNone |>
          <| rr_Summary := "container runtime observation failed" |>).

Definition classify_and_save (r : ReconciliationResult) (generations : list MultiGeneration)
    : prog E (ReconciliationResult * option error) :=
  run* x := classifyNonActive r generations in
  match x with
  | (r, Some _) => runtimeUnknown r
  | (r, None) => save (finish r)
  end.

Definition is_authority (g : MultiGeneration) : bool :=
  bool_decide (mg_Status g = "active" \/ mg_Status g = "verification_required").

Definition reconcile_active (r : ReconciliationResult) (active : MultiGeneration)
    (generations : list MultiGeneration) : prog E (ReconciliationResult * option error) :=
  let projection state := Some {| cp_Generation := mg_Generation active; cp_ReleaseID := mg_ReleaseID active;
                                  cp_RuntimeState := state; cp_Bindings := mg_Bindings active |} in
  let r := r <| rr_CheckedGeneration := mg_Generation active |>
             <| rr_OriginatingOperation := mg_CreatingOperationID active |>
             <| rr_Projection := projection "" |> in
  run* observed := observeGeneration active "active" in
  match observed with
  | Err _ => runtimeUnknown r
  | Ok (findings, runtimeState) =>
      classify_and_save (add_findings findings (r <| rr_RuntimeState := runtimeState |>
                                                  <| rr_Projection := projection runtimeState |>)) generations
  end.

(** From the runtime's identity on. *)
Definition reconcile_generations (r : ReconciliationResult) : prog E (ReconciliationResult * option error) :=
  let inst := rr_InstallationID r in
  try* generations := store (fun _ => ReconciliationGenerations inst) catch e => pret (r, Some e) in
  match generations with
  | [] =>
      try* removed := store (fun _ => LatestRemovedGeneration inst) catch e => pret (r, Some e) in
      save (r <| rr_CheckedGeneration := mg_Generation removed |>
              <| rr_OriginatingOperation := mg_CreatingOperationID removed |>
              <| rr_RuntimeState := "runtime_removed" |>
              <| rr_Summary := "no active runtime generation; runtime resources are removed" |>)
  | latest :: _ =>
      match List.find is_authority generations with
      | None =>
          classify_and_save (r <| rr_CheckedGeneration := mg_Generation latest |>
                               <| rr_RuntimeState := "runtime_removed" |>
                               <| rr_Summary := "no active runtime generation" |>) generations
      | Some active => reconcile_active r active generations
      end
  end.

(** [r.now()], a call that can be cut short like any other. *)
Definition clock : prog E string :=
  alive (fun w => let (now, e) := host_now (w_env w) in Done now (World (w_db w) e (w_log w))).

Definition zero_reconciliation : ReconciliationResult :=
  new_result "" "" <| rr_State := "" |> <| rr_RuntimeState := "" |> <| rr_RecommendedAction := "" |>.

Definition Reconcile (installation : string) : prog E (ReconciliationResult * option error) :=
  if decide (installation = "")
  then pret (zero_reconciliation, Some (ErrMsg "reconciliation dependencies unavailable"))
  else
    run* now := clock in
    let r := new_result installation now in
    match provider with
    | None => reconcile_generations r
    | Some observe =>
        run* identity := runtime observe CObserveIdentity in
        match identity with
        | Err _ =>
            save (r <| rr_State := ReconciliationRuntimeUnknown |>
                    <| rr_MismatchCodes := [MismatchRuntimeUnreachable] |>
                    <| rr_Summary := "container runtime unavailable" |>)
        | Ok identity =>
            reconcile_generations (r <| rr_RuntimeIdentity :=
              String.concat ":" [id_Name identity; id_ID identity; id_Version identity] |>)
        end
    end.

Fixpoint reconcile_loop (installations : list string) : prog E (option error) :=
  match installations with
  | [] => pret None
  | installation :: rest =>
      run* x := Reconcile installation in
      match x with (_, Some e) => pret (Some e) | (_, None) => reconcile_loop rest end
  end.

Definition ReconcileAll : prog E (nat * option error) :=
  try* installations := store (fun _ => let* d := tget in tret (live_installations d))
    catch e => pret (0%nat, Some e) in
  run* failed := reconcile_loop installations in
  pret (match failed with Some e => (0%nat, Some e) | None => (length installations, None) end).
End programs.
End hash.
