(* ===== verification/MultiRunner.v ===== *)
(** * Applications of several components ([lifecycle/multi_runner.go])

    Ordinary lifecycle actions on the active generation and the staged
    replacement of a generation whose components share one network.  Every
    mutation of a component is written to the step ledger before it is
    dispatched.  [component_hook] is [MultiRunner.ComponentHook], [nil] being
    the hook that never fails. *)

From S2P Require Import Prelude Protocol Exposure ExposurePolicy HelperDB Coordinator Containers LifecycleStore MultiStore ReconciliationStore Runner Reconciliation.
From stdpp Require Import base gmap strings list sorting.
From Stdlib Require Import ZArith Lia.

Open Scope Z_scope.

(** ** Helpers *)
Definition reverseComponents (components : list Component) : list Component :=
  merge_sort reverse_le components.

Definition componentByID (components : list Component) (id : string) : option Component :=
  List.find (fun c => bool_decide (cm_ID c = id)) components.

Definition containsID (ids : list string) (id : string) : bool :=
  existsb (fun value => bool_decide (value = id)) ids.

Definition phaseForAction (action : string) : string :=
  if decide (action = "stop") then PhaseAfterOldStop else PhaseAfterCandidateStart.

Definition firstError (first second : option error) : option error :=
  match first with Some e => Some e | None => second end.

(** [firstError(err, ...)] with a second error that is there. *)
Definition first_error (first : option error) (second : error) : error :=
  match first with Some e => e | None => second end.

Definition stableError (first second : option error) : string :=
  match first, second with
  | Some e, _ | None, Some e => error_text e
  | None, None => "runtime postcondition not achieved"
  end.

Definition opt_err {A} (r : res A) : option error := match r with Ok _ => None | Err e => Some e end.

Definition multiResult (plan : MultiPlan) : Result :=
  {| re_Generation := mp_Generation plan; re_ReleaseID := mp_ReleaseID plan; re_RuntimeState := "running";
     re_ContainerName := ""; re_ContainerID := ""; re_NetworkName := mp_NetworkName plan;
     re_Bindings := Normalize (mp_Bindings plan); re_CleanupDeferred := false;
     re_Components := foldl (fun m c => <[mc_ID c := mc_ContainerName c]> m) ∅ (mp_Components plan) |}.

(** [for _, component := range ... { m[component.ID] = component.ContainerID }] *)
Definition container_ids (m : gmap string string) (components : list Component) : gmap string string :=
  foldl (fun m c => <[cm_ID c := cm_ContainerID c]> m) m components.

(** [Generation{InstallationID: ..., Generation: ...}] *)
Definition bare_generation (g : MultiGeneration) : Generation :=
  {| gn_InstallationID := mg_InstallationID g; gn_CreatingOperationID := ""; gn_ApplicationID := "";
     gn_ReleaseID := ""; gn_Generation := mg_Generation g; gn_Status := ""; gn_NetworkName := "";
     gn_NetworkID := ""; gn_PlanHash := ""; gn_DataPath := ""; gn_Bindings := [];
     gn_CleanupState := ""; gn_Component := zero_component |}.

(** The loop of [validateMultiPlan]. *)
Fixpoint valid_components (ordinal : Z) (seen : list string) (components : list MultiComponentPlan) : res unit :=
  match components with
  | [] => Ok tt
  | c :: rest =>
      if decide (mc_ID c = "" \/ mc_ID c ∈ seen \/ mc_StartOrdinal c <> ordinal \/
                 mc_ContainerName c = "" \/ mc_Image c = "")
      then Err (ErrMsg "invalid normalized component plan")
      else if negb (forallb (fun dependency => bool_decide (dependency ∈ seen)) (mc_DependsOn c))
      then Err (ErrMsg "component plan is not dependency-first")
      else valid_components (ordinal + 1) (mc_ID c :: seen) rest
  end.

Definition validateMultiPlan (plan : MultiPlan) : res unit :=
  if decide (length (mp_Components plan) < 2 \/ 16 < length (mp_Components plan))%nat
  then Err (ErrMsg "invalid multi-component generation plan")
  else if decide (mp_TopologyHash plan = "" \/ mp_PlanHash plan = "")
  then Err (ErrMsg "invalid multi-component generation plan")
  else valid_components 0 [] (mp_Components plan).

Definition verifyMultiCandidate (plan : MultiPlan) (component : MultiComponentPlan)
    (network : NetworkObservation) (observed : ContainerObservation) (want : string) : res unit :=
  verifyCandidate {| p_OperationID := ""; p_InstallationID := mp_InstallationID plan; p_ApplicationID := "";
    p_ReleaseID := ""; p_Generation := mp_Generation plan; p_ExpectedGeneration := 0; p_FencingToken := 0;
    p_Image := mc_Image component; p_NetworkName := mp_NetworkName plan;
    p_ContainerName := mc_ContainerName component; p_PlanHash := ""; p_DataPath := ""; p_Bindings := [];
    p_Container := mc_Container component; p_RollbackSafe := false; p_AllowMissingActive := false |}
    network observed want.

(** The plan that addresses a stored generation. *)
Definition operation_plan (g : MultiGeneration) (installation operationID : string) (token : Z)
    (components : list MultiComponentPlan) : MultiPlan :=
  {| mp_OperationID := operationID; mp_InstallationID := installation;
     mp_ApplicationID := mg_ApplicationID g; mp_ReleaseID := mg_ReleaseID g;
     mp_Generation := mg_Generation g; mp_ExpectedGeneration := mg_Generation g;
     mp_FencingToken := token; mp_NetworkName := mg_NetworkName g; mp_PlanHash := mg_PlanHash g;
     mp_TopologyHash := mg_TopologyHash g; mp_DataPath := mg_DataPath g; mp_Bindings := mg_Bindings g;
     mp_Components := components; mp_RollbackSafe := false; mp_AllowMissingActive := false |}.

(** [containers.ContainerPlan{}] *)
Definition zero_container : ContainerPlan :=
  {| pl_Image := ""; pl_Name := ""; pl_Network := ""; pl_User := ""; pl_ImageDefaultUser := "";
     pl_ImageDefaultVolumes := []; pl_Labels := None; pl_Command := None; pl_Environment := [];
     pl_DataPath := ""; pl_ReadOnly := false; pl_Storage := []; pl_PortBindings := None;
     pl_RestartPolicy := ""; pl_NetworkAliases := []; pl_Dependencies := []; pl_Devices := None;
     pl_DeviceRequests := None |}.

Definition stored_plans (components : list Component) : list MultiComponentPlan :=
  map (fun c => {| mc_ID := cm_ID c; mc_Image := cm_Image c; mc_ContainerName := cm_ContainerName c;
                   mc_DependsOn := cm_DependsOn c; mc_StartOrdinal := cm_StartOrdinal c;
                   mc_Container := zero_container |}) components.

(** The state recorded for a component that reached [want]. *)
Definition recorded_state (want : string) : comp_state_t :=
  if decide (want = RuntimeMissing) then CompRemoved
  else if decide (want = RuntimeRunning) then CompRunning else CompStopped.

Definition action_state (action : string) : string :=
  if decide (action = "start" \/ action = "restart") then "running"
  else if decide (action = "stop") then "stopped"
  else if decide (action = "remove") then "runtime_removed" else "".

Section runner.
Context {E : Type} `{HostE : Host E} `{Ev : Evidence} (sha : string -> string).
Context (component_hook : string -> string -> string -> E -> option error * E).

Definition runHook (action component point : string) : prog E (option error) :=
  alive (fun w => let (r, e) := component_hook action component point (w_env w) in
    Done r (World (w_db w) e (w_log w))).

Definition multi_checkpoint (plan : MultiPlan) (phase outcome : string) (facts : list (string * string))
    : prog E (res unit) :=
  store (record_phase (mp_OperationID plan) (mp_FencingToken plan) phase outcome facts).

Definition stepIntent (plan : MultiPlan) (component action expected : string) : prog E (res unit) :=
  store (BeginComponentStep plan component action expected 1).

Definition finish_step (plan : MultiPlan) (component action observedID : string) (outcome : outcome_t)
    (detail : string) : prog E (res unit) :=
  store (FinishComponentStep plan component action 1 observedID outcome detail).

(** ** Verification of a stored generation *)
Definition component_matches (g : MultiGeneration) (network : NetworkObservation) (want : string)
    (c : Component) (observed : ContainerObservation) : res unit :=
  if negb (ob_Exists observed && bool_decide (ob_ID observed = cm_ContainerID c) &&
           bool_decide (ob_Name observed = cm_ContainerName c) &&
           bool_decide (ob_ImageReference observed = cm_Image c) && bool_decide (ob_State observed = want))
  then Err (ErrMsg ("component " +:+ cm_ID c +:+ " identity or state mismatch"))
  else if negb (owner_matches observed (mg_InstallationID g) (mg_Generation g))
  then Err (ErrMsg ("component " +:+ cm_ID c +:+ " ownership mismatch"))
  else if negb (match ob_Networks observed !! mg_NetworkName g with
                | Some a => bool_decide (na_NetworkID a = nw_ID network) | None => false end)
  then Err (ErrMsg ("component " +:+ cm_ID c +:+ " network mismatch"))
  else if decide (cm_ConfigurationHash c <> "" /\ observationHash sha observed <> cm_ConfigurationHash c)
  then Err (ErrMsg ("component " +:+ cm_ID c +:+ " configuration mismatch"))
  else Ok tt.

Fixpoint verify_components (g : MultiGeneration) (network : NetworkObservation) (want : string)
    (components : list Component) : prog E (res unit) :=
  match components with
  | [] => pret (Ok tt)
  | c :: rest =>
      try* observed := observe_container (cm_ContainerID c)
        catch _e => pret (Err (ErrMsg ("component " +:+ cm_ID c +:+ " identity or state mismatch"))) in
      match component_matches g network want c observed with
      | Err e => pret (Err e)
      | Ok _ => verify_components g network want rest
      end
  end.

Definition verifyGeneration (g : MultiGeneration) (want : string) : prog E (res unit) :=
  let mismatch := pret (Err (ErrMsg "generation network identity mismatch")) in
  try* network := observe_network (mg_NetworkName g) catch _e => mismatch in
  if negb (nw_Exists network) ||
     (bool_decide (mg_NetworkID g <> "") && bool_decide (nw_ID network <> mg_NetworkID g))
  then mismatch
  else verify_components g network want (mg_Components g).

(** The checks [observeRepairableGeneration] makes of a container that exists. *)
Definition repairable_matches (g : MultiGeneration) (network : NetworkObservation) (c : Component)
    (observed : ContainerObservation) : res unit :=
  let detached := detachedStoppedConfigurationMatches sha observed (cm_ConfigurationHash c)
                    (mg_NetworkName g) (nw_ID network) in
  if negb (bool_decide (ob_ID observed = cm_ContainerID c) &&
           bool_decide (ob_Name observed = cm_ContainerName c) &&
           bool_decide (ob_ImageReference observed = cm_Image c) &&
           owner_matches observed (mg_InstallationID g) (mg_Generation g))
  then Err (ErrMsg ("component " +:+ cm_ID c +:+ " identity changed"))
  else if decide (cm_ImageID c <> "" /\ ob_ImageID observed <> cm_ImageID c)
  then Err (ErrMsg ("component " +:+ cm_ID c +:+ " image identity changed"))
  else if bool_decide (cm_ConfigurationHash c <> "" /\ observationHash sha observed <> cm_ConfigurationHash c)
          && negb detached
  then Err (ErrMsg ("component " +:+ cm_ID c +:+ " configuration changed"))
  else if decide (ob_State observed <> RuntimeRunning /\ ob_State observed <> RuntimeStopped)
  then Err (ErrMsg ("component " +:+ cm_ID c +:+ " state is not repairable"))
  else if negb (nw_Exists network)
  then Err (ErrMsg "active network is missing while a component still exists")
  else if negb (match ob_Networks observed !! mg_NetworkName g with
                | Some a => bool_decide (na_NetworkID a = nw_ID network) | None => false end)
          && negb detached
  then Err (ErrMsg ("component " +:+ cm_ID c +:+ " network changed"))
  else Ok tt.

Fixpoint observe_repairable (g : MultiGeneration) (network : NetworkObservation) (components : list Component)
    (observations : gmap string ContainerObservation) : prog E (res (gmap string ContainerObservation)) :=
  match components with
  | [] => pret (Ok observations)
  | c :: rest =>
      try* observed := observe_container (cm_ContainerID c) catch e => pret (Err e) in
      let continue := observe_repairable g network rest (<[cm_ID c := observed]> observations) in
      if negb (ob_Exists observed) then
        try* byName := observe_container (cm_ContainerName c) catch e => pret (Err e) in
        if ob_Exists byName
        then pret (Err (ErrMsg ("component " +:+ cm_ID c +:+ " expected name is occupied")))
        else continue
      else match repairable_matches g network c observed with
           | Err e => pret (Err e)
           | Ok _ => continue
           end
  end.

Definition observeRepairableGeneration (g : MultiGeneration)
    : prog E (res (gmap string ContainerObservation)) :=
  try* network := observe_network (mg_NetworkName g) catch e => pret (Err e) in
  if nw_Exists network && bool_decide (mg_NetworkID g <> "") && bool_decide (nw_ID network <> mg_NetworkID g)
  then pret (Err (ErrMsg "active network identity changed"))
  else observe_repairable g network (mg_Components g) ∅.

(** [observations[component.ID] = observed] for every component. *)
Fixpoint observe_all (components : list Component) (observations : gmap string ContainerObservation)
    : prog E (res (gmap string ContainerObservation)) :=
  match components with
  | [] => pret (Ok observations)
  | c :: rest =>
      try* observed := observe_container (cm_ContainerID c) catch e => pret (Err e) in
      observe_all rest (<[cm_ID c := observed]> observations)
  end.

(** ** One mutation of one component *)
Definition mutation_call (action id : string) : option (prog E (res unit)) :=
  if decide (action = "start") then Some (start_container id)
  else if decide (action = "stop") then Some (stop_container id)
  else if decide (action = "remove") then Some (remove_container id)
  else None.

(** The hooks around a call that returned [err]. *)
Definition dispatched_hooks (action component : string) (err : option error) : prog E (option error) :=
  run* h := runHook action component "after_dispatch" in
  match firstError err h with
  | None => runHook action component "after_mutation_success"
  | Some e => pret (Some e)
  end.

Definition mutation_hooks (action component : string) (err : option error) : prog E (option error) :=
  run* err := dispatched_hooks action component err in
  run* h := runHook action component "after_mutation_transport_error" in
  pret (firstError err h).

(** Before a mutation the container is the recorded one. *)
Definition owned_before (plan : MultiPlan) (c : Component) (before : ContainerObservation) : bool :=
  ob_Exists before && bool_decide (ob_ID before = cm_ContainerID c) &&
  bool_decide (ob_Name before = cm_ContainerName c) &&
  bool_decide (ob_ImageReference before = cm_Image c) &&
  owner_matches before (mp_InstallationID plan) (mp_Generation plan) &&
  bool_decide (cm_ConfigurationHash c = "" \/ observationHash sha before = cm_ConfigurationHash c).

(** The postcondition of a dispatched mutation is observed, not assumed. *)
Definition confirm_mutation (plan : MultiPlan) (c : Component) (action want : string)
    (mutationErr : option error) : prog E (res unit) :=
  run* observed := observe_container (cm_ContainerID c) in
  match observed with
  | Err observeErr =>
      run* _ := finish_step plan (cm_ID c) action "" OutcomeUnknown
                  (stableError mutationErr (Some observeErr)) in
      pret (Err (ErrUnknownOutcome (phaseForAction action) (first_error mutationErr observeErr)))
  | Ok observed =>
      let applied := if decide (action = "remove")
        then negb (ob_Exists observed) || bool_decide (ob_State observed = RuntimeMissing)
        else bool_decide (ob_State observed = want) in
      if negb applied then
        let detail := stableError mutationErr (Some (ErrMsg "observed postcondition not achieved")) in
        run* _ := finish_step plan (cm_ID c) action (ob_ID observed) ConfirmedAbsent detail in
        pret (Err (ErrMsg detail))
      else match mutationErr with
           | Some e =>
               run* _ := finish_step plan (cm_ID c) action (ob_ID observed) ConfirmedApplied (error_text e) in
               pret (Ok tt)
           | None => finish_step plan (cm_ID c) action (ob_ID observed) ConfirmedApplied ""
           end
  end.

Definition mutateExisting (plan : MultiPlan) (c : Component) (action want : string) : prog E (res unit) :=
  let ambiguous := pret (Err (ErrMsg "component ownership is ambiguous before mutation")) in
  try* before := observe_container (cm_ContainerID c) catch _e => ambiguous in
  if negb (owned_before plan c before) then ambiguous
  else
    try* _ := stepIntent plan (cm_ID c) action (cm_ContainerID c) catch e => pret (Err e) in
    run* h := runHook action (cm_ID c) "before_dispatch" in
    match h with
    | Some e => pret (Err e)
    | None =>
        try* _ := store (DispatchComponentStep plan (cm_ID c) action 1) catch e => pret (Err e) in
        match mutation_call action (cm_ContainerID c) with
        | None => pret (Err (ErrMsg "unsupported component mutation"))
        | Some call =>
            run* r := call in
            run* mutationErr := mutation_hooks action (cm_ID c) (opt_err r) in
            confirm_mutation plan c action want mutationErr
        end
    end.

(** ** Ordinary actions on the active generation *)

(** [apply]: one mutation of each component in turn; [mutated] when an
    earlier one was applied. *)
Fixpoint apply_mutations (plan : MultiPlan) (components : list Component) (mutation want : string)
    (mutated : bool) : prog E (res unit) :=
  match components with
  | [] => pret (Ok tt)
  | c :: rest =>
      try* _ := mutateExisting plan c mutation want
        catch e => pret (Err (if mutated then ErrUnknownOutcome (phaseForAction mutation) e else e)) in
      try* _ := store (RecordMultiContainer plan (cm_ID c) (cm_ContainerID c) "" "" (recorded_state want)
                         (bool_decide (want = RuntimeRunning)))
        catch e => pret (Err (ErrUnknownOutcome (phaseForAction mutation) e)) in
      apply_mutations plan rest mutation want true
  end.

Definition remove_active_network (g : MultiGeneration) : prog E (res unit) :=
  let ambiguous := pret (Err (ErrUnknownOutcome PhaseCleanup (ErrMsg "active network identity is ambiguous"))) in
  try* observed := observe_network (mg_NetworkName g) catch _e => ambiguous in
  if nw_Exists observed && bool_decide (nw_ID observed <> mg_NetworkID g) then ambiguous
  else if negb (nw_Exists observed) then pret (Ok tt)
  else
    run* removeErr := remove_network (mg_NetworkName g) in
    run* removed := observe_network (mg_NetworkName g) in
    let unknown verifyErr := pret (Err (ErrUnknownOutcome PhaseCleanup
      (first_error (firstError (opt_err removeErr) verifyErr)
         (ErrMsg "active network removal did not reach the requested state")))) in
    match removed with
    | Err e => unknown (Some e)
    | Ok removed => if nw_Exists removed then unknown None else pret (Ok tt)
    end.

Definition remove_active (plan : MultiPlan) (g : MultiGeneration) : prog E (res unit) :=
  let components := reverseComponents (mg_Components g) in
  try* _ := apply_mutations plan components "stop" RuntimeStopped false catch e => pret (Err e) in
  try* _ := apply_mutations plan components "remove" RuntimeMissing false catch e => pret (Err e) in
  try* _ := remove_active_network g catch e => pret (Err e) in
  store (fun _ => MarkActiveRemoved (mp_InstallationID plan) (mg_Generation g) (mp_OperationID plan)
                    (mp_FencingToken plan)).

(** The [switch] on the action. *)
Definition dispatch_action (plan : MultiPlan) (g : MultiGeneration) (action : string) : prog E (res unit) :=
  let components := mg_Components g in
  if decide (action = "start") then apply_mutations plan components "start" RuntimeRunning false
  else if decide (action = "stop") then
    apply_mutations plan (reverseComponents components) "stop" RuntimeStopped false
  else if decide (action = "restart") then
    try* _ := apply_mutations plan (reverseComponents components) "stop" RuntimeStopped false
      catch e => pret (Err e) in
    apply_mutations plan components "start" RuntimeRunning false
  else if decide (action = "remove") then remove_active plan g
  else pret (Err (ErrMsg "unsupported multi-component lifecycle action")).

(** A migrated generation is promoted once all of it is running or stopped. *)
Definition promote_legacy (installation operationID : string) (token : Z) (g : MultiGeneration)
    : prog E (res MultiGeneration) :=
  run* running := verifyGeneration g RuntimeRunning in
  try* runtimeState :=
    (if is_ok running then pret (Ok CompRunning)
     else try* _ := verifyGeneration g RuntimeStopped
            catch _e => pret (Err (ErrMsg "legacy multi-component runtime is partial or ambiguous")) in
          pret (Ok CompStopped)) catch e => pret (Err e) in
  let ambiguous := pret (Err (ErrMsg "legacy multi-component network is ambiguous")) in
  try* network := observe_network (mg_NetworkName g) catch _e => ambiguous in
  if negb (nw_Exists network) then ambiguous
  else
    try* observations := observe_all (mg_Components g) ∅ catch e => pret (Err e) in
    try* _ := store (PromoteMigratedMulti sha g (nw_ID network) observations runtimeState operationID token)
      catch e => pret (Err e) in
    store (fun _ => MultiCurrent installation).

Definition operate_active (installation operationID : string) (token : Z) (action : string)
    (g : MultiGeneration) : prog E (Result * option error) :=
  if decide (mg_Status g <> "active" \/ (length (mg_Components g) < 2)%nat)
  then fail (ErrMsg "active multi-component generation unavailable")
  else
    let plan := operation_plan g installation operationID token (stored_plans (mg_Components g)) in
    try* _ := multi_checkpoint plan PhaseBeforeVerification "intent" [("lifecycle_action", action)]
      catch e => fail e in
    let ambiguous := fail (ErrUnknownOutcome PhaseBeforeVerification (ErrMsg "active network identity is ambiguous")) in
    try* network := observe_network (mg_NetworkName g) catch _e => ambiguous in
    if negb (nw_Exists network) || bool_decide (nw_ID network <> mg_NetworkID g) then ambiguous
    else
      try* _ := dispatch_action plan g action catch e => fail e in
      pret ({| re_Generation := mg_Generation g; re_ReleaseID := mg_ReleaseID g;
               re_RuntimeState := action_state action; re_ContainerName := ""; re_ContainerID := "";
               re_NetworkName := mg_NetworkName g; re_Bindings := mg_Bindings g; re_CleanupDeferred := false;
               re_Components := container_ids ∅ (mg_Components g) |}, None).

Definition MultiOperate (installation operationID : string) (token : Z) (action : string)
    : prog E (Result * option error) :=
  try* _ := store (record_phase operationID token "multi_lifecycle_validation" "intent"
                     [("lifecycle_action", action)]) catch e => fail e in
  try* g := store (fun _ => MultiCurrent installation) catch e => fail e in
  try* g := (if decide (mg_Status g = "verification_required")
             then promote_legacy installation operationID token g else pret (Ok g)) catch e => fail e in
  operate_active installation operationID token action g.

(** ** Replacement: cleaning up *)
Definition cleanup_candidate_component (plan : MultiPlan) (c : Component) : prog E (res unit) :=
  if decide (cm_ContainerID c = "") then pret (Ok tt)
  else
    let changed := pret (Err (ErrMsg "candidate ownership changed during cleanup")) in
    try* observed := observe_container (cm_ContainerID c) catch _e => changed in
    if negb (ob_Exists observed) then pret (Ok tt)
    else if decide (ob_ID observed <> cm_ContainerID c) then changed
    else
      try* _ := (if decide (ob_State observed = RuntimeRunning)
                 then mutateExisting plan c "stop" RuntimeStopped else pret (Ok tt)) catch e => pret (Err e) in
      mutateExisting plan c "remove" RuntimeMissing.

Fixpoint cleanup_candidate_components (plan : MultiPlan) (components : list Component) : prog E (res unit) :=
  match components with
  | [] => pret (Ok tt)
  | c :: rest =>
      try* _ := cleanup_candidate_component plan c catch e => pret (Err e) in
      cleanup_candidate_components plan rest
  end.

Definition multi_cleanup_network (g : MultiGeneration) : prog E (res unit) :=
  let name := mg_NetworkName g in
  if decide (name = "") then pret (Ok tt)
  else
    let changed := pret (Err (ErrMsg "candidate network ownership changed during cleanup")) in
    try* network := observe_network name catch _e => changed in
    if nw_Exists network && bool_decide (mg_NetworkID g <> "") && bool_decide (nw_ID network <> mg_NetworkID g)
    then changed
    else if negb (nw_Exists network) then pret (Ok tt)
    else
      try* _ := remove_network name catch e => pret (Err e) in
      let unverified := pret (Err (ErrMsg "candidate network removal could not be verified")) in
      try* removed := observe_network name catch _e => unverified in
      if nw_Exists removed then unverified else pret (Ok tt).

Definition multi_cleanupCandidate (plan : MultiPlan) : prog E (res unit) :=
  try* g := store (fun _ => MultiByOperation (mp_OperationID plan)) catch e => pret (Err e) in
  try* _ := cleanup_candidate_components plan (reverseComponents (mg_Components g)) catch e => pret (Err e) in
  multi_cleanup_network g.

(** The candidate is cleaned up and marked failed; the error is the cause
    unless either of them failed. *)
Definition multi_failBeforeCutover (plan : MultiPlan) (cause : error) : prog E error :=
  run* cleanup := multi_cleanupCandidate plan in
  run* mark := store (fun _ => MarkMultiFailed plan (if is_ok cleanup then CleanupClean else CleanupPending)) in
  pret (if is_ok cleanup && is_ok mark then cause
        else ErrUnknownOutcome PhaseCleanup (ErrJoin (cause :: errs cleanup ++ errs mark))).

(** Every candidate component known to be started is stopped again; failures
    are ignored. *)
Fixpoint stop_started (plan : MultiPlan) (started : list string) (components : list Component) : prog E unit :=
  match components with
  | [] => pret tt
  | c :: rest =>
      if containsID started (cm_ID c)
      then run* _ := mutateExisting plan c "stop" RuntimeStopped in stop_started plan started rest
      else stop_started plan started rest
  end.

(** The old components that were stopped are started again, in order. *)
Fixpoint restart_old (oldPlan : MultiPlan) (stoppedOld : list string) (components : list Component)
    : prog E (res unit) :=
  match components with
  | [] => pret (Ok tt)
  | c :: rest =>
      if containsID stoppedOld (cm_ID c) then
        try* _ := mutateExisting oldPlan c "start" RuntimeRunning catch e => pret (Err e) in
        try* _ := store (RecordMultiContainer oldPlan (cm_ID c) (cm_ContainerID c) "" "" CompRunning true)
          catch e => pret (Err e) in
        restart_old oldPlan stoppedOld rest
      else restart_old oldPlan stoppedOld rest
  end.

Definition old_plan (plan : MultiPlan) (active : MultiGeneration) : MultiPlan :=
  plan <| mp_Generation := mg_Generation active |>.

Definition multi_afterCutoverFailure (plan : MultiPlan) (active : MultiGeneration)
    (stoppedOld started : list string) (phase : string) (cause : error) : prog E error :=
  let unknown :=
    run* _ := store (fun _ => MarkMultiFailed plan CleanupPending) in
    pret (ErrUnknownOutcome phase cause) in
  run* loaded := store (fun _ => LoadMultiGeneration (mp_InstallationID plan) (mp_Generation plan)) in
  let stored := match loaded with Ok g => g | Err _ => zero_multi end in
  run* _ := stop_started plan started (reverseComponents (mg_Components stored)) in
  if decide (mg_Status active = "active" /\ mp_RollbackSafe plan = true) then
    try* _ := restart_old (old_plan plan active) stoppedOld (mg_Components active) catch _e => unknown in
    multi_failBeforeCutover plan cause
  else unknown.

(** *** Older generations, after a commit *)
Fixpoint remove_older_components (components : list Component) : prog E bool :=
  match components with
  | [] => pret true
  | c :: rest =>
      try* observed := observe_container (cm_ContainerID c) catch _e => pret false in
      if negb (ob_Exists observed) then remove_older_components rest
      else if decide (ob_ID observed <> cm_ContainerID c \/ ob_Name observed <> cm_ContainerName c)
      then pret false
      else if decide (ob_State observed = RuntimeRunning) then pret false
      else
        try* _ := remove_container (ob_ID observed) catch _e => pret false in
        remove_older_components rest
  end.

Definition remove_older_network (g : MultiGeneration) : prog E bool :=
  try* network := observe_network (mg_NetworkName g) catch _e => pret false in
  if nw_Exists network && bool_decide (nw_ID network <> mg_NetworkID g) then pret false
  else if nw_Exists network then
    run* removed := remove_network (mg_NetworkName g) in pret (is_ok removed)
  else pret true.

Definition multi_defer (g : MultiGeneration) : prog E bool :=
  run* _ := store (fun _ => MarkCleanupPending (bare_generation g)) in pret true.

(** One older generation; [true] when its cleanup is deferred. *)
Definition multi_cleanup_one (plan : MultiPlan) (g : MultiGeneration) : prog E bool :=
  run* h := runHook "cleanup" "application" "before_dispatch" in
  match h with
  | Some _ => multi_defer g
  | None =>
      run* verified :=
        (if mp_AllowMissingActive plan && bool_decide (mg_Generation g = mp_ExpectedGeneration plan)
         then run* r := observeRepairableGeneration g in pret (is_ok r)
         else run* r := verifyGeneration g RuntimeStopped in pret (is_ok r)) in
      if negb verified then multi_defer g
      else
        run* components := remove_older_components (reverseComponents (mg_Components g)) in
        run* removed := (if components then remove_older_network g else pret false) in
        if negb removed then multi_defer g
        else run* mark := MarkRemoved (bare_generation g) in pret (negb (is_ok mark))
  end.

Fixpoint multi_cleanup_loop (plan : MultiPlan) (older : list MultiGeneration) (deferred : bool) : prog E bool :=
  match older with
  | [] => pret deferred
  | g :: rest => run* x := multi_cleanup_one plan g in multi_cleanup_loop plan rest (deferred || x)
  end.

Definition multi_cleanupOlder (plan : MultiPlan) (keepGeneration : Z) : prog E bool :=
  try* older := store (fun _ => MultiOlderRetained (mp_InstallationID plan) keepGeneration)
    catch _e => pret true in
  multi_cleanup_loop plan older false.

(** ** Replacement, from its end to its beginning *)
Definition multi_commit (plan : MultiPlan) : prog E (Result * option error) :=
  let unknown phase e := fail (ErrUnknownOutcome phase e) in
  try* _ := multi_checkpoint plan PhaseBeforeCommit "intent"
              [("components", sprint (Z.of_nat (length (mp_Components plan))))]
    catch e => unknown PhaseBeforeCommit e in
  run* h := runHook "commit" "application" "before_dispatch" in
  match h with
  | Some e => unknown PhaseBeforeCommit e
  | None =>
      try* _ := store (CommitMulti plan) catch e => unknown PhaseBeforeCommit e in
      let result := multiResult plan in
      try* committed := store (fun _ => LoadMultiGeneration (mp_InstallationID plan) (mp_Generation plan))
        catch e => pret (result, Some (ErrUnknownOutcome PhaseAfterCommit e)) in
      let result := result <| re_Components := container_ids (re_Components result) (mg_Components committed) |> in
      try* _ := multi_checkpoint plan PhaseAfterCommit "confirmed" []
        catch e => pret (result, Some (ErrUnknownOutcome PhaseAfterCommit e)) in
      let keepGeneration := if mp_AllowMissingActive plan then 0 else mp_ExpectedGeneration plan in
      run* deferred := multi_cleanupOlder plan keepGeneration in
      pret (result <| re_CleanupDeferred := deferred |>, None)
  end.

(** One candidate component is started and verified running; the error, if
    any, is the one [Replace] returns. *)
Definition start_candidate (plan : MultiPlan) (active : MultiGeneration) (hashes : gmap string string)
    (stoppedOld started : list string) (component : MultiComponentPlan) : prog E (res unit) :=
  let after phase e :=
    run* e := multi_afterCutoverFailure plan active stoppedOld started phase e in pret (Err e) in
  let unknown phase e := pret (Err (ErrUnknownOutcome phase e)) in
  try* stored := store (fun _ => LoadMultiGeneration (mp_InstallationID plan) (mp_Generation plan))
    catch e => unknown PhaseBeforeCandidateStart e in
  match componentByID (mg_Components stored) (mc_ID component) with
  | None => unknown PhaseBeforeCandidateStart (ErrMsg "candidate component evidence missing")
  | Some candidate =>
      try* _ := mutateExisting plan candidate "start" RuntimeRunning
        catch e => after PhaseBeforeCandidateStart e in
      try* observed := observe_container (cm_ContainerID candidate) catch e => after PhaseBeforeVerification e in
      run* h := runHook "verify" (mc_ID component) "failure" in
      match h with
      | Some e => after PhaseBeforeVerification e
      | None =>
          try* network := observe_network (mp_NetworkName plan) catch e => after PhaseBeforeVerification e in
          let hash := default "" (hashes !! mc_ID component) in
          if is_ok (verifyMultiCandidate plan component network observed RuntimeRunning) &&
             bool_decide (observationHash sha observed = hash)
          then
            try* _ := store (RecordMultiContainer plan (mc_ID component) (ob_ID observed) (ob_ImageID observed)
                               hash CompRunning true) catch e => unknown PhaseAfterVerification e in
            pret (Ok tt)
          else after PhaseBeforeVerification (ErrMsg "candidate runtime verification failed")
      end
  end.

Fixpoint start_candidates (plan : MultiPlan) (active : MultiGeneration) (hashes : gmap string string)
    (stoppedOld started : list string) (components : list MultiComponentPlan) : prog E (res unit) :=
  match components with
  | [] => pret (Ok tt)
  | c :: rest =>
      try* _ := start_candidate plan active hashes stoppedOld started c catch e => pret (Err e) in
      start_candidates plan active hashes stoppedOld (started ++ [mc_ID c]) rest
  end.

(** The old components that are not stopped are stopped, last one first. *)
Fixpoint stop_old (plan : MultiPlan) (active : MultiGeneration) (observations : gmap string ContainerObservation)
    (stoppedOld : list string) (components : list Component) : prog E (res (list string)) :=
  match components with
  | [] => pret (Ok stoppedOld)
  | c :: rest =>
      let observed := default zero_observation (observations !! cm_ID c) in
      let after stopped phase e :=
        run* e := multi_afterCutoverFailure plan active stopped [] phase e in pret (Err e) in
      if negb (ob_Exists observed) || bool_decide (ob_State observed = RuntimeStopped)
      then stop_old plan active observations stoppedOld rest
      else
        try* _ := mutateExisting (old_plan plan active) c "stop" RuntimeStopped
          catch e => after stoppedOld PhaseBeforeOldStop e in
        try* _ := store (RecordMultiContainer (old_plan plan active) (cm_ID c) (cm_ContainerID c) "" ""
                           CompStopped false)
          catch e => after (stoppedOld ++ [cm_ID c]) PhaseAfterOldStop e in
        stop_old plan active observations (stoppedOld ++ [cm_ID c]) rest
  end.

Definition multi_cutover (plan : MultiPlan) (active : MultiGeneration) (hashes : gmap string string)
    (observations : gmap string ContainerObservation) : prog E (Result * option error) :=
  try* stoppedOld :=
    (if decide (mg_Status active = "active")
     then stop_old plan active observations [] (reverseComponents (mg_Components active))
     else pret (Ok [])) catch e => fail e in
  try* _ := start_candidates plan active hashes stoppedOld [] (mp_Components plan) catch e => fail e in
  multi_commit plan.

Fixpoint verify_prepared (plan : MultiPlan) (network : NetworkObservation) (stored : MultiGeneration)
    (hashes : gmap string string) (components : list MultiComponentPlan) : prog E (res unit) :=
  match components with
  | [] => pret (Ok tt)
  | planned :: rest =>
      match componentByID (mg_Components stored) (mc_ID planned) with
      | None => pret (Err (ErrMsg "prepared component evidence missing"))
      | Some c =>
          try* observed := observe_container (cm_ContainerID c) catch e => pret (Err e) in
          if is_ok (verifyMultiCandidate plan planned network observed RuntimeStopped) &&
             bool_decide (observationHash sha observed = default "" (hashes !! mc_ID planned))
          then verify_prepared plan network stored hashes rest
          else pret (Err (ErrMsg ("prepared component " +:+ mc_ID planned +:+ " drifted")))
      end
  end.

Definition verifyPrepared (plan : MultiPlan) (hashes : gmap string string) : prog E (res unit) :=
  try* network := observe_network (mp_NetworkName plan) catch e => pret (Err e) in
  try* stored := store (fun _ => LoadMultiGeneration (mp_InstallationID plan) (mp_Generation plan))
    catch e => pret (Err e) in
  verify_prepared plan network stored hashes (mp_Components plan).

(** Fresh observations of the active generation, then of the candidate. *)
Definition multi_precutover (plan : MultiPlan) (active : MultiGeneration) (hashes : gmap string string)
    : prog E (Result * option error) :=
  let before e := fail_with (multi_failBeforeCutover plan e) in
  try* observations :=
    (if decide (mg_Status active = "active") then
       if mp_AllowMissingActive plan then observeRepairableGeneration active
       else try* _ := verifyGeneration active RuntimeRunning catch e => pret (Err e) in
            observe_all (mg_Components active) ∅
     else pret (Ok ∅)) catch e => before e in
  try* _ := verifyPrepared plan hashes catch e => before e in
  multi_cutover plan active hashes observations.

(** *** The stopped candidate containers *)

(** What the runtime shows after a creation that reported [createErr]. *)
Definition created_id (plan : MultiPlan) (component : MultiComponentPlan) (created : res string)
    (createErr : option error) : prog E (res string) :=
  let id := mc_ID component in
  match createErr, created with
  | None, Ok containerID => pret (Ok containerID)
  | None, Err e | Some e, _ =>
      run* observed := observe_container (mc_ContainerName component) in
      match observed with
      | Err _ =>
          run* _ := finish_step plan id "create" "" OutcomeUnknown (error_text e) in
          pret (Err (ErrUnknownOutcome PhaseBeforeContainer e))
      | Ok observed =>
          if ob_Exists observed then pret (Ok (ob_ID observed))
          else
            run* _ := finish_step plan id "create" "" ConfirmedAbsent (error_text e) in
            run* e := multi_failBeforeCutover plan e in pret (Err e)
      end
  end.

(** The identity is recorded before it is verified; the configuration hash is
    the result. *)
Definition record_created (plan : MultiPlan) (network : NetworkObservation) (component : MultiComponentPlan)
    (containerID : string) : prog E (res string) :=
  let id := mc_ID component in
  let unknown e := pret (Err (ErrUnknownOutcome PhaseAfterContainer e)) in
  try* _ := store (RecordMultiContainer plan id containerID "" "" CompCreated false) catch e => unknown e in
  try* observed := observe_container containerID catch e => unknown e in
  match verifyMultiCandidate plan component network observed RuntimeStopped with
  | Err e =>
      run* _ := finish_step plan id "create" (ob_ID observed) OutcomeUnknown (error_text e) in
      run* e := multi_failBeforeCutover plan e in pret (Err e)
  | Ok _ =>
      let hash := observationHash sha observed in
      try* _ := store (RecordMultiContainer plan id (ob_ID observed) (ob_ImageID observed) hash CompStopped true)
        catch e => unknown e in
      try* _ := finish_step plan id "create" (ob_ID observed) ConfirmedApplied "" catch e => unknown e in
      pret (Ok hash)
  end.

Definition create_candidate (plan : MultiPlan) (network : NetworkObservation) (component : MultiComponentPlan)
    : prog E (res string) :=
  let id := mc_ID component in
  let before e := run* e := multi_failBeforeCutover plan e in pret (Err e) in
  try* _ := stepIntent plan id "create" (mc_ContainerName component) catch e => before e in
  run* h := runHook "create" id "before_dispatch" in
  match h with
  | Some e => before e
  | None =>
      try* _ := store (DispatchComponentStep plan id "create" 1) catch e => before e in
      run* created := create_container (mc_Container component) in
      run* createErr := mutation_hooks "create" id (opt_err created) in
      try* containerID := created_id plan component created createErr catch e => pret (Err e) in
      record_created plan network component containerID
  end.

Fixpoint create_candidates (plan : MultiPlan) (network : NetworkObservation) (hashes : gmap string string)
    (components : list MultiComponentPlan) : prog E (res (gmap string string)) :=
  match components with
  | [] => pret (Ok hashes)
  | c :: rest =>
      try* hash := create_candidate plan network c catch e => pret (Err e) in
      create_candidates plan network (<[mc_ID c := hash]> hashes) rest
  end.

(** The network, labelled as the first component is. *)
Definition network_labels (plan : MultiPlan) : gomap string :=
  Some (match mp_Components plan with
        | c :: _ => delete "com.kitpro.component" (entries (pl_Labels (mc_Container c)))
        | [] => ∅
        end).

Definition multi_network (plan : MultiPlan) (active : MultiGeneration) : prog E (Result * option error) :=
  let before e := fail_with (multi_failBeforeCutover plan e) in
  let unknown phase e := fail (ErrUnknownOutcome phase e) in
  try* _ := multi_checkpoint plan PhaseBeforeNetwork "intent" [] catch e => before e in
  run* h := runHook "network" "application" "before_dispatch" in
  match h with
  | Some e => before e
  | None =>
      run* created := create_network (mp_NetworkName plan) (network_labels plan) in
      run* err := (if is_ok created then runHook "network" "application" "after_mutation_success"
                   else pret (opt_err created)) in
      match err, created with
      | None, Ok network =>
          try* _ := store (fun _ => RecordMultiNetwork plan (nw_ID network))
            catch e => unknown PhaseAfterNetwork e in
          try* hashes := create_candidates plan network ∅ (mp_Components plan) catch e => fail e in
          multi_precutover plan active hashes
      | None, Err e | Some e, _ =>
          run* observed := observe_network (mp_NetworkName plan) in
          match observed with
          | Ok n => if nw_Exists n then unknown PhaseBeforeNetwork e else before e
          | Err _ => unknown PhaseBeforeNetwork e
          end
      end
  end.

(** *** The images

    [images] holds the configured user and volumes of the images pulled so
    far; an image shared by several components is pulled once. *)
Definition pull_component (plan : MultiPlan) (component : MultiComponentPlan) : prog E (res ImageObservation) :=
  let id := mc_ID component in
  let before e := run* e := multi_failBeforeCutover plan e in pret (Err e) in
  try* _ := stepIntent plan id "pull" (mc_Image component) catch e => before e in
  run* h := runHook "pull" id "before_dispatch" in
  match h with
  | Some e => before e
  | None =>
      try* _ := store (DispatchComponentStep plan id "pull" 1) catch e => before e in
      run* pulled := pull_image (mc_Image component) in
      run* err := dispatched_hooks "pull" id (opt_err pulled) in
      run* image := observe_image (mc_Image component) in
      match image with
      | Err observeErr =>
          run* _ := finish_step plan id "pull" "" OutcomeUnknown (stableError err (Some observeErr)) in
          pret (Err (ErrUnknownOutcome PhaseAfterPull (first_error err observeErr)))
      | Ok image =>
          if negb (imageContainsDigest image (mc_Image component)) then
            let cause := first_error err (ErrMsg "pulled digest could not be verified") in
            run* _ := finish_step plan id "pull" (im_ID image) ConfirmedAbsent (error_text cause) in
            before (ErrWrap ("pull " +:+ id) cause)
          else
            let detail := match err with Some e => error_text e | None => "" end in
            try* _ := finish_step plan id "pull" (im_ID image) ConfirmedApplied detail
              catch e => pret (Err (ErrUnknownOutcome PhaseAfterPull e)) in
            pret (Ok image)
      end
  end.

Fixpoint pull_components (plan : MultiPlan) (images : gmap string (string * list string))
    (components : list MultiComponentPlan) : prog E (res (gmap string (string * list string))) :=
  match components with
  | [] => pret (Ok images)
  | c :: rest =>
      if decide (is_Some (images !! mc_Image c)) then pull_components plan images rest
      else
        try* image := pull_component plan c catch e => pret (Err e) in
        pull_components plan (<[mc_Image c := (im_ConfiguredUser image, im_ConfiguredVolumes image)]> images) rest
  end.

Definition with_images (plan : MultiPlan) (images : gmap string (string * list string)) : MultiPlan :=
  plan <| mp_Components := map (fun c =>
    let image := default ("", []) (images !! mc_Image c) in
    c <| mc_Container := mc_Container c <| pl_ImageDefaultUser := image.1 |>
           <| pl_ImageDefaultVolumes := image.2 |> |>) (mp_Components plan) |>.

(** *** The active generation *)
Definition promoted_component (observations : gmap string ContainerObservation) (c : Component) : Component :=
  let o := default zero_observation (observations !! cm_ID c) in
  c <| cm_ImageID := ob_ImageID o |> <| cm_ConfigurationHash := observationHash sha o |>
    <| cm_State := "running" |>.

Definition promote_active (plan : MultiPlan) (active : MultiGeneration) : prog E (res MultiGeneration) :=
  let unverified := pret (Err (ErrMsg "migrated multi-component network cannot be verified")) in
  try* network := observe_network (mg_NetworkName active) catch _e => unverified in
  if negb (nw_Exists network) then unverified
  else
    try* observations := observe_all (mg_Components active) ∅ catch e => pret (Err e) in
    try* _ := store (PromoteMigratedMulti sha active (nw_ID network) observations CompRunning
                       (mp_OperationID plan) (mp_FencingToken plan)) catch e => pret (Err e) in
    pret (Ok (active <| mg_Status := "active" |> <| mg_NetworkID := nw_ID network |>
                <| mg_Components := map (promoted_component observations) (mg_Components active) |>)).

Definition loadActive (plan : MultiPlan) : prog E (res MultiGeneration) :=
  run* current := store (fun _ => MultiCurrent (mp_InstallationID plan)) in
  match current with
  | Err e =>
      if is_no_rows e then
        if decide (mp_ExpectedGeneration plan <> 0)
        then pret (Err (ErrMsg "active generation is missing"))
        else pret (Ok zero_multi)
      else pret (Err e)
  | Ok active =>
      if decide (length (mg_Components active) < 2)%nat
      then pret (Err (ErrMsg "stored active generation is not multi-component"))
      else if decide (mg_Status active = "removed") then pret (Ok active)
      else
        run* verified := verifyGeneration active RuntimeRunning in
        match verified with
        | Err e =>
            let ambiguous := Err (ErrWrap "active runtime ownership is ambiguous" e) in
            if mp_AllowMissingActive plan && bool_decide (mg_Status active = "active") then
              run* repairable := observeRepairableGeneration active in
              pret (if is_ok repairable then Ok active else ambiguous)
            else pret ambiguous
        | Ok _ =>
            if decide (mg_Status active = "verification_required") then promote_active plan active
            else pret (Ok active)
        end
  end.

Definition MultiReplace (plan : MultiPlan) : prog E (Result * option error) :=
  match validateMultiPlan plan with
  | Err e => fail e
  | Ok _ =>
      try* active := loadActive plan catch e => fail e in
      if decide (mg_Generation active <> mp_ExpectedGeneration plan \/
                 mp_Generation plan <> mp_ExpectedGeneration plan + 1)
      then fail (ErrMsg ("stale runtime generation: expected " +:+ sprint (mp_ExpectedGeneration plan)
             +:+ " active " +:+ sprint (mg_Generation active) +:+ " target " +:+ sprint (mp_Generation plan)))
      else
        try* _ := store (PrepareMulti plan) catch e => fail e in
        try* images := pull_components plan ∅ (mp_Components plan) catch e => fail e in
        multi_network (with_images plan images) active
  end.
End runner.
