(* ===== verification/SingleRunner.v ===== *)
(** * Ordinary actions on a single-container runtime ([lifecycle/single_runner.go])

    Start, stop, restart and remove of the active generation.  The mutator is
    the multi-component runner without a component hook, so that every
    dispatch is in the step ledger. *)

From S2P Require Import Prelude Protocol Exposure HelperDB Coordinator Containers LifecycleStore MultiStore Runner MultiRunner.
From stdpp Require Import base gmap strings list.
From Stdlib Require Import ZArith Lia.

Open Scope Z_scope.

Definition singleRuntimeStateClassifiable (state : string) : bool :=
  bool_decide (state = RuntimeRunning \/ state = RuntimeStopped \/ state = RuntimeRestarting \/
               state = RuntimePaused).

Definition singleRuntimeStateStoppable (state : string) : bool :=
  bool_decide (state = RuntimeRunning \/ state = RuntimeRestarting \/ state = RuntimePaused).

(** The runtime state kept for a migrated component. *)
Definition persisted_state (state : string) : comp_state_t :=
  if decide (state = RuntimeRunning) then CompRunning
  else if decide (state = RuntimeStopped) then CompStopped else CompUnknown.

Definition single_plan (g : Generation) (installation operationID : string) (token : Z) : MultiPlan :=
  {| mp_OperationID := operationID; mp_InstallationID := installation;
     mp_ApplicationID := gn_ApplicationID g; mp_ReleaseID := gn_ReleaseID g;
     mp_Generation := gn_Generation g; mp_ExpectedGeneration := gn_Generation g;
     mp_FencingToken := token; mp_NetworkName := gn_NetworkName g; mp_PlanHash := gn_PlanHash g;
     mp_TopologyHash := ""; mp_DataPath := gn_DataPath g; mp_Bindings := gn_Bindings g;
     mp_Components := []; mp_RollbackSafe := false; mp_AllowMissingActive := false |}.

Section runner.
Context {E : Type} `{HostE : Host E} `{Ev : Evidence} (sha : string -> string).

(** [ComponentHook] is nil. *)
Definition no_hook (action component point : string) (e : E) : option error * E := (None, e).

(** The identity checks of [observeExact] on a container that exists. *)
Definition exact_container (g : Generation) (o : ContainerObservation) : res unit :=
  let c := gn_Component g in
  if negb (bool_decide (ob_ID o = cm_ContainerID c) && bool_decide (ob_Name o = cm_ContainerName c) &&
           bool_decide (ob_ImageReference o = cm_Image c) &&
           owner_matches o (gn_InstallationID g) (gn_Generation g))
  then Err (ErrMsg "active runtime ownership is not exact")
  else if decide (cm_ImageID c <> "" /\ ob_ImageID o <> cm_ImageID c)
  then Err (ErrMsg "active runtime image identity changed")
  else if decide (gn_Status g = "verification_required" /\ cm_ConfigurationHash c = "")
  then Err (ErrMsg "migrated runtime configuration is not verified")
  else if decide (cm_ConfigurationHash c <> "" /\ observationHash sha o <> cm_ConfigurationHash c)
  then Err (ErrMsg "active runtime configuration changed")
  else Ok tt.

Definition exact_network (g : Generation) (o : ContainerObservation) (n : NetworkObservation) : bool :=
  nw_Exists n && bool_decide (gn_NetworkID g = "" \/ nw_ID n = gn_NetworkID g) &&
  match ob_Networks o !! gn_NetworkName g with
  | Some a => bool_decide (na_NetworkID a = nw_ID n) | None => false end.

Definition observeExact (g : Generation) : prog E (res (ContainerObservation * NetworkObservation)) :=
  let c := gn_Component g in
  let unknown e := pret (Err (ErrUnknownOutcome PhaseBeforeVerification e)) in
  try* observed := observe_container (cm_ContainerID c) catch e => unknown e in
  if negb (ob_Exists observed) then
    try* byName := observe_container (cm_ContainerName c) catch e => unknown e in
    if ob_Exists byName
    then pret (Err (ErrMsg "expected runtime name is occupied by another object"))
    else pret (Err (ErrMsg "active runtime is missing; reconciliation and recreation are required"))
  else match exact_container g observed with
       | Err e => pret (Err e)
       | Ok _ =>
           try* network := observe_network (gn_NetworkName g) catch e => unknown e in
           if exact_network g observed network then pret (Ok (observed, network))
           else pret (Err (ErrMsg "active runtime network identity changed"))
       end.

(** [apply]: nothing is dispatched when the container is already there. *)
Definition single_apply (plan : MultiPlan) (g : Generation) (mutation want : string) : prog E (res unit) :=
  let c := gn_Component g in
  let confirmed facts :=
    store (record_phase (mp_OperationID plan) (mp_FencingToken plan) ("single_" +:+ mutation) "confirmed" facts) in
  try* current := observeExact g catch e => pret (Err e) in
  let state := ob_State current.1 in
  if decide (state = want) then
    try* _ := stepIntent plan (cm_ID c) mutation (cm_ContainerID c) catch e => pret (Err e) in
    try* _ := finish_step plan (cm_ID c) mutation (cm_ContainerID c) ConfirmedApplied
                "already in requested state" catch e => pret (Err e) in
    confirmed [("idempotent", "true"); ("runtime_id", cm_ContainerID c)]
  else if decide (mutation = "start" /\ state <> RuntimeStopped)
  then pret (Err (ErrMsg "active runtime must be stopped before it can be started"))
  else if bool_decide (mutation = "stop") && negb (singleRuntimeStateStoppable state)
  then pret (Err (ErrMsg "active runtime state is not safely stoppable"))
  else
    try* _ := mutateExisting sha no_hook plan c mutation want catch e => pret (Err e) in
    try* _ := store (RecordMultiContainer plan (cm_ID c) (cm_ContainerID c) "" ""
                       (if decide (want = RuntimeRunning) then CompRunning else CompStopped)
                       (bool_decide (want = RuntimeRunning)))
      catch e => pret (Err (ErrUnknownOutcome (phaseForAction mutation) e)) in
    confirmed [("runtime_id", cm_ContainerID c)].

Definition single_remove_network (plan : MultiPlan) (g : Generation) (network : NetworkObservation)
    : prog E (res unit) :=
  let record outcome facts :=
    store (record_phase (mp_OperationID plan) (mp_FencingToken plan) "single_remove_network" outcome facts) in
  try* _ := record "intent" [("network_id", nw_ID network)] catch e => pret (Err e) in
  run* removeErr := remove_network (gn_NetworkName g) in
  run* removed := observe_network (gn_NetworkName g) in
  match removed with
  | Err e => pret (Err (ErrUnknownOutcome PhaseCleanup (first_error (opt_err removeErr) e)))
  | Ok removed =>
      if nw_Exists removed
      then pret (Err (first_error (opt_err removeErr)
             (ErrMsg "active network removal did not reach the requested state")))
      else try* _ := record "confirmed" [] catch e => pret (Err (ErrUnknownOutcome PhaseCleanup e)) in
           pret (Ok tt)
  end.

Definition single_remove (plan : MultiPlan) (g : Generation) (observed : ContainerObservation)
    (network : NetworkObservation) : prog E (res unit) :=
  try* _ := (if singleRuntimeStateStoppable (ob_State observed)
             then single_apply plan g "stop" RuntimeStopped else pret (Ok tt)) catch e => pret (Err e) in
  try* _ := mutateExisting sha no_hook plan (gn_Component g) "remove" RuntimeMissing
    catch e => pret (Err e) in
  try* _ := single_remove_network plan g network catch e => pret (Err e) in
  store (fun _ => MarkActiveRemoved (mp_InstallationID plan) (gn_Generation g) (mp_OperationID plan)
                    (mp_FencingToken plan)).

Definition single_dispatch (plan : MultiPlan) (g : Generation) (action : string)
    (observed : ContainerObservation) (network : NetworkObservation) : prog E (res unit) :=
  if decide (action = "start") then single_apply plan g "start" RuntimeRunning
  else if decide (action = "stop") then single_apply plan g "stop" RuntimeStopped
  else if decide (action = "restart") then
    try* _ := single_apply plan g "stop" RuntimeStopped catch e => pret (Err e) in
    single_apply plan g "start" RuntimeRunning
  else single_remove plan g observed network.

(** A migrated generation takes on what is observed of it. *)
Definition single_promote (operationID : string) (token : Z) (g : Generation)
    (observed : ContainerObservation) (network : NetworkObservation) : prog E (res Generation) :=
  if negb (singleRuntimeStateClassifiable (ob_State observed))
  then pret (Err (ErrMsg "migrated runtime state is not safely classifiable"))
  else
    let persisted := persisted_state (ob_State observed) in
    let hash := observationHash sha observed in
    try* _ := store (PromoteMigratedState g (nw_ID network) (ob_ImageID observed) hash persisted
                       operationID token) catch e => pret (Err e) in
    pret (Ok (g <| gn_Status := "active" |> <| gn_NetworkID := nw_ID network |>
                <| gn_Component := gn_Component g <| cm_ImageID := ob_ImageID observed |>
                     <| cm_ConfigurationHash := hash |> <| cm_State := comp_state_text persisted |> |>)).

Definition supported_action (action : string) : bool :=
  bool_decide (action = "start" \/ action = "stop" \/ action = "restart" \/ action = "remove").

Definition SingleOperate (installation operationID : string) (token : Z) (action : string)
    : prog E (Result * option error) :=
  if negb (supported_action action)
  then fail (ErrMsg "unsupported single-component lifecycle action")
  else
    try* _ := store (record_phase operationID token "single_lifecycle_validation" "intent"
                       [("lifecycle_action", action)]) catch e => fail e in
    try* g := store (fun _ => Current installation) catch e => fail e in
    if decide (gn_Status g = "removed")
    then fail (ErrMsg "active runtime is missing; reconciliation and recreation are required")
    else
      try* exact := observeExact g catch e => fail e in
      let observed := exact.1 in
      let network := exact.2 in
      try* g := (if decide (gn_Status g = "verification_required")
                 then single_promote operationID token g observed network else pret (Ok g))
        catch e => fail e in
      if decide (gn_Status g <> "active")
      then fail (ErrMsg "active single-component generation unavailable")
      else
        try* _ := single_dispatch (single_plan g installation operationID token) g action observed network
          catch e => fail e in
        pret ({| re_Generation := gn_Generation g; re_ReleaseID := gn_ReleaseID g;
                 re_RuntimeState := action_state action;
                 re_ContainerName := cm_ContainerName (gn_Component g);
                 re_ContainerID := cm_ContainerID (gn_Component g); re_NetworkName := gn_NetworkName g;
                 re_Bindings := gn_Bindings g; re_CleanupDeferred := false; re_Components := ∅ |}, None).
End runner.
