(* ===== verification/Repair.v ===== *)
(** * Repairs ([lifecycle/repair.go])

    The actions an administrator may request after a reconciliation: starting
    an exact active runtime, cleaning up exact non-active resources, and
    acknowledging that a retained generation is gone. *)

From S2P Require Import Prelude Protocol Exposure HelperDB Coordinator Containers LifecycleStore MultiStore ReconciliationStore Runner Reconciliation MultiRunner.
From stdpp Require Import base gmap strings list.
From Stdlib Require Import ZArith Lia.

Open Scope Z_scope.

Definition repairPlan (g : MultiGeneration) (operationID : string) (token : Z) : MultiPlan :=
  operation_plan g (mg_InstallationID g) operationID token (stored_plans (mg_Components g)).

Section repairer.
Context {E : Type} `{HostE : Host E} `{Ev : Evidence} (sha : string -> string).
Context (provider : option (@RuntimeIdentityProvider E)).

(** ** Exact identity *)
Definition transient_status (status : string) : bool :=
  bool_decide (status = "prepared" \/ status = "candidate" \/ status = "failed" \/ status = "cleanup_pending").

Definition exact_component (g : MultiGeneration) (c : Component) (n : NetworkObservation)
    (o : ContainerObservation) : res unit :=
  let detached := detached_after_failed_start sha g c n o in
  if bool_decide (cm_ConfigurationHash c <> "" /\ observationHash sha o <> cm_ConfigurationHash c) && negb detached
  then Err (ErrMsg "repair refused because component configuration changed")
  else if negb detached &&
          network_differs (transient_status (mg_Status g)) (mg_NetworkName g) (mg_NetworkID g) n o
  then Err (ErrMsg "repair refused because component network identity changed")
  else Ok tt.

Definition verifyExactComponent (g : MultiGeneration) (c : Component) : prog E (res ContainerObservation) :=
  try* o := observe_container (cm_ContainerID c) catch e => pret (Err e) in
  if negb (ob_Exists o && bool_decide (ob_ID o = cm_ContainerID c) &&
           bool_decide (ob_Name o = cm_ContainerName c) && bool_decide (ob_ImageReference o = cm_Image c) &&
           owner_matches o (mg_InstallationID g) (mg_Generation g))
  then pret (Err (ErrMsg "repair refused because component ownership is not exact"))
  else if decide (cm_ImageID c <> "" /\ ob_ImageID o <> cm_ImageID c)
  then pret (Err (ErrMsg "repair refused because component image identity changed"))
  else
    try* n := observe_network (mg_NetworkName g) catch e => pret (Err e) in
    pret (match exact_component g c n o with Ok _ => Ok o | Err e => Err e end).

Fixpoint retained_detached (g : MultiGeneration) (network : NetworkObservation) (components : list Component)
    (detached : bool) : prog E (res bool) :=
  match components with
  | [] => pret (Ok detached)
  | c :: rest =>
      try* o := verifyExactComponent g c catch e => pret (Err e) in
      retained_detached g network rest
        (detached || detachedStoppedConfigurationMatches sha o (cm_ConfigurationHash c)
                       (mg_NetworkName g) (nw_ID network))
  end.

Definition retainedGenerationDetached (g : MultiGeneration) : prog E (res bool) :=
  try* network := observe_network (mg_NetworkName g) catch e => pret (Err e) in
  if negb (nw_Exists network) ||
     (bool_decide (mg_NetworkID g <> "") && bool_decide (nw_ID network <> mg_NetworkID g))
  then pret (Ok false)
  else retained_detached g network (mg_Components g) false.

(** ** One mutation *)
Definition repair_call (action id : string) : option (prog E (res unit)) :=
  if decide (action = "repair_start") then Some (start_container id)
  else if decide (action = "repair_stop") then Some (stop_container id)
  else if decide (action = "repair_remove") then Some (remove_container id)
  else None.

(** The container is fully identified again, unless it was to disappear. *)
Definition confirm_identity (g : MultiGeneration) (c : Component) (want : string)
    (mutationErr : option error) : prog E (option string) :=
  if decide (want = RuntimeMissing) then pret None
  else
    run* verified := verifyExactComponent g c in
    let failed e := Some (stableError mutationErr (Some e)) in
    pret (match verified with
          | Err e => failed e
          | Ok o => if decide (ob_State o = want) then None
                    else failed (ErrMsg "repair identity verification failed")
          end).

Definition confirm_repair (plan : MultiPlan) (g : MultiGeneration) (c : Component) (action want : string)
    (mutationErr : option error) : prog E (res unit) :=
  run* observed := observe_container (cm_ContainerID c) in
  match observed with
  | Err e =>
      run* _ := finish_step plan (cm_ID c) action "" OutcomeUnknown (stableError mutationErr (Some e)) in
      pret (Err (ErrUnknownOutcome PhaseCleanup (first_error mutationErr e)))
  | Ok observed =>
      let applied := if decide (want = RuntimeMissing)
        then negb (ob_Exists observed) || bool_decide (ob_State observed = RuntimeMissing)
        else bool_decide (ob_State observed = want) in
      if negb applied then
        let detail := stableError mutationErr (Some (ErrMsg "repair postcondition was not achieved")) in
        run* _ := finish_step plan (cm_ID c) action (ob_ID observed) ConfirmedAbsent detail in
        pret (Err (ErrMsg detail))
      else
        run* unverified := confirm_identity g c want mutationErr in
        match unverified with
        | Some detail =>
            run* _ := finish_step plan (cm_ID c) action (ob_ID observed) OutcomeUnknown detail in
            pret (Err (ErrUnknownOutcome PhaseBeforeVerification (ErrMsg detail)))
        | None =>
            let detail := match mutationErr with Some e => error_text e | None => "" end in
            try* _ := finish_step plan (cm_ID c) action (ob_ID observed) ConfirmedApplied detail
              catch e => pret (Err e) in
            store (record_phase (mp_OperationID plan) (mp_FencingToken plan) action "confirmed"
                     [("component_id", cm_ID c)])
        end
  end.

Definition mutateComponent (plan : MultiPlan) (g : MultiGeneration) (c : Component) (action want : string)
    : prog E (res unit) :=
  try* _ := stepIntent plan (cm_ID c) action (cm_ContainerID c) catch e => pret (Err e) in
  try* _ := store (record_phase (mp_OperationID plan) (mp_FencingToken plan) action "intent"
                     [("component_id", cm_ID c); ("runtime_id", cm_ContainerID c)]) catch e => pret (Err e) in
  try* _ := store (DispatchComponentStep plan (cm_ID c) action 1) catch e => pret (Err e) in
  match repair_call action (cm_ContainerID c) with
  | None => pret (Err (ErrMsg "unsupported repair mutation"))
  | Some call =>
      run* r := call in
      confirm_repair plan g c action want (opt_err r)
  end.

(** ** Starting the active generation *)
Fixpoint dependencies_running (g : MultiGeneration) (c : Component) (dependencies : list string)
    : prog E (res unit) :=
  match dependencies with
  | [] => pret (Ok tt)
  | dependency :: rest =>
      match componentByID (mg_Components g) dependency with
      | None => pret (Err (ErrMsg "stored dependency topology is incomplete"))
      | Some d =>
          let stopped := pret (Err (ErrMsg ("dependency " +:+ dependency +:+ " is not running before " +:+ cm_ID c))) in
          try* o := verifyExactComponent g d catch _e => stopped in
          if decide (ob_State o = RuntimeRunning) then dependencies_running g c rest else stopped
      end
  end.

Fixpoint start_components (plan : MultiPlan) (g : MultiGeneration) (components : list Component)
    : prog E (res unit) :=
  match components with
  | [] => pret (Ok tt)
  | c :: rest =>
      try* o := verifyExactComponent g c catch e => pret (Err e) in
      if decide (ob_State o = RuntimeRunning) then start_components plan g rest
      else if decide (ob_State o <> RuntimeStopped)
      then pret (Err (ErrMsg ("component " +:+ cm_ID c +:+ " cannot be started from " +:+ ob_State o)))
      else
        try* _ := dependencies_running g c (cm_DependsOn c) catch e => pret (Err e) in
        try* _ := mutateComponent plan g c "repair_start" RuntimeRunning catch e => pret (Err e) in
        try* _ := store (RecordMultiContainer plan (cm_ID c) (cm_ContainerID c) "" "" CompRunning true)
          catch e => pret (Err e) in
        start_components plan g rest
  end.

Definition startActive (installation operationID : string) (token : Z) : prog E (res unit) :=
  try* g := store (fun _ => MultiCurrent installation) catch e => pret (Err e) in
  if decide (mg_Status g <> "active") then pret (Err (ErrMsg "active generation unavailable"))
  else start_components (repairPlan g operationID token) g (mg_Components g).

(** ** Removing what is not active *)

(** A container found by name only is given the identity observed, for this
    attempt. *)
Definition cleanup_component (plan : MultiPlan) (g : MultiGeneration) (c : Component) : prog E (res unit) :=
  try* o := observeComponent c catch e => pret (Err e) in
  if negb (ob_Exists o) then
    try* byName := observe_container (cm_ContainerName c) catch e => pret (Err e) in
    if ob_Exists byName
    then pret (Err (ErrMsg "cleanup refused because expected name is occupied by another runtime object"))
    else pret (Ok tt)
  else
    let c := if decide (cm_ContainerID c = "") then c <| cm_ContainerID := ob_ID o |> else c in
    try* _ := verifyExactComponent g c catch e => pret (Err e) in
    try* _ := (if decide (ob_State o = RuntimeRunning)
               then mutateComponent plan g c "repair_stop" RuntimeStopped else pret (Ok tt))
      catch e => pret (Err e) in
    mutateComponent plan g c "repair_remove" RuntimeMissing.

Fixpoint cleanup_components (plan : MultiPlan) (g : MultiGeneration) (components : list Component)
    : prog E (res unit) :=
  match components with
  | [] => pret (Ok tt)
  | c :: rest =>
      try* _ := cleanup_component plan g c catch e => pret (Err e) in
      cleanup_components plan g rest
  end.

Definition repair_remove_network (operationID : string) (token : Z) (g : MultiGeneration)
    (network : NetworkObservation) : prog E (res unit) :=
  let number := sprint (mg_Generation g) in
  try* _ := store (record_phase operationID token "repair_remove_network" "intent"
                     [("generation", number); ("network_id", nw_ID network)]) catch e => pret (Err e) in
  run* removeErr := remove_network (mg_NetworkName g) in
  run* removed := observe_network (mg_NetworkName g) in
  match removed with
  | Err e => pret (Err (ErrUnknownOutcome PhaseCleanup (first_error (opt_err removeErr) e)))
  | Ok removed =>
      if nw_Exists removed
      then pret (Err (first_error (opt_err removeErr) (ErrMsg "cleanup network removal was not applied")))
      else store (record_phase operationID token "repair_remove_network" "confirmed" [("generation", number)])
  end.

Definition cleanup_generation (operationID : string) (token : Z) (g : MultiGeneration) : prog E (res unit) :=
  try* _ := cleanup_components (repairPlan g operationID token) g (reverseComponents (mg_Components g))
    catch e => pret (Err e) in
  try* network := observe_network (mg_NetworkName g) catch e => pret (Err e) in
  if nw_Exists network && bool_decide (mg_NetworkID g <> "") && bool_decide (nw_ID network <> mg_NetworkID g)
  then pret (Err (ErrMsg "cleanup refused because network identity changed"))
  else
    try* _ := (if nw_Exists network then repair_remove_network operationID token g network
               else pret (Ok tt)) catch e => pret (Err e) in
    store (fun _ => MarkNonActiveRemoved g operationID token).

(** A retained generation is cleaned up only once it is detached. *)
Fixpoint cleanup_generations (operationID : string) (token : Z) (generations : list MultiGeneration)
    : prog E (res unit) :=
  match generations with
  | [] => pret (Ok tt)
  | g :: rest =>
      if is_authority g then cleanup_generations operationID token rest
      else
        try* eligible := (if decide (mg_Status g = "retained") then retainedGenerationDetached g
                          else pret (Ok true)) catch e => pret (Err e) in
        if negb eligible then cleanup_generations operationID token rest
        else
          try* _ := cleanup_generation operationID token g catch e => pret (Err e) in
          cleanup_generations operationID token rest
  end.

Definition cleanupNonActive (installation operationID : string) (token : Z) : prog E (res unit) :=
  try* generations := store (fun _ => ReconciliationGenerations installation) catch e => pret (Err e) in
  cleanup_generations operationID token generations.

(** ** Acknowledging the loss of a retained generation *)
Fixpoint components_missing (components : list Component) (missing : bool) : prog E (res bool) :=
  match components with
  | [] => pret (Ok missing)
  | c :: rest =>
      try* o := observe_container (cm_ContainerID c) catch e => pret (Err e) in
      components_missing rest (missing && negb (ob_Exists o))
  end.

(** [true] when the generation was marked. *)
Definition acknowledge_one (operationID : string) (token : Z) (g : MultiGeneration) : prog E (res bool) :=
  if decide (mg_Status g <> "retained") then pret (Ok false)
  else
    try* missing := components_missing (mg_Components g) true catch e => pret (Err e) in
    if negb missing then pret (Ok false)
    else
      try* network := observe_network (mg_NetworkName g) catch e => pret (Err e) in
      try* _ := (if nw_Exists network then store (fun _ => MarkRetainedCleanupPending g operationID token)
                 else store (fun _ => MarkNonActiveRemoved g operationID token)) catch e => pret (Err e) in
      pret (Ok true).

Fixpoint acknowledge_all (operationID : string) (token : Z) (generations : list MultiGeneration) (changed : bool)
    : prog E (res bool) :=
  match generations with
  | [] => pret (Ok changed)
  | g :: rest =>
      try* x := acknowledge_one operationID token g catch e => pret (Err e) in
      acknowledge_all operationID token rest (changed || x)
  end.

Definition acknowledgeRetainedLoss (installation operationID : string) (token : Z) : prog E (res unit) :=
  try* generations := store (fun _ => ReconciliationGenerations installation) catch e => pret (Err e) in
  try* changed := acknowledge_all operationID token generations false catch e => pret (Err e) in
  pret (if changed then Ok tt else Err (ErrMsg "no exactly missing retained generation found")).

(** ** The repair *)
Definition eligible (current : ReconciliationResult) (action : string) : bool :=
  bool_decide (rr_RecommendedAction current = action \/ rr_State current = ReconciliationConsistent).

(** The [switch]: an action runs only if the reconciliation allows it. *)
Definition repair_action (current : ReconciliationResult) (installation operationID : string) (token : Z)
    (action : string) : prog E (res unit) :=
  if decide (action = RepairStartActive) then
    if eligible current action then startActive installation operationID token
    else pret (Err (ErrMsg "active runtime is not eligible for exact start repair"))
  else if decide (action = RepairCleanupResources) then
    if eligible current action then cleanupNonActive installation operationID token
    else pret (Err (ErrMsg "installation is not eligible for exact resource cleanup"))
  else if decide (action = RepairAcknowledgeRetainedLoss) then
    if eligible current action then acknowledgeRetainedLoss installation operationID token
    else pret (Err (ErrMsg "retained generation loss is not eligible for acknowledgement"))
  else pret (Err (ErrMsg "unsupported repair action")).

Definition repair_verify (installation operationID : string) (token : Z) (action : string)
    (current : ReconciliationResult) : prog E (ReconciliationResult * option error) :=
  let record outcome facts := store (record_phase operationID token "repair_verification" outcome facts) in
  try* _ := record "intent" [("repair_action", action)] catch e => pret (current, Some e) in
  run* x := Reconcile sha provider installation in
  match x with
  | (result, Some e) => pret (result, Some e)
  | (result, None) =>
      try* _ := record "confirmed" [("classification", rr_State result)] catch e => pret (result, Some e) in
      pret (result, None)
  end.

Definition Repair (installation operationID : string) (token : Z) (action : string)
    : prog E (ReconciliationResult * option error) :=
  run* x := Reconcile sha provider installation in
  match x with
  | (current, Some e) => pret (current, Some e)
  | (current, None) =>
      try* _ := store (record_phase operationID token "repair_validation" "confirmed"
                         [("classification", rr_State current); ("repair_action", action)])
        catch e => pret (current, Some e) in
      try* _ := repair_action current installation operationID token action catch e => pret (current, Some e) in
      repair_verify installation operationID token action current
  end.
End repairer.
