(* ===== verification/Recovery.v ===== *)
(** * Recovery of interrupted replacements ([lifecycle/recovery.go])

    Run when the helper starts: an operation that was cut short is completed
    when its candidate is exactly what was recorded and already running, or
    when its generation was already committed.  Nothing is sent to the runtime
    but observations. *)

From S2P Require Import Prelude Protocol Exposure HelperDB Coordinator Containers LifecycleStore MultiStore Runner MultiRunner.
From stdpp Require Import base gmap strings list sorting.
From Stdlib Require Import ZArith Lia.

Open Scope Z_scope.

(** The generations of operations that require action, with [n] components. *)
Definition interrupted (n : nat -> Prop) (d : db) (k : string * Z) (r : genRow) : Prop :=
  match db_ops d !! g_operation r with
  | Some o => op_state o = StateActionRequired
  | None => False
  end /\ (g_status r = GenCandidate \/ g_status r = GenActive) /\
  n (affected (fun kc _ => kc.1 = k) (db_comps d)).
#[export] Instance interrupted_dec n `{!forall m, Decision (n m)} d k r : Decision (interrupted n d k r).
Proof. unfold interrupted. destruct (db_ops d !! g_operation r); apply _. Defined.

(** [ORDER BY g.created_at] *)
Definition created_le (a b : (string * Z) * genRow) : Prop :=
  String.leb (g_created_at a.2) (g_created_at b.2) = true.
#[export] Instance created_le_dec a b : Decision (created_le a b).
Proof. unfold created_le. apply _. Defined.

Definition interrupted_single (d : db) : list Generation :=
  flat_map (fun kg => map (fun cc => scanGeneration kg.1 kg.2 cc.1 cc.2) (components_of kg.1 d))
    (merge_sort created_le (select (interrupted (fun m => m = 1%nat) d) (db_gens d))).

Definition interrupted_multi (d : db) : list (string * Z) :=
  map fst (merge_sort created_le (select (interrupted (fun m => 1 < m)%nat d) (db_gens d))).

Definition recovered_single (g : Generation) : Result :=
  {| re_Generation := gn_Generation g; re_ReleaseID := gn_ReleaseID g; re_RuntimeState := "running";
     re_ContainerName := cm_ContainerName (gn_Component g); re_ContainerID := cm_ContainerID (gn_Component g);
     re_NetworkName := gn_NetworkName g; re_Bindings := gn_Bindings g; re_CleanupDeferred := false;
     re_Components := ∅ |}.

Definition recovered_multi (g : MultiGeneration) : Result :=
  {| re_Generation := mg_Generation g; re_ReleaseID := mg_ReleaseID g; re_RuntimeState := "running";
     re_ContainerName := ""; re_ContainerID := ""; re_NetworkName := mg_NetworkName g;
     re_Bindings := mg_Bindings g; re_CleanupDeferred := false;
     re_Components := container_ids ∅ (mg_Components g) |}.

(** [Generation{InstallationID, Generation, CreatingOperationID}] *)
Definition committed_generation (g : MultiGeneration) : Generation :=
  {| gn_InstallationID := mg_InstallationID g; gn_CreatingOperationID := mg_CreatingOperationID g;
     gn_ApplicationID := ""; gn_ReleaseID := ""; gn_Generation := mg_Generation g; gn_Status := "";
     gn_NetworkName := ""; gn_NetworkID := ""; gn_PlanHash := ""; gn_DataPath := ""; gn_Bindings := [];
     gn_CleanupState := ""; gn_Component := zero_component |}.

Section recovery.
Context {E : Type} `{HostE : Host E} (sha : string -> string).

(** The container is exactly the recorded one, running on the recorded network. *)
Definition exactly_running (g : Generation) : prog E bool :=
  try* observed := verifyStoredGeneration sha g RuntimeRunning catch _e => pret false in
  try* network := observe_network (gn_NetworkName g) catch _e => pret false in
  pret (nw_Exists network && bool_decide (nw_ID network = gn_NetworkID g) &&
        match ob_Networks observed !! gn_NetworkName g with
        | Some a => bool_decide (na_NetworkID a = nw_ID network) | None => false end).

(** [true] when the generation was recovered. *)
Definition recover_one (g : Generation) : prog E (res bool) :=
  run* exact := exactly_running g in
  if negb exact then pret (Ok false)
  else
    try* _ := store (if decide (gn_Status g = "active")
                     then FinalizeCommittedRecovery g (recovered_single g)
                     else RecoverForward g (recovered_single g)) catch e => pret (Err e) in
    pret (Ok true).

(** The count so far survives an error. *)
Fixpoint recover_loop (generations : list Generation) (recovered : nat) : prog E (nat * option error) :=
  match generations with
  | [] => pret (recovered, None)
  | g :: rest =>
      try* x := recover_one g catch e => pret (recovered, Some e) in
      recover_loop rest (if x : bool then S recovered else recovered)
  end.

(** The previous generation of a candidate must be exactly stopped. *)
Definition previous_stopped (g : MultiGeneration) : prog E bool :=
  if decide (1 < mg_Generation g) then
    try* previous := store (fun _ => LoadMultiGeneration (mg_InstallationID g) (mg_Generation g - 1))
      catch _e => pret false in
    run* r := verifyGeneration sha previous RuntimeStopped in
    pret (is_ok r)
  else pret true.

Definition recover_multi_one (k : string * Z) : prog E (res bool) :=
  try* g := store (fun _ => LoadMultiGeneration k.1 k.2) catch _e => pret (Ok false) in
  run* running := verifyGeneration sha g RuntimeRunning in
  if negb (is_ok running) then pret (Ok false)
  else if decide (mg_Status g = "active") then
    try* _ := store (FinalizeCommittedRecovery (committed_generation g) (recovered_multi g))
      catch e => pret (Err e) in
    pret (Ok true)
  else
    run* previous := previous_stopped g in
    if negb previous then pret (Ok false)
    else
      try* _ := store (RecordRecoveredMultiVerification g) catch _e => pret (Ok false) in
      try* _ := store (RecoverForwardMulti g (recovered_multi g)) catch e => pret (Err e) in
      pret (Ok true).

Fixpoint recover_multi_loop (keys : list (string * Z)) (recovered : nat) : prog E (nat * option error) :=
  match keys with
  | [] => pret (recovered, None)
  | k :: rest =>
      try* x := recover_multi_one k catch e => pret (recovered, Some e) in
      recover_multi_loop rest (if x : bool then S recovered else recovered)
  end.

Definition recoverInterruptedMulti : prog E (nat * option error) :=
  try* keys := store (fun _ => let* d := tget in tret (interrupted_multi d))
    catch e => pret (0%nat, Some e) in
  recover_multi_loop keys 0.

Definition RecoverInterrupted : prog E (nat * option error) :=
  try* generations := store (fun _ => let* d := tget in tret (interrupted_single d))
    catch e => pret (0%nat, Some e) in
  run* single := recover_loop generations 0 in
  match single with
  | (recovered, Some e) => pret (recovered, Some e)
  | (recovered, None) =>
      run* multi := recoverInterruptedMulti in
      pret (match multi with
            | (_, Some e) => (recovered, Some e)
            | (more, None) => ((recovered + more)%nat, None)
            end)
  end.
End recovery.
