(* ===== verification/RunnerProofs.v ===== *)
(** * A weakest-precondition calculus for helper programs, and the runner

    Assertions speak about the database and the call record; the environment
    is universally quantified at every call, so a triple holds for every
    runtime, clock, driver failure, hook and moment of death.  The last
    postcondition of [wp] is what holds when the process dies. *)

From S2P Require Import Prelude Protocol Exposure HelperDB Coordinator CoordinatorProofs CoordinatorProps Containers LifecycleStore LifecycleStoreProofs LifecycleStoreProps Runner.
From stdpp Require Import base gmap strings list sorting.
From Stdlib Require Import ZArith Lia.

Open Scope Z_scope.

Definition log : Type := list (rt_call * db).
Definition assn : Type := db -> log -> Prop.

Definition wp {E A} (m : prog E A) (Q : A -> assn) (C : assn) (d : db) (l : log) : Prop :=
  forall e, match m (World d e l) with
            | Done a w => Q a (w_db w) (w_log w)
            | Crashed w => C (w_db w) (w_log w)
            end.

Section rules.
Context {E : Type} `{HostE : Host E}.

Lemma wp_ret {A} (a : A) (Q : A -> assn) C d l : Q a d l -> wp (E:=E) (pret a) Q C d l.
Proof. intros H e. exact H. Qed.

Lemma wp_bind {A B} (m : prog E A) (f : A -> prog E B) Q C d l :
  wp m (fun a => wp (f a) Q C) C d l -> wp (pbind m f) Q C d l.
Proof.
  intros H e. unfold pbind. specialize (H e). destruct (m (World d e l)) as [a [d' e' l']|w]; [|done].
  apply (H e').
Qed.

Lemma wp_try {A B} (m : prog E (res A)) (h : error -> prog E B) (k : A -> prog E B) Q C d l :
  wp m (fun r => match r with Ok a => wp (k a) Q C | Err e => wp (h e) Q C end) C d l ->
  wp (ptry m h k) Q C d l.
Proof.
  intros H. unfold ptry. apply wp_bind. intros e. specialize (H e).
  destruct (m (World d e l)) as [[a|e'] w|w]; done.
Qed.

Lemma wp_mono {A} (m : prog E A) (Q Q' : A -> assn) (C C' : assn) d l :
  wp m Q C d l -> (forall a d' l', Q a d' l' -> Q' a d' l') -> (forall d' l', C d' l' -> C' d' l') ->
  wp m Q' C' d l.
Proof. intros H HQ HC e. specialize (H e). destruct (m (World d e l)); auto. Qed.

Lemma wp_runtime {A} (f : E -> res A * E) (c : res A -> rt_call) Q (C : assn) d l :
  C d l -> (forall r, Q r d (l ++ [(c r, d)])) -> wp (runtime f c) Q C d l.
Proof.
  intros HC HQ e. unfold runtime, alive. cbn. destruct (host_crash e) as [[] e1]; [done|].
  cbn. destruct (f e1) as [r e2]. apply HQ.
Qed.

Lemma wp_store {A} (m : string -> tx db A) Q (C : assn) d l :
  C d l -> (forall err, Q (Err err) d l) ->
  (forall now a d', m now d = Ok (a, d') -> Q (Ok a) d' l) ->
  wp (store m) Q C d l.
Proof.
  intros HC HE HQ e. unfold store, alive. cbn. destruct (host_crash e) as [[] e1]; [done|]. cbn.
  destruct (host_now e1) as [now e2]. destruct (host_fault e2) as [[err|] e3]; [apply HE|].
  unfold atomically. destruct (m now d) as [[a d']|err] eqn:Hm; [by eapply HQ|apply HE].
Qed.

Lemma wp_hook phase Q (C : assn) d l :
  C d l -> (forall err, Q (Err err) d l) -> Q (Ok tt) d l -> wp (hook phase) Q C d l.
Proof.
  intros HC HE HQ e. unfold hook, alive. cbn. destruct (host_crash e) as [[] e1]; [done|]. cbn.
  destruct (host_hook phase e1) as [[err|] e2]; [apply HE|apply HQ].
Qed.
End rules.

(** ** Transactions that leave the active generation alone *)
Definition active_rows (d d' : db) : Prop :=
  forall k, (exists r, db_gens d' !! k = Some r /\ g_status r = GenActive) <->
            (exists r, db_gens d !! k = Some r /\ g_status r = GenActive).

Definition other_same (inst : string) (d d' : db) : Prop :=
  forall k, k.1 <> inst -> db_gens d' !! k = db_gens d !! k /\
    (forall c, db_comps d' !! (k, c) = db_comps d !! (k, c)) /\
    (forall s, db_binds d' !! (k, s) = db_binds d !! (k, s)).

Lemma other_same_refl inst d : other_same inst d d.
Proof. done. Qed.

(** One transaction of the runner: a system step on one installation that
    changes no lease and only appends events. *)
Record runner_step (inst : string) (d d' : db) : Prop := {
  rs_sys : sys_step d d';
  rs_leases : db_leases d' = db_leases d;
  rs_events : exists es, db_events d' = db_events d ++ es;
  rs_other : other_same inst d d'
}.

Lemma effect_other inst d d' : store_effect inst d d' -> other_same inst d d'.
Proof. intros He k Hk. split_and!; [by apply He|intros c; by apply He|intros s; by apply He]. Qed.

Lemma other_same_trans inst d1 d2 d3 :
  other_same inst d1 d2 -> other_same inst d2 d3 -> other_same inst d1 d3.
Proof.
  intros H1 H2 k Hk. destruct (H1 k Hk) as (Hg & Hc & Hb), (H2 k Hk) as (Hg' & Hc' & Hb').
  split_and!; [congruence| |]; intros x; by rewrite ?Hc', ?Hb'.
Qed.

Lemma active_rows_same inst d d' :
  one_active (db_gens d) -> one_active (db_gens d') -> active_rows d d' ->
  active_generation inst d' = active_generation inst d.
Proof.
  intros Ho Ho' Ha. destruct (active_generation inst d) as [n|] eqn:E.
  - apply active_generation_iff; [done|]. by apply Ha, active_generation_Some.
  - apply active_generation_None. intros n r Hr Hs.
    destruct (proj1 (Ha (inst, n))) as (r' & Hr' & Hs'); [eauto|].
    by eapply active_generation_None.
Qed.

Lemma same_gens_active d d' : db_gens d' = db_gens d -> active_rows d d'.
Proof. intros Hg k. by rewrite Hg. Qed.

(** An [UPDATE] whose [WHERE] excludes active rows and that activates none. *)
Lemma update_active_rows P `{!forall k r, Decision (P k r)} f d d' :
  db_gens d' = update P f (db_gens d) ->
  (forall k r, P k r -> g_status r <> GenActive /\ g_status (f r) <> GenActive) -> active_rows d d'.
Proof.
  intros Hg Hf k. rewrite Hg. rewrite lookup_update. destruct (db_gens d !! k) as [r|]; [|naive_solver].
  cbn. case_decide as Hp; [|naive_solver]. destruct (Hf k r Hp). naive_solver.
Qed.

Ltac runner_step_tac c He :=
  split; [right; eapply c; eassumption | apply He | | by apply effect_other].

Lemma RecordNetwork_step plan nid d u d' : RecordNetwork plan nid d = Ok (u, d') ->
  runner_step (p_InstallationID plan) d d' /\ active_rows d d' /\
  (exists r, db_gens d !! plan_key plan = Some r /\ g_operation r = p_OperationID plan /\
     g_status r = GenPrepared /\
     db_gens d' = <[plan_key plan := r <| g_status := GenCandidate |> <| g_network_id := nid |>]> (db_gens d)) /\
  db_comps d' = db_comps d.
Proof.
  intros H. pose proof (RecordNetwork_effect _ _ _ _ _ H) as [He Ha].
  split; [runner_step_tac l_RecordNetwork Ha|]. all: unfold RecordNetwork in H; inv_store.
  - by exists []; rewrite app_nil_r.
  - destruct_and?. split_and!; [|eexists; split_and!; [eassumption|assumption|assumption|]|done].
    + eapply update_active_rows; [reflexivity|]. cbn. intros k r (_ & _ & ->). done.
    + cbn. erewrite update_pk; [reflexivity|pk_side|eassumption|done].
Qed.

(** The [app] component of the plan's generation, and nothing else. *)
Definition app_component (plan : Plan) (d d' : db) : Prop :=
  db_gens d' = db_gens d /\
  exists c c', db_comps d !! (plan_key plan, "app") = Some c /\
    db_comps d' = <[(plan_key plan, "app") := c']> (db_comps d).

Lemma RecordContainer_step plan cid iid h s now d u d' :
  RecordContainer plan cid iid h s now d = Ok (u, d') ->
  runner_step (p_InstallationID plan) d d' /\ app_component plan d d'.
Proof.
  intros H. pose proof (RecordContainer_effect _ _ _ _ _ _ _ _ _ H) as (He & Ha & _).
  split; [runner_step_tac l_RecordContainer Ha|]. all: unfold RecordContainer in H; inv_gen.
  - by exists []; rewrite app_nil_r.
  - split; [done|]. destruct_and?. do 2 eexists. split; [eassumption|].
    cbn. erewrite update_pk; [reflexivity|pk_side|eassumption|done].
Qed.

Lemma RecordState_step plan s v now d u d' :
  RecordState plan s v now d = Ok (u, d') ->
  runner_step (p_InstallationID plan) d d' /\ app_component plan d d'.
Proof.
  intros H. pose proof (RecordState_effect _ _ _ _ _ _ _ H) as (He & Ha).
  split; [runner_step_tac l_RecordState Ha|]. all: unfold RecordState in H; inv_gen.
  - by exists []; rewrite app_nil_r.
  - split; [done|]. destruct_and?. do 2 eexists. split; [eassumption|].
    cbn. erewrite update_pk; [reflexivity|pk_side|eassumption|done].
Qed.

Lemma MarkFailed_step plan cl d u d' : MarkFailed plan cl d = Ok (u, d') ->
  runner_step (p_InstallationID plan) d d' /\ active_rows d d' /\
  exists r, db_gens d !! plan_key plan = Some r /\ g_operation r = p_OperationID plan /\
    db_gens d' = <[plan_key plan := r <| g_status := GenFailed |> <| g_cleanup := cl |>]> (db_gens d).
Proof.
  intros H. pose proof (MarkFailed_effect _ _ _ _ _ H) as [He Ha].
  split; [runner_step_tac l_MarkFailed Ha|]. all: unfold MarkFailed in H; inv_store.
  - by exists []; rewrite app_nil_r.
  - destruct_and?. split_and!; [|eexists; split_and!; [eassumption|assumption|]].
    + eapply update_active_rows; [reflexivity|]. cbn. intros k r (_ & _ & [-> | ->]); done.
    + cbn. erewrite update_pk; [reflexivity|pk_side|eassumption|done].
Qed.

(** Only rows of the migration are added. *)
Definition legacy_growth (d d' : db) : Prop :=
  db_events d' = db_events d /\
  (forall k r, db_gens d !! k = Some r -> db_gens d' !! k = Some r) /\
  forall k r, db_gens d' !! k = Some r -> db_gens d !! k = Some r \/
    (g_operation r = "legacy-migration" /\ g_status r <> GenActive).

Lemma legacy_growth_refl d : legacy_growth d d.
Proof. unfold legacy_growth. auto. Qed.

Lemma legacy_growth_trans d1 d2 d3 : legacy_growth d1 d2 -> legacy_growth d2 d3 -> legacy_growth d1 d3.
Proof.
  intros (E1 & K1 & N1) (E2 & K2 & N2). split_and!; [congruence|auto|].
  intros k r Hr. destruct (N2 k r Hr) as [?|?]; auto.
Qed.

Lemma insert_gen_ignore_growth k r d u d' :
  g_operation r = "legacy-migration" -> g_status r <> GenActive ->
  insert_gen_ignore k r d = Ok (u, d') -> legacy_growth d d'.
Proof.
  intros Ho Hs [->|(Hn & _ & ->)]%insert_gen_ignore_Ok; [apply legacy_growth_refl|].
  split_and!; [done| |]; cbn.
  - intros k' r' Hr'. rewrite lookup_insert_ne; [done|]. congruence.
  - intros k' r' [[<- <-]|[_ ?]]%lookup_insert_Some; auto.
Qed.

Lemma twhen_growth P `{!Decision P} m d u d' :
  (forall v d1, m d = Ok (v, d1) -> legacy_growth d d1) ->
  twhen P m d = Ok (u, d') -> legacy_growth d d'.
Proof. intros Hm [[_ H]|[_ ->]]%twhen_Ok; [eauto|apply legacy_growth_refl]. Qed.

Lemma Backfill_step inst d u d' : BackfillInstallation inst d = Ok (u, d') ->
  runner_step inst d d' /\ legacy_growth d d'.
Proof.
  intros H. pose proof (BackfillInstallation_effect _ _ _ _ H) as [He Ha].
  assert (legacy_growth d d') as Hg.
  2:{ split; [runner_step_tac l_Backfill Ha|done]. exists []. rewrite app_nil_r. apply Hg. }
  clear He Ha. unfold BackfillInstallation in H. apply tbind_Ok in H as (d0 & ? & Hd & H).
  apply tget_Ok in Hd as [-> <-]. destruct (db_ownership d !! inst) as [o|].
  2:{ apply tret_Ok in H as [_ <-]. apply legacy_growth_refl. }
  assert (forall k r da v db, insert_comp_ignore k r da = Ok (v, db) -> legacy_growth da db) as Hc.
  { intros k r da v db [->|(_ & ->)]%insert_comp_ignore_Ok; [apply legacy_growth_refl|].
    unfold legacy_growth. auto. }
  assert (forall k b da v db, insert_binding_ignore k b da = Ok (v, db) -> legacy_growth da db) as Hb.
  { intros k b da v db (m & -> & _)%insert_binding_ignore_Ok. unfold legacy_growth. auto. }
  apply tbind_Ok in H as (? & d1 & H1 & H). apply tbind_Ok in H as (? & d2 & H2 & H).
  apply tbind_Ok in H as (? & d3 & H3 & H). apply tbind_Ok in H as (? & d4 & H4 & H5).
  eapply twhen_growth in H1; [|intros v dx; by apply insert_gen_ignore_growth].
  eapply twhen_growth in H3; [|intros v dx; by apply insert_gen_ignore_growth].
  eapply twhen_growth in H2, H4, H5; eauto using legacy_growth_trans.
Qed.

Lemma legacy_growth_active d d' : legacy_growth d d' -> active_rows d d'.
Proof.
  intros (_ & Hk & Hn) k. split; intros (r & Hr & Hs); [|eauto].
  destruct (Hn k r Hr) as [?|[_ ?]]; [eauto|done].
Qed.

Lemma Prepare_step plan now d u d' : Prepare plan now d = Ok (u, d') ->
  runner_step (p_InstallationID plan) d d' /\ active_rows d d' /\
  db_gens d' = <[plan_key plan := prepared_gen plan now]> (db_gens d).
Proof.
  intros H. pose proof (Prepare_effect _ _ _ _ _ H) as [He Ha].
  split; [runner_step_tac l_Prepare Ha|];
    apply Prepare_Ok in H as (d1 & Hd1 & (m & -> & _) & Hr & _); subst d1; cbn.
  - by exists []; rewrite app_nil_r.
  - split; [|done]. intros k. cbn. destruct (decide (plan_key plan = k)) as [<-|].
    + rewrite lookup_insert_eq. split; [naive_solver|]. intros (r & Hk & Hs).
      destruct (Hr r Hk) as [[?|?] _]; congruence.
    + by rewrite lookup_insert_ne.
Qed.

(** Cleanup marks keep what cleanup relies on: inactive rows stay inactive,
    and networks and containers keep their recorded identities. *)
Definition marks (d d' : db) : Prop :=
  (forall k r, db_gens d !! k = Some r -> exists r', db_gens d' !! k = Some r' /\
     (g_status r <> GenActive -> g_status r' <> GenActive) /\
     g_network_name r' = g_network_name r /\ g_network_id r' = g_network_id r) /\
  (forall k c, db_comps d !! k = Some c ->
     exists c', db_comps d' !! k = Some c' /\ c_container_id c' = c_container_id c).

Lemma same_marks d d' : db_gens d' = db_gens d -> db_comps d' = db_comps d -> marks d d'.
Proof. intros Hg Hc. split; rewrite ?Hg, ?Hc; eauto. Qed.

Lemma MarkRemovedG_step g d u d' : MarkRemoved_generation g d = Ok (u, d') ->
  runner_step (gn_InstallationID g) d d' /\ active_rows d d' /\ marks d d' /\
  forall k, k <> gen_key g -> db_gens d' !! k = db_gens d !! k.
Proof.
  intros H. pose proof (MarkRemoved_generation_effect _ _ _ _ H) as [He Ha].
  split; [runner_step_tac l_MarkRemovedG Ha|]; unfold MarkRemoved_generation in H; inv_store.
  - by exists []; rewrite app_nil_r.
  - split_and!; [|split; [|cbn; eauto]|].
    + eapply update_active_rows; [reflexivity|]. cbn. intros k r (_ & [-> | [-> | ->]]); done.
    + intros k r Hr. cbn. rewrite lookup_update, Hr. cbn. eexists. split; [done|]. by case_decide.
    + intros k Hk. rewrite lookup_update. destruct (db_gens d !! k); [|done]. cbn.
      rewrite decide_False; naive_solver.
Qed.

Lemma MarkRemovedC_step g d u d' : MarkRemoved_components g d = Ok (u, d') ->
  runner_step (gn_InstallationID g) d d' /\ db_gens d' = db_gens d /\ marks d d'.
Proof.
  intros H. pose proof (MarkRemoved_components_effect _ _ _ _ H) as [He Ha].
  split; [runner_step_tac l_MarkRemovedC Ha|]; unfold MarkRemoved_components in H; inv_store.
  - by exists []; rewrite app_nil_r.
  - split; [done|]. split; [cbn; eauto|]. intros k c Hc. cbn. rewrite lookup_update, Hc. cbn.
    eexists. split; [done|]. by case_decide.
Qed.

Lemma MarkCleanupPending_step g d u d' : MarkCleanupPending g d = Ok (u, d') ->
  runner_step (gn_InstallationID g) d d' /\ active_rows d d' /\ marks d d' /\
  forall k, k <> gen_key g -> db_gens d' !! k = db_gens d !! k.
Proof.
  intros H. pose proof (MarkCleanupPending_effect _ _ _ _ H) as [He Ha].
  split; [runner_step_tac l_MarkCleanupPending Ha|]; unfold MarkCleanupPending in H; inv_store.
  - by exists []; rewrite app_nil_r.
  - split_and!; [|split; [|cbn; eauto]|].
    + eapply update_active_rows; [reflexivity|]. cbn. intros k r (_ & ->); done.
    + intros k r Hr. cbn. rewrite lookup_update, Hr. cbn. eexists. split; [done|]. by case_decide.
    + intros k Hk. rewrite lookup_update. destruct (db_gens d !! k); [|done]. cbn.
      rewrite decide_False; naive_solver.
Qed.

Lemma PromoteMigrated_step g nid iid h now d u d' :
  one_active (db_gens d) -> PromoteMigrated g nid iid h now d = Ok (u, d') ->
  runner_step (gn_InstallationID g) d d' /\
  active_generation (gn_InstallationID g) d = None /\
  active_generation (gn_InstallationID g) d' = Some (gn_Generation g) /\
  exists r r', db_gens d !! gen_key g = Some r /\ g_status r = GenVerificationRequired /\
    db_gens d' = <[gen_key g := r']> (db_gens d) /\ g_operation r' = g_operation r.
Proof.
  unfold PromoteMigrated. intros Hone H. pose proof (PromoteMigratedState_effect _ _ _ _ _ _ _ _ _ _ _ H) as [He Ha].
  split; [runner_step_tac l_Promote Ha|]; unfold PromoteMigratedState in H; inv_gen; try done.
  - by exists []; rewrite app_nil_r.
  - fold (gen_key g) in *. destruct_and?.
    match goal with H : db_gens d !! _ = Some ?r |- _ => rename r into r0; rename H into Hr0 end.
    match goal with H : one_active (update _ _ _) |- _ => rename H into Hone' end.
    clear He Ha. pk_simpl. cbn. assert (forall n r, db_gens d !! (gn_InstallationID g, n) = Some r -> g_status r <> GenActive) as Hno.
    { intros n r Hr Hs. destruct (decide (n = gn_Generation g)) as [->|Hne].
      - unfold gen_key in Hr0. congruence.
      - assert ((gn_InstallationID g, n) = gen_key g) as Heq; [|unfold gen_key in Heq; congruence].
        eapply (Hone' (gen_key g) _ ltac:(apply lookup_insert_eq)); [done| |exact Hs|done].
        rewrite lookup_insert_ne; [done|]. unfold gen_key. congruence. }
    split_and!.
    + by apply active_generation_None.
    + apply active_generation_iff; [done|]. eexists. cbn. unfold gen_key. by rewrite lookup_insert_eq.
    + do 2 eexists. split_and!; [eassumption|assumption|reflexivity|done].
Qed.

Lemma Commit_step plan now d u d' :
  one_active (db_gens d) -> Commit plan now d = Ok (u, d') ->
  runner_step (p_InstallationID plan) d d' /\
  active_generation (p_InstallationID plan) d' = Some (p_Generation plan) /\
  forall n, active_generation (p_InstallationID plan) d = Some n ->
    n = p_ExpectedGeneration plan /\
    (p_AllowMissingActive plan = false ->
     exists r, db_gens d' !! (p_InstallationID plan, n) = Some r /\ g_status r = GenRetained).
Proof.
  intros Hone H. pose proof (Commit_effect _ _ _ _ _ Hone H) as [He Ha].
  pose proof (se_active _ _ _ He Hone) as Hone'.
  split; [runner_step_tac l_Commit Ha|]; apply Commit_Ok in H as [Hg ->]; try done.
  - by eexists.
  - pose proof Hg as (_ & Hb & g & c & Hgk & _ & _ & Hgs & _). unfold plan_key in Hgk. split.
    + apply active_generation_iff; [done|]. cbn. rewrite map_lookup_imap, Hgk. cbn.
      eexists. split; [done|]. unfold commit_row. by rewrite decide_True.
    + intros n Hn. unfold baseline in Hb. rewrite Hn in Hb. cbn in Hb. split; [done|]. intros Hal.
      apply active_generation_Some in Hn as (r & Hr & Hs). cbn. rewrite map_lookup_imap, Hr. cbn.
      eexists. split; [done|]. unfold commit_row. rewrite decide_False.
      2:{ unfold plan_key. intros [= ->]. congruence. }
      by rewrite decide_True, Hal.
Qed.

Lemma record_step `{Ev : Evidence} op token phase outcome facts now d u d' inst :
  sys_inv d -> record_phase op token phase outcome facts now d = Ok (u, d') ->
  runner_step inst d d' /\ db_gens d' = db_gens d /\ db_comps d' = db_comps d /\
  exists e, db_events d' = db_events d ++ [e] /\ ev_operation e = op /\
    ev_token e = Some token /\ ev_kind e = "lifecycle_phase_" +:+ outcome /\ ev_phase e = phase.
Proof.
  intros Hinv H. apply record_phase_ok in H as (Hs & (Hg & Hc & Hb & _) & Hl & _ & e & He & Hrest).
  split_and!; [|done..|eauto]. split; [by left|done|eauto|].
  intros k Hk. rewrite Hg, Hc, Hb. done.
Qed.

(** ** The invariant of a replacement *)

(** The calls that only look. *)
Definition observes (c : rt_call) : bool :=
  match c with
  | CObserveImage _ _ | CObserveNetwork _ _ | CObserveContainer _ _ | CWait _ _ _ | CObserveIdentity _ => true
  | _ => false
  end.

(** ** What the queries return *)
Lemma elem_of_components_of k d cid c :
  (cid, c) ∈ components_of k d <-> db_comps d !! (k, cid) = Some c.
Proof.
  unfold components_of. rewrite elem_of_sort_by, list_elem_of_fmap. split.
  - intros ([[k' cid'] c'] & [= -> ->] & [Hc Hk]%elem_of_select). cbn in *. by subst.
  - intros Hc. exists ((k, cid), c). split; [done|]. by apply elem_of_select.
Qed.

Lemma elem_of_generationSelect P `{!forall k r, Decision (P k r)} d g :
  g ∈ generationSelect P d <->
  exists k r cid c, db_gens d !! k = Some r /\ P k r /\ db_comps d !! (k, cid) = Some c /\
    g = scanGeneration k r cid c.
Proof.
  unfold generationSelect. rewrite list_elem_of_In, in_flat_map. split.
  - intros ([k r] & Hk & Hg). apply list_elem_of_In, elem_of_select in Hk as [Hk HP].
    apply in_map_iff in Hg as ([cid c] & <- & Hc). apply list_elem_of_In, elem_of_components_of in Hc.
    cbn in *. eauto 10.
  - intros (k & r & cid & c & Hk & HP & Hc & ->). exists (k, r). split.
    + by apply list_elem_of_In, elem_of_select.
    + apply in_map_iff. exists (cid, c). split; [done|]. by apply list_elem_of_In, elem_of_components_of.
Qed.

Lemma head_merge_sort {A} (R : relation A) `{!forall x y, Decision (R x y)} l x :
  head (merge_sort R l) = Some x -> x ∈ l.
Proof. intros Hx%head_Some_elem_of. by rewrite merge_sort_Permutation in Hx. Qed.

(** A loaded generation and the rows it was read from. *)
Definition loaded (inst : string) (d : db) (g : Generation) (r : genRow) : Prop :=
  gn_InstallationID g = inst /\ db_gens d !! gen_key g = Some r /\
  g_network_name r = gn_NetworkName g /\ g_network_id r = gn_NetworkID g /\
  exists cid c, db_comps d !! (gen_key g, cid) = Some c /\
    c_container_id c = cm_ContainerID (gn_Component g).

Lemma scan_loaded k r cid c d bs :
  db_gens d !! k = Some r -> db_comps d !! (k, cid) = Some c ->
  loaded k.1 d (scanGeneration k r cid c <| gn_Bindings := bs |>) r.
Proof. intros Hr Hc. unfold loaded, gen_key. destruct k. cbn. split_and!; eauto. Qed.

Lemma ByOperation_Ok op d g d' : ByOperation op d = Ok (g, d') ->
  d' = d /\ exists r, loaded (gn_InstallationID g) d g r /\ g_operation r = op.
Proof.
  unfold ByOperation. intros H. inv_tx. split; [done|].
  match goal with H : head _ = Some _ |- _ => apply head_merge_sort, elem_of_generationSelect in H as (k & r & cid & c & Hk & Ho & Hc & ->) end.
  exists r. split; [|done]. by apply scan_loaded.
Qed.

Lemma Current_Ok inst d g d' : Current inst d = Ok (g, d') ->
  d' = d /\ exists r, loaded inst d g r.
Proof.
  unfold Current. intros H. inv_tx. split; [done|].
  match goal with H : head _ = Some _ |- _ => apply head_merge_sort, elem_of_generationSelect in H as (k & r & cid & c & Hk & (Hi & _) & Hc & ->) end.
  exists r. rewrite <- Hi. by apply scan_loaded.
Qed.

Lemma removed_generation_Ok inst n d g d' : removed_generation inst n d = Ok (g, d') ->
  d' = d /\ gn_Status g = "removed".
Proof.
  unfold removed_generation. intros H. inv_tx. split; [done|].
  match goal with H : head _ = Some _ |- _ => apply head_Some_elem_of, elem_of_generationSelect in H as (k & r & cid & c & Hk & (_ & Hs & _) & _ & ->) end.
  cbn. by rewrite Hs.
Qed.

Lemma OlderRetained_Ok inst keep d gs d' : OlderRetained inst keep d = Ok (gs, d') ->
  d' = d /\ forall g, g ∈ gs -> gn_Generation g <> keep /\
    exists r, loaded inst d g r /\ g_status r <> GenActive.
Proof.
  unfold OlderRetained. intros H. inv_tx. split; [done|].
  intros g (g0 & -> & Hg)%list_elem_of_fmap. rewrite merge_sort_Permutation in Hg.
  apply elem_of_generationSelect in Hg as (k & r & cid & c & Hk & (Hi & Ha & Hn) & Hc & ->).
  split; [done|]. exists r. rewrite <- Hi. split; [by apply scan_loaded|].
  destruct Ha as [-> | [-> | [-> _]]]; done.
Qed.

(** A generation that was migrated and waits for its verification. *)
Definition waiting (inst : string) (d : db) (n : Z) : Prop :=
  exists r, db_gens d !! (inst, n) = Some r /\ g_status r = GenVerificationRequired.

(** Where the active generation of an installation may stand before a commit of
    a program started on [d0]: where it stood, or, if there was none, on a
    generation that waits for verification in [d0] or that the backfill of
    [d0] makes of the record of an older version. *)
Definition base_of (inst : string) (d0 : db) (b : option Z) : Prop :=
  b = active_generation inst d0 \/
  (active_generation inst d0 = None /\ exists n, b = Some n /\
     (waiting inst d0 n \/ exists d1, BackfillInstallation inst d0 = Ok (tt, d1) /\ waiting inst d1 n)).

Lemma Backfill_none inst d u d1 :
  db_ownership d !! inst = None -> BackfillInstallation inst d = Ok (u, d1) -> d1 = d.
Proof. unfold BackfillInstallation. intros Ho H. unfold tbind, tget in H. rewrite Ho in H. by injection H. Qed.

(** Without a generation or a record of an older version there is no base. *)
Lemma base_of_nothing inst d b :
  db_gens d = ∅ -> db_ownership d !! inst = None -> base_of inst d b -> b = None.
Proof.
  intros Hg Ho [-> | (_ & n & -> & [(r & Hr & _)|(d1 & Hf & r & Hr & _)])].
  - destruct (active_generation inst d) as [n|] eqn:Ha; [|done].
    apply active_generation_Some in Ha as (r & Hr & _). by rewrite Hg, lookup_empty in Hr.
  - by rewrite Hg, lookup_empty in Hr.
  - apply Backfill_none in Hf as ->; [|done]. by rewrite Hg, lookup_empty in Hr.
Qed.

Section invariant.
Context `{Ev : Evidence} (sha : string -> string) (plan0 : Plan) (d0 : db).
Notation op := (p_OperationID plan0).
Notation inst := (p_InstallationID plan0).
Notation token := (p_FencingToken plan0).
Notation gen := (p_Generation plan0).
Notation expected := (p_ExpectedGeneration plan0).
Notation allow := (p_AllowMissingActive plan0).

(** The operation recorded, since the start, its intent to enter a phase. *)
Definition intended (d : db) (phase : string) : Prop :=
  exists e, e ∈ drop (length (db_events d0)) (db_events d) /\ ev_operation e = op /\
    ev_token e = Some token /\ ev_kind e = "lifecycle_phase_intent" /\ ev_phase e = phase.

(** A container may be removed when the record of some generation of the
    installation that is not active leads to it: the recorded container was
    observed and exists under the removed identity. *)
Definition removable (l : log) (d : db) (id : string) : Prop :=
  exists k r cid c o d1, db_gens d !! k = Some r /\ k.1 = inst /\ g_status r <> GenActive /\
    db_comps d !! (k, cid) = Some c /\
    (CObserveContainer (c_container_id c) (Ok o), d1) ∈ l /\ ob_Exists o = true /\ ob_ID o = id.

(** A network likewise, with the recorded identity. *)
Definition removable_network (l : log) (d : db) (name : string) : Prop :=
  exists k r o d1, db_gens d !! k = Some r /\ k.1 = inst /\ g_status r <> GenActive /\
    g_network_name r = name /\ (CObserveNetwork name (Ok o), d1) ∈ l /\
    nw_Exists o = true /\ nw_ID o = g_network_id r.

(** A container this program created. *)
Definition created (l : log) (id : string) : Prop :=
  exists p d, (CCreateContainer p (Ok id), d) ∈ l.

(** The container of the generation that was current at the start. *)
Definition old_container (id : string) : Prop :=
  exists d1 g, BackfillInstallation inst d0 = Ok (tt, d1) /\ Current inst d1 = Ok (g, d1) /\
    cm_ContainerID (gn_Component g) = id.

(** The intent a call needs: that of its own phase.  The candidate is started
    under the intent to start it, the old container is stopped under the
    intent to stop it; what was created may be stopped again, and the old
    container started again where the plan allows a rollback. *)
Definition covered (l : log) (c : rt_call) (d : db) : Prop :=
  match c with
  | CPull _ _ => intended d PhaseBeforePull
  | CCreateNetwork _ _ => intended d PhaseBeforeNetwork
  | CCreateContainer _ _ => intended d PhaseBeforeContainer
  | CStart id _ =>
      (created l id /\ intended d PhaseBeforeCandidateStart) \/
      (p_RollbackSafe plan0 = true /\ old_container id /\ intended d PhaseBeforeContainer)
  | CStop id _ =>
      (old_container id /\ intended d PhaseBeforeOldStop) \/
      (created l id /\ intended d PhaseBeforeContainer) \/
      (removable l d id /\ intended d "candidate_cleanup")
  | CRemove _ _ | CRemoveNetwork _ _ => intended d "candidate_cleanup" \/ intended d PhaseCleanup
  | CObserveImage _ _ | CObserveNetwork _ _ | CObserveContainer _ _ | CWait _ _ _ | CObserveIdentity _ => True
  end.

Definition call_ok (l : log) (c : rt_call) (d : db) : Prop :=
  covered l c d /\
  (forall id r, c = CRemove id r -> removable l d id) /\
  (forall name r, c = CRemoveNetwork name r -> removable_network l d name).

Definition log_ok (l : log) : Prop :=
  forall l1 c d l2, l = l1 ++ (c, d) :: l2 -> call_ok l1 c d.

Record J (d : db) (l : log) : Prop := {
  j_inv : sys_inv d;
  j_run : rtc sys_step d0 d;
  j_leases : db_leases d = db_leases d0;
  j_events : exists es, db_events d = db_events d0 ++ es;
  j_other : other_same inst d0 d;
  j_log : log_ok l
}.

(** Where the active generation stands before the commit: where it was, or on
    a migrated generation that was waiting for verification. *)
Definition Base (b : option Z) : Prop := base_of inst d0 b.

(** The candidate was observed running exactly as planned. *)
Definition Verified (l : log) : Prop :=
  exists image d1 network d2 cid o d3,
    (CObserveImage (p_Image plan0) (Ok image), d1) ∈ l /\
    imageContainsDigest image (p_Image plan0) = true /\
    (CObserveNetwork (p_NetworkName plan0) (Ok network), d2) ∈ l /\
    (CObserveContainer cid (Ok o), d3) ∈ l /\
    verifyCandidate (with_image plan0 image) network o RuntimeRunning = Ok tt.

(** Generations created by this operation. *)
Definition own_rows (P : genRow -> Prop) (d : db) : Prop :=
  forall k r, db_gens d !! k = Some r -> g_operation r = op -> k = plan_key plan0 /\ P r.

Definition in_progress (r : genRow) : Prop := g_status r = GenPrepared \/ g_status r = GenCandidate.
Definition failed_clean (r : genRow) : Prop := g_status r = GenFailed /\ g_cleanup r = CleanupClean.

(** Before the commit, with the rows this operation created so far. *)
Record Before (P : genRow -> Prop) (b : option Z) (d : db) (l : log) : Prop := {
  b_J : J d l;
  b_base : Base b;
  b_active : active_generation inst d = b;
  b_own : own_rows P d
}.

(** After the commit. *)
Record After (b : option Z) (d : db) (l : log) : Prop := {
  a_J : J d l;
  a_base : Base b;
  a_active : active_generation inst d = Some gen;
  a_verified : Verified l;
  a_kept : forall n, b = Some n -> n = expected /\
    (allow = false -> exists r, db_gens d !! (inst, n) = Some r /\ g_status r = GenRetained)
}.

(** What holds whenever the process stops. *)
Definition Stop (d : db) (l : log) : Prop :=
  (exists P b, Before P b d l) \/ (exists b, After b d l).

Lemma Before_Stop P b d l : Before P b d l -> Stop d l.
Proof. left. eauto. Qed.
Lemma After_Stop b d l : After b d l -> Stop d l.
Proof. right. eauto. Qed.

(** *** Steps *)
Lemma J_step d d' l : J d l -> runner_step inst d d' -> J d' l.
Proof.
  intros [] []. destruct j_events0 as [es He], rs_events0 as [es' He'].
  destruct (sys_step_effect d d' j_inv0 rs_sys0) as (Hinv & _).
  split; [done|by eapply rtc_r|congruence| |by eapply other_same_trans|done].
  exists (es ++ es'). by rewrite He', He, app_assoc.
Qed.

Lemma log_ok_snoc l c d : log_ok l -> call_ok l c d -> log_ok (l ++ [(c, d)]).
Proof.
  intros Hl Hc l1 c1 d1 l2 Heq. destruct l2 as [|x l2 _] using rev_ind.
  - apply app_inj_tail in Heq as [-> [= -> ->]]. done.
  - rewrite app_comm_cons, app_assoc in Heq. apply app_inj_tail in Heq as [-> _]. by eapply Hl.
Qed.

Lemma J_call d l c : J d l -> call_ok l c d -> J d (l ++ [(c, d)]).
Proof. intros [] Hc. split; auto using log_ok_snoc. Qed.

(** A call that only looks needs no intent. *)
Lemma call_ok_observe l c d : observes c = true -> call_ok l c d.
Proof. intros Hn. unfold call_ok. destruct c; cbn in Hn; try done; split_and!; naive_solver. Qed.

(** A covered call that removes nothing. *)
Lemma call_ok_covered l c d : covered l c d ->
  (forall id r, c <> CRemove id r) -> (forall name r, c <> CRemoveNetwork name r) -> call_ok l c d.
Proof. intros Hc H1 H2. split_and!; [done|intros ? ? ->; by destruct (H1 id r)|intros ? ? ->; by destruct (H2 name r)]. Qed.

Lemma intended_step d d' l p : J d l -> runner_step inst d d' -> intended d p -> intended d' p.
Proof.
  intros HJ Hs (e & He & Hrest). destruct (j_events _ _ HJ) as [es Hd], (rs_events _ _ _ Hs) as [es' Hd'].
  exists e. split; [|done]. rewrite Hd, drop_app_length in He.
  rewrite Hd', Hd, <- app_assoc, drop_app_length. apply elem_of_app. by left.
Qed.

(** *** Assertions that survive observation and phase records *)
Definition Intents (ps : list string) (d : db) : Prop := forall p, p ∈ ps -> intended d p.

Definition with_intent (outcome phase : string) (ps : list string) : list string :=
  if decide (outcome = "intent") then phase :: ps else ps.

Record framed (A : list string -> assn) : Prop := {
  fr_stop ps d l : A ps d l -> Stop d l;
  fr_J ps d l : A ps d l -> J d l;
  fr_intents ps d l : A ps d l -> Intents ps d;
  fr_record ps d l d' : A ps d l -> runner_step inst d d' -> db_gens d' = db_gens d ->
    A ps d' l;
  fr_more ps ps' d l : A ps d l -> Intents ps' d -> A ps' d l;
  fr_call ps d l c : A ps d l -> call_ok l c d -> A ps d (l ++ [(c, d)])
}.

Definition BeforeAt (P : genRow -> Prop) (b : option Z) (ps : list string) (d : db) (l : log) : Prop :=
  Before P b d l /\ Intents ps d.
Definition AfterAt (b : option Z) (ps : list string) (d : db) (l : log) : Prop :=
  After b d l /\ Intents ps d.

Lemma Intents_step ps d d' l : J d l -> runner_step inst d d' -> Intents ps d -> Intents ps d'.
Proof. intros HJ Hs Hi p Hp. eapply intended_step; eauto. Qed.

Lemma Before_step P P' b d d' l :
  Before P b d l -> runner_step inst d d' -> active_rows d d' -> own_rows P' d' ->
  Before P' b d' l.
Proof.
  intros [HJ Hb Ha Ho] Hs Hact Hown. pose proof (J_step _ _ _ HJ Hs) as HJ'.
  split; [done..| |done]. rewrite <- Ha. apply active_rows_same; [apply HJ|apply HJ'|done].
Qed.

Lemma Verified_app l l' : Verified l -> Verified (l ++ l').
Proof.
  intros (image & d1 & network & d2 & cid & o & d3 & ? & ? & ? & ? & ?).
  exists image, d1, network, d2, cid, o, d3. rewrite !elem_of_app. auto 10.
Qed.

Lemma After_step b d d' l :
  After b d l -> runner_step inst d d' -> active_rows d d' ->
  (allow = false -> db_gens d' !! (inst, expected) = db_gens d !! (inst, expected)) ->
  After b d' l.
Proof.
  intros [HJ Hb Ha Hv Hk] Hs Hact Hkeep. pose proof (J_step _ _ _ HJ Hs) as HJ'.
  split; [done..| |done|].
  - rewrite <- Ha. apply active_rows_same; [apply HJ|apply HJ'|done].
  - intros n Hn. destruct (Hk n Hn) as [-> Hr]. split; [done|]. intros Hal. rewrite Hkeep; auto.
Qed.

Lemma BeforeAt_framed P b : framed (BeforeAt P b).
Proof.
  split.
  - intros ps d l [H _]. by eapply Before_Stop.
  - intros ps d l [H _]. apply H.
  - by intros ps d l [_ H].
  - intros ps d l d' [H Hi] Hs Hg. split.
    + eapply Before_step; [done..|by apply same_gens_active|]. unfold own_rows. rewrite Hg. apply H.
    + eapply Intents_step; [apply H|done..].
  - by intros ps ps' d l [H _] Hi.
  - intros ps d l c [[HJ ? ? ?] Hi] Hc. split; [|done]. split; auto using J_call.
Qed.

Lemma AfterAt_framed b : framed (AfterAt b).
Proof.
  split.
  - intros ps d l [H _]. by eapply After_Stop.
  - intros ps d l [H _]. apply H.
  - by intros ps d l [_ H].
  - intros ps d l d' [H Hi] Hs Hg. split.
    + eapply After_step; [done..|by apply same_gens_active|]. by rewrite Hg.
    + eapply Intents_step; [apply H|done..].
  - by intros ps ps' d l [H _] Hi.
  - intros ps d l c [[HJ ? ? ? ?] Hi] Hc. split; [|done]. split; auto using J_call, Verified_app.
Qed.

(** A plan that differs from the given one only in what the image adds. *)
Definition like (plan : Plan) : Prop := exists c, plan = plan0 <| p_Container := c |>.

Section framed_rules.
Context {E : Type} `{HostE : Host E} (A : list string -> assn) (HA : framed A).

Lemma wp_record plan phase outcome facts (Q : res unit -> assn) ps d l :
  like plan -> A ps d l -> (forall err, Q (Err err) d l) ->
  (forall d', A (with_intent outcome phase ps) d' l -> db_gens d' = db_gens d ->
     db_comps d' = db_comps d -> Q (Ok tt) d' l) ->
  wp (E:=E) (store (record_phase (p_OperationID plan) (p_FencingToken plan) phase outcome facts))
    Q Stop d l.
Proof.
  intros [c ->] HAd HE HQ. apply wp_store; [by eapply HA|done|]. cbn. intros now [] d' H.
  pose proof (fr_J _ HA _ _ _ HAd) as HJ.
  apply (record_step _ _ _ _ _ _ _ _ _ inst (j_inv _ _ HJ)) in H
    as (Hs & Hg & Hc & e & He & Ho & Ht & Hk & Hp).
  apply HQ; [|done..]. assert (A ps d' l) as HAd' by by eapply (fr_record _ HA).
  unfold with_intent. case_decide as Hout; [|done]. eapply (fr_more _ HA); [exact HAd'|].
  intros p [->|Hin]%elem_of_cons; [|by eapply (fr_intents _ HA)].
  exists e. destruct (j_events _ _ HJ) as [es Hd]. rewrite He, Hd, <- app_assoc, drop_app_length.
  split_and!; try done; [apply elem_of_app; right; by apply list_elem_of_singleton|by rewrite Hk, Hout].
Qed.

Lemma wp_checkpoint plan phase outcome facts (Q : res unit -> assn) ps d l :
  like plan -> A ps d l ->
  (forall err d', A ps d' l -> db_gens d' = db_gens d -> db_comps d' = db_comps d -> Q (Err err) d' l) ->
  (forall d', A (with_intent outcome phase ps) d' l -> db_gens d' = db_gens d ->
     db_comps d' = db_comps d -> Q (Ok tt) d' l) ->
  wp (E:=E) (checkpoint plan phase outcome facts) Q Stop d l.
Proof.
  intros Hl HAd HE HQ. unfold checkpoint. apply wp_try. eapply wp_record; [done..| |].
  - intros err. apply wp_ret. by apply HE.
  - intros d' HAd' Hg Hc. apply wp_hook; [by eapply HA| |by apply HQ].
    intros err. apply HE; [|done..]. eapply (fr_more _ HA); [exact HAd'|].
    intros p Hp. eapply (fr_intents _ HA); [exact HAd'|]. unfold with_intent. case_decide; [by right|done].
Qed.

Lemma wp_call {B} (f : E -> res B * E) c (Q : res B -> assn) ps d l :
  A ps d l -> (forall r, call_ok l (c r) d) ->
  (forall r, A ps d (l ++ [(c r, d)]) -> Q r d (l ++ [(c r, d)])) ->
  wp (runtime f c) Q Stop d l.
Proof.
  intros HAd Hc HQ. apply wp_runtime; [by eapply HA|]. intros r. apply HQ. by apply HA.
Qed.

Lemma wp_look {B} (f : E -> res B * E) c (Q : res B -> assn) ps d l :
  A ps d l -> (forall r, observes (c r) = true) ->
  (forall r, A ps d (l ++ [(c r, d)]) -> Q r d (l ++ [(c r, d)])) ->
  wp (runtime f c) Q Stop d l.
Proof. intros HAd Hc. eapply wp_call; [done|]. intros r. by apply call_ok_observe. Qed.

Lemma wp_verifyStored g want (Q : res ContainerObservation -> assn) ps d l :
  A ps d l -> (forall r l', A ps d l' -> l ⊆ l' -> Q r d l') ->
  wp (E:=E) (verifyStoredGeneration sha g want) Q Stop d l.
Proof.
  intros HAd HQ. unfold verifyStoredGeneration. apply wp_try. eapply wp_look; [done..|].
  intros [o|e] HAd'; apply wp_ret; apply HQ; set_solver.
Qed.

Lemma wp_observeRepairable g (Q : res ContainerObservation -> assn) ps d l :
  A ps d l -> (forall r l', A ps d l' -> l ⊆ l' -> Q r d l') ->
  wp (E:=E) (observeRepairableActive sha g) Q Stop d l.
Proof.
  intros HAd HQ. unfold observeRepairableActive. apply wp_try. eapply wp_look; [done..|].
  intros [o|e] H1; [|apply wp_ret, HQ; set_solver]. destruct (negb (ob_Exists o)).
  { apply wp_try. eapply wp_look; [done..|].
    intros [o2|e] H2; [destruct (ob_Exists o2)|]; apply wp_ret, HQ; set_solver. }
  destruct (negb _); [apply wp_ret, HQ; set_solver|]. case_decide; [|apply wp_ret, HQ; set_solver].
  apply wp_bind. eapply wp_look; [done..|].
  intros [n|e] H2; [destruct (_ && _)|]; apply wp_ret, HQ; set_solver.
Qed.

(** What the record of an inactive generation allows to remove. *)
Lemma loaded_removable d l g r o d1 :
  loaded inst d g r -> g_status r <> GenActive ->
  (CObserveContainer (cm_ContainerID (gn_Component g)) (Ok o), d1) ∈ l -> ob_Exists o = true ->
  removable l d (ob_ID o).
Proof.
  intros (Hi & Hr & _ & _ & cid & c & Hc & Hid) Hs Hin Hex.
  exists (gen_key g), r, cid, c, o, d1. rewrite Hid. done.
Qed.

Lemma loaded_removable_network d l g r o d1 :
  loaded inst d g r -> g_status r <> GenActive ->
  (CObserveNetwork (gn_NetworkName g) (Ok o), d1) ∈ l -> nw_Exists o = true ->
  nw_ID o = gn_NetworkID g -> removable_network l d (gn_NetworkName g).
Proof.
  intros (Hi & Hr & Hn & Hnid & _) Hs Hin Hex Hid.
  exists (gen_key g), r, o, d1. split_and!; try done. congruence.
Qed.

Lemma wp_cleanup_container g r (Q : res unit -> assn) ps d l :
  loaded inst d g r -> g_status r <> GenActive -> A ps d l -> "candidate_cleanup" ∈ ps ->
  (forall x l', A ps d l' -> l ⊆ l' -> Q x d l') ->
  wp (E:=E) (cleanup_candidate_container g) Q Stop d l.
Proof.
  intros Hg Hs HAd Hp HQ. unfold cleanup_candidate_container. case_decide; [by apply wp_ret, HQ|].
  apply wp_bind. eapply wp_look; [done..|]. intros [o|e] H1; [|apply wp_ret, HQ; set_solver].
  destruct (ob_Exists o) eqn:Hex; cbn; [|apply wp_ret, HQ; set_solver].
  case_decide; [apply wp_ret, HQ; set_solver|]. set (l1 := l ++ _) in *.
  assert (l ⊆ l1) as Hsub by set_solver.
  assert ((CObserveContainer (cm_ContainerID (gn_Component g)) (Ok o), d) ∈ l1) as Hin by set_solver.
  clearbody l1.
  assert (forall l2, A ps d l2 -> l1 ⊆ l2 ->
    wp (E:=E) (try* _ := remove_container (ob_ID o) catch e => pret (Err e) in
      run* removed := observe_container (ob_ID o) in
      match removed with
      | Ok removed =>
          if decide (ob_State removed = RuntimeMissing) then pret (Ok tt)
          else pret (Err (ErrMsg "candidate container removal could not be verified"))
      | Err _ => pret (Err (ErrMsg "candidate container removal could not be verified"))
      end) Q Stop d l2) as Hrest.
  { intros l2 H2 Hsub2. apply wp_try. eapply wp_call; [done| |].
    - intros x. split_and!; [left; by eapply (fr_intents _ HA)| |done].
      intros id x' [= <- _]. eapply loaded_removable; eauto.
    - intros [x|e] H3; [|apply wp_ret, HQ; set_solver]. apply wp_bind. eapply wp_look; [done..|].
      intros [o2|e] H4; [case_decide|]; apply wp_ret, HQ; set_solver. }
  apply wp_bind. case_decide as Hrun.
  - eapply wp_call; [done| |].
    + intros x. apply call_ok_covered; [|done..]. do 2 right.
      split; [by eapply loaded_removable|by eapply (fr_intents _ HA)].
    + intros x H2. apply Hrest; set_solver.
  - apply wp_ret. by apply Hrest.
Qed.

Lemma wp_cleanup_network g r (Q : res unit -> assn) ps d l :
  loaded inst d g r -> g_status r <> GenActive -> A ps d l -> "candidate_cleanup" ∈ ps ->
  (forall x l', A ps d l' -> l ⊆ l' -> Q x d l') ->
  wp (E:=E) (cleanup_candidate_network g) Q Stop d l.
Proof.
  intros Hg Hs HAd Hp HQ. unfold cleanup_candidate_network. case_decide; [by apply wp_ret, HQ|].
  apply wp_try. eapply wp_look; [done..|]. intros [o|e] H1; [|apply wp_ret, HQ; set_solver].
  destruct (nw_Exists o) eqn:Hex; cbn; [|apply wp_ret, HQ; set_solver].
  case_decide as Hid; [apply wp_ret, HQ; set_solver|].
  apply wp_try. eapply wp_call; [done| |].
  - intros x. split_and!; [left; by eapply (fr_intents _ HA)|done|].
    intros name x' [= <- _]. eapply (loaded_removable_network _ _ _ _ o d); eauto. set_solver.
  - intros [x|e] H2; [|apply wp_ret, HQ; set_solver]. apply wp_bind. eapply wp_look; [done..|].
    intros [o2|e] H3; [destruct (nw_Exists o2)|]; apply wp_ret, HQ; set_solver.
Qed.

Lemma wp_older_container plan g r (Q : res unit -> assn) ps d l :
  loaded inst d g r -> g_status r <> GenActive -> A ps d l -> PhaseCleanup ∈ ps ->
  (forall x l', A ps d l' -> l ⊆ l' -> Q x d l') ->
  wp (E:=E) (cleanup_older_container sha plan g) Q Stop d l.
Proof.
  intros Hg Hs HAd Hp HQ. unfold cleanup_older_container. apply wp_try. eapply wp_look; [done..|].
  intros [o|e] H1; [|apply wp_ret, HQ; set_solver].
  destruct (ob_Exists o) eqn:Hex; cbn; [|apply wp_ret, HQ; set_solver]. set (l1 := l ++ _) in *.
  assert (l ⊆ l1) as Hsub by set_solver.
  assert ((CObserveContainer (cm_ContainerID (gn_Component g)) (Ok o), d) ∈ l1) as Hin by set_solver.
  clearbody l1. apply wp_try.
  assert (forall (x : res ContainerObservation) l2, A ps d l2 -> l1 ⊆ l2 ->
    match x with
    | Ok _ => wp (E:=E) (try* _ := remove_container (ob_ID o) catch e => pret (Err e) in
        try* removed := observe_container (ob_ID o) catch e => pret (Err e) in
        pret (if decide (ob_State removed = RuntimeMissing) then Ok tt
              else Err (ErrMsg "container still present"))) Q Stop
    | Err e => wp (E:=E) (pret (Err e)) Q Stop
    end d l2) as Hrest.
  { intros [x|e] l2 H2 Hsub2; [|apply wp_ret, HQ; set_solver]. apply wp_try. eapply wp_call; [done| |].
    - intros y. split_and!; [right; by eapply (fr_intents _ HA)| |done].
      intros id x' [= <- _]. eapply loaded_removable; eauto.
    - intros [y|e] H3; [|apply wp_ret, HQ; set_solver]. apply wp_try. eapply wp_look; [done..|].
      intros [o2|e] H4; apply wp_ret, HQ; set_solver. }
  destruct (_ && _); [eapply wp_observeRepairable|eapply wp_verifyStored]; try done;
    intros [x|e] l2 H2 Hsub2; exact (Hrest _ l2 H2 Hsub2).
Qed.

Lemma wp_older_network g r (Q : res unit -> assn) ps d l :
  loaded inst d g r -> g_status r <> GenActive -> A ps d l -> PhaseCleanup ∈ ps ->
  (forall x l', A ps d l' -> l ⊆ l' -> Q x d l') ->
  wp (E:=E) (cleanup_older_network g) Q Stop d l.
Proof.
  intros Hg Hs HAd Hp HQ. unfold cleanup_older_network.
  apply wp_try. eapply wp_look; [done..|]. intros [o|e] H1; [|apply wp_ret, HQ; set_solver].
  destruct (nw_Exists o) eqn:Hex; cbn; [|apply wp_ret, HQ; set_solver].
  case_decide as Hid; [apply wp_ret, HQ; set_solver|].
  apply wp_try. eapply wp_call; [done| |].
  - intros x. split_and!; [right; by eapply (fr_intents _ HA)|done|].
    intros name x' [= <- _]. eapply (loaded_removable_network _ _ _ _ o d); eauto. set_solver.
  - intros [x|e] H2; [|apply wp_ret, HQ; set_solver]. apply wp_try. eapply wp_look; [done..|].
    intros [o2|e] H3; apply wp_ret, HQ; set_solver.
Qed.
End framed_rules.

Lemma marks_loaded d d' g r :
  marks d d' -> loaded inst d g r -> g_status r <> GenActive ->
  exists r', loaded inst d' g r' /\ g_status r' <> GenActive.
Proof.
  intros [Hg Hc] (Hi & Hr & Hn & Hid & cid & c & Hcc & Hcid) Hs.
  destruct (Hg _ _ Hr) as (r' & Hr' & Hs' & Hn' & Hid'), (Hc _ _ Hcc) as (c' & Hc' & Hcid').
  exists r'. split; [|auto]. split_and!; try congruence. exists cid, c'. split; [done|congruence].
Qed.

Section programs.
Context {E : Type} `{HostE : Host E}.

Lemma BeforeAt_weaken P P' b ps ps' d l :
  BeforeAt P b ps d l -> (forall r, P r -> P' r) -> (forall p, p ∈ ps' -> p ∈ ps) -> BeforeAt P' b ps' d l.
Proof.
  intros [[] Hi] HP Hps. split; [|intros p Hp; auto]. split; try done.
  intros k r Hr Ho. destruct (b_own0 k r Hr Ho). auto.
Qed.

Lemma wp_cleanupCandidate plan (Q : res unit -> assn) b ps d l :
  like plan -> BeforeAt in_progress b ps d l ->
  (forall x d' l', BeforeAt in_progress b ps d' l' -> l ⊆ l' -> Q x d' l') ->
  wp (E:=E) (cleanupCandidate plan) Q Stop d l.
Proof.
  intros Hl HA HQ. pose proof (BeforeAt_framed in_progress b) as F. unfold cleanupCandidate.
  apply wp_try. apply wp_store; [by eapply F| |].
  { intros err. apply wp_ret. by apply HQ. }
  intros _ g d' H. apply ByOperation_Ok in H as (-> & r & Hg & Ho).
  destruct Hl as [c0 ->]. cbn in Ho.
  destruct (b_own _ _ _ _ (proj1 HA) _ _ (proj1 (proj2 Hg)) Ho) as [Hk Hp].
  assert (gn_InstallationID g = inst) as Hi by (unfold gen_key, plan_key in Hk; congruence).
  rewrite Hi in Hg. assert (g_status r <> GenActive) as Hs by (destruct Hp as [-> | ->]; done).
  apply wp_try. eapply (wp_record _ F (plan0 <| p_Container := c0 |>)); [by eexists|done| |].
  { intros err. apply wp_ret. by apply HQ. }
  intros d1 H1 Hg1 Hc1. destruct (marks_loaded d d1 g r (same_marks _ _ Hg1 Hc1) Hg Hs) as (r1 & Hl1 & Hs1).
  assert ("candidate_cleanup" ∈ with_intent "intent" "candidate_cleanup" ps) as Hin by by left.
  assert (forall d' l', BeforeAt in_progress b (with_intent "intent" "candidate_cleanup" ps) d' l' ->
    BeforeAt in_progress b ps d' l') as Hw by (intros; eapply BeforeAt_weaken; [done|done|by right]).
  apply wp_try. eapply (wp_cleanup_container _ F); [done..|]. intros [x|e] l1 H2 Hs2; [|apply wp_ret; auto].
  apply wp_try. eapply (wp_cleanup_network _ F); [done..|].
  intros [y|e] l2 H3 Hs3; [|apply wp_ret; apply HQ; [auto|set_solver]].
  eapply (wp_record _ F (plan0 <| p_Container := c0 |>)); [by eexists|done| |].
  - intros err. apply HQ; [auto|set_solver].
  - intros d2 H4 _ _. apply HQ; [|set_solver]. by apply Hw.
Qed.

(** What is left by a failure before the commit. *)
Definition FailPost (b : option Z) (e : error) (d : db) (l : log) : Prop :=
  (exists P, Before P b d l) /\ (is_unknown_outcome e = false -> Before failed_clean b d l).

Lemma FailPost_unknown P b phase e d l : Before P b d l -> FailPost b (ErrUnknownOutcome phase e) d l.
Proof. intros H. split; [by exists P|done]. Qed.

(** The candidate's row after [MarkFailed]. *)
Lemma MarkFailed_own plan cl b d l u d' :
  like plan -> Before in_progress b d l -> MarkFailed plan cl d = Ok (u, d') ->
  Before (fun r => g_status r = GenFailed /\ g_cleanup r = cl) b d' l.
Proof.
  intros [c ->] HB H. apply MarkFailed_step in H as (Hs & Ha & r & Hr & _ & Hg).
  eapply Before_step; [done..|]. unfold own_rows. rewrite Hg. change (plan_key _) with (plan_key plan0).
  intros k r' Hr' Ho. apply lookup_insert_Some in Hr' as [[<- <-]|[Hne Hr']]; [done|].
  destruct (b_own _ _ _ _ HB _ _ Hr' Ho) as [-> _]. done.
Qed.

Lemma wp_mark_failed plan cause (x : res unit) (Q : error -> assn) b d l :
  like plan -> Before in_progress b d l -> (forall e d' l', FailPost b e d' l' -> Q e d' l') ->
  wp (E:=E) (run* mark := store (fun _ => MarkFailed plan (if is_ok x then CleanupClean else CleanupPending)) in
    pret (if is_ok x && is_ok mark then cause
          else ErrUnknownOutcome PhaseCleanup (ErrJoin (cause :: errs x ++ errs mark)))) Q Stop d l.
Proof.
  intros Hl HB HQ. apply wp_bind. apply wp_store; [by eapply Before_Stop| |].
  - intros err. apply wp_ret, HQ. rewrite andb_false_r. by eapply FailPost_unknown.
  - intros _ [] d' H. apply wp_ret, HQ. eapply MarkFailed_own in H; [|done..].
    destruct x; cbn; [|by eapply FailPost_unknown]. split; [by eexists|done].
Qed.

Lemma wp_failBeforeCutover plan cause (Q : error -> assn) b ps d l :
  like plan -> BeforeAt in_progress b ps d l -> (forall e d' l', FailPost b e d' l' -> Q e d' l') ->
  wp (E:=E) (failBeforeCutover plan cause) Q Stop d l.
Proof.
  intros Hl HA HQ. unfold failBeforeCutover. apply wp_bind. eapply wp_cleanupCandidate; [done..|].
  intros x d' l' [H _] _. by eapply wp_mark_failed.
Qed.

Lemma created_mono l l' cid : l ⊆ l' -> created l cid -> created l' cid.
Proof. intros Hs (p & d & Hin). exists p, d. by apply Hs. Qed.

Lemma created_app l l' cid : created l cid -> created (l ++ l') cid.
Proof. apply created_mono. set_solver. Qed.
Hint Resolve created_app : core.

(** What the program knows of the generation it replaces. *)
Definition old_of (active : Generation) : Prop :=
  gn_Status active = "active" -> old_container (cm_ContainerID (gn_Component active)).

Lemma wp_afterCutoverFailure plan active cid phase cause (Q : error -> assn) b ps d l :
  like plan -> old_of active -> created l cid -> BeforeAt in_progress b ps d l -> PhaseBeforeContainer ∈ ps ->
  (forall e d' l', FailPost b e d' l' -> Q e d' l') ->
  wp (E:=E) (afterCutoverFailure plan active cid phase cause) Q Stop d l.
Proof.
  intros Hl Hold Hcr HA Hp HQ. pose proof (BeforeAt_framed in_progress b) as F.
  assert (forall d' l', BeforeAt in_progress b ps d' l' -> Q (ErrUnknownOutcome phase cause) d' l') as Hunk.
  { intros d' l' [H _]. by eapply HQ, FailPost_unknown. }
  unfold afterCutoverFailure. apply wp_try. eapply (wp_look _ F); [done..|].
  intros [o|e] H1; [|apply wp_ret; auto]. apply wp_try.
  assert (forall l', BeforeAt in_progress b ps d l' ->
    wp (E:=E) (if decide (gn_Status active = "active" /\ p_RollbackSafe plan = true) then
      try* _ := start_container (cm_ContainerID (gn_Component active)) catch _e => pret (ErrUnknownOutcome phase cause) in
      try* _ := wait_container (cm_ContainerID (gn_Component active)) RuntimeRunning catch _e => pret (ErrUnknownOutcome phase cause) in
      run* cleanup := cleanupCandidate plan in
      run* mark := store (fun _ => MarkFailed plan (if is_ok cleanup then CleanupClean else CleanupPending)) in
      pret (if is_ok cleanup && is_ok mark then cause
            else ErrUnknownOutcome PhaseCleanup (ErrJoin (cause :: errs cleanup ++ errs mark)))
    else pret (ErrUnknownOutcome phase cause)) Q Stop d l') as Hrest.
  { intros l' H'. case_decide as Hroll; [|apply wp_ret; auto]. destruct Hroll as [Hst Hsafe].
    apply wp_try. eapply (wp_call _ F); [done| |].
    { intros x. apply call_ok_covered; [|done..]. right. destruct Hl as [c ->].
      split_and!; [done|by apply Hold|by eapply (fr_intents _ F)]. }
    intros [x|e] H2; [|apply wp_ret; auto]. apply wp_try. eapply (wp_look _ F); [done..|].
    intros [y|e] H3; [|apply wp_ret; auto]. apply wp_bind. eapply wp_cleanupCandidate; [done..|].
    intros z d' l2 [H _] _. by eapply wp_mark_failed. }
  destruct (decide (ob_State o = RuntimeRunning)) as [Hrun|Hrun]; [|by apply wp_ret, Hrest].
  eapply (wp_call _ F); [done| |].
  - intros x. apply call_ok_covered; [|done..]. right; left.
    split; [by apply created_app|by eapply (fr_intents _ F)].
  - intros [x|e] H2; [auto|apply wp_ret; auto].
Qed.

(** *** After the commit *)
Definition keep : Z := if allow then 0 else expected.

Definition Pending (gs : list Generation) (d : db) : Prop :=
  forall g, g ∈ gs -> gn_Generation g <> keep /\
    exists r, loaded inst d g r /\ g_status r <> GenActive.

Lemma Pending_marks gs d d' : Pending gs d -> marks d d' -> Pending gs d'.
Proof.
  intros Hp Hm g Hg. destruct (Hp g Hg) as (Hk & r & Hl & Hs). split; [done|].
  by eapply marks_loaded.
Qed.

Lemma AfterAt_mark g b ps d d' l :
  AfterAt b ps d l -> gn_InstallationID g = inst -> gn_Generation g <> keep ->
  runner_step (gn_InstallationID g) d d' -> active_rows d d' ->
  (forall k, k <> gen_key g -> db_gens d' !! k = db_gens d !! k) -> AfterAt b ps d' l.
Proof.
  intros [HA Hi] Hinst Hk Hs Ha Hg. rewrite Hinst in Hs. split.
  - eapply After_step; [done..|]. intros Hal. apply Hg. unfold gen_key. intros [= _ Heq].
    apply Hk. unfold keep. by rewrite Hal.
  - eapply Intents_step; [apply HA|done..].
Qed.

Lemma wp_defer g gs (Q : bool -> assn) b ps d l :
  AfterAt b ps d l -> Pending gs d -> g ∈ gs ->
  (forall x d' l', AfterAt b ps d' l' -> Pending gs d' -> Q x d' l') ->
  wp (E:=E) (defer g) Q Stop d l.
Proof.
  intros HA Hp Hg HQ. unfold defer. apply wp_bind. apply wp_store; [by eapply (AfterAt_framed b)| |].
  - intros err. apply wp_ret. auto.
  - intros _ [] d' H. apply MarkCleanupPending_step in H as (Hs & Ha & Hm & Hr).
    destruct (Hp g Hg) as (Hk & r & (Hi & _) & _).
    apply wp_ret, HQ; [by eapply AfterAt_mark|by eapply Pending_marks].
Qed.

Lemma wp_cleanup_one plan g gs (Q : bool -> assn) b ps d l :
  like plan -> AfterAt b ps d l -> Pending gs d -> g ∈ gs ->
  (forall x d' l', AfterAt b ps d' l' -> Pending gs d' -> Q x d' l') ->
  wp (E:=E) (cleanup_one sha plan g) Q Stop d l.
Proof.
  intros Hl HA Hp Hg HQ. pose proof (AfterAt_framed b) as F. unfold cleanup_one.
  set (ps1 := with_intent "intent" PhaseCleanup ps).
  assert (PhaseCleanup ∈ ps1) as Hin by by left.
  assert (forall d' l', AfterAt b ps1 d' l' -> AfterAt b ps d' l') as Hw.
  { intros d' l' [H Hi]. split; [done|]. intros p Hpp. apply Hi. by right. }
  assert (forall d' l', AfterAt b ps1 d' l' -> Pending gs d' -> wp (E:=E) (defer g) Q Stop d' l') as Hdefer.
  { intros d' l' H Hpd. eapply wp_defer; eauto. }
  apply wp_try. eapply (wp_checkpoint _ F); [done..| |].
  { intros err d' H Hgn Hcm. eapply wp_defer; [done| |done|done]. by eapply Pending_marks, same_marks. }
  intros d1 H1 Hgn Hcm. assert (Pending gs d1) as Hp1 by by eapply Pending_marks, same_marks.
  destruct (Hp1 g Hg) as (Hk & r & Hld & Hs).
  apply wp_try. eapply (wp_older_container _ F); [done..|].
  intros [x|e] l1 H2 _; [|by apply Hdefer].
  apply wp_try. eapply (wp_older_network _ F); [done..|].
  intros [y|e] l2 H3 _; [|by apply Hdefer].
  apply wp_try. eapply (wp_record _ F plan); [done..| |]; [intros err; by apply Hdefer|].
  intros d2 H4 Hgn2 Hcm2. assert (Pending gs d2) as Hp2 by by eapply Pending_marks, same_marks.
  apply wp_bind. unfold MarkRemoved. apply wp_try. apply wp_store; [by eapply F| |].
  { intros err. apply wp_ret, wp_ret. auto. }
  intros _ [] d3 H. apply MarkRemovedG_step in H as (Hs3 & Ha3 & Hm3 & Hr3).
  destruct (Hp2 g Hg) as (_ & r2 & (Hi2 & _) & _).
  assert (AfterAt b ps d3 l2) as H5 by (eapply AfterAt_mark; [by apply Hw|done..]).
  assert (Pending gs d3) as Hp3 by by eapply Pending_marks.
  apply wp_store; [by eapply F| |]; [intros err; apply wp_ret; auto|].
  intros _ [] d4 H. apply MarkRemovedC_step in H as (Hs4 & Hg4 & Hm4). apply wp_ret, HQ.
  - eapply AfterAt_mark; [done..|by apply same_gens_active|by rewrite Hg4].
  - by eapply Pending_marks.
Qed.

Lemma wp_cleanup_loop plan gs all deferred (Q : bool -> assn) b ps d l :
  like plan -> AfterAt b ps d l -> Pending all d -> (forall g, g ∈ gs -> g ∈ all) ->
  (forall x d' l', AfterAt b ps d' l' -> Q x d' l') ->
  wp (E:=E) (cleanup_loop sha plan gs deferred) Q Stop d l.
Proof.
  intros Hl HA Hp Hsub HQ. revert deferred d l HA Hp. induction gs as [|g gs IH]; intros deferred d l HA Hp; cbn.
  { apply wp_ret. auto. }
  apply wp_bind. eapply wp_cleanup_one; [done..|apply Hsub; by left|].
  intros x d' l' HA' Hp'. apply IH; [|done..]. intros g' Hg'. apply Hsub. by right.
Qed.

Lemma wp_cleanupOlder plan (Q : bool -> assn) b ps d l :
  like plan -> AfterAt b ps d l -> (forall x d' l', AfterAt b ps d' l' -> Q x d' l') ->
  wp (E:=E) (cleanupOlder sha plan keep) Q Stop d l.
Proof.
  intros Hl HA HQ. unfold cleanupOlder. apply wp_try. apply wp_store; [by eapply (AfterAt_framed b)| |].
  { intros err. apply wp_ret. auto. }
  intros _ gs d' H. destruct Hl as [c ->]. apply OlderRetained_Ok in H as [-> Hgs].
  eapply (wp_cleanup_loop _ _ gs); [by eexists|done|exact Hgs|done|done].
Qed.

(** *** The replacement *)
Definition Fin (x : Result * option error) (d : db) (l : log) : Prop :=
  Stop d l /\
  match x.2 with
  | None => (exists b, After b d l) /\ re_Generation x.1 = gen /\
      re_ReleaseID x.1 = p_ReleaseID plan0 /\ re_RuntimeState x.1 = "running" /\
      re_NetworkName x.1 = p_NetworkName plan0 /\ re_ContainerName x.1 = p_ContainerName plan0 /\
      re_Bindings x.1 = Normalize (p_Bindings plan0)
  | Some e => is_unknown_outcome e = false -> exists b, Before failed_clean b d l
  end.

Definition Imaged (plan : Plan) (l : log) : Prop :=
  exists image d1, plan = with_image plan0 image /\
    (CObserveImage (p_Image plan0) (Ok image), d1) ∈ l /\
    imageContainsDigest image (p_Image plan0) = true.

Lemma Imaged_like plan l : Imaged plan l -> like plan.
Proof. intros (image & _ & -> & _). by eexists. Qed.

Lemma Imaged_mono plan l l' : Imaged plan l -> l ⊆ l' -> Imaged plan l'.
Proof. intros (image & d1 & ? & ? & ?) Hs. exists image, d1. auto. Qed.

Lemma wp_unknown P b ps phase e d l :
  BeforeAt P b ps d l -> wp (E:=E) (fail (ErrUnknownOutcome phase e)) Fin Stop d l.
Proof. intros [H _]. apply wp_ret. split; [by eapply Before_Stop|done]. Qed.

Lemma FailPost_Fin b e d l : FailPost b e d l -> Fin (zero_result, Some e) d l.
Proof. intros [[P H] Hf]. split; [by eapply Before_Stop|]. cbn. eauto. Qed.

Lemma wp_before plan cause b ps d l :
  like plan -> BeforeAt in_progress b ps d l ->
  wp (E:=E) (fail_with (failBeforeCutover plan cause)) Fin Stop d l.
Proof.
  intros Hl HA. apply wp_bind. eapply wp_failBeforeCutover; [done..|].
  intros e d' l' H. apply wp_ret. by eapply FailPost_Fin.
Qed.

Lemma wp_after plan active cid phase cause b ps d l :
  like plan -> old_of active -> created l cid -> BeforeAt in_progress b ps d l -> PhaseBeforeContainer ∈ ps ->
  wp (E:=E) (fail_with (afterCutoverFailure plan active cid phase cause)) Fin Stop d l.
Proof.
  intros Hl Hold Hcr HA Hp. apply wp_bind. eapply wp_afterCutoverFailure; [done..|].
  intros e d' l' H. apply wp_ret. by eapply FailPost_Fin.
Qed.

(** The commit switches the invariant from before to after. *)
Lemma Commit_After plan now u b P d d' l :
  like plan -> Before P b d l -> Verified l -> Commit plan now d = Ok (u, d') -> After b d' l.
Proof.
  intros [c ->] [HJ Hb Ha Ho] Hv H. apply Commit_step in H as (Hs & Hact & Hk); [|apply HJ].
  split; [by eapply J_step|done..|]. intros n Hn. apply Hk. cbn. congruence.
Qed.

Lemma wp_replace_commit plan observed b ps d l :
  like plan -> BeforeAt in_progress b ps d l -> Verified l ->
  wp (E:=E) (replace_commit sha plan observed) Fin Stop d l.
Proof.
  intros Hl HA Hv. pose proof (BeforeAt_framed in_progress b) as F. unfold replace_commit.
  apply wp_try. eapply (wp_checkpoint _ F); [done..| |].
  { intros err d' H _ _. by eapply wp_unknown. }
  intros d1 H1 _ _. apply wp_try. apply wp_store; [by eapply F| |].
  { intros err. by eapply wp_unknown. }
  intros now [] d2 H. eapply Commit_After in H; [|done|exact (proj1 H1)|done].
  assert (AfterAt b [] d2 l) as H2 by (split; [done|]; intros p Hp; by apply elem_of_nil in Hp).
  apply wp_try. eapply (wp_checkpoint _ (AfterAt_framed b)); [done..| |].
  { intros err d' [H3 _] _ _. apply wp_ret. split; [by eapply After_Stop|done]. }
  intros d3 H3 _ _. apply wp_bind.
  replace (if p_AllowMissingActive plan then 0 else p_ExpectedGeneration plan) with keep
    by (by destruct Hl as [c ->]).
  eapply wp_cleanupOlder; [done..|]. intros x d4 l4 [H4 _]. apply wp_ret.
  split; [by eapply After_Stop|]. destruct Hl as [c ->]. cbn. split; [by eexists|done].
Qed.

Lemma app_component_Before plan P b ps d d' l :
  like plan -> BeforeAt P b ps d l ->
  runner_step (p_InstallationID plan) d d' -> app_component plan d d' -> BeforeAt P b ps d' l.
Proof. intros [c ->] HA Hs [Hg _]. by eapply (fr_record _ (BeforeAt_framed P b)). Qed.

Lemma wp_replace_start plan active cid hash b ps d l :
  Imaged plan l -> old_of active -> created l cid -> BeforeAt in_progress b ps d l -> PhaseBeforeContainer ∈ ps ->
  wp (E:=E) (replace_start sha plan active cid hash) Fin Stop d l.
Proof.
  intros Him Hold Hcr HA Hp. pose proof (Imaged_like _ _ Him) as Hl. pose proof (BeforeAt_framed in_progress b) as F.
  unfold replace_start. apply wp_try. eapply (wp_checkpoint _ F); [done..| |].
  { intros err d' H _ _. by eapply wp_after. }
  intros d1 H1 _ _. set (ps1 := with_intent _ _ ps) in *.
  assert (PhaseBeforeContainer ∈ ps1) as Hp1 by by right.
  assert (PhaseBeforeCandidateStart ∈ ps1) as Hp2 by by left. clearbody ps1.
  apply wp_try. eapply (wp_call _ F); [done| |].
  { intros x. apply call_ok_covered; [|done..]. left. split; [done|by eapply (fr_intents _ F)]. }
  intros [x|e] H2; [|eapply wp_after; eauto]. apply wp_try. eapply (wp_look _ F); [done..|].
  intros [y|e] H3; [|eapply wp_after; eauto]. set (l3 := (l ++ _) ++ _) in *.
  assert (l ⊆ l3) as Hl3 by set_solver. apply (created_mono _ l3) in Hcr; [|done]. clearbody l3. clear H2.
  apply wp_try. apply wp_store; [by eapply F|by intros; eapply wp_unknown|].
  intros now [] d4 H. apply RecordState_step in H as [Hs4 Ha4].
  eapply app_component_Before in Hs4; [|done..]. rename Hs4 into H4.
  apply wp_try. eapply (wp_checkpoint _ F); [done..|by intros; eapply wp_unknown|].
  intros d5 H5 _ _. unfold with_intent in H5. rewrite decide_False in H5 by done.
  apply wp_try. eapply (wp_checkpoint _ F); [done..|by intros; eapply wp_after|].
  intros d6 H6 _ _. assert (BeforeAt in_progress b ps1 d6 l3) as H6'
    by (eapply BeforeAt_weaken; [exact H6|done|by right]). clear H6.
  apply wp_try. eapply (wp_look _ F); [done..|]. intros [network|e] H7; [|eapply wp_after; eauto].
  apply wp_try. eapply (wp_look _ F); [done..|]. intros [o|e] H8; [|eapply wp_after; eauto].
  destruct (verifyCandidate plan network o RuntimeRunning) as [[]|e] eqn:Hver; [|eapply wp_after; eauto].
  set (l8 := (l3 ++ _) ++ _) in *. assert (Verified l8) as Hv.
  { destruct Him as (image & di & -> & Hi & Hd).
    exists image, di, network, d6, cid, o, d6. split_and!; [set_solver|done|set_solver|set_solver|done]. }
  assert (created l8 cid) as Hcr8 by (unfold l8; auto). clearbody l8. case_decide; [eapply wp_after; eauto|].
  apply wp_try. apply wp_store; [by eapply F|by intros; eapply wp_unknown|].
  intros now' [] d9 H'. apply RecordState_step in H' as [Hs9 Ha9].
  eapply app_component_Before in Hs9; [|done..].
  apply wp_try. eapply (wp_checkpoint _ F); [done..|by intros; eapply wp_unknown|].
  intros d10 H10 _ _. by eapply wp_replace_commit.
Qed.

Lemma wp_replace_stop_old plan active cid hash b ps d l :
  Imaged plan l -> gn_Status active = "active" -> old_of active -> created l cid -> BeforeAt in_progress b ps d l -> PhaseBeforeContainer ∈ ps ->
  wp (E:=E) (replace_stop_old sha plan active cid hash) Fin Stop d l.
Proof.
  intros Him Hact Hold Hcr HA Hp. pose proof (Imaged_like _ _ Him) as Hl. pose proof (BeforeAt_framed in_progress b) as F.
  unfold replace_stop_old. apply wp_try. eapply (wp_checkpoint _ F); [done..|by intros; eapply wp_before|].
  intros d1 H1 _ _. set (ps1 := with_intent _ _ ps) in *.
  assert (PhaseBeforeContainer ∈ ps1) as Hp1 by by right.
  assert (PhaseBeforeOldStop ∈ ps1) as Hp2 by by left. clearbody ps1.
  apply wp_bind. eapply (wp_call _ F); [done| |].
  { intros x. apply call_ok_covered; [|done..]. left. split; [by apply Hold|by eapply (fr_intents _ F)]. }
  intros [x|e] H2.
  - apply wp_try. eapply (wp_look _ F); [done..|]. intros [y|e] H3; [|by eapply wp_unknown].
    apply wp_try. eapply (wp_checkpoint _ F); [done..|by intros; eapply wp_unknown|].
    intros d4 H4 _ _. eapply wp_replace_start; [|done| |exact H4|done]; [|auto].
    eapply Imaged_mono; [done|set_solver].
  - apply wp_bind. eapply (wp_look _ F); [done..|]. intros [o|e2] H3; [|by eapply wp_unknown].
    case_decide; [by eapply wp_before|by eapply wp_unknown].
Qed.

Lemma wp_replace_precutover plan active cid hash b ps d l :
  Imaged plan l -> old_of active -> created l cid -> BeforeAt in_progress b ps d l -> PhaseBeforeContainer ∈ ps ->
  wp (E:=E) (replace_precutover sha plan active cid hash) Fin Stop d l.
Proof.
  intros Him Hold Hcr HA Hp. pose proof (Imaged_like _ _ Him) as Hl. pose proof (BeforeAt_framed in_progress b) as F.
  unfold replace_precutover. apply wp_try.
  assert (forall x l1, BeforeAt in_progress b ps d l1 -> l ⊆ l1 ->
    match x with
    | Ok activeObserved => wp (E:=E) (try* network := observe_network (p_NetworkName plan)
          catch e => fail_with (failBeforeCutover plan e) in
        try* observed := observe_container cid catch e => fail_with (failBeforeCutover plan e) in
        match verifyCandidate plan network observed RuntimeStopped with
        | Err e => fail_with (failBeforeCutover plan e)
        | Ok _ =>
            if decide (gn_Status active = "active" /\ ob_Exists activeObserved = true /\
                       ob_State activeObserved = RuntimeRunning)
            then replace_stop_old sha plan active cid hash
            else replace_start sha plan active cid hash
        end) Fin Stop
    | Err e => wp (E:=E) (fail_with (failBeforeCutover plan e)) Fin Stop
    end d l1) as Hrest.
  { intros [ao|e] l1 H1 Hs1; [|by eapply wp_before].
    apply wp_try. eapply (wp_look _ F); [done..|]. intros [network|e] H2; [|by eapply wp_before].
    apply wp_try. eapply (wp_look _ F); [done..|]. intros [o|e] H3; [|by eapply wp_before].
    destruct (verifyCandidate _ _ _ _); [|by eapply wp_before].
    case_decide as Hact; [destruct Hact as [Hact _]; eapply wp_replace_stop_old|eapply wp_replace_start]; try done;
      first [eapply Imaged_mono; [done|set_solver]|eapply created_mono; [|done]; set_solver]. }
  destruct (decide (gn_Status active = "active")) as [Ha|Ha]; [|by apply wp_ret, (Hrest (Ok _))].
  destruct (p_AllowMissingActive plan);
    [eapply (wp_observeRepairable _ F)|eapply (wp_verifyStored _ F)]; try done;
    intros [ao|e] l1 H1 Hs1; first [exact (Hrest (Ok ao) l1 H1 Hs1)|exact (Hrest (Err e) l1 H1 Hs1)].
Qed.

Lemma wp_replace_container plan active network b ps d l :
  Imaged plan l -> old_of active -> BeforeAt in_progress b ps d l ->
  wp (E:=E) (replace_container sha plan active network) Fin Stop d l.
Proof.
  intros Him Hold HA. pose proof (Imaged_like _ _ Him) as Hl. pose proof (BeforeAt_framed in_progress b) as F.
  unfold replace_container. apply wp_try. eapply (wp_checkpoint _ F); [done..|by intros; eapply wp_before|].
  intros d1 H1 _ _. set (ps1 := with_intent _ _ ps) in *.
  assert (PhaseBeforeContainer ∈ ps1) as Hp1 by by left. clearbody ps1.
  apply wp_bind. eapply (wp_call _ F); [done| |].
  { intros x. apply call_ok_covered; [|done..]. by eapply (fr_intents _ F). }
  intros [cid|e] H2.
  - apply wp_try. apply wp_store; [by eapply F|by intros; eapply wp_unknown|].
    intros now [] d3 H. apply RecordContainer_step in H as [Hs3 Ha3].
    eapply app_component_Before in Hs3; [|done..].
    apply wp_try. eapply (wp_look _ F); [done..|]. intros [o|e] H4; [|by eapply wp_unknown].
    destruct (verifyCandidate _ _ _ _); [|by eapply wp_before].
    apply wp_try. apply wp_store; [by eapply F|by intros; eapply wp_unknown|].
    intros now' [] d5 H. apply RecordContainer_step in H as [Hs5 Ha5].
    eapply app_component_Before in Hs5; [|done..].
    apply wp_try. eapply (wp_checkpoint _ F); [done..|by intros; eapply wp_unknown|].
    intros d6 H6 _ _. eapply wp_replace_precutover; [|done| |exact H6|done].
    + eapply Imaged_mono; [done|set_solver].
    + exists (p_Container plan), d1. set_solver.
  - apply wp_bind. eapply (wp_look _ F); [done..|]. intros [o|e2] H3; [|by eapply wp_unknown].
    destruct (ob_Exists o); [by eapply wp_unknown|by eapply wp_before].
Qed.

Lemma RecordNetwork_Before plan nid u b ps d d' l :
  like plan -> BeforeAt in_progress b ps d l -> RecordNetwork plan nid d = Ok (u, d') ->
  BeforeAt in_progress b ps d' l.
Proof.
  intros [c ->] [HB Hi] H. apply RecordNetwork_step in H as (Hs & Ha & (r & Hr & Ho & _ & Hg) & _).
  split; [|eapply Intents_step; [apply HB|done..]]. eapply Before_step; [done..|].
  unfold own_rows. rewrite Hg. change (plan_key _) with (plan_key plan0).
  intros k r' Hr' Ho'. apply lookup_insert_Some in Hr' as [[<- <-]|[Hne Hr']]; [by split; [|right]|].
  destruct (b_own _ _ _ _ HB _ _ Hr' Ho') as [-> _]. done.
Qed.

Lemma wp_replace_network plan active b ps d l :
  Imaged plan l -> old_of active -> BeforeAt in_progress b ps d l ->
  wp (E:=E) (replace_network sha plan active) Fin Stop d l.
Proof.
  intros Him Hold HA. pose proof (Imaged_like _ _ Him) as Hl. pose proof (BeforeAt_framed in_progress b) as F.
  unfold replace_network. apply wp_try. eapply (wp_checkpoint _ F); [done..|by intros; eapply wp_before|].
  intros d1 H1 _ _. apply wp_bind. eapply (wp_call _ F); [done| |].
  { intros x. apply call_ok_covered; [|done..]. eapply (fr_intents _ F); [done|by left]. }
  intros [network|e] H2.
  - apply wp_try. apply wp_store; [by eapply F|by intros; eapply wp_unknown|].
    intros now [] d3 H. eapply RecordNetwork_Before in H; [|done..].
    apply wp_try. eapply (wp_checkpoint _ F); [done..|by intros; eapply wp_unknown|].
    intros d4 H4 _ _. eapply wp_replace_container; [|done|exact H4]. eapply Imaged_mono; [done|set_solver].
  - apply wp_bind. eapply (wp_look _ F); [done..|]. intros [o|e2] H3; [|by eapply wp_unknown].
    destruct (nw_Exists o); [by eapply wp_unknown|by eapply wp_before].
Qed.

(** *** Up to the preparation of the candidate *)
Definition none (r : genRow) : Prop := False.

Lemma Backfill_Before u b ps d d' l :
  op <> "legacy-migration" ->
  BeforeAt none b ps d l -> BackfillInstallation inst d = Ok (u, d') -> BeforeAt none b ps d' l.
Proof.
  intros Hop [HB Hi] H. apply Backfill_step in H as [Hs Hg].
  split; [|eapply Intents_step; [apply HB|done..]].
  eapply Before_step; [done..|by apply legacy_growth_active|].
  intros k r Hr Ho. destruct Hg as (_ & _ & Hg). destruct (Hg k r Hr) as [Hr'|[Hleg _]]; [|congruence].
  by eapply b_own.
Qed.

Lemma Promote_Before g nid iid h now u b ps d d' l :
  BeforeAt none b ps d l -> BackfillInstallation inst d0 = Ok (tt, d) -> gn_InstallationID g = inst ->
  PromoteMigrated g nid iid h now d = Ok (u, d') -> exists b', BeforeAt none b' ps d' l.
Proof.
  intros [HB Hi] Hfill Hinst H. apply PromoteMigrated_step in H as (Hs & Hn & Ha & r & r' & Hr & Hst & Hg & Hop);
    [|apply HB]. rewrite Hinst in *. exists (Some (gn_Generation g)).
  split; [|eapply Intents_step; [apply HB|done..]]. destruct HB as [HJ Hb Hact Ho].
  split; [by eapply J_step| |done|].
  - right. destruct Hb as [Hb|(_ & n & Hb & _)]; [|congruence].
    split; [congruence|]. exists (gn_Generation g). split; [done|]. right. exists d. split; [done|]. exists r.
    unfold gen_key in Hr. by rewrite Hinst in Hr.
  - unfold own_rows. rewrite Hg. intros k x Hx Hox.
    apply lookup_insert_Some in Hx as [[<- <-]|[_ Hx]]; [|by eapply Ho].
    rewrite Hop in Hox. destruct (Ho _ _ Hr Hox) as [_ []].
Qed.

Definition old_result (x : res Generation) : Prop := match x with Ok g => old_of g | Err _ => True end.

Lemma wp_loadAndVerifyActive (Q : res Generation -> assn) b ps l :
  op <> "legacy-migration" -> BeforeAt none b ps d0 l ->
  (forall x b' d' l', BeforeAt none b' ps d' l' -> old_result x -> Q x d' l') ->
  wp (E:=E) (loadAndVerifyActive sha plan0) Q Stop d0 l.
Proof.
  intros Hop HA HQ. unfold loadAndVerifyActive. assert (forall b, framed (BeforeAt none b)) as F
    by apply BeforeAt_framed.
  assert (forall e b' d' l', BeforeAt none b' ps d' l' -> Q (Err e) d' l') as HE by (intros; by eapply HQ).
  assert (forall g b' d' l', BeforeAt none b' ps d' l' -> old_of g -> Q (Ok g) d' l') as HO by (intros; by eapply HQ).
  clear HQ. apply wp_try. apply wp_store; [by eapply F|intros; apply wp_ret; eauto|].
  intros now [] d1 Hfill. pose proof (Backfill_Before _ _ _ _ _ _ Hop HA Hfill) as H1.
  apply wp_bind. apply wp_store; [by eapply F| |].
  { intros err. destruct (is_no_rows err); [case_decide|]; apply wp_ret; eauto; by eapply HO. }
  intros _ active d' H. pose proof H as Hcur. apply Current_Ok in H as (-> & r & Hld).
  assert (old_container (cm_ContainerID (gn_Component active))) as Hold by (by exists d1, active).
  set (retry := bool_decide _). destruct (retry && negb _); [apply wp_ret; eauto|].
  destruct (retry && _); [apply wp_ret; by eapply HO|]. apply wp_try.
  assert (forall act, gn_InstallationID act = inst /\ old_container (cm_ContainerID (gn_Component act)) \/
      gn_Status act = "removed" -> wp (E:=E)
    (if decide (gn_Status act = "removed") then pret (Ok act) else
     run* observed := verifyStoredGeneration sha act RuntimeRunning in
     match observed with
     | Err err =>
         let ambiguous := Err (ErrWrap "active runtime ownership is ambiguous" err) in
         if p_AllowMissingActive plan0 && bool_decide (gn_Status act = "active") then
           run* repairable := observeRepairableActive sha act in
           match repairable with Ok _ => pret (Ok act) | Err _ => pret ambiguous end
         else pret ambiguous
     | Ok observed =>
         if decide (gn_Status act = "verification_required") then
           run* network := observe_network (gn_NetworkName act) in
           match network with
           | Ok network =>
               if negb (nw_Exists network)
               then pret (Err (ErrMsg "migrated network cannot be verified"))
               else
                 try* _ := store (PromoteMigrated act (nw_ID network) (ob_ImageID observed)
                                    (observationHash sha observed)) catch e => pret (Err e) in
                 pret (Ok (act <| gn_Status := "active" |> <| gn_NetworkID := nw_ID network |>
                   <| gn_Component := gn_Component act <| cm_ImageID := ob_ImageID observed |>
                        <| cm_ConfigurationHash := observationHash sha observed |> |>))
           | Err _ => pret (Err (ErrMsg "migrated network cannot be verified"))
           end
         else pret (Ok act)
     end) Q Stop d1 l) as Hrest.
  { intros act Hact. case_decide as Hrm; [apply wp_ret; eapply HO; [done|]; intros ?; congruence|].
    destruct Hact as [[Hact Hco]|]; [|done]. assert (old_of act) as Hact' by (by intros _).
    apply wp_bind. eapply (wp_verifyStored _ (F b)); [done..|]. intros [o|e] l1 H2 _.
    - case_decide as Hvr; [|apply wp_ret; eauto]. apply wp_bind. eapply (wp_look _ (F b)); [done..|].
      intros [network|e] H3; [|apply wp_ret; eauto]. destruct (negb _); [apply wp_ret; eauto|].
      apply wp_try. apply wp_store; [by eapply F|intros; apply wp_ret; eauto|].
      intros now' [] d2 H. eapply Promote_Before in H as [b' H]; [|done..]. apply wp_ret. eapply HO; [done|]. by intros _.
    - cbv zeta. destruct (_ && _); [|apply wp_ret; eauto]. apply wp_bind.
      eapply (wp_observeRepairable _ (F b)); [done..|]. intros [o|e2] l2 H3 _; apply wp_ret; eauto. }
  destruct retry; [|apply wp_ret, Hrest; left; split; [apply Hld|done]].
  apply wp_try. apply wp_store; [by eapply F|intros; apply wp_ret, wp_ret; eauto|].
  intros _ removed d2 H. apply removed_generation_Ok in H as [-> Hst].
  apply wp_store; [by eapply F|intros; apply wp_ret; eauto|].
  intros _ act d2 H. apply tbind_Ok in H as (? & ? & Hd & H). apply tget_Ok in Hd as [-> <-].
  apply tret_Ok in H as [<- <-]. apply Hrest. right. exact Hst.
Qed.

Lemma Prepare_Before plan now u b ps d d' l :
  like plan -> BeforeAt none b ps d l -> Prepare plan now d = Ok (u, d') ->
  BeforeAt in_progress b ps d' l.
Proof.
  intros [c ->] [HB Hi] H. apply Prepare_step in H as (Hs & Ha & Hg).
  split; [|eapply Intents_step; [apply HB|done..]]. eapply Before_step; [done..|].
  unfold own_rows. rewrite Hg. change (plan_key _) with (plan_key plan0).
  intros k r Hr Ho. apply lookup_insert_Some in Hr as [[<- <-]|[Hne Hr]]; [by split; [|left]|].
  destruct (b_own _ _ _ _ HB _ _ Hr Ho) as [_ []].
Qed.

Lemma wp_fail_none b ps e d l : BeforeAt none b ps d l -> wp (E:=E) (fail e) Fin Stop d l.
Proof.
  intros H. apply wp_ret. split; [eapply Before_Stop, H|]. intros _. exists b.
  eapply BeforeAt_weaken; [exact H|by intros r []|done].
Qed.

Lemma wp_Replace b l :
  op <> "legacy-migration" -> BeforeAt none b [] d0 l ->
  wp (E:=E) (Replace sha plan0) Fin Stop d0 l.
Proof.
  intros Hop HA. unfold Replace. assert (forall b, framed (BeforeAt none b)) as F by apply BeforeAt_framed.
  assert (like plan0) as Hl0 by (exists (p_Container plan0); by destruct plan0).
  apply wp_try. eapply wp_loadAndVerifyActive; [done..|]. clear b l HA.
  intros [active|e] b d l H Hold; [|by eapply wp_fail_none]. case_decide; [by eapply wp_fail_none|].
  apply wp_try. eapply (wp_checkpoint _ (F b)); [done..|by intros; eapply wp_fail_none|].
  intros d1 H1 _ _. apply wp_try. eapply (wp_call _ (F b)); [done| |].
  { intros x. apply call_ok_covered; [|done..]. eapply (fr_intents _ (F b)); [done|by left]. }
  intros [x|e] H2; [|by eapply wp_fail_none]. apply wp_try. eapply (wp_look _ (F b)); [done..|].
  intros [image|e] H3; [|by eapply wp_unknown].
  destruct (imageContainsDigest image (p_Image plan0)) eqn:Hd; cbn [negb]; [|by eapply wp_fail_none].
  set (l3 := (l ++ _) ++ _) in *. assert (Imaged (with_image plan0 image) l3) as Him.
  { exists image, d1. split_and!; [done|set_solver|done]. }
  pose proof (Imaged_like _ _ Him) as Hl. clearbody l3.
  apply wp_try. eapply (wp_checkpoint _ (F b)); [done..|by intros; eapply wp_fail_none|].
  intros d4 H4 _ _. apply wp_try. apply wp_store; [by eapply F|by intros; eapply wp_fail_none|].
  intros now [] d5 H'. eapply Prepare_Before in H'; [|done..]. by eapply wp_replace_network.
Qed.
End programs.
End invariant.
