(* ===== verification/RunnerProps.v ===== *)
(** * What staged replacement promises

    The claims about [Runner.Replace], for every container runtime, clock,
    driver failure, hook and moment of death; and a small simulated host on
    which the program is run to show that the hypotheses hold. *)

From S2P Require Import Prelude Protocol Exposure HelperDB Coordinator CoordinatorProofs CoordinatorProps Containers LifecycleStore LifecycleStoreProofs LifecycleStoreProps Runner RunnerProofs.
From stdpp Require Import base gmap strings list.
From Stdlib Require Import ZArith Lia.

Open Scope Z_scope.

Definition final {E A} (o : out E A) : world E :=
  match o with Done _ w | Crashed w => w end.

(** Where a replacement starts: a database the system can be in, and an
    operation that has created no generation yet. *)
Record ready (plan : Plan) (d : db) : Prop := {
  ready_inv : sys_inv d;
  ready_fresh : forall k r, db_gens d !! k = Some r -> g_operation r <> p_OperationID plan;
  ready_id : p_OperationID plan <> "legacy-migration"
}.

Lemma ready_Before plan d : ready plan d ->
  BeforeAt plan d none (active_generation (p_InstallationID plan) d) [] d [].
Proof.
  intros [Hinv Hfresh Hid]. split; [|by intros p Hp%elem_of_nil]. split.
  - split; try done; [exists []; by rewrite app_nil_r|]. intros l1 c d1 l2 Heq. by destruct l1.
  - by left.
  - done.
  - intros k r Hr Ho. by destruct (Hfresh k r Hr).
Qed.

Section host.
Context {E : Type} `{HostE : Host E} `{Ev : Evidence} (sha : string -> string) (plan : Plan) (d : db) (e : E).

Lemma Replace_stop : ready plan d ->
  Stop plan d (w_db (final (Replace sha plan (World d e []))))
    (w_log (final (Replace sha plan (World d e [])))).
Proof.
  intros H. pose proof (wp_Replace sha plan d _ [] (ready_id _ _ H) (ready_Before _ _ H) e) as Hw.
  destruct (Replace sha plan (World d e [])) as [x w|w]; cbn; [apply Hw|done].
Qed.

Lemma Replace_fin x w : ready plan d -> Replace sha plan (World d e []) = Done x w ->
  Fin plan d x (w_db w) (w_log w).
Proof.
  intros H Hr. pose proof (wp_Replace sha plan d _ [] (ready_id _ _ H) (ready_Before _ _ H) e) as Hw.
  by rewrite Hr in Hw.
Qed.

Lemma Stop_J l d' : Stop plan d d' l -> J plan d d' l.
Proof. intros [(P & b & [])|(b & [])]; done. Qed.
End host.

(** ** A simulated host *)
Record sim : Type := Sim {
  s_containers : gmap string ContainerObservation;
  s_networks : gmap string NetworkObservation;
  s_tick : nat;
  s_dies : option nat
}.

Definition sim_missing : ContainerObservation := zero_observation <| ob_State := RuntimeMissing |>.

Definition sim_find (id : string) (s : sim) : ContainerObservation :=
  match s_containers s !! id with
  | Some o => o
  | None =>
      match filter (fun o => ob_Name o = id) (map snd (map_to_list (s_containers s))) with
      | o :: _ => o
      | [] => sim_missing
      end
  end.

Definition sim_state (id state : string) (s : sim) : res unit * sim :=
  match s_containers s !! id with
  | Some o => (Ok tt, Sim (<[id := o <| ob_State := state |>]> (s_containers s)) (s_networks s)
                        (s_tick s) (s_dies s))
  | None => (Err (ErrMsg "no such container"), s)
  end.

Definition sim_container (plan : ContainerPlan) : ContainerObservation :=
  {| ob_Exists := true; ob_ID := "id-" +:+ pl_Name plan; ob_Name := pl_Name plan;
     ob_ImageID := "image-id"; ob_ImageReference := pl_Image plan; ob_State := RuntimeStopped;
     ob_Health := ""; ob_Labels := pl_Labels plan;
     ob_User := if decide (pl_User plan = "") then pl_ImageDefaultUser plan else pl_User plan;
     ob_Command := pl_Command plan; ob_Environment := pl_Environment plan;
     ob_RestartPolicy := pl_RestartPolicy plan; ob_Mounts := normalizeExpectedMounts plan;
     ob_Networks := {[ pl_Network plan := {| na_NetworkID := "id-" +:+ pl_Network plan;
                                             na_Aliases := [] |} ]};
     ob_NetworkMode := pl_Network plan; ob_PortBindings := pl_PortBindings plan;
     ob_Devices := pl_Devices plan; ob_DeviceRequests := pl_DeviceRequests plan |}.

Definition sim_network (name : string) : NetworkObservation :=
  {| nw_Exists := true; nw_ID := "id-" +:+ name; nw_Name := name; nw_Labels := ∅ |}.

#[export] Instance sim_runtime : LifecycleRuntime sim := {
  PullImage _ s := (Ok tt, s);
  ObserveImage image s := (Ok {| im_Exists := true; im_ID := "image-id"; im_RepoDigests := [image];
    im_ConfiguredUser := ""; im_ConfiguredVolumes := [] |}, s);
  CreateLifecycleNetwork name _ s := (Ok (sim_network name),
    Sim (s_containers s) (<[name := sim_network name]> (s_networks s)) (s_tick s) (s_dies s));
  ObserveNetwork name s := (Ok (default {| nw_Exists := false; nw_ID := ""; nw_Name := name;
    nw_Labels := ∅ |} (s_networks s !! name)), s);
  CreateLifecycleContainer plan s := (Ok ("id-" +:+ pl_Name plan),
    Sim (<["id-" +:+ pl_Name plan := sim_container plan]> (s_containers s)) (s_networks s)
      (s_tick s) (s_dies s));
  ObserveContainer id s := (Ok (sim_find id s), s);
  StartContainer id s := sim_state id RuntimeRunning s;
  StopContainer id s := sim_state id RuntimeStopped s;
  RemoveContainer id s := (Ok tt, Sim (delete id (s_containers s)) (s_networks s) (s_tick s) (s_dies s));
  RemoveLifecycleNetwork name s :=
    (Ok tt, Sim (s_containers s) (delete name (s_networks s)) (s_tick s) (s_dies s));
  WaitContainer id _ s := (Ok (sim_find id s), s)
}.

(** The process dies at a chosen step, or never. *)
#[export] Instance sim_host : Host sim := {
  host_now s := ("now", s);
  host_crash s := (bool_decide (s_dies s = Some (s_tick s)),
                   Sim (s_containers s) (s_networks s) (S (s_tick s)) (s_dies s));
  host_fault s := (None, s);
  host_hook _ s := (None, s)
}.

Definition plain_sha : string -> string := fun s => s.

(** The first installation of an application. *)
Notation sim_run dies := (Replace (HostE := sim_host) plain_sha plan1 (World run2 (Sim ∅ ∅ 0 dies) [])).

Notation sim_ok := (sim_run None).

(** The same with a runtime whose network driver refuses the candidate. *)
Definition sim_refuses : LifecycleRuntime sim :=
  {| PullImage := PullImage; ObserveImage := ObserveImage;
     CreateLifecycleNetwork := fun _ _ s => (Err (ErrMsg "address pool exhausted"), s);
     ObserveNetwork := ObserveNetwork; CreateLifecycleContainer := CreateLifecycleContainer;
     ObserveContainer := ObserveContainer; StartContainer := StartContainer;
     StopContainer := StopContainer; RemoveContainer := RemoveContainer;
     RemoveLifecycleNetwork := RemoveLifecycleNetwork; WaitContainer := WaitContainer |}.
Definition sim_host_refuses : Host sim :=
  {| host_runtime := sim_refuses; host_now := host_now; host_crash := host_crash;
     host_fault := host_fault; host_hook := host_hook |}.
Notation sim_err :=
  (Replace (HostE := sim_host_refuses) plain_sha plan1 (World run2 (Sim ∅ ∅ 0 None) [])).

(** How the two runs end, decided by evaluation. *)
Definition succeeds {E} (o : out E (Result * option error)) : bool :=
  match o with Done (_, None) _ => true | _ => false end.

Definition fails_clean {E} (o : out E (Result * option error)) : bool :=
  match o with Done (_, Some err) _ => negb (is_unknown_outcome err) | _ => false end.

Lemma succeeds_done {E} (o : out E (Result * option error)) :
  succeeds o = true -> exists result w, o = Done (result, None) w.
Proof. destruct o as [[result [err|]] w|w]; try discriminate. by exists result, w. Qed.

Lemma fails_clean_done {E} (o : out E (Result * option error)) :
  fails_clean o = true ->
  exists result err w, o = Done (result, Some err) w /\ is_unknown_outcome err = false.
Proof.
  destruct o as [[result [err|]] w|w]; try discriminate. cbn. intros H%negb_true_iff.
  by exists result, err, w.
Qed.

(** The call at a position of a log, if it is the expected one. *)
Lemma log_at (l : log) (i : nat) (c : rt_call) :
  fst <$> l !! i = Some c -> exists l1 d1 l2, l = l1 ++ (c, d1) :: l2.
Proof.
  destruct (l !! i) as [[c' d1]|] eqn:Hl; [|discriminate]. cbn. intros [= ->].
  exists (take i l), d1, (drop (S i) l). symmetry. by apply take_drop_middle.
Qed.

Lemma plan1_ready : ready plan1 run2.
Proof.
  split; [apply run2_sys_inv| |discriminate].
  intros k r Hr. assert (db_gens run2 = ∅) as Hg by (vm_compute; reflexivity).
  rewrite Hg, lookup_empty in Hr. discriminate Hr.
Qed.

(** ** Claims *)

(** Whatever the runtime, the clock, the database driver
    and the hook do, and wherever the process dies, [Replace] leaves the
    database in a state of the system: reached by its transactions alone,
    with the lock invariant and at most one active generation per
    installation, with every lease untouched and every row of other
    installations as it was. *)
Theorem replace_crash_safe (E : Type) (HostE : Host E) (Ev : Evidence) (sha : string -> string)
    (plan : Plan) (d : db) (e : E) (Hready : ready plan d) :
  let w := final (Replace sha plan (World d e [])) in
  sys_inv (w_db w) /\ rtc sys_step d (w_db w) /\ db_leases (w_db w) = db_leases d /\
  other_same (p_InstallationID plan) d (w_db w).
Proof.
  cbv zeta. pose proof (Stop_J _ _ _ _ (Replace_stop sha plan d e Hready)) as [].
  done.
Qed.

Lemma replace_crash_safe_witness : sys_inv (w_db (final (sim_run (Some 20%nat)))).
Proof.
  exact (proj1 (replace_crash_safe sim sim_host coordinator_evidence plain_sha plan1 run2
                  (Sim ∅ ∅ 0 (Some 20%nat)) plan1_ready)).
Defined.

(** C1. When [Replace] has stopped, normally or not, the installation's active
    generation is the one it was before (or, where none was active, a migrated
    generation the database records as waiting for verification), or it is the
    target, and then the pinned image, the candidate network and the running
    candidate container were observed and passed every check of the plan. *)
Theorem replace_activates_only_verified (E : Type) (HostE : Host E) (Ev : Evidence)
    (sha : string -> string) (plan : Plan) (d : db) (e : E) (Hready : ready plan d) :
  let w := final (Replace sha plan (World d e [])) in
  (exists b, Base plan d b /\ active_generation (p_InstallationID plan) (w_db w) = b) \/
  (active_generation (p_InstallationID plan) (w_db w) = Some (p_Generation plan) /\
   Verified plan (w_log w)).
Proof.
  cbv zeta. destruct (Replace_stop sha plan d e Hready) as [(P & b & [])|(b & [])]; eauto.
Qed.

(** Nothing of the installation is recorded before the first installation. *)
Lemma run2_base b : base_of "inst-a" run2 b -> b = None.
Proof. apply base_of_nothing; vm_compute; reflexivity. Qed.

(** The first installation, which activates the target: nothing else can have
    been active, so that it was verified. *)
Lemma replace_activates_only_verified_witness :
  active_generation "inst-a" (w_db (final sim_ok)) = Some 1 /\ Verified plan1 (w_log (final sim_ok)).
Proof.
  assert (active_generation "inst-a" (w_db (final sim_ok)) = Some 1) as Hact by (vm_compute; reflexivity).
  destruct (replace_activates_only_verified sim sim_host coordinator_evidence plain_sha plan1 run2
           (Sim ∅ ∅ 0 None) plan1_ready) as [(b & Hb & Ha)|H]; [|exact H].
  rewrite (run2_base b Hb) in Ha. change (p_InstallationID plan1) with "inst-a" in Ha.
  rewrite Hact in Ha. discriminate Ha.
Defined.

(** C27. When [Replace] returns without an error the target
    generation is the active one, it was verified running, the result
    describes the plan, and a generation that was active before is exactly
    the expected one and is kept as the retained rollback target unless it
    was being repaired. *)
Theorem replace_success_exact (E : Type) (HostE : Host E) (Ev : Evidence) (sha : string -> string)
    (plan : Plan) (d : db) (e : E) (result : Result) (w : world E) (Hready : ready plan d)
    (Hrun : Replace sha plan (World d e []) = Done (result, None) w) :
  active_generation (p_InstallationID plan) (w_db w) = Some (p_Generation plan) /\
  Verified plan (w_log w) /\
  re_Generation result = p_Generation plan /\ re_ReleaseID result = p_ReleaseID plan /\
  re_RuntimeState result = "running" /\ re_NetworkName result = p_NetworkName plan /\
  re_ContainerName result = p_ContainerName plan /\
  re_Bindings result = Normalize (p_Bindings plan) /\
  forall n, active_generation (p_InstallationID plan) d = Some n ->
    n = p_ExpectedGeneration plan /\
    (p_AllowMissingActive plan = false ->
     exists r, db_gens (w_db w) !! (p_InstallationID plan, n) = Some r /\ g_status r = GenRetained).
Proof.
  apply Replace_fin in Hrun as [_ ((b & [HJ Hb Ha Hv Hk]) & ? & ? & ? & ? & ? & ?)]; [|done].
  split_and!; try done. intros n Hn. apply Hk.
  destruct Hb as [->|[Hnone _]]; [exact Hn|]. congruence.
Qed.

Lemma replace_success_exact_witness :
  exists result w, sim_ok = Done (result, None) w /\
    active_generation "inst-a" (w_db w) = Some 1 /\ re_Generation result = 1.
Proof.
  assert (succeeds sim_ok = true) as H by (vm_compute; reflexivity).
  apply succeeds_done in H as (result & w & Hrun). exists result, w. split; [exact Hrun|].
  destruct (replace_success_exact sim sim_host coordinator_evidence plain_sha plan1 run2
              (Sim ∅ ∅ 0 None) result w plan1_ready Hrun) as (Ha & _ & Hg & _).
  exact (conj Ha Hg).
Defined.

(** C19. When [Replace] returns an error that does not ask
    for reconciliation, the active generation was not switched, and no
    candidate of the operation is left in progress: whatever generation the
    operation created is recorded failed with its cleanup complete. *)
Theorem replace_error_is_clean (E : Type) (HostE : Host E) (Ev : Evidence) (sha : string -> string)
    (plan : Plan) (d : db) (e : E) (result : Result) (err : error) (w : world E)
    (Hready : ready plan d)
    (Hrun : Replace sha plan (World d e []) = Done (result, Some err) w)
    (Hknown : is_unknown_outcome err = false) :
  (exists b, Base plan d b /\ active_generation (p_InstallationID plan) (w_db w) = b) /\
  forall k r, db_gens (w_db w) !! k = Some r -> g_operation r = p_OperationID plan ->
    k = plan_key plan /\ g_status r = GenFailed /\ g_cleanup r = CleanupClean.
Proof.
  apply Replace_fin in Hrun as [_ Hf]; [|done]. destruct (Hf Hknown) as (b & [HJ Hb Ha Ho]).
  split; [by exists b|]. intros k r Hr Hop. exact (Ho k r Hr Hop).
Qed.

Lemma replace_error_is_clean_witness :
  exists result err w, sim_err = Done (result, Some err) w /\
    forall k r, db_gens (w_db w) !! k = Some r -> g_operation r = op1 ->
      k = plan_key plan1 /\ g_status r = GenFailed /\ g_cleanup r = CleanupClean.
Proof.
  assert (fails_clean sim_err = true) as H by (vm_compute; reflexivity).
  apply fails_clean_done in H as (result & err & w & Hrun & Hk).
  exists result, err, w. split; [exact Hrun|].
  exact (proj2 (replace_error_is_clean sim sim_host_refuses coordinator_evidence plain_sha plan1 run2
                  (Sim ∅ ∅ 0 None) result err w plan1_ready Hrun Hk)).
Defined.



(** C28. Every container [Replace] removes was
    observed, as existing, under the container identity recorded for a
    generation of this installation that is not active at that moment, and
    every network it removes carries the recorded name and identity of such a
    generation. *)
Theorem replace_removes_only_retired (E : Type) (HostE : Host E) (Ev : Evidence)
    (sha : string -> string) (plan : Plan) (d : db) (e : E) (l1 l2 : log) (c : rt_call) (d1 : db)
    (Hready : ready plan d)
    (Hcall : w_log (final (Replace sha plan (World d e []))) = l1 ++ (c, d1) :: l2) :
  (forall id r, c = CRemove id r -> removable plan l1 d1 id) /\
  (forall name r, c = CRemoveNetwork name r -> removable_network plan l1 d1 name).
Proof.
  pose proof (j_log _ _ _ _ (Stop_J _ _ _ _ (Replace_stop sha plan d e Hready))) as Hlog.
  by destruct (Hlog l1 c d1 l2 Hcall) as (_ & ? & ?).
Qed.

(** A runtime that starts the candidate with another user: the candidate is
    created, found different and cleaned up again. *)
Definition sim_drift : LifecycleRuntime sim :=
  {| PullImage := PullImage; ObserveImage := ObserveImage;
     CreateLifecycleNetwork := CreateLifecycleNetwork; ObserveNetwork := ObserveNetwork;
     CreateLifecycleContainer := fun p => CreateLifecycleContainer
       {| pl_Image := pl_Image p; pl_Name := pl_Name p; pl_Network := pl_Network p;
          pl_User := "1234"; pl_ImageDefaultUser := ""; pl_ImageDefaultVolumes := [];
          pl_Labels := pl_Labels p; pl_Command := pl_Command p; pl_Environment := pl_Environment p;
          pl_DataPath := pl_DataPath p; pl_ReadOnly := pl_ReadOnly p; pl_Storage := pl_Storage p;
          pl_PortBindings := pl_PortBindings p; pl_RestartPolicy := pl_RestartPolicy p;
          pl_NetworkAliases := []; pl_Dependencies := []; pl_Devices := pl_Devices p;
          pl_DeviceRequests := pl_DeviceRequests p |};
     ObserveContainer := ObserveContainer; StartContainer := StartContainer;
     StopContainer := StopContainer; RemoveContainer := RemoveContainer;
     RemoveLifecycleNetwork := RemoveLifecycleNetwork; WaitContainer := WaitContainer |}.
Definition sim_host_drift : Host sim :=
  {| host_runtime := sim_drift; host_now := host_now; host_crash := host_crash;
     host_fault := host_fault; host_hook := host_hook |}.
Notation sim_cleaned :=
  (Replace (HostE := sim_host_drift) plain_sha plan1 (World run2 (Sim ∅ ∅ 0 None) [])).

Lemma replace_removes_only_retired_witness :
  exists l1 d1, removable plan1 l1 d1 "id-kitpro-inst-a-1".
Proof.
  assert (fst <$> w_log (final sim_cleaned) !! 6%nat = Some (CRemove "id-kitpro-inst-a-1" (Ok tt))) as H
    by (vm_compute; reflexivity).
  apply log_at in H as (l1 & d1 & l2 & Hl). exists l1, d1.
  exact (proj1 (replace_removes_only_retired sim sim_host_drift coordinator_evidence plain_sha plan1 run2
           (Sim ∅ ∅ 0 None) l1 l2 _ d1 plan1_ready Hl) _ _ eq_refl).
Defined.
