(* ===== verification/SessionProofs.v ===== *)
(** * Sessions: what every lifecycle program keeps

    A session is the run of one program on one installation.  Whatever the
    program does, its transactions are steps of the system on that
    installation, and its container mutations are in the step ledger: each
    was dispatched under the operation's lease before it was sent, and no
    ledger entry covers two of them.

    The section is generic in what else is kept ([X]) and in the part of the
    database transitions that [X] relies on ([R]). *)

From S2P Require Import Prelude Protocol Exposure HelperDB Coordinator CoordinatorProofs CoordinatorProps Containers LifecycleStore LifecycleStoreProofs MultiStore ReconciliationStore MultiStoreProofs LifecycleStoreProps Runner RunnerProofs Reconciliation MultiRunner.
From stdpp Require Import base gmap strings list sorting.
From Stdlib Require Import ZArith Lia.

Open Scope Z_scope.

Notation ledger_key := (string * Z * string * string * Z)%type.

(** The calls that go through the ledger, with the actions they are recorded
    under and the identity the ledger expects; a container to be created has
    none yet. *)
Definition ledgered (c : rt_call) : option (list string * option string) :=
  match c with
  | CPull image _ => Some (["pull"], Some image)
  | CCreateContainer plan _ => Some (["create"], None)
  | CStart id _ => Some (["start"; "repair_start"], Some id)
  | CStop id _ => Some (["stop"; "repair_stop"], Some id)
  | CRemove id _ => Some (["remove"; "repair_remove"], Some id)
  | CCreateNetwork _ _ | CRemoveNetwork _ _ | CObserveImage _ _ | CObserveNetwork _ _
  | CObserveContainer _ _ | CWait _ _ _ | CObserveIdentity _ => None
  end.

(** The entry [k] of the ledger covers the call [c] made on [d]: it is an
    entry of the operation, for this action and this identity, dispatched and
    not yet resolved, and the operation holds the lease. *)
Definition covers (inst op : string) (token : Z) (c : rt_call) (d : db) (k : ledger_key) : Prop :=
  exists n component action r actions id,
    k = (op, n, component, action, 1) /\ ledgered c = Some (actions, id) /\ action ∈ actions /\
    db_steps d !! k = Some r /\ (forall i, id = Some i -> st_expected_id r = i) /\
    is_Some (st_dispatched_at r) /\
    st_outcome r = OutcomeUnknown /\ exists o l, gen_fenced d inst op token o l.

Definition dispatched (d : db) (k : ledger_key) : Prop :=
  exists r, db_steps d !! k = Some r /\ is_Some (st_dispatched_at r).

(** The calls of a log that must be covered. *)
Definition mutations (exempt : rt_call * db -> bool) (l : list (rt_call * db)) : list (rt_call * db) :=
  filter (fun x => is_Some (ledgered x.1) /\ exempt x = false) l.

(** Every such call has an entry of its own. *)
Definition ledger_ok (inst op : string) (token : Z) (exempt : rt_call * db -> bool) (d : db) (l : log) : Prop :=
  exists ks, NoDup ks /\ Forall (dispatched d) ks /\
    Forall2 (fun x k => covers inst op token x.1 x.2 k) (mutations exempt l) ks.

Definition frame_same (d d' : db) : Prop :=
  db_gens d' = db_gens d /\ db_comps d' = db_comps d /\ db_binds d' = db_binds d.

(** A transaction is a step of the system on [inst] that [R] allows. *)
Definition tx_in (inst : string) (R : relation db) {A} (m : string -> tx db A) : Prop :=
  forall now a d d', sys_inv d -> m now d = Ok (a, d') -> d' = d \/ (runner_step inst d d' /\ R d d').

Lemma tx_in_mono inst (R R' : relation db) {A} (m : string -> tx db A) :
  (forall d d', R d d' -> R' d d') -> tx_in inst R m -> tx_in inst R' m.
Proof. intros HR Hm now a d d' Hi H. destruct (Hm now a d d' Hi H) as [?|[? ?]]; auto. Qed.

Lemma dispatched_step inst d d' k : sys_inv d -> runner_step inst d d' -> dispatched d k -> dispatched d' k.
Proof.
  intros Hi Hs (r & Hr & Hd). destruct (sys_step_effect d d' Hi (rs_sys _ _ _ Hs)) as (_ & _ & i & He).
  pose proof (se_steps _ _ _ He k) as Hk. rewrite Hr in Hk. cbn in Hk.
  destruct (db_steps d' !! k) as [r'|] eqn:Hr'; [|done]. exists r'. split; [done|].
  destruct Hk as (_ & _ & _ & Hk). by rewrite Hk.
Qed.

Lemma mutations_app exempt l c d :
  ledgered c = None \/ exempt (c, d) = true -> mutations exempt (l ++ [(c, d)]) = mutations exempt l.
Proof.
  intros H. unfold mutations. rewrite filter_app, filter_cons_False, filter_nil, app_nil_r; [done|].
  cbn. intros [[x Hx] He]. destruct H as [H|H]; rewrite H in *; discriminate.
Qed.

Lemma mutations_snoc exempt l c d :
  is_Some (ledgered c) -> exempt (c, d) = false -> mutations exempt (l ++ [(c, d)]) = mutations exempt l ++ [(c, d)].
Proof. intros Hc He. unfold mutations. by rewrite filter_app, filter_cons_True, filter_nil. Qed.

Lemma look_unledgered c : observes c = true -> ledgered c = None.
Proof. by destruct c. Qed.


Section session.
Context `{Ev : Evidence} (op inst : string) (token : Z) (d0 : db) (exempt : rt_call * db -> bool).

Record Sess (d : db) (l : log) : Prop := {
  ss_inv : sys_inv d;
  ss_run : rtc sys_step d0 d;
  ss_leases : db_leases d = db_leases d0;
  ss_events : exists es, db_events d = db_events d0 ++ es;
  ss_other : other_same inst d0 d;
  ss_ledger : ledger_ok inst op token exempt d l
}.

Lemma Sess_start : sys_inv d0 -> Sess d0 [].
Proof.
  intros Hi. split; try done; [exists []; by rewrite app_nil_r|]. exists []. split_and!; try constructor.
Qed.

Lemma Sess_step d d' l : Sess d l -> runner_step inst d d' -> Sess d' l.
Proof.
  intros [Hi Hr Hl [es He] Ho Hk] Hs. pose proof Hs as [Hs1 Hs2 [es' Hs3] Hs4].
  destruct (sys_step_effect d d' Hi Hs1) as (Hinv & _).
  split; [done|by eapply rtc_r|congruence| |by eapply other_same_trans|].
  - exists (es ++ es'). by rewrite Hs3, He, app_assoc.
  - destruct Hk as (ks & Hnd & Hd & Hc). exists ks. split_and!; [done| |done].
    eapply Forall_impl; [exact Hd|]. intros k. by apply (dispatched_step inst).
Qed.

Lemma Sess_call d l c : Sess d l -> ledgered c = None \/ exempt (c, d) = true -> Sess d (l ++ [(c, d)]).
Proof.
  intros [Hi Hr Hl He Ho (ks & Hk)] Hc. split; try done. exists ks. by rewrite mutations_app.
Qed.

(** A ledgered call right after its dispatch. *)
Definition pending (d : db) (l : log) (k : ledger_key) : Prop :=
  exists ks, NoDup ks /\ Forall (dispatched d) ks /\ dispatched d k /\ k ∉ ks /\
    Forall2 (fun x k => covers inst op token x.1 x.2 k) (mutations exempt l) ks.

Lemma Sess_covered d l c k :
  Sess d l -> pending d l k -> covers inst op token c d k -> exempt (c, d) = false ->
  Sess d (l ++ [(c, d)]).
Proof.
  intros [Hi Hr Hl He Ho _] (ks & Hnd & Hd & Hk & Hn & Hc) Hcov Hex. split; try done.
  exists (ks ++ [k]). split_and!.
  - apply NoDup_app. split_and!; [done| |apply NoDup_singleton].
    intros x Hx Hx'. apply list_elem_of_singleton in Hx' as ->. done.
  - by apply Forall_app_2; [|apply Forall_singleton].
  - rewrite mutations_snoc; [|destruct Hcov as (? & ? & ? & ? & ? & ? & _ & -> & _); eauto|done].
    apply Forall2_app; [done|by constructor].
Qed.

(** ** Programs that keep an assertion *)

(** [X] survives transactions that [R] allows, and observations. *)
Record closed (R : relation db) (X : assn) : Prop := {
  cl_step d d' l : Sess d l -> X d l -> runner_step inst d d' -> R d d' -> X d' l;
  cl_look d l c : X d l -> observes c = true -> X d (l ++ [(c, d)])
}.

Definition K (X : assn) (d : db) (l : log) : Prop := Sess d l /\ X d l.

Section rules.
Context {E : Type} `{HostE : Host E} (R : relation db).

Definition keeps (X : assn) {A} (m : prog E A) : Prop :=
  forall d l, K X d l -> wp m (fun _ => K X) (K X) d l.

Lemma keeps_ret X {A} (a : A) : keeps X (pret a).
Proof. intros d l H. by apply wp_ret. Qed.

Lemma keeps_bind X {A B} (m : prog E A) (f : A -> prog E B) :
  keeps X m -> (forall a, keeps X (f a)) -> keeps X (pbind m f).
Proof.
  intros Hm Hf d l H. apply wp_bind. eapply wp_mono; [by apply Hm| |done]. intros a. apply Hf.
Qed.

Lemma keeps_try X {A B} (m : prog E (res A)) (h : error -> prog E B) (k : A -> prog E B) :
  keeps X m -> (forall e, keeps X (h e)) -> (forall a, keeps X (k a)) -> keeps X (ptry m h k).
Proof. intros Hm Hh Hk. apply keeps_bind; [done|]. intros [a|e]; auto. Qed.

Lemma K_step X d d' l : closed R X -> K X d l -> runner_step inst d d' -> R d d' -> K X d' l.
Proof. intros HX [Hs Hx] Hr HR. split; [by eapply Sess_step|by eapply cl_step]. Qed.

Lemma K_look X d l c : closed R X -> K X d l -> observes c = true -> K X d (l ++ [(c, d)]).
Proof.
  intros HX [Hs Hx] Hc. split; [|by eapply cl_look].
  apply Sess_call; [done|]. left. by apply look_unledgered.
Qed.

(** A query whose answer is known to satisfy [P]. *)
Lemma keeps_try_read X {A B} (m : tx db A) (P : A -> Prop) (h : error -> prog E B) (k : A -> prog E B) :
  (forall d a d', m d = Ok (a, d') -> d' = d /\ P a) ->
  (forall e, keeps X (h e)) -> (forall a, P a -> keeps X (k a)) ->
  keeps X (ptry (store (fun _ => m)) h k).
Proof.
  intros Hm Hh Hk d l H. apply wp_try. apply wp_store; [done|intros e; by apply Hh|].
  intros now a d' Ha. destruct (Hm d a d' Ha) as [-> HP]. by apply Hk.
Qed.

Lemma keeps_look X {A} (f : E -> res A * E) c :
  closed R X -> (forall r, observes (c r) = true) -> keeps X (runtime f c).
Proof. intros HX Hc d l H. apply wp_runtime; [done|]. intros r. by apply K_look. Qed.

Lemma keeps_store X {A} (m : string -> tx db A) : closed R X -> tx_in inst R m -> keeps X (store m).
Proof.
  intros HX Hm d l H. apply wp_store; [done|done|]. intros now a d' Ht.
  destruct (Hm now a d d' (ss_inv _ _ (proj1 H)) Ht) as [->|[Hs HR]]; [done|by eapply K_step].
Qed.

Lemma wp_runHook (h : string -> string -> string -> E -> option error * E) action component point
    (Q : option error -> assn) (C : assn) d l :
  C d l -> (forall r, Q r d l) -> wp (runHook h action component point) Q C d l.
Proof.
  intros HC HQ e. unfold runHook, alive. cbn. destruct (host_crash e) as [[] e1]; [done|].
  cbn. destruct (h action component point e1). apply HQ.
Qed.

Lemma keeps_runHook X (h : string -> string -> string -> E -> option error * E) action component point :
  keeps X (runHook h action component point).
Proof. intros d l H. by apply wp_runHook. Qed.

(** ** Ledgered mutations *)
Context (HR : forall d d', frame_same d d' -> R d d').

Definition mine (plan : MultiPlan) : Prop :=
  mp_OperationID plan = op /\ mp_InstallationID plan = inst /\ mp_FencingToken plan = token.

(** Transactions on the ledger. *)
Lemma ledger_tx plan d u d' : mine plan ->
  (exists c a e n now, BeginComponentStep plan c a e n now d = Ok (u, d')) \/
  (exists c a n now, DispatchComponentStep plan c a n now d = Ok (u, d')) \/
  (exists c a n oid oc e now, FinishComponentStep plan c a n oid oc e now d = Ok (u, d')) ->
  runner_step inst d d' /\ frame_same d d'.
Proof.
  intros (Hop & Hinst & Htok) H. destruct (component_step_effect plan d u d' H) as [[He Ha] _].
  rewrite Hinst in He. split.
  - split; [|apply Ha| |by apply effect_other].
    + right. destruct H as [(?&?&?&?&?&H)|[(?&?&?&?&H)|(?&?&?&?&?&?&?&H)]];
        [by eapply l_BeginStep|by eapply l_DispatchStep|by eapply l_FinishStep].
    + exists []. rewrite app_nil_r.
      destruct H as [(?&?&?&?&?&H)|[(?&?&?&?&H)|(?&?&?&?&?&?&?&H)]];
        [apply BeginComponentStep_Ok in H|apply DispatchComponentStep_Ok in H|apply FinishComponentStep_Ok in H];
        naive_solver.
  - destruct H as [(?&?&?&?&?&H)|[(?&?&?&?&H)|(?&?&?&?&?&?&?&H)]];
      [apply BeginComponentStep_Ok in H|apply DispatchComponentStep_Ok in H|apply FinishComponentStep_Ok in H];
      unfold frame_same; naive_solver.
Qed.

Lemma finish_tx plan c a oid oc e : mine plan ->
  tx_in inst R (FinishComponentStep plan c a 1 oid oc e).
Proof.
  intros Hp now u d d' _ H. right. destruct (ledger_tx plan d u d' Hp) as [? ?]; [right; right; eauto 10|auto].
Qed.

Lemma keeps_finish X plan c a oid oc e : closed R X -> mine plan -> keeps X (finish_step plan c a oid oc e).
Proof. intros HX Hp. apply keeps_store; [done|]. by apply finish_tx. Qed.

(** An entry that is recorded and not dispatched. *)
Definition begun (k : ledger_key) (expected : string) (d : db) : Prop :=
  exists r, db_steps d !! k = Some r /\ st_expected_id r = expected /\ st_dispatched_at r = None.

Lemma wp_stepIntent X plan c a e (Q : res unit -> assn) (C : assn) d l :
  closed R X -> mine plan -> (forall d l, K X d l -> C d l) -> K X d l ->
  (forall err, Q (Err err) d l) ->
  (forall d', K X d' l -> begun (step_key plan c a 1) e d' -> Q (Ok tt) d' l) ->
  wp (stepIntent plan c a e) Q C d l.
Proof.
  intros HX Hp HC HK HE HQ. apply wp_store; [by apply HC|done|]. intros now [] d' Ht.
  destruct (ledger_tx plan d tt d' Hp) as [Hs Hf]; [left; eauto 10|].
  apply HQ; [eapply K_step; eauto|]. apply BeginComponentStep_Ok in Ht as (_ & _ & r & -> & <- & _ & Hd).
  exists r. cbn. by rewrite lookup_insert_eq.
Qed.

(** An entry that is dispatched and covers no call yet. *)
Definition sent (k : ledger_key) (expected : string) (d : db) (l : log) : Prop :=
  pending d l k /\ (exists o l, gen_fenced d inst op token o l) /\
  exists r, db_steps d !! k = Some r /\ st_expected_id r = expected /\ is_Some (st_dispatched_at r) /\
    st_outcome r = OutcomeUnknown.

Lemma wp_dispatch X plan c a e (Q : res unit -> assn) (C : assn) d l :
  closed R X -> mine plan -> (forall d l, K X d l -> C d l) -> K X d l ->
  begun (step_key plan c a 1) e d ->
  (forall err, Q (Err err) d l) ->
  (forall d', K X d' l -> sent (step_key plan c a 1) e d' l -> Q (Ok tt) d' l) ->
  wp (E:=E) (store (DispatchComponentStep plan c a 1)) Q C d l.
Proof.
  intros HX Hp HC HK (r0 & Hr0 & He & Hn) HE HQ. apply wp_store; [by apply HC|done|]. intros now [] d' Ht.
  destruct (ledger_tx plan d tt d' Hp) as [Hs Hf]; [right; left; eauto 10|].
  assert (K X d' l) as HK' by (eapply K_step; eauto).
  apply HQ; [done|]. pose proof (ss_ledger _ _ (proj1 HK)) as (ks & Hnd & Hd & Hc).
  destruct Hp as (Hop & Hin & Htok). apply DispatchComponentStep_Ok in Ht as (Hfen & r & Hr & _ & ->).
  unfold plan_fenced in Hfen. rewrite Hop, Hin, Htok in Hfen. simplify_eq. split_and!.
  - exists ks. split_and!; try done.
    + eapply Forall_impl; [exact Hd|]. intros k. apply (dispatched_step inst); [apply HK|done].
    + eexists. cbn. rewrite lookup_insert_eq. split; [done|]. cbn. eauto.
    + rewrite Forall_forall in Hd. intros Hk. apply Hd in Hk as (r' & Hr' & Hd'). simplify_eq.
      rewrite Hn in Hd'. by destruct Hd'.
  - exact Hfen.
  - eexists. cbn. rewrite lookup_insert_eq. split; [done|]. cbn. eauto.
Qed.

(** The call that the dispatched entry covers turns [X0] into [X1]. *)
Lemma wp_covered X0 X1 {B} (f : E -> res B * E) c plan component action e (Q : res B -> assn) (C : assn) d l :
  mine plan -> K X0 d l -> sent (step_key plan component action 1) e d l -> C d l ->
  (forall r, exists actions id, ledgered (c r) = Some (actions, id) /\ action ∈ actions /\
     (forall i, id = Some i -> i = e) /\ exempt (c r, d) = false /\ X1 d (l ++ [(c r, d)])) ->
  (forall r, K X1 d (l ++ [(c r, d)]) -> Q r d (l ++ [(c r, d)])) ->
  wp (runtime f c) Q C d l.
Proof.
  intros (Hop & _ & _) [HS HX] (Hp & Hf & r & Hr & He & Hd & Ho) HC Hc HQ.
  apply wp_runtime; [done|]. intros x. apply HQ.
  destruct (Hc x) as (actions & id & Hl & Ha & Hid & Hex & HX1). split; [|done].
  eapply Sess_covered; [done|exact Hp| |done].
  exists (mp_Generation plan), component, action, r, actions, id.
  split_and!; try done; [by unfold step_key; rewrite Hop|]. intros i Hi. by rewrite (Hid i Hi).
Qed.

Lemma wp_keeps X {A} (m : prog E A) (Q : A -> assn) (C : assn) d l :
  keeps X m -> K X d l -> (forall a d l, K X d l -> Q a d l) -> (forall d l, K X d l -> C d l) ->
  wp m Q C d l.
Proof. intros Hm HK HQ HC. eapply wp_mono; [by apply Hm|auto|auto]. Qed.
End rules.
End session.

(** ** Transactions of the programs *)

(** A query leaves the database alone. *)
Definition reads {A} (m : tx db A) : Prop := forall d a d', m d = Ok (a, d') -> d' = d.

Lemma reads_bind {A B} (m : tx db A) (f : A -> tx db B) :
  reads m -> (forall a, reads (f a)) -> reads (tbind m f).
Proof.
  intros Hm Hf d b d' H. apply tbind_Ok in H as (a & d1 & H1 & H2).
  apply Hm in H1 as ->. by apply Hf in H2.
Qed.

Lemma reads_row {A} (q : db -> option A) : reads (trow q).
Proof. intros d a d' H. by apply trow_Ok in H as [_ <-]. Qed.

Lemma reads_ret {A} (a : A) : reads (tret a).
Proof. intros d b d' H. by apply tret_Ok in H as [_ <-]. Qed.

Lemma reads_get : reads tget.
Proof. intros d b d' H. by apply tget_Ok in H as [_ <-]. Qed.
#[export] Hint Resolve reads_bind reads_row reads_ret reads_get : reads.

Lemma reads_load installation n : reads (LoadMultiGeneration installation n).
Proof. unfold LoadMultiGeneration. auto with reads. Qed.
#[export] Hint Resolve reads_load : reads.

Lemma reads_load_all installation ns : reads (load_all installation ns).
Proof. induction ns; cbn; auto with reads. Qed.
#[export] Hint Resolve reads_load_all : reads.

Lemma reads_MultiCurrent installation : reads (MultiCurrent installation).
Proof. unfold MultiCurrent. auto with reads. Qed.
Lemma reads_MultiByOperation op : reads (MultiByOperation op).
Proof. unfold MultiByOperation. auto with reads. Qed.
Lemma reads_MultiOlderRetained installation keep : reads (MultiOlderRetained installation keep).
Proof. unfold MultiOlderRetained. auto with reads. Qed.
Lemma reads_ReconciliationGenerations installation : reads (ReconciliationGenerations installation).
Proof. unfold ReconciliationGenerations. auto with reads. Qed.
Lemma reads_LatestRemoved installation : reads (LatestRemovedGeneration installation).
Proof. unfold LatestRemovedGeneration. auto with reads. Qed.
Lemma reads_Current installation : reads (Current installation).
Proof. unfold Current. auto with reads. Qed.
#[export] Hint Resolve reads_MultiCurrent reads_MultiByOperation reads_MultiOlderRetained
  reads_ReconciliationGenerations reads_LatestRemoved reads_Current : reads.

Lemma tx_reads inst R {A} (m : tx db A) : reads m -> tx_in inst R (fun _ => m).
Proof. intros Hm now a d d' _ H. left. by eapply Hm. Qed.

(** A store transaction that only appends events. *)
Lemma effect_step inst d d' :
  lstep d d' -> store_effect inst d d' -> no_authority d d' ->
  (exists es, db_events d' = db_events d ++ es) -> runner_step inst d d'.
Proof. intros Hl He Ha Hev. split; [by right|apply Ha|done|by apply effect_other]. Qed.

Ltac same_events := exists []; rewrite app_nil_r.

Lemma only_comps_events k d d' : only_comps k d d' -> db_events d' = db_events d.
Proof. intros (m & -> & _). done. Qed.
Lemma only_bindings_events k d d' : only_bindings k d d' -> db_events d' = db_events d.
Proof. intros (m & -> & _). done. Qed.

Lemma RecordMultiContainer_step plan c cid iid h s v now d u d' :
  RecordMultiContainer plan c cid iid h s v now d = Ok (u, d') ->
  runner_step (mp_InstallationID plan) d d' /\ db_gens d' = db_gens d /\
  only_comps (mplan_key plan) d d'.
Proof.
  intros H. pose proof (RecordMultiContainer_effect _ _ _ _ _ _ _ _ _ _ _ H) as ((He & Ha) & _).
  assert (only_comps (mplan_key plan) d d') as Ho.
  { unfold RecordMultiContainer in H. apply fenced_bind in H as [_ H].
    apply tbind_Ok in H as (n & d1 & Hu & H). apply tassert_Ok in H as [_ <-].
    eapply update_comps_only; [|exact Hu]. naive_solver. }
  split_and!; [|by destruct Ho as (m & -> & _)|done].
  apply effect_step; [by eapply l_RecordMultiContainer|exact He|exact Ha|].
  same_events. by eapply only_comps_events.
Qed.

Lemma MarkActiveRemoved_step inst gen op t d u d' :
  MarkActiveRemoved inst gen op t d = Ok (u, d') -> runner_step inst d d'.
Proof.
  intros H. pose proof (MarkActiveRemoved_effect _ _ _ _ _ _ _ H) as (He & Ha & _).
  apply effect_step; [by eapply l_MarkActiveRemoved|exact He|exact Ha|]. same_events.
  unfold MarkActiveRemoved in H. by inv_gen.
Qed.

Lemma PromoteState_step g nid iid h s op t now d u d' :
  PromoteMigratedState g nid iid h s op t now d = Ok (u, d') -> runner_step (gn_InstallationID g) d d'.
Proof.
  intros H. pose proof (PromoteMigratedState_effect _ _ _ _ _ _ _ _ _ _ _ H) as (He & Ha).
  apply effect_step; [by eapply l_Promote|exact He|exact Ha|]. same_events.
  unfold PromoteMigratedState in H. by inv_gen.
Qed.

Lemma PromoteMulti_step sha g nid obs s op t now d u d' :
  PromoteMigratedMulti sha g nid obs s op t now d = Ok (u, d') -> runner_step (mg_InstallationID g) d d'.
Proof.
  intros H. pose proof (PromoteMigratedMulti_effect _ _ _ _ _ _ _ _ _ _ _ H) as ((He & Ha) & _).
  apply effect_step; [by eapply l_PromoteMulti|exact He|exact Ha|]. same_events.
  unfold PromoteMigratedMulti in H. apply tbind_Ok in H as (? & ? & Hs & H).
  apply tassert_Ok in Hs as [_ <-]. apply tbind_Ok in H as (? & ? & Hf & H).
  apply verifyGenerationFence_Ok in Hf as [-> _]. apply tbind_Ok in H as (n & d1 & Hu & H).
  apply update_gens_Ok in Hu as (_ & -> & ->). apply tbind_Ok in H as (? & ? & Hs & H).
  apply tassert_Ok in Hs as [_ <-].
  apply (tforeach_only (mgen_key g)) in H; [|by intros; eapply promote_component_only].
  by apply only_comps_events in H.
Qed.

Lemma SaveReconciliation_step inst r d u d' :
  SaveReconciliation r d = Ok (u, d') -> runner_step inst d d' /\ frame_same d d'.
Proof.
  intros H. pose proof (SaveReconciliation_effect inst _ _ _ _ H) as ((He & Ha) & Hd).
  split; [|by rewrite Hd]. apply effect_step; [by eapply l_SaveReconciliation|exact He|exact Ha|].
  same_events. by rewrite Hd.
Qed.

Lemma MarkReconciledAbsent_step g d u d' :
  MarkReconciledAbsent g d = Ok (u, d') -> runner_step (mg_InstallationID g) d d'.
Proof.
  intros H. pose proof (MarkReconciledAbsent_effect _ _ _ _ H) as (He & Ha).
  apply effect_step; [by eapply l_MarkReconciledAbsent|exact He|exact Ha|]. same_events.
  unfold MarkReconciledAbsent in H. apply tbind_Ok in H as (n & d1 & Hu & H).
  case_decide; by inv_store.
Qed.

Lemma MarkNonActiveRemoved_step g op t d u d' :
  MarkNonActiveRemoved g op t d = Ok (u, d') -> runner_step (mg_InstallationID g) d d'.
Proof.
  intros H. pose proof (MarkNonActiveRemoved_effect _ _ _ _ _ _ H) as (He & Ha & _).
  apply effect_step; [by eapply l_MarkNonActiveRemoved|exact He|exact Ha|]. same_events.
  unfold MarkNonActiveRemoved in H. by inv_gen.
Qed.

Lemma MarkRetainedPending_step g op t d u d' :
  MarkRetainedCleanupPending g op t d = Ok (u, d') -> runner_step (mg_InstallationID g) d d'.
Proof.
  intros H. pose proof (MarkRetainedCleanupPending_effect _ _ _ _ _ _ H) as (He & Ha & _).
  apply effect_step; [by eapply l_MarkRetainedPending|exact He|exact Ha|]. same_events.
  unfold MarkRetainedCleanupPending in H. by inv_gen.
Qed.

Lemma record_tx `{Ev : Evidence} inst (R : relation db) op token phase outcome facts :
  (forall d d', frame_same d d' -> R d d') -> tx_in inst R (record_phase op token phase outcome facts).
Proof.
  intros HR now u d d' Hi H. right. destruct (record_step op token phase outcome facts now d u d' inst Hi H) as [Hs _].
  split; [done|]. apply HR. apply record_phase_ok in H as (_ & (Hg & Hc & Hb & _) & _). done.
Qed.

(** ** What the queries return *)
Lemma MultiCurrent_Ok installation d g d' : MultiCurrent installation d = Ok (g, d') ->
  d' = d /\ mg_InstallationID g = installation /\
  exists r, db_gens d !! mgen_key g = Some r /\ is_current (g_status r) /\ g = load_multi (mgen_key g) r d.
Proof.
  intros H. unfold MultiCurrent in H. apply tbind_Ok in H as ([[i n] r] & d1 & Hr & H).
  apply trow_Ok in Hr as [Hr <-]. apply head_merge_sort in Hr. apply elem_of_select in Hr as [Hr [Hi Hs]].
  cbn in Hi. subst i. unfold LoadMultiGeneration in H. cbn in H. apply trow_Ok in H as [H <-].
  rewrite Hr in H. cbn in H. injection H as <-. split_and!; [done..|]. exists r. done.
Qed.

Lemma LoadMulti_Ok installation n d g d' : LoadMultiGeneration installation n d = Ok (g, d') ->
  d' = d /\ mgen_key g = (installation, n) /\
  exists r, db_gens d !! mgen_key g = Some r /\ g = load_multi (mgen_key g) r d.
Proof.
  unfold LoadMultiGeneration. intros [H <-]%trow_Ok. destruct (db_gens d !! _) as [r|] eqn:Hr; [|done].
  injection H as <-. cbn. eauto.
Qed.

Lemma load_all_Ok installation ns d gs d' : load_all installation ns d = Ok (gs, d') ->
  d' = d /\ Forall (fun g => mg_InstallationID g = installation /\
     exists r, db_gens d !! mgen_key g = Some r /\ g = load_multi (mgen_key g) r d) gs.
Proof.
  revert gs d'. induction ns as [|n ns IH]; intros gs d' H; cbn in H.
  { apply tret_Ok in H as [<- <-]. auto. }
  apply tbind_Ok in H as (g & d1 & Hg & H). apply LoadMulti_Ok in Hg as (-> & Hk & Hr).
  apply tbind_Ok in H as (gs' & d2 & Hgs & H). apply IH in Hgs as [-> Hgs].
  apply tret_Ok in H as [<- <-]. split; [done|]. constructor; [|done]. split; [|done].
  by injection Hk.
Qed.

Lemma ReconciliationGenerations_Ok installation d gs d' : ReconciliationGenerations installation d = Ok (gs, d') ->
  d' = d /\ Forall (fun g => mg_InstallationID g = installation /\
     exists r, db_gens d !! mgen_key g = Some r /\ g = load_multi (mgen_key g) r d) gs.
Proof.
  unfold ReconciliationGenerations. intros H. apply tbind_Ok in H as (? & ? & Hd & H).
  apply tget_Ok in Hd as [-> <-]. by apply load_all_Ok in H.
Qed.
