(* ===== verification/MutationProofs.v ===== *)
(** * The programs that mutate components keep a session

    [mutateExisting] and [mutateComponent] send one ledgered call each; the
    rules say what is known before ([X0]) and after it ([X1]). *)

From S2P Require Import Prelude Protocol Exposure HelperDB Coordinator CoordinatorProofs CoordinatorProps Containers LifecycleStore LifecycleStoreProofs MultiStore ReconciliationStore MultiStoreProofs LifecycleStoreProps Runner RunnerProofs Reconciliation MultiRunner SingleRunner Repair SessionProofs.
From stdpp Require Import base gmap strings list sorting.
From Stdlib Require Import ZArith Lia.

Open Scope Z_scope.

Create HintDb keeps.
Create HintDb txs.
#[export] Hint Extern 1 (tx_in _ _ (fun _ => _)) => apply tx_reads; solve [auto with reads] : txs.

(** Walks a program that keeps an assertion; observations and hooks are
    discharged, transactions and called programs are left to hints. *)
Ltac keeps_walk :=
  repeat first
    [ progress intros
    | apply keeps_ret
    | apply keeps_runHook
    | eapply keeps_look; [eassumption | intros; reflexivity]
    | eapply keeps_finish; [first [eassumption | intros; exact I] | eassumption | assumption]
    | eapply keeps_store; [eassumption | solve [eauto with txs]]
    | solve [eauto with keeps]
    | apply keeps_try | apply keeps_bind
    | progress cbv zeta
    | progress unfold fail, fail_with
    | case_match ].

(** [x] is the call recorded under [action] for [id]. *)
Definition sent_as (action id : string) (x : rt_call) : Prop :=
  exists actions, ledgered x = Some (actions, Some id) /\ action ∈ actions.

Section session.
Context `{Ev : Evidence} (sha : string -> string) (op inst : string) (token : Z) (d0 : db)
  (exempt : rt_call * db -> bool).
Notation Sess := (Sess op inst token d0 exempt).
Notation K := (K op inst token d0 exempt).
Notation closed := (closed op inst token d0 exempt).
Notation keeps := (keeps op inst token d0 exempt).
Notation mine := (mine op inst token).
Notation sent := (sent op inst token exempt).

Section rules.
Context {E : Type} `{HostE : Host E} (R : relation db) (HR : forall d d', frame_same d d' -> R d d').

(** What a mutation call does to an assertion. *)
Definition sends (X0 X1 : assn) (action id : string) : Prop :=
  forall d l x, K X0 d l -> sent_as action id x -> exempt (x, d) = false /\ X1 d (l ++ [(x, d)]).

Lemma wp_sent X0 X1 plan component action id (f : E -> res unit * E) c (Q : res unit -> assn) (C : assn) d l :
  mine plan -> sends X0 X1 action id -> (forall r, sent_as action id (c r)) -> K X0 d l ->
  sent (step_key plan component action 1) id d l -> C d l ->
  (forall r l', K X1 d l' -> Q r d l') -> wp (runtime f c) Q C d l.
Proof.
  intros Hp HX Hc HK Hs HC HQ. eapply (wp_covered op inst token d0 exempt X0 X1); [done..| |auto].
  intros r. destruct (Hc r) as (actions & Hl & Ha). exists actions, (Some id).
  destruct (HX d l (c r) HK (Hc r)). split_and!; try done. congruence.
Qed.

Lemma wp_call_by X0 X1 plan component action id (call : prog E (res unit)) (Q : res unit -> assn) (C : assn) d l :
  mutation_call action id = Some call \/ repair_call action id = Some call ->
  mine plan -> sends X0 X1 action id -> K X0 d l ->
  sent (step_key plan component action 1) id d l -> C d l ->
  (forall r l', K X1 d l' -> Q r d l') -> wp call Q C d l.
Proof.
  intros Hcall Hp HX HK Hs HC HQ.
  assert (exists f c, call = runtime f c /\ forall r, sent_as action id (c r)) as (f & c & -> & Hc).
  { unfold mutation_call, repair_call in Hcall.
    destruct Hcall as [Hcall|Hcall]; repeat (case_decide; simplify_eq);
      (do 2 eexists; split; [reflexivity|]; intros r; eexists; split; [reflexivity|set_solver]). }
  by eapply wp_sent.
Qed.

Lemma keeps_confirm X plan c action want err :
  closed R X -> mine plan -> keeps X (confirm_mutation (E:=E) plan c action want err).
Proof using HR. intros HX Hp. unfold confirm_mutation. keeps_walk. Qed.

(** A repair records its intent as evidence between the two ledger entries. *)
Lemma record_of plan phase outcome facts : mine plan ->
  tx_in inst R (record_phase (mp_OperationID plan) (mp_FencingToken plan) phase outcome facts).
Proof using HR. intros (-> & _ & ->). by apply record_tx. Qed.
#[local] Hint Resolve record_of : txs.

Lemma keeps_verifyExact X g c : closed R X -> keeps X (verifyExactComponent (E:=E) sha g c).
Proof. intros HX. unfold verifyExactComponent. keeps_walk. Qed.
#[local] Hint Resolve keeps_verifyExact : keeps.

Lemma keeps_confirm_repair X plan g c action want err :
  closed R X -> mine plan -> keeps X (confirm_repair (E:=E) sha plan g c action want err).
Proof using HR. intros HX Hp. unfold confirm_repair, confirm_identity. keeps_walk. Qed.

Lemma keeps_mutateComponent X plan g c action want :
  closed R X -> mine plan -> sends X X action (cm_ContainerID c) ->
  keeps X (mutateComponent (E:=E) sha plan g c action want).
Proof using HR.
  intros HX Hp Hs d l HK. unfold mutateComponent.
  apply wp_try. eapply (wp_stepIntent op inst token d0 exempt R HR X); [done..|intros e; by apply wp_ret|].
  intros d1 HK1 Hbegun. apply wp_try. apply wp_store; [done|intros e; by apply wp_ret|].
  intros now [] d2 Hrec. assert (K X d2 l) as HK2.
  { destruct (record_of plan _ _ _ Hp now tt d1 d2 (ss_inv _ _ _ _ _ _ _ (proj1 HK1)) Hrec) as [->|[? ?]]; [done|].
    by eapply K_step. }
  assert (db_steps d2 = db_steps d1) as Hsame.
  { apply record_phase_ok in Hrec as (_ & (_ & _ & _ & Hst & _) & _). exact Hst. }
  apply wp_try. eapply (wp_dispatch op inst token d0 exempt R HR X); [done..| |intros e; by apply wp_ret|].
  { unfold begun. rewrite Hsame. exact Hbegun. }
  intros d3 HK3 Hsent. destruct (repair_call action (cm_ContainerID c)) as [call|] eqn:Hcall; [|by apply wp_ret].
  apply wp_bind. eapply (wp_call_by X X); [by right|done..|]. intros r l' HK4. by apply keeps_confirm_repair.
Qed.

Context (hook : string -> string -> string -> E -> option error * E).

Lemma keeps_mutation_hooks X action component err :
  keeps X (mutation_hooks hook action component err).
Proof. unfold mutation_hooks, dispatched_hooks. keeps_walk. Qed.

Lemma wp_mutateExisting X0 X1 plan c action want (Q : res unit -> assn) (C : assn) d l :
  closed R X0 -> closed R X1 -> mine plan -> sends X0 X1 action (cm_ContainerID c) ->
  (forall d l, K X0 d l -> C d l) -> (forall d l, K X1 d l -> C d l) -> K X0 d l ->
  (forall e d l, K X0 d l -> Q (Err e) d l) -> (forall r d l, K X1 d l -> Q r d l) ->
  wp (mutateExisting sha hook plan c action want) Q C d l.
Proof using HR.
  intros HX0 HX1 Hp Hs HC0 HC1 HK HQ0 HQ1. unfold mutateExisting.
  apply wp_try. eapply wp_runtime; [by apply HC0|]. intros [before|e].
  2:{ apply wp_ret, HQ0. by eapply K_look. }
  assert (K X0 d (l ++ [(CObserveContainer (cm_ContainerID c) (Ok before), d)])) as HK' by by eapply K_look.
  destruct (owned_before sha plan c before); cbn; [|by apply wp_ret, HQ0].
  apply wp_try. eapply (wp_stepIntent op inst token d0 exempt R HR X0); [done..| |].
  { intros e. by apply wp_ret, HQ0. }
  intros d' HK1 Hbegun. apply wp_bind. apply wp_runHook; [by apply HC0|].
  intros [err|]; [by apply wp_ret, HQ0|]. apply wp_try. eapply (wp_dispatch op inst token d0 exempt R HR X0); [done..| |].
  { intros err. by apply wp_ret, HQ0. }
  intros d2 HK2 Hsent. destruct (mutation_call action (cm_ContainerID c)) as [call|] eqn:Hcall.
  2:{ by apply wp_ret, HQ0. }
  apply wp_bind. eapply (wp_call_by X0 X1); [by left|done..|by apply HC0|].
  intros r l' HK3. apply wp_bind. eapply (wp_keeps _ _ _ _ _ X1); [apply keeps_mutation_hooks|done| |done].
  intros err d4 l4 HK4. eapply (wp_keeps _ _ _ _ _ X1); [by apply keeps_confirm|done|auto|done].
Qed.

Lemma keeps_mutateExisting X plan c action want :
  closed R X -> mine plan -> sends X X action (cm_ContainerID c) ->
  keeps X (mutateExisting sha hook plan c action want).
Proof using HR. intros HX Hp Hs d l HK. by eapply (wp_mutateExisting X X). Qed.

End rules.

(** ** Programs that only look *)
Section looks.
Context {E : Type} `{HostE : Host E} (R : relation db) (X : assn) (HX : closed R X).

Lemma keeps_verify g want : keeps X (verifyGeneration (E:=E) sha g want).
Proof using HX.
  unfold verifyGeneration. keeps_walk. generalize (mg_Components g). intros cs.
  induction cs as [|c cs IH]; cbn; keeps_walk.
Qed.

Lemma keeps_observe_all cs obs : keeps X (observe_all (E:=E) cs obs).
Proof using HX. revert obs. induction cs as [|c cs IH]; intros obs; cbn; keeps_walk. Qed.

Lemma keeps_repairable g : keeps X (observeRepairableGeneration (E:=E) sha g).
Proof using HX.
  unfold observeRepairableGeneration. keeps_walk.
  generalize (∅ : gmap string ContainerObservation). generalize (mg_Components g). intros cs.
  induction cs as [|c cs IH]; intros obs; cbn; keeps_walk.
Qed.
End looks.

(** ** Whole programs, for an assertion that no call falsifies *)
Definition anyR (d d' : db) : Prop := True.

Section programs.
Context {E : Type} `{HostE : Host E} (hook : string -> string -> string -> E -> option error * E).
Context (X : assn) (HX : closed anyR X) (Hsend : forall action id, sends X X action id).
Context (Hnet : forall d l c, X d l -> ledgered c = None -> X d (l ++ [(c, d)])).

Lemma HRany : forall d d', frame_same d d' -> anyR d d'.
Proof. done. Qed.

Lemma record_any phase outcome facts : tx_in inst anyR (record_phase op token phase outcome facts).
Proof. by apply record_tx. Qed.

Lemma record_plan plan phase outcome facts : mine plan ->
  tx_in inst anyR (record_phase (mp_OperationID plan) (mp_FencingToken plan) phase outcome facts).
Proof. intros (-> & _ & ->). apply record_any. Qed.

Lemma RecordMultiContainer_any plan c cid iid h s v : mine plan ->
  tx_in inst anyR (RecordMultiContainer plan c cid iid h s v).
Proof.
  intros (_ & Hi & _) now u d d' _ Ht. right. split; [|done].
  apply RecordMultiContainer_step in Ht as [Ht _]. by rewrite Hi in Ht.
Qed.

Lemma MarkActiveRemoved_any plan gen : mine plan ->
  tx_in inst anyR (fun _ => MarkActiveRemoved (mp_InstallationID plan) gen (mp_OperationID plan) (mp_FencingToken plan)).
Proof.
  intros (_ & Hi & _) now u d d' _ Ht. right. split; [|done].
  apply MarkActiveRemoved_step in Ht. by rewrite Hi in Ht.
Qed.

Lemma stepIntent_any plan c a e : mine plan -> tx_in inst anyR (BeginComponentStep plan c a e 1).
Proof.
  intros Hp now u d d' _ Ht. right. split; [|done].
  by destruct (ledger_tx op inst token plan d u d' Hp); [left; eauto 10|].
Qed.
#[local] Hint Resolve HRany record_any record_plan RecordMultiContainer_any MarkActiveRemoved_any stepIntent_any : txs.

Lemma keeps_unledgered {B} (f : E -> res B * E) c : (forall r, ledgered (c r) = None) -> keeps X (runtime f c).
Proof using Hnet.
  intros Hc d l [HS HK]. apply wp_runtime; [done|]. intros r. split; [|by apply Hnet].
  apply Sess_call; [done|by left].
Qed.

Lemma keeps_remove_network name : keeps X (remove_network (E:=E) name).
Proof using Hnet. by apply keeps_unledgered. Qed.

Lemma keeps_mutate plan c action want : mine plan -> keeps X (mutateExisting sha hook plan c action want).
Proof using HX Hsend. intros Hp. by apply (keeps_mutateExisting anyR HRany). Qed.
#[local] Hint Resolve keeps_remove_network keeps_mutate : keeps.

Lemma keeps_apply plan components mutation want mutated : mine plan ->
  keeps X (apply_mutations sha hook plan components mutation want mutated).
Proof using HX Hsend.
  intros Hp. revert mutated. induction components as [|c rest IH]; intros mutated; cbn; keeps_walk.
Qed.
#[local] Hint Resolve keeps_apply : keeps.

Lemma keeps_dispatch plan g action : mine plan -> keeps X (dispatch_action sha hook plan g action).
Proof using HX Hsend Hnet. intros Hp. unfold dispatch_action, remove_active, remove_active_network. keeps_walk. Qed.

Lemma PromoteMulti_any g nid obs s : mg_InstallationID g = inst ->
  tx_in inst anyR (PromoteMigratedMulti sha g nid obs s op token).
Proof.
  intros Hi now u d d' _ Ht. right. split; [|done]. apply PromoteMulti_step in Ht. by rewrite Hi in Ht.
Qed.
#[local] Hint Resolve keeps_dispatch keeps_verify keeps_observe_all PromoteMulti_any : keeps txs.

Lemma operation_plan_mine g cs : mine (operation_plan g inst op token cs).
Proof. done. Qed.
#[local] Hint Resolve operation_plan_mine : keeps txs.

Lemma keeps_MultiOperate action : keeps X (MultiOperate sha hook inst op token action).
Proof using HX Hsend Hnet.
  unfold MultiOperate. apply keeps_try; [by keeps_walk..|intros _].
  apply (keeps_try_read _ _ _ _ _ _ _ (fun g => mg_InstallationID g = inst)); [|by keeps_walk|].
  { intros d g d' H. apply MultiCurrent_Ok in H as (-> & Hg & _). done. }
  intros g Hg. unfold promote_legacy, operate_active, multi_checkpoint. keeps_walk.
Qed.

(** *** Single-container actions *)
Lemma PromoteState_any g nid iid h s : gn_InstallationID g = inst ->
  tx_in inst anyR (PromoteMigratedState g nid iid h s op token).
Proof.
  intros Hi now u d d' _ Ht. right. split; [|done]. apply PromoteState_step in Ht. by rewrite Hi in Ht.
Qed.
#[local] Hint Resolve PromoteState_any : txs.

Lemma single_plan_mine g : mine (single_plan g inst op token).
Proof. done. Qed.
#[local] Hint Resolve single_plan_mine : keeps txs.

Lemma keeps_observeExact g : keeps X (observeExact (E:=E) sha g).
Proof using HX. unfold observeExact. keeps_walk. Qed.
#[local] Hint Resolve keeps_observeExact : keeps.

Lemma keeps_stepIntent plan c a e : mine plan -> keeps X (stepIntent (E:=E) plan c a e).
Proof using HX. intros Hp. unfold stepIntent. keeps_walk. Qed.
#[local] Hint Resolve keeps_stepIntent : keeps.
End programs.

Section single.
Context {E : Type} `{HostE : Host E}.
Context (X : assn) (HX : closed anyR X) (Hsend : forall action id, sends X X action id).
Context (Hnet : forall d l c, X d l -> ledgered c = None -> X d (l ++ [(c, d)])).
#[local] Hint Resolve HRany record_any record_plan RecordMultiContainer_any MarkActiveRemoved_any stepIntent_any
  PromoteState_any single_plan_mine : txs.
#[local] Hint Resolve keeps_observeExact keeps_stepIntent keeps_remove_network keeps_mutate single_plan_mine : keeps.

Lemma keeps_single_apply plan g mutation want : mine plan -> keeps X (single_apply (E:=E) sha plan g mutation want).
Proof using HX Hsend. intros Hp. unfold single_apply. keeps_walk. Qed.
#[local] Hint Resolve keeps_single_apply : keeps.

Lemma keeps_SingleOperate action : keeps X (SingleOperate (E:=E) sha inst op token action).
Proof using HX Hsend Hnet.
  unfold SingleOperate. case_match; [by keeps_walk|]. apply keeps_try; [by keeps_walk..|intros _].
  apply (keeps_try_read _ _ _ _ _ _ _ (fun g => gn_InstallationID g = inst)); [|by keeps_walk|].
  { intros d g d' H1. apply Current_Ok in H1 as (-> & r & Hg & _). done. }
  intros g Hg. unfold single_promote, single_dispatch, single_remove, single_remove_network. keeps_walk.
Qed.
End single.
End session.
