(* ===== verification/ReconcileProofs.v ===== *)
(** * Lemmas about reconciliation and repair

    Reconciliation observes, and keeps any assertion that observations, its
    own record and the acknowledgement of an absent generation keep; a repair
    is a session. *)

From S2P Require Import Prelude Protocol Exposure HelperDB Coordinator CoordinatorProofs CoordinatorProps Containers LifecycleStore LifecycleStoreProofs MultiStore ReconciliationStore MultiStoreProofs LifecycleStoreProps Runner RunnerProofs Reconciliation MultiRunner SingleRunner Repair SessionProofs MutationProofs.
From stdpp Require Import base gmap strings list sorting.
From Stdlib Require Import ZArith Lia.

Open Scope Z_scope.

Section session.
Context `{Ev : Evidence} (sha : string -> string) (op inst : string) (token : Z) (d0 : db)
  (exempt : rt_call * db -> bool).
Notation Sess := (Sess op inst token d0 exempt).
Notation K := (K op inst token d0 exempt).
Notation closed := (closed op inst token d0 exempt).
Notation keeps := (keeps op inst token d0 exempt).
Notation mine := (mine op inst token).
Notation sends := (sends op inst token d0 exempt).

Section reconcile.
Context {E : Type} `{HostE : Host E} (provider : option (@RuntimeIdentityProvider E)).
Context (R : relation db) (HR : forall d d', frame_same d d' -> R d d').
Context (Habsent : forall g, mg_InstallationID g = inst -> tx_in inst R (fun _ => MarkReconciledAbsent g)).
Context (X : assn) (HX : closed R X).

Lemma save_tx r : tx_in inst R (fun _ => SaveReconciliation r).
Proof using HR.
  intros now u d d' _ Ht. right. apply (SaveReconciliation_step inst) in Ht as [? ?]. auto.
Qed.
#[local] Hint Resolve save_tx Habsent : txs.

Lemma keeps_observeComponent c : keeps X (observeComponent (E:=E) c).
Proof using HX. unfold observeComponent. keeps_walk. Qed.
#[local] Hint Resolve keeps_observeComponent : keeps.

Lemma keeps_observeGeneration g role : keeps X (observeGeneration (E:=E) sha g role).
Proof using HX.
  unfold observeGeneration. keeps_walk. generalize (Build_survey [] ∅ ∅). generalize (mg_Components g).
  intros cs. induction cs as [|c cs IH]; intros s; cbn; keeps_walk.
Qed.
#[local] Hint Resolve keeps_observeGeneration : keeps.

Lemma keeps_classifyNonActive gs r : Forall (fun g => mg_InstallationID g = inst) gs ->
  keeps X (classifyNonActive (E:=E) sha r gs).
Proof using HX Habsent.
  intros Hgs. revert r. induction Hgs as [|g gs Hg Hgs IH]; intros r; cbn; [keeps_walk|].
  unfold classify_cleanup. keeps_walk.
Qed.
#[local] Hint Resolve keeps_classifyNonActive : keeps.

Lemma keeps_save r : keeps X (save (E:=E) r).
Proof using HR HX. unfold save. keeps_walk. Qed.
#[local] Hint Resolve keeps_save : keeps.

Lemma keeps_generations r : rr_InstallationID r = inst -> keeps X (reconcile_generations (E:=E) sha r).
Proof using HR HX Habsent.
  intros Hr. unfold reconcile_generations.
  apply (keeps_try_read _ _ _ _ _ _ _ (fun gs => Forall (fun g => mg_InstallationID g = inst) gs));
    [|by keeps_walk|].
  { intros d gs d' H1. apply ReconciliationGenerations_Ok in H1 as [-> H1]. split; [done|].
    rewrite <- Hr. eapply Forall_impl; [exact H1|]. naive_solver. }
  intros gs Hgs. unfold reconcile_active, classify_and_save, runtimeUnknown. keeps_walk.
Qed.

Lemma keeps_clock : keeps X (clock (E:=E)).
Proof.
  intros d l HK e. unfold clock, alive. cbn. destruct (host_crash e) as [[] e1]; [done|]. cbn.
  by destruct (host_now e1).
Qed.
#[local] Hint Resolve keeps_generations keeps_clock : keeps.

Lemma keeps_Reconcile : keeps X (Reconcile (E:=E) sha provider inst).
Proof using HR HX Habsent. unfold Reconcile. keeps_walk. Qed.
End reconcile.

(** ** Repairs *)
Section repair.
Context {E : Type} `{HostE : Host E} (provider : option (@RuntimeIdentityProvider E)).
Context (X : assn) (HX : closed anyR X) (Hsend : forall action id, sends X X action id).
Context (Hnet : forall d l c, X d l -> ledgered c = None -> X d (l ++ [(c, d)])).

Lemma Absent_any g : mg_InstallationID g = inst -> tx_in inst anyR (fun _ => MarkReconciledAbsent g).
Proof. intros Hi now u d d' _ Ht. right. split; [|done]. apply MarkReconciledAbsent_step in Ht. by rewrite Hi in Ht. Qed.

Lemma Removed_any g : mg_InstallationID g = inst -> tx_in inst anyR (fun _ => MarkNonActiveRemoved g op token).
Proof. intros Hi now u d d' _ Ht. right. split; [|done]. apply MarkNonActiveRemoved_step in Ht. by rewrite Hi in Ht. Qed.

Lemma Pending_any g : mg_InstallationID g = inst -> tx_in inst anyR (fun _ => MarkRetainedCleanupPending g op token).
Proof. intros Hi now u d d' _ Ht. right. split; [|done]. apply MarkRetainedPending_step in Ht. by rewrite Hi in Ht. Qed.
#[local] Hint Resolve HRany record_any record_plan RecordMultiContainer_any Absent_any Removed_any Pending_any : txs.

Lemma repairPlan_mine g : mg_InstallationID g = inst -> mine (repairPlan g op token).
Proof. done. Qed.

Lemma keeps_Reconcile_any : keeps X (Reconcile (E:=E) sha provider inst).
Proof using HX. apply (keeps_Reconcile provider anyR); auto with txs. Qed.

Lemma keeps_verifyExact_any g c : keeps X (verifyExactComponent (E:=E) sha g c).
Proof using HX. by apply (keeps_verifyExact _ _ _ _ _ _ anyR). Qed.

Lemma keeps_observeComponent_any c : keeps X (observeComponent (E:=E) c).
Proof using HX. by apply (keeps_observeComponent anyR). Qed.

Lemma keeps_mutateComponent_any plan g c action want : mine plan ->
  keeps X (mutateComponent (E:=E) sha plan g c action want).
Proof using HX Hsend. intros Hp. by apply (keeps_mutateComponent _ _ _ _ _ _ anyR). Qed.
#[local] Hint Resolve repairPlan_mine : keeps txs.
#[local] Hint Resolve keeps_Reconcile_any keeps_verifyExact_any keeps_observeComponent_any
  keeps_mutateComponent_any keeps_remove_network : keeps.

Lemma keeps_dependencies g c deps : keeps X (dependencies_running (E:=E) sha g c deps).
Proof using HX. induction deps as [|x deps IH]; cbn; keeps_walk. Qed.
#[local] Hint Resolve keeps_dependencies : keeps.

Lemma keeps_start_components plan g cs : mine plan -> keeps X (start_components (E:=E) sha plan g cs).
Proof using HX Hsend. intros Hp. induction cs as [|c cs IH]; cbn; keeps_walk. Qed.
#[local] Hint Resolve keeps_start_components : keeps.

Lemma keeps_cleanup_components plan g cs : mine plan -> keeps X (cleanup_components (E:=E) sha plan g cs).
Proof using HX Hsend. intros Hp. induction cs as [|c cs IH]; cbn; unfold cleanup_component; keeps_walk. Qed.
#[local] Hint Resolve keeps_cleanup_components : keeps.

Lemma keeps_detached g network cs b : keeps X (retained_detached (E:=E) sha g network cs b).
Proof using HX. revert b. induction cs as [|c cs IH]; intros b; cbn; keeps_walk. Qed.
#[local] Hint Resolve keeps_detached : keeps.

Lemma keeps_cleanup_generations gs : Forall (fun g => mg_InstallationID g = inst) gs ->
  keeps X (cleanup_generations (E:=E) sha op token gs).
Proof using HX Hsend Hnet.
  intros Hgs. induction Hgs as [|g gs Hg Hgs IH]; cbn; [keeps_walk|].
  unfold cleanup_generation, repair_remove_network, retainedGenerationDetached. keeps_walk.
Qed.

Lemma keeps_missing cs b : keeps X (components_missing (E:=E) cs b).
Proof using HX. revert b. induction cs as [|c cs IH]; intros b; cbn; keeps_walk. Qed.
#[local] Hint Resolve keeps_missing keeps_cleanup_generations : keeps.

Lemma keeps_acknowledge gs b : Forall (fun g => mg_InstallationID g = inst) gs ->
  keeps X (acknowledge_all (E:=E) op token gs b).
Proof using HX.
  intros Hgs. revert b. induction Hgs as [|g gs Hg Hgs IH]; intros b; cbn; [keeps_walk|].
  unfold acknowledge_one. keeps_walk.
Qed.
#[local] Hint Resolve keeps_acknowledge : keeps.

Lemma keeps_try_generations {B} (h : error -> prog E B) (k : list MultiGeneration -> prog E B) :
  (forall e, keeps X (h e)) ->
  (forall gs, Forall (fun g => mg_InstallationID g = inst) gs -> keeps X (k gs)) ->
  keeps X (ptry (store (fun _ => ReconciliationGenerations inst)) h k).
Proof.
  intros Hh Hk. apply (keeps_try_read _ _ _ _ _ _ _ (fun gs => Forall (fun g => mg_InstallationID g = inst) gs)); auto.
  intros d gs d' H1. apply ReconciliationGenerations_Ok in H1 as [-> H1]. split; [done|].
  eapply Forall_impl; [exact H1|]. naive_solver.
Qed.

Lemma keeps_startActive : keeps X (startActive (E:=E) sha inst op token).
Proof using HX Hsend.
  apply (keeps_try_read _ _ _ _ _ _ _ (fun g => mg_InstallationID g = inst)); [|by keeps_walk|].
  { intros d g d' H1. apply MultiCurrent_Ok in H1 as (-> & Hg & _). done. }
  intros g Hg. keeps_walk.
Qed.

Lemma keeps_cleanupNonActive : keeps X (cleanupNonActive (E:=E) sha inst op token).
Proof using HX Hsend Hnet. apply keeps_try_generations; keeps_walk. Qed.

Lemma keeps_acknowledgeLoss : keeps X (acknowledgeRetainedLoss (E:=E) inst op token).
Proof using HX. apply keeps_try_generations; keeps_walk. Qed.
#[local] Hint Resolve keeps_startActive keeps_cleanupNonActive keeps_acknowledgeLoss : keeps.

Lemma keeps_Repair action : keeps X (Repair (E:=E) sha provider inst op token action).
Proof using HX Hsend Hnet. unfold Repair, repair_action, repair_verify. keeps_walk. Qed.
End repair.
End session.
