(* ===== verification/MultiReplaceProofs.v ===== *)
(** * Lemmas about the replacement of a multi-component generation

    The assertions before and after the commit, and what each part of
    [MultiReplace] does to them. *)

From S2P Require Import Prelude Protocol Exposure ExposurePolicy HelperDB Coordinator CoordinatorProofs CoordinatorProps Containers LifecycleStore LifecycleStoreProofs MultiStore ReconciliationStore MultiStoreProofs LifecycleStoreProps Runner RunnerProofs Reconciliation MultiRunner SessionProofs MutationProofs.
From stdpp Require Import base gmap strings list sorting.
From Stdlib Require Import ZArith Lia.

Open Scope Z_scope.

(** ** Transactions *)
Definition gensR (d d' : db) : Prop := db_gens d' = db_gens d.

Lemma frame_gens d d' : frame_same d d' -> gensR d d'.
Proof. intros (? & _). done. Qed.

Lemma RecordMultiNetwork_step plan nid d u d' : RecordMultiNetwork plan nid d = Ok (u, d') ->
  runner_step (mp_InstallationID plan) d d' /\ active_rows d d' /\
  exists r, db_gens d !! mplan_key plan = Some r /\ g_operation r = mp_OperationID plan /\
     g_status r = GenPrepared /\
     db_gens d' = <[mplan_key plan := r <| g_status := GenCandidate |> <| g_network_id := nid |>]> (db_gens d).
Proof.
  intros H. pose proof (RecordMultiNetwork_effect _ _ _ _ _ H) as [He Ha]. split.
  - apply effect_step; [by eapply l_RecordMultiNetwork|exact He|exact Ha|].
    unfold RecordMultiNetwork in H. same_events. by inv_store.
  - unfold RecordMultiNetwork in H. inv_store. destruct_and?. split.
    + eapply update_active_rows; [reflexivity|]. cbn. intros k r (_ & _ & ->). done.
    + eexists; split_and!; [eassumption|assumption|assumption|].
      cbn. erewrite update_pk; [reflexivity|pk_side|eassumption|done].
Qed.

Lemma MarkMultiFailed_step plan cl d u d' : MarkMultiFailed plan cl d = Ok (u, d') ->
  runner_step (mp_InstallationID plan) d d' /\ active_rows d d' /\
  exists r, db_gens d !! mplan_key plan = Some r /\ g_operation r = mp_OperationID plan /\
    db_gens d' = <[mplan_key plan := r <| g_status := GenFailed |> <| g_cleanup := cl |>]> (db_gens d).
Proof.
  intros H. pose proof (MarkMultiFailed_effect _ _ _ _ _ H) as [He Ha]. split.
  - apply effect_step; [by eapply l_MarkMultiFailed|exact He|exact Ha|].
    unfold MarkMultiFailed in H. same_events. by inv_store.
  - unfold MarkMultiFailed in H. inv_store. destruct_and?. split.
    + eapply update_active_rows; [reflexivity|]. cbn. intros k r (_ & _ & [-> | ->]); done.
    + eexists; split_and!; [eassumption|assumption|].
      cbn. erewrite update_pk; [reflexivity|pk_side|eassumption|done].
Qed.

Lemma prepare_multi_row_Ok plan now d b d' : prepare_multi_row plan now d = Ok (b, d') ->
  db_events d' = db_events d /\ db_gens d' = <[mplan_key plan := prepared_multi plan now]> (db_gens d) /\
  (forall r, db_gens d !! mplan_key plan = Some r -> reusable r).
Proof.
  unfold prepare_multi_row. intros H. apply tbind_Ok in H as (? & ? & Hd & H).
  apply tget_Ok in Hd as [-> <-]. destruct (db_gens d !! mplan_key plan) as [g|] eqn:Hg.
  - apply tbind_Ok in H as (? & ? & Ha & H). apply tassert_Ok in Ha as [Hre <-].
    apply tbind_Ok in H as (? & ? & Ha & H). apply tassert_Ok in Ha as [_ <-].
    apply tbind_Ok in H as (? & d1 & Hu & H).
    assert (only_comps (mplan_key plan) d d1) as (m & -> & _) by only_comps_tac.
    inv_store. split_and!; [done| |naive_solver].
    erewrite update_pk; [reflexivity|pk_side|eassumption|done].
  - inv_store. split_and!; naive_solver.
Qed.

Lemma PrepareMulti_step plan now d u d' : PrepareMulti plan now d = Ok (u, d') ->
  runner_step (mp_InstallationID plan) d d' /\ active_rows d d' /\
  db_gens d' = <[mplan_key plan := prepared_multi plan now]> (db_gens d).
Proof.
  intros H. pose proof (PrepareMulti_effect _ _ _ _ _ H) as [He Ha].
  assert (lstep d d') as Hl by by eapply l_PrepareMulti.
  unfold PrepareMulti in H. apply tbind_Ok in H as (? & ? & Hlen & H).
  apply tassert_Ok in Hlen as [_ <-]. apply tbind_Ok in H as (b & d1 & H1 & H).
  apply tbind_Ok in H as (? & d2 & H2 & H3). apply prepare_multi_row_Ok in H1 as (Hev & Hg & Hr).
  apply prepare_components_only in H2 as (m2 & -> & _). apply replaceBindings_Ok in H3 as [(m3 & -> & _) _].
  cbn in *. split; [|split].
  - apply effect_step; [done..|]. same_events. cbn. done.
  - intros k. cbn. rewrite Hg. destruct (decide (mplan_key plan = k)) as [<-|].
    + rewrite lookup_insert_eq. split; [naive_solver|]. intros (r & Hk & Hs).
      destruct (Hr r Hk) as [[?|?] _]; congruence.
    + by rewrite lookup_insert_ne.
  - done.
Qed.

Lemma PromoteMulti_base sha g nid obs s op t now d u d' :
  one_active (db_gens d) -> PromoteMigratedMulti sha g nid obs s op t now d = Ok (u, d') ->
  runner_step (mg_InstallationID g) d d' /\
  active_generation (mg_InstallationID g) d = None /\
  active_generation (mg_InstallationID g) d' = Some (mg_Generation g) /\
  exists r r', db_gens d !! mgen_key g = Some r /\ g_status r = GenVerificationRequired /\
    db_gens d' = <[mgen_key g := r']> (db_gens d) /\ g_operation r' = g_operation r.
Proof.
  intros Hone H. pose proof (PromoteMulti_step _ _ _ _ _ _ _ _ _ _ _ H) as Hs. split; [done|].
  unfold PromoteMigratedMulti in H. apply tbind_Ok in H as (? & ? & Hst & H).
  apply tassert_Ok in Hst as [_ <-]. apply tbind_Ok in H as (? & ? & Hf & H).
  apply verifyGenerationFence_Ok in Hf as [-> _]. apply tbind_Ok in H as (n & d1 & Hu & H).
  apply update_gens_Ok in Hu as (Hone' & -> & ->). apply tbind_Ok in H as (? & ? & Hn & H).
  apply tassert_Ok in Hn as [Hn <-].
  apply (tforeach_only (mgen_key g)) in H as (m & -> & _); [|by intros; eapply promote_component_only].
  cbn in *. apply (affected_pk_1 _ _ (mgen_key g)) in Hn as (r & Hr & _ & Hv); [|naive_solver].
  assert (forall n r, db_gens d !! (mg_InstallationID g, n) = Some r -> g_status r <> GenActive) as Hno.
  { intros n r0 Hr0 Hact. destruct (decide (n = mg_Generation g)) as [->|Hne]; [unfold mgen_key in Hr; congruence|].
    rewrite (update_pk _ _ _ (mgen_key g) r) in Hone' by (naive_solver || done).
    assert ((mg_InstallationID g, n) = mgen_key g) as Heq; [|unfold mgen_key in Heq; congruence].
    eapply (Hone' (mgen_key g) _ ltac:(apply lookup_insert_eq)); [done| |exact Hact|done].
    rewrite lookup_insert_ne; [done|]. unfold mgen_key. congruence. }
  rewrite (update_pk _ _ _ (mgen_key g) r) in * by (naive_solver || done). split_and!.
  - by apply active_generation_None.
  - apply active_generation_iff; [done|]. eexists. cbn. unfold mgen_key. by rewrite lookup_insert_eq.
  - do 2 eexists. split_and!; [done|done|reflexivity|done].
Qed.

Lemma CommitMulti_step plan now d u d' :
  one_active (db_gens d) -> CommitMulti plan now d = Ok (u, d') ->
  runner_step (mp_InstallationID plan) d d' /\
  active_generation (mp_InstallationID plan) d' = Some (mp_Generation plan) /\
  forall n, active_generation (mp_InstallationID plan) d = Some n ->
    n = mp_ExpectedGeneration plan /\
    (mp_AllowMissingActive plan = false ->
     exists r, db_gens d' !! (mp_InstallationID plan, n) = Some r /\ g_status r = GenRetained).
Proof.
  intros Hone H. pose proof (CommitMulti_effect _ _ _ _ _ Hone H) as [He Ha].
  assert (lstep d d') as Hl by by eapply l_CommitMulti.
  apply CommitMulti_Ok in H as (Hg & Hone' & _ & (m & e & ->) & Hrow); [|done].
  split; [apply effect_step; [done..|by eexists]|].
  destruct (mg_candidate _ _ Hg) as (g & Hk & _ & Hs & _). split.
  - apply active_generation_iff; [done|]. cbn in *. unfold mplan_key in *. rewrite Hrow, Hk.
    eexists. split; [reflexivity|]. unfold multi_commit_row, mplan_key. by rewrite decide_True.
  - intros n Hn. pose proof (mg_baseline _ _ Hg) as Hb. unfold baseline in Hb. rewrite Hn in Hb. cbn in Hb.
    split; [done|]. intros Hal. apply active_generation_Some in Hn as (r & Hr & Hact). cbn in *.
    rewrite Hrow, Hr. eexists. split; [reflexivity|]. unfold multi_commit_row. rewrite decide_False.
    2:{ unfold mplan_key in *. intros [= ->]. congruence. }
    by rewrite decide_True, Hal.
Qed.

(** ** Queries *)
Lemma MultiByOperation_Ok op d g d' : MultiByOperation op d = Ok (g, d') ->
  d' = d /\ exists r, db_gens d !! mgen_key g = Some r /\ g_operation r = op /\ g = load_multi (mgen_key g) r d.
Proof.
  intros H. unfold MultiByOperation in H. apply tbind_Ok in H as ([[i n] r] & d1 & Hr & H).
  apply trow_Ok in Hr as [Hr <-]. apply head_merge_sort, elem_of_select in Hr as [Hr Ho].
  apply LoadMulti_Ok in H as (-> & Hk & r' & Hr' & Hg). cbn in *. split; [done|]. exists r'.
  rewrite Hk in Hr'. simplify_eq. rewrite Hk. split_and!; [done..|]. by rewrite <- Hk.
Qed.

Lemma MultiOlder_Ok inst keep d gs d' : MultiOlderRetained inst keep d = Ok (gs, d') ->
  d' = d /\ Forall (fun g => mg_InstallationID g = inst /\ mg_Generation g <> keep /\
     exists r, db_gens d !! mgen_key g = Some r /\ g_status r <> GenActive /\ g = load_multi (mgen_key g) r d) gs.
Proof.
  unfold MultiOlderRetained. intros H. apply tbind_Ok in H as (? & ? & Hd & H).
  apply tget_Ok in Hd as [-> <-]. revert H.
  set (rows := merge_sort _ _). assert (forall x, x ∈ rows -> x.1.1 = inst /\ awaits_cleanup x.2 /\ x.1.2 <> keep /\
    db_gens d !! x.1 = Some x.2) as Hrows.
  { intros [k r] Hx. unfold rows in Hx. rewrite merge_sort_Permutation in Hx.
    apply elem_of_select in Hx as (? & ? & ? & ?). done. }
  clearbody rows. revert gs d'. induction rows as [|x rows IH]; intros gs d' H; cbn in H.
  { apply tret_Ok in H as [<- <-]. auto. }
  apply tbind_Ok in H as (g & d1 & Hg & H). apply LoadMulti_Ok in Hg as (-> & Hk & r & Hr & Hl).
  apply tbind_Ok in H as (gs' & d2 & Hgs & H). apply IH in Hgs as [-> Hgs]; [|intros; apply Hrows; by right].
  apply tret_Ok in H as [<- <-]. split; [done|]. constructor; [|done].
  destruct (Hrows x) as (Hi & Haw & Hne & Hx); [by left|]. destruct x as [[i n] rx]. cbn in *. subst i.
  rewrite Hk in Hr. simplify_eq. unfold mgen_key in Hk. simplify_eq. split_and!; [done..|].
  exists r. split_and!; [done| |done]. destruct Haw as [-> |[-> |[-> _]]]; done.
Qed.

(** The components of a loaded generation are rows. *)
Definition owned_by (d : db) (k : string * Z) (id : string) : Prop :=
  exists cid c, db_comps d !! (k, cid) = Some c /\ c_container_id c = id.

Lemma loaded_owned k r d c : c ∈ mg_Components (load_multi k r d) -> owned_by d k (cm_ContainerID c).
Proof.
  cbn. rewrite list_elem_of_fmap. intros ([cid row] & -> & Hin). rewrite merge_sort_Permutation in Hin.
  apply elem_of_components_of in Hin. exists cid, row. done.
Qed.

Lemma elem_of_reverse c cs : c ∈ reverseComponents cs <-> c ∈ cs.
Proof. unfold reverseComponents. by rewrite merge_sort_Permutation. Qed.

Lemma componentByID_Some cs id c : componentByID cs id = Some c -> c ∈ cs /\ cm_ID c = id.
Proof.
  unfold componentByID. intros H. apply find_some in H as [Hin Hid].
  apply bool_decide_eq_true in Hid. split; [by apply list_elem_of_In|done].
Qed.

(** ** Assertions *)
Section multi.
Context `{Ev : Evidence} (sha : string -> string) (plan0 : MultiPlan) (d0 : db).
Notation op := (mp_OperationID plan0).
Notation inst := (mp_InstallationID plan0).
Notation token := (mp_FencingToken plan0).
Notation gen := (mp_Generation plan0).
Notation expected := (mp_ExpectedGeneration plan0).
Notation allow := (mp_AllowMissingActive plan0).

(** Containers of older generations are removed after the commit without a
    ledger entry. *)
Definition after_commit (x : rt_call * db) : bool :=
  match x.1 with
  | CRemove _ _ => bool_decide (active_generation inst x.2 = Some gen)
  | _ => false
  end.

Notation K := (K op inst token d0 after_commit).
Notation Sess := (Sess op inst token d0 after_commit).
Notation closed := (closed op inst token d0 after_commit).
Notation keeps := (keeps op inst token d0 after_commit).
Notation mine := (mine op inst token).
Notation sends := (sends op inst token d0 after_commit).

(** Every planned component was observed in the state [want], exactly as
    planned, with the users and volumes of the pulled images. *)
Definition observed_exact (want : string) (plan : MultiPlan) (c : MultiComponentPlan) (l : log) : Prop :=
  exists n d1 id o d2, (CObserveNetwork (mp_NetworkName plan) (Ok n), d1) ∈ l /\
    (CObserveContainer id (Ok o), d2) ∈ l /\ verifyMultiCandidate plan c n o want = Ok tt.

Definition all_exact (want : string) (l : log) : Prop :=
  exists images, let plan := with_images plan0 images in
    (forall c, c ∈ mp_Components plan -> observed_exact want plan c l) /\
    (forall c, c ∈ mp_Components plan0 -> exists image d1,
       (CObserveImage (mc_Image c) (Ok image), d1) ∈ l /\ imageContainsDigest image (mc_Image c) = true /\
       images !! mc_Image c = Some (im_ConfiguredUser image, im_ConfiguredVolumes image)).

Definition mono (Y : log -> Prop) : Prop := forall l l', Y l -> Y (l ++ l').

Lemma observed_exact_mono want plan c : mono (observed_exact want plan c).
Proof.
  intros l l' (n & d1 & id & o & d2 & H1 & H2 & H3). exists n, d1, id, o, d2.
  split_and!; [apply elem_of_app; by left..|done].
Qed.

Lemma all_exact_mono want : mono (all_exact want).
Proof.
  intros l l' (images & H1 & H2). exists images. split.
  - intros c Hc. by apply observed_exact_mono, H1.
  - intros c Hc. destruct (H2 c Hc) as (image & d1 & ? & ? & ?). exists image, d1.
    split_and!; [apply elem_of_app; by left|done..].
Qed.

(** What a stop, a removal of a container or of a network needs. *)
Definition inactive (d : db) (k : string * Z) : Prop :=
  k.1 = inst /\ exists r, db_gens d !! k = Some r /\ g_status r <> GenActive.

Definition mcall_ok (l : log) (c : rt_call) (d : db) : Prop :=
  (forall id r, c = CStop id r -> owned_by d (mplan_key plan0) id \/ all_exact RuntimeStopped l) /\
  (forall id r, c = CRemove id r -> exists k, inactive d k /\ owned_by d k id) /\
  (forall name r, c = CRemoveNetwork name r -> exists k g, inactive d k /\
     db_gens d !! k = Some g /\ g_network_name g = name).

Definition mcalls_ok (l : log) : Prop := forall l1 c d l2, l = l1 ++ (c, d) :: l2 -> mcall_ok l1 c d.

Lemma mcalls_snoc l c d : mcalls_ok l -> mcall_ok l c d -> mcalls_ok (l ++ [(c, d)]).
Proof.
  intros Hl Hc l1 c1 d1 l2 Heq. destruct (decide (l2 = [])) as [->|Hne].
  - apply app_inj_tail in Heq as [-> [= -> ->]]. done.
  - destruct (exists_last Hne) as (l2' & x & ->). rewrite app_comm_cons, app_assoc in Heq.
    apply app_inj_tail in Heq as [-> _]. by eapply Hl.
Qed.

(** Calls that need none of these. *)
Definition free_call (c : rt_call) : Prop :=
  match c with CStop _ _ | CRemove _ _ | CRemoveNetwork _ _ => False | _ => True end.

Lemma free_mcall l c d : free_call c -> mcall_ok l c d.
Proof. destruct c; cbn; intros Hf; (done || (split_and!; intros; discriminate)). Qed.

(** The rows of the operation: the target's only, which is there as soon as
    [P] can hold of a row. *)
Definition mown (P : genRow -> Prop) (d : db) : Prop :=
  (forall k r, db_gens d !! k = Some r -> g_operation r = op -> k = mplan_key plan0 /\ P r) /\
  ((exists r, P r) -> exists r, db_gens d !! mplan_key plan0 = Some r /\ g_operation r = op).

(** Before the commit, with the rows of the operation satisfying [P], the
    active generation at [b], and [Y] known of the log. *)
Record XB (P : genRow -> Prop) (b : option Z) (Y : log -> Prop) (d : db) (l : log) : Prop := {
  xb_base : base_of inst d0 b;
  xb_active : active_generation inst d = b;
  xb_own : mown P d;
  xb_calls : mcalls_ok l;
  xb_known : Y l
}.

Record XA (b : option Z) (d : db) (l : log) : Prop := {
  xa_base : base_of inst d0 b;
  xa_active : active_generation inst d = Some gen;
  xa_exact : all_exact RuntimeRunning l;
  xa_kept : forall n, b = Some n -> n = expected /\
    (allow = false -> exists r, db_gens d !! (inst, n) = Some r /\ g_status r = GenRetained);
  xa_calls : mcalls_ok l
}.

Definition anything (l : log) : Prop := True.

Lemma mono_anything : mono anything.
Proof. done. Qed.

Lemma mono_and (Y Y' : log -> Prop) : mono Y -> mono Y' -> mono (fun l => Y l /\ Y' l).
Proof. intros H H' l l' [? ?]. split; auto. Qed.

Definition MStop (d : db) (l : log) : Prop :=
  (exists P b, K (XB P b anything) d l) \/ (exists b, K (XA b) d l).

Lemma XB_weaken P b (Y Y' : log -> Prop) d l :
  (Y l -> Y' l) -> K (XB P b Y) d l -> K (XB P b Y') d l.
Proof. intros HY [HS [H1 H2 H3 H4 H5]]. split; [done|]. split; auto. Qed.

Lemma XB_stop P b Y d l : K (XB P b Y) d l -> MStop d l.
Proof. intros H. left. exists P, b. by eapply XB_weaken; [|exact H]. Qed.

Lemma XA_stop b d l : K (XA b) d l -> MStop d l.
Proof. right. eauto. Qed.
Hint Resolve XB_stop XA_stop : core.

Lemma XB_closed P b Y : mono Y -> closed gensR (XB P b Y).
Proof.
  intros HY. split.
  - intros d d' l _ [H1 H2 H3 H4 H5] _ Hg. split; try done.
    + unfold active_generation in *. by rewrite Hg.
    + unfold mown. rewrite Hg. exact H3.
  - intros d l c [H1 H2 H3 H4 H5] Hc. split; auto. apply mcalls_snoc; [done|].
    apply free_mcall. by destruct c.
Qed.

Lemma XA_closed b : closed gensR (XA b).
Proof.
  split.
  - intros d d' l _ [H1 H2 H3 H4 H5] _ Hg. split; try done.
    + unfold active_generation in *. by rewrite Hg.
    + by rewrite Hg.
  - intros d l c [H1 H2 H3 H4 H5] Hc. split; auto; [by apply all_exact_mono|].
    apply mcalls_snoc; [done|]. apply free_mcall. by destruct c.
Qed.

(** A call that is allowed keeps what is known. *)
Lemma XB_call P b Y d l c : mono Y -> XB P b Y d l -> mcall_ok l c d -> XB P b Y d (l ++ [(c, d)]).
Proof. intros HY [H1 H2 H3 H4 H5] Hc. split; auto. by apply mcalls_snoc. Qed.

Lemma XA_call b d l c : XA b d l -> mcall_ok l c d -> XA b d (l ++ [(c, d)]).
Proof.
  intros [H1 H2 H3 H4 H5] Hc. split; auto; [by apply all_exact_mono|]. by apply mcalls_snoc.
Qed.

(** A transaction that leaves the active rows alone. *)
Lemma XB_step P P' b Y d d' l :
  K (XB P b Y) d l -> runner_step inst d d' -> active_rows d d' -> mown P' d' -> K (XB P' b Y) d' l.
Proof.
  intros [HS [H1 H2 H3 H4 H5]] Hs Ha Ho. pose proof (Sess_step op inst token d0 after_commit d d' l HS Hs) as HS'.
  split; [done|]. split; try done.
  rewrite <- H2. apply active_rows_same; [apply (ss_inv _ _ _ _ _ _ _ HS)|apply (ss_inv _ _ _ _ _ _ _ HS')|done].
Qed.

(** A plan that differs from the given one in its components only. *)
Definition mlike (plan : MultiPlan) : Prop := exists cs, plan = plan0 <| mp_Components := cs |>.

Lemma mlike_mine plan : mlike plan -> mine plan.
Proof. intros [cs ->]. done. Qed.

Lemma mlike_key plan : mlike plan -> mplan_key plan = mplan_key plan0.
Proof. intros [cs ->]. done. Qed.

Lemma old_mine plan active : mlike plan -> mine (old_plan plan active).
Proof. intros [cs ->]. done. Qed.

Lemma sent_start id x : sent_as "start" id x -> after_commit (x, d0) = false /\ free_call x.
Proof. intros (actions & Hl & Ha). destruct x; cbn in *; simplify_eq; try done; set_solver. Qed.

Lemma sends_start P b Y id : mono Y -> sends (XB P b Y) (XB P b Y) "start" id.
Proof.
  intros HY d l x [_ HK] Hx. destruct (sent_start id x Hx) as [_ Hf]. split; [by destruct x|].
  apply XB_call; [done..|]. by apply free_mcall.
Qed.

(** *** The recorded candidate *)

(** The candidate's row is not active, and these are its network and
    containers of its. *)
Definition recorded (g : MultiGeneration) (d : db) : Prop :=
  (exists r, db_gens d !! mplan_key plan0 = Some r /\ g_status r <> GenActive /\
     g_network_name r = mg_NetworkName g) /\
  forall c, c ∈ mg_Components g -> owned_by d (mplan_key plan0) (cm_ContainerID c).

Lemma recorded_frame g d d' : frame_same d d' -> recorded g d -> recorded g d'.
Proof. intros (Hg & Hc & _). unfold recorded, owned_by. by rewrite Hg, Hc. Qed.

Lemma recorded_inactive g d : recorded g d -> inactive d (mplan_key plan0).
Proof. intros [(r & ? & ? & _) _]. split; eauto. Qed.

Lemma recorded_uncommitted g d : recorded g d -> active_generation inst d <> Some gen.
Proof.
  intros [_ (r & Hr & Hs)]%recorded_inactive Ha. apply active_generation_Some in Ha as (r' & Hr' & Hs').
  unfold mplan_key in Hr. congruence.
Qed.

(** What is loaded of the candidate is recorded. *)
Lemma load_recorded r d : db_gens d !! mplan_key plan0 = Some r -> in_progress r ->
  recorded (load_multi (mplan_key plan0) r d) d.
Proof.
  intros Hr Hp. split; [exists r; split_and!; [done|by destruct Hp as [-> | ->]|done]|].
  intros c. apply loaded_owned.
Qed.

Definition XC (P : genRow -> Prop) (b : option Z) (Y : log -> Prop) (g : MultiGeneration) (d : db) (l : log) : Prop :=
  XB P b Y d l /\ recorded g d.

Lemma XC_closed P b Y g : mono Y -> closed frame_same (XC P b Y g).
Proof.
  intros HY. split.
  - intros d d' l HS [HX Hr] Hs Hf. split; [|by eapply recorded_frame].
    eapply cl_step; [by apply XB_closed|done..|by apply frame_gens].
  - intros d l c [HX Hr] Hc. split; [|done]. eapply cl_look; [by apply XB_closed|done..].
Qed.

Lemma sends_candidate P b Y g action c : mono Y -> c ∈ mg_Components g ->
  sends (XC P b Y g) (XC P b Y g) action (cm_ContainerID c).
Proof.
  intros HY Hc d l x [_ [HX Hr]] (actions & Hl & Ha). split.
  - unfold after_commit. destruct x; try done. cbn. apply bool_decide_eq_false. by eapply recorded_uncommitted.
  - split; [|done]. apply XB_call; [done..|]. pose proof (recorded_inactive g d Hr). destruct Hr as [_ Hown].
    split_and!; intros; subst x; cbn in Hl; simplify_eq; eauto.
Qed.

Section programs.
Context {E : Type} `{HostE : Host E} (hook : string -> string -> string -> E -> option error * E).

Lemma keeps_candidate_mutation P b Y g plan c action want : mono Y -> mlike plan -> c ∈ mg_Components g ->
  keeps (XC P b Y g) (mutateExisting (E:=E) sha hook plan c action want).
Proof.
  intros HY Hp Hc. apply mlike_mine in Hp.
  apply (keeps_mutateExisting _ _ _ _ _ _ frame_same); auto using sends_candidate, XC_closed.
Qed.
Hint Resolve keeps_candidate_mutation : keeps.

Lemma keeps_cleanup_candidate P b Y g plan cs : mono Y -> mlike plan -> (forall c, c ∈ cs -> c ∈ mg_Components g) ->
  keeps (XC P b Y g) (cleanup_candidate_components (E:=E) sha hook plan cs).
Proof.
  intros HY Hp Hsub. pose proof (XC_closed P b Y g HY) as HX.
  induction cs as [|c cs IH]; cbn; [apply keeps_ret|].
  assert (c ∈ mg_Components g) as Hc by (apply Hsub; by left).
  assert (keeps (XC P b Y g) (cleanup_candidate_components (E:=E) sha hook plan cs)) as Hrest.
  { apply IH. intros; apply Hsub. by right. }
  unfold cleanup_candidate_component. keeps_walk.
Qed.

Lemma keeps_cleanup_network P b Y g : mono Y -> keeps (XC P b Y g) (multi_cleanup_network (E:=E) g).
Proof.
  intros HY. pose proof (XC_closed P b Y g HY) as HX.
  assert (keeps (XC P b Y g) (remove_network (E:=E) (mg_NetworkName g))) as Hrm.
  { intros d l [HS (HB & Hrec)]. apply wp_runtime; [by split|]. intros x. split.
    - apply Sess_call; [done|]. by left.
    - split; [|done]. apply XB_call; [done..|].
      split_and!; [intros; discriminate..|]. intros name x' [= <- <-].
      pose proof (recorded_inactive g d Hrec). destruct Hrec as [(r & Hr & _ & Hn) _]. eauto 10. }
  unfold multi_cleanup_network. keeps_walk.
Qed.

Lemma wp_multi_cleanup plan (Q : res unit -> assn) b Y d l :
  mono Y -> mlike plan -> K (XB in_progress b Y) d l ->
  (forall x d' l', K (XB in_progress b Y) d' l' -> Q x d' l') ->
  wp (E:=E) (multi_cleanupCandidate sha hook plan) Q MStop d l.
Proof.
  intros HY Hp HK HQ. unfold multi_cleanupCandidate.
  apply wp_try. apply wp_store; [eauto|intros e; apply wp_ret; auto|].
  intros _ g d' H. apply MultiByOperation_Ok in H as (-> & r & Hr & Ho & Hg).
  rewrite (proj1 (mlike_mine plan Hp)) in Ho. destruct (proj1 (xb_own _ _ _ _ _ (proj2 HK)) _ _ Hr Ho) as [Hk HP].
  rewrite Hk in Hr, Hg. pose proof (load_recorded r d Hr HP) as Hrec. rewrite <- Hg in Hrec.
  assert (forall d l, K (XC in_progress b Y g) d l -> K (XB in_progress b Y) d l) as Hw.
  { intros d1 l1 [? [? ?]]. done. }
  apply wp_try. eapply (wp_keeps _ _ _ _ _ (XC in_progress b Y g));
    [apply keeps_cleanup_candidate; [done|done|intros c; apply elem_of_reverse]|split; [apply HK|split; [apply HK|done]]| |].
  2:{ intros; eauto. }
  intros [x|e] d1 l1 HK1; [|apply wp_ret; auto].
  eapply (wp_keeps _ _ _ _ _ (XC in_progress b Y g)); [by apply keeps_cleanup_network|done|auto|eauto].
Qed.

(** What a failure before the commit leaves. *)
Definition MFail (b : option Z) (e : error) (d : db) (l : log) : Prop :=
  (exists P, K (XB P b anything) d l) /\ (is_unknown_outcome e = false -> K (XB failed_clean b anything) d l).

Lemma MFail_unknown P b Y phase e d l : K (XB P b Y) d l -> MFail b (ErrUnknownOutcome phase e) d l.
Proof. intros H. split; [exists P; by eapply XB_weaken; [|exact H]|done]. Qed.

Lemma MarkMultiFailed_own plan cl b Y d l u d' :
  mlike plan -> K (XB in_progress b Y) d l -> MarkMultiFailed plan cl d = Ok (u, d') ->
  K (XB (fun r => g_status r = GenFailed /\ g_cleanup r = cl) b Y) d' l.
Proof.
  intros Hl HB H. apply MarkMultiFailed_step in H as (Hs & Ha & r & Hr & Hop & Hg).
  rewrite (mlike_key plan Hl) in *. destruct Hl as [cs ->]. eapply XB_step; [done..|].
  destruct (xb_own _ _ _ _ _ (proj2 HB)) as [Hall _]. unfold mown. rewrite Hg. split.
  - intros k r' Hr' Ho. apply lookup_insert_Some in Hr' as [[<- <-]|[Hne Hr']]; [done|].
    by destruct (Hall _ _ Hr' Ho) as [-> _].
  - intros _. eexists. rewrite lookup_insert_eq. done.
Qed.

Lemma wp_multi_failBefore plan cause (Q : error -> assn) b Y d l :
  mono Y -> mlike plan -> K (XB in_progress b Y) d l -> (forall e d' l', MFail b e d' l' -> Q e d' l') ->
  wp (E:=E) (multi_failBeforeCutover sha hook plan cause) Q MStop d l.
Proof.
  intros HY Hl HK HQ. unfold multi_failBeforeCutover. apply wp_bind. eapply wp_multi_cleanup; [done..|].
  intros x d1 l1 HK1. apply wp_bind. apply wp_store; [eauto| |].
  - intros err. apply wp_ret, HQ. rewrite andb_false_r. by eapply MFail_unknown.
  - intros _ [] d2 H. apply wp_ret, HQ. eapply MarkMultiFailed_own in H; [|done..].
    destruct x; cbn; [|by eapply MFail_unknown].
    split; [eexists|intros _]; (eapply XB_weaken; [|exact H]; done).
Qed.

(** A failure with the outcome left open. *)
Lemma wp_mark_pending plan phase cause (Q : error -> assn) b Y d l :
  mlike plan -> K (XB in_progress b Y) d l -> (forall e d' l', MFail b e d' l' -> Q e d' l') ->
  wp (E:=E) (run* _ := store (fun _ => MarkMultiFailed plan CleanupPending) in
             pret (ErrUnknownOutcome phase cause)) Q MStop d l.
Proof.
  intros Hl HK HQ. apply wp_bind. apply wp_store; [eauto| |].
  - intros err. apply wp_ret, HQ. by eapply MFail_unknown.
  - intros _ [] d2 H. apply wp_ret, HQ. eapply MarkMultiFailed_own in H; [|done..]. by eapply MFail_unknown.
Qed.

Lemma keeps_stop_started P b Y g plan started cs : mono Y -> mlike plan ->
  (forall c, c ∈ cs -> c ∈ mg_Components g) ->
  keeps (XC P b Y g) (stop_started (E:=E) sha hook plan started cs).
Proof.
  intros HY Hp Hsub. induction cs as [|c cs IH]; cbn; [apply keeps_ret|].
  assert (c ∈ mg_Components g) as Hc by (apply Hsub; by left).
  assert (keeps (XC P b Y g) (stop_started (E:=E) sha hook plan started cs)) as Hrest.
  { apply IH. intros; apply Hsub. by right. }
  keeps_walk.
Qed.

Lemma RecordMultiContainer_gens plan c cid iid h s v : mine plan ->
  tx_in inst gensR (RecordMultiContainer plan c cid iid h s v).
Proof.
  intros (_ & Hi & _) now u d d' _ Ht. right.
  apply RecordMultiContainer_step in Ht as (Ht & Hg & _). by rewrite Hi in Ht.
Qed.
Hint Resolve RecordMultiContainer_gens : txs.

Lemma keeps_start P b Y plan c want : mono Y -> mine plan ->
  keeps (XB P b Y) (mutateExisting (E:=E) sha hook plan c "start" want).
Proof.
  intros HY Hp. apply (keeps_mutateExisting _ _ _ _ _ _ gensR); auto using frame_gens, XB_closed, sends_start.
Qed.
Hint Resolve keeps_start : keeps.

Lemma keeps_restart_old P b Y oldPlan stopped cs : mono Y -> mine oldPlan ->
  keeps (XB P b Y) (restart_old (E:=E) sha hook oldPlan stopped cs).
Proof.
  intros HY Hp. pose proof (XB_closed P b Y HY) as HX. induction cs as [|c cs IH]; cbn; keeps_walk.
Qed.

Lemma wp_multi_after plan active stoppedOld started phase cause (Q : error -> assn) b Y d l :
  mono Y -> mlike plan -> K (XB in_progress b Y) d l -> (forall e d' l', MFail b e d' l' -> Q e d' l') ->
  wp (E:=E) (multi_afterCutoverFailure sha hook plan active stoppedOld started phase cause) Q MStop d l.
Proof.
  intros HY Hl HK HQ. unfold multi_afterCutoverFailure.
  assert (forall d' l', K (XB in_progress b Y) d' l' ->
    wp (E:=E) (if decide (mg_Status active = "active" /\ mp_RollbackSafe plan = true)
      then try* _ := restart_old sha hook (old_plan plan active) stoppedOld (mg_Components active)
             catch _e => run* _ := store (fun _ => MarkMultiFailed plan CleanupPending) in
                         pret (ErrUnknownOutcome phase cause) in
           multi_failBeforeCutover sha hook plan cause
      else run* _ := store (fun _ => MarkMultiFailed plan CleanupPending) in
           pret (ErrUnknownOutcome phase cause)) Q MStop d' l') as Hrest.
  { intros d' l' HK'. case_decide; [|by eapply wp_mark_pending].
    apply wp_try. eapply (wp_keeps _ _ _ _ _ (XB in_progress b Y));
      [apply keeps_restart_old; [done|by apply old_mine]|done| |eauto].
    intros [x|e] d1 l1 HK1; [by eapply wp_multi_failBefore|by eapply wp_mark_pending]. }
  apply wp_bind. apply wp_store; [eauto| |].
  { intros err. cbn. apply wp_bind, wp_ret. by apply Hrest. }
  intros _ g d1 H. apply LoadMulti_Ok in H as (-> & Hk & r & Hr & Hg). cbn.
  change (mp_InstallationID plan, mp_Generation plan) with (mplan_key plan) in Hk.
  rewrite (mlike_key plan Hl) in Hk. rewrite Hk in Hr, Hg.
  assert (recorded g d) as Hrec.
  { destruct (xb_own _ _ _ _ _ (proj2 HK)) as [Hall Hhere].
    destruct Hhere as (r' & Hr' & Ho); [exists (prepared_multi plan0 ""); by left|]. rewrite Hr in Hr'.
    injection Hr' as <-. rewrite Hg. apply load_recorded; [done|]. by eapply Hall. }
  apply wp_bind. eapply (wp_keeps _ _ _ _ _ (XC in_progress b Y g));
    [apply keeps_stop_started; [done|done|intros c; apply elem_of_reverse]|split; [apply HK|split; [apply HK|done]]| |].
  - intros _ d2 l2 [HS2 [HB2 _]]. by apply Hrest.
  - intros d2 l2 [HS2 [HB2 _]]. by eapply XB_stop.
Qed.

(** *** After the commit *)
Definition mkeep : Z := if allow then 0 else expected.

(** Older generations that are still as they were loaded. *)
Definition Older (gs : list MultiGeneration) (d : db) : Prop :=
  forall g, g ∈ gs -> mg_InstallationID g = inst /\ mg_Generation g <> mkeep /\
    (exists r, db_gens d !! mgen_key g = Some r /\ g_status r <> GenActive /\ g_network_name r = mg_NetworkName g) /\
    forall c, c ∈ mg_Components g -> owned_by d (mgen_key g) (cm_ContainerID c).

Lemma Older_marks gs d d' : Older gs d -> marks d d' -> Older gs d'.
Proof.
  intros Ho [Hg Hc] g Hin. destruct (Ho g Hin) as (Hi & Hk & (r & Hr & Hs & Hn) & Hown). split_and!; [done..| |].
  - destruct (Hg _ _ Hr) as (r' & Hr' & Hs' & Hn' & _). exists r'. split_and!; [done|auto|congruence].
  - intros c Hin'. destruct (Hown c Hin') as (cid & row & Hrow & Hid).
    destruct (Hc _ _ Hrow) as (row' & Hrow' & Hid'). exists cid, row'. split; [done|congruence].
Qed.

Definition XO (b : option Z) (gs : list MultiGeneration) (d : db) (l : log) : Prop := XA b d l /\ Older gs d.

Lemma XO_closed b gs : closed frame_same (XO b gs).
Proof.
  split.
  - intros d d' l HS [HX Ho] Hs Hf. split.
    + eapply cl_step; [apply XA_closed|done..|by apply frame_gens].
    + destruct Hf as (Hg & Hc & _). by eapply Older_marks, same_marks.
  - intros d l c [HX Ho] Hc. split; [|done]. eapply cl_look; [apply XA_closed|done..].
Qed.

Lemma XO_XA b gs d l : K (XO b gs) d l -> K (XA b) d l.
Proof. intros [? [? ?]]. done. Qed.

Lemma keeps_remove_older b gs g cs : g ∈ gs -> (forall c, c ∈ cs -> c ∈ mg_Components g) ->
  keeps (XO b gs) (remove_older_components (E:=E) cs).
Proof.
  intros Hg Hsub. pose proof (XO_closed b gs) as HX. induction cs as [|c cs IH]; cbn; [apply keeps_ret|].
  assert (keeps (XO b gs) (remove_older_components (E:=E) cs)) as Hrest.
  { apply IH. intros; apply Hsub. by right. }
  assert (keeps (XO b gs) (remove_container (E:=E) (cm_ContainerID c))) as Hrm.
  { intros d l [HS [HA Ho]]. apply wp_runtime; [by split|]. intros x. split.
    - apply Sess_call; [done|]. right. apply bool_decide_eq_true, HA.
    - split; [|done]. apply XA_call; [done|]. split_and!; [intros; discriminate| |intros; discriminate].
      intros id r [= <- <-]. destruct (Ho g Hg) as (Hi & _ & (r0 & Hr & Hs & _) & Hown).
      exists (mgen_key g). split; [split; [done|eauto]|]. apply Hown, Hsub. by left. }
  apply keeps_try; [by keeps_walk..|]. intros o. case_match; [done|].
  case_decide as Hid; [by keeps_walk|]. apply Decidable.not_or in Hid as [Hid _].
  apply dec_stable in Hid. rewrite Hid. keeps_walk.
Qed.

Lemma keeps_older_network b gs g : g ∈ gs -> keeps (XO b gs) (remove_older_network (E:=E) g).
Proof.
  intros Hg. pose proof (XO_closed b gs) as HX.
  assert (keeps (XO b gs) (remove_network (E:=E) (mg_NetworkName g))) as Hrm.
  { intros d l [HS [HA Ho]]. apply wp_runtime; [by split|]. intros x. split.
    - apply Sess_call; [done|]. by left.
    - split; [|done]. apply XA_call; [done|]. split_and!; [intros; discriminate..|].
      intros name r [= <- <-]. destruct (Ho g Hg) as (Hi & _ & (r0 & Hr & Hs & Hn) & _).
      exists (mgen_key g), r0. split_and!; [split; [done|eauto]|done..]. }
  unfold remove_older_network. keeps_walk.
Qed.

(** Marking one of them. *)
Lemma XO_mark b gs g d d' l : K (XO b gs) d l -> g ∈ gs ->
  runner_step (mg_InstallationID g) d d' -> active_rows d d' -> marks d d' ->
  (forall k, k <> mgen_key g -> db_gens d' !! k = db_gens d !! k) -> K (XO b gs) d' l.
Proof.
  intros [HS [[H1 H2 H3 H4 H5] Ho]] Hg Hs Ha Hm Hk. destruct (Ho g Hg) as (Hi & Hne & _). rewrite Hi in Hs.
  pose proof (Sess_step op inst token d0 after_commit d d' l HS Hs) as HS'. split; [done|].
  split; [|by eapply Older_marks]. split; try done.
  - rewrite <- H2. apply active_rows_same; [apply (ss_inv _ _ _ _ _ _ _ HS)|apply (ss_inv _ _ _ _ _ _ _ HS')|done].
  - intros n Hn. destruct (H4 n Hn) as [-> Hr]. split; [done|]. intros Hal. rewrite Hk; [by apply Hr|].
    unfold mgen_key. intros [= _ Heq]. apply Hne. unfold mkeep. by rewrite Hal.
Qed.

Lemma keeps_defer b gs g : g ∈ gs -> keeps (XO b gs) (multi_defer (E:=E) g).
Proof.
  intros Hg d l HK. unfold multi_defer. apply wp_bind. apply wp_store; [done|intros e; by apply wp_ret|].
  intros _ [] d' H. apply MarkCleanupPending_step in H as (Hs & Ha & Hm & Hr).
  apply wp_ret. by eapply (XO_mark _ _ g).
Qed.

Lemma keeps_mark_removed b gs g : g ∈ gs -> keeps (XO b gs) (MarkRemoved (E:=E) (bare_generation g)).
Proof.
  intros Hg d l HK. unfold MarkRemoved. apply wp_try. apply wp_store; [done|intros e; by apply wp_ret|].
  intros _ [] d1 H. apply MarkRemovedG_step in H as (Hs & Ha & Hm & Hr).
  assert (K (XO b gs) d1 l) as HK1 by by eapply (XO_mark _ _ g).
  apply wp_store; [done|done|]. intros _ [] d2 H. apply MarkRemovedC_step in H as (Hs2 & Hg2 & Hm2).
  eapply (XO_mark _ _ g); [done..|by apply same_gens_active|done|by rewrite Hg2].
Qed.

Lemma keeps_multi_cleanup_one plan b gs g : g ∈ gs -> keeps (XO b gs) (multi_cleanup_one (E:=E) sha hook plan g).
Proof.
  intros Hg. pose proof (XO_closed b gs) as HX. unfold multi_cleanup_one.
  pose proof (keeps_defer b gs g Hg). pose proof (keeps_mark_removed b gs g Hg).
  pose proof (keeps_older_network b gs g Hg).
  pose proof (keeps_remove_older b gs g _ Hg (fun c => proj1 (elem_of_reverse c (mg_Components g)))).
  pose proof (keeps_verify sha op inst token d0 after_commit (E:=E) frame_same _ HX g RuntimeStopped).
  pose proof (keeps_repairable sha op inst token d0 after_commit (E:=E) frame_same _ HX g).
  keeps_walk.
Qed.

Lemma keeps_multi_cleanup_loop plan b gs gs' deferred : (forall g, g ∈ gs' -> g ∈ gs) ->
  keeps (XO b gs) (multi_cleanup_loop (E:=E) sha hook plan gs' deferred).
Proof.
  revert deferred. induction gs' as [|g gs' IH]; intros deferred Hsub; cbn; [apply keeps_ret|].
  apply keeps_bind; [apply keeps_multi_cleanup_one, Hsub; by left|]. intros x. apply IH. intros; apply Hsub. by right.
Qed.

Lemma wp_multi_cleanupOlder plan (Q : bool -> assn) b d l :
  mlike plan -> K (XA b) d l -> (forall x d' l', K (XA b) d' l' -> Q x d' l') ->
  wp (E:=E) (multi_cleanupOlder sha hook plan mkeep) Q MStop d l.
Proof.
  intros Hl HK HQ. unfold multi_cleanupOlder. apply wp_try. apply wp_store; [eauto|intros e; apply wp_ret; auto|].
  intros _ gs d' H. destruct Hl as [cs ->]. apply MultiOlder_Ok in H as [-> Hgs]. cbn in Hgs.
  eapply (wp_keeps _ _ _ _ _ (XO b gs)); [by apply keeps_multi_cleanup_loop| |eauto using XO_XA..].
  split; [apply HK|]. split; [apply HK|]. rewrite Forall_forall in Hgs. intros g Hg.
  destruct (Hgs g Hg) as (Hi & Hk & r & Hr & Hs & Hload). split_and!; [done..|exists r; split_and!; [done..|by rewrite Hload]|].
  intros c Hc. rewrite Hload in Hc. apply loaded_owned in Hc. exact Hc.
Qed.

(** *** The replacement, from its end to its beginning *)

(** The active generation stands where it stood, and whatever the operation
    created has failed and is cleaned up. *)
Definition MClean (d : db) : Prop :=
  exists b, base_of inst d0 b /\ active_generation inst d = b /\
    forall k r, db_gens d !! k = Some r -> g_operation r = op -> k = mplan_key plan0 /\ failed_clean r.

Definition MFin (x : Result * option error) (d : db) (l : log) : Prop :=
  MStop d l /\
  match x.2 with
  | None => (exists b, K (XA b) d l) /\ re_Generation x.1 = gen /\ re_ReleaseID x.1 = mp_ReleaseID plan0 /\
      re_RuntimeState x.1 = "running" /\ re_NetworkName x.1 = mp_NetworkName plan0 /\
      re_Bindings x.1 = Normalize (mp_Bindings plan0)
  | Some e => is_unknown_outcome e = false -> MClean d
  end.

Lemma MFail_Fin b e d l : MFail b e d l -> MFin (zero_result, Some e) d l.
Proof.
  intros [[P H] Hf]. split; [by eapply XB_stop|]. cbn. intros He. destruct (Hf He) as [_ [H1 H2 H3 H4 _]].
  exists b. split_and!; [done..|]. apply H3.
Qed.

Lemma wp_mfail (m : prog E error) d l b :
  wp m (MFail b) MStop d l -> wp (fail_with m) MFin MStop d l.
Proof.
  intros Hm. apply wp_bind. eapply wp_mono; [exact Hm| |done]. intros e d' l' H. apply wp_ret.
  by eapply MFail_Fin.
Qed.

Lemma wp_munknown P b Y phase e d l :
  K (XB P b Y) d l -> wp (E:=E) (fail (ErrUnknownOutcome phase e)) MFin MStop d l.
Proof. intros H. apply wp_ret. split; [eauto|done]. Qed.

Lemma wp_mbefore plan cause b Y d l :
  mono Y -> mlike plan -> K (XB in_progress b Y) d l ->
  wp (E:=E) (fail_with (multi_failBeforeCutover sha hook plan cause)) MFin MStop d l.
Proof. intros HY Hl HK. apply (wp_mfail _ _ _ b). by eapply wp_multi_failBefore. Qed.

(** A phase record before or after the commit. *)
Lemma checkpoint_gens plan phase outcome facts : mlike plan ->
  tx_in inst gensR (record_phase (mp_OperationID plan) (mp_FencingToken plan) phase outcome facts).
Proof. intros [cs ->]. apply record_tx, frame_gens. Qed.

Lemma wp_mcheckpoint X plan phase outcome facts (Q : res unit -> assn) (C : assn) d l :
  closed gensR X -> mlike plan -> K X d l -> (forall d l, K X d l -> C d l) ->
  (forall x d', K X d' l -> Q x d' l) ->
  wp (E:=E) (multi_checkpoint plan phase outcome facts) Q C d l.
Proof.
  intros HX Hl HK HC HQ. apply wp_store; [auto|auto|]. intros now a d' H. apply HQ.
  destruct (checkpoint_gens plan phase outcome facts Hl now a d d' (ss_inv _ _ _ _ _ _ _ (proj1 HK)) H) as [->|[? ?]];
    [done|by eapply K_step].
Qed.

Lemma Commit_XA plan now u b P Y d d' l :
  mlike plan -> K (XB P b Y) d l -> all_exact RuntimeRunning l -> CommitMulti plan now d = Ok (u, d') -> K (XA b) d' l.
Proof.
  intros [cs ->] [HS [H1 H2 H3 H4 H5]] He H. apply CommitMulti_step in H as (Hs & Ha & Hk);
    [|apply (ss_inv _ _ _ _ _ _ _ HS)]. cbn in *.
  split; [by eapply Sess_step|]. split; try done. intros n Hn. apply Hk. congruence.
Qed.

Lemma wp_multi_commit plan b d l :
  mlike plan -> K (XB in_progress b (all_exact RuntimeRunning)) d l ->
  wp (E:=E) (multi_commit sha hook plan) MFin MStop d l.
Proof.
  intros Hl HK. unfold multi_commit. apply wp_try.
  eapply (wp_mcheckpoint (XB in_progress b (all_exact RuntimeRunning)));
    [apply XB_closed, all_exact_mono|done..|eauto|].
  intros [x|e] d1 HK1; [|by eapply wp_munknown]. apply wp_bind, wp_runHook; [eauto|].
  intros [e|]; [by eapply wp_munknown|]. apply wp_try. apply wp_store; [eauto|intros e; by eapply wp_munknown|].
  intros now [] d2 Hc. assert (K (XA b) d2 l) as HA by (eapply Commit_XA; [done..|apply HK1|done]).
  assert (forall r e, MFin (r, Some (ErrUnknownOutcome PhaseAfterCommit e)) d2 l) as Hu by (split; eauto; done).
  apply wp_try. apply wp_store; [eauto|intros e; by apply wp_ret|].
  intros _ g d3 Hg. apply LoadMulti_Ok in Hg as [-> _]. apply wp_try.
  eapply (wp_mcheckpoint (XA b)); [apply XA_closed|done..|eauto|].
  intros [x'|e] d4 HA4; [|apply wp_ret; split; eauto; done].
  destruct Hl as [cs ->]. cbn. change (if allow then 0 else expected) with mkeep. apply wp_bind.
  eapply wp_multi_cleanupOlder; [by eexists|done|]. intros deferred d5 l5 HA5. apply wp_ret.
  split; [eauto|]. cbn. split_and!; eauto.
Qed.

(** *** Observations that are remembered *)
Definition seen (Y : log -> Prop) (c : rt_call) (d : db) (l : log) : Prop := Y l /\ (c, d) ∈ l.

Lemma seen_mono Y c d : mono Y -> mono (seen Y c d).
Proof. intros HY l l' [H1 H2]. split; [by apply HY|]. apply elem_of_app. by left. Qed.

Lemma wp_mlook {B} (f : E -> res B * E) c (Q : res B -> assn) P b Y d l :
  mono Y -> (forall r, observes (c r) = true) -> K (XB P b Y) d l ->
  (forall r l', K (XB P b (seen Y (c r) d)) d l' -> Q r d l') ->
  wp (runtime f c) Q MStop d l.
Proof.
  intros HY Hc HK HQ. apply wp_runtime; [eauto|]. intros r. apply HQ.
  pose proof (K_look _ _ _ _ _ gensR _ d l (c r) (XB_closed P b Y HY) HK (Hc r)) as [HS HB].
  split; [done|]. destruct HB as [H1 H2 H3 H4 H5]. split; try done. split; [done|].
  apply elem_of_app. right. by left.
Qed.

Lemma wp_mkeeps {A} (m : prog E A) (Q : A -> assn) P b Y d l :
  keeps (XB P b Y) m -> K (XB P b Y) d l -> (forall a d' l', K (XB P b Y) d' l' -> Q a d' l') ->
  wp m Q MStop d l.
Proof. intros Hm HK HQ. eapply (wp_keeps _ _ _ _ _ (XB P b Y)); eauto. Qed.

Hint Resolve seen_mono : core.

Lemma wp_start_candidate plan active hashes stoppedOld started c (Q : res unit -> assn) b Y d l :
  mono Y -> mlike plan -> K (XB in_progress b Y) d l ->
  (forall d' l', K (XB in_progress b (fun l => Y l /\ observed_exact RuntimeRunning plan c l)) d' l' -> Q (Ok tt) d' l') ->
  (forall e d' l', MFail b e d' l' -> Q (Err e) d' l') ->
  wp (E:=E) (start_candidate sha hook plan active hashes stoppedOld started c) Q MStop d l.
Proof.
  intros HY Hl HK HOk HErr. unfold start_candidate. cbv zeta.
  assert (forall Y phase e d l, mono Y -> K (XB in_progress b Y) d l ->
    wp (E:=E) (run* e' := multi_afterCutoverFailure sha hook plan active stoppedOld started phase e in pret (Err e'))
      Q MStop d l) as Hafter.
  { intros Y' phase e d1 l1 HY' HK1. apply wp_bind. eapply wp_multi_after; [exact HY'|done..|].
    intros e' d2 l2 HF. apply wp_ret. auto. }
  assert (forall Y phase e d l, K (XB in_progress b Y) d l -> Q (Err (ErrUnknownOutcome phase e)) d l) as Hunk.
  { intros Y' phase e d1 l1 HK1. apply HErr. by eapply MFail_unknown. }
  apply wp_try. apply wp_store; [eauto|intros e; apply wp_ret; eauto|].
  intros _ g d1 Hg. apply LoadMulti_Ok in Hg as [-> _].
  destruct (componentByID _ _) as [cand|]; [|apply wp_ret; eauto].
  apply wp_try. eapply wp_mkeeps; [by apply keeps_start, mlike_mine|done|].
  intros [x|e] d2 l2 HK2; [|by eapply Hafter]. apply wp_try. eapply wp_mlook; [done..|].
  intros [o|e] l3 HK3; [|eapply Hafter; [|done]; auto]. apply wp_bind, wp_runHook; [eauto|].
  intros [e|]; [eapply Hafter; [|done]; auto|]. apply wp_try. eapply (wp_mlook _ _ _ _ _ _ _ _ (seen_mono _ _ _ HY)); [done|exact HK3|].
  intros [n|e] l4 HK4; [|eapply Hafter; [|done]; auto].
  destruct (verifyMultiCandidate plan c n o RuntimeRunning) as [[]|e] eqn:Hv; cbn;
    [|eapply Hafter; [|done]; auto].
  case_bool_decide; cbn; [|eapply Hafter; [|done]; auto].
  apply wp_try. eapply wp_mkeeps; [|exact HK4|].
  { eapply keeps_store; [apply XB_closed; auto|by apply RecordMultiContainer_gens, mlike_mine]. }
  intros [y|e] d5 l5 HK5; [|apply wp_ret; eauto]. apply wp_ret, HOk.
  eapply XB_weaken; [|exact HK5]. intros [[HYl Ho] Hn]. split; [done|].
  exists n, d2, (cm_ContainerID cand), o, d2. done.
Qed.

(** All of the components [cs] are known exact. *)
Definition known (want : string) (plan : MultiPlan) (cs : list MultiComponentPlan) (Y : log -> Prop) (l : log) : Prop :=
  Y l /\ forall c, c ∈ cs -> observed_exact want plan c l.

Lemma known_mono want plan cs Y : mono Y -> mono (known want plan cs Y).
Proof. intros HY l l' [H1 H2]. split; [by apply HY|]. intros c Hc. by apply observed_exact_mono, H2. Qed.

Lemma wp_start_candidates plan active hashes stoppedOld started cs done_ (Q : res unit -> assn) b Y d l :
  mono Y -> mlike plan -> K (XB in_progress b (known RuntimeRunning plan done_ Y)) d l ->
  (forall d' l', K (XB in_progress b (known RuntimeRunning plan (done_ ++ cs) Y)) d' l' -> Q (Ok tt) d' l') ->
  (forall e d' l', MFail b e d' l' -> Q (Err e) d' l') ->
  wp (E:=E) (start_candidates sha hook plan active hashes stoppedOld started cs) Q MStop d l.
Proof.
  intros HY Hl. revert started done_ d l. induction cs as [|c cs IH]; intros started done_ d l HK HOk HErr; cbn.
  { apply wp_ret, HOk. by rewrite app_nil_r. }
  apply wp_try. eapply wp_start_candidate; [by apply known_mono|done|exact HK| |intros; apply wp_ret; auto].
  intros d1 l1 HK1. eapply (IH _ (done_ ++ [c])); [|intros d2 l2 HK2; apply HOk|done].
  - eapply XB_weaken; [|exact HK1]. intros [[HYl Hd] Hc]. split; [done|].
    intros c' [Hc'|Hc']%elem_of_app; [auto|]. by apply list_elem_of_singleton in Hc' as ->.
  - by rewrite <- app_assoc in HK2.
Qed.

(** The plan carries the users and volumes of the images that were pulled. *)
Definition pulled_images (images : gmap string (string * list string)) (cs : list MultiComponentPlan) (l : log) : Prop :=
  forall c, c ∈ cs -> exists image d1,
    (CObserveImage (mc_Image c) (Ok image), d1) ∈ l /\ imageContainsDigest image (mc_Image c) = true /\
    images !! mc_Image c = Some (im_ConfiguredUser image, im_ConfiguredVolumes image).

Definition MImaged (plan : MultiPlan) (l : log) : Prop :=
  exists images, plan = with_images plan0 images /\ pulled_images images (mp_Components plan0) l.

Lemma pulled_mono images cs : mono (pulled_images images cs).
Proof.
  intros l l' H c Hc. destruct (H c Hc) as (image & d1 & ? & ? & ?). exists image, d1.
  split_and!; [apply elem_of_app; by left|done..].
Qed.

Lemma MImaged_mono plan : mono (MImaged plan).
Proof. intros l l' (images & -> & H). exists images. split; [done|]. by apply pulled_mono. Qed.

Lemma MImaged_like plan l : MImaged plan l -> mlike plan.
Proof. intros (images & -> & _). by eexists. Qed.

Lemma known_all want plan l : known want plan (mp_Components plan) (MImaged plan) l -> all_exact want l.
Proof. intros [(images & -> & Hp) Hk]. exists images. done. Qed.

Lemma keeps_stop_prepared b Y plan c : mono Y -> (forall l, Y l -> all_exact RuntimeStopped l) -> mine plan ->
  keeps (XB in_progress b Y) (mutateExisting (E:=E) sha hook plan c "stop" RuntimeStopped).
Proof.
  intros HY Hall Hp. apply (keeps_mutateExisting _ _ _ _ _ _ gensR); auto using frame_gens, XB_closed.
  intros d l x [_ HK] (actions & Hl & Ha). split; [by destruct x; cbn in Hl; simplify_eq; try done; set_solver|].
  apply XB_call; [done..|]. destruct x; cbn in Hl; simplify_eq; try set_solver.
  split_and!; [|intros; discriminate..]. intros id' r' _. right. apply Hall, HK.
Qed.

Lemma wp_stop_old plan active observations stoppedOld cs (Q : res (list string) -> assn) b Y d l :
  mono Y -> (forall l, Y l -> all_exact RuntimeStopped l) -> mlike plan -> K (XB in_progress b Y) d l ->
  (forall x d' l', K (XB in_progress b Y) d' l' -> Q (Ok x) d' l') ->
  (forall e d' l', MFail b e d' l' -> Q (Err e) d' l') ->
  wp (E:=E) (stop_old sha hook plan active observations stoppedOld cs) Q MStop d l.
Proof.
  intros HY Hall Hl HK HOk HErr. revert stoppedOld d l HK.
  induction cs as [|c cs IH]; intros stoppedOld d l HK; cbn; [apply wp_ret; auto|].
  assert (forall stopped phase e d l, K (XB in_progress b Y) d l ->
    wp (E:=E) (run* e' := multi_afterCutoverFailure sha hook plan active stopped [] phase e in pret (Err e'))
      Q MStop d l) as Hafter.
  { intros stopped phase e d1 l1 HK1. apply wp_bind. eapply wp_multi_after; [exact HY|done..|].
    intros e' d2 l2 HF. apply wp_ret. auto. }
  case_match; [auto|]. apply wp_try. eapply wp_mkeeps; [by apply keeps_stop_prepared, old_mine|done|].
  intros [x|e] d1 l1 HK1; [|auto]. apply wp_try. eapply wp_mkeeps; [|exact HK1|].
  { eapply keeps_store; [by apply XB_closed|by apply RecordMultiContainer_gens, old_mine]. }
  intros [y|e] d2 l2 HK2; auto.
Qed.

Lemma wp_multi_cutover plan active hashes observations b d l :
  K (XB in_progress b (known RuntimeStopped plan (mp_Components plan) (MImaged plan))) d l ->
  wp (E:=E) (multi_cutover sha hook plan active hashes observations) MFin MStop d l.
Proof.
  intros HK. assert (mlike plan) as Hl by (destruct HK as [_ [_ _ _ _ [Hi _]]]; by eapply MImaged_like).
  set (Y := known RuntimeStopped plan (mp_Components plan) (MImaged plan)) in *.
  assert (mono Y) as HY by (apply known_mono, MImaged_mono).
  unfold multi_cutover. apply wp_try.
  assert (forall stoppedOld d l, K (XB in_progress b Y) d l ->
    wp (E:=E) (try* _ := start_candidates sha hook plan active hashes stoppedOld [] (mp_Components plan)
         catch e => fail e in multi_commit sha hook plan) MFin MStop d l) as Hstart.
  { intros stoppedOld d1 l1 HK1. apply wp_try. eapply (wp_start_candidates _ _ _ _ _ _ [] _ b (MImaged plan)).
    - apply MImaged_mono.
    - done.
    - eapply XB_weaken; [|exact HK1]. intros [Hi _]. split; [done|]. intros c Hc. by apply elem_of_nil in Hc.
    - intros d2 l2 HK2. cbn in HK2. eapply wp_multi_commit; [done|].
      eapply XB_weaken; [|exact HK2]. apply known_all.
    - intros e d2 l2 HF. apply wp_ret. by eapply MFail_Fin. }
  case_decide; [|by apply wp_ret, Hstart].
  eapply wp_stop_old; [exact HY|intros l'; apply known_all|done|done|auto|].
  intros e d1 l1 HF. apply wp_ret. by eapply MFail_Fin.
Qed.

Lemma wp_verify_prepared plan network stored hashes cs done_ (Q : res unit -> assn) P b Y d l dn :
  mono Y -> (forall l, Y l -> (CObserveNetwork (mp_NetworkName plan) (Ok network), dn) ∈ l) ->
  K (XB P b (known RuntimeStopped plan done_ Y)) d l ->
  (forall d' l', K (XB P b (known RuntimeStopped plan (done_ ++ cs) Y)) d' l' -> Q (Ok tt) d' l') ->
  (forall e d' l', K (XB P b Y) d' l' -> Q (Err e) d' l') ->
  wp (E:=E) (verify_prepared sha plan network stored hashes cs) Q MStop d l.
Proof.
  intros HY Hn. revert done_ d l. induction cs as [|c cs IH]; intros done_ d l HK HOk HErr; cbn.
  { apply wp_ret, HOk. by rewrite app_nil_r. }
  assert (forall Z d l, K (XB P b (seen (known RuntimeStopped plan done_ Y) Z d)) d l -> K (XB P b Y) d l) as Hw.
  { intros Z d1 l1 HK1. eapply XB_weaken; [|exact HK1]. by intros [[? _] _]. }
  destruct (componentByID _ _) as [comp|].
  2:{ apply wp_ret, HErr. eapply XB_weaken; [|exact HK]. by intros [? _]. }
  apply wp_try. eapply wp_mlook; [by apply known_mono|done|done|].
  intros [o|e] l1 HK1; [|apply wp_ret; eauto].
  destruct (verifyMultiCandidate plan c network o RuntimeStopped) as [[]|e] eqn:Hv; cbn; [|apply wp_ret; eauto].
  case_bool_decide; [|apply wp_ret; eauto].
  eapply (IH (done_ ++ [c])); [|intros d2 l2 HK2; apply HOk; by rewrite <- app_assoc in HK2|done].
  eapply XB_weaken; [|exact HK1]. intros [[HYl Hd] Ho]. split; [done|].
  intros c' [Hc'|Hc']%elem_of_app; [auto|]. apply list_elem_of_singleton in Hc' as ->.
  exists network, dn, (cm_ContainerID comp), o, d. split_and!; [by apply Hn|done..].
Qed.

Lemma wp_multi_precutover plan active hashes b d l :
  K (XB in_progress b (MImaged plan)) d l ->
  wp (E:=E) (multi_precutover sha hook plan active hashes) MFin MStop d l.
Proof.
  intros HK. assert (mlike plan) as Hl by (destruct HK as [_ [_ _ _ _ Hi]]; by eapply MImaged_like).
  pose proof (MImaged_mono plan) as HY. pose proof (XB_closed in_progress b _ HY) as HX.
  unfold multi_precutover. apply wp_try. eapply wp_mkeeps; [|exact HK|].
  { pose proof (keeps_verify sha op inst token d0 after_commit (E:=E) gensR _ HX active RuntimeRunning).
    pose proof (keeps_repairable sha op inst token d0 after_commit (E:=E) gensR _ HX active).
    pose proof (keeps_observe_all op inst token d0 after_commit (E:=E) gensR _ HX (mg_Components active) ∅).
    keeps_walk. }
  intros [observations|e] d1 l1 HK1; [|by eapply wp_mbefore]. apply wp_try. unfold verifyPrepared.
  apply wp_try. eapply wp_mlook; [done..|]. intros [n|e] l2 HK2.
  2:{ apply wp_ret. eapply wp_mbefore; [|done|exact HK2]. by apply seen_mono. }
  apply wp_try. apply wp_store; [eauto|intros e; apply wp_ret; eapply wp_mbefore; [|done|exact HK2]; by apply seen_mono|].
  intros _ stored d2 Hst. apply LoadMulti_Ok in Hst as [-> _].
  eapply (wp_verify_prepared _ _ _ _ _ [] _ _ _ (seen (MImaged plan) (CObserveNetwork (mp_NetworkName plan) (Ok n)) d1)).
  - by apply seen_mono.
  - by intros l' [_ ?].
  - eapply XB_weaken; [|exact HK2]. intros H. split; [done|]. intros c Hc. by apply elem_of_nil in Hc.
  - intros d3 l3 HK3. eapply wp_multi_cutover. eapply XB_weaken; [|exact HK3].
    intros [[? _] ?]. split; done.
  - intros e d3 l3 HK3. eapply wp_mbefore; [|done|exact HK3]. by apply seen_mono.
Qed.

(** *** Creation and pulls *)
Lemma wp_before_err {A} plan (Q : res A -> assn) cause b Y d l :
  mono Y -> mlike plan -> K (XB in_progress b Y) d l -> (forall e d' l', MFail b e d' l' -> Q (Err e) d' l') ->
  wp (E:=E) (run* e := multi_failBeforeCutover sha hook plan cause in pret (Err e)) Q MStop d l.
Proof.
  intros HY Hl HK HQ. apply wp_bind. eapply wp_multi_failBefore; [exact HY|done..|].
  intros e d' l' HF. apply wp_ret. auto.
Qed.

Lemma keeps_finish_step P b Y plan c a oid oc e : mono Y -> mlike plan ->
  keeps (XB P b Y) (finish_step (E:=E) plan c a oid oc e).
Proof.
  intros HY Hl. eapply (keeps_finish _ _ _ _ _ gensR); [apply frame_gens|by apply XB_closed|by apply mlike_mine].
Qed.

(** A free ledgered call: intent, hook, dispatch, call. *)
Lemma wp_ledgered_call {B C} plan id action expected_ (f : E -> res B * E) call
    (k : res B -> prog E (res C)) (Q : res C -> assn) b Y d l :
  mono Y -> mlike plan ->
  (forall r, exists actions i, ledgered (call r) = Some (actions, i) /\ action ∈ actions /\
     (forall x, i = Some x -> x = expected_) /\ free_call (call r)) ->
  K (XB in_progress b Y) d l -> (forall e d' l', MFail b e d' l' -> Q (Err e) d' l') ->
  (forall r d' l', K (XB in_progress b Y) d' l' -> wp (k r) Q MStop d' l') ->
  wp (E:=E) (try* _ := stepIntent plan id action expected_
               catch e => (run* e := multi_failBeforeCutover sha hook plan e in pret (Err e)) in
             run* h := runHook hook action id "before_dispatch" in
             match h with
             | Some e => run* e := multi_failBeforeCutover sha hook plan e in pret (Err e)
             | None =>
                 try* _ := store (DispatchComponentStep plan id action 1)
                   catch e => (run* e := multi_failBeforeCutover sha hook plan e in pret (Err e)) in
                 run* r := runtime f call in k r
             end) Q MStop d l.
Proof.
  intros HY Hl Hcall HK HErr Hk. pose proof (mlike_mine plan Hl) as Hm.
  pose proof (XB_closed in_progress b Y HY) as HX.
  apply wp_try. eapply (wp_stepIntent op inst token d0 after_commit gensR frame_gens (XB in_progress b Y));
    [done|done|eauto|done|intros e; by eapply wp_before_err|].
  intros d1 HK1 Hbegun. apply wp_bind, wp_runHook; [eauto|]. intros [e|]; [by eapply wp_before_err|].
  apply wp_try. eapply (wp_dispatch op inst token d0 after_commit gensR frame_gens (XB in_progress b Y));
    [done|done|eauto|done|done|intros e; by eapply wp_before_err|].
  intros d2 HK2 Hsent. apply wp_bind.
  eapply (wp_covered op inst token d0 after_commit (XB in_progress b Y) (XB in_progress b Y)); [done|done|done|eauto| |].
  - intros r. destruct (Hcall r) as (actions & i & H1 & H2 & H3 & H4). exists actions, i. split_and!; try done.
    + by destruct (call r).
    + apply XB_call; [done|apply HK2|]. by apply free_mcall.
  - intros r HK3. by apply Hk.
Qed.

Lemma wp_record_created plan network c cid (Q : res string -> assn) b Y d l :
  mono Y -> mlike plan -> K (XB in_progress b Y) d l -> (forall e d' l', MFail b e d' l' -> Q (Err e) d' l') ->
  (forall h d' l', K (XB in_progress b Y) d' l' -> Q (Ok h) d' l') ->
  wp (E:=E) (record_created sha hook plan network c cid) Q MStop d l.
Proof.
  intros HY Hl HK HErr HOk. pose proof (XB_closed in_progress b Y HY) as HX. unfold record_created.
  assert (forall e d l, K (XB in_progress b Y) d l ->
    wp (E:=E) (pret (Err (ErrUnknownOutcome PhaseAfterContainer e))) Q MStop d l) as Hunk.
  { intros e d1 l1 HK1. apply wp_ret, HErr. by eapply MFail_unknown. }
  assert (forall id cid iid h s v, keeps (XB in_progress b Y) (store (E:=E) (RecordMultiContainer plan id cid iid h s v))) as Hrec.
  { intros. eapply keeps_store; [done|by apply RecordMultiContainer_gens, mlike_mine]. }
  apply wp_try. eapply wp_mkeeps; [apply Hrec|done|]. intros [x|e] d1 l1 HK1; [|auto].
  apply wp_try. eapply wp_mkeeps; [by eapply keeps_look|exact HK1|]. intros [o|e] d2 l2 HK2; [|auto].
  destruct (verifyMultiCandidate _ _ _ _ _) as [u|e].
  2:{ apply wp_bind. eapply wp_mkeeps; [by apply keeps_finish_step|done|]. intros _ d3 l3 HK3. by eapply wp_before_err. }
  apply wp_try. eapply wp_mkeeps; [apply Hrec|done|]. intros [y|e] d3 l3 HK3; [|auto].
  apply wp_try. eapply wp_mkeeps; [by apply keeps_finish_step|done|]. intros [z|e] d4 l4 HK4; [|auto].
  apply wp_ret. auto.
Qed.

Lemma wp_create_candidate plan network c (Q : res string -> assn) b Y d l :
  mono Y -> mlike plan -> K (XB in_progress b Y) d l -> (forall e d' l', MFail b e d' l' -> Q (Err e) d' l') ->
  (forall h d' l', K (XB in_progress b Y) d' l' -> Q (Ok h) d' l') ->
  wp (E:=E) (create_candidate sha hook plan network c) Q MStop d l.
Proof.
  intros HY Hl HK HErr HOk. unfold create_candidate, create_container.
  eapply (wp_ledgered_call _ _ _ _ (CreateLifecycleContainer (mc_Container c)) (CCreateContainer (mc_Container c)));
    [exact HY|done| |exact HK|done|].
  { intros r. exists ["create"], None. split_and!; [done|set_solver|done|done]. }
  intros created d1 l1 HK1. apply wp_bind. eapply wp_mkeeps; [apply keeps_mutation_hooks|done|].
  intros createErr d2 l2 HK2. apply wp_try.
  assert (forall e, wp (E:=E) (run* observed := observe_container (mc_ContainerName c) in
      match observed with
      | Err _ => run* _ := finish_step plan (mc_ID c) "create" "" OutcomeUnknown (error_text e) in
                 pret (Err (ErrUnknownOutcome PhaseBeforeContainer e))
      | Ok observed => if ob_Exists observed then pret (Ok (ob_ID observed))
          else run* _ := finish_step plan (mc_ID c) "create" "" ConfirmedAbsent (error_text e) in
               run* e := multi_failBeforeCutover sha hook plan e in pret (Err e)
      end) (fun r => match r with
        | Ok cid => wp (record_created sha hook plan network c cid) Q MStop
        | Err e => wp (E:=E) (pret (Err e)) Q MStop end) MStop d2 l2) as Hobs.
  { intros e. apply wp_bind. eapply wp_mkeeps; [by eapply keeps_look; [apply XB_closed|]|done|].
    intros [o|e'] d3 l3 HK3.
    - case_match; [apply wp_ret; by eapply wp_record_created|].
      apply wp_bind. eapply wp_mkeeps; [by apply keeps_finish_step|done|]. intros _ d4 l4 HK4.
      eapply wp_before_err; [exact HY|done|done|]. intros; apply wp_ret. auto.
    - apply wp_bind. eapply wp_mkeeps; [by apply keeps_finish_step|done|]. intros _ d4 l4 HK4.
      apply wp_ret, wp_ret, HErr. by eapply MFail_unknown. }
  unfold created_id. destruct createErr as [e|], created as [cid|e']; try apply Hobs.
  apply wp_ret. by eapply wp_record_created.
Qed.

Lemma wp_create_candidates plan network hashes cs (Q : res (gmap string string) -> assn) b Y d l :
  mono Y -> mlike plan -> K (XB in_progress b Y) d l -> (forall e d' l', MFail b e d' l' -> Q (Err e) d' l') ->
  (forall h d' l', K (XB in_progress b Y) d' l' -> Q (Ok h) d' l') ->
  wp (E:=E) (create_candidates sha hook plan network hashes cs) Q MStop d l.
Proof.
  intros HY Hl HK HErr HOk. revert hashes d l HK. induction cs as [|c cs IH]; intros hashes d l HK; cbn.
  { apply wp_ret. auto. }
  apply wp_try. eapply wp_create_candidate; [exact HY|done|done|intros; apply wp_ret; auto|auto].
Qed.

Lemma RecordMultiNetwork_own plan nid b Y d l u d' :
  mlike plan -> K (XB in_progress b Y) d l -> RecordMultiNetwork plan nid d = Ok (u, d') ->
  K (XB in_progress b Y) d' l.
Proof.
  intros Hl HB H. apply RecordMultiNetwork_step in H as (Hs & Ha & r & Hr & Hop & _ & Hg).
  rewrite (mlike_key plan Hl) in *. destruct Hl as [cs ->]. eapply XB_step; [done..|].
  destruct (xb_own _ _ _ _ _ (proj2 HB)) as [Hall _]. unfold mown. rewrite Hg. split.
  - intros k r' Hr' Ho. apply lookup_insert_Some in Hr' as [[<- <-]|[Hne Hr']]; [split; [done|by right]|eauto].
  - intros _. eexists. rewrite lookup_insert_eq. done.
Qed.

Lemma wp_multi_network plan active b d l :
  K (XB in_progress b (MImaged plan)) d l ->
  wp (E:=E) (multi_network sha hook plan active) MFin MStop d l.
Proof.
  intros HK. assert (mlike plan) as Hl by (destruct HK as [_ [_ _ _ _ Hi]]; by eapply MImaged_like).
  pose proof (MImaged_mono plan) as HY. pose proof (XB_closed in_progress b _ HY) as HX.
  unfold multi_network. apply wp_try. eapply (wp_mcheckpoint (XB in_progress b (MImaged plan))); [done..|eauto|].
  intros [x|e] d1 HK1; [|by eapply wp_mbefore]. apply wp_bind, wp_runHook; [eauto|].
  intros [e|]; [by eapply wp_mbefore|]. apply wp_bind. apply wp_runtime; [eauto|]. intros created.
  set (l1 := l ++ [(CCreateNetwork _ created, d1)]).
  assert (K (XB in_progress b (MImaged plan)) d1 l1) as HK2.
  { split; [apply Sess_call; [apply HK1|by left]|]. apply XB_call; [done|apply HK1|by apply free_mcall]. }
  assert (forall e d l, K (XB in_progress b (MImaged plan)) d l ->
    wp (E:=E) (run* observed := observe_network (mp_NetworkName plan) in
      match observed with
      | Ok n => if nw_Exists n then fail (ErrUnknownOutcome PhaseBeforeNetwork e)
                else fail_with (multi_failBeforeCutover sha hook plan e)
      | Err _ => fail (ErrUnknownOutcome PhaseBeforeNetwork e)
      end) MFin MStop d l) as Hobs.
  { intros e d3 l3 HK3. apply wp_bind. eapply wp_mkeeps; [by eapply keeps_look|done|].
    intros [n|e'] d4 l4 HK4; [case_match|]; by (eapply wp_munknown || eapply wp_mbefore). }
  apply wp_bind. eapply wp_mkeeps; [|exact HK2|]; [by keeps_walk|].
  intros err d3 l3 HK3. destruct err as [e|], created as [network|e']; try by apply Hobs.
  apply wp_try. apply wp_store; [eauto|intros e; by eapply wp_munknown|].
  intros now u d4 Hrec. assert (K (XB in_progress b (MImaged plan)) d4 l3) as HK4 by by eapply RecordMultiNetwork_own.
  apply wp_try. eapply wp_create_candidates; [exact HY|done|done| |].
  - intros e d5 l5 HF. apply wp_ret. by eapply MFail_Fin.
  - intros hashes d5 l5 HK5. by eapply wp_multi_precutover.
Qed.

(** Every image of the map was observed with its pinned digest. *)
Definition pulled_map (images : gmap string (string * list string)) (l : log) : Prop :=
  forall i v, images !! i = Some v -> exists image d1, (CObserveImage i (Ok image), d1) ∈ l /\
    imageContainsDigest image i = true /\ v = (im_ConfiguredUser image, im_ConfiguredVolumes image).

Lemma pulled_map_mono images : mono (pulled_map images).
Proof.
  intros l l' H i v Hi. destruct (H i v Hi) as (image & d1 & ? & ? & ?). exists image, d1.
  split_and!; [apply elem_of_app; by left|done..].
Qed.

Lemma wp_pull_component plan c (Q : res ImageObservation -> assn) b Y d l :
  mono Y -> mlike plan -> K (XB in_progress b Y) d l -> (forall e d' l', MFail b e d' l' -> Q (Err e) d' l') ->
  (forall image d1 d' l', imageContainsDigest image (mc_Image c) = true ->
     K (XB in_progress b (seen Y (CObserveImage (mc_Image c) (Ok image)) d1)) d' l' -> Q (Ok image) d' l') ->
  wp (E:=E) (pull_component sha hook plan c) Q MStop d l.
Proof.
  intros HY Hl HK HErr HOk. unfold pull_component, pull_image.
  eapply (wp_ledgered_call _ _ _ _ (PullImage (mc_Image c)) (CPull (mc_Image c))); [exact HY|done| |exact HK|done|].
  { intros r. exists ["pull"], (Some (mc_Image c)). split_and!; [done|set_solver|by intros x [= <-]|done]. }
  intros pulled d1 l1 HK1. apply wp_bind. eapply wp_mkeeps; [|exact HK1|].
  { unfold dispatched_hooks. keeps_walk. }
  intros err d2 l2 HK2. apply wp_bind. eapply wp_mlook; [exact HY|done|exact HK2|].
  intros [image|e] l3 HK3.
  2:{ apply wp_bind. eapply wp_mkeeps; [apply keeps_finish_step; [by apply seen_mono|done]|exact HK3|].
      intros _ d4 l4 HK4. apply wp_ret, HErr. by eapply MFail_unknown. }
  destruct (imageContainsDigest image (mc_Image c)) eqn:Hd; cbn.
  - apply wp_try. eapply wp_mkeeps; [apply keeps_finish_step; [by apply seen_mono|done]|exact HK3|].
    intros [x|e] d4 l4 HK4; apply wp_ret; [by eapply HOk|]. apply HErr. by eapply MFail_unknown.
  - apply wp_bind. eapply wp_mkeeps; [apply keeps_finish_step; [by apply seen_mono|done]|exact HK3|].
    intros _ d4 l4 HK4. eapply wp_before_err; [by apply seen_mono|done|exact HK4|done].
Qed.

Lemma wp_pull_components plan images cs (Q : res (gmap string (string * list string)) -> assn) b d l :
  mlike plan -> K (XB in_progress b (pulled_map images)) d l -> (forall e d' l', MFail b e d' l' -> Q (Err e) d' l') ->
  (forall images' d' l', K (XB in_progress b (pulled_map images')) d' l' ->
     (forall i, is_Some (images !! i) -> is_Some (images' !! i)) ->
     (forall c, c ∈ cs -> is_Some (images' !! mc_Image c)) -> Q (Ok images') d' l') ->
  wp (E:=E) (pull_components sha hook plan images cs) Q MStop d l.
Proof.
  intros Hl. revert images d l Q. induction cs as [|c cs IH]; intros images d l Q HK HErr HOk; cbn.
  { apply wp_ret, HOk; [done..|]. intros c Hc. by apply elem_of_nil in Hc. }
  case_decide as Hin.
  { apply IH; [done..|]. intros images' d' l' HK' Hk Hc. apply HOk; [done..|].
    intros c' [->|Hc']%elem_of_cons; auto. }
  apply wp_try. eapply wp_pull_component; [apply pulled_map_mono|done|exact HK|intros; apply wp_ret; auto|].
  intros image d1 d2 l2 Hd HK2. apply IH; [|done|].
  - eapply XB_weaken; [|exact HK2]. intros [Hm Hseen] i v. intros [[<- <-]|[_ Hi]]%lookup_insert_Some; [eauto|].
    by apply Hm.
  - intros images' d' l' HK' Hk Hc. apply HOk; [done| |].
    + intros i Hi. apply Hk. rewrite lookup_insert_is_Some. destruct (decide (mc_Image c = i)); auto.
    + intros c' [->|Hc']%elem_of_cons; [|auto]. apply Hk. rewrite lookup_insert_eq. eauto.
Qed.

(** *** Up to the preparation of the candidate *)
Lemma PrepareMulti_own now b Y d l u d' :
  K (XB none b Y) d l -> PrepareMulti plan0 now d = Ok (u, d') -> K (XB in_progress b Y) d' l.
Proof.
  intros HB H. apply PrepareMulti_step in H as (Hs & Ha & Hg). eapply XB_step; [done..|].
  destruct (xb_own _ _ _ _ _ (proj2 HB)) as [Hall _]. unfold mown. rewrite Hg. split.
  - intros k r' Hr' Ho. apply lookup_insert_Some in Hr' as [[<- <-]|[Hne Hr']]; [split; [done|by left]|].
    by destruct (Hall _ _ Hr' Ho) as [_ []].
  - intros _. eexists. rewrite lookup_insert_eq. done.
Qed.

Lemma PromoteMulti_own g nid obs s now u b Y d d' l :
  K (XB none b Y) d l -> db_gens d = db_gens d0 -> mg_InstallationID g = inst ->
  PromoteMigratedMulti sha g nid obs s op token now d = Ok (u, d') ->
  exists b', K (XB none b' Y) d' l.
Proof.
  intros [HS [H1 H2 H3 H4 H5]] Hsame Hi H. apply PromoteMulti_base in H as (Hs & Hn & Ha & r & r' & Hr & Hv & Hg & Ho);
    [|apply (ss_inv _ _ _ _ _ _ _ HS)]. rewrite Hi in *. exists (Some (mg_Generation g)).
  split; [by eapply Sess_step|]. split; try done.
  - right. assert (b = None) as -> by congruence. split.
    + destruct H1 as [H1|(H1 & _)]; done.
    + exists (mg_Generation g). split; [done|]. left. exists r. by rewrite <- Hsame, <- Hi.
  - unfold mown. rewrite Hg. split; [|by intros (? & [])].
    intros k r0 Hr0 Hop. apply lookup_insert_Some in Hr0 as [[<- <-]|[Hne Hr0]].
    + rewrite Ho in Hop. by destruct (proj1 H3 _ _ Hr Hop) as [_ []].
    + by destruct (proj1 H3 _ _ Hr0 Hop) as [_ []].
Qed.

Lemma wp_mfail_none b Y e d l : K (XB none b Y) d l -> wp (E:=E) (fail e) MFin MStop d l.
Proof.
  intros HK. apply wp_ret. split; [eauto|]. intros _. destruct HK as [_ [H1 H2 H3 H4 _]].
  exists b. split_and!; [done..|]. intros k r Hr Ho. by destruct (proj1 H3 k r Hr Ho) as [_ []].
Qed.

(** Until the promotion no generation changes. *)
Definition X0 (b : option Z) (d : db) (l : log) : Prop := XB none b anything d l /\ db_gens d = db_gens d0.

Lemma X0_closed b : closed gensR (X0 b).
Proof.
  pose proof (XB_closed none b anything mono_anything) as HX. split.
  - intros d d' l HS [H Hg] Hs HR. split; [by eapply (cl_step _ _ _ _ _ _ _ HX)|]. unfold gensR in HR. congruence.
  - intros d l c [H Hg] Hc. split; [by eapply (cl_look _ _ _ _ _ _ _ HX)|done].
Qed.

Lemma X0_XB b d l : K (X0 b) d l -> K (XB none b anything) d l.
Proof. intros [? [? _]]. done. Qed.
Hint Resolve X0_XB : core.

Lemma wp_X0 {A} (m : prog E A) (Q : A -> assn) b d l :
  keeps (X0 b) m -> K (X0 b) d l -> (forall a d' l', K (X0 b) d' l' -> Q a d' l') -> wp m Q MStop d l.
Proof. intros Hm HK HQ. eapply (wp_keeps _ _ _ _ _ (X0 b)); eauto. Qed.

Lemma wp_loadActive (Q : res MultiGeneration -> assn) b d l :
  K (X0 b) d l -> (forall x b' d' l', K (XB none b' anything) d' l' -> Q x d' l') ->
  wp (E:=E) (loadActive sha plan0) Q MStop d l.
Proof.
  intros HK HQ. pose proof (X0_closed b) as HX. unfold loadActive. apply wp_bind.
  apply wp_store; [eauto|intros e; repeat case_match; apply wp_ret; eauto|].
  intros _ g d1 Hg. apply MultiCurrent_Ok in Hg as (-> & Hi & _).
  case_decide; [apply wp_ret; eauto|]. case_decide; [apply wp_ret; eauto|]. apply wp_bind.
  eapply wp_X0; [by apply (keeps_verify _ _ _ _ _ _ gensR)|done|].
  intros [v|e] d2 l2 HK2.
  2:{ case_match; [|apply wp_ret; eauto]. apply wp_bind.
      eapply wp_X0; [by apply (keeps_repairable _ _ _ _ _ _ gensR)|done|]. intros r d3 l3 HK3. apply wp_ret. eauto. }
  case_decide; [|apply wp_ret; eauto]. unfold promote_active. apply wp_try.
  eapply wp_X0; [by eapply keeps_look|done|]. intros [n|e] d3 l3 HK3; [|apply wp_ret; eauto].
  case_match; [apply wp_ret; eauto|]. apply wp_try.
  eapply wp_X0; [by apply (keeps_observe_all _ _ _ _ _ gensR)|done|].
  intros [obs|e] d4 l4 HK4; [|apply wp_ret; eauto]. apply wp_try. apply wp_store; [eauto|intros e; apply wp_ret; eauto|].
  intros now u d5 Hp. eapply PromoteMulti_own in Hp as [b' HK5]; [|by apply X0_XB|apply HK4|done].
  apply wp_ret. eauto.
Qed.

Lemma wp_MultiReplace b l : K (XB none b anything) d0 l -> wp (E:=E) (MultiReplace sha hook plan0) MFin MStop d0 l.
Proof.
  intros HK. unfold MultiReplace. destruct (validateMultiPlan plan0) as [u|e]; [|by eapply wp_mfail_none].
  assert (K (X0 b) d0 l) as HK0 by (split; [apply HK|split; [apply HK|done]]).
  apply wp_try. eapply wp_loadActive; [done|]. intros [active|e] b1 d1 l1 HK1; [|by eapply wp_mfail_none].
  case_decide; [by eapply wp_mfail_none|]. apply wp_try. apply wp_store; [eauto|intros e; by eapply wp_mfail_none|].
  intros now u' d2 Hp. eapply PrepareMulti_own in Hp; [|exact HK1].
  assert (mlike plan0) as Hl by (exists (mp_Components plan0); by destruct plan0).
  apply wp_try. eapply wp_pull_components; [done| | |].
  - eapply XB_weaken; [|exact Hp]. intros _ i v Hi. by rewrite lookup_empty in Hi.
  - intros e d3 l3 HF. apply wp_ret. by eapply MFail_Fin.
  - intros images d3 l3 HK3 _ Hall. eapply wp_multi_network. eapply XB_weaken; [|exact HK3].
    intros Hm. exists images. split; [done|]. intros c Hc. destruct (Hall c Hc) as [v Hv].
    destruct (Hm _ _ Hv) as (image & dx & ? & ? & ->). eauto 10.
Qed.
End programs.
End multi.
