(* ===== verification/MultiReplaceProps.v ===== *)
(** * What the replacement of a multi-component generation promises

    The claims about [MultiRunner.Replace], for every container runtime,
    clock, driver failure, hook and moment of death, and the run of an
    application of two components on the simulated host. *)

From S2P Require Import Prelude Protocol Exposure ExposurePolicy HelperDB Coordinator CoordinatorProofs CoordinatorProps Containers LifecycleStore LifecycleStoreProofs MultiStore ReconciliationStore MultiStoreProofs LifecycleStoreProps Runner RunnerProofs RunnerProps Reconciliation MultiRunner SingleRunner SessionProofs MutationProofs MultiReplaceProofs.
From stdpp Require Import base gmap strings list.
From Stdlib Require Import ZArith Lia.

Open Scope Z_scope.

(** Where a replacement starts. *)
Record multi_ready (plan : MultiPlan) (d : db) : Prop := {
  mready_inv : sys_inv d;
  mready_fresh : forall k r, db_gens d !! k = Some r -> g_operation r <> mp_OperationID plan
}.

Section host.
Context {E : Type} `{HostE : Host E} `{Ev : Evidence} (sha : string -> string)
  (hook : string -> string -> string -> E -> option error * E) (plan : MultiPlan) (d : db) (e : E).

Lemma multi_start : multi_ready plan d ->
  K (mp_OperationID plan) (mp_InstallationID plan) (mp_FencingToken plan) d (after_commit plan)
    (XB plan d none (active_generation (mp_InstallationID plan) d) anything) d [].
Proof.
  intros [Hi Hf]. split; [by apply Sess_start|]. split; try done.
  - by left.
  - split; [|by intros (r & [])]. intros k r Hr Ho. by destruct (Hf k r Hr).
  - intros l1 c d1 l2 Heq. by destruct l1.
Qed.

Lemma MultiReplace_stop : multi_ready plan d ->
  MStop plan d (w_db (final (MultiReplace sha hook plan (World d e []))))
    (w_log (final (MultiReplace sha hook plan (World d e [])))).
Proof.
  intros H. pose proof (wp_MultiReplace sha plan d hook _ [] (multi_start H) e) as Hw.
  destruct (MultiReplace sha hook plan (World d e [])) as [x w|w]; cbn; [apply Hw|done].
Qed.

Lemma MultiReplace_fin x w : multi_ready plan d -> MultiReplace sha hook plan (World d e []) = Done x w ->
  MFin plan d x (w_db w) (w_log w).
Proof.
  intros H Hr. pose proof (wp_MultiReplace sha plan d hook _ [] (multi_start H) e) as Hw.
  by rewrite Hr in Hw.
Qed.

Lemma MStop_Sess d' l : MStop plan d d' l ->
  Sess (mp_OperationID plan) (mp_InstallationID plan) (mp_FencingToken plan) d (after_commit plan) d' l.
Proof. intros [(P & b & [? _])|(b & [? _])]; done. Qed.

(** What is exempt from the ledger. *)
Lemma after_commit_removal l1 c d1 : after_commit plan (c, d1) = true -> mcall_ok plan l1 c d1 ->
  active_generation (mp_InstallationID plan) d1 = Some (mp_Generation plan) /\
  exists id r k g, c = CRemove id r /\ k.1 = mp_InstallationID plan /\ db_gens d1 !! k = Some g /\
    g_status g <> GenActive /\ owned_by d1 k id.
Proof.
  intros Ha (_ & Hr & _). destruct c; try done. cbn in Ha. apply bool_decide_eq_true in Ha. split; [done|].
  destruct (Hr _ _ eq_refl) as (k & (Hk & g & Hg & Hs) & Ho). by exists id, r, k, g.
Qed.

Lemma MStop_calls d' l : MStop plan d d' l -> mcalls_ok plan l.
Proof. intros [(P & b & [_ []])|(b & [_ []])]; done. Qed.
End host.

(** ** An application of two components *)
Definition component_plan (n id : string) (deps : list string) (ordinal : Z) : MultiComponentPlan :=
  {| mc_ID := id; mc_Image := "img-" +:+ id +:+ "@sha256:1"; mc_ContainerName := "kitpro-inst-a-" +:+ n +:+ "-" +:+ id;
     mc_DependsOn := deps; mc_StartOrdinal := ordinal;
     mc_Container :=
       {| pl_Image := "img-" +:+ id +:+ "@sha256:1"; pl_Name := "kitpro-inst-a-" +:+ n +:+ "-" +:+ id;
          pl_Network := "kitpro-net-a-" +:+ n; pl_User := ""; pl_ImageDefaultUser := "";
          pl_ImageDefaultVolumes := [];
          pl_Labels := Some {[ LabelManaged := "true"; LabelInstance := "inst-a"; LabelGeneration := n;
                               "com.kitpro.component" := id ]};
          pl_Command := None; pl_Environment := []; pl_DataPath := ""; pl_ReadOnly := false;
          pl_Storage := []; pl_PortBindings := None; pl_RestartPolicy := ""; pl_NetworkAliases := [];
          pl_Dependencies := []; pl_Devices := None; pl_DeviceRequests := None |} |}.

Definition mplan1 : MultiPlan :=
  {| mp_OperationID := op1; mp_InstallationID := "inst-a"; mp_ApplicationID := "app";
     mp_ReleaseID := "r1"; mp_Generation := 1; mp_ExpectedGeneration := 0; mp_FencingToken := 1;
     mp_NetworkName := "kitpro-net-a-1"; mp_PlanHash := "ph"; mp_TopologyHash := "th"; mp_DataPath := "/srv/a";
     mp_Bindings := [web; api];
     mp_Components := [component_plan "1" "db" [] 0; component_plan "1" "web" ["db"] 1];
     mp_RollbackSafe := true; mp_AllowMissingActive := false |}.

Notation multi_run host dies :=
  (MultiReplace (HostE := host) plain_sha no_hook mplan1 (World run2 (Sim ∅ ∅ 0 dies) [])).
Notation multi_ok := (multi_run sim_host None).
Notation multi_err := (multi_run sim_host_refuses None).
Notation multi_cleaned := (multi_run sim_host_drift None).

Lemma mplan1_ready : multi_ready mplan1 run2.
Proof.
  split; [apply run2_sys_inv|]. intros k r Hr.
  assert (db_gens run2 = ∅) as Hg by (vm_compute; reflexivity). rewrite Hg, lookup_empty in Hr. discriminate Hr.
Qed.

(** ** Claims *)

(** C2. When the replacement of a
    multi-component generation has stopped, normally or not, the active
    generation is the one it was before (or, where none was active, a migrated
    one that the database records as waiting for verification), or it is the target, and then every component of the
    plan was observed running exactly as planned and every image was observed
    with its pinned digest. *)
Theorem multi_replace_activates_only_verified (E : Type) (HostE : Host E) (Ev : Evidence)
    (sha : string -> string) (hook : string -> string -> string -> E -> option error * E)
    (plan : MultiPlan) (d : db) (e : E) (Hready : multi_ready plan d) :
  let w := final (MultiReplace sha hook plan (World d e [])) in
  (exists b, base_of (mp_InstallationID plan) d b /\ active_generation (mp_InstallationID plan) (w_db w) = b) \/
  (active_generation (mp_InstallationID plan) (w_db w) = Some (mp_Generation plan) /\
   all_exact plan RuntimeRunning (w_log w)).
Proof.
  cbv zeta. destruct (MultiReplace_stop sha hook plan d e Hready) as [(P & b & [_ []])|(b & [_ []])]; eauto.
Qed.

Lemma multi_replace_activates_only_verified_witness :
  active_generation "inst-a" (w_db (final multi_ok)) = Some 1 /\
  all_exact mplan1 RuntimeRunning (w_log (final multi_ok)).
Proof.
  assert (active_generation "inst-a" (w_db (final multi_ok)) = Some 1) as Hact by (vm_compute; reflexivity).
  destruct (multi_replace_activates_only_verified sim sim_host coordinator_evidence plain_sha no_hook mplan1 run2
           (Sim ∅ ∅ 0 None) mplan1_ready) as [(b & Hb & Ha)|H]; [|exact H].
  rewrite (run2_base b Hb) in Ha. change (mp_InstallationID mplan1) with "inst-a" in Ha.
  rewrite Hact in Ha. discriminate Ha.
Defined.

(** When the replacement returns an error that
    does not ask for reconciliation, the active generation was not switched
    and whatever generation the operation created is recorded failed with its
    cleanup complete. *)
Theorem multi_replace_error_is_clean (E : Type) (HostE : Host E) (Ev : Evidence) (sha : string -> string)
    (hook : string -> string -> string -> E -> option error * E) (plan : MultiPlan) (d : db) (e : E)
    (result : Result) (err : error) (w : world E) (Hready : multi_ready plan d)
    (Hrun : MultiReplace sha hook plan (World d e []) = Done (result, Some err) w)
    (Hknown : is_unknown_outcome err = false) :
  (exists b, base_of (mp_InstallationID plan) d b /\ active_generation (mp_InstallationID plan) (w_db w) = b) /\
  forall k r, db_gens (w_db w) !! k = Some r -> g_operation r = mp_OperationID plan ->
    k = mplan_key plan /\ g_status r = GenFailed /\ g_cleanup r = CleanupClean.
Proof.
  apply MultiReplace_fin in Hrun as [_ Hf]; [|done]. destruct (Hf Hknown) as (b & Hb & Ha & Ho). split; eauto.
Qed.

Lemma multi_replace_error_is_clean_witness :
  exists result err w, multi_err = Done (result, Some err) w /\
    forall k r, db_gens (w_db w) !! k = Some r -> g_operation r = op1 ->
      k = mplan_key mplan1 /\ g_status r = GenFailed /\ g_cleanup r = CleanupClean.
Proof.
  assert (fails_clean multi_err = true) as H by (vm_compute; reflexivity).
  apply fails_clean_done in H as (result & err & w & Hrun & Hk).
  exists result, err, w. split; [exact Hrun|].
  exact (proj2 (multi_replace_error_is_clean sim sim_host_refuses coordinator_evidence plain_sha no_hook mplan1 run2
                  (Sim ∅ ∅ 0 None) result err w mplan1_ready Hrun Hk)).
Defined.

(** C21. Wherever the replacement stops, the database is a state of the system
    reached by its transactions, with every lease and every row of other
    installations untouched.  Until the target is committed, every image pull
    and every creation, start, stop or removal of a container was preceded by
    its own dispatched entry of the step ledger, written while the operation
    held the lease: no entry covers two calls.  Once it is committed the same
    holds except for the cleanup of older generations, which the ledger does
    not have: what is sent without an entry is the removal of a container that
    is recorded for a generation of the installation that is not active. *)
Theorem multi_replace_ledgered (E : Type) (HostE : Host E) (Ev : Evidence) (sha : string -> string)
    (hook : string -> string -> string -> E -> option error * E) (plan : MultiPlan) (d : db) (e : E)
    (Hready : multi_ready plan d) :
  let w := final (MultiReplace sha hook plan (World d e [])) in
  let inst := mp_InstallationID plan in
  sys_inv (w_db w) /\ rtc sys_step d (w_db w) /\ db_leases (w_db w) = db_leases d /\
  other_same inst d (w_db w) /\
  ledger_ok inst (mp_OperationID plan) (mp_FencingToken plan) (after_commit plan) (w_db w) (w_log w) /\
  forall c d1, (c, d1) ∈ w_log w -> after_commit plan (c, d1) = true ->
    active_generation inst d1 = Some (mp_Generation plan) /\
    exists id r k g, c = CRemove id r /\ k.1 = inst /\ db_gens d1 !! k = Some g /\ g_status g <> GenActive /\
      owned_by d1 k id.
Proof.
  cbv zeta. pose proof (MultiReplace_stop sha hook plan d e Hready) as HS.
  pose proof (MStop_calls _ _ _ _ HS) as Hcalls. pose proof (MStop_Sess _ _ _ _ HS) as [].
  split_and!; [done..|]. intros c d1 (l1 & l2 & Hl)%list_elem_of_split Ha.
  by apply (after_commit_removal plan l1), (Hcalls l1 c d1 l2 Hl).
Qed.

Lemma multi_replace_ledgered_witness :
  ledger_ok "inst-a" op1 1 (after_commit mplan1) (w_db (final multi_ok)) (w_log (final multi_ok)).
Proof.
  exact (proj1 (proj2 (proj2 (proj2 (proj2 (multi_replace_ledgered sim sim_host coordinator_evidence plain_sha no_hook
           mplan1 run2 (Sim ∅ ∅ 0 None) mplan1_ready)))))).
Defined.

(** C29. The replacement stops a container that is
    not recorded for the candidate only after every component of the candidate
    was observed stopped exactly as planned; it removes only containers
    recorded for a generation of the installation that is not active at that
    moment, and only networks of such a generation. *)
Theorem multi_replace_cutover_order (E : Type) (HostE : Host E) (Ev : Evidence) (sha : string -> string)
    (hook : string -> string -> string -> E -> option error * E) (plan : MultiPlan) (d : db) (e : E)
    (l1 l2 : log) (c : rt_call) (d1 : db) (Hready : multi_ready plan d)
    (Hcall : w_log (final (MultiReplace sha hook plan (World d e []))) = l1 ++ (c, d1) :: l2) :
  (forall id r, c = CStop id r -> owned_by d1 (mplan_key plan) id \/ all_exact plan RuntimeStopped l1) /\
  (forall id r, c = CRemove id r -> exists k, inactive plan d1 k /\ owned_by d1 k id) /\
  (forall name r, c = CRemoveNetwork name r -> exists k g, inactive plan d1 k /\
     db_gens d1 !! k = Some g /\ g_network_name g = name).
Proof.
  exact (MStop_calls _ _ _ _ (MultiReplace_stop sha hook plan d e Hready) l1 c d1 l2 Hcall).
Qed.

Lemma multi_replace_cutover_order_witness :
  exists d1 k, inactive mplan1 d1 k /\ owned_by d1 k "id-kitpro-inst-a-1-db".
Proof.
  assert (exists i, fst <$> w_log (final multi_cleaned) !! i = Some (CRemove "id-kitpro-inst-a-1-db" (Ok tt)))
    as [i H] by (exists 9%nat; vm_compute; reflexivity).
  apply log_at in H as (l1 & d1 & l2 & Hl). exists d1.
  exact (proj1 (proj2 (multi_replace_cutover_order sim sim_host_drift coordinator_evidence plain_sha no_hook mplan1
           run2 (Sim ∅ ∅ 0 None) l1 l2 _ d1 mplan1_ready Hl)) _ _ eq_refl).
Defined.

(** When the replacement returns without an
    error the target is the active generation, all of its components were
    verified running, the result describes the plan, and a generation that was
    active before is the expected one and is retained unless it was being
    repaired. *)
Theorem multi_replace_success_exact (E : Type) (HostE : Host E) (Ev : Evidence) (sha : string -> string)
    (hook : string -> string -> string -> E -> option error * E) (plan : MultiPlan) (d : db) (e : E)
    (result : Result) (w : world E) (Hready : multi_ready plan d)
    (Hrun : MultiReplace sha hook plan (World d e []) = Done (result, None) w) :
  active_generation (mp_InstallationID plan) (w_db w) = Some (mp_Generation plan) /\
  all_exact plan RuntimeRunning (w_log w) /\
  re_Generation result = mp_Generation plan /\ re_ReleaseID result = mp_ReleaseID plan /\
  re_RuntimeState result = "running" /\ re_NetworkName result = mp_NetworkName plan /\
  re_Bindings result = Normalize (mp_Bindings plan) /\
  forall n, active_generation (mp_InstallationID plan) d = Some n ->
    n = mp_ExpectedGeneration plan /\
    (mp_AllowMissingActive plan = false ->
     exists r, db_gens (w_db w) !! (mp_InstallationID plan, n) = Some r /\ g_status r = GenRetained).
Proof.
  apply MultiReplace_fin in Hrun as [_ ((b & [_ [Hb Ha Hv Hk _]]) & ? & ? & ? & ? & ?)]; [|done].
  split_and!; try done. intros n Hn. apply Hk. destruct Hb as [->|[Hnone _]]; [exact Hn|congruence].
Qed.

Lemma multi_replace_success_exact_witness :
  exists result w, multi_ok = Done (result, None) w /\
    active_generation "inst-a" (w_db w) = Some 1 /\ re_Generation result = 1.
Proof.
  assert (succeeds multi_ok = true) as H by (vm_compute; reflexivity).
  apply succeeds_done in H as (result & w & Hrun). exists result, w. split; [exact Hrun|].
  destruct (multi_replace_success_exact sim sim_host coordinator_evidence plain_sha no_hook mplan1 run2
              (Sim ∅ ∅ 0 None) result w mplan1_ready Hrun) as (Ha & _ & Hg & _).
  exact (conj Ha Hg).
Defined.
