(* ===== verification/SessionProps.v ===== *)
(** * What ordinary actions, reconciliation and repair promise

    The claims about [MultiRunner.Operate], [SingleRunner.Operate],
    [Reconciler.Reconcile] and [Repairer.Repair], for every container runtime,
    clock, driver failure, hook and moment of death. *)

From S2P Require Import Prelude Protocol Exposure ExposurePolicy HelperDB Coordinator CoordinatorProofs CoordinatorProps Containers LifecycleStore LifecycleStoreProofs MultiStore ReconciliationStore MultiStoreProofs LifecycleStoreProps Runner RunnerProofs RunnerProps Reconciliation MultiRunner SingleRunner Repair SessionProofs MutationProofs ReconcileProofs MultiReplaceProofs MultiReplaceProps.
From stdpp Require Import base gmap strings list sorting.
From Stdlib Require Import ZArith Lia.

Import Wire.

Open Scope Z_scope.

(** ** Sessions without exemptions *)
Definition no_exempt (x : rt_call * db) : bool := false.
Definition trivially : assn := fun _ _ => True.

Lemma trivially_closed op inst token d0 R : closed op inst token d0 no_exempt R trivially.
Proof. done. Qed.

Lemma keeps_final {E A} `{HostE : Host E} op inst token d exempt (X : assn) (m : prog E A) (e : E) :
  keeps op inst token d exempt X m -> sys_inv d -> X d [] ->
  K op inst token d exempt X (w_db (final (m (World d e [])))) (w_log (final (m (World d e [])))).
Proof.
  intros Hm Hi HX. pose proof (Hm d [] (conj (Sess_start op inst token d exempt Hi) HX) e) as H.
  by destruct (m (World d e [])).
Qed.

(** ** The order of an ordinary action *)
Definition lifecycle_call (c : rt_call) : option (string * string) :=
  match c with
  | CStart id _ => Some ("start", id)
  | CStop id _ => Some ("stop", id)
  | CRemove id _ => Some ("remove", id)
  | _ => None
  end.

Definition sent_calls (l : log) : list (string * string) := omap (fun x => lifecycle_call x.1) l.

(** What an action sends to the components, given in start order ([up]) and in
    stop order ([down]). *)
Definition script (action : string) (up down : list Component) : list (string * string) :=
  let send mutation cs := map (pair mutation) (map cm_ContainerID cs) in
  if decide (action = "start") then send "start" up
  else if decide (action = "stop") then send "stop" down
  else if decide (action = "restart") then send "stop" down ++ send "start" up
  else if decide (action = "remove") then send "stop" down ++ send "remove" down
  else [].

Section script.
Context `{Ev : Evidence} (sha : string -> string) (op inst : string) (token : Z) (d0 : db).
Context {E : Type} `{HostE : Host E} (hook : string -> string -> string -> E -> option error * E).
Notation K := (K op inst token d0 no_exempt).
Notation closed := (closed op inst token d0 no_exempt).
Notation keeps := (keeps op inst token d0 no_exempt).
Notation mine := (mine op inst token).
Notation sends := (sends op inst token d0 no_exempt).

Definition sent_so_far (s : list (string * string)) : assn := fun _ l => sent_calls l = s.
Definition within (s : list (string * string)) : assn := fun d l =>
  exists p, p `prefix_of` s /\ K (sent_so_far p) d l.

Lemma sent_calls_snoc l c d : sent_calls (l ++ [(c, d)]) = sent_calls l ++ option_list (lifecycle_call c).
Proof. unfold sent_calls. rewrite omap_app. cbn. by destruct (lifecycle_call c). Qed.

Lemma sent_closed s : closed anyR (sent_so_far s).
Proof.
  split; [done|]. intros d l c Hs Hc. unfold sent_so_far. rewrite sent_calls_snoc, Hs.
  by destruct c; rewrite ?app_nil_r.
Qed.

Lemma sent_sends s action id : action ∈ ["start"; "stop"; "remove"] ->
  sends (sent_so_far s) (sent_so_far (s ++ [(action, id)])) action id.
Proof.
  intros Ha d l x [_ Hs] (actions & Hx & Hin). split; [done|]. unfold sent_so_far.
  rewrite sent_calls_snoc, Hs. f_equal.
  destruct x; cbn in Hx; simplify_eq; cbn; set_solver.
Qed.

Lemma within_here s d l : K (sent_so_far s) d l -> within s d l.
Proof. intros H. by exists s. Qed.

Lemma within_start s s' d l : K (sent_so_far s) d l -> within (s ++ s') d l.
Proof. intros H. exists s. split; [by apply prefix_app_r|done]. Qed.

(** One mutation of each component in turn. *)
Lemma wp_apply plan cs action want mutated s (Q : res unit -> assn) (C : assn) d l :
  mine plan -> action ∈ ["start"; "stop"; "remove"] -> K (sent_so_far s) d l ->
  (forall d l, within (s ++ map (pair action) (map cm_ContainerID cs)) d l -> C d l) ->
  (forall e d l, within (s ++ map (pair action) (map cm_ContainerID cs)) d l -> Q (Err e) d l) ->
  (forall d l, K (sent_so_far (s ++ map (pair action) (map cm_ContainerID cs))) d l -> Q (Ok tt) d l) ->
  wp (apply_mutations sha hook plan cs action want mutated) Q C d l.
Proof.
  intros Hp Ha. revert mutated s d l. induction cs as [|c cs IH]; intros mutated s d l HK HC HE HQ.
  { apply wp_ret, HQ. cbn. by rewrite app_nil_r. }
  cbn in HC, HE, HQ. assert (forall s', s ++ (action, cm_ContainerID c) :: s' = (s ++ [(action, cm_ContainerID c)]) ++ s')
    as Hassoc by (intros s'; by rewrite <- app_assoc).
  cbn. apply wp_try. eapply (wp_mutateExisting sha op inst token d0 no_exempt anyR (HRany)); eauto using sent_closed, sent_sends.
  - intros d1 l1 H1. apply HC. by apply within_start.
  - intros d1 l1 H1. apply HC. rewrite Hassoc. by apply within_start.
  - intros e d1 l1 H1. apply wp_ret, HE. by apply within_start.
  - intros [[]|e] d1 l1 H1; [|apply wp_ret, HE; rewrite Hassoc; by apply within_start].
    apply wp_try. apply wp_store.
    + apply HC. rewrite Hassoc. by apply within_start.
    + intros e. apply wp_ret, HE. rewrite Hassoc. by apply within_start.
    + intros now [] d2 Ht. rewrite Hassoc in HC, HE, HQ. apply (IH true (s ++ [(action, cm_ContainerID c)])); [|done..].
      destruct (RecordMultiContainer_any op inst token plan (cm_ID c) (cm_ContainerID c) "" "" (recorded_state want)
                  (bool_decide (want = RuntimeRunning)) Hp now tt d1 d2 (ss_inv _ _ _ _ _ _ _ (proj1 H1)) Ht)
        as [->|[? ?]]; [done|by eapply K_step; [apply sent_closed|..]].
Qed.

Lemma within_keeps s {A} (m : prog E A) (Q : A -> assn) (C : assn) d l s' :
  keeps (sent_so_far s) m -> s `prefix_of` s' -> K (sent_so_far s) d l ->
  (forall a d l, K (sent_so_far s) d l -> Q a d l) -> (forall d l, within s' d l -> C d l) -> wp m Q C d l.
Proof.
  intros Hm Hs HK HQ HC. eapply wp_keeps; [done..|]. intros d1 l1 H1. apply HC. by exists s.
Qed.

Lemma keeps_finish_remove s plan g : mine plan ->
  keeps (sent_so_far s) (ptry (remove_active_network g) (fun e => pret (Err e))
    (fun _ => store (fun _ => MarkActiveRemoved (mp_InstallationID plan) (mg_Generation g) (mp_OperationID plan)
                    (mp_FencingToken plan)))).
Proof.
  intros Hp. pose proof (sent_closed s) as HX. apply keeps_try; [|by keeps_walk|].
  - unfold remove_active_network. keeps_walk; apply (keeps_remove_network op inst token d0 no_exempt);
      intros d l c Hl Hc; unfold sent_so_far; rewrite sent_calls_snoc, Hl; by destruct c; rewrite ?app_nil_r.
  - intros []. eapply keeps_store; [done|]. by apply (MarkActiveRemoved_any op inst token).
Qed.

(** Two rounds of mutations in a row. *)
Lemma wp_apply_then plan cs action want s s' (k : prog E (res unit)) (Q : res unit -> assn) (C : assn) d l :
  mine plan -> action ∈ ["start"; "stop"; "remove"] -> K (sent_so_far s) d l ->
  s ++ map (pair action) (map cm_ContainerID cs) `prefix_of` s' ->
  (forall d l, within s' d l -> C d l) -> (forall e d l, within s' d l -> Q (Err e) d l) ->
  (forall d l, K (sent_so_far (s ++ map (pair action) (map cm_ContainerID cs))) d l -> wp k Q C d l) ->
  wp (ptry (apply_mutations sha hook plan cs action want false) (fun e => pret (Err e)) (fun _ => k)) Q C d l.
Proof.
  intros Hp Ha HK Hs HC HE Hk.
  assert (forall d l, within (s ++ map (pair action) (map cm_ContainerID cs)) d l -> within s' d l) as Hw.
  { intros d1 l1 (p & H1 & H2). exists p. split; [by etrans|done]. }
  apply wp_try. eapply wp_apply; try done; eauto. intros e d1 l1 H1. apply wp_ret. eauto.
Qed.

Lemma wp_dispatch_action plan g action (Q : res unit -> assn) (C : assn) d l :
  let s := script action (mg_Components g) (reverseComponents (mg_Components g)) in
  mine plan -> K (sent_so_far []) d l ->
  (forall d l, within s d l -> C d l) -> (forall e d l, within s d l -> Q (Err e) d l) ->
  (forall d l, K (sent_so_far s) d l -> Q (Ok tt) d l) ->
  wp (dispatch_action sha hook plan g action) Q C d l.
Proof.
  intros s Hp HK HC HE HQ. unfold dispatch_action. subst s. unfold script in *.
  case_decide; [eapply (wp_apply _ _ _ _ _ []); eauto; set_solver|].
  case_decide; [eapply (wp_apply _ _ _ _ _ []); eauto; set_solver|].
  case_decide.
  { eapply (wp_apply_then _ _ _ _ []); [done|set_solver|done|by apply prefix_app_r|done..|].
    intros d1 l1 Hk1. eapply wp_apply; eauto; set_solver. }
  case_decide; [|by apply wp_ret, HE, within_here].
  unfold remove_active. eapply (wp_apply_then _ _ _ _ []); [done|set_solver|done|by apply prefix_app_r|done..|].
  intros d1 l1 Hk1. eapply wp_apply_then; [done|set_solver|done|reflexivity|done..|].
  intros d2 l2 Hk2. eapply within_keeps; [by apply keeps_finish_remove|reflexivity|exact Hk2| |done].
  intros [[]|e] d3 l3 Hk3; [by apply HQ|by apply HE, within_here].
Qed.

Lemma MultiCurrent_frame d d' :
  frame_same d d' -> MultiCurrent inst d' =
    match MultiCurrent inst d with Ok (g, _) => Ok (g, d') | Err e => Err e end.
Proof.
  intros (Hg & Hc & Hb). unfold MultiCurrent, LoadMultiGeneration, tbind, trow.
  rewrite Hg. destruct (head _) as [[k r]|]; [|done]. cbn. rewrite Hg.
  destruct (db_gens d !! _) as [r'|]; [|done]. cbn. unfold load_multi, loadBindings, components_of.
  by rewrite Hc, Hb.
Qed.

Lemma wp_MultiOperate g action (Hcur : MultiCurrent inst d0 = Ok (g, d0)) (Hact : mg_Status g = "active")
    (Hinv : sys_inv d0) :
  let s := script action (mg_Components g) (reverseComponents (mg_Components g)) in
  wp (MultiOperate sha hook inst op token action)
    (fun x d l => within s d l /\ (x.2 = None -> sent_calls l = s)) (within s) d0 [].
Proof.
  intros s. set (Q := fun (x : Result * option error) d l => within s d l /\ (x.2 = None -> sent_calls l = s)).
  assert (K (sent_so_far []) d0 []) as HK0 by (split; [by apply Sess_start|done]).
  assert (forall d l, K (sent_so_far []) d l -> within s d l) as Hw
    by (intros d l H; exists []; split; [apply prefix_nil|done]).
  assert (forall e d l, within s d l -> wp (E:=E) (fail e) Q (within s) d l) as Hfail by (intros; by apply wp_ret).
  pose proof (sent_closed []) as HX.
  unfold MultiOperate. apply wp_try. apply wp_store; [by apply Hw|intros; by apply Hfail, Hw|].
  intros now [] d1 Hrec.
  assert (K (sent_so_far []) d1 [] /\ frame_same d0 d1) as [HK1 Hf].
  { destruct (record_tx inst frame_same op token "multi_lifecycle_validation" "intent" [("lifecycle_action", action)]
                (fun _ _ H => H) now tt d0 d1 Hinv Hrec) as [->|[? ?]]; [done|].
    split; [by eapply K_step; [apply HX|..]|done]. }
  apply wp_try. apply wp_store; [by apply Hw|intros; by apply Hfail, Hw|].
  intros now' g' d2 Hg. rewrite (MultiCurrent_frame d0 d1 Hf), Hcur in Hg. injection Hg as <- <-.
  rewrite decide_False by (rewrite Hact; discriminate). apply wp_try, wp_ret.
  unfold operate_active. case_decide; [by apply Hfail, Hw|].
  apply wp_try. eapply (wp_keeps _ _ _ _ _ (sent_so_far [])); [|exact HK1| |done].
  { eapply keeps_store; [apply HX|]. by apply (record_plan op inst token). }
  intros [[]|e] d3 l3 HK3; [|by apply Hfail, Hw].
  apply wp_try. eapply (wp_keeps _ _ _ _ _ (sent_so_far [])); [|exact HK3| |done].
  { eapply keeps_look; [exact HX|done]. }
  intros [n|e] d4 l4 HK4; [|by apply Hfail, Hw]. case_match; [by apply Hfail, Hw|].
  apply wp_try. eapply wp_dispatch_action; [done|exact HK4|done|intros; by apply Hfail|].
  intros d5 l5 HK5. apply wp_ret. split; [by apply within_here|by intros _; apply HK5].
Qed.
End script.

#[local] Instance reverse_le_total : Total reverse_le.
Proof. intros a b. unfold reverse_le. lia. Qed.

#[local] Instance ordinal_le_total : Total ordinal_le.
Proof.
  intros a b. unfold ordinal_le. destruct (Z.lt_trichotomy (c_ordinal a.2) (c_ordinal b.2)) as [|[|]]; [lia| |lia].
  destruct (String.leb_total a.1 b.1); auto.
Qed.

(** Components are loaded in start order. *)
Lemma loaded_sorted k r d :
  Sorted (fun a b => cm_StartOrdinal a <= cm_StartOrdinal b) (mg_Components (load_multi k r d)).
Proof.
  cbn. assert (Sorted ordinal_le (merge_sort ordinal_le (components_of k d))) as Hs.
  { apply (Sorted_merge_sort ordinal_le). }
  induction Hs as [|a l Hs IH Hh]; cbn; constructor; [done|].
  destruct Hh as [|b l Hab]; cbn; constructor. unfold ordinal_le in Hab. cbn. lia.
Qed.

(** ** The application of two components, installed *)
Definition installed : world sim := final multi_ok.

Lemma installed_inv : sys_inv (w_db installed).
Proof.
  pose proof (MStop_Sess _ _ _ _ (MultiReplace_stop plain_sha no_hook mplan1 run2 (Sim ∅ ∅ 0 None) mplan1_ready)) as [].
  done.
Qed.

Notation operate_run action :=
  (MultiOperate (HostE := sim_host) plain_sha no_hook "inst-a" op1 1 action
     (World (w_db installed) (w_env installed) [])).

Definition current_app (d : db) : MultiGeneration :=
  match MultiCurrent "inst-a" d with Ok (g, _) => g | Err _ => zero_multi end.

Lemma current_app_Ok d : is_ok (MultiCurrent "inst-a" d) = true -> MultiCurrent "inst-a" d = Ok (current_app d, d).
Proof.
  unfold current_app. destruct (MultiCurrent "inst-a" d) as [[g d']|] eqn:Hg; [|done].
  apply MultiCurrent_Ok in Hg as [-> _]. done.
Qed.

(** ** A rollback during which two generations run

    The update of the application is interrupted right after the first
    candidate component was started: the runtime cannot show the new network
    while that container runs.  The rollback stops only the candidates that
    were verified before, so the old components run again while the candidate
    is still running; the cleanup stops it afterwards. *)
Definition updating : db :=
  run (AuthorizeMutation op2 2 "t7")
    (run (Begin (fun b => b) no_json (install op2 <| rq_RuntimeGeneration := 2 |>) 1000 "inst-a" "t6")
       (run (Complete no_json op1 1 (zero_response <| rs_OK := true |>) "t5") (w_db installed))).

Definition mplan2 : MultiPlan :=
  {| mp_OperationID := op2; mp_InstallationID := "inst-a"; mp_ApplicationID := "app";
     mp_ReleaseID := "r2"; mp_Generation := 2; mp_ExpectedGeneration := 1; mp_FencingToken := 2;
     mp_NetworkName := "kitpro-net-a-2"; mp_PlanHash := "ph2"; mp_TopologyHash := "th2"; mp_DataPath := "/srv/a";
     mp_Bindings := [web; api];
     mp_Components := [component_plan "2" "db" [] 0; component_plan "2" "web" ["db"] 1];
     mp_RollbackSafe := true; mp_AllowMissingActive := false |}.

Definition sim_network_fault : LifecycleRuntime sim :=
  {| PullImage := PullImage; ObserveImage := ObserveImage;
     CreateLifecycleNetwork := CreateLifecycleNetwork;
     ObserveNetwork := fun name s =>
       if decide (name = "kitpro-net-a-2" /\ ob_State (sim_find "id-kitpro-inst-a-2-db" s) = RuntimeRunning)
       then (Err (ErrMsg "network inspection failed"), s) else ObserveNetwork name s;
     CreateLifecycleContainer := CreateLifecycleContainer; ObserveContainer := ObserveContainer;
     StartContainer := StartContainer; StopContainer := StopContainer; RemoveContainer := RemoveContainer;
     RemoveLifecycleNetwork := RemoveLifecycleNetwork; WaitContainer := WaitContainer |}.
Definition sim_host_network_fault : Host sim :=
  {| host_runtime := sim_network_fault; host_now := host_now; host_crash := host_crash;
     host_fault := host_fault; host_hook := host_hook |}.

Lemma rollback_overlaps :
  sent_calls (w_log (final (MultiReplace (HostE := sim_host_network_fault) plain_sha no_hook mplan2
                              (World updating (w_env installed) [])))) =
    [("stop", "id-kitpro-inst-a-1-web"); ("stop", "id-kitpro-inst-a-1-db"); ("start", "id-kitpro-inst-a-2-db");
     ("start", "id-kitpro-inst-a-1-db"); ("start", "id-kitpro-inst-a-1-web"); ("remove", "id-kitpro-inst-a-2-web");
     ("stop", "id-kitpro-inst-a-2-db"); ("remove", "id-kitpro-inst-a-2-db")].
Proof. vm_compute. reflexivity. Qed.

(** ** Claims *)

(** C4. Wherever an ordinary action on a multi-component or
    single-container runtime, or a repair, stops, the database is a state of
    the system reached by its transactions, the leases and the rows of other
    installations are untouched, and every start, stop or removal of a
    container that was sent had its own dispatched entry of the step ledger,
    written while the operation held the lease. *)
Theorem operations_ledgered (E : Type) (HostE : Host E) (Ev : Evidence) (sha : string -> string)
    (hook : string -> string -> string -> E -> option error * E)
    (provider : option (@RuntimeIdentityProvider E)) (inst op action : string) (token : Z) (d : db) (e : E)
    (Hinv : sys_inv d) :
  let ends (w : world E) := Sess op inst token d no_exempt (w_db w) (w_log w) in
  ends (final (MultiOperate sha hook inst op token action (World d e []))) /\
  ends (final (SingleOperate sha inst op token action (World d e []))) /\
  ends (final (Repair sha provider inst op token action (World d e []))).
Proof.
  cbv zeta. split_and!.
  - eapply (keeps_final op inst token d no_exempt trivially); [|done..]. by apply keeps_MultiOperate.
  - eapply (keeps_final op inst token d no_exempt trivially); [|done..]. by apply keeps_SingleOperate.
  - eapply (keeps_final op inst token d no_exempt trivially); [|done..]. by apply keeps_Repair.
Qed.

Lemma operations_ledgered_witness :
  Sess op1 "inst-a" 1 (w_db installed) no_exempt (w_db (final (operate_run "stop"))) (w_log (final (operate_run "stop"))).
Proof.
  exact (proj1 (operations_ledgered sim sim_host coordinator_evidence plain_sha no_hook None "inst-a" op1 "stop" 1
                  (w_db installed) (w_env installed) installed_inv)).
Defined.

(** The starts, stops and removals that an action sends to a
    multi-component application are the beginning of the action's script, and
    the whole of it when the action succeeds: components are started in order
    of their start ordinals, stopped in the opposite order, restarted by a
    complete stop followed by a complete start, and removed only after all of
    them were stopped; none is touched twice by the same mutation. *)
Theorem operate_script (E : Type) (HostE : Host E) (Ev : Evidence) (sha : string -> string)
    (hook : string -> string -> string -> E -> option error * E) (inst op action : string) (token : Z)
    (d : db) (e : E) (g : MultiGeneration) (Hinv : sys_inv d)
    (Hcurrent : MultiCurrent inst d = Ok (g, d)) (Hactive : mg_Status g = "active") :
  let up := mg_Components g in
  let down := reverseComponents up in
  let run := MultiOperate sha hook inst op token action (World d e []) in
  sent_calls (w_log (final run)) `prefix_of` script action up down /\
  (forall result w, run = Done (result, None) w -> sent_calls (w_log w) = script action up down) /\
  Sorted (fun a b => cm_StartOrdinal a <= cm_StartOrdinal b) up /\
  Sorted (fun a b => cm_StartOrdinal b <= cm_StartOrdinal a) down /\ down ≡ₚ up.
Proof.
  cbv zeta. pose proof (wp_MultiOperate sha op inst token d hook g action Hcurrent Hactive Hinv e) as Hw.
  split_and!.
  - destruct (MultiOperate _ _ _ _ _ _ _) as [x w|w]; [destruct Hw as [(p & Hp & _ & <-) _]|destruct Hw as (p & Hp & _ & <-)]; done.
  - intros result w Hr. rewrite Hr in Hw. by apply (proj2 Hw).
  - apply MultiCurrent_Ok in Hcurrent as (_ & _ & r & _ & _ & ->). apply loaded_sorted.
  - apply (Sorted_merge_sort reverse_le).
  - apply merge_sort_Permutation.
Qed.

Lemma operate_script_witness :
  (exists result w, operate_run "remove" = Done (result, None) w /\
     sent_calls (w_log w) = [("stop", "id-kitpro-inst-a-1-web"); ("stop", "id-kitpro-inst-a-1-db");
                             ("remove", "id-kitpro-inst-a-1-web"); ("remove", "id-kitpro-inst-a-1-db")]).
Proof.
  assert (succeeds (operate_run "remove") = true) as H by (vm_compute; reflexivity).
  apply succeeds_done in H as (result & w & Hrun). exists result, w. split; [exact Hrun|].
  assert (mg_Status (current_app (w_db installed)) = "active") as Ha by (vm_compute; reflexivity).
  assert (is_ok (MultiCurrent "inst-a" (w_db installed)) = true) as Hc by (vm_compute; reflexivity).
  rewrite (proj1 (proj2 (operate_script sim sim_host coordinator_evidence plain_sha no_hook "inst-a" op1 "remove" 1
    (w_db installed) (w_env installed) _ installed_inv (current_app_Ok _ Hc) Ha)) result w Hrun).
  vm_compute. reflexivity.
Defined.
