(* ===== verification/ReconcileProps.v ===== *)
(** * What reconciliation finds, and what a repair may do

    A program that only observes is described by the calls it makes; on top of
    that, the claims about [Reconciler.Reconcile] and [Repairer.Repair]. *)

From S2P Require Import Prelude Protocol Exposure ExposurePolicy HelperDB Coordinator CoordinatorProofs CoordinatorProps Containers LifecycleStore LifecycleStoreProofs MultiStore ReconciliationStore MultiStoreProofs LifecycleStoreProps Runner RunnerProofs RunnerProps Reconciliation MultiRunner SingleRunner Repair SessionProofs MutationProofs ReconcileProofs MultiReplaceProofs MultiReplaceProps SessionProps.
From stdpp Require Import base gmap strings list sorting.
From Stdlib Require Import ZArith Lia.

Open Scope Z_scope.

(** ** Observing programs *)
Definition look (c : rt_call) : Prop := observes c = true.

Definition tag (d : db) (cs : list rt_call) : log := map (fun c => (c, d)) cs.

Lemma tag_app d cs cs' : tag d (cs ++ cs') = tag d cs ++ tag d cs'.
Proof. apply map_app. Qed.

Section sees.
Context {E : Type} `{HostE : Host E}.

(** [m] makes observations only; its result and its calls satisfy [P]. *)
Definition sees {A} (m : prog E A) (P : A -> list rt_call -> Prop) : Prop :=
  forall d l (Q : A -> assn) (C : assn),
    (forall cs, Forall look cs -> C d (l ++ tag d cs)) ->
    (forall a cs, Forall look cs -> P a cs -> Q a d (l ++ tag d cs)) -> wp m Q C d l.

Lemma sees_ret {A} (a : A) (P : A -> list rt_call -> Prop) : P a [] -> sees (pret a) P.
Proof.
  intros HP d l Q C _ HQ. apply wp_ret. specialize (HQ a [] (Forall_nil_2 _) HP). by rewrite app_nil_r in HQ.
Qed.

Lemma sees_bind {A B} (m : prog E A) (f : A -> prog E B) (P1 : A -> list rt_call -> Prop)
    (P : B -> list rt_call -> Prop) :
  sees m P1 -> (forall a cs, P1 a cs -> sees (f a) (fun b cs' => P b (cs ++ cs'))) -> sees (pbind m f) P.
Proof.
  intros Hm Hf d l Q C HC HQ. apply wp_bind. apply Hm; [done|]. intros a cs Hcs Ha.
  apply (Hf a cs Ha).
  - intros cs' Hcs'. rewrite <- app_assoc, <- tag_app. apply HC. by apply Forall_app_2.
  - intros b cs' Hcs' Hb. rewrite <- app_assoc, <- tag_app. apply HQ; [by apply Forall_app_2|done].
Qed.

Lemma sees_try {A B} (m : prog E (res A)) (h : error -> prog E B) (k : A -> prog E B)
    (P1 : res A -> list rt_call -> Prop) (P : B -> list rt_call -> Prop) :
  sees m P1 -> (forall e cs, P1 (Err e) cs -> sees (h e) (fun b cs' => P b (cs ++ cs'))) ->
  (forall a cs, P1 (Ok a) cs -> sees (k a) (fun b cs' => P b (cs ++ cs'))) -> sees (ptry m h k) P.
Proof. intros Hm Hh Hk. eapply sees_bind; [exact Hm|]. intros [a|e] cs H; auto. Qed.

Lemma sees_mono {A} (m : prog E A) (P P' : A -> list rt_call -> Prop) :
  sees m P -> (forall a cs, P a cs -> P' a cs) -> sees m P'.
Proof. intros Hm HP d l Q C HC HQ. apply Hm; auto. Qed.

Lemma sees_look {A} (f : E -> res A * E) c :
  (forall r, look (c r)) -> sees (runtime f c) (fun r cs => cs = [c r]).
Proof.
  intros Hc d l Q C HC HQ. apply wp_runtime.
  - specialize (HC [] (Forall_nil_2 _)). by rewrite app_nil_r in HC.
  - intros r. by apply (HQ r [c r] ltac:(by repeat constructor)).
Qed.
End sees.

(** ** What the observations show of a component *)
Definition absent (cs : list rt_call) (name : string) : Prop :=
  name = "" \/ exists o, CObserveContainer name (Ok o) ∈ cs /\ ob_Exists o = false.

(** [o] is what was found: under the recorded identity, or else under the name. *)
Definition found (cs : list rt_call) (c : Component) (o : ContainerObservation) : Prop :=
  (CObserveContainer (cm_ContainerID c) (Ok o) ∈ cs /\ ob_Exists o = true) \/
  (absent cs (cm_ContainerID c) /\
   (CObserveContainer (cm_ContainerName c) (Ok o) ∈ cs \/ (cm_ContainerName c = "" /\ ob_Exists o = false))).

(** The container is nowhere, or the runtime reports it missing. *)
Definition gone (cs : list rt_call) (c : Component) : Prop :=
  (absent cs (cm_ContainerID c) /\ absent cs (cm_ContainerName c)) \/
  exists o, (CObserveContainer (cm_ContainerID c) (Ok o) ∈ cs \/ CObserveContainer (cm_ContainerName c) (Ok o) ∈ cs) /\
    ob_State o = RuntimeMissing.

Definition generation_gone (cs : list rt_call) (g : MultiGeneration) : Prop :=
  (exists n, CObserveNetwork (mg_NetworkName g) (Ok n) ∈ cs /\ nw_Exists n = false) /\
  Forall (gone cs) (mg_Components g).

Lemma absent_mono cs cs' name : cs ⊆ cs' -> absent cs name -> absent cs' name.
Proof. intros Hs [->|(o & Ho & He)]; [by left|]. right. exists o. auto. Qed.

Lemma found_mono cs cs' c o : cs ⊆ cs' -> found cs c o -> found cs' c o.
Proof. unfold found. intros Hs H. pose proof (absent_mono cs cs' (cm_ContainerID c) Hs). naive_solver. Qed.

Lemma gone_mono cs cs' c : cs ⊆ cs' -> gone cs c -> gone cs' c.
Proof. unfold gone. intros Hs H. pose proof (fun n => absent_mono cs cs' n Hs). naive_solver. Qed.

Lemma found_missing cs c o :
  found cs c o -> (if ob_Exists o then ob_State o else "missing") = "missing" -> gone cs c.
Proof.
  intros Hf Hm. destruct (ob_Exists o) eqn:He.
  - right. exists o. split; [|done]. destruct Hf as [[? _]|[_ [?|[_ ?]]]]; [auto..|congruence].
  - left. destruct Hf as [[_ ?]|[Ha [Hn|[Hn _]]]]; [congruence|split; [done|right; eauto]|split; [done|by left]].
Qed.

Section programs.
Context {E : Type} `{HostE : Host E} (sha : string -> string).

Lemma sees_observeComponent c :
  sees (observeComponent (E:=E) c) (fun r cs => match r with Ok o => found cs c o | Err _ => True end).
Proof.
  unfold observeComponent.
  set (by_name := if decide (cm_ContainerName c = "") then _ else _).
  assert (forall cs0, absent cs0 (cm_ContainerID c) ->
    sees (E:=E) by_name (fun r cs => match r with Ok o => found (cs0 ++ cs) c o | Err _ => True end)) as Hname.
  { intros cs0 Ha. assert (forall cs, absent (cs0 ++ cs) (cm_ContainerID c)) as Ha'
      by (intros cs; eapply absent_mono; [|exact Ha]; set_solver).
    unfold by_name. case_decide as Hn; [apply sees_ret; right; auto|].
    eapply sees_mono; [by apply sees_look|]. intros [o|e] cs ->; [|done]. right. split; [done|]. left. set_solver. }
  case_decide as Hid; [|apply (Hname []); left; destruct (decide (cm_ContainerID c = "")); tauto].
  eapply sees_try; [by apply sees_look|intros e cs _; by apply sees_ret|].
  intros o cs ->. destruct (ob_Exists o) eqn:He.
  - apply sees_ret. left. split; [set_solver|done].
  - apply Hname. right. exists o. split; [set_solver|done].
Qed.

(** The survey of the components and what was found of each. *)
Definition survey_of (g : MultiGeneration) (role : string) (n : NetworkObservation)
    (cos : list (Component * ContainerObservation)) (s : survey) : survey :=
  foldl (fun s co => survey_add s co.1 (component_finding sha g role n co.1 co.2) (ob_Exists co.2)) s cos.

Lemma sees_observe_components g role n components s :
  sees (observe_components (E:=E) sha g role n components s) (fun r cs =>
    match r with
    | Ok s' => exists os, Forall2 (found cs) components os /\ s' = survey_of g role n (zip components os) s
    | Err _ => True
    end).
Proof.
  revert s. induction components as [|c components IH]; intros s; cbn.
  { apply sees_ret. by exists []. }
  eapply sees_try; [apply sees_observeComponent|intros e cs _; by apply sees_ret|].
  intros o cs Ho. eapply sees_mono; [apply IH|]. intros [s'|e] cs' Hs; [|done].
  destruct Hs as (os & Hos & ->). exists (o :: os). split; [|done]. constructor.
  - eapply found_mono; [|exact Ho]. set_solver.
  - eapply Forall2_impl; [exact Hos|]. intros c' o'. apply found_mono. set_solver.
Qed.

Lemma survey_of_findings g role n cos s :
  sv_findings (survey_of g role n cos s) =
  sv_findings s ++ map (fun co => component_finding sha g role n co.1 co.2) cos.
Proof.
  unfold survey_of. revert s. induction cos as [|co cos IH]; intros s; cbn; [by rewrite app_nil_r|].
  rewrite IH. cbn. by rewrite <- app_assoc.
Qed.

(** A finding is what its component's observation shows, with more codes. *)
Definition finding_of (g : MultiGeneration) (role : string) (n : NetworkObservation)
    (co : Component * ContainerObservation) (f : ComponentFinding) : Prop :=
  exists codes, f = add_codes codes (component_finding sha g role n co.1 co.2).

Lemma add_codes_nil f : add_codes [] f = f.
Proof. destruct f. unfold add_codes. cbn. by rewrite app_nil_r. Qed.

Lemma add_codes_add a b f : add_codes a (add_codes b f) = add_codes (b ++ a) f.
Proof. destruct f. unfold add_codes. cbn. by rewrite app_assoc. Qed.

Lemma survey_findings_of g role n os : length os = length (mg_Components g) ->
  Forall2 (finding_of g role n) (zip (mg_Components g) os)
    (survey_findings g role (survey_of g role n (zip (mg_Components g) os) (Build_survey [] ∅ ∅))).
Proof.
  intros Hlen. unfold survey_findings. set (s := survey_of _ _ _ _ _).
  assert (sv_findings s = map (fun co => component_finding sha g role n co.1 co.2) (zip (mg_Components g) os)) as ->
    by apply survey_of_findings.
  assert (forall (cos : list (Component * ContainerObservation)) (h : Component * ContainerObservation -> list string),
    Forall2 (finding_of g role n) cos (map (fun co => add_codes (h co) (component_finding sha g role n co.1 co.2)) cos)) as Hmap.
  { intros cos h. induction cos; cbn; constructor; [by eexists|done]. }
  case_decide.
  2:{ eapply Forall2_impl with (P := finding_of g role n); [|done].
      rewrite (map_ext _ (fun co => add_codes [] (component_finding sha g role n co.1 co.2)));
        [apply Hmap|]. intros co. by rewrite add_codes_nil. }
  set (fs := if decide _ then _ else _).
  assert (exists h, fs = map (fun co => add_codes (h co) (component_finding sha g role n co.1 co.2))
            (zip (mg_Components g) os)) as [h Hfs].
  { subst fs. case_decide; [exists (fun _ => [MismatchComponentStateMixed]); by rewrite map_map|].
    exists (fun _ => []). apply map_ext. intros co. by rewrite add_codes_nil. }
  rewrite Hfs. clear Hfs fs.
  generalize (dependency_codes (sv_observed s)) as k. clear s. intros k. revert os Hlen.
  generalize (mg_Components g) as comps.
  induction comps as [|c comps IH]; intros [|o os] Hlen; try discriminate; cbn; constructor.
  - eexists. by rewrite add_codes_add.
  - apply IH. by injection Hlen.
Qed.

Definition surveyed (g : MultiGeneration) (role : string) (cs : list rt_call) (findings : list ComponentFinding) : Prop :=
  exists n os, CObserveNetwork (mg_NetworkName g) (Ok n) ∈ cs /\ Forall2 (found cs) (mg_Components g) os /\
    Forall2 (finding_of g role n) (zip (mg_Components g) os) findings.

Lemma sees_observeGeneration g role :
  sees (observeGeneration (E:=E) sha g role) (fun r cs =>
    match r with Ok (findings, _) => surveyed g role cs findings | Err _ => True end).
Proof.
  unfold observeGeneration. eapply sees_try; [by apply sees_look|intros e cs _; by apply sees_ret|].
  intros n cs ->. eapply sees_try; [apply sees_observe_components|intros e cs _; by apply sees_ret|].
  intros s cs (os & Hos & ->). apply sees_ret. exists n, os. rewrite app_nil_r. split_and!.
  - set_solver.
  - eapply Forall2_impl; [exact Hos|]. intros c o. apply found_mono. set_solver.
  - apply survey_findings_of. symmetry. by eapply Forall2_length.
Qed.

(** All findings missing: all containers are gone. *)
Lemma surveyed_gone g role cs findings :
  surveyed g role cs findings -> all_missing findings = true -> Forall (gone cs) (mg_Components g).
Proof.
  intros (n & os & _ & Hos & Hfs) [_ Hall]%andb_prop. rewrite forallb_forall in Hall.
  revert findings Hfs Hall. induction Hos as [|c o comps os Hco Hos IH]; intros findings Hfs Hall; [done|].
  cbn in Hfs. inversion Hfs as [|? f ? fs (codes & Hf) Hrest]; subst. constructor.
  - apply (found_missing cs c o Hco). specialize (Hall _ (or_introl eq_refl)). cbn in Hall.
    by apply bool_decide_eq_true_1 in Hall.
  - apply (IH fs); [done|]. intros f Hf. apply Hall. by right.
Qed.
End programs.

(** ** The verdict *)
Definition blocking : list string :=
  [MismatchRuntimeUnreachable; MismatchRuntimeStateUnknown; MismatchOwnershipAmbiguous; MismatchImage;
   MismatchConfiguration; MismatchNetwork; MismatchRetainedGenerationRunning; MismatchActiveContainerRunning].

Definition drift : list string :=
  blocking ++ [MismatchActiveContainerDetached; MismatchActiveContainerMissing; MismatchComponentMissing;
    MismatchDependencyState; MismatchComponentStateMixed; MismatchActiveContainerUnstable;
    MismatchActiveContainerStopped; MismatchCandidateOrphaned; MismatchCleanupPending;
    MismatchRetainedGenerationMissing].

Lemma elem_of_unique_from seen l x : x ∈ unique_from seen l <-> x ∈ l /\ x <> "" /\ x ∉ seen.
Proof.
  revert seen. induction l as [|v l IH]; intros seen; cbn; [set_solver|].
  case_decide as H; [rewrite IH; set_solver|]. rewrite !elem_of_cons, IH, elem_of_cons.
  destruct (decide (x = v)) as [->|]; [|tauto]. tauto.
Qed.

Lemma elem_of_uniqueCodes l x : x ∈ uniqueCodes l <-> x ∈ l /\ x <> "".
Proof.
  unfold uniqueCodes, sort_strings. rewrite elem_of_sort_by, elem_of_unique_from.
  set_solver.
Qed.

(** Goes down the tests of [classify] while their results contradict [H]. *)
Ltac fall_through H :=
  match type of H with
  | context [if ?b then _ else _] => destruct b eqn:?; [solve [discriminate H | by destruct H]|]
  end.

Lemma none_in_false (codes : list string) (x : string) : bool_decide (x ∈ codes) = false -> x ∉ codes.
Proof. apply bool_decide_eq_false_1. Qed.

Lemma classify_consistent codes :
  (classify codes).1.1 = ReconciliationConsistent -> Forall (fun x => x ∉ codes) drift.
Proof.
  intros H. unfold classify in H. repeat fall_through H. repeat rewrite orb_false_iff in *. destruct_and?.
  repeat constructor; by apply none_in_false.
Qed.

Lemma classify_action codes :
  (classify codes).1.2 <> RepairNone \/ (classify codes).1.1 = ReconciliationConsistent ->
  Forall (fun x => x ∉ codes) blocking.
Proof.
  intros H. unfold classify in H. do 3 fall_through H.
  repeat rewrite orb_false_iff in *. destruct_and?. repeat constructor; by apply none_in_false.
Qed.

(** What [existing_codes] leaves when it reports nothing about an active
    component. *)
Record component_exact (sha : string -> string) (g : MultiGeneration) (n : NetworkObservation) (c : Component)
    (o : ContainerObservation) : Prop := {
  ex_exists : ob_Exists o = true;
  ex_id : cm_ContainerID c <> "" -> ob_ID o = cm_ContainerID c;
  ex_name : ob_Name o = cm_ContainerName c;
  ex_owner : owner_matches o (mg_InstallationID g) (mg_Generation g) = true;
  ex_image : ob_ImageReference o = cm_Image c;
  ex_image_id : cm_ImageID c <> "" -> ob_ImageID o = cm_ImageID c;
  ex_network : nw_Exists n = true /\ (mg_NetworkID g <> "" -> nw_ID n = mg_NetworkID g);
  ex_attached : is_Some (ob_Networks o !! mg_NetworkName g) /\
    (nw_ID n <> "" -> attachment_id o (mg_NetworkName g) = nw_ID n);
  ex_hash : cm_ConfigurationHash c <> "" -> observationHash sha o = cm_ConfigurationHash c;
  ex_state : ob_State o <> RuntimeRestarting /\ ob_State o <> RuntimePaused /\ ob_State o <> RuntimeUnknown /\
    (expected_runtime "active" c = "running" -> ob_State o <> RuntimeStopped) /\
    (expected_runtime "active" c = "stopped" -> ob_State o <> RuntimeRunning)
}.

Lemma flag_not b code (l : list string) : flag b code ⊆ l -> code ∉ l -> b = false.
Proof. destruct b; [|done]. intros H Hn. destruct Hn. apply H. by apply list_elem_of_here. Qed.

Section exact.
Context (sha : string -> string) (g : MultiGeneration) (n : NetworkObservation) (c : Component)
  (o : ContainerObservation).

(** Decides membership in a list of constants. *)
Ltac in_list := eapply bool_decide_unpack; vm_compute; exact I.

Ltac use_flag H x := apply flag_not in H; [|rewrite Forall_forall in x; apply x; in_list].

Ltac bool_cases :=
  repeat first
    [ rewrite orb_false_iff in * | rewrite andb_false_iff in * | rewrite negb_false_iff in *
    | rewrite negb_true_iff in * | rewrite bool_decide_eq_false in * | rewrite bool_decide_eq_true in * ].

Lemma not_neq (a b : string) : ~ a <> b <-> a = b.
Proof. destruct (decide (a = b)); tauto. Qed.

Lemma codes_exact (codes : list string) :
  Forall (fun x => x ∉ codes) drift ->
  cf_MismatchCodes (component_finding sha g "active" n c o) ⊆ codes -> component_exact sha g n c o.
Proof.
  intros Hd Hs. cbn in Hs. destruct (ob_Exists o) eqn:He.
  2:{ exfalso. unfold missing_codes in Hs. rewrite decide_True in Hs by done.
      rewrite Forall_forall in Hd. case_decide;
        [apply (Hd MismatchActiveContainerMissing)|apply (Hd MismatchComponentMissing)]; first [in_list | apply Hs; apply list_elem_of_here]. }
  unfold existing_codes in Hs. rewrite !list_subseteq_app_iff_l in Hs.
  destruct Hs as (H1 & H2 & H3 & H4 & H5 & H6 & H7 & H8 & _).
  destruct (detached_after_failed_start sha g c n o) eqn:Hdet.
  { exfalso. cbn in H3. rewrite Forall_forall in Hd.
    apply (Hd MismatchActiveContainerDetached); [in_list|apply H3; apply list_elem_of_here]. }
  use_flag H1 Hd. use_flag H2 Hd. use_flag H3 Hd. use_flag H4 Hd. use_flag H5 Hd. use_flag H6 Hd.
  use_flag H7 Hd. use_flag H8 Hd. cbn in H3, H5, H6, H7, H8.
  unfold ownership_ambiguous in H1. unfold image_differs in H2. unfold network_differs in H3. cbn in H3.
  unfold configuration_differs in H4. case_decide; [done|].
  replace (bool_decide ("active" = "candidate" \/ "active" = "cleanup")) with false in H3 by reflexivity.
  unfold stopped_before_first_start in H3. cbn in H3.
  bool_cases. rewrite !not_neq in *.
  destruct H1 as [[H1 Hname] Howner], H2 as [Himage H2], H3 as [[[Hnet H3] Hatt] Hid].
  destruct Hnet as [Hnet|Hnet]; [|discriminate Hnet].
  split; try done.
  - intros Hc. by destruct H1.
  - intros Hc. by destruct H2.
  - split; [done|]. intros Hc. by destruct H3.
  - split; [done|]. intros Hc. by destruct Hid as [[Hid|Hid]|Hid].
  - intros Hc. destruct H4 as [H4|H4]; [|discriminate H4]. apply dec_stable. intros Hh. by apply H4.
  - clear - H5 H6 H7 H8. split_and!; [by destruct H7 as [?|[]]..|by destruct H8| |].
    + intros He. by destruct H5 as [[?|?]|?].
    + intros He. by destruct H6 as [[?|?]|?].
Qed.
End exact.

(** ** What a reconciliation has done *)
Definition calls (l : log) : list rt_call := map fst l.

Lemma calls_tag l d cs : calls (l ++ tag d cs) = calls l ++ cs.
Proof. unfold calls, tag. rewrite map_app, map_map. f_equal. apply map_id. Qed.

(** A row is untouched, or the generation it describes was waiting for its
    cleanup and was observed to be gone. *)
Definition acknowledged (d0 d : db) (cs : list rt_call) : Prop := forall k,
  db_gens d !! k = db_gens d0 !! k \/
  exists r, db_gens d0 !! k = Some r /\ (g_status r = GenCleanupPending \/ g_status r = GenFailed) /\
    db_gens d !! k = Some (r <| g_status := GenRemoved |> <| g_cleanup := CleanupClean |>) /\
    generation_gone cs (load_multi k r d0).

Lemma acknowledged_more d0 d cs cs' : acknowledged d0 d cs -> acknowledged d0 d (cs ++ cs').
Proof.
  intros H k. destruct (H k) as [?|(r & ? & ? & ? & (n & Hn & He) & Hg)]; [by left|]. right. exists r.
  split_and!; try done. split; [exists n; set_solver|]. eapply Forall_impl; [exact Hg|].
  intros c. apply gone_mono. set_solver.
Qed.

(** More codes, the same installation and the same projection. *)
Definition extends (r r' : ReconciliationResult) : Prop :=
  rr_InstallationID r' = rr_InstallationID r /\ rr_Projection r' = rr_Projection r /\
  rr_MismatchCodes r ⊆ rr_MismatchCodes r'.

Lemma extends_refl r : extends r r.
Proof. done. Qed.

Lemma extends_trans r1 r2 r3 : extends r1 r2 -> extends r2 r3 -> extends r1 r3.
Proof. intros (? & ? & H1) (? & ? & H2). split_and!; [congruence..|]. by etrans. Qed.

Lemma extends_findings fs r : extends r (add_findings fs r).
Proof. split_and!; [done..|]. cbn. set_solver. Qed.

Lemma extends_code code r : extends r (add_code code r).
Proof. split_and!; [done..|]. cbn. set_solver. Qed.

Lemma extends_candidate g role exact r : extends r (classify_candidate g role exact r).
Proof.
  unfold classify_candidate. destruct (_ && _); [|done]. destruct (decide _); [|apply extends_code].
  eapply extends_trans; [apply (extends_code MismatchCandidateOrphaned)|]. done.
Qed.

Section observed.
Context {E : Type} `{HostE : Host E} (sha : string -> string) (d0 : db).

Definition Obs : assn := fun d l => Forall look (calls l) /\ acknowledged d0 d (calls l).

Lemma Obs_look d l cs : Obs d l -> Forall look cs -> Obs d (l ++ tag d cs).
Proof.
  intros [Hl Ha] Hcs. unfold Obs. rewrite calls_tag. split; [by apply Forall_app_2|by apply acknowledged_more].
Qed.

Definition loaded (g : MultiGeneration) : Prop :=
  exists r, db_gens d0 !! mgen_key g = Some r /\ g = load_multi (mgen_key g) r d0.

Lemma absent_acknowledged g d l u d' :
  loaded g -> generation_gone (calls l) g -> Obs d l -> MarkReconciledAbsent g d = Ok (u, d') -> Obs d' l.
Proof.
  intros (r & Hr & Hg) Hgone [Hl Ha] H. split; [done|].
  assert (db_gens d' = update (fun k' r => k' = mgen_key g /\ (g_status r = GenCleanupPending \/ g_status r = GenFailed))
    (fun r => r <| g_status := GenRemoved |> <| g_cleanup := CleanupClean |>) (db_gens d)) as Hd'.
  { unfold MarkReconciledAbsent in H. apply tbind_Ok in H as (m & d1 & Hu & H).
    apply update_gens_Ok in Hu as (_ & _ & ->). case_decide; by inv_store. }
  intros k. rewrite Hd', lookup_update.
  destruct (db_gens d !! k) as [rk|] eqn:Hk; cbn; [|specialize (Ha k); by rewrite Hk in Ha].
  case_decide as Hc; [|specialize (Ha k); by rewrite Hk in Ha].
  destruct Hc as [-> Hst]. specialize (Ha (mgen_key g)). rewrite Hk, Hr in Ha.
  destruct Ha as [[= ->]|(r' & [= <-] & _ & [= ->] & _)]; [|by destruct Hst].
  right. exists r. by rewrite <- Hg.
Qed.

Lemma frame_Obs d d' l : frame_same d d' -> Obs d l -> Obs d' l.
Proof. intros (Hg & _ & _) [Hl Ha]. split; [done|]. intros k. rewrite Hg. apply Ha. Qed.

Definition step_post (r : ReconciliationResult) (cs0 : list rt_call) (x : ReconciliationResult * option error) : assn :=
  fun d l => Obs d l /\ extends r x.1 /\ cs0 ⊆ calls l.

Lemma step_post_look r r' cs0 e d l cs :
  Obs d l -> Forall look cs -> extends r r' -> cs0 ⊆ calls l ->
  step_post r cs0 (r', e) d (l ++ tag d cs).
Proof.
  intros HO Hcs He Hs. split_and!; [by apply Obs_look|done|]. rewrite calls_tag.
  by apply list_subseteq_app_l.
Qed.

Lemma wp_cleanup g findings r cs d l :
  loaded g -> Obs d l -> surveyed sha g cs.1 cs.2 findings -> cs.2 ⊆ calls l ->
  wp (E:=E) (classify_cleanup g (all_missing findings) r) (step_post r (calls l)) Obs d l.
Proof.
  intros Hg HO Hsv Hcs. unfold classify_cleanup.
  assert (forall r' e, extends r r' -> step_post r (calls l) (r', e) d l) as Hstay by done.
  case_decide; [|by apply wp_ret, Hstay]. destruct (all_missing findings) eqn:Hm.
  2:{ apply wp_ret, Hstay, extends_code. }
  apply wp_try. apply sees_look; [done|intros; by apply Obs_look|].
  intros [n|e] cs' Hcs' ->; [|by apply wp_ret, step_post_look].
  destruct (nw_Exists n) eqn:Hn; [apply wp_ret, step_post_look; auto using extends_code|].
  apply wp_try. apply wp_store; [by apply Obs_look|intros e; by apply wp_ret, step_post_look|].
  intros now [] d2 Ht. apply wp_ret. split_and!; [|done|rewrite calls_tag; by apply list_subseteq_app_l].
  eapply absent_acknowledged; [done| |by apply Obs_look|exact Ht]. rewrite calls_tag. split.
  - exists n. split; [set_solver|done].
  - eapply Forall_impl; [by eapply surveyed_gone|]. intros c. apply gone_mono. by apply list_subseteq_app_l.
Qed.

Lemma wp_classifyNonActive r gs d l :
  Forall loaded gs -> Obs d l -> wp (E:=E) (classifyNonActive sha r gs) (step_post r (calls l)) Obs d l.
Proof.
  intros Hgs. revert r d l. induction Hgs as [|g gs Hg Hgs IH]; intros r d l HO; cbn.
  { by apply wp_ret. }
  destruct (non_active_role (mg_Status g)) as [role|]; [|by apply IH].
  apply wp_try. apply sees_observeGeneration; [intros; by apply Obs_look|].
  intros [[findings state]|e] cs Hcs Hsv; [|by apply wp_ret, step_post_look].
  assert (calls l ⊆ calls (l ++ tag d cs)) as Hl by (rewrite calls_tag; by apply list_subseteq_app_l).
  apply wp_bind. eapply wp_mono; [apply (wp_cleanup g findings _ (role, cs)); try done| |done].
  - by apply Obs_look.
  - rewrite calls_tag. by apply list_subseteq_app_r.
  - intros [r1 [e|]] d1 l1 (HO1 & He & Hl1); cbn in He.
    { apply wp_ret. split_and!; [done| |by etrans]. eapply extends_trans; [apply extends_findings|done]. }
    eapply wp_mono; [by apply IH| |done]. intros x d2 l2 (HO2 & He2 & Hl2).
    split; [done|]. split; [|by do 2 (etrans; [eassumption|])].
    eapply extends_trans; [apply extends_findings|]. eapply extends_trans; [exact He|].
    eapply extends_trans; [apply extends_candidate|exact He2].
Qed.

(** ** The verdict of a reconciliation *)

(** The projection describes an authority whose findings are in the codes. *)
Definition projected (r : ReconciliationResult) (cs : list rt_call) : Prop :=
  forall p, rr_Projection r = Some p -> exists g findings,
    loaded g /\ is_authority g = true /\ mg_InstallationID g = rr_InstallationID r /\
    cp_Generation p = mg_Generation g /\ surveyed sha g "active" cs findings /\
    findings ≫= cf_MismatchCodes ⊆ rr_MismatchCodes r.

Definition verdict (r : ReconciliationResult) (cs : list rt_call) : Prop :=
  (rr_RecommendedAction r <> RepairNone \/ rr_State r = ReconciliationConsistent ->
   Forall (fun x => x ∉ rr_MismatchCodes r) blocking) /\
  (rr_State r = ReconciliationConsistent -> forall p, rr_Projection r = Some p -> exists g n,
     loaded g /\ is_authority g = true /\ mg_InstallationID g = rr_InstallationID r /\
     cp_Generation p = mg_Generation g /\ CObserveNetwork (mg_NetworkName g) (Ok n) ∈ cs /\
     Forall (fun c => exists o, found cs c o /\ component_exact sha g n c o) (mg_Components g)).

Lemma unique_absent codes : forall x, x ∉ uniqueCodes codes -> x <> "" -> x ∉ codes.
Proof. intros x Hx Hne Hc. apply Hx. by apply elem_of_uniqueCodes. Qed.

Lemma surveyed_exact g cs findings codes :
  surveyed sha g "active" cs findings -> findings ≫= cf_MismatchCodes ⊆ codes ->
  Forall (fun x => x ∉ codes) drift ->
  exists n, CObserveNetwork (mg_NetworkName g) (Ok n) ∈ cs /\
    Forall (fun c => exists o, found cs c o /\ component_exact sha g n c o) (mg_Components g).
Proof.
  intros (n & os & Hn & Hos & Hfs) Hsub Hd. exists n. split; [done|].
  revert findings Hfs Hsub. induction Hos as [|c o comps os Hco Hos IH]; intros findings Hfs Hsub; [done|].
  cbn in Hfs. inversion Hfs as [|? f ? fs (more & Hf) Hrest]; subst. cbn in Hsub.
  rewrite list_subseteq_app_iff_l in Hsub. destruct Hsub as [H1 H2]. constructor; [|by apply (IH fs)].
  exists o. split; [done|]. apply (codes_exact sha g n c o codes Hd). cbn in H1 |- *. set_solver.
Qed.

Lemma finish_verdict r cs : projected r cs -> verdict (finish r) cs.
Proof.
  intros Hp. pose proof (classify_consistent (uniqueCodes (rr_MismatchCodes r))) as Hc.
  pose proof (classify_action (uniqueCodes (rr_MismatchCodes r))) as Ha. unfold finish.
  destruct (classify _) as [[state action] summary]. cbn in Hc, Ha. split; cbn; [done|].
  intros Hs p Hpp. destruct (Hp p Hpp) as (g & findings & ? & ? & ? & ? & Hsv & Hsub).
  destruct (surveyed_exact g cs findings (rr_MismatchCodes r)) as (n & Hn & Hx); [done..| |by exists g, n].
  specialize (Hc Hs). rewrite Forall_forall in Hc |- *. intros x Hx. apply unique_absent; [by apply Hc|].
  intros ->. assert ("" ∉ drift) as Hno by (eapply bool_decide_unpack; vm_compute; exact I). done.
Qed.

Definition done_post (x : ReconciliationResult * option error) : assn :=
  fun d l => Obs d l /\ (x.2 = None -> verdict x.1 (calls l)).

Lemma projected_more r r' cs cs' : projected r cs -> extends r r' -> cs ⊆ cs' -> projected r' cs'.
Proof.
  intros Hp (Hi & Hpr & Hs) Hcs p Hpp. rewrite Hpr in Hpp. destruct (Hp p Hpp) as (g & fs & ? & ? & ? & ? & Hsv & Hsub).
  exists g, fs. rewrite Hi. split_and!; try done; [|by etrans].
  destruct Hsv as (n & os & Hn & Hos & Hfs). exists n, os. split_and!; [by apply Hcs| |done].
  eapply Forall2_impl; [exact Hos|]. intros c o. by apply found_mono.
Qed.

Lemma wp_save r d l : Obs d l -> verdict r (calls l) -> wp (E:=E) (save r) done_post Obs d l.
Proof.
  intros HO Hv. unfold save. apply wp_bind. apply wp_store; [done|intros e; by apply wp_ret|].
  intros now [] d' Ht. apply wp_ret. apply (SaveReconciliation_step "") in Ht as [_ Hf].
  split; [by eapply frame_Obs|done].
Qed.

Lemma wp_runtimeUnknown r d l : Obs d l -> wp (E:=E) (runtimeUnknown r) done_post Obs d l.
Proof. intros HO. apply wp_save; [done|]. by split; [intros [?|?]|]. Qed.

Lemma wp_classify_and_save r gs d l :
  Forall loaded gs -> Obs d l -> projected r (calls l) ->
  wp (E:=E) (classify_and_save sha r gs) done_post Obs d l.
Proof.
  intros Hgs HO Hp. unfold classify_and_save. apply wp_bind.
  eapply wp_mono; [by apply wp_classifyNonActive| |done]. intros [r' [e|]] d1 l1 (HO1 & He & Hl).
  - by apply wp_runtimeUnknown.
  - apply wp_save; [done|]. apply finish_verdict. by eapply projected_more.
Qed.

Lemma wp_reconcile_active r active gs d l :
  loaded active -> is_authority active = true -> mg_InstallationID active = rr_InstallationID r ->
  Forall loaded gs -> Obs d l -> wp (E:=E) (reconcile_active sha r active gs) done_post Obs d l.
Proof.
  intros Hl Ha Hi Hgs HO. unfold reconcile_active. apply wp_bind.
  apply sees_observeGeneration; [intros; by apply Obs_look|].
  intros [[findings state]|e] cs Hcs Hsv; [|by apply wp_runtimeUnknown, Obs_look].
  apply wp_classify_and_save; [done|by apply Obs_look|]. intros p [= <-]. exists active, findings.
  split_and!; try done.
  - rewrite calls_tag. destruct Hsv as (n & os & Hn & Hos & Hfs). exists n, os. split_and!; [set_solver| |done].
    eapply Forall2_impl; [exact Hos|]. intros c o. apply found_mono. by apply list_subseteq_app_r.
  - cbn. by apply list_subseteq_app_r.
Qed.

Lemma wp_reconcile_generations r l :
  rr_Projection r = None -> rr_State r = ReconciliationConsistent -> rr_MismatchCodes r = [] ->
  Obs d0 l -> wp (E:=E) (reconcile_generations sha r) done_post Obs d0 l.
Proof.
  intros Hp Hs Hm HO. unfold reconcile_generations. apply wp_try.
  apply wp_store; [done|intros e; by apply wp_ret|]. intros now gs d' Ht.
  apply ReconciliationGenerations_Ok in Ht as [-> Hgs].
  assert (Forall loaded gs) as Hload by (eapply Forall_impl; [exact Hgs|]; by intros g [_ ?]).
  destruct gs as [|latest gs].
  - apply wp_try. apply wp_store; [done|intros e; by apply wp_ret|]. intros now' removed d' Ht.
    apply reads_LatestRemoved in Ht as ->. apply wp_save; [done|]. split; cbn; [|intros _ p; by rewrite Hp].
    rewrite Hm. intros _. apply Forall_forall. set_solver.
  - destruct (List.find is_authority _) as [active|] eqn:Hf.
    + apply find_some in Hf as [Hin Ha]. apply list_elem_of_In in Hin.
      rewrite Forall_forall in Hgs, Hload. apply wp_reconcile_active; auto.
      * by apply Hgs.
      * by apply Forall_forall.
    + apply wp_classify_and_save; [done..|]. intros p. cbn. by rewrite Hp.
Qed.

Lemma wp_clock (Q : string -> assn) (C : assn) d l :
  C d l -> (forall now, Q now d l) -> wp (E:=E) clock Q C d l.
Proof.
  intros HC HQ e. unfold clock, alive. cbn. destruct (host_crash e) as [[] e1]; [done|]. cbn.
  destruct (host_now e1). apply HQ.
Qed.

Context (provider : option (@RuntimeIdentityProvider E)).

Lemma wp_Reconcile inst : wp (Reconcile sha provider inst) done_post Obs d0 [].
Proof.
  assert (Obs d0 []) as HO. { split; [done|]. intros k. by left. }
  unfold Reconcile. case_decide; [by apply wp_ret|]. apply wp_bind, wp_clock; [done|]. intros now.
  destruct provider as [observe|]; [|by apply wp_reconcile_generations].
  apply wp_bind. apply wp_runtime; [done|].
  intros [identity|e]; (assert (forall c, look c -> Obs d0 ([] ++ [(c, d0)])) as HO'
    by (intros c Hc; apply (Obs_look d0 [] [c]); [done|by repeat constructor])).
  - apply wp_reconcile_generations; [done..|]. by apply HO'.
  - apply wp_save; [by apply HO'|]. by split; [intros [?|?]|].
Qed.
End observed.

(** ** Repairs *)
Section repair.
Context {E : Type} `{HostE : Host E} `{Ev : Evidence} (sha : string -> string)
  (provider : option (@RuntimeIdentityProvider E)).

(** A transaction makes no call. *)
Lemma store_log {A} (m : string -> tx db A) (w : world E) : w_log (final (store m w)) = w_log w.
Proof.
  destruct w as [d e l]. pose proof (wp_store m (fun _ _ l' => l' = l) (fun _ l' => l' = l) d l) as H.
  specialize (H eq_refl (fun _ => eq_refl) (fun _ _ _ _ => eq_refl) e). cbn. by destruct (store m _).
Qed.

(** Beyond the first reconciliation a repair acts only if it is eligible. *)
Lemma Repair_ineligible inst op token action w :
  (exists r w', Reconcile sha provider inst w = Done (r, None) w' /\ eligible r action = true /\
     action <> RepairNone) \/
  w_log (final (Repair sha provider inst op token action w)) = w_log (final (Reconcile sha provider inst w)).
Proof.
  unfold Repair, pbind. destruct (Reconcile sha provider inst w) as [[r [e|]] w'|w'] eqn:Hr;
    [by right| |by right].
  destruct (decide (eligible r action = true /\ action <> RepairNone)) as [[? ?]|Hn]; [left; by exists r, w'|].
  right. cbn [final]. unfold ptry, pbind.
  match goal with |- context [store ?m w'] =>
    pose proof (store_log m w') as Hl; destruct (store m w') as [[[]|e] w1|w1] end; cbn in Hl |- *; [|done..].
  unfold repair_action. destruct (eligible r action).
  - assert (action = RepairNone) as -> by (apply dec_stable; tauto). done.
  - repeat case_decide; done.
Qed.
End repair.

(** ** The installed application, reconciled *)
Notation reconcile_run :=
  (Reconcile (HostE := sim_host) plain_sha None "inst-a" (World (w_db installed) (w_env installed) [])).

Definition verdict_of {E} (o : out E (ReconciliationResult * option error)) : option (string * bool) :=
  match o with Done (r, None) _ => Some (rr_State r, bool_decide (is_Some (rr_Projection r))) | _ => None end.

(** The installation with its runtime stopped behind the helper's back. *)
Definition halted : sim :=
  let e := w_env installed in
  Sim ((fun o => o <| ob_State := RuntimeStopped |>) <$> s_containers e) (s_networks e) (s_tick e) (s_dies e).

Notation repair_run action :=
  (Repair (HostE := sim_host) plain_sha None "inst-a" op1 1 action (World (w_db installed) halted [])).

(** A repair that is allowed starts the components in their order. *)
Example repair_starts :
  sent_calls (w_log (final (repair_run RepairStartActive))) =
    [("start", "id-kitpro-inst-a-1-db"); ("start", "id-kitpro-inst-a-1-web")].
Proof. vm_compute. reflexivity. Qed.

(** ** Claims *)

(** Wherever a reconciliation stops, it has sent
    nothing to the container runtime but observations; the database is a state
    of the system with the leases and the rows of other installations
    untouched; and a generation's row was changed only if it was waiting for
    its cleanup, its network was observed absent and every container recorded
    for it was observed to be gone. *)
Theorem reconcile_observes_only (E : Type) (HostE : Host E) (sha : string -> string)
    (provider : option (@RuntimeIdentityProvider E)) (inst : string) (d : db) (e : E) (Hinv : sys_inv d) :
  let w := final (Reconcile sha provider inst (World d e [])) in
  Forall look (calls (w_log w)) /\ acknowledged d (w_db w) (calls (w_log w)) /\
  sys_inv (w_db w) /\ rtc sys_step d (w_db w) /\ db_leases (w_db w) = db_leases d /\
  other_same inst d (w_db w).
Proof.
  cbv zeta. pose proof (wp_Reconcile sha d provider inst e) as Hw.
  assert (Obs d (w_db (final (Reconcile sha provider inst (World d e []))))
            (w_log (final (Reconcile sha provider inst (World d e []))))) as [Hl Ha].
  { destruct (Reconcile _ _ _ _); [apply Hw|done]. }
  split_and!; [done..| | | |];
    edestruct (keeps_final "" inst 0 d no_exempt trivially (Reconcile sha provider inst) e) as [[] _];
    try done; by apply (keeps_Reconcile_any sha "" inst 0).
Qed.

Lemma reconcile_observes_only_witness :
  sys_inv (w_db (final reconcile_run)) /\ Forall look (calls (w_log (final reconcile_run))).
Proof.
  pose proof (reconcile_observes_only sim sim_host plain_sha None "inst-a" (w_db installed) (w_env installed)
                installed_inv) as (Hl & _ & Hi & _).
  exact (conj Hi Hl).
Defined.

(** C30. When a reconciliation reports an
    installation consistent and projects a committed generation, that
    generation is the installation's authority, its network was observed, and
    every one of its components was observed to exist with the recorded
    identity, owner, image, network attachment and configuration, in a state
    that does not contradict the recorded one. *)
Theorem reconcile_consistent_exact (E : Type) (HostE : Host E) (sha : string -> string)
    (provider : option (@RuntimeIdentityProvider E)) (inst : string) (d : db) (e : E)
    (r : ReconciliationResult) (p : CommittedProjection) (w : world E)
    (Hrun : Reconcile sha provider inst (World d e []) = Done (r, None) w)
    (Hstate : rr_State r = ReconciliationConsistent) (Hproj : rr_Projection r = Some p) :
  exists g n, loaded d g /\ is_authority g = true /\ mg_InstallationID g = rr_InstallationID r /\
    cp_Generation p = mg_Generation g /\ CObserveNetwork (mg_NetworkName g) (Ok n) ∈ calls (w_log w) /\
    Forall (fun c => exists o, found (calls (w_log w)) c o /\ component_exact sha g n c o) (mg_Components g).
Proof.
  pose proof (wp_Reconcile sha d provider inst e) as Hw. rewrite Hrun in Hw.
  destruct Hw as [_ Hv]. exact (proj2 (Hv eq_refl) Hstate p Hproj).
Qed.

Lemma reconcile_consistent_exact_witness :
  exists r p w, reconcile_run = Done (r, None) w /\ exists g, loaded (w_db installed) g /\
    cp_Generation p = mg_Generation g /\ is_authority g = true.
Proof.
  assert (verdict_of reconcile_run = Some (ReconciliationConsistent, true)) as H by (vm_compute; reflexivity).
  destruct reconcile_run as [[r [err|]] w|w] eqn:Hrun; [discriminate H| |discriminate H].
  injection H as Hs Hp. apply bool_decide_eq_true_1 in Hp as [p Hp].
  destruct (reconcile_consistent_exact sim sim_host plain_sha None "inst-a" (w_db installed) (w_env installed)
              r p w Hrun Hs Hp) as (g & n & Hl & Ha & _ & Hg & _).
  exists r, p, w. split; [reflexivity|]. exists g. exact (conj Hl (conj Hg Ha)).
Defined.

(** C31. A repair that sends anything but observations to the
    container runtime was preceded by a reconciliation of its own that
    succeeded, that recommended exactly this repair or found the installation
    consistent, and whose findings include no code for an unreachable runtime,
    an unclassified state, ambiguous ownership, a foreign image,
    configuration or network, or a runtime that should not be running. *)
Theorem repair_gate (E : Type) (HostE : Host E) (Ev : Evidence) (sha : string -> string)
    (provider : option (@RuntimeIdentityProvider E)) (inst op action : string) (token : Z) (d : db) (e : E) :
  let w := final (Repair sha provider inst op token action (World d e [])) in
  Forall look (calls (w_log w)) \/
  exists r w', Reconcile sha provider inst (World d e []) = Done (r, None) w' /\
    (rr_RecommendedAction r = action \/ rr_State r = ReconciliationConsistent) /\
    Forall (fun code => code ∉ rr_MismatchCodes r) blocking.
Proof.
  cbv zeta. pose proof (wp_Reconcile sha d provider inst e) as Hw.
  destruct (Repair_ineligible sha provider inst op token action (World d e [])) as [(r & w' & Hr & He & Hne)|Hl].
  - right. exists r, w'. rewrite Hr in Hw. destruct Hw as [_ Hv]. apply bool_decide_eq_true_1 in He.
    split_and!; [done..|]. apply (proj1 (Hv eq_refl)). destruct He as [He|He]; [left; cbn; congruence|by right].
  - left. rewrite Hl. destruct (Reconcile _ _ _ _); apply Hw.
Qed.
