(* ===== verification/RecoveryProps.v ===== *)
(** * What the recovery of interrupted replacements promises

    The claims about [RecoverInterrupted], which completes at startup the
    operations that were cut short. *)

From S2P Require Import Prelude Protocol Exposure ExposurePolicy HelperDB Coordinator CoordinatorProofs CoordinatorProps Containers LifecycleStore LifecycleStoreProofs MultiStore ReconciliationStore MultiStoreProofs LifecycleStoreProps Runner RunnerProofs RunnerProps Reconciliation MultiRunner SingleRunner Repair Recovery SessionProofs MutationProofs ReconcileProofs MultiReplaceProofs MultiReplaceProps SessionProps ReconcileProps.
From stdpp Require Import base gmap strings list sorting.
From Stdlib Require Import ZArith Lia.

Open Scope Z_scope.

(** ** What the transactions of a recovery leave alone *)
Definition ident (c : compRow) : string * string * string * string :=
  (c_container_id c, c_container_name c, c_image c, c_config_hash c).

Record recovery_frame (d d' : db) : Prop := {
  rf_comps k : ident <$> db_comps d' !! k = ident <$> db_comps d !! k;
  rf_ops id : op_installation <$> db_ops d' !! id = op_installation <$> db_ops d !! id;
  rf_gens k : g_operation <$> db_gens d' !! k = g_operation <$> db_gens d !! k
}.

Lemma recovery_frame_trans d1 d2 d3 : recovery_frame d1 d2 -> recovery_frame d2 d3 -> recovery_frame d1 d3.
Proof. intros [] []. split; intros; congruence. Qed.

(** An update of the operations that keeps their installation. *)
Lemma update_ops_frame P `{!forall k r, Decision (P k r)} f d n d' :
  (forall r, op_installation (f r) = op_installation r) ->
  update_ops P f d = Ok (n, d') -> recovery_frame d d'.
Proof.
  intros Hf [_ ->]%update_ops_Ok. split; [done| |done]. intros id. cbn. rewrite lookup_update.
  destruct (db_ops d !! id) as [r|]; [|done]. cbn. by case_decide; cbn; rewrite ?Hf.
Qed.

(** A transaction that keeps the frame. *)
Definition framed {A} (m : tx db A) : Prop := forall d a d', m d = Ok (a, d') -> recovery_frame d d'.

Lemma framed_bind {A B} (m : tx db A) (f : A -> tx db B) : framed m -> (forall a, framed (f a)) -> framed (tbind m f).
Proof.
  intros Hm Hf d b d' H. apply tbind_Ok in H as (a & d1 & H1 & H2).
  eapply recovery_frame_trans; [by eapply Hm|by eapply Hf].
Qed.

Lemma framed_reads {A} (m : tx db A) : reads m -> framed m.
Proof. intros Hm d a d' H. by apply Hm in H as ->. Qed.

Lemma framed_assert (P : Prop) `{!Decision P} msg : framed (tassert P msg).
Proof. intros d a d' H. by apply tassert_Ok in H as [_ <-]. Qed.

Lemma framed_when P `{!Decision P} m : framed m -> framed (twhen P m).
Proof. intros Hm d a d' [[_ H]|[_ ->]]%twhen_Ok; [by eapply Hm|done]. Qed.

Lemma framed_gens P `{!forall k r, Decision (P k r)} f :
  (forall r, g_operation (f r) = g_operation r) -> framed (update_gens P f).
Proof.
  intros Hf d n d' (_ & _ & ->)%update_gens_Ok. split; [done..|]. intros k. cbn. rewrite lookup_update.
  destruct (db_gens d !! k) as [r|]; [|done]. cbn. by case_decide; cbn; rewrite ?Hf.
Qed.

Lemma framed_leases P `{!forall k r, Decision (P k r)} f : framed (update_leases P f).
Proof. intros d n d' (_ & _ & ->)%update_leases_Ok. done. Qed.

Lemma framed_comps P `{!forall k r, Decision (P k r)} f :
  (forall r, ident (f r) = ident r) -> framed (update_comps P f).
Proof.
  intros Hf d n d' [_ ->]%update_comps_Ok. split; [|done..]. intros k. cbn. rewrite lookup_update.
  destruct (db_comps d !! k) as [r|]; [|done]. cbn. by case_decide; cbn; rewrite ?Hf.
Qed.

Lemma framed_foreach {A} (f : A -> tx db unit) l : (forall x, framed (f x)) -> framed (tforeach f l).
Proof. intros Hf. induction l; cbn; [by apply framed_reads, reads_ret|by apply framed_bind]. Qed.

Lemma framed_event op inst token kind phase facts now : framed (appendEvent op inst token kind phase facts now).
Proof. intros d a d' H. unfold appendEvent in H. by inv_store. Qed.

Create HintDb framed.
#[export] Hint Resolve framed_bind framed_assert framed_when framed_leases framed_event framed_foreach : framed.
#[export] Hint Extern 1 (framed (update_gens _ _)) => apply framed_gens; intros; reflexivity : framed.
#[export] Hint Extern 1 (framed (trow _)) => apply framed_reads, reads_row : framed.
#[export] Hint Extern 1 (framed tget) => apply framed_reads, reads_get : framed.
#[export] Hint Extern 1 (framed (tret _)) => apply framed_reads, reads_ret : framed.

Lemma framed_fence op refusal : framed (recovery_fence op refusal).
Proof.
  apply framed_bind; [apply framed_reads, reads_row|]. intros o.
  apply framed_bind; [apply framed_reads, reads_row|]. intros l.
  apply framed_bind; [|auto with framed]. unfold scan_token. destruct (op_token o); [auto with framed|].
  by intros d a d' H.
Qed.

Lemma framed_complete op phase encoded now P `{!forall r, Decision (P r)} :
  framed (complete_operation op phase encoded now P).
Proof. intros d n d' Hu. by eapply update_ops_frame; [|exact Hu]. Qed.
#[export] Hint Resolve framed_fence framed_complete : framed.

Lemma framed_retire_baseline inst expected now : framed (retire_baseline inst expected now).
Proof. unfold retire_baseline. apply framed_bind; [auto with framed|]. intros d. destruct (active_generation inst d); auto with framed. Qed.

Lemma framed_retire_multi inst expected now : framed (retire_multi_baseline inst expected now).
Proof. unfold retire_multi_baseline. apply framed_bind; [auto with framed|]. intros d. destruct (active_generation inst d); auto with framed. Qed.
#[export] Hint Resolve framed_retire_baseline framed_retire_multi : framed.

Lemma framed_count k : framed (count_verified k).
Proof. intros d a d' H. apply count_verified_Ok in H as (-> & _). done. Qed.
#[export] Hint Resolve framed_count : framed.

Lemma framed_RecoverForward g result now : framed (RecoverForward g result now).
Proof. unfold RecoverForward, retire, release_recovery. cbv zeta. generalize (marshal (Result_json result)). intros s. auto 20 with framed. Qed.

Lemma framed_RecoverForwardMulti g result now : framed (RecoverForwardMulti g result now).
Proof. unfold RecoverForwardMulti, retire, release_recovery. cbv zeta. generalize (marshal (Result_json result)). intros s. auto 20 with framed. Qed.

Lemma framed_Finalize g result now : framed (FinalizeCommittedRecovery g result now).
Proof. unfold FinalizeCommittedRecovery, release_recovery. cbv zeta. generalize (marshal (Result_json result)). intros s. auto 20 with framed. Qed.

Lemma framed_RecordRecovered g now : framed (RecordRecoveredMultiVerification g now).
Proof.
  unfold RecordRecoveredMultiVerification. repeat (apply framed_bind; [auto with framed|intros ?]).
  apply framed_foreach. intros c. unfold record_recovered. apply framed_bind; [auto with framed|intros _].
  apply framed_bind; [by apply framed_comps|auto with framed].
Qed.

(** ** What a recovery has observed *)
Definition runs_as (sha : string -> string) (k : string * Z) (row : compRow) (o : ContainerObservation) : Prop :=
  ob_Exists o = true /\ ob_ID o = c_container_id row /\ ob_Name o = c_container_name row /\
  ob_ImageReference o = c_image row /\ ob_State o = RuntimeRunning /\ owner_matches o k.1 k.2 = true /\
  (c_config_hash row <> "" -> observationHash sha o = c_config_hash row).

(** Every component recorded for [k] was observed running as recorded. *)
Definition running_exact (sha : string -> string) (d0 : db) (cs : list rt_call) (k : string * Z) : Prop :=
  forall id row, db_comps d0 !! (k, id) = Some row ->
    exists o, CObserveContainer (c_container_id row) (Ok o) ∈ cs /\ runs_as sha k row o.

Lemma running_more sha d0 cs cs' k : running_exact sha d0 cs k -> running_exact sha d0 (cs ++ cs') k.
Proof. intros H id row Hr. destruct (H id row Hr) as (o & Ho & Hx). exists o. split; [set_solver|done]. Qed.

Lemma runs_as_ident sha k row row' o : ident row' = ident row -> runs_as sha k row' o -> runs_as sha k row o.
Proof. unfold ident, runs_as. intros [= -> -> -> ->]. done. Qed.

Lemma stored_matches_runs sha k r id row o :
  stored_matches sha (scanGeneration k r id row) RuntimeRunning o = Ok tt -> runs_as sha k row o.
Proof.
  unfold stored_matches. cbn. destruct (ob_Exists o) eqn:He; cbn; [|done].
  repeat (case_bool_decide; cbn; [|done]). destruct (owner_matches _ _ _) eqn:Hw; cbn; [|done].
  case_bool_decide; cbn; [|done]. case_decide; [done|]. case_decide as Hh; [done|]. intros _.
  split_and!; try done. intros Hc. apply dec_stable. tauto.
Qed.

Lemma component_matches_runs sha g n k id row o : mgen_key g = k ->
  component_matches sha g n RuntimeRunning (scan_component (id, row)) o = Ok tt -> runs_as sha k row o.
Proof.
  intros <-. unfold component_matches. cbn. destruct (ob_Exists o) eqn:He; cbn; [|done].
  repeat (case_bool_decide; cbn; [|done]). destruct (owner_matches _ _ _) eqn:Hw; cbn; [|done].
  destruct (negb _); [done|]. case_decide as Hh; [done|]. intros _.
  split_and!; try done. intros Hc. apply dec_stable. tauto.
Qed.

(** Two rows of a selection of one row are the same. *)
Lemma affected_one {K R} `{Countable K} (P : K -> R -> Prop) `{!forall k r, Decision (P k r)} (m : gmap K R) k1 r1 k2 r2 :
  affected P m = 1%nat -> m !! k1 = Some r1 -> P k1 r1 -> m !! k2 = Some r2 -> P k2 r2 -> k1 = k2.
Proof.
  unfold affected. intros Hn H1 P1 H2 P2.
  assert ((k1, r1) ∈ select P m) as E1 by (by apply elem_of_select).
  assert ((k2, r2) ∈ select P m) as E2 by (by apply elem_of_select).
  destruct (select P m) as [|x [|y l]]; try discriminate.
  apply list_elem_of_singleton in E1, E2. congruence.
Qed.

Lemma elem_of_components k d id row : (id, row) ∈ components_of k d <-> db_comps d !! (k, id) = Some row.
Proof.
  unfold components_of. rewrite elem_of_sort_by, list_elem_of_fmap. split.
  - intros ([[k' id'] row'] & [= -> ->] & [Hr Hk]%elem_of_select). cbn in Hk. by subst.
  - intros Hr. exists ((k, id), row). split; [done|]. by apply elem_of_select.
Qed.

Lemma RecordRecovered_gens g now d u d' :
  RecordRecoveredMultiVerification g now d = Ok (u, d') -> db_gens d' = db_gens d.
Proof.
  unfold RecordRecoveredMultiVerification. intros H. apply tbind_Ok in H as (? & ? & Hr & H).
  apply trow_Ok in Hr as [_ <-]. apply tbind_Ok in H as (? & ? & Ha & H). apply tassert_Ok in Ha as [_ <-].
  apply (tforeach_only (mgen_key g)) in H as (m & -> & _); [done|]. by intros; eapply record_recovered_only.
Qed.

(** Each generation was created by an operation of its own installation. *)
Definition owned_generations (d : db) : Prop := forall k r o,
  db_gens d !! k = Some r -> db_ops d !! g_operation r = Some o -> op_installation o = k.1.

Section recovery.
Context {E : Type} `{HostE : Host E} (sha : string -> string) (d0 : db) (Hown : owned_generations d0).

Record Rec (d : db) (l : log) : Prop := {
  rc_inv : sys_inv d;
  rc_run : rtc sys_step d0 d;
  rc_frame : recovery_frame d0 d;
  rc_looks : Forall look (calls l);
  rc_active inst n : active_generation inst d = Some n ->
    active_generation inst d0 = Some n \/ running_exact sha d0 (calls l) (inst, n)
}.

Lemma Rec_look d l cs : Rec d l -> Forall look cs -> Rec d (l ++ tag d cs).
Proof.
  intros [] Hcs. split; try done; rewrite calls_tag; [by apply Forall_app_2|].
  intros inst n Hn. destruct (rc_active0 inst n Hn); [by left|]. right. by apply running_more.
Qed.

Lemma Rec_owned d l k r o : Rec d l -> db_gens d !! k = Some r -> db_ops d !! g_operation r = Some o ->
  op_installation o = k.1.
Proof using Hown.
  intros [_ _ [_ Hops Hgens] _ _] Hr Ho. pose proof (Hgens k) as Hg. rewrite Hr in Hg. cbn in Hg.
  destruct (db_gens d0 !! k) as [r0|] eqn:Hr0; [|done]. cbn in Hg. injection Hg as Hg.
  pose proof (Hops (g_operation r)) as Hx. rewrite Ho in Hx. cbn in Hx.
  destruct (db_ops d0 !! g_operation r) as [o0|] eqn:Ho0; [|done]. injection Hx as ->.
  apply (Hown k r0 o0 Hr0). by rewrite <- Hg.
Qed.

(** The generation of a row, under its operation. *)
Lemma Rec_owner d l k r op : Rec d l -> db_gens d0 !! k = Some r -> op = g_operation r ->
  forall o, db_ops d !! op = Some o -> op_installation o = k.1.
Proof using Hown.
  intros HR Hr -> o Ho. pose proof (rf_gens _ _ (rc_frame _ _ HR) k) as Hg. rewrite Hr in Hg.
  destruct (db_gens d !! k) as [r'|] eqn:Hr'; [|done]. injection Hg as Hg.
  apply (Rec_owned d l k r' o HR Hr'). by rewrite Hg.
Qed.

Lemma Rec_step d l d' : Rec d l -> sys_step d d' -> recovery_frame d d' ->
  (forall inst n, active_generation inst d' = Some n ->
     active_generation inst d = Some n \/ running_exact sha d0 (calls l) (inst, n)) -> Rec d' l.
Proof.
  intros [Hi Hr Hf Hl Ha] Hs Hf' Ha'. split; try done.
  - by eapply sys_step_effect.
  - by eapply rtc_r.
  - by eapply recovery_frame_trans.
  - intros inst n Hn. destruct (Ha' inst n Hn); auto.
Qed.

(** Activating [k] when it was observed running. *)
Lemma Rec_activate d l d' k : Rec d l -> sys_step d d' -> recovery_frame d d' ->
  store_effect k.1 d d' -> active_generation k.1 d' = Some k.2 ->
  running_exact sha d0 (calls l) k -> Rec d' l.
Proof.
  intros HR Hs Hf He Hk Hx. apply (Rec_step d l); try done. intros inst n Hn.
  destruct (decide (inst = k.1)) as [->|Hne].
  - rewrite Hk in Hn. injection Hn as <-. right. by destruct k.
  - left. pose proof (sys_step_effect d d' (rc_inv _ _ HR) Hs) as ((_ & Ho') & _).
    apply active_generation_Some in Hn as (r & Hr & Hst).
    rewrite (se_other_gens _ _ _ He (inst, n)) in Hr by done.
    apply active_generation_iff; [by apply (rc_inv _ _ HR)|eauto].
Qed.

Lemma Rec_same_gens d l d' : Rec d l -> sys_step d d' -> recovery_frame d d' -> db_gens d' = db_gens d -> Rec d' l.
Proof.
  intros HR Hs Hf Hg. apply (Rec_step d l); try done. intros inst n Hn. left.
  unfold active_generation in *. by rewrite <- Hg.
Qed.

(** *** Single containers *)
Definition stored (g : Generation) : Prop := exists k r id row,
  db_gens d0 !! k = Some r /\ db_comps d0 !! (k, id) = Some row /\
  affected (fun kc _ => kc.1 = k) (db_comps d0) = 1%nat /\ g = scanGeneration k r id row.

Lemma interrupted_stored : Forall stored (interrupted_single d0).
Proof.
  apply Forall_forall. intros g Hg. unfold interrupted_single in Hg.
  apply list_elem_of_In, in_flat_map in Hg as ([k r] & Hk & Hg).
  apply list_elem_of_In in Hk. rewrite merge_sort_Permutation in Hk. apply elem_of_select in Hk as [Hr (_ & _ & Hn)].
  apply in_map_iff in Hg as ([id row] & <- & Hc). apply list_elem_of_In, elem_of_components in Hc.
  by exists k, r, id, row.
Qed.

Lemma sees_exactly_running g : stored g ->
  sees (exactly_running (E:=E) sha g) (fun b cs => b = true -> running_exact sha d0 cs (gen_key g)).
Proof.
  intros (k & r & id & row & Hr & Hc & Hn & ->). unfold exactly_running, verifyStoredGeneration.
  eapply (sees_try _ _ _ (fun x cs => match x with Ok o => running_exact sha d0 cs k | Err _ => True end)).
  - eapply sees_try; [by apply sees_look|intros; by apply sees_ret|].
    intros o cs ->. apply sees_ret. destruct (stored_matches sha _ _ o) as [[]|] eqn:Hm; [|done].
    intros id' row' Hc'. assert ((k, id') = (k, id)) as [= ->].
    { by apply (affected_one (fun kc _ => kc.1 = k) (db_comps d0) (k, id') row' (k, id) row Hn Hc' eq_refl Hc). }
    simplify_eq. exists o. split; [set_solver|by eapply stored_matches_runs].
  - intros e cs _. by apply sees_ret.
  - intros o cs Hx. eapply sees_try; [by apply sees_look|intros; by apply sees_ret|].
    intros n cs' ->. apply sees_ret. intros _. unfold gen_key. cbn. destruct k. apply running_more. exact Hx.
Qed.

Lemma wp_recover_one g d l : stored g -> Rec d l ->
  wp (E:=E) (recover_one sha g) (fun _ => Rec) Rec d l.
Proof using Hown.
  intros Hg HR. unfold recover_one. apply wp_bind. apply sees_exactly_running; [done|intros; by apply Rec_look|].
  intros [] cs Hcs Hx; cbn; [|by apply wp_ret, Rec_look]. specialize (Hx eq_refl).
  assert (Rec d (l ++ tag d cs)) as HR1 by by apply Rec_look.
  assert (running_exact sha d0 (calls (l ++ tag d cs)) (gen_key g)) as Hx1.
  { rewrite calls_tag. intros id row Hr. destruct (Hx id row Hr) as (o & Ho & ?). exists o. split; [set_solver|done]. }
  assert (forall o, db_ops d !! gn_CreatingOperationID g = Some o -> op_installation o = gn_InstallationID g) as Hop.
  { destruct Hg as (k & r & id & row & Hr & _ & _ & ->). by apply (Rec_owner d (l ++ tag d cs) k r). }
  apply wp_try. apply wp_store; [done|intros e; by apply wp_ret|]. intros now [] d' Ht. apply wp_ret.
  case_decide.
  - apply (Rec_same_gens d); [done|right; by eapply l_Finalize|by eapply framed_Finalize|].
    apply FinalizeCommittedRecovery_effect in Ht as [(Hgs & _) _]. done.
  - pose proof (RecoverForward_effect _ _ _ _ _ _ Ht) as (He & _ & r & _ & _ & Ha & _).
    apply (Rec_activate d (l ++ tag d cs) d' (gen_key g)); try done; [right; by eapply l_RecoverForward|].
    by eapply framed_RecoverForward.
Qed.

Lemma wp_recover_loop gs n d l : Forall stored gs -> Rec d l ->
  wp (E:=E) (recover_loop sha gs n) (fun _ => Rec) Rec d l.
Proof using Hown.
  intros Hgs. revert n d l. induction Hgs as [|g gs Hg Hgs IH]; intros n d l HR; cbn; [by apply wp_ret|].
  apply wp_try. eapply wp_mono; [by apply wp_recover_one| |done]. intros [x|e] d1 l1 H1; [by apply IH|by apply wp_ret].
Qed.

(** *** Multi-component generations *)
Lemma sees_verify g want :
  sees (verifyGeneration (E:=E) sha g want) (fun r cs => is_ok r = true ->
    Forall (fun c => exists n o, CObserveContainer (cm_ContainerID c) (Ok o) ∈ cs /\
      component_matches sha g n want c o = Ok tt) (mg_Components g)).
Proof.
  unfold verifyGeneration. eapply sees_try; [by apply sees_look|intros; by apply sees_ret|].
  intros n cs _. destruct (_ || _); [by apply sees_ret|].
  assert (forall comps cs, sees (E:=E) (verify_components sha g n want comps) (fun r cs' => is_ok r = true ->
    Forall (fun c => exists n o, CObserveContainer (cm_ContainerID c) (Ok o) ∈ cs ++ cs' /\
      component_matches sha g n want c o = Ok tt) comps)) as Hc; [|apply Hc].
  clear cs. intros comps. induction comps as [|c comps IH]; intros cs; cbn; [by apply sees_ret|].
  eapply sees_try; [by apply sees_look|intros; by apply sees_ret|]. intros o cs' ->.
  destruct (component_matches sha g n want c o) as [[]|] eqn:Hm; [|by apply sees_ret].
  eapply sees_mono; [apply (IH (cs ++ [CObserveContainer (cm_ContainerID c) (Ok o)]))|].
  intros r cs' Hr Hok. rewrite app_assoc. constructor; [|by apply Hr]. exists n, o. split; [set_solver|done].
Qed.

Lemma verified_running d l cs k r : Rec d l ->
  Forall (fun c => exists n o, CObserveContainer (cm_ContainerID c) (Ok o) ∈ cs /\
      component_matches sha (load_multi k r d) n RuntimeRunning c o = Ok tt) (mg_Components (load_multi k r d)) ->
  running_exact sha d0 cs k.
Proof.
  intros HR Hall id row0 Hr0. pose proof (rf_comps _ _ (rc_frame _ _ HR) (k, id)) as Hi.
  rewrite Hr0 in Hi. destruct (db_comps d !! (k, id)) as [row|] eqn:Hrow; [|done].
  assert (ident row = ident row0) as Hid by (cbn in Hi; congruence).
  rewrite Forall_forall in Hall. destruct (Hall (scan_component (id, row))) as (n & o & Ho & Hm).
  { cbn. apply list_elem_of_fmap_2. rewrite merge_sort_Permutation. by apply elem_of_components. }
  assert (c_container_id row = c_container_id row0) as Hc by (unfold ident in Hid; congruence).
  exists o. split; [by rewrite <- Hc|]. apply (runs_as_ident sha k row0 row); [done|].
  apply (component_matches_runs sha (load_multi k r d) n k id); [by destruct k|exact Hm].
Qed.

(** Looking at the previous generation keeps what is known. *)
Lemma wp_previous_stopped g k d l : Rec d l -> running_exact sha d0 (calls l) k ->
  wp (E:=E) (previous_stopped sha g)
    (fun _ d' l' => Rec d' l' /\ running_exact sha d0 (calls l') k) Rec d l.
Proof.
  intros HR Hk. unfold previous_stopped. case_decide; [|by apply wp_ret].
  apply wp_try. apply wp_store; [done|intros; by apply wp_ret|]. intros now p d1 Hp.
  apply LoadMulti_Ok in Hp as (-> & _). apply wp_bind. apply sees_verify; [intros; by apply Rec_look|].
  intros x cs Hcs _. apply wp_ret. split; [by apply Rec_look|]. rewrite calls_tag. by apply running_more.
Qed.

Lemma wp_recover_multi_one k d l : Rec d l -> wp (E:=E) (recover_multi_one sha k) (fun _ => Rec) Rec d l.
Proof using Hown.
  intros HR. unfold recover_multi_one. apply wp_try. apply wp_store; [done|intros; by apply wp_ret|].
  intros now g d1 Hg. apply LoadMulti_Ok in Hg as (-> & _ & r & Hr & Hgr).
  apply wp_bind. apply sees_verify; [intros; by apply Rec_look|]. intros x cs Hcs Hx.
  destruct (is_ok x) eqn:Hok; cbn; [|by apply wp_ret, Rec_look]. specialize (Hx eq_refl).
  assert (Rec d (l ++ tag d cs)) as HR1 by by apply Rec_look.
  assert (running_exact sha d0 cs (mgen_key g)) as Hrun.
  { rewrite Hgr in Hx. by apply (verified_running d l cs (mgen_key g) r). }
  assert (mg_CreatingOperationID g = g_operation r) as Hcr by (by rewrite Hgr).
  assert (forall d l, Rec d l -> (forall o, db_ops d !! g_operation r = Some o -> op_installation o = mg_InstallationID g))
    as Hop.
  { intros d1 l1 H1 o Ho. pose proof (rf_gens _ _ (rc_frame _ _ HR) (mgen_key g)) as Hk. rewrite Hr in Hk.
    destruct (db_gens d0 !! mgen_key g) as [r0|] eqn:Hr0; [|done]. injection Hk as Hk.
    by apply (Rec_owner d1 l1 (mgen_key g) r0 (g_operation r)). }
  case_decide.
  - apply wp_try. apply wp_store; [done|intros e; by apply wp_ret|]. intros now' [] d1 Ht. apply wp_ret.
    apply (Rec_same_gens d); [done| |by eapply framed_Finalize|].
    + right. eapply l_Finalize; [|exact Ht]. cbn. rewrite Hcr. by apply (Hop d (l ++ tag d cs)).
    + apply FinalizeCommittedRecovery_effect in Ht as [(Hgs & _) _]. done.
  - apply wp_bind. eapply wp_mono; [apply (wp_previous_stopped g (mgen_key g)); [done|]| |done].
    { rewrite calls_tag. intros id row Hrow. destruct (Hrun id row Hrow) as (o & Ho & ?). exists o. set_solver. }
    intros [] d1 l1 [H1 Hk1]; cbn; [|by apply wp_ret].
    apply wp_try. apply wp_store; [done|intros; by apply wp_ret|]. intros now1 [] d2 Ht2.
    assert (Rec d2 l1) as H2.
    { apply (Rec_same_gens d1); [done|right; by eapply l_RecordRecovered|by eapply framed_RecordRecovered|].
      by eapply RecordRecovered_gens. }
    apply wp_try. apply wp_store; [done|intros; by apply wp_ret|]. intros now2 [] d3 Ht3. apply wp_ret.
    pose proof (RecoverForwardMulti_effect _ _ _ _ _ _ Ht3) as (He & _ & _ & _ & r3 & _ & _ & Ha & _).
    apply (Rec_activate d2 l1 d3 (mgen_key g)); try done; [|by eapply framed_RecoverForwardMulti].
    right. eapply l_RecoverForwardMulti; [|exact Ht3]. rewrite Hcr. by apply (Hop d2 l1).
Qed.

Lemma wp_recover_multi_loop ks n d l : Rec d l -> wp (E:=E) (recover_multi_loop sha ks n) (fun _ => Rec) Rec d l.
Proof using Hown.
  revert n d l. induction ks as [|k ks IH]; intros n d l HR; cbn; [by apply wp_ret|].
  apply wp_try. eapply wp_mono; [by apply wp_recover_multi_one| |done].
  intros [x|e] d1 l1 H1; [by apply IH|by apply wp_ret].
Qed.

Lemma wp_RecoverInterrupted : sys_inv d0 -> wp (E:=E) (RecoverInterrupted sha) (fun _ => Rec) Rec d0 [].
Proof using Hown.
  intros Hi. assert (Rec d0 []) as HR by (split; [done|done|done|done|by left]).
  unfold RecoverInterrupted. apply wp_try. apply wp_store; [done|intros; by apply wp_ret|].
  intros now gs d1 Hg. inv_tx. apply wp_bind.
  eapply wp_mono; [apply wp_recover_loop; [apply interrupted_stored|done]| |done].
  intros [n [e|]] d2 l2 H2; [by apply wp_ret|]. apply wp_bind. unfold recoverInterruptedMulti.
  apply wp_try. apply wp_store; [done|intros; by repeat apply wp_ret|].
  intros now' ks d3 Hk. inv_tx. eapply wp_mono; [by apply wp_recover_multi_loop| |done].
  intros [m [e|]] d4 l4 H4; by apply wp_ret.
Qed.
End recovery.

(** ** A helper that dies during the cutover of the first installation *)
Definition killed : world sim := final (multi_run sim_host (Some 75%nat)).
Definition revived : sim := Sim (s_containers (w_env killed)) (s_networks (w_env killed)) 0 None.
Definition restarting : db := run (markReconciling op1 "t7") (w_db killed).
Definition restarted : db := run (recoverOne op1 StateExecuting "t8") restarting.

Notation recovery_run :=
  (Recovery.RecoverInterrupted (HostE := sim_host) plain_sha (World restarted revived [])).

(** What the coordinator does to an interrupted operation at startup. *)
Lemma restart_inv d :
  let d1 := run (markReconciling op1 "t7") d in
  sys_inv d -> is_ok (markReconciling op1 "t7" d) = true -> op_state <$> db_ops d !! op1 = Some StateExecuting ->
  op_state <$> db_ops d1 !! op1 = Some StateReconciling -> is_ok (recoverOne op1 StateExecuting "t8" d1) = true ->
  sys_inv (run (recoverOne op1 StateExecuting "t8") d1).
Proof.
  intros d1 Hi Hm Hs Hs1 Hr. apply (sys_steps_inv d); [done|]. apply (rtc_l _ d d1); [left|apply rtc_once; left].
  - apply run_Ok in Hm as [a Ha]. destruct (db_ops d !! op1) as [o|] eqn:Ho; [|done]. injection Hs as Hs.
    eapply step_mark; [exact Ho|by right; left|exact Ha].
  - apply run_Ok in Hr as [a Ha]. destruct (db_ops d1 !! op1) as [o|] eqn:Ho; [|done]. injection Hs1 as Hs1.
    by eapply step_recover.
Qed.

Lemma restarted_inv : sys_inv restarted.
Proof.
  apply restart_inv; [|vm_compute; reflexivity..].
  pose proof (MStop_Sess _ _ _ _ (MultiReplace_stop plain_sha no_hook mplan1 run2 (Sim ∅ ∅ 0 (Some 75%nat)) mplan1_ready)) as [].
  done.
Qed.

Definition owned_row (d : db) (k : string * Z) (r : genRow) : bool :=
  match db_ops d !! g_operation r with Some o => bool_decide (op_installation o = k.1) | None => true end.

Lemma owned_decided d :
  forallb (fun kr => owned_row d kr.1 kr.2) (map_to_list (db_gens d)) = true -> owned_generations d.
Proof.
  intros H k r o Hr Ho. rewrite forallb_forall in H. specialize (H (k, r)). cbn in H. unfold owned_row in H.
  rewrite Ho in H. eapply bool_decide_eq_true_1, H. apply list_elem_of_In. by apply elem_of_map_to_list.
Qed.

(** ** Claims *)

(** C34. Wherever the recovery of interrupted
    replacements stops, it has sent nothing to the container runtime but
    observations, the database is a state of the system reached by its
    transactions, and a generation that is active was active before or had
    every component recorded for it observed running under its recorded
    identity, name, image, owner and configuration. *)
Theorem recovery_activates_only_verified (E : Type) (HostE : Host E) (sha : string -> string) (d : db) (e : E)
    (Hinv : sys_inv d) (Hown : owned_generations d) :
  let w := final (Recovery.RecoverInterrupted sha (World d e [])) in
  sys_inv (w_db w) /\ rtc sys_step d (w_db w) /\ Forall look (calls (w_log w)) /\
  forall inst n, active_generation inst (w_db w) = Some n ->
    active_generation inst d = Some n \/ running_exact sha d (calls (w_log w)) (inst, n).
Proof.
  cbv zeta. pose proof (wp_RecoverInterrupted sha d Hown Hinv e) as Hw.
  assert (Rec sha d (w_db (final (Recovery.RecoverInterrupted sha (World d e []))))
            (w_log (final (Recovery.RecoverInterrupted sha (World d e []))))) as [].
  { by destruct (Recovery.RecoverInterrupted sha (World d e [])). }
  done.
Qed.

Lemma recovery_activates_only_verified_witness :
  active_generation "inst-a" restarted = None /\ active_generation "inst-a" (w_db (final recovery_run)) = Some 1 /\
  running_exact plain_sha restarted (calls (w_log (final recovery_run))) ("inst-a", 1).
Proof.
  assert (active_generation "inst-a" restarted = None) as H0 by (vm_compute; reflexivity).
  assert (active_generation "inst-a" (w_db (final recovery_run)) = Some 1) as H1 by (vm_compute; reflexivity).
  assert (owned_generations restarted) as Ho by (apply owned_decided; vm_compute; reflexivity).
  split; [exact H0|]. split; [exact H1|].
  destruct (recovery_activates_only_verified sim sim_host plain_sha restarted revived restarted_inv Ho)
    as (_ & _ & _ & Ha).
  destruct (Ha "inst-a" 1 H1) as [H|H]; [rewrite H0 in H; discriminate H|exact H].
Defined.

(** The result stored for a recovered single-container operation names no
    service binding, whatever the generation has. *)
Lemma recovered_single_unbound d : Forall (fun g => re_Bindings (recovered_single g) = []) (interrupted_single d).
Proof.
  eapply Forall_impl; [apply (interrupted_stored d)|]. by intros g (k & r & id & row & _ & _ & _ & ->).
Qed.
