(* ===== verification/Ingress.v ===== *)
(** * Ingress routes and the proxy configuration ([internal/ingress])

    [model.go] (identities, host names, routes, backends, the active set of
    routes) and [render.go] (the configuration file written for it).

    Text is compared byte by byte as in Go; the modes, policies and states are
    string types in the code and stay strings here.  The random bytes of
    [NewID] are an argument. *)

From S2P Require Import Prelude Protocol Coordinator NetIP ExposurePolicy.
From stdpp Require Import base strings list gmap.
From Stdlib Require Import ZArith Lia Ascii.

Open Scope Z_scope.

(** ** Data ([model.go]) *)
Definition LAN : string := "lan".
Definition ManagedHTTPS : string := "managed-https".
Definition CloudflareTunnel : string := "cloudflare-tunnel".
Definition TLSNone : string := "none".
Definition TLSProvided : string := "provided".
Definition TLSACME : string := "acme".
Definition TLSCloudflare : string := "cloudflare".
Definition Disabled : string := "disabled".
Definition Enabled : string := "enabled".

Record Route : Type := {
  r_ID : string;
  r_InstallationID : string;
  r_ServiceID : string;
  r_Hostname : string;
  r_ExposureMode : string;
  r_UpstreamProtocol : string;
  r_TLSPolicy : string;
  r_CertificateID : string;
  r_ProviderID : string;
  r_DesiredState : string;
  r_AppliedGeneration : Z;
  r_CreatedAt : string;
  r_UpdatedAt : string
}.

#[export] Instance Route_eta : Eta Route := fun r => Build_Route (r_ID r) (r_InstallationID r)
  (r_ServiceID r) (r_Hostname r) (r_ExposureMode r) (r_UpstreamProtocol r) (r_TLSPolicy r)
  (r_CertificateID r) (r_ProviderID r) (r_DesiredState r) (r_AppliedGeneration r)
  (r_CreatedAt r) (r_UpdatedAt r).
#[export] Instance set_r_Hostname : Setter r_Hostname := ltac:(mk_setter).
#[export] Instance set_r_DesiredState : Setter r_DesiredState := ltac:(mk_setter).
#[export] Instance set_r_AppliedGeneration : Setter r_AppliedGeneration := ltac:(mk_setter).
#[export] Instance set_r_CreatedAt : Setter r_CreatedAt := ltac:(mk_setter).
#[export] Instance set_r_UpdatedAt : Setter r_UpdatedAt := ltac:(mk_setter).

Record Backend : Type := { b_Address : string; b_Port : Z }.
Record AppliedRoute : Type := { ar_Route : Route; ar_Backend : Backend }.

(** ** Patterns *)
Definition identityPattern (s : string) : bool := ExposurePolicy.identityPattern s.

Definition alnum (c : N) : bool := lower c || is_digit c.
Definition is_hex (c : N) : bool := is_digit c || ((97 <=? c) && (c <=? 102))%N.

(** [^<prefix>-[a-f0-9]{16}$] *)
Definition prefixed_hex (prefix s : string) : bool :=
  let p := text (prefix +:+ "-") in
  let t := text s in
  bool_decide (take (length p) t = p) && bool_decide (length (drop (length p) t) = 16%nat)
  && forallb is_hex (drop (length p) t).

Definition routePattern : string -> bool := prefixed_hex "route".
Definition certificatePattern : string -> bool := prefixed_hex "cert".
Definition providerPattern : string -> bool := prefixed_hex "provider".

(** [^[a-z0-9](?:[a-z0-9-]{0,61}[a-z0-9])?$] *)
Definition labelPattern (label : list N) : bool :=
  match label with
  | [] => false
  | c :: rest =>
      alnum c &&
      match rev rest with
      | [] => true
      | z :: middle =>
          alnum z && bool_decide (length middle <= 61)%nat &&
          forallb (fun c => alnum c || (c =? 45)%N) middle
      end
  end.

(** ** Identities *)
Definition hex_char (n : N) : N := if (n <? 10)%N then (n + 48)%N else (n + 87)%N.
Definition EncodeToString (raw : list N) : string :=
  untext (concat (map (fun b => [hex_char (b / 16)%N; hex_char (b mod 16)%N]) raw)).

Definition NewID (prefix : string) (random : res (list N)) : res string :=
  if decide (prefix <> "route" /\ prefix <> "cert" /\ prefix <> "provider" /\ prefix <> "bundle")
  then Err (ErrMsg "unsupported identity prefix")
  else match random with
       | Err e => Err e
       | Ok raw => Ok (prefix +:+ "-" +:+ EncodeToString raw)
       end.

(** ** Host names *)

(** [unicode.ToLower] on one UTF-8 sequence.  Two characters outside ASCII
    have an ASCII lower case, U+0130 and U+212A; the others keep a form outside
    ASCII, which no later test accepts, so they are left as they are.  A byte
    that starts no sequence becomes U+FFFD. *)
Definition lower_rune (r : string) : string :=
  match rune_bytes r with
  | [b] => match rune_len r with
           | Some _ => if ((65 <=? b) && (b <=? 90))%N then untext [b + 32]%N else r
           | None => rune_error
           end
  | [196%N; 176%N] => "i"
  | [226%N; 132%N; 170%N] => "k"
  | _ => r
  end.

(** [strings.TrimSuffix(s, ".")] on the sequences of a text *)
Definition trim_dot (rs : list string) : list string :=
  match rev rs with "." :: rs' => rev rs' | _ => rs end.

Definition hostname_form (value : string) : string :=
  String.concat "" (map lower_rune (trim_dot (trim_space (runes (String.length value) value)))).

(** [strings.Split] at one byte *)
Fixpoint split_at (sep : N) (s cur : list N) : list (list N) :=
  match s with
  | [] => [cur]
  | c :: s => if (c =? sep)%N then cur :: split_at sep s [] else split_at sep s (cur ++ [c])
  end.

(** the bytes of [_/:\], NUL, CR, LF, tab and space *)
Definition forbidden (c : N) : bool :=
  bool_decide (c ∈ [95; 47; 58; 92; 0; 13; 10; 9; 32]%N).

Definition NormalizeHostname (value : string) : res string :=
  let value := hostname_form value in
  if bool_decide (value = "") || bool_decide (253 < String.length value)%nat
     || bool_decide (is_Some (ParseIP value)) || existsb forbidden (text value)
  then Err (ErrMsg "invalid hostname")
  else
    let labels := split_at 46 (text value) [] in
    if decide (length labels < 2)%nat
    then Err (ErrMsg "hostname must contain at least two labels")
    else if forallb labelPattern labels then Ok value
    else Err (ErrMsg "invalid hostname").

(** ** Routes and backends *)
Definition normal_hostname (hostname : string) : bool :=
  match NormalizeHostname hostname with Ok h => bool_decide (h = hostname) | Err _ => false end.

Definition ValidateRoute (route : Route) (allowedModes : list string) (externalAllowed : bool) : res unit :=
  if negb (normal_hostname (r_Hostname route))
     || negb (routePattern (r_ID route)) || negb (identityPattern (r_InstallationID route))
     || negb (identityPattern (r_ServiceID route))
  then Err (ErrMsg "invalid route identity")
  else if decide (r_UpstreamProtocol route <> "http" /\ r_UpstreamProtocol route <> "https")
  then Err (ErrMsg "invalid upstream protocol")
  else if decide (r_ExposureMode route ∉ allowedModes)
  then Err (ErrMsg "exposure mode is not allowed by the catalog")
  else if decide (r_DesiredState route <> Disabled /\ r_DesiredState route <> Enabled)
  then Err (ErrMsg "invalid desired state")
  else
    rbind
      (if decide (r_ExposureMode route = LAN) then
         if decide (r_TLSPolicy route <> TLSNone /\ r_TLSPolicy route <> TLSProvided)
         then Err (ErrMsg "invalid LAN TLS policy") else Ok tt
       else if decide (r_ExposureMode route = ManagedHTTPS) then
         if decide (r_TLSPolicy route <> TLSProvided /\ r_TLSPolicy route <> TLSACME)
         then Err (ErrMsg "managed HTTPS requires a certificate") else Ok tt
       else if decide (r_ExposureMode route = CloudflareTunnel) then
         if negb externalAllowed || bool_decide (r_TLSPolicy route <> TLSCloudflare)
            || negb (providerPattern (r_ProviderID route))
         then Err (ErrMsg "invalid Cloudflare route") else Ok tt
       else Err (ErrMsg "invalid exposure mode")) (fun _ =>
    rbind
      (if decide (r_TLSPolicy route = TLSProvided \/ r_TLSPolicy route = TLSACME) then
         if certificatePattern (r_CertificateID route) then Ok tt
         else Err (ErrMsg "certificate is required")
       else if decide (r_CertificateID route <> "")
       then Err (ErrMsg "certificate is not allowed") else Ok tt) (fun _ =>
    if decide (r_ExposureMode route <> CloudflareTunnel /\ r_ProviderID route <> "")
    then Err (ErrMsg "provider is not allowed") else Ok tt)).

Definition ValidateBackend (backend : Backend) : res unit :=
  match ParseIP (b_Address backend) with
  | Some ip =>
      if negb (IsLoopback ip) || bool_decide (b_Port backend < 1) || bool_decide (65535 < b_Port backend)
      then Err (ErrMsg "ingress backend must be an exact loopback binding") else Ok tt
  | None => Err (ErrMsg "ingress backend must be an exact loopback binding")
  end.

(** The comparison given to [sort.Slice]. *)
Definition route_less (a b : AppliedRoute) : bool :=
  if decide (r_Hostname (ar_Route a) = r_Hostname (ar_Route b))
  then String.ltb (r_ID (ar_Route a)) (r_ID (ar_Route b))
  else String.ltb (r_Hostname (ar_Route a)) (r_Hostname (ar_Route b)).

Fixpoint insert_route (x : AppliedRoute) (l : list AppliedRoute) : list AppliedRoute :=
  match l with
  | [] => [x]
  | y :: l' => if route_less x y then x :: l else y :: insert_route x l'
  end.

Definition sort_routes (l : list AppliedRoute) : list AppliedRoute :=
  foldl (fun acc x => insert_route x acc) [] l.

Definition all_modes : list string := [LAN; ManagedHTTPS; CloudflareTunnel].

Fixpoint check_routes (seenHosts seenIDs : gset string) (l : list AppliedRoute) : res unit :=
  match l with
  | [] => Ok tt
  | route :: l =>
      let r := ar_Route route in
      if decide (r_DesiredState r <> Enabled)
      then Err (ErrMsg "disabled route included in active generation")
      else
        rbind (ValidateRoute r all_modes true) (fun _ =>
        rbind (ValidateBackend (ar_Backend route)) (fun _ =>
        if decide (r_Hostname r ∈ seenHosts \/ r_ID r ∈ seenIDs)
        then Err (ErrMsg "duplicate ingress route")
        else check_routes ({[r_Hostname r]} ∪ seenHosts) ({[r_ID r]} ∪ seenIDs) l))
  end.

Definition NormalizeRoutes (routes : list AppliedRoute) : res (list AppliedRoute) :=
  let out := sort_routes routes in
  rbind (check_routes ∅ ∅ out) (fun _ => Ok out).

(** ** Paths ([path/filepath] on Unix) *)
Definition IsAbs (path : string) : bool := bool_decide (head (text path) = Some 47%N).

(** One element of a path against those kept so far, the last first. *)
Definition clean_step (rooted : bool) (kept : list (list N)) (elem : list N) : list (list N) :=
  match elem with
  | [] | [46%N] => kept
  | [46%N; 46%N] =>
      match kept with
      | [] => if rooted then [] else [elem]
      | top :: below => if decide (top = [46; 46]%N) then elem :: kept else below
      end
  | _ => elem :: kept
  end.

Fixpoint join_at (sep : N) (elems : list (list N)) : list N :=
  match elems with
  | [] => []
  | [e] => e
  | e :: es => e ++ sep :: join_at sep es
  end.

Definition Clean (path : string) : string :=
  let rooted := IsAbs path in
  let kept := rev (foldl (clean_step rooted) [] (split_at 47 (text path) [])) in
  let body := untext (join_at 47 kept) in
  if rooted then "/" +:+ body else if decide (body = "") then "." else body.

Definition Join (elems : list string) : string :=
  match filter (fun e => e <> "") elems with
  | [] => ""
  | es => Clean (Protocol.join "/" es)
  end.

(** ** Rendering ([render.go]) *)
Definition cloudflareOriginPort : Z := 18080.
Definition acmeChallengeSocket : string := "/run/kitpro-ingress/acme.sock".

Record RenderOptions : Type := { o_CertificateRoot : string; o_WorkerUser : string }.

(** Lines as the code writes them, each with its newline. *)
Definition lines (l : list string) : string := String.concat "" (map (fun s => s +:+ nl) l).

Definition writeACMEChallengeLocation : string :=
  lines ["    location ^~ /.well-known/acme-challenge/ {";
         "      proxy_pass http://unix:" +:+ acmeChallengeSocket +:+ ":;";
         "      proxy_set_header Host $host;";
         "      proxy_pass_request_body off;";
         "      proxy_set_header Content-Length " +:+ quote +:+ quote +:+ ";";
         "    }"].

Definition preamble (user : string) : string :=
  lines ["user " +:+ user +:+ ";"; "worker_processes auto;"; "pid run/nginx.pid;";
         "error_log logs/error.log warn;"; "events { worker_connections 1024; }"; "http {"] +:+
  lines ["  client_body_temp_path temp-client-body;"; "  proxy_temp_path temp-proxy;";
         "  fastcgi_temp_path temp-fastcgi;"; "  uwsgi_temp_path temp-uwsgi;";
         "  scgi_temp_path temp-scgi;"] +:+
  lines ["  access_log logs/access.log combined;"; "  server_tokens off;"; "  proxy_http_version 1.1;";
         "  map $http_upgrade $kitpro_connection { default upgrade; '' close; }"] +:+
  lines ["  server { listen 80 default_server; server_name _;"] +:+
  writeACMEChallengeLocation +:+
  lines ["    location / { return 444; }"; "  }"] +:+
  lines ["  server { listen 443 ssl default_server; ssl_reject_handshake on; server_name _; }"].

Definition tunnel_origin (routes : list AppliedRoute) : string :=
  if existsb (fun r => bool_decide (r_ExposureMode (ar_Route r) = CloudflareTunnel)) routes
  then lines ["  server { listen 127.0.0.1:" +:+ itoa cloudflareOriginPort +:+
              " default_server; server_name _; location / { return 444; } }"]
  else "".

Definition https_redirect (r : Route) : bool :=
  bool_decide (r_ExposureMode r = ManagedHTTPS) || bool_decide (r_TLSPolicy r = TLSProvided).

Definition redirect_server (r : Route) : string :=
  lines ["  server {"; "    listen 80;"; "    server_name " +:+ r_Hostname r +:+ ";"] +:+
  writeACMEChallengeLocation +:+
  lines ["    location / { return 308 https://$host$request_uri; }"; "  }"].

Definition listen_of (r : Route) : string :=
  if https_redirect r then "443 ssl"
  else if decide (r_ExposureMode r = CloudflareTunnel)
  then "127.0.0.1:" +:+ itoa cloudflareOriginPort else "80".

Definition tls_files (root : string) (r : Route) : string :=
  if decide (r_TLSPolicy r = TLSProvided \/ r_TLSPolicy r = TLSACME) then
    let certRoot := Join [root; r_CertificateID r] in
    lines ["    ssl_certificate " +:+ Join [certRoot; "fullchain.pem"] +:+ ";"] +:+
    lines ["    ssl_certificate_key " +:+ Join [certRoot; "privkey.pem"] +:+ ";"] +:+
    lines ["    ssl_protocols TLSv1.2 TLSv1.3;"; "    ssl_session_tickets off;"]
  else "".

Definition upstream (route : AppliedRoute) : string :=
  r_UpstreamProtocol (ar_Route route) +:+ "://" +:+ b_Address (ar_Backend route) +:+ ":" +:+
  itoa (b_Port (ar_Backend route)).

Definition render_route (root : string) (route : AppliedRoute) : string :=
  let r := ar_Route route in
  (if https_redirect r then redirect_server r else "") +:+
  lines ["  server {"; "    listen " +:+ listen_of r +:+ ";";
         "    server_name " +:+ r_Hostname r +:+ ";"] +:+
  tls_files root r +:+
  (if decide (r_ExposureMode r = CloudflareTunnel) then writeACMEChallengeLocation else "") +:+
  lines ["    location / {"] +:+
  lines ["      proxy_pass " +:+ upstream route +:+ ";"] +:+
  lines ["      proxy_set_header Host $host;"; "      proxy_set_header X-Forwarded-Host $host;";
         "      proxy_set_header X-Forwarded-Proto $scheme;";
         "      proxy_set_header X-Forwarded-For $remote_addr;";
         "      proxy_set_header Upgrade $http_upgrade;";
         "      proxy_set_header Connection $kitpro_connection;"] +:+
  lines ["    }"; "  }"].

Definition default_root (root : string) : string :=
  if decide (root = "") then "/var/lib/kitpro-helper/ingress/certificates" else root.
Definition default_user (user : string) : string :=
  if decide (user = "") then "kitpro-ingress" else user.

Definition RenderNginx (routes : list AppliedRoute) (options : RenderOptions) : res string :=
  rbind (NormalizeRoutes routes) (fun routes =>
  let root := default_root (o_CertificateRoot options) in
  let user := default_user (o_WorkerUser options) in
  if negb (identityPattern user) || negb (IsAbs root) || bool_decide (Clean root <> root)
  then Err (ErrMsg "invalid nginx render options")
  else Ok (preamble user +:+ tunnel_origin routes +:+
           String.concat "" (map (render_route root) routes) +:+ lines ["}"])).

(** ** Examples *)
Definition sample_route : Route :=
  {| r_ID := "route-0123456789abcdef"; r_InstallationID := "inst-a"; r_ServiceID := "web";
     r_Hostname := "app.example.org"; r_ExposureMode := ManagedHTTPS; r_UpstreamProtocol := "http";
     r_TLSPolicy := TLSACME; r_CertificateID := "cert-0123456789abcdef"; r_ProviderID := "";
     r_DesiredState := Enabled; r_AppliedGeneration := 0; r_CreatedAt := ""; r_UpdatedAt := "" |}.
Definition sample_applied : AppliedRoute :=
  {| ar_Route := sample_route; ar_Backend := {| b_Address := "127.0.0.1"; b_Port := 20001 |} |}.

Example hostname_forms :
  map NormalizeHostname [" App.Example.ORG. "; "localhost"; "a_b.c"; "10.0.0.1"; "-a.example"; "a..b";
                         untext [226; 132; 170; 46; 105; 111]%N] =
  [Ok "app.example.org"; Err (ErrMsg "hostname must contain at least two labels");
   Err (ErrMsg "invalid hostname"); Err (ErrMsg "invalid hostname"); Err (ErrMsg "invalid hostname");
   Err (ErrMsg "invalid hostname"); Ok "k.io"].
Proof. vm_compute. reflexivity. Qed.

Example clean_forms :
  map Clean [""; "/"; "/a//b/./c/.."; "/../a"; "a/../.."; "../a"; "/a/b/"] =
  ["."; "/"; "/a/b"; "/a"; ".."; "../a"; "/a/b"].
Proof. vm_compute. reflexivity. Qed.

Example route_accepted : NormalizeRoutes [sample_applied] = Ok [sample_applied].
Proof. vm_compute. reflexivity. Qed.
