(* ===== verification/IngressProofs.v ===== *)
(** * Lemmas on ingress routes

    Texts in the alphabet of host names, splitting and joining, what the
    address parser accepts, the sorted set of routes, and the lines of the
    rendered configuration. *)

From S2P Require Import Prelude Protocol Coordinator NetIP ExposurePolicy Ingress.
From stdpp Require Import base strings list gmap sorting.
From Stdlib Require Import ZArith Lia Ascii Bool.

Open Scope Z_scope.

(** ** Texts *)
Lemma untext_text s : untext (text s) = s.
Proof.
  unfold untext, text. rewrite map_map. erewrite map_ext; [|apply ascii_N_embedding].
  rewrite map_id. apply String.string_of_list_ascii_of_string.
Qed.

Lemma text_inj s1 s2 : text s1 = text s2 -> s1 = s2.
Proof. intros H. by rewrite <- (untext_text s1), H, untext_text. Qed.

Lemma length_text s : length (text s) = String.length s.
Proof. unfold text. rewrite length_map. induction s; simpl; congruence. Qed.

Lemma text_cons c s : text (String c s) = N_of_ascii c :: text s.
Proof. reflexivity. Qed.

(** ** Splitting and joining *)
Lemma split_at_nonempty sep s cur : split_at sep s cur <> [].
Proof. revert cur. induction s as [|c s IH]; intros cur; cbn; [done|]. case_match; [done | apply IH]. Qed.

Lemma join_cons sep e es : es <> [] -> join_at sep (e :: es) = e ++ sep :: join_at sep es.
Proof. by destruct es. Qed.

Lemma join_split sep s cur : join_at sep (split_at sep s cur) = cur ++ s.
Proof.
  revert cur. induction s as [|c s IH]; intros cur; cbn [split_at]; [by rewrite app_nil_r|].
  destruct (N.eqb_spec c sep) as [->|].
  - rewrite join_cons by apply split_at_nonempty. by rewrite IH.
  - rewrite IH. by rewrite <- app_assoc.
Qed.

Lemma split_run sep e s cur : sep ∉ e -> split_at sep (e ++ s) cur = split_at sep s (cur ++ e).
Proof.
  revert cur. induction e as [|c e IH]; intros cur Hn; cbn; [by rewrite app_nil_r|].
  apply not_elem_of_cons in Hn as [Hc Hn].
  destruct (N.eqb_spec c sep); [congruence|]. rewrite IH by done. by rewrite <- app_assoc.
Qed.

Lemma split_join sep es : es <> [] -> Forall (fun e => sep ∉ e) es -> split_at sep (join_at sep es) [] = es.
Proof.
  intros Hne H. induction H as [|e es He Hes IH]; [done|].
  destruct es as [|e' es].
  - cbn. rewrite <- (app_nil_r e) at 1. by rewrite split_run.
  - rewrite join_cons by done. rewrite split_run by done. cbn [split_at]. rewrite N.eqb_refl.
    rewrite app_nil_l. f_equal. by apply IH.
Qed.

Lemma split_at_free sep s cur : sep ∉ cur -> Forall (fun e => sep ∉ e) (split_at sep s cur).
Proof.
  revert cur. induction s as [|c s IH]; intros cur Hc; cbn; [by repeat constructor|].
  destruct (N.eqb_spec c sep); [constructor; [done|]; apply IH; set_solver|].
  apply IH. set_solver.
Qed.

(** ** Host names *)
Definition host_char (c : N) : bool := alnum c || (c =? 45)%N || (c =? 46)%N.

(** A text of plain host-name bytes is cut into its bytes. *)
Definition single (c : ascii) : string := String c "".

Lemma runes_ascii s :
  forallb (fun c => c <? 128)%N (text s) = true ->
  runes (String.length s) s = map single (String.list_ascii_of_string s).
Proof.
  induction s as [|c s IH]; [done|]. rewrite text_cons. cbn [forallb]. intros [Hc Hs]%andb_true_iff.
  cbn [String.length runes]. unfold rune_len, byte_of. rewrite Hc. cbn [String.list_ascii_of_string map].
  f_equal; [by destruct s|]. rewrite <- IH by done. f_equal. cbn.
  clear. replace (String.length s - 0)%nat with (String.length s) by lia.
  induction s as [|c s IH]; cbn; [done|]. by rewrite IH.
Qed.

Lemma concat_single l : String.concat "" (map single l) = String.string_of_list_ascii l.
Proof.
  induction l as [|c l IH]; [done|]. destruct l as [|c' l]; [done|].
  cbn [map] in *. change (String.concat "" (single c :: single c' :: map single l))
    with (String c (String.concat "" (single c' :: map single l))). by rewrite IH.
Qed.

Lemma drop_while_head {A} (p : A -> bool) l : (forall x, head l = Some x -> p x = false) -> drop_while p l = l.
Proof. destruct l as [|x l]; [done|]. intros H. cbn. by rewrite (H x eq_refl). Qed.

Lemma rune_bytes_single c : rune_bytes (single c) = [N_of_ascii c].
Proof. reflexivity. Qed.

Lemma host_char_range c : host_char c = true -> (45 <= c < 123)%N /\ (c < 65 \/ 90 < c)%N.
Proof.
  unfold host_char, alnum, lower, is_digit. rewrite !orb_true_iff, !andb_true_iff, !N.leb_le, !N.eqb_eq. lia.
Qed.

Lemma host_char_single c : host_char (N_of_ascii c) = true ->
  is_space (single c) = false /\ lower_rune (single c) = single c.
Proof.
  destruct c as [[] [] [] [] [] [] [] []]; vm_compute; intros H; first [discriminate H | done].
Qed.

Lemma trim_space_id l : Forall (fun r => is_space r = false) l -> trim_space l = l.
Proof.
  intros H. assert (forall l', Forall (fun r => is_space r = false) l' -> drop_while is_space l' = l') as Hd.
  { intros l' H'. apply drop_while_head. intros x Hx. destruct l'; [done|].
    injection Hx as <-. by inversion H'. }
  unfold trim_space. rewrite (Hd l) by done. rewrite Hd; [apply rev_involutive|].
  by apply List.Forall_rev.
Qed.

Lemma map_id_Forall {A} (f : A -> A) l : Forall (fun x => f x = x) l -> map f l = l.
Proof. induction 1; cbn; congruence. Qed.

(** Such a text that does not end in a dot is its own comparison form. *)
Lemma hostname_form_id h :
  forallb host_char (text h) = true -> last (text h) <> Some 46%N -> hostname_form h = h.
Proof.
  intros Hc Hlast.
  assert (Forall (fun c => host_char (N_of_ascii c) = true) (String.list_ascii_of_string h)) as HF.
  { apply Forall_forall. intros c Hin. rewrite forallb_forall in Hc. apply Hc. unfold text.
    apply in_map. by apply list_elem_of_In. }
  unfold hostname_form. rewrite runes_ascii.
  2:{ apply forallb_forall. intros c Hin. rewrite forallb_forall in Hc. apply Hc, host_char_range in Hin.
      apply N.ltb_lt. lia. }
  rewrite trim_space_id.
  2:{ apply Forall_fmap. eapply Forall_impl; [exact HF|]. intros c Hx. by apply host_char_single. }
  assert (trim_dot (map single (String.list_ascii_of_string h)) = map single (String.list_ascii_of_string h)) as ->.
  { unfold trim_dot. rewrite <- map_rev. revert Hlast. unfold text.
    destruct (rev (String.list_ascii_of_string h)) as [|c l] eqn:E; [done|].
    rewrite <- (rev_involutive (String.list_ascii_of_string h)), E. cbn [rev map].
    rewrite map_app. cbn [map]. rewrite last_snoc. intros Hne.
    cbn [map]. unfold single at 1. destruct (decide (c = "."%char)) as [->|Hd]; [done|].
    destruct c as [[] [] [] [] [] [] [] []]; try done. }
  rewrite map_id_Forall.
  - rewrite concat_single. apply String.string_of_list_ascii_of_string.
  - apply Forall_fmap. eapply Forall_impl; [exact HF|]. intros c Hx. by apply host_char_single.
Qed.

(** The grammar of host names, as a reference: at least two labels of 1 to 63
    letters, digits and inner hyphens, at most 253 bytes, not an address. *)
Definition label_char (c : N) : Prop := alnum c = true \/ c = 45%N.

Definition valid_label (l : list N) : Prop :=
  (1 <= length l <= 63)%nat /\ Forall label_char l /\ head l <> Some 45%N /\ last l <> Some 45%N.

Definition valid_hostname (h : string) : Prop :=
  (String.length h <= 253)%nat /\ ParseIP h = None /\
  exists labels, (2 <= length labels)%nat /\ Forall valid_label labels /\ text h = join_at 46 labels.

Lemma alnum_not_hyphen c : alnum c = true -> c <> 45%N.
Proof. by intros H ->. Qed.

Lemma label_char_bool c : (alnum c || (c =? 45)%N) = true <-> label_char c.
Proof. unfold label_char. by rewrite orb_true_iff, N.eqb_eq. Qed.

Lemma forallb_Forall {A} (f : A -> bool) (P : A -> Prop) l :
  (forall x, f x = true <-> P x) -> forallb f l = true <-> Forall P l.
Proof.
  intros H. rewrite forallb_forall, Forall_forall. split; intros Hl x Hx; apply H, Hl, list_elem_of_In; done.
Qed.

Lemma label_alnum_end c : label_char c -> c <> 45%N -> alnum c = true.
Proof. intros [?| ?]; done. Qed.

Lemma labelPattern_spec l : labelPattern l = true <-> valid_label l.
Proof.
  unfold labelPattern, valid_label. destruct l as [|c rest]; [cbn; split; [done | lia]|].
  destruct rest as [|z middle _] using rev_ind.
  - cbn. rewrite andb_true_r. split.
    + intros Hc. pose proof (alnum_not_hyphen _ Hc). unfold label_char.
      split_and!; [lia | lia | by constructor; [left|] | congruence..].
    + intros (_ & [Hc _]%Forall_cons & Hn & _). apply label_alnum_end; congruence.
  - rewrite rev_app_distr. cbn [rev app].
    rewrite !andb_true_iff, bool_decide_eq_true, length_rev.
    rewrite (forallb_Forall _ label_char) by apply label_char_bool.
    change (c :: middle ++ [z]) with ((c :: middle) ++ [z]). rewrite last_snoc, length_app, Forall_app.
    cbn [head app length]. rewrite !Forall_cons. split.
    + intros (Hc & (Hz & Hl) & Hm). apply List.Forall_rev in Hm. rewrite rev_involutive in Hm.
      pose proof (alnum_not_hyphen _ Hc). pose proof (alnum_not_hyphen _ Hz). unfold label_char.
      split_and!; [lia | lia | by left | done | by left | done | congruence..].
    + intros (Hl & ((Hc & Hm) & (Hz & _)) & Hn & Hn'). split_and!; try lia.
      * apply label_alnum_end; congruence.
      * apply label_alnum_end; congruence.
      * by apply List.Forall_rev.
Qed.

Lemma valid_label_nodot l : valid_label l -> 46%N ∉ l.
Proof.
  intros (_ & Hl & _) Hin. rewrite Forall_forall in Hl. by destruct (Hl _ Hin).
Qed.

Lemma forallb_false_existsb {A} (f g : A -> bool) l :
  (forall x, f x = true -> g x = false) -> forallb f l = true -> existsb g l = false.
Proof.
  intros H. induction l as [|x l IH]; cbn; [done|]. intros [Hx Hl]%andb_true_iff.
  by rewrite (H x Hx), IH.
Qed.

Lemma host_char_not_forbidden c : host_char c = true -> forbidden c = false.
Proof.
  intros Hc. apply bool_decide_eq_false. intros Hin.
  repeat (apply elem_of_cons in Hin as [-> |Hin]; [discriminate Hc|]). by apply not_elem_of_nil in Hin.
Qed.

Lemma join_chars sep (p : N -> bool) es :
  p sep = true -> Forall (fun e => forallb p e = true) es -> forallb p (join_at sep es) = true.
Proof.
  intros Hs. induction 1 as [|e es He Hes IH]; [done|].
  destruct es as [|e' es]; [done|]. rewrite join_cons by done.
  rewrite forallb_app. cbn [forallb]. by rewrite He, Hs, IH.
Qed.

Lemma valid_label_chars l : valid_label l -> forallb host_char l = true.
Proof.
  intros (_ & Hl & _). apply forallb_forall. intros c Hc. apply list_elem_of_In in Hc.
  rewrite Forall_forall in Hl. unfold host_char. destruct (Hl _ Hc) as [-> | ->]; done.
Qed.

Lemma join_last sep es e : es <> [] -> last es = Some e -> e <> [] -> last (join_at sep es) = last e.
Proof.
  intros _. induction es as [|e' es IH]; [done|]. destruct es as [|e'' es].
  - cbn. by intros [= ->].
  - rewrite join_cons by done. cbn [last] in *. intros Hl He. rewrite last_app.
    rewrite last_cons, IH by done. destruct e using rev_ind; [done|]. by rewrite last_snoc.
Qed.

Lemma valid_label_last l : valid_label l -> l <> [] /\ last l <> Some 46%N.
Proof.
  intros Hv. split; [destruct Hv as ([? _] & _); by intros ->; cbn in *; lia|].
  intros Hl%last_Some_elem_of. by eapply valid_label_nodot.
Qed.

(** A valid name is cut into its labels, has only plain bytes and does not end
    in a dot. *)
Lemma valid_hostname_text h labels :
  (2 <= length labels)%nat -> Forall valid_label labels -> text h = join_at 46 labels ->
  split_at 46 (text h) [] = labels /\ forallb host_char (text h) = true /\ last (text h) <> Some 46%N.
Proof.
  intros Hlen Hl ->. assert (labels <> []) as Hne by (by destruct labels; cbn in *; [lia|]).
  split_and!.
  - apply split_join; [done|]. eapply Forall_impl; [done|]. apply valid_label_nodot.
  - apply join_chars; [done|]. eapply Forall_impl; [done|]. apply valid_label_chars.
  - destruct (last labels) as [l|] eqn:E; [|by apply last_None in E].
    assert (valid_label l) as [Hn Hd]%valid_label_last
      by (rewrite Forall_forall in Hl; by apply Hl, last_Some_elem_of).
    by rewrite (join_last 46 labels l).
Qed.

Lemma normalize_accepts h : valid_hostname h -> NormalizeHostname h = Ok h.
Proof.
  intros (Hlen & Hip & labels & Hn & Hl & Ht).
  destruct (valid_hostname_text h labels Hn Hl Ht) as (Hs & Hc & Hd).
  unfold NormalizeHostname. rewrite hostname_form_id by done.
  rewrite Hs, (forallb_false_existsb host_char) by auto using host_char_not_forbidden.
  assert (forallb labelPattern labels = true) as ->.
  { apply (forallb_Forall _ valid_label); [apply labelPattern_spec | done]. }
  rewrite Hip. rewrite (decide_False (P := (length labels < 2)%nat)) by lia.
  rewrite !bool_decide_eq_false_2; [done | by intros [] | lia |].
  intros ->. destruct labels as [|l [|? ?]]; cbn in Hn; try lia.
  rewrite join_cons in Ht by done. by destruct l.
Qed.

Lemma normalize_sound v h : NormalizeHostname v = Ok h -> valid_hostname h.
Proof.
  unfold NormalizeHostname. set (f := hostname_form v).
  destruct (_ || _) eqn:E; [done|]. apply orb_false_iff in E as [E Ef].
  apply orb_false_iff in E as [E Eip]. apply orb_false_iff in E as [Ee El].
  apply bool_decide_eq_false in El, Eip, Ee.
  destruct (decide (length _ < 2)%nat) as [|Hn]; [done|]. case_match eqn:Ea; [|done]. intros [= <-].
  split_and!; [lia | by apply eq_None_not_Some |].
  exists (split_at 46 (text f) []). split_and!; [lia | | by rewrite join_split].
  by apply (forallb_Forall _ valid_label) in Ea; [|apply labelPattern_spec].
Qed.

(** ** The active set of routes *)
Definition host (route : AppliedRoute) : string := r_Hostname (ar_Route route).
Definition rid (route : AppliedRoute) : string := r_ID (ar_Route route).

(** What an entry of the active set must satisfy by itself. *)
Definition servable (route : AppliedRoute) : Prop :=
  r_DesiredState (ar_Route route) = Enabled /\
  ValidateRoute (ar_Route route) all_modes true = Ok tt /\ ValidateBackend (ar_Backend route) = Ok tt.

Lemma leb_refl s : String.leb s s = true.
Proof. by destruct (String.leb_total s s). Qed.

Lemma route_less_host a b : route_less a b = true -> key_le host a b.
Proof.
  unfold route_less, key_le, host. case_decide as E; intros H.
  - rewrite E. apply leb_refl.
  - unfold String.leb, String.ltb in *. by destruct (_ ?= _)%string.
Qed.

Lemma route_less_host_neg a b : route_less a b = false -> key_le host b a.
Proof.
  unfold route_less, key_le, host. case_decide as E; intros H.
  - rewrite E. apply leb_refl.
  - destruct (String.leb_total (r_Hostname (ar_Route b)) (r_Hostname (ar_Route a))) as [|Hle]; [done|].
    unfold String.leb, String.ltb in *. destruct (_ ?= _)%string eqn:Ec; try done.
    by apply String.compare_eq_iff in Ec.
Qed.

Lemma insert_route_perm x l : insert_route x l ≡ₚ x :: l.
Proof.
  induction l as [|y l IH]; simpl; [done|]. destruct (route_less x y); [done|].
  rewrite IH. apply Permutation_swap.
Qed.

Lemma insert_route_sorted x l :
  StronglySorted (key_le host) l -> StronglySorted (key_le host) (insert_route x l).
Proof.
  induction 1 as [|y l HS IH HF]; simpl; [repeat constructor|].
  destruct (route_less x y) eqn:E.
  - apply route_less_host in E. repeat (constructor; try done). eapply Forall_impl; [done|].
    intros z Hz. by eapply key_le_trans.
  - apply route_less_host_neg in E. constructor; [done|]. rewrite insert_route_perm. by constructor.
Qed.

Lemma sort_routes_acc l acc :
  foldl (fun acc x => insert_route x acc) acc l ≡ₚ acc ++ l /\
  (StronglySorted (key_le host) acc ->
   StronglySorted (key_le host) (foldl (fun acc x => insert_route x acc) acc l)).
Proof.
  revert acc. induction l as [|x l IH]; intros acc; simpl; [by rewrite app_nil_r|].
  destruct (IH (insert_route x acc)) as [HP HS]. split.
  - rewrite HP, insert_route_perm. simpl. by rewrite Permutation_middle.
  - eauto using insert_route_sorted.
Qed.

Lemma sort_routes_perm l : sort_routes l ≡ₚ l.
Proof. apply (sort_routes_acc l []). Qed.

Lemma sort_routes_sorted l : StronglySorted (key_le host) (sort_routes l).
Proof. apply (sort_routes_acc l []). constructor. Qed.

Lemma rbind_Ok {A B} (m : res A) (f : A -> res B) b :
  rbind m f = Ok b <-> exists a, m = Ok a /\ f a = Ok b.
Proof. unfold rbind. destruct m; naive_solver. Qed.

Lemma check_routes_spec hosts ids l :
  check_routes hosts ids l = Ok tt <->
  Forall servable l /\ NoDup (host <$> l) /\ NoDup (rid <$> l) /\
  Forall (fun r => host r ∉ hosts /\ rid r ∉ ids) l.
Proof.
  revert hosts ids. induction l as [|r l IH]; intros hosts ids.
  { cbn. split; [|done]. intros _. split_and!; constructor. }
  cbn [check_routes fmap list_fmap]. rewrite !Forall_cons, !NoDup_cons. unfold servable at 1.
  case_decide as Hd; [split; [done|]; naive_solver|].
  rewrite rbind_Ok. setoid_rewrite rbind_Ok.
  assert (forall P : Prop, (exists a : unit, ValidateRoute (ar_Route r) all_modes true = Ok a /\
            exists a : unit, ValidateBackend (ar_Backend r) = Ok a /\ P) <->
          (ValidateRoute (ar_Route r) all_modes true = Ok tt /\ ValidateBackend (ar_Backend r) = Ok tt /\ P))
    as Hu by (intros P; split; [intros ([] & ? & [] & ? & ?) | intros (? & ? & ?)]; eauto).
  rewrite Hu. clear Hu. fold (host r) (rid r).
  case_decide as Hs.
  - split; [by intros (_ & _ & ?)|]. intros (_ & _ & _ & [[? ?] _]). tauto.
  - apply Decidable.not_or in Hs as [Hh Hi]. rewrite IH. rewrite !list_elem_of_fmap.
    split.
    + intros (? & ? & ? & Hnh & Hni & Hf). rewrite Forall_forall in Hf. split_and!; try done.
      * intros (r' & E & Hin). apply (Hf r') in Hin. set_solver.
      * intros (r' & E & Hin). apply (Hf r') in Hin. set_solver.
      * apply Forall_forall. intros r' Hin. apply Hf in Hin. set_solver.
    + intros (((_ & ? & ?) & ?) & (Hh' & ?) & (Hi' & ?) & _ & Hf). split_and!; try done.
      * rewrite Forall_forall in Hf |- *. intros r' Hin. specialize (Hf r' Hin).
        assert (host r' <> host r) by (intros E; apply Hh'; eauto).
        assert (rid r' <> rid r) by (intros E; apply Hi'; eauto). set_solver.
Qed.

(** An acceptable set of routes: each servable, no host name or identity twice. *)
Definition acceptable (routes : list AppliedRoute) : Prop :=
  Forall servable routes /\ NoDup (host <$> routes) /\ NoDup (rid <$> routes).

#[export] Instance acceptable_proper : Proper ((≡ₚ) ==> iff) acceptable.
Proof. intros l l' E. unfold acceptable. by rewrite E. Qed.

Lemma NormalizeRoutes_Ok routes out :
  NormalizeRoutes routes = Ok out <-> acceptable routes /\ out = sort_routes routes.
Proof.
  unfold NormalizeRoutes. rewrite rbind_Ok.
  rewrite <- (acceptable_proper _ _ (sort_routes_perm routes)). unfold acceptable. split.
  - intros ([] & Hc & [= <-]). apply check_routes_spec in Hc as (? & ? & ? & _). done.
  - intros [(? & ? & ?) ->]. exists tt. split; [|done]. apply check_routes_spec. split_and!; try done.
    apply Forall_true. set_solver.
Qed.

Lemma sort_routes_canonical l l' : acceptable l -> l ≡ₚ l' -> sort_routes l = sort_routes l'.
Proof.
  intros (_ & Hnd & _) E. apply (sorted_perm_unique host); auto using sort_routes_sorted.
  - by rewrite sort_routes_perm.
  - by rewrite !sort_routes_perm.
Qed.
