(* ===== verification/IngressRender.v ===== *)
(** * Reading the rendered configuration back

    A small reader of the lines of a configuration (which server blocks it
    declares, where each listens, which name it serves, with which files and
    to which targets it passes requests), and the lemmas that it reads from
    the text of [RenderNginx] what the accepted routes say. *)

From S2P Require Import Prelude Protocol Coordinator NetIP ExposurePolicy Ingress IngressProofs.
From stdpp Require Import base strings list gmap.
From Stdlib Require Import ZArith Lia Ascii Bool DecimalString.

Open Scope Z_scope.

(** ** Plain words

    Printable bytes that mean nothing to the configuration syntax: no blank,
    quote, [#], [$], [;], backslash or brace. *)
Definition plain (c : N) : bool :=
  ((33 <=? c) && (c <=? 126))%N && negb (bool_decide (c ∈ [34; 35; 36; 39; 59; 92; 123; 125]%N)).
Definition plain_text (s : string) : Prop := forallb plain (text s) = true.

Lemma plain_app s1 s2 : plain_text s1 -> plain_text s2 -> plain_text (s1 +:+ s2).
Proof. unfold plain_text. rewrite text_app, forallb_app. by intros -> ->. Qed.

(** Every byte of a class is plain, when it is for the 256 byte values. *)
Lemma text_bytes s : Forall (fun c => c < 256)%N (text s).
Proof. unfold text. apply Forall_fmap, Forall_true. intros c. apply N_ascii_bounded. Qed.

Lemma class_plain (p : N -> bool) s :
  forallb (fun c => negb (p c) || plain c) (map N.of_nat (seq 0 256)) = true ->
  forallb p (text s) = true -> plain_text s.
Proof.
  intros Hp Hs. unfold plain_text. rewrite forallb_forall in Hp, Hs |- *. intros c Hc.
  assert (c < 256)%N as Hlt
    by (pose proof (text_bytes s) as HF; rewrite Forall_forall in HF; by apply HF, list_elem_of_In).
  specialize (Hp c). apply Hs in Hc. rewrite Hc in Hp. apply Hp.
  apply in_map_iff. exists (N.to_nat c). split; [lia|]. apply in_seq. lia.
Qed.

(** *** Numbers *)
Lemma uint_digits u : forallb is_digit (text (NilEmpty.string_of_uint u)) = true.
Proof. induction u; cbn; done. Qed.

Lemma itoa_plain z : 0 <= z -> plain_text (itoa z).
Proof.
  intros Hz. apply (class_plain is_digit); [vm_compute; reflexivity|].
  unfold itoa, json_num. destruct z as [|p|p]; [done| |lia]. apply uint_digits.
Qed.

(** *** Addresses *)
Definition addr_char (c : N) : bool :=
  match hex_value c with Some _ => true | None => (c =? 46)%N || (c =? 58)%N end.

Lemma digit_addr c : is_digit c = true -> addr_char c = true.
Proof. unfold addr_char, hex_value. by intros ->. Qed.

Lemma ipv4_chars s fields val digits r :
  ipv4_fields s fields val digits = Some r -> forallb addr_char s = true.
Proof.
  revert fields val digits. induction s as [|c s IH]; intros fields val digits; cbn; [done|].
  destruct (is_digit c) eqn:Hd.
  - case_decide; [done|]. case_match; [done|]. intros ?%IH. by rewrite digit_addr.
  - destruct (N.eqb_spec c 46) as [->|]; [|done]. do 2 (case_decide; [done|]).
    by intros ?%IH.
Qed.

Lemma hex_group_chars s off acc v off' rest :
  hex_group s off acc = Some (v, off', rest) ->
  exists run, s = run ++ rest /\ forallb addr_char run = true.
Proof.
  revert off acc. induction s as [|c s IH]; intros off acc; cbn.
  { intros [= _ _ <-]. by exists []. }
  destruct (hex_value c) as [x|] eqn:Hx.
  - case_decide; [done|]. intros (run & -> & Hr)%IH. exists (c :: run). split; [done|].
    cbn. unfold addr_char at 1. by rewrite Hx.
  - intros [= _ _ <-]. by exists [].
Qed.

Lemma ipv6_loop_chars fuel s ip e ip' rest e' :
  ipv6_loop fuel s ip e = Some (ip', rest, e') ->
  exists run, s = run ++ rest /\ forallb addr_char run = true.
Proof.
  revert s ip e. induction fuel as [|fuel IH]; intros s ip e; cbn.
  { intros [= _ <- _]. by exists []. }
  case_decide; [intros [= _ <- _]; by exists []|].
  destruct (hex_group s 0 0) as [[[acc off] r]|] eqn:Hg; [|done].
  apply hex_group_chars in Hg as (run & Hs & Hrun).
  case_decide; [done|]. case_decide.
  { case_decide; [done|]. case_decide; [done|]. destruct (ipv4_fields s [] 0 0) eqn:H4; [|done].
    intros [= _ <- _]. exists s. by rewrite app_nil_r; eauto using ipv4_chars. }
  destruct r as [|c [|c' r]]; [| done |].
  { intros [= _ <- _]. exists run. rewrite app_nil_r in *. done. }
  case_decide as Hc; [done|]. subst c s.
  case_decide as Hc'.
  - subst c'. destruct e; [done|]. destruct r as [|c1 r].
    + intros [= _ <- _]. exists (run ++ [58; 58]%N). rewrite app_nil_r. split; [done|].
      rewrite forallb_app. by rewrite Hrun.
    + intros (run' & -> & Hr')%IH. exists (run ++ 58%N :: 58%N :: run').
      rewrite <- app_assoc. split; [done|]. rewrite forallb_app. by rewrite Hrun.
  - intros (run' & -> & Hr')%IH. exists (run ++ 58%N :: run'). rewrite <- app_assoc.
    split; [done|]. rewrite forallb_app. by rewrite Hrun.
Qed.

Lemma ipv6_run_chars s e ip :
  match ipv6_loop 9 s [] e with
  | Some (ip, [], ellipsis) => expand_ellipsis ip ellipsis
  | _ => None
  end = Some ip -> forallb addr_char s = true.
Proof.
  destruct (ipv6_loop 9 s [] e) as [[[ip' rest] e']|] eqn:E; [|done].
  destruct rest; [|done]. intros _. apply ipv6_loop_chars in E as (run & -> & ?). by rewrite app_nil_r.
Qed.

Lemma ipv6_entry_chars (run : list N -> option nat -> option IP) s ip :
  (forall s e, run s e = Some ip -> forallb addr_char s = true) ->
  match s with
  | 58%N :: 58%N :: [] => Some (replicate 16 0%N)
  | 58%N :: 58%N :: rest => run rest (Some 0%nat)
  | _ => run s None
  end = Some ip -> forallb addr_char s = true.
Proof.
  intros Hrun H.
  repeat (case_match; try (by eapply Hrun); try discriminate); subst; try done.
  apply Hrun in H. by cbn in *.
Qed.

Lemma ipv6_chars s ip : parseIPv6 s = Some ip -> forallb addr_char s = true.
Proof. apply ipv6_entry_chars. intros s' e. apply ipv6_run_chars. Qed.

Lemma parseIP_chars a ip : ParseIP a = Some ip -> forallb addr_char (text a) = true.
Proof.
  unfold ParseIP. intros H. destruct (first_separator (text a)) as [[|p]|]; [done| |done].
  do 6 (try (destruct p as [p|p|]; try done)).
  - destruct (ipv4_fields _ _ _ _) eqn:H4; [|done]. by eapply ipv4_chars.
  - case_decide; [done|]. by eapply ipv6_chars.
Qed.

Lemma address_plain a ip : ParseIP a = Some ip -> plain_text a.
Proof. intros ?%parseIP_chars. by apply (class_plain addr_char); [vm_compute|]. Qed.

(** ** Paths below a clean directory *)
Lemma untext_app a b : untext (a ++ b) = untext a +:+ untext b.
Proof.
  unfold untext. rewrite map_app. induction (map ascii_of_N a) as [|c l IH]; cbn; [done|].
  rewrite IH. reflexivity.
Qed.

Lemma str_app_assoc (a b c : string) : (a +:+ b) +:+ c = a +:+ b +:+ c.
Proof. induction a as [|x a IH]; [done|]. change (String x ((a +:+ b) +:+ c) = String x (a +:+ b +:+ c)). by rewrite IH. Qed.

Lemma split_at_sep sep a b cur : split_at sep (a ++ sep :: b) cur = split_at sep a cur ++ split_at sep b [].
Proof.
  revert cur. induction a as [|c a IH]; intros cur; cbn; [by rewrite N.eqb_refl|].
  case_match; [|apply IH]. by rewrite IH.
Qed.

Lemma join_snoc sep es e : es <> [] -> join_at sep (es ++ [e]) = join_at sep es ++ sep :: e.
Proof.
  induction es as [|x es IH]; [done|]. intros _. destruct es as [|y es]; [done|].
  change ((x :: y :: es) ++ [e]) with (x :: (y :: es) ++ [e]).
  rewrite join_cons by (by destruct es). rewrite IH by done.
  rewrite (join_cons sep x (y :: es)) by done. by rewrite <- app_assoc.
Qed.

(** A name that is one element of a path. *)
Definition element (e : string) : Prop :=
  47%N ∉ text e /\ e <> "" /\ e <> "." /\ e <> "..".

Definition child (root e : string) : string :=
  (if decide (root = "/") then "" else root) +:+ "/" +:+ e.

Definition clean_abs (root : string) : Prop := IsAbs root = true /\ Clean root = root.

Lemma clean_step_element rooted kept e :
  element e -> clean_step rooted kept (text e) = text e :: kept.
Proof.
  intros (_ & H0 & H1 & H2).
  assert (text e <> [] /\ text e <> [46]%N /\ text e <> [46; 46]%N) as (T0 & T1 & T2).
  { split_and!; intros E; apply (f_equal untext) in E; rewrite untext_text in E; by subst. }
  unfold clean_step. repeat (case_match; subst; try done).
Qed.

Lemma split_element e : element e -> split_at 47 (text e) [] = [text e].
Proof. intros (Hn & _). rewrite <- (app_nil_r (text e)) at 1. by rewrite split_run. Qed.

Lemma child_clean root e : clean_abs root -> element e -> clean_abs (child root e).
Proof.
  intros [Habs Hc] He. unfold child. case_decide as Hr.
  - assert (text ("" +:+ "/" +:+ e) = 47%N :: text e) as Ht by done.
    split; [unfold IsAbs; by rewrite Ht|]. unfold Clean, IsAbs. rewrite Ht. cbn [head].
    rewrite bool_decide_eq_true_2 by done. cbn [split_at N.eqb Pos.eqb]. rewrite split_element by done.
    cbn [foldl]. rewrite clean_step_element by done. cbn [clean_step rev app join_at]. by rewrite untext_text.
  - assert (text (root +:+ "/" +:+ e) = text root ++ 47%N :: text e) as Ht by (by rewrite text_app).
    assert (IsAbs (root +:+ "/" +:+ e) = true) as Ha.
    { apply bool_decide_eq_true in Habs. apply bool_decide_eq_true. rewrite Ht. by destruct (text root). }
    split; [done|]. unfold Clean in *. rewrite Ha. rewrite Habs in Hc.
    rewrite Ht, split_at_sep, foldl_app, (split_element e He). cbn [foldl].
    set (kept := foldl _ _ _) in *. rewrite clean_step_element by done. cbn [rev].
    destruct (decide (rev kept = [])) as [E|E].
    { exfalso. apply Hr. rewrite <- Hc. by rewrite E. }
    rewrite join_snoc by done. rewrite untext_app. rewrite <- Hc at 1.
    change (47%N :: text e) with ([47%N] ++ text e). rewrite untext_app, untext_text.
    by rewrite !str_app_assoc.
Qed.

Lemma join_child root e : clean_abs root -> element e -> Ingress.Join [root; e] = child root e.
Proof.
  intros [Habs Hc] He. unfold Ingress.Join.
  rewrite !filter_cons_True, filter_nil; [|by destruct He as (_ & ? & _) | by intros ->].
  cbn [Protocol.join]. destruct (decide (root = "/")) as [->|Hr].
  - unfold child. rewrite decide_True by done. unfold Clean, IsAbs.
    assert (text ("/" +:+ "/" +:+ e) = 47%N :: 47%N :: text e) as -> by done. cbn [head].
    rewrite bool_decide_eq_true_2 by done. cbn [split_at N.eqb Pos.eqb]. rewrite split_element by done.
    cbn [foldl clean_step]. rewrite clean_step_element by done. cbn [clean_step rev app join_at]. by rewrite untext_text.
  - destruct (child_clean root e (conj Habs Hc) He) as [_ Hcc].
    unfold child in *. by rewrite decide_False in * by done.
Qed.

(** ** The reader *)
Record server : Type := {
  sv_listen : string;
  sv_name : string;
  sv_certificate : option string;
  sv_key : option string;
  sv_targets : list string
}.

#[export] Instance server_eta : Eta server := fun s =>
  Build_server (sv_listen s) (sv_name s) (sv_certificate s) (sv_key s) (sv_targets s).
#[export] Instance set_sv_listen : Setter sv_listen := ltac:(mk_setter).
#[export] Instance set_sv_name : Setter sv_name := ltac:(mk_setter).
#[export] Instance set_sv_certificate : Setter sv_certificate := ltac:(mk_setter).
#[export] Instance set_sv_key : Setter sv_key := ltac:(mk_setter).
#[export] Instance set_sv_targets : Setter sv_targets := ltac:(mk_setter).

Definition no_server : server :=
  {| sv_listen := ""; sv_name := ""; sv_certificate := None; sv_key := None; sv_targets := [] |}.

Fixpoint strip (p l : list N) : option (list N) :=
  match p, l with
  | [], _ => Some l
  | a :: p, b :: l => if (a =? b)%N then strip p l else None
  | _ :: _, [] => None
  end.

Definition line_is (s : string) (l : list N) : bool :=
  match strip (text s) l with Some [] => true | _ => false end.

(** The argument of a directive: what stands between its name and the
    semicolon that ends the line. *)
Definition argument (directive : string) (l : list N) : option string :=
  match strip (text directive) l with
  | Some v => match rev v with 59%N :: v => Some (untext (rev v)) | _ => None end
  | None => None
  end.

Definition read_directive (s : server) (l : list N) : server :=
  match argument "    listen " l with Some v => s <| sv_listen := v |> | None =>
  match argument "    server_name " l with Some v => s <| sv_name := v |> | None =>
  match argument "    ssl_certificate " l with Some v => s <| sv_certificate := Some v |> | None =>
  match argument "    ssl_certificate_key " l with Some v => s <| sv_key := Some v |> | None =>
  match argument "      proxy_pass " l with Some v => s <| sv_targets := sv_targets s ++ [v] |> | None =>
  s end end end end end.

Definition read_line (st : option server * list server) (l : list N) : option server * list server :=
  if line_is "  server {" l then (Some no_server, st.2)
  else match st.1 with
       | None => st
       | Some s => if line_is "  }" l then (None, st.2 ++ [s]) else (Some (read_directive s l), st.2)
       end.

(** The server blocks of a configuration. *)
Definition read_servers (configuration : string) : list server :=
  (foldl read_line (None, []) (split_at 10 (text configuration) [])).2.

(** What a route asks for. *)
Definition acme_target : string := "http://unix:" +:+ acmeChallengeSocket +:+ ":".

Definition certificate_files (root : string) (r : Route) : option string * option string :=
  if decide (r_TLSPolicy r = TLSProvided \/ r_TLSPolicy r = TLSACME)
  then (Some (child (child root (r_CertificateID r)) "fullchain.pem"),
        Some (child (child root (r_CertificateID r)) "privkey.pem"))
  else (None, None).

Definition servers_of (root : string) (route : AppliedRoute) : list server :=
  let r := ar_Route route in
  (if https_redirect r
   then [{| sv_listen := "80"; sv_name := r_Hostname r; sv_certificate := None; sv_key := None;
            sv_targets := [acme_target] |}]
   else []) ++
  [{| sv_listen := listen_of r; sv_name := r_Hostname r;
      sv_certificate := (certificate_files root r).1; sv_key := (certificate_files root r).2;
      sv_targets := (if decide (r_ExposureMode r = CloudflareTunnel) then [acme_target] else []) ++
                    [upstream route] |}].

(** ** Lines *)
Definition one_line (s : string) : Prop := forallb (fun c => negb (c =? 10)%N) (text s) = true.

Lemma one_line_app s1 s2 : one_line s1 -> one_line s2 -> one_line (s1 +:+ s2).
Proof. unfold one_line. rewrite text_app, forallb_app. by intros -> ->. Qed.

Lemma plain_one_line s : plain_text s -> one_line s.
Proof.
  unfold plain_text, one_line. rewrite !forallb_forall. intros H c Hc. apply H in Hc.
  destruct (N.eqb_spec c 10) as [->|]; done.
Qed.

Lemma str_app_nil (s : string) : s +:+ "" = s.
Proof. induction s as [|c s IH]; [done|]. change (String c (s +:+ "") = String c s). by rewrite IH. Qed.

Lemma concat_cons s l : String.concat "" (s :: l) = s +:+ String.concat "" l.
Proof. destruct l; [symmetry; apply str_app_nil | done]. Qed.

Lemma lines_cons s l : lines (s :: l) = s +:+ nl +:+ lines l.
Proof. unfold lines. cbn [map]. rewrite concat_cons. apply str_app_assoc. Qed.

Lemma lines_app l1 l2 : lines (l1 ++ l2) = lines l1 +:+ lines l2.
Proof.
  induction l1 as [|s l1 IH]; [done|]. cbn [app]. rewrite !lines_cons, IH. by rewrite !str_app_assoc.
Qed.

Lemma split_lines_text l : Forall one_line l -> split_at 10 (text (lines l)) [] = map text l ++ [[]].
Proof.
  induction 1 as [|s l Hs Hl IH]; [done|]. rewrite lines_cons, !text_app.
  change (text nl) with [10%N]. cbn [app map]. rewrite split_run.
  - cbn [split_at]. rewrite N.eqb_refl. by rewrite IH.
  - intros Hin. unfold one_line in Hs. rewrite forallb_forall in Hs.
    apply list_elem_of_In, Hs in Hin. done.
Qed.

(** ** The text as a list of lines *)
Definition acme_lines : list string :=
  ["    location ^~ /.well-known/acme-challenge/ {"; "      proxy_pass " +:+ acme_target +:+ ";";
   "      proxy_set_header Host $host;"; "      proxy_pass_request_body off;";
   "      proxy_set_header Content-Length " +:+ quote +:+ quote +:+ ";"; "    }"].

Definition preamble_lines (user : string) : list string :=
  ["user " +:+ user +:+ ";"; "worker_processes auto;"; "pid run/nginx.pid;";
   "error_log logs/error.log warn;"; "events { worker_connections 1024; }"; "http {";
   "  client_body_temp_path temp-client-body;"; "  proxy_temp_path temp-proxy;";
   "  fastcgi_temp_path temp-fastcgi;"; "  uwsgi_temp_path temp-uwsgi;"; "  scgi_temp_path temp-scgi;";
   "  access_log logs/access.log combined;"; "  server_tokens off;"; "  proxy_http_version 1.1;";
   "  map $http_upgrade $kitpro_connection { default upgrade; '' close; }";
   "  server { listen 80 default_server; server_name _;"] ++ acme_lines ++
  ["    location / { return 444; }"; "  }";
   "  server { listen 443 ssl default_server; ssl_reject_handshake on; server_name _; }"].

Definition tunnel_lines (routes : list AppliedRoute) : list string :=
  if existsb (fun r => bool_decide (r_ExposureMode (ar_Route r) = CloudflareTunnel)) routes
  then ["  server { listen 127.0.0.1:" +:+ itoa cloudflareOriginPort +:+
        " default_server; server_name _; location / { return 444; } }"] else [].

Definition redirect_lines (r : Route) : list string :=
  if https_redirect r
  then ["  server {"; "    listen " +:+ "80" +:+ ";"; "    server_name " +:+ r_Hostname r +:+ ";"] ++ acme_lines ++
       ["    location / { return 308 https://$host$request_uri; }"; "  }"] else [].

Definition tls_lines (root : string) (r : Route) : list string :=
  match certificate_files root r with
  | (Some certificate, Some key) =>
      ["    ssl_certificate " +:+ certificate +:+ ";"; "    ssl_certificate_key " +:+ key +:+ ";";
       "    ssl_protocols TLSv1.2 TLSv1.3;"; "    ssl_session_tickets off;"]
  | _ => []
  end.

Definition server_lines (root : string) (route : AppliedRoute) : list string :=
  let r := ar_Route route in
  ["  server {"; "    listen " +:+ listen_of r +:+ ";"; "    server_name " +:+ r_Hostname r +:+ ";"] ++
  tls_lines root r ++
  (if decide (r_ExposureMode r = CloudflareTunnel) then acme_lines else []) ++
  ["    location / {"; "      proxy_pass " +:+ upstream route +:+ ";";
   "      proxy_set_header Host $host;"; "      proxy_set_header X-Forwarded-Host $host;";
   "      proxy_set_header X-Forwarded-Proto $scheme;";
   "      proxy_set_header X-Forwarded-For $remote_addr;";
   "      proxy_set_header Upgrade $http_upgrade;";
   "      proxy_set_header Connection $kitpro_connection;"; "    }"; "  }"].

Definition route_lines (root : string) (route : AppliedRoute) : list string :=
  redirect_lines (ar_Route route) ++ server_lines root route.

Definition config_lines (root user : string) (routes : list AppliedRoute) : list string :=
  preamble_lines user ++ tunnel_lines routes ++ concat (map (route_lines root) routes) ++ ["}"].

Lemma fullchain_element : element "fullchain.pem".
Proof. split_and!; try done. by refine (bool_decide_unpack _ _). Qed.
Lemma privkey_element : element "privkey.pem".
Proof. split_and!; try done. by refine (bool_decide_unpack _ _). Qed.

Lemma certificate_element id : certificatePattern id = true -> element id /\ plain_text id.
Proof.
  unfold certificatePattern, prefixed_hex. rewrite !andb_true_iff, !bool_decide_eq_true.
  intros [[Hp _] Hh]. pose proof (take_drop (length (text "cert-")) (text id)) as Ht.
  change (text ("cert" +:+ "-")) with (text "cert-") in *. rewrite Hp in Ht.
  set (tail := drop _ _) in *. split.
  - split_and!; try (intros ->; by cbn in Ht). rewrite <- Ht. intros [Hin|Hin]%elem_of_app.
    + revert Hin. by refine (bool_decide_unpack (_ ∉ _) _).
    + rewrite forallb_forall in Hh. apply list_elem_of_In, Hh in Hin. done.
  - apply (class_plain (fun c => is_hex c || bool_decide (c ∈ text "cert-"))); [vm_compute; reflexivity|].
    rewrite <- Ht, forallb_app. apply andb_true_iff. split; [vm_compute; reflexivity|].
    rewrite forallb_forall in Hh |- *. intros c ->%Hh. done.
Qed.

(** ** What an accepted route looks like *)
Lemma ValidateRoute_Ok r modes ext :
  ValidateRoute r modes ext = Ok tt ->
  NormalizeHostname (r_Hostname r) = Ok (r_Hostname r) /\
  (r_UpstreamProtocol r = "http" \/ r_UpstreamProtocol r = "https") /\
  r_ExposureMode r ∈ modes /\
  (r_TLSPolicy r = TLSProvided \/ r_TLSPolicy r = TLSACME -> certificatePattern (r_CertificateID r) = true).
Proof.
  unfold ValidateRoute. destruct (_ || _) eqn:E; [done|]. repeat apply orb_false_iff in E as [E ?].
  apply negb_false_iff in E. unfold normal_hostname in E.
  destruct (NormalizeHostname _) as [h|] eqn:Eh; [|done]. apply bool_decide_eq_true in E as ->.
  case_decide as Hu; [done|]. case_decide as Hm; [done|]. case_decide; [done|].
  rewrite rbind_Ok. intros (_ & _ & HR). apply rbind_Ok in HR as ([] & HR & _).
  split_and!; [done | destruct (decide (r_UpstreamProtocol r = "http")), (decide (r_UpstreamProtocol r = "https")); tauto
    | done |].
  intros Ht. rewrite decide_True in HR by done. by case_match.
Qed.

Lemma hostname_plain h : valid_hostname h -> plain_text h.
Proof.
  intros (_ & _ & labels & Hn & Hl & Ht). destruct (valid_hostname_text h labels Hn Hl Ht) as (_ & Hc & _).
  apply (class_plain host_char); [vm_compute; reflexivity | done].
Qed.

Lemma ValidateBackend_Ok b :
  ValidateBackend b = Ok tt -> plain_text (b_Address b) /\ 1 <= b_Port b <= 65535.
Proof.
  unfold ValidateBackend. destruct (ParseIP (b_Address b)) eqn:E; [|done].
  destruct (_ || _) eqn:Eb; [done|]. intros _. apply orb_false_iff in Eb as [[_ H1]%orb_false_iff H2].
  apply bool_decide_eq_false in H1, H2. split; [by eapply address_plain | lia].
Qed.

Lemma plain_certificates root r :
  plain_text root ->
  (r_TLSPolicy r = TLSProvided \/ r_TLSPolicy r = TLSACME -> certificatePattern (r_CertificateID r) = true) ->
  Forall plain_text (option_list (certificate_files root r).1) /\
  Forall plain_text (option_list (certificate_files root r).2).
Proof.
  intros Hr Hid. unfold certificate_files. case_decide as Ht; [|by split; constructor].
  apply Hid, certificate_element in Ht as [_ Hp]. cbn.
  assert (forall d e, plain_text d -> plain_text e -> plain_text (child d e)) as Hch.
  { intros d e ? ?. unfold child. case_decide; by repeat apply plain_app. }
  rewrite !Forall_singleton. split; by repeat apply Hch.
Qed.

(** The words of a route that reach the configuration are plain. *)
Definition words (s : server) : list string :=
  [sv_name s] ++ option_list (sv_certificate s) ++ option_list (sv_key s) ++ sv_targets s.

Lemma servable_words root route :
  plain_text root -> servable route -> Forall (fun s => Forall plain_text (words s)) (servers_of root route).
Proof.
  intros Hroot (_ & (Hn & Hu & _ & Hc)%ValidateRoute_Ok & (Ha & Hp)%ValidateBackend_Ok).
  apply normalize_sound, hostname_plain in Hn.
  assert (plain_text (upstream route)) as Hup.
  { unfold upstream. repeat apply plain_app; try done; [by destruct Hu as [-> | ->] | apply itoa_plain; lia]. }
  unfold servers_of. apply Forall_app. split; [destruct (https_redirect _); by repeat constructor|].
  apply Forall_singleton. unfold words. cbn [sv_name sv_certificate sv_key sv_targets].
  repeat apply Forall_app_2; try (by repeat constructor).
  - by apply plain_certificates.
  - by apply plain_certificates.
  - case_decide; by repeat constructor.
Qed.

(** ** The rendered text is the list of lines *)
Lemma render_route_lines root route :
  clean_abs root -> servable route -> render_route root route = lines (route_lines root route).
Proof.
  intros Hroot (_ & (_ & _ & _ & Hc)%ValidateRoute_Ok & _).
  assert (tls_files root (ar_Route route) = lines (tls_lines root (ar_Route route))) as Htls.
  { unfold tls_files, tls_lines, certificate_files. case_decide as Ht; [|done].
    apply Hc, certificate_element in Ht as [He _].
    pose proof (child_clean _ _ Hroot He).
    rewrite (join_child root _ Hroot He), !join_child by auto using fullchain_element, privkey_element.
    by rewrite <- !lines_app. }
  unfold render_route, route_lines, redirect_lines, server_lines. rewrite Htls.
  destruct (https_redirect _); case_decide; unfold redirect_server;
    change writeACMEChallengeLocation with (lines acme_lines);
    rewrite ?lines_app, ?str_app_assoc; reflexivity.
Qed.

Lemma concat_render root routes :
  clean_abs root -> Forall servable routes ->
  String.concat "" (map (render_route root) routes) = lines (concat (map (route_lines root) routes)).
Proof.
  intros Hroot. induction 1 as [|r routes Hr Hrs IH]; [done|].
  cbn [map concat]. by rewrite concat_cons, lines_app, IH, render_route_lines.
Qed.

Lemma RenderNginx_Ok routes options out :
  RenderNginx routes options = Ok out ->
  let root := default_root (o_CertificateRoot options) in
  let user := default_user (o_WorkerUser options) in
  acceptable routes /\ clean_abs root /\ identityPattern user = true /\
  out = lines (config_lines root user (sort_routes routes)).
Proof.
  unfold RenderNginx. rewrite rbind_Ok. intros (sorted & [Ha ->]%NormalizeRoutes_Ok & H).
  destruct (_ || _) eqn:E; [done|]. injection H as <-.
  apply orb_false_iff in E as [[Hu Hi]%orb_false_iff Hc].
  apply negb_false_iff in Hu, Hi. apply bool_decide_eq_false, dec_stable in Hc.
  cbv zeta. split_and!; try done. unfold config_lines. rewrite !lines_app. f_equal.
  - unfold preamble, preamble_lines. rewrite !lines_app.
    change writeACMEChallengeLocation with (lines acme_lines). by rewrite <- !lines_app.
  - f_equal; [unfold tunnel_origin, tunnel_lines; by case_match|]. f_equal.
    apply concat_render; [done|]. rewrite sort_routes_perm. apply Ha.
Qed.

(** ** Reading the lines back *)
Lemma strip_app p l : strip p (p ++ l) = Some l.
Proof. induction p as [|c p IH]; cbn; [done|]. by rewrite N.eqb_refl. Qed.

Lemma argument_hit d v : argument d (text (d +:+ v +:+ ";")) = Some v.
Proof.
  unfold argument. rewrite text_app, strip_app, text_app. change (text ";") with [59%N].
  rewrite rev_app_distr. cbn [rev app]. by rewrite rev_involutive, untext_text.
Qed.

Section reading.
Implicit Types (s : server) (done : list server).

Lemma read_listen s done v :
  read_line (Some s, done) (text ("    listen " +:+ v +:+ ";")) = (Some (s <| sv_listen := v |>), done).
Proof.
  unfold read_line, read_directive. by rewrite argument_hit.
Qed.

Lemma read_name s done v :
  read_line (Some s, done) (text ("    server_name " +:+ v +:+ ";")) = (Some (s <| sv_name := v |>), done).
Proof.
  unfold read_line, read_directive. by rewrite argument_hit.
Qed.

Lemma read_certificate s done v :
  read_line (Some s, done) (text ("    ssl_certificate " +:+ v +:+ ";")) =
  (Some (s <| sv_certificate := Some v |>), done).
Proof.
  unfold read_line, read_directive. by rewrite argument_hit.
Qed.

Lemma read_key s done v :
  read_line (Some s, done) (text ("    ssl_certificate_key " +:+ v +:+ ";")) =
  (Some (s <| sv_key := Some v |>), done).
Proof.
  unfold read_line, read_directive. by rewrite argument_hit.
Qed.

Lemma read_pass s done v :
  read_line (Some s, done) (text ("      proxy_pass " +:+ v +:+ ";")) =
  (Some (s <| sv_targets := sv_targets s ++ [v] |>), done).
Proof.
  unfold read_line, read_directive. by rewrite argument_hit.
Qed.
End reading.

Lemma read_acme s done :
  foldl read_line (Some s, done) (map text acme_lines) =
  (Some (s <| sv_targets := sv_targets s ++ [acme_target] |>), done).
Proof. by destruct s. Qed.

Lemma read_redirect r done :
  foldl read_line (None, done) (map text (redirect_lines r)) =
  (None, done ++ if https_redirect r
                 then [{| sv_listen := "80"; sv_name := r_Hostname r; sv_certificate := None; sv_key := None;
                          sv_targets := [acme_target] |}] else []).
Proof.
  unfold redirect_lines. destruct (https_redirect r); [|by rewrite app_nil_r].
  rewrite !map_app, !foldl_app. cbn [map foldl].
  change (read_line (None, done) (text "  server {")) with (Some no_server, done).
  by rewrite read_listen, read_name, read_acme.
Qed.

Lemma read_tls root r s done :
  foldl read_line (Some s, done) (map text (tls_lines root r)) =
  (Some (match certificate_files root r with
         | (Some c, Some k) => s <| sv_certificate := Some c |> <| sv_key := Some k |>
         | _ => s
         end), done).
Proof.
  unfold tls_lines. destruct (certificate_files root r) as [[c|] [k|]]; try done.
  cbn [map foldl]. by rewrite read_certificate, read_key.
Qed.

Lemma certificate_pair root r :
  (exists c k, certificate_files root r = (Some c, Some k)) \/ certificate_files root r = (None, None).
Proof. unfold certificate_files. case_decide; eauto. Qed.

Lemma read_server root route done :
  foldl read_line (None, done) (map text (server_lines root route)) =
  (None, done ++
     [{| sv_listen := listen_of (ar_Route route); sv_name := r_Hostname (ar_Route route);
         sv_certificate := (certificate_files root (ar_Route route)).1;
         sv_key := (certificate_files root (ar_Route route)).2;
         sv_targets := (if decide (r_ExposureMode (ar_Route route) = CloudflareTunnel) then [acme_target] else []) ++
                       [upstream route] |}]).
Proof.
  unfold server_lines. rewrite !map_app, !foldl_app. cbn [map foldl].
  change (read_line (None, done) (text "  server {")) with (Some no_server, done).
  rewrite read_listen, read_name, read_tls.
  destruct (certificate_pair root (ar_Route route)) as [(c & k & ->)| ->];
    case_decide; rewrite ?read_acme; cbn [map foldl];
    match goal with |- context [read_line (Some ?s, done) (text "    location / {")] =>
      change (read_line (Some s, done) (text "    location / {")) with (Some s, done) end;
    by rewrite read_pass.
Qed.

Lemma read_route root route done :
  foldl read_line (None, done) (map text (route_lines root route)) = (None, done ++ servers_of root route).
Proof.
  unfold route_lines. rewrite map_app, foldl_app, read_redirect, read_server. by rewrite <- app_assoc.
Qed.

Lemma read_routes root routes done :
  foldl read_line (None, done) (map text (concat (map (route_lines root) routes))) =
  (None, done ++ concat (map (servers_of root) routes)).
Proof.
  revert done. induction routes as [|r routes IH]; intros done; cbn [map concat foldl]; [by rewrite app_nil_r|].
  rewrite map_app, foldl_app, read_route, IH. by rewrite <- app_assoc.
Qed.

Lemma read_preamble user routes :
  foldl read_line (None, []) (map text (preamble_lines user ++ tunnel_lines routes)) = (None, []).
Proof. rewrite map_app, foldl_app. unfold tunnel_lines. by case_match. Qed.

(** ** No line breaks inside a line *)
Ltac solve_lines :=
  repeat first [ assumption | apply plain_one_line; assumption | apply List.Forall_nil
               | apply Forall_cons; split | apply one_line_app | reflexivity ].

Lemma route_one_line root route :
  plain_text root -> servable route -> Forall one_line (route_lines root route).
Proof.
  intros Hroot Hs. pose proof (servable_words root route Hroot Hs) as Hw.
  unfold servers_of in Hw. apply Forall_app in Hw as [_ Hw]. rewrite Forall_singleton in Hw.
  unfold words in Hw. cbn [sv_name sv_certificate sv_key sv_targets] in Hw.
  rewrite !Forall_app, Forall_singleton in Hw.
  destruct Hw as (Hn & Hc & Hk & _ & Hup). rewrite Forall_singleton in Hup.
  assert (Forall one_line acme_lines) as Hacme by solve_lines.
  assert (one_line (listen_of (ar_Route route))) as Hl.
  { unfold listen_of. repeat case_match; reflexivity. }
  unfold route_lines, redirect_lines, server_lines, tls_lines.
  destruct (certificate_pair root (ar_Route route)) as [(c & k & E)|E]; rewrite E in *; cbn in Hc, Hk;
    rewrite ?Forall_singleton in Hc, Hk;
    destruct (https_redirect _); case_decide; rewrite !Forall_app; split_and!; solve_lines.
Qed.

Lemma config_one_line root user routes :
  plain_text root -> identityPattern user = true -> Forall servable routes ->
  Forall one_line (config_lines root user routes).
Proof.
  intros Hroot Hu Hr.
  assert (plain_text user) as Huser.
  { apply (class_plain (fun c => lower c || is_digit c || (c =? 45)%N)); [vm_compute; reflexivity|].
    unfold identityPattern, ExposurePolicy.identityPattern in Hu. destruct (text user) as [|c rest]; [done|].
    apply andb_true_iff in Hu as [[Hc _]%andb_true_iff Hf]. cbn [forallb]. by rewrite Hc, Hf. }
  assert (Forall one_line acme_lines) as Hacme by solve_lines.
  unfold config_lines, preamble_lines, tunnel_lines. rewrite !Forall_app. split_and!; solve_lines.
  - case_match; solve_lines.
  - apply Forall_concat, Forall_fmap. eapply Forall_impl; [done|]. intros r. by apply route_one_line.
Qed.

(** The reader finds in the text what the sorted routes ask for. *)
Lemma read_config root user routes :
  plain_text root -> identityPattern user = true -> Forall servable routes ->
  read_servers (lines (config_lines root user routes)) = concat (map (servers_of root) routes).
Proof.
  intros Hroot Hu Hr. unfold read_servers. rewrite split_lines_text by by apply config_one_line.
  unfold config_lines. rewrite app_assoc, !map_app, <- app_assoc, <- map_app, foldl_app, read_preamble.
  by rewrite <- app_assoc, foldl_app, read_routes.
Qed.
