(* ===== verification/IngressRuntime.v ===== *)
(** * Applying an ingress generation ([internal/ingress])

    [transaction.go] (the apply transaction over an abstract runtime),
    [runtime.go] (its implementation by a directory of generations and one
    symbolic link) and the target checks of [validator.go].

    The file system is three finite maps: regular files, symbolic links and
    directories.  Every system call takes its outcome from a script: it is
    done, or it reports an error after making some progress; past the end of
    the script calls are done.  Files written elsewhere, the validator process,
    the reload bridge and the process check belong to an environment of their
    own type, which their functions may change; they read the file system but
    the generations are written by this code alone. *)

From S2P Require Import Prelude Protocol Coordinator NetIP ExposurePolicy Ingress.
From stdpp Require Import base gmap strings list.
From Stdlib Require Import ZArith Lia Ascii.

Open Scope Z_scope.

(** ** The file system *)
Inductive io_outcome : Type :=
| Done
| Fails (progress : nat).

Record fsworld (E : Type) : Type := {
  w_files : gmap string string;
  w_links : gmap string string;
  w_dirs : gset string;
  w_script : list io_outcome;
  w_env : E
}.
Arguments w_files {E} _.
Arguments w_links {E} _.
Arguments w_dirs {E} _.
Arguments w_script {E} _.
Arguments w_env {E} _.

#[export] Instance fsworld_eta {E} : Eta (fsworld E) := fun w =>
  Build_fsworld E (w_files w) (w_links w) (w_dirs w) (w_script w) (w_env w).
#[export] Instance set_w_files {E} : Setter (@w_files E) := ltac:(mk_setter).
#[export] Instance set_w_links {E} : Setter (@w_links E) := ltac:(mk_setter).
#[export] Instance set_w_dirs {E} : Setter (@w_dirs E) := ltac:(mk_setter).
#[export] Instance set_w_script {E} : Setter (@w_script E) := ltac:(mk_setter).
#[export] Instance set_w_env {E} : Setter (@w_env E) := ltac:(mk_setter).

(** A computation on the world; an error stops the function that meets it but
    keeps what was done. *)
Definition io (W A : Type) : Type := W -> res A * W.
Definition iret {W A} (a : A) : io W A := fun w => (Ok a, w).
Definition ifail {W A} (e : error) : io W A := fun w => (Err e, w).
Definition ibind {W A B} (m : io W A) (f : A -> io W B) : io W B := fun w =>
  match m w with (Ok a, w') => f a w' | (Err e, w') => (Err e, w') end.
Definition iwrap {W A} (msg : string) (m : io W A) : io W A := fun w =>
  match m w with (Err e, w') => (Err (ErrWrap msg e), w') | r => r end.
Definition ilift {W A} (r : res A) : io W A := fun w => (r, w).

Notation "'io*' x ':=' c 'in' k" := (ibind c (fun x => k))
  (at level 10, x name, c at level 100, k at level 200) : kit_scope.
Notation "'run*' c 'in' k" := (ibind c (fun _ => k))
  (at level 10, c at level 100, k at level 200) : kit_scope.

Section file_system.
Context {E : Type}.
Implicit Types (w : fsworld E).

Definition io_error : error := ErrMsg "input/output error".

(** A system call: [effect n] is the state after [n] units of progress, where
    [full] is all of it. *)
Definition syscall (full : nat) (effect : nat -> fsworld E -> fsworld E) : io (fsworld E) unit := fun w =>
  match w_script w with
  | [] => (Ok tt, effect full w)
  | Done :: s => (Ok tt, effect full (w <| w_script := s |>))
  | Fails n :: s => (Err io_error, effect (n `min` full)%nat (w <| w_script := s |>))
  end.

Definition atomic (f : fsworld E -> fsworld E) : io (fsworld E) unit :=
  syscall 1 (fun n w => if decide (n = 0%nat) then w else f w).

(** A directory and those above it. *)
Definition ancestors (path : string) : list string :=
  (foldl (fun acc e => match e with
                       | [] => acc
                       | _ => let p := acc.1 +:+ "/" +:+ untext e in (p, acc.2 ++ [p])
                       end) ("", []) (split_at 47 (text path) [])).2.

Definition mkdir_all (path : string) : io (fsworld E) unit :=
  atomic (fun w => w <| w_dirs := list_to_set (ancestors path) ∪ w_dirs w |>).

(** [os.OpenFile(path, O_WRONLY|O_CREATE|O_EXCL, 0640)] *)
Definition create_exclusive (path : string) : io (fsworld E) unit := fun w =>
  if decide (is_Some (w_files w !! path)) then (Err (ErrMsg "file exists"), w)
  else atomic (fun w => w <| w_files := <[path := ""]> (w_files w) |>) w.

Definition write_file (path content : string) : io (fsworld E) unit :=
  syscall (String.length content)
    (fun n w => w <| w_files := <[path := String.substring 0 n content]> (w_files w) |>).

Definition sync : io (fsworld E) unit := atomic id.
Definition close : io (fsworld E) unit := atomic id.

(** [os.Remove]; [false] when there was nothing to remove. *)
Definition remove_link (path : string) : io (fsworld E) bool := fun w =>
  match w_links w !! path with
  | None => (Ok false, w)
  | Some _ => match atomic (fun w => w <| w_links := delete path (w_links w) |>) w with
              | (Ok _, w') => (Ok true, w')
              | (Err e, w') => (Err e, w')
              end
  end.

Definition symlink (target path : string) : io (fsworld E) unit := fun w =>
  match w_links w !! path with
  | Some _ => (Err (ErrMsg "file exists"), w)
  | None => atomic (fun w => w <| w_links := <[path := target]> (w_links w) |>) w
  end.

Definition rename_link (old new : string) : io (fsworld E) unit := fun w =>
  match w_links w !! old with
  | None => (Err (ErrMsg "no such file or directory"), w)
  | Some target =>
      atomic (fun w => w <| w_links := <[new := target]> (delete old (w_links w)) |>) w
  end.

Definition open_directory (path : string) : io (fsworld E) unit := fun w =>
  if decide (path ∈ w_dirs w) then atomic id w else (Err (ErrMsg "no such file or directory"), w).

(** [filepath.EvalSymlinks]: Go follows at most 255 links. *)
Fixpoint eval_links (fuel : nat) (w : fsworld E) (path : string) : res string :=
  match w_links w !! path with
  | Some target =>
      match fuel with
      | O => Err (ErrMsg "EvalSymlinks: too many links")
      | S fuel => eval_links fuel w target
      end
  | None => if decide (path ∈ w_dirs w \/ is_Some (w_files w !! path)) then Ok path
            else Err (ErrMsg "no such file or directory")
  end.
Definition EvalSymlinks (path : string) : io (fsworld E) string := fun w => (eval_links 255 w path, w).

Definition syncDirectory (path : string) : io (fsworld E) unit :=
  run* open_directory path in sync.

Definition replaceSymlink (root target : string) : io (fsworld E) unit :=
  run* mkdir_all root in
  let temporary := Ingress.Join [root; ".current-new"] in
  run* remove_link temporary in
  run* symlink target temporary in
  run* (fun w =>
    match rename_link temporary (Ingress.Join [root; "current"]) w with
    | (Ok _, w') => (Ok tt, w')
    | (Err e, w') => (Err (ErrWrap "activate ingress generation" e), (remove_link temporary w').2)
    end) in
  syncDirectory root.
End file_system.

(** ** The transaction ([transaction.go]) *)
Record Candidate : Type := {
  cd_Generation : Z;
  cd_PreviousGeneration : Z;
  cd_Configuration : string;
  cd_SHA256 : string
}.
Definition zero_candidate : Candidate :=
  {| cd_Generation := 0; cd_PreviousGeneration := 0; cd_Configuration := ""; cd_SHA256 := "" |}.

Record Runtime (W : Type) : Type := {
  Prepare : Candidate -> io W unit;
  Validate : Candidate -> io W unit;
  Activate : Candidate -> io W unit;
  Verify : Candidate -> io W unit;
  Rollback : Candidate -> io W unit;
  VerifyGeneration : Z -> io W unit;
  Cleanup : Candidate -> io W unit
}.
Arguments Prepare {W} _ _ _.
Arguments Validate {W} _ _ _.
Arguments Activate {W} _ _ _.
Arguments Verify {W} _ _ _.
Arguments Rollback {W} _ _ _.
Arguments VerifyGeneration {W} _ _ _.
Arguments Cleanup {W} _ _ _.

Record ApplyError : Type := {
  ae_Code : string;
  ae_RolledBack : bool;
  ae_RecoveryNow : bool;
  ae_Cause : error
}.

Definition apply_error (code : string) (cause : error) : ApplyError :=
  {| ae_Code := code; ae_RolledBack := false; ae_RecoveryNow := false; ae_Cause := cause |}.
Definition recovery_error (code : string) (cause : error) : ApplyError :=
  {| ae_Code := code; ae_RolledBack := false; ae_RecoveryNow := true; ae_Cause := cause |}.

Definition ApplyError_Error (e : ApplyError) : string := ae_Code e +:+ ": " +:+ error_text (ae_Cause e).

Section manager.
Context {W : Type} (sha256_hex : string -> string) (rt : Runtime W).

Definition rollback (candidate : Candidate) (code : string) (cause : error) : W -> ApplyError * W := fun w =>
  match Rollback rt candidate w with
  | (Err err, w) =>
      (recovery_error "rollback_failed"
         (ErrMsg (code +:+ ": " +:+ error_text cause +:+ "; rollback: " +:+ error_text err)), w)
  | (Ok _, w) =>
      let rolled := {| ae_Code := code; ae_RolledBack := true; ae_RecoveryNow := false; ae_Cause := cause |} in
      if decide (0 < cd_PreviousGeneration candidate) then
        match VerifyGeneration rt (cd_PreviousGeneration candidate) w with
        | (Err err, w) =>
            (recovery_error "rollback_unverified"
               (ErrMsg (code +:+ ": " +:+ error_text cause +:+ "; rollback verification: " +:+
                        error_text err)), w)
        | (Ok _, w) => (rolled, w)
        end
      else (rolled, w)
  end.

Definition the_candidate (generation previous : Z) (configuration : string) : Candidate :=
  {| cd_Generation := generation; cd_PreviousGeneration := previous; cd_Configuration := configuration;
     cd_SHA256 := sha256_hex configuration |}.

Definition apply_candidate (candidate : Candidate) : W -> (Candidate * option ApplyError) * W := fun w =>
    match Prepare rt candidate w with
    | (Err e, w) => ((candidate, Some (apply_error "prepare_failed" e)), w)
    | (Ok _, w) =>
    match Validate rt candidate w with
    | (Err e, w) => ((candidate, Some (apply_error "validation_failed" e)), w)
    | (Ok _, w) =>
    match Activate rt candidate w with
    | (Err e, w) => let (e, w) := rollback candidate "activation_failed" e w in ((candidate, Some e), w)
    | (Ok _, w) =>
    match Verify rt candidate w with
    | (Err e, w) => let (e, w) := rollback candidate "verification_failed" e w in ((candidate, Some e), w)
    | (Ok _, w) =>
    match Cleanup rt candidate w with
    | (Err e, w) => ((candidate, Some (apply_error "cleanup_pending" e)), w)
    | (Ok _, w) => ((candidate, None), w)
    end end end end end.
End manager.

(** [Manager.Apply]; the runtime of a manager may be nil. *)
Definition Apply {W} (sha256_hex : string -> string) (rt : option (Runtime W)) (generation previous : Z) (configuration : string)
    : W -> (Candidate * option ApplyError) * W := fun w =>
  if decide (generation < 1 \/ previous < 0 \/ generation = previous \/ configuration = "" \/
             1024 * 1024 < Z.of_nat (String.length configuration))
  then ((zero_candidate, Some (apply_error "invalid_candidate" (ErrMsg "invalid ingress candidate"))), w)
  else match rt with
       | None => ((zero_candidate, Some (apply_error "invalid_candidate" (ErrMsg "invalid ingress candidate"))), w)
       | Some rt => apply_candidate rt (the_candidate sha256_hex generation previous configuration) w
       end.

(** ** The nginx runtime ([runtime.go]) *)
Definition defaultIngressRoot : string := "/var/lib/kitpro-helper/ingress".

Record NginxRuntime (E : Type) : Type := {
  Root : string;
  Check : option (string -> Z -> fsworld E -> res unit * E);
  Reload : option (fsworld E -> res unit * E);
  VerifyProcess : option (fsworld E -> res unit * E)
}.
Arguments Root {E} _.
Arguments Check {E} _.
Arguments Reload {E} _.
Arguments VerifyProcess {E} _.

Section nginx.
Context {E : Type} (n : NginxRuntime E).

(** A call of a function field; a nil one panics. *)
Definition external (f : option (fsworld E -> res unit * E)) : io (fsworld E) unit := fun w =>
  match f with
  | Some f => let (r, e) := f w in (r, w <| w_env := e |>)
  | None => (Err (ErrMsg "panic: call of nil function"), w)
  end.

Definition check (target : string) (generation : Z) : io (fsworld E) unit :=
  external ((fun f => f target generation) <$> Check n).

(** The default for an empty root is stored in a copy of the receiver. *)
Definition validate : res unit :=
  let root := if decide (Root n = "") then defaultIngressRoot else Root n in
  if negb (IsAbs root) || bool_decide (Clean root <> root) || bool_decide (Check n = None)
     || bool_decide (Reload n = None) || bool_decide (VerifyProcess n = None)
  then Err (ErrMsg "invalid ingress runtime") else Ok tt.

Definition generationPath (generation : Z) : res string :=
  rbind validate (fun _ =>
  if decide (generation < 1) then Err (ErrMsg "invalid ingress generation")
  else Ok (Ingress.Join [Root n; "generations"; itoa generation])).

Definition reload : io (fsworld E) unit := iwrap "reload KITPro ingress" (external (Reload n)).

(** Write, sync when the write succeeded, close in any case. *)
Definition write_and_close (path content : string) : io (fsworld E) unit := fun w =>
  let (written, w) := (run* write_file path content in sync) w in
  let (closed, w) := close w in
  match written, closed with
  | Err e, _ => (Err (ErrWrap "write ingress configuration" e), w)
  | Ok _, Err e => (Err (ErrWrap "close ingress configuration" e), w)
  | Ok _, Ok _ => (Ok tt, w)
  end.

Definition n_Prepare (candidate : Candidate) : io (fsworld E) unit :=
  io* path := ilift (generationPath (cd_Generation candidate)) in
  run* iwrap "prepare ingress run directory" (mkdir_all (Ingress.Join [path; "run"])) in
  run* iwrap "prepare ingress log directory" (mkdir_all (Ingress.Join [path; "logs"])) in
  let configPath := Ingress.Join [path; "nginx.conf"] in
  run* iwrap "prepare ingress configuration" (create_exclusive configPath) in
  run* write_and_close configPath (cd_Configuration candidate) in
  syncDirectory path.

Definition n_Validate (candidate : Candidate) : io (fsworld E) unit :=
  run* ilift (generationPath (cd_Generation candidate)) in
  iwrap "nginx candidate rejected" (check "generation" (cd_Generation candidate)).

Definition n_Activate (candidate : Candidate) : io (fsworld E) unit :=
  io* path := ilift (generationPath (cd_Generation candidate)) in
  run* replaceSymlink (Root n) path in reload.

Definition n_VerifyGeneration (generation : Z) : io (fsworld E) unit :=
  io* path := ilift (generationPath generation) in
  run* (fun w =>
    match EvalSymlinks (Ingress.Join [Root n; "current"]) w with
    | (Ok current, w) => if decide (current = path) then (Ok tt, w)
                         else (Err (ErrMsg "active ingress generation does not match"), w)
    | (Err _, w) => (Err (ErrMsg "active ingress generation does not match"), w)
    end) in
  run* iwrap "active nginx configuration failed verification" (check "generation" generation) in
  fun w => match external (VerifyProcess n) w with
           | (Ok _, w) => (Ok tt, w)
           | (Err _, w) => (Err (ErrMsg "managed nginx process is unavailable"), w)
           end.

Definition n_Verify (candidate : Candidate) : io (fsworld E) unit := n_VerifyGeneration (cd_Generation candidate).

Definition n_Rollback (candidate : Candidate) : io (fsworld E) unit :=
  if decide (cd_PreviousGeneration candidate = 0) then
    run* replaceSymlink (Root n) (Ingress.Join [Root n; "bootstrap"]) in reload
  else
    io* path := ilift (generationPath (cd_PreviousGeneration candidate)) in
    run* replaceSymlink (Root n) path in reload.

Definition ReloadAndVerifyCurrent : io (fsworld E) unit :=
  run* ilift validate in
  run* iwrap "active nginx configuration failed verification" (check "current" 0) in
  run* reload in
  fun w => match external (VerifyProcess n) w with
           | (Ok _, w) => (Ok tt, w)
           | (Err _, w) => (Err (ErrMsg "managed nginx process is unavailable"), w)
           end.

Definition n_Cleanup (candidate : Candidate) : io (fsworld E) unit :=
  if decide (cd_PreviousGeneration candidate = 0) then iret tt
  else run* ilift (generationPath (cd_PreviousGeneration candidate)) in iret tt.

Definition nginx : Runtime (fsworld E) :=
  {| Prepare := n_Prepare; Validate := n_Validate; Activate := n_Activate; Verify := n_Verify;
     Rollback := n_Rollback; VerifyGeneration := n_VerifyGeneration; Cleanup := n_Cleanup |}.
End nginx.

(** ** Processes and entries *)

(** [strconv.ParseInt(s, 10, 64)] *)
Fixpoint decimal (s : list N) (acc : Z) : option Z :=
  match s with
  | [] => Some acc
  | c :: s => if is_digit c then decimal s (acc * 10 + Z.of_N (c - 48)) else None
  end.

Definition MaxInt64 : Z := 2 ^ 63 - 1.

Definition ParseInt (s : string) : option Z :=
  let (sign, digits) := match text s with
                        | 43%N :: ds => (1, ds)
                        | 45%N :: ds => (-1, ds)
                        | ds => (1, ds)
                        end in
  match digits with
  | [] => None
  | _ => match decimal digits 0 with
         | Some v => if decide (- 2 ^ 63 <= sign * v <= MaxInt64) then Some (sign * v) else None
         | None => None
         end
  end.

Definition TrimSpace (s : string) : string :=
  String.concat "" (Coordinator.trim_space (Coordinator.runes (String.length s) s)).

(** [verifyManagedNginx]; [read] is [os.ReadFile]. *)
Definition verifyManagedNginx (read : string -> res string) (pidPath : string) : res unit :=
  rbind (read pidPath) (fun raw =>
  match ParseInt (TrimSpace raw) with
  | Some pid =>
      if decide (pid < 2) then Err (ErrMsg "invalid managed nginx PID")
      else match read (Ingress.Join ["/proc"; itoa pid; "comm"]) with
           | Ok command => if decide (TrimSpace command = "nginx") then Ok tt
                           else Err (ErrMsg "managed nginx process is unavailable")
           | Err _ => Err (ErrMsg "managed nginx process is unavailable")
           end
  | None => Err (ErrMsg "invalid managed nginx PID")
  end).

Definition NewNginxRuntime {E} (check : string -> Z -> fsworld E -> res unit * E)
    (reload verify : fsworld E -> res unit * E) : NginxRuntime E :=
  {| Root := defaultIngressRoot; Check := Some check; Reload := Some reload; VerifyProcess := Some verify |}.

(** The loop of [NextUnusedGeneration] over the entries of the directory. *)
Fixpoint next_unused (entries : list string) (next : Z) : res Z :=
  match entries with
  | [] => Ok next
  | name :: entries =>
      match ParseInt name with
      | Some n => if decide (n < next) then next_unused entries next
                  else if decide (n = MaxInt64) then Err (ErrMsg "ingress generation exhausted")
                  else next_unused entries (n + 1)
      | None => next_unused entries next
      end
  end.

(** [os.ReadDir]: [None] when the directory does not exist, [Some (Err _)] when
    it cannot be read. *)
Definition NextUnusedGeneration (readDir : string -> option (res (list string))) (root : string)
    (minimum : Z) : res Z :=
  if decide (minimum < 1) then Err (ErrMsg "invalid ingress generation")
  else match readDir (Ingress.Join [root; "generations"]) with
       | None => Ok minimum
       | Some (Err e) => Err e
       | Some (Ok entries) => next_unused entries minimum
       end.

(** ** The validator process ([validator.go]) *)
Definition validValidationTarget (target : string) (generation : Z) : bool :=
  bool_decide (target = "current" /\ generation = 0) || bool_decide (target = "generation" /\ 0 < generation).

(** [ValidatorWorker.validate]; [run] executes a program with arguments. *)
Definition worker_validate (run : string -> list string -> res string) (root target : string) (generation : Z)
    : res unit :=
  if negb (validValidationTarget target generation) then Err (ErrMsg "invalid validation target")
  else
    let root := if decide (root = "") then defaultIngressRoot else root in
    if negb (IsAbs root) || bool_decide (Clean root <> root) then Err (ErrMsg "invalid ingress runtime")
    else
      let config := if decide (target = "generation")
                    then Ingress.Join ["generations"; itoa generation; "nginx.conf"]
                    else "current/nginx.conf" in
      match run "/usr/sbin/nginx" ["-t"; "-p"; root +:+ "/"; "-c"; config] with
      | Ok _ => Ok tt
      | Err _ => Err (ErrMsg "nginx configuration validation failed")
      end.

Example next_unused_forms :
  (next_unused ["1"; "10"; "9"; "x"; "-3"; "+11"] 4, next_unused ["9223372036854775807"] 1,
   next_unused ["9223372036854775808"] 1) =
  (Ok 12, Err (ErrMsg "ingress generation exhausted"), Ok 1).
Proof. vm_compute. reflexivity. Qed.

Example nginx_arguments :
  worker_validate (fun program args => if decide (args = ["-t"; "-p"; "/srv/"; "-c"; "generations/7/nginx.conf"])
                                       then Ok program else Err (ErrMsg "")) "/srv" "generation" 7 = Ok tt.
Proof. vm_compute. reflexivity. Qed.
