(* ===== verification/IngressSwitch.v ===== *)
(** * What applying a generation does to the active one

    The contract between the transaction and its runtime ([Switch]): only
    activation and rollback move the active configuration, and only where they
    say.  The transaction is proved against the contract; the nginx runtime is
    proved to satisfy it whatever system calls fail. *)

From S2P Require Import Prelude Protocol NetIP ExposurePolicy Ingress IngressProofs IngressRender IngressRuntime.
From stdpp Require Import base gmap strings list.
From Stdlib Require Import ZArith Lia Ascii Bool.

Open Scope Z_scope.

(** ** The contract *)
Class Switch {W : Type} (rt : Runtime W) (current : W -> option string) (place : Z -> string)
    (holds : Candidate -> W -> Prop) : Prop := {
  prepare_still : forall c w, current (Prepare rt c w).2 = current w;
  prepare_holds : forall c w w', Prepare rt c w = (Ok tt, w') -> holds c w';
  validate_still : forall c w, current (Validate rt c w).2 = current w;
  validate_keeps : forall c c' w, holds c w -> holds c (Validate rt c' w).2;
  activate_moves : forall c w, current (Activate rt c w).2 = current w \/
                               current (Activate rt c w).2 = Some (place (cd_Generation c));
  activate_done : forall c w w', Activate rt c w = (Ok tt, w') -> current w' = Some (place (cd_Generation c));
  activate_keeps : forall c c' w, holds c w -> holds c (Activate rt c' w).2;
  verify_still : forall c w, current (Verify rt c w).2 = current w;
  verify_keeps : forall c c' w, holds c w -> holds c (Verify rt c' w).2;
  rollback_moves : forall c w, current (Rollback rt c w).2 = current w \/
                               current (Rollback rt c w).2 = Some (place (cd_PreviousGeneration c));
  rollback_done : forall c w w',
    Rollback rt c w = (Ok tt, w') -> current w' = Some (place (cd_PreviousGeneration c));
  verify_generation_still : forall g w, current (VerifyGeneration rt g w).2 = current w;
  cleanup_still : forall c w, current (Cleanup rt c w).2 = current w;
  cleanup_keeps : forall c c' w, holds c w -> holds c (Cleanup rt c' w).2
}.

(** ** The transaction against the contract *)
Section transaction.
Context {W : Type} (rt : Runtime W) (current : W -> option string) (place : Z -> string)
        (holds : Candidate -> W -> Prop) `{!Switch rt current place holds}.

Notation new c := (Some (place (cd_Generation c))).
Notation old c := (Some (place (cd_PreviousGeneration c))).

(** The classification of a failed apply by where it leaves the active
    configuration, [before] it and after. *)
Definition failure_leaves (c : Candidate) (before after : option string) (e : ApplyError) : Prop :=
  (ae_RolledBack e = true /\ ae_RecoveryNow e = false /\ after = old c) \/
  (ae_RolledBack e = false /\ ae_RecoveryNow e = true /\
   (after = before \/ after = new c \/ after = old c)) \/
  (ae_RolledBack e = false /\ ae_RecoveryNow e = false /\
   ((ae_Code e = "cleanup_pending" /\ after = new c) \/
    (ae_Code e ∈ ["invalid_candidate"; "prepare_failed"; "validation_failed"] /\ after = before))).

Lemma rollback_leaves c code cause w before :
  current w = before \/ current w = new c ->
  failure_leaves c before (current (rollback rt c code cause w).2) (rollback rt c code cause w).1.
Proof.
  intros Hb. unfold rollback, failure_leaves.
  pose proof (rollback_moves c w) as Hm. pose proof (rollback_done c w) as Hd.
  destruct (Rollback rt c w) as [[[]|err] w1]; cbn in *.
  - specialize (Hd w1 eq_refl). case_decide; [|by left].
    pose proof (verify_generation_still (cd_PreviousGeneration c) w1) as Hv.
    destruct (VerifyGeneration rt (cd_PreviousGeneration c) w1) as [[[]|err] w2]; cbn in *.
    + left. by rewrite Hv.
    + right. left. rewrite Hv. auto.
  - right. left. split_and!; try done. destruct Hm as [-> | ->]; naive_solver.
Qed.

(** What a run of [apply_candidate] did. *)
Definition apply_leaves (c : Candidate) (w : W) (result : option ApplyError) (w' : W) : Prop :=
  match result with
  | None => current w' = new c /\ holds c w' /\ exists w1 w2, Verify rt c w1 = (Ok tt, w2) /\ current w1 = new c
  | Some e => failure_leaves c (current w) (current w') e
  end /\
  (current w' <> current w ->
   exists w1 w2, Prepare rt c w = (Ok tt, w1) /\ Validate rt c w1 = (Ok tt, w2) /\ holds c w2).

Lemma apply_candidate_leaves c w :
  apply_leaves c w (apply_candidate rt c w).1.2 (apply_candidate rt c w).2.
Proof.
  unfold apply_leaves, apply_candidate.
  pose proof (prepare_still c w) as HP. pose proof (prepare_holds c w) as HPh.
  destruct (Prepare rt c w) as [[[]|e] w1]; cbn [fst snd] in *; [|split; [right; right; set_solver | done]].
  specialize (HPh w1 eq_refl).
  pose proof (validate_still c w1) as HV. pose proof (validate_keeps c c w1 HPh) as HVh.
  destruct (Validate rt c w1) as [[[]|e] w2] eqn:EV; cbn [fst snd] in *;
    [|split; [right; right; rewrite HV; set_solver | congruence]].
  assert (forall P Q : Prop, P -> P /\ (Q -> exists w1' w2', (Ok tt, w1) = (Ok tt, w1') /\
            Validate rt c w1' = (Ok tt, w2') /\ holds c w2')) as Hpre
    by (intros P Q HPq; split; [done|]; intros _; eauto 6).
  pose proof (activate_moves c w2) as HA. pose proof (activate_done c w2) as HAd.
  pose proof (activate_keeps c c w2 HVh) as HAh.
  destruct (Activate rt c w2) as [[[]|e] w3]; cbn [fst snd] in *.
  2:{ pose proof (rollback_leaves c "activation_failed" e w3 (current w)) as HR.
      destruct (rollback rt c _ e w3) as [e' w4]; cbn [fst snd] in *. apply Hpre, HR.
      rewrite HV, HP in HA. done. }
  specialize (HAd w3 eq_refl).
  pose proof (verify_still c w3) as Hf. pose proof (verify_keeps c c w3 HAh) as Hfh.
  destruct (Verify rt c w3) as [[[]|e] w4] eqn:EVf; cbn [fst snd] in *.
  2:{ pose proof (rollback_leaves c "verification_failed" e w4 (current w)) as HR.
      destruct (rollback rt c _ e w4) as [e' w5]; cbn [fst snd] in *. apply Hpre, HR.
      right. congruence. }
  pose proof (cleanup_still c w4) as Hc. pose proof (cleanup_keeps c c w4 Hfh) as Hch.
  destruct (Cleanup rt c w4) as [[[]|e] w5]; cbn [fst snd] in *; apply Hpre.
  - split_and!; [congruence | done | eauto].
  - right. right. split_and!; try done. left. split; [done | congruence].
Qed.
End transaction.

(** ** Reasoning about the file system *)
Definition ends {W A} (m : io W A) (Q : res A -> W -> Prop) (w : W) : Prop := Q (m w).1 (m w).2.

Section ends.
Context {W : Type}.
Lemma ends_mono {A} (m : io W A) (Q Q' : res A -> W -> Prop) w :
  ends m Q w -> (forall r w', Q r w' -> Q' r w') -> ends m Q' w.
Proof. unfold ends. auto. Qed.

Lemma ends_bind {A B} (m : io W A) (f : A -> io W B) Q w :
  ends m (fun r w' => match r with Ok a => ends (f a) Q w' | Err e => Q (Err e) w' end) w -> ends (ibind m f) Q w.
Proof. unfold ends, ibind. by destruct (m w) as [[a|e] w']. Qed.

Lemma ends_wrap {A} msg (m : io W A) Q w :
  ends m (fun r w' => match r with Ok a => Q (Ok a) w' | Err e => Q (Err (ErrWrap msg e)) w' end) w ->
  ends (iwrap msg m) Q w.
Proof. unfold ends, iwrap. by destruct (m w) as [[a|e] w']. Qed.

Lemma ends_lift {A} (r : res A) (Q : res A -> W -> Prop) w : Q r w -> ends (ilift r) Q w.
Proof. done. Qed.
End ends.

Section nginx_switch.
Context {E : Type}.
Implicit Types (w : fsworld E).

Lemma ends_syscall full (effect : nat -> fsworld E -> fsworld E) Q w :
  (forall s, Q (Ok tt) (effect full (w <| w_script := s |>))) ->
  (forall n s, Q (Err io_error) (effect n (w <| w_script := s |>))) ->
  ends (syscall full effect) Q w.
Proof.
  intros H1 H2. unfold ends, syscall. destruct w as [files links dirs [|[|n] s] env]; cbn.
  - apply (H1 []).
  - apply (H1 s).
  - apply (H2 (n `min` full)%nat s).
Qed.

Lemma ends_atomic (f : fsworld E -> fsworld E) Q w :
  (forall s, Q (Ok tt) (f (w <| w_script := s |>)) /\ Q (Err io_error) (f (w <| w_script := s |>)) /\
             Q (Err io_error) (w <| w_script := s |>)) ->
  ends (atomic f) Q w.
Proof.
  intros H. apply ends_syscall; [intros s; apply H|]. intros n s. case_decide; apply H.
Qed.

(** Calls that leave files and links alone. *)
Definition quiet {A} (m : io (fsworld E) A) : Prop :=
  forall w, w_files (m w).2 = w_files w /\ w_links (m w).2 = w_links w.

Lemma quiet_atomic f :
  (forall w, w_files (f w) = w_files w /\ w_links (f w) = w_links w) -> quiet (atomic f).
Proof.
  intros H w. refine (ends_atomic f (fun _ w' => w_files w' = w_files w /\ w_links w' = w_links w) w _).
  intros s. destruct (H (w <| w_script := s |>)) as [-> ->]. done.
Qed.

Lemma quiet_bind {A B} (m : io (fsworld E) A) (f : A -> io (fsworld E) B) :
  quiet m -> (forall a, quiet (f a)) -> quiet (ibind m f).
Proof.
  intros Hm Hf w. unfold ibind. specialize (Hm w). destruct (m w) as [[a|e] w']; cbn in *; [|done].
  specialize (Hf a w'). by destruct Hf as [-> ->].
Qed.

Lemma quiet_wrap {A} msg (m : io (fsworld E) A) : quiet m -> quiet (iwrap msg m).
Proof. intros Hm w. unfold iwrap. specialize (Hm w). by destruct (m w) as [[a|e] w']. Qed.

Lemma quiet_lift {A} (r : res A) : quiet (ilift r).
Proof. by intros w. Qed.

Lemma quiet_external f : quiet (@external E f).
Proof. intros w. unfold external. destruct f as [f|]; [|done]. by destruct (f w). Qed.

Lemma quiet_mkdir path : quiet (@mkdir_all E path).
Proof. by apply quiet_atomic. Qed.

Lemma quiet_sync_directory path : quiet (@syncDirectory E path).
Proof.
  apply quiet_bind; [|intros _; by apply quiet_atomic].
  intros w. unfold open_directory. case_decide; [|done]. by apply quiet_atomic.
Qed.

Lemma quiet_process f :
  quiet (fun w : fsworld E => match external f w with
                            | (Ok _, w) => (Ok tt, w)
                            | (Err _, w) => (Err (ErrMsg "managed nginx process is unavailable"), w)
                            end).
Proof. intros w. pose proof (quiet_external f w). by destruct (external f w) as [[]]. Qed.

(** Calls that leave the files and one link alone. *)
Definition spares (cur : string) {A} (m : io (fsworld E) A) : Prop :=
  forall w, w_files (m w).2 = w_files w /\ w_links (m w).2 !! cur = w_links w !! cur.

Lemma quiet_spares cur {A} (m : io (fsworld E) A) : quiet m -> spares cur m.
Proof. intros Hm w. by destruct (Hm w) as [-> ->]. Qed.

Lemma spares_atomic cur f :
  (forall w, w_files (f w) = w_files w /\ w_links (f w) !! cur = w_links w !! cur) -> spares cur (atomic f).
Proof.
  intros H w. refine (ends_atomic f (fun _ w' => w_files w' = w_files w /\ w_links w' !! cur = w_links w !! cur) w _).
  intros s. destruct (H (w <| w_script := s |>)) as [-> ->]. done.
Qed.

Lemma spares_remove cur path : path <> cur -> spares cur (@remove_link E path).
Proof.
  intros Hne w. unfold remove_link. destruct (w_links w !! path); [|done].
  assert (spares cur (atomic (fun w : fsworld E => w <| w_links := delete path (w_links w) |>))) as Ha.
  { apply spares_atomic. intros w'. split; [done|]. cbn. by rewrite lookup_delete_ne. }
  specialize (Ha w). by destruct (atomic _ w) as [[]].
Qed.

Lemma spares_symlink cur target path : path <> cur -> spares cur (@symlink E target path).
Proof.
  intros Hne w. unfold symlink. destruct (w_links w !! path); [done|].
  refine (spares_atomic cur _ _ w). intros w'. split; [done|]. cbn. by rewrite lookup_insert_ne.
Qed.

Lemma symlink_done target path w w' :
  @symlink E target path w = (Ok tt, w') -> w_links w' !! path = Some target.
Proof.
  unfold symlink. destruct (w_links w !! path); [done|]. intros H.
  assert (ends (atomic (fun w : fsworld E => w <| w_links := <[path := target]> (w_links w) |>))
            (fun r w' => r = Ok tt -> w_links w' !! path = Some target) w) as Hw.
  { apply ends_atomic. intros s. split_and!; try done. intros _. cbn. by rewrite lookup_insert_eq. }
  unfold ends in Hw. rewrite H in Hw. by apply Hw.
Qed.

(** Renaming moves the link, or leaves it and fails. *)
Definition moves (cur target : string) (before : fsworld E) {A} (r : res A) (after : fsworld E) : Prop :=
  w_files after = w_files before /\
  (w_links after !! cur = Some target \/ (w_links after !! cur = w_links before !! cur /\ is_ok r = false)).

Lemma rename_moves tmp cur target w :
  w_links w !! tmp = Some target -> ends (rename_link tmp cur) (moves cur target w) w.
Proof.
  intros Ht. unfold ends, rename_link. rewrite Ht. apply ends_atomic. intros s. unfold moves. cbn.
  rewrite lookup_insert_eq. split_and!; try done; [by left | by left | by right].
Qed.

Lemma moves_after cur target w w1 {A B} (m : io (fsworld E) A) (r : res B) :
  spares cur m -> is_ok r = true -> moves cur target w r w1 -> moves cur target w (m w1).1 (m w1).2.
Proof.
  intros Hm Hr [Hf Hl]. destruct (Hm w1) as [Hf' Hl']. split; [congruence|].
  left. rewrite Hl'. destruct Hl as [?|[_ ?]]; congruence.
Qed.

(** Replacing the link: it moves to the target or stays, and moves when the
    call reports success. *)
Lemma replace_symlink root target w :
  Ingress.Join [root; ".current-new"] <> Ingress.Join [root; "current"] ->
  ends (replaceSymlink root target) (moves (Ingress.Join [root; "current"]) target w) w.
Proof.
  set (tmp := Ingress.Join _). set (cur := Ingress.Join [root; "current"]). intros Hne.
  assert (forall A (m : io (fsworld E) A) (w1 : fsworld E) (Q : A -> fsworld E -> Prop),
            w_files w1 = w_files w -> w_links w1 !! cur = w_links w !! cur -> spares cur m ->
            (forall a w2, m w1 = (Ok a, w2) -> w_files w2 = w_files w -> w_links w2 !! cur = w_links w !! cur ->
               Q a w2) ->
            ends m (fun r w2 => match r with Ok a => Q a w2 | Err e => moves cur target w (@Err unit e) w2 end) w1)
    as Hstep.
  { intros A m w1 Q Hf Hl Hm HQ. destruct (Hm w1) as [Hf2 Hl2]. unfold ends.
    destruct (m w1) as [[a|e] w2]; cbn in *; [apply HQ; congruence|].
    split; [congruence | right; split; [congruence | done]]. }
  unfold replaceSymlink. fold tmp cur.
  apply ends_bind, Hstep; [done | done | apply quiet_spares, quiet_mkdir |]. intros _ w1 _ Hf1 Hl1.
  apply ends_bind, Hstep; [done | done | by apply spares_remove |]. intros _ w2 _ Hf2 Hl2.
  apply ends_bind, Hstep; [done | done | by apply spares_symlink |]. intros [] w3 Hs Hf3 Hl3.
  apply ends_bind. apply symlink_done in Hs. pose proof (rename_moves tmp cur target w3 Hs) as [Hf4 Hl4].
  unfold ends at 1. destruct (rename_link tmp cur w3) as [[[]|e] w4]; cbn [fst snd] in *.
  - refine (moves_after cur target w w4 _ (Ok tt) _ _ _); [apply quiet_spares, quiet_sync_directory | done |].
    split; [congruence|]. destruct Hl4 as [?|[_ ?]]; [by left | done].
  - destruct (spares_remove cur tmp Hne w4) as [Hf5 Hl5]. split; [congruence|].
    destruct Hl4 as [?|[? _]]; [left | right; split; [|done]]; congruence.
Qed.

(** Calls that leave the links alone. *)
Definition links_kept {A} (m : io (fsworld E) A) : Prop := forall w, w_links (m w).2 = w_links w.

Lemma kept_bind {A B} (m : io (fsworld E) A) (f : A -> io (fsworld E) B) :
  links_kept m -> (forall a, links_kept (f a)) -> links_kept (ibind m f).
Proof.
  intros Hm Hf w. unfold ibind. specialize (Hm w). destruct (m w) as [[a|e] w']; cbn in *; [|done].
  by rewrite Hf.
Qed.

Lemma kept_wrap {A} msg (m : io (fsworld E) A) : links_kept m -> links_kept (iwrap msg m).
Proof. intros Hm w. unfold iwrap. specialize (Hm w). by destruct (m w) as [[a|e] w']. Qed.

Lemma quiet_kept {A} (m : io (fsworld E) A) : quiet m -> links_kept m.
Proof. intros Hm w. apply Hm. Qed.

Lemma kept_create path : links_kept (@create_exclusive E path).
Proof.
  intros w. unfold create_exclusive. case_decide; [done|].
  apply (ends_atomic _ (fun _ w' => w_links w' = w_links w)). by intros s.
Qed.

Lemma kept_write path content : links_kept (@write_file E path content).
Proof. intros w. by apply (ends_syscall _ _ (fun _ w' => w_links w' = w_links w)). Qed.

Lemma kept_sync : links_kept (@sync E).
Proof. by apply quiet_kept, quiet_atomic. Qed.

Lemma kept_write_close path content : links_kept (@write_and_close E path content).
Proof.
  intros w. unfold write_and_close.
  pose proof (kept_bind (write_file path content) (fun _ => sync) (kept_write _ _) (fun _ => kept_sync) w) as H1.
  destruct (ibind _ _ w) as [r1 w1]; cbn in H1.
  pose proof (kept_sync w1) as H2. change (@sync E) with (@close E) in H2.
  destruct (close w1) as [r2 w2]; cbn in H2. destruct r1, r2; cbn; congruence.
Qed.

Lemma substring_all s : String.substring 0 (String.length s) s = s.
Proof. induction s as [|c s IH]; cbn; [done|]. by rewrite IH. Qed.

(** When write, sync and close report no error the file has the content. *)
Lemma write_close_done path content w w' :
  @write_and_close E path content w = (Ok tt, w') -> w_files w' !! path = Some content.
Proof.
  unfold write_and_close. intros H.
  assert (ends (run* write_file path content in sync)
            (fun r w1 => is_ok r = true -> w_files w1 !! path = Some content) w) as Hw.
  { apply ends_bind, ends_syscall; [|done]. intros s. cbn.
    destruct (quiet_atomic id (fun _ => conj eq_refl eq_refl)
      (w <| w_script := s |> <| w_files := <[path := String.substring 0 (String.length content) content]> (w_files w) |>))
      as [Hf _].
    unfold ends, sync. intros _. rewrite Hf. cbn. by rewrite lookup_insert_eq, substring_all. }
  unfold ends in Hw. destruct (ibind _ _ w) as [r1 w1]; cbn in Hw.
  destruct (quiet_atomic id (fun _ => conj eq_refl eq_refl) w1) as [Hf _].
  change (atomic id w1) with (close w1) in Hf.
  destruct (close w1) as [r2 w2]; cbn in Hf. destruct r1, r2; cbn in H; try done.
  injection H as <-. rewrite Hf. by apply Hw.
Qed.
End nginx_switch.

(** ** The nginx runtime satisfies the contract *)
Section nginx_contract.
Context {E : Type} (n : NginxRuntime E) (Hroot : clean_abs (Root n)).

Definition active_link (w : fsworld E) : option string := w_links w !! Ingress.Join [Root n; "current"].

(** Where a generation lives; generation 0 is the bootstrap configuration. *)
Definition place (g : Z) : string :=
  if decide (g = 0) then Ingress.Join [Root n; "bootstrap"]
  else Ingress.Join [Root n; "generations"; itoa g].

Definition config_in_place (c : Candidate) (w : fsworld E) : Prop :=
  w_files w !! Ingress.Join [place (cd_Generation c); "nginx.conf"] = Some (cd_Configuration c).

Lemma generationPath_Ok g path : generationPath n g = Ok path -> path = place g /\ 1 <= g.
Proof.
  unfold generationPath, place. rewrite rbind_Ok. intros (_ & _ & H). case_decide; [done|].
  injection H as <-. rewrite decide_False by lia. split; [done | lia].
Qed.

Lemma link_names_differ : Ingress.Join [Root n; ".current-new"] <> Ingress.Join [Root n; "current"].
Proof.
  rewrite !join_child; try done; [|by split_and!; try done; refine (bool_decide_unpack _ _)..].
  intros H. apply (f_equal (fun s => rev (text s))) in H. unfold child in H.
  rewrite !text_app, !rev_app_distr in H. done.
Qed.

Lemma quiet_check target g : quiet (check n target g).
Proof. apply quiet_external. Qed.

Lemma quiet_reload : quiet (reload n).
Proof. apply quiet_wrap, quiet_external. Qed.

Lemma quiet_verify_generation g : quiet (n_VerifyGeneration n g).
Proof.
  apply quiet_bind; [apply quiet_lift|]. intros path. apply quiet_bind.
  { intros w. unfold EvalSymlinks. destruct (eval_links 255 w _); [by case_decide | done]. }
  intros _. apply quiet_bind; [apply quiet_wrap, quiet_check|]. intros _. apply quiet_process.
Qed.

Lemma kept_prepare c : links_kept (n_Prepare n c).
Proof.
  apply kept_bind; [by apply quiet_kept, quiet_lift|]. intros path.
  apply kept_bind; [apply kept_wrap, quiet_kept, quiet_mkdir|]. intros _.
  apply kept_bind; [apply kept_wrap, quiet_kept, quiet_mkdir|]. intros _.
  apply kept_bind; [apply kept_wrap, kept_create|]. intros _.
  apply kept_bind; [apply kept_write_close|]. intros _.
  apply quiet_kept, quiet_sync_directory.
Qed.

(** A link replacement followed by the reload. *)
Lemma switch_moves target w :
  ends (run* replaceSymlink (Root n) target in reload n)
     (moves (Ingress.Join [Root n; "current"]) target w) w.
Proof.
  apply ends_bind. eapply ends_mono; [apply replace_symlink, link_names_differ|].
  intros [[]|e] w1 Hm; [|done].
  refine (moves_after _ target w w1 _ (Ok tt) _ _ Hm); [apply quiet_spares, quiet_reload | done].
Qed.

Lemma activate_ends c w :
  ends (n_Activate n c) (moves (Ingress.Join [Root n; "current"]) (place (cd_Generation c)) w) w.
Proof.
  apply ends_bind, ends_lift. destruct (generationPath n (cd_Generation c)) as [path|e] eqn:Hp.
  - apply generationPath_Ok in Hp as [-> _]. apply switch_moves.
  - split; [done | by right].
Qed.

Lemma rollback_ends c w :
  ends (n_Rollback n c) (moves (Ingress.Join [Root n; "current"]) (place (cd_PreviousGeneration c)) w) w.
Proof.
  unfold n_Rollback. case_decide as H0.
  - rewrite H0. apply switch_moves.
  - apply ends_bind, ends_lift. destruct (generationPath n (cd_PreviousGeneration c)) as [path|e] eqn:Hp.
    + apply generationPath_Ok in Hp as [-> _]. apply switch_moves.
    + split; [done | by right].
Qed.

Lemma quiet_cleanup c : quiet (n_Cleanup n c).
Proof.
  unfold n_Cleanup. case_decide; [by intros w|]. by apply quiet_bind; [apply quiet_lift|].
Qed.

Lemma quiet_validate c : quiet (n_Validate n c).
Proof. apply quiet_bind; [apply quiet_lift|]. intros _. apply quiet_wrap, quiet_check. Qed.

Lemma prepare_done c w w' : n_Prepare n c w = (Ok tt, w') -> config_in_place c w'.
Proof.
  unfold n_Prepare, ibind at 1, ilift.
  destruct (generationPath n (cd_Generation c)) as [path|] eqn:Hp; [|done].
  apply generationPath_Ok in Hp as [-> _]. unfold ibind at 1. destruct (iwrap _ _ w) as [[[]|] w1]; [|done].
  unfold ibind at 1. destruct (iwrap _ _ w1) as [[[]|] w2]; [|done].
  unfold ibind at 1. destruct (iwrap _ _ w2) as [[[]|] w3]; [|done].
  unfold ibind at 1. destruct (write_and_close _ _ w3) as [[[]|] w4] eqn:Hw; [|done].
  apply write_close_done in Hw. intros Hs. unfold config_in_place.
  destruct (quiet_sync_directory (place (cd_Generation c)) w4) as [Hf _]. rewrite Hs in Hf. cbn in Hf.
  by rewrite Hf.
Qed.

#[export] Instance nginx_switches : Switch (nginx n) active_link place config_in_place.
Proof.
  assert (forall A (m : io (fsworld E) A) c w, quiet m -> config_in_place c w -> config_in_place c (m w).2) as Hk
    by (intros A m c w Hq; unfold config_in_place; by destruct (Hq w) as [-> _]).
  assert (forall A (m : io (fsworld E) A) w, quiet m -> active_link (m w).2 = active_link w) as Hs
    by (intros A m w Hq; unfold active_link; by destruct (Hq w) as [_ ->]).
  split; cbn [nginx Prepare Validate Activate Verify Rollback VerifyGeneration Cleanup]; intros;
    eauto using prepare_done, quiet_validate, quiet_verify_generation, quiet_cleanup.
  - unfold active_link. by rewrite kept_prepare.
  - destruct (activate_ends c w) as [_ [?|[? _]]]; auto.
  - destruct (activate_ends c w) as [_ Hm]. rewrite H in Hm. cbn in Hm. by destruct Hm as [?|[_ ?]].
  - unfold config_in_place. destruct (activate_ends c' w) as [-> _]. done.
  - destruct (rollback_ends c w) as [_ [?|[? _]]]; auto.
  - destruct (rollback_ends c w) as [_ Hm]. rewrite H in Hm. cbn in Hm. by destruct Hm as [?|[_ ?]].
Qed.

(** What a successful verification has seen: the link leads to the generation,
    and the checker and the process check accepted it. *)
Lemma verify_sees g w w' :
  n_VerifyGeneration n g w = (Ok tt, w') ->
  eval_links 255 w (Ingress.Join [Root n; "current"]) = Ok (place g) /\
  exists f, Check n = Some f /\ (f "generation" g w).1 = Ok tt.
Proof.
  unfold n_VerifyGeneration, ibind at 1, ilift.
  destruct (generationPath n g) as [path|] eqn:Hp; [|done]. apply generationPath_Ok in Hp as [-> _].
  unfold ibind at 1, EvalSymlinks. destruct (eval_links 255 w _) as [cur|]; [|done].
  case_decide as Hc; [|done]. subst cur. unfold ibind at 1, iwrap, check, external.
  destruct (Check n) as [f|]; cbn; [|done]. destruct (f "generation" g w) as [[[]|] e] eqn:Hf; [|done].
  intros _. split; [done|]. exists f. by rewrite Hf.
Qed.
End nginx_contract.
