(* ===== verification/Manifest.v ===== *)
(** * Application manifests ([internal/manifest/manifest.go], [catalog.go])

    The catalogue's manifests: their data, the validation every manifest passes
    before it is used, the inventory of credentials shown to administrators,
    the resolution of a manifest and a release into a plan, parsing and the
    loading of the catalogue.

    [url.ParseRequestURI], the JSON decoder and the quoting of the [%q] verb
    are arguments.  Go [int]s are integers; every number is compared with
    constants only. *)

From S2P Require Import Prelude Protocol Coordinator NetIP ExposurePolicy Ingress.
From stdpp Require Import base strings list gmap.
From Stdlib Require Import ZArith Lia Ascii.

Open Scope Z_scope.

(** ** Guards and loops

    [refuse P with msg in k] is [if P { return fmt.Errorf(msg) }; k] and
    [ensure c in k] is [if err := c; err != nil { return err }; k].
    [range body s l] is [for _, x := range l { ... }] whose body updates a
    state [s] or returns an error. *)
Notation "'refuse' P 'with' msg 'in' k" := (if decide P then Err (ErrMsg msg) else k)
  (at level 200, P at level 100, msg at level 100, k at level 200) : kit_scope.
Notation "'ensure' c 'in' k" := (rbind c (fun _ => k))
  (at level 200, c at level 100, k at level 200) : kit_scope.

Fixpoint range {S A} (body : S -> A -> res S) (s : S) (l : list A) : res S :=
  match l with
  | [] => Ok s
  | x :: l => rbind (body s x) (fun s => range body s l)
  end.

Definition finish {A} (m : res A) : res unit := rbind m (fun _ => Ok tt).

(** [fmt.Errorf("component %s: %w", id, err)] *)
Definition in_component (id : string) {A} (m : res A) : res A :=
  match m with Ok a => Ok a | Err e => Err (ErrWrap ("component " +:+ id) e) end.

(** ** Versions and patterns *)
Definition SchemaVersion : Z := 1.
Definition MultiContainerSchemaVersion : Z := 2.
Definition HardwareSchemaVersion : Z := 3.
Definition ExternalStorageSchemaVersion : Z := 4.
Definition RuntimeIdentitySchemaVersion : Z := 5.
Definition BackupSchemaVersion : Z := 6.
Definition CatalogMetadataSchemaVersion : Z := 7.
Definition NetworkBindingSchemaVersion : Z := 8.
Definition IngressReadinessSchemaVersion : Z := 9.

Definition upper (c : N) : bool := ((65 <=? c) && (c <=? 90))%N.

(** [^<first><rest>{lo,hi}$] *)
Definition pattern (first rest : N -> bool) (lo hi : nat) (s : string) : bool :=
  match text s with
  | c :: cs => first c && bool_decide (lo <= length cs <= hi)%nat && forallb rest cs
  | [] => false
  end.

Definition id_char (c : N) : bool := lower c || is_digit c || (c =? 45)%N.
Definition idPattern : string -> bool := pattern lower id_char 1 31.
Definition logoPattern : string -> bool := pattern lower id_char 1 63.
Definition env_first (c : N) : bool := upper c || (c =? 95)%N.
Definition legacyEnvPattern : string -> bool :=
  pattern env_first (fun c => upper c || is_digit c || (c =? 95)%N) 0 63.
Definition v8EnvPattern : string -> bool :=
  pattern env_first (fun c => upper c || lower c || is_digit c || (c =? 95)%N) 0 63.

Definition digest_prefix : string := "sha256:".
Definition digestPattern (s : string) : bool :=
  bool_decide (take 7 (text s) = text digest_prefix) &&
  bool_decide (length (drop 7 (text s)) = 64%nat) && forallb is_hex (drop 7 (text s)).

(** [strings.ContainsAny(s, chars)] for ASCII [chars] *)
Definition ContainsAny (s : string) (chars : list N) : bool :=
  existsb (fun c => bool_decide (c ∈ chars)) (text s).

(** [strings.HasPrefix] and [strings.Contains] *)
Definition HasPrefix (s prefix : string) : bool := String.prefix prefix s.
Fixpoint Contains (s sub : string) : bool :=
  String.prefix sub s || match s with EmptyString => false | String _ s' => Contains s' sub end.

Definition CR : N := 13.
Definition LF : N := 10.
Definition TAB : N := 9.

(** ** Data *)
Record LifecycleNotice : Type := {
  mln_Install : string;
  mln_Stop : string;
  mln_Remove : string;
  mln_RequireAcknowledgement : bool
}.

Record ManifestConfiguration : Type := { mcp_Type : string; mcp_StorageID : string }.

Record Release : Type := {
  mrl_Version : string;
  mrl_Registry : string;
  mrl_Repository : string;
  mrl_Digest : string;
  mrl_Platform : string
}.

Record Storage : Type := {
  mst_ID : string;
  mst_ContainerPath : string;
  mst_Persistent : bool;
  mst_ReadOnly : bool;
  mst_SystemConfig : bool;
  mst_OwnerUID : Z;
  mst_OwnerGID : Z
}.

Record ManifestIdentity : Type := { mri_UID : Z; mri_GID : Z }.

Record ExternalStorage : Type := {
  mxs_ID : string;
  mxs_ContainerPath : string;
  mxs_Mode : string;
  mxs_Required : bool;
  mxs_Purpose : string
}.

Record BackupStorage : Type := {
  mbs_Component : string;
  mbs_ID : string;
  mbs_Disposition : string
}.

Record BackupPolicy : Type := { mbp_Strategy : string; mbp_Storage : list BackupStorage }.

Record CredentialPresentation : Type := {
  mcr_ID : string;
  mcr_Label : string;
  mcr_Username : string
}.

Record Env : Type := {
  mev_Name : string;
  mev_Value : string;
  mev_Secret : bool;
  mev_Generate : string;
  mev_Required : bool;
  mev_Credential : option CredentialPresentation
}.

Record PresentedCredential : Type := {
  mpc_ID : string;
  mpc_Label : string;
  mpc_Username : string;
  mpc_ComponentID : string;
  mpc_EnvironmentName : string
}.

Record IngressEligibility : Type := { ie_ExposureModes : list string; ie_External : bool }.

Record ReadinessCheck : Type := {
  mrc_Type : string;
  mrc_Path : string;
  mrc_ExpectedStatus : list Z;
  mrc_TimeoutSeconds : Z
}.

Record ManifestService : Type := {
  ms_ID : string;
  ms_Name : string;
  ms_Protocol : string;
  ms_ContainerPort : Z;
  ms_DefaultExposure : string;
  ms_FixedHostPort : Z;
  ms_Ingress : option IngressEligibility;
  ms_Readiness : option ReadinessCheck
}.

Record Accelerator : Type := { mac_Class : string; mac_Optional : bool; mac_CPUFallback : bool }.

Record ManifestComponent : Type := {
  mco_ID : string;
  mco_Release : string;
  mco_Storage : list Storage;
  mco_Environment : list Env;
  mco_Command : list string;
  mco_Services : list ManifestService;
  mco_DependsOn : list string;
  mco_Restart : string;
  mco_Hardware : list Accelerator;
  mco_ExternalStorage : list ExternalStorage;
  mco_RunAs : option ManifestIdentity
}.

Record Manifest : Type := {
  ma_SchemaVersion : Z;
  ma_ID : string;
  ma_Name : string;
  ma_Description : string;
  ma_Releases : list Release;
  ma_Storage : list Storage;
  ma_Environment : list Env;
  ma_Command : list string;
  ma_Restart : string;
  ma_Services : list ManifestService;
  ma_Components : list ManifestComponent;
  ma_Hardware : list Accelerator;
  ma_ExternalStorage : list ExternalStorage;
  ma_RunAs : option ManifestIdentity;
  ma_Backup : option BackupPolicy;
  ma_Category : string;
  ma_Kind : string;
  ma_CatalogStatus : string;
  ma_WebsiteURL : string;
  ma_SourceURL : string;
  ma_DocumentationURL : string;
  ma_Logo : string;
  ma_Limitations : list string;
  ma_LifecycleNotice : option LifecycleNotice;
  ma_Configuration : option ManifestConfiguration
}.

#[export] Instance Manifest_eta : Eta Manifest := fun m => Build_Manifest (ma_SchemaVersion m) (ma_ID m)
  (ma_Name m) (ma_Description m) (ma_Releases m) (ma_Storage m) (ma_Environment m) (ma_Command m)
  (ma_Restart m) (ma_Services m) (ma_Components m) (ma_Hardware m) (ma_ExternalStorage m) (ma_RunAs m)
  (ma_Backup m) (ma_Category m) (ma_Kind m) (ma_CatalogStatus m) (ma_WebsiteURL m) (ma_SourceURL m)
  (ma_DocumentationURL m) (ma_Logo m) (ma_Limitations m) (ma_LifecycleNotice m) (ma_Configuration m).
#[export] Instance set_ma_SchemaVersion : Setter ma_SchemaVersion := ltac:(mk_setter).
#[export] Instance set_ma_Components : Setter ma_Components := ltac:(mk_setter).
#[export] Instance set_ma_Services : Setter ma_Services := ltac:(mk_setter).
#[export] Instance set_ma_Storage : Setter ma_Storage := ltac:(mk_setter).
#[export] Instance set_ma_Backup : Setter ma_Backup := ltac:(mk_setter).

(** The zero value [Manifest{}]. *)
Definition zero_manifest : Manifest :=
  {| ma_SchemaVersion := 0; ma_ID := ""; ma_Name := ""; ma_Description := ""; ma_Releases := [];
     ma_Storage := []; ma_Environment := []; ma_Command := []; ma_Restart := ""; ma_Services := [];
     ma_Components := []; ma_Hardware := []; ma_ExternalStorage := []; ma_RunAs := None; ma_Backup := None;
     ma_Category := ""; ma_Kind := ""; ma_CatalogStatus := ""; ma_WebsiteURL := ""; ma_SourceURL := "";
     ma_DocumentationURL := ""; ma_Logo := ""; ma_Limitations := []; ma_LifecycleNotice := None;
     ma_Configuration := None |}.

Record ResolvedComponent : Type := {
  mrs_ID : string;
  mrs_ImageDigest : string;
  mrs_Command : list string;
  mrs_Environment : list Env;
  mrs_Storage : list Storage;
  mrs_Services : list ManifestService;
  mrs_DependsOn : list string;
  mrs_Restart : string;
  mrs_Hardware : list Accelerator;
  mrs_ExternalStorage : list ExternalStorage;
  mrs_RunAs : option ManifestIdentity
}.

Record ManifestPlan : Type := {
  mpl_ApplicationID : string;
  mpl_ReleaseID : string;
  mpl_InstanceID : string;
  mpl_ImageDigest : string;
  mpl_NetworkName : string;
  mpl_DataPath : string;
  mpl_Restart : string;
  mpl_Command : list string;
  mpl_Environment : list Env;
  mpl_Storage : list Storage;
  mpl_Services : list ManifestService;
  mpl_Components : list ManifestComponent;
  mpl_ResolvedComponents : list ResolvedComponent;
  mpl_Hardware : list Accelerator;
  mpl_ExternalStorage : list ExternalStorage;
  mpl_RunAs : option ManifestIdentity;
  mpl_Backup : option BackupPolicy;
  mpl_Configuration : option ManifestConfiguration
}.

(** ** Declarations *)

(** [containsRuntimeSocket]: a path component that names an engine's socket *)
Definition runtime_sockets : list string := ["docker.sock"; "podman.sock"; "containerd.sock"].

Definition containsRuntimeSocket (path : string) : bool :=
  existsb (fun component => bool_decide (component ∈ map text runtime_sockets)) (split_at 47 (text path) []).

Definition safeContainerPath (path : string) (systemConfig : bool) : bool :=
  if negb (HasPrefix path "/") || Contains path ".." || bool_decide (path = "/") || HasPrefix path "/proc"
     || HasPrefix path "/sys" || HasPrefix path "/dev" || containsRuntimeSocket path then false
  else if HasPrefix path "/etc" then systemConfig && HasPrefix path "/etc/" && negb (bool_decide (path = "/etc/"))
  else negb systemConfig.

Definition validateSystemConfigStorage (storage : Storage) (schemaVersion : Z) : res unit :=
  if negb (mst_SystemConfig storage) then Ok tt
  else refuse (schemaVersion < NetworkBindingSchemaVersion \/ mst_Persistent storage = false
               \/ mst_ReadOnly storage = true)
       with "managed system configuration requires schema version 8 persistent read-write storage" in Ok tt.

Definition validateStorageOwnership (storage : Storage) : res unit :=
  refuse (bool_decide (mst_OwnerUID storage = 0) <> bool_decide (mst_OwnerGID storage = 0))
  with "managed storage owner requires uid and gid" in
  refuse (mst_OwnerUID storage < 0 \/ 65535 < mst_OwnerUID storage
          \/ mst_OwnerGID storage < 0 \/ 65535 < mst_OwnerGID storage)
  with "managed storage owner outside policy" in Ok tt.

(** The body of the loops over [m.Storage] and [c.Storage]. *)
Definition storage_step (schemaVersion : Z) (seen : gset string) (s : Storage) : res (gset string) :=
  refuse (idPattern (mst_ID s) = false \/ mst_ID s ∈ seen
          \/ safeContainerPath (mst_ContainerPath s) (mst_SystemConfig s) = false)
  with "invalid storage declaration" in
  ensure validateSystemConfigStorage s schemaVersion in
  ensure validateStorageOwnership s in
  Ok ({[mst_ID s]} ∪ seen).

Definition validEnvironmentName (name : string) (schemaVersion : Z) : bool :=
  if decide (NetworkBindingSchemaVersion <= schemaVersion) then v8EnvPattern name else legacyEnvPattern name.

Definition bad_generate (e : Env) : Prop :=
  (mev_Generate e <> "" /\ (mev_Secret e = false \/ mev_Required e = false))
  \/ (mev_Generate e <> "" /\ mev_Generate e <> "random-hex-32").
#[export] Instance bad_generate_dec e : Decision (bad_generate e).
Proof. unfold bad_generate. apply _. Defined.

(** The bodies of the loops over [m.Environment] and [c.Environment]. *)
Definition environment_step (schemaVersion : Z) (seen : gset string) (e : Env) : res (gset string) :=
  refuse (validEnvironmentName (mev_Name e) schemaVersion = false \/ mev_Name e ∈ seen
          \/ (mev_Required e = true /\ mev_Value e <> ""))
  with "invalid environment declaration" in
  refuse (mev_Secret e = true /\ mev_Value e <> "") with "secret values may not be embedded" in
  refuse (bad_generate e) with "invalid generated secret declaration" in
  Ok ({[mev_Name e]} ∪ seen).

Definition component_environment_step (schemaVersion : Z) (seen : gset string) (e : Env) : res (gset string) :=
  refuse (validEnvironmentName (mev_Name e) schemaVersion = false \/ mev_Name e ∈ seen
          \/ (mev_Required e = true /\ mev_Value e <> "") \/ (mev_Secret e = true /\ mev_Value e <> ""))
  with "invalid environment declaration" in
  refuse (bad_generate e) with "invalid generated secret declaration" in
  Ok ({[mev_Name e]} ∪ seen).

Definition bad_argument (c : string) : Prop :=
  c = "" \/ (256 < String.length c)%nat \/ ContainsAny c [CR; LF] = true.
#[export] Instance bad_argument_dec c : Decision (bad_argument c).
Proof. unfold bad_argument. apply _. Defined.

Definition command_step (_ : unit) (c : string) : res unit :=
  refuse (bad_argument c) with "invalid command" in Ok tt.

Definition component_command_step (_ : unit) (arg : string) : res unit :=
  refuse (bad_argument arg \/ arg = "/bin/sh" \/ arg = "/bin/bash" \/ arg = "-c") with "invalid command" in Ok tt.

Definition validateDefaultExposure (service : ManifestService) (schemaVersion : Z) : res unit :=
  if decide (ms_DefaultExposure service = "") then Ok tt else
  refuse (schemaVersion < NetworkBindingSchemaVersion
          \/ (ms_DefaultExposure service <> "internal" /\ ms_DefaultExposure service <> "loopback"
              /\ ms_DefaultExposure service <> "lan"))
  with "default exposure requires schema version 8 and a constrained mode" in
  refuse (ms_DefaultExposure service = "lan" /\ ms_FixedHostPort service = 0)
  with "default LAN exposure requires a trusted fixed host port" in Ok tt.

Definition http_service (service : ManifestService) : Prop :=
  ms_Protocol service = "http" \/ ms_Protocol service = "https".
#[export] Instance http_service_dec s : Decision (http_service s).
Proof. unfold http_service. apply _. Defined.

Definition mode_step (external : bool) (seen : gset string) (mode : string) : res (gset string) :=
  refuse (mode ∈ seen \/ (mode <> "lan" /\ mode <> "managed-https" /\ mode <> "cloudflare-tunnel"))
  with "invalid ingress exposure policy" in
  refuse (mode = "cloudflare-tunnel" /\ external = false)
  with "Cloudflare exposure requires external access opt-in" in
  Ok ({[mode]} ∪ seen).

Definition status_step (seen : gset Z) (status : Z) : res (gset Z) :=
  refuse (status < 100 \/ 599 < status \/ status ∈ seen) with "invalid readiness status policy" in
  Ok ({[status]} ∪ seen).

Definition validate_ingress_policy (service : ManifestService) (policy : IngressEligibility) : res unit :=
  refuse (~ http_service service) with "ingress requires an HTTP service" in
  refuse (ie_ExposureModes policy = [] \/ (3 < length (ie_ExposureModes policy))%nat)
  with "invalid ingress exposure policy" in
  finish (range (mode_step (ie_External policy)) ∅ (ie_ExposureModes policy)).

Definition bad_readiness_path (path : string) : bool :=
  bool_decide (path = "") || bool_decide (256 < String.length path)%nat || negb (HasPrefix path "/")
  || HasPrefix path "//" || ContainsAny path [92; CR; LF; TAB; 63; 35]%N || Contains path "..".

Definition validate_readiness (service : ManifestService) (rc : ReadinessCheck) : res unit :=
  refuse (mrc_TimeoutSeconds rc < 1 \/ 30 < mrc_TimeoutSeconds rc) with "invalid readiness timeout" in
  if decide (mrc_Type rc ∈ ["runtime"; "docker-health"; "tcp"]) then
    refuse (mrc_Path rc <> "" \/ mrc_ExpectedStatus rc <> [])
    with "non-HTTP readiness cannot declare HTTP policy" in Ok tt
  else if decide (mrc_Type rc = "http") then
    refuse (~ http_service service) with "HTTP readiness requires an HTTP service" in
    refuse (bad_readiness_path (mrc_Path rc) = true) with "invalid readiness path" in
    refuse (mrc_ExpectedStatus rc = [] \/ (8 < length (mrc_ExpectedStatus rc))%nat)
    with "invalid readiness status policy" in
    finish (range status_step ∅ (mrc_ExpectedStatus rc))
  else Err (ErrMsg "unsupported readiness type").

Definition validateIngressReadiness (service : ManifestService) (schemaVersion : Z) : res unit :=
  match ms_Ingress service, ms_Readiness service with
  | None, None => Ok tt
  | ingress, readiness =>
      refuse (schemaVersion < IngressReadinessSchemaVersion)
      with "ingress and readiness require schema version 9" in
      ensure match ingress with Some policy => validate_ingress_policy service policy | None => Ok tt end in
      match readiness with Some rc => validate_readiness service rc | None => Ok tt end
  end.

(** The body of the loops over [m.Services] and [c.Services]; [invalid] is
    the text of the first refusal, which differs between the two. *)
Definition service_protocols : list string := ["http"; "https"; "tcp"; "udp"].

Definition service_step (invalid : string) (schemaVersion : Z) (seen : gset string * gset string)
    (s : ManifestService) : res (gset string * gset string) :=
  let portProtocol := port_key (ms_ContainerPort s) (ms_Protocol s) in
  refuse (idPattern (ms_ID s) = false \/ ms_Name s = "" \/ (128 < String.length (ms_Name s))%nat
          \/ ms_ID s ∈ seen.1 \/ portProtocol ∈ seen.2 \/ ms_ContainerPort s < 1 \/ 65535 < ms_ContainerPort s
          \/ ms_Protocol s ∉ service_protocols)
  with invalid in
  refuse (ms_FixedHostPort s <> 0 /\ (schemaVersion < NetworkBindingSchemaVersion \/ ms_FixedHostPort s < 1
          \/ 65535 < ms_FixedHostPort s))
  with "fixed host port requires schema version 8 and a valid port" in
  ensure validateDefaultExposure s schemaVersion in
  ensure validateIngressReadiness s schemaVersion in
  Ok ({[ms_ID s]} ∪ seen.1, {[portProtocol]} ∪ seen.2).

Definition validateRuntimeIdentity (identity : option ManifestIdentity) : res unit :=
  match identity with
  | None => Ok tt
  | Some i =>
      refuse (mri_UID i < 1 \/ 65535 < mri_UID i \/ mri_GID i < 1 \/ 65535 < mri_GID i)
      with "runtime identity outside policy" in Ok tt
  end.

Definition external_step (seen : gset string * gset string) (item : ExternalStorage)
    : res (gset string * gset string) :=
  refuse (idPattern (mxs_ID item) = false \/ mxs_ID item ∈ seen.1 \/ mxs_ContainerPath item ∈ seen.2
          \/ (mxs_Mode item <> "read-only" /\ mxs_Mode item <> "read-write")
          \/ safeContainerPath (mxs_ContainerPath item) false = false \/ mxs_Purpose item = ""
          \/ (80 < String.length (mxs_Purpose item))%nat \/ ContainsAny (mxs_Purpose item) [CR; LF] = true)
  with "invalid external storage declaration" in
  Ok ({[mxs_ID item]} ∪ seen.1, {[mxs_ContainerPath item]} ∪ seen.2).

Definition validateExternalStorage (items : list ExternalStorage) (managed : list Storage) : res unit :=
  refuse (8 < length items)%nat with "too many external storage slots" in
  finish (range external_step (list_to_set (map mst_ID managed), list_to_set (map mst_ContainerPath managed)) items).

(** [hardware.ValidClass] *)
Definition ValidClass (class : string) : bool :=
  bool_decide (class ∈ ["gpu.nvidia"; "gpu.amd"; "gpu.intel.render"; "video.vaapi"]).

(** ** Features of the schema versions *)
Definition componentsHaveHardware (components : list ManifestComponent) : bool :=
  existsb (fun c => negb (bool_decide (length (mco_Hardware c) = 0%nat))) components.
Definition componentsHaveExternalStorage (components : list ManifestComponent) : bool :=
  existsb (fun c => negb (bool_decide (length (mco_ExternalStorage c) = 0%nat))) components.
Definition storageHasOwnership (items : list Storage) : bool :=
  existsb (fun item => negb (bool_decide (mst_OwnerUID item = 0))) items.
Definition componentsHaveRuntimeIdentity (components : list ManifestComponent) : bool :=
  existsb (fun c => bool_decide (is_Some (mco_RunAs c)) || storageHasOwnership (mco_Storage c)) components.
Definition hasCatalogMetadata (m : Manifest) : bool :=
  existsb (fun s => negb (bool_decide (s = "")))
    [ma_Category m; ma_Kind m; ma_CatalogStatus m; ma_WebsiteURL m; ma_SourceURL m; ma_DocumentationURL m; ma_Logo m]
  || negb (bool_decide (length (ma_Limitations m) = 0%nat)) || bool_decide (is_Some (ma_LifecycleNotice m)).

(** ** Catalogue texts *)
Definition catalogCategories : list string :=
  ["AI"; "Developer Tools"; "Documents"; "Files"; "Finance"; "Food and recipes"; "Home automation"; "Media";
   "Monitoring"; "Music"; "Networking"; "Notes"; "Productivity"; "Reading"; "Security"].

(** [strings.TrimSpace] *)
Definition TrimSpace (value : string) : string :=
  String.concat "" (trim_space (runes (String.length value) value)).

Definition validCatalogText (value : string) (limit : nat) : bool :=
  negb (bool_decide (value = "")) && bool_decide (value = TrimSpace value)
  && bool_decide (String.length value <= limit)%nat && negb (ContainsAny value [CR; LF]).

Definition optionalCatalogText (value : string) (limit : nat) : bool :=
  bool_decide (value = "") || validCatalogText value limit.

Definition limitation_step (seen : gset string) (limitation : string) : res (gset string) :=
  refuse (validCatalogText limitation 280 = false \/ limitation ∈ seen) with "invalid catalog limitation" in
  Ok ({[limitation]} ∪ seen).

(** What the code reads of a [*url.URL]. *)
Record URL : Type := { u_Scheme : string; u_Host : string; u_HasUser : bool; u_Fragment : string }.

(** ** Policies over the whole manifest *)
Definition find_storage (items : list Storage) (id : string) : option Storage :=
  snd <$> list_find (fun s => mst_ID s = id) items.

Definition validateConfigurationPolicy (m : Manifest) : res unit :=
  match ma_Configuration m with
  | None => Ok tt
  | Some c =>
      refuse (ma_SchemaVersion m < NetworkBindingSchemaVersion \/ ma_Components m <> []
              \/ mcp_Type c <> "syncthing-tcp-only-v1" \/ idPattern (mcp_StorageID c) = false)
      with "invalid structured configuration policy" in
      match find_storage (ma_Storage m) (mcp_StorageID c) with
      | Some storage =>
          refuse (mst_Persistent storage = false \/ mst_ReadOnly storage = true
                  \/ mst_ContainerPath storage <> "/var/syncthing")
          with "structured configuration policy requires managed read-write Syncthing storage" in Ok tt
      | None => Err (ErrMsg "structured configuration policy storage not found")
      end
  end.

Definition presented (componentID : string) (item : Env) : list PresentedCredential :=
  match mev_Credential item with
  | Some c => [{| mpc_ID := mcr_ID c; mpc_Label := mcr_Label c; mpc_Username := mcr_Username c;
                  mpc_ComponentID := componentID; mpc_EnvironmentName := mev_Name item |}]
  | None => []
  end.

Definition PresentedCredentials (m : Manifest) : list PresentedCredential :=
  concat (map (presented "") (ma_Environment m)) ++
  concat (map (fun c => concat (map (presented (mco_ID c)) (mco_Environment c))) (ma_Components m)).

Definition FindPresentedCredential (m : Manifest) (id : string) : option PresentedCredential :=
  snd <$> list_find (fun c => mpc_ID c = id) (PresentedCredentials m).

Definition credential_step (schemaVersion : Z) (seen : gset string) (item : Env) : res (gset string) :=
  match mev_Credential item with
  | None => Ok seen
  | Some credential =>
      refuse (schemaVersion < NetworkBindingSchemaVersion)
      with "credential presentation requires schema version 8" in
      refuse (mev_Secret item = false \/ mev_Required item = false \/ mev_Generate item <> "random-hex-32"
              \/ mev_Value item <> "")
      with "credential presentation requires a generated secret" in
      refuse (idPattern (mcr_ID credential) = false \/ mcr_ID credential ∈ seen
              \/ validCatalogText (mcr_Label credential) 64 = false
              \/ optionalCatalogText (mcr_Username credential) 64 = false)
      with "invalid credential presentation" in
      Ok ({[mcr_ID credential]} ∪ seen)
  end.

Definition component_credentials (schemaVersion : Z) (seen : gset string) (component : ManifestComponent)
    : res (gset string) :=
  in_component (mco_ID component) (range (credential_step schemaVersion) seen (mco_Environment component)).

Definition validateCredentialPresentations (m : Manifest) : res unit :=
  rbind (range (credential_step (ma_SchemaVersion m)) ∅ (ma_Environment m)) (fun seen =>
  finish (range (component_credentials (ma_SchemaVersion m)) seen (ma_Components m))).

Definition backup_key (component id : string) : string := component +:+ "/" +:+ id.

Definition declare_storage (component : string) (declared : gmap string Storage) (item : Storage)
    : gmap string Storage :=
  if mst_Persistent item then <[backup_key component (mst_ID item) := item]> declared else declared.

Definition declared_storage (m : Manifest) : gmap string Storage :=
  foldl (fun declared c => foldl (declare_storage (mco_ID c)) declared (mco_Storage c))
    (foldl (declare_storage "app") ∅ (ma_Storage m)) (ma_Components m).

Definition backup_step (declared : gmap string Storage) (s : gset string * nat) (item : BackupStorage)
    : res (gset string * nat) :=
  refuse (mbs_Component item = "" \/ mbs_ID item = ""
          \/ (mbs_Disposition item <> "include" /\ mbs_Disposition item <> "exclude-ephemeral"))
  with "invalid backup storage policy" in
  let key := backup_key (mbs_Component item) (mbs_ID item) in
  refuse (declared !! key = None \/ key ∈ s.1)
  with "backup storage policy references unknown or duplicate storage" in
  Ok ({[key]} ∪ s.1, if decide (mbs_Disposition item = "include") then S s.2 else s.2).

Definition validateBackupPolicy (m : Manifest) : res unit :=
  match ma_Backup m with
  | None => Ok tt
  | Some backup =>
      refuse (mbp_Strategy backup <> "metadata-only" /\ mbp_Strategy backup <> "cold-filesystem"
              /\ mbp_Strategy backup <> "cold-sqlite-filesystem")
      with "invalid backup strategy" in
      let declared := declared_storage m in
      if decide (mbp_Strategy backup = "metadata-only") then
        refuse (size declared <> 0%nat \/ length (mbp_Storage backup) <> 0%nat)
        with "metadata-only backup cannot declare persistent storage" in Ok tt
      else
        refuse (size declared = 0%nat \/ length (mbp_Storage backup) <> size declared)
        with "backup policy must classify every persistent storage declaration" in
        rbind (range (backup_step declared) (∅, 0%nat) (mbp_Storage backup)) (fun s =>
        refuse (s.2 = 0%nat) with "backup policy must include authoritative storage" in Ok tt)
  end.

(** ** Validation *)
Definition registries : list string := ["docker.io"; "ghcr.io"; "codeberg.org"].

Definition release_step (seen : gset string) (r : Release) : res (gset string) :=
  refuse (mrl_Version r = "" \/ mrl_Version r ∈ seen) with "duplicate/invalid release version" in
  refuse (mrl_Registry r ∉ registries) with "registry not allowed" in
  refuse (ContainsAny (mrl_Repository r) [32; TAB; LF]%N = true \/ digestPattern (mrl_Digest r) = false
          \/ mrl_Platform r <> "linux/amd64")
  with "invalid release image" in
  Ok ({[mrl_Version r]} ∪ seen).

Definition bad_restart (restart : string) : Prop :=
  restart <> "" /\ restart <> "no" /\ restart <> "unless-stopped".
#[export] Instance bad_restart_dec r : Decision (bad_restart r).
Proof. unfold bad_restart. apply _. Defined.

Definition validateComponentFields (c : ManifestComponent) (schemaVersion : Z) : res unit :=
  ensure range (storage_step schemaVersion) ∅ (mco_Storage c) in
  ensure range (component_environment_step schemaVersion) ∅ (mco_Environment c) in
  refuse (16 < length (mco_Command c) \/ 8 < length (mco_Services c))%nat
  with "component declaration too large" in
  ensure range component_command_step tt (mco_Command c) in
  finish (range (service_step "invalid service" schemaVersion) (∅, ∅) (mco_Services c)).

Definition dependency_step (componentIDs : gset string) (_ : unit) (c : ManifestComponent) : res unit :=
  range (fun _ dep => refuse (dep ∉ componentIDs) with "component dependency not found" in Ok tt)
    tt (mco_DependsOn c).

Section validate.
Context (ParseRequestURI : string -> option URL) (Quote : string -> string).

Definition validCatalogURL (value : string) : bool :=
  if bool_decide (512 < String.length value)%nat || ContainsAny value [CR; LF; TAB] then false
  else match ParseRequestURI value with
       | Some parsed => bool_decide (u_Scheme parsed = "https") && negb (bool_decide (u_Host parsed = ""))
                        && negb (u_HasUser parsed) && bool_decide (u_Fragment parsed = "")
       | None => false
       end.

Definition url_step (_ : unit) (value : string) : res unit :=
  refuse (value <> "" /\ validCatalogURL value = false) with "invalid catalog URL" in Ok tt.

Definition validate_notice (notice : option LifecycleNotice) : res unit :=
  match notice with
  | None => Ok tt
  | Some n =>
      refuse (optionalCatalogText (mln_Install n) 280 = false \/ optionalCatalogText (mln_Stop n) 280 = false
              \/ optionalCatalogText (mln_Remove n) 280 = false)
      with "invalid lifecycle notice" in
      refuse (mln_Install n = "" /\ mln_Stop n = "" /\ mln_Remove n = "") with "empty lifecycle notice" in Ok tt
  end.

Definition validateCatalogMetadata (m : Manifest) : res unit :=
  refuse (ma_Category m ∉ catalogCategories) with "invalid catalog category" in
  refuse (ma_Kind m <> "application" /\ ma_Kind m <> "network-service") with "invalid application kind" in
  refuse (ma_CatalogStatus m <> "standard" /\ ma_CatalogStatus m <> "experimental")
  with "invalid catalog status" in
  ensure range url_step tt [ma_WebsiteURL m; ma_SourceURL m; ma_DocumentationURL m] in
  refuse (ma_Logo m <> "" /\ logoPattern (ma_Logo m) = false) with "invalid catalog logo" in
  refuse (8 < length (ma_Limitations m))%nat with "too many catalog limitations" in
  ensure range limitation_step ∅ (ma_Limitations m) in
  validate_notice (ma_LifecycleNotice m).

Definition hardware_step (seen : gset string) (item : Accelerator) : res (gset string) :=
  refuse (ValidClass (mac_Class item) = false \/ mac_Class item ∈ seen)
  with ("unknown or duplicate device class " +:+ Quote (mac_Class item)) in
  refuse (mac_CPUFallback item = true /\ mac_Optional item = false)
  with "CPU fallback requires optional acceleration" in
  Ok ({[mac_Class item]} ∪ seen).

Definition validateHardware (items : list Accelerator) : res unit :=
  refuse (4 < length items)%nat with "too many hardware requirements" in
  finish (range hardware_step ∅ items).

Definition component_step (schemaVersion : Z) (releaseIDs componentIDs : gset string) (c : ManifestComponent)
    : res (gset string) :=
  refuse (idPattern (mco_ID c) = false \/ mco_ID c ∈ componentIDs \/ mco_Release c = ""
          \/ (64 < String.length (mco_Release c))%nat \/ mco_Release c ∉ releaseIDs)
  with "invalid component declaration" in
  refuse (bad_restart (mco_Restart c)) with "invalid component restart policy" in
  ensure in_component (mco_ID c) (validateComponentFields c schemaVersion) in
  ensure in_component (mco_ID c) (validateHardware (mco_Hardware c)) in
  ensure in_component (mco_ID c) (validateExternalStorage (mco_ExternalStorage c) (mco_Storage c)) in
  ensure in_component (mco_ID c) (validateRuntimeIdentity (mco_RunAs c)) in
  Ok ({[mco_ID c]} ∪ componentIDs).

(** The guards on schema versions at the head of [Validate]. *)
Definition validate_versions (m : Manifest) : res unit :=
  let v := ma_SchemaVersion m in
  refuse (v < SchemaVersion \/ IngressReadinessSchemaVersion < v)
  with ("unsupported manifest schema version " +:+ itoa v) in
  refuse (v = SchemaVersion /\ length (ma_Components m) <> 0%nat) with "components require schema version 2" in
  refuse (v = MultiContainerSchemaVersion /\ (length (ma_Components m) < 2)%nat)
  with "multi-container manifest requires at least two components" in
  refuse (v = HardwareSchemaVersion /\ length (ma_Components m) = 1%nat)
  with "multi-container manifest requires at least two components" in
  refuse (v < HardwareSchemaVersion
          /\ (length (ma_Hardware m) <> 0%nat \/ componentsHaveHardware (ma_Components m) = true))
  with "hardware requires schema version 3" in
  refuse (v < ExternalStorageSchemaVersion
          /\ (length (ma_ExternalStorage m) <> 0%nat \/ componentsHaveExternalStorage (ma_Components m) = true))
  with "external storage requires schema version 4" in
  refuse (v < RuntimeIdentitySchemaVersion
          /\ (is_Some (ma_RunAs m) \/ storageHasOwnership (ma_Storage m) = true
              \/ componentsHaveRuntimeIdentity (ma_Components m) = true))
  with "runtime identity requires schema version 5" in
  refuse (v < BackupSchemaVersion /\ is_Some (ma_Backup m)) with "backup policy requires schema version 6" in
  refuse (BackupSchemaVersion <= v /\ ma_Backup m = None)
  with ("schema version " +:+ itoa v +:+ " requires backup policy") in
  refuse (v < CatalogMetadataSchemaVersion /\ hasCatalogMetadata m = true)
  with "catalog metadata requires schema version 7" in
  if decide (CatalogMetadataSchemaVersion <= v) then validateCatalogMetadata m else Ok tt.

(** From the declared services to the end. *)
Definition validate_components (m : Manifest) : res unit :=
  refuse (16 < length (ma_Components m))%nat with "too many components" in
  let releaseIDs : gset string := list_to_set (map mrl_Version (ma_Releases m)) in
  rbind (range (component_step (ma_SchemaVersion m) releaseIDs) ∅ (ma_Components m)) (fun componentIDs =>
  ensure validateCredentialPresentations m in
  ensure validateConfigurationPolicy m in
  ensure range (dependency_step componentIDs) tt (ma_Components m) in
  validateBackupPolicy m).

Definition ValidateManifest (m : Manifest) : res unit :=
  ensure validate_versions m in
  ensure validateRuntimeIdentity (ma_RunAs m) in
  ensure validateExternalStorage (ma_ExternalStorage m) (ma_Storage m) in
  ensure validateHardware (ma_Hardware m) in
  refuse (idPattern (ma_ID m) = false \/ String.length (ma_Name m) = 0%nat \/ (128 < String.length (ma_Name m))%nat
          \/ (280 < String.length (ma_Description m))%nat \/ ContainsAny (ma_Description m) [CR; LF] = true)
  with "invalid application identity" in
  refuse (length (ma_Releases m) = 0 \/ 16 < length (ma_Releases m))%nat with "release list invalid" in
  ensure range release_step ∅ (ma_Releases m) in
  ensure range (storage_step (ma_SchemaVersion m)) ∅ (ma_Storage m) in
  ensure range (environment_step (ma_SchemaVersion m)) ∅ (ma_Environment m) in
  refuse (bad_restart (ma_Restart m)) with "invalid restart policy" in
  refuse (16 < length (ma_Command m))%nat with "command too long" in
  ensure range command_step tt (ma_Command m) in
  refuse (8 < length (ma_Services m))%nat with "too many services" in
  ensure range (service_step "invalid port" (ma_SchemaVersion m)) (∅, ∅) (ma_Services m) in
  validate_components m.

(** ** Resolution *)
Definition zero_release : Release :=
  {| mrl_Version := ""; mrl_Registry := ""; mrl_Repository := ""; mrl_Digest := ""; mrl_Platform := "" |}.

(** The last release of that version, as the loop of [Resolve] leaves it. *)
Definition last_release (releases : list Release) (version : string) : Release :=
  foldl (fun r x => if decide (mrl_Version x = version) then x else r) zero_release releases.

(** The first one, as the loop with [break] leaves it. *)
Definition first_release (releases : list Release) (version : string) : Release :=
  match list_find (fun x => mrl_Version x = version) releases with
  | Some (_, x) => x
  | None => zero_release
  end.

Definition image_of (r : Release) : string :=
  mrl_Registry r +:+ "/" +:+ mrl_Repository r +:+ "@" +:+ mrl_Digest r.

Definition resolve_component (releases : list Release) (c : ManifestComponent) : ResolvedComponent :=
  {| mrs_ID := mco_ID c; mrs_ImageDigest := image_of (first_release releases (mco_Release c));
     mrs_Command := mco_Command c; mrs_Environment := mco_Environment c; mrs_Storage := mco_Storage c;
     mrs_Services := mco_Services c; mrs_DependsOn := mco_DependsOn c; mrs_Restart := mco_Restart c;
     mrs_Hardware := mco_Hardware c; mrs_ExternalStorage := mco_ExternalStorage c; mrs_RunAs := mco_RunAs c |}.

Definition cloneConfigurationPolicy (policy : option ManifestConfiguration) : option ManifestConfiguration :=
  match policy with
  | None => None
  | Some p => Some {| mcp_Type := mcp_Type p; mcp_StorageID := mcp_StorageID p |}
  end.

Definition cloneBackupPolicy (policy : option BackupPolicy) : option BackupPolicy :=
  match policy with
  | None => None
  | Some p => Some {| mbp_Strategy := mbp_Strategy p; mbp_Storage := mbp_Storage p |}
  end.

Definition Resolve (m : Manifest) (release instance network dataPath : string) : res ManifestPlan :=
  ensure ValidateManifest m in
  let r := last_release (ma_Releases m) release in
  refuse (mrl_Version r = "") with "release not found" in
  refuse (idPattern instance = false \/ network = "" \/ ContainsAny network [47; 46; 92]%N = true
          \/ HasPrefix dataPath "/srv/kitpro/apps/" = false \/ Contains dataPath ".." = true
          \/ ContainsAny dataPath [92%N; CR; LF] = true)
  with "invalid instance paths" in
  Ok {| mpl_ApplicationID := ma_ID m; mpl_ReleaseID := mrl_Version r; mpl_InstanceID := instance;
        mpl_ImageDigest := image_of r; mpl_NetworkName := network; mpl_DataPath := dataPath;
        mpl_Restart := ma_Restart m; mpl_Command := ma_Command m; mpl_Environment := ma_Environment m;
        mpl_Storage := ma_Storage m; mpl_Services := ma_Services m; mpl_Components := ma_Components m;
        mpl_ResolvedComponents := map (resolve_component (ma_Releases m)) (ma_Components m);
        mpl_Hardware := ma_Hardware m; mpl_ExternalStorage := ma_ExternalStorage m; mpl_RunAs := ma_RunAs m;
        mpl_Backup := cloneBackupPolicy (ma_Backup m);
        mpl_Configuration := cloneConfigurationPolicy (ma_Configuration m) |}.
End validate.

(** ** Parsing

    What [json.Decoder] yields on a text: tokens up to the end of the input or
    to the first malformed byte, whose error every later call returns.
    [closing] says that the malformed byte is a closing bracket, which
    [dec.More] takes for the end of the current array or object. *)
Inductive stream_end : Type := AtEOF | Malformed (closing : bool) (e : error).
Record json_stream : Type := { js_tokens : list token; js_end : stream_end }.

Section walk.
Context (final : stream_end).

Definition end_error : error := match final with AtEOF => ErrMsg "EOF" | Malformed _ e => e end.

(** [dec.More] *)
Definition stream_more (ts : list token) : bool :=
  match ts with
  | [] => match final with AtEOF => false | Malformed closing _ => negb closing end
  | _ => more ts
  end.

(** The closing [dec.Token] of a loop. *)
Definition closing_token (ts : list token) : res (list token) :=
  match ts with [] => Err end_error | _ :: ts => Ok ts end.

Context (Quote : string -> string).

(** [walkJSON]; the decoder yields only strings where a key is due, so the
    failing type assertion is not reached. *)
Fixpoint walkJSON (fuel : nat) (ts : list token) : res (list token) :=
  match fuel with
  | O => Err end_error
  | S fuel =>
      match ts with
      | [] => Err end_error
      | TDelim LBrace :: ts => walk_object fuel ∅ ts
      | TDelim LBrack :: ts => walk_array fuel ts
      | _ :: ts => Ok ts
      end
  end
with walk_object (fuel : nat) (seen : gset string) (ts : list token) : res (list token) :=
  match fuel with
  | O => Err end_error
  | S fuel =>
      if stream_more ts then
        match ts with
        | [] => Err end_error
        | TString key :: ts =>
            if decide (key ∈ seen) then Err (ErrMsg ("duplicate JSON field " +:+ Quote key))
            else rbind (walkJSON fuel ts) (walk_object fuel ({[key]} ∪ seen))
        | _ :: _ => Err (ErrMsg "panic: interface conversion")
        end
      else closing_token ts
  end
with walk_array (fuel : nat) (ts : list token) : res (list token) :=
  match fuel with
  | O => Err end_error
  | S fuel =>
      if stream_more ts then rbind (walkJSON fuel ts) (walk_array fuel) else closing_token ts
  end.

(** [dec.Decode(&extra) == nil]: the remaining tokens start with a complete
    value, which they do when the brackets they open are closed again. *)
Fixpoint decodes (depth : nat) (ts : list token) : bool :=
  match ts with
  | [] => false
  | TDelim LBrace :: ts | TDelim LBrack :: ts => decodes (S depth) ts
  | TDelim _ :: ts => match depth with O => false | S O => true | S d => decodes d ts end
  | _ :: ts => match depth with O => true | S _ => decodes depth ts end
  end.

Definition unique_stream (ts : list token) : res unit :=
  rbind (walkJSON (S (length ts)) ts) (fun rest =>
  if decodes 0 rest then Err (ErrMsg "trailing JSON") else Ok tt).
End walk.

Definition uniqueJSON (Quote : string -> string) (data : json_stream) : res unit :=
  unique_stream (js_end data) Quote (js_tokens data).

Section parse.
Context (ParseRequestURI : string -> option URL) (Quote : string -> string)
        (NewDecoder : string -> json_stream) (DecodeManifest : string -> res Manifest).

Definition Parse (data : string) : res Manifest :=
  refuse (64 * 1024 < Z.of_nat (String.length data)) with "manifest exceeds 64 KiB" in
  ensure uniqueJSON Quote (NewDecoder data) in
  match DecodeManifest data with
  | Err e => Err (ErrWrap "manifest JSON" e)
  | Ok m => ensure ValidateManifest ParseRequestURI Quote m in Ok m
  end.

(** ** The catalogue ([catalog.go])

    [ReadDir] and [ReadFile] are the embedded file system. *)
Context (ReadDir : string -> res (list string)) (ReadFile : string -> res string).

Definition load_step (out : gmap string Manifest) (n : string) : res (gmap string Manifest) :=
  rbind (ReadFile ("manifests/" +:+ n)) (fun b =>
  match Parse b with
  | Err e => Err (ErrWrap ("catalog " +:+ n) e)
  | Ok m =>
      refuse (is_Some (out !! ma_ID m)) with ("duplicate catalog id " +:+ ma_ID m) in
      Ok (<[ma_ID m := m]> out)
  end).

Definition Load : res (gmap string Manifest) :=
  rbind (ReadDir "manifests") (fun names => range load_step ∅ names).
End parse.

Definition IDs (c : gmap string Manifest) : list string := sort_strings (elements (dom c)).
