(* ===== verification/ManifestProofs.v ===== *)
(** * Validation of manifests: the reference and its equivalence

    [well_formed] says what a manifest must be without sets of names seen so
    far, orders of checks or error texts; the lemmas show each validator to
    decide its part of it.  Loops over lists are handled by three lemmas on
    [range], one per shape of their state. *)

From S2P Require Import Prelude Protocol Coordinator NetIP ExposurePolicy Ingress IngressProofs IngressRender Manifest.
From stdpp Require Import base strings list gmap.
From Stdlib Require Import ZArith Lia Ascii DecimalString DecimalZ.

Open Scope Z_scope.

(** ** Guards and loops *)
Lemma refuse_Ok {A} (P : Prop) `{!Decision P} e (k : res A) a :
  (if decide P then Err e else k) = Ok a <-> ~ P /\ k = Ok a.
Proof. case_decide; naive_solver. Qed.

Lemma ensure_Ok {A B} (m : res A) (k : res B) b :
  rbind m (fun _ => k) = Ok b <-> (exists a, m = Ok a) /\ k = Ok b.
Proof. unfold rbind. destruct m; naive_solver. Qed.

Lemma ensure_unit_Ok {B} (m : res unit) (k : res B) b :
  rbind m (fun _ => k) = Ok b <-> m = Ok tt /\ k = Ok b.
Proof. unfold rbind. destruct m as [[]|]; naive_solver. Qed.

Lemma finish_Ok {A} (m : res A) : finish m = Ok tt <-> exists a, m = Ok a.
Proof. unfold finish. rewrite ensure_Ok. naive_solver. Qed.

Lemma in_component_Ok {A} id (m : res A) a : in_component id m = Ok a <-> m = Ok a.
Proof. destruct m; naive_solver. Qed.

Lemma Ok_tt (u : unit) : Ok tt = Ok u <-> True.
Proof. destruct u. naive_solver. Qed.

(** The body tests one element. *)
Lemma range_unit {A} (body : unit -> A -> res unit) (P : A -> Prop) l :
  (forall x, body tt x = Ok tt <-> P x) -> range body tt l = Ok tt <-> Forall P l.
Proof.
  intros Hbody. induction l as [|x l IH]; simpl; [split; [constructor | done]|].
  unfold rbind. rewrite Forall_cons, <- Hbody, <- IH.
  destruct (body tt x) as [[]|]; naive_solver.
Qed.

Lemma Forall_unseen_cons `{Countable K} (x : K) (l : list K) (seen : gset K) :
  Forall (.∉ {[x]} ∪ seen) l <-> x ∉ l /\ Forall (.∉ seen) l.
Proof. rewrite !Forall_forall. set_solver. Qed.

Lemma Forall_unseen_app `{Countable K} (ks l : list K) (seen : gset K) :
  Forall (.∉ list_to_set ks ∪ seen) l <-> (forall x, x ∈ ks -> x ∉ l) /\ Forall (.∉ seen) l.
Proof. rewrite !Forall_forall. set_solver. Qed.

Section keyed.
Context {A K : Type} `{Countable K} (key : A -> K) (P : A -> Prop).

(** The body tests an element and remembers its key. *)
Definition remembers (body : gset K -> A -> res (gset K)) : Prop := forall seen x seen',
  body seen x = Ok seen' <-> key x ∉ seen /\ P x /\ seen' = {[key x]} ∪ seen.

Lemma range_keyed_from body l seen seen' : remembers body ->
  range body seen l = Ok seen' <->
  Forall P l /\ NoDup (key <$> l) /\ Forall (.∉ seen) (key <$> l) /\ seen' = list_to_set (key <$> l) ∪ seen.
Proof.
  intros Hbody. unfold remembers in Hbody. revert seen. induction l as [|x l IH]; intros seen; simpl.
  { rewrite !Forall_nil. split; [intros [= ->] | intros (_ & _ & _ & ->)]; [|f_equal; set_solver].
    split_and!; [done | constructor | done | set_solver]. }
  rewrite rbind_Ok, !Forall_cons, NoDup_cons. setoid_rewrite IH. setoid_rewrite Hbody.
  assert (forall s : gset K, list_to_set (key <$> l) ∪ ({[key x]} ∪ s) =
                             {[key x]} ∪ list_to_set (key <$> l) ∪ s) as Hset by (intros; set_solver).
  split.
  - intros (s & (Hx & HP & ->) & Hl & Hnd & [Hx' Hs]%Forall_unseen_cons & ->). rewrite Hset. done.
  - intros ((HP & Hl) & (Hx & Hnd) & (Hs & Hs') & ->).
    exists ({[key x]} ∪ seen). rewrite Hset, Forall_unseen_cons. done.
Qed.

Lemma range_keyed body l seen' : remembers body ->
  range body ∅ l = Ok seen' <-> Forall P l /\ NoDup (key <$> l) /\ seen' = list_to_set (key <$> l).
Proof.
  intros Hbody. rewrite range_keyed_from by done. rewrite (right_id_L ∅ (∪)).
  assert (Forall (.∉ (∅ : gset K)) (key <$> l)) by (apply Forall_forall; set_solver). naive_solver.
Qed.

Lemma range_keyed_ok body l : remembers body ->
  (exists s, range body ∅ l = Ok s) <-> Forall P l /\ NoDup (key <$> l).
Proof. intros Hbody. setoid_rewrite (range_keyed body l _ Hbody). naive_solver. Qed.

End keyed.

(** The body remembers two keys. *)
Section keyed2.
Context {A K K' : Type} `{Countable K} `{Countable K'} (key : A -> K) (key' : A -> K') (P : A -> Prop).

Definition remembers2 (body : gset K * gset K' -> A -> res (gset K * gset K')) : Prop := forall seen x seen',
  body seen x = Ok seen' <->
  key x ∉ seen.1 /\ key' x ∉ seen.2 /\ P x /\ seen' = ({[key x]} ∪ seen.1, {[key' x]} ∪ seen.2).

Lemma range_keyed2 body l seen : remembers2 body ->
  (exists seen', range body seen l = Ok seen') <->
  Forall P l /\ (NoDup (key <$> l) /\ Forall (.∉ seen.1) (key <$> l))
  /\ NoDup (key' <$> l) /\ Forall (.∉ seen.2) (key' <$> l).
Proof.
  intros Hbody. unfold remembers2 in Hbody. revert seen. induction l as [|x l IH]; intros seen; simpl.
  { rewrite !Forall_nil. split; [intros _; split_and!; done || constructor | intros _; by eexists]. }
  rewrite !Forall_cons, !NoDup_cons. setoid_rewrite rbind_Ok. setoid_rewrite Hbody.
  transitivity (key x ∉ seen.1 /\ key' x ∉ seen.2 /\ P x /\
    exists s', range body ({[key x]} ∪ seen.1, {[key' x]} ∪ seen.2) l = Ok s').
  { naive_solver. }
  rewrite IH. simpl. rewrite !Forall_unseen_cons. tauto.
Qed.
End keyed2.

(** [guards]: what passing the guards of a validator means. *)
Lemma not_or_iff (P Q : Prop) : ~ (P \/ Q) <-> ~ P /\ ~ Q.
Proof. tauto. Qed.
Lemma not_not_iff (P : Prop) `{!Decision P} : ~ ~ P <-> P.
Proof. split; [apply dec_stable | tauto]. Qed.

Lemma and_cong (A A' B B' : Prop) : (A <-> A') -> (B <-> B') -> A /\ B <-> A' /\ B'.
Proof. tauto. Qed.

Ltac guards := repeat first
  [ rewrite refuse_Ok | rewrite ensure_unit_Ok | rewrite finish_Ok | rewrite Ok_tt | rewrite in_component_Ok
  | rewrite not_or_iff | rewrite not_false_iff_true | rewrite not_true_iff_false
  | rewrite Z.nlt_ge | rewrite Nat.nlt_ge | rewrite not_not_iff by apply _ ].

(** ** The reference *)
Definition owner_ok (s : Storage) : Prop :=
  (mst_OwnerUID s = 0 /\ mst_OwnerGID s = 0) \/ (1 <= mst_OwnerUID s <= 65535 /\ 1 <= mst_OwnerGID s <= 65535).

Definition storage_ok (v : Z) (s : Storage) : Prop :=
  idPattern (mst_ID s) = true /\ safeContainerPath (mst_ContainerPath s) (mst_SystemConfig s) = true /\
  (mst_SystemConfig s = true -> 8 <= v /\ mst_Persistent s = true /\ mst_ReadOnly s = false) /\ owner_ok s.

Definition environment_ok (v : Z) (e : Env) : Prop :=
  validEnvironmentName (mev_Name e) v = true /\
  (mev_Required e = true \/ mev_Secret e = true -> mev_Value e = "") /\
  (mev_Generate e <> "" -> mev_Generate e = "random-hex-32" /\ mev_Secret e = true /\ mev_Required e = true).

Definition argument_ok (c : string) : Prop :=
  (1 <= String.length c <= 256)%nat /\ ContainsAny c [CR; LF] = false.

Definition ingress_ok (s : ManifestService) (p : IngressEligibility) : Prop :=
  http_service s /\ (1 <= length (ie_ExposureModes p))%nat /\ NoDup (ie_ExposureModes p) /\
  Forall (.∈ all_modes) (ie_ExposureModes p) /\ (CloudflareTunnel ∈ ie_ExposureModes p -> ie_External p = true).

Definition readiness_ok (s : ManifestService) (r : ReadinessCheck) : Prop :=
  1 <= mrc_TimeoutSeconds r <= 30 /\
  ((mrc_Type r ∈ ["runtime"; "docker-health"; "tcp"] /\ mrc_Path r = "" /\ mrc_ExpectedStatus r = []) \/
   (mrc_Type r = "http" /\ http_service s /\ bad_readiness_path (mrc_Path r) = false /\
    (1 <= length (mrc_ExpectedStatus r) <= 8)%nat /\ NoDup (mrc_ExpectedStatus r) /\
    Forall (fun st => 100 <= st <= 599) (mrc_ExpectedStatus r))).

Definition exposure_default_ok (v : Z) (s : ManifestService) : Prop :=
  ms_DefaultExposure s <> "" -> 8 <= v /\ ms_DefaultExposure s ∈ ["internal"; "loopback"; "lan"] /\
  (ms_DefaultExposure s = "lan" -> ms_FixedHostPort s <> 0).

Definition service_ok (v : Z) (s : ManifestService) : Prop :=
  idPattern (ms_ID s) = true /\ (1 <= String.length (ms_Name s) <= 128)%nat /\
  1 <= ms_ContainerPort s <= 65535 /\ ms_Protocol s ∈ service_protocols /\
  (ms_FixedHostPort s <> 0 -> 8 <= v /\ 1 <= ms_FixedHostPort s <= 65535) /\
  exposure_default_ok v s /\
  (is_Some (ms_Ingress s) \/ is_Some (ms_Readiness s) -> 9 <= v) /\
  (forall p, ms_Ingress s = Some p -> ingress_ok s p) /\
  (forall r, ms_Readiness s = Some r -> readiness_ok s r).

(** Services have distinct names and distinct endpoints. *)
Definition services_ok (v : Z) (l : list ManifestService) : Prop :=
  (length l <= 8)%nat /\ Forall (service_ok v) l /\ NoDup (ms_ID <$> l) /\
  NoDup ((fun s => (ms_ContainerPort s, ms_Protocol s)) <$> l).

Definition identity_ok (i : option ManifestIdentity) : Prop :=
  forall r, i = Some r -> 1 <= mri_UID r <= 65535 /\ 1 <= mri_GID r <= 65535.

Definition external_ok (x : ExternalStorage) : Prop :=
  idPattern (mxs_ID x) = true /\ (mxs_Mode x = "read-only" \/ mxs_Mode x = "read-write") /\
  safeContainerPath (mxs_ContainerPath x) false = true /\ (1 <= String.length (mxs_Purpose x) <= 80)%nat /\
  ContainsAny (mxs_Purpose x) [CR; LF] = false.

(** External slots neither share a name or a target nor use one of the
    managed storage. *)
Definition externals_ok (xs : list ExternalStorage) (managed : list Storage) : Prop :=
  (length xs <= 8)%nat /\ Forall external_ok xs /\
  (NoDup (mxs_ID <$> xs) /\ Forall (.∉ mst_ID <$> managed) (mxs_ID <$> xs)) /\
  NoDup (mxs_ContainerPath <$> xs) /\ Forall (.∉ mst_ContainerPath <$> managed) (mxs_ContainerPath <$> xs).

Definition hardware_ok (l : list Accelerator) : Prop :=
  (length l <= 4)%nat /\ NoDup (mac_Class <$> l) /\
  Forall (fun a => ValidClass (mac_Class a) = true /\ (mac_CPUFallback a = true -> mac_Optional a = true)) l.

(** ** Validators of one declaration *)
Lemma string_nonempty s : s <> "" <-> (1 <= String.length s)%nat.
Proof. destruct s; simpl; split; try done; lia. Qed.

Lemma ownership_spec s : validateStorageOwnership s = Ok tt <-> owner_ok s.
Proof.
  unfold validateStorageOwnership, owner_ok. guards. repeat case_bool_decide; naive_solver lia.
Qed.

Lemma system_config_spec s v :
  validateSystemConfigStorage s v = Ok tt <->
  (mst_SystemConfig s = true -> 8 <= v /\ mst_Persistent s = true /\ mst_ReadOnly s = false).
Proof.
  unfold validateSystemConfigStorage, NetworkBindingSchemaVersion.
  destruct (mst_SystemConfig s); simpl; guards.
  all: naive_solver.
Qed.

Lemma storage_step_spec v : remembers mst_ID (storage_ok v) (storage_step v).
Proof.
  intros seen s seen'. unfold storage_step, storage_ok. guards.
  rewrite system_config_spec, ownership_spec. naive_solver.
Qed.

Lemma generate_spec e : ~ bad_generate e <->
  (mev_Generate e <> "" -> mev_Generate e = "random-hex-32" /\ mev_Secret e = true /\ mev_Required e = true).
Proof.
  unfold bad_generate. destruct (mev_Secret e), (mev_Required e), (decide (mev_Generate e = "")),
    (decide (mev_Generate e = "random-hex-32")); naive_solver.
Qed.

Lemma embedded_spec e :
  ~ (mev_Required e = true /\ mev_Value e <> "") /\ ~ (mev_Secret e = true /\ mev_Value e <> "") <->
  (mev_Required e = true \/ mev_Secret e = true -> mev_Value e = "").
Proof. destruct (decide (mev_Value e = "")); naive_solver. Qed.

Lemma environment_step_spec v : remembers mev_Name (environment_ok v) (environment_step v).
Proof.
  intros seen e seen'. unfold environment_step, environment_ok. guards.
  rewrite generate_spec, <- embedded_spec. naive_solver.
Qed.

Lemma component_environment_step_spec v : remembers mev_Name (environment_ok v) (component_environment_step v).
Proof.
  intros seen e seen'. unfold component_environment_step, environment_ok. guards.
  rewrite generate_spec, <- embedded_spec. naive_solver.
Qed.

Lemma argument_spec c : ~ bad_argument c <-> argument_ok c.
Proof. unfold bad_argument, argument_ok. guards. rewrite (string_nonempty c). tauto. Qed.

Lemma mode_step_spec external : remembers id
  (fun mode => mode ∈ all_modes /\ (mode = CloudflareTunnel -> external = true)) (mode_step external).
Proof.
  intros seen mode seen'. unfold mode_step, all_modes, LAN, ManagedHTTPS, CloudflareTunnel. guards.
  rewrite !elem_of_cons, elem_of_nil. destruct external; destruct (decide (mode = "lan")),
    (decide (mode = "managed-https")), (decide (mode = "cloudflare-tunnel")); naive_solver.
Qed.

Lemma NoDup_id {A} (l : list A) : NoDup (id <$> l) <-> NoDup l.
Proof. by rewrite list_fmap_id. Qed.

Lemma ingress_policy_spec s p : validate_ingress_policy s p = Ok tt <-> ingress_ok s p.
Proof.
  unfold validate_ingress_policy, ingress_ok. guards.
  rewrite (range_keyed_ok _ _ _ _ (mode_step_spec _)), NoDup_id, Forall_and.
  assert (Forall (fun m => m = CloudflareTunnel -> ie_External p = true) (ie_ExposureModes p) <->
          (CloudflareTunnel ∈ ie_ExposureModes p -> ie_External p = true)) as ->.
  { rewrite Forall_forall. naive_solver. }
  assert (ie_ExposureModes p <> [] <-> (1 <= length (ie_ExposureModes p))%nat) as ->.
  { destruct (ie_ExposureModes p); simpl; split; try done; lia. }
  split; [tauto|]. intros (Hh & Hl & Hnd & Hin & Hc). split_and!; try done.
  apply (submseteq_length _ all_modes), NoDup_submseteq; [done|]. by apply Forall_forall.
Qed.

Lemma status_step_spec : remembers id (fun st => 100 <= st <= 599) status_step.
Proof. intros seen st seen'. unfold status_step. guards. naive_solver lia. Qed.

Lemma readiness_spec s r : validate_readiness s r = Ok tt <-> readiness_ok s r.
Proof.
  unfold validate_readiness, readiness_ok. guards. apply and_cong; [done|].
  assert (mrc_ExpectedStatus r <> [] <-> (1 <= length (mrc_ExpectedStatus r))%nat) as Hlen.
  { destruct (mrc_ExpectedStatus r); simpl; split; try done; lia. }
  case_decide as Ht; guards.
  - assert (mrc_Type r <> "http") by (intros E; rewrite E in Ht; set_solver). tauto.
  - case_decide as Hh; [|naive_solver]. guards.
    rewrite (range_keyed_ok _ _ _ _ status_step_spec), NoDup_id, Hlen. tauto.
Qed.

Lemma ingress_readiness_spec s v : validateIngressReadiness s v = Ok tt <->
  (is_Some (ms_Ingress s) \/ is_Some (ms_Readiness s) -> 9 <= v) /\
  (forall p, ms_Ingress s = Some p -> ingress_ok s p) /\
  (forall r, ms_Readiness s = Some r -> readiness_ok s r).
Proof.
  unfold validateIngressReadiness, IngressReadinessSchemaVersion.
  destruct (ms_Ingress s) as [p|], (ms_Readiness s) as [r|]; guards;
    rewrite ?ingress_policy_spec, ?readiness_spec; naive_solver.
Qed.

Lemma default_exposure_spec s v : validateDefaultExposure s v = Ok tt <-> exposure_default_ok v s.
Proof.
  unfold validateDefaultExposure, exposure_default_ok, NetworkBindingSchemaVersion.
  case_decide; [naive_solver|]. guards. rewrite !elem_of_cons, elem_of_nil.
  destruct (decide (ms_DefaultExposure s = "internal")), (decide (ms_DefaultExposure s = "loopback")),
    (decide (ms_DefaultExposure s = "lan")); naive_solver.
Qed.

Lemma runtime_identity_spec i : validateRuntimeIdentity i = Ok tt <-> identity_ok i.
Proof. unfold validateRuntimeIdentity, identity_ok. destruct i; guards; naive_solver lia. Qed.

Lemma external_step_spec : remembers2 mxs_ID mxs_ContainerPath external_ok external_step.
Proof.
  intros seen x seen'. unfold external_step, external_ok. guards. rewrite string_nonempty.
  destruct (decide (mxs_Mode x = "read-only")), (decide (mxs_Mode x = "read-write")); naive_solver.
Qed.

Lemma fresh_list_to_set {A} `{Countable K} (f : A -> K) (l : list A) (ks : list K) :
  Forall (.∉ (list_to_set (map f l) : gset K)) ks <-> Forall (.∉ f <$> l) ks.
Proof. by setoid_rewrite elem_of_list_to_set. Qed.

Lemma external_storage_spec xs managed : validateExternalStorage xs managed = Ok tt <-> externals_ok xs managed.
Proof.
  unfold validateExternalStorage, externals_ok. guards.
  rewrite (range_keyed2 _ _ _ _ _ _ external_step_spec). simpl. by rewrite !fresh_list_to_set.
Qed.

Lemma hardware_spec Quote l : validateHardware Quote l = Ok tt <-> hardware_ok l.
Proof.
  unfold validateHardware, hardware_ok. guards.
  rewrite (range_keyed_ok mac_Class (fun a => ValidClass (mac_Class a) = true /\
             (mac_CPUFallback a = true -> mac_Optional a = true))); [tauto|].
  intros seen x seen'. unfold hardware_step. guards. destruct (mac_Optional x); naive_solver.
Qed.

(** ** Keys made of two parts *)
Lemma cut_inj {A} (sep : A) a a' b b' : sep ∉ a -> sep ∉ a' ->
  a ++ sep :: b = a' ++ sep :: b' -> a = a' /\ b = b'.
Proof.
  revert a'. induction a as [|x a IH]; intros [|x' a']; simpl; rewrite ?elem_of_cons; intros Ha Ha' H;
    simplify_eq/=; try tauto.
  destruct (IH a') as [-> ->]; tauto.
Qed.

Lemma itoa_inj z z' : itoa z = itoa z' -> z = z'.
Proof.
  unfold itoa, json_num. intros H. apply (f_equal NilEmpty.int_of_string) in H.
  rewrite !NilEmpty.isi in H. injection H as H. by apply to_int_inj.
Qed.

Lemma itoa_no_slash z : 47%N ∉ text (itoa z).
Proof.
  assert (forall u, 47%N ∉ text (NilEmpty.string_of_uint u)) as Hu.
  { intros u Hin. pose proof (uint_digits u) as Hd. rewrite forallb_forall in Hd.
    apply list_elem_of_In, Hd in Hin. done. }
  unfold itoa, json_num. destruct (Z.to_int z) as [u|u]; simpl; [done|].
  rewrite text_cons, elem_of_cons. intros [?|?]; [done | by apply (Hu u)].
Qed.

Lemma port_key_inj p t p' t' : port_key p t = port_key p' t' -> p = p' /\ t = t'.
Proof.
  unfold port_key. intros H. apply (f_equal text) in H. rewrite !text_app in H.
  apply cut_inj in H as [H1 H2]; [|apply itoa_no_slash..].
  split; [by apply itoa_inj, text_inj | by apply text_inj].
Qed.

Lemma endpoints_NoDup l :
  NoDup ((fun s => port_key (ms_ContainerPort s) (ms_Protocol s)) <$> l) <->
  NoDup ((fun s => (ms_ContainerPort s, ms_Protocol s)) <$> l).
Proof.
  assert (Inj (=) (=) (fun pt : Z * string => port_key pt.1 pt.2))
    by (intros [] [] [? ?]%port_key_inj; simplify_eq/=; done).
  rewrite <- (NoDup_fmap (fun pt : Z * string => port_key pt.1 pt.2)). by rewrite <- list_fmap_compose.
Qed.

Lemma service_step_spec invalid v : remembers2 ms_ID (fun s => port_key (ms_ContainerPort s) (ms_Protocol s))
  (service_ok v) (service_step invalid v).
Proof.
  intros seen s seen'. unfold service_step, service_ok, NetworkBindingSchemaVersion. guards.
  rewrite default_exposure_spec, ingress_readiness_spec, string_nonempty.
  assert (~ (ms_FixedHostPort s <> 0 /\ (v < 8 \/ ms_FixedHostPort s < 1 \/ 65535 < ms_FixedHostPort s)) <->
          (ms_FixedHostPort s <> 0 -> 8 <= v /\ 1 <= ms_FixedHostPort s <= 65535)) as -> by lia.
  naive_solver.
Qed.

Lemma services_spec invalid v l :
  ((length l <= 8)%nat /\ exists s, range (service_step invalid v) (∅, ∅) l = Ok s) <-> services_ok v l.
Proof.
  unfold services_ok. rewrite (range_keyed2 _ _ _ _ _ _ (service_step_spec _ _)), endpoints_NoDup. simpl.
  assert (forall ks : list string, Forall (.∉ (∅ : gset string)) ks) by (intros; apply Forall_forall; set_solver).
  naive_solver.
Qed.

(** ** Components *)
Definition restart_ok (r : string) : Prop := r ∈ [""; "no"; "unless-stopped"].

Definition shell_free (arg : string) : Prop := arg ∉ ["/bin/sh"; "/bin/bash"; "-c"].

Definition component_ok (v : Z) (releases : list string) (c : ManifestComponent) : Prop :=
  idPattern (mco_ID c) = true /\ (1 <= String.length (mco_Release c) <= 64)%nat /\ mco_Release c ∈ releases /\
  restart_ok (mco_Restart c) /\
  (Forall (storage_ok v) (mco_Storage c) /\ NoDup (mst_ID <$> mco_Storage c)) /\
  (Forall (environment_ok v) (mco_Environment c) /\ NoDup (mev_Name <$> mco_Environment c)) /\
  ((length (mco_Command c) <= 16)%nat /\ Forall argument_ok (mco_Command c) /\ Forall shell_free (mco_Command c)) /\
  services_ok v (mco_Services c) /\ hardware_ok (mco_Hardware c) /\
  externals_ok (mco_ExternalStorage c) (mco_Storage c) /\ identity_ok (mco_RunAs c).

Lemma restart_spec r : ~ bad_restart r <-> restart_ok r.
Proof.
  unfold bad_restart, restart_ok. rewrite !elem_of_cons, elem_of_nil.
  destruct (decide (r = "")), (decide (r = "no")), (decide (r = "unless-stopped")); naive_solver.
Qed.

Lemma command_spec l : range command_step tt l = Ok tt <-> Forall argument_ok l.
Proof.
  apply range_unit. intros x. unfold command_step. guards. rewrite argument_spec. tauto.
Qed.

Lemma component_command_spec l :
  range component_command_step tt l = Ok tt <-> Forall argument_ok l /\ Forall shell_free l.
Proof.
  rewrite <- Forall_and. apply range_unit. intros x. unfold component_command_step, shell_free. guards.
  rewrite argument_spec, !elem_of_cons, elem_of_nil. tauto.
Qed.

Lemma component_fields_spec c v : validateComponentFields c v = Ok tt <->
  (Forall (storage_ok v) (mco_Storage c) /\ NoDup (mst_ID <$> mco_Storage c)) /\
  (Forall (environment_ok v) (mco_Environment c) /\ NoDup (mev_Name <$> mco_Environment c)) /\
  ((length (mco_Command c) <= 16)%nat /\ Forall argument_ok (mco_Command c) /\ Forall shell_free (mco_Command c)) /\
  services_ok v (mco_Services c).
Proof.
  unfold validateComponentFields.
  rewrite ensure_Ok, (range_keyed_ok _ _ _ _ (storage_step_spec v)).
  rewrite ensure_Ok, (range_keyed_ok _ _ _ _ (component_environment_step_spec v)).
  guards. rewrite component_command_spec, <- (services_spec "invalid service"). tauto.
Qed.

Lemma component_step_spec Quote v (releases : list string) :
  remembers mco_ID (component_ok v releases) (component_step Quote v (list_to_set releases)).
Proof.
  intros seen c seen'. unfold component_step, component_ok. guards.
  rewrite restart_spec, component_fields_spec, hardware_spec, external_storage_spec, runtime_identity_spec,
    (string_nonempty (mco_Release c)), elem_of_list_to_set.
  naive_solver.
Qed.

Lemma dependencies_spec (ids : list string) l :
  range (dependency_step (list_to_set ids)) tt l = Ok tt <-> Forall (fun c => Forall (.∈ ids) (mco_DependsOn c)) l.
Proof.
  apply range_unit. intros c. unfold dependency_step. apply range_unit. intros d.
  guards. rewrite elem_of_list_to_set. tauto.
Qed.

(** ** Credentials *)
Definition all_environment (m : Manifest) : list Env :=
  ma_Environment m ++ concat (map mco_Environment (ma_Components m)).

Definition credential_ids (l : list Env) : list string := omap (fun e => mcr_ID <$> mev_Credential e) l.

Definition credential_ok (v : Z) (e : Env) : Prop := forall c, mev_Credential e = Some c ->
  8 <= v /\ (mev_Secret e = true /\ mev_Required e = true /\ mev_Generate e = "random-hex-32" /\ mev_Value e = "") /\
  idPattern (mcr_ID c) = true /\ validCatalogText (mcr_Label c) 64 = true /\
  optionalCatalogText (mcr_Username c) 64 = true.

Lemma range_app {S A} (body : S -> A -> res S) s l l' :
  range body s (l ++ l') = rbind (range body s l) (fun s => range body s l').
Proof.
  revert s. induction l as [|x l IH]; intros s; simpl; [done|]. destruct (body s x); simpl; [apply IH | done].
Qed.

Lemma credential_step_spec v seen e seen' : credential_step v seen e = Ok seen' <->
  credential_ok v e /\ Forall (.∉ seen) (credential_ids [e]) /\ seen' = list_to_set (credential_ids [e]) ∪ seen.
Proof.
  unfold credential_step, credential_ok, credential_ids, NetworkBindingSchemaVersion. simpl.
  destruct (mev_Credential e) as [c|]; simpl.
  - guards. rewrite Forall_singleton. rewrite (right_id_L ∅ (∪)).
    split; [intros; destruct_and?; simplify_eq/=; split_and!; try done | ].
    + intros ? [= <-]. split_and!; try done; by apply dec_stable.
    + intros (Hc & Hs & ->). specialize (Hc _ eq_refl). destruct_and?. split_and!; try done; congruence || tauto.
  - rewrite (left_id_L ∅ (∪)), Forall_nil. naive_solver.
Qed.

Lemma credential_ids_app l l' : credential_ids (l ++ l') = credential_ids l ++ credential_ids l'.
Proof. apply omap_app. Qed.

Lemma credentials_from v l seen seen' : range (credential_step v) seen l = Ok seen' <->
  Forall (credential_ok v) l /\ NoDup (credential_ids l) /\ Forall (.∉ seen) (credential_ids l) /\
  seen' = list_to_set (credential_ids l) ∪ seen.
Proof.
  revert seen. induction l as [|e l IH]; intros seen; cbn [range].
  { simpl. rewrite !Forall_nil, (left_id_L ∅ (∪)). split; [intros [= ->] | naive_solver].
    split_and!; done || constructor. }
  change (e :: l) with ([e] ++ l). rewrite credential_ids_app, Forall_app, Forall_app, NoDup_app, Forall_singleton.
  rewrite rbind_Ok. setoid_rewrite credential_step_spec. setoid_rewrite IH.
  assert (NoDup (credential_ids [e])) by
    (unfold credential_ids; simpl; destruct (mcr_ID <$> mev_Credential e); repeat constructor; set_solver).
  assert (forall s : gset string, list_to_set (credential_ids l) ∪ (list_to_set (credential_ids [e]) ∪ s) =
            list_to_set (credential_ids [e] ++ credential_ids l) ∪ s) as Hset by (intros; set_solver).
  split.
  - intros (s & (He & Hf & ->) & Hl & Hnd & [Hd Hs]%Forall_unseen_app & ->). rewrite Hset. done.
  - intros ((He & Hl) & (_ & Hd & Hnd) & (Hf & Hs) & ->).
    exists (list_to_set (credential_ids [e]) ∪ seen). rewrite Hset, Forall_unseen_app. done.
Qed.

Lemma range_concat v seen cs seen' : range (component_credentials v) seen cs = Ok seen' <->
  range (credential_step v) seen (concat (map mco_Environment cs)) = Ok seen'.
Proof.
  revert seen. induction cs as [|c cs IH]; intros seen; simpl; [done|].
  rewrite range_app, !rbind_Ok. setoid_rewrite IH. unfold component_credentials. by setoid_rewrite in_component_Ok.
Qed.

Lemma presented_ids id l : mpc_ID <$> concat (map (presented id) l) = credential_ids l.
Proof.
  induction l as [|e l IH]; simpl; [done|]. rewrite fmap_app, IH. unfold credential_ids, presented. simpl.
  by destruct (mev_Credential e).
Qed.

Lemma PresentedCredentials_ids m : mpc_ID <$> PresentedCredentials m = credential_ids (all_environment m).
Proof.
  unfold PresentedCredentials, all_environment. rewrite fmap_app, credential_ids_app, presented_ids. f_equal.
  induction (ma_Components m) as [|c cs IH]; simpl; [done|].
  by rewrite fmap_app, credential_ids_app, presented_ids, IH.
Qed.

Definition credentials_ok (m : Manifest) : Prop :=
  Forall (credential_ok (ma_SchemaVersion m)) (all_environment m) /\ NoDup (mpc_ID <$> PresentedCredentials m).

Lemma credentials_spec m : validateCredentialPresentations m = Ok tt <-> credentials_ok m.
Proof.
  unfold validateCredentialPresentations, credentials_ok. rewrite rbind_Ok. setoid_rewrite finish_Ok.
  setoid_rewrite range_concat. rewrite PresentedCredentials_ids.
  transitivity (exists s, range (credential_step (ma_SchemaVersion m)) ∅ (all_environment m) = Ok s).
  { unfold all_environment. setoid_rewrite range_app. setoid_rewrite rbind_Ok. naive_solver. }
  setoid_rewrite credentials_from.
  assert (Forall (.∉ (∅ : gset string)) (credential_ids (all_environment m)))
    by (apply Forall_forall; set_solver).
  naive_solver.
Qed.

(** ** Configuration *)
Definition configuration_ok (m : Manifest) : Prop := forall c, ma_Configuration m = Some c ->
  8 <= ma_SchemaVersion m /\ ma_Components m = [] /\ mcp_Type c = "syncthing-tcp-only-v1" /\
  exists s, s ∈ ma_Storage m /\ mst_ID s = mcp_StorageID c /\ mst_Persistent s = true /\ mst_ReadOnly s = false /\
            mst_ContainerPath s = "/var/syncthing".

Lemma find_storage_spec l id s : NoDup (mst_ID <$> l) ->
  find_storage l id = Some s <-> s ∈ l /\ mst_ID s = id.
Proof.
  intros Hnd. unfold find_storage. split.
  - intros ([i ?] & (Hi & Hid & _)%list_find_Some & ->)%fmap_Some. simpl in *.
    split; [by eapply list_elem_of_lookup_2 | done].
  - intros [[i Hi]%list_elem_of_lookup Hid]. apply fmap_Some. exists (i, s). split; [|done].
    apply list_find_Some. split_and!; [done..|]. intros j y Hj Hji Hy.
    assert (i = j) as ->; [|lia]. eapply (NoDup_lookup (mst_ID <$> l)); [done|rewrite list_lookup_fmap..].
    + by rewrite Hi.
    + rewrite Hj. simpl. congruence.
Qed.

Lemma configuration_spec m : Forall (storage_ok (ma_SchemaVersion m)) (ma_Storage m) ->
  NoDup (mst_ID <$> ma_Storage m) -> validateConfigurationPolicy m = Ok tt <-> configuration_ok m.
Proof.
  intros Hst Hnd. unfold validateConfigurationPolicy, configuration_ok, NetworkBindingSchemaVersion.
  destruct (ma_Configuration m) as [c|]; [|naive_solver]. guards. split.
  - intros ((Hv & Hc & Ht & Hid) & Hf) ? [= <-]. split_and!; [done..|].
    destruct (find_storage _ _) as [s|] eqn:E; [|done]. apply find_storage_spec in E as [Hin E]; [|done].
    exists s. revert Hf. guards. naive_solver.
  - intros H. destruct (H _ eq_refl) as (Hv & Hc & Ht & s & Hin & Hid & Hs).
    assert (idPattern (mcp_StorageID c) = true).
    { rewrite <- Hid. rewrite Forall_forall in Hst. by apply Hst. }
    rewrite (proj2 (find_storage_spec _ _ s Hnd) (conj Hin Hid)). guards. naive_solver.
Qed.

(** ** Backups *)
Definition persistent_of (component : string) (l : list Storage) : list string :=
  (fun s => backup_key component (mst_ID s)) <$> filter (fun s => mst_Persistent s = true) l.

Definition persistent_keys (m : Manifest) : list string :=
  persistent_of "app" (ma_Storage m) ++
  concat (map (fun c => persistent_of (mco_ID c) (mco_Storage c)) (ma_Components m)).

Definition policy_keys (b : BackupPolicy) : list string :=
  (fun i => backup_key (mbs_Component i) (mbs_ID i)) <$> mbp_Storage b.

Definition backup_item_ok (i : BackupStorage) : Prop :=
  mbs_Component i <> "" /\ mbs_ID i <> "" /\ mbs_Disposition i ∈ ["include"; "exclude-ephemeral"].

Definition included (l : list BackupStorage) : nat := length (filter (fun i => mbs_Disposition i = "include") l).

Definition backup_ok (m : Manifest) : Prop := forall b, ma_Backup m = Some b ->
  (mbp_Strategy b = "metadata-only" /\ persistent_keys m = [] /\ mbp_Storage b = []) \/
  (mbp_Strategy b ∈ ["cold-filesystem"; "cold-sqlite-filesystem"] /\ Forall backup_item_ok (mbp_Storage b) /\
   NoDup (policy_keys b) /\ (forall k, k ∈ policy_keys b <-> k ∈ persistent_keys m) /\
   Exists (fun i => mbs_Disposition i = "include") (mbp_Storage b)).

Lemma declare_dom component l declared :
  dom (foldl (declare_storage component) declared l) = dom declared ∪ list_to_set (persistent_of component l).
Proof.
  revert declared. induction l as [|s l IH]; intros declared; simpl; [set_solver|].
  rewrite IH. unfold declare_storage, persistent_of. rewrite filter_cons.
  destruct (mst_Persistent s); simpl; [|done]. rewrite dom_insert_L. set_solver.
Qed.

Lemma declared_dom m : dom (declared_storage m) = list_to_set (persistent_keys m).
Proof.
  unfold declared_storage, persistent_keys. rewrite list_to_set_app_L.
  set (d0 := foldl (declare_storage "app") ∅ (ma_Storage m)).
  assert (dom d0 = list_to_set (persistent_of "app" (ma_Storage m))) as <-.
  { unfold d0. rewrite declare_dom. set_solver. }
  generalize d0. clear d0. induction (ma_Components m) as [|c cs IH]; intros d; simpl; [set_solver|].
  rewrite IH, declare_dom, list_to_set_app_L. set_solver.
Qed.

Lemma backup_step_spec d s i s' : backup_step d s i = Ok s' <->
  backup_key (mbs_Component i) (mbs_ID i) ∉ s.1 /\
  (backup_item_ok i /\ backup_key (mbs_Component i) (mbs_ID i) ∈ dom d) /\
  s' = ({[backup_key (mbs_Component i) (mbs_ID i)]} ∪ s.1, (included [i] + s.2)%nat).
Proof.
  unfold backup_step, backup_item_ok, included. guards. rewrite !elem_of_cons, elem_of_nil.
  rewrite <- not_elem_of_dom. guards. rewrite filter_cons, filter_nil.
  destruct (decide (mbs_Disposition i = "include")), (decide (mbs_Disposition i = "exclude-ephemeral"));
    naive_solver.
Qed.

Lemma included_cons i l : included (i :: l) = (included [i] + included l)%nat.
Proof. unfold included. rewrite !filter_cons, filter_nil. by case_decide. Qed.

Lemma backup_range d l s s' : range (backup_step d) s l = Ok s' <->
  let keys := (fun i => backup_key (mbs_Component i) (mbs_ID i)) <$> l in
  Forall backup_item_ok l /\ Forall (.∈ dom d) keys /\ NoDup keys /\ Forall (.∉ s.1) keys /\
  s' = (list_to_set keys ∪ s.1, (included l + s.2)%nat).
Proof.
  revert s. induction l as [|i l IH]; intros s; cbn zeta; simpl.
  { rewrite !Forall_nil, (left_id_L ∅ (∪)). destruct s. split; [intros [= <-] | naive_solver].
    split_and!; done || constructor. }
  rewrite rbind_Ok. setoid_rewrite backup_step_spec. setoid_rewrite IH. cbn zeta.
  rewrite !Forall_cons, NoDup_cons, (included_cons i l).
  set (k := backup_key _ _). set (ks := (fun i => backup_key (mbs_Component i) (mbs_ID i)) <$> l).
  assert (forall X : gset string, list_to_set ks ∪ ({[k]} ∪ X) = {[k]} ∪ list_to_set ks ∪ X) as Hset
    by (intros; set_solver).
  split.
  - intros (s1 & (Hk & (Hi & Hd) & ->) & Hl & Hds & Hnd & Hf & ->). simpl in *.
    apply Forall_unseen_cons in Hf as [Hk' Hf]. rewrite Hset.
    split_and!; try done. f_equal. lia.
  - intros ((Hi & Hl) & (Hd & Hds) & (Hk' & Hnd) & (Hk & Hf) & ->).
    eexists. split; [split_and!; [done..|reflexivity]|]. simpl. rewrite Hset, Forall_unseen_cons.
    split_and!; try done. f_equal. lia.
Qed.

Lemma included_Exists l : included l <> 0%nat <-> Exists (fun i => mbs_Disposition i = "include") l.
Proof.
  unfold included. rewrite Exists_exists. split.
  - intros H. destruct (filter _ l) as [|i l'] eqn:E; [done|]. exists i.
    assert (i ∈ filter (fun i => mbs_Disposition i = "include") l) as Hi by (rewrite E; apply list_elem_of_here).
    apply list_elem_of_filter in Hi. tauto.
  - intros (i & Hi & Hd) Hlen. apply nil_length_inv in Hlen.
    assert (i ∈ filter (fun i => mbs_Disposition i = "include") l) as H by (by apply list_elem_of_filter).
    rewrite Hlen in H. by apply not_elem_of_nil in H.
Qed.

(** A duplicate-free list whose length is the size of a set that contains it
    lists that set. *)
Lemma covers_spec (ks : list string) (X : gset string) : NoDup ks ->
  Forall (.∈ X) ks /\ length ks = size X <-> (forall k, k ∈ ks <-> k ∈ X).
Proof.
  intros Hnd. pose proof (size_list_to_set (C := gset string) ks Hnd) as Hsz. rewrite Forall_forall. split.
  - intros [Hin Hlen].
    assert ((list_to_set ks : gset string) = X) as <-.
    { apply set_subseteq_size_eq; [set_solver | lia]. }
    intros k. by rewrite elem_of_list_to_set.
  - intros H. split; [naive_solver|]. rewrite <- Hsz. f_equal. set_solver.
Qed.

Lemma size_declared m : size (declared_storage m) = size (list_to_set (persistent_keys m) : gset string).
Proof. by rewrite <- declared_dom, size_dom. Qed.

Lemma no_keys (l : list string) : size (list_to_set l : gset string) = 0%nat <-> l = [].
Proof. rewrite size_empty_iff. destruct l; set_solver. Qed.

Lemma backup_spec m : validateBackupPolicy m = Ok tt <-> backup_ok m.
Proof.
  unfold validateBackupPolicy, backup_ok. destruct (ma_Backup m) as [b|]; [|naive_solver].
  transitivity ((mbp_Strategy b = "metadata-only" /\ persistent_keys m = [] /\ mbp_Storage b = []) \/
    (mbp_Strategy b ∈ ["cold-filesystem"; "cold-sqlite-filesystem"] /\ persistent_keys m <> [] /\
     Forall backup_item_ok (mbp_Storage b) /\ NoDup (policy_keys b) /\
     (Forall (.∈ dom (declared_storage m)) (policy_keys b) /\ length (policy_keys b) = size (dom (declared_storage m))) /\
     included (mbp_Storage b) <> 0%nat)).
  - guards. rewrite !size_declared, size_dom, size_declared, !elem_of_cons, elem_of_nil. unfold policy_keys.
    rewrite length_fmap.
    case_decide as Hs; guards.
    + rewrite no_keys, length_zero_iff_nil. rewrite Hs. naive_solver.
    + rewrite no_keys, rbind_Ok. setoid_rewrite refuse_Ok. setoid_rewrite backup_range. cbn zeta.
      assert (Forall (.∉ (∅ : gset string)) ((fun i => backup_key (mbs_Component i) (mbs_ID i)) <$> mbp_Storage b))
        by (apply Forall_forall; set_solver).
      destruct (decide (mbp_Strategy b = "cold-filesystem")), (decide (mbp_Strategy b = "cold-sqlite-filesystem"));
        split; intros; destruct_and?; destruct_or?; naive_solver lia.
  - rewrite declared_dom, included_Exists. split.
    + intros [?|(? & Hne & ? & Hnd & Hc & ?)] ? [= <-]; [by left|right].
      rewrite covers_spec in Hc by done. split_and!; try done. intros k. by rewrite Hc, elem_of_list_to_set.
    + intros H. destruct (H _ eq_refl) as [?|(? & ? & Hnd & Hc & Hex)]; [by left|right].
      rewrite covers_spec by done. split_and!; try done.
      * intros Hk. apply Exists_exists in Hex as (i & Hi & _).
        assert (backup_key (mbs_Component i) (mbs_ID i) ∈ policy_keys b) as Hin.
        { by apply (list_elem_of_fmap_2 (fun i => backup_key (mbs_Component i) (mbs_ID i))). }
        rewrite Hc, Hk in Hin. by apply not_elem_of_nil in Hin.
      * intros k. by rewrite Hc, elem_of_list_to_set.
Qed.

(** ** The whole manifest *)
Section whole.
Context (ParseRequestURI : string -> option URL) (Quote : string -> string).

Definition notice_ok (n : LifecycleNotice) : Prop :=
  Forall (fun s => optionalCatalogText s 280 = true) [mln_Install n; mln_Stop n; mln_Remove n] /\
  Exists (fun s => s <> "") [mln_Install n; mln_Stop n; mln_Remove n].

Definition metadata_ok (m : Manifest) : Prop :=
  ma_Category m ∈ catalogCategories /\ ma_Kind m ∈ ["application"; "network-service"] /\
  ma_CatalogStatus m ∈ ["standard"; "experimental"] /\
  Forall (fun u => u = "" \/ validCatalogURL ParseRequestURI u = true)
    [ma_WebsiteURL m; ma_SourceURL m; ma_DocumentationURL m] /\
  (ma_Logo m = "" \/ logoPattern (ma_Logo m) = true) /\
  ((length (ma_Limitations m) <= 8)%nat /\ NoDup (ma_Limitations m) /\
   Forall (fun t => validCatalogText t 280 = true) (ma_Limitations m)) /\
  (forall n, ma_LifecycleNotice m = Some n -> notice_ok n).

(** What each schema version admits. *)
Definition features_ok (m : Manifest) : Prop :=
  let v := ma_SchemaVersion m in
  1 <= v <= 9 /\ (v = 1 -> ma_Components m = []) /\ (v = 2 -> (2 <= length (ma_Components m))%nat) /\
  (v = 3 -> length (ma_Components m) <> 1%nat) /\
  (v < 3 -> ma_Hardware m = [] /\ Forall (fun c => mco_Hardware c = []) (ma_Components m)) /\
  (v < 4 -> ma_ExternalStorage m = [] /\ Forall (fun c => mco_ExternalStorage c = []) (ma_Components m)) /\
  (v < 5 -> ma_RunAs m = None /\ Forall (fun s => mst_OwnerUID s = 0) (ma_Storage m) /\
            Forall (fun c => mco_RunAs c = None /\ Forall (fun s => mst_OwnerUID s = 0) (mco_Storage c)) (ma_Components m)) /\
  (is_Some (ma_Backup m) <-> 6 <= v) /\ (v < 7 -> hasCatalogMetadata m = false) /\ (7 <= v -> metadata_ok m).

Definition release_ok (r : Release) : Prop :=
  mrl_Version r <> "" /\ mrl_Registry r ∈ registries /\ ContainsAny (mrl_Repository r) [32; TAB; LF]%N = false /\
  digestPattern (mrl_Digest r) = true /\ mrl_Platform r = "linux/amd64".

Definition identity_text_ok (m : Manifest) : Prop :=
  idPattern (ma_ID m) = true /\ (1 <= String.length (ma_Name m) <= 128)%nat /\
  (String.length (ma_Description m) <= 280)%nat /\ ContainsAny (ma_Description m) [CR; LF] = false.

Definition well_formed (m : Manifest) : Prop :=
  let v := ma_SchemaVersion m in
  features_ok m /\ identity_ok (ma_RunAs m) /\ externals_ok (ma_ExternalStorage m) (ma_Storage m) /\
  hardware_ok (ma_Hardware m) /\ identity_text_ok m /\
  ((1 <= length (ma_Releases m) <= 16)%nat /\ Forall release_ok (ma_Releases m) /\
   NoDup (mrl_Version <$> ma_Releases m)) /\
  (Forall (storage_ok v) (ma_Storage m) /\ NoDup (mst_ID <$> ma_Storage m)) /\
  (Forall (environment_ok v) (ma_Environment m) /\ NoDup (mev_Name <$> ma_Environment m)) /\
  restart_ok (ma_Restart m) /\ ((length (ma_Command m) <= 16)%nat /\ Forall argument_ok (ma_Command m)) /\
  services_ok v (ma_Services m) /\
  ((length (ma_Components m) <= 16)%nat /\
   Forall (component_ok v (mrl_Version <$> ma_Releases m)) (ma_Components m) /\
   NoDup (mco_ID <$> ma_Components m) /\
   Forall (fun c => Forall (.∈ mco_ID <$> ma_Components m) (mco_DependsOn c)) (ma_Components m)) /\
  credentials_ok m /\ configuration_ok m /\ backup_ok m.

Lemma existsb_false {A} (f : A -> bool) (P : A -> Prop) l : (forall x, f x = false <-> P x) ->
  existsb f l <> true <-> Forall P l.
Proof.
  intros Hf. rewrite not_true_iff_false. induction l as [|x l IH]; simpl; [split; [constructor | done]|].
  rewrite orb_false_iff, Forall_cons, Hf, IH. done.
Qed.

Lemma no_hardware cs : componentsHaveHardware cs <> true <-> Forall (fun c => mco_Hardware c = []) cs.
Proof.
  apply existsb_false. intros c. rewrite negb_false_iff, bool_decide_eq_true. apply length_zero_iff_nil.
Qed.
Lemma no_external cs : componentsHaveExternalStorage cs <> true <-> Forall (fun c => mco_ExternalStorage c = []) cs.
Proof.
  apply existsb_false. intros c. rewrite negb_false_iff, bool_decide_eq_true. apply length_zero_iff_nil.
Qed.
Lemma no_owners l : storageHasOwnership l <> true <-> Forall (fun s => mst_OwnerUID s = 0) l.
Proof. apply existsb_false. intros s. rewrite negb_false_iff, bool_decide_eq_true. done. Qed.
Lemma no_identities cs : componentsHaveRuntimeIdentity cs <> true <->
  Forall (fun c => mco_RunAs c = None /\ Forall (fun s => mst_OwnerUID s = 0) (mco_Storage c)) cs.
Proof.
  apply existsb_false. intros c. rewrite orb_false_iff, <- no_owners, not_true_iff_false, bool_decide_eq_false.
  by rewrite eq_None_not_Some.
Qed.

Lemma limitations_spec l : (exists s, range limitation_step ∅ l = Ok s) <->
  Forall (fun t => validCatalogText t 280 = true) l /\ NoDup l.
Proof.
  rewrite (range_keyed_ok id (fun t => validCatalogText t 280 = true)); [by rewrite NoDup_id|].
  intros seen x seen'. unfold limitation_step. guards. naive_solver.
Qed.

Lemma url_spec l : range (url_step ParseRequestURI) tt l = Ok tt <->
  Forall (fun u => u = "" \/ validCatalogURL ParseRequestURI u = true) l.
Proof.
  apply range_unit. intros u. unfold url_step. guards.
  destruct (decide (u = "")), (validCatalogURL ParseRequestURI u); naive_solver.
Qed.

Lemma notice_spec n : validate_notice n = Ok tt <-> (forall x, n = Some x -> notice_ok x).
Proof.
  unfold validate_notice, notice_ok. destruct n as [n|]; [|naive_solver]. guards.
  split.
  - intros ((? & ? & ?) & Hne & _) ? [= <-]. rewrite !Forall_cons, Forall_nil, !Exists_cons, Exists_nil.
    destruct (decide (mln_Install n = "")), (decide (mln_Stop n = "")), (decide (mln_Remove n = "")); tauto.
  - intros H. destruct (H _ eq_refl) as [HF HE]. rewrite !Forall_cons in HF. rewrite !Exists_cons, Exists_nil in HE.
    tauto.
Qed.

Lemma metadata_spec m : validateCatalogMetadata ParseRequestURI m = Ok tt <-> metadata_ok m.
Proof.
  unfold validateCatalogMetadata, metadata_ok. guards. rewrite url_spec, ensure_Ok, limitations_spec, notice_spec.
  assert (forall s a b : string, ~ (s <> a /\ s <> b) <-> s ∈ [a; b]) as Htwo.
  { intros s a b. rewrite !elem_of_cons, elem_of_nil. destruct (decide (s = a)), (decide (s = b)); naive_solver. }
  rewrite !Htwo.
  assert (~ (ma_Logo m <> "" /\ logoPattern (ma_Logo m) = false) <-> ma_Logo m = "" \/ logoPattern (ma_Logo m) = true) as ->
    by (destruct (decide (ma_Logo m = "")), (logoPattern (ma_Logo m)); naive_solver).
  tauto.
Qed.

Lemma not_and_imp (P Q : Prop) : ~ (P /\ Q) <-> (P -> ~ Q).
Proof. tauto. Qed.

Lemma versions_spec m : validate_versions ParseRequestURI m = Ok tt <-> features_ok m.
Proof.
  unfold validate_versions, features_ok, SchemaVersion, MultiContainerSchemaVersion, HardwareSchemaVersion,
    ExternalStorageSchemaVersion, RuntimeIdentitySchemaVersion, BackupSchemaVersion, CatalogMetadataSchemaVersion,
    IngressReadinessSchemaVersion. cbn zeta. rewrite !refuse_Ok, !not_and_imp, !not_or_iff, !Z.nlt_ge.
  rewrite no_hardware, no_external, no_owners, no_identities, <- eq_None_not_Some, not_true_iff_false.
  rewrite !(not_not_iff (length _ = 0%nat)), !length_zero_iff_nil, Nat.nlt_ge.
  assert ((if decide (7 <= ma_SchemaVersion m) then validateCatalogMetadata ParseRequestURI m else Ok tt) = Ok tt <->
          (7 <= ma_SchemaVersion m -> metadata_ok m)) as -> by (case_decide; [rewrite metadata_spec|]; naive_solver).
  assert (is_Some (ma_Backup m) <-> ma_Backup m <> None) as -> by (by rewrite <- not_eq_None_Some).
  destruct (decide (6 <= ma_SchemaVersion m)); naive_solver lia.
Qed.

Lemma release_step_spec : remembers mrl_Version release_ok release_step.
Proof.
  intros seen r seen'. unfold release_step, release_ok. guards. naive_solver.
Qed.

Lemma components_spec m : Forall (storage_ok (ma_SchemaVersion m)) (ma_Storage m) -> NoDup (mst_ID <$> ma_Storage m) ->
  validate_components Quote m = Ok tt <->
  ((length (ma_Components m) <= 16)%nat /\
   Forall (component_ok (ma_SchemaVersion m) (mrl_Version <$> ma_Releases m)) (ma_Components m) /\
   NoDup (mco_ID <$> ma_Components m) /\
   Forall (fun c => Forall (.∈ mco_ID <$> ma_Components m) (mco_DependsOn c)) (ma_Components m)) /\
  credentials_ok m /\ configuration_ok m /\ backup_ok m.
Proof.
  intros Hst Hnd. unfold validate_components. guards. rewrite rbind_Ok.
  setoid_rewrite (range_keyed _ _ _ _ _ (component_step_spec Quote _ (mrl_Version <$> ma_Releases m))).
  setoid_rewrite ensure_unit_Ok. setoid_rewrite ensure_unit_Ok. setoid_rewrite ensure_unit_Ok.
  rewrite <- (configuration_spec m Hst Hnd), <- (credentials_spec m), <- (backup_spec m).
  rewrite <- (dependencies_spec (mco_ID <$> ma_Components m)). naive_solver.
Qed.

Lemma validate_spec m : ValidateManifest ParseRequestURI Quote m = Ok tt <-> well_formed m.
Proof.
  unfold ValidateManifest, well_formed. cbn zeta.
  rewrite !ensure_unit_Ok, versions_spec, runtime_identity_spec, external_storage_spec, hardware_spec.
  rewrite refuse_Ok, refuse_Ok, ensure_Ok, (range_keyed_ok _ _ _ _ release_step_spec).
  rewrite ensure_Ok, (range_keyed_ok _ _ _ _ (storage_step_spec _)).
  rewrite ensure_Ok, (range_keyed_ok _ _ _ _ (environment_step_spec _)).
  guards. rewrite restart_spec, command_spec, ensure_Ok, <- (services_spec "invalid port").
  unfold identity_text_ok.
  assert (String.length (ma_Name m) <> 0%nat <-> (1 <= String.length (ma_Name m))%nat) as -> by lia.
  assert (length (ma_Releases m) <> 0%nat <-> (1 <= length (ma_Releases m))%nat) as -> by lia.
  split; intros; destruct_and?; split_and!; try done; try (by apply components_spec).
  all: match goal with H : validate_components _ _ = _ |- _ => apply components_spec in H; [|done..] end; tauto.
Qed.
End whole.

(** ** Releases and images *)
Lemma release_unique l x y : NoDup (mrl_Version <$> l) -> x ∈ l -> y ∈ l -> mrl_Version x = mrl_Version y -> x = y.
Proof.
  intros Hnd [i Hi]%list_elem_of_lookup [j Hj]%list_elem_of_lookup Hv.
  assert (i = j) as ->; [|congruence].
  eapply (NoDup_lookup (mrl_Version <$> l)); [done|rewrite list_lookup_fmap..]; [by rewrite Hi|].
  rewrite Hj. simpl. congruence.
Qed.

Lemma last_release_from l v r :
  let r' := foldl (fun r x => if decide (mrl_Version x = v) then x else r) r l in
  (r' = r /\ Forall (fun x => mrl_Version x <> v) l) \/ (r' ∈ l /\ mrl_Version r' = v).
Proof.
  revert r. induction l as [|x l IH]; intros r; simpl; [by left|].
  destruct (IH (if decide (mrl_Version x = v) then x else r)) as [[E HF]|[Hin Hv]].
  - simpl in E. rewrite E. case_decide as Hx; [right | left].
    + split; [apply list_elem_of_here | done].
    + split; [done | by constructor].
  - right. split; [by apply list_elem_of_further | done].
Qed.

Lemma last_release_spec l v r : NoDup (mrl_Version <$> l) -> v <> "" ->
  (r ∈ l /\ mrl_Version r = v) <-> last_release l v = r /\ mrl_Version (last_release l v) <> "".
Proof.
  intros Hnd Hv. unfold last_release. destruct (last_release_from l v zero_release) as [[E HF]|[Hin E]]; simpl in *.
  - rewrite E, Forall_forall in *. split; [intros [Hr ?]; by destruct (HF _ Hr) | intros [_ H]; by destruct H].
  - rewrite E. split; [intros [Hr <-] | intros [<- _]; done].
    split; [by eapply release_unique | done].
Qed.

Lemma first_release_spec l v r : NoDup (mrl_Version <$> l) -> r ∈ l -> mrl_Version r = v -> first_release l v = r.
Proof.
  intros Hnd Hr Hv. unfold first_release. destruct (list_find _ l) as [[i x]|] eqn:E.
  - apply list_find_Some in E as (Hi & Hx & _). eapply release_unique; try done; [|congruence].
    by eapply list_elem_of_lookup_2.
  - apply list_find_None in E. rewrite Forall_forall in E. by destruct (E _ Hr).
Qed.

(** An image pinned to a digest in a registry the catalogue allows. *)
Definition pinned (image : string) : Prop := exists registry repository hex,
  image = registry +:+ "/" +:+ repository +:+ "@sha256:" +:+ hex /\ registry ∈ registries /\
  ContainsAny repository [32; TAB; LF]%N = false /\ String.length hex = 64%nat /\ forallb is_hex (text hex) = true.

Lemma digest_text d : digestPattern d = true -> exists hex,
  d = digest_prefix +:+ hex /\ String.length hex = 64%nat /\ forallb is_hex (text hex) = true.
Proof.
  unfold digestPattern. rewrite !andb_true_iff, !bool_decide_eq_true. intros [[Hp Hl] Hx].
  assert (text (untext (drop 7 (text d))) = drop 7 (text d)) as Ht.
  { unfold text at 1, untext. rewrite String.list_ascii_of_string_of_list_ascii, map_map.
    apply map_id_Forall, Forall_forall. intros c Hc. apply N_ascii_embedding.
    pose proof (text_bytes d) as Hb. rewrite Forall_forall in Hb. apply Hb.
    rewrite <- (take_drop 7 (text d)). apply elem_of_app. by right. }
  exists (untext (drop 7 (text d))). split_and!.
  - apply text_inj. rewrite text_app, Ht, <- Hp. by rewrite take_drop.
  - by rewrite <- length_text, Ht.
  - by rewrite Ht.
Qed.

Lemma release_pinned r : release_ok r -> pinned (image_of r).
Proof.
  intros (_ & Hreg & Hrepo & (hex & Hd & Hl & Hx)%digest_text & _).
  exists (mrl_Registry r), (mrl_Repository r), hex. split_and!; try done. unfold image_of. by rewrite Hd.
Qed.

(** ** Parts of a backup key *)
Lemma split_app sep a b cur : split_at sep (a ++ sep :: b) cur = split_at sep a cur ++ split_at sep b [].
Proof.
  revert cur. induction a as [|c a IH]; intros cur; simpl; [by rewrite N.eqb_refl|].
  destruct (c =? sep)%N; simpl; by rewrite IH.
Qed.

Lemma split_single sep s e : split_at sep s [] = [e] -> s = e.
Proof. intros H. pose proof (join_split sep s []) as J. rewrite H in J. simpl in J. done. Qed.

Lemma id_no_slash s : idPattern s = true -> 47%N ∉ text s.
Proof.
  unfold idPattern, pattern. destruct (text s) as [|c cs]; [done|].
  rewrite !andb_true_iff, elem_of_cons. intros [[Hc _] Hcs] [<-|Hin]; [done|].
  rewrite forallb_forall in Hcs. by apply list_elem_of_In, Hcs in Hin.
Qed.

Lemma backup_key_inj c i c' i' : 47%N ∉ text c -> 47%N ∉ text i ->
  backup_key c i = backup_key c' i' -> c = c' /\ i = i'.
Proof.
  intros Hc Hi H. apply (f_equal (fun s => split_at 47 (text s) [])) in H. unfold backup_key in H.
  rewrite !text_app in H. change (text "/") with [47%N] in H. simpl in H. rewrite !split_app in H.
  assert (forall e, 47%N ∉ e -> split_at 47 e [] = [e]) as Hs.
  { intros e He. rewrite <- (app_nil_r e) at 1. by rewrite split_run. }
  rewrite !Hs in H by done.
  destruct (split_at 47 (text c') []) as [|x xs] eqn:E; [by apply split_at_nonempty in E|].
  destruct xs; [|destruct (split_at 47 (text i') []) eqn:E'; [by apply split_at_nonempty in E' | by destruct xs]].
  apply split_single in E. injection H as Hx H. symmetry in H. apply split_single in H.
  split; apply text_inj; congruence.
Qed.

(** ** The scan for repeated fields *)
Section scan.
Context (final : stream_end) (Quote : string -> string).

Definition duplicate_field (e : error) : Prop := exists key, e = ErrMsg ("duplicate JSON field " +:+ Quote key).

Definition scanned (unique : bool) (rest : list token) (r : res (list token)) : Prop :=
  if unique then r = Ok rest else exists e, r = Err e /\ duplicate_field e.

Definition walks (v : json) : Prop := forall fuel ts,
  (length (tokens_of v) <= fuel)%nat -> scanned (unique_keys v) ts (walkJSON final Quote fuel (tokens_of v ++ ts)).

Lemma stream_more_tokens v ts : stream_more final (tokens_of v ++ ts) = true.
Proof. destruct v; done. Qed.

Lemma scanned_bind u u' ts ts' r k : scanned u ts r -> (u = true -> scanned u' ts' (k ts)) ->
  scanned (u && u') ts' (rbind r k).
Proof. destruct u; simpl; [intros -> H; by apply H | intros (e & -> & He) _; by exists e]. Qed.

Lemma walk_array_spec l : Forall walks l -> forall fuel ts,
  (length (concat (map tokens_of l)) < fuel)%nat ->
  scanned (forallb unique_keys l) ts
    (walk_array final Quote fuel (concat (map tokens_of l) ++ TDelim RBrack :: ts)).
Proof.
  induction 1 as [|v l Hv _ IH]; intros [|fuel] ts Hf; simpl in *; try lia; [done|].
  rewrite length_app in Hf. rewrite <- app_assoc, stream_more_tokens.
  eapply scanned_bind; [apply Hv; lia|]. intros _. apply IH. destruct v; simpl in *; lia.
Qed.

Lemma walk_object_spec fs : Forall (fun kv => walks kv.2) fs -> forall fuel seen ts,
  (length (concat (map (fun kv : string * json => TString kv.1 :: tokens_of kv.2) fs)) < fuel)%nat ->
  scanned (bool_decide (NoDup (map fst fs) /\ Forall (.∉ seen) (map fst fs)) && forallb (fun kv => unique_keys kv.2) fs) ts
    (walk_object final Quote fuel seen (concat (map (fun kv => TString kv.1 :: tokens_of kv.2) fs) ++ TDelim RBrace :: ts)).
Proof.
  induction 1 as [|[k v] fs Hv _ IH]; intros [|fuel] seen ts Hf; simpl in *; try lia.
  - done.
  - rewrite length_app in Hf. case_decide as Hk.
    { rewrite bool_decide_eq_false_2 by (rewrite Forall_cons; naive_solver). simpl. eexists. split; [done | by exists k]. }
    rewrite <- app_assoc.
    replace (bool_decide (NoDup (k :: map fst fs) /\ Forall (.∉ seen) (k :: map fst fs)))
      with (bool_decide (NoDup (map fst fs) /\ Forall (.∉ {[k]} ∪ seen) (map fst fs)))
      by (apply bool_decide_ext; rewrite NoDup_cons, Forall_cons, Forall_unseen_cons; tauto).
    rewrite andb_assoc, (andb_comm _ (unique_keys v)), <- andb_assoc.
    eapply scanned_bind; [apply Hv; lia|]. intros _. apply IH. lia.
Qed.

Lemma walkJSON_spec v : walks v.
Proof.
  induction v as [| | | |l IH|fs IH] using json_rect_nested; intros [|fuel] ts Hf;
    simpl in *; try lia; try done; rewrite length_app in Hf; simpl in Hf; rewrite <- app_assoc; simpl.
  - by apply walk_array_spec; [|lia].
  - pose proof (walk_object_spec fs IH fuel ∅ ts ltac:(lia)) as H.
    rewrite (bool_decide_ext _ (NoDup (map fst fs))) in H; [done|].
    assert (Forall (.∉ (∅ : gset string)) (map fst fs)) by (apply Forall_forall; set_solver). tauto.
Qed.

(** A value is itself complete, so text that holds another one is refused. *)
Lemma decodes_app d v ts : decodes d (tokens_of v ++ ts) = match d with O => true | S _ => decodes d ts end.
Proof.
  revert d ts. induction v as [| | | |l IH|fs IH] using json_rect_nested; intros d ts; simpl; try (by destruct d).
  - rewrite <- app_assoc. induction IH as [|v l Hv _ IHl]; simpl; [by destruct d|].
    rewrite <- app_assoc, Hv. apply IHl.
  - rewrite <- app_assoc. induction IH as [|[k v] fs Hv _ IHl]; simpl; [by destruct d|].
    rewrite <- app_assoc. simpl in Hv. rewrite Hv. apply IHl.
Qed.

Lemma unique_stream_spec v rest :
  if unique_keys v
  then unique_stream final Quote (tokens_of v ++ rest) =
       if decodes 0 rest then Err (ErrMsg "trailing JSON") else Ok tt
  else exists e, unique_stream final Quote (tokens_of v ++ rest) = Err e /\ duplicate_field e.
Proof.
  unfold unique_stream.
  pose proof (walkJSON_spec v (S (length (tokens_of v ++ rest))) rest) as H.
  specialize (H ltac:(rewrite length_app; lia)). unfold scanned in H.
  destruct (unique_keys v); [by rewrite H|]. destruct H as (e & -> & He). by exists e.
Qed.
End scan.
