(* ===== verification/ManifestSamples.v ===== *)
(** * Two manifests of the catalogue

    [catalog/manifests/paperless-ngx.json], an application of two components,
    and [catalog/manifests/pihole.json], a network service with fixed ports, a
    directory below [/etc] and a generated password; and stand-ins for the
    library functions validation calls. *)

From S2P Require Import Prelude Protocol Manifest.
From stdpp Require Import base strings list gmap.
From Stdlib Require Import ZArith.

Open Scope Z_scope.

Definition paperless : Manifest :=
  {| ma_SchemaVersion := 9;
     ma_ID := "paperless-ngx";
     ma_Name := "Paperless-ngx";
     ma_Description := "Document management with a web application and internal Redis broker.";
     ma_Releases := [{| mrl_Version := "2.20.15"; mrl_Registry := "docker.io";
        mrl_Repository := "paperlessngx/paperless-ngx";
        mrl_Digest := "sha256:6c86cad803970ea782683a8e80e7403444c5bf3cf70de63b4d3c8e87500db92f";
        mrl_Platform := "linux/amd64" |};
       {| mrl_Version := "redis-7.4.11"; mrl_Registry := "docker.io"; mrl_Repository := "library/redis";
          mrl_Digest := "sha256:71da9275c5f3fcb97d0fa0c8c5b36cc995327265420f17a04bfd544f458059f7";
          mrl_Platform := "linux/amd64" |}];
     ma_Storage := [];
     ma_Environment := [];
     ma_Command := [];
     ma_Restart := "unless-stopped";
     ma_Services := [{| ms_ID := "web"; ms_Name := "Web Interface"; ms_Protocol := "http";
        ms_ContainerPort := 8000; ms_DefaultExposure := ""; ms_FixedHostPort := 0;
        ms_Ingress := Some {| ie_ExposureModes := ["lan"; "managed-https"; "cloudflare-tunnel"]; ie_External := true |}; ms_Readiness := Some {| mrc_Type := "http"; mrc_Path := "/"; mrc_ExpectedStatus := [200; 301; 302; 303; 307; 308; 401]; mrc_TimeoutSeconds := 5 |} |}];
     ma_Components := [{| mco_ID := "broker"; mco_Release := "redis-7.4.11"; mco_Storage := [{| mst_ID := "data";
        mst_ContainerPath := "/data"; mst_Persistent := true; mst_ReadOnly := false; mst_SystemConfig := false;
        mst_OwnerUID := 0; mst_OwnerGID := 0 |}]; mco_Environment := []; mco_Command := [];
        mco_Services := [{| ms_ID := "redis"; ms_Name := "Redis"; ms_Protocol := "tcp"; ms_ContainerPort := 6379;
        ms_DefaultExposure := ""; ms_FixedHostPort := 0; ms_Ingress := None; ms_Readiness := None |}];
        mco_DependsOn := []; mco_Restart := "unless-stopped"; mco_Hardware := []; mco_ExternalStorage := [];
        mco_RunAs := None |};
       {| mco_ID := "web"; mco_Release := "2.20.15"; mco_Storage := [{| mst_ID := "data";
          mst_ContainerPath := "/usr/src/paperless/data"; mst_Persistent := true; mst_ReadOnly := false;
          mst_SystemConfig := false; mst_OwnerUID := 0; mst_OwnerGID := 0 |};
       {| mst_ID := "media"; mst_ContainerPath := "/usr/src/paperless/media"; mst_Persistent := true;
          mst_ReadOnly := false; mst_SystemConfig := false; mst_OwnerUID := 0; mst_OwnerGID := 0 |};
       {| mst_ID := "consume"; mst_ContainerPath := "/usr/src/paperless/consume"; mst_Persistent := true;
          mst_ReadOnly := false; mst_SystemConfig := false; mst_OwnerUID := 0; mst_OwnerGID := 0 |};
       {| mst_ID := "export"; mst_ContainerPath := "/usr/src/paperless/export"; mst_Persistent := true;
          mst_ReadOnly := false; mst_SystemConfig := false; mst_OwnerUID := 0; mst_OwnerGID := 0 |}];
          mco_Environment := [{| mev_Name := "PAPERLESS_REDIS"; mev_Value := "redis://broker:6379";
          mev_Secret := false; mev_Generate := ""; mev_Required := false; mev_Credential := None |}];
          mco_Command := []; mco_Services := [{| ms_ID := "web"; ms_Name := "Web Interface";
          ms_Protocol := "http"; ms_ContainerPort := 8000; ms_DefaultExposure := ""; ms_FixedHostPort := 0;
          ms_Ingress := Some {| ie_ExposureModes := ["lan"; "managed-https"; "cloudflare-tunnel"]; ie_External := true |}; ms_Readiness := Some {| mrc_Type := "http"; mrc_Path := "/"; mrc_ExpectedStatus := [200; 301; 302; 303; 307; 308; 401]; mrc_TimeoutSeconds := 5 |} |}]; mco_DependsOn := ["broker"]; mco_Restart := "unless-stopped"; mco_Hardware := []; mco_ExternalStorage := []; mco_RunAs := None |}];
     ma_Hardware := [];
     ma_ExternalStorage := [];
     ma_RunAs := None;
     ma_Backup := Some {| mbp_Strategy := "cold-sqlite-filesystem"; mbp_Storage := [{| mbs_Component := "broker";
        mbs_ID := "data"; mbs_Disposition := "exclude-ephemeral" |};
       {| mbs_Component := "web"; mbs_ID := "data"; mbs_Disposition := "include" |};
       {| mbs_Component := "web"; mbs_ID := "media"; mbs_Disposition := "include" |};
       {| mbs_Component := "web"; mbs_ID := "consume"; mbs_Disposition := "include" |};
       {| mbs_Component := "web"; mbs_ID := "export"; mbs_Disposition := "include" |}] |};
     ma_Category := "Documents";
     ma_Kind := "application";
     ma_CatalogStatus := "standard";
     ma_WebsiteURL := "https://docs.paperless-ngx.com/";
     ma_SourceURL := "https://github.com/paperless-ngx/paperless-ngx";
     ma_DocumentationURL := "https://docs.paperless-ngx.com/";
     ma_Logo := "";
     ma_Limitations := [];
     ma_LifecycleNotice := None;
     ma_Configuration := None |}.

Definition pihole : Manifest :=
  {| ma_SchemaVersion := 8;
     ma_ID := "pihole";
     ma_Name := "Pi-hole";
     ma_Description := "Provide network-wide DNS filtering with a locally managed administration interface.";
     ma_Releases := [{| mrl_Version := "2026.09.0"; mrl_Registry := "docker.io";
        mrl_Repository := "pihole/pihole";
        mrl_Digest := "sha256:bd3fc82ee1b1473a45fc074379dcd9fd7ce3e933809c44e10c0df9b22fd5de63";
        mrl_Platform := "linux/amd64" |}];
     ma_Storage := [{| mst_ID := "config"; mst_ContainerPath := "/etc/pihole"; mst_Persistent := true;
        mst_ReadOnly := false; mst_SystemConfig := true; mst_OwnerUID := 0; mst_OwnerGID := 0 |}];
     ma_Environment := [{| mev_Name := "FTLCONF_dns_listeningMode"; mev_Value := "ALL"; mev_Secret := false;
        mev_Generate := ""; mev_Required := false; mev_Credential := None |};
       {| mev_Name := "FTLCONF_webserver_api_password"; mev_Value := ""; mev_Secret := true;
          mev_Generate := "random-hex-32"; mev_Required := true;
          mev_Credential := Some {| mcr_ID := "admin-password"; mcr_Label := "Admin password";
          mcr_Username := "" |} |}];
     ma_Command := [];
     ma_Restart := "unless-stopped";
     ma_Services := [{| ms_ID := "admin"; ms_Name := "Admin Web Interface"; ms_Protocol := "http";
        ms_ContainerPort := 80; ms_DefaultExposure := "loopback"; ms_FixedHostPort := 0; ms_Ingress := None;
        ms_Readiness := None |};
       {| ms_ID := "dns-tcp"; ms_Name := "DNS TCP"; ms_Protocol := "tcp"; ms_ContainerPort := 53;
          ms_DefaultExposure := "lan"; ms_FixedHostPort := 53; ms_Ingress := None; ms_Readiness := None |};
       {| ms_ID := "dns-udp"; ms_Name := "DNS UDP"; ms_Protocol := "udp"; ms_ContainerPort := 53;
          ms_DefaultExposure := "lan"; ms_FixedHostPort := 53; ms_Ingress := None; ms_Readiness := None |}];
     ma_Components := [];
     ma_Hardware := [];
     ma_ExternalStorage := [];
     ma_RunAs := None;
     ma_Backup := Some {| mbp_Strategy := "cold-filesystem"; mbp_Storage := [{| mbs_Component := "app";
        mbs_ID := "config"; mbs_Disposition := "include" |}] |};
     ma_Category := "Networking";
     ma_Kind := "network-service";
     ma_CatalogStatus := "experimental";
     ma_WebsiteURL := "https://pi-hole.net/";
     ma_SourceURL := "https://github.com/pi-hole/docker-pi-hole";
     ma_DocumentationURL := "https://docs.pi-hole.net/docker/";
     ma_Logo := "";
     ma_Limitations := ["This KITPro profile provides DNS only; DHCP, NTP, and other optional Pi-hole services are not exposed or supported."; "KITPro uses bridge networking without host networking, privileged mode, or added Linux capabilities."; "KITPro does not change router or client DNS settings; those settings remain under administrator control."; "This profile does not provide high availability or secondary Pi-hole replication."; "KITPro does not configure public HTTPS, a reverse proxy, or Internet publishing for the admin interface."; "Stopping or removing the Pi-hole runtime can interrupt DNS for clients configured to use this instance."];
     ma_LifecycleNotice := Some {| mln_Install := "Installing Pi-hole does not change router or client DNS settings. If clients later use this server for DNS, Pi-hole becomes infrastructure-critical."; mln_Stop := "This operation can interrupt DNS for clients configured to use this Pi-hole instance."; mln_Remove := "Removing the Pi-hole runtime can interrupt DNS. KITPro retains Pi-hole application data and does not revert router or client DNS settings."; mln_RequireAcknowledgement := true |};
     ma_Configuration := None |}.

(** URLs of these two manifests are [https] URLs with a host. *)
Definition https_uri (u : string) : option URL :=
  if HasPrefix u "https://"
  then Some {| u_Scheme := "https"; u_Host := "host"; u_HasUser := false; u_Fragment := "" |} else None.

Definition plain_quote (s : string) : string := quote +:+ s +:+ quote.

Example paperless_valid : ValidateManifest https_uri plain_quote paperless = Ok tt.
Proof. vm_compute. reflexivity. Qed.

Example pihole_valid : ValidateManifest https_uri plain_quote pihole = Ok tt.
Proof. vm_compute. reflexivity. Qed.
