(* ===== verification/ManifestProps.v ===== *)
(** * What validation, resolution and loading of manifests guarantee *)

From S2P Require Import Prelude Protocol Coordinator NetIP ExposurePolicy Ingress IngressProofs IngressRender Manifest ManifestProofs ManifestSamples.
From stdpp Require Import base strings list gmap.
From Stdlib Require Import ZArith Lia Ascii.

Open Scope Z_scope.

(** ** Where things are declared *)
Definition declared_in (m : Manifest) (component : string) (s : Storage) : Prop :=
  (component = "app" /\ s ∈ ma_Storage m) \/
  (exists c, c ∈ ma_Components m /\ mco_ID c = component /\ s ∈ mco_Storage c).

Definition environment_in (m : Manifest) (component : string) (e : Env) : Prop :=
  (component = "" /\ e ∈ ma_Environment m) \/
  (exists c, c ∈ ma_Components m /\ mco_ID c = component /\ e ∈ mco_Environment c).

Lemma elem_of_concat_map {A B} (f : A -> list B) l y : y ∈ concat (map f l) <-> exists x, x ∈ l /\ y ∈ f x.
Proof.
  induction l as [|x l IH]; simpl; [set_solver|]. rewrite elem_of_app, IH. setoid_rewrite elem_of_cons. naive_solver.
Qed.

Lemma persistent_keys_spec m k : k ∈ persistent_keys m <->
  exists component s, declared_in m component s /\ mst_Persistent s = true /\ k = backup_key component (mst_ID s).
Proof.
  assert (forall component l, k ∈ persistent_of component l <->
    exists s, s ∈ l /\ mst_Persistent s = true /\ k = backup_key component (mst_ID s)) as Hof.
  { intros component l. unfold persistent_of. rewrite list_elem_of_fmap. setoid_rewrite list_elem_of_filter. naive_solver. }
  unfold persistent_keys, declared_in. rewrite elem_of_app, elem_of_concat_map, Hof. setoid_rewrite Hof. naive_solver.
Qed.

(** Parts of [well_formed]. *)
Section parts.
Context (P : string -> option URL) (m : Manifest) (Hwf : well_formed P m).

Lemma wf_releases : Forall release_ok (ma_Releases m) /\ NoDup (mrl_Version <$> ma_Releases m).
Proof using Hwf. unfold well_formed in Hwf. cbn zeta in Hwf. tauto. Qed.
Lemma wf_storage s : s ∈ ma_Storage m -> storage_ok (ma_SchemaVersion m) s.
Proof using Hwf. unfold well_formed in Hwf. cbn zeta in Hwf. apply Forall_forall. tauto. Qed.
Lemma wf_component c : c ∈ ma_Components m ->
  component_ok (ma_SchemaVersion m) (mrl_Version <$> ma_Releases m) c.
Proof using Hwf. unfold well_formed in Hwf. cbn zeta in Hwf. apply Forall_forall. tauto. Qed.
Lemma wf_credentials : credentials_ok m.
Proof using Hwf. unfold well_formed in Hwf. cbn zeta in Hwf. tauto. Qed.
Lemma wf_backup : backup_ok m.
Proof using Hwf. unfold well_formed in Hwf. cbn zeta in Hwf. tauto. Qed.

Lemma declared_no_slash component s : declared_in m component s ->
  47%N ∉ text component /\ 47%N ∉ text (mst_ID s).
Proof using Hwf.
  intros [[-> Hs%wf_storage]|(c & (Hid & _ & _ & _ & [Hst _] & _)%wf_component & <- & Hs)].
  - split; [|apply id_no_slash, Hs]. cbn. rewrite !elem_of_cons, elem_of_nil. naive_solver.
  - rewrite Forall_forall in Hst. split; [by apply id_no_slash | by apply id_no_slash, Hst].
Qed.

Lemma component_release c : c ∈ ma_Components m ->
  exists r, r ∈ ma_Releases m /\ mrl_Version r = mco_Release c /\ first_release (ma_Releases m) (mco_Release c) = r.
Proof using Hwf.
  intros (_ & _ & Hr & _)%wf_component. apply list_elem_of_fmap in Hr as (r & Hv & Hr).
  exists r. split_and!; try done. by apply first_release_spec; [apply wf_releases|..].
Qed.
End parts.

(** ** Resolution *)

(** A component with the image of the release it names. *)
Definition resolved (m : Manifest) (c : ManifestComponent) (rc : ResolvedComponent) : Prop :=
  exists r, r ∈ ma_Releases m /\ mrl_Version r = mco_Release c /\ pinned (image_of r) /\
  rc = {| mrs_ID := mco_ID c; mrs_ImageDigest := image_of r; mrs_Command := mco_Command c;
          mrs_Environment := mco_Environment c; mrs_Storage := mco_Storage c; mrs_Services := mco_Services c;
          mrs_DependsOn := mco_DependsOn c; mrs_Restart := mco_Restart c; mrs_Hardware := mco_Hardware c;
          mrs_ExternalStorage := mco_ExternalStorage c; mrs_RunAs := mco_RunAs c |}.

Definition instance_ok (instance network dataPath : string) : Prop :=
  idPattern instance = true /\ network <> "" /\ ContainsAny network [47; 46; 92]%N = false /\
  HasPrefix dataPath "/srv/kitpro/apps/" = true /\ Contains dataPath ".." = false /\
  ContainsAny dataPath [92%N; CR; LF] = false.

Definition plan_of (m : Manifest) (r : Release) (rcs : list ResolvedComponent) (instance network dataPath : string)
    : ManifestPlan :=
  {| mpl_ApplicationID := ma_ID m; mpl_ReleaseID := mrl_Version r; mpl_InstanceID := instance;
     mpl_ImageDigest := image_of r; mpl_NetworkName := network; mpl_DataPath := dataPath;
     mpl_Restart := ma_Restart m; mpl_Command := ma_Command m; mpl_Environment := ma_Environment m;
     mpl_Storage := ma_Storage m; mpl_Services := ma_Services m; mpl_Components := ma_Components m;
     mpl_ResolvedComponents := rcs; mpl_Hardware := ma_Hardware m; mpl_ExternalStorage := ma_ExternalStorage m;
     mpl_RunAs := ma_RunAs m; mpl_Backup := ma_Backup m; mpl_Configuration := ma_Configuration m |}.

Lemma clones m : cloneBackupPolicy (ma_Backup m) = ma_Backup m /\
  cloneConfigurationPolicy (ma_Configuration m) = ma_Configuration m.
Proof. destruct (ma_Backup m) as [[]|], (ma_Configuration m) as [[]|]; done. Qed.

Lemma resolved_components P m rcs : well_formed P m ->
  Forall2 (resolved m) (ma_Components m) rcs <-> rcs = map (resolve_component (ma_Releases m)) (ma_Components m).
Proof.
  intros Hwf. destruct (wf_releases P m Hwf) as [Hok Hnd]. rewrite Forall_forall in Hok.
  assert (forall c rc, c ∈ ma_Components m -> resolved m c rc <-> rc = resolve_component (ma_Releases m) c) as Hc.
  { intros c rc Hc. destruct (component_release P m Hwf c Hc) as (r & Hr & Hv & Hf).
    unfold resolved, resolve_component. rewrite Hf. split.
    - intros (r' & Hr' & Hv' & _ & ->). assert (r' = r) as -> by (eapply release_unique; try done; congruence). done.
    - intros ->. exists r. split_and!; try done. by apply release_pinned, Hok. }
  revert rcs Hc. generalize (ma_Components m). clear Hwf. induction l as [|c cs IH]; intros rcs Hc; simpl.
  { split; [by inversion 1 | intros ->; constructor]. }
  split.
  - inversion 1 as [|? rc ? rcs' Hrc Hrcs]; simplify_eq. f_equal.
    + apply Hc; [apply list_elem_of_here | done].
    + apply IH; [|done]. intros. apply Hc. by apply list_elem_of_further.
  - intros ->. constructor; [apply Hc; [apply list_elem_of_here | done]|].
    apply IH; [|done]. intros. apply Hc. by apply list_elem_of_further.
Qed.

(** ** Loading *)
Section loading.
Context (P : string -> option URL) (Quote : string -> string)
        (NewDecoder : string -> json_stream) (DecodeManifest : string -> res Manifest)
        (ReadFile : string -> res string).
Notation parse := (Parse P Quote NewDecoder DecodeManifest).

Definition file_holds (n : string) (m : Manifest) : Prop :=
  exists b, ReadFile ("manifests/" +:+ n) = Ok b /\ parse b = Ok m.

Definition by_own_id (ms : list Manifest) : gmap string Manifest := list_to_map ((fun m => (ma_ID m, m)) <$> ms).

Lemma load_step_spec out n out' : load_step P Quote NewDecoder DecodeManifest ReadFile out n = Ok out' <->
  exists m, file_holds n m /\ out !! ma_ID m = None /\ out' = <[ma_ID m := m]> out.
Proof.
  unfold load_step, file_holds. rewrite rbind_Ok. split.
  - intros (b & Hb & H). destruct (parse b) as [m|] eqn:Hp; [|done]. exists m. revert H. guards.
    rewrite <- eq_None_not_Some. intros [Hn [= <-]]. split_and!; eauto.
  - intros (m & (b & Hb & Hp) & Hn & ->). exists b. rewrite Hp. guards. by rewrite <- eq_None_not_Some.
Qed.

Lemma by_own_id_cons m ms (out : gmap string Manifest) : by_own_id (m :: ms) ∪ out = <[ma_ID m := m]> (by_own_id ms ∪ out).
Proof. unfold by_own_id. rewrite fmap_cons, list_to_map_cons. by rewrite <- insert_union_l. Qed.

Lemma insert_by_own_id m ms out : ma_ID m ∉ ma_ID <$> ms ->
  by_own_id ms ∪ <[ma_ID m := m]> out = <[ma_ID m := m]> (by_own_id ms ∪ out).
Proof.
  intros Hm. symmetry. apply insert_union_r. apply not_elem_of_list_to_map. by rewrite <- list_fmap_compose.
Qed.

Lemma load_range names out out' :
  range (load_step P Quote NewDecoder DecodeManifest ReadFile) out names = Ok out' <->
  exists ms, Forall2 file_holds names ms /\ NoDup (ma_ID <$> ms) /\ Forall (fun m => out !! ma_ID m = None) ms /\
             out' = by_own_id ms ∪ out.
Proof.
  revert out. induction names as [|n names IH]; intros out; simpl.
  { split.
    - intros [= <-]. exists []. split_and!; try constructor. unfold by_own_id. simpl. by rewrite (left_id_L ∅ (∪)).
    - intros (ms & HF & _ & _ & ->). inversion HF. unfold by_own_id. simpl. by rewrite (left_id_L ∅ (∪)). }
  rewrite rbind_Ok. setoid_rewrite load_step_spec. setoid_rewrite IH. split.
  - intros (o & (m & Hf & Hn & ->) & ms & HF & Hnd & Hfr & ->). rewrite Forall_forall in Hfr. exists (m :: ms).
    assert (ma_ID m ∉ ma_ID <$> ms) as Hm.
    { intros (m' & E & Hm')%list_elem_of_fmap. apply Hfr in Hm'. by rewrite <- E, lookup_insert_eq in Hm'. }
    split_and!; [by constructor | by constructor | |].
    + constructor; [done|]. apply Forall_forall. intros m' Hm'. specialize (Hfr _ Hm'). simpl in Hfr.
      apply lookup_insert_None in Hfr. tauto.
    + rewrite by_own_id_cons. by apply insert_by_own_id.
  - intros (ms & HF & Hnd & Hfr & ->). inversion HF as [|? m ? ms' Hm HF']; simplify_eq/=.
    apply NoDup_cons in Hnd as [Hm' Hnd]. apply Forall_cons in Hfr as [Hn Hfr]. rewrite Forall_forall in Hfr.
    eexists. split; [by exists m|]. exists ms'. split_and!; try done.
    + apply Forall_forall. intros x Hx. apply lookup_insert_None. split; [by apply Hfr|].
      intros E. apply Hm'. rewrite E. by apply list_elem_of_fmap_2.
    + rewrite by_own_id_cons. symmetry. by apply insert_by_own_id.
Qed.
End loading.

(** ** Lookup by credential *)
Lemma presented_spec component l c : c ∈ concat (map (presented component) l) <->
  exists e cr, e ∈ l /\ mev_Credential e = Some cr /\
    c = {| mpc_ID := mcr_ID cr; mpc_Label := mcr_Label cr; mpc_Username := mcr_Username cr;
           mpc_ComponentID := component; mpc_EnvironmentName := mev_Name e |}.
Proof.
  rewrite elem_of_concat_map. unfold presented. split.
  - intros (e & He & Hc). destruct (mev_Credential e) as [cr|] eqn:E; [|by apply not_elem_of_nil in Hc].
    apply list_elem_of_singleton in Hc as ->. eauto.
  - intros (e & cr & He & E & ->). exists e. rewrite E. split; [done | by apply list_elem_of_singleton].
Qed.

Lemma presented_in m c : c ∈ PresentedCredentials m <->
  exists e cr, environment_in m (mpc_ComponentID c) e /\ mev_Credential e = Some cr /\
    mpc_ID c = mcr_ID cr /\ mpc_Label c = mcr_Label cr /\ mpc_Username c = mcr_Username cr /\
    mpc_EnvironmentName c = mev_Name e.
Proof.
  unfold PresentedCredentials, environment_in. rewrite elem_of_app, presented_spec, elem_of_concat_map.
  setoid_rewrite presented_spec. destruct c as [i l u comp name]; simpl. split.
  - intros [(e & cr & He & E & [= -> -> -> -> ->])|(k & Hk & e & cr & He & E & [= -> -> -> -> ->])];
      exists e, cr; naive_solver.
  - intros (e & cr & [[-> He]|(k & Hk & <- & He)] & E & -> & -> & -> & ->); [left | right]; naive_solver.
Qed.

Lemma environment_in_all m component e : environment_in m component e -> e ∈ all_environment m.
Proof. unfold environment_in, all_environment. rewrite elem_of_app, elem_of_concat_map. naive_solver. Qed.

Lemma find_presented m id c : NoDup (mpc_ID <$> PresentedCredentials m) ->
  FindPresentedCredential m id = Some c <-> c ∈ PresentedCredentials m /\ mpc_ID c = id.
Proof.
  intros Hnd. unfold FindPresentedCredential. split.
  - intros ([i ?] & (Hi & Hid & _)%list_find_Some & ->)%fmap_Some. simpl in *.
    split; [by eapply list_elem_of_lookup_2 | done].
  - intros [[i Hi]%list_elem_of_lookup Hid]. apply fmap_Some. exists (i, c). split; [|done].
    apply list_find_Some. split_and!; [done..|]. intros j y Hj Hji Hy.
    assert (i = j) as ->; [|lia]. eapply (NoDup_lookup (mpc_ID <$> PresentedCredentials m)); [done|rewrite list_lookup_fmap..].
    + by rewrite Hi.
    + rewrite Hj. simpl. congruence.
Qed.

Lemma filter_unique {A B} (f : A -> B) (Q : A -> Prop) `{!forall x, Decision (Q x)} (l : list A) x :
  NoDup (f <$> l) -> x ∈ l -> Q x -> (forall y, y ∈ l -> Q y -> f y = f x) -> length (filter Q l) = 1%nat.
Proof.
  intros Hnd Hx HQ Hf. assert (filter Q l = [x]) as ->; [|done].
  apply list_elem_of_split in Hx as (l1 & l2 & ->). rewrite fmap_app, fmap_cons in Hnd.
  apply NoDup_app in Hnd as (_ & H1 & [H2 _]%NoDup_cons).
  rewrite filter_app, filter_cons_True by done.
  assert (forall l', (forall y, y ∈ l' -> Q y -> False) -> filter Q l' = []) as Hnil.
  { intros l' H'. destruct (filter Q l') as [|y l''] eqn:E; [done|].
    assert (y ∈ filter Q l') as Hy by (rewrite E; apply list_elem_of_here).
    apply list_elem_of_filter in Hy as [? ?]. by edestruct H'. }
  rewrite !Hnil; [done|..]; intros y Hy HQy.
  - apply H2. rewrite <- (Hf y); [by apply list_elem_of_fmap_2 | set_solver | done].
  - apply (H1 (f y)); [by apply list_elem_of_fmap_2|]. rewrite (Hf y); [apply list_elem_of_here | set_solver | done].
Qed.

(** ** Mount points *)

(** Directories a container keeps for itself. *)
Definition system_directories : list string := ["/proc"; "/sys"; "/dev"].

Definition below (dir path : string) : Prop := path = dir \/ HasPrefix path (dir +:+ "/") = true.

Lemma prefix_app s t u : String.prefix (s +:+ t) u = true -> String.prefix s u = true.
Proof.
  revert u. induction s as [|c s IH]; intros u; [by destruct u|].
  change (String c s +:+ t) with (String c (s +:+ t)). destruct u as [|c' u]; simpl; [done|].
  destruct (ascii_dec c c'); [apply IH | done].
Qed.

Lemma below_prefix dir path : below dir path -> HasPrefix path dir = true.
Proof.
  intros [->|H]; [|by eapply prefix_app]. unfold HasPrefix. induction dir; simpl; [done|].
  destruct (ascii_dec a a); done.
Qed.

Module ManifestClaims.

(** C16. A manifest passes validation exactly when it is well formed: every
    declaration is of the form the reference states, names and endpoints are
    distinct, components name declared releases and components, each
    credential is a generated secret, the schema version admits the features
    used, and the backup policy classifies the persistent storage. *)
Theorem manifest_validation_exact (P : string -> option URL) (Quote : string -> string) (m : Manifest) :
  ValidateManifest P Quote m = Ok tt <-> well_formed P m.
Proof. apply validate_spec. Qed.

(** Resolution succeeds exactly on a well-formed manifest, a declared
    release and an instance with safe paths; the plan is then the manifest's,
    with the image of that release, and with its components in order, each
    with the image of the release it names; all these images are pinned to a
    digest in an allowed registry. *)
Theorem resolve_exact (P : string -> option URL) (Quote : string -> string) (m : Manifest)
    (release instance network dataPath : string) (p : ManifestPlan) :
  Resolve P Quote m release instance network dataPath = Ok p <->
  well_formed P m /\ instance_ok instance network dataPath /\
  exists r rcs, r ∈ ma_Releases m /\ mrl_Version r = release /\ pinned (image_of r) /\
    Forall2 (resolved m) (ma_Components m) rcs /\ p = plan_of m r rcs instance network dataPath.
Proof.
  unfold Resolve, instance_ok. destruct (clones m) as [-> ->]. guards. rewrite validate_spec. split.
  - intros (Hwf & Hv & Hi & [= <-]). split_and!; try tauto. destruct (wf_releases P m Hwf) as [Hok Hnd].
    rewrite Forall_forall in Hok.
    destruct (decide (release = "")) as [->|Hne].
    { unfold last_release in Hv. destruct (last_release_from (ma_Releases m) "" zero_release) as [[E _]|[Hin E]];
        simpl in *; by rewrite E in Hv. }
    destruct (proj2 (last_release_spec _ _ _ Hnd Hne) (conj eq_refl Hv)) as [Hin Hr].
    eexists _, (map (resolve_component (ma_Releases m)) (ma_Components m)).
    split_and!; [done..| by apply release_pinned, Hok | by apply (resolved_components P) | done].
  - intros (Hwf & Hi & r & rcs & Hin & Hr & _ & Hrc & ->). destruct (wf_releases P m Hwf) as [Hok Hnd].
    rewrite Forall_forall in Hok. assert (release <> "") as Hne by (subst release; by apply Hok).
    destruct (proj1 (last_release_spec _ _ r Hnd Hne) (conj Hin Hr)) as [Hl Hv].
    rewrite (resolved_components P) in Hrc by done. subst rcs. rewrite Hl in *. done.
Qed.

(** With a backup strategy that copies files, an accepted manifest
    classifies each persistent storage declaration, named by its component
    (the manifest's own as [app]) and its identifier, exactly once, and
    classifies nothing else. *)
Theorem backup_classifies_storage (P : string -> option URL) (Quote : string -> string) (m : Manifest)
    (b : BackupPolicy)
    (Hvalid : ValidateManifest P Quote m = Ok tt) (Hb : ma_Backup m = Some b)
    (Hs : mbp_Strategy b <> "metadata-only") :
  (forall component s, declared_in m component s -> mst_Persistent s = true ->
     length (filter (fun i => mbs_Component i = component /\ mbs_ID i = mst_ID s) (mbp_Storage b)) = 1%nat) /\
  (forall i, i ∈ mbp_Storage b ->
     exists s, declared_in m (mbs_Component i) s /\ mst_Persistent s = true /\ mst_ID s = mbs_ID i).
Proof.
  rewrite validate_spec in Hvalid. pose proof (wf_backup P m Hvalid b Hb) as [[? _]|(_ & _ & Hnd & Hk & _)]; [done|].
  split.
  - intros component s Hd Hp. destruct (declared_no_slash P m Hvalid component s Hd) as [Hc Hi].
    assert (backup_key component (mst_ID s) ∈ policy_keys b) as (i & E & Hin)%list_elem_of_fmap.
    { apply Hk, persistent_keys_spec. eauto. }
    apply backup_key_inj in E as [E1 E2]; [|done..].
    apply (filter_unique _ _ _ i Hnd Hin); [done|]. intros j _ [-> ->]. by rewrite <- E1, <- E2.
  - intros i Hin. assert (backup_key (mbs_Component i) (mbs_ID i) ∈ persistent_keys m) as Hkey.
    { apply Hk. by apply (list_elem_of_fmap_2 (fun i => backup_key (mbs_Component i) (mbs_ID i))). }
    apply persistent_keys_spec in Hkey as (component & s & Hd & Hp & E).
    destruct (declared_no_slash P m Hvalid component s Hd) as [Hc Hi]. symmetry in E.
    apply backup_key_inj in E as [<- <-]; [|done..]. eauto.
Qed.

Lemma backup_classifies_storage_witness :
  length (filter (fun i => mbs_Component i = "app" /\ mbs_ID i = "config") [{| mbs_Component := "app";
    mbs_ID := "config"; mbs_Disposition := "include" |}]) = 1%nat.
Proof.
  apply (proj1 (backup_classifies_storage https_uri plain_quote pihole
    {| mbp_Strategy := "cold-filesystem"; mbp_Storage := [{| mbs_Component := "app"; mbs_ID := "config";
       mbs_Disposition := "include" |}] |} ltac:(vm_compute; reflexivity) eq_refl ltac:(discriminate))
    "app" {| mst_ID := "config"; mst_ContainerPath := "/etc/pihole"; mst_Persistent := true; mst_ReadOnly := false;
             mst_SystemConfig := true; mst_OwnerUID := 0; mst_OwnerGID := 0 |});
    [left; split; [reflexivity | apply list_elem_of_here] | reflexivity].
Defined.

(** In an accepted manifest a credential identifier leads to at most one
    credential; it belongs to a declared environment variable of the component
    named, which is a required secret generated at installation and whose
    value is not in the manifest. *)
Theorem credential_lookup_exact (P : string -> option URL) (Quote : string -> string) (m : Manifest)
    (id : string) (c : PresentedCredential) (Hvalid : ValidateManifest P Quote m = Ok tt) :
  (FindPresentedCredential m id = Some c <-> c ∈ PresentedCredentials m /\ mpc_ID c = id) /\
  (FindPresentedCredential m id = Some c ->
   exists e, environment_in m (mpc_ComponentID c) e /\ mev_Name e = mpc_EnvironmentName c /\
     mev_Secret e = true /\ mev_Required e = true /\ mev_Generate e = "random-hex-32" /\ mev_Value e = "").
Proof.
  rewrite validate_spec in Hvalid. destruct (wf_credentials P m Hvalid) as [Hok Hnd].
  rewrite find_presented by done. split; [done|].
  intros [(e & cr & He & Hcr & _ & _ & _ & Hn)%presented_in _]. exists e. rewrite Forall_forall in Hok.
  destruct (Hok _ (environment_in_all _ _ _ He) _ Hcr) as (_ & Hs & _). naive_solver.
Qed.

Lemma credential_lookup_exact_witness :
  exists e, environment_in pihole "" e /\ mev_Name e = "FTLCONF_webserver_api_password" /\ mev_Value e = "".
Proof.
  destruct (credential_lookup_exact https_uri plain_quote pihole "admin-password"
    {| mpc_ID := "admin-password"; mpc_Label := "Admin password"; mpc_Username := ""; mpc_ComponentID := "";
       mpc_EnvironmentName := "FTLCONF_webserver_api_password" |} ltac:(vm_compute; reflexivity)) as [_ H].
  destruct (H ltac:(vm_compute; reflexivity)) as (e & He & Hn & _ & _ & _ & Hv). exists e. auto.
Defined.

(** The text of a manifest that the decoder reads as a value followed by
    other tokens is accepted exactly when it has at most 64 KiB, no object of
    the value repeats a field, what follows does not start with another
    complete value, and the decoded manifest is well formed.  Text after the
    value that is not a complete value is not refused. *)
Theorem parse_exact (P : string -> option URL) (Quote : string -> string) (NewDecoder : string -> json_stream)
    (DecodeManifest : string -> res Manifest) (data : string) (v : json) (rest : list token) (final : stream_end)
    (m : Manifest) (Htokens : NewDecoder data = {| js_tokens := tokens_of v ++ rest; js_end := final |}) :
  Parse P Quote NewDecoder DecodeManifest data = Ok m <->
  (Z.of_nat (String.length data) <= 64 * 1024) /\ unique_keys v = true /\ decodes 0 rest = false /\
  DecodeManifest data = Ok m /\ well_formed P m.
Proof.
  unfold Parse, uniqueJSON. rewrite Htokens. simpl js_end. simpl js_tokens. guards.
  pose proof (unique_stream_spec final Quote v rest) as Hu.
  destruct (unique_keys v); [rewrite Hu | destruct Hu as (e & -> & _); naive_solver].
  destruct (decodes 0 rest); [naive_solver|].
  destruct (DecodeManifest data) as [m'|e]; [|naive_solver]. guards. rewrite validate_spec. naive_solver.
Qed.

(** A manifest followed by an unfinished object. *)
Lemma parse_exact_witness :
  Parse https_uri plain_quote
    (fun _ => {| js_tokens := tokens_of (JObj [("schema_version", JNum 9)]) ++ [TDelim LBrace];
                 js_end := Malformed false (ErrMsg "unexpected EOF") |})
    (fun _ => Ok paperless) "..." = Ok paperless.
Proof.
  apply (parse_exact https_uri plain_quote
    (fun _ => {| js_tokens := tokens_of (JObj [("schema_version", JNum 9)]) ++ [TDelim LBrace];
                 js_end := Malformed false (ErrMsg "unexpected EOF") |})
    (fun _ => Ok paperless) "..." (JObj [("schema_version", JNum 9)]) [TDelim LBrace]
    (Malformed false (ErrMsg "unexpected EOF")) paperless eq_refl).
  split_and!; [vm_compute; discriminate | reflexivity | reflexivity | reflexivity |].
  apply (validate_spec https_uri plain_quote). vm_compute. reflexivity.
Defined.

(** Loading the catalogue succeeds exactly when every file listed holds
    a manifest that parses and no two have the same identifier; the catalogue
    then maps each identifier to its manifest, and each of these is well
    formed. *)
Theorem catalogue_loaded (P : string -> option URL) (Quote : string -> string) (NewDecoder : string -> json_stream)
    (DecodeManifest : string -> res Manifest) (ReadDir : string -> res (list string))
    (ReadFile : string -> res string) (entries : gmap string Manifest) :
  Load P Quote NewDecoder DecodeManifest ReadDir ReadFile = Ok entries <->
  exists names ms, ReadDir "manifests" = Ok names /\
    Forall2 (file_holds P Quote NewDecoder DecodeManifest ReadFile) names ms /\ NoDup (ma_ID <$> ms) /\
    Forall (well_formed P) ms /\ entries = by_own_id ms.
Proof.
  unfold Load. rewrite rbind_Ok. setoid_rewrite load_range.
  assert (forall names ms, Forall2 (file_holds P Quote NewDecoder DecodeManifest ReadFile) names ms ->
    Forall (well_formed P) ms) as Hwf.
  { induction 1 as [|n m names ms (b & _ & Hp) _ IH]; constructor; [|done]. revert Hp. unfold Parse. guards.
    intros (_ & _ & H). destruct (DecodeManifest b); [|done]. revert H. guards. rewrite validate_spec. naive_solver. }
  assert (forall ms, Forall (fun m => (∅ : gmap string Manifest) !! ma_ID m = None) ms) as Hfresh
    by (intros; apply Forall_true; intros; apply lookup_empty).
  split.
  - intros (names & Hd & ms & HF & Hnd & _ & ->). exists names, ms. rewrite (right_id_L ∅ (∪)). eauto 6.
  - intros (names & ms & Hd & HF & Hnd & _ & ->). exists names. split; [done|]. exists ms.
    rewrite (right_id_L ∅ (∪)). done.
Qed.

(** The text of an accepted mount point is absolute, is not the root,
    does not go up, holds no engine socket, and lies in [/proc], [/sys] or
    [/dev] never and in [/etc] only as managed configuration.  The test reads
    the text as it is: a path that is not in clean form can pass and name one
    of these directories. *)
Theorem mount_point_text_safe :
  (forall path systemConfig, safeContainerPath path systemConfig = true ->
     HasPrefix path "/" = true /\ path <> "/" /\ Contains path ".." = false /\ containsRuntimeSocket path = false /\
     Forall (fun dir => ~ below dir path) system_directories /\ (below "/etc" path -> systemConfig = true)) /\
  safeContainerPath "//proc/sys" false = true /\ Clean "//proc/sys" = "/proc/sys" /\ below "/proc" (Clean "//proc/sys").
Proof.
  split; [|split_and!; [vm_compute; reflexivity.. | by right]].
  intros path sc. unfold safeContainerPath. destruct (_ || _) eqn:E; [done|].
  repeat (apply orb_false_iff in E as [E ?]). rewrite negb_false_iff in E.
  match goal with H : bool_decide _ = false |- _ => apply bool_decide_eq_false in H end.
  intros Hetc. split_and!; try done.
  - repeat constructor; intros ?%below_prefix; congruence.
  - intros Hb%below_prefix. rewrite Hb in Hetc. by destruct sc.
Qed.
End ManifestClaims.
