(* ===== verification/HelperPlan.v ===== *)
(** * Plans the helper accepts ([cmd/kitpro-helper/main.go])

    A request to install, update or reconfigure an application carries the
    whole plan.  The helper compares it with the plan the trusted catalogue
    gives, checks the requested host bindings, and requires the generation that
    follows the one it has on record.  The loaded catalogue and the configured
    LAN address are arguments. *)

From S2P Require Import Prelude Protocol Exposure HelperDB Coordinator NetIP ExposurePolicy Containers Topology Ingress Manifest.
From stdpp Require Import base strings list gmap.
From Stdlib Require Import ZArith Lia Ascii.

Import Wire.
Open Scope Z_scope.

(** ** Kinds of operations *)
Definition durable_mutations : list string :=
  ["InstallApplication"; "ConfigureServiceExposure"; "UpdateApplication"; "StopApplication"; "RemoveApplication";
   "StartApplication"; "RestartApplication"; "ReconcileInstallation"; "RepairInstallation"; "RegisterStorageRoot";
   "RemoveStorageRoot"; "BackupHelperState"; "CreateApplicationBackup"; "RestoreApplicationBackup";
   "ApplyIngressGeneration"; "InstallCertificateMaterial"; "IssueACMECertificate"; "RenewACMECertificate";
   "ConfigureCloudflareProvider"; "EnableCloudflareProvider"; "DisableCloudflareProvider"; "AddCloudflareRoute";
   "RemoveCloudflareRemoteRoute"; "UnlinkCloudflareProvider"; "DeleteCloudflareRemoteTunnel"].

Definition isDurableMutation (operation : string) : bool := bool_decide (operation ∈ durable_mutations).

Definition createsApplicationNetwork (operation : string) : bool :=
  bool_decide (operation ∈ ["InstallApplication"; "ConfigureServiceExposure"; "UpdateApplication"]).

Definition operationScope (r : Request) : string :=
  if decide (rq_InstanceID r <> "") then rq_InstanceID r
  else if decide (rq_Operation r = "RegisterStorageRoot" \/ rq_Operation r = "RemoveStorageRoot") then "host-storage"
  else if decide (rq_Operation r ∈ ["ApplyIngressGeneration"; "InstallCertificateMaterial"; "IssueACMECertificate";
                                    "RenewACMECertificate"]) then "host-ingress"
  else if Contains (rq_Operation r) "Cloudflare" then "host-provider"
  else "helper-state".

(** ** Element-wise comparison

    [for i, w := range want { if got[i] ... }].  Lengths have been compared
    before every such loop, so the index is in range. *)
Fixpoint pairwise {G W} (same : G -> W -> bool) (got : list G) (want : list W) : bool :=
  match want, got with
  | [], _ => true
  | w :: want, g :: got => same g w && pairwise same got want
  | _ :: _, [] => false
  end.

Definition same_length {G W} (got : list G) (want : list W) : bool := bool_decide (length got = length want).

Definition hardware_same (g : HardwareRequirement) (w : Accelerator) : bool :=
  bool_decide (hw_Class g = mac_Class w) && bool_decide (hw_Optional g = mac_Optional w)
  && bool_decide (hw_CPUFallback g = mac_CPUFallback w).

Definition hardwareRequirementsEqual (got : list HardwareRequirement) (want : list Accelerator) : bool :=
  same_length got want && pairwise hardware_same got want.

Definition runtimeIdentityEqual (got : option RuntimeIdentity) (want : option ManifestIdentity) : bool :=
  match got, want with
  | Some g, Some w => bool_decide (ri_UID g = mri_UID w) && bool_decide (ri_GID g = mri_GID w)
  | None, None => true
  | _, _ => false
  end.

Definition configurationPolicyEqual (got : option ConfigurationPolicy) (want : option ManifestConfiguration) : bool :=
  match got, want with
  | Some g, Some w => bool_decide (cp_Type g = mcp_Type w) && bool_decide (cp_StorageID g = mcp_StorageID w)
  | None, None => true
  | _, _ => false
  end.

Definition external_same (g : ExternalStorageBinding) (w : ExternalStorage) : bool :=
  bool_decide (es_SlotID g = mxs_ID w) && negb (mxs_Required w && bool_decide (es_RootID g = "")).

Definition externalBindingsEqual (got : list ExternalStorageBinding) (want : list ExternalStorage) : bool :=
  same_length got want && pairwise external_same got want.

Definition argument_same (g w : string) : bool := bool_decide (g = w).

Definition environment_same (g : EnvVar) (w : Env) : bool :=
  bool_decide (ev_Name g = mev_Name w) && bool_decide (ev_Value g = mev_Value w)
  && bool_decide (ev_Secret g = mev_Secret w) && bool_decide (ev_Generate g = mev_Generate w).

(** [root] is the directory of the installation, or of its component. *)
Definition storage_same (root : string) (g : WireMount) (w : Storage) : bool :=
  bool_decide (sm_ID g = mst_ID w) && bool_decide (sm_ContainerPath g = mst_ContainerPath w)
  && bool_decide (sm_HostPath g = root +:+ "/" +:+ mst_ID w) && bool_decide (sm_ReadOnly g = mst_ReadOnly w)
  && bool_decide (sm_OwnerUID g = mst_OwnerUID w) && bool_decide (sm_OwnerGID g = mst_OwnerGID w).

Definition service_same (g : Service) (w : ManifestService) : bool :=
  bool_decide (sv_ID g = ms_ID w) && bool_decide (sv_Protocol g = ms_Protocol w)
  && bool_decide (sv_ContainerPort g = ms_ContainerPort w).

Definition installation_root (r : Request) : string :=
  "/srv/kitpro/apps/" +:+ rq_ApplicationID r +:+ "/" +:+ rq_InstanceID r.

Definition generation_network (r : Request) : string :=
  "kitpro-net-" +:+ rq_InstanceID r +:+ "-g" +:+ itoa (rq_RuntimeGeneration r).

(** An environment variable no plan may have. *)
Definition bad_variable (e : EnvVar) : bool :=
  bool_decide (ev_Name e = "")
  || (ev_Secret e && (negb (bool_decide (ev_Value e = "")) || negb (bool_decide (ev_Generate e = "random-hex-32"))))
  || (negb (ev_Secret e) && negb (bool_decide (ev_Generate e = ""))).

(** ** Host bindings *)
Definition transport_or_empty (protocol : string) : string :=
  match ContainerProtocol protocol with Ok t => t | Err _ => "" end.

Definition legacy_binding (r : Request) (mode : string) (service : ManifestService) : WireBinding :=
  let chosen := bool_decide (ms_ID service = rq_ServiceID r) && negb (bool_decide (mode = Internal)) in
  {| sb_ServiceID := ms_ID service;
     sb_Transport := if chosen && negb (bool_decide (rq_ServiceProtocol r = ""))
                     then transport_or_empty (rq_ServiceProtocol r)
                     else transport_or_empty (ms_Protocol service);
     sb_ContainerPort := if chosen && negb (bool_decide (rq_ContainerPort r = 0))
                         then rq_ContainerPort r else ms_ContainerPort service;
     sb_Mode := if chosen then mode else Internal;
     sb_HostAddress := if chosen then rq_HostAddress r else "";
     sb_HostPort := if chosen then rq_HostPort r else ms_FixedHostPort service |}.

Definition legacyBindings (r : Request) (m : Manifest) : list WireBinding :=
  let mode := if decide (rq_ExposureMode r = "") then Internal else rq_ExposureMode r in
  map (legacy_binding r mode) (ma_Services m).

Definition exposure_binding (b : WireBinding) : ServiceBinding :=
  {| ServiceID := sb_ServiceID b; Transport := sb_Transport b; ContainerPort := sb_ContainerPort b;
     Mode := sb_Mode b; HostAddress := sb_HostAddress b; HostPort := sb_HostPort b |}.

Definition declared_services (m : Manifest) : gmap string ManifestService :=
  foldl (fun declared service => <[ms_ID service := service]> declared) ∅ (ma_Services m).

Definition binding_step (configuredLAN : string) (declared : gmap string ManifestService)
    (s : gset string * list ServiceBinding) (got : WireBinding) : res (gset string * list ServiceBinding) :=
  match declared !! sb_ServiceID got with
  | None => Err (ErrMsg "binding service is not uniquely declared")
  | Some service =>
      refuse (sb_ServiceID got ∈ s.1) with "binding service is not uniquely declared" in
      match TransportFor (ms_Protocol service) with
      | Err _ => Err (ErrMsg "trusted service binding mismatch")
      | Ok transport =>
          refuse (transport <> sb_Transport got \/ ms_ContainerPort service <> sb_ContainerPort got)
          with "trusted service binding mismatch" in
          let binding := {| ServiceID := sb_ServiceID got; Transport := transport;
                            ContainerPort := sb_ContainerPort got; Mode := sb_Mode got;
                            HostAddress := sb_HostAddress got; HostPort := sb_HostPort got |} in
          ensure ValidateBinding binding configuredLAN (ms_FixedHostPort service) in
          Ok ({[sb_ServiceID got]} ∪ s.1, s.2 ++ [binding])
      end
  end.

Definition legacy_scalar (r : Request) : Prop :=
  rq_ExposureMode r <> "" \/ rq_ServiceID r <> "" \/ rq_HostAddress r <> "" \/ rq_HostPort r <> 0
  \/ rq_ContainerPort r <> 0 \/ rq_ServiceProtocol r <> "".
#[export] Instance legacy_scalar_dec r : Decision (legacy_scalar r).
Proof. unfold legacy_scalar. apply _. Defined.

Definition bindings_input (r : Request) (m : Manifest) : list WireBinding :=
  if decide (rq_Version r < 2 /\ rq_Bindings r = []) then legacyBindings r m else rq_Bindings r.

Definition validateTrustedBindings (configuredLAN : string) (r : Request) (m : Manifest) : res unit :=
  refuse (legacy_scalar r /\ (2 <= rq_Version r \/ rq_Bindings r <> []))
  with "scalar exposure fields are not accepted" in
  let bindingsInput := bindings_input r m in
  refuse (length bindingsInput <> length (ma_Services m) \/ MaxBindings < Z.of_nat (length bindingsInput))
  with "trusted binding set shape mismatch" in
  rbind (range (binding_step configuredLAN (declared_services m)) (∅, []) bindingsInput) (fun s =>
  ValidateConflicts s.2).

Definition requestBindings (r : Request) : list ServiceBinding := Normalize (map exposure_binding (rq_Bindings r)).

Definition trustedRequestBindings (r : Request) (m : Manifest) : list ServiceBinding :=
  match rq_Bindings r with
  | [] => Normalize (map exposure_binding (legacyBindings r m))
  | _ => requestBindings r
  end.

Definition runtimePortBindings (bindings : list ServiceBinding) : gmap string (list PortBinding) :=
  foldl (fun out binding =>
    if decide (Mode binding = Internal) then out
    else let key := port_key (ContainerPort binding) (Transport binding) in
         <[key := default [] (out !! key) ++ [{| pb_HostIP := HostAddress binding; pb_HostPort := itoa (HostPort binding) |}]]> out) ∅ bindings.

(** ** Plans of several components *)
Definition component_error (id what : string) : string := "component " +:+ id +:+ " " +:+ what.

Definition shell_argument (arg : string) : bool := bool_decide (arg ∈ ["/bin/sh"; "/bin/bash"; "-c"; ""]).

Definition component_plan_step (r : Request) (m : Manifest) (seen : gset string)
    (p : WireComponent * ManifestComponent) : res (gset string) :=
  let '(got, want) := p in
  let err := component_error (co_ID got) in
  refuse (co_ID got ∈ seen) with "duplicate component" in
  refuse (co_ID got <> mco_ID want \/ co_Image got <> image_of (first_release (ma_Releases m) (mco_Release want))
          \/ co_Restart got <> mco_Restart want \/ length (co_DependsOn got) <> length (mco_DependsOn want))
  with (err "identity mismatch") in
  refuse (pairwise argument_same (co_DependsOn got) (mco_DependsOn want) = false)
  with (err "dependency mismatch") in
  refuse (length (co_Storage got) <> length (mco_Storage want) \/ length (co_Services got) <> length (mco_Services want))
  with (err "plan shape mismatch") in
  refuse (length (co_Command got) <> length (mco_Command want)
          \/ length (co_Environment got) <> length (mco_Environment want))
  with (err "plan shape mismatch") in
  refuse (hardwareRequirementsEqual (co_Hardware got) (mco_Hardware want) = false) with (err "hardware mismatch") in
  refuse (externalBindingsEqual (co_ExternalStorage got) (mco_ExternalStorage want) = false)
  with (err "external storage mismatch") in
  refuse (runtimeIdentityEqual (co_RunAs got) (mco_RunAs want) = false) with (err "runtime identity mismatch") in
  refuse (pairwise (fun g w => argument_same g w && negb (shell_argument w)) (co_Command got) (mco_Command want) = false)
  with (err "command mismatch") in
  refuse (pairwise environment_same (co_Environment got) (mco_Environment want) = false)
  with (err "environment mismatch") in
  refuse (pairwise (storage_same (installation_root r +:+ "/" +:+ co_ID got)) (co_Storage got) (mco_Storage want) = false)
  with (err "storage mismatch") in
  refuse (pairwise service_same (co_Services got) (mco_Services want) = false) with (err "service mismatch") in
  refuse (existsb bad_variable (co_Environment got) = true) with (err "invalid environment") in
  Ok ({[co_ID got]} ∪ seen).

Definition component_node (c : WireComponent) : Node := {| n_ID := co_ID c; n_DependsOn := co_DependsOn c |}.

(** The first release is the one a plan of several components names. *)
Definition first_release_named (r : Request) (m : Manifest) : bool :=
  match ma_Releases m with
  | [] => false
  | first :: _ => bool_decide (rq_ApplicationID r = ma_ID m) && bool_decide (rq_ReleaseID r = mrl_Version first)
                  && bool_decide (rq_Image r = image_of first)
  end.

Definition validateMultiComponentPlan (configuredLAN : string) (r : Request) (m : Manifest) : res unit :=
  refuse (first_release_named r m = false) with "top-level release identity mismatch" in
  refuse (length (rq_Components r) <> length (ma_Components m) \/ (length (rq_Components r) < 2)%nat)
  with "component plan shape mismatch" in
  refuse (rq_NetworkName r <> generation_network r) with "invalid component network" in
  refuse (length (rq_Services r) <> length (ma_Services m)) with "service plan shape mismatch" in
  refuse (pairwise service_same (rq_Services r) (ma_Services m) = false) with "service plan mismatch" in
  ensure range (component_plan_step r m) ∅ (zip (rq_Components r) (ma_Components m)) in
  ensure StartOrder (map component_node (rq_Components r)) in
  validateTrustedBindings configuredLAN r m.

(** ** Plans of one container *)

(** The suffix of [s] from the last occurrence of [sub]. *)
Fixpoint last_suffix (s sub : string) : option string :=
  match s with
  | EmptyString => None
  | String _ s' =>
      match last_suffix s' sub with
      | Some t => Some t
      | None => if String.prefix sub s then Some s else None
      end
  end.

(** [r.Image[strings.LastIndex(r.Image, "@sha256:")+1:]] *)
Definition image_digest (image : string) : string :=
  match last_suffix image "@sha256:" with
  | Some (String _ t) => t
  | _ => image
  end.

Definition bad_command_argument (c : string) : bool := ContainsAny c [CR; LF] || shell_argument c.

Definition bad_mount (s : WireMount) : bool :=
  bool_decide (sm_ID s = "") || bool_decide (sm_ContainerPath s = "")
  || negb (HasPrefix (sm_HostPath s) "/srv/kitpro/apps/") || Contains (sm_HostPath s) ".."
  || Contains (sm_ContainerPath s) ".." || containsRuntimeSocket (sm_HostPath s)
  || containsRuntimeSocket (sm_ContainerPath s) || bool_decide (sm_ContainerPath s = "/").

(** The image of the last release of that version, or the empty string. *)
Definition release_image (releases : list Release) (version : string) : string :=
  foldl (fun image release => if decide (mrl_Version release = version) then image_of release else image) "" releases.

Definition validateSinglePlan (configuredLAN : string) (r : Request) (m : Manifest) : res unit :=
  refuse (release_image (ma_Releases m) (rq_ReleaseID r) = ""
          \/ release_image (ma_Releases m) (rq_ReleaseID r) <> rq_Image r \/ ma_Restart m <> rq_RestartPolicy r)
  with "trusted release mismatch" in
  refuse (length (rq_Command r) <> length (ma_Command m) \/ length (rq_Environment r) <> length (ma_Environment m)
          \/ length (rq_Storage r) <> length (ma_Storage m) \/ length (rq_Services r) <> length (ma_Services m))
  with "trusted application plan shape mismatch" in
  refuse (externalBindingsEqual (rq_ExternalStorage r) (ma_ExternalStorage m) = false)
  with "trusted external storage requirement mismatch" in
  refuse (hardwareRequirementsEqual (rq_Hardware r) (ma_Hardware m) = false)
  with "trusted hardware requirement mismatch" in
  refuse (runtimeIdentityEqual (rq_RunAs r) (ma_RunAs m) = false) with "trusted runtime identity mismatch" in
  refuse (configurationPolicyEqual (rq_Configuration r) (ma_Configuration m) = false)
  with "trusted structured configuration policy mismatch" in
  refuse (pairwise argument_same (rq_Command r) (ma_Command m) = false) with "trusted command mismatch" in
  refuse (pairwise environment_same (rq_Environment r) (ma_Environment m) = false)
  with "trusted environment mismatch" in
  refuse (pairwise (storage_same (installation_root r)) (rq_Storage r) (ma_Storage m) = false)
  with "trusted storage mismatch" in
  refuse (pairwise service_same (rq_Services r) (ma_Services m) = false) with "trusted service plan mismatch" in
  ensure validateTrustedBindings configuredLAN r m in
  refuse (existsb bad_command_argument (rq_Command r) = true) with "invalid command" in
  refuse (existsb bad_variable (rq_Environment r) = true) with "invalid environment" in
  refuse (existsb bad_mount (rq_Storage r) = true) with "invalid storage mapping" in
  Ok tt.

Definition validateApplicationPlan (catalog : res (gmap string Manifest)) (configuredLAN : string) (r : Request)
    : res unit :=
  let digest := image_digest (rq_Image r) in
  refuse (rq_ApplicationID r = "" \/ rq_ReleaseID r = "" \/ rq_InstanceID r = ""
          \/ existsb (fun registry => HasPrefix (rq_Image r) (registry +:+ "/")) registries = false
          \/ Contains (rq_Image r) "@sha256:" = false \/ String.length digest <> 71%nat)
  with "invalid application plan" in
  refuse (forallb is_hex (drop 7 (text digest)) = false) with "invalid image digest" in
  refuse (rq_RuntimeGeneration r < 1 \/ rq_NetworkName r <> generation_network r
          \/ rq_DataPath r <> installation_root r +:+ "/data")
  with "invalid application paths" in
  match catalog with
  | Err _ => Err (ErrMsg "trusted catalog unavailable")
  | Ok entries =>
      match entries !! rq_ApplicationID r with
      | None => Err (ErrMsg "application not in trusted catalog")
      | Some m =>
          if decide (0 < length (ma_Components m))%nat then validateMultiComponentPlan configuredLAN r m
          else validateSinglePlan configuredLAN r m
      end
  end.
