(* ===== verification/HelperPlanProofs.v ===== *)
(** * What an accepted plan is: the reference and its equivalence *)

From S2P Require Import Prelude Protocol Exposure HelperDB Coordinator NetIP ExposurePolicy Containers Topology Ingress IngressProofs IngressRender Manifest ManifestProofs HelperPlan.
From stdpp Require Import base strings list gmap.
From Stdlib Require Import ZArith Lia Ascii.

Import Wire.
Open Scope Z_scope.

(** ** The catalogue's declarations as a request carries them *)
Definition env_of (e : Env) : EnvVar :=
  {| ev_Name := mev_Name e; ev_Value := mev_Value e; ev_Secret := mev_Secret e; ev_Generate := mev_Generate e |}.
Definition mount_of (root : string) (s : Storage) : WireMount :=
  {| sm_ID := mst_ID s; sm_ContainerPath := mst_ContainerPath s; sm_HostPath := root +:+ "/" +:+ mst_ID s;
     sm_ReadOnly := mst_ReadOnly s; sm_OwnerUID := mst_OwnerUID s; sm_OwnerGID := mst_OwnerGID s |}.
Definition service_of (s : ManifestService) : Service :=
  {| sv_ID := ms_ID s; sv_Protocol := ms_Protocol s; sv_ContainerPort := ms_ContainerPort s |}.
Definition requirement_of (a : Accelerator) : HardwareRequirement :=
  {| hw_Class := mac_Class a; hw_Optional := mac_Optional a; hw_CPUFallback := mac_CPUFallback a |}.
Definition identity_of (i : ManifestIdentity) : RuntimeIdentity := {| ri_UID := mri_UID i; ri_GID := mri_GID i |}.
Definition policy_of (c : ManifestConfiguration) : ConfigurationPolicy :=
  {| cp_Type := mcp_Type c; cp_StorageID := mcp_StorageID c |}.

(** A root is chosen for every required slot. *)
Definition slots_chosen (got : list ExternalStorageBinding) (want : list ExternalStorage) : Prop :=
  Forall2 (fun g w => es_SlotID g = mxs_ID w /\ (mxs_Required w = true -> es_RootID g <> "")) got want.

(** ** Element-wise comparison *)
Lemma pairwise_Forall2 {G W} (same : G -> W -> bool) got want : length got = length want ->
  pairwise same got want = true <-> Forall2 (fun g w => same g w = true) got want.
Proof.
  revert got. induction want as [|w want IH]; intros [|g got] Hlen; simpl in *; try done.
  rewrite andb_true_iff, IH by lia. split; [intros []; by constructor | by inversion 1].
Qed.

Lemma Forall2_map_iff {G W} (f : W -> G) got want : Forall2 (fun g w => g = f w) got want <-> got = map f want.
Proof.
  revert got. induction want as [|w want IH]; intros got; simpl.
  - split; [by inversion 1 | intros ->; constructor].
  - split; [inversion 1 as [|g ? ? ? -> ?]; simplify_eq; f_equal; by apply IH | intros ->; constructor; [done | by apply IH]].
Qed.

Lemma pairwise_map {G W} (same : G -> W -> bool) (f : W -> G) got want :
  (forall g w, same g w = true <-> g = f w) ->
  length got = length want /\ pairwise same got want = true <-> got = map f want.
Proof.
  intros Hs. rewrite <- Forall2_map_iff. split.
  - intros [Hlen H]. apply pairwise_Forall2 in H; [|done]. eapply Forall2_impl; [done|]. intros. by apply Hs.
  - intros H. pose proof (Forall2_length _ _ _ H) as Hlen. split; [done|]. apply pairwise_Forall2; [done|].
    eapply Forall2_impl; [done|]. intros. by apply Hs.
Qed.

Ltac bools := repeat first [rewrite andb_true_iff | rewrite bool_decide_eq_true].

Lemma argument_same_spec g w : argument_same g w = true <-> g = id w.
Proof. unfold argument_same. by bools. Qed.
Lemma arguments_spec got want : length got = length want /\ pairwise argument_same got want = true <-> got = want.
Proof. rewrite (pairwise_map _ _ _ _ argument_same_spec). by rewrite map_id. Qed.
Lemma environment_same_spec g w : environment_same g w = true <-> g = env_of w.
Proof. unfold environment_same, env_of. bools. destruct g; simpl. naive_solver. Qed.
Lemma storage_same_spec root g w : storage_same root g w = true <-> g = mount_of root w.
Proof. unfold storage_same, mount_of. bools. destruct g; simpl. naive_solver. Qed.
Lemma service_same_spec g w : service_same g w = true <-> g = service_of w.
Proof. unfold service_same, service_of. bools. destruct g; simpl. naive_solver. Qed.
Lemma hardware_same_spec g w : hardware_same g w = true <-> g = requirement_of w.
Proof. unfold hardware_same, requirement_of. bools. destruct g; simpl. naive_solver. Qed.

Lemma hardware_equal_spec got want : hardwareRequirementsEqual got want = true <-> got = map requirement_of want.
Proof.
  unfold hardwareRequirementsEqual, same_length. bools. apply (pairwise_map _ _ _ _ hardware_same_spec).
Qed.

Lemma identity_equal_spec got want : runtimeIdentityEqual got want = true <-> got = identity_of <$> want.
Proof. unfold runtimeIdentityEqual, identity_of. destruct got as [[]|], want as [[]|]; simpl; bools; naive_solver. Qed.

Lemma policy_equal_spec got want : configurationPolicyEqual got want = true <-> got = policy_of <$> want.
Proof. unfold configurationPolicyEqual, policy_of. destruct got as [[]|], want as [[]|]; simpl; bools; naive_solver. Qed.

Lemma external_equal_spec got want : externalBindingsEqual got want = true <-> slots_chosen got want.
Proof.
  unfold externalBindingsEqual, same_length, slots_chosen. bools. split.
  - intros [Hlen H]. apply pairwise_Forall2 in H; [|done]. eapply Forall2_impl; [done|]. intros g w.
    unfold external_same. bools. rewrite negb_true_iff, andb_false_iff, bool_decide_eq_false.
    destruct (mxs_Required w); naive_solver.
  - intros H. pose proof (Forall2_length _ _ _ H) as Hlen. split; [done|]. apply pairwise_Forall2; [done|].
    eapply Forall2_impl; [done|]. intros g w [? ?]. unfold external_same. bools.
    rewrite negb_true_iff, andb_false_iff, bool_decide_eq_false. destruct (mxs_Required w); naive_solver.
Qed.

(** ** Bindings *)

(** A binding of a declared service, on the declared port, within policy. *)
Definition binding_trusted (configuredLAN : string) (m : Manifest) (b : WireBinding) : Prop :=
  exists s, s ∈ ma_Services m /\ ms_ID s = sb_ServiceID b /\ ContainerProtocol (ms_Protocol s) = Ok (sb_Transport b) /\
    ms_ContainerPort s = sb_ContainerPort b /\
    ValidateBinding (exposure_binding b) configuredLAN (ms_FixedHostPort s) = Ok tt.

Definition bindings_trusted (configuredLAN : string) (r : Request) (m : Manifest) : Prop :=
  (legacy_scalar r -> rq_Version r < 2 /\ rq_Bindings r = []) /\
  (length (ma_Services m) <= 8)%nat /\
  sb_ServiceID <$> bindings_input r m ≡ₚ ms_ID <$> ma_Services m /\
  Forall (binding_trusted configuredLAN m) (bindings_input r m) /\
  ValidateConflicts (map exposure_binding (bindings_input r m)) = Ok tt.

Lemma declared_services_from l (declared : gmap string ManifestService) id : NoDup (ms_ID <$> l) ->
  foldl (fun declared service => <[ms_ID service := service]> declared) declared l !! id =
  match list_find (fun s => ms_ID s = id) l with Some (_, s) => Some s | None => declared !! id end.
Proof.
  revert declared. induction l as [|s l IH]; intros declared Hnd; simpl; [done|].
  apply NoDup_cons in Hnd as [Hs Hnd]. rewrite IH by done. case_decide as E.
  - subst id. destruct (list_find _ l) as [[i x]|] eqn:F; [|apply lookup_insert_eq].
    apply list_find_Some in F as (Hi & Hx & _). destruct Hs. rewrite <- Hx.
    by eapply list_elem_of_fmap_2, list_elem_of_lookup_2.
  - destruct (list_find _ l) as [[i x]|]; simpl; [done | by apply lookup_insert_ne].
Qed.

Lemma declared_services_spec m id s : NoDup (ms_ID <$> ma_Services m) ->
  declared_services m !! id = Some s <-> s ∈ ma_Services m /\ ms_ID s = id.
Proof.
  intros Hnd. unfold declared_services. rewrite declared_services_from by done. split.
  - destruct (list_find _ _) as [[i x]|] eqn:F; [|by rewrite lookup_empty]. intros [= <-].
    apply list_find_Some in F as (Hi & Hx & _). split; [by eapply list_elem_of_lookup_2 | done].
  - intros [[i Hi]%list_elem_of_lookup Hid].
    assert (list_find (fun s => ms_ID s = id) (ma_Services m) = Some (i, s)) as ->; [|done].
    apply list_find_Some. split_and!; [done..|]. intros j y Hj Hji Hy.
    assert (i = j) as ->; [|lia]. eapply (NoDup_lookup (ms_ID <$> ma_Services m)); [done|rewrite list_lookup_fmap..].
    + by rewrite Hi.
    + rewrite Hj. simpl. congruence.
Qed.

Lemma binding_step_spec lan m s b s' : NoDup (ms_ID <$> ma_Services m) ->
  binding_step lan (declared_services m) s b = Ok s' <->
  sb_ServiceID b ∉ s.1 /\ binding_trusted lan m b /\
  s' = ({[sb_ServiceID b]} ∪ s.1, s.2 ++ [exposure_binding b]).
Proof.
  intros Hnd. unfold binding_step, binding_trusted, TransportFor.
  destruct (declared_services m !! sb_ServiceID b) as [x|] eqn:E.
  - apply declared_services_spec in E as [Hin Hid]; [|done]. guards.
    assert (forall y, y ∈ ma_Services m -> ms_ID y = sb_ServiceID b -> y = x) as Hone.
    { intros y Hy Hyid.
      assert (declared_services m !! sb_ServiceID b = Some y) by (apply declared_services_spec; done).
      assert (declared_services m !! sb_ServiceID b = Some x) by (apply declared_services_spec; done). congruence. }
    destruct (ContainerProtocol (ms_Protocol x)) as [t|] eqn:Ht.
    + guards. split.
      * intros (Hs & (Htt & Hp) & Hv & [= <-]). simplify_eq/=. split_and!; try done. exists x. done.
      * intros (Hs & (y & Hy & Hyid & Hyt & Hyp & Hyv) & ->). assert (y = x) as -> by (by apply Hone).
        rewrite Ht in Hyt. injection Hyt as ->. done.
    + split; [naive_solver|]. intros (_ & (y & Hy & Hyid & Hyt & _) & _). assert (y = x) as -> by (by apply Hone).
      congruence.
  - split; [done|]. intros (_ & (y & Hy & Hyid & _) & _).
    assert (declared_services m !! sb_ServiceID b = Some y) by (apply declared_services_spec; done). congruence.
Qed.

Lemma binding_range lan m l s s' : NoDup (ms_ID <$> ma_Services m) ->
  range (binding_step lan (declared_services m)) s l = Ok s' <->
  Forall (binding_trusted lan m) l /\ NoDup (sb_ServiceID <$> l) /\ Forall (.∉ s.1) (sb_ServiceID <$> l) /\
  s' = (list_to_set (sb_ServiceID <$> l) ∪ s.1, s.2 ++ map exposure_binding l).
Proof.
  intros Hnd. revert s. induction l as [|b l IH]; intros s; simpl.
  { rewrite !Forall_nil, app_nil_r, (left_id_L ∅ (∪)). destruct s. split; [intros [= <-] | naive_solver].
    split_and!; done || constructor. }
  rewrite rbind_Ok. setoid_rewrite (fun s' => binding_step_spec lan m s b s' Hnd). setoid_rewrite IH.
  rewrite !Forall_cons, NoDup_cons.
  assert (forall X : gset string, list_to_set (sb_ServiceID <$> l) ∪ ({[sb_ServiceID b]} ∪ X) =
            {[sb_ServiceID b]} ∪ list_to_set (sb_ServiceID <$> l) ∪ X) as Hset by (intros; set_solver).
  split.
  - intros (s1 & (Hs & Hb & ->) & Hl & Hndl & [Hf Hfs]%Forall_unseen_cons & ->). simpl.
    rewrite Hset, <- app_assoc. done.
  - intros ((Hb & Hl) & (Hf & Hndl) & (Hs & Hfs) & ->). eexists. split; [split_and!; [done..|reflexivity]|].
    simpl. rewrite Hset, <- app_assoc, Forall_unseen_cons. done.
Qed.

Lemma trusted_bindings_spec lan r m : NoDup (ms_ID <$> ma_Services m) ->
  validateTrustedBindings lan r m = Ok tt <-> bindings_trusted lan r m.
Proof.
  intros Hnd. unfold validateTrustedBindings, bindings_trusted. guards. rewrite rbind_Ok.
  setoid_rewrite (fun s' => binding_range lan m (bindings_input r m) (∅, []) s' Hnd). simpl.
  set (l := bindings_input r m).
  assert (Forall (.∉ (∅ : gset string)) (sb_ServiceID <$> l)) as Hfresh by (apply Forall_forall; set_solver).
  assert (~ (legacy_scalar r /\ (2 <= rq_Version r \/ rq_Bindings r <> [])) <->
          (legacy_scalar r -> rq_Version r < 2 /\ rq_Bindings r = [])) as ->.
  { destruct (decide (legacy_scalar r)), (decide (rq_Bindings r = [])), (decide (2 <= rq_Version r)); naive_solver lia. }
  unfold MaxBindings. split.
  - intros (Hleg & (Hlen & Hmax) & s & (HF & Hndl & _ & ->) & Hc). simpl in Hc.
    split_and!; try done; [lia|].
    apply submseteq_length_Permutation; [|rewrite !length_fmap; lia].
    apply NoDup_submseteq; [done|]. intros x (b & -> & Hb)%list_elem_of_fmap.
    rewrite Forall_forall in HF. destruct (HF _ Hb) as (s & Hs & <- & _). by apply list_elem_of_fmap_2.
  - intros (Hleg & Hlen & HP & HF & Hc). pose proof (Permutation_length HP) as HPl. rewrite !length_fmap in HPl.
    split_and!; try done; [lia|]. eexists. split; [split_and!; [done | by rewrite HP | done | reflexivity]|]. done.
Qed.

(** ** Plans of one container *)
Definition sound_variable (e : EnvVar) : Prop :=
  ev_Name e <> "" /\ (if ev_Secret e then ev_Value e = "" /\ ev_Generate e = "random-hex-32" else ev_Generate e = "").

Lemma variables_spec l : existsb bad_variable l <> true <-> Forall sound_variable l.
Proof.
  apply existsb_false. intros e. unfold bad_variable, sound_variable.
  rewrite !orb_false_iff, bool_decide_eq_false.
  destruct (ev_Secret e); simpl; rewrite ?orb_false_iff, !negb_false_iff, ?bool_decide_eq_true; tauto.
Qed.

(** What the check compares for an application of one container; it does not
    look at the components of the request. *)
Definition trusted_single (lan : string) (r : Request) (m : Manifest) : Prop :=
  (exists rel, rel ∈ ma_Releases m /\ mrl_Version rel = rq_ReleaseID r /\ rq_Image r = image_of rel) /\
  rq_RestartPolicy r = ma_Restart m /\ rq_Command r = ma_Command m /\
  rq_Environment r = map env_of (ma_Environment m) /\
  rq_Storage r = map (mount_of (installation_root r)) (ma_Storage m) /\
  rq_Services r = map service_of (ma_Services m) /\ rq_Hardware r = map requirement_of (ma_Hardware m) /\
  rq_RunAs r = identity_of <$> ma_RunAs m /\ rq_Configuration r = policy_of <$> ma_Configuration m /\
  slots_chosen (rq_ExternalStorage r) (ma_ExternalStorage m) /\ bindings_trusted lan r m /\
  Forall (fun c => bad_command_argument c = false) (rq_Command r) /\ Forall sound_variable (rq_Environment r) /\
  Forall (fun s => bad_mount s = false) (rq_Storage r).

Lemma image_of_nonempty r : image_of r <> "".
Proof.
  unfold image_of. intros H. apply (f_equal text) in H. rewrite !text_app in H.
  apply app_eq_nil in H as [_ H]. discriminate H.
Qed.

Lemma release_image_from l v image :
  let result := foldl (fun image release => if decide (mrl_Version release = v) then image_of release else image) image l in
  (result = image /\ Forall (fun x => mrl_Version x <> v) l) \/
  (exists rel, rel ∈ l /\ mrl_Version rel = v /\ result = image_of rel).
Proof.
  revert image. induction l as [|x l IH]; intros image; simpl; [by left|].
  destruct (IH (if decide (mrl_Version x = v) then image_of x else image)) as [[E HF]|(rel & Hin & Hv & E)]; simpl in E; rewrite E.
  - case_decide as Hx; [right; exists x; split; [apply list_elem_of_here | done] | left; split; [done | by constructor]].
  - right. exists rel. split; [by apply list_elem_of_further | done].
Qed.

Lemma release_image_spec l v image : NoDup (mrl_Version <$> l) ->
  (release_image l v <> "" /\ release_image l v = image) <->
  exists rel, rel ∈ l /\ mrl_Version rel = v /\ image = image_of rel.
Proof.
  intros Hnd. unfold release_image. destruct (release_image_from l v "") as [[E HF]|(rel & Hin & Hv & E)]; simpl in E; rewrite E.
  - split; [naive_solver|]. intros (rel & Hin & Hv & _). rewrite Forall_forall in HF. by destruct (HF rel).
  - split.
    + intros [_ <-]. eauto.
    + intros (rel' & Hin' & Hv' & ->). split; [apply image_of_nonempty|].
      f_equal. eapply release_unique; try done. congruence.
Qed.

Lemma commands_spec l : existsb bad_command_argument l <> true <-> Forall (fun c => bad_command_argument c = false) l.
Proof. by apply existsb_false. Qed.
Lemma mounts_spec l : existsb bad_mount l <> true <-> Forall (fun s => bad_mount s = false) l.
Proof. by apply existsb_false. Qed.

Lemma single_plan_spec lan r m : NoDup (mrl_Version <$> ma_Releases m) -> NoDup (ms_ID <$> ma_Services m) ->
  validateSinglePlan lan r m = Ok tt <-> trusted_single lan r m.
Proof.
  intros Hrel Hsv. unfold validateSinglePlan, trusted_single.
  rewrite !refuse_Ok, !not_or_iff, ensure_unit_Ok, !refuse_Ok, commands_spec, mounts_spec, variables_spec, trusted_bindings_spec by done.
  rewrite !not_false_iff_true, external_equal_spec, hardware_equal_spec, identity_equal_spec, policy_equal_spec.
  rewrite !(not_not_iff (_ = _)).
  rewrite <- (release_image_spec _ _ _ Hrel).
  rewrite <- (pairwise_map _ _ _ _ environment_same_spec), <- (pairwise_map _ _ _ _ (storage_same_spec _)),
    <- (pairwise_map _ _ _ _ service_same_spec).
  rewrite <- (arguments_spec (rq_Command r)). naive_solver.
Qed.

(** ** Plans of several components *)
Definition trusted_component (r : Request) (m : Manifest) (got : WireComponent) (want : ManifestComponent) : Prop :=
  co_ID got = mco_ID want /\ co_Image got = image_of (first_release (ma_Releases m) (mco_Release want)) /\
  co_Restart got = mco_Restart want /\ co_DependsOn got = mco_DependsOn want /\ co_Command got = mco_Command want /\
  co_Environment got = map env_of (mco_Environment want) /\
  co_Storage got = map (mount_of (installation_root r +:+ "/" +:+ mco_ID want)) (mco_Storage want) /\
  co_Services got = map service_of (mco_Services want) /\ co_Hardware got = map requirement_of (mco_Hardware want) /\
  co_RunAs got = identity_of <$> mco_RunAs want /\ slots_chosen (co_ExternalStorage got) (mco_ExternalStorage want) /\
  Forall (fun arg => shell_argument arg = false) (mco_Command want) /\ Forall sound_variable (co_Environment got).

(** What the check compares for an application of several components; it does
    not look at the request's own command, environment, storage and the like. *)
Definition trusted_multi (lan : string) (r : Request) (m : Manifest) : Prop :=
  (exists first rest, ma_Releases m = first :: rest /\ rq_ApplicationID r = ma_ID m /\
     rq_ReleaseID r = mrl_Version first /\ rq_Image r = image_of first) /\
  (2 <= length (ma_Components m))%nat /\ rq_NetworkName r = generation_network r /\
  rq_Services r = map service_of (ma_Services m) /\
  Forall2 (trusted_component r m) (rq_Components r) (ma_Components m) /\ NoDup (co_ID <$> rq_Components r) /\
  (exists order, StartOrder (map component_node (rq_Components r)) = Ok order) /\ bindings_trusted lan r m.

Lemma zip_Forall2 {A B} (R : A -> B -> Prop) l k : length l = length k ->
  Forall (fun p => R p.1 p.2) (zip l k) <-> Forall2 R l k.
Proof.
  revert k. induction l as [|x l IH]; intros [|y k] Hlen; simpl in *; try done.
  rewrite Forall_cons, IH by lia. simpl. split; [intros []; by constructor | by inversion 1].
Qed.

Lemma zip_ids (l : list WireComponent) (k : list ManifestComponent) : length l = length k ->
  (fun p => co_ID p.1) <$> zip l k = co_ID <$> l.
Proof.
  revert k. induction l as [|x l IH]; intros [|y k] Hlen; simpl in *; try done. f_equal. apply IH. lia.
Qed.

Lemma shell_commands_spec got want : length got = length want ->
  pairwise (fun g w => argument_same g w && negb (shell_argument w)) got want = true <->
  got = want /\ Forall (fun arg => shell_argument arg = false) want.
Proof.
  revert want. induction got as [|g got IH]; intros [|w want] Hlen; simpl in *; try done; try lia.
  rewrite Forall_cons, !andb_true_iff, IH, negb_true_iff, argument_same_spec by lia. naive_solver.
Qed.

Lemma component_step_trusted r m :
  remembers (fun p => co_ID p.1) (fun p => trusted_component r m p.1 p.2) (component_plan_step r m).
Proof.
  intros seen [got want] seen'. unfold component_plan_step, trusted_component. cbn [fst snd].
  rewrite !refuse_Ok, !not_or_iff, !not_false_iff_true, variables_spec, hardware_equal_spec, external_equal_spec,
    identity_equal_spec.
  rewrite !(not_not_iff (_ = _)).
  rewrite <- (arguments_spec (co_DependsOn got)).
  rewrite <- (pairwise_map _ _ _ (mco_Environment want) environment_same_spec),
    <- (pairwise_map _ _ _ (mco_Storage want) (storage_same_spec _)),
    <- (pairwise_map _ _ _ (mco_Services want) service_same_spec).
  split.
  - intros. destruct_and?. rewrite shell_commands_spec in * by done. destruct_and?. simplify_eq/=.
    match goal with H : co_ID got = mco_ID want |- _ => rewrite <- H end. by split_and!.
  - intros. destruct_and?. match goal with H : co_ID got = mco_ID want |- _ => rewrite <- H in * end.
    match goal with H : co_Command got = _ |- _ => rewrite H end.
    rewrite shell_commands_spec by done. subst seen'. by split_and!.
Qed.

Lemma first_release_named_spec r m : first_release_named r m = true <->
  exists first rest, ma_Releases m = first :: rest /\ rq_ApplicationID r = ma_ID m /\
    rq_ReleaseID r = mrl_Version first /\ rq_Image r = image_of first.
Proof. unfold first_release_named. destruct (ma_Releases m); bools; naive_solver. Qed.

Lemma multi_plan_spec lan r m : NoDup (ms_ID <$> ma_Services m) ->
  validateMultiComponentPlan lan r m = Ok tt <-> trusted_multi lan r m.
Proof.
  intros Hsv. unfold validateMultiComponentPlan, trusted_multi.
  rewrite !refuse_Ok, not_or_iff, !not_false_iff_true, first_release_named_spec, !(not_not_iff (_ = _)).
  rewrite ensure_Ok, (range_keyed_ok _ _ _ _ (component_step_trusted r m)), ensure_Ok, trusted_bindings_spec by done.
  rewrite <- (pairwise_map _ _ _ _ service_same_spec).
  split.
  - intros (Hfirst & [Hlen Htwo] & Hnet & Hsl & Hsp & [HF Hnd] & Hord & Hb). split_and!; try done; [lia|..].
    + by apply zip_Forall2.
    + by rewrite zip_ids in Hnd by lia.
  - intros (Hfirst & Htwo & Hnet & [Hsl Hsp] & HF & Hnd & Hord & Hb).
    pose proof (Forall2_length _ _ _ HF) as Hlen. split_and!; try done; [lia|..].
    + by apply zip_Forall2.
    + by rewrite zip_ids by lia.
Qed.

(** ** Pinned images pass the textual checks *)
Lemma prefix_self s t : String.prefix s (s +:+ t) = true.
Proof. induction s as [|c s IH]; [by destruct t|]. change (String c s +:+ t) with (String c (s +:+ t)). simpl.
  destruct (ascii_dec c c); [apply IH | done]. Qed.

Lemma Contains_prefix s sub : String.prefix sub s = true -> Contains s sub = true.
Proof. destruct s; simpl; by intros ->. Qed.

Lemma Contains_app a sub b : Contains (a +:+ sub +:+ b) sub = true.
Proof.
  induction a as [|c a IH].
  - change ("" +:+ sub +:+ b) with (sub +:+ b). apply Contains_prefix, prefix_self.
  - change (String c a +:+ sub +:+ b) with (String c (a +:+ sub +:+ b)). simpl. rewrite IH. apply orb_true_r.
Qed.

Lemma prefix_head sub c s : String.prefix (String c sub) s = true -> exists s', s = String c s'.
Proof. destruct s as [|c' s]; simpl; [done|]. destruct (ascii_dec c c') as [->|]; eauto; done. Qed.

(** A text without the first character of [sub] holds no occurrence of it. *)
Lemma last_suffix_none c sub s : N_of_ascii c ∉ text s -> last_suffix s (String c sub) = None.
Proof.
  induction s as [|x s IH]; [done|]. rewrite text_cons, elem_of_cons. intros Hc. simpl. rewrite IH by tauto.
  destruct (ascii_dec c x) as [->|]; [exfalso; tauto | done].
Qed.

Lemma last_suffix_app a c sub b : N_of_ascii c ∉ text (sub +:+ b) ->
  last_suffix (a +:+ String c sub +:+ b) (String c sub) = Some (String c sub +:+ b).
Proof.
  intros Hb. induction a as [|x a IH].
  - change ("" +:+ String c sub +:+ b) with (String c (sub +:+ b)). simpl.
    rewrite last_suffix_none by done. destruct (ascii_dec c c); [|done]. by rewrite prefix_self.
  - change (String x a +:+ String c sub +:+ b) with (String x (a +:+ String c sub +:+ b)). simpl. by rewrite IH.
Qed.

Lemma hex_no_at hex : forallb is_hex (text hex) = true -> 64%N ∉ text hex.
Proof. rewrite forallb_forall. intros H Hin%list_elem_of_In%H. done. Qed.

Lemma append_assoc (a b c : string) : (a +:+ b) +:+ c = a +:+ b +:+ c.
Proof. apply text_inj. by rewrite !text_app, app_assoc. Qed.

Lemma pinned_image image : pinned image ->
  existsb (fun registry => HasPrefix image (registry +:+ "/")) registries = true /\
  Contains image "@sha256:" = true /\ String.length (image_digest image) = 71%nat /\
  forallb is_hex (drop 7 (text (image_digest image))) = true.
Proof.
  intros (reg & repo & hex & -> & Hreg & _ & Hl & Hx).
  assert (reg +:+ "/" +:+ repo +:+ "@sha256:" +:+ hex = (reg +:+ "/" +:+ repo) +:+ "@sha256:" +:+ hex) as Hassoc
    by (by rewrite !append_assoc).
  assert (image_digest (reg +:+ "/" +:+ repo +:+ "@sha256:" +:+ hex) = "sha256:" +:+ hex) as ->.
  { unfold image_digest. rewrite Hassoc.
    rewrite last_suffix_app; [done|]. change (String "s" _ +:+ hex) with ("sha256:" +:+ hex). rewrite text_app, elem_of_app.
    intros [Hin|Hin]; [|by apply hex_no_at in Hin]. revert Hin. cbn. rewrite !elem_of_cons, elem_of_nil. naive_solver. }
  split_and!.
  - apply existsb_exists. exists reg. split; [by apply list_elem_of_In|]. rewrite <- append_assoc. apply prefix_self.
  - rewrite Hassoc. apply Contains_app.
  - rewrite <- length_text, text_app, length_app, length_text. cbn. rewrite length_text. lia.
  - rewrite text_app. exact Hx.
Qed.
