(* ===== verification/HelperCreate.v ===== *)
(** * From an accepted request to a plan ([cmd/kitpro-helper/main.go])

    [createApplication] and [createMultiApplication] up to the call of the
    lifecycle runner: the request is checked against the catalogue and against
    the recorded generation, accelerators, imported storage and secrets are
    resolved, and the plan the runner gets is built.

    What these steps read or do on the host is an argument: the inventory of
    accelerators ([inventory]), the mounts of imported storage ([imported]), the
    creation of directories ([mkdir]), the bootstrap of a structured
    configuration ([bootstrap]) and the environment with generated secrets
    ([environment]).  Error texts name a device class as it is, where the code
    quotes it; an absent and an empty command are the same.  Left out are
    logging, the backfill of the tables kept before generations existed, and
    the rows that record the resolved accelerators and storage roots. *)

From S2P Require Import Prelude Protocol Exposure HelperDB Coordinator NetIP ExposurePolicy Containers Topology LifecycleStore MultiStore ReconciliationStore Ingress Manifest HelperPlan.
From stdpp Require Import base strings list gmap sorting.
From Stdlib Require Import ZArith Lia Ascii.

Import Wire.
Open Scope Z_scope.

(** ** Accelerators ([internal/hardware/hardware.go]) *)
Record DeviceNode : Type := {
  dn_Kind : string;
  dn_StableID : string;
  dn_Path : string;
  dn_Major : Z;
  dn_Minor : Z
}.

Record HardwareAccelerator : Type := {
  ha_Vendor : string;
  ha_VendorID : string;
  ha_DeviceID : string;
  ha_Model : string;
  ha_StableID : string;
  ha_Cards : list DeviceNode;
  ha_RenderNodes : list DeviceNode;
  ha_KFD : bool;
  ha_KFDNode : DeviceNode
}.

Record Inventory : Type := {
  hv_Accelerators : list HardwareAccelerator;
  hv_NVIDIADriver : bool;
  hv_NVIDIARuntime : bool;
  hv_IOMMU : bool
}.

Record HardwareAssignment : Type := {
  hs_Class : string;
  hs_Vendor : string;
  hs_StableID : string;
  hs_Devices : list DeviceNode;
  hs_NVIDIARuntime : bool
}.

Definition NVIDIAClass : string := "gpu.nvidia".
Definition AMDClass : string := "gpu.amd".
Definition IntelRenderClass : string := "gpu.intel.render".
Definition VAAPIClass : string := "video.vaapi".

Definition device_unavailable (class : string) : error := ErrMsg ("device class " +:+ class +:+ " unavailable").

(** The [switch] on the class: the devices of [a], if it has that class. *)
Definition class_devices (class : string) (a : HardwareAccelerator) : option (list DeviceNode) :=
  match ha_RenderNodes a with
  | [] => None
  | render :: _ =>
      if decide (class = AMDClass) then
        if bool_decide (ha_Vendor a = "amd") && ha_KFD a then Some [ha_KFDNode a; render] else None
      else if decide (class = IntelRenderClass) then
        if bool_decide (ha_Vendor a = "intel") then Some [render] else None
      else
        if bool_decide (ha_Vendor a = "intel") || bool_decide (ha_Vendor a = "amd") then Some [render] else None
  end.

Fixpoint resolve_class (class : string) (l : list HardwareAccelerator) : res HardwareAssignment :=
  match l with
  | [] => Err (device_unavailable class)
  | a :: l =>
      if decide (class ∈ [AMDClass; IntelRenderClass; VAAPIClass]) then
        match class_devices class a with
        | Some devices => Ok {| hs_Class := class; hs_Vendor := ha_Vendor a; hs_StableID := ha_StableID a;
                                hs_Devices := devices; hs_NVIDIARuntime := false |}
        | None => resolve_class class l
        end
      else Err (ErrMsg ("unknown device class " +:+ class))
  end.

Definition ResolveClass (i : Inventory) (class : string) : res HardwareAssignment :=
  if decide (class = NVIDIAClass) then
    match filter (fun a => ha_Vendor a = "nvidia") (hv_Accelerators i) with
    | [a] =>
        if hv_NVIDIADriver i && hv_NVIDIARuntime i
        then Ok {| hs_Class := class; hs_Vendor := ha_Vendor a; hs_StableID := ha_StableID a; hs_Devices := [];
                   hs_NVIDIARuntime := true |}
        else Err (device_unavailable class)
    | _ => Err (ErrMsg ("device class " +:+ class +:+ " requires exactly one unambiguous NVIDIA GPU"))
    end
  else resolve_class class (hv_Accelerators i).

Record runtimeHardware : Type := {
  rh_Devices : list DeviceMapping;
  rh_Requests : list DeviceRequest;
  rh_Assignments : list HardwareAssignment;
  rh_CPU : list string
}.

Definition no_hardware : runtimeHardware :=
  {| rh_Devices := []; rh_Requests := []; rh_Assignments := []; rh_CPU := [] |}.

Definition device_mapping (node : DeviceNode) : DeviceMapping :=
  {| dv_PathOnHost := dn_Path node; dv_PathInContainer := dn_Path node; dv_CgroupPermissions := "rwm" |}.

Definition nvidia_request : DeviceRequest :=
  {| dr_Driver := "nvidia"; dr_Count := -1; dr_Capabilities := Some [Some ["gpu"]] |}.

Definition hardware_requirement_step (inv : Inventory) (out : runtimeHardware) (requirement : HardwareRequirement)
    : res runtimeHardware :=
  match ResolveClass inv (hw_Class requirement) with
  | Err _ =>
      if hw_Optional requirement && hw_CPUFallback requirement
      then Ok {| rh_Devices := rh_Devices out; rh_Requests := rh_Requests out;
                 rh_Assignments := rh_Assignments out; rh_CPU := rh_CPU out ++ [hw_Class requirement] |}
      else Err (ErrMsg ("required hardware unavailable: " +:+ hw_Class requirement))
  | Ok assignment =>
      Ok {| rh_Devices := rh_Devices out ++ map device_mapping (hs_Devices assignment);
            rh_Requests := if hs_NVIDIARuntime assignment then rh_Requests out ++ [nvidia_request] else rh_Requests out;
            rh_Assignments := rh_Assignments out ++ [assignment]; rh_CPU := rh_CPU out |}
  end.

Definition resolveHardware (inventory : res Inventory) (requirements : list HardwareRequirement) : res runtimeHardware :=
  match requirements with
  | [] => Ok no_hardware
  | _ => rbind inventory (fun inv => range (hardware_requirement_step inv) no_hardware requirements)
  end.

(** ** The recorded runtime *)
Definition recorded_app (installation : string) (d : db) : option Generation :=
  head (merge_sort current_le (filter (fun g => cm_ID (gn_Component g) = "app")
    (generationSelect (fun k r => k.1 = installation /\ is_current (g_status r)) d))).

(** What the two queries of [validateTrustedRecreation] scan, and whether it
    came from the table kept before generations existed. *)
Record trustedRuntime : Type := {
  tr_generation : Z;
  tr_application : string;
  tr_release : string;
  tr_image : string;
  tr_data_path : string;
  tr_legacy : option Z
}.

Definition trusted_runtime (installation : string) (d : db) : option trustedRuntime :=
  match recorded_app installation d with
  | Some g => Some {| tr_generation := gn_Generation g; tr_application := gn_ApplicationID g;
                      tr_release := gn_ReleaseID g; tr_image := cm_Image (gn_Component g);
                      tr_data_path := gn_DataPath g; tr_legacy := None |}
  | None =>
      (fun o => {| tr_generation := ow_generation o; tr_application := ow_application o; tr_release := ow_release o;
                   tr_image := ow_image o; tr_data_path := ow_data_path o; tr_legacy := Some (ow_host_port o) |})
      <$> db_ownership d !! installation
  end.

Definition validateTrustedRecreation (d : db) (r : Request) : res unit :=
  match trusted_runtime (rq_InstanceID r) d with
  | None =>
      refuse (rq_RuntimeGeneration r <> 1) with "new installation must begin at runtime generation 1" in Ok tt
  | Some t =>
      refuse (rq_RuntimeGeneration r <> tr_generation t + 1
              \/ (tr_application t <> "" /\ tr_application t <> rq_ApplicationID r)
              \/ tr_data_path t <> rq_DataPath r)
      with "trusted runtime identity mismatch" in
      refuse (rq_Operation r <> "UpdateApplication"
              /\ ((tr_release t <> "" /\ tr_release t <> rq_ReleaseID r) \/ tr_image t <> rq_Image r))
      with "trusted runtime identity mismatch" in
      if decide (rq_Operation r = "ConfigureServiceExposure") then Ok tt
      else if decide (is_Some (tr_legacy t) /\ rq_Version r < 2) then
        refuse (default 0 (tr_legacy t) <> 0 /\ rq_HostPort r <> default 0 (tr_legacy t))
        with "trusted exposure assignment mismatch" in Ok tt
      else
        refuse (loadBindings (rq_InstanceID r, tr_generation t) d <> requestBindings r)
        with "trusted exposure assignment mismatch" in Ok tt
  end.

(** [component_ownership], keyed by installation and component, as far as the
    generation is concerned.  [MIN] of no rows is [NULL], which equals nothing. *)
Definition owned_generation (owned : gmap (string * string) Z) (installation : string) : option Z :=
  match map snd (select (fun k _ => k.1 = installation) owned) with
  | [] => None
  | g :: gs => if forallb (fun h => bool_decide (h = g)) gs then Some g else None
  end.

Definition recorded_multi (installation : string) (d : db) (owned : gmap (string * string) Z) : option Z :=
  match head (merge_sort current_row_le (select (fun k r => k.1 = installation /\ is_current (g_status r)) (db_gens d))) with
  | Some kr => Some kr.1.2
  | None => owned_generation owned installation
  end.

Definition validateTrustedMultiRecreation (d : db) (owned : gmap (string * string) Z) (r : Request) : res unit :=
  match recorded_multi (rq_InstanceID r) d owned with
  | None =>
      refuse (rq_RuntimeGeneration r <> 1) with "new installation must begin at runtime generation 1" in Ok tt
  | Some generation =>
      refuse (rq_RuntimeGeneration r <> generation + 1) with "trusted runtime generation mismatch" in Ok tt
  end.

(** The evidence a controlled recreation needs. *)
Definition recreation_evidence (d : db) (r : Request) : res unit :=
  if decide (rq_RepairAction r = "") then Ok tt
  else refuse (rq_RepairAction r <> RepairRecreateGeneration \/ rq_Operation r <> "InstallApplication")
       with "invalid lifecycle repair request" in
       match LoadReconciliation (rq_InstanceID r) d with
       | Err _ => Err (ErrMsg "missing runtime recreation requires current helper reconciliation evidence")
       | Ok (reconciliation, _) =>
           refuse (rr_CheckedGeneration reconciliation <> rq_RuntimeGeneration r - 1
                   \/ rr_RecommendedAction reconciliation <> RepairRecreateGeneration)
           with "missing runtime recreation requires current helper reconciliation evidence" in Ok tt
       end.

(** ** Plans *)
Definition application_labels (r : Request) : gmap string string :=
  {[ LabelManaged := "true"; LabelInstance := rq_InstanceID r; LabelResource := "application";
     "com.kitpro.application" := rq_ApplicationID r; "com.kitpro.release" := rq_ReleaseID r;
     LabelGeneration := itoa (rq_RuntimeGeneration r); "com.kitpro.operation" := rq_OperationID r ]}.

Definition user_of (identity : option RuntimeIdentity) : string :=
  match identity with Some i => itoa (ri_UID i) +:+ ":" +:+ itoa (ri_GID i) | None => "" end.

Definition runtime_mount (s : WireMount) : StorageMount :=
  {| sg_ContainerPath := sm_ContainerPath s; sg_HostPath := sm_HostPath s; sg_ReadOnly := sm_ReadOnly s |}.

(** A slice built by [append] on a nil slice. *)
Definition appended_slice {A} (l : list A) : slice A := match l with [] => None | _ => Some l end.

Definition rollback_safe (r : Request) : bool :=
  negb (bool_decide (rq_Operation r = "UpdateApplication")) && bool_decide (rq_RepairAction r = "").

Inductive applicationPlan : Type :=
| OneContainer (plan : Plan)
| SeveralContainers (plan : MultiPlan).

Section create.
Context (catalog : res (gmap string Manifest)) (configuredLAN : string) (sha256_hex : string -> string)
        (owned : gmap (string * string) Z) (inventory : res Inventory)
        (imported : string -> list ExternalStorage -> list ExternalStorageBinding -> res (list StorageMount))
        (mkdir : option string -> list WireMount -> res unit) (bootstrap : Request -> res unit)
        (environment : string -> list EnvVar -> res (list string)).

(** [entries[id].Manifest]: the zero manifest when there is no such entry. *)
Definition trusted_manifest (r : Request) : Manifest :=
  match catalog with
  | Ok entries => default zero_manifest (entries !! rq_ApplicationID r)
  | Err _ => zero_manifest
  end.

Definition container_name (r : Request) : string :=
  "kitpro-" +:+ rq_ApplicationID r +:+ "-" +:+ rq_InstanceID r +:+ "-g" +:+ itoa (rq_RuntimeGeneration r).

Definition createSinglePlan (r : Request) (fencingToken : Z) : res Plan :=
  let m := trusted_manifest r in
  rbind (resolveHardware inventory (rq_Hardware r)) (fun hw =>
  rbind (imported "" (ma_ExternalStorage m) (rq_ExternalStorage r)) (fun externalMounts =>
  ensure mkdir (Some (rq_DataPath r)) (rq_Storage r) in
  match bootstrap r with
  | Err _ => Err (ErrMsg "application configuration bootstrap failed")
  | Ok _ =>
  match environment "" (rq_Environment r) with
  | Err _ => Err (ErrMsg "application secret preparation failed")
  | Ok env =>
      let trustedBindings := trustedRequestBindings r m in
      let container :=
        {| pl_Image := rq_Image r; pl_Name := container_name r; pl_Network := rq_NetworkName r;
           pl_User := user_of (rq_RunAs r); pl_ImageDefaultUser := ""; pl_ImageDefaultVolumes := [];
           pl_Labels := Some (application_labels r); pl_Command := appended_slice (rq_Command r); pl_Environment := env;
           pl_DataPath := rq_DataPath r; pl_ReadOnly := false;
           pl_Storage := map runtime_mount (rq_Storage r) ++ externalMounts;
           pl_PortBindings := Some (Some <$> runtimePortBindings trustedBindings);
           pl_RestartPolicy := rq_RestartPolicy r; pl_NetworkAliases := []; pl_Dependencies := [];
           pl_Devices := appended_slice (rh_Devices hw); pl_DeviceRequests := appended_slice (rh_Requests hw) |} in
      rbind (Hash sha256_hex r) (fun planHash =>
      Ok {| p_OperationID := rq_OperationID r; p_InstallationID := rq_InstanceID r;
            p_ApplicationID := rq_ApplicationID r; p_ReleaseID := rq_ReleaseID r;
            p_Generation := rq_RuntimeGeneration r; p_ExpectedGeneration := rq_RuntimeGeneration r - 1;
            p_FencingToken := fencingToken; p_Image := rq_Image r; p_NetworkName := rq_NetworkName r;
            p_ContainerName := container_name r; p_PlanHash := planHash; p_DataPath := rq_DataPath r;
            p_Bindings := trustedBindings; p_Container := container; p_RollbackSafe := rollback_safe r;
            p_AllowMissingActive := bool_decide (rq_RepairAction r = RepairRecreateGeneration) |})
  end end)).

Definition component_name (r : Request) (id : string) : string :=
  "kitpro-" +:+ rq_ApplicationID r +:+ "-" +:+ rq_InstanceID r +:+ "-" +:+ id +:+ "-g" +:+ itoa (rq_RuntimeGeneration r).

(** The bindings of the component's services that reach the host. *)
Definition component_bindings (services : list Service) (bindings : list ServiceBinding) : list ServiceBinding :=
  concat (map (fun s => filter (fun b => ServiceID b = sv_ID s /\ ContainerPort b = sv_ContainerPort s) bindings) services).

Definition createComponentPlan (r : Request) (m : Manifest) (bindings : list ServiceBinding)
    (node : TopologyComponent) (component : WireComponent) : res MultiComponentPlan :=
  let declared := snd <$> list_find (fun c => mco_ID c = co_ID component) (reverse (ma_Components m)) in
  let slots := match declared with Some c => mco_ExternalStorage c | None => [] end in
  rbind (imported (co_ID component) slots (co_ExternalStorage component)) (fun externalMounts =>
  rbind (resolveHardware inventory (co_Hardware component)) (fun hw =>
  ensure mkdir None (co_Storage component) in
  match environment (co_ID component) (co_Environment component) with
  | Err _ => Err (ErrMsg "application secret preparation failed")
  | Ok env =>
      let name := component_name r (co_ID component) in
      Ok {| mc_ID := co_ID component; mc_Image := co_Image component; mc_ContainerName := name;
            mc_DependsOn := items (tc_DependsOn node); mc_StartOrdinal := tc_Ordinal node;
            mc_Container :=
              {| pl_Image := co_Image component; pl_Name := name; pl_Network := rq_NetworkName r;
                 pl_User := user_of (co_RunAs component); pl_ImageDefaultUser := ""; pl_ImageDefaultVolumes := [];
                 pl_Labels := Some (<["com.kitpro.component" := co_ID component]> (application_labels r));
                 pl_Command := appended_slice (co_Command component); pl_Environment := env; pl_DataPath := "";
                 pl_ReadOnly := false; pl_Storage := map runtime_mount (co_Storage component) ++ externalMounts;
                 pl_PortBindings :=
                   Some (Some <$> runtimePortBindings (component_bindings (co_Services component) bindings));
                 pl_RestartPolicy := co_Restart component; pl_NetworkAliases := [co_ID component];
                 pl_Dependencies := map (component_name r) (items (tc_DependsOn node));
                 pl_Devices := appended_slice (rh_Devices hw); pl_DeviceRequests := appended_slice (rh_Requests hw) |} |}
  end)).

(** [byID[component.ID] = component] for every component in turn. *)
Definition components_by_id (l : list WireComponent) : gmap string WireComponent :=
  foldl (fun byID c => <[co_ID c := c]> byID) ∅ l.

Definition zero_component_request : WireComponent :=
  {| co_ID := ""; co_Image := ""; co_Command := []; co_Environment := []; co_Storage := []; co_Services := [];
     co_DependsOn := []; co_Restart := ""; co_Hardware := []; co_ExternalStorage := []; co_RunAs := None |}.

Definition createMultiPlan (r : Request) (fencingToken : Z) : res MultiPlan :=
  rbind (BuildTopology sha256_hex (map component_node (rq_Components r))) (fun topology =>
  match catalog with
  | Err _ => Err (ErrMsg "trusted catalog unavailable")
  | Ok _ =>
      let m := trusted_manifest r in
      rbind (Hash sha256_hex r) (fun planHash =>
      let trustedBindings := trustedRequestBindings r m in
      let byID := components_by_id (rq_Components r) in
      match range (fun plans node =>
              rbind (createComponentPlan r m trustedBindings node (default zero_component_request (byID !! tc_ID node)))
                (fun p => Ok (plans ++ [p]))) [] (to_Components topology) with
      | Err e => Err (ErrWrap "candidate metadata preparation failed" e)
      | Ok components =>
          Ok {| mp_OperationID := rq_OperationID r; mp_InstallationID := rq_InstanceID r;
                mp_ApplicationID := rq_ApplicationID r; mp_ReleaseID := rq_ReleaseID r;
                mp_Generation := rq_RuntimeGeneration r; mp_ExpectedGeneration := rq_RuntimeGeneration r - 1;
                mp_FencingToken := fencingToken; mp_NetworkName := rq_NetworkName r; mp_PlanHash := planHash;
                mp_TopologyHash := to_Hash topology; mp_DataPath := rq_DataPath r; mp_Bindings := trustedBindings;
                mp_Components := components; mp_RollbackSafe := rollback_safe r;
                mp_AllowMissingActive := bool_decide (rq_RepairAction r = RepairRecreateGeneration) |}
      end)
  end).

(** [createApplication]: the plan given to the runner, or the error reported. *)
Definition createApplication (d : db) (r : Request) (fencingToken : Z) : res applicationPlan :=
  ensure validateApplicationPlan catalog configuredLAN r in
  ensure recreation_evidence d r in
  ensure (if decide (0 < length (rq_Components r))%nat then validateTrustedMultiRecreation d owned r
          else validateTrustedRecreation d r) in
  if decide (0 < length (rq_Components r))%nat then
    rbind (createMultiPlan r fencingToken) (fun p => Ok (SeveralContainers p))
  else rbind (createSinglePlan r fencingToken) (fun p => Ok (OneContainer p)).
End create.
