(* ===== verification/HelperPlanProps.v ===== *)
(** * What the helper's check of a plan guarantees, and what it does not *)

From S2P Require Import Prelude Protocol Exposure HelperDB Coordinator NetIP ExposurePolicy Containers Topology LifecycleStore MultiStore ReconciliationStore Ingress IngressProofs IngressRender Manifest ManifestProofs ManifestSamples HelperPlan HelperPlanProofs HelperCreate.
From stdpp Require Import base strings list gmap sorting.
From Stdlib Require Import ZArith Lia Ascii.

Import Wire.
Open Scope Z_scope.

(** What loading the catalogue guarantees of it. *)
Definition catalogue_ok (P : string -> option URL) (entries : gmap string Manifest) : Prop :=
  map_Forall (fun id m => ma_ID m = id /\ well_formed P m) entries.

Definition trusted_request (lan : string) (entries : gmap string Manifest) (r : Request) : Prop :=
  rq_InstanceID r <> "" /\ 1 <= rq_RuntimeGeneration r /\ rq_NetworkName r = generation_network r /\
  rq_DataPath r = installation_root r +:+ "/data" /\
  exists m, entries !! rq_ApplicationID r = Some m /\
    (if decide (ma_Components m = []) then trusted_single lan r m else trusted_multi lan r m).

(** The plan the catalogue gives, whatever the kind of the application. *)
Definition own_fields (r : Request) (m : Manifest) : Prop :=
  rq_RestartPolicy r = ma_Restart m /\ rq_Command r = ma_Command m /\ rq_Environment r = map env_of (ma_Environment m) /\
  rq_Storage r = map (mount_of (installation_root r)) (ma_Storage m) /\ rq_Hardware r = map requirement_of (ma_Hardware m) /\
  rq_RunAs r = identity_of <$> ma_RunAs m /\ rq_Configuration r = policy_of <$> ma_Configuration m /\
  slots_chosen (rq_ExternalStorage r) (ma_ExternalStorage m).

Definition catalogue_plan (lan : string) (r : Request) (m : Manifest) : Prop :=
  rq_InstanceID r <> "" /\ 1 <= rq_RuntimeGeneration r /\ rq_NetworkName r = generation_network r /\
  rq_DataPath r = installation_root r +:+ "/data" /\
  own_fields r m /\ rq_Services r = map service_of (ma_Services m) /\ bindings_trusted lan r m /\
  Forall2 (trusted_component r m) (rq_Components r) (ma_Components m) /\
  if decide (ma_Components m = [])
  then (exists rel, rel ∈ ma_Releases m /\ mrl_Version rel = rq_ReleaseID r /\ rq_Image r = image_of rel) /\
       Forall (fun c => bad_command_argument c = false) (rq_Command r) /\ Forall sound_variable (rq_Environment r) /\
       Forall (fun s => bad_mount s = false) (rq_Storage r)
  else (exists first rest, ma_Releases m = first :: rest /\ rq_ApplicationID r = ma_ID m /\
          rq_ReleaseID r = mrl_Version first /\ rq_Image r = image_of first) /\
       (2 <= length (ma_Components m))%nat /\ NoDup (co_ID <$> rq_Components r) /\
       exists order, StartOrder (map component_node (rq_Components r)) = Ok order.

(** The parts of a request the check does not compare. *)
Definition uncompared_match (r : Request) (m : Manifest) : Prop :=
  if decide (ma_Components m = []) then rq_Components r = [] else own_fields r m.

Lemma wf_service_ids P m : well_formed P m -> NoDup (ms_ID <$> ma_Services m).
Proof. intros Hwf. unfold well_formed, services_ok in Hwf. cbn zeta in Hwf. tauto. Qed.
Lemma wf_release_ids P m : well_formed P m -> NoDup (mrl_Version <$> ma_Releases m).
Proof. intros Hwf. unfold well_formed in Hwf. cbn zeta in Hwf. tauto. Qed.
Lemma wf_release P m rel : well_formed P m -> rel ∈ ma_Releases m -> release_ok rel.
Proof. intros Hwf. unfold well_formed in Hwf. cbn zeta in Hwf. apply Forall_forall. tauto. Qed.
Lemma wf_id P m : well_formed P m -> ma_ID m <> "".
Proof.
  intros Hwf. unfold well_formed, identity_text_ok in Hwf. cbn zeta in Hwf.
  assert (idPattern (ma_ID m) = true) as H by tauto. by intros E; rewrite E in H.
Qed.

(** The image of either kind of accepted plan is that of a declared release. *)
Lemma trusted_image P lan r m : well_formed P m ->
  (if decide (ma_Components m = []) then trusted_single lan r m else trusted_multi lan r m) ->
  exists rel, rel ∈ ma_Releases m /\ mrl_Version rel = rq_ReleaseID r /\ rq_Image r = image_of rel.
Proof.
  intros Hwf. case_decide; [by intros [? _]|]. intros [(first & rest & E & _ & Hv & Hi) _].
  exists first. rewrite E. split; [apply list_elem_of_here | done].
Qed.

Lemma plan_spec P entries lan r : catalogue_ok P entries ->
  validateApplicationPlan (Ok entries) lan r = Ok tt <-> trusted_request lan entries r.
Proof.
  intros Hcat. unfold validateApplicationPlan, trusted_request. cbn zeta.
  destruct (entries !! rq_ApplicationID r) as [m|] eqn:Hm.
  2: { guards. naive_solver. }
  destruct (Hcat _ _ Hm) as [Hid Hwf].
  assert ((if decide (0 < length (ma_Components m))%nat then validateMultiComponentPlan lan r m
           else validateSinglePlan lan r m) = Ok tt <->
          (if decide (ma_Components m = []) then trusted_single lan r m else trusted_multi lan r m)) as Hplan.
  { destruct (ma_Components m) eqn:E; simpl.
    - apply single_plan_spec; eauto using wf_service_ids, wf_release_ids.
    - apply multi_plan_spec. eauto using wf_service_ids. }
  guards. rewrite Hplan. split; [naive_solver|].
  intros (Hinst & Hgen & Hnet & Hdata & m' & [= <-] & Ht).
  destruct (trusted_image P lan r m Hwf Ht) as (rel & Hin & Hv & Hi).
  pose proof (wf_release P m rel Hwf Hin) as Hrel.
  destruct (pinned_image (rq_Image r)) as (H1 & H2 & H3 & H4); [rewrite Hi; by apply release_pinned|].
  split_and!; try done.
  - rewrite <- Hid. by eapply wf_id.
  - rewrite <- Hv. apply Hrel.
Qed.

(** ** Requests as the catalogue has them *)
#[local] Instance set_rq_ApplicationID : Setter rq_ApplicationID := ltac:(mk_setter).
#[local] Instance set_rq_ReleaseID : Setter rq_ReleaseID := ltac:(mk_setter).
#[local] Instance set_rq_Image : Setter rq_Image := ltac:(mk_setter).
#[local] Instance set_rq_NetworkName : Setter rq_NetworkName := ltac:(mk_setter).
#[local] Instance set_rq_DataPath : Setter rq_DataPath := ltac:(mk_setter).
#[local] Instance set_rq_RestartPolicy : Setter rq_RestartPolicy := ltac:(mk_setter).
#[local] Instance set_rq_Command : Setter rq_Command := ltac:(mk_setter).
#[local] Instance set_rq_Storage : Setter rq_Storage := ltac:(mk_setter).
#[local] Instance set_rq_Services : Setter rq_Services := ltac:(mk_setter).
#[local] Instance set_rq_Bindings : Setter rq_Bindings := ltac:(mk_setter).

Definition internal_binding (s : ManifestService) : WireBinding :=
  {| sb_ServiceID := ms_ID s; sb_Transport := transport_or_empty (ms_Protocol s);
     sb_ContainerPort := ms_ContainerPort s; sb_Mode := Internal; sb_HostAddress := "";
     sb_HostPort := ms_FixedHostPort s |}.

Definition component_of (m : Manifest) (root : string) (c : ManifestComponent) : WireComponent :=
  {| co_ID := mco_ID c; co_Image := image_of (first_release (ma_Releases m) (mco_Release c));
     co_Command := mco_Command c; co_Environment := map env_of (mco_Environment c);
     co_Storage := map (mount_of (root +:+ "/" +:+ mco_ID c)) (mco_Storage c);
     co_Services := map service_of (mco_Services c); co_DependsOn := mco_DependsOn c; co_Restart := mco_Restart c;
     co_Hardware := map requirement_of (mco_Hardware c); co_ExternalStorage := []; co_RunAs := identity_of <$> mco_RunAs c |}.

(** The first generation of an installation, with no service on the host. *)
Definition first_request (m : Manifest) (instance : string) : Request :=
  let release := default zero_release (head (ma_Releases m)) in
  let r := ProtocolProps.empty_request <| rq_Operation := "InstallApplication" |>
    <| rq_OperationID := "op-00000000000000000000000000000001" |> <| rq_ApplicationID := ma_ID m |>
    <| rq_InstanceID := instance |> <| rq_RuntimeGeneration := 1 |> <| rq_ReleaseID := mrl_Version release |>
    <| rq_Image := image_of release |> <| rq_RestartPolicy := ma_Restart m |> <| rq_Command := ma_Command m |>
    <| rq_Environment := map env_of (ma_Environment m) |> <| rq_Services := map service_of (ma_Services m) |>
    <| rq_Bindings := map internal_binding (ma_Services m) |> in
  r <| rq_NetworkName := generation_network r |> <| rq_DataPath := installation_root r +:+ "/data" |>
    <| rq_Storage := map (mount_of (installation_root r)) (ma_Storage m) |>
    <| rq_Components := map (component_of m (installation_root r)) (ma_Components m) |>.

Definition two_entries : gmap string Manifest := {[ ma_ID paperless := paperless; ma_ID pihole := pihole ]}.

Lemma two_entries_ok : catalogue_ok https_uri two_entries.
Proof.
  unfold catalogue_ok, two_entries. apply map_Forall_insert_2; [|apply map_Forall_singleton].
  - split; [done|]. apply (validate_spec https_uri plain_quote). vm_compute. reflexivity.
  - split; [done|]. apply (validate_spec https_uri plain_quote). vm_compute. reflexivity.
Qed.

Example first_requests_accepted :
  validateApplicationPlan (Ok two_entries) "" (first_request pihole "inst-0123456789ab") = Ok tt /\
  validateApplicationPlan (Ok two_entries) "" (first_request paperless "inst-0123456789ab") = Ok tt.
Proof. split; vm_compute; reflexivity. Qed.

(** ** The plan of an accepted request *)
Section created.
Context (P : string -> option URL) (entries : gmap string Manifest) (lan : string) (sha256_hex : string -> string)
        (owned : gmap (string * string) Z) (inventory : res Inventory)
        (imported : string -> list ExternalStorage -> list ExternalStorageBinding -> res (list StorageMount))
        (mkdir : option string -> list WireMount -> res unit) (bootstrap : Request -> res unit)
        (environment : string -> list EnvVar -> res (list string)).
Notation create := (createApplication (Ok entries) lan sha256_hex owned inventory imported mkdir bootstrap environment).

Definition containers_of (plan : applicationPlan) : list ContainerPlan :=
  match plan with
  | OneContainer p => [p_Container p]
  | SeveralContainers p => map mc_Container (mp_Components p)
  end.

(** The directories of the installation that a container gets: those its
    declaration lists, and imported storage chosen for its slots. *)
Definition mounts_trusted (root component : string) (declared : list Storage) (slots : list ExternalStorage)
    (c : ContainerPlan) : Prop :=
  exists chosen external, imported component slots chosen = Ok external /\
    pl_Storage c = map (fun s => runtime_mount (mount_of root s)) declared ++ external.

(** A container the catalogue describes. *)
Definition container_trusted (r : Request) (m : Manifest) (c : ContainerPlan) : Prop :=
  pinned (pl_Image c) /\ pl_Network c = generation_network r /\
  ((exists rel, rel ∈ ma_Releases m /\ pl_Image c = image_of rel /\ items (pl_Command c) = ma_Command m /\
      mounts_trusted (installation_root r) "" (ma_Storage m) (ma_ExternalStorage m) c) \/
   (exists w, w ∈ ma_Components m /\ pl_Image c = image_of (first_release (ma_Releases m) (mco_Release w)) /\
      items (pl_Command c) = mco_Command w /\
      mounts_trusted (installation_root r +:+ "/" +:+ mco_ID w) (mco_ID w) (mco_Storage w) (mco_ExternalStorage w) c)).

Lemma items_appended {A} (l : list A) : items (appended_slice l) = l.
Proof. by destruct l. Qed.

Lemma single_created r m token p : well_formed P m -> entries !! rq_ApplicationID r = Some m ->
  rq_NetworkName r = generation_network r -> trusted_single lan r m ->
  createSinglePlan (Ok entries) sha256_hex inventory imported mkdir bootstrap environment r token = Ok p ->
  container_trusted r m (p_Container p).
Proof.
  intros Hwf Hm Hnet ((rel & Hin & _ & Hi) & _ & Hcmd & _ & Hst & _). unfold createSinglePlan, trusted_manifest.
  rewrite Hm. cbn [default]. rewrite !rbind_Ok. intros (hw & _ & H). rewrite rbind_Ok in H. destruct H as (ext & Hext & H).
  rewrite ensure_unit_Ok in H. destruct H as [_ H]. destruct (bootstrap r); [|done].
  destruct (environment "" (rq_Environment r)) as [env|]; [|done]. cbn zeta in H. rewrite rbind_Ok in H.
  destruct H as (h & _ & [= <-]). unfold container_trusted. simpl. rewrite items_appended. split_and!; [|done|].
  - rewrite Hi. apply release_pinned. by eapply wf_release.
  - left. exists rel. split_and!; try done. exists (rq_ExternalStorage r), ext. split; [done|]. simpl.
    by rewrite Hst, map_map.
Qed.

Lemma start_order_ids cs order : StartOrder cs = Ok order -> order ≡ₚ n_ID <$> cs.
Proof.
  unfold StartOrder. pose proof (StartOrder_spec cs) as H.
  destruct (StartOrder_run cs) as [[o|]|]; simpl; [|done..]. intros [= <-]. tauto.
Qed.

Lemma topology_ids cs t : BuildTopology sha256_hex cs = Ok t -> Forall (fun n => tc_ID n ∈ n_ID <$> cs) (to_Components t).
Proof.
  unfold BuildTopology. rewrite rbind_Ok. intros (order & Ho & [= <-]). simpl. apply start_order_ids in Ho.
  apply Forall_forall. intros n (i & x & -> & Hx%list_elem_of_lookup_2)%elem_of_lookup_imap. simpl. by rewrite <- Ho.
Qed.

Lemma by_component_id_from l (m0 : gmap string WireComponent) id c :
  foldl (fun byID c => <[co_ID c := c]> byID) m0 l !! id = Some c -> (c ∈ l /\ co_ID c = id) \/ m0 !! id = Some c.
Proof.
  revert m0. induction l as [|x l IH]; intros m0; simpl; [by right|].
  intros [[? ?]|H]%IH; [left; split; [by apply list_elem_of_further | done]|].
  apply lookup_insert_Some in H as [[<- <-]|[_ ?]]; [left; split; [apply list_elem_of_here | done] | by right].
Qed.

Lemma by_component_id l id : id ∈ co_ID <$> l -> exists c, components_by_id l !! id = Some c /\ c ∈ l.
Proof.
  intros Hin. destruct (components_by_id l !! id) as [c|] eqn:E.
  { exists c. split; [done|]. apply by_component_id_from in E as [[? _]|E]; [done | by rewrite lookup_empty in E]. }
  exfalso. revert Hin E. unfold components_by_id. generalize (∅ : gmap string WireComponent).
  induction l as [|x l IH]; intros m0; simpl; [by intros ?%not_elem_of_nil|].
  rewrite elem_of_cons. intros [->|Hin] E; [|by eapply IH]. revert E. clear IH.
  assert (forall l (m : gmap string WireComponent), is_Some (m !! co_ID x) ->
    is_Some (foldl (fun byID c => <[co_ID c := c]> byID) m l !! co_ID x)) as Hkeep.
  { clear. induction l as [|y l IH]; intros m Hm; simpl; [done|]. apply IH.
    destruct (decide (co_ID y = co_ID x)) as [->|]; [by rewrite lookup_insert_eq | by rewrite lookup_insert_ne]. }
  destruct (Hkeep l (<[co_ID x := x]> m0)) as [? ->]; [by rewrite lookup_insert_eq | done].
Qed.

Lemma range_collect {A B} (f : A -> res B) l acc out :
  range (fun out x => rbind (f x) (fun y => Ok (out ++ [y]))) acc l = Ok out ->
  exists ys, out = acc ++ ys /\ Forall2 (fun x y => f x = Ok y) l ys.
Proof.
  revert acc. induction l as [|x l IH]; intros acc; simpl.
  { intros [= <-]. exists []. rewrite app_nil_r. by split. }
  rewrite rbind_Ok. intros (acc' & H & Hr). rewrite rbind_Ok in H. destruct H as (y & Hy & [= <-]).
  apply IH in Hr as (ys & -> & HF). exists (y :: ys). rewrite <- app_assoc. split; [done | by constructor].
Qed.

Lemma find_component m w : NoDup (mco_ID <$> ma_Components m) -> w ∈ ma_Components m ->
  snd <$> list_find (fun c => mco_ID c = mco_ID w) (reverse (ma_Components m)) = Some w.
Proof.
  intros Hnd Hin. destruct (list_find _ _) as [[i x]|] eqn:E.
  - apply list_find_Some in E as (Hx & Hid & _). apply list_elem_of_lookup_2 in Hx. rewrite elem_of_reverse in Hx.
    apply list_elem_of_lookup in Hx as [j Hj]. apply list_elem_of_lookup in Hin as [k Hk].
    assert (j = k) as ->.
    2: { rewrite Hk in Hj. by injection Hj as ->. }
    rewrite NoDup_alt in Hnd. apply (Hnd j k (mco_ID w)); rewrite list_lookup_fmap.
    + rewrite Hj. simpl. by rewrite Hid.
    + by rewrite Hk.
  - apply list_find_None in E. rewrite Forall_forall in E. destruct (E w); [by apply elem_of_reverse | done].
Qed.

Lemma wf_component_ids m : well_formed P m -> NoDup (mco_ID <$> ma_Components m).
Proof. intros Hwf. unfold well_formed in Hwf. cbn zeta in Hwf. tauto. Qed.

Lemma wf_component_image m w : well_formed P m -> w ∈ ma_Components m ->
  pinned (image_of (first_release (ma_Releases m) (mco_Release w))).
Proof.
  intros Hwf Hw. assert (mco_Release w ∈ mrl_Version <$> ma_Releases m) as (rel & Hv & Hrel)%list_elem_of_fmap.
  { unfold well_formed in Hwf. cbn zeta in Hwf. destruct_and?.
    match goal with H : Forall (component_ok _ _) _ |- _ => rewrite Forall_forall in H; destruct (H _ Hw) end. tauto. }
  erewrite first_release_spec; [|by eapply wf_release_ids | done | done].
  apply release_pinned. by eapply wf_release.
Qed.

Lemma component_created r m bindings node got w p : well_formed P m -> rq_NetworkName r = generation_network r ->
  w ∈ ma_Components m -> trusted_component r m got w ->
  createComponentPlan inventory imported mkdir environment r m bindings node got = Ok p ->
  container_trusted r m (mc_Container p).
Proof.
  intros Hwf Hnet Hw (Hid & Himg & _ & _ & Hcmd & _ & Hst & _). unfold createComponentPlan. cbn zeta.
  rewrite Hid, find_component by (done || by apply wf_component_ids).
  rewrite rbind_Ok. intros (ext & Hext & H). rewrite rbind_Ok in H. destruct H as (hw & _ & H).
  rewrite ensure_unit_Ok in H. destruct H as [_ H].
  destruct (environment (mco_ID w) (co_Environment got)) as [env|]; [|done]. injection H as <-.
  unfold container_trusted. simpl. rewrite items_appended, Himg. split_and!; [by apply wf_component_image | done|].
  right. exists w. split_and!; try done. exists (co_ExternalStorage got), ext. split; [done|]. simpl. by rewrite Hst, map_map.
Qed.

Lemma multi_created r m token p : well_formed P m -> entries !! rq_ApplicationID r = Some m ->
  trusted_multi lan r m ->
  createMultiPlan (Ok entries) sha256_hex inventory imported mkdir environment r token = Ok p ->
  Forall (container_trusted r m) (map mc_Container (mp_Components p)).
Proof.
  intros Hwf Hm (_ & _ & Hnet & _ & HF & _). unfold createMultiPlan, trusted_manifest. rewrite Hm. cbn [default].
  rewrite rbind_Ok. intros (t & Ht & H). rewrite rbind_Ok in H. destruct H as (h & _ & H). cbn zeta in H.
  destruct (range _ _ (to_Components t)) as [ps|] eqn:Hps; [|done]. injection H as <-. simpl.
  apply range_collect in Hps as (ys & -> & Hys). simpl. apply topology_ids in Ht.
  apply Forall_fmap. rewrite Forall_forall in Ht. apply Forall_forall. intros y Hy.
  apply list_elem_of_lookup in Hy as [i Hi]. destruct (Forall2_lookup_r _ _ _ _ _ Hys Hi) as (n & Hn & Hny).
  apply list_elem_of_lookup_2, Ht in Hn. rewrite map_map in Hn. simpl in Hn.
  destruct (by_component_id (rq_Components r) (tc_ID n)) as (c & Hc & Hin); [exact Hn|].
  rewrite Hc in Hny. simpl in Hny. apply list_elem_of_lookup in Hin as [j Hj].
  destruct (Forall2_lookup_l _ _ _ _ _ HF Hj) as (w & Hw & Htc). simpl.
  eapply component_created; try done. by eapply list_elem_of_lookup_2.
Qed.

Lemma created_trusted d r m token plan : catalogue_ok P entries -> entries !! rq_ApplicationID r = Some m ->
  (rq_Components r = [] <-> ma_Components m = []) -> create d r token = Ok plan ->
  Forall (container_trusted r m) (containers_of plan).
Proof.
  intros Hcat Hm Hkind. unfold createApplication. rewrite ensure_unit_Ok. intros [Hv H].
  rewrite ensure_unit_Ok in H. destruct H as [_ H]. rewrite ensure_unit_Ok in H. destruct H as [_ H].
  apply (plan_spec P) in Hv as (_ & _ & Hnet & _ & m' & Hm' & Ht); [|done].
  rewrite Hm in Hm'. injection Hm' as <-. destruct (Hcat _ _ Hm) as [_ Hwf].
  destruct (rq_Components r) eqn:Ec; simpl in H; rewrite rbind_Ok in H; destruct H as (p & Hp & [= <-]); simpl.
  - rewrite decide_True in Ht by (by apply Hkind). constructor; [|done]. by eapply single_created.
  - rewrite decide_False in Ht by (intros E; by apply Hkind in E). by eapply multi_created.
Qed.
End created.

(** What one of the two checks of recorded state compares, for a plan of one
    container. *)
Definition follows_record (d : db) (p : Plan) (r : Request) : Prop :=
  p_Generation p = p_ExpectedGeneration p + 1 /\
  match trusted_runtime (rq_InstanceID r) d with
  | None => p_ExpectedGeneration p = 0
  | Some t =>
      p_ExpectedGeneration p = tr_generation t /\ p_DataPath p = tr_data_path t /\
      (tr_application t <> "" -> p_ApplicationID p = tr_application t) /\
      (rq_Operation r <> "UpdateApplication" ->
         p_Image p = tr_image t /\ (tr_release t <> "" -> p_ReleaseID p = tr_release t)) /\
      (rq_Operation r <> "ConfigureServiceExposure" -> p_Bindings p = loadBindings (rq_InstanceID r, tr_generation t) d)
  end.

Lemma trusted_binding_list P entries lan r m : catalogue_ok P entries -> entries !! rq_ApplicationID r = Some m ->
  2 <= rq_Version r -> validateApplicationPlan (Ok entries) lan r = Ok tt -> ma_Components m = [] ->
  trustedRequestBindings r m = requestBindings r.
Proof.
  intros Hcat Hm Hv Hp Hc. apply (plan_spec P) in Hp as (_ & _ & _ & _ & m' & Hm' & Ht); [|done].
  rewrite Hm in Hm'. injection Hm' as <-. rewrite decide_True in Ht by done. unfold trustedRequestBindings, requestBindings.
  destruct (rq_Bindings r) eqn:E; [|done]. f_equal. unfold legacyBindings.
  enough (ma_Services m = []) as -> by done.
  destruct Ht as (_ & _ & _ & _ & _ & _ & _ & _ & _ & _ & Hb & _). unfold bindings_trusted, bindings_input in Hb.
  rewrite decide_False in Hb by lia. destruct Hb as (_ & _ & Hl & _).
  rewrite E in Hl. apply Permutation_nil_l in Hl. by destruct (ma_Services m).
Qed.

Lemma recreation_followed P entries lan sha256_hex inventory imported mkdir bootstrap environment d r m token p :
  catalogue_ok P entries -> entries !! rq_ApplicationID r = Some m -> ma_Components m = [] -> 2 <= rq_Version r ->
  validateApplicationPlan (Ok entries) lan r = Ok tt -> validateTrustedRecreation d r = Ok tt ->
  createSinglePlan (Ok entries) sha256_hex inventory imported mkdir bootstrap environment r token = Ok p ->
  follows_record d p r.
Proof.
  intros Hcat Hm Hc Hv Hp Ht Hs. pose proof (trusted_binding_list _ _ _ _ _ Hcat Hm Hv Hp Hc) as Hb.
  unfold createSinglePlan, trusted_manifest in Hs. rewrite Hm in Hs. cbn [default] in Hs.
  rewrite rbind_Ok in Hs. destruct Hs as (hw & _ & H). rewrite rbind_Ok in H. destruct H as (ext & _ & H).
  rewrite ensure_unit_Ok in H. destruct H as [_ H]. destruct (bootstrap r); [|done].
  destruct (environment "" (rq_Environment r)) as [env|]; [|done]. cbn zeta in H. rewrite rbind_Ok in H.
  destruct H as (h & _ & [= <-]). unfold follows_record. simpl. split; [lia|].
  unfold validateTrustedRecreation in Ht. destruct (trusted_runtime (rq_InstanceID r) d) as [t|]; revert Ht; guards.
  - rewrite Hb. intros ((H1 & H4 & H5) & H2 & H3). split_and!; [lia | done |..].
    + intros Ha. destruct (decide (tr_application t = rq_ApplicationID r)) as [->|]; [done|]. tauto.
    + intros Hop. destruct (decide (tr_image t = rq_Image r)); [|tauto]. split; [done|]. intros Hr.
      destruct (decide (tr_release t = rq_ReleaseID r)) as [->|]; [done | tauto].
    + intros Hop. rewrite decide_False in H3 by done. rewrite decide_False in H3 by lia. revert H3. guards. by intros [-> _].
  - intros H. lia.
Qed.

(** ** A host on which every preparation succeeds *)
Definition no_inventory : Inventory :=
  {| hv_Accelerators := []; hv_NVIDIADriver := false; hv_NVIDIARuntime := false; hv_IOMMU := false |}.
Definition no_imports (_ : string) (_ : list ExternalStorage) (_ : list ExternalStorageBinding)
    : res (list StorageMount) := Ok [].
Definition no_secrets (_ : string) (l : list EnvVar) : res (list string) :=
  Ok (map (fun e => ev_Name e +:+ "=" +:+ ev_Value e) l).

Definition create_on_host (r : Request) : res applicationPlan :=
  createApplication (Ok two_entries) "" (fun s => s) ∅ (Ok no_inventory) no_imports (fun _ _ => Ok tt)
    (fun _ => Ok tt) no_secrets empty_db r 1.


Definition pihole_request : Request := first_request pihole "inst-0123456789ab" <| rq_Version := 2 |>.

(** Two components no manifest has, one of them with the host's file system. *)
Definition stray_component (id : string) : WireComponent :=
  {| co_ID := id; co_Image := "registry.example/anything:latest"; co_Command := ["/bin/sh"; "-c"; "id"];
     co_Environment := [];
     co_Storage := [ {| sm_ID := "host"; sm_ContainerPath := "/host"; sm_HostPath := "/"; sm_ReadOnly := false;
                        sm_OwnerUID := 0; sm_OwnerGID := 0 |} ];
     co_Services := []; co_DependsOn := []; co_Restart := "no"; co_Hardware := []; co_ExternalStorage := [];
     co_RunAs := None |}.

Definition stray_request : Request :=
  pihole_request <| rq_Components := [stray_component "one"; stray_component "two"] |>.

Definition outside_request : Request := first_request paperless "../../../../tmp" <| rq_Version := 2 |>.

Module PlanClaims.
(** C13. The helper's check of a plan, with a loaded catalogue.  The check does
    not compare the components of a request for an application that has none,
    nor the request's own command, environment, storage, accelerators, identity,
    policy and slots for an application of several components.  Of the requests
    whose uncompared parts are those of the manifest, exactly the plans the
    catalogue gives are accepted: a catalogued application, an installation, a
    generation from 1 up, the network of that generation and the data directory
    of that installation, and in every part, component by component, the image,
    command, environment, storage, services, accelerators, identity, slots of
    imported storage and host bindings of the manifest. *)
Theorem accepted_plan_trusted (P : string -> option URL) entries lan r : catalogue_ok P entries ->
  (forall m, entries !! rq_ApplicationID r = Some m -> uncompared_match r m) ->
  validateApplicationPlan (Ok entries) lan r = Ok tt <->
  exists m, entries !! rq_ApplicationID r = Some m /\ catalogue_plan lan r m.
Proof.
  intros Hcat Hmatch. rewrite (plan_spec P) by done. split.
  - intros (? & ? & ? & ? & m & Hm & Ht). exists m. split; [done|]. specialize (Hmatch m Hm). unfold catalogue_plan, uncompared_match, own_fields in *.
    case_decide as Hc; [unfold trusted_single in Ht; rewrite Hmatch, Hc|unfold trusted_multi in Ht]; destruct_and?; split_and!; done || constructor.
  - intros (m & Hm & Hp). unfold catalogue_plan, own_fields in Hp. split_and!; try tauto. exists m. split; [done|].
    case_decide; [unfold trusted_single|unfold trusted_multi]; tauto.
Qed.

Theorem accepted_plan_trusted_witness : uncompared_match pihole_request pihole /\ catalogue_plan "" pihole_request pihole.
Proof.
  assert (uncompared_match pihole_request pihole) as Hu by (vm_compute; reflexivity). split; [exact Hu|].
  assert (two_entries !! rq_ApplicationID pihole_request = Some pihole) as He by (vm_compute; reflexivity).
  destruct (proj1 (accepted_plan_trusted https_uri two_entries "" pihole_request two_entries_ok
    ltac:(intros m Hm; rewrite He in Hm; injection Hm as <-; exact Hu)) ltac:(vm_compute; reflexivity)) as (m & Hm & Hp).
  rewrite He in Hm. injection Hm as <-. exact Hp.
Defined.

(** C17. Of a request with components exactly when its application has them,
    every container the helper creates is one the catalogue describes: an image
    pinned by digest from the manifest's release, the manifest's command, the
    network of that generation, and no host directory except the declared ones
    below the installation's directory and imported storage. *)
Theorem created_containers_trusted (P : string -> option URL) entries lan sha256_hex owned inventory imported mkdir
    bootstrap environment d r m token plan :
  catalogue_ok P entries -> entries !! rq_ApplicationID r = Some m ->
  (rq_Components r = [] <-> ma_Components m = []) ->
  createApplication (Ok entries) lan sha256_hex owned inventory imported mkdir bootstrap environment d r token = Ok plan ->
  Forall (container_trusted imported r m) (containers_of plan).
Proof. intros. by eapply created_trusted. Qed.

Theorem created_containers_trusted_witness :
  exists plan, create_on_host pihole_request = Ok plan /\
    Forall (container_trusted no_imports pihole_request pihole) (containers_of plan).
Proof.
  destruct (create_on_host pihole_request) as [plan|e] eqn:E.
  - exists plan. split; [reflexivity|]. revert E. apply (created_containers_trusted https_uri).
    + exact two_entries_ok.
    + vm_compute. reflexivity.
    + vm_compute. done.
  - exfalso. revert E. vm_compute. discriminate.
Defined.

(** The components of a request are not compared for an application that
    has none, whatever they are, and whether several containers are created is
    decided by the request's components: an accepted request for such an
    application gets containers with an image, a command and a mount of the
    host's root that no manifest has. *)
Theorem stray_components_created :
  (forall entries lan r m cs, entries !! rq_ApplicationID r = Some m -> ma_Components m = [] ->
     validateApplicationPlan (Ok entries) lan (r <| rq_Components := cs |>) =
     validateApplicationPlan (Ok entries) lan r) /\
  match create_on_host stray_request with
  | Ok plan => map (fun c => (pl_Image c, items (pl_Command c), pl_Storage c)) (containers_of plan)
  | Err _ => []
  end = let stray := ("registry.example/anything:latest", ["/bin/sh"; "-c"; "id"],
                      [ {| sg_ContainerPath := "/host"; sg_HostPath := "/"; sg_ReadOnly := false |} ]) in
        [stray; stray].
Proof.
  split; [|vm_compute; reflexivity].
  intros entries lan r m cs Hm Hc. unfold validateApplicationPlan. simpl. rewrite Hm, Hc. reflexivity.
Qed.

(** The helper only requires an installation's name not to be empty: a
    request whose name has ".." is accepted, and the directory it makes for a
    component is not below the applications' directory. *)
Theorem installation_name_escapes :
  validateApplicationPlan (Ok two_entries) "" outside_request = Ok tt /\
  is_ok (create_on_host outside_request) = true /\
  Clean (rq_DataPath outside_request) = "/tmp/data" /\
  map (fun c => map (fun s => Clean (sm_HostPath s)) (co_Storage c)) (rq_Components outside_request) =
    [["/tmp/broker/data"]; ["/tmp/web/data"; "/tmp/web/media"; "/tmp/web/consume"; "/tmp/web/export"]].
Proof. split_and!; vm_compute; reflexivity. Qed.

(** A plan of one container follows the recorded runtime: its generation
    is the recorded one plus one (1 for a new installation), in the same data
    directory and of the same application; only an update may change the image
    and release, and only a change of exposure the host bindings. *)
Theorem created_plan_follows (P : string -> option URL) entries lan sha256_hex owned inventory imported mkdir
    bootstrap environment d r m token p :
  catalogue_ok P entries -> entries !! rq_ApplicationID r = Some m -> ma_Components m = [] -> 2 <= rq_Version r ->
  createApplication (Ok entries) lan sha256_hex owned inventory imported mkdir bootstrap environment d r token
    = Ok (OneContainer p) -> follows_record d p r.
Proof.
  intros Hcat Hm Hc Hv. unfold createApplication. rewrite ensure_unit_Ok. intros [Hp H].
  rewrite ensure_unit_Ok in H. destruct H as [_ H]. rewrite ensure_unit_Ok in H. destruct H as [Ht H].
  case_decide; [by destruct (createMultiPlan _ _ _ _ _ _ _ _)|].
  rewrite rbind_Ok in H. destruct H as (q & Hq & [= <-]). by eapply recreation_followed.
Qed.

Theorem created_plan_follows_witness :
  exists p, create_on_host pihole_request = Ok (OneContainer p) /\ follows_record empty_db p pihole_request.
Proof.
  destruct (create_on_host pihole_request) as [[p|]|e] eqn:E.
  - exists p. split; [reflexivity|]. revert E. apply (created_plan_follows https_uri _ _ _ _ _ _ _ _ _ _ _ pihole).
    + exact two_entries_ok.
    + vm_compute. reflexivity.
    + vm_compute. reflexivity.
    + vm_compute. discriminate.
  - exfalso. revert E. vm_compute. discriminate.
  - exfalso. revert E. vm_compute. discriminate.
Defined.
End PlanClaims.
