(* ===== verification/ExternalStorage.v ===== *)
(** * Imported storage ([internal/externalstorage], [cmd/kitpro-helper/storage.go])

    Administrators register host directories once; applications bind to a
    registered root, never to a path.  A root is inspected when it is registered
    and compared with that inspection whenever it is used.

    What the inspection reads from the host is a record of functions: symbolic
    links, the state of a path, and the lines of the mount table with the error
    the scan of them ends in, if any.  Go iterates
    over a map in an order of its own choice, so [unescape] takes the order as an
    argument.  The clock and the random bytes of a new root are arguments. *)

From S2P Require Import Prelude Protocol Coordinator NetIP ExposurePolicy Ingress Containers Manifest.
From stdpp Require Import base strings list gmap sorting.
From Stdlib Require Import ZArith Lia Ascii.

Import Wire.
Open Scope Z_scope.

(** ** Inspection ([storage.go] of [internal/externalstorage]) *)
Definition ReadOnly : string := "read-only".
Definition ReadWrite : string := "read-write".

Record Identity : Type := {
  id_CanonicalPath : string;
  id_DeviceMajor : Z;
  id_DeviceMinor : Z;
  id_Inode : Z;
  id_Filesystem : string;
  id_MountSource : string;
  id_MountPoint : string;
  id_NetworkBacked : bool
}.

Definition forbidden_roots : list string :=
  ["/"; "/boot"; "/dev"; "/etc"; "/home"; "/proc"; "/root"; "/run"; "/sys"; "/usr"; "/var/lib/docker";
   "/var/lib/containerd"; "/var/lib/containers"; "/var/lib/kitpro-api"; "/var/lib/kitpro-helper"; "/srv/kitpro"].

Definition allowedParents : list string := ["/mnt"; "/media"; "/data"; "/srv"].

Record PathState : Type := { ps_IsDir : bool; ps_Major : Z; ps_Minor : Z; ps_Ino : Z }.

Definition escapes : list (string * string) :=
  [("\040", " "); ("\011", untext [TAB]); ("\012", untext [LF]); ("\134", "\")].

Record StorageHost : Type := {
  ho_EvalSymlinks : string -> res string;
  ho_Stat : string -> option PathState;
  ho_mountinfo : res (list string * option error);
  ho_order : nat -> list (string * string)
}.

Definition allowedPath (path : string) (parents : list string) : bool :=
  existsb (fun parent => HasPrefix path (parent +:+ "/")) parents.

Definition forbiddenPath (path : string) : bool :=
  existsb (fun base => bool_decide (path = base) || (negb (bool_decide (base = "/")) && HasPrefix path (base +:+ "/")))
    forbidden_roots
  || Contains path "docker.sock" || Contains path "containerd.sock".

Record mountRecord : Type := { mr_point : string; mr_fs : string; mr_source : string }.

(** [strings.ReplaceAll(s, old, new)] for a non-empty [old]; [skip] bytes of a
    match are still to be passed over. *)
Fixpoint replace_from (old new : string) (skip : nat) (s : string) : string :=
  match s with
  | EmptyString => EmptyString
  | String c s' =>
      match skip with
      | S skip => replace_from old new skip s'
      | O => if String.prefix old s then new +:+ replace_from old new (String.length old - 1) s'
             else String c (replace_from old new 0 s')
      end
  end.
Definition ReplaceAll (s old new : string) : string := replace_from old new 0 s.

Definition unescape (order : list (string * string)) (value : string) : string :=
  foldl (fun value e => ReplaceAll value e.1 e.2) value order.

(** [strings.ToLower] as far as an ASCII prefix of the result is concerned *)
Definition ToLower (s : string) : string := String.concat "" (map lower_rune (runes (String.length s) s)).

Definition network_filesystems : list string := ["nfs"; "cifs"; "smb"; "sshfs"; "9p"; "ceph"; "gluster"].
Definition networkFS (fs : string) : bool := existsb (HasPrefix (ToLower fs)) network_filesystems.

(** [strings.TrimSuffix(s, "/")] *)
Fixpoint TrimSlash (s : string) : string :=
  match s with
  | EmptyString => EmptyString
  | String c s' => if decide (s = "/") then EmptyString else String c (TrimSlash s')
  end.

(** The mount point, type and source of a line of the mount table. *)
Definition mount_of_line (order : nat -> list (string * string)) (i : nat) (line : string) : option mountRecord :=
  let fields := Fields line in
  match list_find (fun f => f = "-") fields with
  | Some (sep, _) =>
      if decide (6 <= sep /\ sep + 2 < length fields)%nat then
        Some {| mr_point := unescape (order (2 * i)%nat) (default "" (fields !! 4%nat));
                mr_fs := default "" (fields !! (sep + 1)%nat);
                mr_source := unescape (order (2 * i + 1)%nat) (default "" (fields !! (sep + 2)%nat)) |}
      else None
  | None => None
  end.

(** The path is the mount point or below it. *)
Definition mount_covers (point path : string) : bool :=
  bool_decide (path = point) || HasPrefix path (TrimSlash point +:+ "/").

Definition better_mount (path : string) (best : mountRecord) (m : option mountRecord) : mountRecord :=
  match m with
  | Some m =>
      if mount_covers (mr_point m) path && bool_decide (String.length (mr_point best) < String.length (mr_point m))%nat
      then m else best
  | None => best
  end.

Definition no_mount : mountRecord := {| mr_point := ""; mr_fs := ""; mr_source := "" |}.

Definition mountFor (h : StorageHost) (path : string) : res mountRecord :=
  match ho_mountinfo h with
  | Err e => Err (ErrWrap "mount identity unavailable" e)
  | Ok (_, Some e) => Err e
  | Ok (lines, None) =>
      let best := foldl (better_mount path) no_mount (imap (mount_of_line (ho_order h)) lines) in
      refuse (mr_point best = "") with "storage mount identity unavailable" in Ok best
  end.

Definition InspectWithin (h : StorageHost) (path : string) (parents : list string) : res Identity :=
  refuse (path = "" \/ IsAbs path = false) with "storage path must be absolute" in
  refuse ([46; 46]%N ∈ split_at 47 (text path) []) with "storage path traversal is not allowed" in
  let clean := Clean path in
  match ho_EvalSymlinks h clean with
  | Err e => Err (ErrWrap "storage path unavailable" e)
  | Ok canonical =>
      refuse (canonical <> clean) with "storage root must not contain symbolic links" in
      refuse (forbiddenPath canonical = true) with "storage path is protected by KITPro policy" in
      refuse (allowedPath canonical parents = false)
      with "storage path must be inside /mnt, /media, /data, or /srv" in
      match ho_Stat h canonical with
      | None => Err (ErrMsg "storage path must be an existing directory")
      | Some st =>
          refuse (ps_IsDir st = false) with "storage path must be an existing directory" in
          rbind (mountFor h canonical) (fun mount =>
          Ok {| id_CanonicalPath := canonical; id_DeviceMajor := ps_Major st; id_DeviceMinor := ps_Minor st;
                id_Inode := ps_Ino st; id_Filesystem := mr_fs mount; id_MountSource := mr_source mount;
                id_MountPoint := mr_point mount; id_NetworkBacked := networkFS (mr_fs mount) |})
      end
  end.

Definition Inspect (h : StorageHost) (path : string) : res Identity := InspectWithin h path allowedParents.

Definition ValidateWithin (h : StorageHost) (current : Identity) (path : string) (parents : list string) : res Identity :=
  rbind (InspectWithin h path parents) (fun now =>
  refuse (id_CanonicalPath now <> id_CanonicalPath current \/ id_DeviceMajor now <> id_DeviceMajor current
          \/ id_DeviceMinor now <> id_DeviceMinor current \/ id_Inode now <> id_Inode current
          \/ id_Filesystem now <> id_Filesystem current \/ id_MountSource now <> id_MountSource current
          \/ id_MountPoint now <> id_MountPoint current)
  with "storage identity changed" in Ok now).

Definition ValidateIdentity (h : StorageHost) (current : Identity) (path : string) : res Identity :=
  ValidateWithin h current path allowedParents.

Definition ValidMode (mode : string) : bool := bool_decide (mode = ReadOnly) || bool_decide (mode = ReadWrite).

(** ** Tables *)
Record rootRow : Type := { rt_display_name : string; rt_identity : Identity; rt_allowed_mode : string; rt_created_at : string }.

Record bindingRow : Type := {
  bi_root_id : string;
  bi_access_mode : string;
  bi_container_path : string;
  bi_generation : Z;
  bi_created_at : string
}.

(** [external_storage_bindings] is keyed by installation, component and slot. *)
Record storage_db : Type := {
  sd_roots : gmap string rootRow;
  sd_bindings : gmap (string * string * string) bindingRow
}.
#[export] Instance storage_db_eta : Eta storage_db := fun d => Build_storage_db (sd_roots d) (sd_bindings d).
#[export] Instance set_sd_roots : Setter sd_roots := ltac:(mk_setter).
#[export] Instance set_sd_bindings : Setter sd_bindings := ltac:(mk_setter).

Definition insert_root (id : string) (r : rootRow) : tx storage_db unit := fun d =>
  if decide (sd_roots d !! id = None /\ ValidMode (rt_allowed_mode r) = true /\
             Forall (fun kr => id_CanonicalPath (rt_identity kr.2) <> id_CanonicalPath (rt_identity r))
               (map_to_list (sd_roots d)))
  then Ok (tt, d <| sd_roots := <[id := r]> (sd_roots d) |>)
  else Err (ErrSQL "constraint failed").

(** [ON DELETE RESTRICT] *)
Definition delete_root (id : string) : tx storage_db nat := fun d =>
  match sd_roots d !! id with
  | None => Ok (0%nat, d)
  | Some _ =>
      if decide (select (fun _ b => bi_root_id b = id) (sd_bindings d) = [])
      then Ok (1%nat, d <| sd_roots := delete id (sd_roots d) |>)
      else Err (ErrSQL "FOREIGN KEY constraint failed")
  end.

Definition insert_storage_binding (k : string * string * string) (b : bindingRow) : tx storage_db unit := fun d =>
  if decide (sd_bindings d !! k = None /\ ValidMode (bi_access_mode b) = true /\ is_Some (sd_roots d !! bi_root_id b))
  then Ok (tt, d <| sd_bindings := <[k := b]> (sd_bindings d) |>)
  else Err (ErrSQL "constraint failed").

(** ** Roots *)
Definition root_first (c : N) : bool := lower c || upper c || is_digit c.
Definition rootNamePattern : string -> bool :=
  pattern root_first (fun c => root_first c || bool_decide (c ∈ [32; 46; 95; 45]%N)) 0 63.

Definition rootIDPattern (s : string) : bool :=
  bool_decide (take 8 (text s) = text "storage-") &&
  bool_decide (length (drop 8 (text s)) = 16%nat) && forallb is_hex (drop 8 (text s)).

Record RootView : Type := {
  rv_ID : string;
  rv_Name : string;
  rv_Mode : string;
  rv_Identity : Identity;
  rv_Available : bool
}.

Definition storageRootView (id name mode : string) (identity : Identity) (available : bool) : RootView :=
  {| rv_ID := id; rv_Name := name; rv_Mode := mode; rv_Identity := identity; rv_Available := available |}.

Definition registerStorageRoot (h : StorageHost) (random : res (list N)) (now : string) (r : Request) : tx storage_db RootView := fun d =>
  if negb (rootNamePattern (rq_RootName r)) || negb (ValidMode (rq_RootMode r))
  then Err (ErrMsg "invalid storage root name or access mode")
  else rbind (Inspect h (rq_RootPath r)) (fun identity =>
       rbind random (fun raw =>
       let rootID := "storage-" +:+ EncodeToString raw in
       match insert_root rootID {| rt_display_name := rq_RootName r; rt_identity := identity;
                                   rt_allowed_mode := rq_RootMode r; rt_created_at := now |} d with
       | Err _ => Err (ErrMsg "storage root already registered")
       | Ok (_, d) => Ok (storageRootView rootID (rq_RootName r) (rq_RootMode r) identity true, d)
       end)).

Definition available (h : StorageHost) (identity : Identity) : bool :=
  is_ok (ValidateIdentity h identity (id_CanonicalPath identity)).

(** [ORDER BY display_name, root_id] *)
Definition listStorageRoots (h : StorageHost) (d : storage_db) : list RootView :=
  map (fun kr => storageRootView kr.1 (rt_display_name kr.2) (rt_allowed_mode kr.2) (rt_identity kr.2)
                   (available h (rt_identity kr.2)))
    (sort_by (fun kr => rt_display_name kr.2) (sort_by fst (map_to_list (sd_roots d)))).

Definition removeStorageRoot (rootID : string) : tx storage_db unit :=
  do* tassert (rootIDPattern rootID = true) "invalid storage root identity" in
  let* d := tget in
  do* tassert (affected (fun _ b => bi_root_id b = rootID) (sd_bindings d) = 0%nat)
        "storage root is in use; detach it from applications first" in
  let* count := delete_root rootID in
  tassert (count = 1%nat) "storage root not found".

(** ** Bindings *)
Definition wanted_step (s : gset string * gmap string string) (b : ExternalStorageBinding)
    : res (gset string * gmap string string) :=
  refuse (es_SlotID b = "" \/ es_SlotID b ∈ s.1) with "invalid external storage selection" in
  Ok ({[es_SlotID b]} ∪ s.1, <[es_SlotID b := es_RootID b]> s.2).

(** The rows that stand in the way of a binding of this mode. *)
Definition conflicts (installation rootID mode : string) (d : storage_db) : nat :=
  if decide (mode = ReadWrite)
  then affected (fun k b => bi_root_id b = rootID /\ k.1.1 <> installation) (sd_bindings d)
  else affected (fun k b => bi_root_id b = rootID /\ k.1.1 <> installation /\ bi_access_mode b = ReadWrite)
         (sd_bindings d).

Definition declaration_step (h : StorageHost) (installation : string) (wanted : gmap string string) (d : storage_db)
    (mounts : list StorageMount) (declaration : ExternalStorage) : res (list StorageMount) :=
  let rootID := default "" (wanted !! mxs_ID declaration) in
  if decide (rootID = "" /\ mxs_Required declaration = false) then Ok mounts
  else
    refuse (rootID = "") with ("external storage slot " +:+ mxs_ID declaration +:+ " is not selected") in
    match sd_roots d !! rootID with
    | None => Err (ErrMsg "trusted storage root not found")
    | Some root =>
        refuse (mxs_Mode declaration = ReadWrite /\ rt_allowed_mode root <> ReadWrite)
        with "trusted storage root does not allow read-write access" in
        refuse (conflicts installation rootID (mxs_Mode declaration) d <> 0%nat)
        with "storage already in use by an incompatible writer" in
        match ValidateIdentity h (rt_identity root) (id_CanonicalPath (rt_identity root)) with
        | Err _ => Err (ErrMsg ("storage unavailable: " +:+ rt_display_name root))
        | Ok _ =>
            Ok (mounts ++ [ {| sg_ContainerPath := mxs_ContainerPath declaration;
                               sg_HostPath := id_CanonicalPath (rt_identity root);
                               sg_ReadOnly := bool_decide (mxs_Mode declaration = ReadOnly) |} ])
        end
    end.

Definition resolveExternalMounts (h : StorageHost) (installation : string) (declarations : list ExternalStorage)
    (requested : list ExternalStorageBinding) (d : storage_db) : res (list StorageMount) :=
  refuse (length declarations <> length requested) with "external storage selection required" in
  rbind (range wanted_step (∅, ∅) requested) (fun s =>
  range (declaration_step h installation s.2 d) [] declarations).

Definition by_slot (requested : list ExternalStorageBinding) : gmap string string :=
  foldl (fun bySlot b => <[es_SlotID b := es_RootID b]> bySlot) ∅ requested.

Fixpoint insert_bindings (installation component : string) (generation : Z) (now : string) (bySlot : gmap string string)
    (declarations : list ExternalStorage) : tx storage_db unit :=
  match declarations with
  | [] => tret tt
  | declaration :: declarations =>
      let rootID := default "" (bySlot !! mxs_ID declaration) in
      do* (if decide (rootID = "") then tret tt
           else insert_storage_binding (installation, component, mxs_ID declaration)
                  {| bi_root_id := rootID; bi_access_mode := mxs_Mode declaration;
                     bi_container_path := mxs_ContainerPath declaration; bi_generation := generation;
                     bi_created_at := now |}) in
      insert_bindings installation component generation now bySlot declarations
  end.

Definition persistExternalBindings (installation component : string) (generation : Z) (now : string)
    (declarations : list ExternalStorage) (requested : list ExternalStorageBinding) : tx storage_db unit :=
  do* (fun d => Ok (tt, d <| sd_bindings := filter (fun kb => ~ (kb.1.1.1 = installation /\ kb.1.1.2 = component))
                                              (sd_bindings d) |>)) in
  insert_bindings installation component generation now (by_slot requested) declarations.

(** ** Use of the recorded bindings *)
Definition validateInstallationStorageAvailable (h : StorageHost) (installation : string) (d : storage_db) : res unit :=
  if forallb (fun kb => match sd_roots d !! bi_root_id kb.2 with
                        | Some root => available h (rt_identity root)
                        | None => true
                        end) (select (fun k _ => k.1.1 = installation) (sd_bindings d))
  then Ok tt else Err (ErrMsg "storage unavailable").

Record AssignmentView : Type := {
  sa_Component : string;
  sa_Slot : string;
  sa_RootID : string;
  sa_RootName : string;
  sa_Mode : string;
  sa_ContainerPath : string;
  sa_Path : string;
  sa_Available : bool
}.

(** The rows of the join, [ORDER BY component_id, slot_id]. *)
Definition storageAssignments (h : StorageHost) (installation : string) (d : storage_db) : list AssignmentView :=
  omap (fun kb =>
          (fun root => {| sa_Component := kb.1.1.2; sa_Slot := kb.1.2; sa_RootID := bi_root_id kb.2;
                          sa_RootName := rt_display_name root; sa_Mode := bi_access_mode kb.2;
                          sa_ContainerPath := bi_container_path kb.2; sa_Path := id_CanonicalPath (rt_identity root);
                          sa_Available := available h (rt_identity root) |})
          <$> sd_roots d !! bi_root_id kb.2)
    (sort_by (fun kb => kb.1.1.2) (sort_by (fun kb => kb.1.2)
       (select (fun k _ => k.1.1 = installation) (sd_bindings d)))).
