(* ===== verification/ExternalStorageProofs.v ===== *)
(** * Imported storage: lemmas

    What an inspected path is, what a resolved selection and the recorded
    bindings are, and the invariant of the two tables. *)

From S2P Require Import Prelude Protocol Coordinator NetIP ExposurePolicy Ingress IngressProofs IngressRender Containers Manifest ManifestProofs ExternalStorage.
From stdpp Require Import base strings list gmap sorting.
From Stdlib Require Import ZArith Lia Ascii.

Import Wire.
Open Scope Z_scope.

(** ** Inspected paths *)

(** A directory the policy lets an application have. *)
Definition importable (path : string) : Prop :=
  allowedPath path allowedParents = true /\ forbiddenPath path = false.

Lemma inspect_spec h path identity : Inspect h path = Ok identity ->
  importable (id_CanonicalPath identity) /\ id_CanonicalPath identity = Clean path /\
  ho_EvalSymlinks h (Clean path) = Ok (Clean path) /\
  exists mount, mountFor h (Clean path) = Ok mount /\ id_MountPoint identity = mr_point mount.
Proof.
  unfold Inspect, InspectWithin. cbn zeta. guards. intros (_ & _ & H).
  destruct (ho_EvalSymlinks h (Clean path)) as [canonical|] eqn:He; [|done]. revert H. guards.
  intros (Hc & Hf & Ha & H). destruct (ho_Stat h canonical) as [st|]; [|done]. revert H. guards. intros (_ & H).
  rewrite rbind_Ok in H. destruct H as (mount & Hm & [= <-]). simpl. subst canonical. unfold importable. naive_solver.
Qed.

Lemma available_inspected h identity : available h identity = true ->
  exists now, Inspect h (id_CanonicalPath identity) = Ok now /\ id_CanonicalPath now = id_CanonicalPath identity /\
    id_DeviceMajor now = id_DeviceMajor identity /\ id_DeviceMinor now = id_DeviceMinor identity /\
    id_Inode now = id_Inode identity /\ id_Filesystem now = id_Filesystem identity /\
    id_MountSource now = id_MountSource identity /\ id_MountPoint now = id_MountPoint identity.
Proof.
  unfold available, ValidateIdentity, ValidateWithin. fold (Inspect h (id_CanonicalPath identity)).
  destruct (Inspect h (id_CanonicalPath identity)) as [now|] eqn:E; [|done]. simpl. case_decide as H; [done|].
  revert H. guards. naive_solver.
Qed.

(** The mount that covers a path is the longest of those that do, and the
    first of that length. *)
Lemma best_mount path ms best : best = no_mount \/ mount_covers (mr_point best) path = true ->
  let m := foldl (better_mount path) best ms in
  (m = best \/ (Some m ∈ ms /\ mount_covers (mr_point m) path = true)) /\
  (String.length (mr_point best) <= String.length (mr_point m))%nat /\
  Forall (fun o => match o with
                   | Some x => mount_covers (mr_point x) path = true ->
                               (String.length (mr_point x) <= String.length (mr_point m))%nat
                   | None => True end) ms.
Proof.
  revert best. induction ms as [|o ms IH]; intros best Hb; simpl; [split_and!; [by left | lia | done]|].
  assert (better_mount path best o = best \/ exists x, o = Some x /\ better_mount path best o = x /\ mount_covers (mr_point x) path = true) as Hstep.
  { unfold better_mount. destruct o as [x|]; [|by left]. destruct (mount_covers (mr_point x) path) eqn:E; simpl; [|by left].
    case_bool_decide; [right; eauto | by left]. }
  destruct (IH (better_mount path best o)) as (H1 & H2 & H3); [destruct Hstep as [->|(x & -> & -> & ?)]; auto|].
  assert (String.length (mr_point best) <= String.length (mr_point (better_mount path best o)))%nat as Hle.
  { unfold better_mount. destruct o as [x|]; [|lia]. destruct (mount_covers (mr_point x) path); simpl; [|lia].
    case_bool_decide; lia. }
  split_and!; [|lia|].
  - destruct H1 as [->|[? ?]]; [|right; split; [by apply list_elem_of_further | done]].
    destruct Hstep as [->|(x & -> & -> & ?)]; [by left | right; split; [apply list_elem_of_here | done]].
  - constructor; [|done]. destruct o as [x|]; [|done]. intros Hc. etransitivity; [|exact H2].
    unfold better_mount. rewrite Hc. simpl. case_bool_decide; lia.
Qed.

Lemma mount_longest h path m : mountFor h path = Ok m ->
  exists lines, ho_mountinfo h = Ok (lines, None) /\ mount_covers (mr_point m) path = true /\
    Some m ∈ imap (mount_of_line (ho_order h)) lines /\
    forall x, Some x ∈ imap (mount_of_line (ho_order h)) lines -> mount_covers (mr_point x) path = true ->
      (String.length (mr_point x) <= String.length (mr_point m))%nat.
Proof.
  unfold mountFor. destruct (ho_mountinfo h) as [[lines [|]]|]; [done| |done]. cbn zeta. guards.
  intros [Hne [= <-]]. exists lines. split; [done|].
  destruct (best_mount path (imap (mount_of_line (ho_order h)) lines) no_mount) as (H1 & _ & H3); [by left|].
  destruct H1 as [E|[Hin Hc]]; [by rewrite E in Hne|]. split_and!; [done..|].
  intros x Hx Hcx. rewrite Forall_forall in H3. by apply (H3 (Some x)).
Qed.

(** ** Selections *)
Lemma wanted_by_slot requested s out : range wanted_step s requested = Ok out ->
  out.2 = foldl (fun bySlot b => <[es_SlotID b := es_RootID b]> bySlot) s.2 requested.
Proof.
  revert s. induction requested as [|b l IH]; intros s; simpl; [by intros [= <-]|].
  rewrite rbind_Ok. intros (s' & Hs & H). rewrite (IH _ H). unfold wanted_step in Hs. revert Hs. guards.
  by intros [_ [= <-]].
Qed.

Definition chosen_root (requested : list ExternalStorageBinding) (x : ExternalStorage) : string :=
  default "" (by_slot requested !! mxs_ID x).

(** What a declared slot with a chosen root has passed. *)
Definition slot_ok (h : StorageHost) (installation : string) (requested : list ExternalStorageBinding) (d : storage_db)
    (x : ExternalStorage) (root : rootRow) : Prop :=
  sd_roots d !! chosen_root requested x = Some root /\
  (mxs_Mode x = ReadWrite -> rt_allowed_mode root = ReadWrite) /\
  conflicts installation (chosen_root requested x) (mxs_Mode x) d = 0%nat /\ available h (rt_identity root) = true.

Definition slot_mount (x : ExternalStorage) (root : rootRow) : StorageMount :=
  {| sg_ContainerPath := mxs_ContainerPath x; sg_HostPath := id_CanonicalPath (rt_identity root);
     sg_ReadOnly := bool_decide (mxs_Mode x = ReadOnly) |}.

Lemma declaration_step_Ok h i requested d mounts x out :
  declaration_step h i (by_slot requested) d mounts x = Ok out <->
  (chosen_root requested x = "" /\ mxs_Required x = false /\ out = mounts) \/
  (chosen_root requested x <> "" /\ exists root, slot_ok h i requested d x root /\ out = mounts ++ [slot_mount x root]).
Proof.
  unfold declaration_step, slot_ok. fold (chosen_root requested x). cbn zeta. case_decide as H; [naive_solver|].
  guards. destruct (sd_roots d !! chosen_root requested x) as [root|]; [|naive_solver].
  guards. unfold available. destruct (ValidateIdentity _ _ _) as [now|] eqn:Ev; simpl.
  - split.
    + intros (Hn & Hm & Hc & [= <-]). right. split; [done|]. exists root. split_and!; try done; [|by rewrite Ev].
      intros E. destruct (decide (rt_allowed_mode root = ReadWrite)); [done | tauto].
    + intros [(? & ? & _)|(Hn & r & ([= <-] & Hm & Hc & _) & ->)]; [tauto|]. split_and!; try done. tauto.
  - split; [naive_solver|]. intros [(? & ? & _)|(_ & r & ([= <-] & _ & _ & Ha) & _)]; [tauto|]. by rewrite Ev in Ha.
Qed.

Lemma declarations_Ok h i requested d l mounts out :
  range (declaration_step h i (by_slot requested) d) mounts l = Ok out ->
  (forall x, x ∈ l -> chosen_root requested x <> "" -> exists root, slot_ok h i requested d x root) /\
  exists new, out = mounts ++ new /\
    forall s, s ∈ new -> exists x root, x ∈ l /\ chosen_root requested x <> "" /\ slot_ok h i requested d x root /\
      s = slot_mount x root.
Proof.
  revert mounts. induction l as [|x l IH]; intros mounts; simpl.
  { intros [= <-]. split; [by intros ? ?%not_elem_of_nil|]. exists []. rewrite app_nil_r.
    split; [done | by intros ? ?%not_elem_of_nil]. }
  rewrite rbind_Ok. intros (mid & Hx & H). apply IH in H as (H1 & new & -> & H2).
  apply declaration_step_Ok in Hx as [(He & _ & ->)|(Hn & root & Hok & ->)].
  - split.
    + intros y [->|Hy]%elem_of_cons Hy'; [done | eauto].
    + exists new. split; [done|]. intros s (y & r & ? & ?)%H2. exists y, r. split; [by apply list_elem_of_further | done].
  - split.
    + intros y [->|Hy]%elem_of_cons Hy'; eauto.
    + exists (slot_mount x root :: new). rewrite <- app_assoc. split; [done|].
      intros s [->|(y & r & ? & ?)%H2]%elem_of_cons.
      * exists x, root. split; [apply list_elem_of_here | done].
      * exists y, r. split; [by apply list_elem_of_further | done].
Qed.

Lemma resolve_spec h i declarations requested d mounts :
  resolveExternalMounts h i declarations requested d = Ok mounts ->
  (forall x, x ∈ declarations -> chosen_root requested x <> "" -> exists root, slot_ok h i requested d x root) /\
  forall s, s ∈ mounts -> exists x root, x ∈ declarations /\ chosen_root requested x <> "" /\
    slot_ok h i requested d x root /\ s = slot_mount x root.
Proof.
  unfold resolveExternalMounts. guards. intros [_ H]. rewrite rbind_Ok in H. destruct H as (s & Hs & H).
  apply wanted_by_slot in Hs. simpl in Hs. fold (by_slot requested) in Hs. rewrite Hs in H.
  apply declarations_Ok in H as (H1 & new & -> & H2). simpl. by split.
Qed.

(** ** Recorded bindings *)
Lemma insert_storage_binding_Ok k b d u d' : insert_storage_binding k b d = Ok (u, d') ->
  sd_bindings d !! k = None /\ ValidMode (bi_access_mode b) = true /\ is_Some (sd_roots d !! bi_root_id b) /\
  d' = d <| sd_bindings := <[k := b]> (sd_bindings d) |>.
Proof. unfold insert_storage_binding. case_decide; naive_solver. Qed.

(** A row of slot [k] that stands for the choice made for declaration [x]. *)
Definition recorded_choice (i c : string) (requested : list ExternalStorageBinding) (x : ExternalStorage)
    (k : string * string * string) (b : bindingRow) : Prop :=
  k = (i, c, mxs_ID x) /\ chosen_root requested x <> "" /\ bi_root_id b = chosen_root requested x /\
  bi_access_mode b = mxs_Mode x /\ ValidMode (mxs_Mode x) = true.

Lemma insert_bindings_Ok i c g now requested l d u d' :
  insert_bindings i c g now (by_slot requested) l d = Ok (u, d') ->
  sd_roots d' = sd_roots d /\
  (forall k b, sd_bindings d' !! k = Some b ->
     sd_bindings d !! k = Some b \/
     (is_Some (sd_roots d !! bi_root_id b) /\ exists x, x ∈ l /\ recorded_choice i c requested x k b)).
Proof.
  revert d. induction l as [|x l IH]; intros d; simpl.
  { unfold tret. intros [= _ <-]. split; [done | by left]. }
  intros H. apply tbind_Ok in H as ([] & d1 & Hx & H). apply IH in H as [Hr Hb].
  case_decide as Hn.
  - unfold tret in Hx. injection Hx as <-. split; [done|]. intros k b [?|(? & y & ? & ?)]%Hb; [by left|].
    right. split; [done|]. exists y. split; [by apply list_elem_of_further | done].
  - apply insert_storage_binding_Ok in Hx as (_ & Hv & Hs & ->). simpl in *. split; [done|].
    intros k b [Hk|(? & y & ? & ?)]%Hb.
    + apply lookup_insert_Some in Hk as [[<- <-]|[_ ?]]; [|by left]. right. split; [done|].
      exists x. split; [apply list_elem_of_here | done].
    + right. split; [done|]. exists y. split; [by apply list_elem_of_further | done].
Qed.

Lemma persist_spec i c g now declarations requested d u d' :
  persistExternalBindings i c g now declarations requested d = Ok (u, d') ->
  sd_roots d' = sd_roots d /\
  forall k b, sd_bindings d' !! k = Some b ->
    sd_bindings d !! k = Some b \/
    (is_Some (sd_roots d !! bi_root_id b) /\ exists x, x ∈ declarations /\ recorded_choice i c requested x k b).
Proof.
  unfold persistExternalBindings. intros H. apply tbind_Ok in H as ([] & d1 & [= <-] & H).
  apply insert_bindings_Ok in H as [Hr Hb]. split; [done|]. intros k b [Hk|?]%Hb; [left | by right].
  simpl in Hk. by apply map_lookup_filter_Some in Hk as [? _].
Qed.

Lemma no_conflict i rootID mode d k b : conflicts i rootID mode d = 0%nat -> ValidMode mode = true ->
  sd_bindings d !! k = Some b -> bi_root_id b = rootID -> k.1.1 <> i ->
  mode = ReadOnly /\ bi_access_mode b <> ReadWrite.
Proof.
  intros Hc Hv Hk Hr Hi. unfold ValidMode in Hv. apply orb_true_iff in Hv. rewrite !bool_decide_eq_true in Hv.
  unfold conflicts, affected in Hc. case_decide as Hm.
  - exfalso. apply length_zero_iff_nil in Hc.
    assert ((k, b) ∈ select (fun k b => bi_root_id b = rootID /\ k.1.1 <> i) (sd_bindings d)) as Hin
      by (by apply elem_of_select).
    rewrite Hc in Hin. by apply not_elem_of_nil in Hin.
  - split; [naive_solver|]. intros Hb. apply length_zero_iff_nil in Hc.
    assert ((k, b) ∈ select (fun k b => bi_root_id b = rootID /\ k.1.1 <> i /\ bi_access_mode b = ReadWrite) (sd_bindings d))
      as Hin by (by apply elem_of_select).
    rewrite Hc in Hin. by apply not_elem_of_nil in Hin.
Qed.

(** ** The system of roots and bindings *)

(** An operation that attaches storage to a component of an installation. *)
Record attachment : Type := {
  at_installation : string;
  at_component : string;
  at_generation : Z;
  at_declarations : list ExternalStorage;
  at_requested : list ExternalStorageBinding
}.

Definition attach_resolve (h : StorageHost) (a : attachment) (d : storage_db) : res (list StorageMount) :=
  resolveExternalMounts h (at_installation a) (at_declarations a) (at_requested a) d.
Definition attach_persist (now : string) (a : attachment) : tx storage_db unit :=
  persistExternalBindings (at_installation a) (at_component a) (at_generation a) now (at_declarations a) (at_requested a).

Definition attach_roots (a : attachment) : list string := chosen_root (at_requested a) <$> at_declarations a.

(** The tables, and the attachments resolved but not yet recorded. *)
Definition storage_state : Type := storage_db * list attachment.

(** One step on a host that may change between steps.  With [serial], no
    attachment is resolved while another is under way.  The random identity of
    a new root is none of those being attached. *)
Inductive storage_change (serial : bool) : storage_state -> storage_state -> Prop :=
| step_register h raw now r view d d' pending :
    registerStorageRoot h (Ok raw) now r d = Ok (view, d') ->
    Forall (fun a => rv_ID view ∉ attach_roots a) pending ->
    storage_change serial (d, pending) (d', pending)
| step_remove id d d' pending :
    removeStorageRoot id d = Ok (tt, d') -> storage_change serial (d, pending) (d', pending)
| step_resolve h a mounts d pending :
    attach_resolve h a d = Ok mounts -> (serial = true -> pending = []) ->
    storage_change serial (d, pending) (d, a :: pending)
| step_persist now a d d' before after :
    attach_persist now a d = Ok (tt, d') ->
    storage_change serial (d, before ++ a :: after) (d', before ++ after)
| step_abandon a d before after :
    storage_change serial (d, before ++ a :: after) (d, before ++ after).

Definition no_storage : storage_db := {| sd_roots := ∅; sd_bindings := ∅ |}.

Inductive storage_reachable (serial : bool) : storage_state -> Prop :=
| reach_start : storage_reachable serial (no_storage, [])
| reach_step s t : storage_reachable serial s -> storage_change serial s t -> storage_reachable serial t.

(** ** Invariants *)
Definition roots_sound (d : storage_db) : Prop :=
  (forall id r, sd_roots d !! id = Some r -> importable (id_CanonicalPath (rt_identity r)) /\ ValidMode (rt_allowed_mode r) = true) /\
  (forall i j r s, sd_roots d !! i = Some r -> sd_roots d !! j = Some s ->
     id_CanonicalPath (rt_identity r) = id_CanonicalPath (rt_identity s) -> i = j).

Definition bindings_sound (d : storage_db) : Prop :=
  forall k b, sd_bindings d !! k = Some b -> ValidMode (bi_access_mode b) = true /\
    exists r, sd_roots d !! bi_root_id b = Some r /\ (bi_access_mode b = ReadWrite -> rt_allowed_mode r = ReadWrite).

(** No root is written by one installation while another has it. *)
Definition writers_exclusive (d : storage_db) : Prop :=
  forall k1 k2 b1 b2, sd_bindings d !! k1 = Some b1 -> sd_bindings d !! k2 = Some b2 ->
    bi_root_id b1 = bi_root_id b2 -> k1.1.1 <> k2.1.1 -> bi_access_mode b1 = ReadOnly /\ bi_access_mode b2 = ReadOnly.

(** What a resolved attachment may still rely on: where a chosen root exists,
    it allows the mode; and, under [serial], no other installation is in the way. *)
Definition pending_sound (d : storage_db) (a : attachment) : Prop :=
  forall x, x ∈ at_declarations a -> chosen_root (at_requested a) x <> "" ->
    forall r, sd_roots d !! chosen_root (at_requested a) x = Some r -> mxs_Mode x = ReadWrite -> rt_allowed_mode r = ReadWrite.
Definition pending_clear (d : storage_db) (a : attachment) : Prop :=
  forall x, x ∈ at_declarations a -> chosen_root (at_requested a) x <> "" ->
    conflicts (at_installation a) (chosen_root (at_requested a) x) (mxs_Mode x) d = 0%nat.

Definition storage_inv (serial : bool) (s : storage_state) : Prop :=
  roots_sound s.1 /\ bindings_sound s.1 /\ Forall (pending_sound s.1) s.2 /\
  (serial = true -> writers_exclusive s.1 /\ (length s.2 <= 1)%nat /\ Forall (pending_clear s.1) s.2).

Lemma register_spec h raw now r view d d' : registerStorageRoot h (Ok raw) now r d = Ok (view, d') ->
  exists row, sd_roots d !! rv_ID view = None /\ d' = d <| sd_roots := <[rv_ID view := row]> (sd_roots d) |> /\
    Inspect h (rq_RootPath r) = Ok (rt_identity row) /\ ValidMode (rt_allowed_mode row) = true /\
    forall j s, sd_roots d !! j = Some s -> id_CanonicalPath (rt_identity s) <> id_CanonicalPath (rt_identity row).
Proof.
  unfold registerStorageRoot. destruct (_ || _); [done|]. rewrite rbind_Ok. intros (identity & Hi & H).
  rewrite rbind_Ok in H. destruct H as (raw' & [= <-] & H). cbn zeta in H. unfold insert_root in H. cbn [rt_identity rt_allowed_mode] in H.
  destruct (decide _) as [(Hn & Hv & Hall)|]; [|done]. injection H as <- <-. simpl. eexists. split_and!; [done..|].
  simpl. intros j s Hs. rewrite Forall_forall in Hall. apply (Hall (j, s)). by apply elem_of_map_to_list.
Qed.

Lemma remove_spec id d d' : removeStorageRoot id d = Ok (tt, d') ->
  is_Some (sd_roots d !! id) /\ d' = d <| sd_roots := delete id (sd_roots d) |> /\
  forall k b, sd_bindings d !! k = Some b -> bi_root_id b <> id.
Proof.
  unfold removeStorageRoot. intros H. inv_tx.
  match goal with H : delete_root _ _ = _ |- _ => unfold delete_root in H; revert H end.
  destruct (sd_roots _ !! id) eqn:E; [|naive_solver]. case_decide as Hs; [|done]. intros [= <-].
  split_and!; [done..|]. intros k b Hk Hb.
  match type of Hs with ?l = [] => assert ((k, b) ∈ l) as Hin by (by apply elem_of_select) end.
  rewrite Hs in Hin. by apply not_elem_of_nil in Hin.
Qed.

Lemma inv_register serial h raw now r view d d' pending :
  registerStorageRoot h (Ok raw) now r d = Ok (view, d') -> Forall (fun a => rv_ID view ∉ attach_roots a) pending ->
  storage_inv serial (d, pending) -> storage_inv serial (d', pending).
Proof.
  intros (row & Hn & -> & Hi & Hv & Hnew)%register_spec Hp ((Hr1 & Hr2) & Hb & Hs & Hx). apply inspect_spec in Hi as [Hi _].
  split_and!; simpl.
  - split; simpl.
    + intros id s [[_ <-]|[_ ?]]%lookup_insert_Some; [done | eauto].
    + intros i j s t [[<- <-]|[? ?]]%lookup_insert_Some [[<- <-]|[? ?]]%lookup_insert_Some He; try done; try naive_solver.
  - intros k b Hk. destruct (Hb k b Hk) as (? & s & Hs' & ?). split; [done|]. exists s. simpl. split; [|done].
    rewrite lookup_insert_ne; [done|]. simpl in *. congruence.
  - simpl in *. rewrite Forall_forall in Hp, Hs. apply Forall_forall. intros a Ha x Hx' Hc s Hs'. simpl in Hs'.
    apply lookup_insert_Some in Hs' as [[E _]|[_ ?]]; [|by eapply Hs]. destruct (Hp a Ha). rewrite E.
    unfold attach_roots. by apply list_elem_of_fmap_2.
  - intros Hser. specialize (Hx Hser). done.
Qed.

Lemma inv_remove serial id d d' pending : removeStorageRoot id d = Ok (tt, d') ->
  storage_inv serial (d, pending) -> storage_inv serial (d', pending).
Proof.
  intros (_ & -> & Hno)%remove_spec ((Hr1 & Hr2) & Hb & Hs & Hx). split_and!; simpl.
  - split; simpl; [intros i s [_ ?]%lookup_delete_Some; eauto|].
    intros i j s t [_ ?]%lookup_delete_Some [_ ?]%lookup_delete_Some; eauto.
  - intros k b Hk. destruct (Hb k b Hk) as (? & s & ? & ?). split; [done|]. exists s. simpl. split; [|done].
    apply lookup_delete_Some. split; [|done]. intros E. by apply (Hno k b Hk).
  - simpl in *. eapply Forall_impl; [exact Hs|]. intros a Ha x Hx' Hc s Hs'. simpl in Hs'.
    apply lookup_delete_Some in Hs' as [_ Hs']. by eapply Ha.
  - intros Hser. by specialize (Hx Hser).
Qed.

Lemma inv_resolve serial h a mounts d pending : attach_resolve h a d = Ok mounts -> (serial = true -> pending = []) ->
  storage_inv serial (d, pending) -> storage_inv serial (d, a :: pending).
Proof.
  intros [H _]%resolve_spec Hser (Hr & Hb & Hs & Hx). split_and!; try done; simpl.
  - constructor; [|done]. intros x Hin Hc r Hr' Hm. destruct (H x Hin Hc) as (r' & Hr'' & Hm' & _). naive_solver.
  - intros E. destruct (Hx E) as (Hw & _ & _). rewrite (Hser E). split_and!; [done | simpl; lia|].
    constructor; [|done]. intros x Hin Hc. by destruct (H x Hin Hc) as (r' & _ & _ & ? & _).
Qed.

Lemma persist_bindings_sound now a d d' : attach_persist now a d = Ok (tt, d') ->
  bindings_sound d -> pending_sound d a -> bindings_sound d'.
Proof.
  intros [Hr Hn]%persist_spec Hb Ha k b [Hk|([r Hr'] & x & Hx & _ & Hc & He & Hm & Hv)]%Hn; rewrite Hr; [by apply Hb in Hk|].
  rewrite Hm. split; [done|]. exists r. split; [done|]. rewrite He in Hr'. intros ?. by eapply Ha.
Qed.

Lemma persist_exclusive now a d d' : attach_persist now a d = Ok (tt, d') -> bindings_sound d ->
  writers_exclusive d -> pending_clear d a -> writers_exclusive d'.
Proof.
  intros [Hr Hn]%persist_spec Hb Hw Ha.
  assert (forall x k1 b1 k2 b2, x ∈ at_declarations a ->
    recorded_choice (at_installation a) (at_component a) (at_requested a) x k1 b1 -> sd_bindings d !! k2 = Some b2 ->
    bi_root_id b1 = bi_root_id b2 -> k1.1.1 <> k2.1.1 -> bi_access_mode b1 = ReadOnly /\ bi_access_mode b2 = ReadOnly) as Hnew.
  { intros x k1 b1 k2 b2 Hx (-> & Hc & He & Hm & Hv) Hk2 Heq Hne. simpl in Hne.
    destruct (no_conflict _ _ _ _ _ _ (Ha x Hx Hc) Hv Hk2) as [H1 H2]; [congruence | congruence|].
    destruct (Hb _ _ Hk2) as [Hv2 _]. unfold ValidMode in Hv2. apply orb_true_iff in Hv2. rewrite !bool_decide_eq_true in Hv2.
    rewrite Hm. split; [done | tauto]. }
  intros k1 k2 b1 b2 [H1|(_ & x1 & Hx1 & Hc1)]%Hn [H2|(_ & x2 & Hx2 & Hc2)]%Hn Heq Hne.
  - by eapply Hw.
  - destruct (Hnew x2 k2 b2 k1 b1); auto.
  - eauto.
  - destruct Hc1 as (-> & _), Hc2 as (-> & _). done.
Qed.

Lemma inv_persist serial now a d d' before after : attach_persist now a d = Ok (tt, d') ->
  storage_inv serial (d, before ++ a :: after) -> storage_inv serial (d', before ++ after).
Proof.
  intros Hp (Hr & Hb & Hs & Hx). simpl in *. pose proof (proj1 (persist_spec _ _ _ _ _ _ _ _ _ Hp)) as Hroots.
  apply Forall_app in Hs as [Hs1 [Ha Hs2]%Forall_cons]. split_and!; simpl.
  - unfold roots_sound. by rewrite Hroots.
  - by eapply persist_bindings_sound.
  - apply Forall_app. unfold pending_sound. rewrite Hroots. by split.
  - intros E. destruct (Hx E) as (Hw & Hl & Hc). rewrite length_app in Hl. simpl in Hl.
    assert (before = [] /\ after = []) as [-> ->] by (destruct before, after; simpl in Hl; try lia; done).
    simpl in *. split_and!; [|lia|done]. apply Forall_cons in Hc as [Hc _]. by eapply persist_exclusive.
Qed.

Lemma storage_reachable_inv serial s : storage_reachable serial s -> storage_inv serial s.
Proof.
  induction 1 as [|s t _ IH Hstep].
  { split_and!; [split; intros ? *; simpl; rewrite lookup_empty; done | by intros k b | done|].
    intros _. split_and!; [by intros k1 k2 b1 b2 | simpl; lia | done]. }
  destruct Hstep as [h raw now r view d d' pending Hr Hf|id d d' pending Hr|h a mounts d pending Ha Hs|now a d d' b1 b2 Ha|a d b1 b2].
  - by eapply inv_register.
  - by eapply inv_remove.
  - by eapply inv_resolve.
  - by eapply inv_persist.
  - destruct IH as (Hr & Hb & Hs & Hx). split_and!; try done; simpl in *.
    + apply Forall_app in Hs as [? [_ ?]%Forall_cons]. by apply Forall_app.
    + intros E. destruct (Hx E) as (Hw & Hl & Hc). rewrite length_app in *. simpl in Hl. split_and!; [done | lia|].
      apply Forall_app in Hc as [? [_ ?]%Forall_cons]. by apply Forall_app.
Qed.
