(* ===== verification/ExternalStorageProps.v ===== *)
(** * Imported storage: what its bookkeeping guarantees

    The invariants of roots and bindings over every sequence of operations, the
    two ways in which two installations may still write the same files, and
    what the mounts of a created container can be. *)

From S2P Require Import Prelude Protocol Exposure HelperDB Coordinator NetIP ExposurePolicy Containers Topology LifecycleStore MultiStore ReconciliationStore Ingress IngressProofs IngressRender Manifest ManifestProofs ManifestSamples HelperPlan HelperPlanProofs HelperCreate HelperPlanProps ExternalStorage ExternalStorageProofs.
From stdpp Require Import base strings list gmap sorting.
From Stdlib Require Import ZArith Lia Ascii.

Import Wire.
Open Scope Z_scope.

(** ** A host with one imported disk *)
Definition disk_host : StorageHost :=
  {| ho_EvalSymlinks := Ok;
     ho_Stat := fun _ => Some {| ps_IsDir := true; ps_Major := 8; ps_Minor := 1; ps_Ino := 2 |};
     ho_mountinfo := Ok (["36 35 98:0 / / rw,noatime master:1 - ext4 /dev/root rw";
                          "40 36 8:1 / /mnt/media rw shared:2 - ext4 /dev/sdb1 rw"], None);
     ho_order := fun _ => escapes |}.

#[local] Instance set_rq_RootName : Setter rq_RootName := ltac:(mk_setter).
#[local] Instance set_rq_RootPath : Setter rq_RootPath := ltac:(mk_setter).
#[local] Instance set_rq_RootMode : Setter rq_RootMode := ltac:(mk_setter).

Definition register_request (path : string) : Request :=
  ProtocolProps.empty_request <| rq_RootName := "Media" |> <| rq_RootPath := path |> <| rq_RootMode := ReadWrite |>.

Definition after {A} (m : tx storage_db A) (d : storage_db) : storage_db :=
  match m d with Ok (_, d') => d' | Err _ => d end.

Definition media_raw : list N := [1; 1; 1; 1; 1; 1; 1; 1]%N.
Definition movies_raw : list N := [2; 2; 2; 2; 2; 2; 2; 2]%N.
Definition media_id : string := "storage-0101010101010101".
Definition movies_id : string := "storage-0202020202020202".

Definition one_root : storage_db :=
  after (registerStorageRoot disk_host (Ok media_raw) "t1" (register_request "/mnt/media")) no_storage.
Definition two_roots : storage_db :=
  after (registerStorageRoot disk_host (Ok movies_raw) "t2" (register_request "/mnt/media/movies")) one_root.

Definition library_slot : ExternalStorage :=
  {| mxs_ID := "library"; mxs_ContainerPath := "/library"; mxs_Mode := ReadWrite; mxs_Required := true;
     mxs_Purpose := "Library" |}.

Definition writer (installation root : string) : attachment :=
  {| at_installation := installation; at_component := ""; at_generation := 1; at_declarations := [library_slot];
     at_requested := [ {| es_SlotID := "library"; es_RootID := root |} ] |}.

Definition attach (installation root : string) (d : storage_db) : storage_db :=
  after (attach_persist "t3" (writer installation root)) d.

Lemma registered serial raw path now d view d' pending :
  storage_reachable serial (d, pending) -> registerStorageRoot disk_host (Ok raw) now (register_request path) d = Ok (view, d') ->
  Forall (fun a => rv_ID view ∉ attach_roots a) pending -> storage_reachable serial (d', pending).
Proof. intros Hr H Hf. eapply reach_step; [exact Hr|]. by eapply step_register. Qed.

(** A whole attachment without another one in between. *)
Lemma attached serial a mounts d d' : storage_reachable serial (d, []) -> attach_resolve disk_host a d = Ok mounts ->
  attach_persist "t3" a d = Ok (tt, d') -> storage_reachable serial (d', []).
Proof.
  intros Hr Ha Hp. eapply reach_step; [eapply reach_step; [exact Hr|]|].
  - by eapply (step_resolve serial disk_host a mounts d []).
  - by apply (step_persist serial "t3" a d d' [] []).
Qed.

Lemma two_roots_reachable serial : storage_reachable serial (two_roots, []).
Proof.
  eapply (registered serial movies_raw "/mnt/media/movies" "t2" one_root); [|vm_compute; reflexivity|constructor].
  eapply (registered serial media_raw "/mnt/media" "t1" no_storage); [constructor|vm_compute; reflexivity|constructor].
Qed.

Lemma overlap_reachable :
  storage_reachable false (attach "inst-2" media_id (attach "inst-1" media_id two_roots), []).
Proof.
  eapply reach_step; [eapply reach_step; [eapply reach_step; [eapply reach_step; [apply (two_roots_reachable false)|]|]|]|].
  - eapply (step_resolve false disk_host (writer "inst-2" media_id)); [vm_compute; reflexivity | done].
  - eapply (step_resolve false disk_host (writer "inst-1" media_id)); [vm_compute; reflexivity | done].
  - apply (step_persist false "t3" _ _ (attach "inst-1" media_id two_roots) []). vm_compute. reflexivity.
  - apply (step_persist false "t3" _ _ (attach "inst-2" media_id (attach "inst-1" media_id two_roots)) [] []).
    vm_compute. reflexivity.
Qed.

Definition root_path (id : string) (d : storage_db) : option string :=
  (fun r => id_CanonicalPath (rt_identity r)) <$> sd_roots d !! id.
Definition binding_of (installation : string) (d : storage_db) : option (string * string) :=
  (fun b => (bi_root_id b, bi_access_mode b)) <$> sd_bindings d !! (installation, "", "library").

Lemma wf_modes P m : well_formed P m ->
  Forall (fun x => ValidMode (mxs_Mode x) = true) (ma_ExternalStorage m) /\
  Forall (fun w => Forall (fun x => ValidMode (mxs_Mode x) = true) (mco_ExternalStorage w)) (ma_Components m).
Proof.
  assert (forall x, external_ok x -> ValidMode (mxs_Mode x) = true) as Hx.
  { intros x Hx. unfold ValidMode. apply orb_true_iff. rewrite !bool_decide_eq_true. unfold external_ok in Hx. tauto. }
  unfold well_formed. cbn zeta. unfold externals_ok. intros H. destruct_and?. split.
  - by eapply Forall_impl.
  - match goal with H : Forall (component_ok _ _) _ |- _ => eapply Forall_impl; [exact H|] end.
    intros w Hw. unfold component_ok, externals_ok in Hw. eapply Forall_impl; [|exact Hx]. tauto.
Qed.

(** The directories and slots declared for a container, and the path of its
    directories below that of the installation. *)
Definition container_part (m : Manifest) (prefix : string) (declared : list Storage) (slots : list ExternalStorage) : Prop :=
  prefix = "" /\ declared = ma_Storage m /\ slots = ma_ExternalStorage m \/
  exists w, w ∈ ma_Components m /\ idPattern (mco_ID w) = true /\
    prefix = mco_ID w +:+ "/" /\ declared = mco_Storage w /\ slots = mco_ExternalStorage w.

(** Where a mount of a container may come from. *)
Definition mount_confined (r : Request) (m : Manifest) (storage : storage_db) (s : StorageMount) : Prop :=
  exists prefix declared slots, container_part m prefix declared slots /\
    ((exists dir, dir ∈ declared /\ idPattern (mst_ID dir) = true /\
        s = {| sg_ContainerPath := mst_ContainerPath dir; sg_HostPath := installation_root r +:+ "/" +:+ prefix +:+ mst_ID dir;
               sg_ReadOnly := mst_ReadOnly dir |}) \/
     (exists slot id root, slot ∈ slots /\ sd_roots storage !! id = Some root /\
        s = {| sg_ContainerPath := mxs_ContainerPath slot; sg_HostPath := id_CanonicalPath (rt_identity root);
               sg_ReadOnly := bool_decide (mxs_Mode slot = ReadOnly) |} /\
        importable (sg_HostPath s) /\ (sg_ReadOnly s = false -> rt_allowed_mode root = ReadWrite))).

Lemma wf_directories P m : well_formed P m ->
  Forall (fun s => idPattern (mst_ID s) = true) (ma_Storage m) /\
  Forall (fun w => idPattern (mco_ID w) = true /\ Forall (fun s => idPattern (mst_ID s) = true) (mco_Storage w)) (ma_Components m).
Proof.
  assert (forall v s, storage_ok v s -> idPattern (mst_ID s) = true) as Hs by (unfold storage_ok; tauto).
  unfold well_formed. cbn zeta. intros H. destruct_and?. split.
  - eapply Forall_impl; [eassumption|]. intros s. apply Hs.
  - match goal with H : Forall (component_ok _ _) _ |- _ => eapply Forall_impl; [exact H|] end.
    intros w Hw. unfold component_ok in Hw. split; [tauto|]. eapply Forall_impl; [|intros s; apply Hs]. apply Hw.
Qed.

Lemma trusted_mounts_confined r m h storage root prefix component declared slots c :
  roots_sound storage -> container_part m prefix declared slots -> Forall (fun s => idPattern (mst_ID s) = true) declared ->
  Forall (fun x => ValidMode (mxs_Mode x) = true) slots ->
  (forall id, root +:+ "/" +:+ id = installation_root r +:+ "/" +:+ prefix +:+ id) ->
  mounts_trusted (fun _ slots chosen => resolveExternalMounts h (rq_InstanceID r) slots chosen storage) root component declared slots c ->
  Forall (mount_confined r m storage) (pl_Storage c).
Proof.
  intros [Hroots _] Hpart Hids Hmodes Hdir (chosen & external & Hext & ->). apply Forall_app. split.
  - apply Forall_fmap, Forall_forall. intros s Hs. exists prefix, declared, slots. split; [done|]. left. exists s.
    rewrite Forall_forall in Hids. split_and!; [done|by apply Hids|]. simpl. by rewrite <- Hdir.
  - apply resolve_spec in Hext as [_ H]. apply Forall_forall. intros s (x & rr & Hx & _ & (Hr & Hrw & _) & ->)%H.
    exists prefix, declared, slots. split; [done|]. right.
    exists x, (chosen_root chosen x), rr. split_and!; [done | done | done | by eapply Hroots|]. simpl.
    intros E%bool_decide_eq_false. apply Hrw. rewrite Forall_forall in Hmodes. specialize (Hmodes x Hx).
    unfold ValidMode in Hmodes. apply orb_true_iff in Hmodes. rewrite !bool_decide_eq_true in Hmodes. tauto.
Qed.

Module StorageClaims.
(** C18. However registering, removing and attaching storage follow each other,
    every registered root is a distinct directory the policy allows, every
    binding has a registered root that allows its mode, and, as long as no two
    attachments overlap in time, a root that one installation writes is bound by
    no other. *)
Theorem storage_bookkeeping serial d pending : storage_reachable serial (d, pending) ->
  roots_sound d /\ bindings_sound d /\ (serial = true -> writers_exclusive d).
Proof.
  intros (Hr & Hb & _ & Hx)%storage_reachable_inv. split_and!; try done. intros E. by destruct (Hx E).
Qed.

Theorem storage_bookkeeping_witness : roots_sound two_roots /\ bindings_sound two_roots /\ (true = true -> writers_exclusive two_roots).
Proof. apply (storage_bookkeeping true two_roots []). apply two_roots_reachable. Defined.

(** Two attachments that overlap both pass the check for other writers
    before either is recorded, and are then both recorded: two installations
    write one root.  Without any overlap, two registered roots may lie one
    inside the other and two installations then write the same files. *)
Theorem writer_exclusion_gaps :
  (exists d, storage_reachable false (d, []) /\ ~ writers_exclusive d) /\
  (exists d, storage_reachable true (d, []) /\
     root_path media_id d = Some "/mnt/media" /\ root_path movies_id d = Some "/mnt/media/movies" /\
     binding_of "inst-1" d = Some (media_id, ReadWrite) /\ binding_of "inst-2" d = Some (movies_id, ReadWrite)).
Proof.
  split.
  - exists (attach "inst-2" media_id (attach "inst-1" media_id two_roots)). split; [apply overlap_reachable|].
    intros H. assert (binding_of "inst-1" (attach "inst-2" media_id (attach "inst-1" media_id two_roots)) = Some (media_id, ReadWrite)) as H1
      by (vm_compute; reflexivity).
    assert (binding_of "inst-2" (attach "inst-2" media_id (attach "inst-1" media_id two_roots)) = Some (media_id, ReadWrite)) as H2
      by (vm_compute; reflexivity).
    apply fmap_Some in H1 as (b1 & E1 & [= R1 M1]), H2 as (b2 & E2 & [= R2 M2]).
    destruct (H _ _ b1 b2 E1 E2) as [Hm _]; [congruence | done|]. rewrite <- M1 in Hm. discriminate.
  - exists (attach "inst-2" movies_id (attach "inst-1" media_id two_roots)). split_and!; [|vm_compute; reflexivity..].
    eapply (attached true (writer "inst-2" movies_id) _ (attach "inst-1" media_id two_roots)); [|vm_compute; reflexivity..].
    eapply (attached true (writer "inst-1" media_id) _ two_roots); [|vm_compute; reflexivity..]. apply two_roots_reachable.
Qed.

(** An inspected directory is the cleaned path itself, reached without a
    symbolic link, strictly below one of the four import directories and not at
    or below a protected one; the mount recorded for it is the longest mount
    point of the host's table that covers it. *)
Theorem inspected_path_confined h path identity : Inspect h path = Ok identity ->
  id_CanonicalPath identity = Clean path /\ ho_EvalSymlinks h (Clean path) = Ok (Clean path) /\
  (exists parent, parent ∈ allowedParents /\ HasPrefix (Clean path) (parent +:+ "/") = true) /\
  Forall (fun base => Clean path <> base /\ (base <> "/" -> HasPrefix (Clean path) (base +:+ "/") = false)) forbidden_roots /\
  (exists lines m, ho_mountinfo h = Ok (lines, None) /\ Some m ∈ imap (mount_of_line (ho_order h)) lines /\
     mr_point m = id_MountPoint identity /\ mount_covers (mr_point m) (Clean path) = true /\
     forall x, Some x ∈ imap (mount_of_line (ho_order h)) lines -> mount_covers (mr_point x) (Clean path) = true ->
       (String.length (mr_point x) <= String.length (id_MountPoint identity))%nat).
Proof.
  intros ([Ha Hf] & Hc & He & mount & Hm & Hp)%inspect_spec. rewrite Hc in *. split_and!; try done.
  - apply existsb_exists in Ha as (parent & Hin & Hpre). exists parent. split; [by apply list_elem_of_In | done].
  - unfold forbiddenPath in Hf. apply orb_false_iff in Hf as [Hf _]. apply orb_false_iff in Hf as [Hf _].
    apply Forall_forall. intros base Hin%list_elem_of_In.
    assert ((bool_decide (Clean path = base) || (negb (bool_decide (base = "/")) && HasPrefix (Clean path) (base +:+ "/"))) = false) as H.
    { destruct (_ || _) eqn:E; [|done]. rewrite (proj2 (existsb_exists _ _)) in Hf; [done | eauto]. }
    apply orb_false_iff in H as [H1%bool_decide_eq_false H2]. split; [done|]. intros Hb.
    by rewrite bool_decide_false in H2.
  - apply mount_longest in Hm as (lines & H1 & H2 & H3 & H4). exists lines, mount. rewrite Hp. done.
Qed.

Theorem inspected_path_confined_witness :
  exists identity, Inspect disk_host "/mnt/media//movies/" = Ok identity /\
    id_CanonicalPath identity = "/mnt/media/movies" /\ id_MountPoint identity = "/mnt/media".
Proof.
  destruct (Inspect disk_host "/mnt/media//movies/") as [identity|e] eqn:E.
  - exists identity. split; [done|]. pose proof (inspected_path_confined _ _ _ E) as (Hc & _). split.
    + rewrite Hc. vm_compute. reflexivity.
    + revert E. vm_compute. by intros [= <-].
  - exfalso. by vm_compute in E.
Defined.

(** C15. With the recorded roots in a reachable state, every mount of a container
    made from a request with components exactly when its application has them
    is one the manifest declares for that container: a storage directory, at the
    declared path of the container and in the directory of its identifier below
    the installation's own (and below the component's), or a slot of imported
    storage, with a registered root the policy allows, which the container may
    write only if the root was registered for writing. *)
Theorem created_mounts_confined (P : string -> option URL) entries lan sha256_hex owned inventory h mkdir bootstrap
    environment d r m token plan serial storage pending :
  catalogue_ok P entries -> entries !! rq_ApplicationID r = Some m ->
  (rq_Components r = [] <-> ma_Components m = []) -> storage_reachable serial (storage, pending) ->
  createApplication (Ok entries) lan sha256_hex owned inventory
    (fun _ slots chosen => resolveExternalMounts h (rq_InstanceID r) slots chosen storage) mkdir bootstrap environment
    d r token = Ok plan ->
  Forall (fun c => Forall (mount_confined r m storage) (pl_Storage c)) (containers_of plan).
Proof.
  intros Hcat Hm Hkind Hreach Hc. destruct (wf_modes P m) as [H1 H2]; [by eapply Hcat|].
  destruct (wf_directories P m) as [Hd1 Hd2]; [by eapply Hcat|].
  pose proof (created_trusted _ _ _ _ _ _ _ _ _ _ _ _ _ _ _ Hcat Hm Hkind Hc) as Ht.
  apply storage_reachable_inv in Hreach as [Hroots _]. eapply Forall_impl; [exact Ht|].
  intros c (_ & _ & [(rel & _ & _ & _ & Hmt)|(w & Hw & _ & _ & Hmt)]).
  - refine (trusted_mounts_confined _ m _ _ _ "" _ _ _ _ Hroots _ Hd1 H1 _ Hmt); [by left|done].
  - rewrite Forall_forall in H2, Hd2. destruct (Hd2 w Hw) as [Hid Hds].
    refine (trusted_mounts_confined _ m _ _ _ (mco_ID w +:+ "/") _ _ _ _ Hroots _ Hds (H2 w Hw) _ Hmt); [right; eauto 10|].
    intros dir. by rewrite !append_assoc.
Qed.

Theorem created_mounts_confined_witness :
  exists plan, createApplication (Ok two_entries) "" (fun s => s) ∅ (Ok no_inventory)
      (fun _ slots chosen => resolveExternalMounts disk_host (rq_InstanceID pihole_request) slots chosen two_roots)
      (fun _ _ => Ok tt) (fun _ => Ok tt) no_secrets empty_db pihole_request 1 = Ok plan /\
    Forall (fun c => Forall (mount_confined pihole_request pihole two_roots) (pl_Storage c)) (containers_of plan).
Proof.
  destruct (createApplication _ _ _ _ _ (fun _ slots chosen => resolveExternalMounts disk_host _ slots chosen two_roots)
    _ _ _ _ _ _) as [plan|e] eqn:E.
  - exists plan. split; [reflexivity|]. revert E.
    apply (created_mounts_confined https_uri two_entries "" (fun s => s) ∅ (Ok no_inventory) disk_host (fun _ _ => Ok tt)
             (fun _ => Ok tt) no_secrets empty_db pihole_request pihole 1 plan true two_roots []).
    + exact two_entries_ok.
    + vm_compute. reflexivity.
    + vm_compute. done.
    + apply two_roots_reachable.
  - exfalso. revert E. vm_compute. discriminate.
Defined.
End StorageClaims.
