(* ===== verification/Serve.v ===== *)
(** * The helper's request loop ([serve] of [cmd/kitpro-helper/main.go])

    One connection: the peer must be the API's user; every request is answered
    before the next is read.  A durable mutation is checked, accepted by the
    coordinator, authorised, executed and completed.

    The handler of an accepted mutation ([executeMutation]), the check of the
    host, the test for an unfinished restore, the answers of the read-only
    operations and the clock are arguments.  [Begin] encodes the request, which
    clears its secret values in place: the handler gets what is left. *)

From S2P Require Import Prelude Protocol Exposure HelperDB Coordinator CoordinatorProofs Containers Topology LifecycleStore MultiStore ReconciliationStore HelperPlan.
From stdpp Require Import base strings list gmap.
From Stdlib Require Import ZArith Lia.

Import Wire.
Open Scope Z_scope.

(** What serving one request leaves behind, and the token of the mutation it
    executed, if it did. *)
Record served : Type := { sv_reply : Response; sv_db : db; sv_executed : option Z }.

Section serve.
Context (sha256_hex : string -> string) (unmarshal : string -> option json) (decode : list Z -> res Response)
        (executeMutation : Request -> Z -> db -> Response * db) (verifyHostPrerequisites : res unit)
        (restoreBlocksInstallation : string -> string -> db -> res bool)
        (ReconciliationResult_json : ReconciliationResult -> json) (query : Request -> db -> Response)
        (api : Z) (clock : nat -> string).

Definition refusal (r : Request) (code msg : string) : Response :=
  zero_response <| rs_RequestID := rq_ID r |> <| rs_OperationID := rq_OperationID r |>
    <| rs_ErrorCode := code |> <| rs_Error := msg |>.

Definition answered (reply : Response) (d : db) : served := {| sv_reply := reply; sv_db := d; sv_executed := None |}.

Definition recreation_current (r : Request) (d : db) : bool :=
  match LoadReconciliation (rq_InstanceID r) d with
  | Ok (reconciliation, _) =>
      bool_decide (rq_RepairAction r = RepairRecreateGeneration) &&
      bool_decide (rr_CheckedGeneration reconciliation = rq_RuntimeGeneration r - 1) &&
      bool_decide (rr_RecommendedAction reconciliation = RepairRecreateGeneration)
  | Err _ => false
  end.

(** The guards before the coordinator, in their order. *)
Definition mutation_refused (r : Request) (d : db) : option Response :=
  if decide (rq_Version r <> 2)
  then Some (refusal r "ProtocolUpgradeRequired" "lifecycle mutations require protocol version 2")
  else if decide ((rq_Operation r = "ReconcileInstallation" \/ rq_Operation r = "RepairInstallation")
                  /\ rq_InstanceID r = "")
  then Some (refusal r "InvalidRequest" "installation ID is required")
  else if decide (rq_Operation r = "RepairInstallation" /\
                  rq_RepairAction r ∉ [RepairStartActive; RepairCleanupResources; RepairAcknowledgeRetainedLoss])
  then Some (refusal r "InvalidRequest" "unsupported repair action")
  else if decide (rq_Operation r = "InstallApplication" /\ rq_RepairAction r <> "" /\ recreation_current r d = false)
  then Some (refusal r "InvalidRepair" "controlled recreation requires current helper reconciliation evidence")
  else
    let blocked :=
      if decide (rq_InstanceID r <> "" /\ rq_Operation r <> "ReconcileInstallation") then
        match restoreBlocksInstallation (rq_InstanceID r) (rq_OperationID r) d with
        | Err _ => Some (refusal r "OperationStateUnavailable" "restore recovery state unavailable")
        | Ok true => Some (refusal r "RestoreRecoveryRequired"
                             "installation has an unresolved restore; lifecycle mutation is blocked")
        | Ok false => None
        end
      else None in
    if createsApplicationNetwork (rq_Operation r) then
      match verifyHostPrerequisites with
      | Err e => Some (refusal r "HostPrerequisiteFailed" (error_text e))
      | Ok _ => blocked
      end
    else blocked.

(** [ReadResponse] of what the handler wrote with [protocol.Write]; a response
    too large for a frame is not written. *)
Definition handler_response (r : Request) (response : Response) : Response :=
  let frame := match Write (Response_json response) with Ok bytes => bytes | Err _ => [] end in
  let response :=
    match ReadResponse decode frame with
    | Ok (response, _) => response
    | Err _ => refusal r "HandlerProtocolFailure" "mutation handler did not return a valid result"
    end in
  response <| rs_RequestID := rq_ID r |> <| rs_OperationID := rq_OperationID r |>.

Definition serve_mutation (r : Request) (d : db) : served :=
  match mutation_refused r d with
  | Some reply => answered reply d
  | None =>
      match atomically (Begin sha256_hex unmarshal r api (operationScope r) (clock 0)) d with
      | (Err e, d) => answered (refusal r "OperationStateUnavailable" (error_text e)) d
      | (Ok (decision, Some e), d) =>
          answered (if decide (rs_Error (dResponse decision) <> "") then dResponse decision
                    else refusal r "OperationStateUnavailable" (error_text e)) d
      | (Ok (decision, None), d) =>
          if negb (Execute decision) then answered (dResponse decision) d
          else
            let token := FencingToken decision in
            match atomically (AuthorizeMutation (rq_OperationID r) token (clock 1)) d with
            | (Err e, d) => answered (refusal r "OperationFenceRejected" (error_text e)) d
            | (Ok _, d) =>
                let '(response, d) := executeMutation (canonical_caller r) token d in
                match atomically (Complete unmarshal (rq_OperationID r) token (handler_response r response) (clock 2)) d with
                | (Err e, d) =>
                    {| sv_reply := refusal r "RecoveryRequired" (error_text e)
                                     <| rs_State := op_state_text StateActionRequired |>;
                       sv_db := d; sv_executed := Some token |}
                | (Ok response, d) => {| sv_reply := response; sv_db := d; sv_executed := Some token |}
                end
            end
      end
  end.

Definition serve_request (r : Request) (d : db) : served :=
  if decide (rq_Version r <> 1 /\ rq_Version r <> 2)
  then answered (zero_response <| rs_RequestID := rq_ID r |> <| rs_Error := "unsupported protocol" |>) d
  else if decide (rq_Operation r = "GetOperation") then
    match StoredResponse unmarshal (rq_OperationID r) (rq_ID r) d with
    | Err _ => answered (refusal r "OperationNotFound" "operation not found") d
    | Ok (response, d) => answered response d
    end
  else if decide (rq_Operation r = "GetReconciliation") then
    match LoadReconciliation (rq_InstanceID r) d with
    | Err _ => answered (zero_response <| rs_RequestID := rq_ID r |> <| rs_ErrorCode := "ReconciliationNotFound" |>
                           <| rs_Error := "reconciliation state not found" |>) d
    | Ok (result, d) => answered (zero_response <| rs_OK := true |> <| rs_RequestID := rq_ID r |>
                                    <| rs_Result := Some (ReconciliationResult_json result) |>) d
    end
  else if isDurableMutation (rq_Operation r) then serve_mutation r d
  else answered (query r d) d.

(** The connection: requests as [protocol.Read] returns them, until it fails. *)
Fixpoint serve_requests (frames : list (res Request)) (d : db) : list (Request * served) * db :=
  match frames with
  | Ok r :: frames =>
      let s := serve_request r d in
      let '(rest, d) := serve_requests frames (sv_db s) in ((r, s) :: rest, d)
  | _ => ([], d)
  end.

Definition serve (peer : option Z) (frames : list (res Request)) (d : db) : list (Request * served) * db :=
  if decide (peer = Some api) then serve_requests frames d else ([], d).
End serve.
