(* ===== verification/ServeProps.v ===== *)
(** * The request loop: what is executed, and what is answered *)

From S2P Require Import Prelude Protocol Exposure HelperDB Coordinator CoordinatorProofs CoordinatorProps Containers Topology LifecycleStore MultiStore ReconciliationStore HelperPlan Serve.
From stdpp Require Import base strings list gmap.
From Stdlib Require Import ZArith Lia.

Import Wire.
Open Scope Z_scope.

Lemma complete_stored unmarshal id t response now d reply d' : Complete unmarshal id t response now d = Ok (reply, d') ->
  exists record, db_ops d' !! id = Some record /\ reply = responseFor unmarshal id record (rs_RequestID response).
Proof.
  unfold Complete. destruct (encode_result _ _); [|done].
  destruct (if rs_OK response then _ else _) as [[[[state outcome] recovery] code] detail].
  intros (? & ? & _ & H)%tbind_Ok. apply tbind_Ok in H as (? & ? & _ & H).
  apply tbind_Ok in H as (record & ? & Hg & H). unfold get_op in Hg. apply trow_Ok in Hg as [Hg <-].
  apply tret_Ok in H as [<- <-]. by exists record.
Qed.

Lemma complete_oversized unmarshal id t response now d :
  is_ok (encode_result (rs_Result response) "operation result too large") = false ->
  exists e, Complete unmarshal id t response now d = Err e.
Proof. unfold Complete. destruct (encode_result _ _) as [|e]; [done|]. intros _. by exists e. Qed.

Lemma stored_read_back unmarshal id request d record : db_ops d !! id = Some record ->
  StoredResponse unmarshal id request d = Ok (responseFor unmarshal id record request, d).
Proof. intros H. unfold StoredResponse, get_op, tbind, trow. by rewrite H. Qed.

(** ** Progress after a restart *)
Lemma recovery_settles now d : coord_inv d ->
  exists n d', RecoverInterrupted now d = (Ok n, d') /\ coord_inv d' /\
    (forall id, db_ops d !! id = None -> db_ops d' !! id = None) /\
    forall id o, db_ops d' !! id = Some o -> ~ is_interrupted (op_state o).
Proof.
  intros Hd. destruct (interrupted_spec d) as [Hnd Hin].
  destruct (recover_loop_spec now (interrupted d) 0 d Hd Hnd) as (d' & Hl & Hok & _ & _ & Hv & Hrest).
  { apply Forall_forall. intros [id x] (o & Ho & <- & Hi)%Hin. eauto. }
  exists (length (interrupted d)), d'. unfold RecoverInterrupted. rewrite Hl. rewrite Forall_forall in Hv. split_and!; [done | done|..].
  - intros id Hid. rewrite Hrest; [done|]. intros ([k x] & -> & (o & Ho & _)%Hin)%list_elem_of_fmap. simpl in *. congruence.
  - intros id o Ho. destruct (decide (id ∈ map fst (interrupted d))) as [Hi|Hi].
    + apply list_elem_of_fmap in Hi as ([k x] & -> & Hkx). destruct (Hv _ Hkx) as (o' & Ho' & Hs). simpl in *.
      assert (o' = o) as -> by congruence. rewrite Hs. unfold verdict, is_interrupted. case_decide; naive_solver.
    + rewrite Hrest in Ho by done. intros Hint. apply Hi. apply list_elem_of_fmap. exists (id, op_state o).
      split; [done|]. apply Hin. eauto.
Qed.

Lemma settled_repairable d q scope : coord_inv d -> (forall id o, db_ops d !! id = Some o -> ~ is_interrupted (op_state o)) ->
  is_repair q -> settled d scope /\ lease_available d q scope.
Proof.
  intros Hd Hno Hq. split.
  - intros l o _ Ho Hs. apply (Hno _ _ Ho). by right; right.
  - unfold lease_available. destruct (db_leases d !! scope) as [l|] eqn:Hl; [|done].
    destruct (ok_lease _ _ Hd _ _ Hl) as (_ & _ & o & Ho & _ & _ & Hag). specialize (Hno _ _ Ho).
    unfold agree, is_interrupted in *. destruct (op_state o); simpl in *; tauto.
Qed.

Lemma authorize_total id t now d o l : fenced d id t o l -> op_state o = StateAccepted ->
  exists d', AuthorizeMutation id t now d = Ok (tt, d').
Proof.
  intros Hf Hs. unfold AuthorizeMutation, tbind.
  rewrite (proj2 (verifyFence_Ok id t d tt d)) by (split; [done | by exists o, l]).
  destruct Hf as (Ho & Ht & _). unfold update_ops. rewrite (affected_pk _ _ id) by pk_side. rewrite Ho, decide_True by done.
  unfold tassert. rewrite decide_True by done. unfold tret, get_op, trow. cbn. rewrite lookup_update, Ho. cbn.
  unfold appendEvent, insert_event. cbn. rewrite lookup_update, Ho. by eexists.
Qed.

Section serve_props.
Context (sha256_hex : string -> string) (unmarshal : string -> option json) (decode : list Z -> res Response)
        (execute : Request -> Z -> db -> Response * db) (prerequisites : res unit)
        (blocks : string -> string -> db -> res bool) (recon_json : ReconciliationResult -> json)
        (query : Request -> db -> Response) (api : Z) (clock : nat -> string).
Notation mutation_refused := (mutation_refused prerequisites blocks).
Notation serve_mutation := (serve_mutation sha256_hex unmarshal decode execute prerequisites blocks api clock).
Notation serve_request := (serve_request sha256_hex unmarshal decode execute prerequisites blocks recon_json query api clock).
Notation serve_requests := (serve_requests sha256_hex unmarshal decode execute prerequisites blocks recon_json query api clock).

(** Every operation keeps its row and what it was accepted for. *)
Definition ops_kept (d d' : db) : Prop :=
  forall id o, db_ops d !! id = Some o -> exists o', db_ops d' !! id = Some o' /\ op_request_hash o' = op_request_hash o.

(** What handlers do with the coordinator's tables: they record phases of
    their own operation, through the coordinator. *)
Definition handlers_coordinated : Prop :=
  forall r t d, coord_inv d -> coord_inv (execute r t d).2 /\ ops_kept d (execute r t d).2.

Lemma ops_kept_refl d : ops_kept d d.
Proof. intros id o Ho. eauto. Qed.
Lemma ops_kept_trans d1 d2 d3 : ops_kept d1 d2 -> ops_kept d2 d3 -> ops_kept d1 d3.
Proof. intros H1 H2 id o (o1 & Ho1 & E1)%H1. apply H2 in Ho1 as (o2 & ? & ?). exists o2. split; congruence. Qed.

Lemma step_ops_kept d d' : coord_inv d -> step d d' -> coord_inv d' /\ ops_kept d d'.
Proof.
  intros Hd Hs. split; [by eapply step_coord_inv|]. intros id o Ho.
  destruct (steps_op_kept d d' id o Hd (rtc_once _ _ Hs) Ho) as (o' & ? & [_ ?] & _). exists o'. split; congruence.
Qed.

Lemma atomically_kept {A} (m : tx db A) d : (forall a d', m d = Ok (a, d') -> step d d') -> coord_inv d ->
  coord_inv (atomically m d).2 /\ ops_kept d (atomically m d).2.
Proof.
  intros Hm Hd. unfold atomically. destruct (m d) as [[a d']|e]; simpl; [|eauto using ops_kept_refl].
  by eapply step_ops_kept, Hm.
Qed.

(** How an executed mutation went: accepted, authorised, handled, completed. *)
Definition executed_as (r : Request) (d : db) (s : served) (t : Z) : Prop :=
  exists decision response begun authorized done,
    mutation_refused r d = None /\
    Begin sha256_hex unmarshal r api (operationScope r) (clock 0) d = Ok ((decision, None), begun) /\
    Execute decision = true /\ FencingToken decision = t /\
    AuthorizeMutation (rq_OperationID r) t (clock 1) begun = Ok (tt, authorized) /\
    execute (canonical_caller r) t authorized = (response, done) /\
    match Complete unmarshal (rq_OperationID r) t (handler_response decode r response) (clock 2) done with
    | Ok (reply, d') => sv_reply s = reply /\ sv_db s = d'
    | Err e => sv_reply s = refusal r "RecoveryRequired" (error_text e) <| rs_State := op_state_text StateActionRequired |>
               /\ sv_db s = done
    end.

Lemma executed_spec r d t : sv_executed (serve_request r d) = Some t ->
  isDurableMutation (rq_Operation r) = true /\ executed_as r d (serve_request r d) t.
Proof.
  unfold Serve.serve_request. case_decide; [done|]. case_decide; [by destruct (StoredResponse _ _ _ _) as [[? ?]|]|].
  case_decide; [by destruct (LoadReconciliation _ _) as [[? ?]|]|].
  destruct (isDurableMutation (rq_Operation r)); [|done]. intros Hs. split; [done|]. revert Hs.
  unfold Serve.serve_mutation, executed_as. destruct (mutation_refused r d) eqn:Hr; [done|].
  unfold atomically. destruct (Begin _ _ _ _ _ _ d) as [[[decision [e|]] d1]|e] eqn:Hb; [done| |done].
  destruct (Execute decision) eqn:He; [|done]. simpl.
  destruct (AuthorizeMutation _ _ _ d1) as [[[] d2]|e] eqn:Ha; [|done].
  destruct (execute _ _ d2) as [response d3] eqn:Hx.
  destruct (Complete _ _ _ _ _ d3) as [[reply d4]|e] eqn:Hc; simpl; intros [= <-];
    exists decision, response, d1, d2, d3; rewrite Hc; split_and!; done.
Qed.

Lemma executed_fresh r d s t : coord_inv d -> executed_as r d s t -> db_ops d !! rq_OperationID r = None.
Proof.
  intros Hd (decision & response & d1 & d2 & d3 & _ & Hb & He & _). apply Begin_txn in Hb as (_ & _ & Hcase); [|done].
  destruct (db_ops d !! rq_OperationID r); [|done]. destruct Hcase as (_ & Hn & _). simpl in Hn. congruence.
Qed.

Lemma executed_recorded r d s t : handlers_coordinated -> coord_inv d -> executed_as r d s t ->
  coord_inv (sv_db s) /\ ops_kept d (sv_db s) /\ is_Some (db_ops (sv_db s) !! rq_OperationID r).
Proof.
  intros Hh Hd Hex. pose proof (executed_fresh _ _ _ _ Hd Hex) as Hfresh.
  destruct Hex as (decision & response & d1 & d2 & d3 & _ & Hb & He & Ht & Ha & Hx & Hc).
  destruct (step_ops_kept d d1 Hd) as [Hd1 Hk1]; [by eapply step_Begin|].
  destruct (step_ops_kept d1 d2 Hd1) as [Hd2 Hk2]; [by eapply step_Authorize|].
  destruct (Hh (canonical_caller r) t d2 Hd2) as [Hd3 Hk3]. rewrite Hx in Hd3, Hk3. simpl in Hd3, Hk3.
  assert (coord_inv (sv_db s) /\ ops_kept d3 (sv_db s)) as [Hd4 Hk4].
  { destruct (Complete _ _ _ _ _ d3) as [[reply d4]|e] eqn:E; destruct Hc as [_ ->]; [|eauto using ops_kept_refl].
    eapply step_ops_kept; [done|]. by eapply step_Complete. }
  split_and!; [done | eauto using ops_kept_trans|].
  apply Begin_txn in Hb as (_ & _ & Hcase); [|done]. rewrite Hfresh in Hcase.
  destruct Hcase as (hash & _ & o & Ho & _). apply Hk2 in Ho as (o2 & Ho & _). apply Hk3 in Ho as (o3 & Ho & _).
  apply Hk4 in Ho as (o4 & Ho & _). by eexists.
Qed.

Lemma served_kept r d : handlers_coordinated -> coord_inv d ->
  coord_inv (sv_db (serve_request r d)) /\ ops_kept d (sv_db (serve_request r d)).
Proof.
  intros Hh Hd. destruct (sv_executed (serve_request r d)) as [t|] eqn:E.
  { apply executed_spec in E as [_ Hex]. destruct (executed_recorded _ _ _ _ Hh Hd Hex) as (? & ? & _). done. }
  revert E. unfold Serve.serve_request. case_decide; [eauto using ops_kept_refl|].
  case_decide.
  { unfold StoredResponse, get_op, tbind, trow, tret. destruct (db_ops d !! rq_OperationID r); eauto using ops_kept_refl. }
  case_decide.
  { unfold LoadReconciliation, tbind, trow, tret, tget. destruct (db_recon d !! rq_InstanceID r); eauto using ops_kept_refl. }
  destruct (isDurableMutation (rq_Operation r)); [|eauto using ops_kept_refl].
  unfold Serve.serve_mutation. destruct (mutation_refused r d); [eauto using ops_kept_refl|].
  pose proof (atomically_kept (Begin sha256_hex unmarshal r api (operationScope r) (clock 0)) d) as Hb.
  destruct (atomically (Begin _ _ _ _ _ _) d) as [[[decision [e|]]|e] d1]; simpl in *.
  1,3: intros _; apply Hb; [intros; by eapply step_Begin | done].
  destruct Hb as [Hd1 Hk1]; [intros; by eapply step_Begin | done|]. destruct (Execute decision); [|done]. simpl.
  pose proof (atomically_kept (AuthorizeMutation (rq_OperationID r) (FencingToken decision) (clock 1)) d1) as Ha.
  destruct (atomically (AuthorizeMutation _ _ _) d1) as [[u|e] d2]; simpl in *.
  - destruct (execute _ _ _). by destruct (atomically (Complete _ _ _ _ _) _) as [[?|?] ?].
  - intros _. destruct Ha as [? ?]; [intros; by eapply step_Authorize | done|]. eauto using ops_kept_trans.
Qed.

Definition executed_ids (l : list (Request * served)) : list string :=
  rq_OperationID <$> (fst <$> filter (fun rs => is_Some (sv_executed rs.2)) l).

Lemma executed_ids_fresh frames d : handlers_coordinated -> coord_inv d ->
  NoDup (executed_ids (serve_requests frames d).1) /\
  Forall (fun id => db_ops d !! id = None) (executed_ids (serve_requests frames d).1).
Proof.
  intros Hh. revert d. induction frames as [|[r|e] frames IH]; intros d Hd; [split; constructor| |split; constructor].
  simpl. destruct (served_kept r d Hh Hd) as [Hd1 Hk]. destruct (IH _ Hd1) as [Hnd Hfr].
  destruct (serve_requests frames (sv_db (serve_request r d))) as [rest d2]. simpl in *.
  assert (Forall (fun id => db_ops d !! id = None) (executed_ids rest)) as Hfr'.
  { eapply Forall_impl; [exact Hfr|]. intros id Hid. destruct (db_ops d !! id) as [o|] eqn:Ho; [|done].
    apply Hk in Ho as (o' & Ho & _). simpl in *. congruence. }
  unfold executed_ids. rewrite filter_cons. simpl. case_decide as He; [|done]. destruct He as [t He].
  apply executed_spec in He as [_ Hex]. destruct (executed_recorded _ _ _ _ Hh Hd Hex) as (_ & _ & Hin). simpl. split.
  - constructor; [|done]. intros Hi. rewrite Forall_forall in Hfr. apply Hfr in Hi. rewrite Hi in Hin. by destruct Hin.
  - constructor; [by eapply executed_fresh | done].
Qed.

Lemma authorized_fenced id t now d u d' : AuthorizeMutation id t now d = Ok (u, d') ->
  exists o l, fenced d' id t o l /\ op_state o = StateExecuting.
Proof.
  unfold AuthorizeMutation. intros H. inv_coord.
  match goal with H : fenced _ _ _ ?o ?l |- _ => destruct H as (? & ? & ? & ? & ? & ?) end.
  same_rows. destruct_and?. pk_simpl. simpl.
  eexists _, _. split; [split_and!; simpl; [by rewrite lookup_insert_eq|..]|]; simpl; try done.
Qed.

(** While a lease is held, nothing else of its scope is executed. *)
Lemma held_lease_blocks q uid scope now d x d' l : coord_inv d -> db_leases d !! scope = Some l -> ls_state l = LeaseHeld ->
  Begin sha256_hex unmarshal q uid scope now d = Ok (x, d') -> Execute x.1 = false.
Proof.
  intros Hd Hl Hs H. pose proof H as Hb. apply Begin_txn in H as (_ & _ & Hcase); [|done].
  destruct (db_ops d !! rq_OperationID q) eqn:Hq; [by destruct Hcase as (_ & ? & _)|].
  clear Hcase. unfold Begin in Hb. cbn zeta in Hb. do 3 (apply tbind_Ok in Hb as (? & ? & [_ <-]%tassert_Ok & Hb)).
  destruct (Canonical q); [|done]. destruct (Hash sha256_hex q); [|done].
  apply tbind_Ok in Hb as (? & ? & [-> <-]%tget_Ok & Hb). rewrite Hq in Hb. unfold begin_new in Hb. cbn zeta in Hb.
  apply tbind_Ok in Hb as (? & d1 & Hi & Hb). apply insert_op_Ok in Hi as [_ ->].
  apply tbind_Ok in Hb as (lease & d2 & Ha & Hb). unfold acquire_lease in Ha. cbn zeta in Ha.
  apply tbind_Ok in Ha as (? & ? & [-> <-]%tget_Ok & Ha). simpl in Ha. rewrite Hl in Ha.
  destruct (ok_lease _ _ Hd _ _ Hl) as (_ & _ & o & Ho & _).
  rewrite decide_False in Ha by (by rewrite Hs). rewrite decide_False in Ha by (rewrite Hs; by intros []).
  rewrite decide_False in Ha by congruence. apply tret_Ok in Ha as [<- <-]. unfold begin_conflict in Hb. cbn zeta in Hb.
  do 2 (apply tbind_Ok in Hb as (? & ? & _ & Hb)). by apply tret_Ok in Hb as [<- _].
Qed.

Lemma executed_fenced r d s t : coord_inv d -> executed_as r d s t ->
  exists d2 o l, coord_inv d2 /\ fenced d2 (rq_OperationID r) t o l /\ op_state o = StateExecuting /\
    op_installation o = operationScope r /\
    let handled := execute (canonical_caller r) t d2 in
    match Complete unmarshal (rq_OperationID r) t (handler_response decode r handled.1) (clock 2%nat) handled.2 with
    | Ok (reply, d') => sv_reply s = reply /\ sv_db s = d'
    | Err e => sv_reply s = refusal r "RecoveryRequired" (error_text e) <| rs_State := op_state_text StateActionRequired |>
               /\ sv_db s = handled.2
    end.
Proof.
  intros Hd Hex. pose proof (executed_fresh _ _ _ _ Hd Hex) as Hfresh.
  destruct Hex as (decision & response & d1 & d2 & d3 & _ & Hb & He & Ht & Ha & Hx & Hc).
  pose proof (step_coord_inv _ _ Hd (step_Begin _ _ _ _ _ _ _ _ _ Hb)) as Hd1.
  pose proof (step_Authorize _ _ _ _ _ _ Ha) as Hs. pose proof (step_coord_inv _ _ Hd1 Hs) as Hd2.
  apply Begin_txn in Hb as (_ & _ & Hcase); [|done]. rewrite Hfresh in Hcase. destruct Hcase as (hash & _ & o1 & Ho1 & Hi & _).
  destruct (steps_op_kept d1 d2 _ o1 Hd1 (rtc_once _ _ Hs) Ho1) as (o2 & Ho2 & [Hi2 _] & _).
  destruct (authorized_fenced _ _ _ _ _ _ Ha) as (o & l & Hf & Hst). assert (o2 = o) as -> by (destruct Hf; congruence).
  exists d2, o, l. split_and!; [done | done | done | congruence|]. cbn zeta. rewrite Hx. done.
Qed.

Lemma begun_authorized r now d decision d1 : coord_inv d -> db_ops d !! rq_OperationID r = None ->
  Begin sha256_hex unmarshal r api (operationScope r) now d = Ok ((decision, None), d1) -> Execute decision = true ->
  exists d2, AuthorizeMutation (rq_OperationID r) (FencingToken decision) (clock 1%nat) d1 = Ok (tt, d2).
Proof.
  intros Hd Hfresh Hb He. pose proof (step_coord_inv _ _ Hd (step_Begin _ _ _ _ _ _ _ _ _ Hb)) as Hd1.
  apply Begin_txn in Hb as (_ & _ & Hcase); [|done]. rewrite Hfresh in Hcase.
  destruct Hcase as (hash & _ & o & Ho & _ & _ & [(_ & _ & Hs & Ht)|(Hn & _)]); simpl in *; [|congruence].
  destruct (ok_live _ _ Hd1 _ _ Ho) as (l & Hl & Hlo); [rewrite Hs; by eexists|].
  destruct (ok_lease _ _ Hd1 _ _ Hl) as (_ & _ & o' & Ho' & _ & Ht' & Hag). rewrite Hlo in Ho'.
  assert (o' = o) as -> by congruence. rewrite Hs in Hag. simpl in Hag.
  eapply (authorize_total _ _ _ _ o l); [|done]. unfold fenced. split_and!; try done; congruence.
Qed.

Lemma accepted_executes r d decision d1 : coord_inv d -> (rq_Version r = 2) -> isDurableMutation (rq_Operation r) = true ->
  mutation_refused r d = None -> db_ops d !! rq_OperationID r = None ->
  Begin sha256_hex unmarshal r api (operationScope r) (clock 0%nat) d = Ok ((decision, None), d1) -> Execute decision = true ->
  sv_executed (serve_request r d) = Some (FencingToken decision).
Proof.
  intros Hd Hver Hdur Href Hfresh Hb He. destruct (begun_authorized _ _ _ _ _ Hd Hfresh Hb He) as [d2 Ha].
  unfold Serve.serve_request. rewrite decide_False by lia.
  rewrite decide_False by (intros E; by rewrite E in Hdur). rewrite decide_False by (intros E; by rewrite E in Hdur).
  rewrite Hdur. unfold Serve.serve_mutation. rewrite Href. unfold atomically. rewrite Hb. cbv beta iota. rewrite He. simpl.
  rewrite Ha. destruct (execute _ _ d2) as [response d3]. by destruct (Complete _ _ _ _ _ d3) as [[? ?]|?].
Qed.
End serve_props.

(** ** A helper whose handler does nothing but answer *)
Definition done_response : Response := zero_response <| rs_OK := true |>.
Definition answering (response : Response) (r : Request) (t : Z) (d : db) : Response * db := (response, d).
Definition never_blocked (_ _ : string) (_ : db) : res bool := Ok false.
Definition no_answer (_ : Request) (_ : db) : Response := zero_response.
Definition clock0 (n : nat) : string := "t".

Definition helper_serving (response : Response) : Request -> db -> served :=
  serve_request (fun b => b) no_json (fun _ => Ok response) (answering response) (Ok tt) never_blocked (fun _ => JNull)
    no_answer 1000 clock0.

Lemma answering_coordinated response : handlers_coordinated (answering response).
Proof. intros r t d Hd. split; [done | apply ops_kept_refl]. Qed.

Definition get_operation (request : string) (id : string) : Request :=
  ProtocolProps.empty_request <| rq_ID := request |> <| rq_OperationID := id |> <| rq_Operation := "GetOperation" |>.

(** A result of more than 32 KiB, which a frame still carries. *)
Definition large_response : Response :=
  done_response <| rs_Result := Some (JStr (String.concat "" (repeat "0123456789abcdef" 2100))) |>.

Definition repair_request : Request :=
  ProtocolProps.empty_request <| rq_OperationID := op2 |> <| rq_Operation := "RepairInstallation" |>
    <| rq_RepairAction := RepairStartActive |> <| rq_InstanceID := "inst-a" |>.

Module ServeClaims.
(** C14. On one connection, whatever it sends, no operation identity is
    executed twice nor one that was already recorded, and what is executed came
    from the API's user as a durable mutation in protocol version 2 that no
    guard refused. *)
Theorem mutations_executed_once sha256_hex unmarshal decode execute prerequisites blocks recon_json query api clock
    peer frames d : handlers_coordinated execute -> coord_inv d ->
  let out := (serve sha256_hex unmarshal decode execute prerequisites blocks recon_json query api clock peer frames d).1 in
  NoDup (executed_ids out) /\ Forall (fun id => db_ops d !! id = None) (executed_ids out) /\
  Forall (fun rs => is_Some (sv_executed rs.2) ->
    peer = Some api /\ rq_Version rs.1 = 2 /\ isDurableMutation (rq_Operation rs.1) = true) out.
Proof.
  intros Hh Hd. cbn zeta. unfold serve. case_decide as Hp; [|split_and!; constructor].
  destruct (executed_ids_fresh sha256_hex unmarshal decode execute prerequisites blocks recon_json query api clock frames d Hh Hd)
    as [H1 H2]. split_and!; [done..|]. clear H1 H2 Hd. revert d.
  induction frames as [|[r|e] frames IH]; intros d; [constructor| |constructor]. simpl.
  specialize (IH (sv_db (serve_request sha256_hex unmarshal decode execute prerequisites blocks recon_json query api clock r d))).
  destruct (serve_requests _ _ _ _ _ _ _ _ _ _ frames _) as [rest d2]. simpl in *. constructor; [|done]. simpl.
  intros [t (Hdur & decision & response & d1 & d3 & d4 & Hr & _)%executed_spec]. split_and!; try done.
  unfold mutation_refused in Hr. case_decide as Hv; [done|]. lia.
Qed.

Theorem mutations_executed_once_witness :
  NoDup (executed_ids (serve (fun b => b) no_json (fun _ => Ok done_response) (answering done_response) (Ok tt) never_blocked
    (fun _ => JNull) no_answer 1000 clock0 (Some 1000) [Ok (install op1); Ok (install op1); Ok (install op2)] empty_db).1) /\
  executed_ids (serve (fun b => b) no_json (fun _ => Ok done_response) (answering done_response) (Ok tt) never_blocked
    (fun _ => JNull) no_answer 1000 clock0 (Some 1000) [Ok (install op1); Ok (install op1); Ok (install op2)] empty_db).1 = [op1; op2].
Proof.
  split; [|vm_compute; reflexivity].
  exact (proj1 (mutations_executed_once _ _ _ _ _ _ _ _ _ _ _ _ _ (answering_coordinated done_response) empty_coord_inv)).
Defined.

(** A handler runs only while its operation is recorded as executing and
    holds the lease of the request's scope under the token the handler is
    given, and it gets the request without secret values. *)
Theorem handler_runs_fenced sha256_hex unmarshal decode execute prerequisites blocks recon_json query api clock r d t :
  coord_inv d ->
  sv_executed (serve_request sha256_hex unmarshal decode execute prerequisites blocks recon_json query api clock r d) = Some t ->
  exists d2 o l, coord_inv d2 /\ fenced d2 (rq_OperationID r) t o l /\ op_state o = StateExecuting /\
    op_installation o = operationScope r /\
    let s := serve_request sha256_hex unmarshal decode execute prerequisites blocks recon_json query api clock r d in
    let handled := execute (canonical_caller r) t d2 in
    (sv_db s = handled.2 \/
     Complete unmarshal (rq_OperationID r) t (handler_response decode r handled.1) (clock 2%nat) handled.2 = Ok (sv_reply s, sv_db s)).
Proof.
  intros Hd [_ Hex]%executed_spec. destruct (executed_fenced _ _ _ _ _ _ _ _ _ _ _ _ Hd Hex) as (d2 & o & l & H1 & H2 & H3 & H4 & Hc).
  exists d2, o, l. split_and!; try done. cbn zeta in *.
  destruct (Complete _ _ _ _ _ _) as [[reply d4]|e]; destruct Hc as [-> ->]; [by right | by left].
Qed.

Theorem handler_runs_fenced_witness :
  exists d2 o l, fenced d2 op1 1 o l /\ op_state o = StateExecuting /\ op_installation o = "inst-a".
Proof.
  destruct (handler_runs_fenced (fun b => b) no_json (fun _ => Ok done_response) (answering done_response) (Ok tt) never_blocked
    (fun _ => JNull) no_answer 1000 clock0 (install op1) empty_db 1 empty_coord_inv) as (d2 & o & l & _ & H1 & H2 & H3 & _).
  - vm_compute. reflexivity.
  - exists d2, o, l. split_and!; [exact H1 | exact H2|]. rewrite H3. reflexivity.
Defined.

(** The answer to an executed mutation is the one a later [GetOperation]
    of the same operation returns, but for the identity of the exchange, unless
    recording the result failed; then the answer asks for recovery. *)
Theorem answer_read_back sha256_hex unmarshal decode execute prerequisites blocks recon_json query api clock r d t g :
  sv_executed (serve_request sha256_hex unmarshal decode execute prerequisites blocks recon_json query api clock r d) = Some t ->
  (rq_Version g = 1 \/ rq_Version g = 2) -> rq_Operation g = "GetOperation" -> rq_OperationID g = rq_OperationID r ->
  let s := serve_request sha256_hex unmarshal decode execute prerequisites blocks recon_json query api clock r d in
  let later := serve_request sha256_hex unmarshal decode execute prerequisites blocks recon_json query api clock g (sv_db s) in
  sv_db later = sv_db s /\
  (sv_reply later = sv_reply s <| rs_RequestID := rq_ID g |> \/
   (rs_ErrorCode (sv_reply s) = "RecoveryRequired" /\ rs_State (sv_reply s) = "action_required")).
Proof.
  intros [_ Hex]%executed_spec Hv Hop Hid. cbn zeta.
  generalize dependent (serve_request sha256_hex unmarshal decode execute prerequisites blocks recon_json query api clock r d).
  intros s (decision & response & d1 & d2 & d3 & _ & _ & _ & _ & _ & _ & Hc).
  unfold serve_request. rewrite decide_False by lia. rewrite decide_True by done. rewrite Hid.
  destruct (Complete _ _ _ _ _ d3) as [[reply d4]|e] eqn:E; destruct Hc as [Hr Hd]; rewrite Hr, Hd.
  - apply complete_stored in E as (record & Hrec & ->). rewrite (stored_read_back _ _ _ _ _ Hrec). split; [done | by left].
  - split; [|by right]. unfold StoredResponse, get_op, tbind, trow. by destruct (db_ops d3 !! rq_OperationID r).
Qed.

Theorem answer_read_back_witness :
  let s := helper_serving done_response (install op1) empty_db in
  let later := helper_serving done_response (get_operation "req-9" op1) (sv_db s) in
  sv_db later = sv_db s /\
  (sv_reply later = sv_reply s <| rs_RequestID := "req-9" |> \/
   (rs_ErrorCode (sv_reply s) = "RecoveryRequired" /\ rs_State (sv_reply s) = "action_required")) /\ rs_OK (sv_reply s) = true.
Proof.
  cbn zeta. apply and_assoc. split; [|vm_compute; reflexivity].
  apply (answer_read_back (fun b => b) no_json (fun _ => Ok done_response) (answering done_response) (Ok tt) never_blocked
    (fun _ => JNull) no_answer 1000 clock0 (install op1) empty_db 1 (get_operation "req-9" op1)); [vm_compute; reflexivity|..];
    [by right | reflexivity | reflexivity].
Defined.

(** When the handler's result is larger than the 32 KiB an operation may
    record, the answer says that the operation needs action while it stays
    recorded as executing, and no operation of that scope, repairs included, is
    executed as long as its lease is held. *)
Theorem oversized_result_strands sha256_hex unmarshal decode execute prerequisites blocks recon_json query api clock r d t :
  coord_inv d ->
  sv_executed (serve_request sha256_hex unmarshal decode execute prerequisites blocks recon_json query api clock r d) = Some t ->
  (forall d2, is_ok (encode_result (rs_Result (handler_response decode r (execute (canonical_caller r) t d2).1))
                       "operation result too large") = false) ->
  (forall d2, (execute (canonical_caller r) t d2).2 = d2) ->
  let s := serve_request sha256_hex unmarshal decode execute prerequisites blocks recon_json query api clock r d in
  rs_State (sv_reply s) = "action_required" /\
  (exists o l, db_ops (sv_db s) !! rq_OperationID r = Some o /\ op_state o = StateExecuting /\
     db_leases (sv_db s) !! operationScope r = Some l /\ ls_state l = LeaseHeld) /\
  forall q uid now x d', Begin sha256_hex unmarshal q uid (operationScope r) now (sv_db s) = Ok (x, d') -> Execute x.1 = false.
Proof.
  intros Hd [_ Hex]%executed_spec Hbig Hsame. cbn zeta.
  destruct (executed_fenced _ _ _ _ _ _ _ _ _ _ _ _ Hd Hex) as (d2 & o & l & Hd2 & (Ho & _ & Hl & _ & _ & Hheld) & Hst & Hi & Hc).
  cbn zeta in Hc. rewrite Hsame in Hc. 
  destruct (complete_oversized unmarshal (rq_OperationID r) t _ (clock 2%nat) d2 (Hbig d2)) as [e He].
  rewrite He in Hc. destruct Hc as [-> ->]. rewrite Hi in Hl.
  split_and!; [done | by exists o, l|]. intros q uid now x d' Hb. by eapply held_lease_blocks.
Qed.

Theorem oversized_result_strands_witness :
  let s := helper_serving large_response (install op1) empty_db in
  rs_State (sv_reply s) = "action_required" /\
  (exists o l, db_ops (sv_db s) !! op1 = Some o /\ op_state o = StateExecuting /\
     db_leases (sv_db s) !! "inst-a" = Some l /\ ls_state l = LeaseHeld) /\
  forall q uid now x d', Begin (fun b => b) no_json q uid "inst-a" now (sv_db s) = Ok (x, d') -> Execute x.1 = false.
Proof.
  apply (oversized_result_strands (fun b => b) no_json (fun _ => Ok large_response) (answering large_response) (Ok tt)
    never_blocked (fun _ => JNull) no_answer 1000 clock0 (install op1) empty_db 1 empty_coord_inv).
  - vm_compute. reflexivity.
  - intros d2. vm_compute. reflexivity.
  - reflexivity.
Defined.

(** C32. No installation stays locked for good: from every coordinated state,
    however an operation was interrupted or stranded, restart recovery ends and
    the next well-formed repair of any installation that no unfinished restore
    blocks is executed.  (One that is blocked is answered with
    [RestoreRecoveryRequired].) *)
Theorem restart_unblocks sha256_hex unmarshal decode execute prerequisites blocks recon_json query api clock now q canonical d :
  coord_inv d -> rq_Version q = 2 -> rq_OperationRevision q = 1 -> operationIDPattern (rq_OperationID q) = true ->
  rq_Operation q = "RepairInstallation" ->
  rq_RepairAction q ∈ [RepairStartActive; RepairCleanupResources; RepairAcknowledgeRetainedLoss] ->
  (1 <= String.length (rq_InstanceID q) <= 128)%nat -> Canonical q = Ok canonical -> db_ops d !! rq_OperationID q = None ->
  (forall d', blocks (rq_InstanceID q) (rq_OperationID q) d' = Ok false) ->
  exists n d', RecoverInterrupted now d = (Ok n, d') /\
    is_Some (sv_executed (serve_request sha256_hex unmarshal decode execute prerequisites blocks recon_json query api clock q d')).
Proof.
  intros Hd Hver Hrev Hpat Hop Hact Hlen Hcan Hfresh Hbl.
  destruct (recovery_settles now d Hd) as (n & d' & Hr & Hd' & Hnone & Hno). exists n, d'. split; [done|].
  assert (rq_InstanceID q <> "") as Hne by (intros E; rewrite E in Hlen; simpl in Hlen; lia).
  assert (operationScope q = rq_InstanceID q) as Hscope by (unfold operationScope; by rewrite decide_True).
  destruct (settled_repairable d' q (operationScope q) Hd' Hno) as [Hset Hav]; [by left|].
  destruct (begin_new_total q (sha256_hex canonical) canonical (operationScope q) (clock 0%nat) api d' Hd' (Hnone _ Hfresh) Hset)
    as (r & d1 & Hb & Hex). apply Hex in Hav.
  assert (Begin sha256_hex unmarshal q api (operationScope q) (clock 0%nat) d' = Ok (r, d1)) as Hbegin.
  { unfold Begin. cbn zeta. unfold tbind, tassert. rewrite !decide_True by done.
    rewrite decide_True by (rewrite Hscope; split; [done | lia]).
    unfold tret, Hash. rewrite Hcan. unfold tget. cbv beta iota. by rewrite (Hnone _ Hfresh). }
  assert (r.2 = None) as Hnone2.
  { pose proof Hbegin as Hb'. apply Begin_txn in Hb' as (_ & _ & Hcase); [|done]. rewrite (Hnone _ Hfresh) in Hcase.
    destruct Hcase as (hash & _ & o & _ & _ & _ & [(_ & ? & _)|(? & _)]); [done | congruence]. }
  destruct r as [decision err]. simpl in *. subst err. eexists. eapply accepted_executes; try done; [by rewrite Hop| |by apply Hnone].
  unfold mutation_refused. rewrite decide_False by lia. rewrite decide_False by tauto. rewrite decide_False by tauto.
  rewrite decide_False by (rewrite Hop; by intros [? _]). rewrite Hop, decide_True, Hbl by done. done.
Qed.

Theorem restart_unblocks_witness :
  exists n d', RecoverInterrupted clock0 run2 = (Ok n, d') /\ is_Some (sv_executed (helper_serving done_response repair_request d')).
Proof.
  destruct (Canonical repair_request) as [canonical|e] eqn:Hc; [|exfalso; revert Hc; vm_compute; discriminate].
  apply (restart_unblocks (fun b => b) no_json (fun _ => Ok done_response) (answering done_response) (Ok tt) never_blocked
    (fun _ => JNull) no_answer 1000 clock0 clock0 repair_request canonical run2 run2_inv).
  - reflexivity.
  - reflexivity.
  - vm_compute. reflexivity.
  - reflexivity.
  - apply list_elem_of_here.
  - vm_compute. lia.
  - exact Hc.
  - vm_compute. reflexivity.
  - reflexivity.
Defined.
End ServeClaims.
