(* ===== verification/Secrets.v ===== *)
(** * Generated secrets ([resolvedEnvironment] and [revealApplicationCredential]
    of [cmd/kitpro-helper/main.go])

    The environment of a container with its generated secrets, which are kept in
    [installation_secrets], and the disclosure of a secret the manifest presents
    as a credential.  The random bytes drawn for the [i]-th variable and the
    clock are arguments.  Every statement is a transaction of its own: a secret
    stays recorded when a later variable fails. *)

From S2P Require Import Prelude Protocol Exposure HelperDB Coordinator NetIP Ingress Manifest.
From stdpp Require Import base strings list gmap.
From Stdlib Require Import ZArith Lia Ascii.

Import Wire.
Open Scope Z_scope.

Record secretRow : Type := { sr_value : string; sr_created_at : string }.

(** [installation_secrets], keyed by installation, component and name. *)
Notation secrets_t := (gmap (string * string * string) secretRow).

Section environment.
Context (random : nat -> res (list N)) (now : string) (installation component : string).

(** The value of a secret variable: the recorded one, or a new one. *)
Definition secret_value (i : nat) (name : string) (secrets : secrets_t) : res string * secrets_t :=
  let key := (installation, component, name) in
  match secrets !! key with
  | Some row => (Ok (sr_value row), secrets)
  | None =>
      match random i with
      | Err e => (Err e, secrets)
      | Ok raw =>
          let secrets := <[key := {| sr_value := EncodeToString raw; sr_created_at := now |}]> secrets in
          (Ok (EncodeToString raw), secrets)
      end
  end.

Definition variable_value (i : nat) (v : EnvVar) (secrets : secrets_t) : res string * secrets_t :=
  if ev_Secret v then
    if decide (ev_Generate v <> "random-hex-32" \/ ev_Value v <> "")
    then (Err (ErrMsg "invalid generated secret"), secrets)
    else
      match secret_value i (ev_Name v) secrets with
      | (Err e, secrets) => (Err e, secrets)
      | (Ok secret, secrets) =>
          if decide (String.length secret <> 64%nat) then (Err (ErrMsg "generated secret unavailable"), secrets)
          else (Ok secret, secrets)
      end
  else (Ok (ev_Value v), secrets).

Fixpoint resolved_from (i : nat) (variables : list EnvVar) (secrets : secrets_t) : res (list string) * secrets_t :=
  match variables with
  | [] => (Ok [], secrets)
  | v :: variables =>
      match variable_value i v secrets with
      | (Err e, secrets) => (Err e, secrets)
      | (Ok value, secrets) =>
          match resolved_from (S i) variables secrets with
          | (Err e, secrets) => (Err e, secrets)
          | (Ok rest, secrets) => (Ok ((ev_Name v +:+ "=" +:+ value) :: rest), secrets)
          end
      end
  end.

Definition resolvedEnvironment (variables : list EnvVar) (secrets : secrets_t) : res (list string) * secrets_t :=
  resolved_from 0 variables secrets.
End environment.

(** ** Disclosure *)
Record CredentialDisclosure : Type := {
  cd_ID : string;
  cd_Label : string;
  cd_Username : string;
  cd_Value : string
}.

(** [hex.DecodeString] succeeds *)
Definition decodes_hex (s : string) : bool :=
  Nat.even (String.length s) && forallb (fun c => match hex_value c with Some _ => true | None => false end) (text s).

Definition installed_as (d : db) (installation application : string) : bool :=
  bool_decide (select (fun k g => k.1 = installation /\ g_application g = application) (db_gens d) <> []).

Definition revealApplicationCredential (catalog : res (gmap string Manifest)) (d : db) (secrets : secrets_t) (r : Request)
    : res CredentialDisclosure :=
  refuse (rq_Version r <> 2 \/ HasPrefix (rq_InstanceID r) "inst-" = false \/ (String.length (rq_InstanceID r) < 13)%nat
          \/ (80 < String.length (rq_InstanceID r))%nat \/ rq_ApplicationID r = "" \/ rq_CredentialID r = "")
  with "invalid credential request" in
  match catalog with
  | Err _ => Err (ErrMsg "trusted catalog unavailable")
  | Ok entries =>
      match entries !! rq_ApplicationID r with
      | None => Err (ErrMsg "application credential unavailable")
      | Some m =>
          match FindPresentedCredential m (rq_CredentialID r) with
          | None => Err (ErrMsg "application credential unavailable")
          | Some credential =>
              refuse (installed_as d (rq_InstanceID r) (rq_ApplicationID r) = false)
              with "installation credential unavailable" in
              match secrets !! (rq_InstanceID r, mpc_ComponentID credential, mpc_EnvironmentName credential) with
              | None => Err (ErrMsg "application credential unavailable")
              | Some row =>
                  refuse (String.length (sr_value row) <> 64%nat) with "application credential unavailable" in
                  refuse (decodes_hex (sr_value row) = false) with "application credential unavailable" in
                  Ok {| cd_ID := mpc_ID credential; cd_Label := mpc_Label credential;
                        cd_Username := mpc_Username credential; cd_Value := sr_value row |}
              end
          end
      end
  end.
