(* ===== verification/SecretsProps.v ===== *)
(** * Generated secrets: stability and disclosure *)

From S2P Require Import Prelude Protocol Exposure HelperDB Coordinator NetIP ExposurePolicy Containers Topology LifecycleStore MultiStore ReconciliationStore Ingress IngressProofs IngressRender Manifest ManifestProofs ManifestSamples ManifestProps HelperPlan HelperPlanProofs HelperCreate HelperPlanProps Secrets.
From stdpp Require Import base strings list gmap.
From Stdlib Require Import ZArith Lia Ascii.

Import Wire.
Open Scope Z_scope.

Definition secret_ok (s : string) : Prop := String.length s = 64%nat /\ decodes_hex s = true.
Definition secrets_sound (secrets : secrets_t) : Prop := map_Forall (fun _ row => secret_ok (sr_value row)) secrets.

(** [rand.Read] of 32 bytes fills them or fails. *)
Definition random_bytes (random : nat -> res (list N)) : Prop :=
  forall i raw, random i = Ok raw -> length raw = 32%nat /\ Forall (fun b => b < 256)%N raw.

Lemma text_untext l : Forall (fun b => b < 256)%N l -> text (untext l) = l.
Proof.
  induction 1 as [|b l Hb _ IH]; [done|]. unfold text, untext in *. simpl. rewrite IH. by rewrite N_ascii_embedding.
Qed.

Lemma hex_char_ok n : (n < 16)%N -> (hex_char n < 256)%N /\ is_Some (hex_value (hex_char n)).
Proof.
  intros Hn. unfold hex_char, hex_value, is_digit. destruct (n <? 10)%N eqn:E.
  - apply N.ltb_lt in E. assert (((48 <=? n + 48) && (n + 48 <=? 57))%N = true) as ->
      by (rewrite andb_true_iff, !N.leb_le; lia). split; [lia | by eexists].
  - apply N.ltb_ge in E. assert (((48 <=? n + 87) && (n + 87 <=? 57))%N = false) as ->
      by (rewrite andb_false_iff, !N.leb_gt; lia).
    assert (((97 <=? n + 87) && (n + 87 <=? 102))%N = true) as -> by (rewrite andb_true_iff, !N.leb_le; lia).
    split; [lia | by eexists].
Qed.

Lemma encoded_secret raw : length raw = 32%nat -> Forall (fun b => b < 256)%N raw -> secret_ok (EncodeToString raw).
Proof.
  intros Hl Hb. unfold EncodeToString. set (digits := concat (map _ raw)).
  assert (Forall (fun c => (c < 256)%N /\ is_Some (hex_value c)) digits) as Hd.
  { unfold digits. clear Hl. induction Hb as [|b raw Hb _ IH]; [constructor|]. simpl.
    rewrite !Forall_cons. split; [|split; [|exact IH]]; apply hex_char_ok.
    - apply N.Div0.div_lt_upper_bound; lia.
    - apply N.mod_lt. lia. }
  assert (length digits = 64%nat) as Hlen.
  { unfold digits. rewrite length_concat, map_map. simpl. clear Hd digits Hb.
    enough (forall l : list N, sum_list (map (fun _ => 2%nat) l) = (2 * length l)%nat) as -> by (rewrite Hl; done).
    induction l; simpl; lia. }
  assert (text (untext digits) = digits) as Ht by (apply text_untext; eapply Forall_impl; [exact Hd|]; naive_solver).
  split; [by rewrite <- length_text, Ht|]. unfold decodes_hex. rewrite <- length_text, Ht, Hlen. simpl.
  apply forallb_forall. intros c Hc%list_elem_of_In. rewrite Forall_forall in Hd. destruct (Hd c Hc) as [_ [v ->]]. done.
Qed.

Section resolved.
Context (installation component : string).

Lemma secret_value_spec random now i name secrets value secrets' :
  secret_value random now installation component i name secrets = (Ok value, secrets') ->
  secrets ⊆ secrets' /\ sr_value <$> secrets' !! (installation, component, name) = Some value /\
  (random_bytes random -> secrets_sound secrets -> secrets_sound secrets').
Proof.
  unfold secret_value. destruct (secrets !! (installation, component, name)) as [row|] eqn:E.
  - intros [= <- <-]. rewrite E. done.
  - destruct (random i) as [raw|] eqn:Hr; [|done]. intros [= <- <-]. split_and!.
    + by apply insert_subseteq.
    + by rewrite lookup_insert_eq.
    + intros Hrand Hs. apply map_Forall_insert_2; [|done]. apply Hrand in Hr as [? ?]. by apply encoded_secret.
Qed.

Lemma secret_value_kept random now i name secrets value : sr_value <$> secrets !! (installation, component, name) = Some value ->
  secret_value random now installation component i name secrets = (Ok value, secrets).
Proof. intros (row & Hrow & ->)%fmap_Some. unfold secret_value. by rewrite Hrow. Qed.

Lemma resolved_spec random now i variables secrets env secrets' :
  resolved_from random now installation component i variables secrets = (Ok env, secrets') ->
  secrets ⊆ secrets' /\ (random_bytes random -> secrets_sound secrets -> secrets_sound secrets') /\
  (forall v, v ∈ variables -> ev_Secret v = true -> exists row,
     secrets' !! (installation, component, ev_Name v) = Some row /\ (ev_Name v +:+ "=" +:+ sr_value row) ∈ env) /\
  (forall random' now' j later, secrets' ⊆ later ->
     resolved_from random' now' installation component j variables later = (Ok env, later)).
Proof.
  revert i secrets env. induction variables as [|v variables IH]; intros i secrets env; simpl.
  { intros [= <- <-]. split_and!; [done | done | by intros v ?%not_elem_of_nil | done]. }
  destruct (variable_value _ _ _ _ i v secrets) as [[value|] s1] eqn:Hv; [|done].
  destruct (resolved_from _ _ _ _ (S i) variables s1) as [[rest|] s2] eqn:Hr; [|done]. intros [= <- <-].
  apply IH in Hr as (Hsub & Hsound & Hin & Hst).
  assert (secrets ⊆ s1 /\ (random_bytes random -> secrets_sound secrets -> secrets_sound s1) /\
    (ev_Secret v = true -> sr_value <$> s1 !! (installation, component, ev_Name v) = Some value) /\
    forall random' now' j later, s1 ⊆ later ->
      variable_value random' now' installation component j v later = (Ok value, later)) as (H1 & H2 & H3 & H4).
  { unfold variable_value in *. destruct (ev_Secret v); [|simplify_eq; by split_and!].
    case_decide; [done|]. destruct (secret_value _ _ _ _ i (ev_Name v) secrets) as [[secret|] s] eqn:Es; [|done].
    case_decide as Hl; [done|]. injection Hv as <- <-. apply secret_value_spec in Es as (Ha & Hb & Hc). split_and!; try done.
    intros random' now' j later Hsub'. rewrite (secret_value_kept _ _ _ _ _ secret).
    { cbv beta iota. rewrite decide_False; [done | tauto]. }
    apply fmap_Some in Hb as (row & Hrow & ->). by rewrite (lookup_weaken _ _ _ _ Hrow Hsub'). }
  split_and!.
  - by etransitivity.
  - eauto.
  - intros w [->|Hw]%elem_of_cons Hs.
    + apply H3, fmap_Some in Hs as (row & Hrow & ->). exists row. split; [by eapply lookup_weaken | apply list_elem_of_here].
    + destruct (Hin w Hw Hs) as (row & ? & ?). exists row. split; [done | by apply list_elem_of_further].
  - intros random' now' j later Hlater. rewrite H4 by (by etransitivity). by rewrite Hst.
Qed.
End resolved.

Lemma presented_variable P Quote m id c : ValidateManifest P Quote m = Ok tt -> FindPresentedCredential m id = Some c ->
  mpc_ID c = id /\ exists e, environment_in m (mpc_ComponentID c) e /\ mev_Name e = mpc_EnvironmentName c /\ mev_Secret e = true.
Proof.
  intros Hv Hf. rewrite validate_spec in Hv. destruct (wf_credentials P m Hv) as [Hok Hnd].
  rewrite find_presented in Hf by done. destruct Hf as [(e & cr & He & Hcr & _ & _ & _ & Hn)%presented_in Hid].
  split; [done|]. exists e. rewrite Forall_forall in Hok.
  destruct (Hok _ (environment_in_all _ _ _ He) _ Hcr) as (_ & Hs & _). naive_solver.
Qed.

(** ** A disclosure request for the sample application *)
#[local] Instance set_rq_ApplicationID : Setter rq_ApplicationID := ltac:(mk_setter).
#[local] Instance set_rq_CredentialID : Setter rq_CredentialID := ltac:(mk_setter).

Definition fixed_random (i : nat) : res (list N) := Ok (repeat 171%N 32).

Definition pihole_variables : list EnvVar := map env_of (ma_Environment pihole).

Definition reveal_request : Request :=
  ProtocolProps.empty_request <| rq_Version := 2 |> <| rq_Operation := "RevealApplicationCredential" |>
    <| rq_InstanceID := "inst-0123456789ab" |> <| rq_ApplicationID := ma_ID pihole |> <| rq_CredentialID := "admin-password" |>.

Definition installed_pihole : db :=
  empty_db <| db_gens := {[ ("inst-0123456789ab", 1) :=
    {| g_operation := "op"; g_application := ma_ID pihole; g_release := "r"; g_status := GenActive; g_network_name := "";
       g_network_id := ""; g_plan_hash := ""; g_topology_hash := ""; g_data_path := ""; g_exposure_mode := "";
       g_service_id := ""; g_host_address := ""; g_host_port := 0; g_container_port := 0; g_service_protocol := "";
       g_created_at := ""; g_verified_at := None; g_committed_at := None; g_retired_at := None;
       g_cleanup := CleanupNotRequired |} ]} |>.

Module SecretClaims.
(** Resolving an environment again gives the same environment and records
    nothing, whatever random bytes are drawn and whatever other secrets were
    recorded in between: an installation keeps its secrets over restarts,
    updates and recreations. *)
Theorem environment_stable random now random' now' installation component variables secrets env secrets' later :
  resolvedEnvironment random now installation component variables secrets = (Ok env, secrets') -> secrets' ⊆ later ->
  resolvedEnvironment random' now' installation component variables later = (Ok env, later).
Proof. intros (_ & _ & _ & H)%resolved_spec Hs. by apply H. Qed.

Theorem environment_stable_witness :
  exists env, resolvedEnvironment (fun _ => Err (ErrMsg "no entropy")) "t2" "inst-1" "" pihole_variables
    (resolvedEnvironment fixed_random "t1" "inst-1" "" pihole_variables ∅).2 =
    (Ok env, (resolvedEnvironment fixed_random "t1" "inst-1" "" pihole_variables ∅).2).
Proof.
  assert (is_ok (resolvedEnvironment fixed_random "t1" "inst-1" "" pihole_variables ∅).1 = true) as Hok
    by (vm_compute; reflexivity).
  destruct (resolvedEnvironment fixed_random "t1" "inst-1" "" pihole_variables ∅) as [[env|e] s] eqn:E; [|done].
  exists env. simpl. apply (environment_stable fixed_random "t1" _ _ _ _ _ ∅ env s s E). reflexivity.
Defined.

(** C33. What an administrator is shown as a credential is what the container
    got: for a validated manifest, once the environment of the component that
    declares the credential was resolved, a well-formed request to reveal it
    returns the value of that variable, 64 hexadecimal digits, and nothing the
    manifest does not present is ever returned. *)
Theorem credential_shown_is_injected (P : string -> option URL) (Quote : string -> string) entries m random now d r c
    variables secrets env secrets' :
  entries !! rq_ApplicationID r = Some m -> ValidateManifest P Quote m = Ok tt -> random_bytes random -> secrets_sound secrets ->
  rq_Version r = 2 -> HasPrefix (rq_InstanceID r) "inst-" = true -> (13 <= String.length (rq_InstanceID r) <= 80)%nat ->
  rq_ApplicationID r <> "" -> rq_CredentialID r <> "" -> installed_as d (rq_InstanceID r) (rq_ApplicationID r) = true ->
  FindPresentedCredential m (rq_CredentialID r) = Some c ->
  (forall e, environment_in m (mpc_ComponentID c) e -> env_of e ∈ variables) ->
  resolvedEnvironment random now (rq_InstanceID r) (mpc_ComponentID c) variables secrets = (Ok env, secrets') ->
  exists value, revealApplicationCredential (Ok entries) d secrets' r =
      Ok {| cd_ID := rq_CredentialID r; cd_Label := mpc_Label c; cd_Username := mpc_Username c; cd_Value := value |} /\
    (mpc_EnvironmentName c +:+ "=" +:+ value) ∈ env /\ secret_ok value.
Proof.
  intros Hm Hv Hrand Hsound Hver Hpre Hlen Happ Hcred Hinst Hfind Hvars (_ & Hs & Hin & _)%resolved_spec.
  destruct (presented_variable P Quote m (rq_CredentialID r) c Hv Hfind) as (Hid & e & He & Hn & Hsec).
  destruct (Hin (env_of e) (Hvars e He) Hsec) as (row & Hrow & Henv). rewrite <- Hn. exists (sr_value row).
  pose proof (Hs Hrand Hsound _ _ Hrow) as Hok. split_and!; [|done..].
  unfold revealApplicationCredential. rewrite decide_False by (rewrite Hpre; intros [?|[?|[?|[?|[?|?]]]]]; (done || lia)).
  rewrite Hm, Hfind, decide_False by (by rewrite Hinst). change (ev_Name (env_of e)) with (mev_Name e) in Hrow.
  rewrite Hn in Hrow. rewrite Hrow. destruct Hok as [Hl Hh].
  rewrite decide_False by tauto. rewrite decide_False by (by rewrite Hh). by rewrite Hid.
Qed.

Theorem credential_shown_is_injected_witness :
  exists value, revealApplicationCredential (Ok two_entries) installed_pihole
      (resolvedEnvironment fixed_random "t1" "inst-0123456789ab" "" pihole_variables ∅).2 reveal_request =
    Ok {| cd_ID := "admin-password"; cd_Label := "Admin password"; cd_Username := ""; cd_Value := value |}.
Proof.
  assert (is_ok (resolvedEnvironment fixed_random "t1" "inst-0123456789ab" "" pihole_variables ∅).1 = true) as Hok
    by (vm_compute; reflexivity).
  destruct (resolvedEnvironment fixed_random "t1" "inst-0123456789ab" "" pihole_variables ∅) as [[env|e] s] eqn:E; [|done].
  destruct (credential_shown_is_injected https_uri plain_quote two_entries pihole fixed_random "t1" installed_pihole reveal_request
    {| mpc_ID := "admin-password"; mpc_Label := "Admin password"; mpc_Username := ""; mpc_ComponentID := "";
       mpc_EnvironmentName := "FTLCONF_webserver_api_password" |} pihole_variables ∅ env s) as (value & H & _).
  - vm_compute. reflexivity.
  - vm_compute. reflexivity.
  - intros i raw [= <-]. split; [reflexivity|]. repeat constructor.
  - apply map_Forall_empty.
  - reflexivity.
  - reflexivity.
  - vm_compute. lia.
  - discriminate.
  - discriminate.
  - vm_compute. reflexivity.
  - vm_compute. reflexivity.
  - intros x [[_ Hx]|(w & Hw & _)]; [by apply list_elem_of_fmap_2 | by apply not_elem_of_nil in Hw].
  - exact E.
  - exists value. exact H.
Defined.
End SecretClaims.
