(* ===== verification/BackupPlan.v ===== *)
(** * What a backup of an application is made of ([cmd/kitpro-helper/application_backup.go])

    The plan of a backup or of a restore: the components an installation is
    recorded to run, the managed directories its manifest classifies, the
    imported storage it is bound to and its generated secrets, each checked
    against the catalogue.  The catalogue and the test that a path is a
    directory are arguments; a query that fails is the caller's business. *)

From S2P Require Import Prelude Protocol Exposure HelperDB Coordinator NetIP Ingress Containers Topology LifecycleStore Manifest ExternalStorage Secrets.
From stdpp Require Import base strings list gmap sorting.
From Stdlib Require Import ZArith Lia Ascii.

Import Wire.
Open Scope Z_scope.

(** ** Data of the archive ([internal/appbackup/archive.go]) *)
Record BackupComponent : Type := { bc_ID : string; bc_ImageDigest : string; bc_DependsOn : list string }.

Record ArchivedStorage : Type := {
  as_Component : string;
  as_ID : string;
  as_Disposition : string;
  as_ArchivePath : string;
  as_OwnerUID : Z;
  as_OwnerGID : Z
}.

Record ImportedStorage : Type := {
  is_Component : string;
  is_SlotID : string;
  is_RootID : string;
  is_AccessMode : string;
  is_Filesystem : string;
  is_DeviceMajor : Z;
  is_DeviceMinor : Z;
  is_Inode : Z;
  is_NetworkBacked : bool;
  is_ContentIncluded : bool;
  is_ExclusionReason : string
}.

Record BackupDatabase : Type := {
  bd_Engine : string;
  bd_Component : string;
  bd_StorageID : string;
  bd_RelativePath : string;
  bd_IntegrityCheck : string
}.

Record BackupSecret : Type := { bs_Component : string; bs_Name : string; bs_Included : bool }.
Record ChecksumMetadata : Type := { cs_Algorithm : string; cs_IndexPath : string }.

(** [Manifest]; times are kept as their RFC 3339 text. *)
Record ArchiveManifest : Type := {
  am_Format : string;
  am_FormatVersion : Z;
  am_KITProVersion : string;
  am_CreatedAt : string;
  am_ApplicationID : string;
  am_InstallationID : string;
  am_ReleaseID : string;
  am_RuntimeGeneration : Z;
  am_Strategy : string;
  am_Components : list BackupComponent;
  am_Storage : list ArchivedStorage;
  am_ImportedStorage : list ImportedStorage;
  am_Databases : list BackupDatabase;
  am_Secrets : list BackupSecret;
  am_Checksum : ChecksumMetadata
}.

#[export] Instance ArchivedStorage_eq_dec : EqDecision ArchivedStorage.
Proof. solve_decision. Defined.
#[export] Instance ImportedStorage_eq_dec : EqDecision ImportedStorage.
Proof. solve_decision. Defined.
#[export] Instance BackupDatabase_eq_dec : EqDecision BackupDatabase.
Proof. solve_decision. Defined.

(** ** Data of the helper *)
Record managedBackupStorage : Type := { mg_Manifest : ArchivedStorage; mg_HostPath : string }.

Record ownedBackupComponent : Type := { oc_Manifest : BackupComponent; oc_Runtime : string; oc_Running : bool }.

Record secretValue : Type := { sv_Component : string; sv_Name : string; sv_Value : string }.
Record secretValues : Type := { svs_Version : Z; svs_Values : list secretValue }.

Record applicationBackupPlan : Type := {
  bp_Application : Manifest;
  bp_ReleaseID : string;
  bp_Generation : Z;
  bp_Components : list ownedBackupComponent;
  bp_Storage : list managedBackupStorage;
  bp_Imported : list ImportedStorage;
  bp_Secrets : secretValues;
  bp_StartOrder : list string
}.

Definition managedApplicationRoot : string := "/srv/kitpro/apps".

(** [^op-[a-f0-9]{32}$] *)
Definition backupIDPattern (s : string) : bool :=
  HasPrefix s "op-" && bool_decide (String.length s = 35%nat) && forallb is_hex (drop 3 (text s)).

Definition storageKey (component id : string) : string := component +:+ "/" +:+ id.
Definition pathJoin (parts : list string) : string := Protocol.join "/" parts.

(** ** Tables of the helper *)

(** [application_backups], keyed by [backup_id]; its status is always
    [complete]. *)
Record backupRow : Type := {
  bk_installation : string;
  bk_application : string;
  bk_release : string;
  bk_generation : Z;
  bk_archive_path : string;
  bk_archive_sha256 : string
}.

(** [component_ownership], keyed by installation and component. *)
Record ownedRow : Type := { on_container_id : string; on_image : string; on_generation : Z }.

Record plan_db : Type := {
  pd_helper : db;
  pd_storage : storage_db;
  pd_secrets : secrets_t;
  pd_owned : gmap (string * string) ownedRow;
  pd_backups : gmap string backupRow
}.
#[export] Instance plan_db_eta : Eta plan_db := fun d =>
  Build_plan_db (pd_helper d) (pd_storage d) (pd_secrets d) (pd_owned d) (pd_backups d).
#[export] Instance set_pd_helper : Setter pd_helper := ltac:(mk_setter).
#[export] Instance set_pd_secrets : Setter pd_secrets := ltac:(mk_setter).
#[export] Instance set_pd_backups : Setter pd_backups := ltac:(mk_setter).

(** ** Comparisons *)
Definition sort_strings_ascending (l : list string) : list string := sort_by id l.

Definition sameStringSet (left right : list string) : bool :=
  bool_decide (length left = length right) &&
  bool_decide (sort_strings_ascending left = sort_strings_ascending right).

Definition sameDatabaseInventory (got want : list BackupDatabase) : bool := bool_decide (got = want).

Definition image_reference (r : Release) : string :=
  mrl_Registry r +:+ "/" +:+ mrl_Repository r +:+ "@" +:+ mrl_Digest r.

Definition releaseImage (application : Manifest) (releaseID : string) : res string :=
  match find (fun r => bool_decide (mrl_Version r = releaseID)) (ma_Releases application) with
  | Some r => Ok (image_reference r)
  | None => Err (ErrMsg "trusted release unavailable")
  end.

Definition componentImage (application : Manifest) (component : ManifestComponent) : res string :=
  releaseImage application (mco_Release component).

(** The comparison of two lists of equal length, position by position. *)
Fixpoint all_same {A B} (same : A -> B -> bool) (l : list A) (l' : list B) : bool :=
  match l, l' with
  | a :: l, b :: l' => same a b && all_same same l l'
  | _, _ => true
  end.

Definition component_matches (got : BackupComponent) (want : ownedBackupComponent) : bool :=
  bool_decide (bc_ID got = bc_ID (oc_Manifest want)) &&
  bool_decide (bc_ImageDigest got = bc_ImageDigest (oc_Manifest want)).

(** [m.Backup] where the code follows the pointer: a plan is only loaded for a
    manifest that has one. *)
Definition backup_policy (m : Manifest) : BackupPolicy :=
  default {| mbp_Strategy := ""; mbp_Storage := [] |} (ma_Backup m).

Definition validateRestoreManifest (backup : ArchiveManifest) (request : Request) (plan : applicationBackupPlan)
    : res unit :=
  refuse (am_ApplicationID backup <> rq_ApplicationID request \/ am_InstallationID backup <> rq_InstanceID request
          \/ am_ReleaseID backup <> rq_ReleaseID request \/ am_RuntimeGeneration backup <> rq_RuntimeGeneration request
          \/ am_Strategy backup <> mbp_Strategy (backup_policy (bp_Application plan)))
  with "backup is incompatible with target installation" in
  refuse (length (am_Components backup) <> length (bp_Components plan)
          \/ length (am_Storage backup) <> length (bp_Storage plan)
          \/ length (am_ImportedStorage backup) <> length (bp_Imported plan))
  with "backup topology does not match target installation" in
  refuse (all_same component_matches (am_Components backup) (bp_Components plan) = false)
  with "backup component image does not match target" in
  refuse (all_same (fun a s => bool_decide (a = mg_Manifest s)) (am_Storage backup) (bp_Storage plan) = false)
  with "backup storage mapping does not match target" in
  refuse (all_same (fun a b => bool_decide (a = b)) (am_ImportedStorage backup) (bp_Imported plan) = false)
  with "imported storage must be reassociated before restore" in
  Ok tt.

(** ** The managed directories *)
Definition declared_storage (m : Manifest) : gmap string Storage :=
  foldl (fun acc c => foldl (fun acc s => <[storageKey (mco_ID c) (mst_ID s) := s]> acc) acc (mco_Storage c))
    (foldl (fun acc s => <[storageKey "app" (mst_ID s) := s]> acc) ∅ (ma_Storage m)) (ma_Components m).

Definition storage_path (application installation component id : string) : string :=
  let base := Ingress.Join [managedApplicationRoot; application; installation] in
  let base := if decide (component <> "app") then Ingress.Join [base; component] else base in
  Ingress.Join [base; id].

Definition storage_plan_step (is_dir : string -> bool) (m : Manifest) (installation : string)
    (result : list managedBackupStorage) (policy : BackupStorage) : res (list managedBackupStorage) :=
  match declared_storage m !! storageKey (mbs_Component policy) (mbs_ID policy) with
  | None => Err (ErrMsg "trusted backup storage unavailable")
  | Some item =>
      let hostPath := storage_path (ma_ID m) installation (mbs_Component policy) (mbs_ID policy) in
      refuse (is_dir hostPath = false) with "managed backup storage unavailable" in
      let archivePath := if decide (mbs_Disposition policy = "include")
                         then pathJoin ["application"; mbs_Component policy; mbs_ID policy] else "" in
      Ok (result ++ [{| mg_Manifest := {| as_Component := mbs_Component policy; as_ID := mbs_ID policy;
                          as_Disposition := mbs_Disposition policy; as_ArchivePath := archivePath;
                          as_OwnerUID := mst_OwnerUID item; as_OwnerGID := mst_OwnerGID item |};
                        mg_HostPath := hostPath |}])
  end.

Definition backupStoragePlan (is_dir : string -> bool) (application : Manifest) (installationID : string)
    : res (list managedBackupStorage) :=
  range (storage_plan_step is_dir application installationID) [] (mbp_Storage (backup_policy application)).

(** ** Imported storage *)
Definition declared_slots (m : Manifest) : gmap string ExternalStorage :=
  foldl (fun acc c => foldl (fun acc s => <[storageKey (mco_ID c) (mxs_ID s) := s]> acc) acc (mco_ExternalStorage c))
    (foldl (fun acc s => <[storageKey "app" (mxs_ID s) := s]> acc) ∅ (ma_ExternalStorage m)) (ma_Components m).

(** The component under which an archive lists what the tables record. *)
Definition archive_component (component : string) : string := if decide (component = "") then "app" else component.

(** The bindings of the installation joined with their roots,
    [ORDER BY component_id, slot_id]. *)
Definition bound_roots (installation : string) (d : storage_db) : list (string * string * bindingRow * rootRow) :=
  sort_by (fun x => x.1.1.1) (sort_by (fun x => x.1.1.2)
    (omap (fun kb : string * string * string * bindingRow =>
             (fun root => (kb.1.1.2, kb.1.2, kb.2, root)) <$> sd_roots d !! bi_root_id kb.2)
       (select (fun k _ => k.1.1 = installation) (sd_bindings d)))).

Definition imported_step (s : gmap string ExternalStorage * list ImportedStorage)
    (row : string * string * bindingRow * rootRow) : res (gmap string ExternalStorage * list ImportedStorage) :=
  let '(component, slot, binding, root) := row in
  let component := archive_component component in
  let key := storageKey component slot in
  match s.1 !! key with
  | None => Err (ErrMsg "trusted imported storage binding mismatch")
  | Some declaration =>
      refuse (mxs_Mode declaration <> bi_access_mode binding) with "trusted imported storage binding mismatch" in
      Ok (delete key s.1,
          s.2 ++ [{| is_Component := component; is_SlotID := slot; is_RootID := bi_root_id binding;
                     is_AccessMode := bi_access_mode binding; is_Filesystem := id_Filesystem (rt_identity root);
                     is_DeviceMajor := id_DeviceMajor (rt_identity root);
                     is_DeviceMinor := id_DeviceMinor (rt_identity root); is_Inode := id_Inode (rt_identity root);
                     is_NetworkBacked := id_NetworkBacked (rt_identity root); is_ContentIncluded := false;
                     is_ExclusionReason := "external-administrator-managed" |}])
  end.

Definition loadImportedBackupBindings (d : storage_db) (installationID : string) (application : Manifest)
    : res (list ImportedStorage) :=
  rbind (range imported_step (declared_slots application, []) (bound_roots installationID d)) (fun s =>
    refuse (map_Exists (fun _ missing => mxs_Required missing = true) s.1)
    with "required imported storage binding missing" in Ok s.2).

(** ** Generated secrets *)
Definition generated_variable (e : Env) : Prop := mev_Secret e = true /\ mev_Generate e <> "".
#[export] Instance generated_variable_dec e : Decision (generated_variable e).
Proof. unfold generated_variable. apply _. Defined.

Definition variable_keys (component : string) (variables : list Env) : list string :=
  map (fun e => storageKey component (mev_Name e)) (filter generated_variable variables).

Definition expected_secrets (m : Manifest) : gset string :=
  list_to_set (variable_keys "app" (ma_Environment m) ++
               flat_map (fun c => variable_keys (mco_ID c) (mco_Environment c)) (ma_Components m)).

(** The secrets of the installation, [ORDER BY component_id, name]. *)
Definition recorded_secrets (installation : string) (secrets : secrets_t) : list (string * string * string) :=
  sort_by (fun x => x.1.1) (sort_by (fun x => x.1.2)
    (map (fun kr : string * string * string * secretRow => (kr.1.1.2, kr.1.2, sr_value kr.2))
       (select (fun k _ => k.1.1 = installation) secrets))).

Definition secret_step (s : gset string * list secretValue) (row : string * string * string)
    : res (gset string * list secretValue) :=
  let '(component, name, value) := row in
  let component := archive_component component in
  let key := storageKey component name in
  refuse (key ∉ s.1 \/ String.length value <> 64%nat) with "generated secret inventory mismatch" in
  refuse (decodes_hex value = false) with "generated secret inventory invalid" in
  Ok (s.1 ∖ {[key]}, s.2 ++ [{| sv_Component := component; sv_Name := name; sv_Value := value |}]).

Definition loadBackupSecrets (secrets : secrets_t) (installationID : string) (application : Manifest)
    : res secretValues :=
  rbind (range secret_step (expected_secrets application, []) (recorded_secrets installationID secrets)) (fun s =>
    refuse (s.1 <> ∅) with "required generated secret missing" in
    Ok {| svs_Version := 1; svs_Values := s.2 |}).

(** What [readRestoreSecrets] does with the decoded payload of the archive;
    [payload] is [None] when decoding fails or text follows the value. *)
Definition restored_secret_step (expected : gset string) (seen : gset string) (value : secretValue)
    : res (gset string) :=
  let key := storageKey (sv_Component value) (sv_Name value) in
  refuse (key ∉ expected \/ key ∈ seen \/ String.length (sv_Value value) <> 64%nat)
  with "generated secret payload does not match catalog" in
  refuse (decodes_hex (sv_Value value) = false) with "invalid generated secret value" in
  Ok ({[key]} ∪ seen).

Definition readRestoreSecrets (payload : option secretValues) (application : Manifest) : res secretValues :=
  match payload with
  | None => Err (ErrMsg "invalid generated secret payload")
  | Some values =>
      refuse (svs_Version values <> 1) with "invalid generated secret payload" in
      let expected := expected_secrets application in
      rbind (range (restored_secret_step expected) ∅ (svs_Values values)) (fun seen =>
        refuse (size seen <> size expected) with "generated secret payload is incomplete" in Ok values)
  end.

(** The rows of the installation are replaced by those of the values; a value
    listed twice breaks the primary key. *)
Fixpoint insert_secrets (installation now : string) (values : list secretValue) (secrets : secrets_t)
    : res secrets_t :=
  match values with
  | [] => Ok secrets
  | v :: values =>
      let component := if decide (sv_Component v = "app") then "" else sv_Component v in
      let key := (installation, component, sv_Name v) in
      match secrets !! key with
      | Some _ => Err (ErrSQL "UNIQUE constraint failed: installation_secrets")
      | None => insert_secrets installation now values
                  (<[key := {| sr_value := sv_Value v; sr_created_at := now |}]> secrets)
      end
  end.

Definition replaced_secrets (installation now : string) (values : secretValues) (secrets : secrets_t)
    : res secrets_t :=
  insert_secrets installation now (svs_Values values) (filter (fun kr => kr.1.1.1 <> installation) secrets).

(** ** The recorded runtime *)
Record singleRuntimeOwnership : Type := {
  so_Generation : Z;
  so_ContainerID : string;
  so_Image : string;
  so_ApplicationID : string;
  so_ReleaseID : string
}.

(** SQLite may return either of two rows that need verification; the model
    takes the newer. *)
Definition loadSingleRuntime (d : db) (installation : string) : res singleRuntimeOwnership :=
  match head (merge_sort current_le (filter (fun g => cm_ID (gn_Component g) = "app")
          (generationSelect (fun k r => k.1 = installation /\
             (g_status r = GenActive \/ g_status r = GenVerificationRequired)) d))) with
  | Some g => Ok {| so_Generation := gn_Generation g; so_ContainerID := cm_ContainerID (gn_Component g);
                    so_Image := cm_Image (gn_Component g); so_ApplicationID := gn_ApplicationID g;
                    so_ReleaseID := gn_ReleaseID g |}
  | None =>
      match db_ownership d !! installation with
      | Some o => Ok {| so_Generation := ow_generation o; so_ContainerID := ow_container_id o;
                        so_Image := ow_image o; so_ApplicationID := ow_application o; so_ReleaseID := ow_release o |}
      | None => Err ErrNoRows
      end
  end.

(** The components of the active generation,
    [ORDER BY start_ordinal, component_id]. *)
Definition active_components (installation : string) (d : db) : list (string * compRow * Z * genRow) :=
  merge_sort (fun a b => c_ordinal a.1.1.2 <= c_ordinal b.1.1.2)
    (sort_by (fun x => x.1.1.1)
      (flat_map (fun kg : string * Z * genRow =>
         map (fun kc : string * Z * string * compRow => (kc.1.2, kc.2, kg.1.2, kg.2))
           (select (fun k _ => k.1 = kg.1) (db_comps d)))
         (select (fun k r => k.1 = installation /\ g_status r = GenActive) (db_gens d)))).

Definition owned_component (id image runtime : string) (dependsOn : list string) : ownedBackupComponent :=
  {| oc_Manifest := {| bc_ID := id; bc_ImageDigest := image; bc_DependsOn := dependsOn |};
     oc_Runtime := runtime; oc_Running := false |}.

Definition active_component_step (r : Request) (s : gmap string ownedBackupComponent * list string)
    (row : string * compRow * Z * genRow) : res (gmap string ownedBackupComponent * list string) :=
  let '(id, c, generation, g) := row in
  refuse (c_ordinal c <> Z.of_nat (length s.2) \/ g_application g <> rq_ApplicationID r
          \/ g_release g <> rq_ReleaseID r \/ generation <> rq_RuntimeGeneration r)
  with "trusted component generation or topology mismatch" in
  Ok (<[id := owned_component id (c_image c) (c_container_id c) (c_depends_on c)]> s.1, s.2 ++ [id]).

Definition legacy_component_step (r : Request) (owned : gmap string ownedBackupComponent)
    (row : string * ownedRow) : res (gmap string ownedBackupComponent) :=
  refuse (on_generation row.2 <> rq_RuntimeGeneration r) with "trusted component generation mismatch" in
  Ok (<[row.1 := owned_component row.1 (on_image row.2) (on_container_id row.2) []]> owned).

Definition legacy_rows (installation : string) (owned : gmap (string * string) ownedRow) : list (string * ownedRow) :=
  sort_by fst (map (fun kr : string * string * ownedRow => (kr.1.2, kr.2))
    (select (fun k _ => k.1 = installation) owned)).

Definition inherit_dependencies (owned : ownedBackupComponent) (component : ManifestComponent) : ownedBackupComponent :=
  if decide (bc_DependsOn (oc_Manifest owned) = [] /\ mco_DependsOn component <> [])
  then owned_component (bc_ID (oc_Manifest owned)) (bc_ImageDigest (oc_Manifest owned)) (oc_Runtime owned)
         (mco_DependsOn component)
  else owned.

Definition plan_component_step (m : Manifest) (owned : gmap string ownedBackupComponent)
    (components : list ownedBackupComponent) (component : ManifestComponent) : res (list ownedBackupComponent) :=
  match owned !! mco_ID component, componentImage m component with
  | Some o, Ok expectedImage =>
      refuse (bc_ImageDigest (oc_Manifest o) <> expectedImage) with "trusted component backup identity mismatch" in
      let o := inherit_dependencies o component in
      refuse (sameStringSet (bc_DependsOn (oc_Manifest o)) (mco_DependsOn component) = false)
      with "trusted component topology mismatch" in
      Ok (components ++ [o])
  | _, _ => Err (ErrMsg "trusted component backup identity mismatch")
  end.

Definition manifest_nodes (m : Manifest) : list Node :=
  map (fun c => {| n_ID := mco_ID c; n_DependsOn := mco_DependsOn c |}) (ma_Components m).

(** The components of the plan and the order in which they start. *)
Definition single_backup_components (d : plan_db) (m : Manifest) (r : Request)
    : res (list ownedBackupComponent * list string) :=
  match loadSingleRuntime (pd_helper d) (rq_InstanceID r), releaseImage m (rq_ReleaseID r) with
  | Err _, _ => Err (ErrMsg "trusted application ownership unavailable")
  | Ok _, Err _ => Err (ErrMsg "trusted application backup identity mismatch")
  | Ok owned, Ok expectedImage =>
      refuse (so_ApplicationID owned <> rq_ApplicationID r \/ so_ReleaseID owned <> rq_ReleaseID r
              \/ so_Generation owned <> rq_RuntimeGeneration r \/ so_Image owned <> expectedImage)
      with "trusted application backup identity mismatch" in
      Ok ([owned_component "app" expectedImage (so_ContainerID owned) []], ["app"])
  end.

Definition multi_backup_components (d : plan_db) (m : Manifest) (r : Request)
    : res (list ownedBackupComponent * list string) :=
  refuse (Some (rq_ReleaseID r) <> mrl_Version <$> head (ma_Releases m)) with "trusted application release mismatch" in
  rbind (range (active_component_step r) (∅, []) (active_components (rq_InstanceID r) (pd_helper d)))
    (fun '(active, persistedOrder) =>
  rbind (if decide (size active = 0%nat)
         then range (legacy_component_step r) active (legacy_rows (rq_InstanceID r) (pd_owned d)) else Ok active)
    (fun owned =>
  rbind (range (plan_component_step m owned) [] (ma_Components m)) (fun components =>
  refuse (size owned <> length (ma_Components m)) with "trusted component count mismatch" in
  if decide (persistedOrder <> []) then Ok (components, persistedOrder)
  else rbind (StartOrder (manifest_nodes m)) (fun order => Ok (components, order))))).

Definition loadApplicationBackupPlan (catalog : res (gmap string Manifest)) (is_dir : string -> bool) (d : plan_db)
    (r : Request) : res applicationBackupPlan :=
  refuse (backupIDPattern (SemanticOperationID r) = false \/ rq_InstanceID r = "" \/ rq_ApplicationID r = ""
          \/ rq_ReleaseID r = "" \/ rq_RuntimeGeneration r < 1)
  with "invalid application backup request" in
  match catalog with
  | Err _ => Err (ErrMsg "trusted catalog unavailable")
  | Ok entries =>
      match entries !! rq_ApplicationID r with
      | None => Err (ErrMsg "application backup policy unavailable")
      | Some m =>
          refuse (ma_Backup m = None) with "application backup policy unavailable" in
          rbind (match ma_Components m with
                 | [] => single_backup_components d m r
                 | _ => multi_backup_components d m r
                 end) (fun '(components, startOrder) =>
          rbind (backupStoragePlan is_dir m (rq_InstanceID r)) (fun storage =>
          rbind (loadImportedBackupBindings (pd_storage d) (rq_InstanceID r) m) (fun imported =>
          rbind (loadBackupSecrets (pd_secrets d) (rq_InstanceID r) m) (fun secrets =>
          Ok {| bp_Application := m; bp_ReleaseID := rq_ReleaseID r; bp_Generation := rq_RuntimeGeneration r;
                bp_Components := components; bp_Storage := storage; bp_Imported := imported;
                bp_Secrets := secrets; bp_StartOrder := startOrder |}))))
      end
  end.
