(* ===== verification/Restore.v ===== *)
(** * Restoring a backup ([cmd/kitpro-helper/application_backup.go],
    [cmd/kitpro-helper/restore_journal.go])

    A restore exchanges the managed directories of an application for the
    extracted ones by renaming, under a journal in the helper's database, and a
    restarted helper completes or undoes what was cut short.

    The file system is a finite map from paths to the directory trees at them:
    a tree has an identity (device and inode) and is whole until a removal of it
    fails part way.  The managed directories, their staging, rollback and
    failed paths are taken not to contain each other.  Everything outside the
    database is the environment: it decides which call fails, what the container
    engine answers, which time it is and when the process dies.

    The archive itself (its hash, its size, its extraction and the check of its
    SQLite files) is a record of results.  [os.Rename] refuses a directory at
    the new path, as Go's does. *)

From S2P Require Import Prelude Protocol Exposure HelperDB Coordinator NetIP Ingress Containers Manifest ExternalStorage Secrets BackupPlan.
From stdpp Require Import base strings list gmap sorting.
From Stdlib Require Import ZArith Lia Ascii.

Import Wire.
Open Scope Z_scope.

(** ** The file system *)
Record restorePathIdentity : Type := { pi_Device : Z; pi_Inode : Z }.
#[export] Instance restorePathIdentity_eq_dec : EqDecision restorePathIdentity.
Proof. solve_decision. Defined.

Record tree : Type := { tr_identity : restorePathIdentity; tr_whole : bool }.
#[export] Instance tree_eq_dec : EqDecision tree.
Proof. solve_decision. Defined.

Notation files := (gmap string tree).

(** ** Tables *)
Inductive restore_phase : Type :=
| RValidated | RStaged | RSwapping | RRuntimePending | RCommitted | RCleanupPending | RCompleted
| RRolledBack | RActionRequired.

Inductive swap_phase : Type :=
| SStaged | SRollbackPrepared | SRollbackDispatched | SRollbackConfirmed
| SActivePrepared | SActiveDispatched | SActiveConfirmed
| SCleanupPending | SCompleted | SRolledBack | SActionRequired.

#[export] Instance restore_phase_eq_dec : EqDecision restore_phase.
Proof. solve_decision. Defined.
#[export] Instance swap_phase_eq_dec : EqDecision swap_phase.
Proof. solve_decision. Defined.

(** [restore_operations], keyed by [operation_id].  The JSON columns are kept
    as what they encode. *)
Record restoreRow : Type := {
  ro_installation : string;
  ro_backup : string;
  ro_token : Z;
  ro_phase : restore_phase;
  ro_running : list string;
  ro_original_secrets : secretValues;
  ro_restored_secrets : secretValues;
  ro_started_at : string;
  ro_updated_at : string;
  ro_completed_at : option string;
  ro_cleanup_error : string;
  ro_error_detail : string
}.
#[export] Instance restoreRow_eta : Eta restoreRow := fun r => Build_restoreRow (ro_installation r) (ro_backup r)
  (ro_token r) (ro_phase r) (ro_running r) (ro_original_secrets r) (ro_restored_secrets r) (ro_started_at r)
  (ro_updated_at r) (ro_completed_at r) (ro_cleanup_error r) (ro_error_detail r).
#[export] Instance set_ro_token : Setter ro_token := ltac:(mk_setter).
#[export] Instance set_ro_phase : Setter ro_phase := ltac:(mk_setter).
#[export] Instance set_ro_running : Setter ro_running := ltac:(mk_setter).
#[export] Instance set_ro_updated_at : Setter ro_updated_at := ltac:(mk_setter).
#[export] Instance set_ro_completed_at : Setter ro_completed_at := ltac:(mk_setter).
#[export] Instance set_ro_cleanup_error : Setter ro_cleanup_error := ltac:(mk_setter).
#[export] Instance set_ro_error_detail : Setter ro_error_detail := ltac:(mk_setter).

(** [restore_storage_steps], keyed by operation and storage key. *)
Record swapRow : Type := {
  sw_original_path : string;
  sw_staged_path : string;
  sw_rollback_path : string;
  sw_original : restorePathIdentity;
  sw_staged : restorePathIdentity;
  sw_phase : swap_phase;
  sw_to_rollback_dispatched : bool;
  sw_to_rollback_confirmed : bool;
  sw_to_active_dispatched : bool;
  sw_to_active_confirmed : bool;
  sw_cleanup_dispatched : bool;
  sw_cleanup_confirmed : bool;
  sw_error_detail : string;
  sw_updated_at : string
}.
#[export] Instance swapRow_eta : Eta swapRow := fun r => Build_swapRow (sw_original_path r) (sw_staged_path r)
  (sw_rollback_path r) (sw_original r) (sw_staged r) (sw_phase r) (sw_to_rollback_dispatched r)
  (sw_to_rollback_confirmed r) (sw_to_active_dispatched r) (sw_to_active_confirmed r) (sw_cleanup_dispatched r)
  (sw_cleanup_confirmed r) (sw_error_detail r) (sw_updated_at r).
#[export] Instance set_sw_phase : Setter sw_phase := ltac:(mk_setter).
#[export] Instance set_sw_to_rollback_dispatched : Setter sw_to_rollback_dispatched := ltac:(mk_setter).
#[export] Instance set_sw_to_rollback_confirmed : Setter sw_to_rollback_confirmed := ltac:(mk_setter).
#[export] Instance set_sw_to_active_dispatched : Setter sw_to_active_dispatched := ltac:(mk_setter).
#[export] Instance set_sw_to_active_confirmed : Setter sw_to_active_confirmed := ltac:(mk_setter).
#[export] Instance set_sw_cleanup_dispatched : Setter sw_cleanup_dispatched := ltac:(mk_setter).
#[export] Instance set_sw_cleanup_confirmed : Setter sw_cleanup_confirmed := ltac:(mk_setter).
#[export] Instance set_sw_error_detail : Setter sw_error_detail := ltac:(mk_setter).
#[export] Instance set_sw_updated_at : Setter sw_updated_at := ltac:(mk_setter).

#[local] Instance set_rq_ApplicationID : Setter rq_ApplicationID := ltac:(mk_setter).
#[local] Instance set_rq_ReleaseID : Setter rq_ReleaseID := ltac:(mk_setter).
#[local] Instance set_rq_BackupID : Setter rq_BackupID := ltac:(mk_setter).

Record rdb : Type := {
  rd_plan : plan_db;
  rd_restores : gmap string restoreRow;
  rd_steps : gmap (string * string) swapRow
}.
#[export] Instance rdb_eta : Eta rdb := fun d => Build_rdb (rd_plan d) (rd_restores d) (rd_steps d).
#[export] Instance set_rd_plan : Setter rd_plan := ltac:(mk_setter).
#[export] Instance set_rd_restores : Setter rd_restores := ltac:(mk_setter).
#[export] Instance set_rd_steps : Setter rd_steps := ltac:(mk_setter).

(** A transaction on the tables of the coordinator. *)
Definition on_helper {A} (m : tx db A) : tx rdb A := fun d =>
  match m (pd_helper (rd_plan d)) with
  | Ok (a, h) => Ok (a, d <| rd_plan := rd_plan d <| pd_helper := h |> |>)
  | Err e => Err e
  end.

Record restoreStorageJournal : Type := {
  rj_Key : string;
  rj_OriginalPath : string;
  rj_StagedPath : string;
  rj_RollbackPath : string;
  rj_Original : restorePathIdentity;
  rj_Staged : restorePathIdentity;
  rj_Phase : swap_phase
}.

Record restoreJournal : Type := {
  jo_OperationID : string;
  jo_InstallationID : string;
  jo_BackupID : string;
  jo_Phase : restore_phase;
  jo_FencingToken : Z;
  jo_Running : gmap string bool;
  jo_OriginalSecrets : secretValues;
  jo_RestoredSecrets : secretValues;
  jo_Storage : list restoreStorageJournal
}.

(** ** Statements of the journal *)
Definition staged_mark : string := ".kitpro-restore-new-".
Definition rollback_mark : string := ".kitpro-restore-rollback-".
Definition failed_mark : string := ".kitpro-restore-failed-".

(** [filepath.Base] of a cleaned absolute path *)
Definition last_element (path : string) : string :=
  untext (List.last (split_at 47 (text path) []) []).

Definition validateRestoreJournalPath (name suffix : string) : res unit :=
  let clean := Clean name in
  let root := Clean managedApplicationRoot +:+ "/" in
  refuse (HasPrefix clean root = false \/ (suffix <> "" /\ Contains (last_element clean) suffix = false))
  with "restore journal path is outside exact managed storage scope" in Ok tt.

Definition lease_covers (allowRecovery : bool) (s : lease_state_t) : bool :=
  match s with
  | LeaseHeld => true
  | LeaseRecoveryRequired => allowRecovery
  | LeaseReleased => false
  end.

Definition verifyRestoreFence (installation operation : string) (token : Z) (allowRecovery : bool) (d : rdb) : res unit :=
  let h := pd_helper (rd_plan d) in
  match db_leases h !! installation with
  | None => Err ErrNoRows
  | Some l =>
      if lease_covers allowRecovery (ls_state l) then
        match db_ops h !! ls_operation l with
        | None => Err ErrNoRows
        | Some o =>
            match op_token o with
            | None => Err (ErrSQL "converting NULL to int64 is unsupported")
            | Some operationToken =>
                refuse (ls_operation l <> operation \/ ls_token l <> token \/ operationToken <> token)
                with "stale restore fencing token" in Ok tt
            end
        end
      else Err ErrNoRows
  end.

Definition insert_restore (operation : string) (row : restoreRow) (d : rdb) : res rdb :=
  match rd_restores d !! operation, db_ops (pd_helper (rd_plan d)) !! operation with
  | Some _, _ => Err (ErrSQL "UNIQUE constraint failed: restore_operations.operation_id")
  | None, None => Err (ErrSQL "FOREIGN KEY constraint failed")
  | None, Some _ => Ok (d <| rd_restores := <[operation := row]> (rd_restores d) |>)
  end.

Definition insert_step (operation key : string) (row : swapRow) (d : rdb) : res rdb :=
  match rd_steps d !! (operation, key) with
  | Some _ => Err (ErrSQL "UNIQUE constraint failed: restore_storage_steps")
  | None => Ok (d <| rd_steps := <[(operation, key) := row]> (rd_steps d) |>)
  end.

Definition update_restores (P : string -> restoreRow -> Prop) `{!forall k r, Decision (P k r)}
    (f : restoreRow -> restoreRow) : tx rdb nat := fun d =>
  Ok (affected P (rd_restores d), d <| rd_restores := update P f (rd_restores d) |>).

Definition update_steps (P : string * string -> swapRow -> Prop) `{!forall k r, Decision (P k r)}
    (f : swapRow -> swapRow) : tx rdb nat := fun d =>
  Ok (affected P (rd_steps d), d <| rd_steps := update P f (rd_steps d) |>).

Definition running_ids (running : gmap string bool) : list string :=
  sort_strings_ascending (map fst (filter (fun kb => kb.2 = true) (map_to_list running))).

Definition updateRestoreRuntimeIntent (operationID : string) (token : Z) (running : gmap string bool) (now : string)
    : tx rdb unit :=
  let* changed := update_restores (fun k r => k = operationID /\ ro_token r = token /\ ro_phase r = RStaged)
        (fun r => r <| ro_running := running_ids running |> <| ro_phase := RSwapping |> <| ro_updated_at := now |>) in
  tassert (changed = 1%nat) "restore runtime intent transition lost".

Definition updateRestoreStep (operationID key : string) (phase : swap_phase) (fields : swapRow -> swapRow)
    (now : string) : tx rdb unit :=
  let* changed := update_steps (fun k _ => k = (operationID, key))
        (fun r => fields (r <| sw_phase := phase |> <| sw_updated_at := now |>)) in
  tassert (changed = 1%nat) "restore storage phase transition lost".

Definition boundedRestoreError (detail : string) : string :=
  let detail := TrimSpace detail in
  if decide (512 < String.length detail)%nat then String.substring 0 512 detail else detail.

Definition completes (phase : restore_phase) : bool := bool_decide (phase = RCompleted \/ phase = RRolledBack).

Definition updateRestoreOperation (operationID : string) (phase : restore_phase) (detail now : string) : tx rdb unit :=
  let* _ := update_restores (fun k _ => k = operationID)
        (fun r => r <| ro_phase := phase |> <| ro_error_detail := boundedRestoreError detail |>
           <| ro_cleanup_error := if decide (phase = RCompleted) then "" else ro_cleanup_error r |>
           <| ro_updated_at := now |>
           <| ro_completed_at := if completes phase then Some now else ro_completed_at r |>) in
  tret tt.

Definition markRestoreStepsActionRequired (operationID detail now : string) : tx rdb unit :=
  let* changed := update_steps (fun k r => k.1 = operationID /\ sw_phase r <> SCompleted /\ sw_phase r <> SRolledBack)
        (fun r => r <| sw_phase := SActionRequired |> <| sw_error_detail := boundedRestoreError detail |>
           <| sw_updated_at := now |>) in
  tassert (changed <> 0%nat) "restore recovery has no unresolved storage steps".

Definition recordStepError (operationID key detail now : string) : tx rdb unit :=
  let* _ := update_steps (fun k _ => k = (operationID, key))
        (fun r => r <| sw_error_detail := boundedRestoreError detail |> <| sw_updated_at := now |>) in tret tt.

Definition recordCleanupDeferred (operationID now : string) : tx rdb unit :=
  let* _ := update_restores (fun k _ => k = operationID)
        (fun r => r <| ro_phase := RCleanupPending |> <| ro_cleanup_error := "rollback cleanup deferred" |>
           <| ro_updated_at := now |>) in tret tt.

Definition replaceSecrets (installationID : string) (values : secretValues) (now : string) : tx rdb unit := fun d =>
  match replaced_secrets installationID now values (pd_secrets (rd_plan d)) with
  | Ok secrets => Ok (tt, d <| rd_plan := rd_plan d <| pd_secrets := secrets |> |>)
  | Err e => Err e
  end.

(** ** Reading the journal *)
Definition unresolved (phase : restore_phase) : bool :=
  match phase with
  | RValidated | RStaged | RSwapping | RRuntimePending | RCommitted | RActionRequired => true
  | RCleanupPending | RCompleted | RRolledBack => false
  end.

Definition journal_item (kr : string * string * swapRow) : restoreStorageJournal :=
  {| rj_Key := kr.1.2; rj_OriginalPath := sw_original_path kr.2; rj_StagedPath := sw_staged_path kr.2;
     rj_RollbackPath := sw_rollback_path kr.2; rj_Original := sw_original kr.2; rj_Staged := sw_staged kr.2;
     rj_Phase := sw_phase kr.2 |}.

Definition journal_items (operationID : string) (d : rdb) : list restoreStorageJournal :=
  sort_by rj_Key (map journal_item (select (fun k _ => k.1 = operationID) (rd_steps d))).

Definition item_paths_valid (item : restoreStorageJournal) : bool :=
  is_ok (validateRestoreJournalPath (rj_OriginalPath item) "") &&
  is_ok (validateRestoreJournalPath (rj_StagedPath item) staged_mark) &&
  is_ok (validateRestoreJournalPath (rj_RollbackPath item) rollback_mark).

Definition loadRestoreJournal (operationID : string) (d : rdb) : res restoreJournal :=
  match rd_restores d !! operationID with
  | None => Err ErrNoRows
  | Some r =>
      let items := journal_items operationID d in
      refuse (forallb item_paths_valid items = false) with "restore journal contains an invalid path" in
      Ok {| jo_OperationID := operationID; jo_InstallationID := ro_installation r; jo_BackupID := ro_backup r;
            jo_Phase := ro_phase r; jo_FencingToken := ro_token r;
            jo_Running := list_to_map (map (fun id => (id, true)) (ro_running r));
            jo_OriginalSecrets := ro_original_secrets r; jo_RestoredSecrets := ro_restored_secrets r;
            jo_Storage := items |}
  end.

Definition restoreBlocksInstallation (installation operationID : string) (d : rdb) : bool :=
  bool_decide (affected (fun k r => ro_installation r = installation /\ k <> operationID /\ unresolved (ro_phase r) = true)
                 (rd_restores d) <> 0%nat).

Definition restoreOperationNeedsRecovery (operationID : string) (d : rdb) : bool :=
  bool_decide (affected (fun k r => k = operationID /\ unresolved (ro_phase r) = true) (rd_restores d) <> 0%nat).

(** ** Programs *)
Definition errRestoreInterrupted : error := ErrMsg "simulated restore process interruption".

(** What the hook used by tests answers; without one it is always [HookGo]. *)
Inductive hook_answer : Type := HookGo | HookInterrupts | HookFails (e : error).

(** What surrounds the restore.  [rh_dies]: the process dies here; [rh_fault]:
    a statement or a query fails and is rolled back; [rh_lstat], [rh_rename],
    [rh_copy] and [rh_remove]: the call fails, the last two possibly after part
    of the work; [rh_identity]: the identity of a new directory; [rh_inspect]:
    the [Running] field of the state the engine reports, if it is there. *)
Class RestoreHost (E : Type) : Type := {
  rh_dies : E -> bool * E;
  rh_now : E -> string * E;
  rh_fault : E -> option error * E;
  rh_lstat : string -> E -> option error * E;
  rh_rename : string -> string -> E -> option error * E;
  rh_identity : E -> restorePathIdentity * E;
  rh_copy : string -> E -> option (error * bool) * E;
  rh_remove : string -> E -> option (error * bool) * E;
  rh_inspect : string -> E -> res (option bool) * E;
  rh_start : string -> E -> res unit * E;
  rh_stop : string -> E -> res unit * E;
  rh_hook : string -> string -> E -> hook_answer * E
}.

Inductive engine_call : Type := EStart (id : string) | EStop (id : string).

(** The calls that change the state of a container are recorded with the
    directories and the secrets at that moment; the record is only used to
    state what the programs do. *)
Record rworld (E : Type) : Type := RWorld {
  rw_db : rdb;
  rw_fs : files;
  rw_log : list (engine_call * files * secrets_t);
  rw_env : E
}.
Arguments RWorld {E} _ _ _ _.
Arguments rw_db {E} _.
Arguments rw_fs {E} _.
Arguments rw_log {E} _.
Arguments rw_env {E} _.

Inductive rout (E A : Type) : Type :=
| Ended (a : A) (w : rworld E)
| Killed (w : rworld E).
Arguments Ended {E A} a w.
Arguments Killed {E A} w.

Definition rprog (E A : Type) : Type := rworld E -> rout E A.

Definition pret {E A} (a : A) : rprog E A := Ended a.
Definition pbind {E A B} (m : rprog E A) (f : A -> rprog E B) : rprog E B := fun w =>
  match m w with Ended a w' => f a w' | Killed w' => Killed w' end.

(** [x, err := m; if err != nil { h }; k] *)
Definition ptry {E A B} (m : rprog E (res A)) (h : error -> rprog E B) (k : A -> rprog E B) : rprog E B :=
  pbind m (fun r => match r with Ok a => k a | Err e => h e end).

Notation "'run*' x ':=' m 'in' k" := (pbind m (fun x => k))
  (at level 10, x name, m at level 100, k at level 200) : kit_scope.
Notation "'try*' x ':=' m 'catch' e '=>' h 'in' k" := (ptry m (fun e => h) (fun x => k))
  (at level 10, x name, e name, m at level 100, h at level 100, k at level 200) : kit_scope.

(** The archive of the backup as the helper finds it, and the directory
    archives are kept in ([KITPRO_APPLICATION_BACKUP_DIR]). *)
Record archive : Type := {
  ar_directory : string;
  ar_sha256 : string -> res string;
  ar_measure : res Z;
  ar_space : Z -> res unit;
  ar_workspace : res unit;
  ar_extract : res ArchiveManifest;
  ar_secrets : option secretValues;
  ar_databases : res (list BackupDatabase)
}.

Section programs.
Context {E : Type} `{Host : RestoreHost E}.

(** Every call gives the process a chance to die first. *)
Definition alive {A} (k : rprog E A) : rprog E A := fun w =>
  let (dies, e) := rh_dies (rw_env w) in
  let w' := RWorld (rw_db w) (rw_fs w) (rw_log w) e in
  if dies then Killed w' else k w'.

(** One transaction, or one statement outside a transaction. *)
Definition rstore {A} (m : string -> tx rdb A) : rprog E (res A) :=
  alive (fun w =>
    let (now, e) := rh_now (rw_env w) in
    match rh_fault e with
    | (Some err, e') => Ended (Err err) (RWorld (rw_db w) (rw_fs w) (rw_log w) e')
    | (None, e') =>
        let (r, d') := atomically (m now) (rw_db w) in Ended r (RWorld d' (rw_fs w) (rw_log w) e')
    end).

(** A read of the database and of the directories. *)
Definition rquery {A} (q : rdb -> files -> res A) : rprog E (res A) :=
  alive (fun w => match rh_fault (rw_env w) with
    | (Some err, e) => Ended (Err err) (RWorld (rw_db w) (rw_fs w) (rw_log w) e)
    | (None, e) => Ended (q (rw_db w) (rw_fs w)) (RWorld (rw_db w) (rw_fs w) (rw_log w) e)
    end).

Definition runRestoreFault (point key : string) : rprog E hook_answer :=
  alive (fun w => let (a, e) := rh_hook point key (rw_env w) in
    Ended a (RWorld (rw_db w) (rw_fs w) (rw_log w) e)).

(** *** Directories *)
Definition pathIdentity (name : string) : rprog E (res (option restorePathIdentity)) :=
  alive (fun w => match rh_lstat name (rw_env w) with
    | (Some err, e) => Ended (Err err) (RWorld (rw_db w) (rw_fs w) (rw_log w) e)
    | (None, e) => Ended (Ok (tr_identity <$> rw_fs w !! name)) (RWorld (rw_db w) (rw_fs w) (rw_log w) e)
    end).

Definition exactPathIdentity (name : string) (want : restorePathIdentity) : rprog E (res bool) :=
  ptry (pathIdentity name) (fun e => pret (Err e)) (fun got => pret (Ok (bool_decide (got = Some want)))).

Definition moved (old new : string) (fs : files) : res files :=
  match fs !! old, fs !! new with
  | None, _ => Err (ErrMsg "no such file or directory")
  | Some _, Some _ => Err (ErrMsg "file exists")
  | Some t, None => Ok (<[new := t]> (delete old fs))
  end.

Definition rename (old new : string) : rprog E (res unit) :=
  alive (fun w => match rh_rename old new (rw_env w) with
    | (Some err, e) => Ended (Err err) (RWorld (rw_db w) (rw_fs w) (rw_log w) e)
    | (None, e) =>
        match moved old new (rw_fs w) with
        | Ok fs => Ended (Ok tt) (RWorld (rw_db w) fs (rw_log w) e)
        | Err err => Ended (Err err) (RWorld (rw_db w) (rw_fs w) (rw_log w) e)
        end
    end).

Definition broken (t : tree) : tree := {| tr_identity := tr_identity t; tr_whole := false |}.

Definition removeBackupTree (name : string) : rprog E (res unit) :=
  alive (fun w => match rh_remove name (rw_env w) with
    | (Some (err, progress), e) =>
        let fs := if progress then alter broken name (rw_fs w) else rw_fs w in
        Ended (Err err) (RWorld (rw_db w) fs (rw_log w) e)
    | (None, e) => Ended (Ok tt) (RWorld (rw_db w) (delete name (rw_fs w)) (rw_log w) e)
    end).

(** The identity belongs to no directory there is. *)
Definition unused (i : restorePathIdentity) (fs : files) : Prop := map_Forall (fun _ t => tr_identity t <> i) fs.

(** [appbackup.CopyTree] to a path where nothing is; an identity in use is
    never given to a new directory. *)
Definition CopyTree (name : string) : rprog E (res unit) :=
  alive (fun w =>
    let (i, e) := rh_identity (rw_env w) in
    if decide (unused i (rw_fs w) /\ rw_fs w !! name = None) then
      match rh_copy name e with
      | (Some (err, progress), e) =>
          let fs := if progress then <[name := {| tr_identity := i; tr_whole := false |}]> (rw_fs w) else rw_fs w in
          Ended (Err err) (RWorld (rw_db w) fs (rw_log w) e)
      | (None, e) =>
          Ended (Ok tt) (RWorld (rw_db w) (<[name := {| tr_identity := i; tr_whole := true |}]> (rw_fs w)) (rw_log w) e)
      end
    else Ended (Err (ErrMsg "file exists")) (RWorld (rw_db w) (rw_fs w) (rw_log w) e)).

(** *** The container engine *)
Definition inspect (id : string) : rprog E (res (option bool)) :=
  alive (fun w => let (r, e) := rh_inspect id (rw_env w) in
    Ended r (RWorld (rw_db w) (rw_fs w) (rw_log w) e)).

Definition engine (f : E -> res unit * E) (c : engine_call) : rprog E (res unit) :=
  alive (fun w => let (r, e) := f (rw_env w) in
    Ended r (RWorld (rw_db w) (rw_fs w) (rw_log w ++ [(c, rw_fs w, pd_secrets (rd_plan (rw_db w)))]) e)).

Definition start (id : string) : rprog E (res unit) := engine (rh_start id) (EStart id).
Definition stop (id : string) : rprog E (res unit) := engine (rh_stop id) (EStop id).

Definition runtimeRunning (observed : option bool) : bool := default false observed.

(** [byID[id]]; a component that is not there has no runtime. *)
Definition component_by_id (plan : applicationBackupPlan) (id : string) : option ownedBackupComponent :=
  (foldl (fun acc c => <[bc_ID (oc_Manifest c) := c]> acc) (∅ : gmap string ownedBackupComponent)
     (bp_Components plan)) !! id.

Definition runtime_of (plan : applicationBackupPlan) (id : string) : string :=
  match component_by_id plan id with Some c => oc_Runtime c | None => "" end.

Definition was_running (running : gmap string bool) (id : string) : bool := default false (running !! id).

Fixpoint resume_from (plan : applicationBackupPlan) (running : gmap string bool) (order : list string)
    : rprog E (res unit) :=
  match order with
  | [] => pret (Ok tt)
  | id :: order =>
      if decide (runtime_of plan id = "" \/ was_running running id = false) then resume_from plan running order
      else
        try* _ := start (runtime_of plan id) catch e => pret (Err e) in
        run* observed := inspect (runtime_of plan id) in
        match observed with
        | Ok state =>
            if runtimeRunning state then resume_from plan running order
            else pret (Err (ErrMsg "application runtime did not return to the running state"))
        | Err _ => pret (Err (ErrMsg "application runtime did not return to the running state"))
        end
  end.

Definition resumeBackupRuntime (plan : applicationBackupPlan) (running : gmap string bool) : rprog E (res unit) :=
  resume_from plan running (bp_StartOrder plan).

(** Components are stopped in the reverse of their start order. *)
Fixpoint quiesce_from (plan : applicationBackupPlan) (running : gmap string bool) (order : list string)
    : rprog E (res unit) :=
  match order with
  | [] => pret (Ok tt)
  | id :: order =>
      if decide (runtime_of plan id = "" \/ was_running running id = false) then quiesce_from plan running order
      else
        try* _ := stop (runtime_of plan id)
        catch e => pbind (resumeBackupRuntime plan running)
                     (fun _ => pret (Err (ErrWrap "stop application for backup" e))) in
        run* observed := inspect (runtime_of plan id) in
        match observed with
        | Ok state =>
            if runtimeRunning state
            then pbind (resumeBackupRuntime plan running) (fun _ => pret (Err (ErrMsg "application did not quiesce")))
            else quiesce_from plan running order
        | Err _ => pbind (resumeBackupRuntime plan running) (fun _ => pret (Err (ErrMsg "application did not quiesce")))
        end
  end.

Definition quiesceRecordedBackupRuntime (plan : applicationBackupPlan) (running : gmap string bool)
    : rprog E (res unit) :=
  quiesce_from plan running (rev (bp_StartOrder plan)).

(** [snapshotBackupRuntime(runtime, plan, false)] *)
Fixpoint snapshot_from (components : list ownedBackupComponent) (running : gmap string bool)
    : rprog E (res (gmap string bool)) :=
  match components with
  | [] => pret (Ok running)
  | c :: components =>
      if decide (oc_Runtime c = "") then snapshot_from components running
      else
        try* state := inspect (oc_Runtime c)
        catch e => pret (Err (ErrWrap "inspect application before backup" e)) in
        match state with
        | None => pret (Err (ErrMsg "runtime did not report application state"))
        | Some isRunning => snapshot_from components (<[bc_ID (oc_Manifest c) := isRunning]> running)
        end
  end.

Definition snapshotBackupRuntime (plan : applicationBackupPlan) : rprog E (res (gmap string bool)) :=
  snapshot_from (bp_Components plan) ∅.

(** Every failure is joined to the result, which the caller ignores. *)
Fixpoint stop_from (plan : applicationBackupPlan) (order : list string) : rprog E unit :=
  match order with
  | [] => pret tt
  | id :: order =>
      if decide (runtime_of plan id = "") then stop_from plan order
      else
        run* observed := inspect (runtime_of plan id) in
        match observed with
        | Ok state =>
            if runtimeRunning state then pbind (stop (runtime_of plan id)) (fun _ => stop_from plan order)
            else stop_from plan order
        | Err _ => stop_from plan order
        end
  end.

Definition stopBackupRuntime (plan : applicationBackupPlan) : rprog E unit :=
  stop_from plan (rev (bp_StartOrder plan)).

(** *** Beginning the journal *)
Definition clock : rprog E string :=
  alive (fun w => let (now, e) := rh_now (rw_env w) in
    Ended now (RWorld (rw_db w) (rw_fs w) (rw_log w) e)).

Definition storage_key (s : managedBackupStorage) : string := storageKey (as_Component (mg_Manifest s)) (as_ID (mg_Manifest s)).

Definition included_storage (plan : applicationBackupPlan) : list managedBackupStorage :=
  filter (fun s => as_Disposition (mg_Manifest s) = "include") (bp_Storage plan).

(** [m[key]] of a map of strings *)
Definition path_at (m : gmap string string) (key : string) : string := default "" (m !! key).

Definition staged_row (originalPath stagedPath rollbackPath : string) (original staged : restorePathIdentity)
    (now : string) : swapRow :=
  {| sw_original_path := originalPath; sw_staged_path := stagedPath; sw_rollback_path := rollbackPath;
     sw_original := original; sw_staged := staged; sw_phase := SStaged; sw_to_rollback_dispatched := false;
     sw_to_rollback_confirmed := false; sw_to_active_dispatched := false; sw_to_active_confirmed := false;
     sw_cleanup_dispatched := false; sw_cleanup_confirmed := false; sw_error_detail := ""; sw_updated_at := now |}.

(** The statements of the transaction are collected in [d]; nothing else
    writes to the database meanwhile. *)
Fixpoint journal_storage (operation now : string) (newPaths rollbackPaths : gmap string string)
    (storage : list managedBackupStorage) (d : rdb) : rprog E (res rdb) :=
  match storage with
  | [] => pret (Ok d)
  | s :: storage =>
      let key := storage_key s in
      let originalPath := mg_HostPath s in
      let stagedPath := path_at newPaths key in
      let rollbackPath := path_at rollbackPaths key in
      match validateRestoreJournalPath originalPath "", validateRestoreJournalPath stagedPath staged_mark,
            validateRestoreJournalPath rollbackPath rollback_mark with
      | Err e, _, _ | Ok _, Err e, _ | Ok _, Ok _, Err e => pret (Err e)
      | Ok _, Ok _, Ok _ =>
          run* original := pathIdentity originalPath in
          match original with
          | Ok (Some originalIdentity) =>
              run* staged := pathIdentity stagedPath in
              match staged with
              | Ok (Some stagedIdentity) =>
                  match insert_step operation key
                          (staged_row originalPath stagedPath rollbackPath originalIdentity stagedIdentity now) d with
                  | Ok d => journal_storage operation now newPaths rollbackPaths storage d
                  | Err e => pret (Err e)
                  end
              | _ => pret (Err (ErrMsg "staged restore storage identity unavailable"))
              end
          | _ => pret (Err (ErrMsg "original restore storage identity unavailable"))
          end
      end
  end.

Definition validated_row (request : Request) (token : Z) (original restored : secretValues) (now : string) : restoreRow :=
  {| ro_installation := rq_InstanceID request; ro_backup := rq_BackupID request; ro_token := token;
     ro_phase := RValidated; ro_running := []; ro_original_secrets := original; ro_restored_secrets := restored;
     ro_started_at := now; ro_updated_at := now; ro_completed_at := None; ro_cleanup_error := "";
     ro_error_detail := "" |}.

Definition journal_staged (operation now : string) (d : rdb) : rdb :=
  d <| rd_restores := update (fun k _ => k = operation)
         (fun r => r <| ro_phase := RStaged |> <| ro_updated_at := now |>) (rd_restores d) |>.

Definition beginRestoreJournal (request : Request) (token : Z) (plan : applicationBackupPlan) (restored : secretValues)
    (newPaths rollbackPaths : gmap string string) : rprog E (res unit) :=
  run* now := clock in
  try* d := rquery (fun d _ =>
      rbind (verifyRestoreFence (rq_InstanceID request) (rq_OperationID request) token false d) (fun _ =>
      insert_restore (rq_OperationID request) (validated_row request token (bp_Secrets plan) restored now) d))
  catch e => pret (Err e) in
  try* d := journal_storage (rq_OperationID request) now newPaths rollbackPaths (included_storage plan) d
  catch e => pret (Err e) in
  rstore (fun _ _ => Ok (tt, journal_staged (rq_OperationID request) now d)).

(** *** Exchanging the directories *)
Inductive swap_result : Type :=
| Swapped
| KeepStaging (e : error)
| RollBack (cause : error).

Section restore.
Context (request : Request) (token : Z) (plan : applicationBackupPlan) (rollbackPaths : gmap string string)
        (journaled : bool).

Definition op : string := rq_OperationID request.

(** A statement of the journal, if there is one. *)
Definition journal (m : string -> tx rdb unit) : rprog E (res unit) := if journaled then rstore m else pret (Ok tt).

Definition step (key : string) (phase : swap_phase) (fields : swapRow -> swapRow) : rprog E (res unit) :=
  journal (updateRestoreStep op key phase fields).

Definition fault (point key : string) : rprog E hook_answer :=
  if journaled then runRestoreFault point key else pret HookGo.

Definition swap_storage (newPaths : gmap string string) (s : managedBackupStorage) : rprog E swap_result :=
  let key := storage_key s in
  try* _ := step key SRollbackPrepared id catch e => pret (RollBack e) in
  try* _ := step key SRollbackDispatched (fun r => r <| sw_to_rollback_dispatched := true |>)
  catch e => pret (RollBack e) in
  try* _ := rename (mg_HostPath s) (path_at rollbackPaths key)
  catch e => pret (RollBack (ErrWrap "stage current managed storage for rollback" e)) in
  run* answer := fault "after_original_to_rollback" key in
  match answer with
  | HookInterrupts => pret (KeepStaging errRestoreInterrupted)
  | HookFails e => pret (RollBack e)
  | HookGo =>
      try* _ := step key SRollbackConfirmed (fun r => r <| sw_to_rollback_confirmed := true |>)
      catch e => pret (KeepStaging e) in
      try* _ := step key SActivePrepared id catch e => pret (KeepStaging e) in
      try* _ := step key SActiveDispatched (fun r => r <| sw_to_active_dispatched := true |>)
      catch e => pret (KeepStaging e) in
      try* _ := rename (path_at newPaths key) (mg_HostPath s)
      catch e => pbind (rename (path_at rollbackPaths key) (mg_HostPath s))
                   (fun _ => pret (RollBack (ErrWrap "activate restored managed storage" e))) in
      run* answer := fault "after_staged_to_active" key in
      match answer with
      | HookInterrupts => pret (KeepStaging errRestoreInterrupted)
      | HookFails e => pret (RollBack e)
      | HookGo =>
          try* _ := step key SActiveConfirmed (fun r => r <| sw_to_active_confirmed := true |>)
          catch e => pret (KeepStaging e) in
          pret Swapped
      end
  end.

(** The loop: the result, the storage exchanged so far and the staging paths
    still in use. *)
Fixpoint swap_all (storage swapped : list managedBackupStorage) (newPaths : gmap string string)
    : rprog E (swap_result * list managedBackupStorage * gmap string string) :=
  match storage with
  | [] => pret (Swapped, swapped, newPaths)
  | s :: storage =>
      run* result := swap_storage newPaths s in
      match result with
      | Swapped =>
          let swapped := swapped ++ [s] in
          let newPaths := delete (storage_key s) newPaths in
          run* answer := fault "between_storage_slots" (storage_key s) in
          match answer with
          | HookGo => swap_all storage swapped newPaths
          | HookInterrupts => pret (KeepStaging errRestoreInterrupted, swapped, newPaths)
          | HookFails e => pret (RollBack e, swapped, newPaths)
          end
      | _ => pret (result, swapped, newPaths)
      end
  end.

Definition failed_path (s : managedBackupStorage) : string :=
  mg_HostPath s +:+ failed_mark +:+ SemanticOperationID request.

Fixpoint unswap (swapped : list managedBackupStorage) : rprog E unit :=
  match swapped with
  | [] => pret tt
  | s :: swapped =>
      run* _ := rename (mg_HostPath s) (failed_path s) in
      run* _ := rename (path_at rollbackPaths (storage_key s)) (mg_HostPath s) in
      run* _ := step (storage_key s) SRolledBack id in
      unswap swapped
  end.

(** The closure [rollback]: it returns the error to report. *)
Definition roll_back (running : gmap string bool) (swapped : list managedBackupStorage) (cause : error) : rprog E error :=
  run* _ := stopBackupRuntime plan in
  run* _ := unswap (rev swapped) in
  run* secretErr := rstore (replaceSecrets (rq_InstanceID request) (bp_Secrets plan)) in
  let cause := match secretErr with
               | Err _ => ErrMsg (error_text cause +:+ "; secret rollback failed")
               | Ok _ => cause
               end in
  run* resumeErr := resumeBackupRuntime plan running in
  let cause := match resumeErr with
               | Err _ => ErrMsg (error_text cause +:+ "; application rollback restart failed")
               | Ok _ => cause
               end in
  run* _ := journal (updateRestoreOperation op RRolledBack (error_text cause)) in
  pret cause.

(** The rollback trees are removed once the restore is committed. *)
Fixpoint cleanup_swapped (swapped : list managedBackupStorage) (deferred : bool) : rprog E (res bool) :=
  match swapped with
  | [] => pret (Ok deferred)
  | s :: swapped =>
      let key := storage_key s in
      run* _ := step key SCleanupPending (fun r => r <| sw_cleanup_dispatched := true |>) in
      run* answer := fault "during_cleanup" key in
      let failed := match answer with
                    | HookGo => None
                    | HookInterrupts => Some errRestoreInterrupted
                    | HookFails e => Some e
                    end in
      match failed with
      | Some e =>
          run* _ := rstore (recordStepError op key (error_text e)) in cleanup_swapped swapped true
      | None =>
          run* removed := removeBackupTree (path_at rollbackPaths key) in
          match removed with
          | Err e =>
              if journaled then
                run* _ := rstore (recordStepError op key (error_text e)) in cleanup_swapped swapped true
              else pret (Err (ErrWrap "restore succeeded but rollback cleanup failed" e))
          | Ok _ =>
              run* _ := step key SCompleted (fun r => r <| sw_cleanup_confirmed := true |>) in
              cleanup_swapped swapped deferred
          end
      end
  end.

Definition finish_cleanup (swapped : list managedBackupStorage) : rprog E (res bool) :=
  try* deferred := cleanup_swapped swapped false catch e => pret (Err e) in
  if journaled then
    if (deferred : bool) then run* _ := rstore (recordCleanupDeferred op) in pret (Ok true)
    else try* _ := rstore (updateRestoreOperation op RCompleted "") catch e => pret (Err e) in pret (Ok false)
  else pret (Ok deferred).

(** What the function returns (whether cleanup was deferred), and whether the
    staging trees are kept. *)
Record ended : Type := { en_result : res bool; en_preserve : bool }.
Definition keep (e : error) : rprog E ended := pret {| en_result := Err e; en_preserve := true |}.
Definition fails (e : error) : rprog E ended := pret {| en_result := Err e; en_preserve := false |}.
Definition undone (running : gmap string bool) (swapped : list managedBackupStorage) (cause : error) : rprog E ended :=
  run* cause := roll_back running swapped cause in fails cause.

(** A point of the hook where the restore may still be undone. *)
Definition fault_or (point : string) (running : gmap string bool) (swapped : list managedBackupStorage)
    (k : rprog E ended) : rprog E ended :=
  run* answer := fault point "" in
  match answer with
  | HookGo => k
  | HookInterrupts => keep errRestoreInterrupted
  | HookFails e => undone running swapped e
  end.

(** After the exchange: the application runs again, the restore commits. *)
Definition commit_swapped (running : gmap string bool) (secrets : secretValues) (swapped : list managedBackupStorage)
    : rprog E ended :=
  try* _ := journal (updateRestoreOperation op RRuntimePending "") catch e => keep e in
  fault_or "after_all_swaps_before_runtime" running swapped (
  try* _ := rstore (replaceSecrets (rq_InstanceID request) secrets)
  catch e => undone running swapped (ErrWrap "restore generated secrets" e) in
  try* _ := resumeBackupRuntime plan running
  catch e => undone running swapped (ErrWrap "start restored application" e) in
  fault_or "after_runtime_restart" running swapped (
  try* _ := journal (updateRestoreOperation op RCommitted "") catch e => keep e in
  run* answer := fault "after_restore_commit" "" in
  match answer with
  | HookInterrupts => keep errRestoreInterrupted
  | HookFails e => fails e
  | HookGo =>
      run* result := finish_cleanup swapped in pret {| en_result := result; en_preserve := false |}
  end)).

(** Lines from the beginning of the journal on; the staging paths still in use
    are returned too. *)
Definition swap_and_commit (secrets : secretValues) (newPaths : gmap string string)
    : rprog E (ended * gmap string string) :=
  let stay (m : rprog E ended) := run* en := m in pret (en, newPaths) in
  try* _ := (if journaled then
               pbind (beginRestoreJournal request token plan secrets newPaths rollbackPaths) (fun r =>
               pret (match r with Ok u => Ok u | Err e => Err (ErrWrap "record restore journal" e) end))
             else pret (Ok tt))
  catch e => stay (fails e) in
  run* answer := fault "before_first_rename" "" in
  match answer with
  | HookInterrupts => stay (keep errRestoreInterrupted)
  | HookFails e => stay (fails e)
  | HookGo =>
      try* running := snapshotBackupRuntime plan catch e => stay (fails e) in
      try* _ := journal (updateRestoreRuntimeIntent op token running) catch e => stay (fails e) in
      try* _ := quiesceRecordedBackupRuntime plan running catch e => stay (fails e) in
      run* swaps := swap_all (included_storage plan) [] newPaths in
      run* en := match swaps.1.1 with
                 | Swapped => commit_swapped running secrets swaps.1.2
                 | KeepStaging e => keep e
                 | RollBack cause => undone running swaps.1.2 cause
                 end in
      pret (en, swaps.2)
  end.

(** The deferred removal of the staging trees. *)
Fixpoint remove_paths (paths : list string) : rprog E unit :=
  match paths with
  | [] => pret tt
  | p :: paths => run* _ := removeBackupTree p in remove_paths paths
  end.

Definition swap_and_discard (secrets : secretValues) (newPaths : gmap string string) : rprog E (res bool) :=
  run* end_ := swap_and_commit secrets newPaths in
  if en_preserve end_.1 then pret (en_result end_.1)
  else run* _ := remove_paths (map snd (map_to_list end_.2)) in pret (en_result end_.1).
End restore.
End programs.

(** ** The whole restore *)
Section whole.
Context {E : Type} `{Host : RestoreHost E} (catalog : res (gmap string Manifest)) (ar : archive).

Definition is_directory (fs : files) (path : string) : bool := bool_decide (is_Some (fs !! path)).

Definition Dir (path : string) : string :=
  let elements := split_at 47 (text path) [] in
  Clean (untext (join_at 47 (removelast elements)) +:+ "/").

Definition restoreOverhead : Z := Z.shiftl 64 20.
Definition MaxInt64 : Z := 9223372036854775807.

(** The checks on the archive, up to the extraction and the secrets in it. *)
Definition checked_archive (row : backupRow) : res unit :=
  refuse (Dir (bk_archive_path row) <> Clean (ar_directory ar)) with "backup path is outside managed destination" in
  match ar_sha256 ar (bk_archive_path row) with
  | Err _ => Err (ErrMsg "backup archive hash mismatch")
  | Ok actualHash =>
      refuse (actualHash <> bk_archive_sha256 row) with "backup archive hash mismatch" in
      rbind (ar_measure ar) (fun extractedBytes =>
      refuse ((MaxInt64 - restoreOverhead) / 2 < extractedBytes) with "backup archive is too large" in
      ar_space ar (extractedBytes * 2 + restoreOverhead))
  end.

Definition extracted (request : Request) (plan : applicationBackupPlan) : res (ArchiveManifest * secretValues) :=
  ensure ar_workspace ar in
  rbind (ar_extract ar) (fun backup =>
  ensure validateRestoreManifest backup request plan in
  rbind (readRestoreSecrets (ar_secrets ar) (bp_Application plan)) (fun secrets => Ok (backup, secrets))).

Definition staged_name (request : Request) (s : managedBackupStorage) : string :=
  mg_HostPath s +:+ staged_mark +:+ SemanticOperationID request.
Definition rollback_name (request : Request) (s : managedBackupStorage) : string :=
  mg_HostPath s +:+ rollback_mark +:+ SemanticOperationID request.

(** The extracted trees are copied next to the directories they will replace.
    A failure here leaves the copies already made. *)
Fixpoint stage_all (request : Request) (storage : list managedBackupStorage) (newPaths rollbackPaths : gmap string string)
    : rprog E (res (gmap string string * gmap string string)) :=
  match storage with
  | [] => pret (Ok (newPaths, rollbackPaths))
  | s :: storage =>
      run* target := pathIdentity (mg_HostPath s) in
      match target with
      | Ok (Some _) =>
          run* staged := pathIdentity (staged_name request s) in
          match staged with
          | Ok None =>
              run* rolled := pathIdentity (rollback_name request s) in
              match rolled with
              | Ok None =>
                  try* _ := CopyTree (staged_name request s)
                  catch e => pret (Err (ErrWrap "prepare restored managed storage" e)) in
                  stage_all request storage (<[storage_key s := staged_name request s]> newPaths)
                    (<[storage_key s := rollback_name request s]> rollbackPaths)
              | _ => pret (Err (ErrMsg "restore rollback path already exists"))
              end
          | _ => pret (Err (ErrMsg "restore staging path already exists"))
          end
      | _ => pret (Err (ErrMsg "managed restore target unavailable"))
      end
  end.

(** The SQLite files of the staged trees are those of the archive. *)
Definition databases_match (backup : ArchiveManifest) (plan : applicationBackupPlan) : res unit :=
  if decide (mbp_Strategy (backup_policy (bp_Application plan)) = "cold-sqlite-filesystem") then
    rbind (ar_databases ar) (fun databases =>
    refuse (sameDatabaseInventory databases (am_Databases backup) = false)
    with "restored SQLite inventory does not match manifest" in Ok tt)
  else Ok tt.

Definition addressed (request : Request) (row : backupRow) : Request :=
  request <| rq_ApplicationID := bk_application row |> <| rq_ReleaseID := bk_release row |>
    <| rq_RuntimeGeneration := bk_generation row |>.

Definition backup_row (backup installation : string) (d : rdb) : option backupRow :=
  match pd_backups (rd_plan d) !! backup with
  | Some row => if decide (bk_installation row = installation) then Some row else None
  | None => None
  end.

Definition load_plan (request : Request) : rprog E (res applicationBackupPlan) :=
  rquery (fun d fs => loadApplicationBackupPlan catalog (is_directory fs) (rd_plan d) request).

Definition restoreApplicationBackupWithFence (request : Request) (fencingToken : Z) : rprog E (res bool) :=
  if decide (backupIDPattern (rq_BackupID request) = false) then pret (Err (ErrMsg "invalid backup identity"))
  else
    try* row := rquery (fun d _ => match backup_row (rq_BackupID request) (rq_InstanceID request) d with
                                   | Some row => Ok row
                                   | None => Err (ErrMsg "backup not found for installation")
                                   end)
    catch e => pret (Err e) in
    match checked_archive row with
    | Err e => pret (Err e)
    | Ok _ =>
        let request := addressed request row in
        try* plan := load_plan request catch e => pret (Err e) in
        match extracted request plan with
        | Err e => pret (Err e)
        | Ok (backup, secrets) =>
            try* paths := stage_all request (included_storage plan) ∅ ∅ catch e => pret (Err e) in
            match databases_match backup plan with
            | Err e => run* _ := remove_paths (map snd (map_to_list paths.1)) in pret (Err e)
            | Ok _ =>
                swap_and_discard request fencingToken plan paths.2
                  (bool_decide (0 < fencingToken /\ rq_OperationID request <> "")) secrets paths.1
            end
        end
    end.

(** ** Recovery after a restart ([restore_journal.go]) *)
Inductive active_tree : Type := ActiveRestored | ActiveOriginal | ActiveMissing.
#[export] Instance active_tree_eq_dec : EqDecision active_tree.
Proof. solve_decision. Defined.

(** A tree at the path that is not one the journal expects there. *)
Definition ambiguous_path (name : string) (valid : bool) : rprog E (res bool) :=
  try* found := pathIdentity name catch e => pret (Err e) in
  pret (Ok (bool_decide (is_Some found) && negb valid)).

Definition classifyRestorePaths (item : restoreStorageJournal) : rprog E (res (active_tree * bool)) :=
  let stop e := pret (Err e) in
  let ambiguous := pret (Err (ErrMsg "restore path identity is ambiguous")) in
  try* originalIsOriginal := exactPathIdentity (rj_OriginalPath item) (rj_Original item) catch e => stop e in
  try* originalIsStaged := exactPathIdentity (rj_OriginalPath item) (rj_Staged item) catch e => stop e in
  try* rollbackIsOriginal := exactPathIdentity (rj_RollbackPath item) (rj_Original item) catch e => stop e in
  try* stagedIsStaged := exactPathIdentity (rj_StagedPath item) (rj_Staged item) catch e => stop e in
  try* bad := ambiguous_path (rj_OriginalPath item) (originalIsOriginal || originalIsStaged) catch e => stop e in
  if (bad : bool) then ambiguous else
  try* bad := ambiguous_path (rj_RollbackPath item) rollbackIsOriginal catch e => stop e in
  if (bad : bool) then ambiguous else
  try* bad := ambiguous_path (rj_StagedPath item) stagedIsStaged catch e => stop e in
  if (bad : bool) then ambiguous else
  pret (Ok (if originalIsStaged : bool then ActiveRestored else if originalIsOriginal : bool then ActiveOriginal else ActiveMissing,
            originalIsOriginal || rollbackIsOriginal)).

(** [loadApplicationBackupPlan] for the journal's backup. *)
Definition recovery_request (journal : restoreJournal) (row : backupRow) : Request :=
  addressed (ProtocolProps.empty_request <| rq_Version := 2 |> <| rq_ID := "recovery" |> <| rq_OperationID := jo_OperationID journal |>
    <| rq_Operation := "RestoreApplicationBackup" |> <| rq_OperationRevision := 1 |>
    <| rq_InstanceID := jo_InstallationID journal |> <| rq_BackupID := jo_BackupID journal |>) row.

Definition restoreRecoveryPlan (journal : restoreJournal) : rprog E (res applicationBackupPlan) :=
  try* row := rquery (fun d _ => match backup_row (jo_BackupID journal) (jo_InstallationID journal) d with
                                 | Some row => Ok row
                                 | None => Err ErrNoRows
                                 end)
  catch e => pret (Err e) in
  load_plan (recovery_request journal row).

(** The restored tree is moved out of the way, the original back. *)
Definition put_away (journal : restoreJournal) (item : restoreStorageJournal) (active : active_tree) : rprog E (res unit) :=
  let failedPath := rj_OriginalPath item +:+ failed_mark +:+ jo_OperationID journal in
  if decide (active = ActiveRestored) then
    run* _ := removeBackupTree failedPath in rename (rj_OriginalPath item) failedPath
  else pret (Ok tt).

Definition put_back (item : restoreStorageJournal) : rprog E (res unit) :=
  try* rollbackExact := exactPathIdentity (rj_RollbackPath item) (rj_Original item) catch e => pret (Err e) in
  if (rollbackExact : bool) then rename (rj_RollbackPath item) (rj_OriginalPath item) else pret (Ok tt).

Definition undo_item (journal : restoreJournal) (item : restoreStorageJournal) : rprog E (res unit) :=
  run* class := classifyRestorePaths item in
  match class with
  | Ok (active, true) =>
      try* _ := put_away journal item active catch e => pret (Err e) in
      try* _ := put_back item catch e => pret (Err e) in
      run* _ := removeBackupTree (rj_StagedPath item) in
      run* _ := rstore (updateRestoreStep (jo_OperationID journal) (rj_Key item) SRolledBack id) in
      pret (Ok tt)
  | _ => pret (Err (ErrMsg "restore rollback identity became ambiguous"))
  end.

Fixpoint undo_items (journal : restoreJournal) (items : list restoreStorageJournal) : rprog E (res unit) :=
  match items with
  | [] => pret (Ok tt)
  | item :: items =>
      try* _ := undo_item journal item catch e => pret (Err e) in undo_items journal items
  end.

Definition quiesced (phase : restore_phase) : bool := negb (bool_decide (phase = RValidated \/ phase = RStaged)).

Definition finishRestoreRollback (journal : restoreJournal) (cause : error) : rprog E (res unit) :=
  try* _ := undo_items journal (rev (jo_Storage journal)) catch e => pret (Err e) in
  try* plan := restoreRecoveryPlan journal catch e => pret (Err e) in
  try* _ := rstore (replaceSecrets (jo_InstallationID journal) (jo_OriginalSecrets journal)) catch e => pret (Err e) in
  try* _ := (if quiesced (jo_Phase journal) then resumeBackupRuntime plan (jo_Running journal) else pret (Ok tt))
  catch e => pret (Err e) in
  rstore (updateRestoreOperation (jo_OperationID journal) RRolledBack (error_text cause)).

(** The rollback trees of a committed restore; [completed] is what is written
    once one is removed. *)
Fixpoint cleanup_items (journal : restoreJournal) (completed : swapRow -> swapRow) (items : list restoreStorageJournal)
    (deferred : bool) : rprog E bool :=
  match items with
  | [] => pret deferred
  | item :: items =>
      let key := rj_Key item in
      run* _ := rstore (updateRestoreStep (jo_OperationID journal) key SCleanupPending
                          (fun r => r <| sw_cleanup_dispatched := true |>)) in
      run* removed := removeBackupTree (rj_RollbackPath item) in
      match removed with
      | Err e =>
          run* _ := rstore (recordStepError (jo_OperationID journal) key (error_text e)) in
          cleanup_items journal completed items true
      | Ok _ =>
          run* _ := rstore (updateRestoreStep (jo_OperationID journal) key SCompleted completed) in
          cleanup_items journal completed items deferred
      end
  end.

Definition commit_recovered (journal : restoreJournal) : rprog E (res unit) :=
  if decide (jo_Phase journal = RCommitted) then pret (Ok tt)
  else
    try* plan := restoreRecoveryPlan journal catch e => pret (Err e) in
    try* _ := rstore (updateRestoreOperation (jo_OperationID journal) RRuntimePending "") catch e => pret (Err e) in
    try* _ := rstore (replaceSecrets (jo_InstallationID journal) (jo_RestoredSecrets journal)) catch e => pret (Err e) in
    try* _ := resumeBackupRuntime plan (jo_Running journal) catch e => pret (Err e) in
    rstore (updateRestoreOperation (jo_OperationID journal) RCommitted "").

Definition finishRestoreForward (journal : restoreJournal) : rprog E (res unit) :=
  try* _ := commit_recovered journal catch e => pret (Err e) in
  run* deferred := cleanup_items journal (fun r => r <| sw_cleanup_confirmed := true |>) (jo_Storage journal) false in
  if (deferred : bool) then rstore (recordCleanupDeferred (jo_OperationID journal))
  else rstore (updateRestoreOperation (jo_OperationID journal) RCompleted "").

(** Whether all the storage is the restored one, and whether all the originals
    are there. *)
Fixpoint survey (items : list restoreStorageJournal) (allRestored canRollback : bool) : rprog E (bool * bool) :=
  match items with
  | [] => pret (allRestored, canRollback)
  | item :: items =>
      run* class := classifyRestorePaths item in
      match class with
      | Err _ => pret (false, false)
      | Ok (active, originalAvailable) =>
          survey items (allRestored && bool_decide (active = ActiveRestored)) (canRollback && originalAvailable)
      end
  end.

Definition interrupted_cause : error := ErrMsg "restore interrupted; original data restored".
Definition mixed_detail : string := "restore storage generations are mixed or ambiguous; runtime was not started".

Context (unmarshal : string -> option json).

Definition restored_response (journal : restoreJournal) : Response :=
  zero_response <| rs_OK := true |>
    <| rs_Result := Some (JObj [("backup_id", JStr (jo_BackupID journal)); ("status", JStr "restored")]) |>.
Definition undone_response : Response :=
  zero_response <| rs_ErrorCode := "RestoreInterrupted" |> <| rs_Error := "restore interrupted; original data restored" |>.

Definition complete_recovery (operation : string) (token : Z) (response : Response) : rprog E (res unit) :=
  try* _ := rstore (fun now => on_helper (CompleteRecovery unmarshal operation token response now))
  catch e => pret (Err e) in pret (Ok tt).

(** One unresolved restore under its recovery lease: an error, or whether it
    was resolved. *)
Definition resolve_journal (journal : restoreJournal) (token : Z) : rprog E (res bool) :=
  let operation := jo_OperationID journal in
  run* seen := survey (jo_Storage journal) (bool_decide (jo_Storage journal <> [])) true in
  if fst seen then
    try* _ := finishRestoreForward journal catch e => pret (Err e) in
    try* _ := complete_recovery operation token (restored_response journal) catch e => pret (Err e) in
    pret (Ok true)
  else if snd seen then
    try* _ := finishRestoreRollback journal interrupted_cause catch e => pret (Err e) in
    try* _ := complete_recovery operation token undone_response catch e => pret (Err e) in
    pret (Ok true)
  else
    try* _ := rstore (markRestoreStepsActionRequired operation mixed_detail) catch e => pret (Err e) in
    try* _ := rstore (updateRestoreOperation operation RActionRequired mixed_detail) catch e => pret (Err e) in
    pret (Ok false).

Definition recovery_lease (journal : restoreJournal) (d : rdb) : res Z :=
  match db_leases (pd_helper (rd_plan d)) !! jo_InstallationID journal with
  | Some l => if decide (ls_operation l = jo_OperationID journal /\ ls_state l = LeaseRecoveryRequired)
              then Ok (ls_token l) else Err ErrNoRows
  | None => Err ErrNoRows
  end.

Fixpoint recover_operations (operations : list string) (recovered : nat) : rprog E (nat * option error) :=
  match operations with
  | [] => pret (recovered, None)
  | operation :: operations =>
      try* journal := rquery (fun d _ => loadRestoreJournal operation d)
      catch e => pret (recovered, Some e) in
      run* token := rquery (fun d _ => recovery_lease journal d) in
      match token with
      | Err _ =>
          run* _ := rstore (updateRestoreOperation operation RActionRequired "restore recovery lease unavailable") in
          recover_operations operations recovered
      | Ok token =>
          try* _ := rstore (fun now => tbind (update_restores (fun k _ => k = operation)
                              (fun r => r <| ro_token := token |> <| ro_updated_at := now |>)) (fun _ => tret tt))
          catch e => pret (recovered, Some e) in
          run* resolved := resolve_journal journal token in
          match resolved with
          | Err e =>
              run* _ := rstore (updateRestoreOperation operation RActionRequired (error_text e)) in
              recover_operations operations recovered
          | Ok resolved => recover_operations operations (if resolved : bool then S recovered else recovered)
          end
      end
  end.

Definition unresolved_operations (d : rdb) : list string :=
  map fst (sort_by (fun kr : string * restoreRow => ro_started_at kr.2)
    (select (fun _ r => unresolved (ro_phase r) = true) (rd_restores d))).

Definition recoverInterruptedRestores : rprog E (nat * option error) :=
  try* operations := rquery (fun d _ => Ok (unresolved_operations d)) catch e => pret (0%nat, Some e) in
  recover_operations operations 0.

(** ** Deferred cleanup *)
Definition cleanup_confirmed (r : swapRow) : swapRow :=
  r <| sw_cleanup_dispatched := true |> <| sw_cleanup_confirmed := true |> <| sw_error_detail := "" |>.

Definition finishRestoreCleanupOnly (journal : restoreJournal) : rprog E (res unit) :=
  run* deferred := cleanup_items journal cleanup_confirmed (jo_Storage journal) false in
  if (deferred : bool) then
    run* _ := rstore (recordCleanupDeferred (jo_OperationID journal)) in
    pret (Err (ErrMsg "restore cleanup remains pending"))
  else rstore (updateRestoreOperation (jo_OperationID journal) RCompleted "").

Fixpoint cleanup_operations (operations : list string) : rprog E unit :=
  match operations with
  | [] => pret tt
  | operation :: operations =>
      run* journal := rquery (fun d _ => loadRestoreJournal operation d) in
      match journal with
      | Ok journal => run* _ := finishRestoreCleanupOnly journal in cleanup_operations operations
      | Err _ => cleanup_operations operations
      end
  end.

Definition committed_operations (d : rdb) : list string :=
  map fst (sort_by (fun kr : string * restoreRow => ro_updated_at kr.2)
    (select (fun _ r => ro_phase r = RCommitted \/ ro_phase r = RCleanupPending) (rd_restores d))).

Definition cleanupCommittedRestores : rprog E unit :=
  run* operations := rquery (fun d _ => Ok (committed_operations d)) in
  match operations with
  | Ok operations => cleanup_operations operations
  | Err _ => pret tt
  end.

(** What [main] does with restores before it serves; an error ends the process. *)
Definition startup_restores : rprog E unit :=
  run* recovery := recoverInterruptedRestores in
  match recovery.2 with
  | Some _ => pret tt
  | None => cleanupCommittedRestores
  end.
End whole.
