(* ===== verification/RestoreProofs.v ===== *)
(** * A calculus for restores, and what their steps preserve

    As for the lifecycle runner, a triple has two postconditions: one for a
    program that ended and one for a process that died; the environment is
    arbitrary at every call.  Assertions speak about the database, the
    directories and the record of engine calls. *)

From S2P Require Import Prelude Protocol Exposure HelperDB Coordinator NetIP Ingress Containers Manifest ExternalStorage Secrets BackupPlan Restore.
From stdpp Require Import base strings list gmap sorting fin_maps.
From Stdlib Require Import ZArith Lia.

Open Scope Z_scope.

Notation rlog := (list (engine_call * files * secrets_t)).
Definition rassn : Type := rdb -> files -> rlog -> Prop.

Definition rwp {E A} (m : rprog E A) (Q : A -> rassn) (C : rassn) (d : rdb) (fs : files) (l : rlog) : Prop :=
  forall e, match m (RWorld d fs l e) with
            | Ended a w => Q a (rw_db w) (rw_fs w) (rw_log w)
            | Killed w => C (rw_db w) (rw_fs w) (rw_log w)
            end.

Section rules.
Context {E : Type} `{Host : RestoreHost E}.

Lemma rwp_ret {A} (a : A) (Q : A -> rassn) C d fs l : Q a d fs l -> rwp (E:=E) (pret a) Q C d fs l.
Proof. intros H e. exact H. Qed.

Lemma rwp_bind {A B} (m : rprog E A) (f : A -> rprog E B) Q C d fs l :
  rwp m (fun a => rwp (f a) Q C) C d fs l -> rwp (pbind m f) Q C d fs l.
Proof.
  intros H e. unfold pbind. specialize (H e). destruct (m (RWorld d fs l e)) as [a [d' fs' l' e']|w]; [|done].
  apply (H e').
Qed.

Lemma rwp_try {A B} (m : rprog E (res A)) (h : error -> rprog E B) (k : A -> rprog E B) Q C d fs l :
  rwp m (fun r => match r with Ok a => rwp (k a) Q C | Err e => rwp (h e) Q C end) C d fs l ->
  rwp (ptry m h k) Q C d fs l.
Proof.
  intros H. unfold ptry. apply rwp_bind. intros e. specialize (H e).
  destruct (m (RWorld d fs l e)) as [[a|e'] w|w]; done.
Qed.

Lemma rwp_mono {A} (m : rprog E A) (Q Q' : A -> rassn) (C C' : rassn) d fs l :
  rwp m Q C d fs l -> (forall a d' fs' l', Q a d' fs' l' -> Q' a d' fs' l') ->
  (forall d' fs' l', C d' fs' l' -> C' d' fs' l') -> rwp m Q' C' d fs l.
Proof. intros H HQ HC e. specialize (H e). destruct (m (RWorld d fs l e)); auto. Qed.

Lemma rwp_alive {A} (k : rprog E A) Q C d fs l : C d fs l -> rwp k Q C d fs l -> rwp (alive k) Q C d fs l.
Proof. intros HC H e. unfold alive. cbn. destruct (rh_dies e) as [[] e1]; [exact HC | apply H]. Qed.

Lemma rwp_rstore {A} (m : string -> tx rdb A) Q (C : rassn) d fs l :
  C d fs l -> (forall err, Q (Err err) d fs l) ->
  (forall now a d', m now d = Ok (a, d') -> Q (Ok a) d' fs l) -> rwp (rstore m) Q C d fs l.
Proof.
  intros HC HE HQ. apply rwp_alive; [done|]. intros e. cbn. destruct (rh_now e) as [now e1].
  destruct (rh_fault e1) as [[err|] e2]; [apply HE|].
  unfold atomically. destruct (m now d) as [[a d']|err] eqn:Hm; [by eapply HQ | apply HE].
Qed.

Lemma rwp_rquery {A} (q : rdb -> files -> res A) Q (C : rassn) d fs l :
  C d fs l -> (forall err, Q (Err err) d fs l) -> (forall a, q d fs = Ok a -> Q (Ok a) d fs l) ->
  rwp (rquery q) Q C d fs l.
Proof.
  intros HC HE HQ. apply rwp_alive; [done|]. intros e. cbn. destruct (rh_fault e) as [[err|] e1]; [apply HE|].
  cbn. destruct (q d fs) as [a|err]; [by apply HQ | apply HE].
Qed.

Lemma rwp_fault point key Q (C : rassn) d fs l :
  C d fs l -> (forall a, Q a d fs l) -> rwp (runRestoreFault point key) Q C d fs l.
Proof. intros HC HQ. apply rwp_alive; [done|]. intros e. cbn. destruct (rh_hook point key e). apply HQ. Qed.

Lemma rwp_clock Q (C : rassn) d fs l : C d fs l -> (forall now, Q now d fs l) -> rwp clock Q C d fs l.
Proof. intros HC HQ. apply rwp_alive; [done|]. intros e. cbn. destruct (rh_now e). apply HQ. Qed.

Lemma rwp_identity name Q (C : rassn) d fs l :
  C d fs l -> (forall err, Q (Err err) d fs l) -> Q (Ok (tr_identity <$> fs !! name)) d fs l ->
  rwp (pathIdentity name) Q C d fs l.
Proof.
  intros HC HE HQ. apply rwp_alive; [done|]. intros e. cbn.
  destruct (rh_lstat name e) as [[err|] e1]; [apply HE | apply HQ].
Qed.

Lemma rwp_exact name want Q (C : rassn) d fs l :
  C d fs l -> (forall err, Q (Err err) d fs l) ->
  Q (Ok (bool_decide (tr_identity <$> fs !! name = Some want))) d fs l ->
  rwp (exactPathIdentity name want) Q C d fs l.
Proof.
  intros HC HE HQ. apply rwp_try, rwp_identity; [done|..]; intros; by apply rwp_ret.
Qed.

Lemma rwp_rename old new Q (C : rassn) d fs l :
  C d fs l -> (forall err, Q (Err err) d fs l) ->
  (forall t, fs !! old = Some t -> fs !! new = None -> Q (Ok tt) d (<[new := t]> (delete old fs)) l) ->
  rwp (rename old new) Q C d fs l.
Proof.
  intros HC HE HQ. apply rwp_alive; [done|]. intros e. cbn.
  destruct (rh_rename old new e) as [[err|] e1]; [apply HE|]. unfold moved.
  destruct (fs !! old) as [t|] eqn:Ho, (fs !! new) eqn:Hn; first [apply HE | by apply HQ].
Qed.

Lemma rwp_remove name Q (C : rassn) d fs l :
  C d fs l -> (forall err, Q (Err err) d fs l) -> (forall err, Q (Err err) d (alter broken name fs) l) ->
  Q (Ok tt) d (delete name fs) l -> rwp (removeBackupTree name) Q C d fs l.
Proof.
  intros HC HE HB HQ. apply rwp_alive; [done|]. intros e. cbn.
  destruct (rh_remove name e) as [[[err []]|] e1]; [apply HB | apply HE | apply HQ].
Qed.

Lemma rwp_inspect id Q (C : rassn) d fs l : C d fs l -> (forall r, Q r d fs l) -> rwp (inspect id) Q C d fs l.
Proof. intros HC HQ. apply rwp_alive; [done|]. intros e. cbn. destruct (rh_inspect id e). apply HQ. Qed.

Lemma rwp_engine f c Q (C : rassn) d fs l :
  C d fs l -> (forall r, Q r d fs (l ++ [(c, fs, pd_secrets (rd_plan d))])) -> rwp (engine f c) Q C d fs l.
Proof. intros HC HQ. apply rwp_alive; [done|]. intros e. cbn. destruct (f e). apply HQ. Qed.

(** Programs that preserve an assertion whatever happens. *)
Definition rkeeps (P : rassn) {A} (m : rprog E A) : Prop := forall d fs l, P d fs l -> rwp m (fun _ => P) P d fs l.

Lemma rkeeps_ret P {A} (a : A) : rkeeps P (pret a).
Proof. intros d fs l H. by apply rwp_ret. Qed.

Lemma rkeeps_bind P {A B} (m : rprog E A) (f : A -> rprog E B) :
  rkeeps P m -> (forall a, rkeeps P (f a)) -> rkeeps P (pbind m f).
Proof. intros Hm Hf d fs l H. apply rwp_bind. eapply rwp_mono; [by apply Hm|..]; [|done]. intros. by apply Hf. Qed.

Lemma rkeeps_try P {A B} (m : rprog E (res A)) (h : error -> rprog E B) (k : A -> rprog E B) :
  rkeeps P m -> (forall e, rkeeps P (h e)) -> (forall a, rkeeps P (k a)) -> rkeeps P (ptry m h k).
Proof. intros Hm Hh Hk. apply rkeeps_bind; [done|]. intros [a|e]; auto. Qed.

Lemma rkeeps_rstore P {A} (m : string -> tx rdb A) :
  (forall now d fs l a d', P d fs l -> m now d = Ok (a, d') -> P d' fs l) -> rkeeps P (rstore m).
Proof. intros Hm d fs l H. apply rwp_rstore; [done..|]. intros. by eapply Hm. Qed.

Lemma rkeeps_rquery P {A} (q : rdb -> files -> res A) : rkeeps P (rquery q).
Proof. intros d fs l H. by apply rwp_rquery. Qed.

Lemma rkeeps_fault P point key : rkeeps P (runRestoreFault point key).
Proof. intros d fs l H. by apply rwp_fault. Qed.

Lemma rkeeps_exact P name want : rkeeps P (exactPathIdentity name want).
Proof. intros d fs l H. by apply rwp_exact. Qed.

Lemma rkeeps_identity P name : rkeeps P (pathIdentity name).
Proof. intros d fs l H. by apply rwp_identity. Qed.

Lemma rkeeps_inspect P id : rkeeps P (inspect id).
Proof. intros d fs l H. by apply rwp_inspect. Qed.

Lemma rkeeps_rename (P : rassn) old new :
  (forall d fs l t, P d fs l -> fs !! old = Some t -> fs !! new = None -> P d (<[new := t]> (delete old fs)) l) ->
  rkeeps P (rename old new).
Proof. intros HP d fs l H. apply rwp_rename; [done..|]. intros. by apply HP. Qed.

Lemma rkeeps_remove (P : rassn) name :
  (forall d fs l, P d fs l -> P d (alter broken name fs) l) -> (forall d fs l, P d fs l -> P d (delete name fs) l) ->
  rkeeps P (removeBackupTree name).
Proof. intros HB HD d fs l H. apply rwp_remove; [done| done | |]; intros; auto. Qed.
End rules.

Ltac rkeeps_step :=
  first [ apply rkeeps_ret | apply rkeeps_rquery | apply rkeeps_fault | apply rkeeps_exact | apply rkeeps_identity
        | apply rkeeps_inspect | apply rkeeps_try; [|intros ?|intros ?] | apply rkeeps_bind; [|intros ?] ].

(** ** What a journal says of one directory *)
Record slot : Type := {
  sl_O : string;
  sl_S : string;
  sl_R : string;
  sl_original : restorePathIdentity;
  sl_staged : restorePathIdentity
}.

Definition slot_of (r : swapRow) : slot :=
  {| sl_O := sw_original_path r; sl_S := sw_staged_path r; sl_R := sw_rollback_path r;
     sl_original := sw_original r; sl_staged := sw_staged r |}.

Definition item_slot (i : restoreStorageJournal) : slot :=
  {| sl_O := rj_OriginalPath i; sl_S := rj_StagedPath i; sl_R := rj_RollbackPath i;
     sl_original := rj_Original i; sl_staged := rj_Staged i |}.

Definition failed_of (operation : string) (s : slot) : string := sl_O s +:+ failed_mark +:+ operation.
Definition slot_paths (operation : string) (s : slot) : list string := [sl_O s; sl_S s; sl_R s; failed_of operation s].

Definition whole (i : restorePathIdentity) : tree := {| tr_identity := i; tr_whole := true |}.

(** The staging path holds the staged tree, possibly broken, or nothing. *)
Definition staging (s : slot) (fs : files) : Prop := forall t, fs !! sl_S s = Some t -> tr_identity t = sl_staged s.

(** Before the commit the whole original is at its path or at the rollback
    path; a tree that took its place is whole too. *)
Inductive placed (s : slot) (fs : files) : Prop :=
| placed_original : fs !! sl_O s = Some (whole (sl_original s)) -> fs !! sl_R s = None -> staging s fs -> placed s fs
| placed_moved : fs !! sl_O s = None -> fs !! sl_R s = Some (whole (sl_original s)) -> staging s fs -> placed s fs
| placed_swapped : fs !! sl_O s = Some (whole (sl_staged s)) -> fs !! sl_R s = Some (whole (sl_original s)) ->
    fs !! sl_S s = None -> placed s fs.

(** After it the whole restored tree is at the path. *)
Record committed (s : slot) (fs : files) : Prop := {
  com_active : fs !! sl_O s = Some (whole (sl_staged s));
  com_rollback t : fs !! sl_R s = Some t -> tr_identity t = sl_original s;
  com_staging : fs !! sl_S s = None
}.

(** Nothing changed but at these paths. *)
Definition outside (ps : list string) (fs fs' : files) : Prop := forall p, p ∉ ps -> fs' !! p = fs !! p.

Lemma outside_refl ps fs : outside ps fs fs.
Proof. done. Qed.
Lemma outside_trans ps fs1 fs2 fs3 : outside ps fs1 fs2 -> outside ps fs2 fs3 -> outside ps fs1 fs3.
Proof. intros H1 H2 p Hp. by rewrite H2, H1. Qed.
Lemma outside_insert_delete ps old new t fs : old ∈ ps -> new ∈ ps -> outside ps fs (<[new := t]> (delete old fs)).
Proof. intros Ho Hn p Hp. rewrite lookup_insert_ne, lookup_delete_ne by congruence. done. Qed.
Lemma outside_delete ps p fs : p ∈ ps -> outside ps fs (delete p fs).
Proof. intros H q Hq. by rewrite lookup_delete_ne by congruence. Qed.
Lemma outside_alter ps p f fs : p ∈ ps -> outside ps fs (alter f p fs).
Proof. intros H q Hq. by rewrite lookup_alter_ne by congruence. Qed.

Lemma outside_lookup ps fs fs' p : outside ps fs fs' -> p ∉ ps -> fs' !! p = fs !! p.
Proof. auto. Qed.

Lemma placed_frame s fs fs' : fs' !! sl_O s = fs !! sl_O s -> fs' !! sl_S s = fs !! sl_S s ->
  fs' !! sl_R s = fs !! sl_R s -> placed s fs -> placed s fs'.
Proof.
  intros HO HS HR [? ? Hs|? ? Hs|]; [apply placed_original | apply placed_moved | apply placed_swapped];
    rewrite ?HO, ?HR, ?HS; try done; intros t; rewrite HS; apply Hs.
Qed.

Lemma committed_frame s fs fs' : fs' !! sl_O s = fs !! sl_O s -> fs' !! sl_S s = fs !! sl_S s ->
  fs' !! sl_R s = fs !! sl_R s -> committed s fs -> committed s fs'.
Proof. intros HO HS HR [? ? ?]. split; rewrite ?HO, ?HR, ?HS; done. Qed.

(** ** Statements of a journal *)
Record journal_step (o : string) (ph : option restore_phase) (d d' : rdb) : Prop := {
  js_steps : slot_of <$> rd_steps d' = slot_of <$> rd_steps d;
  js_others k : k <> o -> rd_restores d' !! k = rd_restores d !! k;
  js_own : exists f, rd_restores d' !! o = f <$> rd_restores d !! o /\
           forall r, ro_phase (f r) = default (ro_phase r) ph
}.

Lemma journal_step_same o d d' :
  rd_steps d' = rd_steps d -> rd_restores d' = rd_restores d -> journal_step o None d d'.
Proof. intros H1 H2. split; [by rewrite H1 | by rewrite H2 |]. exists id. rewrite H2. by destruct (rd_restores d !! o). Qed.

Lemma slots_update (P : string * string -> swapRow -> Prop) `{!forall k r, Decision (P k r)} (f : swapRow -> swapRow) (m : gmap (string * string) swapRow) :
  (forall r, slot_of (f r) = slot_of r) -> slot_of <$> update P f m = slot_of <$> m.
Proof.
  intros Hf. apply map_eq. intros k. rewrite !lookup_fmap, lookup_update. destruct (m !! k) as [r|]; [|done].
  cbn. by case_decide; rewrite ?Hf.
Qed.

Lemma update_steps_journal o (P : string * string -> swapRow -> Prop) `{!forall k r, Decision (P k r)} (f : swapRow -> swapRow) d n d' :
  (forall r, slot_of (f r) = slot_of r) -> update_steps P f d = Ok (n, d') -> journal_step o None d d'.
Proof.
  intros Hf [= <- <-]. split; [by apply slots_update | done |]. exists id. by destruct (_ !! o).
Qed.

Lemma update_restores_journal o ph f d n d' :
  (forall r, ro_phase (f r) = default (ro_phase r) ph) ->
  update_restores (fun k _ => k = o) f d = Ok (n, d') -> journal_step o ph d d'.
Proof.
  intros Hf [= <- <-]. split; [done| |].
  - intros k Hk. cbn. rewrite lookup_update. destruct (_ !! k); [|done]. cbn. by rewrite decide_False.
  - exists f. split; [|done]. cbn. rewrite lookup_update. destruct (_ !! o); [|done]. cbn. by rewrite decide_True.
Qed.

Lemma updateRestoreStep_journal o o' key phase fields now d u d' :
  (forall r, slot_of (fields r) = slot_of r) ->
  updateRestoreStep o' key phase fields now d = Ok (u, d') -> journal_step o None d d'.
Proof.
  intros Hf H. unfold updateRestoreStep in H. inv_tx. eapply update_steps_journal; [|done].
  intros r. cbn. by rewrite Hf.
Qed.

Lemma updateRestoreOperation_journal o phase detail now d u d' :
  updateRestoreOperation o phase detail now d = Ok (u, d') -> journal_step o (Some phase) d d'.
Proof. intros H. unfold updateRestoreOperation in H. inv_tx. eapply update_restores_journal; [|eassumption]. done. Qed.

Lemma recordCleanupDeferred_journal o now d u d' :
  recordCleanupDeferred o now d = Ok (u, d') -> journal_step o (Some RCleanupPending) d d'.
Proof. intros H. unfold recordCleanupDeferred in H. inv_tx. eapply update_restores_journal; [|eassumption]. done. Qed.

Lemma recordStepError_journal o o' key detail now d u d' :
  recordStepError o' key detail now d = Ok (u, d') -> journal_step o None d d'.
Proof. intros H. unfold recordStepError in H. inv_tx. eapply update_steps_journal; [|eassumption]. done. Qed.

Lemma markRestoreSteps_journal o o' detail now d u d' :
  markRestoreStepsActionRequired o' detail now d = Ok (u, d') -> journal_step o None d d'.
Proof. intros H. unfold markRestoreStepsActionRequired in H. inv_tx. eapply update_steps_journal; [|eassumption]. done. Qed.

Lemma replaceSecrets_journal o inst values now d u d' :
  replaceSecrets inst values now d = Ok (u, d') -> journal_step o None d d'.
Proof. unfold replaceSecrets. destruct (replaced_secrets _ _ _ _); [|done]. intros ?. simplify_eq. by apply journal_step_same. Qed.

Lemma on_helper_journal o {A} (m : tx db A) d a d' : on_helper m d = Ok (a, d') -> journal_step o None d d'.
Proof. unfold on_helper. destruct (m _) as [[? ?]|]; [|done]. intros [= <- <-]. by apply journal_step_same. Qed.

Lemma intent_journal o token running now d u d' :
  updateRestoreRuntimeIntent o token running now d = Ok (u, d') -> journal_step o (Some RSwapping) d d'.
Proof.
  unfold updateRestoreRuntimeIntent. intros H. inv_tx. unfold update_restores in *. simplify_eq.
  match goal with H : affected _ _ = 1%nat |- _ => apply (affected_pk_1 _ _ o) in H as (r & Hr & _ & Ht & Hs); [|naive_solver] end.
  split; [done| |].
  - intros k Hk. cbn. rewrite lookup_update. destruct (_ !! k); [|done]. cbn. rewrite decide_False; naive_solver.
  - exists (fun r => r <| ro_running := running_ids running |> <| ro_phase := RSwapping |> <| ro_updated_at := now |>).
    cbn. rewrite lookup_update, Hr. cbn. by rewrite decide_True.
Qed.

(** Closes [m now d = Ok (a, d') -> journal_step o ph d d'] for every statement
    of a journal. *)
Ltac journal_statement :=
  intros;
  match goal with
  | H : updateRestoreStep _ _ _ _ _ _ = Ok _ |- _ =>
      refine (updateRestoreStep_journal _ _ _ _ _ _ _ _ _ _ H); first [assumption | intros; reflexivity]
  | H : updateRestoreOperation _ _ _ _ _ = Ok _ |- _ => exact (updateRestoreOperation_journal _ _ _ _ _ _ _ H)
  | H : recordCleanupDeferred _ _ _ = Ok _ |- _ => exact (recordCleanupDeferred_journal _ _ _ _ _ H)
  | H : recordStepError _ _ _ _ _ = Ok _ |- _ => exact (recordStepError_journal _ _ _ _ _ _ _ _ H)
  | H : markRestoreStepsActionRequired _ _ _ _ = Ok _ |- _ => exact (markRestoreSteps_journal _ _ _ _ _ _ _ H)
  | H : replaceSecrets _ _ _ _ = Ok _ |- _ => exact (replaceSecrets_journal _ _ _ _ _ _ _ H)
  | H : updateRestoreRuntimeIntent _ _ _ _ _ = Ok _ |- _ => exact (intent_journal _ _ _ _ _ _ _ H)
  | H : on_helper _ _ = Ok _ |- _ => exact (on_helper_journal _ _ _ _ _ H)
  end.

(** ** One restore among others *)
Section one.
Context (operation : string) (table : gmap (string * string) slot) (settled : gset string).

Definition mine (key : string) (s : slot) : Prop := table !! (operation, key) = Some s.

(** The paths of the journals.  A restore that is settled, and so is at most
    cleaned up, may have had the same directory; its rollback tree may not. *)
Record separated : Prop := {
  sep_distinct key s : mine key s -> NoDup (slot_paths operation s);
  sep_identity key s : mine key s -> sl_original s <> sl_staged s;
  sep_keys key key' s s' p : mine key s -> mine key' s' -> key <> key' ->
    p ∈ slot_paths operation s -> p ∉ slot_paths operation s';
  sep_rollback o key key' s s' : o <> operation -> table !! (o, key') = Some s' -> mine key s ->
    sl_R s' ∉ slot_paths operation s;
  sep_others o key key' s s' p : o <> operation -> o ∉ settled -> table !! (o, key') = Some s' -> mine key s ->
    p ∈ slot_paths o s' -> p ∉ slot_paths operation s
}.

Definition uncommitted (p : restore_phase) : Prop := p <> RCommitted /\ p <> RCleanupPending /\ p <> RCompleted.

Definition all_placed (fs : files) : Prop := forall key s, mine key s -> placed s fs.
Definition all_committed (fs : files) : Prop := forall key s, mine key s -> committed s fs.

(** The tables list the directories of [table]; the settled restores are. *)
Record recorded (d : rdb) : Prop := {
  rec_steps : slot_of <$> rd_steps d = table;
  rec_settled o r : o ∈ settled -> rd_restores d !! o = Some r -> unresolved (ro_phase r) = false
}.

Definition phase_is (P : restore_phase -> Prop) (d : rdb) : Prop :=
  exists r, rd_restores d !! operation = Some r /\ P (ro_phase r).

(** The invariant. *)
Definition preserved (d : rdb) (fs : files) : Prop :=
  recorded d /\ (phase_is uncommitted d /\ all_placed fs \/ phase_is (fun _ => True) d /\ all_committed fs).

Definition own_same (fs fs' : files) : Prop := forall key s p, mine key s -> p ∈ slot_paths operation s -> fs' !! p = fs !! p.

Lemma own_O s : sl_O s ∈ slot_paths operation s. Proof. unfold slot_paths. set_solver. Qed.
Lemma own_S s : sl_S s ∈ slot_paths operation s. Proof. unfold slot_paths. set_solver. Qed.
Lemma own_R s : sl_R s ∈ slot_paths operation s. Proof. unfold slot_paths. set_solver. Qed.
Lemma own_F s : failed_of operation s ∈ slot_paths operation s. Proof. unfold slot_paths. set_solver. Qed.

Lemma all_placed_same fs fs' : own_same fs fs' -> all_placed fs -> all_placed fs'.
Proof.
  intros H HA key s Hs. apply (placed_frame s fs); [..|by eapply HA]; eapply H; eauto using own_O, own_S, own_R.
Qed.
Lemma all_committed_same fs fs' : own_same fs fs' -> all_committed fs -> all_committed fs'.
Proof.
  intros H HA key s Hs. apply (committed_frame s fs); [..|by eapply HA]; eapply H; eauto using own_O, own_S, own_R.
Qed.
Lemma preserved_same d fs fs' : own_same fs fs' -> preserved d fs -> preserved d fs'.
Proof. intros H [Hr [[? ?]|[? ?]]]; split; eauto using all_placed_same, all_committed_same. Qed.

(** A statement about one restore. *)
Lemma recorded_step o ph d d' : journal_step o ph d d' -> recorded d ->
  (o ∈ settled -> forall p, ph = Some p -> unresolved p = false) -> recorded d'.
Proof.
  intros [Hs Ho (f & Hf & Hph)] [Ht Hset] Hp. split; [by rewrite Hs|].
  intros o' r Hin Hr. destruct (decide (o' = o)) as [->|Hne].
  - rewrite Hf in Hr. destruct (rd_restores d !! o) as [r0|] eqn:E; [|done]. injection Hr as <-. rewrite Hph.
    destruct ph as [p|]; cbn; [by eapply Hp | by eapply Hset].
  - rewrite Ho in Hr by done. by eapply Hset.
Qed.

Lemma phase_step o ph d d' (P : restore_phase -> Prop) : journal_step o ph d d' -> phase_is P d ->
  (o = operation -> forall p, ph = Some p -> P p) -> phase_is P d'.
Proof.
  intros [_ Ho (f & Hf & Hph)] (r & Hr & HP) Hp. destruct (decide (o = operation)) as [->|Hne].
  - exists (f r). rewrite Hf, Hr. split; [done|]. rewrite Hph. destruct ph; cbn; auto.
  - exists r. by rewrite Ho.
Qed.

(** Another restore's statement. *)
Lemma preserved_other o ph d d' fs : o <> operation -> journal_step o ph d d' ->
  (o ∈ settled -> forall p, ph = Some p -> unresolved p = false) -> preserved d fs -> preserved d' fs.
Proof.
  intros Hne Hj Hp [Hr H]. split; [by eapply recorded_step|].
  destruct H as [[? ?]|[? ?]]; [left|right]; split; try done; eapply phase_step; eauto; naive_solver.
Qed.

(** ** Journals as they are loaded *)
Definition journal_of (o : string) (j : restoreJournal) : Prop :=
  jo_OperationID j = o /\
  (forall i, i ∈ jo_Storage j -> table !! (o, rj_Key i) = Some (item_slot i)) /\
  (forall key s, table !! (o, key) = Some s -> exists i, i ∈ jo_Storage j /\ rj_Key i = key /\ item_slot i = s) /\
  NoDup (rj_Key <$> jo_Storage j).

Lemma loaded_journal o d j : recorded d -> loadRestoreJournal o d = Ok j ->
  journal_of o j /\ exists r, rd_restores d !! o = Some r /\ jo_Phase j = ro_phase r.
Proof.
  intros [Ht _]. unfold loadRestoreJournal. destruct (rd_restores d !! o) as [r|] eqn:Hr; [|done].
  case_decide; [done|]. intros [= <-]. cbn. split; [|by exists r]. split; [done|]. cbn.
  assert (forall i, i ∈ journal_items o d <-> exists row, rd_steps d !! (o, rj_Key i) = Some row /\ i = journal_item ((o, rj_Key i), row)) as Hin.
  { intros i. unfold journal_items. rewrite elem_of_sort_by, list_elem_of_fmap. split.
    - intros ([[o' key] row] & -> & [Hk Heq]%elem_of_select). cbn in Heq. subst o'. by exists row.
    - intros (row & Hrow & ->). exists ((o, rj_Key i), row). by rewrite elem_of_select. }
  split_and!.
  - intros i (row & Hrow & ->)%Hin. rewrite <- Ht, lookup_fmap. cbn in *. by rewrite Hrow.
  - intros key s Hs. rewrite <- Ht, lookup_fmap in Hs. destruct (rd_steps d !! (o, key)) as [row|] eqn:Hrow; [|done].
    injection Hs as <-. exists (journal_item ((o, key), row)). split; [|done]. apply Hin. by exists row.
  - unfold journal_items. rewrite (sort_by_perm rj_Key). change (NoDup (rj_Key <$> (journal_item <$> select (fun k _ => k.1 = o) (rd_steps d)))).
    rewrite <- list_fmap_compose. apply NoDup_fmap_2_strong.
    + intros [[o1 k1] r1] [[o2 k2] r2] [H1 E1]%elem_of_select [H2 E2]%elem_of_select Hk. cbn in *. congruence.
    + unfold select. apply NoDup_map_to_list.
Qed.
End one.
