(* ===== verification/RestoreRecoveryProofs.v ===== *)
(** * Recovery of interrupted restores: lemmas

    What the recovery of one journal does to its own directories, and that the
    recovery of every other journal leaves them alone. *)

From S2P Require Import Prelude Protocol Exposure HelperDB Coordinator NetIP Ingress Containers Manifest ExternalStorage Secrets BackupPlan Restore RestoreProofs.
From stdpp Require Import base strings list gmap sorting fin_maps.
From Stdlib Require Import ZArith Lia.

Open Scope Z_scope.

(** ** The container engine *)
Section engine_calls.
Context {E : Type} `{Host : RestoreHost E} (P : rassn).

Lemma rkeeps_start id : (forall d fs l, P d fs l -> P d fs (l ++ [(EStart id, fs, pd_secrets (rd_plan d))])) ->
  rkeeps P (start (E:=E) id).
Proof. intros H d fs l HP. apply rwp_engine; auto. Qed.

Lemma rkeeps_stop id : (forall d fs l, P d fs l -> P d fs (l ++ [(EStop id, fs, pd_secrets (rd_plan d))])) ->
  rkeeps P (stop (E:=E) id).
Proof. intros H d fs l HP. apply rwp_engine; auto. Qed.

Lemma rkeeps_resume plan running :
  (forall id d fs l, P d fs l -> P d fs (l ++ [(EStart id, fs, pd_secrets (rd_plan d))])) ->
  rkeeps P (resumeBackupRuntime (E:=E) plan running).
Proof.
  intros HP. unfold resumeBackupRuntime. induction (bp_StartOrder plan) as [|id order IH]; cbn; [apply rkeeps_ret|].
  case_decide; [done|]. apply rkeeps_try; [apply rkeeps_start, HP|intros; apply rkeeps_ret|]. intros _.
  apply rkeeps_bind; [apply rkeeps_inspect|]. intros [state|]; [|apply rkeeps_ret].
  destruct (runtimeRunning state); [done|apply rkeeps_ret].
Qed.

Hypothesis P_log : forall d fs l l', P d fs l -> P d fs l'.

Lemma rkeeps_quiesce plan running : rkeeps P (quiesceRecordedBackupRuntime (E:=E) plan running).
Proof.
  assert (rkeeps P (resumeBackupRuntime (E:=E) plan running)) as Hr by (apply rkeeps_resume; eauto).
  unfold quiesceRecordedBackupRuntime. induction (rev _) as [|id order IH]; cbn; [apply rkeeps_ret|].
  case_decide; [done|]. apply rkeeps_try; [apply rkeeps_stop; eauto| |].
  { intros e. apply rkeeps_bind; [done|]. intros _. apply rkeeps_ret. }
  intros _. apply rkeeps_bind; [apply rkeeps_inspect|].
  intros [state|]; [destruct (runtimeRunning state); [|done]|]; apply rkeeps_bind; try done; intros _; apply rkeeps_ret.
Qed.

Lemma rkeeps_snapshot plan : rkeeps P (snapshotBackupRuntime (E:=E) plan).
Proof.
  unfold snapshotBackupRuntime. generalize (∅ : gmap string bool).
  induction (bp_Components plan) as [|c cs IH]; intros m; cbn; [apply rkeeps_ret|].
  case_decide; [done|]. apply rkeeps_try; [apply rkeeps_inspect|intros; apply rkeeps_ret|].
  intros [b|]; [done|apply rkeeps_ret].
Qed.

Lemma rkeeps_stop_all plan : rkeeps P (stopBackupRuntime (E:=E) plan).
Proof.
  unfold stopBackupRuntime. induction (rev _) as [|id order IH]; cbn; [apply rkeeps_ret|].
  case_decide; [done|]. apply rkeeps_bind; [apply rkeeps_inspect|].
  intros [state|]; [|done]. destruct (runtimeRunning state); [|done].
  apply rkeeps_bind; [apply rkeeps_stop; eauto|]. done.
Qed.

Lemma rkeeps_resume_any plan running : rkeeps P (resumeBackupRuntime (E:=E) plan running).
Proof. apply rkeeps_resume; eauto. Qed.
End engine_calls.

Lemma rkeeps_classify {E} `{RestoreHost E} (P : rassn) item : rkeeps P (classifyRestorePaths (E:=E) item).
Proof.
  unfold classifyRestorePaths, ambiguous_path.
  repeat match goal with
  | |- rkeeps _ (if ?b then _ else _) => destruct b
  | _ => rkeeps_step
  end.
Qed.

Lemma rkeeps_survey {E} `{RestoreHost E} (P : rassn) items a c : rkeeps P (survey (E:=E) items a c).
Proof.
  revert a c. induction items as [|i items IH]; intros a c; cbn; [apply rkeeps_ret|].
  apply rkeeps_bind; [apply rkeeps_classify|]. intros [[act av]|]; [done|apply rkeeps_ret].
Qed.

Lemma rkeeps_plan {E} `{RestoreHost E} (P : rassn) catalog j : rkeeps P (restoreRecoveryPlan (E:=E) catalog j).
Proof. unfold restoreRecoveryPlan, load_plan. repeat rkeeps_step. Qed.

(** ** Another restore's journal *)
Section foreign.
Context {E : Type} `{Host : RestoreHost E} (catalog : res (gmap string Manifest)) (unmarshal : string -> option json).
Context (operation : string) (table : gmap (string * string) slot) (settled : gset string).
Hypothesis Hsep : separated operation table settled.

(** The row of the restore does not change either. *)
Context (Row : option restoreRow -> Prop).
Definition kept : rassn := fun d fs _ => preserved operation table settled d fs /\ Row (rd_restores d !! operation).

Lemma kept_log d fs l l' : kept d fs l -> kept d fs l'.
Proof. done. Qed.

Context (o : string) (j : restoreJournal) (Hne : o <> operation) (Hj : journal_of table o j).

Lemma kept_store {A} (m : string -> tx rdb A) ph :
  (forall now d a d', m now d = Ok (a, d') -> journal_step o ph d d') ->
  (o ∈ settled -> forall p, ph = Some p -> unresolved p = false) -> rkeeps (E:=E) kept (rstore m).
Proof.
  intros Hm Hp. apply rkeeps_rstore. intros now d fs l a d' [HP HR] E1. pose proof (Hm _ _ _ _ E1) as Hst.
  split; [by eapply preserved_other|]. by rewrite (js_others _ _ _ _ Hst).
Qed.

Lemma kept_paths d fs fs' ps l :
  kept d fs l ->
  (forall key s, mine operation table key s -> forall p, p ∈ ps -> p ∉ slot_paths operation s) -> outside ps fs fs' ->
  kept d fs' l.
Proof.
  intros [HP HR] Hps Ho. split; [|done]. eapply preserved_same; [|done]. intros key s p Hs Hp. apply Ho. intros Hin. by eapply Hps.
Qed.

Lemma kept_remove p : (forall key s, mine operation table key s -> p ∉ slot_paths operation s) ->
  rkeeps (E:=E) kept (removeBackupTree p).
Proof.
  intros Hp. apply rkeeps_remove; intros d fs l HP; (eapply (kept_paths d fs _ [p]); [done| |]);
    try (intros key s Hs q ->%list_elem_of_singleton; by eapply Hp);
    [apply outside_alter | apply outside_delete]; apply list_elem_of_here.
Qed.

Lemma kept_rename p q : (forall key s, mine operation table key s -> p ∉ slot_paths operation s /\ q ∉ slot_paths operation s) ->
  rkeeps (E:=E) kept (rename p q).
Proof.
  intros Hp. apply rkeeps_rename. intros d fs l t HP _ _. eapply (kept_paths d fs _ [p; q]); [done| |].
  - intros key s Hs x. destruct (Hp key s Hs). set_solver.
  - apply outside_insert_delete; set_solver.
Qed.

Lemma kept_engine plan running : rkeeps (E:=E) kept (resumeBackupRuntime plan running).
Proof. apply rkeeps_resume_any. exact kept_log. Qed.

Lemma foreign_rollback i key s : i ∈ jo_Storage j -> mine operation table key s -> rj_RollbackPath i ∉ slot_paths operation s.
Proof.
  destruct Hj as (_ & Hi & _ & _). intros Hin Hs. apply (sep_rollback _ _ _ Hsep o key (rj_Key i) s (item_slot i)); auto.
Qed.

Lemma kept_cleanup completed items deferred :
  (forall r, slot_of (completed r) = slot_of r) -> (forall i, i ∈ items -> i ∈ jo_Storage j) ->
  rkeeps (E:=E) kept (cleanup_items j completed items deferred).
Proof.
  intros Hc. revert deferred. induction items as [|i items IH]; intros deferred Hi; cbn; [apply rkeeps_ret|].
  assert (i ∈ jo_Storage j) as Hin by (apply Hi; set_solver).
  specialize (fun b => IH b (fun x Hx => Hi x (list_elem_of_further _ _ _ Hx))).
  apply rkeeps_bind. { eapply (kept_store _ None); [|done]. journal_statement. }
  intros _. apply rkeeps_bind. { apply kept_remove. intros key s Hs. by eapply foreign_rollback. }
  intros [u|e]; (apply rkeeps_bind; [|intros _; apply IH]); (eapply (kept_store _ None); [|done]); journal_statement.
Qed.

Lemma kept_cleanup_only : rkeeps (E:=E) kept (finishRestoreCleanupOnly j).
Proof.
  destruct Hj as (Ho & _). unfold finishRestoreCleanupOnly.
  apply rkeeps_bind; [by apply kept_cleanup|]. rewrite Ho. intros [].
  - apply rkeeps_bind; [|intros; apply rkeeps_ret].
    eapply (kept_store _ (Some RCleanupPending)); [|naive_solver]. journal_statement.
  - eapply (kept_store _ (Some RCompleted)); [|naive_solver]. journal_statement.
Qed.

Hypothesis Hopen : o ∉ settled.

Lemma kept_operation phase detail : rkeeps (E:=E) kept (rstore (updateRestoreOperation o phase detail)).
Proof. eapply (kept_store _ (Some phase)); [|done]. journal_statement. Qed.

Lemma foreign_paths i key s p : i ∈ jo_Storage j -> mine operation table key s ->
  p ∈ slot_paths o (item_slot i) -> p ∉ slot_paths operation s.
Proof. destruct Hj as (_ & Hi & _ & _). intros Hin Hs. eapply (sep_others _ _ _ Hsep o key (rj_Key i)); auto. Qed.

Lemma kept_undo_item i : i ∈ jo_Storage j -> rkeeps (E:=E) kept (undo_item j i).
Proof.
  intros Hi. destruct Hj as (Ho & _). unfold undo_item.
  assert (forall p, p ∈ slot_paths o (item_slot i) -> forall key s, mine operation table key s -> p ∉ slot_paths operation s) as Hp
    by (intros p Hp key s Hs; by eapply foreign_paths).
  apply rkeeps_bind; [apply rkeeps_classify|]. intros [[act []]|]; [|apply rkeeps_ret..].
  apply rkeeps_try; [|intros; apply rkeeps_ret|intros _].
  { unfold put_away. assert (rj_OriginalPath i +:+ failed_mark +:+ jo_OperationID j = failed_of o (item_slot i)) as -> by (by rewrite Ho).
    case_decide; [|apply rkeeps_ret]. apply rkeeps_bind; [apply kept_remove, Hp, own_F|]. intros _.
    apply kept_rename. intros key s Hs. split; eapply Hp; eauto; [apply (own_O o (item_slot i)) | apply own_F]. }
  apply rkeeps_try; [|intros; apply rkeeps_ret|intros _].
  { apply rkeeps_try; [apply rkeeps_exact|intros; apply rkeeps_ret|]. intros b.
    destruct b; [|apply rkeeps_ret]. apply kept_rename. intros key s Hs.
    split; eapply Hp; eauto; [apply (own_R o (item_slot i)) | apply (own_O o (item_slot i))]. }
  apply rkeeps_bind; [apply kept_remove, Hp, (own_S o (item_slot i))|]. intros _.
  apply rkeeps_bind; [|intros; apply rkeeps_ret]. eapply (kept_store _ None); [|done]. journal_statement.
Qed.

Lemma kept_undo_items items : (forall i, i ∈ items -> i ∈ jo_Storage j) -> rkeeps (E:=E) kept (undo_items j items).
Proof.
  induction items as [|i items IH]; intros Hi; cbn; [apply rkeeps_ret|].
  apply rkeeps_try; [apply kept_undo_item, Hi; set_solver|intros; apply rkeeps_ret|]. intros _. apply IH. set_solver.
Qed.

Lemma kept_secrets inst values : rkeeps (E:=E) kept (rstore (replaceSecrets inst values)).
Proof. eapply (kept_store _ None); [|done]. journal_statement. Qed.

Lemma kept_resolve token : rkeeps (E:=E) kept (resolve_journal catalog unmarshal j token).
Proof.
  pose proof Hj as (Ho & _). unfold resolve_journal.
  apply rkeeps_bind; [apply rkeeps_survey|]. intros [a c]. cbn.
  assert (forall response, rkeeps (E:=E) kept (complete_recovery unmarshal (jo_OperationID j) token response)) as Hcr.
  { intros response. apply rkeeps_try; [|intros; apply rkeeps_ret..].
    eapply (kept_store _ None); [|done]. journal_statement. }
  destruct a; [|destruct c].
  - apply rkeeps_try; [|intros; apply rkeeps_ret|].
    2: { intros _. apply rkeeps_try; [done|intros; apply rkeeps_ret..]. }
    unfold finishRestoreForward. apply rkeeps_try; [|intros; apply rkeeps_ret|intros _].
    { unfold commit_recovered. rewrite Ho. case_decide; [apply rkeeps_ret|].
      repeat first [apply kept_operation | apply kept_secrets | apply kept_engine | apply rkeeps_plan | rkeeps_step]. }
    apply rkeeps_bind; [by apply kept_cleanup|]. rewrite Ho. intros [].
    + eapply (kept_store _ (Some RCleanupPending)); [|done]. journal_statement.
    + apply kept_operation.
  - apply rkeeps_try; [|intros; apply rkeeps_ret|].
    2: { intros _. apply rkeeps_try; [done|intros; apply rkeeps_ret..]. }
    unfold finishRestoreRollback. apply rkeeps_try; [|intros; apply rkeeps_ret|intros _].
    { apply kept_undo_items. intros i. rewrite !list_elem_of_In. apply in_rev. }
    rewrite Ho.
    repeat first [apply kept_operation | apply kept_secrets | apply kept_engine | apply rkeeps_plan
      | match goal with |- rkeeps _ (if ?b then _ else _) => destruct b end | rkeeps_step].
  - apply rkeeps_try; [|intros; apply rkeeps_ret|intros _].
    { eapply (kept_store _ None); [|done]. journal_statement. }
    rewrite Ho. apply rkeeps_try; [apply kept_operation|intros; apply rkeeps_ret..].
Qed.
End foreign.

(** ** Looking at the directories *)
Definition restored_in (fs : files) (i : restoreStorageJournal) : bool :=
  bool_decide (tr_identity <$> fs !! rj_OriginalPath i = Some (rj_Staged i)).
Definition available_in (fs : files) (i : restoreStorageJournal) : bool :=
  bool_decide (tr_identity <$> fs !! rj_OriginalPath i = Some (rj_Original i)) ||
  bool_decide (tr_identity <$> fs !! rj_RollbackPath i = Some (rj_Original i)).

Definition stays (d : rdb) (fs : files) (l : rlog) : rassn := fun d' fs' l' => d' = d /\ fs' = fs /\ l' = l.

Section looking.
Context {E : Type} `{Host : RestoreHost E}.

Lemma classify_spec i (C : rassn) d fs l : C d fs l ->
  rwp (E:=E) (classifyRestorePaths i) (fun r d' fs' l' => stays d fs l d' fs' l' /\
    forall act av, r = Ok (act, av) -> av = available_in fs i /\ (act = ActiveRestored <-> restored_in fs i = true)) C d fs l.
Proof.
  intros HC. unfold classifyRestorePaths, ambiguous_path, stays.
  repeat match goal with
  | |- rwp (ptry (exactPathIdentity _ _) _ _) _ _ _ _ _ =>
      apply rwp_try, rwp_exact; [done | intros; apply rwp_ret; naive_solver|]
  | |- rwp (ptry (ptry (pathIdentity _) _ _) _ _) _ _ _ _ _ =>
      apply rwp_try, rwp_try, rwp_identity; [done | intros; apply rwp_ret, rwp_ret; naive_solver|]; apply rwp_ret
  | |- rwp (if ?b then _ else _) _ _ _ _ _ => destruct b; [apply rwp_ret; naive_solver|]
  end.
  apply rwp_ret. split; [done|]. intros act av [= <- <-]. split; [done|]. unfold restored_in.
  repeat case_bool_decide; naive_solver.
Qed.

Lemma survey_spec items a c (C : rassn) d fs l : C d fs l ->
  rwp (E:=E) (survey items a c) (fun r d' fs' l' => stays d fs l d' fs' l' /\
    (r = (false, false) \/ r = (a && forallb (restored_in fs) items, c && forallb (available_in fs) items))) C d fs l.
Proof.
  intros HC. revert a c. induction items as [|i items IH]; intros a c; cbn.
  - apply rwp_ret. rewrite !andb_true_r. split; [done|]. by right.
  - apply rwp_bind. eapply rwp_mono; [by apply (classify_spec i C)| |done].
    intros r d' fs' l' ((-> & -> & ->) & Hr). destruct r as [[act av]|]; [|apply rwp_ret; split; [done|by left]].
    destruct (Hr act av eq_refl) as [-> Hact]. eapply rwp_mono; [apply IH| |done].
    intros r d' fs' l' [Hs [->| ->]]; split; auto. right. rewrite <- !andb_assoc. repeat f_equal.
    destruct (restored_in fs i); case_bool_decide; naive_solver.
Qed.
End looking.
