(* ===== verification/RestoreOwnProofs.v ===== *)
(** * Recovery of a restore from its own journal: lemmas

    Undoing a restore keeps every whole original and ends with all of them in
    place; completing one keeps every restored tree. *)

From S2P Require Import Prelude Protocol Exposure HelperDB Coordinator NetIP Ingress Containers Manifest ExternalStorage Secrets BackupPlan Restore RestoreProofs RestoreRecoveryProofs.
From stdpp Require Import base strings list gmap sorting fin_maps.
From Stdlib Require Import ZArith Lia.

Open Scope Z_scope.

(** ** The journal of the restore itself *)
Section own.
Context {E : Type} `{Host : RestoreHost E}.
Context (operation : string) (table : gmap (string * string) slot) (settled : gset string).
Hypothesis Hsep : separated operation table settled.

Notation mine := (mine operation table).
Notation recorded := (recorded table settled).
Notation all_placed := (all_placed operation table).
Notation all_committed := (all_committed operation table).

Definition no_storage : Prop := forall key, table !! (operation, key) = None.

(** Not committed yet, or nothing to commit. *)
Definition open_phase (d : rdb) : Prop := phase_is operation (fun p => uncommitted p \/ no_storage) d.

Definition undoing (G : rlog -> Prop) : rassn := fun d fs l => recorded d /\ open_phase d /\ all_placed fs /\ G l.
Definition forwarding (G : rlog -> Prop) : rassn := fun d fs l =>
  recorded d /\ phase_is operation (fun _ => True) d /\ all_committed fs /\ G l.

Lemma undoing_preserved G d fs l : undoing G d fs l -> preserved operation table settled d fs.
Proof.
  intros (Hr & (r & Hr' & [Hu|He]) & Hp & _); split; try done.
  - left. split; [by exists r|done].
  - right. split; [by exists r|]. intros key s Hs. unfold RestoreProofs.mine in Hs. by rewrite He in Hs.
Qed.

Lemma forwarding_preserved G d fs l : forwarding G d fs l -> preserved operation table settled d fs.
Proof. intros (Hr & Hp & Hc & _). split; [done|]. by right. Qed.

Lemma placed_elsewhere key s fs fs' : mine key s -> outside (slot_paths operation s) fs fs' -> placed s fs' ->
  all_placed fs -> all_placed fs'.
Proof.
  intros Hs Ho Hp HA key' s' Hs'. destruct (decide (key' = key)) as [->|Hne]; [unfold RestoreProofs.mine in *; naive_solver|].
  assert (forall p, p ∈ slot_paths operation s' -> fs' !! p = fs !! p) as Hsame
    by (intros p Hin; apply Ho; by eapply (sep_keys _ _ _ Hsep key' key)).
  apply (placed_frame s' fs); [apply Hsame, own_O | apply Hsame, own_S | apply Hsame, own_R | by eapply HA].
Qed.

Lemma committed_elsewhere key s fs fs' : mine key s -> outside (slot_paths operation s) fs fs' -> committed s fs' ->
  all_committed fs -> all_committed fs'.
Proof.
  intros Hs Ho Hp HA key' s' Hs'. destruct (decide (key' = key)) as [->|Hne]; [unfold RestoreProofs.mine in *; naive_solver|].
  assert (forall p, p ∈ slot_paths operation s' -> fs' !! p = fs !! p) as Hsame
    by (intros p Hin; apply Ho; by eapply (sep_keys _ _ _ Hsep key' key)).
  apply (committed_frame s' fs); [apply Hsame, own_O | apply Hsame, own_S | apply Hsame, own_R | by eapply HA].
Qed.

Record path_facts (s : slot) : Prop := {
  pf_OS : sl_O s <> sl_S s; pf_OR : sl_O s <> sl_R s; pf_OF : sl_O s <> failed_of operation s;
  pf_SR : sl_S s <> sl_R s; pf_SF : sl_S s <> failed_of operation s; pf_RF : sl_R s <> failed_of operation s
}.

Lemma own_facts key s : mine key s -> path_facts s.
Proof.
  intros Hs. pose proof (sep_distinct _ _ _ Hsep key s Hs) as Hnd. unfold slot_paths in Hnd.
  rewrite !NoDup_cons in Hnd. destruct Hnd as (H1 & H2 & H3 & _). split; set_solver.
Qed.

(** Renaming the active tree away, and the original back. *)
Lemma placed_put_away key s fs t : mine key s -> placed s fs -> tr_identity <$> fs !! sl_O s = Some (sl_staged s) ->
  fs !! sl_O s = Some t ->
  placed s (<[failed_of operation s := t]> (delete (sl_O s) fs)).
Proof.
  intros Hs Hp Hi Ht. destruct (own_facts key s Hs). pose proof (sep_identity _ _ _ Hsep key s Hs).
  destruct Hp as [HO|HO|HO HR HS]; rewrite HO in Hi; [by injection Hi|done|].
  apply placed_moved.
  - rewrite lookup_insert_ne, lookup_delete_eq by congruence. done.
  - rewrite lookup_insert_ne, lookup_delete_ne by congruence. done.
  - intros t'. rewrite lookup_insert_ne, lookup_delete_ne by congruence. by rewrite HS.
Qed.

Lemma placed_put_back key s fs t : mine key s -> placed s fs -> fs !! sl_R s = Some t -> fs !! sl_O s = None ->
  let fs' := <[sl_O s := t]> (delete (sl_R s) fs) in placed s fs' /\ fs' !! sl_O s = Some (whole (sl_original s)).
Proof.
  intros Hs Hp Ht HN fs'. destruct (own_facts key s Hs). subst fs'.
  destruct Hp as [HO|HO HR HS|HO]; [congruence| |congruence]. rewrite HR in Ht. injection Ht as <-.
  split; [|by rewrite lookup_insert_eq]. apply placed_original.
  - by rewrite lookup_insert_eq.
  - rewrite lookup_insert_ne, lookup_delete_eq by congruence. done.
  - intros t'. rewrite lookup_insert_ne, lookup_delete_ne by congruence. apply HS.
Qed.

Lemma placed_staging_gone key s fs fs' : mine key s -> outside [sl_S s] fs fs' ->
  (fs' !! sl_S s = None \/ fs' !! sl_S s = broken <$> fs !! sl_S s) -> placed s fs -> placed s fs'.
Proof.
  intros Hs Ho HS Hp. destruct (own_facts key s Hs).
  assert (fs' !! sl_O s = fs !! sl_O s) as EO by (apply Ho; set_solver).
  assert (fs' !! sl_R s = fs !! sl_R s) as ER by (apply Ho; set_solver).
  assert (staging s fs -> staging s fs') as Hst.
  { intros H t Ht. destruct HS as [HS|HS]; rewrite HS in Ht; [done|].
    destruct (fs !! sl_S s) as [t0|] eqn:E0; [|done]. injection Ht as <-. cbn. by apply H. }
  destruct Hp as [? ? ?|? ? ?|? ? HN]; [apply placed_original | apply placed_moved | apply placed_swapped];
    rewrite ?EO, ?ER; auto.
  destruct HS as [HS|HS]; [done|]. rewrite HS, HN. done.
Qed.

(** The removal of a rollback tree, complete or not. *)
Definition rollback_gone (s : slot) (fs fs' : files) : Prop :=
  outside [sl_R s] fs fs' /\
  forall t, fs' !! sl_R s = Some t -> exists t0, fs !! sl_R s = Some t0 /\ tr_identity t = tr_identity t0.

Lemma rollback_gone_remove (P : rassn) s :
  (forall d fs fs' l, P d fs l -> rollback_gone s fs fs' -> P d fs' l) -> rkeeps (E:=E) P (removeBackupTree (sl_R s)).
Proof.
  intros HP. apply rkeeps_remove; intros d fs l H; (eapply HP; [done|]; split).
  - apply outside_alter, list_elem_of_here.
  - intros t. rewrite lookup_alter_eq. destruct (fs !! _) as [t0|]; [|done]. intros [= <-]. by exists t0.
  - apply outside_delete, list_elem_of_here.
  - intros t. by rewrite lookup_delete_eq.
Qed.

Lemma committed_rollback_gone key s fs fs' : mine key s -> rollback_gone s fs fs' -> all_committed fs -> all_committed fs'.
Proof.
  intros Hs [Ho Ht] HC. destruct (own_facts key s Hs). eapply (committed_elsewhere key s fs); [done| | |done].
  - intros p Hp. apply Ho. unfold slot_paths in Hp. set_solver.
  - destruct (HC _ _ Hs) as [HO HR HS]. split; [rewrite Ho; [done|set_solver]| |rewrite Ho; [done|set_solver]].
    intros t (t0 & Ht0 & ->)%Ht. by apply HR.
Qed.

Hypothesis Hopen : operation ∉ settled.

Lemma undoing_step G ph d d' fs l : journal_step operation ph d d' -> (forall p, ph = Some p -> uncommitted p) ->
  undoing G d fs l -> undoing G d' fs l.
Proof.
  intros Hs Hp (Hr & Ho & ? & ?). split_and!; try done.
  - by eapply recorded_step.
  - eapply phase_step; [done..|]. intros _ p Hp'. left. by apply Hp.
Qed.

Lemma forwarding_step G ph d d' fs l : journal_step operation ph d d' ->
  forwarding G d fs l -> forwarding G d' fs l.
Proof. intros Hs (Hr & Ho & ? & ?). split_and!; try done; [by eapply recorded_step | by eapply phase_step]. Qed.

Lemma undoing_store G {A} (m : string -> tx rdb A) ph : (forall p, ph = Some p -> uncommitted p) ->
  (forall now d a d', m now d = Ok (a, d') -> journal_step operation ph d d') -> rkeeps (E:=E) (undoing G) (rstore m).
Proof. intros Hp Hm. apply rkeeps_rstore. intros now d fs l a d' HP E1. eapply undoing_step; eauto. Qed.

Lemma forwarding_store G {A} (m : string -> tx rdb A) ph :
  (forall now d a d', m now d = Ok (a, d') -> journal_step operation ph d d') -> rkeeps (E:=E) (forwarding G) (rstore m).
Proof. intros Hm. apply rkeeps_rstore. intros now d fs l a d' HP E1. eapply forwarding_step; eauto. Qed.

Definition original_active (s : slot) (fs : files) : Prop := fs !! sl_O s = Some (whole (sl_original s)).

(** The state while the directory [s] is being put back. *)
Definition at_slot (G : rlog -> Prop) (s : slot) (fs : files) : rassn := fun d' fs' l' =>
  undoing G d' fs' l' /\ outside (slot_paths operation s) fs fs'.

Lemma at_slot_move G key s fs0 fs fs' d l : mine key s -> at_slot G s fs0 d fs l ->
  outside (slot_paths operation s) fs fs' -> placed s fs' -> at_slot G s fs0 d fs' l.
Proof.
  intros Hs [(Hr & Hp & HA & HG) Ho] Ho' Hpl. split; [|by eapply outside_trans].
  split_and!; try done. by eapply placed_elsewhere.
Qed.

Lemma put_away_spec G i key s fs0 d fs l : mine key s -> item_slot i = s -> at_slot G s fs0 d fs l ->
  restored_in fs i = true ->
  rwp (E:=E) (run* _ := removeBackupTree (failed_of operation s) in rename (sl_O s) (failed_of operation s))
    (fun _ => at_slot G s fs0) (at_slot G s fs0) d fs l.
Proof.
  intros Hs Hi HP Hres. destruct (own_facts key s Hs).
  assert (forall fs', outside [failed_of operation s] fs fs' -> at_slot G s fs0 d fs' l /\
            tr_identity <$> fs' !! sl_O s = Some (sl_staged s)) as Hrm.
  { intros fs' Ho. assert (forall p, p ∈ [sl_O s; sl_S s; sl_R s] -> fs' !! p = fs !! p) as Hsame.
    { intros p Hp. apply Ho. set_solver. }
    split.
    - eapply at_slot_move; [done..| |].
      + intros p Hp. apply Ho. unfold slot_paths in Hp. set_solver.
      + destruct HP as [(_ & _ & HA & _) _]. apply (placed_frame s fs); [apply Hsame; set_solver..|by eapply HA].
    - rewrite Hsame by set_solver. unfold restored_in in Hres. apply bool_decide_eq_true in Hres. by subst s. }
  apply rwp_bind. apply rwp_remove; [done| | |]; intros;
    match goal with |- rwp _ _ _ _ ?f _ => assert (outside [failed_of operation s] fs f) as Ho by
      first [apply outside_refl | apply outside_alter, list_elem_of_here | apply outside_delete, list_elem_of_here] end;
    destruct (Hrm _ Ho) as [HP' Hid]; (apply rwp_rename; [done..|]);
    intros t Ht _; (eapply at_slot_move; [done..| |]);
    [apply outside_insert_delete; [apply own_O|apply own_F] | | apply outside_insert_delete; [apply own_O|apply own_F] |
     | apply outside_insert_delete; [apply own_O|apply own_F] |];
    (destruct HP' as [(_ & _ & HA & _) _]; eapply placed_put_away; eauto).
Qed.

Lemma put_back_spec G i key s fs0 d fs l : mine key s -> item_slot i = s -> at_slot G s fs0 d fs l ->
  rwp (E:=E) (put_back i)
    (fun r d' fs' l' => at_slot G s fs0 d' fs' l' /\ (r = Ok tt -> original_active s fs')) (at_slot G s fs0) d fs l.
Proof.
  intros Hs Hi HP. unfold put_back. apply rwp_try, rwp_exact; [done|intros; by apply rwp_ret|].
  pose proof HP as [(_ & _ & HA & _) _]. specialize (HA key s Hs).
  assert (rj_RollbackPath i = sl_R s /\ rj_OriginalPath i = sl_O s /\ rj_Original i = sl_original s) as (-> & -> & ->)
    by (by subst s).
  case_bool_decide as Hex.
  - apply rwp_rename; [done|naive_solver|]. intros t Ht HN.
    destruct (placed_put_back key s fs t Hs HA Ht HN) as [Hpl Ha]. split; [|done].
    eapply at_slot_move; [done..| |done]. apply outside_insert_delete; [apply own_R | apply own_O].
  - apply rwp_ret. split; [done|]. intros _. destruct HA as [HO|HO HR|HO HR]; [done| |]; rewrite HR in Hex; done.
Qed.

Context (catalog : res (gmap string Manifest)) (unmarshal : string -> option json).
Context (j : restoreJournal) (Hj : journal_of table operation j).

Lemma undo_item_spec G i d fs l : i ∈ jo_Storage j -> undoing G d fs l ->
  rwp (E:=E) (undo_item j i)
    (fun r d' fs' l' => at_slot G (item_slot i) fs d' fs' l' /\ (r = Ok tt -> original_active (item_slot i) fs'))
    (undoing G) d fs l.
Proof.
  intros Hin HU. destruct Hj as (Hop & Hi & _). set (s := item_slot i). assert (mine (rj_Key i) s) as Hs by (by apply Hi).
  assert (at_slot G s fs d fs l) as HP by (split; [done|apply outside_refl]).
  assert (forall d' fs' l', at_slot G s fs d' fs' l' -> undoing G d' fs' l') as Hw by (by intros ? ? ? [? _]).
  unfold undo_item. apply rwp_bind. eapply rwp_mono; [by apply classify_spec| |done].
  intros r d' fs' l' ((-> & -> & ->) & Hr). destruct r as [[act []]|]; try by apply rwp_ret.
  destruct (Hr _ _ eq_refl) as [_ Hact]. apply rwp_try.
  eapply (rwp_mono _ (fun _ => at_slot G s fs) _ (at_slot G s fs)); [| |done].
  { unfold put_away. rewrite Hop. case_decide as Hd; [|by apply rwp_ret].
    apply (put_away_spec G i (rj_Key i) s fs); try done. by apply Hact. }
  intros [[]|e] d1 fs1 l1 HP1; [|apply rwp_ret; naive_solver]. apply rwp_try.
  eapply rwp_mono; [by apply (put_back_spec G i (rj_Key i) s fs)| |done].
  intros [[]|e] d2 fs2 l2 [HP2 Ha]; [|apply rwp_ret; naive_solver]. specialize (Ha eq_refl).
  destruct (own_facts _ s Hs). apply rwp_bind. pose proof HP2 as [(_ & _ & HA & _) _].
  assert (forall fs', outside [sl_S s] fs2 fs' -> (fs' !! sl_S s = None \/ fs' !! sl_S s = broken <$> fs2 !! sl_S s) ->
            at_slot G s fs d2 fs' l2 /\ original_active s fs') as Hrm.
  { intros fs' Ho HS. split; [|unfold original_active; rewrite Ho by set_solver; done].
    eapply at_slot_move; [done..| |eapply placed_staging_gone; eauto].
    intros p Hp. apply Ho. unfold slot_paths in Hp. set_solver. }
  assert (forall fs', at_slot G s fs d2 fs' l2 /\ original_active s fs' ->
    rwp (E:=E) (run* _ := rstore (updateRestoreStep (jo_OperationID j) (rj_Key i) SRolledBack id) in pret (Ok tt))
      (fun r d' fs' l' => at_slot G s fs d' fs' l' /\ (r = Ok tt -> original_active s fs')) (undoing G) d2 fs' l2) as Hend.
  { intros fs' [HP' Ha']. apply rwp_bind, rwp_rstore; [by apply Hw|intros; by apply rwp_ret|].
    intros now u d' Hu. apply rwp_ret. split; [|done]. destruct HP' as [HU' Ho']. split; [|done].
    eapply (undoing_step G None); [|done..]. journal_statement. }
  apply rwp_remove; [by apply Hw| | |]; intros; apply Hend; [done| |]; apply Hrm.
  - apply outside_alter, list_elem_of_here.
  - right. by rewrite lookup_alter_eq.
  - apply outside_delete, list_elem_of_here.
  - left. by rewrite lookup_delete_eq.
Qed.

(** What is in place stays in place while other directories are put back. *)
Lemma undo_items_spec G items d fs l : (forall i, i ∈ items -> i ∈ jo_Storage j) -> NoDup (rj_Key <$> items) ->
  undoing G d fs l ->
  rwp (E:=E) (undo_items j items)
    (fun r d' fs' l' => undoing G d' fs' l' /\
       (forall key s, mine key s -> key ∉ rj_Key <$> items -> original_active s fs -> original_active s fs') /\
       (r = Ok tt -> forall i, i ∈ items -> original_active (item_slot i) fs')) (undoing G) d fs l.
Proof.
  revert d fs l. induction items as [|i items IH]; intros d fs l Hin Hnd HU; cbn.
  - apply rwp_ret. split_and!; [done..|]. set_solver.
  - rewrite fmap_cons, NoDup_cons in Hnd. destruct Hnd as [Hni Hnd].
    assert (mine (rj_Key i) (item_slot i)) as Hmi by (apply Hj, Hin; set_solver).
    apply rwp_try. eapply rwp_mono; [apply undo_item_spec; [apply Hin; set_solver|done]| |done].
    intros r d1 fs1 l1 [[HU1 Ho] Ha].
    assert (forall key s, mine key s -> key <> rj_Key i -> original_active s fs -> original_active s fs1) as Hkeep.
    { intros key s Hs Hne H. unfold original_active. rewrite Ho; [done|]. eapply (sep_keys _ _ _ Hsep key (rj_Key i)); eauto using own_O. }
    destruct r as [[]|e].
    2: { apply rwp_ret. split_and!; [done| |done]. intros key s Hs Hk. apply (Hkeep key); [done|]. set_solver. }
    eapply rwp_mono; [apply IH; [set_solver|done|done]| |done].
    intros r d2 fs2 l2 (HU2 & Hk & Hall). split_and!; [done| |].
    + intros key s Hs Hkey H. apply (Hk key); [done|set_solver|]. apply (Hkeep key); [done|set_solver|done].
    + intros -> i' [->|Hi']%elem_of_cons; [|by apply Hall].
      apply (Hk (rj_Key i)); [done|done|]. by apply Ha.
Qed.

(** ** Starting the application only on data that belongs together *)
Definition all_original (fs : files) : Prop := forall key s, mine key s -> original_active s fs.

(** The secrets of the installation are these. *)
Definition holds_secrets (values : secretValues) (secrets : secrets_t) : Prop :=
  exists now before, replaced_secrets (jo_InstallationID j) now values before = Ok secrets.

Definition consistent (x : engine_call * files * secrets_t) : Prop :=
  match x with
  | (EStop _, _, _) => True
  | (EStart _, fs, secrets) =>
      (all_original fs /\ holds_secrets (jo_OriginalSecrets j) secrets) \/
      (all_committed fs /\ holds_secrets (jo_RestoredSecrets j) secrets)
  end.

(** Every call since the log was [base] is. *)
Context (base : rlog).
Definition consistent_log (l : rlog) : Prop := exists new, l = base ++ new /\ Forall consistent new.

Lemma consistent_log_app x l : consistent x -> consistent_log l -> consistent_log (l ++ [x]).
Proof.
  intros Hx (new & -> & Hn). exists (new ++ [x]). rewrite app_assoc. split; [done|]. apply Forall_app.
  by rewrite Forall_singleton.
Qed.

Notation undo := (undoing consistent_log).
Notation forward := (forwarding consistent_log).

Definition secrets_set (values : secretValues) (d : rdb) : Prop := holds_secrets values (pd_secrets (rd_plan d)).

Lemma replaced_set values now d u d' : replaceSecrets (jo_InstallationID j) values now d = Ok (u, d') -> secrets_set values d'.
Proof.
  unfold replaceSecrets. destruct (replaced_secrets _ _ _ _) as [sec|] eqn:E1; [|done]. intros ?. simplify_eq.
  by exists now, (pd_secrets (rd_plan d)).
Qed.

Lemma secrets_set_step values o ph detail now d u d' :
  updateRestoreOperation o ph detail now d = Ok (u, d') -> secrets_set values d -> secrets_set values d'.
Proof. unfold updateRestoreOperation. intros H. inv_tx. unfold update_restores in *. by simplify_eq. Qed.

(** The state a completed rollback, or a completed restore, leaves. *)
Definition rolled_back (d : rdb) (fs : files) : Prop :=
  all_original fs /\ phase_is operation (eq RRolledBack) d /\ secrets_set (jo_OriginalSecrets j) d.

(** The secrets after recovery went forward from a database with the secrets
    [before]: those of the journal, unless the journal was committed, and so
    had set them, before. *)
Definition forward_secrets (before : secrets_t) (d : rdb) : Prop :=
  if decide (jo_Phase j = RCommitted) then pd_secrets (rd_plan d) = before else secrets_set (jo_RestoredSecrets j) d.
Definition restored (before : secrets_t) (d : rdb) (fs : files) : Prop :=
  all_committed fs /\ phase_is operation (fun p => p = RCompleted \/ p = RCleanupPending) d /\ forward_secrets before d.

Lemma forward_secrets_same before d d' : pd_secrets (rd_plan d') = pd_secrets (rd_plan d) ->
  forward_secrets before d -> forward_secrets before d'.
Proof. unfold forward_secrets, secrets_set. by intros ->. Qed.

Lemma rollback_spec cause d fs l : undo d fs l ->
  rwp (E:=E) (finishRestoreRollback catalog j cause)
    (fun r d' fs' l' => undo d' fs' l' /\ (r = Ok tt -> rolled_back d' fs')) undo d fs l.
Proof.
  intros HU. pose proof Hj as (Hop & Hi & Hall & Hnd). unfold finishRestoreRollback. apply rwp_try.
  assert (forall i, i ∈ rev (jo_Storage j) <-> i ∈ jo_Storage j) as Hrev
    by (intros i; rewrite !list_elem_of_In; symmetry; apply in_rev).
  eapply rwp_mono; [apply undo_items_spec; [by intros i; rewrite Hrev| |done]| |done].
  { rewrite <- (Permutation_rev (jo_Storage j)). done. }
  intros [[]|e] d1 fs1 l1 (HU1 & _ & Horig); [|by apply rwp_ret].
  assert (all_original fs1) as HO.
  { intros key s Hs. destruct (Hall key s Hs) as (i & Hin & _ & <-). apply Horig; [done|]. by apply Hrev. }
  set (P := fun d' fs' l' => undo d' fs' l' /\ all_original fs').
  assert (forall d' fs' l', P d' fs' l' -> undo d' fs' l') as HPU by (by intros ? ? ? [? _]).
  apply rwp_try. eapply rwp_mono; [by apply (rkeeps_plan P)| |done].
  intros [plan|e] d2 fs2 l2 [HU2 HO2]; [|by apply rwp_ret].
  apply rwp_try, rwp_rstore; [done|intros; by apply rwp_ret|]. intros now u d3 Hsec.
  set (R := fun d' fs' l' => undo d' fs' l' /\ all_original fs' /\ secrets_set (jo_OriginalSecrets j) d').
  assert (R d3 fs2 l2) as HR3.
  { split_and!; [|done|by eapply replaced_set]. eapply (undoing_step _ None); [journal_statement|done|done]. }
  apply rwp_try. eapply (rwp_mono _ (fun _ => R) _ R).
  { destruct (quiesced (jo_Phase j)); [|by apply rwp_ret]. apply rkeeps_resume; [|done].
    intros id d' fs' l' ((Hr & Hp & HA & HG) & HO' & HS'). split_and!; try done. split_and!; try done.
    apply consistent_log_app; [by left|done]. }
  2: by intros ? ? ? (? & _).
  intros [[]|e] d4 fs4 l4 (HU4 & HO4 & HS4); [|by apply rwp_ret].
  rewrite Hop. apply rwp_rstore; [done|done|]. intros now' u' d5 Hu.
  split; [eapply (undoing_step _ (Some RRolledBack)); [journal_statement| |done]; intros ? [= <-]; done|].
  intros _. split_and!; [done| |by eapply secrets_set_step].
  destruct HU4 as (_ & (r & Hr & _) & _). apply updateRestoreOperation_journal in Hu as [_ _ (f & Hf & Hph)].
  exists (f r). by rewrite Hf, Hr, Hph.
Qed.

Lemma phase_set o ph d d' : journal_step o (Some ph) d d' -> o = operation ->
  phase_is operation (fun _ => True) d -> phase_is operation (eq ph) d'.
Proof. intros [_ _ (f & Hf & Hph)] -> (r & Hr & _). exists (f r). by rewrite Hf, Hr, Hph. Qed.

(** The statements of the cleanup leave the secrets alone. *)
Ltac same_secrets :=
  match goal with
  | H : ?m = Ok (_, ?d') |- pd_secrets (rd_plan ?d') = _ =>
      unfold updateRestoreStep, recordStepError, recordCleanupDeferred, updateRestoreOperation in H; inv_tx;
      unfold update_restores, update_steps in *; by simplify_eq
  end.

(** Going forward, with the secrets settled. *)
Definition forward_with (before : secrets_t) : rassn := fun d fs l => forward d fs l /\ forward_secrets before d.

Lemma forward_with_store before {A} (m : string -> tx rdb A) :
  (forall now d a d', m now d = Ok (a, d') -> journal_step operation None d d' /\ pd_secrets (rd_plan d') = pd_secrets (rd_plan d)) ->
  rkeeps (E:=E) (forward_with before) (rstore m).
Proof.
  intros Hm. apply rkeeps_rstore. intros now d fs l a d' [HP HS] E1. destruct (Hm _ _ _ _ E1) as [H1 H2].
  split; [by eapply forwarding_step|by eapply forward_secrets_same].
Qed.

Lemma forward_cleanup before completed items deferred : (forall r, slot_of (completed r) = slot_of r) ->
  (forall i, i ∈ items -> i ∈ jo_Storage j) -> rkeeps (E:=E) (forward_with before) (cleanup_items j completed items deferred).
Proof.
  intros Hc. pose proof Hj as (Hop & Hi & _). revert deferred.
  induction items as [|i items IH]; intros deferred Hin; cbn; [apply rkeeps_ret|].
  assert (mine (rj_Key i) (item_slot i)) as Hs by (apply Hi, Hin; set_solver).
  specialize (fun b => IH b (fun x Hx => Hin x (list_elem_of_further _ _ _ Hx))).
  apply rkeeps_bind; [eapply forward_with_store; intros; split; [journal_statement|same_secrets]|]. intros _.
  apply rkeeps_bind.
  { apply (rollback_gone_remove (forward_with before) (item_slot i)). intros d fs fs' l ((? & ? & Hcom & ?) & ?) Hg.
    split; [|done]. split_and!; try done. by eapply committed_rollback_gone. }
  intros [u|e]; (apply rkeeps_bind; [|intros _; apply IH]);
    eapply forward_with_store; intros; (split; [journal_statement|same_secrets]).
Qed.

Lemma commit_recovered_spec d fs l : forward d fs l -> phase_is operation (eq (jo_Phase j)) d ->
  rwp (E:=E) (commit_recovered catalog j)
    (fun r d' fs' l' => forward d' fs' l' /\ (r = Ok tt -> forward_secrets (pd_secrets (rd_plan d)) d')) forward d fs l.
Proof.
  intros HF Hph. pose proof Hj as (Hop & _). unfold commit_recovered, forward_secrets. rewrite Hop.
  case_decide; [by apply rwp_ret|]. apply rwp_try.
  eapply rwp_mono; [by apply (rkeeps_plan forward)| |done]. intros [plan|e] d1 fs1 l1 H1; [|by apply rwp_ret].
  apply rwp_try, rwp_rstore; [done|intros; by apply rwp_ret|]. intros now u d2 Hu.
  assert (forward d2 fs1 l1) as H2 by (eapply forwarding_step; [journal_statement|done]).
  apply rwp_try, rwp_rstore; [done|intros; by apply rwp_ret|]. intros now' u' d3 Hu'.
  set (R := fun d' fs' l' => forward d' fs' l' /\ secrets_set (jo_RestoredSecrets j) d').
  assert (R d3 fs1 l1) as H3 by (split; [eapply (forwarding_step _ None); [journal_statement|done] | by eapply replaced_set]).
  apply rwp_try. eapply (rwp_mono _ (fun _ => R) _ R).
  { apply rkeeps_resume; [|done]. intros id d' fs' l' ((Hr & Hp & HA & HG) & HS'). split; [|done]. split_and!; try done.
    apply consistent_log_app; [by right|done]. }
  2: by intros ? ? ? [? _].
  intros [[]|e] d4 fs4 l4 [H4 HS4]; [|by apply rwp_ret].
  apply rwp_rstore; [done..|]. intros. split; [eapply forwarding_step; [journal_statement|done]|].
  intros _. by eapply secrets_set_step.
Qed.

Lemma forward_spec d fs l : forward d fs l -> phase_is operation (eq (jo_Phase j)) d ->
  rwp (E:=E) (finishRestoreForward catalog j)
    (fun r d' fs' l' => forward d' fs' l' /\ (r = Ok tt -> restored (pd_secrets (rd_plan d)) d' fs')) forward d fs l.
Proof.
  intros HF Hph. pose proof Hj as (Hop & _). unfold finishRestoreForward. apply rwp_try.
  eapply rwp_mono; [by apply commit_recovered_spec| |done]. intros [[]|e] d1 fs1 l1 [H1 HS1]; [|by apply rwp_ret].
  apply rwp_bind. eapply rwp_mono; [apply (forward_cleanup (pd_secrets (rd_plan d))); [done..|by split; auto]| |by intros ? ? ? [? _]].
  intros b d2 fs2 l2 [H2 HS2]. rewrite Hop.
  destruct b; (apply rwp_rstore; [done|done|]); intros now u d3 Hu;
    (assert (forward_secrets (pd_secrets (rd_plan d)) d3) as HS3 by (eapply forward_secrets_same; [same_secrets|done]));
    [apply recordCleanupDeferred_journal in Hu | apply updateRestoreOperation_journal in Hu];
    (split; [by eapply forwarding_step|]); intros _; destruct H2 as (_ & Hp & Hc & _); (split_and!; [done| |done]);
    eapply phase_set in Hu as (r & Hr & ?); try done; exists r; naive_solver.
Qed.

Lemma all_restored_committed d fs : preserved operation table settled d fs ->
  (forall i, i ∈ jo_Storage j -> restored_in fs i = true) -> all_committed fs.
Proof.
  intros [_ [[_ HA]|[_ HC]]] Hr; [|done]. intros key s Hs. pose proof Hj as (_ & _ & Hall & _).
  destruct (Hall key s Hs) as (i & Hin & _ & Hi). specialize (Hr i Hin). unfold restored_in in Hr.
  apply bool_decide_eq_true in Hr. assert (tr_identity <$> fs !! sl_O s = Some (sl_staged s)) as Hid by (by subst s).
  pose proof (sep_identity _ _ _ Hsep key s Hs). destruct (HA key s Hs) as [HO|HO|HO HR HS]; rewrite HO in Hid; [by injection Hid|done|].
  split; [done| |done]. intros t. rewrite HR. by intros [= <-].
Qed.

Lemma undoable d fs l : preserved operation table settled d fs -> consistent_log l ->
  (jo_Storage j = [] \/ exists i, i ∈ jo_Storage j /\ restored_in fs i = false) -> undo d fs l.
Proof.
  intros [Hr H] HG Hno. pose proof Hj as (_ & Hi & Hall & _). destruct H as [[(r & Hr' & Hu) HA]|[(r & Hr' & _) HC]].
  - split_and!; try done. exists r. auto.
  - destruct Hno as [Hnil|(i & Hin & Hres)].
    + assert (no_storage) as Hno.
      { intros key. destruct (table !! (operation, key)) as [s|] eqn:Hs; [|done].
        destruct (Hall key s Hs) as (i & Hin & _). rewrite Hnil in Hin. by apply not_elem_of_nil in Hin. }
      split_and!; try done; [exists r; auto|]. intros key s Hs. unfold RestoreProofs.mine in Hs. by rewrite Hno in Hs.
    + destruct (HC (rj_Key i) (item_slot i)) as [HO _ _]; [by apply Hi|]. unfold restored_in in Hres.
      apply bool_decide_eq_false in Hres. cbn in HO. rewrite HO in Hres. done.
Qed.

Definition keeps_data (d : rdb) (fs : files) (l : rlog) : Prop :=
  preserved operation table settled d fs /\ consistent_log l.

Lemma preserved_own ph d d' fs : journal_step operation ph d d' -> (forall p, ph = Some p -> uncommitted p) ->
  preserved operation table settled d fs -> preserved operation table settled d' fs.
Proof.
  intros Hs Hp [Hr H]. split; [by eapply recorded_step|].
  destruct H as [[? ?]|[? ?]]; [left|right]; (split; [|done]); eapply phase_step; eauto.
Qed.

Lemma forward_keeps d fs l : forward d fs l -> keeps_data d fs l.
Proof. intros HF. split; [by eapply forwarding_preserved|]. by destruct HF as (_ & _ & _ & ?). Qed.
Lemma undo_keeps d fs l : undo d fs l -> keeps_data d fs l.
Proof. intros HU. split; [by eapply undoing_preserved|]. by destruct HU as (_ & _ & _ & ?). Qed.

(** Recording the outcome with the coordinator changes only its tables. *)
Lemma outcome_recorded (P : rassn) token response d fs l :
  (forall d' fs' l', P d' fs' l' -> keeps_data d' fs' l') ->
  (forall d' d'' fs' l', P d' fs' l' -> rd_steps d'' = rd_steps d' -> rd_restores d'' = rd_restores d' ->
     pd_secrets (rd_plan d'') = pd_secrets (rd_plan d') -> P d'' fs' l') ->
  P d fs l ->
  rwp (E:=E) (try* _ := complete_recovery unmarshal (jo_OperationID j) token response catch e => pret (Err e) in pret (Ok true))
    (fun _ => P) keeps_data d fs l.
Proof.
  intros HPK Hstep HP. apply rwp_try, rwp_try, rwp_rstore; [by apply HPK| |].
  - intros e. by apply rwp_ret, rwp_ret.
  - intros now a d' Hc. apply rwp_ret, rwp_ret. unfold on_helper in Hc.
    destruct (CompleteRecovery _ _ _ _ _ _) as [[? ?]|]; [|done]. simplify_eq. by eapply Hstep.
Qed.

Definition resolved (before : secrets_t) (r : res bool) : rassn := fun d fs l =>
  keeps_data d fs l /\ (r = Ok true -> rolled_back d fs \/ restored before d fs).

Lemma resolve_forward token d fs l : forward d fs l -> phase_is operation (eq (jo_Phase j)) d ->
  rwp (E:=E) (try* _ := finishRestoreForward catalog j catch e => pret (Err e) in
              try* _ := complete_recovery unmarshal (jo_OperationID j) token (restored_response j) catch e => pret (Err e) in
              pret (Ok true)) (resolved (pd_secrets (rd_plan d))) keeps_data d fs l.
Proof.
  intros HF Hph. apply rwp_try. eapply rwp_mono; [by apply forward_spec| |apply forward_keeps].
  intros [[]|e] d1 fs1 l1 [H1 Hres]; [|apply rwp_ret; split; [by apply forward_keeps|done]]. specialize (Hres eq_refl).
  eapply rwp_mono; [apply (outcome_recorded (fun d' fs' l' => forward d' fs' l' /\ restored (pd_secrets (rd_plan d)) d' fs'))| |done].
  - intros d' fs' l' [? _]. by apply forward_keeps.
  - intros d' d'' fs' l' [HF' (? & Hr' & HS')] Hs Hr Hsec.
    assert (journal_step operation None d' d'') by (by apply journal_step_same).
    split; [by eapply forwarding_step|]. split_and!; [done|by eapply phase_step|by eapply forward_secrets_same].
  - done.
  - intros r d' fs' l' [? ?]. split; [by apply forward_keeps|auto].
Qed.

Lemma resolve_rollback token d fs l : undo d fs l ->
  rwp (E:=E) (try* _ := finishRestoreRollback catalog j interrupted_cause catch e => pret (Err e) in
              try* _ := complete_recovery unmarshal (jo_OperationID j) token undone_response catch e => pret (Err e) in
              pret (Ok true)) (resolved (pd_secrets (rd_plan d))) keeps_data d fs l.
Proof.
  intros HU. apply rwp_try. eapply rwp_mono; [by apply rollback_spec| |apply undo_keeps].
  intros [[]|e] d1 fs1 l1 [H1 Hres]; [|apply rwp_ret; split; [by apply undo_keeps|done]]. specialize (Hres eq_refl).
  eapply rwp_mono; [apply (outcome_recorded (fun d' fs' l' => undo d' fs' l' /\ rolled_back d' fs'))| |done].
  - intros d' fs' l' [? _]. by apply undo_keeps.
  - intros d' d'' fs' l' [HU' (? & Hr' & Hs')] Hs Hr Hsec.
    assert (journal_step operation None d' d'') by (by apply journal_step_same).
    split; [by eapply undoing_step|]. split_and!; [done|by eapply phase_step|]. unfold secrets_set. by rewrite Hsec.
  - done.
  - intros r d' fs' l' [? ?]. split; [by apply undo_keeps|auto].
Qed.

Lemma resolve_journal_spec token d fs l : keeps_data d fs l -> phase_is operation (eq (jo_Phase j)) d ->
  rwp (E:=E) (resolve_journal catalog unmarshal j token) (resolved (pd_secrets (rd_plan d))) keeps_data d fs l.
Proof.
  intros HK Hph. pose proof Hj as (Hop & Hi & Hall & _). unfold resolve_journal. apply rwp_bind.
  eapply rwp_mono; [by apply survey_spec| |done]. intros [a c] d1 fs1 l1 ((-> & -> & ->) & Hac). cbn.
  pose proof HK as [HP HG]. destruct a; [|destruct c].
  - apply resolve_forward; [|done]. destruct Hac as [?|Hac]; [done|]. injection Hac as Hac _.
    symmetry in Hac. apply andb_prop in Hac as [_ Hf]. rewrite forallb_forall in Hf.
    assert (all_committed fs) as HC
      by (apply (all_restored_committed d); [done|]; intros i Hin; by apply Hf, list_elem_of_In).
    destruct HP as [Hr H]. split_and!; try done. destruct H as [[(r & Hr' & _) _]|[? _]]; [by exists r|done].
  - apply resolve_rollback, undoable; [done..|]. destruct Hac as [?|Hac]; [done|]. injection Hac as Hac _. symmetry in Hac.
    apply andb_false_iff in Hac as [Hnil|Hf].
    + left. apply bool_decide_eq_false in Hnil. destruct (jo_Storage j); [done|]. by destruct Hnil.
    + right. apply not_true_iff_false in Hf. rewrite forallb_forall in Hf.
      destruct (decide (Exists (fun i => restored_in fs i = false) (jo_Storage j))) as [(i & Hin & Hr)%Exists_exists|Hn].
      { by exists i. }
      destruct Hf. intros i Hin. apply not_false_iff_true. intros Hr. apply Hn, Exists_exists. exists i. by rewrite list_elem_of_In.
  - apply rwp_try, rwp_rstore; [done|intros; by apply rwp_ret|]. intros now u d1 Hu.
    assert (keeps_data d1 fs l) as H1.
    { split; [|done]. eapply (preserved_own None); [journal_statement|done|done]. }
    rewrite Hop. apply rwp_try, rwp_rstore; [done|intros; by apply rwp_ret|]. intros now' u' d2 Hu'. apply rwp_ret.
    split; [|done]. split; [|done]. eapply (preserved_own (Some RActionRequired)); [journal_statement| |apply H1].
    intros ? [= <-]. done.
Qed.
End own.

(** ** Starting up *)
Section startup.
Context {E : Type} `{Host : RestoreHost E} (catalog : res (gmap string Manifest)) (unmarshal : string -> option json).
Context (operation : string) (table : gmap (string * string) slot) (settled : gset string).
Hypothesis Hsep : separated operation table settled.
Hypothesis Hopen : operation ∉ settled.

Notation kept := (kept operation table settled (fun _ => True)).

Lemma kept_any_step o ph d d' fs l : journal_step o ph d d' ->
  (forall p, ph = Some p -> uncommitted p /\ (o ∈ settled -> unresolved p = false)) -> kept d fs l -> kept d' fs l.
Proof.
  intros Hs Hp [HP _]. split; [|done]. destruct (decide (o = operation)) as [->|Hne].
  - eapply (preserved_own operation table settled Hopen ph); [done| |done]. intros p Hph. by apply Hp.
  - eapply (preserved_other _ _ _ o ph); [done|done| |done]. intros Hin p Hph. by apply Hp.
Qed.

Lemma kept_action o detail : o ∉ settled ->
  rkeeps (E:=E) kept (rstore (updateRestoreOperation o RActionRequired detail)).
Proof.
  intros Ho. apply rkeeps_rstore. intros now d fs l a d' HP E1.
  eapply (kept_any_step o (Some RActionRequired)); [journal_statement| |done]. intros ? [= <-]. done.
Qed.

Lemma kept_recover operations recovered : (forall o, o ∈ operations -> o ∉ settled) ->
  rkeeps (E:=E) kept (recover_operations catalog unmarshal operations recovered).
Proof.
  revert recovered. induction operations as [|o operations IH]; intros recovered Ho; cbn; [apply rkeeps_ret|].
  assert (forall n, rkeeps (E:=E) kept (recover_operations catalog unmarshal operations n)) as IH'
    by (intros n; apply IH; set_solver).
  assert (o ∉ settled) as Hs by (apply Ho; set_solver).
  intros d fs l HK. apply rwp_try, rwp_rquery; [done|intros; by apply rwp_ret|]. intros j Hl.
  destruct (loaded_journal table settled o d j) as [Hj (r & Hr & Hph)]; [by destruct HK as [[? _] _]|done|].
  apply rwp_bind, rwp_rquery; [done| |].
  { intros err. apply rkeeps_bind; [by apply kept_action| |done]. intros. apply IH'. }
  intros token Htok. apply rwp_try, rwp_rstore; [done|intros; by apply rwp_ret|]. intros now u d1 Hu.
  assert (journal_step o None d d1) as Hst by (inv_tx; eapply update_restores_journal; [|eassumption]; done).
  assert (kept d1 fs l) as HK1 by (by eapply kept_any_step).
  apply rwp_bind. eapply (rwp_mono _ (fun _ => kept) _ kept); [| |done].
  - destruct (decide (o = operation)) as [->|Hne]; [|by eapply kept_resolve].
    eapply rwp_mono; [eapply (resolve_journal_spec operation table settled Hsep Hopen catalog unmarshal j Hj l)| |].
    + split; [by destruct HK1|]. exists []. by rewrite app_nil_r.
    + apply (phase_step operation operation None d); [done|by exists r|done].
    + by intros ? ? ? ? [[? _] _].
    + by intros ? ? ? [? _].
  - intros [b|e] d2 fs2 l2 HK2; [by apply IH'|]. apply rkeeps_bind; [by apply kept_action| |done]. intros. apply IH'.
Qed.

Lemma kept_recovery : rkeeps (E:=E) kept (recoverInterruptedRestores catalog unmarshal).
Proof.
  intros d fs l HK. apply rwp_try, rwp_rquery; [done|intros; by apply rwp_ret|]. intros ops [= <-].
  apply kept_recover; [|done]. intros o Ho Hs. unfold unresolved_operations in Ho.
  apply list_elem_of_fmap in Ho as ([o' r] & -> & Hin). rewrite elem_of_sort_by, elem_of_select in Hin.
  destruct Hin as [Hr Hu]. destruct HK as [[[_ Hset] _] _]. by rewrite (Hset o' r Hs Hr) in Hu.
Qed.

(** Only a committed restore is cleaned up. *)
Definition closed (row : option restoreRow) : Prop :=
  exists r, row = Some r /\ (ro_phase r = RCommitted \/ ro_phase r = RCleanupPending \/ ro_phase r = RCompleted).

Notation kept_closed := (RestoreRecoveryProofs.kept operation table settled closed).

Lemma closed_step o ph d d' fs l : journal_step o ph d d' -> o = operation ->
  (forall p, ph = Some p -> p = RCleanupPending \/ p = RCompleted) -> kept_closed d fs l -> kept_closed d' fs l.
Proof.
  intros Hs -> Hp [[Hr H] (r & Hrow & Hph)].
  assert (closed (rd_restores d' !! operation)) as Hc.
  { destruct Hs as [_ _ (f & Hf & Hfp)]. exists (f r). rewrite Hf, Hrow, Hfp. split; [done|].
    destruct ph as [p|]; cbn; [|done]. destruct (Hp p eq_refl); auto. }
  split; [|done]. split; [by eapply recorded_step|]. right. destruct H as [[(r' & Hr' & Hu) _]|[_ HC]].
  - destruct Hu as (? & ? & ?). naive_solver.
  - split; [|done]. destruct Hc as (r' & Hr' & _). by exists r'.
Qed.

Lemma closed_cleanup j completed items deferred : journal_of table operation j ->
  (forall r, slot_of (completed r) = slot_of r) -> (forall i, i ∈ items -> i ∈ jo_Storage j) ->
  rkeeps (E:=E) kept_closed (cleanup_items j completed items deferred).
Proof.
  intros Hj Hc. revert deferred. pose proof Hj as (Hop & Hi & _).
  induction items as [|i items IH]; intros deferred Hin; cbn; [apply rkeeps_ret|].
  assert (mine operation table (rj_Key i) (item_slot i)) as Hs by (apply Hi, Hin; set_solver).
  specialize (fun b => IH b (fun x Hx => Hin x (list_elem_of_further _ _ _ Hx))).
  assert (forall {A} (m : string -> tx rdb A), (forall now d a d', m now d = Ok (a, d') -> journal_step operation None d d') ->
            rkeeps (E:=E) kept_closed (rstore m)) as Hst.
  { intros A m Hm. apply rkeeps_rstore. intros now d fs l a d' HP E1. eapply (closed_step operation None); eauto; done. }
  apply rkeeps_bind; [apply Hst; journal_statement|]. intros _. apply rkeeps_bind; [|intros [u|e]].
  2,3: (apply rkeeps_bind; [|intros _; apply IH]); apply Hst; journal_statement.
  apply (rollback_gone_remove kept_closed (item_slot i)). intros d fs fs' l [[Hr H] (r & Hrow & Hph)] Hg.
  split; [|by exists r]. split; [done|]. right. split; [by exists r|].
  destruct H as [[(r' & Hr' & ? & ? & ?) _]|[_ HC]]; [naive_solver|].
  eapply (committed_rollback_gone operation table settled Hsep); done.
Qed.

Lemma kept_closed_cleanup j : journal_of table operation j -> rkeeps (E:=E) kept_closed (finishRestoreCleanupOnly j).
Proof.
  intros Hj. pose proof Hj as (Hop & _). unfold finishRestoreCleanupOnly.
  apply rkeeps_bind; [by apply closed_cleanup|]. rewrite Hop. intros [].
  - apply rkeeps_bind; [|intros; apply rkeeps_ret]. apply rkeeps_rstore. intros now d fs l a d' HP E1.
    eapply (closed_step operation (Some RCleanupPending)); [journal_statement|done| |done]. intros ? [= <-]. auto.
  - apply rkeeps_rstore. intros now d fs l a d' HP E1.
    eapply (closed_step operation (Some RCompleted)); [journal_statement|done| |done]. intros ? [= <-]. auto.
Qed.

Lemma cleanup_other o j Row : journal_of table o j -> o <> operation ->
  rkeeps (E:=E) (RestoreRecoveryProofs.kept operation table settled Row) (finishRestoreCleanupOnly j).
Proof. intros. by eapply kept_cleanup_only. Qed.

(** Cleaning up with the restore itself among the operations, and without. *)
Lemma kept_cleanup_with operations : rkeeps (E:=E) kept_closed (cleanup_operations operations).
Proof.
  induction operations as [|o operations IH]; cbn; [apply rkeeps_ret|].
  intros d fs l HK. apply rwp_bind, rwp_rquery; [done|intros; by apply IH|]. intros j Hl.
  destruct (loaded_journal table settled o d j) as [Hj _]; [by destruct HK as [[? _] _]|done|].
  apply rkeeps_bind; [|intros; apply IH|done].
  destruct (decide (o = operation)) as [->|Hne]; [by apply kept_closed_cleanup | by eapply cleanup_other].
Qed.

Lemma kept_cleanup_without operations : operation ∉ operations -> rkeeps (E:=E) kept (cleanup_operations operations).
Proof.
  induction operations as [|o operations IH]; intros Hn; cbn; [apply rkeeps_ret|].
  intros d fs l HK. apply rwp_bind, rwp_rquery; [done|intros; apply IH; [set_solver|done]|]. intros j Hl.
  destruct (loaded_journal table settled o d j) as [Hj _]; [by destruct HK as [[? _] _]|done|].
  apply rkeeps_bind; [|intros; apply IH; set_solver|done]. eapply cleanup_other; [done|set_solver].
Qed.

Lemma kept_cleanup_committed : rkeeps (E:=E) kept cleanupCommittedRestores.
Proof.
  intros d fs l HK. apply rwp_bind, rwp_rquery; [done|intros; by apply rwp_ret|]. intros ops [= <-].
  destruct (decide (operation ∈ committed_operations d)) as [Hin|Hn]; [|by apply kept_cleanup_without].
  eapply rwp_mono; [apply (kept_cleanup_with _ d fs l)|..].
  - destruct HK as [HP _]. split; [done|]. unfold committed_operations in Hin.
    apply list_elem_of_fmap in Hin as ([o r] & Ho & Hin). cbn in Ho. subst o.
    rewrite elem_of_sort_by, elem_of_select in Hin. destruct Hin as [Hr [?|?]]; exists r; auto.
  - by intros ? ? ? ? [? _].
  - by intros ? ? ? [? _].
Qed.
End startup.
