(* ===== verification/RestoreSwapProofs.v ===== *)
(** * Exchanging the directories: lemmas

    From the moment the journal is written, a restore keeps every whole
    original until it commits, and every restored tree after that, whatever
    fails and wherever it is cut short. *)

From S2P Require Import Prelude Protocol Exposure HelperDB Coordinator NetIP Ingress Containers Manifest ExternalStorage Secrets BackupPlan Restore RestoreProofs RestoreRecoveryProofs RestoreOwnProofs.
From stdpp Require Import base strings list gmap sorting fin_maps.
From Stdlib Require Import ZArith Lia.

Import Wire.
Open Scope Z_scope.

(** The directory and its replacement before the exchange, and after. *)
Record ready (s : slot) (fs : files) : Prop := {
  ready_O : fs !! sl_O s = Some (whole (sl_original s));
  ready_S : fs !! sl_S s = Some (whole (sl_staged s));
  ready_R : fs !! sl_R s = None
}.
Record swapped_in (s : slot) (fs : files) : Prop := {
  swap_O : fs !! sl_O s = Some (whole (sl_staged s));
  swap_R : fs !! sl_R s = Some (whole (sl_original s));
  swap_S : fs !! sl_S s = None
}.

Lemma ready_placed s fs : ready s fs -> placed s fs.
Proof. intros [HO HS HR]. apply placed_original; [done..|]. intros t. rewrite HS. by intros [= <-]. Qed.
Lemma swapped_placed s fs : swapped_in s fs -> placed s fs.
Proof. intros [? ? ?]. by apply placed_swapped. Qed.
Lemma swapped_committed s fs : swapped_in s fs -> committed s fs.
Proof. intros [? HR ?]. split; [done| |done]. intros t. rewrite HR. by intros [= <-]. Qed.

Section live.
Context {E : Type} `{Host : RestoreHost E}.
Context (operation : string) (table : gmap (string * string) slot) (settled : gset string).
Hypothesis Hsep : separated operation table settled.
Hypothesis Hopen : operation ∉ settled.

Notation mine := (mine operation table).
Notation recorded := (recorded table settled).
Notation all_placed := (all_placed operation table).
Notation all_committed := (all_committed operation table).

(** Not committed, every original whole. *)
Definition exchanging : rassn := fun d fs _ => recorded d /\ phase_is operation uncommitted d /\ all_placed fs.
Definition done_ : rassn := forwarding operation table settled (fun _ => True).
Definition safe : rassn := fun d fs _ => preserved operation table settled d fs.

Lemma exchanging_safe d fs l : exchanging d fs l -> safe d fs l.
Proof. intros (? & ? & ?). split; [done|by left]. Qed.
Lemma done_safe d fs l : done_ d fs l -> safe d fs l.
Proof. apply forwarding_preserved. Qed.

Lemma exchanging_step ph d d' fs l : journal_step operation ph d d' -> (forall p, ph = Some p -> uncommitted p) ->
  exchanging d fs l -> exchanging d' fs l.
Proof. intros Hs Hp (Hr & Ho & ?). split_and!; [by eapply recorded_step | eapply phase_step; eauto | done]. Qed.

(** A statement of the journal that does not commit. *)
Lemma exchanging_store (Q : rassn) {A} (m : string -> tx rdb A) ph :
  (forall now d a d', m now d = Ok (a, d') -> journal_step operation ph d d') -> (forall p, ph = Some p -> uncommitted p) ->
  (forall d d' fs l, Q d fs l -> journal_step operation ph d d' -> Q d' fs l) ->
  rkeeps (E:=E) (fun d fs l => exchanging d fs l /\ Q d fs l) (rstore m).
Proof.
  intros Hm Hp HQ. apply rkeeps_rstore. intros now d fs l a d' [HE HQ'] E1.
  split; [eapply exchanging_step|eapply HQ]; eauto.
Qed.

(** The other directories are untouched. *)
Definition swapping (key : string) (s : slot) (fs0 : files) : rassn := fun d fs l =>
  exchanging d fs l /\ outside (slot_paths operation s) fs0 fs.

Lemma swapping_move key s fs0 fs fs' d l : mine key s -> swapping key s fs0 d fs l ->
  outside (slot_paths operation s) fs fs' -> placed s fs' -> swapping key s fs0 d fs' l.
Proof.
  intros Hs [(Hr & Hp & HA) Ho] Ho' Hpl. split; [|by eapply outside_trans]. split_and!; [done..|].
  by eapply (placed_elsewhere operation table settled).
Qed.

(** The two renamings. *)
Lemma ready_put_aside key s fs t : mine key s -> ready s fs -> fs !! sl_O s = Some t ->
  let fs' := <[sl_R s := t]> (delete (sl_O s) fs) in
  placed s fs' /\ fs' !! sl_O s = None /\ fs' !! sl_S s = Some (whole (sl_staged s)) /\ fs' !! sl_R s = Some (whole (sl_original s)).
Proof.
  intros Hs [HO HS HR] Ht fs'. pose proof (own_facts operation table settled Hsep key s Hs) as []. subst fs'.
  rewrite HO in Ht. injection Ht as <-.
  assert (<[sl_R s := whole (sl_original s)]> (delete (sl_O s) fs) !! sl_O s = None) as E1
    by (rewrite lookup_insert_ne, lookup_delete_eq by congruence; done).
  assert (<[sl_R s := whole (sl_original s)]> (delete (sl_O s) fs) !! sl_S s = Some (whole (sl_staged s))) as E2
    by (rewrite lookup_insert_ne, lookup_delete_ne by congruence; done).
  split_and!; [|done|done|by rewrite lookup_insert_eq]. apply placed_moved; [done|by rewrite lookup_insert_eq|].
  intros t. rewrite E2. by intros [= <-].
Qed.

Lemma staged_put_in key s fs t : mine key s -> fs !! sl_S s = Some (whole (sl_staged s)) ->
  fs !! sl_R s = Some (whole (sl_original s)) -> fs !! sl_S s = Some t ->
  swapped_in s (<[sl_O s := t]> (delete (sl_S s) fs)).
Proof.
  intros Hs HS HR Ht. pose proof (own_facts operation table settled Hsep key s Hs) as []. rewrite HS in Ht. injection Ht as <-.
  split; [by rewrite lookup_insert_eq| |]; rewrite lookup_insert_ne, ?lookup_delete_eq, ?lookup_delete_ne by congruence; done.
Qed.

Lemma swapped_put_away key s fs t : mine key s -> swapped_in s fs -> fs !! sl_O s = Some t ->
  placed s (<[failed_of operation s := t]> (delete (sl_O s) fs)).
Proof.
  intros Hs Hsw Ht. eapply (placed_put_away operation table settled Hsep); [done|by apply swapped_placed| |done].
  by rewrite (swap_O _ _ Hsw).
Qed.

Section run.
Context (request : Request) (token : Z) (plan : applicationBackupPlan) (rollbackPaths : gmap string string).
Context (sl : managedBackupStorage -> slot).
Hypothesis Hop : rq_OperationID request = operation.
Hypothesis Hsem : SemanticOperationID request = operation.
Hypothesis Hmine : forall s, s ∈ included_storage plan -> mine (storage_key s) (sl s).
Hypothesis Hall : forall key x, mine key x -> exists s, s ∈ included_storage plan /\ storage_key s = key /\ x = sl s.
Hypothesis HO : forall s, sl_O (sl s) = mg_HostPath s.
Hypothesis HR : forall s, s ∈ included_storage plan -> path_at rollbackPaths (storage_key s) = sl_R (sl s).

(** A step of the journal for one directory: it goes on, or the function
    returns. *)
Lemma swap_step (Q : rassn) {B} key0 phase fields (h : error -> rprog E B) (k : rprog E B) (R : B -> rassn) (C : rassn) d fs l :
  (forall r, slot_of (fields r) = slot_of r) ->
  (forall d fs l, Q d fs l -> C d fs l) ->
  (forall d d' fs l, Q d fs l -> journal_step operation None d d' -> Q d' fs l) ->
  Q d fs l -> (forall e, rwp (h e) R C d fs l) -> (forall d', Q d' fs l -> rwp k R C d' fs l) ->
  rwp (ptry (step request true key0 phase fields) h (fun _ => k)) R C d fs l.
Proof.
  intros Hf HC HQ H He Hk. unfold step, journal. apply rwp_try, rwp_rstore; [by apply HC|done|].
  intros now u d' Hu. apply Hk. eapply HQ; [done|]. unfold op in *. journal_statement.
Qed.

Lemma swapping_stmt key s fs0 d d' fs l : swapping key s fs0 d fs l -> journal_step operation None d d' -> swapping key s fs0 d' fs l.
Proof. intros [? ?] Hs. split; [by eapply (exchanging_step None)|done]. Qed.

Lemma swap_storage_spec s newPaths d fs l : s ∈ included_storage plan -> path_at newPaths (storage_key s) = sl_S (sl s) ->
  exchanging d fs l -> ready (sl s) fs ->
  rwp (E:=E) (swap_storage request rollbackPaths true newPaths s)
    (fun r d' fs' l' => swapping (storage_key s) (sl s) fs d' fs' l' /\ (r = Swapped -> swapped_in (sl s) fs'))
    exchanging d fs l.
Proof.
  intros Hin HS HE Hrd. pose proof (Hmine s Hin) as Hs. set (key := storage_key s) in *. set (x := sl s) in *.
  assert (mg_HostPath s = sl_O x) as HO' by (symmetry; apply HO). assert (path_at rollbackPaths key = sl_R x) as HR' by (by apply HR).
  set (P := swapping key x fs). assert (forall d fs l, P d fs l -> exchanging d fs l) as HPE by (by intros ? ? ? [? _]).
  assert (P d fs l) as HP by (split; [done|apply outside_refl]).
  unfold swap_storage. fold key. rewrite HO', HR', HS.
  apply (swap_step P); [done|done|apply swapping_stmt|done|intros; by apply rwp_ret|]. intros d1 H1.
  apply (swap_step P); [done|done|apply swapping_stmt|done|intros; by apply rwp_ret|]. intros d2 H2.
  apply rwp_try, rwp_rename; [by apply HPE|intros; by apply rwp_ret|]. intros t Ht _.
  destruct (ready_put_aside key x fs t Hs Hrd Ht) as (Hpl & EO & ES & ER). set (fs1 := <[sl_R x := t]> (delete (sl_O x) fs)) in *.
  set (P1 := fun d' fs' l' => P d' fs' l' /\ fs' = fs1).
  assert (P1 d2 fs1 l) as H3.
  { split; [|done]. eapply swapping_move; [done|done| |done]. apply outside_insert_delete; [apply own_O|apply own_R]. }
  assert (forall d fs l, P1 d fs l -> exchanging d fs l) as HP1E by (by intros ? ? ? [[? _] _]).
  assert (forall d d' fs l, P1 d fs l -> journal_step operation None d d' -> P1 d' fs l) as HP1S.
  { intros ? ? ? ? [? ?] ?. split; [by eapply swapping_stmt|done]. }
  unfold fault. apply rwp_bind, rwp_fault; [by apply HP1E|]. intros a.
  destruct a; [|by apply rwp_ret; split; [apply H3|]..].
  apply (swap_step P1); [done|done|done|done|intros; apply rwp_ret; split; [apply H3|done]|]. intros d3 H4.
  apply (swap_step P1); [done|done|done|done|intros; apply rwp_ret; split; [apply H4|done]|]. intros d4 H5.
  apply (swap_step P1); [done|done|done|done|intros; apply rwp_ret; split; [apply H5|done]|]. intros d5 H6.
  apply rwp_try, rwp_rename; [by apply HP1E| |].
  - intros err. apply rwp_bind, rwp_rename; [by apply HP1E|intros; apply rwp_ret; split; [apply H6|done]|].
    intros t' Ht' HN. apply rwp_ret. split; [|done].
    eapply swapping_move; [done|apply H6| |eapply (placed_put_back operation table settled Hsep); eauto].
    apply outside_insert_delete; [apply own_R|apply own_O].
  - intros t' Ht' HN. pose proof (staged_put_in key x fs1 t' Hs ES ER Ht') as Hsw.
    set (fs2 := <[sl_O x := t']> (delete (sl_S x) fs1)) in *.
    set (P2 := fun d' fs' l' => P d' fs' l' /\ fs' = fs2).
    assert (P2 d5 fs2 l) as H7.
    { split; [|done]. eapply swapping_move; [done|apply H6| |by apply swapped_placed].
      apply outside_insert_delete; [apply own_S|apply own_O]. }
    apply rwp_bind, rwp_fault; [apply HPE, H7|]. intros a.
    destruct a; [|by apply rwp_ret; split; [apply H7|]..].
    apply (swap_step P2); [done|by intros ? ? ? [[? _] _]| |done|intros; apply rwp_ret; split; [apply H7|done]|].
    { intros ? ? ? ? [? ?] ?. split; [by eapply swapping_stmt|done]. }
    intros d6 H8. apply rwp_ret. split; [apply H8|done].
Qed.

(** Directories exchanged so far, and those still to do. *)
Definition swapped_so_far (swapped storage : list managedBackupStorage) : rassn := fun d fs l =>
  exchanging d fs l /\ (forall s, s ∈ swapped -> s ∈ included_storage plan /\ swapped_in (sl s) fs) /\
  (forall s, s ∈ storage -> s ∈ included_storage plan /\ ready (sl s) fs).

Lemma apart_slot key s s' fs fs' (P : slot -> files -> Prop) :
  (forall fs fs', (forall p, p ∈ slot_paths operation (sl s') -> fs' !! p = fs !! p) -> P (sl s') fs -> P (sl s') fs') ->
  s ∈ included_storage plan -> s' ∈ included_storage plan -> storage_key s = key -> storage_key s' <> key ->
  outside (slot_paths operation (sl s)) fs fs' -> P (sl s') fs -> P (sl s') fs'.
Proof.
  intros HP Hs Hs' <- Hk Ho H. eapply HP; [|done]. intros p Hp. apply Ho.
  eapply (sep_keys _ _ _ Hsep (storage_key s') (storage_key s)); eauto.
Qed.

Lemma swapped_frame s fs fs' : (forall p, p ∈ slot_paths operation s -> fs' !! p = fs !! p) -> swapped_in s fs -> swapped_in s fs'.
Proof.
  intros H [? ? ?]. split; [rewrite (H (sl_O s)) by apply own_O | rewrite (H (sl_R s)) by apply own_R | rewrite (H (sl_S s)) by apply own_S]; done.
Qed.
Lemma ready_frame s fs fs' : (forall p, p ∈ slot_paths operation s -> fs' !! p = fs !! p) -> ready s fs -> ready s fs'.
Proof.
  intros H [? ? ?]. split; [rewrite (H (sl_O s)) by apply own_O | rewrite (H (sl_S s)) by apply own_S | rewrite (H (sl_R s)) by apply own_R]; done.
Qed.

Lemma path_at_delete (m : gmap string string) k k' : k <> k' -> path_at (delete k m) k' = path_at m k'.
Proof. intros Hne. unfold path_at. by rewrite lookup_delete_ne. Qed.

Lemma swap_all_spec storage swapped newPaths d fs l :
  NoDup (storage_key <$> swapped ++ storage) ->
  (forall s, s ∈ storage -> path_at newPaths (storage_key s) = sl_S (sl s)) ->
  swapped_so_far swapped storage d fs l ->
  rwp (E:=E) (swap_all request rollbackPaths true storage swapped newPaths)
    (fun r d' fs' l' => exchanging d' fs' l' /\ (forall s, s ∈ r.1.2 -> s ∈ included_storage plan /\ swapped_in (sl s) fs') /\
       NoDup (storage_key <$> r.1.2) /\ (r.1.1 = Swapped -> r.1.2 = swapped ++ storage) /\ r.2 ⊆ newPaths)
    exchanging d fs l.
Proof.
  revert swapped newPaths d fs l. induction storage as [|s storage IH]; intros swapped newPaths d fs l Hnd HS (HE & Hsw & Hrd); cbn.
  { apply rwp_ret. rewrite app_nil_r in *. done. }
  rewrite fmap_app, fmap_cons in Hnd. pose proof Hnd as Hnd'. apply NoDup_app in Hnd as (Hnd1 & Hd & Hnd2).
  rewrite NoDup_cons in Hnd2. destruct Hnd2 as [Hn2 Hnd2].
  destruct (Hrd s (list_elem_of_here _ _)) as [Hin Hr].
  apply rwp_bind. eapply rwp_mono; [apply swap_storage_spec; [done|apply HS, list_elem_of_here|done|done]| |done].
  intros r d1 fs1 l1 [[HE1 Ho] Hswap].
  assert (forall s', s' ∈ swapped -> s' ∈ included_storage plan /\ swapped_in (sl s') fs1) as Hsw1.
  { intros s' Hs'. destruct (Hsw s' Hs') as [Hi' Hx]. split; [done|].
    apply (apart_slot (storage_key s) s s' fs); try done; [intros; by eapply swapped_frame|].
    intros Heq. apply (Hd (storage_key s')); [by apply (list_elem_of_fmap_2 storage_key)|rewrite Heq; apply list_elem_of_here]. }
  destruct r; [|apply rwp_ret; split_and!; done..]. specialize (Hswap eq_refl).
  assert (swapped_so_far (swapped ++ [s]) storage d1 fs1 l1) as Hnext.
  { split_and!; [done| |].
    - intros s' [?| ->%list_elem_of_singleton]%elem_of_app; auto.
    - intros s' Hs'. destruct (Hrd s' (list_elem_of_further _ _ _ Hs')) as [Hi' Hx]. split; [done|].
      apply (apart_slot (storage_key s) s s' fs); try done; [intros; by eapply ready_frame|].
      intros Heq. apply Hn2. rewrite <- Heq. by apply (list_elem_of_fmap_2 storage_key). }
  assert (NoDup (storage_key <$> (swapped ++ [s]) ++ storage)) as Hnd3 by (by rewrite <- app_assoc, fmap_app).
  destruct Hnext as (HE2 & Hsw2 & Hrd2).
  unfold fault. apply rwp_bind, rwp_fault; [done|]. intros a.
  assert (NoDup (storage_key <$> swapped ++ [s])) as Hnd4 by (rewrite fmap_app in Hnd3; by apply NoDup_app in Hnd3 as [? _]).
  assert (delete (storage_key s) newPaths ⊆ newPaths) by apply delete_subseteq.
  destruct a; [|apply rwp_ret; split_and!; done..].
  eapply rwp_mono; [apply IH; [done| |done]| |done].
  - intros s' Hs'. rewrite path_at_delete; [by apply HS, list_elem_of_further|]. intros Heq. apply Hn2. rewrite Heq.
    by apply (list_elem_of_fmap_2 storage_key).
  - intros r d3 fs3 l3 (? & ? & ? & Hres & ?). split_and!; [done..| |by etrans]. intros H'. rewrite Hres by done. by rewrite <- app_assoc.
Qed.

Lemma unswap_spec swapped d fs l : NoDup (storage_key <$> swapped) -> exchanging d fs l ->
  (forall s, s ∈ swapped -> s ∈ included_storage plan /\ swapped_in (sl s) fs) ->
  rwp (E:=E) (unswap request rollbackPaths true swapped) (fun _ => exchanging) exchanging d fs l.
Proof.
  revert d fs l. induction swapped as [|s swapped IH]; intros d fs l Hnd HE Hsw; cbn; [by apply rwp_ret|].
  rewrite fmap_cons, NoDup_cons in Hnd. destruct Hnd as [Hn Hnd]. destruct (Hsw s (list_elem_of_here _ _)) as [Hin Hx].
  pose proof (Hmine s Hin) as Hs. set (x := sl s) in *. set (P := swapping (storage_key s) x fs).
  assert (forall d fs l, P d fs l -> exchanging d fs l) as HPE by (by intros ? ? ? [? _]).
  assert (P d fs l) as HP by (split; [done|apply outside_refl]).
  assert (failed_path request s = failed_of operation x) as -> by (unfold failed_path, failed_of, x; by rewrite Hsem, HO).
  rewrite HR, <- HO by done. fold x.
  assert (forall d' fs' l', P d' fs' l' ->
    rwp (E:=E) (run* _ := step request true (storage_key s) SRolledBack id in unswap request rollbackPaths true swapped)
      (fun _ => exchanging) exchanging d' fs' l') as Hrest.
  { intros d' fs' l' HP'.
    assert (forall d'', P d'' fs' l' -> rwp (E:=E) (unswap request rollbackPaths true swapped) (fun _ => exchanging) exchanging d'' fs' l') as Hgo.
    { intros d'' [HE' Ho]. apply IH; [done..|]. intros s' Hs'. destruct (Hsw s' (list_elem_of_further _ _ _ Hs')) as [Hi' Hx']. split; [done|].
      apply (apart_slot (storage_key s) s s' fs); try done; [intros; by eapply swapped_frame|].
      intros Heq. apply Hn. rewrite <- Heq. by apply (list_elem_of_fmap_2 storage_key). }
    unfold step, journal. apply rwp_bind, rwp_rstore; [by apply HPE|intros; by apply Hgo|].
    intros now u d'' Hu. apply Hgo. eapply swapping_stmt; [done|]. unfold op in *. journal_statement. }
  assert (forall d' fs' l', P d' fs' l' ->
    rwp (E:=E) (run* _ := rename (sl_R x) (sl_O x) in
      run* _ := step request true (storage_key s) SRolledBack id in unswap request rollbackPaths true swapped)
      (fun _ => exchanging) exchanging d' fs' l') as Hback.
  { intros d' fs' l' HP'. apply rwp_bind, rwp_rename; [by apply HPE|intros; by apply Hrest|]. intros t Ht HN. apply Hrest.
    pose proof HP' as [(_ & _ & HA) _]. eapply swapping_move; [done|done| |].
    - apply outside_insert_delete; [apply own_R|apply own_O].
    - apply (placed_put_back operation table settled Hsep (storage_key s)); [done|by eapply HA|done|done]. }
  apply rwp_bind, rwp_rename; [done|intros; by apply Hback|]. intros t Ht _. apply Hback.
  eapply swapping_move; [done|done| |by eapply swapped_put_away].
  apply outside_insert_delete; [apply own_O|apply own_F].
Qed.

Lemma exchanging_log d fs l l' : exchanging d fs l -> exchanging d fs l'.
Proof. done. Qed.

Lemma exchanging_simple {A} (m : string -> tx rdb A) ph :
  (forall now d a d', m now d = Ok (a, d') -> journal_step operation ph d d') -> (forall p, ph = Some p -> uncommitted p) ->
  rkeeps (E:=E) exchanging (rstore m).
Proof. intros Hm Hp. apply rkeeps_rstore. intros. eapply exchanging_step; eauto. Qed.

Lemma rollback_live running swapped cause d fs l : NoDup (storage_key <$> swapped) -> exchanging d fs l ->
  (forall s, s ∈ swapped -> s ∈ included_storage plan /\ swapped_in (sl s) fs) ->
  rwp (E:=E) (undone request plan rollbackPaths true running swapped cause) (fun _ => exchanging) exchanging d fs l.
Proof.
  intros Hnd HE Hsw. unfold undone, roll_back. do 2 apply rwp_bind.
  set (P := fun d' fs' (_ : rlog) => exchanging d' fs' [] /\ forall s, s ∈ swapped -> s ∈ included_storage plan /\ swapped_in (sl s) fs').
  eapply (rwp_mono _ (fun _ => P) _ P); [by apply (rkeeps_stop_all P)| |by intros ? ? ? [? _]].
  intros _ d1 fs1 l1 [HE1 Hsw1]. apply rwp_bind. eapply rwp_mono; [apply unswap_spec| |done].
  { rewrite <- (Permutation_rev swapped). done. }
  { done. }
  { intros s Hs. apply Hsw1. by rewrite list_elem_of_In, in_rev, <- list_elem_of_In. }
  intros u0 d2 fs2 l2 HE2.
  assert (forall err, rkeeps (E:=E) exchanging (run* resumeErr := resumeBackupRuntime plan running in
     let cause := match resumeErr with Err _ => ErrMsg (error_text err +:+ "; application rollback restart failed") | Ok _ => err end in
     run* _ := journal true (updateRestoreOperation (op request) RRolledBack (error_text cause)) in pret cause)) as Hend.
  { intros err. apply rkeeps_bind; [apply rkeeps_resume_any, exchanging_log|]. intros a. apply rkeeps_bind; [|intros; apply rkeeps_ret].
    unfold journal, op. rewrite Hop. eapply (exchanging_simple _ (Some RRolledBack)); [journal_statement|]. intros ? [= <-]. done. }
  apply rwp_bind, rwp_rstore; [done| |].
  - intros err. eapply rwp_mono; [by apply Hend| |done]. intros. by apply rwp_ret.
  - intros now u d3 Hu. eapply rwp_mono; [apply Hend| |done]; [|intros; by apply rwp_ret].
    eapply (exchanging_step None); [journal_statement|done|done].
Qed.

(** ** The commit *)
Definition all_swapped (fs : files) : Prop := forall s, s ∈ included_storage plan -> swapped_in (sl s) fs.
Definition exchanged : rassn := fun d fs l => exchanging d fs l /\ all_swapped fs.

Definition closed_phase (d : rdb) : Prop :=
  phase_is operation (fun p => p = RCommitted \/ p = RCleanupPending \/ p = RCompleted) d.

(** A run that returned a result has restored everything. *)
Definition finished (r : res bool) : rassn := fun d fs l =>
  safe d fs l /\ (forall b, r = Ok b -> all_committed fs /\ closed_phase d).

Lemma exchanged_committed fs : all_swapped fs -> all_committed fs.
Proof. intros H key x Hx. destruct (Hall key x Hx) as (s & Hs & _ & ->). by apply swapped_committed, H. Qed.

Hypothesis Hkeys : NoDup (storage_key <$> included_storage plan).

Lemma exchanged_undone running cause d fs l : exchanged d fs l ->
  rwp (E:=E) (undone request plan rollbackPaths true running (included_storage plan) cause)
    (fun en => finished (en_result en)) safe d fs l.
Proof.
  intros [HE Hsw]. unfold undone. apply rwp_bind.
  eapply rwp_mono; [|intros ? ? ? ? HQ; exact HQ|apply exchanging_safe].
  pose proof (rollback_live running (included_storage plan) cause d fs l Hkeys HE) as H. unfold undone in H.
  intros e. specialize (H ltac:(intros s Hs; split; [done|by apply Hsw]) e).
  unfold pbind in H. destruct (roll_back _ _ _ _ _ _ _ _) as [err w|w]; [|done].
  intros e'. cbn in *. split; [by apply exchanging_safe in H|done].
Qed.

Lemma committed_cleanup storage deferred : (forall s, s ∈ storage -> s ∈ included_storage plan) ->
  rkeeps (E:=E) (fun d fs l => done_ d fs l /\ closed_phase d) (cleanup_swapped request rollbackPaths true storage deferred).
Proof.
  revert deferred. induction storage as [|s storage IH]; intros deferred Hin; cbn; [apply rkeeps_ret|].
  specialize (fun b => IH b (fun x Hx => Hin x (list_elem_of_further _ _ _ Hx))).
  pose proof (Hin s (list_elem_of_here _ _)) as Hs. specialize (Hmine s Hs) as Hm.
  set (P := fun d fs l => done_ d fs l /\ closed_phase d).
  assert (forall {A} (m : string -> tx rdb A), (forall now d a d', m now d = Ok (a, d') -> journal_step operation None d d') ->
            rkeeps (E:=E) P (rstore m)) as Hst.
  { intros A m Hst. apply rkeeps_rstore. intros now d fs l a d' [HD HC] E1. split; [by eapply (forwarding_step _ _ _ Hopen _ None); eauto|].
    eapply phase_step; [by eapply Hst|done|done]. }
  unfold step, journal, fault, op. rewrite Hop.
  apply rkeeps_bind; [apply Hst; journal_statement|]. intros _. apply rkeeps_bind; [apply rkeeps_fault|]. intros a.
  assert (forall e b, rkeeps (E:=E) P (run* _ := rstore (recordStepError operation (storage_key s) e) in
            cleanup_swapped request rollbackPaths true storage b)) as Herr
    by (intros e b; apply rkeeps_bind; [apply Hst; journal_statement|intros; apply IH]).
  destruct a; [|apply Herr..]. apply rkeeps_bind; [|intros [[]|e]; [|apply Herr]].
  - rewrite HR by done. apply (rollback_gone_remove P (sl s)). intros d fs fs' l [(Hr & Hp & Hc & _) HC] Hg.
    split; [|done]. split_and!; [done..| |done]. by eapply (committed_rollback_gone operation table settled).
  - apply rkeeps_bind; [apply Hst; journal_statement|intros; apply IH].
Qed.

Lemma finish_cleanup_spec d fs l : done_ d fs l -> closed_phase d ->
  rwp (E:=E) (finish_cleanup request rollbackPaths true (included_storage plan)) finished safe d fs l.
Proof.
  intros HD HC. unfold finish_cleanup. apply rwp_try. eapply rwp_mono.
  - apply (committed_cleanup (included_storage plan) false); done.
  - assert (forall d' fs' l' r, done_ d' fs' l' /\ closed_phase d' -> finished r d' fs' l') as Hfin.
    { intros d' fs' l' r [HD' HC']. split; [by apply done_safe|]. intros b _. split; [|done]. by destruct HD' as (_ & _ & ? & _). }
    intros [[]|e] d1 fs1 l1 H1; [| |by apply rwp_ret, Hfin]; pose proof H1 as [HD1 HC1];
      [apply rwp_bind | apply rwp_try]; (apply rwp_rstore; [by apply done_safe|intros; by apply rwp_ret, Hfin|]);
      intros now u d2 Hu; apply rwp_ret, Hfin; unfold op in Hu; rewrite Hop in Hu;
      [apply recordCleanupDeferred_journal in Hu | apply updateRestoreOperation_journal in Hu];
      (split; [by eapply (forwarding_step _ _ _ Hopen)|]); eapply phase_step; try done; intros _ p [= <-]; auto.
  - by intros ? ? ? [? _]; apply done_safe.
Qed.

Lemma fault_or_spec point running k d fs l : exchanged d fs l ->
  rwp k (fun en => finished (en_result en)) safe d fs l ->
  rwp (E:=E) (fault_or request plan rollbackPaths true point running (included_storage plan) k)
    (fun en => finished (en_result en)) safe d fs l.
Proof.
  intros HX Hk. unfold fault_or, fault. apply rwp_bind, rwp_fault; [apply exchanging_safe, HX|].
  intros []; [done| |by apply exchanged_undone]. apply rwp_ret. split; [apply exchanging_safe, HX|done].
Qed.

Lemma commit_spec running secrets d fs l : exchanged d fs l ->
  rwp (E:=E) (commit_swapped request plan rollbackPaths true running secrets (included_storage plan))
    (fun en => finished (en_result en)) safe d fs l.
Proof.
  intros HX. unfold commit_swapped, journal, op. rewrite Hop.
  assert (forall d fs l, exchanged d fs l -> safe d fs l) as HXS by (intros ? ? ? [? _]; by apply exchanging_safe).
  assert (forall e d fs l, exchanged d fs l -> rwp (E:=E) (keep e) (fun en => finished (en_result en)) safe d fs l) as Hkeep
    by (intros; apply rwp_ret; split; [by apply HXS|done]).
  assert (forall ph d d' fs l, journal_step operation ph d d' -> (forall p, ph = Some p -> uncommitted p) ->
            exchanged d fs l -> exchanged d' fs l) as Hstep by (intros ? ? ? ? ? Hs Hp [? ?]; split; [by eapply exchanging_step|done]).
  apply rwp_try, rwp_rstore; [by apply HXS|intros; by apply Hkeep|]. intros now u d1 Hu.
  assert (exchanged d1 fs l) as H1 by (eapply (Hstep (Some RRuntimePending)); [journal_statement| |done]; by intros ? [= <-]).
  apply fault_or_spec; [done|]. apply rwp_try, rwp_rstore; [by apply HXS|intros; by apply exchanged_undone|]. intros now' u' d2 Hu'.
  assert (exchanged d2 fs l) as H2 by (eapply (Hstep None); [journal_statement|done|done]).
  apply rwp_try. eapply (rwp_mono _ (fun _ => exchanged) _ exchanged); [by apply rkeeps_resume_any| |done].
  intros [[]|e] d3 fs3 l3 H3; [|by apply exchanged_undone].
  apply fault_or_spec; [done|]. apply rwp_try, rwp_rstore; [by apply HXS|intros; by apply Hkeep|]. intros now2 u2 d4 Hu2.
  pose proof H3 as [(Hr & Hp & HA) Hsw]. apply updateRestoreOperation_journal in Hu2.
  assert (closed_phase d4) as HC4.
  { destruct Hp as (r & Hr' & _). destruct Hu2 as [_ _ (f & Hf & Hph)]. exists (f r). rewrite Hf, Hr', Hph. auto. }
  assert (done_ d4 fs3 l3) as HD4.
  { split_and!; [by eapply recorded_step| |by apply exchanged_committed|done]. destruct HC4 as (r & ? & _). by exists r. }
  apply rwp_bind, rwp_fault; [by apply done_safe|]. intros [].
  - apply rwp_bind. eapply rwp_mono; [by apply finish_cleanup_spec| |done]. intros r ? ? ? H. by apply rwp_ret.
  - apply rwp_ret. split; [by apply done_safe|done].
  - apply rwp_ret. split; [by apply done_safe|done].
Qed.
End run.
End live.
