(* ===== verification/RestoreRunProofs.v ===== *)
(** * A whole restore: lemmas

    The journal is written in one transaction; before it nothing has moved, and
    from then on the invariant of [RestoreSwapProofs] holds. *)

From S2P Require Import Prelude Protocol Exposure HelperDB Coordinator NetIP Ingress Containers Manifest ExternalStorage Secrets BackupPlan Restore RestoreProofs RestoreRecoveryProofs RestoreOwnProofs RestoreSwapProofs.
From stdpp Require Import base strings list gmap sorting fin_maps.
From Stdlib Require Import ZArith Lia.

Import Wire.
Open Scope Z_scope.

(** ** Writing the journal *)
Definition identity_at (fs : files) (path : string) : restorePathIdentity :=
  default {| pi_Device := 0; pi_Inode := 0 |} (tr_identity <$> fs !! path).

Section begin.
Context (operation : string) (newPaths rollbackPaths : gmap string string).

Definition slot_for (fs : files) (s : managedBackupStorage) : slot :=
  {| sl_O := mg_HostPath s; sl_S := path_at newPaths (storage_key s); sl_R := path_at rollbackPaths (storage_key s);
     sl_original := identity_at fs (mg_HostPath s); sl_staged := identity_at fs (path_at newPaths (storage_key s)) |}.

Definition new_slots (fs : files) (storage : list managedBackupStorage) : gmap (string * string) slot :=
  list_to_map (map (fun s => ((operation, storage_key s), slot_for fs s)) storage).

#[local] Arguments new_slots : simpl never.

(** The journals after this one was added. *)
Definition journal_table (fs : files) (storage : list managedBackupStorage) (d : rdb) : gmap (string * string) slot :=
  new_slots fs storage ∪ (slot_of <$> rd_steps d).

Lemma new_slots_cons fs s storage :
  new_slots fs (s :: storage) = <[(operation, storage_key s) := slot_for fs s]> (new_slots fs storage).
Proof. done. Qed.

Lemma new_slots_None fs storage k : k ∉ ((fun s => (operation, storage_key s)) <$> storage) -> new_slots fs storage !! k = None.
Proof.
  induction storage as [|s storage IH]; intros Hn; [done|]. rewrite fmap_cons, not_elem_of_cons in Hn. destruct Hn as [Hk Hn].
  rewrite new_slots_cons, lookup_insert_ne by congruence. auto.
Qed.

Lemma new_slots_Some fs storage s : NoDup (storage_key <$> storage) -> s ∈ storage ->
  new_slots fs storage !! (operation, storage_key s) = Some (slot_for fs s).
Proof.
  induction storage as [|s' storage IH]; intros Hnd Hs; [by apply not_elem_of_nil in Hs|].
  rewrite fmap_cons, NoDup_cons in Hnd. destruct Hnd as [Hn Hnd]. rewrite new_slots_cons.
  apply elem_of_cons in Hs as [->|Hs]; [by rewrite lookup_insert_eq|]. rewrite lookup_insert_ne; [auto|].
  intros [= Heq]. apply Hn. rewrite Heq. by apply (list_elem_of_fmap_2 storage_key).
Qed.

Lemma fresh_key s (storage : list managedBackupStorage) : storage_key s ∉ storage_key <$> storage ->
  (operation, storage_key s) ∉ ((fun s => (operation, storage_key s)) <$> storage).
Proof.
  intros Hn (s' & E1 & Hs')%list_elem_of_fmap. injection E1 as E1. apply Hn. rewrite E1.
  by apply (list_elem_of_fmap_2 storage_key).
Qed.

Context {E : Type} `{Host : RestoreHost E}.

Lemma journal_storage_spec now storage d0 (C : rassn) d fs l : NoDup (storage_key <$> storage) -> C d fs l ->
  rwp (E:=E) (journal_storage operation now newPaths rollbackPaths storage d0) (fun r d' fs' l' => stays d fs l d' fs' l' /\
    forall d1, r = Ok d1 -> rd_restores d1 = rd_restores d0 /\
      slot_of <$> rd_steps d1 = new_slots fs storage ∪ (slot_of <$> rd_steps d0)) C d fs l.
Proof.
  intros Hnd HC. revert d0. induction storage as [|s storage IH]; intros d0; cbn.
  { apply rwp_ret. split; [done|]. intros d1 [= <-]. split; [done|]. unfold new_slots. cbn. by rewrite (left_id ∅ (∪)). }
  rewrite fmap_cons, NoDup_cons in Hnd. destruct Hnd as [Hn Hnd].
  assert (forall e : error, rwp (E:=E) (pret (Err e)) (fun r d' fs' l' => stays d fs l d' fs' l' /\
    forall d1, r = Ok d1 -> rd_restores d1 = rd_restores d0 /\
      slot_of <$> rd_steps d1 = new_slots fs (s :: storage) ∪ (slot_of <$> rd_steps d0)) C d fs l) as Herr by (intros; by apply rwp_ret).
  do 3 (destruct (validateRestoreJournalPath _ _); [|apply Herr]).
  apply rwp_bind, rwp_identity; [done|intros; apply Herr|].
  destruct (fs !! mg_HostPath s) as [to|] eqn:EO; cbn; [|apply Herr].
  apply rwp_bind, rwp_identity; [done|intros; apply Herr|].
  destruct (fs !! path_at newPaths (storage_key s)) as [ts|] eqn:ES; cbn; [|apply Herr].
  unfold insert_step. destruct (rd_steps d0 !! (operation, storage_key s)) eqn:E0; [apply Herr|].
  eapply rwp_mono; [by apply IH| |done]. intros r d' fs' l' [Hst Hr]. split; [done|]. intros d1 ->.
  destruct (Hr d1 eq_refl) as [-> ->]. split; [done|]. cbn. rewrite new_slots_cons, fmap_insert.
  rewrite <- insert_union_l, insert_union_r by (by apply new_slots_None, fresh_key). do 2 f_equal.
  unfold slot_for, identity_at. by rewrite EO, ES.
Qed.

Lemma begin_spec request token plan secrets (C : rassn) d fs l :
  rq_OperationID request = operation -> NoDup (storage_key <$> included_storage plan) -> C d fs l ->
  rwp (E:=E) (beginRestoreJournal request token plan secrets newPaths rollbackPaths) (fun r d' fs' l' =>
    match r with
    | Err _ => stays d fs l d' fs' l'
    | Ok _ => fs' = fs /\ l' = l /\ slot_of <$> rd_steps d' = journal_table fs (included_storage plan) d /\
              (forall o, o <> operation -> rd_restores d' !! o = rd_restores d !! o) /\
              phase_is operation (eq RStaged) d'
    end) C d fs l.
Proof.
  intros Hop Hnd HC. unfold beginRestoreJournal. rewrite Hop. apply rwp_bind, rwp_clock; [done|]. intros now.
  apply rwp_try, rwp_rquery; [done|intros; by apply rwp_ret|]. intros d0 H0.
  apply rwp_try. eapply rwp_mono; [apply (journal_storage_spec now _ d0 C d fs l Hnd HC)| |done].
  intros [d1|e] d' fs' l' ((-> & -> & ->) & Hr); [|by apply rwp_ret]. destruct (Hr d1 eq_refl) as [Hres Hsl].
  destruct (verifyRestoreFence _ _ _ _ _); [|done]. cbn in H0. unfold insert_restore in H0.
  destruct (rd_restores d !! operation) eqn:E1; [done|]. destruct (db_ops _ !! operation); [|done]. injection H0 as <-.
  apply rwp_rstore; [done|done|]. intros now' u d2 [= <- <-]. split_and!; [done|done|exact Hsl|..].
  - intros o' Ho. cbn. rewrite lookup_update, Hres. cbn. rewrite lookup_insert_ne by done.
    destruct (rd_restores d !! o'); [|done]. cbn. by rewrite decide_False.
  - eexists. cbn. rewrite lookup_update, Hres. cbn. rewrite lookup_insert_eq. cbn. rewrite decide_True by done. done.
Qed.
End begin.

(** ** From the journal to the end *)
Record prepared (request : Request) (plan : applicationBackupPlan) (newPaths rollbackPaths : gmap string string)
    (settled : gset string) (d : rdb) (fs : files) : Prop := {
  pr_operation : rq_OperationID request <> "";
  pr_keys : NoDup (storage_key <$> included_storage plan);
  pr_ready s : s ∈ included_storage plan -> ready (slot_for newPaths rollbackPaths fs s) fs;
  pr_staging key p : newPaths !! key = Some p -> exists s, s ∈ included_storage plan /\ storage_key s = key;
  pr_fresh key : rd_steps d !! (rq_OperationID request, key) = None;
  pr_open : rq_OperationID request ∉ settled;
  pr_settled o r : o ∈ settled -> rd_restores d !! o = Some r -> unresolved (ro_phase r) = false;
  pr_separated : separated (rq_OperationID request)
    (journal_table (rq_OperationID request) newPaths rollbackPaths fs (included_storage plan) d) settled
}.

Section run.
Context {E : Type} `{Host : RestoreHost E}.
Context (request : Request) (token : Z) (plan : applicationBackupPlan) (newPaths rollbackPaths : gmap string string)
        (settled : gset string) (d0 : rdb) (fs0 : files).
Hypothesis Hprep : prepared request plan newPaths rollbackPaths settled d0 fs0.

Notation operation := (rq_OperationID request).
Notation table := (journal_table operation newPaths rollbackPaths fs0 (included_storage plan) d0).
Notation sl := (slot_for newPaths rollbackPaths fs0).
Notation safe := (safe operation table settled).
Notation exchanging := (exchanging operation table settled).
Notation finished := (finished operation table settled).

Lemma own_slots key x : mine operation table key x <-> exists s, s ∈ included_storage plan /\ storage_key s = key /\ x = sl s.
Proof.
  unfold mine, journal_table. destruct Hprep as [_ Hk _ _ Hf _ _ _]. rewrite lookup_union_Some_raw. split.
  - intros [Hx|[_ Hx]].
    + destruct (decide (key ∈ storage_key <$> included_storage plan)) as [(s & -> & Hs)%list_elem_of_fmap|Hn].
      * rewrite new_slots_Some in Hx by done. injection Hx as <-. by exists s.
      * rewrite new_slots_None in Hx; [done|]. intros (s & E1 & Hs)%list_elem_of_fmap. injection E1 as ->. apply Hn.
        by apply (list_elem_of_fmap_2 storage_key).
    + rewrite lookup_fmap, Hf in Hx. done.
  - intros (s & Hs & <- & ->). left. by apply new_slots_Some.
Qed.

Lemma semantic_operation : SemanticOperationID request = operation.
Proof. unfold SemanticOperationID. rewrite decide_True; [done|apply Hprep]. Qed.

(** The deferred removal of what is left in the staging paths. *)
Lemma safe_staging s d fs fs' l : s ∈ included_storage plan -> outside [sl_S (sl s)] fs fs' ->
  (fs' !! sl_S (sl s) = None \/ fs' !! sl_S (sl s) = broken <$> fs !! sl_S (sl s)) ->
  forall r, finished r d fs l -> finished r d fs' l.
Proof.
  intros Hin Ho HS r [[Hr H] Hres]. pose proof (pr_separated _ _ _ _ _ _ _ Hprep) as Hsep.
  assert (mine operation table (storage_key s) (sl s)) as Hm by (apply own_slots; by exists s).
  assert (outside (slot_paths operation (sl s)) fs fs') as Ho'.
  { intros p Hp. apply Ho. intros ->%list_elem_of_singleton. by apply Hp, own_S. }
  assert (all_committed operation table fs -> all_committed operation table fs') as HCC.
  { intros HC. eapply (committed_elsewhere operation table settled Hsep _ _ fs); [done..| |done].
    pose proof (own_facts operation table settled Hsep _ _ Hm) as []. destruct (HC _ _ Hm) as [HO HR HS'].
    assert (fs' !! sl_O (sl s) = fs !! sl_O (sl s)) as EO.
    { apply Ho. intros Hx%list_elem_of_singleton. congruence. }
    assert (fs' !! sl_R (sl s) = fs !! sl_R (sl s)) as ER.
    { apply Ho. intros Hx%list_elem_of_singleton. congruence. }
    split; [by rewrite EO|intros t; rewrite ER; apply HR|]. destruct HS as [->| ->]; [done|]. by rewrite HS'. }
  split; [split; [done|]|].
  - destruct H as [[? HA]|[? HC]]; [left|right]; (split; [done|]); [|auto].
    eapply (placed_elsewhere operation table settled Hsep _ _ fs); [done..| |done].
    eapply (placed_staging_gone operation table settled Hsep); [done..|]. by eapply HA.
  - intros b Hb. destruct (Hres b Hb). auto.
Qed.

Lemma remove_staging r paths : (forall p, p ∈ paths -> exists s, s ∈ included_storage plan /\ p = sl_S (sl s)) ->
  rkeeps (E:=E) (finished r) (remove_paths paths).
Proof.
  induction paths as [|p paths IH]; intros Hp; cbn; [apply rkeeps_ret|].
  destruct (Hp p (list_elem_of_here _ _)) as (s & Hs & ->).
  apply rkeeps_bind; [|intros; apply IH; intros q Hq; by apply Hp, list_elem_of_further].
  apply rkeeps_remove; intros d fs l HF; (eapply (safe_staging s); [done| | |done]).
  - apply outside_alter, list_elem_of_here.
  - right. by rewrite lookup_alter_eq.
  - apply outside_delete, list_elem_of_here.
  - left. by rewrite lookup_delete_eq.
Qed.

Lemma begun_exchanging d l : slot_of <$> rd_steps d = table ->
  (forall o, o <> operation -> rd_restores d !! o = rd_restores d0 !! o) -> phase_is operation (eq RStaged) d ->
  exchanging d fs0 l.
Proof.
  intros Ht Ho (r & Hr & Hph). pose proof Hprep as [_ _ Hrd _ _ Hopen Hset _]. split_and!.
  - split; [done|]. intros o r' Hin Hr'. rewrite Ho in Hr'; [by eapply Hset|]. by intros ->.
  - exists r. split; [done|]. rewrite <- Hph. done.
  - intros key x (s & Hs & _ & ->)%own_slots. by apply ready_placed, Hrd.
Qed.

(** Before the journal nothing has changed. *)
Definition not_begun : rassn := fun d fs _ => d = d0 /\ fs = fs0.

Lemma swaps_spec secrets running d l : exchanging d fs0 l ->
  rwp (E:=E) (run* swaps := swap_all request rollbackPaths true (included_storage plan) [] newPaths in
      run* en := match swaps.1.1 with
                 | Swapped => commit_swapped request plan rollbackPaths true running secrets swaps.1.2
                 | KeepStaging e => keep e
                 | RollBack cause => undone request plan rollbackPaths true running swaps.1.2 cause
                 end in
      pret (en, swaps.2))
    (fun r d' fs' l' => finished (en_result r.1) d' fs' l' /\ r.2 ⊆ newPaths) safe d fs0 l.
Proof.
  intros HE. pose proof Hprep as [_ Hk Hrd _ _ Hopen _ Hsep].
  assert (forall s, s ∈ included_storage plan -> mine operation table (storage_key s) (sl s)) as Hm
    by (intros s Hs; apply own_slots; by exists s).
  apply rwp_bind. eapply rwp_mono.
  - apply (swap_all_spec operation table settled Hsep Hopen request plan rollbackPaths sl); try done.
    split_and!; [done| |by intros s Hs; split; [|apply Hrd]]. intros s Hs. by apply not_elem_of_nil in Hs.
  - intros [[res swapped] np] d1 fs1 l1 (HE1 & Hsw & Hnd & Hres & Hsub). cbn in *.
    assert (forall e d' fs' l', exchanging d' fs' l' -> finished (Err e) d' fs' l') as Hfin
      by (intros; split; [by apply exchanging_safe|done]).
    apply rwp_bind. destruct res as [|e|cause].
    + rewrite (Hres eq_refl) in *. eapply rwp_mono;
        [apply (commit_spec operation table settled Hsep Hopen request plan rollbackPaths sl); try done| |done].
      * exact semantic_operation.
      * intros key x Hx. by apply own_slots.
      * split; [done|]. intros s Hs. by apply Hsw.
      * intros en d2 fs2 l2 HF. apply rwp_ret. done.
    + apply rwp_ret, rwp_ret. split; [by apply Hfin|done].
    + unfold undone. apply rwp_bind.
      pose proof (rollback_live operation table settled Hsep Hopen request plan rollbackPaths sl eq_refl semantic_operation Hm
        ltac:(done) ltac:(done) running swapped cause d1 fs1 l1 Hnd HE1 Hsw) as H.
      intros e. specialize (H e). unfold undone, pbind in H. destruct (roll_back _ _ _ _ _ _ _ _) as [err w|w]; cbn in *.
      * intros e'. cbn. apply rwp_ret. split; [by apply Hfin|done].
      * by apply exchanging_safe in H.
  - apply exchanging_safe.
Qed.

Definition staging_paths : list string := map (fun s => sl_S (sl s)) (included_storage plan).

(** How a run ends: without a journal, or with the directories safe. *)
Definition run_end (r : res bool) : rassn := fun d fs l =>
  (d = d0 /\ is_ok r = false /\ outside staging_paths fs0 fs) \/
  finished r d fs l.
Definition run_death : rassn := fun d fs l => not_begun d fs l \/ safe d fs l.

Lemma body_spec secrets l :
  rwp (E:=E) (swap_and_commit request token plan rollbackPaths true secrets newPaths)
    (fun r d fs l => (not_begun d fs l /\ is_ok (en_result r.1) = false \/ finished (en_result r.1) d fs l) /\ r.2 ⊆ newPaths)
    run_death d0 fs0 l.
Proof.
  pose proof Hprep as [_ Hk _ _ _ Hopen _ _]. unfold swap_and_commit, fails, keep. apply rwp_try, rwp_bind.
  eapply rwp_mono; [apply (begin_spec operation newPaths rollbackPaths request token plan secrets not_begun); done| |by left].
  intros [[]|e] d1 fs1 l1; [|intros (-> & -> & ->); do 2 apply rwp_ret; split; [by left|done]].
  intros (-> & -> & Ht & Ho & Hph). apply rwp_ret. pose proof (begun_exchanging d1 l Ht Ho Hph) as HE.
  assert (forall en d l, exchanging d fs0 l -> is_ok (en_result en) = false ->
    rwp (E:=E) (run* e := pret en in pret (e, newPaths)) (fun r d fs l =>
      (not_begun d fs l /\ is_ok (en_result r.1) = false \/ finished (en_result r.1) d fs l) /\ r.2 ⊆ newPaths) run_death d fs0 l) as Hret.
  { intros en d l' HE' Hok. apply rwp_ret. split; [right|done]. split; [by apply exchanging_safe|].
    intros b Hb. cbn in Hb. by rewrite Hb in Hok. }
  set (P := fun d fs l => exchanging d fs l /\ fs = fs0).
  assert (forall d fs l, P d fs l -> run_death d fs l) as HPD by (intros ? ? ? [? _]; right; by apply exchanging_safe).
  assert (P d1 fs0 l) as HP by done.
  apply rwp_bind, rwp_fault; [by apply HPD|]. intros []; [|by apply Hret..].
  apply rwp_try. eapply (rwp_mono _ (fun _ => P) _ P); [by apply (rkeeps_snapshot P)| |apply HPD].
  intros [running|e] d2 fs2 l2 [HE2 ->]; [|by apply Hret]. unfold journal, op.
  apply rwp_try, rwp_rstore; [by apply HPD|intros; by apply Hret|]. intros now u d3 Hu.
  assert (exchanging d3 fs0 l2) as HE3.
  { eapply (exchanging_step operation table settled Hopen (Some RSwapping)); [journal_statement| |done]. by intros ? [= <-]. }
  apply rwp_try. eapply (rwp_mono _ (fun _ => P) _ P); [by apply (rkeeps_quiesce P)| |apply HPD].
  intros [[]|e] d4 fs4 l4 [HE4 ->]; [|by apply Hret].
  eapply rwp_mono; [by apply swaps_spec| |by right]. intros r d5 fs5 l5 [HF Hsub]. split; [by right|done].
Qed.

Lemma remove_staging_only paths : (forall p, p ∈ paths -> exists s, s ∈ included_storage plan /\ p = sl_S (sl s)) ->
  rkeeps (E:=E) (fun d fs _ => d = d0 /\ outside staging_paths fs0 fs)
    (remove_paths paths).
Proof.
  induction paths as [|p ps IH]; intros Hp; cbn; [apply rkeeps_ret|].
  destruct (Hp p (list_elem_of_here _ _)) as (s & Hs & ->).
  apply rkeeps_bind; [|intros; apply IH; intros q Hq; by apply Hp, list_elem_of_further].
  assert (sl_S (sl s) ∈ staging_paths) by (by apply (list_elem_of_fmap_2 (fun s => sl_S (sl s)))).
  apply rkeeps_remove; intros d fs l' [-> HP]; (split; [done|]); (eapply outside_trans; [done|]);
    [by apply outside_alter | by apply outside_delete].
Qed.

Lemma run_spec secrets l :
  rwp (E:=E) (swap_and_discard request token plan rollbackPaths true secrets newPaths) run_end
    (fun d fs l => (d = d0 /\ outside staging_paths fs0 fs) \/ safe d fs l)
    d0 fs0 l.
Proof.
  unfold swap_and_discard. apply rwp_bind. eapply rwp_mono; [apply body_spec| |].
  2: { intros d fs l' [[-> ->]|?]; [by left|by right]. }
  intros [en np] d fs l1 [H Hsub]. cbn in *. destruct (en_preserve en).
  { apply rwp_ret. destruct H as [[[-> ->] Hok]|?]; [left|right]; done. }
  pose proof Hprep as [_ _ _ Hst _ _ _ Hsep]. apply rwp_bind.
  assert (forall p, p ∈ map snd (map_to_list np) -> exists s, s ∈ included_storage plan /\ p = sl_S (sl s)) as Hp.
  { intros p ([key p'] & -> & Hin)%list_elem_of_fmap. apply elem_of_map_to_list in Hin. cbn.
    assert (newPaths !! key = Some p') as Hn by (by eapply lookup_weaken). destruct (Hst key p' Hn) as (s & Hs & Hkey).
    exists s. split; [done|]. cbn. unfold path_at. by rewrite Hkey, Hn. }
  destruct H as [[[-> ->] Hok]|HF].
  - set (P := fun (d : rdb) (fs : files) (_ : rlog) => d = d0 /\ outside staging_paths fs0 fs).
    eapply (rwp_mono _ (fun _ => P) _ P); [|intros u d' fs' l' [-> HP]; apply rwp_ret; by left|by left].
    by apply remove_staging_only.
  - eapply rwp_mono; [by apply (remove_staging (en_result en))| |].
    + intros u d' fs' l' HF'. apply rwp_ret. by right.
    + intros d' fs' l' [? _]. by right.
Qed.
End run.

(** * The restore function as a whole

    Staging adds trees and touches nothing else; what it leaves is what the
    exchange relies on. *)

Lemma rwp_copy {E} `{RestoreHost E} name Q (C : rassn) d fs l :
  C d fs l -> (forall err, Q (Err err) d fs l) ->
  (forall i w r, unused i fs -> fs !! name = None -> (r = Ok tt -> w = true) ->
     Q r d (<[name := {| tr_identity := i; tr_whole := w |}]> fs) l) ->
  rwp (E:=E) (CopyTree name) Q C d fs l.
Proof.
  intros HC HE HQ. apply rwp_alive; [done|]. intros e. cbn. destruct (rh_identity e) as [i e1].
  case_decide as Hu; [|apply HE]. destruct Hu as [Hu Hn].
  destruct (rh_copy name e1) as [[[err []]|] e2]; [by apply HQ | apply HE | by apply HQ].
Qed.

(** The names a restore gives to the trees of a directory. *)
Definition name_paths (request : Request) (s : managedBackupStorage) : list string :=
  [mg_HostPath s; staged_name request s; rollback_name request s; failed_path request s].

(** The names do not clash, with each other or with those of other journals. *)
Record names_apart (request : Request) (storage : list managedBackupStorage) (settled : gset string) (d : rdb) : Prop := {
  na_keys : NoDup (storage_key <$> storage);
  na_distinct s : s ∈ storage -> NoDup (name_paths request s);
  na_apart s s' p : s ∈ storage -> s' ∈ storage -> storage_key s <> storage_key s' -> p ∈ name_paths request s ->
    p ∉ name_paths request s';
  na_rollback o key row s : o <> rq_OperationID request -> rd_steps d !! (o, key) = Some row -> s ∈ storage ->
    sw_rollback_path row ∉ name_paths request s;
  na_others o key row s p : o <> rq_OperationID request -> o ∉ settled -> rd_steps d !! (o, key) = Some row ->
    s ∈ storage -> p ∈ slot_paths o (slot_of row) -> p ∉ name_paths request s
}.

Section staging.
Context {E : Type} `{Host : RestoreHost E}.
Context (request : Request) (included : list managedBackupStorage) (settled : gset string) (d0 : rdb) (fs0 : files).
Hypothesis Hnames : names_apart request included settled d0.

(** Only staged trees were added. *)
Definition grown (fs : files) : Prop :=
  fs0 ⊆ fs /\ forall p, p ∉ staged_name request <$> included -> fs !! p = fs0 !! p.

Record staged_as (s : managedBackupStorage) (newPaths rollbackPaths : gmap string string) (fs : files) : Prop := {
  sa_target t : fs !! staged_name request s = Some t -> tr_whole t = true /\ unused (tr_identity t) fs0;
  sa_staged : is_Some (fs !! staged_name request s);
  sa_host : is_Some (fs0 !! mg_HostPath s);
  sa_rollback : fs0 !! rollback_name request s = None;
  sa_new : newPaths !! storage_key s = Some (staged_name request s);
  sa_old : rollbackPaths !! storage_key s = Some (rollback_name request s)
}.

Lemma not_staged s s' p : s ∈ included -> s' ∈ included -> p ∈ name_paths request s -> p = staged_name request s' ->
  p = staged_name request s.
Proof.
  intros Hs Hs' Hp ->. destruct (decide (storage_key s = storage_key s')) as [Hk|Hk].
  - pose proof (na_keys _ _ _ _ Hnames) as Hnd. assert (s = s') as ->; [|done].
    apply list_elem_of_lookup in Hs as [i Hi], Hs' as [i' Hi'].
    assert (i = i') as ->; [|congruence].
    eapply (NoDup_lookup (storage_key <$> included)); [done| |]; rewrite list_lookup_fmap; [by rewrite Hi|].
    rewrite Hi'. cbn. by rewrite Hk.
  - exfalso. eapply (na_apart _ _ _ _ Hnames s s'); eauto. unfold name_paths. set_solver.
Qed.

Lemma host_kept s fs : s ∈ included -> grown fs -> fs !! mg_HostPath s = fs0 !! mg_HostPath s.
Proof.
  intros Hs [_ Hg]. apply Hg. intros (s' & Heq & Hs')%list_elem_of_fmap.
  pose proof (na_distinct _ _ _ _ Hnames s Hs) as Hnd. unfold name_paths in Hnd. rewrite !NoDup_cons in Hnd.
  pose proof (not_staged s s' (mg_HostPath s) Hs Hs' ltac:(apply list_elem_of_here) Heq). set_solver.
Qed.

Lemma rollback_kept s fs : s ∈ included -> grown fs -> fs !! rollback_name request s = fs0 !! rollback_name request s.
Proof.
  intros Hs [_ Hg]. apply Hg. intros (s' & Heq & Hs')%list_elem_of_fmap.
  pose proof (na_distinct _ _ _ _ Hnames s Hs) as Hnd. unfold name_paths in Hnd. rewrite !NoDup_cons in Hnd.
  pose proof (not_staged s s' (rollback_name request s) Hs Hs' ltac:(unfold name_paths; set_solver) Heq). set_solver.
Qed.

Definition staged_so_far (done : list managedBackupStorage) (newPaths rollbackPaths : gmap string string) : rassn :=
  fun d fs _ => d = d0 /\ grown fs /\ (forall s, s ∈ done -> staged_as s newPaths rollbackPaths fs) /\
    (forall key p, newPaths !! key = Some p -> exists s, s ∈ done /\ storage_key s = key).

Definition only_staged : rassn := fun d fs _ => d = d0 /\ grown fs.

Lemma stage_all_spec done storage newPaths rollbackPaths d fs l : included = done ++ storage ->
  staged_so_far done newPaths rollbackPaths d fs l ->
  rwp (E:=E) (stage_all request storage newPaths rollbackPaths)
    (fun r d' fs' l' => match r with
       | Err _ => only_staged d' fs' l'
       | Ok paths => staged_so_far included paths.1 paths.2 d' fs' l'
       end) only_staged d fs l.
Proof.
  revert done newPaths rollbackPaths d fs l.
  induction storage as [|s storage IH]; intros done newPaths rollbackPaths d fs l Hinc HS; cbn.
  { apply rwp_ret. rewrite app_nil_r in Hinc. by subst. }
  pose proof HS as (-> & Hg & Hdone & Hnew). assert (only_staged d0 fs l) as Hok by done.
  assert (s ∈ included) as Hs by (rewrite Hinc; apply elem_of_app; right; apply list_elem_of_here).
  apply rwp_bind, rwp_identity; [done|intros; by apply rwp_ret|].
  destruct (fs !! mg_HostPath s) as [th|] eqn:EH; cbn; [|by apply rwp_ret].
  apply rwp_bind, rwp_identity; [done|intros; by apply rwp_ret|].
  destruct (fs !! staged_name request s) as [ts|] eqn:ES; cbn; [by apply rwp_ret|].
  apply rwp_bind, rwp_identity; [done|intros; by apply rwp_ret|].
  destruct (fs !! rollback_name request s) as [tb|] eqn:ER; cbn; [by apply rwp_ret|].
  apply rwp_try, rwp_copy; [done|intros; by apply rwp_ret|]. intros i w r Hu Hn Hw.
  assert (grown (<[staged_name request s := {| tr_identity := i; tr_whole := w |}]> fs)) as Hg'.
  { destruct Hg as [Hsub Hout]. split.
    - apply insert_subseteq_r; [|done]. by eapply lookup_weaken_None.
    - intros p Hp. rewrite lookup_insert_ne; [by apply Hout|]. intros <-. apply Hp. by apply list_elem_of_fmap_2. }
  destruct r as [[]|e]; [|by apply rwp_ret]. rewrite (Hw eq_refl) in *.
  set (fs1 := <[staged_name request s := {| tr_identity := i; tr_whole := true |}]> fs) in *.
  assert (forall s', s' ∈ done -> storage_key s' <> storage_key s /\ staged_name request s' <> staged_name request s) as Hother.
  { intros s' Hs'. assert (s' ∈ included) as Hi' by (rewrite Hinc; apply elem_of_app; by left).
    assert (storage_key s' <> storage_key s) as Hk.
    { pose proof (na_keys _ _ _ _ Hnames) as Hnd. rewrite Hinc, fmap_app, fmap_cons in Hnd. apply NoDup_app in Hnd as (_ & Hd & _).
      intros Heq. apply (Hd (storage_key s')); [by apply (list_elem_of_fmap_2 storage_key)|]. rewrite Heq. apply list_elem_of_here. }
    split; [done|]. intros Heq. eapply (na_apart _ _ _ _ Hnames s' s (staged_name request s')); eauto;
      unfold name_paths; rewrite ?Heq; set_solver. }
  eapply (IH (done ++ [s])); [by rewrite <- app_assoc|]. split_and!; [done|done| |].
  - intros s' [Hs'| ->%list_elem_of_singleton]%elem_of_app.
    + destruct (Hother s' Hs') as [Hk Hne]. destruct (Hdone s' Hs') as [H1 H2 H3 H4 H5 H6]. unfold fs1.
      split; rewrite ?lookup_insert_ne by congruence; done.
    + assert (unused i fs0) as Hu0.
      { intros p t Hp. apply (Hu p). destruct Hg as [Hsub _]. by eapply lookup_weaken. }
      split; [|unfold fs1; by rewrite lookup_insert_eq|..].
      * intros t. unfold fs1. rewrite lookup_insert_eq. by intros [= <-].
      * rewrite <- (host_kept s fs) by done. by rewrite EH.
      * by rewrite <- (rollback_kept s fs).
      * by rewrite lookup_insert_eq.
      * by rewrite lookup_insert_eq.
  - intros key p. destruct (decide (key = storage_key s)) as [->|Hk].
    + intros _. exists s. split; [apply elem_of_app; right; apply list_elem_of_here|done].
    + rewrite lookup_insert_ne by done. intros Hp. destruct (Hnew key p Hp) as (s' & Hs' & ?). exists s'.
      split; [apply elem_of_app; by left|done].
Qed.
End staging.

(** ** What a restore starts from *)
Record restorable (catalog : res (gmap string Manifest)) (request : Request) (settled : gset string) (d : rdb) (fs : files)
    : Prop := {
  re_operation : rq_OperationID request <> "";
  re_fresh key : rd_steps d !! (rq_OperationID request, key) = None;
  re_open : rq_OperationID request ∉ settled;
  re_settled o r : o ∈ settled -> rd_restores d !! o = Some r -> unresolved (ro_phase r) = false;
  re_whole p t : fs !! p = Some t -> tr_whole t = true;
  re_names row plan : backup_row (rq_BackupID request) (rq_InstanceID request) d = Some row ->
    loadApplicationBackupPlan catalog (is_directory fs) (rd_plan d) (addressed request row) = Ok plan ->
    names_apart request (included_storage plan) settled d
}.

Section whole.
Context {E : Type} `{Host : RestoreHost E} (catalog : res (gmap string Manifest)) (ar : archive).
Context (request : Request) (token : Z) (settled : gset string) (d0 : rdb) (fs0 : files).
Hypothesis Hre : restorable catalog request settled d0 fs0.

Notation operation := (rq_OperationID request).

Lemma semantic_own : SemanticOperationID request = operation.
Proof. unfold SemanticOperationID. rewrite decide_True; [done|apply Hre]. Qed.

Lemma staged_slot plan newPaths rollbackPaths fs s : staged_as request fs0 s newPaths rollbackPaths fs ->
  s ∈ included_storage plan -> slot_paths operation (slot_for newPaths rollbackPaths fs s) = name_paths request s.
Proof.
  intros [_ _ _ _ Hn Hr] Hs. unfold slot_paths, name_paths, slot_for, path_at, failed_of, failed_path. cbn.
  rewrite Hn, Hr, semantic_own. done.
Qed.

Lemma staged_ready plan newPaths rollbackPaths fs s : names_apart request (included_storage plan) settled d0 ->
  grown request (included_storage plan) fs0 fs -> staged_as request fs0 s newPaths rollbackPaths fs -> s ∈ included_storage plan ->
  ready (slot_for newPaths rollbackPaths fs s) fs /\
  sl_original (slot_for newPaths rollbackPaths fs s) <> sl_staged (slot_for newPaths rollbackPaths fs s).
Proof.
  intros Hn Hg [Ht [ts Hts] [th Hth] Hrb Hnew Hold] Hs. unfold slot_for, path_at, identity_at. rewrite Hnew, Hold. cbn.
  pose proof (host_kept request _ settled d0 fs0 Hn s fs Hs Hg) as EH. rewrite Hth in EH.
  pose proof (rollback_kept request _ settled d0 fs0 Hn s fs Hs Hg) as ER. rewrite Hrb in ER.
  destruct (Ht ts Hts) as [Hw Hu]. rewrite EH, Hts. cbn. split.
  - split; cbn; [rewrite EH|rewrite Hts|done]; f_equal; unfold whole; [|by destruct ts; cbn in *; subst].
    pose proof (re_whole _ _ _ _ _ Hre _ _ Hth). destruct th; cbn in *; by subst.
  - intros Heq. by apply (Hu _ _ Hth).
Qed.

Lemma staged_prepared plan newPaths rollbackPaths d fs l : names_apart request (included_storage plan) settled d0 ->
  staged_so_far request (included_storage plan) d0 fs0 (included_storage plan) newPaths rollbackPaths d fs l ->
  d = d0 /\ prepared request plan newPaths rollbackPaths settled d0 fs.
Proof.
  intros Hn (-> & Hg & Hst & Hnew). split; [done|].
  assert (forall key x, mine operation (journal_table operation newPaths rollbackPaths fs (included_storage plan) d0) key x ->
            exists s, s ∈ included_storage plan /\ storage_key s = key /\ x = slot_for newPaths rollbackPaths fs s) as Hm.
  { intros key x. unfold mine, journal_table. rewrite lookup_union_Some_raw. intros [Hx|[_ Hx]].
    - destruct (decide (key ∈ storage_key <$> included_storage plan)) as [(s & -> & Hs)%list_elem_of_fmap|Hk].
      + rewrite new_slots_Some in Hx by (done || apply Hn). injection Hx as <-. by exists s.
      + rewrite new_slots_None in Hx; [done|]. intros (s & E1 & Hs)%list_elem_of_fmap. injection E1 as ->.
        apply Hk. by apply (list_elem_of_fmap_2 storage_key).
    - rewrite lookup_fmap, (re_fresh _ _ _ _ _ Hre) in Hx. done. }
  assert (forall o key s', o <> operation -> journal_table operation newPaths rollbackPaths fs (included_storage plan) d0 !! (o, key) = Some s' ->
            exists row, rd_steps d0 !! (o, key) = Some row /\ slot_of row = s') as Hf.
  { intros o key s' Ho. unfold journal_table. rewrite lookup_union_r, lookup_fmap.
    - destruct (rd_steps d0 !! (o, key)) as [row|]; [|done]. intros [= <-]. by exists row.
    - apply new_slots_None. intros (s & E1 & Hs)%list_elem_of_fmap. injection E1 as -> _. done. }
  assert (forall s, s ∈ included_storage plan -> slot_paths operation (slot_for newPaths rollbackPaths fs s) = name_paths request s) as Hp
    by (intros s Hs; apply (staged_slot plan); auto).
  split; try apply Hre; [apply Hn|intros s Hs; by apply (staged_ready plan); auto|done|]. split.
  - intros key s (s' & Hs' & _ & ->)%Hm. rewrite Hp by done. by apply Hn.
  - intros key s (s' & Hs' & _ & ->)%Hm. by apply (staged_ready plan); auto.
  - intros key key' s s' p (x & Hx & Hkx & ->)%Hm (y & Hy & Hky & ->)%Hm Hk. rewrite !Hp by done. apply (na_apart _ _ _ _ Hn); congruence.
  - intros o key key' s s' Ho (row & Hrow & <-)%Hf (x & Hx & _ & ->)%Hm; [|done]. rewrite Hp by done. by eapply (na_rollback _ _ _ _ Hn).
  - intros o key key' s s' p Ho Hset (row & Hrow & <-)%Hf (x & Hx & _ & ->)%Hm; [|done]. rewrite Hp by done. by eapply (na_others _ _ _ _ Hn).
Qed.

(** Nothing that was there is gone. *)
Definition untouched : rassn := fun d fs _ => d = d0 /\ fs0 ⊆ fs.

(** The journal is written: the directories it lists held these whole trees. *)
Definition begun (Q : gmap (string * string) slot -> rassn) : rassn := fun d fs l =>
  exists table, separated operation table settled /\
    (forall key s, mine operation table key s -> fs0 !! sl_O s = Some (whole (sl_original s))) /\ Q table d fs l.

Definition restore_end (r : res bool) : rassn := fun d fs l =>
  untouched d fs l /\ is_ok r = false \/ begun (fun table => finished operation table settled r) d fs l.
Definition restore_death : rassn := fun d fs l =>
  untouched d fs l \/ begun (fun table => safe operation table settled) d fs l.

Lemma untouched_outside fs fs' ps : fs0 ⊆ fs -> outside ps fs fs' -> (forall p, p ∈ ps -> fs0 !! p = None) -> fs0 ⊆ fs'.
Proof.
  intros Hsub Ho Hn. apply map_subseteq_spec. intros p t Hp. rewrite Ho; [by eapply lookup_weaken|].
  intros Hin. rewrite Hn in Hp; done.
Qed.

Lemma untouched_remove paths : (forall p, p ∈ paths -> fs0 !! p = None) -> rkeeps (E:=E) untouched (remove_paths paths).
Proof.
  induction paths as [|p paths IH]; intros Hp; cbn; [apply rkeeps_ret|].
  apply rkeeps_bind; [|intros; apply IH; intros q Hq; by apply Hp, list_elem_of_further].
  apply rkeeps_remove; intros d fs l [-> Hsub]; (split; [done|]); (eapply (untouched_outside fs _ [p]); [done| |]);
    try (intros q ->%list_elem_of_singleton; apply Hp, list_elem_of_here); [apply outside_alter | apply outside_delete];
    apply list_elem_of_here.
Qed.

Lemma staged_absent s newPaths rollbackPaths fs : fs0 ⊆ fs -> staged_as request fs0 s newPaths rollbackPaths fs ->
  fs0 !! staged_name request s = None.
Proof.
  intros Hsub [Ht [t Hts] _ _ _ _]. destruct (Ht t Hts) as [_ Hu]. destruct (fs0 !! staged_name request s) as [t'|] eqn:E1; [|done].
  exfalso. apply (Hu _ _ E1). assert (fs !! staged_name request s = Some t') by (by eapply lookup_weaken). congruence.
Qed.

(** The part of the function that follows staging. *)
Lemma staged_run plan paths secrets d fs l : names_apart request (included_storage plan) settled d0 ->
  staged_so_far request (included_storage plan) d0 fs0 (included_storage plan) paths.1 paths.2 d fs l ->
  rwp (E:=E) (swap_and_discard request token plan paths.2 true secrets paths.1) restore_end restore_death d fs l.
Proof.
  intros Hn HS. pose proof HS as (_ & Hg & Hst & _). destruct (staged_prepared plan _ _ _ _ _ Hn HS) as [-> Hprep].
  set (table := journal_table operation paths.1 paths.2 fs (included_storage plan) d0).
  assert (forall key s, mine operation table key s -> fs0 !! sl_O s = Some (whole (sl_original s))) as Horig.
  { intros key s (x & Hx & _ & ->)%(own_slots request plan paths.1 paths.2 settled d0 fs Hprep).
    destruct (staged_ready plan paths.1 paths.2 fs x) as [[HO _ _] _]; [done..|by apply Hst|done|].
    etrans; [symmetry; by apply (host_kept request _ settled d0 fs0 Hn x fs)|exact HO]. }
  assert (forall fs', outside (staging_paths plan paths.1 paths.2 fs) fs fs' -> fs0 ⊆ fs') as Hun.
  { intros fs' Ho. eapply untouched_outside; [apply Hg|done|]. intros p (x & -> & Hx)%list_elem_of_fmap.
    cbn. unfold path_at. rewrite (sa_new _ _ _ _ _ _ (Hst x Hx)). cbn. eapply staged_absent; [apply Hg|by apply Hst]. }
  eapply rwp_mono; [by apply (run_spec request token plan paths.1 paths.2 settled d0 fs Hprep)| |].
  - intros r d' fs' l' [(-> & Hok & Ho)|HF]; [left|right]; [split; [split|]; auto|].
    exists table. split; [apply Hprep|done].
  - intros d' fs' l' [(-> & Ho)|HF]; [left; split; auto|right]. exists table. split; [apply Hprep|done].
Qed.
End whole.

Lemma whole_spec {E} `{RestoreHost E} catalog ar request token settled d fs l :
  restorable catalog request settled d fs -> 0 < token ->
  rwp (E:=E) (restoreApplicationBackupWithFence catalog ar request token)
    (restore_end request settled d fs) (restore_death request settled d fs) d fs l.
Proof.
  intros Hre Htok. unfold restoreApplicationBackupWithFence.
  assert (forall e d' fs' l', untouched d fs d' fs' l' -> restore_end request settled d fs (Err e) d' fs' l') as Hend by (by left).
  assert (forall d' fs' l', untouched d fs d' fs' l' -> restore_death request settled d fs d' fs' l') as Hdie by (by left).
  assert (untouched d fs d fs l) as Hu by done.
  case_decide; [by apply rwp_ret, Hend|]. apply rwp_try, rwp_rquery; [by apply Hdie|intros; by apply rwp_ret, Hend|].
  intros row Hrow. destruct (backup_row _ _ d) as [row'|] eqn:Eb; [|done]. injection Hrow as <-.
  destruct (checked_archive ar row') as [u|e]; [|by apply rwp_ret, Hend].
  apply rwp_try, rwp_rquery; [by apply Hdie|intros; by apply rwp_ret, Hend|]. intros plan Hplan.
  destruct (extracted ar _ plan) as [[backup secrets]|e]; [|by apply rwp_ret, Hend].
  pose proof (re_names _ _ _ _ _ Hre row' plan Eb Hplan) as Hn.
  set (request' := addressed request row').
  assert (names_apart request' (included_storage plan) settled d) as Hn' by (destruct Hn; split; assumption).
  assert (restorable catalog request' settled d fs) as Hre'.
  { destruct Hre as [? ? ? ? ? Hna]. split; try assumption. intros row0 plan0 Hb Hp. destruct (Hna row0 plan0 Hb Hp). split; assumption. }
  apply rwp_try. eapply rwp_mono; [apply (stage_all_spec request' (included_storage plan) settled d fs Hn' [])| |].
  { done. }
  { split_and!; [done|done| |done]. intros s Hs. by apply not_elem_of_nil in Hs. }
  2: { intros d' fs' l' [-> [? _]]. by apply Hdie. }
  intros [paths|e] d1 fs1 l1 HS; [|apply rwp_ret, Hend; by destruct HS as [-> [? _]]].
  destruct (databases_match ar backup plan) as [u'|e].
  - rewrite bool_decide_eq_true_2 by (split; [done|apply Hre]).
    eapply (staged_run catalog request' token settled d fs Hre' plan paths); done.
  - apply rwp_bind. pose proof HS as (-> & Hg & Hst & Hnew).
    eapply rwp_mono; [apply (untouched_remove d fs)| |apply Hdie].
    + intros p ([key p'] & -> & Hin)%list_elem_of_fmap. apply elem_of_map_to_list in Hin. cbn.
      destruct (Hnew key p' Hin) as (s & Hs & <-). pose proof (sa_new _ _ _ _ _ _ (Hst s Hs)) as Hp. rewrite Hin in Hp.
      injection Hp as ->. eapply (staged_absent request' fs); [apply Hg|by apply Hst].
    + split; [done|apply Hg].
    + intros u0 d2 fs2 l2 HU. by apply rwp_ret, Hend.
Qed.
