(* ===== verification/RestoreProps.v ===== *)
(** * Restores lose no data

    The theorems about a restore and its recovery over any sequence of deaths,
    failures and restarts, and runs of both on a concrete host. *)

From S2P Require Import Prelude Protocol Exposure HelperDB Coordinator NetIP Ingress Containers Manifest ManifestSamples HelperPlanProps ExternalStorage Secrets BackupPlan Restore RestoreProofs RestoreRecoveryProofs RestoreOwnProofs RestoreSwapProofs RestoreRunProofs.
From stdpp Require Import base strings list gmap sorting fin_maps.
From Stdlib Require Import ZArith Lia.

Import Wire.
Open Scope Z_scope.

Definition world_of {E A} (r : rout E A) : rworld E := match r with Ended _ w => w | Killed w => w end.

Lemma rwp_world {E A} (m : rprog E A) (P : rassn) d fs l e : rwp m (fun _ => P) P d fs l ->
  P (rw_db (world_of (m (RWorld d fs l e)))) (rw_fs (world_of (m (RWorld d fs l e)))) (rw_log (world_of (m (RWorld d fs l e)))).
Proof. intros H. specialize (H e). by destruct (m (RWorld d fs l e)). Qed.

(** What may follow a restore: startups of the helper, each of which may fail or
    die anywhere, and work that is not about restores and leaves the paths of
    this one alone. *)
Section later.
Context {E : Type} `{Host : RestoreHost E} (catalog : res (gmap string Manifest)) (unmarshal : string -> option json).
Context (operation : string).

Inductive later (d : rdb) (fs : files) : rdb -> files -> Prop :=
| later_now : later d fs d fs
| later_startup d1 fs1 l e : later d fs d1 fs1 ->
    later d fs (rw_db (world_of (startup_restores catalog unmarshal (RWorld d1 fs1 l e))))
      (rw_fs (world_of (startup_restores catalog unmarshal (RWorld d1 fs1 l e))))
| later_elsewhere d1 fs1 d2 fs2 : later d fs d1 fs1 ->
    rd_steps d2 = rd_steps d1 -> rd_restores d2 = rd_restores d1 ->
    (forall key row p, rd_steps d1 !! (operation, key) = Some row -> p ∈ slot_paths operation (slot_of row) ->
       fs2 !! p = fs1 !! p) ->
    later d fs d2 fs2.

Context (table : gmap (string * string) slot) (settled : gset string).
Hypothesis Hsep : separated operation table settled.
Hypothesis Hopen : operation ∉ settled.

Lemma kept_startup : rkeeps (E:=E) (kept operation table settled (fun _ => True)) (startup_restores catalog unmarshal).
Proof.
  apply rkeeps_bind; [by apply kept_recovery|]. intros [n [err|]]; [apply rkeeps_ret|by apply kept_cleanup_committed].
Qed.

Lemma later_preserved d fs d' fs' : later d fs d' fs' -> preserved operation table settled d fs ->
  preserved operation table settled d' fs'.
Proof.
  intros HL HP. induction HL as [|d1 fs1 l e HL IH|d1 fs1 d2 fs2 HL IH H1 H2 Hfs]; [done| |].
  - apply (rwp_world _ (kept operation table settled (fun _ => True))). by apply kept_startup.
  - assert (journal_step operation None d1 d2) as Hs by (by apply journal_step_same).
    eapply (preserved_own operation table settled Hopen None d1); [done|done|].
    apply (preserved_same operation table settled d1 fs1); [|done].
    intros key s p Hs' Hp. destruct IH as [[Ht _] _]. unfold mine in Hs'. rewrite <- Ht, lookup_fmap in Hs'.
    destruct (rd_steps d1 !! (operation, key)) as [row|] eqn:Hrow; [|done]. injection Hs' as <-. by eapply Hfs.
Qed.
End later.

(** ** A concrete host *)

(** Calls until the process dies, the renames that fail (by their number), the
    answers to starts, whether the container runs, and the next inode. *)
Record sample_host : Type := {
  sh_left : option nat;
  sh_renames : nat;
  sh_bad_renames : list nat;
  sh_starts : list bool;
  sh_running : bool;
  sh_next : Z
}.
#[export] Instance sample_host_eta : Eta sample_host := fun h =>
  Build_sample_host (sh_left h) (sh_renames h) (sh_bad_renames h) (sh_starts h) (sh_running h) (sh_next h).
#[export] Instance set_sh_left : Setter sh_left := ltac:(mk_setter).
#[export] Instance set_sh_renames : Setter sh_renames := ltac:(mk_setter).
#[export] Instance set_sh_starts : Setter sh_starts := ltac:(mk_setter).
#[export] Instance set_sh_running : Setter sh_running := ltac:(mk_setter).
#[export] Instance set_sh_next : Setter sh_next := ltac:(mk_setter).

#[export] Instance sample_restore_host : RestoreHost sample_host := {
  rh_dies h := match sh_left h with
               | Some 0%nat => (true, h)
               | Some (S n) => (false, h <| sh_left := Some n |>)
               | None => (false, h)
               end;
  rh_now h := ("2026-07-22T10:00:00Z", h);
  rh_fault h := (None, h);
  rh_lstat _ h := (None, h);
  rh_rename _ _ h := (if bool_decide (sh_renames h ∈ sh_bad_renames h) then Some (ErrMsg "device busy") else None,
                      h <| sh_renames := S (sh_renames h) |>);
  rh_identity h := ({| pi_Device := 8; pi_Inode := sh_next h |}, h <| sh_next := sh_next h + 1 |>);
  rh_copy _ h := (None, h);
  rh_remove _ h := (None, h);
  rh_inspect _ h := (Ok (Some (sh_running h)), h);
  rh_start _ h := match sh_starts h with
                  | false :: later => (Err (ErrMsg "start failed"), h <| sh_starts := later |>)
                  | _ :: later => (Ok tt, h <| sh_starts := later |> <| sh_running := true |>)
                  | [] => (Ok tt, h <| sh_running := true |>)
                  end;
  rh_stop _ h := (Ok tt, h <| sh_running := false |>);
  rh_hook _ _ h := (HookGo, h)
}.

Definition quiet : sample_host :=
  {| sh_left := None; sh_renames := 0; sh_bad_renames := []; sh_starts := []; sh_running := true; sh_next := 2000 |}.

Definition sample_operation : string := "op-00112233445566778899aabbccddeeff".
Definition sample_backup : string := "op-ffeeddccbbaa99887766554433221100".
Definition sample_installation : string := "inst-0123456789ab".
Definition sample_image : string :=
  "docker.io/pihole/pihole@sha256:bd3fc82ee1b1473a45fc074379dcd9fd7ce3e933809c44e10c0df9b22fd5de63".
Definition sample_directory : string := "/srv/kitpro/apps/pihole/inst-0123456789ab/config".

Definition sample_secret (digits : string) : string := digits +:+ digits +:+ digits +:+ digits.
Definition current_password : string := sample_secret "0123456789abcdef".
Definition archived_password : string := sample_secret "fedcba9876543210".

#[local] Instance set_sample_backup : Setter rq_BackupID := ltac:(mk_setter).
Definition sample_request : Request :=
  ProtocolProps.empty_request <| rq_Version := 2 |> <| rq_ID := "req-1" |> <| rq_OperationID := sample_operation |>
    <| rq_Operation := "RestoreApplicationBackup" |> <| rq_OperationRevision := 1 |>
    <| rq_InstanceID := sample_installation |> <| rq_BackupID := sample_backup |>.

Definition sample_op : opRow :=
  {| op_request_hash := "h"; op_request_json := "{}"; op_protocol_version := 2; op_operation_revision := 1;
     op_kind := "RestoreApplicationBackup"; op_installation := sample_installation; op_caller_uid := 990;
     op_state := StateExecuting; op_phase := "executing"; op_outcome := OutcomeUnknown; op_recovery := ReconcileFirst;
     op_expected_generation := None; op_token := Some 7; op_accepted_at := "t0"; op_started_at := Some "t0";
     op_updated_at := "t0"; op_completed_at := None; op_result_json := ""; op_error_code := ""; op_error_detail := "" |}.

Definition sample_lease (s : lease_state_t) : leaseRow :=
  {| ls_operation := sample_operation; ls_token := 7; ls_state := s; ls_acquired_at := "t0"; ls_updated_at := "t0";
     ls_recovery_required := false |}.

Definition owned_as (application release image : string) : ownRow :=
  {| ow_container_id := "c-1"; ow_container_name := "kitpro-pihole"; ow_network_name := "kitpro-net";
     ow_image := image; ow_data_path := sample_directory; ow_created_at := "t0"; ow_generation := 1;
     ow_application := application; ow_release := release; ow_exposure_mode := "loopback"; ow_service_id := "admin";
     ow_host_address := "127.0.0.1"; ow_host_port := 30001; ow_container_port := 80; ow_service_protocol := "http" |}.

Definition rdb_of (application release image : string) (secrets : secrets_t) : rdb :=
  {| rd_plan := {|
       pd_helper := {| db_ops := {[ sample_operation := sample_op ]};
                       db_leases := {[ sample_installation := sample_lease LeaseHeld ]}; db_events := []; db_gens := ∅;
                       db_comps := ∅; db_binds := ∅; db_steps := ∅;
                       db_ownership := {[ sample_installation := owned_as application release image ]}; db_recon := ∅ |};
       pd_storage := {| sd_roots := ∅; sd_bindings := ∅ |};
       pd_secrets := secrets;
       pd_owned := ∅;
       pd_backups := {[ sample_backup := {| bk_installation := sample_installation; bk_application := application;
                          bk_release := release; bk_generation := 1;
                          bk_archive_path := "/var/lib/kitpro-helper/application-backups/b.tar.gz";
                          bk_archive_sha256 := "hash" |} ]} |};
     rd_restores := ∅; rd_steps := ∅ |}.

Definition sample_rdb : rdb :=
  rdb_of "pihole" "2026.09.0" sample_image
    {[ (sample_installation, "", "FTLCONF_webserver_api_password") := {| sr_value := current_password; sr_created_at := "t0" |} ]}.

Definition sample_files : files := {[ sample_directory := whole {| pi_Device := 8; pi_Inode := 1000 |} ]}.

Definition sample_payload : secretValues :=
  {| svs_Version := 1; svs_Values := [{| sv_Component := "app"; sv_Name := "FTLCONF_webserver_api_password";
                                         sv_Value := archived_password |}] |}.

Definition sample_manifest : ArchiveManifest :=
  {| am_Format := "kitpro-application-backup"; am_FormatVersion := 1; am_KITProVersion := "0.1.0"; am_CreatedAt := "2026-07-01T00:00:00Z";
     am_ApplicationID := "pihole"; am_InstallationID := sample_installation; am_ReleaseID := "2026.09.0";
     am_RuntimeGeneration := 1; am_Strategy := "cold-filesystem";
     am_Components := [{| bc_ID := "app"; bc_ImageDigest := sample_image; bc_DependsOn := [] |}];
     am_Storage := [{| as_Component := "app"; as_ID := "config"; as_Disposition := "include";
                       as_ArchivePath := "application/app/config"; as_OwnerUID := 0; as_OwnerGID := 0 |}];
     am_ImportedStorage := []; am_Databases := []; am_Secrets := [];
     am_Checksum := {| cs_Algorithm := "sha256"; cs_IndexPath := "checksums/sha256.json" |} |}.

Definition sample_archive : archive :=
  {| ar_directory := "/var/lib/kitpro-helper/application-backups"; ar_sha256 := fun _ => Ok "hash"; ar_measure := Ok 4096;
     ar_space := fun _ => Ok tt; ar_workspace := Ok tt; ar_extract := Ok sample_manifest;
     ar_secrets := Some sample_payload; ar_databases := Ok [] |}.

Definition sample_catalog : res (gmap string Manifest) := Ok {[ "pihole" := pihole ]}.

Definition sample_run (h : sample_host) : rout sample_host (res bool) :=
  restoreApplicationBackupWithFence sample_catalog sample_archive sample_request 7 (RWorld sample_rdb sample_files [] h).

(** What happened, in short: the answer, the phase, the inode of the active
    directory and the password. *)
Definition outcome_of {A} (r : rout sample_host A) : option A * option restore_phase * option Z * option string :=
  let w := world_of r in
  (match r with Ended a _ => Some a | Killed _ => None end,
   ro_phase <$> rd_restores (rw_db w) !! sample_operation,
   (fun t => pi_Inode (tr_identity t)) <$> rw_fs w !! sample_directory,
   sr_value <$> pd_secrets (rd_plan (rw_db w)) !! (sample_installation, "", "FTLCONF_webserver_api_password")).

Example sample_restored : outcome_of (sample_run quiet) = (Some (Ok false), Some RCompleted, Some 2000, Some archived_password).
Proof. vm_compute. reflexivity. Qed.

(** The restart: the coordinator marks what was interrupted, then the restores
    are looked at. *)
Definition after_restart (d : rdb) : rdb :=
  d <| rd_plan := rd_plan d <| pd_helper := (RecoverInterrupted (fun _ => "t1") (pd_helper (rd_plan d))).2 |> |>.

Definition sample_restart (w : rworld sample_host) (h : sample_host) : rout sample_host unit :=
  startup_restores sample_catalog (fun _ => None) (RWorld (after_restart (rw_db w)) (rw_fs w) [] h).

Definition original_again : option unit * option restore_phase * option Z * option string :=
  (Some tt, Some RRolledBack, Some 1000, Some current_password).
Definition restored_after_all : option unit * option restore_phase * option Z * option string :=
  (Some tt, Some RCompleted, Some 2000, Some archived_password).

(** A process that dies at any of its calls once the journal is written leaves
    what one undisturbed restart brings to one of the two ends. *)
Example sample_every_death : forallb (fun n =>
    let found := outcome_of (sample_restart (world_of (sample_run (quiet <| sh_left := Some n |>))) quiet) in
    bool_decide (found = original_again \/ found = restored_after_all)) (seq 11 30) = true.
Proof. vm_compute. reflexivity. Qed.

Lemma singleton_names request s settled d : rd_steps d = ∅ -> NoDup (name_paths request s) -> names_apart request [s] settled d.
Proof.
  intros Hd Hnd. split.
  - apply NoDup_singleton.
  - intros s' ->%list_elem_of_singleton. done.
  - intros s1 s2 p ->%list_elem_of_singleton ->%list_elem_of_singleton. done.
  - intros o key row s' _. by rewrite Hd.
  - intros o key row s' p _ _. by rewrite Hd.
Qed.

Lemma sample_restorable : restorable sample_catalog sample_request ∅ sample_rdb sample_files.
Proof.
  split.
  - done.
  - done.
  - set_solver.
  - set_solver.
  - intros p t. unfold sample_files. rewrite lookup_singleton_Some. by intros [_ <-].
  - intros row plan Hrow. vm_compute in Hrow. injection Hrow as <-. intros Hplan.
    assert (exists s, included_storage plan = [s] /\ mg_HostPath s = sample_directory) as (s & -> & Hp).
    { vm_compute in Hplan. injection Hplan as <-. eexists. split; vm_compute; reflexivity. }
    apply singleton_names; [done|]. unfold name_paths, staged_name, rollback_name, failed_path. rewrite Hp.
    apply (bool_decide_unpack _). vm_compute. exact I.
Qed.

Module RestoreClaims.

(** Every directory of the journal held a whole tree when the restore began;
    all of these trees are still there, each at its path or its rollback path,
    or every directory is the whole restored one. *)
Definition data_kept (operation : string) (before : files) (d : rdb) (fs : files) : Prop :=
  (forall key row, rd_steps d !! (operation, key) = Some row ->
     before !! sw_original_path row = Some (whole (sw_original row))) /\
  ((forall key row, rd_steps d !! (operation, key) = Some row ->
      fs !! sw_original_path row = Some (whole (sw_original row)) \/
      fs !! sw_rollback_path row = Some (whole (sw_original row))) \/
   (forall key row, rd_steps d !! (operation, key) = Some row ->
      fs !! sw_original_path row = Some (whole (sw_staged row)))).

Lemma begun_or_untouched {E} `{RestoreHost E} catalog ar request token settled d fs l e :
  restorable catalog request settled d fs -> 0 < token ->
  let w := world_of (restoreApplicationBackupWithFence catalog ar request token (RWorld (E:=E) d fs l e)) in
  (rw_db w = d /\ fs ⊆ rw_fs w) \/
  exists table, separated (rq_OperationID request) table settled /\
    (forall key s, mine (rq_OperationID request) table key s -> fs !! sl_O s = Some (whole (sl_original s))) /\
    preserved (rq_OperationID request) table settled (rw_db w) (rw_fs w).
Proof.
  intros Hre Htok. pose proof (whole_spec catalog ar request token settled d fs l Hre Htok e) as Hw.
  destruct (restoreApplicationBackupWithFence _ _ _ _ _) as [r w|w]; cbn.
  - destruct Hw as [[[? ?] _]|(table & Hs & Ho & [Hsafe _])]; [by left|right]. by exists table.
  - destruct Hw as [[? ?]|(table & Hs & Ho & Hsafe)]; [by left|right]. by exists table.
Qed.

(** C5. A restore never loses the data of an application.  Whatever fails while
    it runs and wherever the process dies, and whatever fails or dies in the
    startups that follow: either the restore never wrote its journal, and then
    the database is as it was and every directory is still there, or every
    original directory is still whole at its path or its rollback path, or all
    of them have been replaced by whole restored ones. *)
Theorem original_data_survives {E} `{RestoreHost E} catalog ar unmarshal request token settled d fs l e d' fs' :
  restorable catalog request settled d fs -> 0 < token ->
  let w := world_of (restoreApplicationBackupWithFence catalog ar request token (RWorld (E:=E) d fs l e)) in
  later (E:=E) catalog unmarshal (rq_OperationID request) (rw_db w) (rw_fs w) d' fs' ->
  (rw_db w = d /\ fs ⊆ rw_fs w) \/ data_kept (rq_OperationID request) fs d' fs'.
Proof.
  intros Hre Htok w HL. destruct (begun_or_untouched catalog ar request token settled d fs l e Hre Htok)
    as [?|(table & Hsep & Horig & HP)]; [by left|right]. fold w in HP.
  eapply later_preserved in HP as [[Ht _] HP]; [|done|apply Hre|done].
  assert (forall key row, rd_steps d' !! (rq_OperationID request, key) = Some row ->
            mine (rq_OperationID request) table key (slot_of row)) as Hm.
  { intros key row Hrow. unfold mine. by rewrite <- Ht, lookup_fmap, Hrow. }
  split; [intros key row Hrow; by apply (Horig key (slot_of row)), Hm|].
  destruct HP as [[_ HA]|[_ HA]]; [left|right]; intros key row Hrow%Hm; destruct (HA _ _ Hrow); auto.
Qed.

(** C7. Recovery is all or nothing.  At any later startup it starts containers
    only when all the directories are the original ones and the secrets the
    original ones, or all are the restored ones and so are the secrets.  When it
    reports the restore resolved, it left all the original directories and the
    original secrets and recorded a rollback, or it left all the restored
    directories, recorded the restore as completed, and left the restored
    secrets: it has set them, or, where the journal was committed before, after
    they had been set, left the secrets as they were. *)
Theorem recovery_all_or_nothing {E} `{RestoreHost E} catalog ar unmarshal request token settled d fs l e d' fs' j token' e' :
  restorable catalog request settled d fs -> 0 < token ->
  let w := world_of (restoreApplicationBackupWithFence catalog ar request token (RWorld (E:=E) d fs l e)) in
  rw_db w <> d ->
  later (E:=E) catalog unmarshal (rq_OperationID request) (rw_db w) (rw_fs w) d' fs' ->
  loadRestoreJournal (rq_OperationID request) d' = Ok j ->
  let out := resolve_journal catalog unmarshal j token' (RWorld (E:=E) d' fs' [] e') in
  let table := slot_of <$> rd_steps d' in
  Forall (consistent (rq_OperationID request) table j) (rw_log (world_of out)) /\
  (forall w', out = Ended (Ok true) w' ->
     rolled_back (rq_OperationID request) table j (rw_db w') (rw_fs w') \/
     restored (rq_OperationID request) table j (pd_secrets (rd_plan d')) (rw_db w') (rw_fs w')).
Proof.
  intros Hre Htok w Hnew HL Hj out table'. destruct (begun_or_untouched catalog ar request token settled d fs l e Hre Htok)
    as [[? _]|(table & Hsep & Horig & HP)]; [done|]. fold w in HP.
  eapply later_preserved in HP; [|done|apply Hre|done]. pose proof HP as [Hrec _].
  destruct (loaded_journal table settled _ _ _ Hrec Hj) as (Hjo & r & Hr & Hph).
  assert (table' = table) as -> by apply Hrec.
  assert (rwp (E:=E) (resolve_journal catalog unmarshal j token')
    (resolved (rq_OperationID request) table settled j [] (pd_secrets (rd_plan d'))) (keeps_data (rq_OperationID request) table settled j [])
    d' fs' []) as Hw.
  { apply resolve_journal_spec; [done|apply Hre|done| |by exists r]. split; [done|]. exists []. split; [done|constructor]. }
  specialize (Hw e'). fold out in Hw. destruct out as [b w'|w']; cbn.
  - destruct Hw as [[_ (new & -> & Hc)] Hb]. split; [done|]. intros w0 [= -> ->]. auto.
  - destruct Hw as [_ (new & -> & Hc)]. split; [done|]. done.
Qed.

(** What a run answered, without looking at what it left. *)
Lemma ended_with {E} (r : rout E (res bool)) (b : bool) :
  match r with Ended (Ok b') _ => Bool.eqb b b' | _ => false end = true -> r = Ended (Ok b) (world_of r).
Proof. destruct r as [[b'|]|]; [|done..]. by intros ->%Bool.eqb_prop. Qed.

(** A run that dies between the two renames of the directory. *)
Definition cut_short : rworld sample_host := world_of (sample_run (quiet <| sh_left := Some 22%nat |>)).

Lemma restart_later catalog unmarshal operation d fs : later (E:=sample_host) catalog unmarshal operation d fs (after_restart d) fs.
Proof. eapply later_elsewhere; [apply later_now|done|done|done]. Qed.

Theorem original_data_survives_witness :
  let w := world_of (sample_restart cut_short quiet) in
  data_kept sample_operation sample_files (rw_db w) (rw_fs w) /\ rw_fs w !! sample_directory = sample_files !! sample_directory.
Proof.
  split; [|vm_compute; reflexivity].
  destruct (original_data_survives sample_catalog sample_archive (fun _ => None) sample_request 7 ∅ sample_rdb sample_files []
    (quiet <| sh_left := Some 22%nat |>) (rw_db (world_of (sample_restart cut_short quiet)))
    (rw_fs (world_of (sample_restart cut_short quiet))) sample_restorable ltac:(lia)) as [[H _]|H].
  - apply (later_startup sample_catalog (fun _ => None) sample_operation _ _ _ _ [] quiet
      (restart_later _ _ _ (rw_db cut_short) (rw_fs cut_short))).
  - apply (f_equal (fun d => rd_restores d !! sample_operation)) in H. vm_compute in H. discriminate H.
  - exact H.
Defined.

(** The journal of the run that was cut short. *)
Definition no_journal : restoreJournal :=
  {| jo_OperationID := ""; jo_InstallationID := ""; jo_BackupID := ""; jo_Phase := RCompleted; jo_FencingToken := 0;
     jo_Running := ∅; jo_OriginalSecrets := sample_payload; jo_RestoredSecrets := sample_payload; jo_Storage := [] |}.
Definition value_or {A} (default : A) (r : res A) : A := match r with Ok a => a | Err _ => default end.
Definition cut_journal : restoreJournal :=
  value_or no_journal (loadRestoreJournal sample_operation (after_restart (rw_db cut_short))).

Lemma value_or_Ok {A} (default : A) r : is_ok r = true -> r = Ok (value_or default r).
Proof. by destruct r. Qed.

Theorem recovery_all_or_nothing_witness :
  let out := resolve_journal sample_catalog (fun _ => None) cut_journal 8
               (RWorld (after_restart (rw_db cut_short)) (rw_fs cut_short) [] (quiet <| sh_running := false |>)) in
  let table := slot_of <$> rd_steps (after_restart (rw_db cut_short)) in
  length (rw_log (world_of out)) = 1%nat /\
  Forall (consistent sample_operation table cut_journal) (rw_log (world_of out)) /\
  (rolled_back sample_operation table cut_journal (rw_db (world_of out)) (rw_fs (world_of out)) \/
   restored sample_operation table cut_journal (pd_secrets (rd_plan (after_restart (rw_db cut_short))))
     (rw_db (world_of out)) (rw_fs (world_of out))).
Proof.
  intros out table. split; [vm_compute; reflexivity|].
  destruct (recovery_all_or_nothing sample_catalog sample_archive (fun _ => None) sample_request 7 ∅ sample_rdb sample_files []
    (quiet <| sh_left := Some 22%nat |>) (after_restart (rw_db cut_short)) (rw_fs cut_short) cut_journal 8
    (quiet <| sh_running := false |>) sample_restorable ltac:(lia)) as [H1 H2].
  - intros H. apply (f_equal (fun d => rd_restores d !! sample_operation)) in H. vm_compute in H. discriminate H.
  - exact (restart_later _ _ _ (rw_db cut_short) (rw_fs cut_short)).
  - apply value_or_Ok. vm_compute. reflexivity.
  - split; [exact H1|]. apply (H2 (world_of out)), ended_with. vm_compute. reflexivity.
Defined.

(** C24. A restore that reports success has replaced every directory of its
    journal by the whole restored one, and the journal says committed. *)
Theorem reported_restore_complete {E} `{RestoreHost E} catalog ar request token settled d fs l e deferred w :
  restorable catalog request settled d fs -> 0 < token ->
  restoreApplicationBackupWithFence catalog ar request token (RWorld (E:=E) d fs l e) = Ended (Ok deferred) w ->
  (exists row, rd_restores (rw_db w) !! rq_OperationID request = Some row /\
     (ro_phase row = RCommitted \/ ro_phase row = RCleanupPending \/ ro_phase row = RCompleted)) /\
  forall key row, rd_steps (rw_db w) !! (rq_OperationID request, key) = Some row ->
    fs !! sw_original_path row = Some (whole (sw_original row)) /\
    rw_fs w !! sw_original_path row = Some (whole (sw_staged row)) /\ rw_fs w !! sw_staged_path row = None.
Proof.
  intros Hre Htok Hrun. pose proof (whole_spec catalog ar request token settled d fs l Hre Htok e) as Hw.
  rewrite Hrun in Hw. destruct Hw as [[_ ?]|(table & _ & Ho & [[Ht _] _] & Hok)]; [done|].
  destruct (Hok deferred eq_refl) as [HC Hph]. split; [exact Hph|]. intros key row Hrow.
  assert (mine (rq_OperationID request) table key (slot_of row)) as Hm by (unfold mine; by rewrite <- Ht, lookup_fmap, Hrow).
  destruct (HC _ _ Hm). split; [by apply (Ho key (slot_of row))|done].
Qed.

Theorem reported_restore_complete_witness :
  let w := world_of (sample_run quiet) in
  size (rd_steps (rw_db w)) = 1%nat /\
  forall key row, rd_steps (rw_db w) !! (sample_operation, key) = Some row ->
    rw_fs w !! sw_original_path row = Some (whole (sw_staged row)).
Proof.
  intros w. split; [vm_compute; reflexivity|]. intros key row Hrow.
  refine (proj1 (proj2 (proj2 (reported_restore_complete sample_catalog sample_archive sample_request 7 ∅ sample_rdb sample_files []
    quiet false w sample_restorable ltac:(lia) _) key row Hrow))).
  assert (sample_run quiet = Ended (Ok false) (world_of (sample_run quiet))) as Hrun by (apply ended_with; vm_compute; reflexivity).
  exact Hrun.
Defined.

(** ** Runs that end badly *)

(** The application does not start on the restored data and the restored
    directory cannot be moved away.  The errors of the rollback's renames are
    dropped: the restore is recorded as rolled back and the application started
    with the original secrets on the restored data, and no startup looks at it
    again. *)
Definition stuck : sample_host :=
  {| sh_left := None; sh_renames := 0; sh_bad_renames := [2%nat]; sh_starts := [false]; sh_running := true; sh_next := 2000 |}.

Example rollback_errors_dropped :
  outcome_of (sample_run stuck) =
    (Some (Err (ErrWrap "start restored application" (ErrMsg "start failed"))), Some RRolledBack, Some 2000, Some current_password) /\
  (fun x => x.1.1) <$> last (rw_log (world_of (sample_run stuck))) = Some (EStart "c-1") /\
  outcome_of (sample_restart (world_of (sample_run stuck)) quiet) = (Some tt, Some RRolledBack, Some 2000, Some current_password).
Proof. vm_compute. split_and!; reflexivity. Qed.

(** An application without managed directories, as [catalog/manifests/it-tools.json]. *)
Definition it_tools_image : string :=
  "docker.io/corentinth/it-tools@sha256:6f177c156b9466610e0f2093e24668b78da501c66f0054f98bccb582b74ab26b".

Definition it_tools : Manifest :=
  {| ma_SchemaVersion := 7; ma_ID := "it-tools"; ma_Name := "IT-Tools";
     ma_Description := "Stateless browser-based utilities for networking, encoding, hashing, and development.";
     ma_Releases := [{| mrl_Version := "2024.10.22-7ca5933"; mrl_Registry := "docker.io";
        mrl_Repository := "corentinth/it-tools";
        mrl_Digest := "sha256:6f177c156b9466610e0f2093e24668b78da501c66f0054f98bccb582b74ab26b";
        mrl_Platform := "linux/amd64" |}];
     ma_Storage := []; ma_Environment := []; ma_Command := []; ma_Restart := "unless-stopped";
     ma_Services := [{| ms_ID := "web"; ms_Name := "Web Interface"; ms_Protocol := "http"; ms_ContainerPort := 80;
        ms_DefaultExposure := ""; ms_FixedHostPort := 0; ms_Ingress := None; ms_Readiness := None |}];
     ma_Components := []; ma_Hardware := []; ma_ExternalStorage := []; ma_RunAs := None;
     ma_Backup := Some {| mbp_Strategy := "metadata-only"; mbp_Storage := [] |};
     ma_Category := "Developer Tools"; ma_Kind := "application"; ma_CatalogStatus := "standard";
     ma_WebsiteURL := "https://it-tools.tech/"; ma_SourceURL := "https://github.com/CorentinTh/it-tools";
     ma_DocumentationURL := ""; ma_Logo := ""; ma_Limitations := []; ma_LifecycleNotice := None;
     ma_Configuration := None |}.

Definition it_tools_archive : archive :=
  {| ar_directory := "/var/lib/kitpro-helper/application-backups"; ar_sha256 := fun _ => Ok "hash"; ar_measure := Ok 4096;
     ar_space := fun _ => Ok tt; ar_workspace := Ok tt;
     ar_extract := Ok {| am_Format := "kitpro-application-backup"; am_FormatVersion := 1; am_KITProVersion := "0.1.0"; am_CreatedAt := "2026-07-01T00:00:00Z";
     am_ApplicationID := "it-tools"; am_InstallationID := sample_installation;
        am_ReleaseID := "2024.10.22-7ca5933"; am_RuntimeGeneration := 1; am_Strategy := "metadata-only";
        am_Components := [{| bc_ID := "app"; bc_ImageDigest := it_tools_image; bc_DependsOn := [] |}];
        am_Storage := []; am_ImportedStorage := []; am_Databases := []; am_Secrets := [];
     am_Checksum := {| cs_Algorithm := "sha256"; cs_IndexPath := "checksums/sha256.json" |} |};
     ar_secrets := Some {| svs_Version := 1; svs_Values := [] |}; ar_databases := Ok [] |}.

Definition it_tools_run (h : sample_host) : rout sample_host (res bool) :=
  restoreApplicationBackupWithFence (Ok {[ "it-tools" := it_tools ]}) it_tools_archive sample_request 7
    (RWorld (rdb_of "it-tools" "2024.10.22-7ca5933" it_tools_image ∅) ∅ [] h).

Definition it_tools_restart (w : rworld sample_host) : rout sample_host unit :=
  startup_restores (Ok {[ "it-tools" := it_tools ]}) (fun _ => None) (RWorld (after_restart (rw_db w)) (rw_fs w) [] quiet).

Definition committed_run : rworld sample_host := world_of (it_tools_run (quiet <| sh_left := Some 18%nat |>)).

(** Recovery takes a journal without directories for one that must be undone:
    a restore that was committed is recorded as rolled back, and its operation
    as failed. *)
Example empty_commit_rolled_back :
  outcome_of (it_tools_run quiet) = (Some (Ok false), Some RCompleted, None, None) /\
  ro_phase <$> rd_restores (rw_db committed_run) !! sample_operation = Some RCommitted /\
  let w := world_of (it_tools_restart committed_run) in
  ro_phase <$> rd_restores (rw_db w) !! sample_operation = Some RRolledBack /\
  (fun o => (op_state o, op_error_code o)) <$> db_ops (pd_helper (rd_plan (rw_db w))) !! sample_operation =
    Some (StateFailed, "RestoreInterrupted").
Proof. vm_compute. split_and!; reflexivity. Qed.

(** The process dies after the restore is completed and before the coordinator
    records the answer: no startup looks at the restore again, and its operation
    waits for the administrator with the installation's lease. *)
Example completed_restore_stays_locked :
  let w := world_of (sample_restart (world_of (sample_run quiet)) quiet) in
  ro_phase <$> rd_restores (rw_db w) !! sample_operation = Some RCompleted /\
  op_state <$> db_ops (pd_helper (rd_plan (rw_db w))) !! sample_operation = Some StateActionRequired /\
  ls_state <$> db_leases (pd_helper (rd_plan (rw_db w))) !! sample_installation = Some LeaseRecoveryRequired.
Proof. vm_compute. split_and!; reflexivity. Qed.

End RestoreClaims.
