(* ===== verification/Archive.v ===== *)
(** * Backup archives ([internal/appbackup/archive.go])

    An archive is a compressed tar stream: a manifest, a checksum index, inline
    files and the trees of the managed directories below one root name.  The
    stream is the list of its entries; compression and the tar encoding are not
    looked into.  SHA-256 and the JSON encoder and decoder are arguments.

    Directories are written through a disk: a finite map from paths, as lists
    of elements, to files and directories.  Any of its calls may fail. *)

From S2P Require Import Prelude Protocol Exposure NetIP ExposurePolicy Ingress IngressRuntime Containers Manifest ExternalStorage Secrets BackupPlan.
From stdpp Require Import base strings list gmap sorting.
From Stdlib Require Import ZArith Lia Ascii.

Open Scope Z_scope.

Definition FormatName : string := "kitpro-application-backup".
Definition FormatVersion : Z := 1.
Definition archiveRoot : string := "kitpro-backup".
Definition manifest_name : string := "manifest.json".
Definition index_name : string := "checksums/sha256.json".

#[export] Instance ArchiveManifest_eta : Eta ArchiveManifest := fun m =>
  Build_ArchiveManifest (am_Format m) (am_FormatVersion m) (am_KITProVersion m) (am_CreatedAt m) (am_ApplicationID m)
    (am_InstallationID m) (am_ReleaseID m) (am_RuntimeGeneration m) (am_Strategy m) (am_Components m) (am_Storage m)
    (am_ImportedStorage m) (am_Databases m) (am_Secrets m) (am_Checksum m).
#[export] Instance set_am_Checksum : Setter am_Checksum := ltac:(mk_setter).

(** [time.Time.IsZero] *)
Definition zero_time : string := "0001-01-01T00:00:00Z".

(** A value of Go's [int64] *)
Definition int64 (z : Z) : Z := (z + 2 ^ 63) mod 2 ^ 64 - 2 ^ 63.

(** ** Data *)
Inductive typeflag : Type := TypeReg | TypeRegA | TypeDir | TypeOther.
#[export] Instance typeflag_eq_dec : EqDecision typeflag.
Proof. solve_decision. Defined.

Record tarHeader : Type := {
  th_Name : string;
  th_Typeflag : typeflag;
  th_Size : Z;
  th_Mode : Z;
  th_Uid : Z;
  th_Gid : Z;
  th_ModTime : string
}.

Record tarEntry : Type := { te_header : tarHeader; te_contents : string }.

(** What the reader yields: entries, then the end or an error. *)
Record tarStream : Type := { ts_entries : list tarEntry; ts_end : option error }.

Record ChecksumEntry : Type := {
  ce_Path : string;
  ce_SHA256 : string;
  ce_Size : Z;
  ce_Mode : Z;
  ce_UID : Z;
  ce_GID : Z
}.
#[export] Instance ChecksumEntry_eq_dec : EqDecision ChecksumEntry.
Proof. solve_decision. Defined.

Record ChecksumIndex : Type := { ci_Algorithm : string; ci_Files : list ChecksumEntry }.

Record ArchiveLimits : Type := { lm_MaxEntries : Z; lm_MaxFileBytes : Z; lm_MaxTotalBytes : Z }.

Definition DefaultLimits : ArchiveLimits :=
  {| lm_MaxEntries := 1000000; lm_MaxFileBytes := Z.shiftl 1 40; lm_MaxTotalBytes := Z.shiftl 4 40 |}.

Definition effective (limits : ArchiveLimits) : ArchiveLimits :=
  if decide (lm_MaxEntries limits <= 0 \/ lm_MaxFileBytes limits <= 0 \/ lm_MaxTotalBytes limits <= 0)
  then DefaultLimits else limits.

Record ExtractOptions : Type := { eo_Limits : ArchiveLimits; eo_PreserveOwnership : bool }.
Record ExtractResult : Type := { er_Manifest : ArchiveManifest; er_Checksums : ChecksumIndex }.

(** ** Names in an archive *)
Definition canonicalPayloadPath (name : string) : res string :=
  refuse (name = "" \/ HasPrefix name "/" = true \/ ContainsAny name [92; 0]%N = true \/ Clean name <> name
          \/ name = "." \/ HasPrefix name "../" = true)
  with "unsafe archive path" in Ok name.

Definition validateArchiveName (name : string) : res string :=
  let name := TrimSlash name in
  refuse (HasPrefix name (archiveRoot +:+ "/") = false) with "entry outside archive root" in
  canonicalPayloadPath (trim_prefix (archiveRoot +:+ "/") name).

Definition archiveName (name : string) : string := archiveRoot +:+ "/" +:+ name.

(** The elements of a clean path. *)
Definition path_elements (path : string) : list string :=
  filter (fun e => e <> "") (map untext (split_at 47 (text path) [])).

Fixpoint strip_common (base target : list string) : list string * list string :=
  match base, target with
  | b :: base', t :: target' => if decide (b = t) then strip_common base' target' else (base, target)
  | _, _ => (base, target)
  end.

(** [filepath.Rel] of two absolute paths *)
Definition Rel (base target : string) : string :=
  let (up, down) := strip_common (path_elements (Clean base)) (path_elements (Clean target)) in
  match (map (fun _ => "..") up ++ down)%list with
  | [] => "."
  | relative => Protocol.join "/" relative
  end.

Definition within (root candidate : string) : bool :=
  let rel := Rel root candidate in
  bool_decide (rel <> "..") && negb (HasPrefix rel "../").

(** ** The size of an archive *)
Definition over_limit (limits : ArchiveLimits) (total size : Z) : bool :=
  bool_decide (size < 0 \/ lm_MaxFileBytes limits < size \/ int64 (lm_MaxTotalBytes limits - size) < total).

Definition read_error (e : error) : error := ErrWrap "read archive" e.

Fixpoint measure_loop (limits : ArchiveLimits) (last : option error) (es : list tarEntry) (seen : gset string)
    (total entries : Z) : res (Z * Z) :=
  match es with
  | [] => match last with None => Ok (total, entries) | Some e => Err (read_error e) end
  | e :: es =>
      let header := te_header e in
      let entries := entries + 1 in
      refuse (lm_MaxEntries limits < entries) with "archive entry limit exceeded" in
      match validateArchiveName (th_Name header) with
      | Err _ => Err (ErrMsg "unsafe or duplicate archive entry")
      | Ok name =>
          refuse (name ∈ seen) with "unsafe or duplicate archive entry" in
          refuse (th_Typeflag header = TypeOther) with "archive links and special files are not supported" in
          refuse (over_limit limits total (th_Size header) = true) with "archive size limit exceeded" in
          measure_loop limits last es ({[name]} ∪ seen) (int64 (total + th_Size header)) entries
      end
  end.

(** [stream]: what opening the file and the decompressor gives. *)
Definition Measure (archivePath : string) (stream : res tarStream) (limits : ArchiveLimits) : res (Z * Z) :=
  refuse (IsAbs archivePath = false) with "archive path must be absolute" in
  rbind stream (fun s => measure_loop (effective limits) (ts_end s) (ts_entries s) ∅ 0 0).

(** ** The manifest *)
Definition archive_component_step (seen : gset string) (c : BackupComponent) : res (gset string) :=
  refuse (bc_ID c = "" \/ bc_ImageDigest c = "" \/ bc_ID c ∈ seen) with "invalid backup component" in
  Ok ({[bc_ID c]} ∪ seen).

Definition archive_path_ok (path : string) : bool :=
  is_ok (canonicalPayloadPath path) && HasPrefix path "application/".

Definition archive_storage_step (components : gset string) (seen : gset string) (item : ArchivedStorage)
    : res (gset string) :=
  refuse (as_Component item ∉ components \/ as_ID item = "" \/
          (as_Disposition item <> "include" /\ as_Disposition item <> "exclude-ephemeral"))
  with "invalid backup storage" in
  let key := as_Component item +:+ "/" +:+ as_ID item in
  refuse (key ∈ seen) with "duplicate backup storage" in
  ensure (if decide (as_Disposition item = "include")
          then refuse (archive_path_ok (as_ArchivePath item) = false) with "invalid storage archive path" in Ok tt
          else refuse (as_ArchivePath item <> "") with "excluded storage cannot have archive content" in Ok tt) in
  Ok ({[key]} ∪ seen).

Definition ValidateArchiveManifest (m : ArchiveManifest) : res unit :=
  refuse (am_Format m <> FormatName \/ am_FormatVersion m <> FormatVersion) with "unsupported backup format" in
  refuse (am_KITProVersion m = "" \/ am_CreatedAt m = zero_time \/ am_ApplicationID m = "" \/ am_InstallationID m = ""
          \/ am_ReleaseID m = "" \/ am_RuntimeGeneration m < 1)
  with "backup manifest identity is incomplete" in
  refuse (am_Strategy m <> "metadata-only" /\ am_Strategy m <> "cold-filesystem"
          /\ am_Strategy m <> "cold-sqlite-filesystem")
  with "unsupported backup strategy" in
  refuse (am_Components m = []) with "backup manifest has no components" in
  rbind (range archive_component_step ∅ (am_Components m)) (fun components =>
  rbind (range (archive_storage_step components) ∅ (am_Storage m)) (fun _ =>
  refuse (cs_Algorithm (am_Checksum m) <> "" /\
          (cs_Algorithm (am_Checksum m) <> "sha256" \/ cs_IndexPath (am_Checksum m) <> index_name))
  with "unsupported checksum metadata" in Ok tt)).

(** ** The checksum index *)
Definition checksum_step (observed : gmap string ChecksumEntry) (seen : gset string) (item : ChecksumEntry)
    : res (gset string) :=
  refuse (is_ok (canonicalPayloadPath (ce_Path item)) = false \/ ce_Path item ∈ seen
          \/ String.length (ce_SHA256 item) <> 64%nat)
  with "invalid checksum entry" in
  match observed !! ce_Path item with
  | None => Err (ErrMsg ("checksum mismatch for " +:+ ce_Path item))
  | Some got =>
      if decide (decodes_hex (ce_SHA256 item) = false \/ ce_SHA256 got <> ce_SHA256 item \/ ce_Size got <> ce_Size item
                 \/ ce_Mode got <> ce_Mode item \/ ce_UID got <> ce_UID item \/ ce_GID got <> ce_GID item)
      then Err (ErrMsg ("checksum mismatch for " +:+ ce_Path item))
      else Ok ({[ce_Path item]} ∪ seen)
  end.

Definition verifyChecksums (index : ChecksumIndex) (observed : gmap string ChecksumEntry) : res unit :=
  refuse (ci_Algorithm index <> "sha256" \/ length (ci_Files index) <> size observed)
  with "checksum index does not match archive payload" in
  rbind (range (checksum_step observed) ∅ (ci_Files index)) (fun _ => Ok tt).

(** ** Strict JSON *)
Section walk.
Context (final : stream_end).

Fixpoint walkArchiveJSON (fuel : nat) (ts : list token) : res (list token) :=
  match fuel with
  | O => Err (end_error final)
  | S fuel =>
      match ts with
      | [] => Err (end_error final)
      | TDelim LBrace :: ts => walk_fields fuel ∅ ts
      | TDelim LBrack :: ts => walk_items fuel ts
      | _ :: ts => Ok ts
      end
  end
with walk_fields (fuel : nat) (seen : gset string) (ts : list token) : res (list token) :=
  match fuel with
  | O => Err (end_error final)
  | S fuel =>
      if stream_more final ts then
        match ts with
        | [] => Err (end_error final)
        | TString key :: ts =>
            if decide (key ∈ seen) then Err (ErrMsg "duplicate or invalid JSON field")
            else rbind (walkArchiveJSON fuel ts) (walk_fields fuel ({[key]} ∪ seen))
        | _ :: _ => Err (ErrMsg "duplicate or invalid JSON field")
        end
      else closing_token final ts
  end
with walk_items (fuel : nat) (ts : list token) : res (list token) :=
  match fuel with
  | O => Err (end_error final)
  | S fuel =>
      if stream_more final ts then rbind (walkArchiveJSON fuel ts) (walk_items fuel) else closing_token final ts
  end.
End walk.

(** Nothing but the end of the input follows. *)
Definition at_end (final : stream_end) (rest : list token) : bool :=
  match rest, final with [], AtEOF => true | _, _ => false end.

Definition rejectDuplicateJSONFields (data : json_stream) : res unit :=
  rbind (walkArchiveJSON (js_end data) (S (length (js_tokens data))) (js_tokens data)) (fun rest =>
  refuse (at_end (js_end data) rest = false) with "trailing JSON" in Ok tt).

(** The encoder and the decoder of [encoding/json]: [jc_stream] the tokens of a
    text, [jc_decode_*] the strict decoding of one value followed by nothing. *)
Class ArchiveCodec : Type := {
  jc_stream : string -> json_stream;
  jc_encode_manifest : ArchiveManifest -> res string;
  jc_decode_manifest : string -> res ArchiveManifest;
  jc_encode_index : ChecksumIndex -> res string;
  jc_decode_index : string -> res ChecksumIndex
}.

Definition strictJSON `{ArchiveCodec} {A} (decode : string -> res A) (data : string) : res A :=
  ensure rejectDuplicateJSONFields (jc_stream data) in decode data.

(** [canonicalJSON]: the encoding and a newline. *)
Definition canonicalJSON (encoded : res string) : res string := rbind encoded (fun b => Ok (b +:+ nl)).

(** ** Writing an archive *)
Record fileInfo : Type := {
  fi_Mode : Z;
  fi_Size : Z;
  fi_Uid : Z;
  fi_Gid : Z;
  fi_ModTime : string;
  fi_ID : Z * Z;
  fi_Regular : bool
}.

(** [fs.FileMode.Perm] *)
Definition Perm (mode : Z) : Z := Z.land mode 511.

(** What reading a file gives: whether it opens, its information then, its
    contents and its information afterwards. *)
Record reading : Type := {
  rg_open : option error;
  rg_opened : res fileInfo;
  rg_contents : res string;
  rg_after : res fileInfo
}.

(** A directory of the host with its entries in lexical order.  [HBroken]: the
    entry, or the listing that would have given it, cannot be read. *)
Inductive hostNode : Type :=
| HDirectory (info : fileInfo) (children : list (string * hostNode))
| HRegular (info : fileInfo) (read : reading)
| HLink
| HSpecial
| HBroken (e : error).

(** What [filepath.WalkDir] hands to its function. *)
Inductive visit : Type :=
| VDirectory (info : fileInfo)
| VRegular (info : fileInfo) (read : reading)
| VLink
| VSpecial
| VBroken (e : error).

Fixpoint walk (rel : list string) (n : hostNode) : list (list string * visit) :=
  match n with
  | HDirectory info children =>
      (rel, VDirectory info) :: flat_map (fun nc : string * hostNode => walk (rel ++ [nc.1])%list nc.2) children
  | HRegular info read => [(rel, VRegular info read)]
  | HLink => [(rel, VLink)]
  | HSpecial => [(rel, VSpecial)]
  | HBroken e => [(rel, VBroken e)]
  end.

Record Source : Type := { src_ArchivePath : string; src_Node : res hostNode }.
Record InlineFile : Type := { in_ArchivePath : string; in_Contents : string; in_Mode : Z }.

Definition size_of (contents : string) : Z := Z.of_nat (String.length contents).

(** The writer refuses more than the announced size at once, and less when the
    next entry begins or the archive is closed. *)
Definition tar_write (size : Z) (contents : string) : res unit :=
  refuse (size < size_of contents) with "archive/tar: write too long" in Ok tt.
Definition tar_flush (size : Z) (contents : string) : res unit :=
  refuse (size_of contents < size) with "archive/tar: missed writing bytes" in Ok tt.

Section create.
Context `{Codec : ArchiveCodec} (digest : string -> string).

Definition writeBytes (name contents : string) (mode : Z) : tarEntry :=
  {| te_header := {| th_Name := archiveName name; th_Typeflag := TypeReg; th_Size := size_of contents;
                     th_Mode := Perm mode; th_Uid := 0; th_Gid := 0; th_ModTime := zero_time |};
     te_contents := contents |}.

Definition checksumBytes (name contents : string) (mode : Z) : ChecksumEntry :=
  {| ce_Path := name; ce_SHA256 := digest contents; ce_Size := size_of contents; ce_Mode := Perm mode;
     ce_UID := 0; ce_GID := 0 |}.

Definition file_header (name : string) (flag : typeflag) (size : Z) (info : fileInfo) : tarHeader :=
  {| th_Name := name; th_Typeflag := flag; th_Size := size; th_Mode := Perm (fi_Mode info); th_Uid := fi_Uid info;
     th_Gid := fi_Gid info; th_ModTime := fi_ModTime info |}.

Definition unchanged_before (info : fileInfo) (opened : res fileInfo) : bool :=
  match opened with
  | Ok o => bool_decide (fi_ID o = fi_ID info /\ fi_Regular o = true /\ fi_Size o = fi_Size info)
  | Err _ => false
  end.

Definition unchanged_after (info : fileInfo) (after : res fileInfo) : bool :=
  match after with
  | Ok a => bool_decide (fi_Size a = fi_Size info /\ fi_ModTime a = fi_ModTime info)
  | Err _ => false
  end.

Definition writeHostEntry (archivePath : string) (v : visit) : res (tarEntry * option ChecksumEntry) :=
  match v with
  | VBroken e => Err e
  | VLink => Err (ErrMsg ("symbolic links are not supported: " +:+ archivePath))
  | VSpecial => Err (ErrMsg ("special files are not supported: " +:+ archivePath))
  | VDirectory info =>
      Ok ({| te_header := file_header (archiveName archivePath +:+ "/") TypeDir 0 info; te_contents := "" |}, None)
  | VRegular info read =>
      match rg_open read with
      | Some e => Err e
      | None =>
          refuse (unchanged_before info (rg_opened read) = false)
          with "backup source changed before copy: " +:+ archivePath in
          rbind (rg_contents read) (fun contents =>
          ensure tar_write (fi_Size info) contents in
          refuse (unchanged_after info (rg_after read) = false)
          with "backup source changed during copy: " +:+ archivePath in
          ensure tar_flush (fi_Size info) contents in
          Ok ({| te_header := file_header (archiveName archivePath) TypeReg (fi_Size info) info; te_contents := contents |},
              Some {| ce_Path := archivePath; ce_SHA256 := digest contents; ce_Size := fi_Size info;
                      ce_Mode := Perm (fi_Mode info); ce_UID := fi_Uid info; ce_GID := fi_Gid info |}))
      end
  end.

(** Names seen, entries written and checksums taken so far. *)
Record writing : Type := { wr_seen : gset string; wr_entries : list tarEntry; wr_checksums : list ChecksumEntry }.

Definition inline_mode (item : InlineFile) : Z := if decide (Perm (in_Mode item) = 0) then 384 else Perm (in_Mode item).

Definition inline_step (w : writing) (item : InlineFile) : res writing :=
  match canonicalPayloadPath (in_ArchivePath item) with
  | Err _ => Err (ErrMsg "invalid or duplicate inline archive path")
  | Ok name =>
      refuse (name ∈ wr_seen w \/ name = index_name) with "invalid or duplicate inline archive path" in
      Ok {| wr_seen := {[name]} ∪ wr_seen w;
            wr_entries := wr_entries w ++ [writeBytes name (in_Contents item) (inline_mode item)];
            wr_checksums := wr_checksums w ++ [checksumBytes name (in_Contents item) (inline_mode item)] |}
  end.

Definition name_below (prefix : string) (rel : list string) : string :=
  match rel with [] => prefix | _ => prefix +:+ "/" +:+ Protocol.join "/" rel end.

Definition visit_step (prefix : string) (w : writing) (rv : list string * visit) : res writing :=
  let name := name_below prefix rv.1 in
  match rv.2 with
  | VBroken e => Err e
  | _ =>
      refuse (name ∈ wr_seen w) with "duplicate archive path" in
      rbind (writeHostEntry name rv.2) (fun '(entry, checksum) =>
      Ok {| wr_seen := {[name]} ∪ wr_seen w; wr_entries := wr_entries w ++ [entry];
            wr_checksums := wr_checksums w ++ option_list checksum |})
  end.

Definition source_step (w : writing) (source : Source) : res writing :=
  match canonicalPayloadPath (src_ArchivePath source) with
  | Err _ => Err (ErrMsg "invalid or duplicate source archive path")
  | Ok prefix =>
      refuse (prefix ∈ wr_seen w) with "invalid or duplicate source archive path" in
      match src_Node source with
      | Err e => Err (ErrWrap "inspect backup source" e)
      | Ok (HDirectory info children) =>
          match range (visit_step prefix) w (walk [] (HDirectory info children)) with
          | Err e => Err (ErrWrap ("archive source " +:+ src_ArchivePath source) e)
          | Ok w => Ok w
          end
      | Ok _ => Err (ErrMsg "backup source must be a real directory")
      end
  end.

Definition checksum_metadata : ChecksumMetadata := {| cs_Algorithm := "sha256"; cs_IndexPath := index_name |}.

Definition wrapped {A} (msg : string) (r : res A) : res A := match r with Err e => Err (ErrWrap msg e) | Ok a => Ok a end.

(** The entries of the archive; whether they reach the disk is [Create]'s
    business. *)
Definition writeArchive (m : ArchiveManifest) (sources : list Source) (inline : list InlineFile)
    : res (list tarEntry) :=
  rbind (wrapped "encode backup manifest" (canonicalJSON (jc_encode_manifest (m <| am_Checksum := checksum_metadata |>))))
    (fun manifestBytes =>
  let inline := sort_by in_ArchivePath
    (inline ++ [{| in_ArchivePath := manifest_name; in_Contents := manifestBytes; in_Mode := 384 |}]) in
  rbind (range inline_step {| wr_seen := ∅; wr_entries := []; wr_checksums := [] |} inline) (fun w =>
  rbind (range source_step w (sort_by src_ArchivePath sources)) (fun w =>
  rbind (wrapped "encode checksum index" (canonicalJSON (jc_encode_index
           {| ci_Algorithm := "sha256"; ci_Files := sort_by ce_Path (wr_checksums w) |}))) (fun indexBytes =>
  Ok (wr_entries w ++ [writeBytes index_name indexBytes 384]))))).

(** The archives in a directory, and the results of the calls on them:
    [ca_write] is the output of the compressed stream. *)
Notation archives := (gmap string (list tarEntry)).

Record create_calls : Type := {
  ca_mkdir : res unit;
  ca_open : res unit;
  ca_write : res unit;
  ca_sync : res unit;
  ca_close : res unit;
  ca_rename : res unit;
  ca_sync_directory : res unit;
  ca_remove_partial : bool
}.

Definition Base (path : string) : string := List.last (path_elements path) "".

Definition then_ {A} (r : res unit) (msg : string) (k : res A) : res A :=
  match r with Err e => Err (ErrWrap msg e) | Ok _ => k end.

(** The partial file is removed unless the archive was published. *)
Definition Create (calls : create_calls) (destination : string) (m : ArchiveManifest) (sources : list Source)
    (inline : list InlineFile) : io archives string := fun files =>
  match (ensure ValidateArchiveManifest m in
         refuse (IsAbs destination = false \/ ContainsAny (Base destination) [CR; LF] = true)
         with "invalid archive destination" in
         then_ (ca_mkdir calls) "create archive directory" (Ok tt)) with
  | Err e => (Err e, files)
  | Ok _ =>
      let partial := destination +:+ ".partial" in
      match files !! partial, ca_open calls with
      | Some _, _ => (Err (ErrWrap "create partial archive" (ErrMsg "file exists")), files)
      | None, Err e => (Err (ErrWrap "create partial archive" e), files)
      | None, Ok _ =>
          let dropped (files : archives) := if ca_remove_partial calls then delete partial files else files in
          let files := <[partial := []]> files in
          match rbind (writeArchive m sources inline) (fun entries =>
                  ensure (ca_write calls) in
                  then_ (ca_sync calls) "sync archive" (then_ (ca_close calls) "close archive"
                    (then_ (ca_rename calls) "publish archive" (Ok entries)))) with
          | Err e => (Err e, dropped files)
          | Ok entries =>
              let files := <[destination := entries]> (delete partial files) in
              match ca_sync_directory calls with
              | Err e => (Err e, delete destination files)
              | Ok _ => (Ok destination, files)
              end
          end
      end
  end.
End create.

(** ** Extracting an archive *)

(** [at_ModTime]: [None] is the time of the call. *)
Record attributes : Type := { at_Mode : Z; at_Owner : Z * Z; at_ModTime : option string }.
#[export] Instance attributes_eta : Eta attributes := fun a => Build_attributes (at_Mode a) (at_Owner a) (at_ModTime a).
#[export] Instance set_at_Mode : Setter at_Mode := ltac:(mk_setter).
#[export] Instance set_at_Owner : Setter at_Owner := ltac:(mk_setter).
#[export] Instance set_at_ModTime : Setter at_ModTime := ltac:(mk_setter).

Inductive fnode : Type :=
| FDir (a : attributes)
| FFile (a : attributes) (contents : string).

Notation disk := (@gmap (list string) (@list_eq_dec string String.eq_dec) (@list_countable string String.eq_dec String.countable) fnode).

Inductive disk_call : Type :=
| CMkdir (p : list string)
| CLstat (p : list string)
| CCreate (p : list string)
| CWrite (p : list string)
| CChmod (p : list string)
| CChtimes (p : list string)
| CChown (p : list string)
| CRemoveAll (p : list string).

Definition on_attributes (f : attributes -> attributes) (n : fnode) : fnode :=
  match n with FDir a => FDir (f a) | FFile a contents => FFile (f a) contents end.

Record extractedDirectory : Type := { xd_name : string; xd_mode : Z; xd_uid : Z; xd_gid : Z; xd_modTime : string }.

(** The variables of the loop of [Extract]. *)
Record extraction : Type := {
  ex_seen : gset string;
  ex_observed : gmap string ChecksumEntry;
  ex_directories : list extractedDirectory;
  ex_manifest : string;
  ex_checksums : string;
  ex_entries : Z;
  ex_total : Z
}.
#[export] Instance extraction_eta : Eta extraction := fun x => Build_extraction (ex_seen x) (ex_observed x)
  (ex_directories x) (ex_manifest x) (ex_checksums x) (ex_entries x) (ex_total x).
#[export] Instance set_ex_seen : Setter ex_seen := ltac:(mk_setter).
#[export] Instance set_ex_observed : Setter ex_observed := ltac:(mk_setter).
#[export] Instance set_ex_directories : Setter ex_directories := ltac:(mk_setter).
#[export] Instance set_ex_manifest : Setter ex_manifest := ltac:(mk_setter).
#[export] Instance set_ex_checksums : Setter ex_checksums := ltac:(mk_setter).
#[export] Instance set_ex_entries : Setter ex_entries := ltac:(mk_setter).
#[export] Instance set_ex_total : Setter ex_total := ltac:(mk_setter).

Definition no_extraction : extraction :=
  {| ex_seen := ∅; ex_observed := ∅; ex_directories := []; ex_manifest := ""; ex_checksums := ""; ex_entries := 0;
     ex_total := 0 |}.

Section extract.
Context `{Codec : ArchiveCodec} (digest : string -> string).
(** Which calls fail, and the user the helper runs as. *)
Context (fails : disk_call -> option error) (self : Z * Z).

Definition attempt {A} (c : disk_call) (k : io disk A) : io disk A :=
  match fails c with Some e => ifail e | None => k end.

Definition new_attributes (mode : Z) : attributes := {| at_Mode := mode; at_Owner := self; at_ModTime := None |}.

Definition is_dir (fs : disk) (p : list string) : bool :=
  match p, fs !! p with [], _ => true | _, Some (FDir _) => true | _, _ => false end.

(** The parent of the new name must be a directory. *)
Definition place (p : list string) (n : fnode) : io disk unit := fun fs =>
  match p, fs !! p with
  | [], _ | _, Some _ => (Err (ErrMsg "file exists"), fs)
  | _, None => if is_dir fs (removelast p) then (Ok tt, <[p := n]> fs) else (Err (ErrMsg "no such directory"), fs)
  end.

Definition mkdir (p : list string) : io disk unit := attempt (CMkdir p) (place p (FDir (new_attributes 448))).

(** [os.MkdirAll] on the reversed elements of a path *)
Fixpoint mkdir_all (rpath : list string) : io disk unit := fun fs =>
  match fs !! rev rpath with
  | Some (FDir _) => (Ok tt, fs)
  | Some (FFile _ _) => (Err (ErrMsg "not a directory"), fs)
  | None =>
      match rpath with
      | [] => (Ok tt, fs)
      | _ :: parent => ibind (mkdir_all parent) (fun _ => mkdir (rev rpath)) fs
      end
  end.

Definition MkdirAll (p : list string) : io disk unit := mkdir_all (rev p).

Definition change (p : list string) (f : attributes -> attributes) : io disk unit := fun fs =>
  match fs !! p with
  | Some n => (Ok tt, <[p := on_attributes f n]> fs)
  | None => (Err (ErrMsg "no such file or directory"), fs)
  end.

Definition Chmod (p : list string) (mode : Z) : io disk unit :=
  attempt (CChmod p) (change p (fun a => a <| at_Mode := mode |>)).
Definition Chtimes (p : list string) (t : string) : io disk unit :=
  attempt (CChtimes p) (change p (fun a => a <| at_ModTime := Some t |>)).
Definition Chown (p : list string) (uid gid : Z) : io disk unit :=
  attempt (CChown p) (change p (fun a => a <| at_Owner := (uid, gid) |>)).

(** [io.CopyN]; a failed copy leaves the new file empty. *)
Definition copy_contents (p : list string) (size : Z) (contents : string) : io disk unit :=
  attempt (CWrite p) (fun fs =>
    if decide (size_of contents < size) then (Err (ErrMsg "unexpected EOF"), fs)
    else match fs !! p with
         | Some (FFile a _) => (Ok tt, <[p := FFile a (String.substring 0 (Z.to_nat size) contents)]> fs)
         | _ => (Err (ErrMsg "bad file descriptor"), fs)
         end).

Definition captured (header : tarHeader) : bool :=
  bool_decide (th_Name header = archiveName manifest_name \/ th_Name header = archiveName index_name).

Definition extractRegular (e : tarEntry) (target : list string) (preserveOwnership : bool) : io disk (string * string) :=
  let header := te_header e in
  let contents := String.substring 0 (Z.to_nat (th_Size header)) (te_contents e) in
  run* (fun fs => match fails (CLstat target), fs !! target with
                  | None, None => (Ok tt, fs)
                  | _, _ => (Err (ErrMsg "archive entry already exists"), fs)
                  end) in
  run* attempt (CCreate target) (place target (FFile (new_attributes (Perm (th_Mode header))) "")) in
  run* copy_contents target (th_Size header) (te_contents e) in
  run* Chmod target (Perm (th_Mode header)) in
  run* Chtimes target (th_ModTime header) in
  run* (if preserveOwnership then Chown target (th_Uid header) (th_Gid header) else iret tt) in
  iret (if captured header then contents else "", digest contents).

Definition metadata_too_large (name : string) (size : Z) : bool :=
  bool_decide ((name = manifest_name /\ Z.shiftl 4 20 < size) \/ (name = index_name /\ Z.shiftl 128 20 < size)).

Definition observed_entry (name sum : string) (header : tarHeader) : ChecksumEntry :=
  {| ce_Path := name; ce_SHA256 := sum; ce_Size := th_Size header; ce_Mode := Perm (th_Mode header);
     ce_UID := th_Uid header; ce_GID := th_Gid header |}.

(** The regular file [name] was extracted with this content and hash. *)
Definition record_file (x : extraction) (name : string) (header : tarHeader) (contents sum : string) : extraction :=
  let x := x <| ex_observed := <[name := observed_entry name sum header]> (ex_observed x) |> in
  let x := if decide (name = manifest_name) then x <| ex_manifest := contents |> else x in
  if decide (name = index_name) then x <| ex_checksums := contents |> <| ex_observed := delete name (ex_observed x) |>
  else x.

Definition extract_entry (limits : ArchiveLimits) (destination : string) (preserveOwnership : bool) (x : extraction)
    (e : tarEntry) : io disk extraction :=
  let header := te_header e in
  let x := x <| ex_entries := ex_entries x + 1 |> in
  if decide (lm_MaxEntries limits < ex_entries x) then ifail (ErrMsg "archive entry limit exceeded") else
  match validateArchiveName (th_Name header) with
  | Err _ => ifail (ErrMsg "unsafe or duplicate archive entry")
  | Ok name =>
      if decide (name ∈ ex_seen x) then ifail (ErrMsg "unsafe or duplicate archive entry") else
      let x := x <| ex_seen := {[name]} ∪ ex_seen x |> in
      if over_limit limits (ex_total x) (th_Size header) then ifail (ErrMsg "archive size limit exceeded") else
      let x := x <| ex_total := int64 (ex_total x + th_Size header) |> in
      let target := Ingress.Join [destination; name] in
      if negb (within destination target) then ifail (ErrMsg "archive entry escapes destination") else
      match th_Typeflag header with
      | TypeDir =>
          run* MkdirAll (path_elements target) in
          iret (x <| ex_directories := ex_directories x ++
                       [{| xd_name := target; xd_mode := Perm (th_Mode header); xd_uid := th_Uid header;
                           xd_gid := th_Gid header; xd_modTime := th_ModTime header |}] |>)
      | TypeReg | TypeRegA =>
          if metadata_too_large name (th_Size header) then ifail (ErrMsg "archive metadata size limit exceeded") else
          run* MkdirAll (removelast (path_elements target)) in
          io* got := extractRegular e (path_elements target) preserveOwnership in
          iret (record_file x name header got.1 got.2)
      | TypeOther => ifail (ErrMsg "archive links and special files are not supported")
      end
  end.

Fixpoint extract_loop (limits : ArchiveLimits) (destination : string) (preserveOwnership : bool) (last : option error)
    (es : list tarEntry) (x : extraction) : io disk extraction :=
  match es with
  | [] => match last with None => iret x | Some e => ifail (read_error e) end
  | e :: es =>
      io* x := extract_entry limits destination preserveOwnership x e in
      extract_loop limits destination preserveOwnership last es x
  end.

(** Directories get their attributes last, the deepest first. *)
Fixpoint finish_directories (preserveOwnership : bool) (directories : list extractedDirectory) : io disk unit :=
  match directories with
  | [] => iret tt
  | d :: directories =>
      let p := path_elements (xd_name d) in
      run* Chmod p (xd_mode d) in
      run* Chtimes p (xd_modTime d) in
      run* (if preserveOwnership then Chown p (xd_uid d) (xd_gid d) else iret tt) in
      finish_directories preserveOwnership directories
  end.

(** What the metadata of the archive says, once everything is extracted. *)
Definition verified (x : extraction) : res ExtractResult :=
  refuse (ex_manifest x = "" \/ ex_checksums x = "") with "archive metadata is incomplete" in
  rbind (wrapped "invalid backup manifest" (strictJSON jc_decode_manifest (ex_manifest x))) (fun m =>
  ensure ValidateArchiveManifest m in
  rbind (wrapped "invalid checksum index" (strictJSON jc_decode_index (ex_checksums x))) (fun index =>
  ensure verifyChecksums index (ex_observed x) in
  Ok {| er_Manifest := m; er_Checksums := index |})).

Definition extract_into (destination : string) (stream : res tarStream) (options : ExtractOptions) : io disk ExtractResult :=
  io* s := ilift stream in
  io* x := extract_loop (effective (eo_Limits options)) destination (eo_PreserveOwnership options) (ts_end s) (ts_entries s)
             no_extraction in
  io* result := ilift (verified x) in
  run* finish_directories (eo_PreserveOwnership options) (rev (ex_directories x)) in
  iret result.

Definition RemoveAll (p : list string) : io disk unit :=
  attempt (CRemoveAll p) (fun fs => (Ok tt, filter (fun kn => ~ p `prefix_of` kn.1) fs)).

Definition Extract (archivePath destination : string) (stream : res tarStream) (options : ExtractOptions)
    : io disk ExtractResult :=
  if decide (IsAbs archivePath = false \/ IsAbs destination = false)
  then ifail (ErrMsg "archive and destination must be absolute paths") else
  run* iwrap "create extraction destination" (mkdir (path_elements (Clean destination))) in
  fun fs => match extract_into destination stream options fs with
            | (Ok result, fs) => (Ok result, fs)
            | (Err e, fs) => (Err e, (RemoveAll (path_elements (Clean destination)) fs).2)
            end.
End extract.
