(* ===== verification/ArchivePaths.v ===== *)
(** * Names of archives: lemmas

    A name accepted for an archive is [..] or a sequence of proper elements; a
    path joined with such a sequence extends the directory by it. *)

From S2P Require Import Prelude Protocol Exposure NetIP ExposurePolicy Ingress IngressProofs IngressRuntime IngressRender Containers Manifest ExternalStorage Secrets SecretsProps BackupPlan Archive.
From stdpp Require Import base strings list gmap sorting.
From Stdlib Require Import ZArith Lia Ascii.

Open Scope Z_scope.

(** An element of a path, as characters. *)
Definition plain (e : list N) : Prop := 47%N ∉ e /\ e <> [] /\ e <> [46%N] /\ e <> [46; 46]%N.

(** The elements [Clean] keeps, the first first. *)
Definition kept (rooted : bool) (path : string) : list (list N) :=
  rev (foldl (clean_step rooted) [] (split_at 47 (text path) [])).

Lemma Clean_kept path : Clean path =
  (if IsAbs path then "/" +:+ untext (join_at 47 (kept true path))
   else if decide (untext (join_at 47 (kept false path)) = "") then "." else untext (join_at 47 (kept false path))).
Proof. unfold Clean, kept. by destruct (IsAbs path). Qed.

Lemma clean_step_plain rooted k e : plain e -> clean_step rooted k e = e :: k.
Proof. intros (_ & H0 & H1 & H2). unfold clean_step. repeat (case_match; subst; try done). Qed.

Lemma clean_step_or (e : list N) : 47%N ∉ e -> plain e \/ e = [] \/ e = [46%N] \/ e = [46; 46]%N.
Proof.
  intros Hn. destruct (decide (e = [])); [auto|]. destruct (decide (e = [46%N])); [auto|].
  destruct (decide (e = [46; 46]%N)); [auto|]. left. by split_and!.
Qed.

(** Going up from nowhere is only possible in a relative path, at its start. *)
Definition ups (rooted : bool) (k : list (list N)) : Prop :=
  exists n es, k = es ++ repeat [46; 46]%N n /\ Forall plain es /\ (rooted = true -> n = 0%nat).

Lemma clean_step_ups rooted k e : 47%N ∉ e -> ups rooted k -> ups rooted (clean_step rooted k e).
Proof.
  intros Hn (n & es & -> & Hes & Hr).
  destruct (clean_step_or e Hn) as [Hp|[->|[->| ->]]]; [|by exists n, es..|].
  - rewrite clean_step_plain by done. exists n, (e :: es). split_and!; [done|by constructor|done].
  - destruct es as [|top es]; cbn.
    + destruct n as [|n]; cbn.
      * destruct rooted; [by exists 0%nat, []|]. exists 1%nat, []. split_and!; done.
      * rewrite decide_True by done. exists (S (S n)), []. split_and!; [done|done|]. intros ?. by specialize (Hr H).
    + apply Forall_cons in Hes as [Ht Hes]. rewrite decide_False by apply Ht. by exists n, es.
Qed.

Lemma kept_ups rooted path : ups rooted (rev (kept rooted path)).
Proof.
  unfold kept. rewrite rev_involutive.
  assert (Forall (fun e => 47%N ∉ e) (split_at 47 (text path) [])) as Hf by (apply split_at_free; set_solver).
  assert (ups rooted []) as Hk by (by exists 0%nat, []). revert Hf Hk.
  generalize (@nil (list N)) as k. induction (split_at 47 (text path) []) as [|e es IH]; intros k Hf Hk; [done|].
  apply Forall_cons in Hf as [He Hf]. cbn. apply IH; [done|]. by apply clean_step_ups.
Qed.

Lemma kept_plain path : Forall plain (kept true path).
Proof.
  destruct (kept_ups true path) as (n & es & Hk & Hes & Hn). rewrite (Hn eq_refl), app_nil_r in Hk.
  rewrite <- (rev_involutive (kept true path)), Hk. by apply Forall_rev.
Qed.

Lemma plain_nonempty es : Forall plain es -> Forall (fun e : list N => 47%N ∉ e) es.
Proof. intros H. eapply Forall_impl; [exact H|]. by intros e [? _]. Qed.

(** ** Characters *)
Lemma name_bytes s : Forall (fun b => b < 256)%N (text s).
Proof.
  unfold text. apply Forall_forall. intros b (c & -> & _)%list_elem_of_fmap. destruct c as [[][][][][][][][]]; cbn; lia.
Qed.

Lemma split_bytes sep (s cur : list N) : Forall (fun b => b < 256)%N s -> Forall (fun b => b < 256)%N cur ->
  Forall (Forall (fun b => b < 256)%N) (split_at sep s cur).
Proof.
  revert cur. induction s as [|c s IH]; intros cur Hs Hc; cbn; [by constructor|]. apply Forall_cons in Hs as [Hb Hs].
  case_match; [constructor; auto|]. apply IH; [done|]. apply Forall_app. by split; [|constructor].
Qed.

Lemma clean_step_bytes rooted k e : Forall (Forall (fun b => b < 256)%N) k -> Forall (fun b => b < 256)%N e ->
  Forall (Forall (fun b => b < 256)%N) (clean_step rooted k e).
Proof.
  intros Hk He. unfold clean_step. repeat case_match; subst; rewrite ?Forall_cons in *; naive_solver.
Qed.

Lemma kept_bytes rooted path : Forall (Forall (fun b => b < 256)%N) (kept rooted path).
Proof.
  unfold kept. apply Forall_rev. pose proof (split_bytes 47 (text path) [] (name_bytes path) ltac:(constructor)) as Hs.
  assert (Forall (Forall (fun b => b < 256)%N) []) as Hk by constructor. revert Hs Hk.
  generalize (@nil (list N)) as k.
  induction (split_at 47 (text path) []) as [|e es IH]; intros k Hs Hk; [done|].
  apply Forall_cons in Hs as [He Hs]. cbn. apply IH; [done|]. by apply clean_step_bytes.
Qed.

Lemma join_bytes (es : list (list N)) : Forall (Forall (fun b => b < 256)%N) es -> Forall (fun b => b < 256)%N (join_at 47 es).
Proof.
  induction 1 as [|e es He Hes IH]; [constructor|]. destruct es as [|e' es]; [done|].
  change (Forall (fun b => b < 256)%N (e ++ 47%N :: join_at 47 (e' :: es))). apply Forall_app. split; [done|].
  constructor; [lia|done].
Qed.

(** ** Absolute paths *)
Lemma text_joined es : Forall (Forall (fun b => b < 256)%N) es -> text (untext (join_at 47 es)) = join_at 47 es.
Proof. intros H. by apply text_untext, join_bytes. Qed.

Lemma foldl_plain rooted es k : Forall plain es -> foldl (clean_step rooted) k es = rev es ++ k.
Proof.
  revert k. induction es as [|e es IH]; intros k H; [done|]. apply Forall_cons in H as [He H]. cbn.
  rewrite clean_step_plain, IH by done. by rewrite <- app_assoc.
Qed.

Lemma untext_nonempty e : plain e -> untext e <> "".
Proof. intros (_ & H & _). by destruct e. Qed.

Lemma filter_plain es : Forall plain es -> filter (fun e => e <> "") (map untext es) = map untext es.
Proof.
  induction 1 as [|e es He Hes IH]; [done|]. cbn [map]. rewrite filter_cons_True by (by apply untext_nonempty). by rewrite IH.
Qed.

Lemma split_clean es : Forall plain es -> split_at 47 (47%N :: join_at 47 es) [] = [] :: (if decide (es = []) then [[]] else es).
Proof.
  intros H. cbn. f_equal. case_decide as He; [by subst|]. apply split_join; [done|]. by apply plain_nonempty.
Qed.

Lemma text_slash s : text ("/" +:+ s) = 47%N :: text s.
Proof. done. Qed.

Lemma IsAbs_Clean path : IsAbs path = true -> IsAbs (Clean path) = true.
Proof. intros H. by rewrite Clean_kept, H. Qed.

Lemma kept_Clean path : IsAbs path = true -> kept true (Clean path) = kept true path.
Proof.
  intros H. unfold kept at 1. rewrite Clean_kept, H, text_slash, text_joined, split_clean by (apply kept_bytes || apply kept_plain).
  cbn [foldl clean_step]. case_decide as Hk; [by rewrite Hk|].
  rewrite foldl_plain, app_nil_r, rev_involutive by apply kept_plain. done.
Qed.

Lemma elements_Clean path : IsAbs path = true -> path_elements (Clean path) = map untext (kept true path).
Proof.
  intros H. unfold path_elements. rewrite Clean_kept, H, text_slash, text_joined, split_clean by (apply kept_bytes || apply kept_plain).
  cbn [map]. change (untext []) with "". rewrite filter_cons_False by (intros Hf; by apply Hf).
  case_decide as Hk; [by rewrite Hk|]. apply filter_plain, kept_plain.
Qed.

(** A name whose elements are all proper. *)
Definition proper (name : string) : Prop := Forall plain (split_at 47 (text name) []).

Lemma proper_elements name : proper name -> path_elements name = map untext (split_at 47 (text name) []).
Proof. apply filter_plain. Qed.

Lemma split_not_nil (s : list N) : split_at 47 s [] <> [].
Proof. apply split_at_nonempty. Qed.

Lemma proper_nonempty name : proper name -> name <> "" /\ path_elements name <> [].
Proof.
  intros H. split; [intros ->; apply Forall_cons in H as [(_ & H & _) _]; by apply H|].
  rewrite proper_elements by done. pose proof (split_not_nil (text name)). by destruct (split_at 47 (text name) []).
Qed.

Lemma Join_two dest name : IsAbs dest = true -> name <> "" -> Ingress.Join [dest; name] = Clean (dest +:+ "/" +:+ name).
Proof.
  intros Hd Hn. unfold Ingress.Join. rewrite !filter_cons_True, filter_nil; [done|done|]. by intros ->.
Qed.

Lemma IsAbs_app dest s : IsAbs dest = true -> IsAbs (dest +:+ s) = true.
Proof.
  unfold IsAbs. rewrite !bool_decide_eq_true, text_app. by destruct (text dest).
Qed.

Lemma kept_app dest name : IsAbs dest = true -> kept true (dest +:+ "/" +:+ name) =
  rev (foldl (clean_step true) (rev (kept true dest)) (split_at 47 (text name) [])).
Proof.
  intros Hd. unfold kept. rewrite !text_app. change (text "/" ++ text name) with (47%N :: text name).
  by rewrite split_at_sep, foldl_app, rev_involutive.
Qed.

Lemma target_kept dest name : IsAbs dest = true -> proper name ->
  kept true (dest +:+ "/" +:+ name) = kept true dest ++ split_at 47 (text name) [].
Proof. intros Hd Hp. rewrite kept_app, foldl_plain by done. by rewrite rev_app_distr, !rev_involutive. Qed.

Lemma target_elements dest name : IsAbs dest = true -> proper name ->
  path_elements (Ingress.Join [dest; name]) = path_elements (Clean dest) ++ path_elements name.
Proof.
  intros Hd Hp. rewrite Join_two, !elements_Clean by (done || by apply proper_nonempty || by apply IsAbs_app).
  by rewrite target_kept, map_app, proper_elements.
Qed.

(** ** Names accepted by [canonicalPayloadPath] *)
Lemma HasPrefix_iff s p : HasPrefix s p = true <-> exists t, s = p +:+ t.
Proof.
  unfold HasPrefix. revert s. induction p as [|c p IH]; intros s.
  - split; [intros _; by exists s|]. intros [t ->]. by destruct t.
  - destruct s as [|c' s]; cbn; [split; [done|]; by intros [t [=]]|].
    destruct (ascii_dec c c') as [->|Hc]; cbn.
    + rewrite IH. split; intros [t Ht]; exists t; [by rewrite Ht|]. by injection Ht.
    + split; [done|]. intros [t Ht]. injection Ht as -> _. done.
Qed.

Lemma not_abs name : HasPrefix name "/" = false -> IsAbs name = false.
Proof.
  intros H. apply bool_decide_eq_false. intros Hh. destruct name as [|c name]; [done|]. cbn in Hh. injection Hh as Hh.
  enough (HasPrefix (String c name) "/" = true) by congruence. apply HasPrefix_iff. exists name.
  assert (c = "/"%char) as -> by (rewrite <- (ascii_N_embedding c), Hh; done). done.
Qed.

(** What is accepted is [..], which does not lead below a directory, or a
    sequence of proper elements. *)
Lemma canonical_name name n : canonicalPayloadPath name = Ok n -> n = name /\ (name = ".." \/ proper name).
Proof.
  unfold canonicalPayloadPath. case_decide as Hbad; [done|]. intros [= <-]. split; [done|].
  apply Decidable.not_or in Hbad as [Hne Hbad]. apply Decidable.not_or in Hbad as [Habs Hbad].
  apply Decidable.not_or in Hbad as [_ Hbad]. apply Decidable.not_or in Hbad as [Hclean Hbad].
  apply Decidable.not_or in Hbad as [Hdot Hup]. apply dec_stable in Hclean. apply not_true_is_false in Habs, Hup.
  rewrite Clean_kept, (not_abs name Habs) in Hclean. case_decide as Hempty; [by subst|].
  destruct (kept_ups false name) as (m & es & Hk & Hes & _).
  assert (kept false name = repeat [46; 46]%N m ++ rev es) as HK.
  { rewrite <- (rev_involutive (kept false name)), Hk, rev_app_distr. f_equal. clear. induction m as [|m IH]; [done|].
    cbn. rewrite IH. clear. induction m as [|m IH]; [done|]. cbn. by f_equal. }
  assert (text name = join_at 47 (kept false name)) as Ht by (rewrite <- Hclean at 1; apply text_joined, kept_bytes).
  assert (kept false name <> []) as Hnil by (intros E1; apply Hne; apply (f_equal untext) in Ht; by rewrite untext_text, E1 in Ht).
  assert (Forall (fun e : list N => 47%N ∉ e) (kept false name)) as Hfree.
  { rewrite HK. apply Forall_app. split; [|by apply plain_nonempty, Forall_rev].
    clear. induction m; constructor; [set_solver|done]. }
  destruct m as [|m].
  - right. unfold proper. rewrite Ht, split_join, HK by done. by apply Forall_rev.
  - left. rewrite HK in Ht. cbn [repeat app] in Ht. destruct (repeat [46; 46]%N m ++ rev es) as [|e rest] eqn:E1.
    + apply (f_equal untext) in Ht. by rewrite untext_text in Ht.
    + exfalso. enough (HasPrefix name "../" = true) by congruence. apply HasPrefix_iff.
      exists (untext (join_at 47 (e :: rest))). apply (f_equal untext) in Ht. rewrite untext_text in Ht. exact Ht.
Qed.

(** The first element of a proper name. *)
Lemma proper_head name : proper name ->
  exists e rest, split_at 47 (text name) [] = e :: rest /\ plain e /\ text name = join_at 47 (e :: rest).
Proof.
  intros Hp. unfold proper in Hp. destruct (split_at 47 (text name) []) as [|e rest] eqn:Hs; [by apply split_not_nil in Hs|].
  apply Forall_cons in Hp as [? _]. exists e, rest. split_and!; [done|done|]. by rewrite <- Hs, join_split.
Qed.

Lemma proper_relative name : proper name ->
  IsAbs name = false /\ name <> "." /\ name <> ".." /\ HasPrefix name "../" = false /\ HasPrefix name "/" = false.
Proof.
  intros Hp. destruct (proper_head name Hp) as (e & rest & Hs & (H1 & H2 & H3 & H4) & Ht). split_and!.
  - apply bool_decide_eq_false. rewrite Ht. destruct e as [|c e]; [done|]. destruct rest; cbn; intros [= ->]; set_solver.
  - intros ->. cbn in Hs. by injection Hs as <- _.
  - intros ->. cbn in Hs. by injection Hs as <- _.
  - apply not_true_is_false. intros [t ->]%HasPrefix_iff. cbn in Hs. by injection Hs as <- _.
  - apply not_true_is_false. intros [t ->]%HasPrefix_iff. cbn in Hs. by injection Hs as <- _.
Qed.

Lemma canonical_ok name : proper name -> ContainsAny name [92; 0]%N = false -> canonicalPayloadPath name = Ok name.
Proof.
  intros Hp Hc. destruct (proper_nonempty name Hp) as [Hne _]. destruct (proper_relative name Hp) as (Habs & Hd & _ & Hu & Hs).
  unfold canonicalPayloadPath. rewrite decide_False; [done|].
  intros [?|[H|[H|[H|[H|H]]]]]; [done|congruence|congruence| |done|congruence].
  apply H. rewrite Clean_kept, Habs. unfold kept. rewrite foldl_plain, app_nil_r, rev_involutive, join_split by done.
  cbn [app]. by rewrite untext_text, decide_False.
Qed.

Lemma untext_join es : untext (join_at 47 es) = Protocol.join "/" (map untext es).
Proof.
  induction es as [|e es IH]; [done|]. destruct es as [|e' es]; [done|].
  change (untext (e ++ [47%N] ++ join_at 47 (e' :: es)) = untext e +:+ "/" +:+ Protocol.join "/" (map untext (e' :: es))).
  by rewrite !untext_app, IH.
Qed.

Lemma proper_join name : proper name -> Protocol.join "/" (path_elements name) = name.
Proof. intros Hp. rewrite proper_elements, <- untext_join, join_split by done. apply (untext_text name). Qed.

Lemma proper_inj name name' : proper name -> proper name' -> path_elements name = path_elements name' -> name = name'.
Proof. intros H H' Heq. by rewrite <- (proper_join name H), <- (proper_join name' H'), Heq. Qed.

(** ** Staying below a directory *)
Lemma strip_prefix base rest : strip_common base (base ++ rest) = ([], rest).
Proof. induction base as [|b base IH]; cbn; [by destruct rest|]. by rewrite decide_True. Qed.

Lemma strip_shorter base last_ : strip_common (base ++ [last_]) base = ([last_], []).
Proof. induction base as [|b base IH]; cbn; [done|]. by rewrite decide_True. Qed.

Lemma within_up dest : IsAbs dest = true -> path_elements (Clean dest) <> [] -> within dest (Ingress.Join [dest; ".."]) = false.
Proof.
  intros Hd Hne. rewrite elements_Clean in Hne by done. unfold within, Rel.
  rewrite Join_two by done. rewrite (elements_Clean (Clean _)) by (by apply IsAbs_Clean, IsAbs_app).
  rewrite kept_Clean, kept_app, elements_Clean by (done || by apply IsAbs_app).
  pose proof (kept_plain dest) as Hp. destruct (kept true dest) as [|e0 k0 _] eqn:Hk using rev_ind; [done|].
  rewrite rev_app_distr. change (split_at 47 (text "..") []) with [[46; 46]%N]. cbn [rev app foldl clean_step].
  apply Forall_app in Hp as [_ Hp]. apply Forall_singleton in Hp as (_ & _ & _ & Hp).
  rewrite decide_False, rev_involutive, map_app by done. cbn [map]. by rewrite strip_shorter.
Qed.

Lemma within_proper dest name : IsAbs dest = true -> proper name -> within dest (Ingress.Join [dest; name]) = true.
Proof.
  intros Hd Hp. unfold within, Rel. destruct (proper_nonempty name Hp) as [Hn He].
  rewrite Join_two by done. rewrite (elements_Clean (Clean _)) by (by apply IsAbs_Clean, IsAbs_app).
  rewrite kept_Clean, target_kept, elements_Clean, map_app, strip_prefix by (done || by apply IsAbs_app).
  rewrite <- proper_elements by done. cbn [map app]. destruct (path_elements name) as [|e es] eqn:E1; [done|].
  rewrite <- E1, proper_join by done. destruct (proper_relative name Hp) as (_ & _ & Hup & Hpre & _).
  by rewrite Hpre, bool_decide_eq_true_2.
Qed.

(** ** Names of entries *)
Lemma validated_name raw name : validateArchiveName raw = Ok name -> canonicalPayloadPath name = Ok name.
Proof.
  unfold validateArchiveName. case_decide; [done|]. intros Hn. destruct (canonical_name _ _ Hn) as [E1 _]. by rewrite <- E1 in Hn.
Qed.

Lemma string_app_nil (s : string) : s +:+ "" = s.
Proof. induction s as [|c s IH]; [done|]. change (String c (s +:+ "") = String c s). by rewrite IH. Qed.

Lemma TrimSlash_slash s : TrimSlash (s +:+ "/") = s.
Proof.
  induction s as [|c s IH]; [done|]. change (String c s +:+ "/") with (String c (s +:+ "/")). cbn [TrimSlash].
  rewrite decide_False; [by rewrite IH|]. intros [= _ H]. by destruct s.
Qed.

Lemma TrimSlash_same s : (forall t, s <> t +:+ "/") -> TrimSlash s = s.
Proof.
  induction s as [|c s IH]; intros H; [done|]. cbn [TrimSlash]. rewrite decide_False; [|by apply (H "")].
  rewrite IH; [done|]. intros t ->. by apply (H (String c t)).
Qed.

Lemma proper_no_slash a name : proper name -> forall t, a +:+ "/" +:+ name <> t +:+ "/".
Proof.
  intros Hp t Heq. apply (f_equal text) in Heq. rewrite !text_app in Heq.
  change (text "/" ++ text name) with (47%N :: text name) in Heq. change (text "/") with [47%N] in Heq.
  apply (f_equal (fun s => List.last (split_at 47 s []) [])) in Heq. rewrite !split_at_sep in Heq.
  change (split_at 47 [] []) with [@nil N] in Heq. rewrite List.last_last in Heq.
  unfold proper in Hp. destruct (split_at 47 (text name) []) as [|e0 k0 _] eqn:E1 using rev_ind; [by apply split_not_nil in E1|].
  rewrite app_assoc, List.last_last in Heq. subst. apply Forall_app in Hp as [_ Hp]. apply Forall_singleton in Hp as (_ & ? & _).
  done.
Qed.

Lemma trim_archiveName name : trim_prefix (archiveRoot +:+ "/") (archiveName name) = name.
Proof.
  unfold trim_prefix, archiveName. assert (String.prefix (archiveRoot +:+ "/") (archiveRoot +:+ "/" +:+ name) = true) as ->.
  { change (HasPrefix (archiveRoot +:+ "/" +:+ name) (archiveRoot +:+ "/") = true). apply HasPrefix_iff. by exists name. }
  change (archiveRoot +:+ "/" +:+ name) with ((archiveRoot +:+ "/") +:+ name). generalize (archiveRoot +:+ "/") as a. intros a.
  assert (forall a : string, String.substring (String.length a) (String.length (a +:+ name) - String.length a) (a +:+ name) = name) as H;
    [|apply H].
  clear. induction a as [|c a IH]; [|exact IH]. change (String.substring 0 (String.length name - 0) name = name).
  rewrite Nat.sub_0_r. induction name as [|c name IH]; [done|]. cbn. by f_equal.
Qed.

(** A name written for a file or for a directory is read back. *)
Lemma read_back name : proper name -> ContainsAny name [92; 0]%N = false ->
  validateArchiveName (archiveName name) = Ok name /\ validateArchiveName (archiveName name +:+ "/") = Ok name.
Proof.
  intros Hp Hc. unfold validateArchiveName. rewrite TrimSlash_slash, TrimSlash_same by (by apply (proper_no_slash archiveRoot)).
  assert (HasPrefix (archiveName name) (archiveRoot +:+ "/") = true) as -> by (apply HasPrefix_iff; by exists name).
  by rewrite decide_False, trim_archiveName, canonical_ok.
Qed.

(** An accepted entry below a directory. *)
Lemma accepted_target dest raw name : IsAbs dest = true -> path_elements (Clean dest) <> [] ->
  validateArchiveName raw = Ok name -> within dest (Ingress.Join [dest; name]) = true ->
  proper name /\ path_elements (Ingress.Join [dest; name]) = path_elements (Clean dest) ++ path_elements name.
Proof.
  intros Hd Hne Hv Hw. destruct (canonical_name name name (validated_name raw name Hv)) as [_ [->|Hp]].
  - by rewrite within_up in Hw.
  - split; [done|]. by apply target_elements.
Qed.
