(* ===== verification/ArchiveProofs.v ===== *)
(** * Extraction: where it writes, and how much *)

From S2P Require Import Prelude Protocol Exposure NetIP ExposurePolicy Ingress IngressProofs IngressRuntime IngressRender Containers Manifest ExternalStorage Secrets SecretsProps BackupPlan Archive ArchivePaths.
From stdpp Require Import base strings list gmap sorting.
From Stdlib Require Import ZArith Lia Ascii.

Open Scope Z_scope.

(** ** Computations that keep below a directory *)
Section confined.
Context (D : list string).

Definition rooted (fs : disk) : Prop := exists a, fs !! D = Some (FDir a).
Definition beyond (fs fs' : disk) : Prop := forall p, ~ D `prefix_of` p -> fs' !! p = fs !! p.

(** The directory stays, nothing changes elsewhere, and a result satisfies [Q]. *)
Definition stays {A : Type} (m : io disk A) (Q : A -> Prop) : Prop := forall fs, rooted fs ->
  rooted (m fs).2 /\ beyond fs (m fs).2 /\ forall a, (m fs).1 = Ok a -> Q a.

Lemma stays_ret {A : Type} (a : A) (Q : A -> Prop) : Q a -> stays (iret a) Q.
Proof. intros HQ fs HR. split_and!; [done|done|]. by intros a' [= <-]. Qed.
Lemma stays_fail {A : Type} e (Q : A -> Prop) : stays (ifail e) Q.
Proof. intros fs HR. by split_and!. Qed.
Lemma stays_lift {A : Type} (r : res A) (Q : A -> Prop) : (forall a, r = Ok a -> Q a) -> stays (ilift r) Q.
Proof. intros HQ fs HR. by split_and!. Qed.

Lemma stays_bind {A B : Type} (m : io disk A) (f : A -> io disk B) (P : A -> Prop) (Q : B -> Prop) :
  stays m P -> (forall a, P a -> stays (f a) Q) -> stays (ibind m f) Q.
Proof.
  intros Hm Hf fs HR. unfold ibind. destruct (Hm fs HR) as (HR1 & HB1 & HP). destruct (m fs) as [[a|e] fs1]; cbn in *; [|done].
  destruct (Hf a (HP a eq_refl) fs1 HR1) as (HR2 & HB2 & HQ). split_and!; [done| |done].
  intros p Hp. by rewrite HB2, HB1.
Qed.

Lemma stays_attempt {A : Type} (fails : disk_call -> option error) (c : disk_call) (k : io disk A) Q : stays k Q -> stays (attempt fails c k) Q.
Proof. intros Hk. unfold attempt. destruct (fails c); [apply stays_fail|done]. Qed.

(** One name is changed, and stays a directory if it was one. *)
Lemma stays_update (m : io disk unit) (p : list string) : D `prefix_of` p ->
  (forall fs, (m fs).2 = fs \/ exists n, (m fs).2 = <[p := n]> fs /\
     forall a, fs !! p = Some (FDir a) -> exists a', n = FDir a') -> stays m (fun _ => True).
Proof.
  intros Hp Hm fs [a HR]. destruct (Hm fs) as [->|(n & -> & Hd)]; [split_and!; [by exists a|done|done]|]. split_and!; [| |done].
  - destruct (decide (p = D)) as [->|Hne]; [|exists a; by rewrite lookup_insert_ne].
    destruct (Hd a HR) as [a' ->]. exists a'. by rewrite lookup_insert_eq.
  - intros q Hq. rewrite lookup_insert_ne; [done|]. by intros ->.
Qed.

Lemma stays_place p n : D `prefix_of` p -> stays (place p n) (fun _ => True).
Proof.
  intros Hp. apply (stays_update _ p Hp). intros fs. unfold place. destruct p as [|e p]; [by left|].
  destruct (fs !! (e :: p)) eqn:E1; [by left|]. destruct (is_dir fs _); [right|by left]. exists n.
  split; [done|]. intros a Ha. congruence.
Qed.

Lemma stays_change p f : D `prefix_of` p -> stays (change p f) (fun _ => True).
Proof.
  intros Hp. apply (stays_update _ p Hp). intros fs. unfold change. destruct (fs !! p) as [n|] eqn:E1; [right|by left].
  exists (on_attributes f n). split; [done|]. intros a [= ->]. by eexists.
Qed.

Context (fails : disk_call -> option error) (self : Z * Z).

Lemma stays_mkdir_all es : stays (mkdir_all fails self (rev (D ++ es))) (fun _ => True).
Proof.
  induction es as [|e es IH] using rev_ind.
  - intros fs [a HR]. rewrite app_nil_r. destruct (rev D) as [|d r] eqn:E1; cbn [mkdir_all]; rewrite <- E1, rev_involutive, HR;
      by split_and!; [exists a|..].
  - intros fs HR. rewrite app_assoc, rev_app_distr. cbn [rev app mkdir_all].
    destruct (fs !! _) as [[|]|]; [by split_and!..|].
    revert fs HR. apply (stays_bind _ _ _ _ IH). intros [] _. apply stays_attempt, stays_place.
    rewrite rev_involutive, <- app_assoc. by apply prefix_app_r.
Qed.

Lemma stays_MkdirAll p : D `prefix_of` p -> stays (MkdirAll fails self p) (fun _ => True).
Proof. intros [es ->]. apply stays_mkdir_all. Qed.

Lemma stays_Chmod p mode : D `prefix_of` p -> stays (Chmod fails p mode) (fun _ => True).
Proof. intros. by apply stays_attempt, stays_change. Qed.
Lemma stays_Chtimes p t : D `prefix_of` p -> stays (Chtimes fails p t) (fun _ => True).
Proof. intros. by apply stays_attempt, stays_change. Qed.
Lemma stays_Chown p uid gid : D `prefix_of` p -> stays (Chown fails p uid gid) (fun _ => True).
Proof. intros. by apply stays_attempt, stays_change. Qed.

Lemma stays_copy p size contents : D `prefix_of` p -> stays (copy_contents fails p size contents) (fun _ => True).
Proof.
  intros Hp. apply stays_attempt, (stays_update _ p Hp). intros fs. case_decide; [by left|].
  destruct (fs !! p) as [[a|a c]|] eqn:E1; [by left| |by left]. right. eexists.
  split; [done|]. intros a' Ha. congruence.
Qed.

Lemma stays_weaken {A : Type} (m : io disk A) (P Q : A -> Prop) : stays m P -> (forall a, P a -> Q a) -> stays m Q.
Proof. intros Hm HPQ fs HR. destruct (Hm fs HR) as (? & ? & ?). split_and!; auto. Qed.

Lemma stays_regular digest e target preserve : D `prefix_of` target ->
  stays (extractRegular digest fails self e target preserve) (fun _ => True).
Proof.
  intros Ht. unfold extractRegular.
  eapply (stays_bind _ _ (fun _ => True)).
  { intros fs HR. destruct (fails _); [by split_and!|]. destruct (fs !! target); by split_and!. }
  intros [] _. eapply stays_bind; [by apply stays_attempt, stays_place|]. intros [] _.
  eapply stays_bind; [by apply stays_copy|]. intros [] _. eapply stays_bind; [by apply stays_Chmod|]. intros [] _.
  eapply stays_bind; [by apply stays_Chtimes|]. intros [] _.
  eapply (stays_bind _ _ (fun _ => True)); [destruct preserve; [by apply stays_Chown|by apply stays_ret]|].
  intros [] _. by apply stays_ret.
Qed.
End confined.

(** ** The loop keeps below the destination *)
Section loop.
Context `{Codec : ArchiveCodec} (digest : string -> string) (fails : disk_call -> option error) (self : Z * Z).
Context (destination : string) (limits : ArchiveLimits) (preserve : bool).
Notation D := (path_elements (Clean destination)).
Hypothesis Habs : IsAbs destination = true.
Hypothesis Hroot : D <> [].

Definition directories_below (x : extraction) : Prop :=
  Forall (fun d => D `prefix_of` path_elements (xd_name d)) (ex_directories x).

Lemma below_parent es : es <> [] -> D `prefix_of` removelast (D ++ es).
Proof. intros He. rewrite removelast_app by done. by apply prefix_app_r. Qed.

Lemma record_directories x name header contents sum : ex_directories (record_file x name header contents sum) = ex_directories x.
Proof. unfold record_file. by repeat case_decide. Qed.

Lemma stays_entry x e : directories_below x ->
  stays D (extract_entry digest fails self limits destination preserve x e) directories_below.
Proof.
  intros Hx. unfold extract_entry. case_decide; [apply stays_fail|].
  destruct (validateArchiveName _) as [name|] eqn:Hv; [|apply stays_fail].
  case_decide; [apply stays_fail|]. destruct (over_limit _ _ _); [apply stays_fail|].
  destruct (within _ _) eqn:Hw; cbn [negb]; [|apply stays_fail].
  destruct (accepted_target destination _ _ Habs Hroot Hv Hw) as [Hp Ht].
  set (target := Ingress.Join [destination; name]) in *. clearbody target. rewrite Ht.
  destruct (proper_nonempty name Hp) as [_ Hne].
  assert (D `prefix_of` D ++ path_elements name) as Hd by (by apply prefix_app_r).
  destruct (th_Typeflag _) eqn:Hf; [..|apply stays_fail].
  1,2: destruct (metadata_too_large _ _); [apply stays_fail|];
    eapply stays_bind; [by apply stays_MkdirAll, below_parent|]; intros [] _;
    eapply stays_bind; [by apply stays_regular|]; intros got _; apply stays_ret;
    unfold directories_below; by rewrite record_directories.
  eapply stays_bind; [by apply stays_MkdirAll|]. intros [] _. apply stays_ret. unfold directories_below. cbn [ex_directories set extraction_eta set_ex_directories].
  apply Forall_app. split; [done|]. constructor; [|done]. cbn [xd_name]. by rewrite Ht.
Qed.

Lemma stays_loop last_ es x : directories_below x ->
  stays D (extract_loop digest fails self limits destination preserve last_ es x) directories_below.
Proof.
  revert x. induction es as [|e es IH]; intros x Hx; cbn.
  - destruct last_; [apply stays_fail|by apply stays_ret].
  - eapply stays_bind; [by apply stays_entry|]. intros x' Hx'. by apply IH.
Qed.

Lemma stays_finish ds : Forall (fun d => D `prefix_of` path_elements (xd_name d)) ds ->
  stays D (finish_directories fails preserve ds) (fun _ => True).
Proof.
  induction 1 as [|d ds Hd Hds IH]; cbn; [by apply stays_ret|].
  eapply stays_bind; [by apply stays_Chmod|]. intros [] _. eapply stays_bind; [by apply stays_Chtimes|]. intros [] _.
  eapply (stays_bind _ _ _ (fun _ => True)); [destruct preserve; [by apply stays_Chown|by apply stays_ret]|]. by intros [] _.
Qed.
End loop.

Section whole.
Context `{Codec : ArchiveCodec} (digest : string -> string) (fails : disk_call -> option error) (self : Z * Z).

Lemma stays_into destination stream options : IsAbs destination = true -> path_elements (Clean destination) <> [] ->
  stays (path_elements (Clean destination)) (extract_into digest fails self destination stream options) (fun _ => True).
Proof.
  intros Habs Hne. unfold extract_into. eapply (stays_bind _ _ _ (fun _ => True)); [by apply stays_lift|]. intros s _.
  eapply stays_bind; [apply stays_loop; [done|done|constructor]|]. intros x Hx.
  eapply (stays_bind _ _ _ (fun _ => True)); [by apply stays_lift|]. intros result _.
  eapply stays_bind; [apply stays_finish; by apply Forall_rev|]. intros [] _. by apply stays_ret.
Qed.

(** The new directory, before anything is extracted into it. *)
Lemma mkdir_cases (D : list string) (fs : disk) : match mkdir fails self D fs with
  | (Ok _, fs') => fs' = <[D := FDir (new_attributes self 448)]> fs /\ D <> [] /\ fs !! D = None
  | (Err _, fs') => fs' = fs
  end.
Proof.
  unfold mkdir, attempt. destruct (fails _); [done|]. unfold place. destruct D as [|d D']; [done|].
  destruct (fs !! (d :: D')) eqn:E1; [done|]. by destruct (is_dir _ _).
Qed.

Lemma extract_beyond archivePath destination stream options fs r fs' :
  Extract digest fails self archivePath destination stream options fs = (r, fs') ->
  beyond (path_elements (Clean destination)) fs fs'.
Proof.
  unfold Extract. case_decide as Ha; [by intros [= <- <-]|]. apply Decidable.not_or in Ha as [_ Ha].
  apply not_false_is_true in Ha. unfold ibind, iwrap. pose proof (mkdir_cases (path_elements (Clean destination)) fs) as Hm.
  destruct (mkdir _ _ _ fs) as [[[]|e] fs1]; [|by intros [= <- <-]; subst]. destruct Hm as (-> & Hne & HD).
  destruct (stays_into destination stream options Ha Hne (<[path_elements (Clean destination) := FDir (new_attributes self 448)]> fs))
    as (_ & HB & _); [eexists; by rewrite lookup_insert_eq|].
  assert (forall p, ~ path_elements (Clean destination) `prefix_of` p ->
    (extract_into digest fails self destination stream options
      (<[path_elements (Clean destination) := FDir (new_attributes self 448)]> fs)).2 !! p = fs !! p) as HB'.
  { intros p Hp. rewrite HB, lookup_insert_ne; [done| |done]. intros Heq. apply Hp. by rewrite Heq. }
  destruct (extract_into _ _ _ _ _ _ _) as [[result|e] fs2]; cbn [fst snd] in *; intros [= <- <-]; [exact HB'|].
  unfold RemoveAll, attempt. destruct (fails _); [exact HB'|]. intros p Hp. cbn [snd]. rewrite map_lookup_filter, HB' by done.
  destruct (fs !! p); [|done]. cbn [mbind option_bind]. by case_guard.
Qed.
End whole.

(** A failed extraction leaves the disk as it was. *)
Lemma extract_failure `{ArchiveCodec} digest fails self archivePath destination stream options fs e fs' :
  fails (CRemoveAll (path_elements (Clean destination))) = None ->
  (forall p, path_elements (Clean destination) `prefix_of` p -> fs !! p = None) ->
  Extract digest fails self archivePath destination stream options fs = (Err e, fs') -> fs' = fs.
Proof.
  intros Hrm Hnone Hx. pose proof (extract_beyond _ _ _ _ _ _ _ _ _ _ Hx) as HB.
  unfold Extract in Hx. case_decide as Ha; [by injection Hx|]. unfold ibind, iwrap in Hx.
  pose proof (mkdir_cases fails self (path_elements (Clean destination)) fs) as Hm.
  destruct (mkdir _ _ _ fs) as [[[]|e1] fs1]; [|by injection Hx as _ <-; subst].
  destruct (extract_into _ _ _ _ _ _ _) as [[result|e2] fs2]; [done|]. injection Hx as _ Hfs.
  unfold RemoveAll, attempt in Hfs. rewrite Hrm in Hfs. cbn [snd] in Hfs.
  apply map_eq. intros p. destruct (decide (path_elements (Clean destination) `prefix_of` p)) as [Hp|Hp]; [|by apply HB].
  rewrite (Hnone p Hp), <- Hfs, map_lookup_filter. destruct (fs2 !! p); [|done]. cbn [mbind option_bind]. by case_guard.
Qed.

(** ** Sizes *)
Lemma int64_id z : - 2 ^ 63 <= z < 2 ^ 63 -> int64 z = z.
Proof. intros Hz. unfold int64. rewrite Z.mod_small; lia. Qed.

Definition entry_size (e : tarEntry) : Z := th_Size (te_header e).
Definition total_size (es : list tarEntry) : Z := foldr (fun e acc => entry_size e + acc) 0 es.

Lemma total_size_cons e es : total_size (e :: es) = entry_size e + total_size es.
Proof. done. Qed.

(** Limits are values of their Go types. *)
Definition limits_ok (limits : ArchiveLimits) : Prop :=
  lm_MaxEntries limits < 2 ^ 63 /\ lm_MaxFileBytes limits < 2 ^ 63 /\ lm_MaxTotalBytes limits < 2 ^ 63.

Lemma effective_positive limits : limits_ok limits ->
  limits_ok (effective limits) /\ 0 < lm_MaxEntries (effective limits) /\ 0 < lm_MaxFileBytes (effective limits) /\
  0 < lm_MaxTotalBytes (effective limits).
Proof. intros Hl. unfold effective. case_decide as Hd; [done|]. split; [done|]. lia. Qed.

Lemma over_limit_false limits total size : limits_ok limits -> 0 <= total <= lm_MaxTotalBytes limits ->
  over_limit limits total size = false <->
  0 <= size <= lm_MaxFileBytes limits /\ total + size <= lm_MaxTotalBytes limits.
Proof.
  intros (_ & Hf & Hl) Ht. unfold over_limit. rewrite bool_decide_eq_false. split.
  - intros Hn. assert (0 <= size <= lm_MaxFileBytes limits) as Hs by lia. split; [done|].
    rewrite int64_id in Hn by lia. lia.
  - intros [Hs Hsum] [?|[?|Hc]]; [lia..|]. rewrite int64_id in Hc by lia. lia.
Qed.

Lemma measure_spec limits last_ es seen total entries t n : limits_ok limits -> 0 <= total <= lm_MaxTotalBytes limits ->
  0 <= entries <= lm_MaxEntries limits ->
  measure_loop limits last_ es seen total entries = Ok (t, n) ->
  t = total + total_size es /\ n = entries + Z.of_nat (length es) /\ 0 <= t <= lm_MaxTotalBytes limits /\
  0 <= n <= lm_MaxEntries limits /\ Forall (fun e => 0 <= entry_size e <= lm_MaxFileBytes limits) es.
Proof.
  intros Hl. revert seen total entries. induction es as [|e es IH]; intros seen total entries Ht Hn; cbn [measure_loop].
  - destruct last_; [done|]. change (total_size []) with 0. intros [= <- <-]. cbn [length]. split_and!; try lia. constructor.
  - case_decide; [done|]. destruct (validateArchiveName _) as [name|]; [|done]. do 3 (case_decide; [done|]).
    match goal with H : over_limit _ _ _ <> true |- _ => apply not_true_is_false, over_limit_false in H as [Hs Hsum]; [|done|done] end.
    rewrite int64_id by (destruct Hl as (_ & _ & ?); lia). intros Hm%IH; [|lia..].
    destruct Hm as (-> & -> & ? & ? & ?). rewrite total_size_cons. cbn [length].
    assert (entry_size e = th_Size (te_header e)) by done. split_and!; try lia. by constructor.
Qed.

Lemma record_counts x name header contents sum :
  ex_seen (record_file x name header contents sum) = ex_seen x /\
  ex_total (record_file x name header contents sum) = ex_total x /\
  ex_entries (record_file x name header contents sum) = ex_entries x.
Proof. unfold record_file. by repeat case_decide. Qed.
