(* ===== verification/ArchiveExtract.v ===== *)
(** * Extraction: what it leaves

    Each entry of an archive ends as one file or directory below the
    destination, with the contents and attributes of the entry, and everything
    found there comes from an entry. *)

From S2P Require Import Prelude Protocol Exposure NetIP ExposurePolicy Ingress IngressProofs IngressRuntime IngressRender Containers Manifest ExternalStorage Secrets SecretsProps BackupPlan Archive ArchivePaths ArchiveProofs.
From stdpp Require Import base strings list gmap sorting.
From Stdlib Require Import ZArith Lia Ascii.

Open Scope Z_scope.

Lemma ibind_Ok {W A B} (m : io W A) (f : A -> io W B) w b w' :
  ibind m f w = (Ok b, w') <-> exists a w1, m w = (Ok a, w1) /\ f a w1 = (Ok b, w').
Proof.
  unfold ibind. destruct (m w) as [[a|e] w1]; split.
  - intros H. by exists a, w1.
  - by intros (a' & w1' & [= -> ->] & H).
  - done.
  - by intros (a' & w1' & [=] & _).
Qed.

(** The contents and attributes an entry leaves. *)
Definition file_contents (e : tarEntry) : string := String.substring 0 (Z.to_nat (entry_size e)) (te_contents e).

Definition entry_attributes (self : Z * Z) (preserve : bool) (e : tarEntry) : attributes :=
  {| at_Mode := Perm (th_Mode (te_header e));
     at_Owner := if preserve then (th_Uid (te_header e), th_Gid (te_header e)) else self;
     at_ModTime := Some (th_ModTime (te_header e)) |}.

Section effects.
Context (digest : string -> string) (fails : disk_call -> option error) (self : Z * Z).

Lemma attempt_Ok {A : Type} (c : disk_call) (k : io disk A) fs a fs' :
  attempt fails c k fs = (Ok a, fs') <-> fails c = None /\ k fs = (Ok a, fs').
Proof. unfold attempt. destruct (fails c); cbn; naive_solver. Qed.

Lemma place_Ok p n fs u fs' : place p n fs = (Ok u, fs') ->
  fs !! p = None /\ is_dir fs (removelast p) = true /\ fs' = <[p := n]> fs.
Proof.
  unfold place. destruct p as [|d p]; [done|]. destruct (fs !! (d :: p)); [done|].
  destruct (is_dir fs (removelast (d :: p))) eqn:E1; [|done]. by intros [= <- <-].
Qed.

Lemma change_Ok p f fs u fs' : change p f fs = (Ok u, fs') -> exists n, fs !! p = Some n /\ fs' = <[p := on_attributes f n]> fs.
Proof. unfold change. destruct (fs !! p) as [n|]; [|done]. intros [= <- <-]. by exists n. Qed.

Lemma is_dir_FDir (fs : disk) p a : fs !! p = Some (FDir a) -> is_dir fs p = true.
Proof. destruct p; [done|]. intros E1. cbn. by rewrite E1. Qed.

(** Directories made on the way. *)
Definition made (p : list string) (fs fs' : disk) : Prop :=
  forall q n, fs' !! q = Some n -> fs !! q = Some n \/ (fs !! q = None /\ q `prefix_of` p /\ exists a, n = FDir a).

Lemma MkdirAll_Ok p fs u fs' : MkdirAll fails self p fs = (Ok u, fs') ->
  fs ⊆ fs' /\ made p fs fs' /\ is_dir fs' p = true.
Proof.
  unfold MkdirAll. revert fs u fs'. induction p as [|e p IH] using rev_ind; intros fs u fs'; cbn.
  - destruct (fs !! []) as [[]|]; intros [= <- <-]; (split_and!; [done|by left|done]).
  - rewrite rev_app_distr. cbn [rev app mkdir_all]. rewrite !rev_involutive.
    destruct (fs !! (p ++ [e])) as [[a|a c]|] eqn:E1; [|done|].
    { intros [= <- <-]. split_and!; [done|by left|]. by eapply is_dir_FDir. }
    intros H. apply ibind_Ok in H as ([] & fs1 & H1 & H2).
    apply IH in H1 as (Hsub & Hmade & _). unfold mkdir in H2. apply attempt_Ok in H2 as [_ H2].
    apply place_Ok in H2 as (Hn & _ & ->). split_and!.
    + etrans; [done|]. by apply insert_subseteq.
    + intros q n. destruct (decide (q = p ++ [e])) as [->|Hne].
      * rewrite lookup_insert_eq. intros [= <-]. right. split_and!; [done|done|by eexists].
      * rewrite lookup_insert_ne by done. intros [?|(? & ? & ?)]%Hmade; [by left|]. right. split_and!; [done| |done].
        by apply prefix_app_r.
    + eapply is_dir_FDir. by rewrite lookup_insert_eq.
Qed.

Lemma extractRegular_Ok e target preserve fs got fs' : 0 <= entry_size e ->
  extractRegular digest fails self e target preserve fs = (Ok got, fs') ->
  fs !! target = None /\ is_dir fs (removelast target) = true /\ entry_size e <= size_of (te_contents e) /\
  fs' = <[target := FFile (entry_attributes self preserve e) (file_contents e)]> fs /\
  got = (if captured (te_header e) then file_contents e else "", digest (file_contents e)).
Proof.
  intros Hs. unfold extractRegular. intros H.
  apply ibind_Ok in H as ([] & fs0 & H0 & H). destruct (fails _); [done|]. destruct (fs !! target) eqn:Hn; [done|].
  injection H0 as <-. apply ibind_Ok in H as ([] & fs1 & H1 & H). apply attempt_Ok in H1 as [_ H1].
  apply place_Ok in H1 as (_ & Hd & ->). apply ibind_Ok in H as ([] & fs2 & H2 & H).
  unfold copy_contents in H2. apply attempt_Ok in H2 as [_ H2]. case_decide as Hlen; [done|].
  rewrite lookup_insert_eq in H2. injection H2 as <-. rewrite insert_insert_eq in H.
  apply ibind_Ok in H as ([] & fs3 & H3 & H). apply attempt_Ok in H3 as [_ H3]. apply change_Ok in H3 as (n3 & Hn3 & ->).
  rewrite lookup_insert_eq in Hn3. injection Hn3 as <-. rewrite insert_insert_eq in H.
  apply ibind_Ok in H as ([] & fs4 & H4 & H). apply attempt_Ok in H4 as [_ H4]. apply change_Ok in H4 as (n4 & Hn4 & ->).
  rewrite lookup_insert_eq in Hn4. injection Hn4 as <-. rewrite insert_insert_eq in H.
  apply ibind_Ok in H as ([] & fs5 & H5 & H). injection H as <- <-.
  assert (fs5 = <[target := FFile (entry_attributes self preserve e) (file_contents e)]> fs) as ->.
  { destruct preserve; [|by injection H5 as <-]. apply attempt_Ok in H5 as [_ H5]. apply change_Ok in H5 as (n5 & Hn5 & ->).
    rewrite lookup_insert_eq in Hn5. injection Hn5 as <-. by rewrite insert_insert_eq. }
  split_and!; [done|done| |done|done]. unfold entry_size. lia.
Qed.
End effects.

(** ** One entry *)
Definition regular (e : tarEntry) : bool :=
  match th_Typeflag (te_header e) with TypeReg | TypeRegA => true | _ => false end.
Definition directory (e : tarEntry) : bool := bool_decide (th_Typeflag (te_header e) = TypeDir).

Section entries.
Context `{Codec : ArchiveCodec} (digest : string -> string) (fails : disk_call -> option error) (self : Z * Z).
Context (destination : string) (limits : ArchiveLimits) (preserve : bool).
Notation D := (path_elements (Clean destination)).
Hypothesis Habs : IsAbs destination = true.
Hypothesis Hroot : D <> [].

Definition at_name (name : string) : list string := D ++ path_elements name.

Definition directory_of (name : string) (e : tarEntry) : extractedDirectory :=
  {| xd_name := Ingress.Join [destination; name]; xd_mode := Perm (th_Mode (te_header e)); xd_uid := th_Uid (te_header e);
     xd_gid := th_Gid (te_header e); xd_modTime := th_ModTime (te_header e) |}.

Definition captured_contents (e : tarEntry) : string := if captured (te_header e) then file_contents e else "".

(** The checks every entry passes, in either loop. *)
Record admitted (name : string) (x : extraction) (e : tarEntry) : Prop := {
  ad_name : validateArchiveName (th_Name (te_header e)) = Ok name;
  ad_proper : proper name;
  ad_new : name ∉ ex_seen x;
  ad_entries : ex_entries x + 1 <= lm_MaxEntries limits;
  ad_size : over_limit limits (ex_total x) (entry_size e) = false
}.

Definition counted (name : string) (x : extraction) (e : tarEntry) (x' : extraction) : Prop :=
  ex_seen x' = {[name]} ∪ ex_seen x /\ ex_total x' = int64 (ex_total x + entry_size e) /\ ex_entries x' = ex_entries x + 1.

(** What a file and a directory leave. *)
Definition wrote_file (name : string) (x : extraction) (e : tarEntry) (fs : disk) (x' : extraction) (fs' : disk) : Prop :=
  exists fs1, fs ⊆ fs1 /\ made (removelast (at_name name)) fs fs1 /\ fs1 !! at_name name = None /\
    fs' = <[at_name name := FFile (entry_attributes self preserve e) (file_contents e)]> fs1 /\
    entry_size e <= size_of (te_contents e) /\ metadata_too_large name (entry_size e) = false /\
    ex_directories x' = ex_directories x /\
    ex_observed x' = (if decide (name = index_name) then delete name (ex_observed x)
                      else <[name := observed_entry name (digest (file_contents e)) (te_header e)]> (ex_observed x)) /\
    ex_manifest x' = (if decide (name = manifest_name) then captured_contents e else ex_manifest x) /\
    ex_checksums x' = (if decide (name = index_name) then captured_contents e else ex_checksums x).

Definition made_directory (name : string) (x : extraction) (e : tarEntry) (fs : disk) (x' : extraction) (fs' : disk) : Prop :=
  fs ⊆ fs' /\ made (at_name name) fs fs' /\ is_dir fs' (at_name name) = true /\
  ex_directories x' = ex_directories x ++ [directory_of name e] /\ ex_observed x' = ex_observed x /\
  ex_manifest x' = ex_manifest x /\ ex_checksums x' = ex_checksums x.

Lemma record_file_parts x name header contents sum :
  ex_observed (record_file x name header contents sum) =
    (if decide (name = index_name) then delete name (ex_observed x) else <[name := observed_entry name sum header]> (ex_observed x)) /\
  ex_manifest (record_file x name header contents sum) = (if decide (name = manifest_name) then contents else ex_manifest x) /\
  ex_checksums (record_file x name header contents sum) = (if decide (name = index_name) then contents else ex_checksums x).
Proof.
  unfold record_file. destruct (decide (name = manifest_name)) as [->|Hm].
  - rewrite decide_False by done. done.
  - destruct (decide (name = index_name)) as [->|Hi]; [|done]. split_and!; [|done|done]. cbn. apply delete_insert_eq.
Qed.

Lemma entry_Ok x e fs x' fs' : 0 <= ex_total x <= lm_MaxTotalBytes limits -> limits_ok limits ->
  extract_entry digest fails self limits destination preserve x e fs = (Ok x', fs') ->
  exists name, admitted name x e /\ counted name x e x' /\
    (regular e = true /\ wrote_file name x e fs x' fs' \/ directory e = true /\ made_directory name x e fs x' fs').
Proof.
  intros Ht Hl. unfold extract_entry. case_decide as Hn; [done|].
  destruct (validateArchiveName _) as [name|] eqn:Hv; [|done]. case_decide as Hseen; [done|].
  destruct (over_limit _ _ _) eqn:Hover; [done|]. destruct (within _ _) eqn:Hw; cbn [negb]; [|done].
  destruct (accepted_target destination _ _ Habs Hroot Hv Hw) as [Hp Htg].
  assert (0 <= entry_size e) as Hsz by (by apply over_limit_false in Hover as [[? _] _]).
  assert (admitted name x e) as Ha by (split; [done|done|done|cbn in Hn; lia|done]).
  rewrite Htg. fold (at_name name).
  destruct (th_Typeflag (te_header e)) eqn:Hf; [..|done].
  1,2: destruct (metadata_too_large _ _) eqn:Hbig; [done|]; intros H;
    apply ibind_Ok in H as ([] & fs1 & H1 & H); apply ibind_Ok in H as (got & fs2 & H2 & H); injection H as <- <-;
    apply MkdirAll_Ok in H1 as (Hsub & Hmade & _); apply extractRegular_Ok in H2 as (Hnone & _ & Hlen & -> & ->); [|done];
    eexists; split; [exact Ha|]; match goal with |- context [record_file ?y ?n ?h ?c ?s] =>
      destruct (record_counts y n h c s) as (Hc1 & Hc2 & Hc3); destruct (record_file_parts y n h c s) as (Ho & Hm & Hi) end;
    (split; [unfold counted; by rewrite Hc1, Hc2, Hc3|]); left; (split; [unfold regular; by rewrite Hf|]); eexists; rewrite record_directories, Ho, Hm, Hi; split_and!; done.
  intros H. apply ibind_Ok in H as ([] & fs1 & H1 & H). injection H as <- <-. apply MkdirAll_Ok in H1 as (Hsub & Hmade & Hd).
  exists name. split; [done|]. split; [done|]. right. split; [by apply bool_decide_eq_true_2|]. done.
Qed.

(** ** The loop *)
Record extracted_so_far (done : list (string * tarEntry)) (x : extraction) (fs : disk) : Prop := {
  es_total : 0 <= ex_total x <= lm_MaxTotalBytes limits;
  es_names n e : (n, e) ∈ done -> proper n /\ validateArchiveName (th_Name (te_header e)) = Ok n /\
    (regular e = true \/ directory e = true);
  es_seen n : n ∈ ex_seen x <-> n ∈ done.*1;
  es_nodup : NoDup (done.*1);
  es_files n e : (n, e) ∈ done -> regular e = true ->
    fs !! at_name n = Some (FFile (entry_attributes self preserve e) (file_contents e)) /\ entry_size e <= size_of (te_contents e);
  es_dirs n e : (n, e) ∈ done -> directory e = true -> exists a, fs !! at_name n = Some (FDir a);
  es_only p node : fs !! (D ++ p) = Some node -> p <> [] ->
    exists n e, (n, e) ∈ done /\ p `prefix_of` path_elements n /\
      (forall a c, node = FFile a c -> p = path_elements n /\ regular e = true);
  es_root : exists a, fs !! D = Some (FDir a);
  es_observed n c : ex_observed x !! n = Some c <->
    exists e, (n, e) ∈ done /\ regular e = true /\ n <> index_name /\
      c = observed_entry n (digest (file_contents e)) (te_header e);
  es_directories : ex_directories x = map (fun ne => directory_of ne.1 ne.2) (filter (fun ne => directory ne.2 = true) done);
  es_manifest e : (manifest_name, e) ∈ done -> regular e = true -> ex_manifest x = captured_contents e;
  es_index e : (index_name, e) ∈ done -> regular e = true -> ex_checksums x = captured_contents e;
  es_no_manifest : ex_manifest x <> "" -> exists e, (manifest_name, e) ∈ done /\ regular e = true;
  es_no_index : ex_checksums x <> "" -> exists e, (index_name, e) ∈ done /\ regular e = true
}.

Lemma at_name_inj n n' : proper n -> proper n' -> at_name n = at_name n' -> n = n'.
Proof. intros Hn Hn' Heq. apply app_inv_head in Heq. by apply proper_inj. Qed.

Lemma at_name_root n : proper n -> at_name n <> D.
Proof.
  intros Hn Heq. destruct (proper_nonempty n Hn) as [_ He]. apply He. apply (app_inv_head D). by rewrite app_nil_r.
Qed.

Lemma kinds e : regular e = true -> directory e = false.
Proof. unfold regular, directory. by destruct (th_Typeflag (te_header e)). Qed.

Lemma is_dir_at (fs : disk) p : p <> [] -> is_dir fs p = true -> exists a, fs !! p = Some (FDir a).
Proof. destruct p as [|d p]; [done|]. intros _. cbn. destruct (fs !! (d :: p)) as [[a|]|]; [|done..]. intros _. by exists a. Qed.

Lemma removelast_prefix {A} (l : list A) : removelast l `prefix_of` l.
Proof.
  destruct l as [|a l _] using rev_ind; [done|]. rewrite removelast_app by done. cbn. rewrite app_nil_r. by apply prefix_app_r.
Qed.

Lemma made_below name (p : list string) (node : fnode) (fs fs' : disk) : p <> [] -> (made (removelast (at_name name)) fs fs' \/ made (at_name name) fs fs') ->
  fs' !! (D ++ p) = Some node ->
  fs !! (D ++ p) = Some node \/ p `prefix_of` path_elements name /\ exists a, node = FDir a.
Proof.
  intros Hp Hm Hl. assert (fs !! (D ++ p) = Some node \/ (D ++ p) `prefix_of` at_name name /\ exists a, node = FDir a) as H.
  { destruct Hm as [Hm|Hm]; destruct (Hm _ _ Hl) as [?|(_ & Hpre & ?)]; [by left| |by left|by right]. right. split; [|done].
    etrans; [done|]. apply removelast_prefix. }
  destruct H as [?|[Hpre ?]]; [by left|right]. split; [|done]. by apply prefix_app_inv in Hpre.
Qed.

Section step.
Context (done : list (string * tarEntry)) (x : extraction) (fs : disk) (name : string) (e : tarEntry) (x' : extraction) (fs' : disk).
Hypothesis HI : extracted_so_far done x fs.
Hypothesis Hl : limits_ok limits.
Hypothesis Had : admitted name x e.
Hypothesis Hcount : counted name x e x'.

Lemma step_total : 0 <= ex_total x' <= lm_MaxTotalBytes limits /\ 0 <= entry_size e.
Proof.
  destruct Hcount as (_ & -> & _). destruct Had as [_ _ _ _ Hs]. pose proof (es_total _ _ _ HI) as Ht.
  apply over_limit_false in Hs as [Hs Hsum]; [|done|done]. rewrite int64_id by (destruct Hl as (_ & _ & ?); lia). lia.
Qed.

Lemma step_new : name ∉ done.*1.
Proof. rewrite <- (es_seen _ _ _ HI). apply Had. Qed.

Lemma step_other n e0 : (n, e0) ∈ done -> at_name n <> at_name name.
Proof.
  intros Hin Heq. apply at_name_inj in Heq; [|by eapply es_names|apply Had]. subst. apply step_new.
  by apply (list_elem_of_fmap_2 fst done (name, e0)).
Qed.

Lemma step_names n e0 : regular e = true \/ directory e = true -> (n, e0) ∈ done ++ [(name, e)] ->
  proper n /\ validateArchiveName (th_Name (te_header e0)) = Ok n /\ (regular e0 = true \/ directory e0 = true).
Proof.
  intros Hk [Hin|[= -> ->]%list_elem_of_singleton]%elem_of_app; [by eapply es_names|]. by split_and!; try apply Had.
Qed.

Lemma step_seen n : n ∈ ex_seen x' <-> n ∈ (done ++ [(name, e)]).*1.
Proof.
  destruct Hcount as (-> & _). rewrite fmap_app, elem_of_app, elem_of_union, elem_of_singleton, (es_seen _ _ _ HI).
  cbn. rewrite list_elem_of_singleton. tauto.
Qed.

Lemma step_nodup : NoDup (done ++ [(name, e)]).*1.
Proof.
  rewrite fmap_app. apply NoDup_app. split_and!; [by eapply es_nodup| |apply NoDup_singleton].
  intros n Hn ->%list_elem_of_singleton. by apply step_new.
Qed.

Lemma step_in n e0 : (n, e0) ∈ done ++ [(name, e)] <-> (n, e0) ∈ done \/ (n = name /\ e0 = e).
Proof. rewrite elem_of_app, list_elem_of_singleton. naive_solver. Qed.
End step.

Lemma file_step done x fs name e x' fs' : extracted_so_far done x fs -> limits_ok limits -> admitted name x e ->
  counted name x e x' -> regular e = true -> wrote_file name x e fs x' fs' -> extracted_so_far (done ++ [(name, e)]) x' fs'.
Proof.
  intros HI Hl Had Hc Hreg (fs1 & Hsub & Hmade & Hnone & -> & Hlen & _ & Hds & Hob & Hmf & Hix).
  pose proof (kinds e Hreg) as Hnd. pose proof (ad_proper _ _ _ Had) as Hp.
  assert (forall n e0, (n, e0) ∈ done -> at_name n <> at_name name) as Hne by (intros; by eapply step_other).
  assert (forall n, n ∈ done.*1 -> n <> name) as Hdn.
  { intros n Hn ->. by eapply step_new. }
  assert (forall n e0, (n, e0) ∈ done -> n <> name) as Hdn'.
  { intros n e0 Hin. apply Hdn. by apply (list_elem_of_fmap_2 fst done (n, e0)). }
  split.
  - by eapply step_total.
  - intros n e0. by eapply step_names; eauto.
  - intros n. by eapply step_seen.
  - by eapply step_nodup.
  - intros n e0 [Hin|[-> ->]]%step_in Hr; [|by rewrite lookup_insert_eq].
    rewrite lookup_insert_ne by (intros Heq; by eapply Hne). destruct (es_files _ _ _ HI n e0 Hin Hr) as [Hf ?].
    split; [by eapply lookup_weaken|done].
  - intros n e0 [Hin|[-> ->]]%step_in Hr; [|congruence].
    rewrite lookup_insert_ne by (intros Heq; by eapply Hne). destruct (es_dirs _ _ _ HI n e0 Hin Hr) as [a Ha].
    exists a. by eapply lookup_weaken.
  - intros p node Hnode Hpn. destruct (decide (p = path_elements name)) as [->|Hpe].
    { exists name, e. split_and!; [by apply step_in; right|done|done]. }
    rewrite lookup_insert_ne in Hnode by (intros Heq; by apply app_inv_head in Heq).
    destruct (made_below name p node fs fs1 Hpn (or_introl Hmade) Hnode) as [Hold|[Hpre [a ->]]].
    + destruct (es_only _ _ _ HI p node Hold Hpn) as (n & e0 & Hin & ? & ?). exists n, e0. split_and!; [|done|done]. apply step_in. by left.
    + exists name, e. split_and!; [by apply step_in; right|done|done].
  - destruct (es_root _ _ _ HI) as [a Ha]. exists a. rewrite lookup_insert_ne by (by apply at_name_root). by eapply lookup_weaken.
  - intros n c. rewrite Hob. setoid_rewrite step_in. destruct (decide (name = index_name)) as [Hi|Hi].
    + rewrite lookup_delete_Some, (es_observed _ _ _ HI). split.
      * intros (_ & e0 & ? & ? & ? & ?). exists e0. by split_and!; [left|..].
      * intros (e0 & [?|[-> _]] & ? & ? & ?); [|by subst]. split; [by subst|]. by exists e0.
    + rewrite lookup_insert_Some, (es_observed _ _ _ HI). split.
      * intros [[<- <-]|(_ & e0 & ? & ? & ? & ?)]; [exists e; by split_and!; [right|..]|exists e0; by split_and!; [left|..]].
      * intros (e0 & [Hin|[-> ->]] & Hr & Hn & ->); [right|by left].
        split; [by apply not_eq_sym, (Hdn' n e0)|]. by exists e0.
  - rewrite Hds, (es_directories _ _ _ HI), filter_app, filter_cons_False, app_nil_r; [done|]. cbn. by rewrite Hnd.
  - intros e0 [Hin|[<- ->]]%step_in Hr; rewrite Hmf; [|by rewrite decide_True].
    rewrite decide_False; [by eapply es_manifest|]. apply not_eq_sym. by eapply Hdn'.
  - intros e0 [Hin|[<- ->]]%step_in Hr; rewrite Hix; [|by rewrite decide_True].
    rewrite decide_False; [by eapply es_index|]. apply not_eq_sym. by eapply Hdn'.
  - rewrite Hmf. destruct (decide (name = manifest_name)) as [Hm|Hm].
    { intros _. exists e. split; [|done]. apply step_in. right. split; [by subst|done]. }
    intros (e0 & ? & ?)%(es_no_manifest _ _ _ HI). exists e0. rewrite step_in. auto.
  - rewrite Hix. destruct (decide (name = index_name)) as [Hm|Hm].
    { intros _. exists e. split; [|done]. apply step_in. right. split; [by subst|done]. }
    intros (e0 & ? & ?)%(es_no_index _ _ _ HI). exists e0. rewrite step_in. auto.
Qed.

Lemma directory_step done x fs name e x' fs' : extracted_so_far done x fs -> limits_ok limits -> admitted name x e ->
  counted name x e x' -> directory e = true -> made_directory name x e fs x' fs' -> extracted_so_far (done ++ [(name, e)]) x' fs'.
Proof.
  intros HI Hl Had Hc Hdir (Hsub & Hmade & Hd & Hds & Hob & Hmf & Hix).
  assert (regular e = false) as Hnr by (apply not_true_is_false; intros ?%kinds; congruence).
  pose proof (ad_proper _ _ _ Had) as Hp. split.
  - by eapply step_total.
  - intros n e0. by eapply step_names; eauto.
  - intros n. by eapply step_seen.
  - by eapply step_nodup.
  - intros n e0 [Hin|[-> ->]]%step_in Hr; [|congruence]. destruct (es_files _ _ _ HI n e0 Hin Hr) as [Hf ?].
    split; [by eapply lookup_weaken|done].
  - intros n e0 [Hin|[-> ->]]%step_in Hr; [|apply is_dir_at; [|done]; intros Heq; by apply app_nil in Heq as [? _]].
    destruct (es_dirs _ _ _ HI n e0 Hin Hr) as [a Ha]. exists a. by eapply lookup_weaken.
  - intros p node Hnode Hpn. destruct (made_below name p node fs fs' Hpn (or_intror Hmade) Hnode) as [Hold|[Hpre [a ->]]].
    + destruct (es_only _ _ _ HI p node Hold Hpn) as (n & e0 & Hin & ? & ?). exists n, e0. split_and!; [|done|done]. apply step_in. by left.
    + exists name, e. split_and!; [by apply step_in; right|done|done].
  - destruct (es_root _ _ _ HI) as [a Ha]. exists a. by eapply lookup_weaken.
  - intros n c. rewrite Hob, (es_observed _ _ _ HI). setoid_rewrite step_in. split; [naive_solver|].
    intros (e0 & [?|[-> ->]] & ? & ? & ?); [naive_solver|congruence].
  - rewrite Hds, (es_directories _ _ _ HI), filter_app, filter_cons_True, filter_nil, map_app by done. done.
  - intros e0 [Hin|[_ ->]]%step_in Hr; [|congruence]. rewrite Hmf. by eapply es_manifest.
  - intros e0 [Hin|[_ ->]]%step_in Hr; [|congruence]. rewrite Hix. by eapply es_index.
  - rewrite Hmf. intros (e0 & ? & ?)%(es_no_manifest _ _ _ HI). exists e0. rewrite step_in. auto.
  - rewrite Hix. intros (e0 & ? & ?)%(es_no_index _ _ _ HI). exists e0. rewrite step_in. auto.
Qed.

(** The whole loop; it accepts what the measurement accepts. *)
Lemma loop_Ok last_ es done x fs x' fs' : extracted_so_far done x fs -> limits_ok limits ->
  extract_loop digest fails self limits destination preserve last_ es x fs = (Ok x', fs') ->
  last_ = None /\ measure_loop limits last_ es (ex_seen x) (ex_total x) (ex_entries x) = Ok (ex_total x', ex_entries x') /\
  exists names, length names = length es /\ extracted_so_far (done ++ zip names es) x' fs'.
Proof.
  revert done x fs. induction es as [|e es IH]; intros done x fs HI Hl; cbn.
  - destruct last_; [done|]. intros [= <- <-]. split_and!; [done|done|]. exists []. by rewrite app_nil_r.
  - intros H. apply ibind_Ok in H as (x1 & fs1 & H1 & H).
    apply entry_Ok in H1 as (name & Had & Hc & Hk); [|by eapply es_total|done].
    assert (extracted_so_far (done ++ [(name, e)]) x1 fs1) as HI1
      by (destruct Hk as [[? ?]|[? ?]]; [by eapply file_step|by eapply directory_step]).
    destruct (IH _ _ _ HI1 Hl H) as (Hlast & Hm & names & Hlen & HI2). split_and!; [done| |].
    + destruct Had as [Hn _ Hnew Hent Hover]. destruct Hc as (Hs & Ht & He).
      rewrite decide_False by lia. rewrite Hn, decide_False by done. rewrite decide_False.
      2: { intros Hf. destruct Hk as [[Hr _]|[Hr%bool_decide_eq_true_1 _]]; unfold regular in *; rewrite Hf in Hr; done. }
      unfold entry_size in *. rewrite decide_False by (rewrite Hover; done). by rewrite <- Hs, <- Ht, <- He.
    + exists (name :: names). split; [cbn; by f_equal|]. cbn. by rewrite <- app_assoc in HI2.
Qed.
End entries.

(** The new directory, before the first entry. *)
Lemma empty_extraction `{ArchiveCodec} digest self destination limits preserve (fs : disk) :
  path_elements (Clean destination) <> [] ->
  (forall p, path_elements (Clean destination) `prefix_of` p -> fs !! p = None) -> 0 < lm_MaxTotalBytes limits ->
  extracted_so_far digest self destination limits preserve [] no_extraction
    (<[path_elements (Clean destination) := FDir (new_attributes self 448)]> fs).
Proof.
  intros Hroot Hnone Hpos. assert (forall n e, (n, e) ∈ @nil (string * tarEntry) -> False) as Hnil by (intros n e; apply not_elem_of_nil).
  split; cbn; try (intros n e Hin; by apply Hnil in Hin); try (intros e Hin; by apply Hnil in Hin); try done.
  - lia.
  - intros n. split; [set_solver|]. intros Hin. by apply not_elem_of_nil in Hin.
  - constructor.
  - intros p node Hnode Hp. exfalso. rewrite lookup_insert_ne, Hnone in Hnode; [done|by apply prefix_app_r|].
    intros Heq. apply Hp, (app_inv_head (path_elements (Clean destination))). by rewrite app_nil_r.
  - eexists. by rewrite lookup_insert_eq.
  - intros n c. rewrite lookup_empty. split; [done|]. intros (e & Hin & _). by apply Hnil in Hin.
Qed.

(** ** The directories' attributes *)
Section finish.
Context (fails : disk_call -> option error) (preserve : bool).

Definition finished_attributes (d : extractedDirectory) (a : attributes) : attributes :=
  {| at_Mode := xd_mode d; at_Owner := if preserve then (xd_uid d, xd_gid d) else at_Owner a; at_ModTime := Some (xd_modTime d) |}.

Definition directory_path (d : extractedDirectory) : list string := path_elements (xd_name d).

Lemma directories_finished ds fs u fs' : NoDup (directory_path <$> ds) -> finish_directories fails preserve ds fs = (Ok u, fs') ->
  (forall q, q ∉ directory_path <$> ds -> fs' !! q = fs !! q) /\
  (forall d, d ∈ ds -> exists n, fs !! directory_path d = Some n /\
     fs' !! directory_path d = Some (on_attributes (finished_attributes d) n)).
Proof.
  revert fs. induction ds as [|d ds IH]; intros fs Hnd.
  { intros [= <- <-]. split; [done|]. intros d Hd. by apply not_elem_of_nil in Hd. }
  rewrite fmap_cons, NoDup_cons in Hnd. destruct Hnd as [Hn Hnd]. cbn [finish_directories]. fold (directory_path d). intros H.
  apply ibind_Ok in H as ([] & fs1 & H1 & H). apply attempt_Ok in H1 as [_ H1]. apply change_Ok in H1 as (n1 & Hn1 & ->).
  apply ibind_Ok in H as ([] & fs2 & H2 & H). apply attempt_Ok in H2 as [_ H2]. apply change_Ok in H2 as (n2 & Hn2 & ->).
  rewrite lookup_insert_eq in Hn2. injection Hn2 as <-. rewrite insert_insert_eq in H.
  apply ibind_Ok in H as ([] & fs3 & H3 & H).
  assert (fs3 = <[directory_path d := on_attributes (finished_attributes d) n1]> fs) as ->.
  { destruct preserve eqn:Hpr.
    - apply attempt_Ok in H3 as [_ H3]. apply change_Ok in H3 as (n3 & Hn3 & ->). rewrite lookup_insert_eq in Hn3.
      injection Hn3 as <-. rewrite insert_insert_eq. unfold finished_attributes. rewrite Hpr. by destruct n1.
    - injection H3 as <-. unfold finished_attributes. rewrite Hpr. by destruct n1. }
  destruct (IH _ Hnd H) as [Hout Hin]. split.
  - intros q Hq. rewrite fmap_cons, not_elem_of_cons in Hq. destruct Hq as [Hq1 Hq2].
    rewrite Hout by done. by rewrite lookup_insert_ne.
  - intros d' [->|Hd']%elem_of_cons.
    + exists n1. split; [done|]. rewrite Hout by done. by rewrite lookup_insert_eq.
    + destruct (Hin d' Hd') as (n & Hn' & ?). exists n. split; [|done]. rewrite lookup_insert_ne in Hn'; [done|].
      intros Heq. apply Hn. rewrite Heq. by apply (list_elem_of_fmap_2 directory_path).
Qed.
End finish.

Lemma unique_name {A} (l : list (string * A)) n a a' : NoDup (l.*1) -> (n, a) ∈ l -> (n, a') ∈ l -> a = a'.
Proof.
  intros Hnd [i Hi]%list_elem_of_lookup [i' Hi']%list_elem_of_lookup. assert (i = i') as ->; [|congruence].
  eapply (NoDup_lookup (l.*1)); [done| |]; by rewrite list_lookup_fmap, ?Hi, ?Hi'.
Qed.

(** ** A successful extraction *)
Section success.
Context `{Codec : ArchiveCodec} (digest : string -> string) (fails : disk_call -> option error) (self : Z * Z).
Context (destination : string) (options : ExtractOptions).
Notation D := (path_elements (Clean destination)).
Notation at_ := (at_name destination).
Notation preserve := (eo_PreserveOwnership options).

(** A directory with the attributes of its entry. *)
Definition directory_like (e : tarEntry) (node : fnode) : Prop :=
  exists a, node = FDir a /\ at_Mode a = Perm (th_Mode (te_header e)) /\ at_ModTime a = Some (th_ModTime (te_header e)) /\
    (preserve = true -> at_Owner a = (th_Uid (te_header e), th_Gid (te_header e))).

Record extracted_archive (done : list (string * tarEntry)) (x : extraction) (fs' : disk) : Prop := {
  ea_names n e : (n, e) ∈ done -> proper n /\ validateArchiveName (th_Name (te_header e)) = Ok n /\
    (regular e = true \/ directory e = true);
  ea_nodup : NoDup (done.*1);
  ea_files n e : (n, e) ∈ done -> regular e = true ->
    fs' !! at_ n = Some (FFile (entry_attributes self preserve e) (file_contents e)) /\ entry_size e <= size_of (te_contents e);
  ea_dirs n e : (n, e) ∈ done -> directory e = true -> exists node, fs' !! at_ n = Some node /\ directory_like e node;
  ea_only p a c : fs' !! (D ++ p) = Some (FFile a c) -> exists n e, (n, e) ∈ done /\ regular e = true /\ p = path_elements n;
  ea_observed n c : ex_observed x !! n = Some c <->
    exists e, (n, e) ∈ done /\ regular e = true /\ n <> index_name /\
      c = observed_entry n (digest (file_contents e)) (te_header e);
  ea_manifest e : (manifest_name, e) ∈ done -> regular e = true -> ex_manifest x = captured_contents e;
  ea_index e : (index_name, e) ∈ done -> regular e = true -> ex_checksums x = captured_contents e
}.

Lemma directory_path_of n e : IsAbs destination = true -> proper n -> directory_path (directory_of destination n e) = at_ n.
Proof. intros Ha Hp. unfold directory_path, directory_of. cbn [xd_name]. by rewrite target_elements. Qed.

Lemma finish_archive limits done x fs fs' u : IsAbs destination = true -> D <> [] ->
  extracted_so_far digest self destination limits preserve done x fs ->
  finish_directories fails preserve (rev (ex_directories x)) fs = (Ok u, fs') -> extracted_archive done x fs'.
Proof.
  intros Ha Hroot HI Hf. rewrite (es_directories _ _ _ _ _ _ _ _ HI) in Hf.
  set (ds := filter (fun ne : string * tarEntry => directory ne.2 = true) done) in Hf.
  assert (forall ne, ne ∈ ds -> ne ∈ done /\ directory ne.2 = true) as Hds by (intros ne Hin; by apply list_elem_of_filter in Hin as [? ?]).
  assert (forall n e, (n, e) ∈ done -> proper n) as Hp
    by (intros n e Hin; by destruct (es_names _ _ _ _ _ _ _ _ HI n e Hin)).
  assert (directory_path <$> map (fun ne => directory_of destination ne.1 ne.2) ds = (fun ne => at_ ne.1) <$> ds) as Hpaths.
  { rewrite <- list_fmap_compose. apply list_fmap_ext. intros i [n e] Hi.
    change (directory_path (directory_of destination n e) = at_ n). apply directory_path_of; [done|].
    apply list_elem_of_lookup_2, Hds in Hi as [Hi _]. by eapply Hp. }
  assert (NoDup (directory_path <$> rev (map (fun ne => directory_of destination ne.1 ne.2) ds))) as Hnd.
  { rewrite <- (Permutation_rev (map _ ds)), Hpaths. apply NoDup_fmap_2_strong.
    - intros [n e] [n' e'] [Hin _]%Hds [Hin' _]%Hds Heq. cbn in *. apply at_name_inj in Heq; [|by eapply Hp..]. subst n'. f_equal.
      eapply unique_name; [by eapply es_nodup|done|done].
    - apply NoDup_filter. eapply NoDup_fmap_1, es_nodup, HI. }
  destruct (directories_finished fails preserve _ _ _ _ Hnd Hf) as [Hout Hin].
  assert (forall q, (forall n e, (n, e) ∈ done -> directory e = true -> q <> at_ n) -> fs' !! q = fs !! q) as Hsame.
  { intros q Hq. apply Hout. rewrite <- (Permutation_rev (map _ ds)), Hpaths. intros ([n e] & -> & Hi)%list_elem_of_fmap.
    apply Hds in Hi as [? ?]. by eapply Hq. }
  assert (forall q a c, fs' !! q = Some (FFile a c) -> exists a0, fs !! q = Some (FFile a0 c)) as Hkind.
  { intros q a c Hq. destruct (decide (q ∈ directory_path <$> rev (map (fun ne => directory_of destination ne.1 ne.2) ds))) as [Hm|Hm].
    - apply list_elem_of_fmap in Hm as (d & -> & Hd). destruct (Hin d Hd) as ([a0|a0 c0] & Hn & Hq'); rewrite Hq in Hq'; [done|].
      injection Hq' as _ ->. by exists a0.
    - exists a. by rewrite <- Hout. }
  split.
  - intros n e Hin'. by eapply es_names.
  - by eapply es_nodup.
  - intros n e Hn Hr. rewrite Hsame; [by eapply es_files|]. intros n' e' Hn' Hd' Heq.
    apply at_name_inj in Heq; [|by eapply Hp..]. subst n'. pose proof (kinds e Hr).
    assert (e = e') by (eapply unique_name; [by eapply es_nodup|done|done]). congruence.
  - intros n e Hn Hd. destruct (es_dirs _ _ _ _ _ _ _ _ HI n e Hn Hd) as [a Ha'].
    destruct (Hin (directory_of destination n e)) as (node & Hnode & Hfin).
    { rewrite <- (Permutation_rev (map _ ds)). apply (list_elem_of_fmap_2 (fun ne => directory_of destination ne.1 ne.2) ds (n, e)).
      by apply list_elem_of_filter. }
    rewrite directory_path_of in * by (done || by eapply Hp). rewrite Ha' in Hnode. injection Hnode as <-.
    eexists. split; [exact Hfin|]. eexists. split_and!; [done|done|done|]. intros Hpr. cbn. by rewrite Hpr.
  - intros p a c Hfile. destruct (decide (p = [])) as [->|Hne].
    { exfalso. rewrite app_nil_r in Hfile. destruct (es_root _ _ _ _ _ _ _ _ HI) as [a' Ha']. rewrite Hsame in Hfile; [congruence|].
      intros n e Hn _ Heq. symmetry in Heq. by eapply at_name_root, Heq; eapply Hp. }
    destruct (Hkind _ _ _ Hfile) as [a0 Hfs]. destruct (es_only _ _ _ _ _ _ _ _ HI p _ Hfs Hne) as (n & e & Hn & _ & Hend).
    destruct (Hend a0 c eq_refl) as [-> ?]. by exists n, e.
  - intros n c. by eapply es_observed.
  - intros e. by eapply es_manifest.
  - intros e. by eapply es_index.
Qed.

(** What a successful run went through. *)
Lemma Extract_Ok archivePath stream fs result fs' : limits_ok (eo_Limits options) ->
  (forall p, D `prefix_of` p -> fs !! p = None) ->
  Extract digest fails self archivePath destination stream options fs = (Ok result, fs') ->
  exists s names x, stream = Ok s /\ ts_end s = None /\ length names = length (ts_entries s) /\
    extracted_archive (zip names (ts_entries s)) x fs' /\ verified x = Ok result /\
    Measure archivePath stream (eo_Limits options) = Ok (ex_total x, ex_entries x).
Proof.
  intros Hl Hnone. unfold Extract. case_decide as Ha; [done|]. apply Decidable.not_or in Ha as [Hap Ha].
  apply not_false_is_true in Ha, Hap. intros H. apply ibind_Ok in H as ([] & fs1 & H1 & H).
  pose proof (mkdir_cases fails self D fs) as Hm. unfold iwrap in H1.
  destruct (mkdir _ _ _ fs) as [[[]|e] fs2]; [|done]. injection H1 as ->. destruct Hm as (-> & Hroot & HD).
  destruct (extract_into _ _ _ _ _ _ _) as [[r|e] fs3] eqn:Hx; [|done]. injection H as -> ->.
  unfold extract_into in Hx. apply ibind_Ok in Hx as (s & fs4 & Hs & Hx). injection Hs as -> <-.
  apply ibind_Ok in Hx as (x & fs5 & Hloop & Hx). apply ibind_Ok in Hx as (r & fs6 & Hv & Hx). injection Hv as Hv <-.
  apply ibind_Ok in Hx as ([] & fs7 & Hfin & Hx). injection Hx as -> ->.
  destruct (effective_positive (eo_Limits options) Hl) as (Hle & ? & ? & ?).
  assert (extracted_so_far digest self destination (effective (eo_Limits options)) preserve [] no_extraction
    (<[D := FDir (new_attributes self 448)]> fs)) as HI.
  { apply empty_extraction; [done|done|lia]. }
  destruct (loop_Ok digest fails self destination _ preserve Ha Hroot _ _ _ _ _ _ _ HI Hle Hloop) as (Hlast & Hmeas & names & Hlen & HI').
  exists s, names, x. split_and!; [done|done|done| |done|].
  - by eapply finish_archive.
  - unfold Measure. rewrite decide_False by (by rewrite Hap). exact Hmeas.
Qed.
End success.

(** ** The checksum index *)
Lemma checksum_range observed items seen seen' :
  (forall n c, observed !! n = Some c -> ce_Path c = n) ->
  range (checksum_step observed) seen items = Ok seen' ->
  (forall item, item ∈ items -> observed !! ce_Path item = Some item) /\ NoDup (ce_Path <$> items) /\
  (forall n, n ∈ seen -> n ∉ ce_Path <$> items).
Proof.
  intros Hkey. revert seen. induction items as [|item items IH]; intros seen.
  { intros _. split_and!; [intros i Hi; by apply not_elem_of_nil in Hi|constructor|intros n _; apply not_elem_of_nil]. }
  cbn [range]. destruct (checksum_step observed seen item) as [seen1|e] eqn:Hs; [|done]. intros H.
  unfold checksum_step in Hs. case_decide as Hbad; [done|]. apply Decidable.not_or in Hbad as [_ Hbad].
  apply Decidable.not_or in Hbad as [Hnew _]. destruct (observed !! ce_Path item) as [got|] eqn:Hgot; [|done].
  case_decide as Hne; [done|]. injection Hs as <-. destruct (IH _ H) as (Hall & Hnd & Hout).
  assert (got = item) as ->.
  { pose proof (Hkey _ _ Hgot) as Hk. destruct got, item; cbn in *. repeat (apply Decidable.not_or in Hne as [? Hne]).
    f_equal; first [done | by apply dec_stable]. }
  split_and!.
  - intros i [->|Hi]%elem_of_cons; auto.
  - rewrite fmap_cons, NoDup_cons. split; [|done]. apply Hout. set_solver.
  - intros n Hn. rewrite fmap_cons, not_elem_of_cons. split; [|apply Hout; set_solver]. by intros ->.
Qed.

(** The index lists what was observed and nothing else. *)
Lemma verified_index index observed : (forall n c, observed !! n = Some c -> ce_Path c = n) ->
  verifyChecksums index observed = Ok tt ->
  forall c, c ∈ ci_Files index <-> observed !! ce_Path c = Some c.
Proof.
  intros Hkey Hv. unfold verifyChecksums in Hv. case_decide as Hbad; [done|]. apply Decidable.not_or in Hbad as [_ Hlen].
  apply dec_stable in Hlen. destruct (range _ _ _) as [seen|] eqn:Hr; [|done].
  destruct (checksum_range _ _ _ _ Hkey Hr) as (Hall & Hnd & _). intros c. split; [apply Hall|]. intros Hc.
  assert (list_to_set (ce_Path <$> ci_Files index) = dom observed) as Hdom.
  { apply leibniz_equiv, set_subseteq_size_equiv.
    - intros n (i & -> & Hi)%elem_of_list_to_set%list_elem_of_fmap. apply elem_of_dom. exists i. by apply Hall.
    - rewrite size_list_to_set, length_fmap, Hlen by done. by rewrite size_dom. }
  assert (ce_Path c ∈ dom observed) as Hin by (apply elem_of_dom; by exists c). rewrite <- Hdom in Hin.
  apply elem_of_list_to_set, list_elem_of_fmap in Hin as (i & Hp & Hi). pose proof (Hall i Hi) as Hi'. rewrite <- Hp, Hc in Hi'.
  injection Hi' as ->. done.
Qed.

Lemma verified_Ok `{ArchiveCodec} x r : verified x = Ok r ->
  ValidateArchiveManifest (er_Manifest r) = Ok tt /\ verifyChecksums (er_Checksums r) (ex_observed x) = Ok tt /\
  strictJSON jc_decode_manifest (ex_manifest x) = Ok (er_Manifest r) /\
  strictJSON jc_decode_index (ex_checksums x) = Ok (er_Checksums r).
Proof.
  unfold verified, wrapped. case_decide; [done|]. destruct (strictJSON _ (ex_manifest x)) as [m|]; [|done]. cbn [rbind].
  destruct (ValidateArchiveManifest m) as [[]|] eqn:Hm; [|done]. cbn [rbind].
  destruct (strictJSON _ (ex_checksums x)) as [index|]; [|done]. cbn [rbind].
  destruct (verifyChecksums index _) as [[]|] eqn:Hc; [|done]. by intros [= <-].
Qed.

Lemma length_substring n s : String.length (String.substring 0 n s) = (n `min` String.length s)%nat.
Proof. revert n. induction s as [|c s IH]; intros [|n]; [done..|]. cbn. by rewrite IH. Qed.

Lemma size_file e : 0 <= entry_size e <= size_of (te_contents e) -> size_of (file_contents e) = entry_size e.
Proof. intros H. unfold size_of, file_contents in *. rewrite length_substring. lia. Qed.

Lemma whole_substring s : String.substring 0 (String.length s) s = s.
Proof. induction s as [|c s IH]; [done|]. cbn. by rewrite IH. Qed.

Lemma whole_file e : entry_size e = size_of (te_contents e) -> file_contents e = te_contents e.
Proof. intros H. unfold file_contents. rewrite H. unfold size_of. rewrite Nat2Z.id. apply whole_substring. Qed.

(** * When an extraction succeeds

    On a disk that answers, an archive whose names are proper, distinct and not
    below a file, and which is within the limits, is extracted. *)

Lemma parent_shorter {A} (l r : list A) : r <> [] -> ~ (l ++ r) `prefix_of` (l ++ removelast r).
Proof.
  intros Hr Hp%prefix_length. destruct r as [|a r _] using rev_ind; [done|].
  rewrite removelast_last, !length_app in Hp. cbn in Hp. lia.
Qed.

Section success.
Context `{Codec : ArchiveCodec} (digest : string -> string) (fails : disk_call -> option error) (self : Z * Z).
Hypothesis Hquiet : forall c, fails c = None.

Lemma attempt_quiet {A : Type} c (k : io disk A) fs : attempt fails c k fs = k fs.
Proof. unfold attempt. by rewrite Hquiet. Qed.

Lemma place_free p n (fs : disk) : p <> [] -> fs !! p = None -> is_dir fs (removelast p) = true ->
  place p n fs = (Ok tt, <[p := n]> fs).
Proof. intros Hp Hn Hd. unfold place. destruct p as [|d p]; [done|]. by rewrite Hn, Hd. Qed.

Lemma MkdirAll_succeeds D es (fs : disk) : (exists a, fs !! D = Some (FDir a)) ->
  (forall q a c, q `prefix_of` es -> q <> [] -> fs !! (D ++ q) <> Some (FFile a c)) ->
  exists fs', MkdirAll fails self (D ++ es) fs = (Ok tt, fs').
Proof.
  intros [aD HD]. unfold MkdirAll. induction es as [|e es IH] using rev_ind; intros Hq.
  - rewrite app_nil_r. exists fs. destruct (rev D) as [|d r] eqn:E1; cbn [mkdir_all]; by rewrite <- E1, rev_involutive, HD.
  - rewrite app_assoc, rev_app_distr. cbn [rev app mkdir_all]. rewrite rev_involutive, <- app_assoc.
    destruct (fs !! (D ++ es ++ [e])) as [[a|a c]|] eqn:E1; [by exists fs| |].
    { exfalso. by eapply (Hq (es ++ [e])), E1; [done|destruct es]. }
    destruct IH as [fs1 H1].
    { intros q a c Hpre Hne. apply Hq; [|done]. by apply prefix_app_r. }
    unfold ibind. rewrite H1. unfold mkdir. rewrite attempt_quiet.
    pose proof (MkdirAll_Ok fails self (D ++ es) fs tt fs1 H1) as (Hsub & Hmade & Hd).
    eexists. apply place_free.
    + by destruct D, es.
    + destruct (fs1 !! (D ++ es ++ [e])) as [n|] eqn:E2; [|done]. exfalso.
      destruct (Hmade _ _ E2) as [?|(_ & Hpre & _)]; [congruence|]. apply prefix_length in Hpre. rewrite !length_app in Hpre. cbn in Hpre. lia.
    + by rewrite app_assoc, removelast_last.
Qed.

Lemma extractRegular_succeeds e target preserve (fs : disk) : target <> [] -> fs !! target = None ->
  is_dir fs (removelast target) = true -> entry_size e <= size_of (te_contents e) ->
  exists got fs', extractRegular digest fails self e target preserve fs = (Ok got, fs').
Proof.
  intros Ht Hn Hd Hs. unfold extractRegular, ibind. rewrite Hquiet, Hn, attempt_quiet, place_free by done.
  unfold copy_contents, Chmod, Chtimes, Chown, change. rewrite !attempt_quiet, decide_False by (unfold entry_size in Hs; lia).
  rewrite lookup_insert_eq. rewrite attempt_quiet, lookup_insert_eq. rewrite attempt_quiet, lookup_insert_eq.
  destruct preserve; [rewrite attempt_quiet, lookup_insert_eq|]; by eexists _, _.
Qed.

Section entries.
Context (destination : string) (limits : ArchiveLimits) (preserve : bool).
Notation D := (path_elements (Clean destination)).
Hypothesis Habs : IsAbs destination = true.
Hypothesis Hroot : D <> [].
Hypothesis Hl : limits_ok limits.

(** An entry on its own. *)
Record acceptable (name : string) (e : tarEntry) : Prop := {
  ac_name : validateArchiveName (th_Name (te_header e)) = Ok name;
  ac_proper : proper name;
  ac_kind : regular e = true \/ directory e = true;
  ac_metadata : metadata_too_large name (entry_size e) = false;
  ac_size : 0 <= entry_size e <= lm_MaxFileBytes limits;
  ac_contents : regular e = true -> entry_size e <= size_of (te_contents e)
}.

(** No file is where a directory is needed. *)
Definition no_clash (all : list (string * tarEntry)) : Prop := forall n e n' e', (n, e) ∈ all -> (n', e') ∈ all -> regular e = true ->
  path_elements n `prefix_of` path_elements n' -> n = n'.

Lemma entry_succeeds done x fs name e :
  extracted_so_far digest self destination limits preserve done x fs -> acceptable name e -> name ∉ done.*1 ->
  no_clash (done ++ [(name, e)]) -> ex_entries x + 1 <= lm_MaxEntries limits ->
  ex_total x + entry_size e <= lm_MaxTotalBytes limits ->
  exists x' fs', extract_entry digest fails self limits destination preserve x e fs = (Ok x', fs').
Proof.
  intros HI [Hv Hp Hk Hmeta Hs Hc] Hnew Hclash Hent Htot. unfold extract_entry.
  rewrite decide_False by (cbn; lia). rewrite Hv. rewrite decide_False by (cbn; by rewrite (es_seen _ _ _ _ _ _ _ _ HI)).
  assert (over_limit limits (ex_total x) (entry_size e) = false) as Hover.
  { apply over_limit_false; [done|by eapply es_total|]. by split. }
  unfold entry_size in Hover, Hmeta. cbn [ex_total set set_ex_total set_ex_seen set_ex_entries extraction_eta]. rewrite Hover.
  rewrite within_proper by done. cbn [negb]. rewrite target_elements by done.
  assert (forall n0, n0 ∈ done.*1 -> n0 <> name) as Hdn by (intros n0 H0 ->; done).
  assert (forall q a c, q `prefix_of` path_elements name -> q <> [] -> fs !! (D ++ q) <> Some (FFile a c)) as Hfree.
  { intros q a c Hpre Hq Hf. destruct (es_only _ _ _ _ _ _ _ _ HI q _ Hf Hq) as (n0 & e0 & Hin & _ & Hend).
    destruct (Hend a c eq_refl) as [-> Hr]. apply (Hdn n0); [by apply (list_elem_of_fmap_2 fst done (n0, e0))|].
    eapply (Hclash n0 e0 name e); [apply elem_of_app; by left|apply elem_of_app; right; apply list_elem_of_here|done|done]. }
  pose proof (es_root _ _ _ _ _ _ _ _ HI) as HD. destruct (proper_nonempty name Hp) as [_ Hne].
  destruct (th_Typeflag (te_header e)) eqn:Hf; [..|unfold regular, directory in Hk; rewrite Hf in Hk; naive_solver].
  3: { destruct (MkdirAll_succeeds D (path_elements name) fs HD Hfree) as [fs1 H1]. unfold ibind. rewrite H1. by eexists _, _. }
  all: rewrite Hmeta; rewrite removelast_app by done;
    destruct (MkdirAll_succeeds D (removelast (path_elements name)) fs HD) as [fs1 H1];
    [intros q a c Hpre Hq; apply Hfree; [|done]; etrans; [done|]; apply removelast_prefix|];
    unfold ibind; rewrite H1; pose proof (MkdirAll_Ok fails self _ fs tt fs1 H1) as (Hsub & Hmade & Hd);
    destruct (extractRegular_succeeds e (D ++ path_elements name) preserve fs1) as (got & fs2 & H2);
    [intros [? ?]%app_nil; done| |by rewrite removelast_app|apply Hc; unfold regular; by rewrite Hf|rewrite H2; by eexists _, _].
  all: destruct (fs1 !! (D ++ path_elements name)) as [node|] eqn:E2; [|done]; exfalso;
    destruct (Hmade _ _ E2) as [Hold|(_ & Hpre & _)];
    [|by eapply parent_shorter, Hpre].
  all: destruct (es_only _ _ _ _ _ _ _ _ HI _ node Hold Hne) as (n0 & e0 & Hin & Hpre & _);
    apply (Hdn n0); [by apply (list_elem_of_fmap_2 fst done (n0, e0))|]; symmetry;
    eapply (Hclash name e n0 e0); [apply elem_of_app; right; apply list_elem_of_here|apply elem_of_app; by left| |done];
    unfold regular; by rewrite Hf.
Qed.

Lemma total_positive (todo : list (string * tarEntry)) : Forall (fun ne => acceptable ne.1 ne.2) todo -> 0 <= total_size (todo.*2).
Proof.
  induction 1 as [|[n e] todo Ha Hf IH]; [done|]. rewrite fmap_cons, total_size_cons. destruct Ha as [_ _ _ _ Hs _]. cbn in *. lia.
Qed.

Lemma no_clash_incl all all' : (forall ne, ne ∈ all' -> ne ∈ all) -> no_clash all -> no_clash all'.
Proof. intros Hi Hc n e n' e' H H'. apply (Hc n e n' e'); by apply Hi. Qed.

Lemma loop_succeeds todo done x fs : extracted_so_far digest self destination limits preserve done x fs ->
  Forall (fun ne => acceptable ne.1 ne.2) todo -> NoDup ((done ++ todo).*1) -> no_clash (done ++ todo) ->
  ex_entries x + Z.of_nat (length todo) <= lm_MaxEntries limits -> ex_total x + total_size (todo.*2) <= lm_MaxTotalBytes limits ->
  exists x' fs', extract_loop digest fails self limits destination preserve None (todo.*2) x fs = (Ok x', fs') /\
    extracted_so_far digest self destination limits preserve (done ++ todo) x' fs'.
Proof.
  revert done x fs. induction todo as [|[name e] todo IH]; intros done x fs HI Hacc Hnd Hclash Hent Htot.
  { exists x, fs. by rewrite app_nil_r. }
  pose proof (total_positive _ Hacc) as Hpos. apply Forall_cons in Hacc as [Ha Hacc]. cbn [fst snd] in Ha.
  pose proof (total_positive _ Hacc) as Hpos'. rewrite fmap_cons, total_size_cons in Htot, Hpos. cbn [fst snd length] in *.
  assert (name ∉ done.*1) as Hnew.
  { rewrite fmap_app in Hnd. apply NoDup_app in Hnd as (_ & Hd & _). intros Hin. apply (Hd name Hin). apply list_elem_of_here. }
  assert (no_clash (done ++ [(name, e)])) as Hc1.
  { eapply no_clash_incl, Hclash. intros ne. rewrite !elem_of_app, list_elem_of_singleton, elem_of_cons. tauto. }
  destruct (entry_succeeds done x fs name e HI Ha Hnew Hc1) as (x1 & fs1 & H1); [lia..|].
  destruct (entry_Ok digest fails self destination limits preserve Habs Hroot x e fs x1 fs1) as (name' & Had & Hcount & Hk); [by eapply es_total|done|done|].
  assert (name' = name) as -> by (destruct Had as [Hv _ _ _ _], Ha as [Hv' _ _ _ _ _]; congruence).
  assert (extracted_so_far digest self destination limits preserve (done ++ [(name, e)]) x1 fs1) as HI1
    by (destruct Hk as [[? ?]|[? ?]]; [by eapply file_step|by eapply directory_step]).
  assert (ex_entries x1 = ex_entries x + 1 /\ ex_total x1 = ex_total x + entry_size e) as [He1 Ht1].
  { destruct Hcount as (_ & Ht1 & He1). split; [done|]. rewrite Ht1. apply int64_id. pose proof (es_total _ _ _ _ _ _ _ _ HI).
    destruct Ha as [_ _ _ _ ? _], Hl as (_ & _ & ?). lia. }
  destruct (IH _ _ _ HI1 Hacc) as (x2 & fs2 & H2 & HI2); [by rewrite <- app_assoc|by rewrite <- app_assoc|lia|lia|].
  exists x2, fs2. rewrite <- app_assoc in HI2. split; [|exact HI2]. rewrite fmap_cons. cbn [snd extract_loop]. unfold ibind. by rewrite H1.
Qed.
End entries.

Lemma finish_succeeds preserve ds (fs : disk) : (forall d, d ∈ ds -> is_Some (fs !! directory_path d)) ->
  exists fs', finish_directories fails preserve ds fs = (Ok tt, fs').
Proof.
  revert fs. induction ds as [|d ds IH]; intros fs Hd; [by exists fs|]. cbn [finish_directories].
  destruct (Hd d) as [n Hn]; [apply list_elem_of_here|]. fold (directory_path d).
  unfold Chmod, Chtimes, Chown, change, ibind. rewrite attempt_quiet, Hn, attempt_quiet, lookup_insert_eq.
  assert (forall fs1 : disk, (forall q, q <> directory_path d -> fs1 !! q = fs !! q) -> is_Some (fs1 !! directory_path d) ->
    exists fs', finish_directories fails preserve ds fs1 = (Ok tt, fs')) as Hgo.
  { intros fs1 H1 H2. apply IH. intros d' Hd'. destruct (decide (directory_path d' = directory_path d)) as [->|Hne]; [done|].
    rewrite H1 by done. apply Hd. by apply list_elem_of_further. }
  destruct preserve; [rewrite attempt_quiet, lookup_insert_eq|]; apply Hgo;
    try (intros q Hq; by rewrite !lookup_insert_ne by (by apply not_eq_sym)); by rewrite lookup_insert_eq.
Qed.

(** The archive as a whole. *)
Lemma Extract_succeeds archivePath destination options all (fs : disk) :
  limits_ok (eo_Limits options) -> IsAbs archivePath = true -> IsAbs destination = true ->
  path_elements (Clean destination) <> [] -> (forall p, path_elements (Clean destination) `prefix_of` p -> fs !! p = None) ->
  is_dir fs (removelast (path_elements (Clean destination))) = true ->
  Forall (fun ne => acceptable (effective (eo_Limits options)) ne.1 ne.2) all -> NoDup (all.*1) -> no_clash all ->
  Z.of_nat (length all) <= lm_MaxEntries (effective (eo_Limits options)) ->
  total_size (all.*2) <= lm_MaxTotalBytes (effective (eo_Limits options)) ->
  (forall x fs', extracted_archive digest self destination options all x fs' -> exists r, verified x = Ok r) ->
  exists r x fs', Extract digest fails self archivePath destination (Ok {| ts_entries := all.*2; ts_end := None |}) options fs = (Ok r, fs') /\
    extracted_archive digest self destination options all x fs' /\ verified x = Ok r.
Proof.
  intros Hl Hap Ha Hroot Hnone Hpar Hacc Hnd Hclash Hent Htot Hver. unfold Extract.
  rewrite decide_False by (rewrite Ha, Hap; by intros [?|?]). unfold ibind at 1, iwrap, mkdir. rewrite attempt_quiet.
  rewrite place_free; [|done|by apply Hnone|done]. set (fs1 := <[_ := _]> fs).
  destruct (effective_positive (eo_Limits options) Hl) as (Hle & ? & ? & ?).
  assert (extracted_so_far digest self destination (effective (eo_Limits options)) (eo_PreserveOwnership options) [] no_extraction fs1)
    as HI by (apply empty_extraction; [done|done|lia]).
  destruct (loop_succeeds destination (effective (eo_Limits options)) (eo_PreserveOwnership options) Ha Hroot Hle all [] no_extraction fs1 HI)
    as (x & fs2 & Hloop & HI2); [done..|]. cbn [app] in HI2.
  destruct (finish_succeeds (eo_PreserveOwnership options) (rev (ex_directories x)) fs2) as [fs3 Hfin].
  { intros d Hd. rewrite <- (Permutation_rev (ex_directories x)), (es_directories _ _ _ _ _ _ _ _ HI2) in Hd.
    apply list_elem_of_fmap in Hd as ([n e] & -> & [Hdir Hin]%list_elem_of_filter). cbn [fst snd].
    destruct (es_names _ _ _ _ _ _ _ _ HI2 n e Hin) as [Hp _].
    destruct (es_dirs _ _ _ _ _ _ _ _ HI2 n e Hin Hdir) as [a Hdn]. rewrite directory_path_of by done. by exists (FDir a). }
  assert (extracted_archive digest self destination options all x fs3) as HA by (by eapply finish_archive).
  destruct (Hver x fs3 HA) as [r Hr]. exists r, x, fs3. split_and!; [|done|done].
  unfold extract_into, ibind, ilift. cbn [ts_entries ts_end]. by rewrite Hloop, Hr, Hfin.
Qed.
End success.
