(* ===== verification/ArchiveRoundtrip.v ===== *)
(** * Written archives: lemmas

    What [writeArchive] puts into an archive, as a list of names and entries. *)

From S2P Require Import Prelude Protocol Exposure NetIP ExposurePolicy Ingress IngressProofs IngressRuntime IngressRender Containers Manifest ExternalStorage Secrets SecretsProps BackupPlan Archive ArchivePaths ArchiveProofs ArchiveExtract.
From stdpp Require Import base strings list gmap sorting.
From Stdlib Require Import ZArith Lia Ascii.

Open Scope Z_scope.

(** ** The index of a written archive is accepted *)
Definition digest_ok (digest : string -> string) : Prop :=
  forall c, String.length (digest c) = 64%nat /\ decodes_hex (digest c) = true.

Lemma checksum_range_ok (observed : gmap string ChecksumEntry) items seen :
  (forall item, item ∈ items -> is_ok (canonicalPayloadPath (ce_Path item)) = true /\ String.length (ce_SHA256 item) = 64%nat /\
     decodes_hex (ce_SHA256 item) = true /\ observed !! ce_Path item = Some item) ->
  NoDup (ce_Path <$> items) -> (forall n, n ∈ seen -> n ∉ ce_Path <$> items) ->
  exists seen', range (checksum_step observed) seen items = Ok seen'.
Proof.
  revert seen. induction items as [|item items IH]; intros seen Hall Hnd Hseen; [by exists seen|].
  rewrite fmap_cons, NoDup_cons in Hnd. destruct Hnd as [Hn Hnd]. cbn [range].
  destruct (Hall item) as (Hc & H64 & Hx & Ho); [apply list_elem_of_here|]. unfold checksum_step at 1.
  rewrite decide_False.
  2: { rewrite Hc. intros [?|[Hin|?]]; [done| |done]. apply (Hseen _ Hin). rewrite fmap_cons. apply list_elem_of_here. }
  rewrite Ho, decide_False by (rewrite Hx; naive_solver). apply IH; [|done|].
  - intros i Hi. apply Hall. by apply list_elem_of_further.
  - intros n [->%elem_of_singleton|Hin]%elem_of_union; [done|]. specialize (Hseen n Hin).
    rewrite fmap_cons, not_elem_of_cons in Hseen. by destruct Hseen.
Qed.

Lemma verify_succeeds (observed : gmap string ChecksumEntry) items :
  (forall n c, observed !! n = Some c <-> c ∈ items /\ ce_Path c = n) -> NoDup (ce_Path <$> items) ->
  (forall item, item ∈ items -> is_ok (canonicalPayloadPath (ce_Path item)) = true /\ String.length (ce_SHA256 item) = 64%nat /\
     decodes_hex (ce_SHA256 item) = true) ->
  verifyChecksums {| ci_Algorithm := "sha256"; ci_Files := items |} observed = Ok tt.
Proof.
  intros Hobs Hnd Hok. unfold verifyChecksums. cbn [ci_Algorithm ci_Files]. rewrite decide_False.
  - destruct (checksum_range_ok observed items ∅) as [seen ->]; [|done|set_solver|done].
    intros item Hi. destruct (Hok item Hi) as (? & ? & ?). split_and!; try done. apply Hobs. by split.
  - intros [?|Hlen]; [done|]. apply Hlen.
    assert (list_to_set (ce_Path <$> items) = dom observed) as Hdom.
    { apply leibniz_equiv. intros n. rewrite elem_of_list_to_set, list_elem_of_fmap, elem_of_dom. split.
      - intros (c & -> & Hc). exists c. by apply Hobs.
      - intros [c Hc]. apply Hobs in Hc as [Hc <-]. by exists c. }
    by rewrite <- size_dom, <- Hdom, size_list_to_set, length_fmap.
Qed.

(** ** What is being written *)
Lemma Perm_Perm mode : Perm (Perm mode) = Perm mode.
Proof. unfold Perm. by rewrite <- Z.land_assoc, Z.land_diag. Qed.

(** An entry as it is written under a name. *)
Definition shaped (n : string) (e : tarEntry) : Prop :=
  Perm (th_Mode (te_header e)) = th_Mode (te_header e) /\
  (regular e = true /\ th_Name (te_header e) = archiveName n /\ entry_size e = size_of (te_contents e) \/
   directory e = true /\ th_Name (te_header e) = archiveName n +:+ "/" /\ entry_size e = 0).

Section writing.
Context `{Codec : ArchiveCodec} (digest : string -> string).

Definition checksum_of (n : string) (e : tarEntry) : ChecksumEntry := observed_entry n (digest (te_contents e)) (te_header e).

Record written (w : writing) (plan : list (string * tarEntry)) : Prop := {
  wt_entries : wr_entries w = plan.*2;
  wt_seen n : n ∈ wr_seen w <-> n ∈ plan.*1;
  wt_nodup : NoDup (plan.*1);
  wt_shaped n e : (n, e) ∈ plan -> shaped n e;
  wt_checksums : wr_checksums w = map (fun ne => checksum_of ne.1 ne.2) (filter (fun ne => regular ne.2 = true) plan)
}.

Lemma written_app w plan n e : written w plan -> n ∉ wr_seen w -> shaped n e ->
  written {| wr_seen := {[n]} ∪ wr_seen w; wr_entries := wr_entries w ++ [e];
             wr_checksums := wr_checksums w ++ (if regular e then [checksum_of n e] else []) |} (plan ++ [(n, e)]).
Proof.
  intros [He Hs Hnd Hsh Hc] Hn Hshape. split; cbn [wr_entries wr_seen wr_checksums].
  - by rewrite He, fmap_app.
  - intros n'. rewrite fmap_app, elem_of_app, elem_of_union, elem_of_singleton, Hs. cbn. rewrite list_elem_of_singleton. tauto.
  - rewrite fmap_app. apply NoDup_app. split_and!; [done| |apply NoDup_singleton].
    intros n' Hn' ->%list_elem_of_singleton. by apply Hn, Hs.
  - intros n' e' [Hin|[= -> ->]%list_elem_of_singleton]%elem_of_app; auto.
  - rewrite Hc, filter_app, map_app. f_equal. destruct (regular e) eqn:Hr.
    + by rewrite filter_cons_True, filter_nil.
    + rewrite filter_cons_False, filter_nil; [done|]. cbn. by rewrite Hr.
Qed.

Definition inline_entry (item : InlineFile) : string * tarEntry :=
  (in_ArchivePath item, writeBytes (in_ArchivePath item) (in_Contents item) (inline_mode item)).

Lemma inline_shaped item : shaped (in_ArchivePath item) (inline_entry item).2.
Proof. unfold shaped, inline_entry, writeBytes, regular, entry_size. cbn. rewrite Perm_Perm. auto. Qed.

Lemma inline_checksum item :
  checksumBytes digest (in_ArchivePath item) (in_Contents item) (inline_mode item) = checksum_of (in_ArchivePath item) (inline_entry item).2.
Proof. unfold checksumBytes, checksum_of, observed_entry. cbn. by rewrite Perm_Perm. Qed.

Lemma range_inline items w plan w' : written w plan -> range (inline_step digest) w items = Ok w' ->
  written w' (plan ++ map inline_entry items) /\
  forall item, item ∈ items -> canonicalPayloadPath (in_ArchivePath item) = Ok (in_ArchivePath item) /\ in_ArchivePath item <> index_name.
Proof.
  revert w plan. induction items as [|item items IH]; intros w plan Hw; cbn [range].
  { intros [= <-]. cbn. rewrite app_nil_r. split; [done|]. intros item Hi. by apply not_elem_of_nil in Hi. }
  destruct (inline_step digest w item) as [w1|] eqn:Hs; [|done]. intros Hr. unfold inline_step in Hs.
  destruct (canonicalPayloadPath (in_ArchivePath item)) as [name|] eqn:Hcan; [|done].
  destruct (canonical_name _ _ Hcan) as [-> _]. case_decide as Hbad; [done|]. apply Decidable.not_or in Hbad as [Hnew Hni].
  injection Hs as <-. pose proof (written_app w plan _ _ Hw Hnew (inline_shaped item)) as Hw1.
  change (regular (inline_entry item).2) with true in Hw1. cbn iota in Hw1. rewrite <- inline_checksum in Hw1.
  destruct (IH _ _ Hw1 Hr) as [Hw' Hall]. rewrite <- app_assoc in Hw'. split; [exact Hw'|].
  intros i [->|Hi]%elem_of_cons; [by split|by apply Hall].
Qed.

(** The entry a visited file or directory becomes. *)
Definition entry_for (n : string) (v : visit) (e : tarEntry) : Prop :=
  match v with
  | VDirectory info => e = {| te_header := file_header (archiveName n +:+ "/") TypeDir 0 info; te_contents := "" |}
  | VRegular info read => exists contents, rg_contents read = Ok contents /\ size_of contents = fi_Size info /\
      e = {| te_header := file_header (archiveName n) TypeReg (fi_Size info) info; te_contents := contents |}
  | _ => False
  end.

Lemma entry_shaped n v e : entry_for n v e -> shaped n e.
Proof.
  unfold shaped, entry_size. destruct v; cbn; try done.
  - intros ->. cbn. rewrite Perm_Perm. auto.
  - intros (contents & _ & Hs & ->). cbn. rewrite Perm_Perm. auto.
Qed.

Lemma writeHostEntry_Ok n v e cs : writeHostEntry digest n v = Ok (e, cs) ->
  entry_for n v e /\ option_list cs = (if regular e then [checksum_of n e] else []).
Proof.
  destruct v as [info|info read| | |]; cbn; try done.
  - by intros [= <- <-].
  - destruct (rg_open read); [done|]. case_decide; [done|]. destruct (rg_contents read) as [contents|] eqn:Hc; [|done]. cbn.
    unfold tar_write, tar_flush. case_decide as H1; [done|]. cbn. case_decide; [done|]. case_decide as H2; [done|]. cbn. intros [= <- <-].
    assert (size_of contents = fi_Size info) as Hs by lia. split; [by exists contents|]. cbn. unfold checksum_of, observed_entry. cbn. by rewrite Perm_Perm.
Qed.

Definition visited (prefix : string) (rv : list string * visit) (ne : string * tarEntry) : Prop :=
  ne.1 = name_below prefix rv.1 /\ entry_for ne.1 rv.2 ne.2.

Lemma visit_step_Ok prefix w rv w' : visit_step digest prefix w rv = Ok w' ->
  exists e cs, name_below prefix rv.1 ∉ wr_seen w /\ writeHostEntry digest (name_below prefix rv.1) rv.2 = Ok (e, cs) /\
    w' = {| wr_seen := {[name_below prefix rv.1]} ∪ wr_seen w; wr_entries := wr_entries w ++ [e];
            wr_checksums := wr_checksums w ++ option_list cs |}.
Proof.
  unfold visit_step. destruct rv as [rel v]. cbn [fst snd]. intros H.
  assert (name_below prefix rel ∉ wr_seen w /\ exists e cs, writeHostEntry digest (name_below prefix rel) v = Ok (e, cs) /\
    w' = {| wr_seen := {[name_below prefix rel]} ∪ wr_seen w; wr_entries := wr_entries w ++ [e];
            wr_checksums := wr_checksums w ++ option_list cs |}) as [? (e & cs & ? & ?)]; [|by exists e, cs].
  destruct v; try done; (case_decide as Hseen; [done|]; split; [done|]);
    destruct (writeHostEntry _ _ _) as [[e cs]|] eqn:Hw; try done; injection H as <-; by exists e, cs.
Qed.

Lemma range_visits prefix visits w plan w' : written w plan -> range (visit_step digest prefix) w visits = Ok w' ->
  exists added, written w' (plan ++ added) /\ Forall2 (visited prefix) visits added.
Proof.
  revert w plan. induction visits as [|rv visits IH]; intros w plan Hw; cbn [range].
  { intros [= <-]. exists []. rewrite app_nil_r. by split. }
  destruct (visit_step digest prefix w rv) as [w1|] eqn:Hs; [|done]. intros Hr.
  apply visit_step_Ok in Hs as (e & cs & Hnew & Hwr & ->). apply writeHostEntry_Ok in Hwr as [He Hcs]. rewrite Hcs in Hr.
  destruct (IH _ _ (written_app w plan _ _ Hw Hnew (entry_shaped _ _ _ He)) Hr) as (added & Hw' & Hf).
  rewrite <- app_assoc in Hw'. exists ((name_below prefix rv.1, e) :: added). split; [exact Hw'|]. constructor; [by split|done].
Qed.

(** What the sources contribute. *)
Definition from_source (source : Source) (ne : string * tarEntry) : Prop :=
  exists node rv, src_Node source = Ok node /\ rv ∈ walk [] node /\ visited (src_ArchivePath source) rv ne.

Definition taken (source : Source) (added : list (string * tarEntry)) : Prop :=
  canonicalPayloadPath (src_ArchivePath source) = Ok (src_ArchivePath source) /\
  exists node, src_Node source = Ok node /\
    forall rv, rv ∈ walk [] node -> exists ne, ne ∈ added /\ visited (src_ArchivePath source) rv ne.

Lemma taken_mono source added added' : (forall ne, ne ∈ added -> ne ∈ added') -> taken source added -> taken source added'.
Proof.
  intros Hi (Hc & node & Hn & Hall). split; [done|]. exists node. split; [done|]. intros rv Hrv.
  destruct (Hall rv Hrv) as (ne & Hne & ?). exists ne. auto.
Qed.

Lemma source_step_Ok source w plan w' : written w plan -> source_step digest w source = Ok w' ->
  exists added, written w' (plan ++ added) /\ taken source added /\ forall ne, ne ∈ added -> from_source source ne.
Proof.
  intros Hw. unfold source_step. destruct (canonicalPayloadPath (src_ArchivePath source)) as [prefix|] eqn:Hcan; [|done].
  destruct (canonical_name _ _ Hcan) as [-> _]. case_decide; [done|].
  destruct (src_Node source) as [[info children| | | |]|] eqn:Hn; try done.
  destruct (range _ w _) as [w1|] eqn:Hr; [|done]. intros [= <-].
  destruct (range_visits _ _ _ _ _ Hw Hr) as (added & Hw' & Hf). exists added. split_and!; [done| |].
  - split; [done|]. exists (HDirectory info children). split; [done|]. intros rv [i Hi]%list_elem_of_lookup.
    destruct (Forall2_lookup_l _ _ _ _ _ Hf Hi) as (ne & Hne & Hv). exists ne. split; [by eapply list_elem_of_lookup_2|done].
  - intros ne [i Hi]%list_elem_of_lookup. destruct (Forall2_lookup_r _ _ _ _ _ Hf Hi) as (rv & Hrv & Hv).
    exists (HDirectory info children), rv. split_and!; [done|by eapply list_elem_of_lookup_2|done].
Qed.

Lemma range_sources sources w plan w' : written w plan -> range (source_step digest) w sources = Ok w' ->
  exists added, written w' (plan ++ added) /\ (forall source, source ∈ sources -> taken source added) /\
    forall ne, ne ∈ added -> exists source, source ∈ sources /\ from_source source ne.
Proof.
  revert w plan. induction sources as [|source sources IH]; intros w plan Hw; cbn [range].
  { intros [= <-]. exists []. rewrite app_nil_r. split_and!; [done|..]; intros x Hx; by apply not_elem_of_nil in Hx. }
  destruct (source_step digest w source) as [w1|] eqn:Hs; [|done]. intros Hr.
  destruct (source_step_Ok _ _ _ _ Hw Hs) as (a1 & Hw1 & Ht1 & Hf1). destruct (IH _ _ Hw1 Hr) as (a2 & Hw2 & Ht2 & Hf2).
  exists (a1 ++ a2). rewrite app_assoc. split_and!; [done| |].
  - intros s' [->|Hs']%elem_of_cons; (eapply taken_mono; [|eauto]); intros ne Hne; apply elem_of_app; auto.
  - intros ne [Hne|Hne]%elem_of_app; [exists source; split; [apply list_elem_of_here|auto]|].
    destruct (Hf2 ne Hne) as (s' & ? & ?). exists s'. split; [by apply list_elem_of_further|done].
Qed.

(** The names and entries of a whole archive; the index comes last. *)
Lemma writeArchive_Ok m sources inline es : writeArchive digest m sources inline = Ok es ->
  exists manifestBytes indexBytes plan,
    canonicalJSON (jc_encode_manifest (m <| am_Checksum := checksum_metadata |>)) = Ok manifestBytes /\
    canonicalJSON (jc_encode_index {| ci_Algorithm := "sha256";
      ci_Files := sort_by ce_Path (map (fun ne => checksum_of ne.1 ne.2) (filter (fun ne => regular ne.2 = true) plan)) |}) = Ok indexBytes /\
    es = plan.*2 ++ [writeBytes index_name indexBytes 384] /\ NoDup (plan.*1) /\ (forall n e, (n, e) ∈ plan -> shaped n e) /\
    let items := inline ++ [{| in_ArchivePath := manifest_name; in_Contents := manifestBytes; in_Mode := 384 |}] in
    (forall item, item ∈ items -> canonicalPayloadPath (in_ArchivePath item) = Ok (in_ArchivePath item) /\
       in_ArchivePath item <> index_name /\ inline_entry item ∈ plan) /\
    (forall source, source ∈ sources -> taken source plan) /\
    (forall ne, ne ∈ plan -> (exists item, item ∈ items /\ ne = inline_entry item) \/
       exists source, source ∈ sources /\ from_source source ne).
Proof.
  unfold writeArchive, wrapped. destruct (canonicalJSON _) as [mb|] eqn:Hmb; [|done]. cbn [rbind].
  set (items := inline ++ _). destruct (range _ _ (sort_by _ items)) as [w1|] eqn:H1; [|done]. cbn [rbind].
  destruct (range _ w1 _) as [w2|] eqn:H2; [|done]. cbn [rbind].
  destruct (canonicalJSON (jc_encode_index _)) as [ib|] eqn:Hib; [|done]. cbn [rbind]. intros [= <-].
  assert (written {| wr_seen := ∅; wr_entries := []; wr_checksums := [] |} []) as Hw0.
  { split; cbn; [done|set_solver|constructor| |done]. intros n e Hin. by apply not_elem_of_nil in Hin. }
  destruct (range_inline _ _ _ _ Hw0 H1) as [Hw1 Hin]. destruct (range_sources _ _ _ _ Hw1 H2) as (added & Hw2 & Ht & Hf).
  cbn [app] in *. exists mb, ib, (map inline_entry (sort_by in_ArchivePath items) ++ added).
  destruct Hw2 as [He _ Hnd Hsh Hcs]. rewrite Hcs in Hib. rewrite He. split_and!; [done|done|done|done|done|..].
  - intros item Hi. destruct (Hin item) as [? ?]; [by rewrite elem_of_sort_by|]. split_and!; [done|done|]. apply elem_of_app. left.
    apply (list_elem_of_fmap_2 inline_entry). by rewrite elem_of_sort_by.
  - intros source Hs. eapply taken_mono; [|apply Ht; by rewrite elem_of_sort_by]. intros ne Hne. apply elem_of_app. by right.
  - intros ne [(item & -> & Hi)%list_elem_of_fmap|Hne]%elem_of_app.
    + left. exists item. by rewrite elem_of_sort_by in Hi.
    + right. destruct (Hf ne Hne) as (source & Hs & ?). exists source. by rewrite elem_of_sort_by in Hs.
Qed.
End writing.

(** ** Trees *)
Lemma hostNode_nested (P : hostNode -> Prop) :
  (forall info children, Forall (fun nc => P nc.2) children -> P (HDirectory info children)) ->
  (forall info read, P (HRegular info read)) -> P HLink -> P HSpecial -> (forall e, P (HBroken e)) -> forall n, P n.
Proof.
  intros Hd Hr Hl Hs Hb. fix IH 1. intros [info children|info read| | |e]; [|apply Hr|apply Hl|apply Hs|apply Hb].
  apply Hd. induction children as [|[name c] children IHc]; constructor; [apply IH|exact IHc].
Qed.

(** Above everything visited is a visited directory. *)
Lemma walk_ancestors n : forall base rel v, (rel, v) ∈ walk base n -> base `prefix_of` rel /\
  forall q, base `prefix_of` q -> q `prefix_of` rel -> q <> rel -> exists info, (q, VDirectory info) ∈ walk base n.
Proof.
  induction n as [info children IH|info read| | |e] using hostNode_nested; intros base rel v; cbn.
  2-5: intros [= -> ->]%list_elem_of_singleton; (split; [done|]); intros q H1 H2 Hq; exfalso; by apply Hq, (anti_symm prefix).
  intros [[= -> ->]|Hin]%elem_of_cons.
  { split; [done|]. intros q H1 H2 Hq. exfalso. by apply Hq, (anti_symm prefix). }
  rewrite list_elem_of_In, in_flat_map in Hin. destruct Hin as ([name c] & Hc & Hin). apply list_elem_of_In in Hc, Hin. cbn [fst snd] in Hin.
  rewrite Forall_forall in IH. destruct (IH (name, c) Hc (base ++ [name]) rel v Hin) as [Hpre Hq]. split; [etrans; [|exact Hpre]; by apply prefix_app_r|].
  intros q H1 H2 Hne. destruct (decide (q = base)) as [->|Hqb]; [exists info; apply list_elem_of_here|].
  assert (base ++ [name] `prefix_of` q) as Hbq.
  { destruct (prefix_weak_total _ _ _ Hpre H2) as [?|Hc']; [done|]. destruct H1 as [k ->]. apply prefix_app_inv in Hc'.
    destruct k as [|k0 k]; [by rewrite app_nil_r in Hqb|]. apply prefix_cons_inv_1 in Hc' as ->. apply prefix_app, prefix_cons, prefix_nil. }
  destruct (Hq q Hbq H2 Hne) as [info' Hv]. exists info'. apply list_elem_of_further. rewrite list_elem_of_In, in_flat_map.
  exists (name, c). split; by apply list_elem_of_In.
Qed.

(** ** [utf8.ValidString] *)
Fixpoint skip (n : nat) (s : string) : string :=
  match n, s with S n, String _ s => skip n s | _, _ => s end.

Fixpoint valid_runes (fuel : nat) (s : string) : bool :=
  match s, fuel with
  | EmptyString, _ => true
  | _, O => false
  | _, S fuel => match rune_len s with Some n => valid_runes fuel (skip n s) | None => false end
  end.

Definition ValidString (s : string) : bool := valid_runes (String.length s) s.

Lemma string_app_cons c a b : String c a +:+ b = String c (a +:+ b).
Proof. done. Qed.

Lemma rune_len_app a b n : rune_len a = Some n -> rune_len (a +:+ b) = Some n /\ skip n (a +:+ b) = skip n a +:+ b.
Proof.
  destruct a as [|c0 [|c1 [|c2 [|c3 a]]]]; cbn; [done|..]; repeat case_match; intros [= <-]; (split; [|done]); rewrite ?string_app_cons; cbn [rune_len];
    repeat match goal with H : _ = true |- _ => rewrite H; clear H | H : _ = false |- _ => rewrite H; clear H end; done.
Qed.

Lemma valid_runes_more s f f' : valid_runes f s = true -> (f <= f')%nat -> valid_runes f' s = true.
Proof.
  revert s f'. induction f as [|f IH]; intros [|c s] f' Hv Hf; destruct f' as [|f']; try done; [lia|].
  cbn [valid_runes] in *. destruct (rune_len _); [|done]. apply IH; [done|lia].
Qed.

Lemma string_length_app a b : String.length (a +:+ b) = (String.length a + String.length b)%nat.
Proof. induction a as [|c a IH]; [done|]. rewrite string_app_cons. cbn. by rewrite IH. Qed.

Lemma valid_app a b : ValidString a = true -> ValidString b = true -> ValidString (a +:+ b) = true.
Proof.
  unfold ValidString. intros Ha Hb. rewrite string_length_app. generalize dependent (String.length a). intros f. revert a.
  induction f as [|f IH]; intros a Ha; (destruct a as [|c a]; [eapply valid_runes_more; [done|lia]|]); [done|].
  cbn [valid_runes] in Ha. destruct (rune_len (String c a)) as [n|] eqn:Hn; [|done].
  destruct (rune_len_app _ b _ Hn) as [Hl Hs]. change (valid_runes (S (f + String.length b)) (String c (a +:+ b)) = true).
  cbn [valid_runes]. change (String c (a +:+ b)) with (String c a +:+ b). rewrite Hl, Hs. by apply IH.
Qed.

Lemma valid_ascii s : forallb (fun c => c <? 128)%N (text s) = true -> ValidString s = true.
Proof.
  unfold ValidString. induction s as [|c s IH]; [done|]. rewrite text_cons. cbn [forallb String.length valid_runes]. intros [Hc Hs]%andb_true_iff.
  unfold rune_len, byte_of. rewrite Hc. cbn [skip]. by apply IH.
Qed.

Lemma valid_hex s : decodes_hex s = true -> ValidString s = true.
Proof.
  intros [_ H]%andb_true_iff. apply valid_ascii. rewrite forallb_forall in H |- *. intros c Hc%H. unfold hex_value in Hc.
  apply N.ltb_lt. repeat case_match; try done; unfold is_digit in *; rewrite ?andb_true_iff, ?N.leb_le in *; lia.
Qed.

(** ** Names of visited files *)
Definition portable (e : string) : Prop := element e /\ ContainsAny e [92; 0]%N = false /\ ValidString e = true.

Lemma element_plain e : element e -> plain (text e).
Proof.
  intros (H1 & H2 & H3 & H4). split_and!; [done|..]; intros E1; apply (f_equal untext) in E1; rewrite untext_text in E1; by subst.
Qed.

Lemma text_join rel : Forall portable rel -> text (Protocol.join "/" rel) = join_at 47 (map text rel).
Proof.
  induction 1 as [|e rel He Hrel IH]; [done|]. destruct rel as [|e' rel]; [done|].
  change (text (e +:+ "/" +:+ Protocol.join "/" (e' :: rel)) = text e ++ 47%N :: join_at 47 (map text (e' :: rel))).
  by rewrite !text_app, IH.
Qed.

Lemma plain_rel rel : Forall portable rel -> Forall plain (map text rel).
Proof. induction 1 as [|e rel [He _] Hrel IH]; constructor; [by apply element_plain|done]. Qed.

Lemma untext_rel rel : map untext (map text rel) = rel.
Proof. induction rel as [|e rel IH]; [done|]. cbn. by rewrite untext_text, IH. Qed.

Lemma contains_app a b l : ContainsAny (a +:+ b) l = ContainsAny a l || ContainsAny b l.
Proof. unfold ContainsAny. by rewrite text_app, existsb_app. Qed.

Lemma contains_join rel : Forall portable rel -> ContainsAny (Protocol.join "/" rel) [92; 0]%N = false.
Proof.
  induction 1 as [|e rel (_ & He & _) Hrel IH]; [done|]. destruct rel as [|e' rel]; [done|].
  change (ContainsAny (e +:+ "/" +:+ Protocol.join "/" (e' :: rel)) [92; 0]%N = false). by rewrite !contains_app, He, IH.
Qed.

Lemma valid_join rel : Forall portable rel -> ValidString (Protocol.join "/" rel) = true.
Proof.
  induction 1 as [|e rel (_ & _ & He) Hrel IH]; [done|]. destruct rel as [|e' rel]; [done|].
  change (ValidString (e +:+ "/" +:+ Protocol.join "/" (e' :: rel)) = true). apply valid_app; [done|]. by apply valid_app.
Qed.

Lemma name_below_valid prefix rel : ValidString prefix = true -> Forall portable rel -> ValidString (name_below prefix rel) = true.
Proof.
  intros Hp Hrel. unfold name_below. destruct rel as [|e rel]; [done|]. apply valid_app; [done|]. apply valid_app; [done|]. by apply valid_join.
Qed.

Lemma name_below_ok prefix rel : proper prefix -> ContainsAny prefix [92; 0]%N = false -> Forall portable rel ->
  proper (name_below prefix rel) /\ path_elements (name_below prefix rel) = path_elements prefix ++ rel /\
  ContainsAny (name_below prefix rel) [92; 0]%N = false.
Proof.
  intros Hp Hc Hrel. unfold name_below. destruct rel as [|e rel]; [by rewrite app_nil_r|].
  assert (split_at 47 (text (prefix +:+ "/" +:+ Protocol.join "/" (e :: rel))) [] =
    split_at 47 (text prefix) [] ++ map text (e :: rel)) as Hsplit.
  { rewrite !text_app. change (text "/" ++ ?x) with (47%N :: x). rewrite split_at_sep, text_join, split_join by (done || by apply plain_nonempty, plain_rel). done. }
  assert (proper (prefix +:+ "/" +:+ Protocol.join "/" (e :: rel))) as Hpr.
  { unfold proper. rewrite Hsplit. apply Forall_app. split; [done|by apply plain_rel]. }
  split_and!; [done| |].
  - rewrite !proper_elements, Hsplit, map_app by done. by rewrite untext_rel.
  - by rewrite !contains_app, Hc, contains_join.
Qed.

Lemma canonical_chars name n : canonicalPayloadPath name = Ok n -> ContainsAny name [92; 0]%N = false.
Proof.
  unfold canonicalPayloadPath. case_decide as Hbad; [done|]. intros _. apply not_true_is_false. intros H. apply Hbad. tauto.
Qed.

(** ** Inputs that can be read back *)

(** No path of the list is above another one. *)
Definition spread (l : list (list string)) : Prop :=
  forall i j p q, l !! i = Some p -> l !! j = Some q -> p `prefix_of` q -> i = j.

Definition spread_check (l : list (list string)) : bool :=
  forallb (fun ip : nat * list string => forallb (fun jq : nat * list string =>
    negb (bool_decide (ip.2 `prefix_of` jq.2)) || Nat.eqb ip.1 jq.1) (imap pair l)) (imap pair l).

Lemma spread_checked l : spread_check l = true -> spread l.
Proof.
  unfold spread_check. rewrite forallb_forall. intros H i j p q Hi Hj Hpq.
  assert (forall k x, l !! k = Some x -> In (k, x) (imap pair l)) as Hin.
  { intros k x Hk. apply list_elem_of_In, (list_elem_of_lookup_2 _ k). by rewrite list_lookup_imap, Hk. }
  specialize (H _ (Hin i p Hi)). rewrite forallb_forall in H. specialize (H _ (Hin j q Hj)). cbn [fst snd] in H.
  rewrite bool_decide_true in H by done. by apply Nat.eqb_eq.
Qed.

Definition archive_paths (sources : list Source) (inline : list InlineFile) : list string :=
  index_name :: (map in_ArchivePath inline ++ [manifest_name]) ++ map src_ArchivePath sources.

Record portable_input (sources : list Source) (inline : list InlineFile) : Prop := {
  pi_up p : p ∈ archive_paths sources inline -> p <> "..";
  pi_text p : p ∈ archive_paths sources inline -> ValidString p = true;
  pi_apart i j p q : archive_paths sources inline !! i = Some p -> archive_paths sources inline !! j = Some q ->
    path_elements p `prefix_of` path_elements q -> i = j;
  pi_names source node rel v : source ∈ sources -> src_Node source = Ok node -> (rel, v) ∈ walk [] node -> Forall portable rel
}.

Section roundtrip.
Context `{Codec : ArchiveCodec} (digest : string -> string) (sources : list Source) (inline : list InlineFile).
Hypothesis Hin : portable_input sources inline.
Context (manifestBytes indexBytes : string) (plan : list (string * tarEntry)).
Notation items := (inline ++ [{| in_ArchivePath := manifest_name; in_Contents := manifestBytes; in_Mode := 384 |}]).
Hypothesis Hnd : NoDup (plan.*1).
Hypothesis Hshaped : forall n e, (n, e) ∈ plan -> shaped n e.
Hypothesis Hitems : forall item, item ∈ items -> canonicalPayloadPath (in_ArchivePath item) = Ok (in_ArchivePath item) /\
  in_ArchivePath item <> index_name /\ inline_entry item ∈ plan.
Hypothesis Htaken : forall source, source ∈ sources -> taken source plan.
Hypothesis Horigin : forall ne, ne ∈ plan -> (exists item, item ∈ items /\ ne = inline_entry item) \/
  exists source, source ∈ sources /\ from_source source ne.

Definition all_entries : list (string * tarEntry) := plan ++ [(index_name, writeBytes index_name indexBytes 384)].

Notation paths := (archive_paths sources inline).
Definition first_source : nat := S (length inline + 1).

(** Where the name of an entry comes from. *)
Inductive origin (ne : string * tarEntry) (i : nat) : Prop :=
| from_path : paths !! i = Some ne.1 -> origin ne i
| from_tree k source node rel v : i = (first_source + k)%nat -> sources !! k = Some source -> src_Node source = Ok node ->
    (rel, v) ∈ walk [] node -> visited (src_ArchivePath source) (rel, v) ne -> origin ne i.

Lemma path_source k source : sources !! k = Some source -> paths !! (first_source + k)%nat = Some (src_ArchivePath source).
Proof.
  intros Hk. change (((map in_ArchivePath inline ++ [manifest_name]) ++ map src_ArchivePath sources) !! (length inline + 1 + k)%nat =
    Some (src_ArchivePath source)).
  assert (length (map in_ArchivePath inline ++ [manifest_name]) = (length inline + 1)%nat) as Hlen by (by rewrite length_app, length_map).
  rewrite lookup_app_r, Hlen by lia. replace (length inline + 1 + k - (length inline + 1))%nat with k by lia.
  change ((src_ArchivePath <$> sources) !! k = Some (src_ArchivePath source)). by rewrite list_lookup_fmap, Hk.
Qed.

Lemma path_canonical p : p ∈ paths -> canonicalPayloadPath p = Ok p.
Proof.
  intros [->|Hp]%elem_of_cons; [by vm_compute|]. apply elem_of_app in Hp as [Hp|(source & -> & Hs)%list_elem_of_fmap].
  - assert (exists item, item ∈ items /\ in_ArchivePath item = p) as (item & Hi & <-); [|by apply Hitems].
    apply elem_of_app in Hp as [(item & -> & Hi)%list_elem_of_fmap| ->%list_elem_of_singleton].
    + exists item. split; [apply elem_of_app; by left|done].
    + eexists. split; [apply elem_of_app; right; apply list_elem_of_here|done].
  - by apply Htaken.
Qed.

Lemma path_ok p : p ∈ paths -> proper p /\ ContainsAny p [92; 0]%N = false.
Proof.
  intros Hp. pose proof (path_canonical p Hp) as Hc. split; [|by eapply canonical_chars].
  destruct (canonical_name _ _ Hc) as [_ [Hup|?]]; [|done]. by destruct (pi_up _ _ Hin p Hp).
Qed.

Lemma plan_origin ne : ne ∈ plan -> exists i, i <> 0%nat /\ origin ne i.
Proof.
  intros Hp. destruct (Horigin ne Hp) as [(item & Hitem & ->)|(source & Hs & node & [rel v] & Hn & Hw & Hv)].
  - assert (in_ArchivePath item ∈ map in_ArchivePath inline ++ [manifest_name]) as [i Hi]%list_elem_of_lookup.
    { apply elem_of_app in Hitem as [Hitem| ->%list_elem_of_singleton]; apply elem_of_app;
        [left; by apply (list_elem_of_fmap_2 in_ArchivePath)|right; apply list_elem_of_here]. }
    exists (S i). split; [done|]. apply from_path.
    change (((map in_ArchivePath inline ++ [manifest_name]) ++ map src_ArchivePath sources) !! i = Some (in_ArchivePath item)).
    rewrite lookup_app_l; [done|]. by eapply lookup_lt_Some.
  - apply list_elem_of_lookup in Hs as [k Hk]. exists (first_source + k)%nat. split; [unfold first_source; lia|]. by eapply from_tree.
Qed.

Lemma all_origin ne : ne ∈ all_entries -> exists i, origin ne i.
Proof.
  intros [Hp|Hi]%elem_of_app; [destruct (plan_origin ne Hp) as (i & _ & ?); by exists i|].
  apply list_elem_of_singleton in Hi as ->. exists 0%nat. by apply from_path.
Qed.

(** An origin gives the elements of the name. *)
Lemma origin_name ne i : origin ne i -> exists p rel, paths !! i = Some p /\ proper ne.1 /\
  ContainsAny ne.1 [92; 0]%N = false /\ path_elements ne.1 = path_elements p ++ rel.
Proof.
  intros [Hp|k source node rel v -> Hk Hn Hw [Hname _]].
  - exists ne.1, []. rewrite app_nil_r. destruct (path_ok ne.1) as [? ?]; [by eapply list_elem_of_lookup_2|]. by split_and!.
  - pose proof (path_source k source Hk) as Hpk. exists (src_ArchivePath source), rel.
    destruct (path_ok (src_ArchivePath source)) as [Hpr Hch]; [by eapply list_elem_of_lookup_2|].
    cbn in Hname. rewrite Hname. destruct (name_below_ok _ rel Hpr Hch) as (? & ? & ?); [|by split_and!].
    eapply (pi_names _ _ Hin); [by eapply list_elem_of_lookup_2|done|done].
Qed.

Lemma all_names ne : ne ∈ all_entries -> proper ne.1 /\ ContainsAny ne.1 [92; 0]%N = false.
Proof. intros (i & Ho)%all_origin. destruct (origin_name ne i Ho) as (p & rel & _ & ? & ? & _). done. Qed.

Lemma all_valid ne : ne ∈ all_entries -> ValidString ne.1 = true.
Proof.
  intros (i & [Hp|k source node rel v -> Hk Hn Hw [Hname _]])%all_origin.
  - eapply (pi_text _ _ Hin), list_elem_of_lookup_2. exact Hp.
  - cbn in Hname. rewrite Hname. apply name_below_valid; [eapply (pi_text _ _ Hin), list_elem_of_lookup_2, path_source; done|].
    eapply (pi_names _ _ Hin); [by eapply list_elem_of_lookup_2|done|done].
Qed.

Lemma all_nodup : NoDup (all_entries.*1).
Proof.
  unfold all_entries. rewrite fmap_app. apply NoDup_app. split_and!; [done| |apply NoDup_singleton].
  intros n ([n' e] & -> & Hp)%list_elem_of_fmap Hi%list_elem_of_singleton. cbn in Hi. subst n'.
  destruct (plan_origin _ Hp) as (i & Hi & Ho). destruct (origin_name _ _ Ho) as (p & rel & Hpi & _ & _ & He).
  apply Hi. eapply (pi_apart _ _ Hin); [done|reflexivity|]. change (path_elements p `prefix_of` path_elements index_name).
  cbn [fst] in He. rewrite He. by apply prefix_app_r.
Qed.

(** A directory above a visited name is itself an entry. *)
Lemma ancestor_entry k source node rel v q : sources !! k = Some source -> src_Node source = Ok node -> (rel, v) ∈ walk [] node ->
  q `prefix_of` rel -> q <> rel -> exists e, (name_below (src_ArchivePath source) q, e) ∈ plan /\ directory e = true.
Proof.
  intros Hk Hn Hw Hq Hne. apply list_elem_of_lookup_2 in Hk as Hs. destruct (walk_ancestors node [] rel v Hw) as [_ Hanc].
  destruct (Hanc q) as [info Hd]; [apply prefix_nil|done|done|]. destruct (Htaken source Hs) as (_ & node' & Hn' & Hall).
  assert (node' = node) as -> by congruence. destruct (Hall _ Hd) as ([n e] & Hp & Hname & He). cbn in *. subst n.
  exists e. by rewrite He in *.
Qed.

Lemma all_apart : no_clash all_entries.
Proof.
  intros n e n' e' H H' Hreg Hpre. pose proof all_nodup as Hnd'.
  assert (forall name e2, (name, e2) ∈ plan -> directory e2 = true -> name = n -> False) as Hnot.
  { intros name e2 Hp Hd ->. assert (e = e2) as -> by (eapply unique_name; [exact Hnd'|done|apply elem_of_app; by left]).
    apply kinds in Hreg. congruence. }
  destruct (all_origin _ H) as [i Ho]. destruct (all_origin _ H') as [j Ho'].
  destruct (origin_name _ _ Ho) as (p & rel & Hp & _ & _ & He). destruct (origin_name _ _ Ho') as (p' & rel' & Hp' & _ & _ & He').
  cbn [fst] in *. rewrite He, He' in Hpre.
  assert (i = j) as <-.
  { assert (path_elements p `prefix_of` path_elements p' ++ rel') as H1 by (etrans; [|done]; by apply prefix_app_r).
    assert (path_elements p' `prefix_of` path_elements p' ++ rel') as H2 by (by apply prefix_app_r).
    destruct (prefix_weak_total _ _ _ H1 H2) as [?|?]; [|symmetry]; by eapply (pi_apart _ _ Hin). }
  assert (p' = p) as -> by congruence. apply prefix_app_inv in Hpre.
  destruct Ho as [Hpn|k source node r v -> Hk Hn Hw [Hname _]], Ho' as [Hpn'|k' source' node' r' v' Hi' Hk' Hn' Hw' [Hname' _]]; cbn [fst] in *.
  - congruence.
  - subst i. rewrite (path_source k' source' Hk') in Hp. injection Hp as <-. rewrite (path_source k' source' Hk') in Hpn. injection Hpn as <-.
    destruct (decide (r' = [])) as [->|Hr']; [by rewrite Hname'|]. exfalso.
    destruct (ancestor_entry k' source' node' r' v' [] Hk' Hn' Hw') as (e2 & Hp2 & Hd2); [apply prefix_nil|done|]. by eapply Hnot.
  - assert (rel = []) as ->.
    { rewrite Hpn' in Hp. injection Hp as ->. apply (f_equal length) in He'. rewrite length_app in He'.
      apply prefix_length in Hpre. destruct rel; [done|]. cbn in *. lia. }
    rewrite Hpn' in Hp. injection Hp as ->. rewrite app_nil_r in He.
    eapply proper_inj; [by eapply (all_names (n, e))|by eapply (all_names (p, e'))|done].
  - assert (k' = k) as -> by lia. assert (source' = source) as -> by congruence. assert (node' = node) as -> by congruence.
    rewrite (path_source k source Hk) in Hp. injection Hp as <-.
    destruct (path_ok (src_ArchivePath source)) as [Hpr Hch]; [by eapply list_elem_of_lookup_2, path_source|].
    assert (Forall portable r) as Hr by (eapply (pi_names _ _ Hin); [by eapply list_elem_of_lookup_2|done|done]).
    assert (Forall portable r') as Hr' by (eapply (pi_names _ _ Hin); [by eapply list_elem_of_lookup_2|done|done]).
    destruct (name_below_ok _ r Hpr Hch Hr) as (_ & E1 & _). destruct (name_below_ok _ r' Hpr Hch Hr') as (_ & E2 & _).
    rewrite Hname, E1 in He. apply app_inv_head in He as <-. rewrite Hname', E2 in He'. apply app_inv_head in He' as <-.
    destruct (decide (r = r')) as [->|Hne]; [by rewrite Hname, Hname'|]. exfalso.
    destruct (ancestor_entry k source node r' v' r Hk Hn Hw' Hpre Hne) as (e2 & Hp2 & Hd2). by eapply Hnot.
Qed.

(** The archive is within the limits it is extracted with. *)
Record fits (limits : ArchiveLimits) (es : list tarEntry) : Prop := {
  ft_entries : Z.of_nat (length es) <= lm_MaxEntries limits;
  ft_total : total_size es <= lm_MaxTotalBytes limits;
  ft_files e : e ∈ es -> entry_size e <= lm_MaxFileBytes limits;
  ft_metadata e n : e ∈ es -> validateArchiveName (th_Name (te_header e)) = Ok n -> metadata_too_large n (entry_size e) = false
}.

Lemma all_shaped n e : (n, e) ∈ all_entries -> shaped n e.
Proof.
  intros [Hp|[= -> ->]%list_elem_of_singleton]%elem_of_app; [by apply Hshaped|].
  apply (inline_shaped {| in_ArchivePath := index_name; in_Contents := indexBytes; in_Mode := 384 |}).
Qed.

Lemma shaped_size n e : shaped n e -> 0 <= entry_size e /\ (regular e = true -> entry_size e = size_of (te_contents e)).
Proof.
  intros [_ [(_ & _ & ->)|(Hd & _ & ->)]]; [unfold size_of; split; [lia|done]|]. split; [lia|]. intros Hr%kinds. congruence.
Qed.

Lemma all_acceptable limits : fits limits (all_entries.*2) -> Forall (fun ne => acceptable limits ne.1 ne.2) all_entries.
Proof.
  intros Hfit. apply Forall_forall. intros [n e] Hne. cbn [fst snd]. destruct (all_names _ Hne) as [Hp Hch]. cbn [fst] in *.
  pose proof (all_shaped n e Hne) as Hs. destruct (shaped_size n e Hs) as [H0 Hc]. destruct (read_back n Hp Hch) as [Hf Hd].
  assert (e ∈ all_entries.*2) as He by (by apply (list_elem_of_fmap_2 snd all_entries (n, e))).
  assert (validateArchiveName (th_Name (te_header e)) = Ok n) as Hv by (by destruct Hs as [_ [(_ & -> & _)|(_ & -> & _)]]).
  split; [done|done|by destruct Hs as [_ [(? & _)|(? & _)]]; [left|right]|by eapply ft_metadata| |].
  - split; [done|]. by eapply ft_files.
  - intros Hr. rewrite (Hc Hr). done.
Qed.

(** The metadata of what was extracted passes the checks. *)
Lemma all_verified self destination options m index x fs' : digest_ok digest ->
  strictJSON jc_decode_manifest manifestBytes = Ok m -> ValidateArchiveManifest m = Ok tt ->
  strictJSON jc_decode_index indexBytes = Ok index -> manifestBytes <> "" -> indexBytes <> "" ->
  index = {| ci_Algorithm := "sha256";
    ci_Files := sort_by ce_Path (map (fun ne => checksum_of digest ne.1 ne.2) (filter (fun ne => regular ne.2 = true) plan)) |} ->
  extracted_archive digest self destination options all_entries x fs' ->
  verified x = Ok {| er_Manifest := m; er_Checksums := index |}.
Proof.
  intros Hdig Hm Hval Hi Hmne Hine Hidx HA.
  set (item := {| in_ArchivePath := manifest_name; in_Contents := manifestBytes; in_Mode := 384 |}).
  assert ((manifest_name, (inline_entry item).2) ∈ all_entries) as Hman.
  { apply elem_of_app. left. apply (Hitems item). apply elem_of_app. right. apply list_elem_of_here. }
  assert ((index_name, writeBytes index_name indexBytes 384) ∈ all_entries) as Hind by (apply elem_of_app; right; apply list_elem_of_here).
  assert (forall n e, (n, e) ∈ all_entries -> regular e = true -> file_contents e = te_contents e) as Hwhole.
  { intros n e Hne Hr. apply whole_file. by apply (shaped_size n e (all_shaped n e Hne)). }
  assert (ex_manifest x = manifestBytes) as Em.
  { rewrite (ea_manifest _ _ _ _ _ _ _ HA _ Hman eq_refl). unfold captured_contents. cbn [te_header]. rewrite (Hwhole _ _ Hman eq_refl).
    done. }
  assert (ex_checksums x = indexBytes) as Ei.
  { rewrite (ea_index _ _ _ _ _ _ _ HA _ Hind eq_refl). unfold captured_contents. rewrite (Hwhole _ _ Hind eq_refl). done. }
  unfold verified, wrapped. rewrite Em, Ei, decide_False by (by intros [?|?]). rewrite Hm. cbn [rbind]. rewrite Hval. cbn [rbind].
  rewrite Hi. cbn [rbind]. subst index.
  assert (forall c, c ∈ sort_by ce_Path (map (fun ne => checksum_of digest ne.1 ne.2) (filter (fun ne => regular ne.2 = true) plan)) <->
    exists n e, (n, e) ∈ plan /\ regular e = true /\ c = checksum_of digest n e) as Hc.
  { intros c. rewrite elem_of_sort_by, list_elem_of_fmap. split.
    - intros ([n e] & -> & [Hr Hp]%list_elem_of_filter). by exists n, e.
    - intros (n & e & Hp & Hr & ->). exists (n, e). by rewrite list_elem_of_filter. }
  rewrite verify_succeeds; [done|..].
  - intros n c. rewrite (ea_observed _ _ _ _ _ _ _ HA), Hc. split.
    + intros (e & Hne & Hr & Hni & ->). rewrite (Hwhole _ _ Hne Hr). split; [|done]. exists n, e. split_and!; [|done|done].
      apply elem_of_app in Hne as [?|[= -> ->]%list_elem_of_singleton]; [done|]. by destruct Hni.
    + intros ((n0 & e & Hp & Hr & ->) & <-). cbn. assert ((n0, e) ∈ all_entries) as Hne by (apply elem_of_app; by left).
      exists e. rewrite (Hwhole _ _ Hne Hr). split_and!; [done|done| |done].
      intros ->. pose proof all_nodup as Hn'. unfold all_entries in Hn'. rewrite fmap_app in Hn'. apply NoDup_app in Hn' as (_ & Hd & _).
      apply (Hd index_name); [by apply (list_elem_of_fmap_2 fst plan (index_name, e))|apply list_elem_of_here].
  - rewrite (sort_by_perm ce_Path). change (map ?f ?l) with (f <$> l). rewrite <- list_fmap_compose.
    assert (NoDup ((filter (fun ne : string * tarEntry => regular ne.2 = true) plan).*1)) as Hf; [|exact Hf].
    apply NoDup_fmap_2_strong; [|apply NoDup_filter; by eapply NoDup_fmap_1].
    intros [n e] [n' e'] [_ H1]%list_elem_of_filter [_ H2]%list_elem_of_filter Heq. cbn in Heq. subst n'. f_equal.
    by eapply unique_name.
  - intros c (n & e & Hp & Hr & ->)%Hc. cbn. assert ((n, e) ∈ all_entries) as Hne by (apply elem_of_app; by left).
    destruct (all_names _ Hne) as [Hpr Hch]. cbn [fst] in *. rewrite canonical_ok by done. by split; [|apply Hdig].
Qed.
End roundtrip.

Lemma validate_checksum m : ValidateArchiveManifest m = Ok tt -> ValidateArchiveManifest (m <| am_Checksum := checksum_metadata |>) = Ok tt.
Proof.
  unfold ValidateArchiveManifest.
  cbn [am_Format am_FormatVersion am_KITProVersion am_CreatedAt am_ApplicationID am_InstallationID am_ReleaseID am_RuntimeGeneration
       am_Strategy am_Components am_Storage am_Checksum set set_am_Checksum ArchiveManifest_eta].
  do 4 (case_decide; [done|]). destruct (range archive_component_step _ _) as [components|]; [|done]. cbn [rbind].
  destruct (range (archive_storage_step _) _ _); [|done]. cbn [rbind]. intros _. rewrite decide_False; [done|]. intros [_ [?|?]]; done.
Qed.

(** ** The encoder and the decoder *)

(** The texts of a manifest. *)
Definition manifest_texts (m : ArchiveManifest) : list string :=
  [am_Format m; am_KITProVersion m; am_CreatedAt m; am_ApplicationID m; am_InstallationID m; am_ReleaseID m; am_Strategy m;
   cs_Algorithm (am_Checksum m); cs_IndexPath (am_Checksum m)] ++
  flat_map (fun c => bc_ID c :: bc_ImageDigest c :: bc_DependsOn c) (am_Components m) ++
  flat_map (fun s => [as_Component s; as_ID s; as_Disposition s; as_ArchivePath s]) (am_Storage m) ++
  flat_map (fun s => [is_Component s; is_SlotID s; is_RootID s; is_AccessMode s; is_Filesystem s; is_ExclusionReason s]) (am_ImportedStorage m) ++
  flat_map (fun d => [bd_Engine d; bd_Component d; bd_StorageID d; bd_RelativePath d; bd_IntegrityCheck d]) (am_Databases m) ++
  flat_map (fun s => [bs_Component s; bs_Name s]) (am_Secrets m).

Definition index_texts (i : ChecksumIndex) : list string :=
  ci_Algorithm i :: flat_map (fun c => [ce_Path c; ce_SHA256 c]) (ci_Files i).

Definition all_valid_texts (l : list string) : bool := forallb ValidString l.

(** What the encoder writes for values whose texts are valid UTF-8 is read back
    as the same value; invalid text is replaced by the encoder. *)
Definition codec_ok `{ArchiveCodec} : Prop :=
  (forall m b, all_valid_texts (manifest_texts m) = true -> jc_encode_manifest m = Ok b -> strictJSON jc_decode_manifest (b +:+ nl) = Ok m) /\
  (forall i b, all_valid_texts (index_texts i) = true -> jc_encode_index i = Ok b -> strictJSON jc_decode_index (b +:+ nl) = Ok i).

Lemma valid_checksum m : all_valid_texts (manifest_texts m) = true -> all_valid_texts (manifest_texts (m <| am_Checksum := checksum_metadata |>)) = true.
Proof.
  unfold all_valid_texts, manifest_texts. rewrite !forallb_app, !andb_true_iff. intros (H & H'). split; [|exact H'].
  cbn in H |- *. rewrite !andb_true_iff in H |- *. destruct H as (? & ? & ? & ? & ? & ? & ? & _). by split_and!.
Qed.

Lemma valid_index digest plan : digest_ok digest -> (forall ne : string * tarEntry, ne ∈ plan -> ValidString ne.1 = true) ->
  all_valid_texts (index_texts {| ci_Algorithm := "sha256";
    ci_Files := sort_by ce_Path (map (fun ne => checksum_of digest ne.1 ne.2) (filter (fun ne => regular ne.2 = true) plan)) |}) = true.
Proof.
  intros Hd Hn. unfold all_valid_texts. apply forallb_forall. intros x Hx. cbn in Hx. destruct Hx as [<-|Hx]; [done|].
  apply in_flat_map in Hx as (c & Hc & Hx). apply list_elem_of_In, elem_of_sort_by, list_elem_of_fmap in Hc as (ne & -> & Hne).
  apply list_elem_of_filter in Hne as [_ Hne]. destruct Hx as [<-|[<-|[]]]; cbn; [by apply Hn|]. apply valid_hex, Hd.
Qed.

Lemma canonicalJSON_Ok r b : canonicalJSON r = Ok b -> exists b0, r = Ok b0 /\ b = b0 +:+ nl /\ b <> "".
Proof.
  unfold canonicalJSON. destruct r as [b0|]; [|done]. intros [= <-]. exists b0. split_and!; [done|done|]. by destruct b0.
Qed.
