(* ===== verification/ArchiveProps.v ===== *)
(** * Backup archives: extraction is confined, bounded and verified *)

From S2P Require Import Prelude Protocol Exposure NetIP ExposurePolicy Ingress IngressProofs IngressRuntime IngressRender Containers Manifest ExternalStorage Secrets SecretsProps BackupPlan Archive ArchivePaths ArchiveProofs ArchiveExtract ArchiveRoundtrip.
From stdpp Require Import base strings list gmap sorting.
From Stdlib Require Import ZArith Lia Ascii.

Open Scope Z_scope.

(** Nothing is at a directory or below it. *)
Definition absent (destination : string) (fs : disk) : Prop :=
  forall p, path_elements (Clean destination) `prefix_of` p -> fs !! p = None.

(** A visited file or directory as it is found after extraction. *)
Definition restored_as (self : Z * Z) (preserve : bool) (v : visit) (node : option fnode) : Prop :=
  match v with
  | VRegular info read => exists contents, rg_contents read = Ok contents /\
      node = Some (FFile {| at_Mode := Perm (fi_Mode info);
                            at_Owner := if preserve then (fi_Uid info, fi_Gid info) else self;
                            at_ModTime := Some (fi_ModTime info) |} contents)
  | VDirectory info => exists a, node = Some (FDir a) /\ at_Mode a = Perm (fi_Mode info) /\
      at_ModTime a = Some (fi_ModTime info) /\ (preserve = true -> at_Owner a = (fi_Uid info, fi_Gid info))
  | _ => False
  end.

(** An extraction into a fresh directory of a disk that answers. *)
Record ready (fails : disk_call -> option error) (archivePath destination : string) (fs : disk) : Prop := {
  ry_quiet c : fails c = None;
  ry_archive : IsAbs archivePath = true;
  ry_destination : IsAbs destination = true;
  ry_root : path_elements (Clean destination) <> [];
  ry_absent : absent destination fs;
  ry_parent : is_dir fs (removelast (path_elements (Clean destination))) = true
}.

Lemma source_path sources inline source rel : portable_input sources inline -> source ∈ sources ->
  canonicalPayloadPath (src_ArchivePath source) = Ok (src_ArchivePath source) -> Forall portable rel ->
  path_elements (name_below (src_ArchivePath source) rel) = path_elements (src_ArchivePath source) ++ rel.
Proof.
  intros Hin Hs Hcan Hrel. destruct (canonical_name _ _ Hcan) as [_ [Hup|Hp]].
  - exfalso. apply (pi_up _ _ Hin (src_ArchivePath source)); [|done]. apply list_elem_of_further, elem_of_app. right.
    by apply (list_elem_of_fmap_2 src_ArchivePath).
  - by apply name_below_ok; [|eapply canonical_chars|].
Qed.

(** An entry written for a visited file or directory, once it is extracted. *)
Lemma restored_entry `{ArchiveCodec} digest self destination options all x fs' n p v e :
  extracted_archive digest self destination options all x fs' -> (n, e) ∈ all -> entry_for n v e -> path_elements n = p ->
  restored_as self (eo_PreserveOwnership options) v (fs' !! (path_elements (Clean destination) ++ p)).
Proof.
  intros HA Hne He <-. destruct v as [info|info read| | |]; try done.
  - destruct (ea_dirs _ _ _ _ _ _ _ HA n e Hne) as (node & Hnode & a & -> & Hmode & Htime & Howner); [by rewrite He|].
    rewrite He in Hmode, Htime, Howner. cbn in Hmode. rewrite Perm_Perm in Hmode. exists a. split_and!; done.
  - destruct He as (contents & Hc & Hs & ->). exists contents. split; [done|].
    destruct (ea_files _ _ _ _ _ _ _ HA n _ Hne eq_refl) as [Hf _]. rewrite whole_file in Hf by done.
    unfold entry_attributes in Hf. cbn in Hf. rewrite Perm_Perm in Hf. exact Hf.
Qed.

(** A written archive is extracted. *)
Lemma archive_extracts `{ArchiveCodec} digest fails self archivePath destination options m sources inline es fs :
  codec_ok -> digest_ok digest -> limits_ok (eo_Limits options) -> ready fails archivePath destination fs ->
  ValidateArchiveManifest m = Ok tt -> all_valid_texts (manifest_texts m) = true -> portable_input sources inline ->
  writeArchive digest m sources inline = Ok es -> fits (effective (eo_Limits options)) es ->
  let D := path_elements (Clean destination) in
  let preserve := eo_PreserveOwnership options in
  exists r fs', Extract digest fails self archivePath destination (Ok {| ts_entries := es; ts_end := None |}) options fs = (Ok r, fs') /\
    er_Manifest r = m <| am_Checksum := checksum_metadata |> /\
    (forall source node rel v, source ∈ sources -> src_Node source = Ok node -> (rel, v) ∈ walk [] node ->
       restored_as self preserve v (fs' !! (D ++ path_elements (src_ArchivePath source) ++ rel))) /\
    (forall item, item ∈ inline -> exists a, fs' !! (D ++ path_elements (in_ArchivePath item)) = Some (FFile a (in_Contents item))).
Proof.
  intros [Hcm Hci] Hdig Hl [Hq Hap Ha Hroot Hab Hpar] Hval Htexts Hin Hw Hfit D preserve.
  destruct (writeArchive_Ok digest m sources inline es Hw) as (mb & ib & plan & Hmb & Hib & -> & Hnd & Hsh & Hitems & Htaken & Horig).
  apply canonicalJSON_Ok in Hmb as (mb0 & Hm0 & -> & Hmne), Hib as (ib0 & Hi0 & -> & Hine).
  apply Hcm in Hm0; [|by apply valid_checksum].
  apply Hci in Hi0; [|apply valid_index; [done|]; intros ne Hne; eapply (all_valid) with (indexBytes := ib0 +:+ nl); eauto; by apply elem_of_app; left]. set (all := all_entries (ib0 +:+ nl) plan).
  assert (plan.*2 ++ [writeBytes index_name (ib0 +:+ nl) 384] = all.*2) as Hall by (unfold all, all_entries; by rewrite fmap_app).
  rewrite Hall in Hfit |- *. pose proof Hfit as [Hf1 Hf2 _ _].
  destruct (Extract_succeeds digest fails self Hq archivePath destination options all fs) as (r & x & fs' & Hx & HA & Hv); try done.
  { by eapply all_acceptable. }
  { by eapply all_nodup. }
  { by eapply all_apart. }
  { by rewrite <- (length_fmap snd all). }
  { intros x fs' HA. eexists. eapply all_verified; eauto using validate_checksum. }
  assert (verified x = Ok {| er_Manifest := m <| am_Checksum := checksum_metadata |>; er_Checksums := _ |}) as Hv'
    by (eapply all_verified; eauto using validate_checksum). rewrite Hv in Hv'. injection Hv' as ->.
  eexists _, fs'. split_and!; [exact Hx|done| |].
  - intros source node rel v Hs Hn Hrel. destruct (Htaken source Hs) as (Hcan & node' & Hn' & Htk).
    assert (node' = node) as -> by congruence. destruct (Htk _ Hrel) as ([n e] & Hp & Hname & He). cbn [fst snd] in *. subst n.
    assert (path_elements (name_below (src_ArchivePath source) rel) = path_elements (src_ArchivePath source) ++ rel) as Hpath.
    { eapply source_path; [done|done|done|]. by eapply (pi_names _ _ Hin). }
    eapply restored_entry; [done|apply elem_of_app; by left|done|done].
  - intros item Hi. destruct (Hitems item) as (_ & _ & Hp); [apply elem_of_app; by left|].
    assert (inline_entry item ∈ all) as Hpa by (apply elem_of_app; by left).
    destruct (ea_files _ _ _ _ _ _ _ HA _ _ Hpa eq_refl) as [Hfile _]. rewrite whole_file in Hfile by done. by eexists.
Qed.

(** ** A small archive *)
Definition plain_info (mode size : Z) (inode : Z) : fileInfo :=
  {| fi_Mode := mode; fi_Size := size; fi_Uid := 1000; fi_Gid := 1000; fi_ModTime := "2026-07-01T10:00:00Z"; fi_ID := (8, inode);
     fi_Regular := true |}.

Definition readable (name contents : string) (inode : Z) : string * hostNode :=
  let info := plain_info 416 (size_of contents) inode in
  (name, HRegular info {| rg_open := None; rg_opened := Ok info; rg_contents := Ok contents; rg_after := Ok info |}).

Definition small_tree (files : list (string * hostNode)) : hostNode :=
  HDirectory (plain_info 488 0 10)
    [("data", HDirectory (plain_info 448 0 11) files); readable "settings.json" "{}" 12].

Definition small_source (files : list (string * hostNode)) : Source :=
  {| src_ArchivePath := "application/app/config"; src_Node := Ok (small_tree files) |}.

Definition small_inline : list InlineFile :=
  [{| in_ArchivePath := "metadata/installation.json"; in_Contents := "{}"; in_Mode := 384 |};
   {| in_ArchivePath := "secrets/generated.json"; in_Contents := "{}"; in_Mode := 384 |}].

Definition small_manifest : ArchiveManifest :=
  {| am_Format := FormatName; am_FormatVersion := 1; am_KITProVersion := "0.1.0"; am_CreatedAt := "2026-07-01T10:00:00Z";
     am_ApplicationID := "pihole"; am_InstallationID := "inst-0123456789ab"; am_ReleaseID := "2026.09.0";
     am_RuntimeGeneration := 1; am_Strategy := "cold-filesystem";
     am_Components := [{| bc_ID := "app"; bc_ImageDigest := "image"; bc_DependsOn := [] |}];
     am_Storage := [{| as_Component := "app"; as_ID := "config"; as_Disposition := "include";
                       as_ArchivePath := "application/app/config"; as_OwnerUID := 0; as_OwnerGID := 0 |}];
     am_ImportedStorage := []; am_Databases := []; am_Secrets := []; am_Checksum := {| cs_Algorithm := ""; cs_IndexPath := "" |} |}.

#[local] Instance BackupComponent_eq_dec : EqDecision BackupComponent.
Proof. solve_decision. Defined.
#[local] Instance BackupSecret_eq_dec : EqDecision BackupSecret.
Proof. solve_decision. Defined.
#[local] Instance ChecksumMetadata_eq_dec : EqDecision ChecksumMetadata.
Proof. solve_decision. Defined.
#[local] Instance ArchiveManifest_eq_dec : EqDecision ArchiveManifest.
Proof. solve_decision. Defined.
#[local] Instance ChecksumIndex_eq_dec : EqDecision ChecksumIndex.
Proof. solve_decision. Defined.

Definition hex_digest (_ : string) : string :=
  "0123456789abcdef0123456789abcdef0123456789abcdef0123456789abcdef".

(** A codec for the one manifest and the one index of an archive. *)
Definition one_codec (m : ArchiveManifest) (index : ChecksumIndex) : ArchiveCodec := {|
  jc_stream _ := {| js_tokens := [TDelim LBrace; TDelim RBrace]; js_end := AtEOF |};
  jc_encode_manifest m' := if decide (m' = m) then Ok "manifest" else Err (ErrMsg "unsupported value");
  jc_decode_manifest s := if decide (s = "manifest" +:+ nl) then Ok m else Err (ErrMsg "invalid character");
  jc_encode_index i := if decide (i = index) then Ok "index" else Err (ErrMsg "unsupported value");
  jc_decode_index s := if decide (s = "index" +:+ nl) then Ok index else Err (ErrMsg "invalid character")
|}.

Lemma one_codec_ok m index : @codec_ok (one_codec m index).
Proof.
  split; intros v b _; cbn; (case_decide as Hv; [|done]); intros [= <-]; subst v; unfold strictJSON;
    (replace (rejectDuplicateJSONFields _) with (@Ok unit tt) by reflexivity); cbn [rbind]; by rewrite decide_True.
Qed.

(** The checksums of the archive of [files], whatever its manifest is encoded as. *)
Definition small_index (files : list (string * hostNode)) : ChecksumIndex :=
  let inline := small_inline ++ [{| in_ArchivePath := manifest_name; in_Contents := "manifest" +:+ nl; in_Mode := 384 |}] in
  match rbind (range (inline_step hex_digest) {| wr_seen := ∅; wr_entries := []; wr_checksums := [] |} (sort_by in_ArchivePath inline))
          (fun w => source_step hex_digest w (small_source files)) with
  | Ok w => {| ci_Algorithm := "sha256"; ci_Files := sort_by ce_Path (wr_checksums w) |}
  | Err _ => {| ci_Algorithm := ""; ci_Files := [] |}
  end.

Definition small_codec (files : list (string * hostNode)) : ArchiveCodec :=
  one_codec (small_manifest <| am_Checksum := checksum_metadata |>) (small_index files).

Definition small_archive (files : list (string * hostNode)) : res (list tarEntry) :=
  @writeArchive (small_codec files) hex_digest small_manifest [small_source files] small_inline.

Definition small_entries (files : list (string * hostNode)) : list tarEntry :=
  match small_archive files with Ok es => es | Err _ => [] end.

Definition no_failure (_ : disk_call) : option error := None.
Definition root_user : Z * Z := (0, 0).
Definition small_disk : disk :=
  {[ ["var"] := FDir (new_attributes root_user 493); ["var"; "work"] := FDir (new_attributes root_user 448) ]}.
Definition small_options : ExtractOptions :=
  {| eo_Limits := {| lm_MaxEntries := 0; lm_MaxFileBytes := 0; lm_MaxTotalBytes := 0 |}; eo_PreserveOwnership := true |}.

Definition small_extract (files : list (string * hostNode)) : res ExtractResult * disk :=
  @Extract (small_codec files) hex_digest no_failure root_user "/var/backups/b.tar.gz" "/var/work/extracted"
    (Ok {| ts_entries := small_entries files; ts_end := None |}) small_options small_disk.

Definition ordinary_files : list (string * hostNode) := [readable "list.db" "hosts" 13].

Lemma hex_digest_ok : digest_ok hex_digest.
Proof. intros s. by vm_compute. Qed.

Lemma small_limits : limits_ok (eo_Limits small_options).
Proof. by vm_compute. Qed.

Lemma small_absent : absent "/var/work/extracted" small_disk.
Proof.
  assert (map_Forall (fun p _ => ~ path_elements (Clean "/var/work/extracted") `prefix_of` p) small_disk) as H
    by (apply (bool_decide_unpack _); by vm_compute).
  intros p Hp. destruct (small_disk !! p) eqn:E; [|done]. by destruct (H _ _ E).
Qed.

Lemma small_ready : ready no_failure "/var/backups/b.tar.gz" "/var/work/extracted" small_disk.
Proof. split; [done|by vm_compute|by vm_compute|by vm_compute|apply small_absent|by vm_compute]. Qed.

(** The conditions on the input of [writeArchive], decided. *)
Definition portable_check (sources : list Source) (inline : list InlineFile) : bool :=
  let paths := archive_paths sources inline in
  forallb (fun p => negb (String.eqb p "..") && ValidString p) paths &&
  spread_check (map path_elements paths) &&
  forallb (fun s => match src_Node s with
    | Ok node => forallb (fun rv => forallb (fun e => bool_decide (portable e)) rv.1) (walk [] node)
    | Err _ => true end) sources.

#[local] Instance portable_dec e : Decision (portable e).
Proof. unfold portable, element. apply _. Defined.

Lemma portable_checked sources inline : portable_check sources inline = true -> portable_input sources inline.
Proof.
  intros [[Hup Hap]%andb_prop Hn]%andb_prop. rewrite forallb_forall in Hup, Hn. split.
  - intros p [Hp _]%list_elem_of_In%Hup%andb_prop. by intros ->.
  - by intros p [_ Hp]%list_elem_of_In%Hup%andb_prop.
  - intros i j p q Hi Hj Hpq. eapply (spread_checked _ Hap); [..|exact Hpq]; change (map ?f ?l) with (f <$> l);
      by rewrite list_lookup_fmap, ?Hi, ?Hj.
  - intros source node rel v Hs%list_elem_of_In%Hn Hnode Hrel%list_elem_of_In. rewrite Hnode, forallb_forall in Hs.
    specialize (Hs _ Hrel). cbn in Hs. rewrite forallb_forall in Hs. apply Forall_forall. intros e He%list_elem_of_In%Hs.
    by apply bool_decide_eq_true in He.
Qed.

(** The sizes of an archive, decided. *)
Definition fits_check (limits : ArchiveLimits) (es : list tarEntry) : bool :=
  (Z.of_nat (length es) <=? lm_MaxEntries limits) && (total_size es <=? lm_MaxTotalBytes limits) &&
  forallb (fun e => (entry_size e <=? lm_MaxFileBytes limits) &&
    match validateArchiveName (th_Name (te_header e)) with Ok n => negb (metadata_too_large n (entry_size e)) | Err _ => true end) es.

Lemma fits_checked limits es : fits_check limits es = true -> fits limits es.
Proof.
  intros [[H1 H2]%andb_prop H3]%andb_prop. rewrite forallb_forall in H3. split; [lia|lia| |].
  - intros e [H _]%list_elem_of_In%H3%andb_prop. lia.
  - intros e n [_ H]%list_elem_of_In%H3%andb_prop Hn. rewrite Hn in H. by apply negb_true_iff.
Qed.

Definition small_result (files : list (string * hostNode)) : ExtractResult :=
  match (small_extract files).1 with
  | Ok r => r
  | Err _ => {| er_Manifest := small_manifest; er_Checksums := small_index files |}
  end.

Lemma small_extract_ok : small_extract ordinary_files = (Ok (small_result ordinary_files), (small_extract ordinary_files).2).
Proof.
  assert (is_ok (small_extract ordinary_files).1 = true) as H by (vm_compute; reflexivity).
  unfold small_result. by destruct (small_extract ordinary_files) as [[r|e] fs].
Qed.

Lemma small_archive_ok : small_archive ordinary_files = Ok (small_entries ordinary_files).
Proof.
  assert (is_ok (small_archive ordinary_files) = true) as H by (vm_compute; reflexivity).
  unfold small_entries. by destruct (small_archive ordinary_files).
Qed.

(** An extraction that succeeded was measured exactly. *)
Lemma extracted_measure `{ArchiveCodec} digest fails self archivePath destination s options fs r fs' :
  limits_ok (eo_Limits options) -> absent destination fs ->
  Extract digest fails self archivePath destination (Ok s) options fs = (Ok r, fs') ->
  let limits := effective (eo_Limits options) in
  Measure archivePath (Ok s) (eo_Limits options) = Ok (total_size (ts_entries s), Z.of_nat (length (ts_entries s))) /\
  0 <= total_size (ts_entries s) <= lm_MaxTotalBytes limits /\
  Z.of_nat (length (ts_entries s)) <= lm_MaxEntries limits /\
  Forall (fun e => 0 <= entry_size e <= lm_MaxFileBytes limits) (ts_entries s).
Proof.
  intros Hl Hab Hx limits. destruct (Extract_Ok _ _ _ _ _ _ _ _ _ _ Hl Hab Hx) as (s' & names & x & [= <-] & _ & _ & _ & _ & Hm).
  destruct (effective_positive (eo_Limits options) Hl) as (Hle & ? & ? & ?). rewrite Hm. unfold Measure in Hm. case_decide; [done|].
  cbn [rbind] in Hm. apply measure_spec in Hm as (Ht & Hn & Hb & Hbn & Hf); [|done|lia|lia]. rewrite Z.add_0_l in Ht, Hn.
  rewrite <- Ht, <- Hn. by split_and!; try apply Hb; try apply Hbn.
Qed.

Module ArchiveClaims.

(** C6. Whatever an archive contains and whichever calls fail, extracting it
    touches nothing but the destination and what is below it. *)
Theorem extraction_confined `{ArchiveCodec} digest fails self archivePath destination stream options fs p :
  path_elements (Clean destination) `prefix_of` p \/
  (Extract digest fails self archivePath destination stream options fs).2 !! p = fs !! p.
Proof.
  destruct (decide (path_elements (Clean destination) `prefix_of` p)) as [|Hn]; [by left|right].
  destruct (Extract _ _ _ _ _ _ _ _) as [r fs1] eqn:Hx. by apply (extract_beyond _ _ _ _ _ _ _ _ _ _ Hx).
Qed.

(** C23. An extraction that succeeds has checked every file: apart from the index
    itself, the files below the destination are exactly those the index of the
    archive lists, with the hash, size and permissions listed. *)
Theorem extraction_verified `{ArchiveCodec} digest fails self archivePath destination stream options fs r fs' :
  limits_ok (eo_Limits options) -> absent destination fs ->
  Extract digest fails self archivePath destination stream options fs = (Ok r, fs') ->
  let at_ n := path_elements (Clean destination) ++ path_elements n in
  (forall p a c, fs' !! (path_elements (Clean destination) ++ p) = Some (FFile a c) ->
     p = path_elements index_name \/
     exists item, item ∈ ci_Files (er_Checksums r) /\ p = path_elements (ce_Path item) /\
       ce_SHA256 item = digest c /\ ce_Size item = size_of c /\ ce_Mode item = at_Mode a) /\
  (forall item, item ∈ ci_Files (er_Checksums r) -> exists a c, fs' !! at_ (ce_Path item) = Some (FFile a c) /\
     ce_SHA256 item = digest c /\ ce_Size item = size_of c /\ ce_Mode item = at_Mode a).
Proof.
  intros Hl Hab Hx at_. destruct (Extract_Ok _ _ _ _ _ _ _ _ _ _ Hl Hab Hx) as (s & names & x & -> & _ & Hlen & HA & Hv & Hm).
  destruct (verified_Ok x r Hv) as (_ & Hsum & _). set (done := zip names (ts_entries s)) in *.
  destruct (effective_positive (eo_Limits options) Hl) as (Hle & ? & ? & ?).
  assert (forall n e, (n, e) ∈ done -> regular e = true -> size_of (file_contents e) = entry_size e) as Hsize.
  { intros n e Hin Hr. apply size_file. destruct (ea_files _ _ _ _ _ _ _ HA n e Hin Hr) as [_ Hle']. split; [|done].
    unfold Measure in Hm. case_decide; [done|]. cbn [rbind] in Hm. apply measure_spec in Hm as (_ & _ & _ & _ & Hf); [|done|lia|lia].
    rewrite Forall_forall in Hf. apply Hf. by apply elem_of_zip_r in Hin. }
  assert (forall n c, ex_observed x !! n = Some c -> ce_Path c = n) as Hkey.
  { intros n c (e & _ & _ & _ & ->)%(ea_observed _ _ _ _ _ _ _ HA). done. }
  pose proof (verified_index _ _ Hkey Hsum) as Hidx. split.
  - intros p a c Hfile. destruct (ea_only _ _ _ _ _ _ _ HA p a c Hfile) as (n & e & Hin & Hr & ->).
    destruct (decide (n = index_name)) as [->|Hni]; [by left|right].
    destruct (ea_files _ _ _ _ _ _ _ HA n e Hin Hr) as [Hf _]. unfold at_name in Hf. rewrite Hfile in Hf. injection Hf as -> ->.
    exists (observed_entry n (digest (file_contents e)) (te_header e)). split_and!; [|done|done|cbn|done].
    + apply Hidx. apply (ea_observed _ _ _ _ _ _ _ HA). by exists e.
    + symmetry. by eapply Hsize.
  - intros item Hit%Hidx. apply (ea_observed _ _ _ _ _ _ _ HA) in Hit as (e & Hin & Hr & Hni & Heq).
    destruct (ea_files _ _ _ _ _ _ _ HA _ e Hin Hr) as [Hf _]. exists (entry_attributes self (eo_PreserveOwnership options) e), (file_contents e).
    split; [done|]. rewrite Heq. cbn. split_and!; [done| |done]. symmetry. by eapply Hsize.
Qed.

(** C25. What is extracted is within the limits, and is what was measured before:
    the measurement of the archive succeeds with the exact total, which no
    addition wrapped around, so that the space it asks for is enough. *)
Theorem extraction_bounded `{ArchiveCodec} digest fails self archivePath destination s options fs r fs' :
  limits_ok (eo_Limits options) -> absent destination fs ->
  Extract digest fails self archivePath destination (Ok s) options fs = (Ok r, fs') ->
  let limits := effective (eo_Limits options) in
  Measure archivePath (Ok s) (eo_Limits options) = Ok (total_size (ts_entries s), Z.of_nat (length (ts_entries s))) /\
  0 <= total_size (ts_entries s) <= lm_MaxTotalBytes limits /\
  Z.of_nat (length (ts_entries s)) <= lm_MaxEntries limits /\
  Forall (fun e => 0 <= entry_size e <= lm_MaxFileBytes limits) (ts_entries s).
Proof.
  apply extracted_measure.
Qed.

(** An extraction that fails leaves the disk as it was, if what it wrote can
    be removed. *)
Theorem failed_extraction_undone `{ArchiveCodec} digest fails self archivePath destination stream options fs e fs' :
  fails (CRemoveAll (path_elements (Clean destination))) = None -> absent destination fs ->
  Extract digest fails self archivePath destination stream options fs = (Err e, fs') -> fs' = fs.
Proof. intros Hr Hab. by apply extract_failure. Qed.

(** C8. A backup that was written can be extracted.  If the names of the files in
    the sources are portable (valid UTF-8 without a backslash), the paths given
    for them do not overlap, the texts of the manifest are valid UTF-8, and the
    archive is within the limits, then extracting it to a new directory of a
    disk that answers, with an encoding that reads back what it wrote, yields
    the manifest that was written and every directory and file of every source,
    and every inline file, with its contents, permissions, owner and time. *)
Theorem written_archive_extracts `{ArchiveCodec} digest fails self archivePath destination options m sources inline es fs :
  codec_ok -> digest_ok digest -> limits_ok (eo_Limits options) -> ready fails archivePath destination fs ->
  ValidateArchiveManifest m = Ok tt -> all_valid_texts (manifest_texts m) = true -> portable_input sources inline ->
  writeArchive digest m sources inline = Ok es -> fits (effective (eo_Limits options)) es ->
  let D := path_elements (Clean destination) in
  let preserve := eo_PreserveOwnership options in
  exists r fs', Extract digest fails self archivePath destination (Ok {| ts_entries := es; ts_end := None |}) options fs = (Ok r, fs') /\
    er_Manifest r = m <| am_Checksum := checksum_metadata |> /\
    (forall source node rel v, source ∈ sources -> src_Node source = Ok node -> (rel, v) ∈ walk [] node ->
       restored_as self preserve v (fs' !! (D ++ path_elements (src_ArchivePath source) ++ rel))) /\
    (forall item, item ∈ inline -> exists a, fs' !! (D ++ path_elements (in_ArchivePath item)) = Some (FFile a (in_Contents item))).
Proof. apply archive_extracts. Qed.

(** The files of the small archive are listed in its index. *)
Lemma extraction_verified_witness :
  (exists a c, (small_extract ordinary_files).2 !! ["var"; "work"; "extracted"; "application"; "app"; "config"; "data"; "list.db"] = Some (FFile a c)) /\
  forall item, item ∈ ci_Files (er_Checksums (small_result ordinary_files)) ->
    exists a c, (small_extract ordinary_files).2 !! (path_elements (Clean "/var/work/extracted") ++ path_elements (ce_Path item)) = Some (FFile a c) /\
      ce_SHA256 item = hex_digest c /\ ce_Size item = size_of c /\ ce_Mode item = at_Mode a.
Proof.
  split; [do 2 eexists; vm_compute; reflexivity|].
  exact (proj2 (extraction_verified (H := small_codec ordinary_files) hex_digest no_failure root_user "/var/backups/b.tar.gz"
    "/var/work/extracted" _ small_options small_disk _ _ small_limits small_absent small_extract_ok)).
Defined.

(** The small archive has eight entries. *)
Lemma extraction_bounded_witness :
  Measure "/var/backups/b.tar.gz" (Ok {| ts_entries := small_entries ordinary_files; ts_end := None |}) (eo_Limits small_options) =
    Ok (total_size (small_entries ordinary_files), 8) /\ 0 < total_size (small_entries ordinary_files).
Proof.
  split; [|vm_compute; reflexivity]. assert (8 = Z.of_nat (length (small_entries ordinary_files))) as -> by (vm_compute; reflexivity).
  exact (proj1 (extraction_bounded (H := small_codec ordinary_files) hex_digest no_failure root_user "/var/backups/b.tar.gz"
    "/var/work/extracted" _ small_options small_disk _ _ small_limits small_absent small_extract_ok)).
Defined.

(** The small archive without its index is refused. *)
Lemma failed_extraction_undone_witness :
  let stream := Ok {| ts_entries := removelast (small_entries ordinary_files); ts_end := None |} in
  exists e fs', @Extract (small_codec ordinary_files) hex_digest no_failure root_user "/var/backups/b.tar.gz" "/var/work/extracted"
    stream small_options small_disk = (Err e, fs') /\ fs' = small_disk.
Proof.
  intros stream. assert (is_ok (@Extract (small_codec ordinary_files) hex_digest no_failure root_user "/var/backups/b.tar.gz"
    "/var/work/extracted" stream small_options small_disk).1 = false) as Hn by (vm_compute; reflexivity).
  destruct (Extract _ _ _ _ _ _ _ _) as [[r|e] fs'] eqn:Hx; [done|].
  exists e, fs'. split; [done|].
  exact (failed_extraction_undone (H := small_codec ordinary_files) hex_digest no_failure root_user "/var/backups/b.tar.gz"
    "/var/work/extracted" stream small_options small_disk e fs' eq_refl small_absent Hx).
Defined.

(** The small tree comes back. *)
Lemma written_archive_extracts_witness : exists r fs',
  small_extract ordinary_files = (Ok r, fs') /\ er_Manifest r = small_manifest <| am_Checksum := checksum_metadata |>.
Proof.
  destruct (written_archive_extracts (H := small_codec ordinary_files) hex_digest no_failure root_user "/var/backups/b.tar.gz"
    "/var/work/extracted" small_options small_manifest [small_source ordinary_files] small_inline (small_entries ordinary_files) small_disk)
    as (r & fs' & Hx & Hm & _).
  - apply one_codec_ok.
  - apply hex_digest_ok.
  - apply small_limits.
  - apply small_ready.
  - vm_compute. reflexivity.
  - vm_compute. reflexivity.
  - apply portable_checked. vm_compute. reflexivity.
  - apply small_archive_ok.
  - apply fits_checked. vm_compute. reflexivity.
  - exists r, fs'. split; [exact Hx|exact Hm].
Defined.

(** A file whose name has a backslash is written into a backup that no
    extraction accepts. *)
Example backslash_unrestorable :
  let files := [readable "a\b" "hosts" 13] in
  small_archive files = Ok (small_entries files) /\ length (small_entries files) = 8%nat /\
  (small_extract files).1 = Err (ErrMsg "unsafe or duplicate archive entry").
Proof. vm_compute. repeat split; reflexivity. Qed.

(** Neither the measurement nor the names of an archive refuse the entry [..];
    the extraction does, by the comparison with its destination. *)
Example parent_entry_refused_late :
  validateArchiveName (archiveName "..") = Ok ".." /\
  let e := writeBytes ".." "" 384 in
  is_ok (Measure "/b" (Ok {| ts_entries := [e]; ts_end := None |}) (eo_Limits small_options)) = true /\
  (@Extract (small_codec []) hex_digest no_failure root_user "/b" "/var/work/extracted" (Ok {| ts_entries := [e]; ts_end := None |})
    small_options small_disk).1 = Err (ErrMsg "archive entry escapes destination").
Proof. vm_compute. repeat split; reflexivity. Qed.
End ArchiveClaims.
