(* ===== verification/Backup.v ===== *)
(** * Creating a backup ([createApplicationBackup] of
    [cmd/kitpro-helper/application_backup.go])

    The containers of the application are stopped while its managed directories
    are copied, and started again before the archive is written.  The calls on
    the container engine and on the database are those of [Restore.v], and the
    archive is written by [Create] of [Archive.v]; the results of the other
    calls (sizes, free space, copies, the databases found in them, encodings and
    hashes) are a record.  The workspace and its removal are left out. *)

From S2P Require Import Prelude Protocol Exposure HelperDB Coordinator NetIP ExposurePolicy Ingress Containers Manifest ExternalStorage Secrets BackupPlan Restore Archive.
From stdpp Require Import base strings list gmap sorting.
From Stdlib Require Import ZArith Lia Ascii.

Import Wire.
Open Scope Z_scope.

Record installationMetadata : Type := {
  im_Version : Z;
  im_RuntimeGeneration : Z;
  im_RunningComponents : list string
}.

Record ManagedSource : Type := {
  ms_Component : string;
  ms_StorageID : string;
  ms_Path : string;
  ms_OwnerUID : Z;
  ms_OwnerGID : Z
}.

(** [bh_size]: [TreeSize] of a directory; [bh_parent], [bh_copy]: the staging of
    a directory; [bh_staged]: the copy as [writeArchive] finds it;
    [bh_databases]: [DiscoverAndVerifySQLite]; [bh_archive_hash]: the hash of the
    published file; [bh_removes]: whether a removal of the archive succeeds. *)
Record backup_calls : Type := {
  bh_directory : string;
  bh_prepare : res unit;
  bh_secure : res unit;
  bh_size : string -> res Z;
  bh_space : Z -> res unit;
  bh_workspace : res string;
  bh_parent : string -> res unit;
  bh_copy : string -> string -> res unit;
  bh_staged : string -> res hostNode;
  bh_databases : list ManagedSource -> res (list BackupDatabase);
  bh_secrets_json : secretValues -> res string;
  bh_metadata_json : installationMetadata -> string;
  bh_version : string;
  bh_stamp : string -> string;
  bh_create : create_calls;
  bh_archive_hash : string -> list tarEntry -> res string;
  bh_removes : bool
}.

Notation archives := (gmap string (list tarEntry)).

Definition workspaceOverhead : Z := Z.shiftl 64 20.

Record createdBackup : Type := {
  cb_backup_id : string;
  cb_filename : string;
  cb_sha256 : string;
  cb_created_at : string;
  cb_databases : nat
}.

Section backup.
Context {E : Type} `{Host : RestoreHost E} `{Codec : ArchiveCodec} (digest : string -> string)
        (catalog : res (gmap string Manifest)) (calls : backup_calls).

(** The total size of the included directories. *)
Definition size_step (sourceBytes : Z) (s : managedBackupStorage) : res Z :=
  match bh_size calls (mg_HostPath s) with
  | Err e => Err (ErrWrap "inspect managed storage" e)
  | Ok size =>
      refuse (size < 0 \/ MaxInt64 - size < sourceBytes) with "managed storage is too large" in Ok (sourceBytes + size)
  end.

(** Everything up to the workspace, which is the result. *)
Definition prepare_backup (plan : applicationBackupPlan) : res string :=
  ensure wrapped "prepare application backup directory" (bh_prepare calls) in
  ensure wrapped "secure application backup directory" (bh_secure calls) in
  rbind (range size_step 0 (included_storage plan)) (fun sourceBytes =>
  refuse ((MaxInt64 - workspaceOverhead) / 2 < sourceBytes) with "managed storage is too large" in
  ensure bh_space calls (sourceBytes * 2 + workspaceOverhead) in
  wrapped "create backup workspace" (bh_workspace calls)).

(** [snapshotBackupRuntime(runtime, plan, true)].  [component.Running] of the
    component a name stands for is the last entry of [running] under that name,
    so that the containers are stopped as [quiesceRecordedBackupRuntime] does. *)
Definition quiesceBackupRuntime (plan : applicationBackupPlan) : rprog E (res (gmap string bool)) :=
  try* running := snapshotBackupRuntime plan catch e => pret (Err e) in
  try* _ := quiesce_from plan running (rev (bp_StartOrder plan)) catch e => pret (Err e) in
  pret (Ok running).

Definition snapshot_for_backup (plan : applicationBackupPlan) (stop : bool) : rprog E (res (gmap string bool)) :=
  if stop then quiesceBackupRuntime plan else snapshotBackupRuntime plan.

Definition staged_path (workspace : string) (s : managedBackupStorage) : string :=
  Ingress.Join [workspace; "application"; as_Component (mg_Manifest s); as_ID (mg_Manifest s)].

Definition stage_step (workspace : string) (acc : list ManagedSource * list Source) (s : managedBackupStorage)
    : res (list ManagedSource * list Source) :=
  let destination := staged_path workspace s in
  ensure bh_parent calls destination in
  ensure wrapped "stage managed storage" (bh_copy calls (mg_HostPath s) destination) in
  Ok (acc.1 ++ [{| ms_Component := as_Component (mg_Manifest s); ms_StorageID := as_ID (mg_Manifest s); ms_Path := destination;
                   ms_OwnerUID := as_OwnerUID (mg_Manifest s); ms_OwnerGID := as_OwnerGID (mg_Manifest s) |}],
      acc.2 ++ [{| src_ArchivePath := as_ArchivePath (mg_Manifest s); src_Node := bh_staged calls destination |}]).

Definition stage_backup (plan : applicationBackupPlan) (workspace : string) : res (list ManagedSource * list Source) :=
  range (stage_step workspace) ([], []) (included_storage plan).

Definition strategy (plan : applicationBackupPlan) : string := mbp_Strategy (backup_policy (bp_Application plan)).

Definition found_databases (plan : applicationBackupPlan) (staged : list ManagedSource) : res (list BackupDatabase) :=
  if decide (strategy plan = "cold-sqlite-filesystem") then bh_databases calls staged else Ok [].

Definition backup_manifest (request : Request) (plan : applicationBackupPlan) (databases : list BackupDatabase) (now : string)
    : ArchiveManifest :=
  {| am_Format := FormatName; am_FormatVersion := FormatVersion; am_KITProVersion := bh_version calls; am_CreatedAt := now;
     am_ApplicationID := ma_ID (bp_Application plan); am_InstallationID := rq_InstanceID request;
     am_ReleaseID := bp_ReleaseID plan; am_RuntimeGeneration := bp_Generation plan; am_Strategy := strategy plan;
     am_Components := map oc_Manifest (bp_Components plan); am_Storage := map mg_Manifest (bp_Storage plan);
     am_ImportedStorage := bp_Imported plan; am_Databases := databases;
     am_Secrets := map (fun s => {| bs_Component := sv_Component s; bs_Name := sv_Name s; bs_Included := true |})
                     (svs_Values (bp_Secrets plan));
     am_Checksum := {| cs_Algorithm := ""; cs_IndexPath := "" |} |}.

Definition metadata_name : string := "metadata/installation.json".
Definition secrets_name : string := "secrets/generated.json".

Definition backup_inline (plan : applicationBackupPlan) (running : gmap string bool) (secretBytes : string) : list InlineFile :=
  let metadata := {| im_Version := 1; im_RuntimeGeneration := bp_Generation plan; im_RunningComponents := running_ids running |} in
  [{| in_ArchivePath := metadata_name; in_Contents := bh_metadata_json calls metadata +:+ nl; in_Mode := 384 |};
   {| in_ArchivePath := secrets_name; in_Contents := secretBytes +:+ nl; in_Mode := 384 |}].

Definition backup_filename (request : Request) (plan : applicationBackupPlan) (now : string) : string :=
  ma_ID (bp_Application plan) +:+ "--" +:+ rq_InstanceID request +:+ "--" +:+ bh_stamp calls now +:+ "--" +:+
  SemanticOperationID request +:+ ".kitpro-backup.tar.gz".

Definition removed (path : string) (files : archives) : archives := if bh_removes calls then delete path files else files.

Definition insert_backup (backup : string) (row : backupRow) : tx rdb unit := fun d =>
  match pd_backups (rd_plan d) !! backup with
  | Some _ => Err (ErrSQL "UNIQUE constraint failed: application_backups.backup_id")
  | None => Ok (tt, d <| rd_plan := rd_plan d <| pd_backups := <[backup := row]> (pd_backups (rd_plan d)) |> |>)
  end.

(** The part after the application runs again. *)
Definition archive_backup (request : Request) (plan : applicationBackupPlan) (running : gmap string bool)
    (staged : list ManagedSource * list Source) (files : archives) : rprog E (res createdBackup * archives) :=
  match found_databases plan staged.1, bh_secrets_json calls (bp_Secrets plan) with
  | Err e, _ | Ok _, Err e => pret (Err e, files)
  | Ok databases, Ok secretBytes =>
      run* now := clock in
      let filename := backup_filename request plan now in
      let archivePath := Ingress.Join [bh_directory calls; filename] in
      match Create digest (bh_create calls) archivePath (backup_manifest request plan databases now) staged.2
              (backup_inline plan running secretBytes) files with
      | (Err e, files) => pret (Err e, files)
      | (Ok _, files) =>
          match bh_archive_hash calls archivePath (default [] (files !! archivePath)) with
          | Err e => pret (Err e, removed archivePath files)
          | Ok archiveHash =>
              let row := {| bk_installation := rq_InstanceID request; bk_application := ma_ID (bp_Application plan);
                            bk_release := bp_ReleaseID plan; bk_generation := bp_Generation plan;
                            bk_archive_path := archivePath; bk_archive_sha256 := archiveHash |} in
              run* inserted := rstore (fun _ => insert_backup (SemanticOperationID request) row) in
              match inserted with
              | Err e => pret (Err (ErrWrap "record application backup" e), removed archivePath files)
              | Ok _ => pret (Ok {| cb_backup_id := SemanticOperationID request; cb_filename := filename; cb_sha256 := archiveHash;
                                    cb_created_at := now; cb_databases := length databases |}, files)
              end
          end
      end
  end.

Definition createApplicationBackup (request : Request) (files : archives) : rprog E (res createdBackup * archives) :=
  try* plan := load_plan catalog request catch e => pret (Err e, files) in
  match prepare_backup plan with
  | Err e => pret (Err e, files)
  | Ok workspace =>
      let stopForBackup := negb (bool_decide (strategy plan = "metadata-only")) in
      try* running := snapshot_for_backup plan stopForBackup catch e => pret (Err e, files) in
      match stage_backup plan workspace with
      | Err e =>
          run* _ := (if stopForBackup then resumeBackupRuntime plan running else pret (Ok tt)) in pret (Err e, files)
      | Ok staged =>
          try* _ := (if stopForBackup then resumeBackupRuntime plan running else pret (Ok tt))
          catch e => pret (Err (ErrWrap "resume application after backup" e), files) in
          archive_backup request plan running staged files
      end
  end.
End backup.

(** ** The archive a restore opens

    What [restoreApplicationBackupWithFence] gets of the file at the path of a
    backup: the hash, the measured size, the manifest of the extraction into the
    workspace and the secrets read back from it. *)
Definition no_limits : ArchiveLimits := {| lm_MaxEntries := 0; lm_MaxFileBytes := 0; lm_MaxTotalBytes := 0 |}.

Definition extract_root (workspace : string) : string := Ingress.Join [workspace; "extracted"].

Definition extraction_of `{ArchiveCodec} (digest : string -> string) (fails : disk_call -> option error) (self : Z * Z)
    (preserve : bool) (archivePath workspace : string) (stream : res tarStream) (fs : disk) : res ExtractResult * disk :=
  Extract digest fails self archivePath (extract_root workspace) stream
    {| eo_Limits := no_limits; eo_PreserveOwnership := preserve |} fs.

Definition opened_archive `{ArchiveCodec} (digest : string -> string) (fails : disk_call -> option error) (self : Z * Z)
    (preserve : bool) (decode : string -> option secretValues) (directory : string) (hash : string -> res string)
    (space : Z -> res unit) (databases : res (list BackupDatabase)) (archivePath workspace : string) (stream : res tarStream)
    (fs : disk) : archive :=
  let x := extraction_of digest fails self preserve archivePath workspace stream fs in
  {| ar_directory := directory; ar_sha256 := hash;
     ar_measure := rbind (Measure archivePath stream no_limits) (fun m => Ok m.1);
     ar_space := space; ar_workspace := Ok tt; ar_extract := rbind x.1 (fun r => Ok (er_Manifest r));
     ar_secrets := match x.2 !! (path_elements (Clean (extract_root workspace)) ++ ["secrets"; "generated.json"]) with
                   | Some (FFile _ contents) => decode contents
                   | _ => None
                   end;
     ar_databases := databases |}.
