(* ===== verification/BackupProofs.v ===== *)
(** * Creating a backup: lemmas

    What a run that succeeds has written and recorded, and that its manifest
    and its secrets pass the checks of a restore. *)

From S2P Require Import Prelude Protocol Exposure HelperDB Coordinator NetIP ExposurePolicy Ingress IngressProofs IngressRender Containers Manifest ManifestProofs ManifestProps ExternalStorage HelperPlan HelperPlanProofs HelperPlanProps Secrets BackupPlan Restore RestoreProofs RestoreRecoveryProofs Archive ArchivePaths ArchiveRoundtrip Backup.
From stdpp Require Import base strings list gmap sorting.
From Stdlib Require Import ZArith Lia.

Import Wire.
Open Scope Z_scope.

(** ** The archive *)
Lemma Create_Ok `{ArchiveCodec} digest calls destination m sources inline files path files' :
  Create digest calls destination m sources inline files = (Ok path, files') ->
  ValidateArchiveManifest m = Ok tt /\
  exists entries, writeArchive digest m sources inline = Ok entries /\ files' !! destination = Some entries.
Proof.
  unfold Create, then_. destruct (ValidateArchiveManifest m) as [[]|] eqn:Hv; [|done]. cbn [rbind].
  case_decide; [done|]. destruct (ca_mkdir calls); [|done]. destruct (files !! _); [done|]. destruct (ca_open calls); [|done].
  destruct (writeArchive _ _ _ _) as [es|] eqn:Hw; [|done]. cbn [rbind]. destruct (ca_write calls); [|done]. cbn [rbind].
  destruct (ca_sync calls); [|done]. destruct (ca_close calls); [|done]. destruct (ca_rename calls); [|done].
  destruct (ca_sync_directory calls); [|done]. intros [= <- <-]. split; [done|]. exists es. by rewrite lookup_insert_eq.
Qed.

(** ** A successful run *)
Section run.
Context {E : Type} `{Host : RestoreHost E} `{Codec : ArchiveCodec} (digest : string -> string)
        (catalog : res (gmap string Manifest)) (calls : backup_calls) (request : Request).

Definition archive_path (plan : applicationBackupPlan) (now : string) : string :=
  Ingress.Join [bh_directory calls; backup_filename calls request plan now].

Definition row_of (plan : applicationBackupPlan) (now hash : string) : backupRow :=
  {| bk_installation := rq_InstanceID request; bk_application := ma_ID (bp_Application plan); bk_release := bp_ReleaseID plan;
     bk_generation := bp_Generation plan; bk_archive_path := archive_path plan now; bk_archive_sha256 := hash |}.

(** What was written for a plan. *)
Record backup_written (plan : applicationBackupPlan) (running : gmap string bool) (workspace : string)
    (databases : list BackupDatabase) (secretBytes now hash : string) (sources : list Source) (entries : list tarEntry) : Prop := {
  bw_sources : exists staged, stage_backup calls plan workspace = Ok (staged, sources) /\ found_databases calls plan staged = Ok databases;
  bw_secrets : bh_secrets_json calls (bp_Secrets plan) = Ok secretBytes;
  bw_valid : ValidateArchiveManifest (backup_manifest calls request plan databases now) = Ok tt;
  bw_entries : writeArchive digest (backup_manifest calls request plan databases now) sources
                 (backup_inline calls plan running secretBytes) = Ok entries;
  bw_hash : bh_archive_hash calls (archive_path plan now) entries = Ok hash
}.

Definition backup_recorded (d : rdb) (fs : files) (files' : archives) (r : createdBackup) (d' : rdb) : Prop :=
  exists plan running workspace databases secretBytes now hash sources entries,
    loadApplicationBackupPlan catalog (is_directory fs) (rd_plan d) request = Ok plan /\
    backup_written plan running workspace databases secretBytes now hash sources entries /\
    files' !! archive_path plan now = Some entries /\
    pd_backups (rd_plan d) !! SemanticOperationID request = None /\
    d' = d <| rd_plan := rd_plan d <| pd_backups := <[SemanticOperationID request := row_of plan now hash]> (pd_backups (rd_plan d)) |> |> /\
    r = {| cb_backup_id := SemanticOperationID request; cb_filename := backup_filename calls request plan now; cb_sha256 := hash;
           cb_created_at := now; cb_databases := length databases |}.

Definition backup_end (d : rdb) (fs : files) (a : res createdBackup * archives) : rassn := fun d' fs' _ =>
  fs' = fs /\ match a.1 with Ok r => backup_recorded d fs a.2 r d' | Err _ => d' = d end.

Definition unchanged (d : rdb) (fs : files) : rassn := fun d' fs' _ => d' = d /\ fs' = fs.

Lemma unchanged_log d0 fs0 d fs l l' : unchanged d0 fs0 d fs l -> unchanged d0 fs0 d fs l'.
Proof. done. Qed.

Lemma snapshot_unchanged d0 fs0 plan stop : rkeeps (unchanged d0 fs0) (snapshot_for_backup (E:=E) plan stop).
Proof.
  unfold snapshot_for_backup, quiesceBackupRuntime. destruct stop; [|apply rkeeps_snapshot].
  apply rkeeps_try; [apply rkeeps_snapshot|intros; apply rkeeps_ret|]. intros running.
  apply rkeeps_try; [apply rkeeps_quiesce, unchanged_log|intros; apply rkeeps_ret|]. intros _. apply rkeeps_ret.
Qed.

Lemma resume_unchanged d0 fs0 plan running (stop : bool) :
  rkeeps (unchanged d0 fs0) (if stop then resumeBackupRuntime (E:=E) plan running else pret (Ok tt)).
Proof. destruct stop; [apply rkeeps_resume_any, unchanged_log|apply rkeeps_ret]. Qed.

Lemma archive_backup_spec plan running workspace staged sources files d fs l :
  loadApplicationBackupPlan catalog (is_directory fs) (rd_plan d) request = Ok plan ->
  stage_backup calls plan workspace = Ok (staged, sources) ->
  rwp (archive_backup (E:=E) digest calls request plan running (staged, sources) files) (backup_end d fs) (unchanged d fs) d fs l.
Proof.
  intros Hp Hs. unfold archive_backup. cbn [fst snd].
  destruct (found_databases _ _ _) as [databases|] eqn:Hd; [|by apply rwp_ret].
  destruct (bh_secrets_json _ _) as [secretBytes|] eqn:Hsec; [|by apply rwp_ret].
  apply rwp_bind, rwp_clock; [done|]. intros now. fold (archive_path plan now).
  destruct (Create _ _ _ _ _ _ _) as [[path|] files'] eqn:Hc; [|by apply rwp_ret].
  apply Create_Ok in Hc as (Hv & entries & Hw & Hf). rewrite Hf. cbn [default].
  destruct (bh_archive_hash _ _ _) as [hash|] eqn:Hh; [|by apply rwp_ret]. fold (row_of plan now hash).
  apply rwp_bind, rwp_rstore; [done|by intros; apply rwp_ret|]. intros t [] d' Hi. apply rwp_ret. split; [done|]. cbn.
  unfold insert_backup in Hi. destruct (pd_backups _ !! _) eqn:Hn; [done|]. injection Hi as <-.
  exists plan, running, workspace, databases, secretBytes, now, hash, sources, entries. split_and!; try done.
  split; try done. by exists staged.
Qed.

Lemma create_spec files d fs l :
  rwp (createApplicationBackup (E:=E) digest catalog calls request files) (backup_end d fs) (unchanged d fs) d fs l.
Proof.
  unfold createApplicationBackup, load_plan. apply rwp_try, rwp_rquery; [done|by intros; apply rwp_ret|]. intros plan Hp.
  destruct (prepare_backup _ _) as [workspace|]; [|by apply rwp_ret].
  apply rwp_try. eapply rwp_mono; [by apply (snapshot_unchanged d fs)| |done]. intros [running|] ? ? l1 [-> ->]; [|by apply rwp_ret].
  destruct (stage_backup _ _ _) as [[staged sources]|] eqn:Hs.
  - apply rwp_try. eapply rwp_mono; [by apply (resume_unchanged d fs)| |done]. intros [[]|] ? ? l2 [-> ->]; [|by apply rwp_ret].
    by eapply archive_backup_spec.
  - apply rwp_bind. eapply rwp_mono; [by apply (resume_unchanged d fs)| |done]. intros ? ? ? l2 [-> ->]. by apply rwp_ret.
Qed.
End run.

(** ** The checks of a restore *)

(** The directory of a file that was joined with it. *)
Lemma Dir_join dir name : IsAbs dir = true -> plain (text name) -> Dir (Ingress.Join [dir; name]) = Clean dir.
Proof.
  intros Hd Hp. assert (name <> "") as Hne by (intros ->; by destruct Hp as (_ & ? & _)).
  assert (split_at 47 (text name) [] = [text name]) as Hsplit by (apply (split_join 47 [text name]); [done|constructor; [apply Hp|constructor]]).
  assert (proper name) as Hpr by (unfold proper; rewrite Hsplit; by constructor).
  set (k := kept true dir). assert (Forall plain k) as Hk by apply kept_plain.
  assert (Forall plain (k ++ [text name])) as Hk' by (apply Forall_app; split; [done|by constructor]).
  assert (Forall (Forall (fun b => b < 256)%N) k) as Hkb by apply kept_bytes.
  assert (Ingress.Join [dir; name] = "/" +:+ untext (join_at 47 (k ++ [text name]))) as ->.
  { rewrite Join_two by done. rewrite Clean_kept, (IsAbs_app dir _ Hd). rewrite target_kept by done. by rewrite Hsplit. }
  unfold Dir. rewrite text_slash, text_joined, split_clean, decide_False; [|by destruct k|done|].
  2:{ apply Forall_app. split; [done|]. constructor; [apply name_bytes|constructor]. }
  assert (removelast ([] :: k ++ [text name]) = [] :: k) as -> by apply (removelast_last ([] :: k)).
  rewrite (Clean_kept dir), Hd. fold k.
  destruct (decide (k = [])) as [Hnil|Hnil].
  { rewrite Hnil. reflexivity. }
  assert (join_at 47 ([] :: k) = 47%N :: join_at 47 k) as -> by (by destruct k).
  assert (untext (47%N :: join_at 47 k) +:+ "/" = "/" +:+ (untext (join_at 47 k) +:+ "/")) as -> by reflexivity.
  rewrite Clean_kept. cbn [IsAbs]. assert (IsAbs ("/" +:+ (untext (join_at 47 k) +:+ "/")) = true) as -> by reflexivity.
  do 2 f_equal. unfold kept. rewrite text_slash, text_app, text_joined by done. cbn [split_at N.eqb Pos.eqb foldl clean_step].
  change (text "/") with (47%N :: []). rewrite split_at_sep, (split_join 47 k) by (done || by apply plain_nonempty).
  change (split_at 47 [] []) with [@nil N]. rewrite foldl_app, (foldl_plain true k []) by done. cbn. by rewrite app_nil_r, rev_involutive.
Qed.

(** Secrets loaded for a backup, in the same order. *)
Lemma secrets_scanned expected rows remaining values seen rest out :
  remaining = expected ∖ seen -> seen ⊆ expected ->
  range secret_step (remaining, values) rows = Ok (rest, out) ->
  exists new, out = values ++ new /\ Forall (fun v => decodes_hex (sv_Value v) = true) new /\
    exists seen', range (restored_secret_step expected) seen new = Ok seen' /\ rest = expected ∖ seen' /\ seen' ⊆ expected.
Proof.
  revert remaining values seen. induction rows as [|[[component name] value] rows IH]; intros remaining values seen -> Hsub; cbn.
  - intros [= <- <-]. exists []. rewrite app_nil_r. split_and!; [done|constructor|]. by exists seen.
  - case_decide as Hbad; [done|]. case_decide as Hhex; [done|]. set (key := storageKey _ _) in *.
    assert (key ∈ expected ∖ seen) as Hkey by (apply dec_stable; tauto). intros Hr.
    apply (IH _ _ ({[key]} ∪ seen)) in Hr as (new & -> & Hnew & seen' & Hs & -> & Hsub'); [| |set_solver].
    + eexists ({| sv_Component := archive_component component; sv_Name := name; sv_Value := value |} :: new).
      rewrite <- app_assoc. split_and!; [done|constructor; [by apply not_false_is_true|done]|]. exists seen'.
      cbn [range]. unfold restored_secret_step at 1. cbn [sv_Component sv_Name sv_Value]. fold key.
      rewrite decide_False by set_solver. rewrite decide_False by done. done.
    + set_solver.
Qed.

Lemma loaded_secrets_read secrets installation application values :
  loadBackupSecrets secrets installation application = Ok values ->
  readRestoreSecrets (Some values) application = Ok values /\ Forall (fun v => decodes_hex (sv_Value v) = true) (svs_Values values).
Proof.
  unfold loadBackupSecrets. destruct (range _ _ _) as [[rest out]|] eqn:Hr; [|done]. cbn [rbind fst snd]. case_decide as He; [done|].
  intros [= <-]. apply (secrets_scanned (expected_secrets application) _ _ _ ∅) in Hr as (new & -> & Hhex & seen & Hs & -> & Hsub); [|set_solver|set_solver].
  split; [|done]. unfold readRestoreSecrets. cbn [svs_Version svs_Values]. rewrite decide_False by (by intros H; apply H).
  cbn [app]. rewrite Hs. cbn [rbind]. rewrite decide_False; [done|]. intros H. apply H. f_equal.
  apply (anti_symm (⊆)); [done|]. intros k Hk. destruct (decide (k ∈ seen)); [done|]. set_solver.
Qed.

Lemma all_same_map {A B} (same : A -> B -> bool) (f : B -> A) l : (forall b, same (f b) b = true) -> all_same same (map f l) l = true.
Proof. intros H. induction l as [|b l IH]; [done|]. cbn. by rewrite H, IH. Qed.

(** The manifest of a backup is accepted for every plan of the same application,
    components, directories and imported storage. *)
Definition same_target (plan plan' : applicationBackupPlan) : Prop :=
  bp_Application plan' = bp_Application plan /\ map oc_Manifest (bp_Components plan') = map oc_Manifest (bp_Components plan) /\
  bp_Storage plan' = bp_Storage plan /\ bp_Imported plan' = bp_Imported plan.

Lemma own_manifest_accepted calls request plan plan' databases now hash request' :
  same_target plan plan' -> rq_InstanceID request' = rq_InstanceID request ->
  validateRestoreManifest (backup_manifest calls request plan databases now <| am_Checksum := checksum_metadata |>)
    (addressed request' (row_of calls request plan now hash)) plan' = Ok tt.
Proof.
  intros (Ha & Hc & Hs & Hi) Hr. unfold validateRestoreManifest, addressed, row_of, backup_manifest, strategy. cbn.
  rewrite <- Hc, <- Hs, <- Hi, Ha, !length_map. rewrite !decide_False; [done|..].
  - assert (forall l : list ImportedStorage, all_same (fun a b => bool_decide (a = b)) l l = true) as ->; [|done].
    intros l. rewrite <- (map_id l) at 1. apply all_same_map. intros b. by apply bool_decide_eq_true.
  - rewrite all_same_map; [done|]. intros b. by apply bool_decide_eq_true.
  - rewrite all_same_map; [done|]. intros b. unfold component_matches. by rewrite !bool_decide_eq_true_2.
  - intros [?|[?|?]]; done.
  - rewrite Hr. intros [?|[?|[?|[?|?]]]]; done.
Qed.

(** ** The names in the archive *)
Lemma id_portable s : idPattern s = true -> portable s.
Proof.
  intros H. pose proof (id_no_slash s H) as Hs. unfold idPattern, pattern in H.
  assert (forall c, c ∈ text s -> (45 <= c < 128)%N /\ c <> 92%N) as Hc.
  { destruct (text s) as [|c cs]; [done|]. rewrite !andb_true_iff, forallb_forall in H. destruct H as [[H _] Hcs].
    intros c' [->|Hin]%elem_of_cons; [|apply list_elem_of_In, Hcs in Hin; revert Hin];
      unfold id_char, lower, is_digit in *; rewrite ?orb_true_iff, ?andb_true_iff, ?N.leb_le, ?N.eqb_eq in *; lia. }
  split_and!.
  - split; [done|]. destruct (text s) as [|c cs] eqn:Ht; [done|]. rewrite !andb_true_iff in H. destruct H as [[H _] _].
    split_and!; intros ->; cbn in Ht; [done|..]; injection Ht as <- <-; done.
  - apply not_true_iff_false. unfold ContainsAny. rewrite existsb_exists. intros (c & Hin%list_elem_of_In%Hc & Hx).
    apply bool_decide_eq_true in Hx. rewrite !elem_of_cons, elem_of_nil in Hx. lia.
  - apply valid_ascii, forallb_forall. intros c Hin%list_elem_of_In%Hc. apply N.ltb_lt. lia.
Qed.

Lemma elements_join rel : rel <> [] -> Forall portable rel -> path_elements (Protocol.join "/" rel) = rel.
Proof.
  intros Hne Hrel. unfold path_elements. pose proof (plain_rel rel Hrel) as Hp.
  rewrite text_join by done. rewrite split_join; [|by destruct rel|by apply plain_nonempty].
  rewrite filter_plain by done. apply untext_rel.
Qed.

Lemma spread_app l l' : spread l -> spread l' ->
  (forall p q, p ∈ l -> q ∈ l' -> ~ p `prefix_of` q /\ ~ q `prefix_of` p) -> spread (l ++ l').
Proof.
  intros H H' Hx i j p q Hi Hj Hpq.
  apply lookup_app_Some in Hi as [Hi|[Hli Hi]], Hj as [Hj|[Hlj Hj]].
  - by eapply H.
  - destruct (Hx p q) as [Hn _]; [by eapply list_elem_of_lookup_2..|]. by destruct Hn.
  - destruct (Hx q p) as [_ Hn]; [by eapply list_elem_of_lookup_2..|]. by destruct Hn.
  - assert (i - length l = j - length l)%nat by (by eapply H'). lia.
Qed.

Lemma spread_level n l : NoDup l -> (forall p, p ∈ l -> length p = n) -> spread l.
Proof.
  intros Hnd Hn i j p q Hi Hj [k ->]. assert (k = []) as ->.
  { pose proof (Hn p (list_elem_of_lookup_2 _ _ _ Hi)). pose proof (Hn _ (list_elem_of_lookup_2 _ _ _ Hj)).
    rewrite length_app in *. destruct k; [done|cbn in *; lia]. }
  rewrite app_nil_r in Hj. by eapply NoDup_lookup.
Qed.

(** What the plan of the directories says. *)
Lemma storage_plan_spec is_dir m installation policies result storage :
  range (storage_plan_step is_dir m installation) result policies = Ok storage ->
  exists new, storage = result ++ new /\
    map (fun s => (as_Component (mg_Manifest s), as_ID (mg_Manifest s))) new = map (fun p => (mbs_Component p, mbs_ID p)) policies /\
    Forall (fun s => as_Disposition (mg_Manifest s) = "include" ->
      as_ArchivePath (mg_Manifest s) = pathJoin ["application"; as_Component (mg_Manifest s); as_ID (mg_Manifest s)]) new.
Proof.
  revert result. induction policies as [|p policies IH]; intros result; cbn [range].
  - intros [= <-]. exists []. by rewrite app_nil_r.
  - unfold storage_plan_step at 1. destruct (BackupPlan.declared_storage m !! _) as [item|]; [|done]. cbn [rbind]. case_decide; [done|].
    cbn [rbind]. intros (new & -> & Hm & Hf)%IH. eexists (_ :: new). rewrite <- app_assoc. split_and!; [done|cbn; by rewrite Hm|].
    constructor; [|done]. cbn. intros ->. done.
Qed.

Lemma policy_names P m b i : well_formed P m -> ma_Backup m = Some b -> i ∈ mbp_Storage b -> portable (mbs_Component i) /\ portable (mbs_ID i).
Proof.
  intros Hwf Hb Hi. assert (ValidateManifest P (fun s => s) m = Ok tt) as Hv by (by apply validate_spec).
  destruct (wf_backup P m Hwf b Hb) as [(_ & _ & Hn)|(Hs & _)]; [rewrite Hn in Hi; by apply elem_of_nil in Hi|].
  assert (mbp_Strategy b <> "metadata-only") as Hm by (intros E; rewrite E in Hs; by apply elem_of_cons in Hs as [?|?%list_elem_of_singleton]).
  destruct (proj2 (ManifestClaims.backup_classifies_storage P (fun s => s) m b Hv Hb Hm) i Hi) as (s & Hd & _ & <-).
  destruct Hd as [[-> Hst%(wf_storage P m Hwf)]|(c & (Hid & _ & _ & _ & [Hst _] & _)%(wf_component P m Hwf) & <- & Hin)].
  - split; [by apply id_portable|apply id_portable, Hst].
  - rewrite Forall_forall in Hst. split; [by apply id_portable|by apply id_portable, Hst].
Qed.

Lemma policy_unique P m b : well_formed P m -> ma_Backup m = Some b -> NoDup (map (fun p => (mbs_Component p, mbs_ID p)) (mbp_Storage b)).
Proof.
  intros Hwf Hb. destruct (wf_backup P m Hwf b Hb) as [(_ & _ & ->)|(_ & _ & Hnd & _)]; [constructor|].
  unfold policy_keys in Hnd. apply (NoDup_fmap_1 (fun ci : string * string => backup_key ci.1 ci.2)).
  change (map ?f ?l) with (f <$> l). by rewrite <- list_fmap_compose.
Qed.

Lemma plan_Ok catalog is_dir d request plan : loadApplicationBackupPlan catalog is_dir d request = Ok plan ->
  exists entries b, catalog = Ok entries /\ entries !! rq_ApplicationID request = Some (bp_Application plan) /\
    ma_Backup (bp_Application plan) = Some b /\
    backupStoragePlan is_dir (bp_Application plan) (rq_InstanceID request) = Ok (bp_Storage plan) /\
    loadBackupSecrets (pd_secrets d) (rq_InstanceID request) (bp_Application plan) = Ok (bp_Secrets plan).
Proof.
  unfold loadApplicationBackupPlan. case_decide; [done|]. destruct catalog as [entries|]; [|done].
  destruct (entries !! _) as [m|] eqn:Hm; [|done]. case_decide as Hb; [done|].
  destruct (match ma_Components m with [] => _ | _ => _ end) as [[components order]|]; [|done]. cbn [rbind].
  destruct (backupStoragePlan _ _ _) as [storage|] eqn:Hs; [|done]. cbn [rbind].
  destruct (loadImportedBackupBindings _ _ _); [|done]. cbn [rbind].
  destruct (loadBackupSecrets _ _ _) as [secrets|] eqn:Hsec; [|done]. cbn [rbind]. intros [= <-]. cbn.
  destruct (ma_Backup m) as [b|] eqn:Hmb; [|done]. exists entries, b. by split_and!.
Qed.

Lemma stage_sources calls plan workspace staged sources : stage_backup calls plan workspace = Ok (staged, sources) ->
  sources = map (fun s => {| src_ArchivePath := as_ArchivePath (mg_Manifest s); src_Node := bh_staged calls (staged_path workspace s) |})
              (included_storage plan).
Proof.
  unfold stage_backup. intros H. assert (forall acc out, range (stage_step calls workspace) acc (included_storage plan) = Ok out ->
    out.2 = acc.2 ++ map (fun s => {| src_ArchivePath := as_ArchivePath (mg_Manifest s); src_Node := bh_staged calls (staged_path workspace s) |})
              (included_storage plan)) as Hr; [|by apply Hr in H].
  clear. induction (included_storage plan) as [|s l IH]; intros acc out; cbn [range]; [intros [= <-]; by rewrite app_nil_r|].
  unfold stage_step at 1, wrapped. destruct (bh_parent _ _); [|done]. cbn [rbind]. destruct (bh_copy _ _ _); [|done]. cbn [rbind].
  intros ->%IH. cbn. by rewrite <- app_assoc.
Qed.

Section names.
Context (P : string -> option URL) (entries : gmap string Manifest) (is_dir : string -> bool) (d : plan_db) (request : Request)
        (plan : applicationBackupPlan).
Hypothesis Hcat : catalogue_ok P entries.
Hypothesis Hplan : loadApplicationBackupPlan (Ok entries) is_dir d request = Ok plan.

Definition storage_elements (s : managedBackupStorage) : list string :=
  ["application"; as_Component (mg_Manifest s); as_ID (mg_Manifest s)].

Lemma included_names s : s ∈ included_storage plan ->
  as_ArchivePath (mg_Manifest s) = Protocol.join "/" (storage_elements s) /\ Forall portable (storage_elements s).
Proof using Hcat Hplan.
  intros [Hinc Hs]%list_elem_of_filter.
  destruct (plan_Ok _ _ _ _ _ Hplan) as (entries' & b & [= <-] & Hm & Hb & Hst & _). apply Hcat in Hm as [_ Hwf].
  unfold backupStoragePlan, backup_policy in Hst. rewrite Hb in Hst. cbn [default from_option id] in Hst.
  apply storage_plan_spec in Hst as (new & Hnew & Hkeys & Hpath). cbn in Hnew. subst new.
  rewrite Forall_forall in Hpath. split; [by apply Hpath|].
  assert ((as_Component (mg_Manifest s), as_ID (mg_Manifest s)) ∈ map (fun p => (mbs_Component p, mbs_ID p)) (mbp_Storage b)) as Hin.
  { rewrite <- Hkeys. by apply (list_elem_of_fmap_2 (fun s => (as_Component (mg_Manifest s), as_ID (mg_Manifest s)))). }
  apply list_elem_of_fmap in Hin as (i & [= E1 E2] & Hi). destruct (policy_names P _ b i Hwf Hb Hi).
  unfold storage_elements. rewrite E1, E2.
  apply Forall_cons. split; [by apply id_portable|]. apply Forall_cons. split; [done|]. apply Forall_cons. by split.
Qed.

Lemma included_spread : NoDup (map storage_elements (included_storage plan)).
Proof using Hcat Hplan.
  destruct (plan_Ok _ _ _ _ _ Hplan) as (entries' & b & [= <-] & Hm & Hb & Hst & _). apply Hcat in Hm as [_ Hwf].
  unfold backupStoragePlan, backup_policy in Hst. rewrite Hb in Hst. cbn [default from_option id] in Hst.
  apply storage_plan_spec in Hst as (new & Hnew & Hkeys & _). cbn in Hnew. subst new.
  pose proof (policy_unique P _ b Hwf Hb) as Hnd. rewrite <- Hkeys in Hnd.
  apply NoDup_fmap_2_strong; [|apply NoDup_filter; by eapply NoDup_fmap_1].
  intros s s' [_ Hs]%list_elem_of_filter [_ Hs']%list_elem_of_filter [= Hc Hi].
  apply list_elem_of_lookup in Hs as [i Hs], Hs' as [j Hs'].
  assert (i = j) as ->; [|congruence].
  eapply NoDup_lookup; [exact Hnd|..]; change (map ?f ?l) with (f <$> l); rewrite list_lookup_fmap, ?Hs, ?Hs'; cbn; [done|]. by rewrite Hc, Hi.
Qed.

Lemma backup_portable calls running workspace staged sources secretBytes :
  stage_backup calls plan workspace = Ok (staged, sources) ->
  (forall s node rel v, s ∈ included_storage plan -> bh_staged calls (staged_path workspace s) = Ok node ->
     (rel, v) ∈ walk [] node -> Forall portable rel) ->
  portable_input sources (backup_inline calls plan running secretBytes).
Proof using Hcat Hplan.
  intros Hsrc%stage_sources Htrees. set (fixed := [index_name; metadata_name; secrets_name; manifest_name]).
  set (paths := archive_paths sources (backup_inline calls plan running secretBytes)).
  assert (paths = fixed ++ map (fun s => as_ArchivePath (mg_Manifest s)) (included_storage plan)) as Hpaths.
  { unfold paths, archive_paths, fixed. rewrite Hsrc. cbn. by rewrite map_map. }
  assert (forall p, p ∈ paths -> p ∈ fixed \/ exists s, s ∈ included_storage plan /\ p = Protocol.join "/" (storage_elements s) /\
    Forall portable (storage_elements s)) as Hin.
  { intros p. rewrite Hpaths, elem_of_app. intros [?|(s & -> & Hs)%list_elem_of_fmap]; [by left|right].
    exists s. destruct (included_names s Hs) as [-> ?]. done. }
  assert (map path_elements paths = map path_elements fixed ++ map storage_elements (included_storage plan)) as Hel.
  { rewrite Hpaths, map_app. f_equal. rewrite map_map. apply map_ext_in. intros s Hs%list_elem_of_In.
    destruct (included_names s Hs) as [-> ?]. by apply elements_join. }
  assert (Forall (fun p => p <> ".." /\ ValidString p = true) fixed) as Hfix by (repeat (constructor; [by vm_compute|]); constructor).
  rewrite Forall_forall in Hfix. split; fold paths.
  - intros p [[? _]%Hfix|(s & _ & -> & _)]%Hin; [done|]. by intros [=].
  - intros p [[_ ?]%Hfix|(s & _ & -> & Hp)]%Hin; [done|]. by apply valid_join.
  - assert (spread (map path_elements paths)) as Hsp.
    { rewrite Hel. apply spread_app.
      - apply spread_checked. vm_compute. reflexivity.
      - apply (spread_level 3); [apply included_spread|]. by intros p (s & -> & _)%list_elem_of_fmap.
      - intros p q Hp (s & -> & _)%list_elem_of_fmap.
        assert (p !! 0%nat <> Some "application" /\ p <> []) as [Hh Hn].
        { repeat (apply elem_of_cons in Hp as [->|Hp]; [by vm_compute|]). by apply elem_of_nil in Hp. }
        destruct p as [|x p]; [done|]. split; intros Hpre; apply prefix_cons_inv_1 in Hpre; subst; by apply Hh. }
    intros i j p q Hi Hj Hpq. eapply Hsp; [..|exact Hpq]; change (map ?f ?l) with (f <$> l); by rewrite list_lookup_fmap, ?Hi, ?Hj.
  - intros source node rel v. rewrite Hsrc. intros (s & -> & Hs)%list_elem_of_fmap. cbn. by apply Htrees.
Qed.
End names.

(** ** The containers that run *)

(** A container engine that answers truthfully, [up] being the containers that
    run and [failed] whether a start or an inspection failed so far.  A stop may
    fail, with or without effect, and so may a start, which may also be reported
    as done without effect. *)
Record truthful_engine {E} `{RestoreHost E} (up : E -> gset string) (failed : E -> bool) : Prop := {
  te_start id e r e' : rh_start id e = (r, e') ->
    match r with
    | Ok _ => up e' = {[id]} ∪ up e /\ failed e' = failed e \/ up e' = up e /\ failed e' = true
    | Err _ => (up e' = {[id]} ∪ up e \/ up e' = up e) /\ failed e' = true
    end;
  te_stop id e r e' : rh_stop id e = (r, e') -> (up e' = up e ∖ {[id]} \/ up e' = up e) /\ failed e' = failed e;
  te_inspect id e r e' : rh_inspect id e = (r, e') -> up e' = up e /\
    match r with Ok (Some b) => b = bool_decide (id ∈ up e) /\ failed e' = failed e | _ => failed e' = true end;
  te_dies e : up (rh_dies e).2 = up e /\ failed (rh_dies e).2 = failed e;
  te_now e : up (rh_now e).2 = up e /\ failed (rh_now e).2 = failed e;
  te_fault e : up (rh_fault e).2 = up e /\ failed (rh_fault e).2 = failed e
}.

Section engine.
Context {E : Type} `{Host : RestoreHost E} (up : E -> gset string) (failed : E -> bool).
Hypothesis Hup : truthful_engine up failed.

(** The programs that end, by the containers that run and by whether a call
    failed, before and after. *)
Definition runs {A} (m : rprog E A) (u : gset string) (b : bool) (Q : A -> gset string -> bool -> Prop) : Prop :=
  forall d fs l e, up e = u -> failed e = b ->
    match m (RWorld d fs l e) with Ended a w => Q a (up (rw_env w)) (failed (rw_env w)) | Killed _ => True end.

Lemma runs_ret {A} (a : A) u b (Q : A -> gset string -> bool -> Prop) : Q a u b -> runs (pret a) u b Q.
Proof. by intros HQ d fs l e <- <-. Qed.

Lemma runs_bind {A B} (m : rprog E A) (f : A -> rprog E B) u b Q :
  runs m u b (fun a u' b' => runs (f a) u' b' Q) -> runs (pbind m f) u b Q.
Proof.
  intros Hm d fs l e He Hb. unfold pbind. specialize (Hm d fs l e He Hb). destruct (m _) as [a [d' fs' l' e']|]; [|done]. by apply Hm.
Qed.

Lemma runs_try {A B} (m : rprog E (res A)) (h : error -> rprog E B) (k : A -> rprog E B) u b Q :
  runs m u b (fun r u' b' => match r with Ok a => runs (k a) u' b' Q | Err e => runs (h e) u' b' Q end) -> runs (ptry m h k) u b Q.
Proof.
  intros Hm. apply runs_bind. intros d fs l e He Hb. specialize (Hm d fs l e He Hb). destruct (m _) as [[a|x] w|]; done.
Qed.

Lemma runs_mono {A} (m : rprog E A) u b (Q Q' : A -> gset string -> bool -> Prop) :
  runs m u b Q -> (forall a u' b', Q a u' b' -> Q' a u' b') -> runs m u b Q'.
Proof. intros Hm HQ d fs l e He Hb. specialize (Hm d fs l e He Hb). destruct (m _); auto. Qed.

Lemma runs_alive {A} (k : rprog E A) u b Q : runs k u b Q -> runs (alive k) u b Q.
Proof using Hup.
  intros Hk d fs l e <- <-. unfold alive. cbn. destruct (te_dies up failed Hup e). destruct (rh_dies e) as [[] e']; [done|]. by apply Hk.
Qed.

Lemma runs_rquery {A} (q : rdb -> files -> res A) u b (Q : res A -> gset string -> bool -> Prop) :
  (forall r, Q r u b) -> runs (rquery q) u b Q.
Proof using Hup.
  intros HQ. apply runs_alive. intros d fs l e <- <-. cbn. destruct (te_fault up failed Hup e) as [Hf Hg].
  destruct (rh_fault e) as [[x|] e']; cbn in *; rewrite Hf, Hg; apply HQ.
Qed.

Lemma runs_rstore {A} (m : string -> tx rdb A) u b (Q : res A -> gset string -> bool -> Prop) :
  (forall r, Q r u b) -> runs (rstore m) u b Q.
Proof using Hup.
  intros HQ. apply runs_alive. intros d fs l e <- <-. cbn. destruct (te_now up failed Hup e) as [Hn Hm]. destruct (rh_now e) as [now e1].
  cbn in Hn, Hm. destruct (te_fault up failed Hup e1) as [Hf Hg].
  destruct (rh_fault e1) as [[x|] e']; cbn in *; [rewrite Hf, Hg, Hn, Hm; apply HQ|].
  destruct (atomically _ _); cbn. rewrite Hf, Hg, Hn, Hm. apply HQ.
Qed.

Lemma runs_clock u b (Q : string -> gset string -> bool -> Prop) : (forall now, Q now u b) -> runs clock u b Q.
Proof using Hup.
  intros HQ. apply runs_alive. intros d fs l e <- <-. cbn. destruct (te_now up failed Hup e) as [Hn Hm].
  destruct (rh_now e) as [now e1]. cbn in *. rewrite Hn, Hm. apply HQ.
Qed.

Lemma runs_inspect id u b (Q : res (option bool) -> gset string -> bool -> Prop) :
  Q (Ok (Some (bool_decide (id ∈ u)))) u b -> Q (Ok None) u true -> (forall x, Q (Err x) u true) -> runs (inspect id) u b Q.
Proof using Hup.
  intros H1 H2 H3. apply runs_alive. intros d fs l e <- <-. cbn. destruct (rh_inspect id e) as [r e'] eqn:Hr. cbn.
  apply (te_inspect up failed Hup) in Hr as [-> Hr].
  destruct r as [[x|]|x]; [destruct Hr as [-> ->]|rewrite Hr..]; auto.
Qed.

Lemma runs_start id u b (Q : res unit -> gset string -> bool -> Prop) :
  Q (Ok tt) ({[id]} ∪ u) b -> Q (Ok tt) u true -> (forall x, Q (Err x) ({[id]} ∪ u) true /\ Q (Err x) u true) -> runs (start id) u b Q.
Proof using Hup.
  intros H1 H2 H3. apply runs_alive. intros d fs l e <- <-. cbn. destruct (rh_start id e) as [r e'] eqn:Hr.
  apply (te_start up failed Hup) in Hr. cbn.
  destruct r as [[]|x]; [destruct Hr as [[-> ->]|[-> ->]]; auto|]. destruct Hr as [[-> | ->] ->]; apply H3.
Qed.

Lemma runs_stop id u b (B : gset string -> Prop) (Q : res unit -> gset string -> bool -> Prop) :
  B (u ∖ {[id]}) -> B u -> (forall r u', B u' -> Q r u' b) -> runs (stop id) u b Q.
Proof using Hup.
  intros H1 H2 HQ. apply runs_alive. intros d fs l e <- <-. cbn. destruct (rh_stop id e) as [r e'] eqn:Hs. cbn.
  destruct (te_stop up failed Hup id e r e' Hs) as [Hu ->]. apply HQ. by destruct Hu as [-> | ->].
Qed.

(** What the snapshot records of the components. *)
Definition observed_up (components : gmap string ownedBackupComponent) (u : gset string) (running : gmap string bool) : Prop :=
  forall id c, components !! id = Some c -> oc_Runtime c <> "" -> running !! id = Some (bool_decide (oc_Runtime c ∈ u)).

Lemma runs_snapshot_from l seen running u b : observed_up seen u running ->
  runs (snapshot_from l running) u b (fun r u' _ => u' = u /\
    forall running', r = Ok running' -> observed_up (foldl (fun acc c => <[bc_ID (oc_Manifest c) := c]> acc) seen l) u running').
Proof using Hup.
  revert seen running b. induction l as [|c l IH]; intros seen running b Hs; cbn [snapshot_from foldl].
  - apply runs_ret. split; [done|]. by intros ? [= <-].
  - case_decide as Hr.
    + apply IH. intros id c'. rewrite lookup_insert_Some. intros [[_ <-]|[_ ?]]; [done|by apply Hs].
    + apply runs_try, runs_inspect; [|by apply runs_ret|intros x; by apply runs_ret].
      apply IH. intros id c'. rewrite lookup_insert_Some.
      intros [[<- <-]|[Hne Hc]] Hr'; [by rewrite lookup_insert_eq|]. rewrite lookup_insert_ne by done. by apply Hs.
Qed.

Lemma runs_snapshot plan u b : runs (snapshotBackupRuntime plan) u b (fun r u' _ => u' = u /\
  forall running, r = Ok running -> forall id, runtime_of plan id <> "" -> was_running running id = true -> runtime_of plan id ∈ u).
Proof using Hup.
  eapply runs_mono; [by apply (runs_snapshot_from _ ∅)|]. intros r u' b' [-> Hr]. split; [done|]. intros running -> id.
  unfold runtime_of, component_by_id, was_running. specialize (Hr running eq_refl id). destruct (_ !! id) as [c|]; [|done].
  intros Hc. rewrite (Hr c eq_refl Hc). cbn. by rewrite bool_decide_eq_true.
Qed.

(** Only the containers that were running are ever stopped. *)
Section quiesced.
Context (plan : applicationBackupPlan) (running : gmap string bool) (u0 : gset string).
Hypothesis Hrun : forall id, runtime_of plan id <> "" -> was_running running id = true -> runtime_of plan id ∈ u0.

Definition stopped (x : string) : Prop :=
  exists id, id ∈ bp_StartOrder plan /\ runtime_of plan id = x /\ x <> "" /\ was_running running id = true.

Definition between (u : gset string) : Prop := u ⊆ u0 /\ forall x, x ∈ u0 -> x ∉ u -> stopped x.

(** Everything runs again, unless a call failed. *)
Definition again (u : gset string) (b : bool) : Prop := u ⊆ u0 /\ (u = u0 \/ b = true).

Lemma again_failed u : u ⊆ u0 -> again u true.
Proof. by split; [|right]. Qed.

Lemma runs_resume_from order u b : u ⊆ u0 ->
  runs (resume_from plan running order) u b (fun r u' b' => u ⊆ u' /\ u' ⊆ u0 /\
    match r with
    | Ok _ => forall id, id ∈ order -> runtime_of plan id <> "" -> was_running running id = true -> runtime_of plan id ∈ u'
    | Err _ => b' = true
    end).
Proof using Hup Hrun.
  revert u b. induction order as [|id order IH]; intros u b Hu; cbn [resume_from].
  - apply runs_ret. split_and!; [done..|]. intros id []%elem_of_nil.
  - case_decide as Hskip.
    + eapply runs_mono; [by apply IH|]. intros r u' b' (H1 & H2 & H3). split_and!; [done..|]. destruct r; [|done].
      intros id' [->|?]%elem_of_cons; [|by apply H3]. intros. exfalso. destruct Hskip; congruence.
    + assert (runtime_of plan id <> "" /\ was_running running id = true) as [Hne Hw]
        by (split; [tauto|]; destruct (was_running running id); tauto).
      assert (runtime_of plan id ∈ u0) as Hin by by apply Hrun.
      assert (forall u1 b1, u ⊆ u1 -> u1 ⊆ u0 -> (runtime_of plan id ∈ u1 \/ b1 = true) ->
        runs (pbind (inspect (runtime_of plan id)) (fun observed => match observed with
          | Ok state => if runtimeRunning state then resume_from plan running order
                        else pret (Err (ErrMsg "application runtime did not return to the running state"))
          | Err _ => pret (Err (ErrMsg "application runtime did not return to the running state")) end)) u1 b1
        (fun r u' b' => u ⊆ u' /\ u' ⊆ u0 /\ match r with
          | Ok _ => forall id', id' ∈ id :: order -> runtime_of plan id' <> "" -> was_running running id' = true -> runtime_of plan id' ∈ u'
          | Err _ => b' = true end)) as Hrest.
      { intros u1 b1 H1 H2 H3. apply runs_bind, runs_inspect; [|by apply runs_ret|intros x; by apply runs_ret].
        cbn. case_bool_decide as Hd; [|apply runs_ret; split_and!; tauto].
        eapply runs_mono; [by apply IH|]. intros r u' b' (H4 & H5 & H6). split_and!; [set_solver|done|]. destruct r; [|done].
        intros id' [->|?]%elem_of_cons; [set_solver|by apply H6]. }
      apply runs_try, runs_start; [apply Hrest; set_solver|apply Hrest; [done|done|by right]|].
      intros x; split; apply runs_ret; split_and!; set_solver.
Qed.

Lemma runs_resume u b : between u ->
  runs (resumeBackupRuntime plan running) u b (fun r u' b' => again u' b' /\ (r = Ok tt -> u' = u0)).
Proof using Hup Hrun.
  intros [Hu Hst]. eapply runs_mono; [by apply runs_resume_from|]. intros r u' b' (H1 & H2 & H3).
  destruct r as [[]|]; [|subst; split; [by apply again_failed|done]].
  assert (u' = u0) as ->; [|by repeat split; [..|left]].
  apply (anti_symm (⊆)); [done|]. intros x Hx. destruct (decide (x ∈ u)) as [|Hn]; [set_solver|].
  destruct (Hst x Hx Hn) as (id & Hid & <- & Hne & Hw). by apply H3.
Qed.

Lemma between_stop id u : id ∈ bp_StartOrder plan -> runtime_of plan id <> "" -> was_running running id = true -> between u ->
  between (u ∖ {[runtime_of plan id]}).
Proof.
  intros Hid Hne Hw [H1 H2]. split; [set_solver|]. intros x Hx Hn. destruct (decide (x = runtime_of plan id)) as [->|Hd]; [by exists id|].
  apply H2; [done|]. set_solver.
Qed.

Lemma runs_quiesce order u b : (forall id, id ∈ order -> id ∈ bp_StartOrder plan) -> between u ->
  runs (quiesce_from plan running order) u b (fun r u' b' => match r with Ok _ => between u' | Err _ => again u' b' end).
Proof using Hup Hrun.
  revert u b. induction order as [|id order IH]; intros u b Ho Hb; cbn [quiesce_from]; [by apply runs_ret|].
  assert (forall u b x, between u -> runs (pbind (resumeBackupRuntime plan running) (fun _ => pret (Err x))) u b
    (fun (r : res unit) u' b' => match r with Ok _ => between u' | Err _ => again u' b' end)) as Hresume.
  { intros u' b' x Hu'. apply runs_bind. eapply runs_mono; [by apply runs_resume|]. intros r u'' b'' [? _]. by apply runs_ret. }
  case_decide as Hskip; [apply IH; [set_solver|done]|].
  assert (runtime_of plan id <> "" /\ was_running running id = true) as [Hne Hw]
    by (split; [tauto|]; destruct (was_running running id); tauto).
  apply runs_try, (runs_stop _ _ _ between); [by apply between_stop; [set_solver|..]|done|].
  intros [[]|x] u' Hu'; [|by apply Hresume].
  assert (runs (quiesce_from plan running order) u' true (fun r u' b' => match r with Ok _ => between u' | Err _ => again u' b' end))
    as Hnext by (apply IH; [set_solver|done]).
  apply runs_bind, runs_inspect; [|done|intros y; by apply Hresume]. cbn.
  case_bool_decide; [by apply Hresume|]. apply IH; [set_solver|done].
Qed.
End quiesced.

Lemma between_all plan running u : between plan running u u.
Proof. split; [done|]. by intros x Hx Hn. Qed.

Lemma again_same u b : again u u b.
Proof. by split; [|left]. Qed.

(** The containers a snapshot for a backup leaves running can be completed to
    those that ran before. *)
Lemma runs_snapshot_for_backup plan stop u b :
  runs (snapshot_for_backup plan stop) u b (fun r u' b' => match r with
    | Ok running => (forall id, runtime_of plan id <> "" -> was_running running id = true -> runtime_of plan id ∈ u) /\
        if stop then between plan running u u' else u' = u
    | Err _ => again u u' b'
    end).
Proof using Hup.
  unfold snapshot_for_backup, quiesceBackupRuntime. destruct stop.
  - apply runs_try. eapply runs_mono; [apply runs_snapshot|]. intros [running|] u' b' [-> Hr]; [|by apply runs_ret, again_same].
    specialize (Hr running eq_refl). apply runs_try. eapply runs_mono; [apply runs_quiesce; [done| |apply between_all]; intros id Hid%list_elem_of_In%in_rev; by apply list_elem_of_In|].
    intros [[]|] u' b'' Hu'; by apply runs_ret.
  - eapply runs_mono; [apply runs_snapshot|]. intros [running|] u' b' [-> Hr]; [|apply again_same]. split; [by apply Hr|done].
Qed.

Context `{Codec : ArchiveCodec} (digest : string -> string) (catalog : res (gmap string Manifest)) (calls : backup_calls).

Lemma runs_archive_backup request plan running staged files u b :
  runs (archive_backup digest calls request plan running staged files) u b (fun _ u' _ => u' = u).
Proof using Hup.
  unfold archive_backup. destruct (found_databases _ _ _); [|by apply runs_ret]. destruct (bh_secrets_json _ _); [|by apply runs_ret].
  apply runs_bind, runs_clock. intros now. destruct (Create _ _ _ _ _ _ _) as [[path|] files']; [|by apply runs_ret].
  destruct (bh_archive_hash _ _ _); [|by apply runs_ret]. apply runs_bind, runs_rstore. intros [|]; by apply runs_ret.
Qed.

Lemma runs_create request files u b : runs (createApplicationBackup digest catalog calls request files) u b
  (fun out u' b' => again u u' b' /\ (is_ok out.1 = true -> u' = u)).
Proof using Hup.
  unfold createApplicationBackup, load_plan.
  assert (forall (out : res createdBackup * archives) b', again u u b' /\ (is_ok out.1 = true -> u = u)) as Hsame by (split; [apply again_same|done]).
  apply runs_try, runs_rquery. intros [plan|]; [|by apply runs_ret].
  destruct (prepare_backup _ _); [|by apply runs_ret]. cbv zeta. set (stop := negb _).
  apply runs_try. eapply runs_mono; [apply runs_snapshot_for_backup|]. intros [running|] u' b' Hu'; [|by apply runs_ret].
  destruct Hu' as [Hrun Hb].
  assert (runs (if stop then resumeBackupRuntime plan running else pret (Ok tt)) u' b'
    (fun r u'' b'' => again u u'' b'' /\ (r = Ok tt -> u'' = u))) as Hres.
  { destruct stop; [by apply runs_resume|]. subst. apply runs_ret. split; [apply again_same|done]. }
  destruct (stage_backup _ _ _) as [staged|].
  - apply runs_try. eapply runs_mono; [exact Hres|]. intros [[]|] u'' b'' [Ha Hok]; [|by apply runs_ret].
    rewrite (Hok eq_refl). eapply runs_mono; [apply runs_archive_backup|]. intros out u3 b3 ->. apply Hsame.
  - apply runs_bind. eapply runs_mono; [exact Hres|]. intros r u'' b'' [Ha _]. by apply runs_ret.
Qed.
End engine.
