(* ===== verification/BackupProps.v ===== *)
(** * Creating a backup: it can be restored, and the application runs again *)

From S2P Require Import Prelude Protocol Exposure HelperDB Coordinator NetIP ExposurePolicy Ingress IngressProofs IngressRender Containers Manifest ManifestProofs ManifestProps ManifestSamples ExternalStorage HelperPlan HelperPlanProofs HelperPlanProps Secrets BackupPlan Restore RestoreProofs RestoreRecoveryProofs RestoreProps Archive ArchivePaths ArchiveProofs ArchiveRoundtrip ArchiveProps Backup BackupProofs.
From stdpp Require Import base strings list gmap sorting.
From Stdlib Require Import ZArith Lia.

Import Wire.
Open Scope Z_scope.

(** The names of the files that were staged can be archived. *)
Definition staged_portable (calls : backup_calls) : Prop := forall path node rel v,
  bh_staged calls path = Ok node -> (rel, v) ∈ walk [] node -> Forall portable rel.

Definition secret_texts (values : secretValues) : list string :=
  flat_map (fun v => [sv_Component v; sv_Name v; sv_Value v]) (svs_Values values).

(** Secrets with valid texts are decoded as they were encoded. *)
Definition secrets_json_ok (calls : backup_calls) (decode : string -> option secretValues) : Prop :=
  forall values b, all_valid_texts (secret_texts values) = true -> bh_secrets_json calls values = Ok b -> decode (b +:+ nl) = Some values.

Lemma plan_secret_texts calls request plan databases now :
  all_valid_texts (manifest_texts (backup_manifest calls request plan databases now)) = true ->
  Forall (fun v => decodes_hex (sv_Value v) = true) (svs_Values (bp_Secrets plan)) ->
  all_valid_texts (secret_texts (bp_Secrets plan)) = true.
Proof.
  unfold all_valid_texts, manifest_texts, secret_texts. rewrite !forallb_app, !andb_true_iff. intros (_ & _ & _ & _ & _ & Hs) Hhex.
  cbn [am_Secrets backup_manifest] in Hs. rewrite forallb_forall in Hs |- *. rewrite Forall_forall in Hhex.
  intros x (v & Hv & Hx)%in_flat_map. apply list_elem_of_In in Hv as Hv'.
  assert (forall y, y = sv_Component v \/ y = sv_Name v -> ValidString y = true) as Hy.
  { intros y Hy. apply Hs, in_flat_map. exists {| bs_Component := sv_Component v; bs_Name := sv_Name v; bs_Included := true |}.
    split; [by apply (in_map (fun s => {| bs_Component := sv_Component s; bs_Name := sv_Name s; bs_Included := true |}))|].
    destruct Hy as [->| ->]; cbn; tauto. }
  destruct Hx as [<-|[<-|[<-|[]]]]; [apply Hy; by left|apply Hy; by right|]. by apply valid_hex, Hhex.
Qed.

(** Where the directories of a plan are in an extracted archive. *)
Definition trees_extracted (calls : backup_calls) (plan : applicationBackupPlan) (workspace : string) (self : Z * Z) (preserve : bool)
    (root : list string) (fs : disk) : Prop :=
  forall s node rel v, s ∈ included_storage plan -> bh_staged calls (staged_path workspace s) = Ok node -> (rel, v) ∈ walk [] node ->
    restored_as self preserve v (fs !! (root ++ path_elements (as_ArchivePath (mg_Manifest s)) ++ rel)).

(** The checks a restore makes before it extracts an archive. *)
Lemma filename_plain calls request plan now : 47%N ∉ text (backup_filename calls request plan now) ->
  ArchivePaths.plain (text (backup_filename calls request plan now)).
Proof.
  intros Hs. assert (20 <= length (text (backup_filename calls request plan now)))%nat as Hl.
  { unfold backup_filename. rewrite !text_app, !length_app. cbn. lia. }
  split; [done|]. split_and!; intros He; rewrite He in Hl; cbn in Hl; lia.
Qed.

Lemma archive_accepted `{ArchiveCodec} digest fails self preserve decode directory hash space found name workspace es fs row xr fs' :
  IsAbs directory = true -> ArchivePaths.plain (text name) ->
  hash (Ingress.Join [directory; name]) = Ok (bk_archive_sha256 row) -> space (total_size es * 2 + restoreOverhead) = Ok tt ->
  absent (extract_root workspace) fs ->
  extraction_of digest fails self preserve (Ingress.Join [directory; name]) workspace (Ok {| ts_entries := es; ts_end := None |}) fs = (Ok xr, fs') ->
  bk_archive_path row = Ingress.Join [directory; name] ->
  checked_archive (opened_archive digest fails self preserve decode directory hash space found (Ingress.Join [directory; name]) workspace
    (Ok {| ts_entries := es; ts_end := None |}) fs) row = Ok tt.
Proof.
  intros Habs Hplain Hhash Hspace Hab Hx Hrow. unfold checked_archive, opened_archive. cbn [ar_directory ar_sha256 ar_measure ar_space].
  rewrite Hrow, Dir_join, Hhash, !decide_False by tauto.
  apply extracted_measure in Hx as (Hm & Ht & _); [|done|done]. cbn [eo_Limits ts_entries] in Hm, Ht. rewrite Hm. cbn [rbind fst].
  rewrite decide_False; [done|]. change (lm_MaxTotalBytes (effective no_limits)) with (Z.shiftl 4 40) in Ht.
  change ((MaxInt64 - restoreOverhead) / 2) with 4611686018393833471. change (Z.shiftl 4 40) with 4398046511104 in Ht. lia.
Qed.

(** ** A backup of the sample application *)
#[local] Instance set_backup_BackupID : Setter rq_BackupID := ltac:(mk_setter).
#[local] Instance set_backup_ApplicationID : Setter rq_ApplicationID := ltac:(mk_setter).
#[local] Instance set_backup_ReleaseID : Setter rq_ReleaseID := ltac:(mk_setter).

Definition backup_request : Request :=
  sample_request <| rq_Operation := "CreateApplicationBackup" |> <| rq_BackupID := "" |> <| rq_ApplicationID := "pihole" |>
    <| rq_ReleaseID := "2026.09.0" |> <| rq_RuntimeGeneration := 1 |>.

#[local] Instance secretValue_eq_dec : EqDecision secretValue.
Proof. solve_decision. Defined.
#[local] Instance secretValues_eq_dec : EqDecision secretValues.
Proof. solve_decision. Defined.

Definition sample_secrets : secretValues :=
  {| svs_Version := 1; svs_Values := [{| sv_Component := "app"; sv_Name := "FTLCONF_webserver_api_password"; sv_Value := current_password |}] |}.
Definition sample_json (values : secretValues) : res string :=
  if decide (values = sample_secrets) then Ok "secrets" else Err (ErrMsg "unsupported value").
Definition sample_decode (s : string) : option secretValues := if decide (s = "secrets" +:+ nl) then Some sample_secrets else None.

Definition sample_calls : backup_calls :=
  {| bh_directory := "/var/backups"; bh_prepare := Ok tt; bh_secure := Ok tt; bh_size := fun _ => Ok 7; bh_space := fun _ => Ok tt;
     bh_workspace := Ok "/var/work/backup"; bh_parent := fun _ => Ok tt; bh_copy := fun _ _ => Ok tt;
     bh_staged := fun _ => Ok (small_tree ordinary_files); bh_databases := fun _ => Ok [];
     bh_secrets_json := sample_json; bh_metadata_json := fun _ => "{}"; bh_version := "0.1.0";
     bh_stamp := fun _ => "20260722T100000Z";
     bh_create := {| ca_mkdir := Ok tt; ca_open := Ok tt; ca_write := Ok tt; ca_sync := Ok tt; ca_close := Ok tt; ca_rename := Ok tt;
                     ca_sync_directory := Ok tt; ca_remove_partial := true |};
     bh_archive_hash := fun _ _ => Ok "hash"; bh_removes := true |}.

Definition sample_plan : res applicationBackupPlan :=
  loadApplicationBackupPlan (Ok two_entries) (is_directory sample_files) (rd_plan sample_rdb) backup_request.

Definition sample_codec : ArchiveCodec :=
  match sample_plan with
  | Err _ => one_codec small_manifest {| ci_Algorithm := ""; ci_Files := [] |}
  | Ok plan =>
      let inline := backup_inline sample_calls plan {[ "app" := true ]} "secrets" ++
        [{| in_ArchivePath := manifest_name; in_Contents := "manifest" +:+ nl; in_Mode := 384 |}] in
      let index := match rbind (range (inline_step hex_digest) {| wr_seen := ∅; wr_entries := []; wr_checksums := [] |}
                          (sort_by in_ArchivePath inline)) (fun w => source_step hex_digest w (small_source ordinary_files)) with
                   | Ok w => {| ci_Algorithm := "sha256"; ci_Files := sort_by ce_Path (wr_checksums w) |}
                   | Err _ => {| ci_Algorithm := ""; ci_Files := [] |}
                   end in
      one_codec (backup_manifest sample_calls backup_request plan [] "2026-07-22T10:00:00Z" <| am_Checksum := checksum_metadata |>) index
  end.

Definition sample_backup_run : rout sample_host (res createdBackup * archives) :=
  @createApplicationBackup sample_host _ sample_codec hex_digest (Ok two_entries) sample_calls backup_request ∅
    (RWorld sample_rdb sample_files [] quiet).

Definition sample_created : createdBackup :=
  {| cb_backup_id := sample_operation;
     cb_filename := "pihole--inst-0123456789ab--20260722T100000Z--op-00112233445566778899aabbccddeeff.kitpro-backup.tar.gz";
     cb_sha256 := "hash"; cb_created_at := "2026-07-22T10:00:00Z"; cb_databases := 0 |}.

Definition sample_backup_path : string :=
  "/var/backups/pihole--inst-0123456789ab--20260722T100000Z--op-00112233445566778899aabbccddeeff.kitpro-backup.tar.gz".

Definition sample_backup_files : archives := match sample_backup_run with Ended (_, files) _ => files | Killed _ => ∅ end.

Lemma sample_backup_ok : sample_backup_run = Ended (Ok sample_created, sample_backup_files) (world_of sample_backup_run).
Proof.
  assert (match sample_backup_run with Ended (Ok r, _) _ => Some r | _ => None end = Some sample_created) as H by (vm_compute; reflexivity).
  unfold sample_backup_files. destruct sample_backup_run as [[[r|] f] w|]; [|done..]. by injection H as ->.
Qed.

Lemma sample_portable : staged_portable sample_calls.
Proof.
  assert (portable_input [small_source ordinary_files] small_inline) as Hp by (apply portable_checked; vm_compute; reflexivity).
  intros path node rel v Hn Hw. by eapply (pi_names _ _ Hp); [apply list_elem_of_here| |].
Qed.

Lemma sample_secrets_json : secrets_json_ok sample_calls sample_decode.
Proof.
  intros values b _. cbn. unfold sample_json. case_decide as Hv; [|done]. intros [= <-]. subst values. unfold sample_decode.
  by rewrite decide_True.
Qed.

Lemma sample_ready : ready no_failure sample_backup_path (extract_root "/var/work") small_disk.
Proof.
  split; [done|vm_compute; reflexivity|vm_compute; reflexivity|vm_compute; discriminate| |vm_compute; reflexivity].
  change (absent (extract_root "/var/work") small_disk) with (absent "/var/work/extracted" small_disk). apply small_absent.
Qed.

(** An engine whose stops, and whose starts, may be reported as failed; such a
    stop has its effect and such a start has none. *)
Record engine_host : Type := { en_up : gset string; en_stop_fails : bool; en_start_fails : bool; en_failed : bool }.

#[local] Instance engine_restore_host : RestoreHost engine_host := {
  rh_dies h := (false, h);
  rh_now h := ("2026-07-22T10:00:00Z", h);
  rh_fault h := (None, h);
  rh_lstat _ h := (None, h);
  rh_rename _ _ h := (None, h);
  rh_identity h := ({| pi_Device := 8; pi_Inode := 1 |}, h);
  rh_copy _ h := (None, h);
  rh_remove _ h := (None, h);
  rh_inspect id h := (Ok (Some (bool_decide (id ∈ en_up h))), h);
  rh_start id h :=
    if en_start_fails h
    then (Err (ErrMsg "cannot start"), {| en_up := en_up h; en_stop_fails := en_stop_fails h; en_start_fails := true; en_failed := true |})
    else (Ok tt, {| en_up := {[id]} ∪ en_up h; en_stop_fails := en_stop_fails h; en_start_fails := false; en_failed := en_failed h |});
  rh_stop id h := (if en_stop_fails h then Err (ErrMsg "timeout") else Ok tt,
    {| en_up := en_up h ∖ {[id]}; en_stop_fails := en_stop_fails h; en_start_fails := en_start_fails h; en_failed := en_failed h |});
  rh_hook _ _ h := (HookGo, h)
}.

Lemma engine_host_truthful : truthful_engine en_up en_failed.
Proof.
  split; try done.
  - intros id e r e'. cbn. destruct (en_start_fails e); intros [= <- <-]; cbn; auto.
  - intros id e r e' [= <- <-]. cbn. auto.
  - intros id e r e' [= <- <-]. done.
Qed.

Module BackupClaims.

(** C10. A backup that was created can be restored.  The run records one new row,
    the file it names holds the archive, and the row and the answer carry the
    hash of that file.  The staged names are taken to be portable (valid UTF-8
    without a backslash).  When the archive is opened by a restore, its manifest
    having valid texts and its entries fitting the default limits, on a disk that
    answers and has room for it, the restore accepts the path, the hash and the
    size of the file, and the manifest and the secrets in it pass every check
    against any plan of the same application, components and directories: the
    secrets are those of the backup, and every directory of the plan is found
    extracted as it was staged. *)
Theorem created_backup_restorable {E} `{RestoreHost E} `{ArchiveCodec} digest P entries calls request files w r files' w' :
  catalogue_ok P entries -> staged_portable calls ->
  createApplicationBackup (E:=E) digest (Ok entries) calls request files w = Ended (Ok r, files') w' ->
  exists plan row databases archived workspace,
    let manifest := backup_manifest calls request plan databases (cb_created_at r) <| am_Checksum := checksum_metadata |> in
    length databases = cb_databases r /\
    loadApplicationBackupPlan (Ok entries) (is_directory (rw_fs w)) (rd_plan (rw_db w)) request = Ok plan /\
    pd_backups (rd_plan (rw_db w')) = <[cb_backup_id r := row]> (pd_backups (rd_plan (rw_db w))) /\
    pd_backups (rd_plan (rw_db w)) !! cb_backup_id r = None /\
    files' !! bk_archive_path row = Some archived /\
    cb_sha256 r = bk_archive_sha256 row /\
    forall fails self preserve decode space found workspace' fs plan' request',
      IsAbs (bh_directory calls) = true -> 47%N ∉ text (cb_filename r) ->
      space (total_size archived * 2 + restoreOverhead) = Ok tt ->
      codec_ok -> digest_ok digest -> secrets_json_ok calls decode -> all_valid_texts (manifest_texts manifest) = true ->
      ready fails (bk_archive_path row) (extract_root workspace') fs -> fits DefaultLimits archived ->
      same_target plan plan' -> rq_InstanceID request' = rq_InstanceID request ->
      let stream := Ok {| ts_entries := archived; ts_end := None |} in
      let opened := opened_archive digest fails self preserve decode (bh_directory calls)
                      (fun path => bh_archive_hash calls path archived) space found (bk_archive_path row) workspace' stream fs in
      checked_archive opened row = Ok tt /\
      extracted opened (addressed request' row) plan' = Ok (manifest, bp_Secrets plan) /\
      trees_extracted calls plan workspace self preserve (path_elements (Clean (extract_root workspace')))
        (extraction_of digest fails self preserve (bk_archive_path row) workspace' stream fs).2.
Proof.
  intros Hcat Hport Hrun. destruct w as [d fs0 l e].
  pose proof (create_spec (E:=E) digest (Ok entries) calls request files d fs0 l e) as Hspec. rewrite Hrun in Hspec.
  destruct Hspec as [_ Hspec]. cbn [fst snd] in Hspec.
  destruct Hspec as (plan & running & workspace & databases & secretBytes & now & hash & sources & archived & Hplan & Hw & Hf & Hn & Hd & ->).
  exists plan, (row_of calls request plan now hash), databases, archived, workspace.
  cbn [rw_db rw_fs cb_backup_id cb_created_at cb_databases cb_sha256 cb_filename bk_archive_path bk_archive_sha256 row_of].
  rewrite Hd. do 6 (split; [done|]).
  intros fails self preserve decode space databases' workspace' fs plan' request' Habs Hslash Hspace Hco Hdig Hsec Htexts Hready Hfits Hsame Hid.
  set (stream := Ok {| ts_entries := archived; ts_end := None |}).
  destruct Hw as [(staged & Hst & _) Hsb Hval Hes Hhash]. destruct (plan_Ok _ _ _ _ _ Hplan) as (? & b & _ & _ & _ & _ & Hload).
  apply loaded_secrets_read in Hload as [Hread Hhex].
  assert (all_valid_texts (manifest_texts (backup_manifest calls request plan databases now)) = true) as Htexts'.
  { clear -Htexts. unfold all_valid_texts, manifest_texts in *. rewrite !forallb_app, !andb_true_iff in *.
    destruct Htexts as (Hh & Hr). split; [|exact Hr]. cbn in Hh |- *. rewrite !andb_true_iff in *.
    destruct Hh as (? & ? & ? & ? & ? & ? & ? & _). by split_and!. }
  destruct (archive_extracts digest fails self (archive_path calls request plan now) (extract_root workspace')
    {| eo_Limits := no_limits; eo_PreserveOwnership := preserve |} (backup_manifest calls request plan databases now) sources
    (backup_inline calls plan running secretBytes) archived fs) as (xr & fs' & Hx & Hm & Htrees & Hinline); try done.
  { eapply backup_portable; [done|done|done|]. intros s node rel v _. apply Hport. }
  assert (extraction_of digest fails self preserve (archive_path calls request plan now) workspace' stream fs = (Ok xr, fs')) as Hxo by exact Hx.
  split; [|split].
  - eapply archive_accepted; [done| |exact Hhash|exact Hspace|apply Hready|exact Hxo|done]. by apply filename_plain.
  - unfold extracted, opened_archive. rewrite Hxo. cbn [ar_workspace ar_extract ar_secrets fst snd rbind]. rewrite Hm.
    rewrite own_manifest_accepted by done. cbn [rbind].
    destruct (Hinline {| in_ArchivePath := secrets_name; in_Contents := secretBytes +:+ nl; in_Mode := 384 |}) as [a Ha];
      [by apply list_elem_of_further, list_elem_of_here|].
    cbn [in_ArchivePath in_Contents] in Ha. change (path_elements secrets_name) with ["secrets"; "generated.json"] in Ha. rewrite Ha.
    rewrite (Hsec _ _ (plan_secret_texts _ _ _ _ _ Htexts' Hhex) Hsb). destruct Hsame as (-> & _). by rewrite Hread.
  - rewrite Hxo. intros s node rel v Hs Hnode Hrel. apply stage_sources in Hst as ->. cbn [snd].
    apply (Htrees {| src_ArchivePath := as_ArchivePath (mg_Manifest s); src_Node := bh_staged calls (staged_path workspace s) |} node); try done.
    by apply (list_elem_of_fmap_2 (fun s => {| src_ArchivePath := as_ArchivePath (mg_Manifest s); src_Node := bh_staged calls (staged_path workspace s) |})).
Qed.

(** The sample backup is taken back by a restore of it. *)
Lemma created_backup_restorable_witness : exists plan manifest,
  sample_plan = Ok plan /\ let row := row_of sample_calls backup_request plan "2026-07-22T10:00:00Z" "hash" in
  let opened := @opened_archive sample_codec hex_digest no_failure root_user true sample_decode "/var/backups" (fun _ => Ok "hash") (fun _ => Ok tt) (Ok [])
    sample_backup_path "/var/work" (Ok {| ts_entries := default [] (sample_backup_files !! sample_backup_path); ts_end := None |}) small_disk in
  checked_archive opened row = Ok tt /\ extracted opened (addressed sample_request row) plan = Ok (manifest, sample_secrets).
Proof.
  destruct (created_backup_restorable (H0 := sample_codec) hex_digest https_uri two_entries sample_calls backup_request ∅ _ _ _ _
    two_entries_ok sample_portable sample_backup_ok) as (plan & row & databases & archived & workspace & Hdb & Hplan & Hrow & _ & Hfile & _ & Hrest).
  destruct databases as [|db dbs]; [|discriminate Hdb].
  assert (pd_backups (rd_plan (rw_db (world_of sample_backup_run))) !! sample_operation = Some row) as Hr by (rewrite Hrow; apply lookup_insert_eq).
  assert (match sample_plan with Ok p => pd_backups (rd_plan (rw_db (world_of sample_backup_run))) !! sample_operation =
    Some (row_of sample_calls backup_request p "2026-07-22T10:00:00Z" "hash") | Err _ => True end) as Hexp by (vm_compute; reflexivity).
  change (sample_plan = Ok plan) in Hplan. rewrite Hplan, Hr in Hexp. injection Hexp as ->.
  exists plan, (backup_manifest sample_calls backup_request plan [] "2026-07-22T10:00:00Z" <| am_Checksum := checksum_metadata |>).
  split; [exact Hplan|]. intros row opened.
  assert (match sample_plan with Ok p => bk_archive_path (row_of sample_calls backup_request p "2026-07-22T10:00:00Z" "hash") = sample_backup_path /\
      bp_Secrets p = sample_secrets /\ all_valid_texts (manifest_texts (backup_manifest sample_calls backup_request p [] "2026-07-22T10:00:00Z" <| am_Checksum := checksum_metadata |>)) = true
    | Err _ => True end) as Hfacts by (vm_compute; repeat split; reflexivity).
  rewrite Hplan in Hfacts. destruct Hfacts as (Hpath & Hsec & Htexts). rewrite Hpath in Hfile, Hrest. subst opened. rewrite Hfile. rewrite <- Hsec.
  destruct (Hrest no_failure root_user true sample_decode (fun _ => Ok tt) (Ok []) "/var/work" small_disk plan sample_request)
    as (Hc & Hx & _); [..|exact (conj Hc Hx)].
  - reflexivity.
  - apply (bool_decide_unpack _). vm_compute. exact I.
  - reflexivity.
  - unfold sample_codec. destruct sample_plan; apply one_codec_ok.
  - apply hex_digest_ok.
  - apply sample_secrets_json.
  - exact Htexts.
  - apply sample_ready.
  - assert (match sample_backup_files !! sample_backup_path with Some a => fits_check DefaultLimits a | None => true end = true) as Hfits
      by (vm_compute; reflexivity).
    rewrite Hfile in Hfits. by apply fits_checked.
  - repeat split.
  - reflexivity.
Defined.

(** C26. The application runs again after a backup.  When the backup is reported
    as created, the containers that run are those that ran before it.  When it
    ends with an error, at whichever point and whichever stops failed, they are
    those too, unless the engine failed a start or an inspection; and nothing
    runs that did not run before. *)
Theorem backup_resumes_application {E} `{RestoreHost E} `{ArchiveCodec} digest up failed catalog calls request files w r files' w' :
  truthful_engine (E:=E) up failed -> createApplicationBackup digest catalog calls request files w = Ended (r, files') w' ->
  (is_ok r = true -> up (rw_env w') = up (rw_env w)) /\
  (up (rw_env w') = up (rw_env w) \/ failed (rw_env w') = true) /\
  up (rw_env w') ⊆ up (rw_env w).
Proof.
  intros Hup Hrun. destruct w as [d fs l e].
  pose proof (runs_create up failed Hup digest catalog calls request files (up e) (failed e) d fs l e eq_refl eq_refl) as Hr.
  rewrite Hrun in Hr. destruct Hr as [[Hsub Hback] Hok]. by split_and!.
Qed.

(** A stop that reports an error after it took effect. *)
Lemma backup_resumes_application_witness :
  let w := RWorld sample_rdb sample_files [] {| en_up := {["c-1"]}; en_stop_fails := true; en_start_fails := false; en_failed := false |} in
  exists x files w', @createApplicationBackup engine_host _ sample_codec hex_digest (Ok two_entries) sample_calls backup_request ∅ w =
    Ended (Err x, files) w' /\ en_up (rw_env w') = {["c-1"]}.
Proof.
  intros w. assert (match @createApplicationBackup engine_host _ sample_codec hex_digest (Ok two_entries) sample_calls backup_request ∅ w
    with Ended (Err _, _) w' => en_failed (rw_env w') | _ => true end = false) as Hshape by (vm_compute; reflexivity).
  destruct (@createApplicationBackup engine_host _ sample_codec hex_digest (Ok two_entries) sample_calls backup_request ∅ w)
    as [[[r|x] files] w'|w'] eqn:Hrun; [discriminate Hshape| |discriminate Hshape].
  exists x, files, w'. split; [reflexivity|].
  destruct (backup_resumes_application (H0 := sample_codec) hex_digest en_up en_failed _ _ _ _ _ _ _ _ engine_host_truthful Hrun)
    as (_ & [Hup|Hfail] & _); [exact Hup|]. rewrite Hshape in Hfail. discriminate Hfail.
Defined.

(** The error of a resume that failed is not in the answer when another error
    is: the container stays stopped and the answer tells of the stop only. *)
Theorem resume_error_dropped :
  match @createApplicationBackup engine_host _ sample_codec hex_digest (Ok two_entries) sample_calls backup_request ∅
      (RWorld sample_rdb sample_files [] {| en_up := {["c-1"]}; en_stop_fails := true; en_start_fails := true; en_failed := false |}) with
  | Ended (r, _) w' => r = Err (ErrWrap "stop application for backup" (ErrMsg "timeout")) /\ en_up (rw_env w') = ∅
  | Killed _ => False
  end.
Proof. vm_compute. split; reflexivity. Qed.
End BackupClaims.
