(* ===== verification/Auth.v ===== *)
(** * Administrators and sessions of the API ([internal/auth/auth.go],
    [internal/auth/recovery.go] and the handlers around them in
    [cmd/kitpro-api/main.go])

    Times are instants in nanoseconds.  The tables keep them as RFC 3339 texts
    of UTC with the fraction's trailing zeros removed; a text is read back as
    the instant it was written for, and where a statement compares two texts,
    [text_before] is that comparison for the years 0 to 9999.  Statements fail
    only on a constraint.  Parameters: SHA-256 in hexadecimal ([hash]), bcrypt
    (third-party), the lower case of a user name and random bytes.  A request is
    what the handlers read of it; an answer is its status, its location, the
    cookies it sets (path, same-site mode and expiry are the same for all) and
    the delay it announces; page texts and logging are left out.  Requests are
    handled one after the other; during a request the clock is read twice, by
    the guard or [Login] and by what follows it. *)

From S2P Require Import Prelude Protocol Coordinator NetIP Ingress Manifest Archive.
From stdpp Require Import base strings list gmap.
From Stdlib Require Import ZArith Lia Ascii.

Open Scope Z_scope.

Definition CookieName : string := "kitpro_session".
Definition CSRFCookieName : string := "kitpro_csrf".
Definition MaxPasswordBytes : nat := 72.

Record Config : Type := {
  cf_IdleTimeout : Z;
  cf_AbsoluteLifetime : Z;
  cf_SeenWriteInterval : Z;
  cf_ThrottleWindow : Z;
  cf_ThrottleBaseDelay : Z;
  cf_ThrottleMaxDelay : Z
}.

Definition Millisecond : Z := 1000000.
Definition Second : Z := 1000 * Millisecond.
Definition Minute : Z := 60 * Second.

Definition DefaultConfig : Config :=
  {| cf_IdleTimeout := 30 * Minute; cf_AbsoluteLifetime := 720 * Minute; cf_SeenWriteInterval := 5 * Minute;
     cf_ThrottleWindow := 15 * Minute; cf_ThrottleBaseDelay := 250 * Millisecond; cf_ThrottleMaxDelay := 8 * Second |}.

(** ** Texts of times *)

(** The fraction of a second after the 19 characters up to it. *)
Definition nine_digits (f : Z) : list N :=
  map (fun k => Z.to_N (48 + f / 10 ^ (8 - Z.of_nat k) mod 10)) (seq 0 9).

Definition fraction (f : Z) : list N :=
  if f =? 0 then [90%N] else ([46%N] ++ rev (drop_while (N.eqb 48) (rev (nine_digits f))) ++ [90%N])%list.

Fixpoint bytes_before (a b : list N) : bool :=
  match a, b with
  | _, [] => false
  | [], _ :: _ => true
  | x :: a, y :: b => if (x =? y)%N then bytes_before a b else (x <? y)%N
  end.

Definition text_before (s t : Z) : bool :=
  if s / Second =? t / Second then bytes_before (fraction (s mod Second)) (fraction (t mod Second)) else s / Second <? t / Second.

(** ** [hex.DecodeString] *)
Fixpoint decode_pairs (cs : list N) : option (list N) :=
  match cs with
  | [] => Some []
  | hi :: lo :: cs =>
      match hex_value hi, hex_value lo, decode_pairs cs with
      | Some h, Some l, Some raw => Some ((16 * h + l)%N :: raw)
      | _, _, _ => None
      end
  | _ => None
  end.
Definition DecodeString (s : string) : option (list N) := decode_pairs (text s).

(** ** The tables *)
Record adminRow : Type := { ad_username : string; ad_password_hash : string }.

Record sessionRow : Type := {
  se_admin : Z;
  se_csrf_hash : string;
  se_created : Z;
  se_last_seen : Z;
  se_expires : Z;
  se_revoked : option Z
}.
#[export] Instance sessionRow_eta : Eta sessionRow := fun r =>
  Build_sessionRow (se_admin r) (se_csrf_hash r) (se_created r) (se_last_seen r) (se_expires r) (se_revoked r).
#[export] Instance set_se_last_seen : Setter se_last_seen := ltac:(mk_setter).
#[export] Instance set_se_revoked : Setter se_revoked := ltac:(mk_setter).

Record throttleRow : Type := { tt_failures : Z; tt_next : Z; tt_updated : Z }.

Record auth_db : Type := {
  au_admins : gmap Z adminRow;
  au_sessions : gmap string sessionRow;
  au_throttle : gmap string throttleRow;
  au_steps : gmap string string
}.
#[export] Instance auth_db_eta : Eta auth_db := fun d => Build_auth_db (au_admins d) (au_sessions d) (au_throttle d) (au_steps d).
#[export] Instance set_au_admins : Setter au_admins := ltac:(mk_setter).
#[export] Instance set_au_sessions : Setter au_sessions := ltac:(mk_setter).
#[export] Instance set_au_throttle : Setter au_throttle := ltac:(mk_setter).
#[export] Instance set_au_steps : Setter au_steps := ltac:(mk_setter).

(** [Init] *)
Definition no_auth : auth_db := {| au_admins := ∅; au_sessions := ∅; au_throttle := ∅; au_steps := ∅ |}.

Definition admin_named (username : string) (d : auth_db) : option (Z * adminRow) :=
  head (select (fun _ r => ad_username r = username) (au_admins d)).

(** The identity SQLite gives to a new row. *)
Definition next_admin (d : auth_db) : Z := 1 + foldr Z.max 0 (map fst (map_to_list (au_admins d))).

Definition validPassword (password : string) : bool :=
  bool_decide (12 <= String.length password)%nat && bool_decide (String.length password <= MaxPasswordBytes)%nat.

Definition dummyHash : string := "$2b$10$N9qo8uLOickgx2ZMRZoMyeIjZAgcfl7p92ldGxad68LJZdL17lhWy".

Section auth.
Context (hash : list N -> string) (bcrypt_generate : string -> res string) (bcrypt_compare : string -> string -> bool)
        (ToLower : string -> string).

Definition Setup (user password : string) (d : auth_db) : res unit * auth_db :=
  if decide (TrimSpace user = "" \/ validPassword password = false) then (Err (ErrMsg "invalid credentials"), d)
  else match bcrypt_generate password with
       | Err e => (Err e, d)
       | Ok h =>
           match admin_named user d with
           | Some _ => (Err (ErrSQL "UNIQUE constraint failed: administrator.username"), d)
           | None => (Ok tt, d <| au_admins := <[next_admin d := {| ad_username := user; ad_password_hash := h |}]> (au_admins d) |>)
           end
       end.

Definition candidate (password : string) : string :=
  if decide (MaxPasswordBytes < String.length password)%nat then "invalid-password" else password.

Definition Verify (user password : string) (d : auth_db) : bool :=
  let h := match admin_named user d with Some (_, r) => ad_password_hash r | None => dummyHash end in
  validPassword password && bcrypt_compare h (candidate password).

Definition HasAdmin (d : auth_db) : bool := bool_decide (au_admins d <> ∅).

(** [raw] and [csrf] are the random bytes. *)
Definition NewSessionWithConfig (admin : Z) (cfg : Config) (raw csrf : res (list N)) (now : Z) (d : auth_db)
    : res (string * string) * auth_db :=
  match raw, csrf with
  | Err e, _ | Ok _, Err e => (Err e, d)
  | Ok raw, Ok csrf =>
      match au_sessions d !! hash raw with
      | Some _ => (Err (ErrSQL "UNIQUE constraint failed: sessions.token_hash"), d)
      | None =>
          let row := {| se_admin := admin; se_csrf_hash := hash csrf; se_created := now; se_last_seen := now;
                        se_expires := now + cf_AbsoluteLifetime cfg; se_revoked := None |} in
          (Ok (EncodeToString raw, EncodeToString csrf), d <| au_sessions := <[hash raw := row]> (au_sessions d) |>)
      end
  end.

Definition NewSession (admin : Z) := NewSessionWithConfig admin DefaultConfig.

(** The live row a cookie leads to. *)
Definition cookie_session (cookie : option string) (d : auth_db) : option (string * sessionRow) :=
  match cookie with
  | None => None
  | Some value =>
      match DecodeString value with
      | None => None
      | Some raw =>
          match au_sessions d !! hash raw with
          | Some row => if decide (se_revoked row = None) then Some (hash raw, row) else None
          | None => None
          end
      end
  end.

Definition SessionWithConfig (cookie : option string) (cfg : Config) (now : Z) (d : auth_db) : option Z * auth_db :=
  match cookie_session cookie d with
  | None => (None, d)
  | Some (key, row) =>
      if decide (se_expires row < now \/ cf_IdleTimeout cfg < now - se_last_seen row \/ cf_AbsoluteLifetime cfg < now - se_created row)
      then (None, d)
      else (Some (se_admin row),
            if decide (cf_SeenWriteInterval cfg < now - se_last_seen row)
            then d <| au_sessions := alter (fun r => r <| se_last_seen := now |>) key (au_sessions d) |> else d)
  end.

Definition CSRF (cookie : option string) (header form : string) (d : auth_db) : bool :=
  let tok := if decide (header = "") then form else header in
  match cookie with
  | None => false
  | Some _ =>
      if decide (tok = "") then false
      else match cookie_session cookie d, DecodeString tok with
           | Some (_, row), Some decoded => bool_decide (hash decoded = se_csrf_hash row)
           | _, _ => false
           end
  end.

Definition revoke_where (P : string -> sessionRow -> Prop) `{!forall k r, Decision (P k r)} (now : Z) (d : auth_db) : auth_db :=
  d <| au_sessions := update P (fun r => r <| se_revoked := Some now |>) (au_sessions d) |>.

Definition Revoke (cookie : option string) (now : Z) (d : auth_db) : auth_db :=
  match cookie with
  | None => d
  | Some value =>
      match DecodeString value with
      | None => d
      | Some raw => revoke_where (fun k _ => k = hash raw) now d
      end
  end.

Definition set_password (admin : Z) (h : string) (d : auth_db) : auth_db :=
  d <| au_admins := alter (fun r => {| ad_username := ad_username r; ad_password_hash := h |}) admin (au_admins d) |>.

Definition ChangePassword (admin : Z) (current next : string) (raw csrf : res (list N)) (now : Z) (d : auth_db)
    : res (string * string) * auth_db :=
  if decide (validPassword next = false) then (Err (ErrMsg "invalid password"), d)
  else match au_admins d !! admin with
       | None => (Err (ErrMsg "invalid credentials"), d)
       | Some old =>
           if decide (bcrypt_compare (ad_password_hash old) current = false) then (Err (ErrMsg "invalid credentials"), d)
           else match bcrypt_generate next with
                | Err e => (Err e, d)
                | Ok h => NewSession admin raw csrf now (revoke_where (fun _ r => se_admin r = admin) now (set_password admin h d))
                end
       end.

(** [ResetPassword]: the administrator and how many sessions were revoked; the
    audit record is left out. *)
Definition ResetPassword (username next : string) (now : Z) (d : auth_db) : res (Z * Z) * auth_db :=
  if decide (username = "" \/ validPassword next = false) then (Err (ErrMsg "invalid password recovery request"), d)
  else match bcrypt_generate next with
       | Err e => (Err e, d)
       | Ok h =>
           match admin_named username d with
           | None => (Err (ErrMsg "administrator not found"), d)
           | Some (admin, _) =>
               let live := select (fun _ r => se_admin r = admin /\ se_revoked r = None) (au_sessions d) in
               (Ok (admin, Z.of_nat (length live)),
                revoke_where (fun _ r => se_admin r = admin /\ se_revoked r = None) now (set_password admin h d))
           end
       end.

Definition Cleanup (now : Z) (d : auth_db) : auth_db :=
  d <| au_sessions := filter (fun kr => ~ (se_revoked kr.2 <> None \/ text_before (se_expires kr.2) now = true)) (au_sessions d) |>.

Definition throttleKey (remote username : string) : string :=
  hash (text (remote +:+ String (ascii_of_N 0) (ToLower (TrimSpace username)))).

Definition throttle_delay (cfg : Config) (failures : Z) : Z :=
  Z.min (int64 (cf_ThrottleBaseDelay cfg * 2 ^ (failures - 1))) (cf_ThrottleMaxDelay cfg).

(** The identity and the delay of [Login]. *)
Definition Login (username password remote : string) (cfg : Config) (now : Z) (d : auth_db) : res Z * Z * auth_db :=
  let key := throttleKey remote username in
  let row := au_throttle d !! key in
  let next := match row with Some t => tt_next t | None => now end in
  if decide (now < next) then (Err (ErrMsg "login throttled"), next - now, d)
  else
    let stored := match admin_named username d with Some (_, r) => ad_password_hash r | None => dummyHash end in
    match admin_named username d, validPassword password && bcrypt_compare stored (candidate password) with
    | Some (id, _), true => (Ok id, 0, d <| au_throttle := delete key (au_throttle d) |>)
    | _, _ =>
        let failures := Z.min 8 (match row with Some t => tt_failures t | None => 0 end + 1) in
        let delay := throttle_delay cfg failures in
        let t := {| tt_failures := failures; tt_next := now + delay; tt_updated := now |} in
        let d' := d <| au_throttle := <[key := t]> (au_throttle d) |> in
        (Err (ErrMsg "invalid credentials"), delay,
         d' <| au_throttle := filter (fun kt => text_before (tt_updated kt.2) (now - cf_ThrottleWindow cfg) = false) (au_throttle d') |>)
    end.

(** ** The handlers of the API program *)

Definition setupStepOrder : list string :=
  ["host-readiness"; "runtime"; "storage"; "network"; "docker-address-pool"; "administrator"; "access-mode"; "https"; "cloudflare";
   "first-application"].

Definition initializeSetupState (administratorComplete : bool) (d : auth_db) : auth_db :=
  let state step := if administratorComplete && bool_decide (step = "administrator") then "complete" else "pending" in
  d <| au_steps := fold_left (fun m step => match m !! step with Some _ => m | None => <[step := state step]> m end) setupStepOrder
                     (au_steps d) |>.

Definition setupIncomplete (d : auth_db) : bool :=
  bool_decide (select (fun _ s => s <> "complete" /\ s <> "skipped") (au_steps d) <> []).

Record app : Type := { ap_authCfg : Config; ap_secureCookies : bool; ap_allowedHosts : gset string }.

(** The hosts [main] allows for the value of KITPRO_ALLOWED_HOSTS. *)
Definition allowed_hosts (value : string) : gset string :=
  list_to_set (["127.0.0.1:8080"; "localhost:8080"] ++ filter (fun h => h <> "") (map (fun part => TrimSpace (untext part)) (split_at 44 (text value) []))).

Record request : Type := {
  rq_Method : string;
  rq_Host : string;
  rq_Path : string;
  rq_RemoteAddr : string;
  rq_Origin : string;
  rq_session : option string;
  rq_csrf_header : string;
  rq_form : gmap string string
}.

Definition FormValue (r : request) (name : string) : string := default "" (rq_form r !! name).

Record cookie : Type := { ck_Name : string; ck_Value : string; ck_HttpOnly : bool; ck_Secure : bool; ck_MaxAge : Z }.

Record response : Type := { rs_status : Z; rs_location : option string; rs_cookies : list cookie; rs_retry_after : option Z }.

Definition answer (status : Z) : response := {| rs_status := status; rs_location := None; rs_cookies := []; rs_retry_after := None |}.
Definition redirect (to : string) (status : Z) (cookies : list cookie) : response :=
  {| rs_status := status; rs_location := Some to; rs_cookies := cookies; rs_retry_after := None |}.

(** What a request meets: the two readings of the clock, the random bytes of a
    session and the orders in which the two walks over the allowed hosts go. *)
Record world : Type := {
  w_now : Z;
  w_later : Z;
  w_raw : res (list N);
  w_csrf : res (list N);
  w_order : list string;
  w_order' : list string
}.

Definition handler : Type := request -> world -> auth_db -> response * auth_db.

Definition setCookies (a : app) (tok csrf : string) : list cookie :=
  let age := cf_AbsoluteLifetime (ap_authCfg a) / Second in
  [{| ck_Name := CookieName; ck_Value := tok; ck_HttpOnly := true; ck_Secure := ap_secureCookies a; ck_MaxAge := age |};
   {| ck_Name := CSRFCookieName; ck_Value := csrf; ck_HttpOnly := false; ck_Secure := ap_secureCookies a; ck_MaxAge := age |}].

Definition rHost (order : list string) : string :=
  default "127.0.0.1:8080" (find (fun h => negb (bool_decide (h = "localhost:8080")) && negb (bool_decide (h = "127.0.0.1:8080"))) order).

Definition TrimRightSlashes (s : string) : string := untext (rev (drop_while (N.eqb 47) (rev (text s)))).

Definition allowedOrigin (order order' : list string) (origin : string) : bool :=
  let u := TrimRightSlashes origin in
  bool_decide (u ∈ ["http://" +:+ rHost order; "https://" +:+ rHost order'; "http://127.0.0.1:8080"; "http://localhost:8080"]).

Section handlers.
Context (a : app).

(** What [guard] does before it calls the handler: the answer, when it refuses. *)
Definition guard_checks (r : request) (w : world) (d : auth_db) : option response * auth_db :=
  if decide (rq_Host r ∉ ap_allowedHosts a) then (Some (answer 400), d)
  else match SessionWithConfig (rq_session r) (ap_authCfg a) (w_now w) d with
       | (None, d) => (Some (if HasPrefix (rq_Path r) "/api/" then answer 401 else redirect "/login" 302 []), d)
       | (Some _, d) =>
           if decide (rq_Method r = "GET" \/ rq_Method r = "HEAD") then (None, d)
           else if decide (rq_Origin r = "" \/ allowedOrigin (w_order w) (w_order' w) (rq_Origin r) = false) then (Some (answer 403), d)
           else if CSRF (rq_session r) (rq_csrf_header r) (FormValue r "csrf_token") d then (None, d)
           else (Some (answer 403), d)
       end.

Definition guard (next : handler) : handler := fun r w d =>
  match guard_checks r w d with
  | (Some refusal, d) => (refusal, d)
  | (None, d) => next r w d
  end.

Definition password : handler := fun r w d =>
  if decide (rq_Method r = "GET") then (answer 200, d)
  else if decide (rq_Method r <> "POST") then (answer 405, d)
  else match SessionWithConfig (rq_session r) (ap_authCfg a) (w_later w) d with
       | (None, d) => (answer 401, d)
       | (Some id, d) =>
           match ChangePassword id (FormValue r "current_password") (FormValue r "new_password") (w_raw w) (w_csrf w) (w_later w) d with
           | (Err _, d) => (answer 400, d)
           | (Ok (tok, csrf), d) => (redirect "/" 303 (setCookies a tok csrf), d)
           end
       end.

Definition setup : handler := fun r w d =>
  if decide (rq_Host r ∉ ap_allowedHosts a) then (answer 400, d)
  else if HasAdmin d then (answer 404, d)
  else if decide (rq_Method r = "POST") then
    match Setup (FormValue r "username") (FormValue r "password") d with
    | (Err _, d) => (answer 400, d)
    | (Ok _, d) => (redirect "/login" 303 [], initializeSetupState true d)
    end
  else (answer 200, d).

Definition login : handler := fun r w d =>
  if decide (rq_Host r ∉ ap_allowedHosts a) then (answer 400, d)
  else if decide (rq_Method r = "POST") then
    match Login (FormValue r "username") (FormValue r "password") (rq_RemoteAddr r) (ap_authCfg a) (w_now w) d with
    | (Err _, delay, d) =>
        ({| rs_status := 401; rs_location := None; rs_cookies := [];
            rs_retry_after := if decide (0 < delay) then Some (delay / Second + 1) else None |}, d)
    | (Ok id, _, d) =>
        match NewSessionWithConfig id (ap_authCfg a) (w_raw w) (w_csrf w) (w_later w) d with
        | (Err _, d) => (answer 500, d)
        | (Ok (tok, csrf), d) => (redirect (if setupIncomplete d then "/first-run" else "/") 303 (setCookies a tok csrf), d)
        end
    end
  else (answer 200, d).

Definition logout : handler := fun r w d =>
  if decide (rq_Host r ∉ ap_allowedHosts a) then (answer 400, d)
  else if decide (rq_Method r <> "POST") then (answer 405, d)
  else
    let gone name only := {| ck_Name := name; ck_Value := ""; ck_HttpOnly := only; ck_Secure := ap_secureCookies a; ck_MaxAge := -1 |} in
    (redirect "/login" 303 [gone CookieName true; gone CSRFCookieName false], Revoke (rq_session r) (w_later w) d).

(** The handlers of the routes.  The others leave administrators, sessions and
    the throttle alone. *)
Inductive route : Type :=
  | RouteSetup
  | RouteLogin
  | RouteLogout
  | RoutePassword
  | RouteOther (page : request -> response) (steps : gmap string string -> gmap string string).

Definition handle (t : route) : handler :=
  match t with
  | RouteSetup => setup
  | RouteLogin => login
  | RouteLogout => guard logout
  | RoutePassword => guard password
  | RouteOther page steps => guard (fun r _ d => (page r, d <| au_steps := steps (au_steps d) |>))
  end.

(** ** Histories

    What happens to the tables: requests, the clean-up when the program starts
    and the recovery command.  [reach h d]: the happenings [h], newest first,
    lead from empty tables to [d]. *)
Inductive action : Type :=
  | Served (t : route) (r : request)
  | Started
  | Recovered (username next : string).

Inductive outcome : Type :=
  | Answered (answer : response)
  | Ready
  | Recovery (result : res (Z * Z)).

Record occurrence : Type := { oc_action : action; oc_world : world; oc_before : auth_db; oc_outcome : outcome }.

Definition perform (x : action) (w : world) (d : auth_db) : outcome * auth_db :=
  match x with
  | Served t r => let '(answer, d) := handle t r w d in (Answered answer, d)
  | Started => (Ready, Cleanup (w_now w) (initializeSetupState (HasAdmin d) d))
  | Recovered username next => let '(result, d) := ResetPassword username next (w_now w) d in (Recovery result, d)
  end.

Definition bytes_of (r : res (list N)) : Prop :=
  match r with Ok raw => Forall (fun b => (b < 256)%N) raw | Err _ => True end.

Definition possible (w : world) : Prop :=
  w_now w <= w_later w /\ bytes_of (w_raw w) /\ bytes_of (w_csrf w)
  /\ w_order w ≡ₚ elements (ap_allowedHosts a) /\ w_order' w ≡ₚ elements (ap_allowedHosts a).

Inductive reach : list occurrence -> auth_db -> Prop :=
  | reach_start steps : reach [] (no_auth <| au_steps := steps |>)
  | reach_next h d x w out d' :
      reach h d -> possible w ->
      match h with o :: _ => w_later (oc_world o) <= w_now w | [] => True end ->
      perform x w d = (out, d') ->
      reach ({| oc_action := x; oc_world := w; oc_before := d; oc_outcome := out |} :: h) d'.

(** *** Readings of a history *)

(** The identity of the session a cookie names. *)
Definition session_key (cookie : option string) : option string :=
  match cookie with
  | Some value => match DecodeString value with Some raw => Some (hash raw) | None => None end
  | None => None
  end.

Definition answered (o : occurrence) (status : Z) : Prop :=
  match oc_outcome o with Answered answer => rs_status answer = status | _ => False end.

(** The client of the occurrence gave the password [admin] had. *)
Definition proved_password (o : occurrence) (admin : Z) : Prop :=
  match oc_action o with
  | Served RouteLogin r =>
      exists row, admin_named (FormValue r "username") (oc_before o) = Some (admin, row)
        /\ bcrypt_compare (ad_password_hash row) (FormValue r "password") = true
  | Served RoutePassword r =>
      exists row, au_admins (oc_before o) !! admin = Some row
        /\ bcrypt_compare (ad_password_hash row) (FormValue r "current_password") = true
  | _ => False
  end.

(** The occurrence gave its client a session and its CSRF token. *)
Definition issues (o : occurrence) (key csrfkey : string) (admin : Z) : Prop :=
  exists tok csrf answer,
    oc_outcome o = Answered answer /\ rs_cookies answer = setCookies a tok csrf
    /\ session_key (Some tok) = Some key /\ session_key (Some csrf) = Some csrfkey
    /\ proved_password o admin.

(** The occurrence ended the session [key] of [admin]. *)
Definition ends (o : occurrence) (key : string) (admin : Z) : Prop :=
  match oc_action o with
  | Served RouteLogout r => answered o 303 /\ session_key (rq_session r) = Some key
  | Served RoutePassword r =>
      answered o 303
      /\ exists k row, session_key (rq_session r) = Some k /\ au_sessions (oc_before o) !! k = Some row /\ se_admin row = admin
  | Recovered _ _ => exists revoked, oc_outcome o = Recovery (Ok (admin, revoked))
  | _ => False
  end.

Definition carries (o : occurrence) (key : string) : Prop :=
  match oc_action o with Served _ r => session_key (rq_session r) = Some key | _ => False end.

(** In [h], [key] was given out by [o] and has not been ended since. *)
Definition given (h h2 : list occurrence) (o : occurrence) (key csrfkey : string) (admin : Z) : Prop :=
  (exists h1, h = (h2 ++ o :: h1)%list) /\ issues o key csrfkey admin /\ (forall e, e ∈ h2 -> ~ ends e key admin).

(** A login that reached the check of the password. *)
Definition checked (k : string) (o : occurrence) : bool :=
  match oc_action o with
  | Served RouteLogin r =>
      bool_decide (rq_Host r ∈ ap_allowedHosts a) && bool_decide (rq_Method r = "POST")
      && bool_decide (throttleKey (rq_RemoteAddr r) (FormValue r "username") = k)
      && match au_throttle (oc_before o) !! k with Some t => tt_next t <=? w_now (oc_world o) | None => true end
  | _ => false
  end.
End handlers.
End auth.
