(* ===== verification/AuthProofs.v ===== *)
(** * Sessions and their history: lemmas about [Auth] *)

From S2P Require Import Prelude Protocol Coordinator NetIP Ingress Manifest SecretsProps Archive Auth.
From stdpp Require Import base strings list gmap.
From Stdlib Require Import ZArith Lia Ascii.

Open Scope Z_scope.

(** ** Hexadecimal texts *)

Lemma hex_char_value n : (n < 16)%N -> hex_value (hex_char n) = Some n /\ (hex_char n < 256)%N.
Proof.
  intros H. assert (n ∈ map N.of_nat (seq 0 16)) as Hin.
  { apply list_elem_of_fmap. exists (N.to_nat n). split; [lia|]. apply elem_of_seq. lia. }
  clear H. revert n Hin. apply (proj1 (Forall_forall _ _)). cbv [seq map]. repeat constructor.
Qed.

Lemma decode_pairs_encode raw :
  Forall (fun b => (b < 256)%N) raw ->
  decode_pairs (concat (map (fun b => [hex_char (b / 16)%N; hex_char (b mod 16)%N]) raw)) = Some raw
  /\ Forall (fun c => (c < 256)%N) (concat (map (fun b => [hex_char (b / 16)%N; hex_char (b mod 16)%N]) raw)).
Proof.
  induction 1 as [|b raw Hb _ [IH HF]]; [by split|].
  destruct (hex_char_value (b / 16)%N) as [H1 L1]; [by apply N.Div0.div_lt_upper_bound; lia|].
  destruct (hex_char_value (b mod 16)%N) as [H2 L2]; [by apply N.mod_lt|].
  cbn. rewrite H1, H2, IH. split; [|by repeat constructor].
  do 2 f_equal. pose proof (N.div_mod b 16). lia.
Qed.

Lemma decode_encode raw : Forall (fun b => (b < 256)%N) raw -> DecodeString (EncodeToString raw) = Some raw.
Proof.
  intros [H HF]%decode_pairs_encode. unfold DecodeString, EncodeToString. by rewrite text_untext.
Qed.

(** ** Operations on the table of sessions *)
Section proofs.
Context (hash : list N -> string) (bcrypt_generate : string -> res string) (bcrypt_compare : string -> string -> bool)
        (ToLower : string -> string) (a : Auth.app).
Implicit Types (d : auth_db) (row : sessionRow) (key : string).

Notation session_key := (session_key hash).
Notation issues := (issues hash bcrypt_compare a).
Notation ends := (ends hash).
Notation carries := (carries hash).

(** The rows of [m'] are those of [m], with at most the session of the cookie
    seen again. *)
Definition aged (cookie : option string) (t : Z) (m m' : gmap string sessionRow) : Prop :=
  forall key row', m' !! key = Some row' ->
  exists row, m !! key = Some row
    /\ (se_admin row', se_csrf_hash row', se_created row', se_revoked row')
       = (se_admin row, se_csrf_hash row, se_created row, se_revoked row)
    /\ (se_last_seen row' = se_last_seen row \/ (session_key cookie = Some key /\ se_last_seen row' <= t)).

Lemma aged_refl cookie t m : aged cookie t m m.
Proof. intros key row H. exists row. auto. Qed.

Lemma aged_trans cookie t m1 m2 m3 : aged cookie t m1 m2 -> aged cookie t m2 m3 -> aged cookie t m1 m3.
Proof.
  intros H1 H2 key row'' (row' & Hr & He' & Hs')%H2. destruct (H1 _ _ Hr) as (row & Hm & He & Hs).
  exists row. rewrite He', He. split_and!; [done..|]. destruct Hs' as [->|?]; auto.
Qed.

Lemma cookie_session_Some cookie d key row :
  cookie_session hash cookie d = Some (key, row) <->
  session_key cookie = Some key /\ au_sessions d !! key = Some row /\ se_revoked row = None.
Proof.
  clear bcrypt_generate bcrypt_compare ToLower. unfold cookie_session, Auth.session_key. destruct cookie as [v|]; [|naive_solver].
  destruct (DecodeString v) as [raw|]; [|naive_solver].
  destruct (au_sessions d !! hash raw) as [row0|] eqn:E; [|naive_solver].
  destruct (decide _); naive_solver.
Qed.

Lemma session_aged cookie cfg now t d res d' :
  SessionWithConfig hash cookie cfg now d = (res, d') -> now <= t ->
  aged cookie t (au_sessions d) (au_sessions d') /\ au_admins d' = au_admins d /\ au_throttle d' = au_throttle d.
Proof.
  unfold SessionWithConfig. destruct (cookie_session hash cookie d) as [[key row]|] eqn:E.
  2:{ intros [= <- <-] _. split; [apply aged_refl|done]. }
  apply cookie_session_Some in E as (Hk & Hm & _).
  destruct (decide _). { intros [= <- <-] _. split; [apply aged_refl|done]. }
  destruct (decide _); intros [= <- <-] Ht; [|split; [apply aged_refl|done]].
  split; [|done]. cbn. intros k row'. rewrite lookup_alter_Some.
  intros [(<- & row0 & Hr & ->)|[? ?]]; [|eexists; eauto].
  exists row0. cbn. auto 6.
Qed.

Lemma session_live cookie cfg now d id d' :
  SessionWithConfig hash cookie cfg now d = (Some id, d') ->
  exists key row, session_key cookie = Some key /\ au_sessions d !! key = Some row /\ se_revoked row = None /\ se_admin row = id
    /\ now <= se_expires row /\ now - se_last_seen row <= cf_IdleTimeout cfg /\ now - se_created row <= cf_AbsoluteLifetime cfg.
Proof.
  unfold SessionWithConfig. destruct (cookie_session hash cookie d) as [[key row]|] eqn:E; [|done].
  apply cookie_session_Some in E as (Hk & Hm & Hv). destruct (decide _) as [|Hn]; [done|].
  intros [= <- _]. exists key, row. split_and!; [done..|lia|lia|lia].
Qed.

Lemma csrf_live cookie header form d :
  CSRF hash cookie header form d = true ->
  exists key row tok, session_key cookie = Some key /\ au_sessions d !! key = Some row
    /\ tok ∈ [header; form] /\ session_key (Some tok) = Some (se_csrf_hash row).
Proof.
  clear bcrypt_generate bcrypt_compare ToLower. unfold CSRF. destruct cookie as [v|]; [|done]. case_decide; [done|].
  destruct (cookie_session hash (Some v) d) as [[key row]|] eqn:E; [|done].
  apply cookie_session_Some in E as (Hk & Hm & _).
  destruct (DecodeString _) as [dec|] eqn:ED; [|done]. intros Hh%bool_decide_eq_true.
  exists key, row, (if decide (header = "") then form else header). split_and!; [done..| |].
  - case_decide; set_solver.
  - cbn. by rewrite ED, Hh.
Qed.

(** ** New sessions *)

Lemma new_session_spec admin cfg w t d res d' :
  NewSessionWithConfig hash admin cfg (w_raw w) (w_csrf w) t d = (res, d') -> possible a w ->
  au_admins d' = au_admins d /\ au_throttle d' = au_throttle d /\
  match res with
  | Err _ => d' = d
  | Ok (tok, csrf) =>
      exists key csrfkey, session_key (Some tok) = Some key /\ session_key (Some csrf) = Some csrfkey
        /\ au_sessions d !! key = None
        /\ au_sessions d' = <[key := {| se_admin := admin; se_csrf_hash := csrfkey; se_created := t; se_last_seen := t;
                                        se_expires := t + cf_AbsoluteLifetime cfg; se_revoked := None |}]> (au_sessions d)
  end.
Proof.
  unfold NewSessionWithConfig. intros H (_ & Hr & Hc & _).
  destruct (w_raw w) as [raw|]; [|by injection H as <- <-]. destruct (w_csrf w) as [csrf|]; [|by injection H as <- <-].
  destruct (_ !! _) eqn:E; [by injection H as <- <-|]. injection H as <- <-. split_and!; [done..|].
  exists (hash raw), (hash csrf). cbn. rewrite !decode_encode by done. done.
Qed.

Lemma lookup_revoke_where P `{!forall k r, Decision (P k r)} now d key row' :
  au_sessions (revoke_where P now d) !! key = Some row' -> se_revoked row' = None ->
  exists row, au_sessions d !! key = Some row /\ row' = row /\ ~ P key row.
Proof.
  unfold revoke_where. cbn. intros (row & Hr & ->)%lookup_update_Some Hv. exists row.
  destruct (decide (P key row)); [by destruct row|done].
Qed.

Notation Login := (Login hash bcrypt_compare ToLower).

Lemma login_spec username password remote cfg now d r delay d' :
  Login username password remote cfg now d = (r, delay, d') ->
  au_sessions d' = au_sessions d /\ au_admins d' = au_admins d
  /\ forall id, r = Ok id -> exists adm, admin_named username d = Some (id, adm)
        /\ bcrypt_compare (ad_password_hash adm) password = true.
Proof.
  unfold Auth.Login. case_decide; [by intros [= <- <- <-]|].
  destruct (admin_named username d) as [[id row]|] eqn:Ea; [|by intros [= <- <- <-]].
  destruct (validPassword password) eqn:Ev; cbn [andb]; [|by intros [= <- <- <-]].
  destruct (bcrypt_compare _ _) eqn:Eb; intros [= <- <- <-]; [|done]. split_and!; [done..|]. intros ? [= <-]. exists row.
  split; [done|]. revert Eb. unfold candidate. case_decide; [|done].
  unfold validPassword in Ev. apply andb_true_iff in Ev as [_ Hl%bool_decide_eq_true]. lia.
Qed.

(** ** One happening *)

(** What a happening does to the live sessions. *)
Definition live_step (o : occurrence) (d' : auth_db) : Prop :=
  forall key row', au_sessions d' !! key = Some row' -> se_revoked row' = None ->
  (exists row, au_sessions (oc_before o) !! key = Some row /\ se_revoked row = None
     /\ (se_admin row', se_csrf_hash row', se_created row') = (se_admin row, se_csrf_hash row, se_created row)
     /\ (se_last_seen row' = se_last_seen row \/ (carries o key /\ se_last_seen row' <= w_later (oc_world o)))
     /\ ~ ends o key (se_admin row))
  \/ (issues o key (se_csrf_hash row') (se_admin row')
      /\ se_created row' = w_later (oc_world o) /\ se_last_seen row' = w_later (oc_world o)).

Lemma live_aged o d' t r :
  oc_action o = Served t r -> aged (rq_session r) (w_later (oc_world o)) (au_sessions (oc_before o)) (au_sessions d') ->
  (forall key admin, ~ ends o key admin) -> live_step o d'.
Proof.
  intros Hx Ha Hn key row' Hr Hv. left. destruct (Ha _ _ Hr) as (row & Hm & [= Ead Ecs Ecr Erv] & Hs). exists row.
  split_and!; [done|congruence|congruence| |apply Hn].
  destruct Hs as [?|[? ?]]; [by left|right]. split; [|done]. unfold Auth.carries. by rewrite Hx.
Qed.

Lemma unended o t r answer :
  oc_action o = Served t r -> oc_outcome o = Answered answer -> rs_status answer <> 303 -> forall key admin, ~ ends o key admin.
Proof. intros Hx Ho Hs key admin. unfold Auth.ends, answered. rewrite Hx, Ho. destruct t; naive_solver. Qed.

Lemma login_live r w d answer d' :
  login hash bcrypt_compare ToLower a r w d = (answer, d') -> possible a w ->
  live_step {| oc_action := Served RouteLogin r; oc_world := w; oc_before := d; oc_outcome := Answered answer |} d'.
Proof.
  unfold login. intros H Hw.
  assert (live_step {| oc_action := Served RouteLogin r; oc_world := w; oc_before := d; oc_outcome := Answered answer |} d) as Hsame.
  { eapply live_aged; [done|apply aged_refl|]. by intros ?? []. }
  case_decide; [by injection H as <- <-|]. case_decide; [|by injection H as <- <-].
  destruct (Login _ _ _ _ _ d) as [[[id|] delay] d1] eqn:El; apply login_spec in El as (Es & Ea & Hid).
  2:{ injection H as <- <-. unfold live_step in *. by rewrite Es. }
  destruct (NewSessionWithConfig _ _ _ _ _ _ d1) as [res d2] eqn:En. apply new_session_spec in En as (_ & _ & Hn); [|done].
  destruct res as [[tok csrf]|]; [|subst d2; injection H as <- <-; unfold live_step in *; by rewrite Es].
  destruct Hn as (key & csrfkey & Hk & Hc & _ & Hs). injection H as <- <-.
  destruct (Hid id) as (row & Hnamed & Hb); [done|].
  intros k row' Hr Hv. rewrite Hs, lookup_insert_Some in Hr. destruct Hr as [[<- <-]|[? Hr]].
  - right. cbn. split; [|done]. exists tok, csrf, (redirect (if setupIncomplete d2 then "/first-run" else "/") 303 (setCookies a tok csrf)).
    split_and!; [done..|]. unfold proved_password. cbn. by exists row.
  - rewrite Es in Hr. by apply Hsame.
Qed.

Lemma guard_aged r w d res d' :
  guard_checks hash a r w d = (res, d') -> possible a w ->
  aged (rq_session r) (w_later w) (au_sessions d) (au_sessions d') /\ au_admins d' = au_admins d /\ au_throttle d' = au_throttle d
  /\ forall refusal, res = Some refusal -> rs_status refusal <> 303.
Proof.
  unfold guard_checks. intros H [Hw _]. case_decide.
  { injection H as <- <-. split_and!; [apply aged_refl|done..|]. by intros ? [= <-]. }
  destruct (SessionWithConfig _ _ _ _ d) as [id d1] eqn:Es. apply (session_aged _ _ _ (w_later w)) in Es as (? & ? & ?); [|done].
  assert (forall refusal, res = Some refusal -> rs_status refusal <> 303); [|destruct id; repeat case_decide; repeat case_match; by simplify_eq].
  intros refusal ->. destruct id; repeat case_decide; repeat case_match; by simplify_eq.
Qed.

(** A handler behind the guard: a refusal only ages, an admitted request goes on
    from aged tables. *)
Lemma guarded_live t r next w d answer d' :
  let o := {| oc_action := Served t r; oc_world := w; oc_before := d; oc_outcome := Answered answer |} in
  Auth.guard hash a next r w d = (answer, d') -> possible a w ->
  (forall d1, aged (rq_session r) (w_later w) (au_sessions d) (au_sessions d1) -> au_admins d1 = au_admins d ->
     next r w d1 = (answer, d') -> live_step o d') ->
  live_step o d'.
Proof.
  intros o H Hw Hnext. unfold Auth.guard in H. destruct (guard_checks hash a r w d) as [res d1] eqn:Eg.
  apply guard_aged in Eg as (Ha & Ed & _ & Hr); [|done]. destruct res as [refusal|]; [|by apply (Hnext d1)].
  injection H as <- <-. eapply live_aged; [done|exact Ha|]. eapply unended; [done..|]. by apply Hr.
Qed.

Lemma logout_live r w d answer d' :
  Auth.guard hash a (logout hash a) r w d = (answer, d') -> possible a w ->
  live_step {| oc_action := Served RouteLogout r; oc_world := w; oc_before := d; oc_outcome := Answered answer |} d'.
Proof.
  intros H Hw. apply (guarded_live _ _ _ _ _ _ _ H Hw). clear H. intros d1 Ha _ H. unfold logout in H.
  repeat (case_decide; [injection H as <- <-; eapply live_aged; [done|exact Ha|by eapply unended]|]).
  injection H as <- <-. intros key row' Hr Hv. left.
  assert (au_sessions d1 !! key = Some row' /\ session_key (rq_session r) <> Some key) as [Hr1 Hk].
  { revert Hr. unfold Revoke, Auth.session_key. destruct (rq_session r) as [v|]; [|done]. destruct (DecodeString v) as [raw|]; [|done].
    intros (row & Hm & -> & Hn)%lookup_revoke_where; [|done]. split; [done|]. intros [= <-]. by apply Hn. }
  destruct (Ha _ _ Hr1) as (row & Hm & [= Ead Ecs Ecr Erv] & Hs). exists row. split_and!; [done|congruence|congruence| |].
  - destruct Hs as [?|[? _]]; [by left|done].
  - by intros [_ ?].
Qed.

(** A change of the password: the sessions of the administrator that are left
    are those issued with it. *)
Lemma change_password_spec admin current next w t d res d' :
  ChangePassword hash bcrypt_generate bcrypt_compare admin current next (w_raw w) (w_csrf w) t d = (res, d') -> possible a w ->
  (exists e, res = Err e) /\ d' = d \/
  (exists adm, au_admins d !! admin = Some adm /\ bcrypt_compare (ad_password_hash adm) current = true) /\
  (forall key row', au_sessions d' !! key = Some row' -> se_revoked row' = None ->
     (au_sessions d !! key = Some row' /\ se_admin row' <> admin)
     \/ (se_admin row' = admin /\ se_created row' = t /\ se_last_seen row' = t
         /\ exists tok csrf, res = Ok (tok, csrf) /\ session_key (Some tok) = Some key
             /\ session_key (Some csrf) = Some (se_csrf_hash row'))).
Proof.
  unfold ChangePassword, NewSession. intros H Hw. case_decide; [injection H as <- <-; eauto|].
  destruct (au_admins d !! admin) as [adm|] eqn:Ea; [|injection H as <- <-; eauto].
  case_decide as Hb; [injection H as <- <-; eauto|]. destruct (bcrypt_generate next) as [h|e]; [|injection H as <- <-; eauto].
  right. split; [exists adm; by destruct (bcrypt_compare _ _)|].
  apply new_session_spec in H as (_ & _ & Hn); [|done]. intros key row' Hr Hv.
  assert (au_sessions (revoke_where (fun _ r => se_admin r = admin) t (set_password admin h d)) !! key = Some row' ->
          au_sessions d !! key = Some row' /\ se_admin row' <> admin) as Hold.
  { intros Hx. apply lookup_revoke_where in Hx as (row & Hm & -> & ?); [by split|done]. }
  destruct res as [[tok csrf]|e]; [|subst d'; auto].
  destruct Hn as (k & csrfkey & Hk & Hc & _ & Hs). rewrite Hs, lookup_insert_Some in Hr.
  destruct Hr as [[<- <-]|[_ Hr]]; [|auto]. right. cbn. split_and!; [done..|]. eauto 8.
Qed.

Lemma password_live r w d answer d' :
  Auth.guard hash a (password hash bcrypt_generate bcrypt_compare a) r w d = (answer, d') -> possible a w ->
  live_step {| oc_action := Served RoutePassword r; oc_world := w; oc_before := d; oc_outcome := Answered answer |} d'.
Proof.
  intros H Hw. apply (guarded_live _ _ _ _ _ _ _ H Hw). clear H. intros d1 Ha Hadm H. unfold password in H.
  do 2 (case_decide; [injection H as <- <-; eapply live_aged; [done|exact Ha|by eapply unended]|]).
  destruct (SessionWithConfig _ _ _ _ d1) as [[id|] d2] eqn:Es.
  2:{ apply (session_aged _ _ _ (w_later w)) in Es as (Ha2 & _); [|done]. injection H as <- <-.
      eapply live_aged; [done|by eapply aged_trans|by eapply unended]. }
  pose proof Es as (k0 & row0 & Hk0 & Hm0 & _ & Hid & _)%session_live.
  apply (session_aged _ _ _ (w_later w)) in Es as (Ha2 & Ead & _); [|done].
  pose proof (aged_trans _ _ _ _ _ Ha Ha2) as Ha12.
  destruct (ChangePassword _ _ _ _ _ _ _ _ _ d2) as [res d3] eqn:Ec. apply change_password_spec in Ec as [[Hres ->]|[Hpw Hc]]; [| |done].
  { destruct Hres as [e ->]. injection H as <- <-. eapply live_aged; [done|exact Ha12|by eapply unended]. }
  assert (d' = d3) as -> by (destruct res as [[??]|]; by injection H).
  intros key row' Hr Hv. destruct (Hc _ _ Hr Hv) as [[Hm Hne]|(He & Hcr & Hls & tok & csrf & -> & Ht & Hcs)].
  - left. destruct (Ha12 _ _ Hm) as (row & Hm' & [= Ead' Ecs Ecr Erv] & Hs). exists row.
    split_and!; [done|congruence|congruence|done|].
    intros (_ & k & row1 & Hk & Hm1 & Had). destruct (Ha _ _ Hm0) as (row2 & Hm2 & [= Ead2 _ _ _] & _).
    cbn in Hk, Hm1. rewrite Hk0 in Hk. injection Hk as <-. rewrite Hm2 in Hm1. injection Hm1 as <-. congruence.
  - right. split; [|done]. injection H as <-. rewrite He. eexists tok, csrf, _. split_and!; [done..|].
    unfold proved_password. cbn. by rewrite <- Hadm, <- Ead.
Qed.

Lemma other_live page steps r w d answer d' :
  Auth.guard hash a (fun r _ d => (page r, d <| au_steps := steps (au_steps d) |>)) r w d = (answer, d') -> possible a w ->
  live_step {| oc_action := Served (RouteOther page steps) r; oc_world := w; oc_before := d; oc_outcome := Answered answer |} d'.
Proof.
  intros H Hw. apply (guarded_live _ _ _ _ _ _ _ H Hw). clear H. intros d1 Ha _ [= _ <-].
  eapply live_aged; [done|exact Ha|]. by intros ?? [].
Qed.

Lemma setup_same r w d answer d' :
  setup bcrypt_generate a r w d = (answer, d') -> au_sessions d' = au_sessions d /\ au_throttle d' = au_throttle d.
Proof. unfold setup, Setup. intros H. repeat case_decide; repeat case_match; by simplify_eq. Qed.

Lemma recovery_live username next w d res d' :
  ResetPassword bcrypt_generate username next (w_now w) d = (res, d') ->
  live_step {| oc_action := Recovered username next; oc_world := w; oc_before := d; oc_outcome := Recovery res |} d'.
Proof.
  unfold ResetPassword. intros H.
  assert (forall e, res = Err e -> d' = d ->
    live_step {| oc_action := Recovered username next; oc_world := w; oc_before := d; oc_outcome := Recovery res |} d') as Hfail.
  { intros e -> -> key row Hr Hv. left. exists row. split_and!; [done..|by left|]. by intros [? [=]]. }
  case_decide; [injection H as <- <-; by eapply Hfail|]. destruct (bcrypt_generate next); [|injection H as <- <-; by eapply Hfail].
  destruct (admin_named username d) as [[admin adm]|]; [|injection H as <- <-; by eapply Hfail].
  injection H as <- <-. intros key row' Hr Hv. left. apply lookup_revoke_where in Hr as (row & Hm & -> & Hn); [|done].
  exists row. split_and!; [done..|by left|]. intros [? [= Had _]]. by apply Hn.
Qed.

Lemma perform_live x w d out d' :
  perform hash bcrypt_generate bcrypt_compare ToLower a x w d = (out, d') -> possible a w ->
  live_step {| oc_action := x; oc_world := w; oc_before := d; oc_outcome := out |} d'.
Proof.
  intros H Hw. destruct x as [t r| |username next]; cbn in H.
  - destruct (handle _ _ _ _ a t r w d) as [answer d1] eqn:E. injection H as <- <-. destruct t; cbn in E.
    + apply setup_same in E as [Es _]. eapply live_aged; [done|rewrite Es; apply aged_refl|]. by intros ?? [].
    + by apply login_live.
    + by apply logout_live.
    + by apply password_live.
    + by apply other_live.
  - injection H as <- <-. intros key row Hr Hv. left. exists row. cbn in Hr |- *.
    apply map_lookup_filter_Some in Hr as [Hr _]. split_and!; [done..|by left|]. by intros [].
  - destruct (ResetPassword _ _ _ _ d) as [res d1] eqn:E. injection H as <- <-. by apply recovery_live.
Qed.

(** ** Histories *)
Notation reach := (reach hash bcrypt_generate bcrypt_compare ToLower a).
Notation given := (given hash bcrypt_compare a).

(** A live session was given out and last seen in the history. *)
Definition traced (h : list occurrence) (key : string) (row : sessionRow) : Prop :=
  exists h2 o, given h h2 o key (se_csrf_hash row) (se_admin row) /\ se_created row = w_later (oc_world o)
    /\ exists u, u ∈ (h2 ++ [o])%list /\ (u = o \/ carries u key) /\ se_last_seen row <= w_later (oc_world u).

Lemma live_traced h d key row :
  reach h d -> au_sessions d !! key = Some row -> se_revoked row = None -> traced h key row.
Proof.
  intros H. revert key row. induction H as [|h d x w out d' H IH Hw Ht Hp]; intros key row' Hr Hv; [done|].
  destruct (perform_live _ _ _ _ _ Hp Hw key row' Hr Hv) as [(row & Hm & Hv0 & [= Ead Ecs Ecr] & Hs & Hn)|(Hi & Hc & Hl)].
  - destruct (IH _ _ Hm Hv0) as (h2 & o & ((h1 & ->) & Hi & He) & Hc & u & Hu & Huk & Hul).
    eexists (_ :: h2), o. split_and!; [|congruence|].
    + split_and!; [by exists h1|by rewrite Ecs, Ead|]. intros e [->|He']%elem_of_cons; rewrite Ead; [done|by apply He].
    + destruct Hs as [->|[Hk Hle]]; [exists u; set_solver|].
      eexists. split_and!; [by left|by right|done].
  - eexists [], _. split_and!; [|exact Hc|].
    + split_and!; [by exists h|done|set_solver].
    + eexists. split_and!; [by left|by left|]. cbn in Hl. by rewrite Hl.
Qed.
End proofs.

(** * The throttle of logins: how often a password is checked *)

Lemma text_before_le s t : text_before s t = true -> s < t + Second.
Proof.
  assert (0 < Second) as HS by done. unfold text_before. intros H.
  assert (s / Second <= t / Second) by (destruct (Z.eqb_spec (s / Second) (t / Second)); lia).
  pose proof (Z.div_mod s Second ltac:(done)). pose proof (Z.div_mod t Second ltac:(done)).
  pose proof (Z.mod_pos_bound s Second HS). pose proof (Z.mod_pos_bound t Second HS). nia.
Qed.

Lemma text_before_later s n : 0 < n -> text_before s (s - n * Second) = false.
Proof.
  intros Hn. unfold text_before. replace (s - n * Second) with (s + (- n) * Second) by lia.
  rewrite Z.div_add by done. destruct (Z.eqb_spec (s / Second) (s / Second + - n)); lia.
Qed.

(** How far [f] failures may be ahead of one check in eight seconds. *)
Definition credit (f : Z) : Z :=
  nth (Z.to_nat f) [0; 8000; 15750; 23250; 30250; 36250; 40250; 40250; 40250] 0 * Millisecond.

Lemma credit_step f : 1 <= f <= 8 -> credit f + 8 * Second - throttle_delay DefaultConfig f <= credit (Z.min 8 (f + 1)).
Proof.
  intros H. assert (f ∈ [1; 2; 3; 4; 5; 6; 7; 8]) as Hf by set_solver by lia. clear H. revert f Hf.
  apply (proj1 (Forall_forall _ _)). repeat constructor; by vm_compute.
Qed.

Lemma credit_bound f : 1 <= f <= 8 -> 8 * Second <= credit f <= 41 * Second.
Proof.
  intros H. assert (f ∈ [1; 2; 3; 4; 5; 6; 7; 8]) as Hf by set_solver by lia. clear H. revert f Hf.
  apply (proj1 (Forall_forall _ _)). repeat constructor; by vm_compute.
Qed.

Section throttle.
Context (hash : list N -> string) (bcrypt_generate : string -> res string) (bcrypt_compare : string -> string -> bool)
        (ToLower : string -> string) (a : Auth.app).
Context (Hwindow : cf_ThrottleWindow (ap_authCfg a) = cf_ThrottleWindow DefaultConfig)
        (Hbase : cf_ThrottleBaseDelay (ap_authCfg a) = cf_ThrottleBaseDelay DefaultConfig)
        (Hmax : cf_ThrottleMaxDelay (ap_authCfg a) = cf_ThrottleMaxDelay DefaultConfig).
Implicit Types (d : auth_db) (k : string).

Notation Login := (Login hash bcrypt_compare ToLower).
Notation checked := (checked hash ToLower a).

(** The failures counted in a row. *)
Definition counted (t : option throttleRow) : Z := match t with Some t => tt_failures t | None => 0 end.

Definition after_failure (t : option throttleRow) (now : Z) : throttleRow :=
  let f := Z.min 8 (counted t + 1) in
  {| tt_failures := f; tt_next := now + throttle_delay DefaultConfig f; tt_updated := now |}.

(** What a happening does to the row of [k]. *)
Definition throttle_step k (o : occurrence) d' : Prop :=
  let t := au_throttle (oc_before o) !! k in
  let now := w_now (oc_world o) in
  if checked k o then answered o 401 -> au_throttle d' !! k = Some (after_failure t now)
  else au_throttle d' !! k = t
       \/ (au_throttle d' !! k = None /\ exists row, t = Some row /\ tt_updated row + 899 * Second <= now).

Lemma login_throttle username password remote now d r delay d' k :
  Login username password remote (ap_authCfg a) now d = (r, delay, d') ->
  if bool_decide (throttleKey hash ToLower remote username = k)
     && match au_throttle d !! k with Some t => tt_next t <=? now | None => true end
  then (exists e, r = Err e) -> au_throttle d' !! k = Some (after_failure (au_throttle d !! k) now)
  else au_throttle d' !! k = au_throttle d !! k
       \/ (au_throttle d' !! k = None /\ exists row, au_throttle d !! k = Some row /\ tt_updated row + 899 * Second <= now).
Proof.
  unfold Auth.Login. set (key := throttleKey hash ToLower remote username). intros H.
  case_decide as Hnow.
  { injection H as <- <- <-. case_bool_decide as Hk; [|by left]. subst k. destruct (au_throttle d !! key) as [t|]; [|lia].
    cbn. destruct (Z.leb_spec (tt_next t) now); [lia|by left]. }
  assert (match au_throttle d !! key with Some t => tt_next t <=? now | None => true end = true) as Hopen.
  { destruct (au_throttle d !! key); [apply Z.leb_le; lia|done]. }
  match type of H with (match ?x with _ => _ end) = _ => destruct x as [[id adm]|]; [match type of H with (match ?v with _ => _ end) = _ => destruct v end|] end.
  { injection H as <- <- <-. case_bool_decide as Hk.
    - subst k. cbn. rewrite Hopen. by intros [? [=]].
    - left. cbn. by rewrite lookup_delete_ne. }
  all: injection H as <- <- <-; cbn; case_bool_decide as Hk.
  1,3: subst k; rewrite Hopen; intros _; apply map_lookup_filter_Some; rewrite lookup_insert_eq; cbn; rewrite Hwindow; split;
    [unfold after_failure, throttle_delay, counted; by rewrite Hbase, Hmax|by apply (text_before_later now 900)].
  all: cbn; rewrite map_lookup_filter, lookup_insert_ne by done; destruct (au_throttle d !! k) as [t|]; [|by left]; cbn;
    case_guard as Hf; [by left|right; split; [done|]; exists t; split; [done|]];
    apply not_false_is_true, text_before_le in Hf; rewrite Hwindow in Hf; change (cf_ThrottleWindow DefaultConfig) with (900 * Second) in Hf; lia.
Qed.

Lemma guarded_throttle next r w d answer d' :
  Auth.guard hash a next r w d = (answer, d') -> possible a w ->
  (forall d1 answer d', next r w d1 = (answer, d') -> au_throttle d' = au_throttle d1) -> au_throttle d' = au_throttle d.
Proof.
  unfold Auth.guard. intros H Hw Hn. destruct (guard_checks hash a r w d) as [res d1] eqn:Eg.
  apply guard_aged in Eg as (_ & _ & <- & _); [|done]. destruct res; [by injection H as <- <-|by eapply Hn].
Qed.

Lemma password_throttle r w d answer d' :
  password hash bcrypt_generate bcrypt_compare a r w d = (answer, d') -> possible a w -> au_throttle d' = au_throttle d.
Proof.
  unfold password. intros H Hw. do 2 (case_decide; [by injection H as <- <-|]).
  destruct (SessionWithConfig _ _ _ _ d) as [[id|] d1] eqn:Es; apply (session_aged _ _ _ _ (w_later w)) in Es as (_ & _ & <-); try done;
    [|by injection H as <- <-].
  destruct (ChangePassword _ _ _ _ _ _ _ _ _ d1) as [res d2] eqn:Ec.
  assert (au_throttle d2 = au_throttle d1) as <-; [|destruct res as [[??]|]; by injection H as <- <-].
  revert Ec. unfold ChangePassword, NewSession. case_decide; [by intros [= <- <-]|]. destruct (_ !! _); [|by intros [= <- <-]].
  case_decide; [by intros [= <- <-]|]. destruct (bcrypt_generate _); [|by intros [= <- <-]].
  intros En. by apply (new_session_spec _ a) in En as (_ & -> & _).
Qed.

Lemma perform_throttle x w d out d' k :
  perform hash bcrypt_generate bcrypt_compare ToLower a x w d = (out, d') -> possible a w ->
  throttle_step k {| oc_action := x; oc_world := w; oc_before := d; oc_outcome := out |} d'.
Proof.
  intros H Hw. unfold throttle_step, Auth.checked, answered. cbn [oc_action oc_world oc_before oc_outcome].
  destruct x as [t r| |username next]; cbn in H.
  - destruct (handle _ _ _ _ a t r w d) as [answer d1] eqn:E. injection H as <- <-. destruct t; cbn in E.
    + left. by apply setup_same in E as [_ ->].
    + unfold login in E. case_decide as Hh. { injection E as <- <-. rewrite bool_decide_eq_false_2 by done. by left. }
      rewrite bool_decide_eq_true_2 by done.
      case_decide as Hm; [|injection E as <- <-; rewrite bool_decide_eq_false_2 by done; by left].
      rewrite bool_decide_eq_true_2 by done. cbn [andb].
      destruct (Login _ _ _ _ _ d) as [[res delay] d2] eqn:El. pose proof (login_throttle _ _ _ _ _ _ _ _ k El) as Hl.
      destruct res as [id|e].
      2:{ injection E as <- <-. destruct (_ && _); [|done]. intros _. apply Hl. eauto. }
      destruct (NewSessionWithConfig _ _ _ _ _ _ d2) as [res d3] eqn:En. apply (new_session_spec _ a) in En as (_ & Et & _); [|done].
      assert (au_throttle d1 = au_throttle d2 /\ rs_status answer <> 401) as [-> Hs].
      { destruct res as [[??]|]; by injection E as <- <-. }
      destruct (_ && _); done.
    + left. f_equal. eapply guarded_throttle; [exact E|done|]. clear. intros d1 answer d' H. unfold logout, Revoke in H.
      repeat case_decide; repeat case_match; by simplify_eq.
    + left. f_equal. eapply guarded_throttle; [exact E|done|]. clear -Hw. intros d1 answer d' H. by eapply password_throttle.
    + left. f_equal. eapply guarded_throttle; [exact E|done|]. by intros ??? [= <- <-].
  - injection H as <- <-. by left.
  - destruct (ResetPassword _ _ _ _ d) as [res d1] eqn:E. injection H as <- <-. left. revert E. unfold ResetPassword.
    repeat case_decide; repeat case_match; intros; by simplify_eq.
Qed.

(** ** The number of checks *)
Notation reach := (reach hash bcrypt_generate bcrypt_compare ToLower a).

Definition checks k (h : list occurrence) : Z := Z.of_nat (length (List.filter (checked k) h)).

(** The account of [k] after [h], all its checks being failures from [t0] on. *)
Definition account k (t0 : Z) (h : list occurrence) d : Prop :=
  (checks k h = 0 /\ au_throttle d !! k = None) \/
  exists o, o ∈ h /\ checked k o = true /\ let last := w_now (oc_world o) in
    (exists f, au_throttle d !! k = Some {| tt_failures := f; tt_next := last + throttle_delay DefaultConfig f; tt_updated := last |}
       /\ 1 <= f <= 8 /\ 8 * Second * checks k h <= last - t0 + credit f)
    \/ (au_throttle d !! k = None /\ 8 * Second * checks k h <= last - t0 + 41 * Second
        /\ match h with e :: _ => last + 899 * Second <= w_later (oc_world e) | [] => True end).

Lemma checks_cons k o h : checks k (o :: h) = (if checked k o then 1 else 0) + checks k h.
Proof. unfold checks. cbn. destruct (checked k o); cbn; lia. Qed.

(** A check that fails. *)
Lemma account_check k t0 h d x w out d' :
  let o := {| oc_action := x; oc_world := w; oc_before := d; oc_outcome := out |} in
  account k t0 h d -> checked k o = true -> t0 <= w_now w ->
  match h with o :: _ => w_later (oc_world o) <= w_now w | [] => True end ->
  au_throttle d' !! k = Some (after_failure (au_throttle d !! k) (w_now w)) ->
  account k t0 (o :: h) d'.
Proof.
  intros o Ha Hc H0 Ht Hd. right. exists o. split_and!; [by left|done|]. left. rewrite Hd, checks_cons, Hc.
  unfold after_failure. cbn zeta. change (oc_world o) with w.
  exists (Z.min 8 (counted (au_throttle d !! k) + 1)). split; [done|].
  destruct Ha as [[Hn ->]|(o1 & Ho1 & Hc1 & [(f & Hf & Hf8 & Hb)|(-> & Hb & Hl)])].
  - rewrite Hn. cbn [counted]. pose proof (credit_bound 1). replace (Z.min 8 (0 + 1)) with 1 by lia. lia.
  - pose proof (credit_step f Hf8). rewrite Hf. cbn [counted tt_failures]. split; [lia|].
    unfold Auth.checked in Hc. cbn in Hc. destruct x as [[] r| |]; try done. rewrite Hf in Hc.
    apply andb_true_iff in Hc as [_ Hc%Z.leb_le]. cbn in Hc. lia.
  - cbn [counted]. pose proof (credit_bound 1). replace (Z.min 8 (0 + 1)) with 1 by lia. split; [lia|].
    destruct h as [|e h]; [by apply elem_of_nil in Ho1|]. unfold Second, Millisecond in *. lia.
Qed.

(** Anything else. *)
Lemma account_other k t0 h d x w out d' :
  let o := {| oc_action := x; oc_world := w; oc_before := d; oc_outcome := out |} in
  account k t0 h d -> checked k o = false -> w_now w <= w_later w ->
  match h with o :: _ => w_later (oc_world o) <= w_now w | [] => True end ->
  throttle_step k o d' -> account k t0 (o :: h) d'.
Proof.
  intros o Ha Hc Hw Ht Hs. unfold throttle_step in Hs. rewrite Hc in Hs. cbn in Hs. unfold account. rewrite checks_cons, Hc.
  destruct Ha as [[Hn Hr]|(o1 & Ho1 & Hc1 & [(f & Hf & Hf8 & Hb)|(Hr & Hb & Hl)])].
  - left. split; [lia|]. destruct Hs as [->|[-> _]]; done.
  - right. exists o1. split_and!; [by right|done|]. destruct Hs as [->|[-> (row & Hrow & Hup)]]; [left; by exists f|right].
    rewrite Hf in Hrow. injection Hrow as <-. cbn in Hup |- *. pose proof (credit_bound f Hf8). split_and!; [done|lia|lia].
  - right. exists o1. split_and!; [by right|done|]. right. destruct Hs as [->|[-> (row & Hrow & _)]]; [|congruence].
    split_and!; [done|lia|]. destruct h as [|e h]; [by apply elem_of_nil in Ho1|]. cbn. lia.
Qed.

Lemma reach_account k t0 h d :
  reach h d -> (forall o, o ∈ h -> checked k o = true -> answered o 401 /\ t0 <= w_now (oc_world o)) -> account k t0 h d.
Proof.
  induction 1 as [|h d x w out d' H IH Hw Ht Hp]; intros Hall; [by left|].
  assert (account k t0 h d) as Ha by (apply IH; intros; apply Hall; [by right|done]).
  pose proof (perform_throttle _ _ _ _ _ k Hp Hw) as Hs.
  destruct (checked k {| oc_action := x; oc_world := w; oc_before := d; oc_outcome := out |}) eqn:Hc.
  - destruct (Hall _ (list_elem_of_here _ _) Hc) as [Ho H0]. unfold throttle_step in Hs. rewrite Hc in Hs.
    apply account_check; auto.
  - apply account_other; auto. apply Hw.
Qed.
End throttle.
