(* ===== verification/AuthProps.v ===== *)
(** * Authentication: what a request behind the guard proves of its client, and
    how often passwords can be tried *)

From S2P Require Import Prelude Protocol Coordinator NetIP Ingress Manifest SecretsProps Archive Auth AuthProofs.
From stdpp Require Import base strings list gmap.
From Stdlib Require Import ZArith Lia Ascii.

Open Scope Z_scope.

(** ** Origins *)

Lemma local_hosts value : {["127.0.0.1:8080"; "localhost:8080"]} ⊆ allowed_hosts value.
Proof. unfold allowed_hosts. set_solver. Qed.

Lemma rHost_allowed a value order :
  ap_allowedHosts a = allowed_hosts value -> order ≡ₚ elements (ap_allowedHosts a) -> rHost order ∈ ap_allowedHosts a.
Proof.
  intros Ha Ho. unfold rHost. destruct (find _ order) as [h|] eqn:E.
  - apply find_some in E as [Hin _]. apply list_elem_of_In in Hin. rewrite Ho in Hin. by apply elem_of_elements.
  - rewrite Ha. cbn. pose proof (local_hosts value). set_solver.
Qed.

Lemma origin_allowed a value w origin :
  ap_allowedHosts a = allowed_hosts value -> possible a w -> allowedOrigin (w_order w) (w_order' w) origin = true ->
  exists host, host ∈ ap_allowedHosts a /\ TrimRightSlashes origin ∈ ["http://" +:+ host; "https://" +:+ host].
Proof.
  intros Ha (_ & _ & _ & Ho & Ho') H%bool_decide_eq_true. pose proof (local_hosts value) as Hl. rewrite <- Ha in Hl.
  apply (rHost_allowed _ _ _ Ha) in Ho, Ho'. rewrite !elem_of_cons in H. destruct H as [->|[->|[->|[->|[]%elem_of_nil]]]].
  - exists (rHost (w_order w)). set_solver.
  - exists (rHost (w_order' w)). set_solver.
  - exists "127.0.0.1:8080". set_solver.
  - exists "localhost:8080". set_solver.
Qed.

(** ** Running a history *)
Section run.
Context (hash : list N -> string) (bcrypt_generate : string -> res string) (bcrypt_compare : string -> string -> bool)
        (ToLower : string -> string) (a : Auth.app).

(** The steps are given newest first. *)
Fixpoint run (steps : list (action * world)) : list occurrence * auth_db :=
  match steps with
  | [] => ([], no_auth)
  | (x, w) :: steps =>
      let '(h, d) := run steps in
      let '(out, d') := perform hash bcrypt_generate bcrypt_compare ToLower a x w d in
      ({| oc_action := x; oc_world := w; oc_before := d; oc_outcome := out |} :: h, d')
  end.

Fixpoint in_order (steps : list (action * world)) : Prop :=
  match steps with
  | [] => True
  | (_, w) :: steps =>
      possible a w /\ match steps with (_, w0) :: _ => w_later w0 <= w_now w | [] => True end /\ in_order steps
  end.

Lemma run_reach steps :
  in_order steps -> reach hash bcrypt_generate bcrypt_compare ToLower a (run steps).1 (run steps).2.
Proof.
  induction steps as [|[x w] steps IH]; intros H; [apply (reach_start _ _ _ _ _ ∅)|]. destruct H as (Hw & Ht & H).
  specialize (IH H). cbn. destruct (run steps) as [h d] eqn:Er.
  destruct (perform _ _ _ _ _ x w d) as [out d'] eqn:Ep. cbn in *. apply reach_next; [done..| |done].
  destruct steps as [|[x0 w0] steps]; cbn in Er; [by injection Er as <- <-|].
  destruct (run steps) as [h0 d0]. destruct (perform _ _ _ _ _ x0 w0 d0). by injection Er as <- <-.
Qed.
End run.

Module AuthClaims.

(** C9. A handler behind the guard runs only for a client of an allowed host
    whose session cookie was given out, at most the absolute lifetime ago, to a
    client that gave the administrator's password; since then the session was
    not logged out and that administrator's password was neither changed nor
    reset, and the cookie was used (or given out) within the idle timeout.  A
    request that is neither GET nor HEAD comes from the origin of an allowed
    host and carries the CSRF token given out with that session. *)
Theorem guarded_request_authorized hash bcrypt_generate bcrypt_compare ToLower a value h d r w d' :
  reach hash bcrypt_generate bcrypt_compare ToLower a h d ->
  ap_allowedHosts a = allowed_hosts value -> possible a w ->
  guard_checks hash a r w d = (None, d') ->
  rq_Host r ∈ ap_allowedHosts a /\
  exists key csrfkey admin h2 o,
    session_key hash (rq_session r) = Some key
    /\ given hash bcrypt_compare a h h2 o key csrfkey admin
    /\ w_now w - w_later (oc_world o) <= cf_AbsoluteLifetime (ap_authCfg a)
    /\ (exists u, u ∈ (h2 ++ [o])%list /\ (u = o \/ carries hash u key)
          /\ w_now w - w_later (oc_world u) <= cf_IdleTimeout (ap_authCfg a))
    /\ (rq_Method r = "GET" \/ rq_Method r = "HEAD" \/
        ((exists host, host ∈ ap_allowedHosts a /\ TrimRightSlashes (rq_Origin r) ∈ ["http://" +:+ host; "https://" +:+ host])
         /\ exists tok, tok ∈ [rq_csrf_header r; FormValue r "csrf_token"] /\ session_key hash (Some tok) = Some csrfkey)).
Proof.
  intros H Ha Hw Hg. unfold guard_checks in Hg. case_decide as Hh; [done|]. split; [done|].
  destruct (SessionWithConfig _ _ _ _ d) as [[id|] d1] eqn:Es; [|done].
  pose proof Es as (key & row & Hk & Hr & Hv & _ & _ & Hidle & Habs)%session_live.
  destruct (live_traced _ _ _ _ _ _ _ _ _ H Hr Hv) as (h2 & o & Hgiven & Hc & u & Hu & Huk & Hul).
  exists key, (se_csrf_hash row), (se_admin row), h2, o. split_and!; [done|done|lia|exists u; split_and!; [done..|lia]|].
  case_decide as Hm; [tauto|]. do 2 right. case_decide as Ho; [done|]. apply Decidable.not_or in Ho as [_ Ho%not_false_is_true].
  split; [by eapply origin_allowed|]. destruct (CSRF _ _ _ _ d1) eqn:Ec; [|done].
  apply csrf_live in Ec as (key' & row' & tok & Hk' & Hr' & Ht & Hcs). exists tok. split; [done|].
  rewrite Hk in Hk'. injection Hk' as <-. apply (session_aged _ _ _ _ (w_now w)) in Es as (Hage & _); [|done].
  destruct (Hage _ _ Hr') as (row0 & Hr0 & [= _ Ecs _ _] & _). rewrite Hr in Hr0. injection Hr0 as <-. congruence.
Qed.

(** Requests being handled one after the other: however the logins of one
    throttle key (remote address and user name) are interleaved with other requests, with clean-ups and with recoveries, a
    client that keeps failing has its password checked at most six times plus
    once for every eight seconds: the other logins are refused unchecked. *)
Theorem password_checks_bounded hash bcrypt_generate bcrypt_compare ToLower a h d k t0 T :
  reach hash bcrypt_generate bcrypt_compare ToLower a h d ->
  (cf_ThrottleWindow (ap_authCfg a), cf_ThrottleBaseDelay (ap_authCfg a), cf_ThrottleMaxDelay (ap_authCfg a))
  = (cf_ThrottleWindow DefaultConfig, cf_ThrottleBaseDelay DefaultConfig, cf_ThrottleMaxDelay DefaultConfig) ->
  (forall o, o ∈ h -> checked hash ToLower a k o = true -> answered o 401 /\ t0 <= w_now (oc_world o) <= t0 + T) ->
  0 <= T -> checks hash ToLower a k h <= 6 + T / (8 * Second).
Proof.
  intros H [= Hwin Hbase Hmax] Hall HT. assert (0 < Second) as HS by done.
  assert (account hash ToLower a k t0 h d) as Ha.
  { eapply reach_account; [exact Hwin|exact Hbase|exact Hmax|exact H|]. intros o Ho Hc. destruct (Hall o Ho Hc). split; [done|lia]. }
  assert (8 * Second * checks hash ToLower a k h <= T + 41 * Second) as Hb.
  { destruct Ha as [[-> _]|(o & Ho & Hc & Ho')]; [lia|]. destruct (Hall o Ho Hc) as [_ Hin].
    destruct Ho' as [(f & _ & Hf & Hb)|(_ & Hb & _)]; [pose proof (credit_bound f Hf)|]; lia. }
  pose proof (Z.div_mod T (8 * Second) ltac:(done)) as Hd. pose proof (Z.mod_pos_bound T (8 * Second) ltac:(done)).
  unfold Second, Millisecond in *. nia.
Qed.

(** *** Witnesses

    A server without further allowed hosts; the digest is the bytes themselves
    and the hash of a password the password. *)
Definition plain_hash : list N -> string := EncodeToString.
Definition plain_generate (password : string) : res string := Ok password.
Definition plain_compare (h password : string) : bool := bool_decide (h = password).

Definition server : Auth.app :=
  {| ap_authCfg := DefaultConfig; ap_secureCookies := true; ap_allowedHosts := allowed_hosts "" |}.

Definition at_second (n : Z) : world :=
  {| w_now := n * Second; w_later := n * Second; w_raw := Ok (map N.of_nat (seq 1 32)); w_csrf := Ok (map N.of_nat (seq 101 32));
     w_order := elements (ap_allowedHosts server); w_order' := elements (ap_allowedHosts server) |}.

Definition post (path password : string) : request :=
  {| rq_Method := "POST"; rq_Host := "localhost:8080"; rq_Path := path; rq_RemoteAddr := "192.0.2.7:40000";
     rq_Origin := "http://localhost:8080/"; rq_session := Some (EncodeToString (map N.of_nat (seq 1 32)));
     rq_csrf_header := EncodeToString (map N.of_nat (seq 101 32));
     rq_form := {["username" := "admin"; "password" := password]} |}.

Lemma possible_at n : possible server (at_second n).
Proof. unfold possible. cbn. split_and!; [lia|repeat constructor..|done|done]. Qed.

Definition sample_run (steps : list (action * world)) : list occurrence * auth_db :=
  run plain_hash plain_generate plain_compare id server steps.

Definition logged_in : list (action * world) :=
  [(Served RouteLogin (post "/login" "correct horse battery"), at_second 20);
   (Served RouteLogin (post "/login" "wrong horse battery"), at_second 10);
   (Served RouteSetup (post "/setup" "correct horse battery"), at_second 0);
   (Started, at_second 0)].

Ltac in_order_tac :=
  apply run_reach; repeat (split; [apply possible_at|]; split; [first [exact I|vm_compute; discriminate]|]); exact I.

Lemma logged_in_reach :
  reach plain_hash plain_generate plain_compare id server (sample_run logged_in).1 (sample_run logged_in).2.
Proof. in_order_tac. Qed.

Lemma guarded_request_authorized_witness :
  guard_checks plain_hash server (post "/api/v1/apps" "") (at_second 60) (sample_run logged_in).2
  = (None, (guard_checks plain_hash server (post "/api/v1/apps" "") (at_second 60) (sample_run logged_in).2).2)
  /\ exists key csrfkey admin h2 o,
    session_key plain_hash (rq_session (post "/api/v1/apps" "")) = Some key
    /\ given plain_hash plain_compare server (sample_run logged_in).1 h2 o key csrfkey admin.
Proof.
  assert (guard_checks plain_hash server (post "/api/v1/apps" "") (at_second 60) (sample_run logged_in).2
    = (None, (guard_checks plain_hash server (post "/api/v1/apps" "") (at_second 60) (sample_run logged_in).2).2)) as Hg
    by (vm_compute; reflexivity).
  split; [exact Hg|].
  destruct (guarded_request_authorized plain_hash plain_generate plain_compare id server "" (sample_run logged_in).1
    (sample_run logged_in).2 (post "/api/v1/apps" "") (at_second 60) _
    logged_in_reach eq_refl (possible_at 60) Hg)
    as [_ (key & csrfkey & admin & h2 & o & Hk & Hgiven & _)].
  exists key, csrfkey, admin, h2, o. split; [exact Hk|exact Hgiven].
Defined.

(** Nine attempts, a second apart: five of them are checked. *)
Definition guesses : list (action * world) :=
  map (fun n => (Served RouteLogin (post "/login" "wrong horse battery"), at_second n)) [9; 8; 7; 6; 5; 4; 3; 2; 1].

Lemma failed_between h k t0 t1 :
  forallb (fun o => negb (checked plain_hash id server k o)
    || (match oc_outcome o with Answered answer => rs_status answer =? 401 | _ => false end
        && (t0 <=? w_now (oc_world o)) && (w_now (oc_world o) <=? t1))) h = true ->
  forall o, o ∈ h -> checked plain_hash id server k o = true -> answered o 401 /\ t0 <= w_now (oc_world o) <= t1.
Proof.
  rewrite forallb_forall. intros H o Ho Hc. apply list_elem_of_In in Ho. specialize (H o Ho). rewrite Hc in H. cbn in H.
  unfold answered. destruct (oc_outcome o); [|lia..]. lia.
Qed.

Definition guess_key : string := throttleKey plain_hash id "192.0.2.7:40000" "admin".

Lemma password_checks_bounded_witness :
  checks plain_hash id server guess_key (sample_run guesses).1 = 5
  /\ checks plain_hash id server guess_key (sample_run guesses).1 <= 6 + 8 * Second / (8 * Second).
Proof.
  split; [vm_compute; reflexivity|].
  apply (password_checks_bounded plain_hash plain_generate plain_compare id server (sample_run guesses).1 (sample_run guesses).2
           guess_key Second (8 * Second)).
  - in_order_tac.
  - reflexivity.
  - apply failed_between. vm_compute. reflexivity.
  - vm_compute. discriminate.
Defined.

(** The throttle key of a login has the port of the connection in it: a client
    that has just failed is checked at once again over a new connection. *)
Example new_connection_unthrottled :
  let again port := {| rq_Method := "POST"; rq_Host := "localhost:8080"; rq_Path := "/login"; rq_RemoteAddr := port; rq_Origin := "";
                       rq_session := None; rq_csrf_header := ""; rq_form := {["username" := "admin"; "password" := "guess"]} |} in
  let try port := (login plain_hash plain_compare id server (again port) (at_second 9) (sample_run guesses).2).1 in
  (rs_retry_after (try "192.0.2.7:40000"), rs_retry_after (try "192.0.2.7:40001")) = (Some 2, Some 1)
  /\ is_Some (au_throttle (login plain_hash plain_compare id server (again "192.0.2.7:40001") (at_second 9) (sample_run guesses).2).2
               !! throttleKey plain_hash id "192.0.2.7:40001" "admin").
Proof. split; [vm_compute; reflexivity|]. eexists. vm_compute. reflexivity. Qed.
End AuthClaims.
