(* ===== verification/ControlPlane.v ===== *)
(** * The control plane of the API ([internal/operations/operations.go] and the
    operations of [cmd/kitpro-api/main.go])

    The API records an operation, builds the request for the helper from the
    catalogue, sends it, and projects what the helper committed into its own
    tables.  The helper is behind a socket: an exchange may fail before the
    request is written, while it is written or while the answer is read.  What
    the API meets outside its database is the class [ControlHost]; the
    exchanges made so far are kept in order.  Statements fail only on
    constraints, except that a projecting transaction may fail to begin.
    Parameters: the decoded form of a result of the helper
    ([encoding/json]), and those of [Manifest].  The configured LAN address is
    that of the helper.  Logging and the bodies of answers are left out. *)

From S2P Require Import Prelude Protocol Exposure HelperDB Coordinator NetIP ExposurePolicy Ingress Containers Manifest ExternalStorage HelperPlan.
From stdpp Require Import base strings list gmap sorting.
From Stdlib Require Import ZArith Lia Ascii.

Import Wire.
Open Scope Z_scope.

#[local] Instance set_rq_ApplicationID : Setter rq_ApplicationID := ltac:(mk_setter).
#[local] Instance set_rq_ReleaseID : Setter rq_ReleaseID := ltac:(mk_setter).
#[local] Instance set_rq_Image : Setter rq_Image := ltac:(mk_setter).
#[local] Instance set_rq_NetworkName : Setter rq_NetworkName := ltac:(mk_setter).
#[local] Instance set_rq_DataPath : Setter rq_DataPath := ltac:(mk_setter).
#[local] Instance set_rq_RestartPolicy : Setter rq_RestartPolicy := ltac:(mk_setter).
#[local] Instance set_rq_Command : Setter rq_Command := ltac:(mk_setter).
#[local] Instance set_rq_Storage : Setter rq_Storage := ltac:(mk_setter).
#[local] Instance set_rq_Services : Setter rq_Services := ltac:(mk_setter).
#[local] Instance set_rq_Bindings : Setter rq_Bindings := ltac:(mk_setter).
#[local] Instance set_rq_Hardware : Setter rq_Hardware := ltac:(mk_setter).
#[local] Instance set_rq_RunAs : Setter rq_RunAs := ltac:(mk_setter).
#[local] Instance set_rq_Configuration : Setter rq_Configuration := ltac:(mk_setter).
#[local] Instance set_rq_ExternalStorage : Setter rq_ExternalStorage := ltac:(mk_setter).

(** ** Tables *)
Record operationRow : Type := {
  or_Type : string;
  or_RequestedAt : string;
  or_Status : string;
  or_InstanceID : string;
  or_Summary : string
}.
#[export] Instance operationRow_eta : Eta operationRow := fun r =>
  Build_operationRow (or_Type r) (or_RequestedAt r) (or_Status r) (or_InstanceID r) (or_Summary r).
#[export] Instance set_or_Status : Setter or_Status := ltac:(mk_setter).
#[export] Instance set_or_Summary : Setter or_Summary := ltac:(mk_setter).

Record installationRow : Type := {
  ir_application : string;
  ir_release : string;
  ir_desired : string;
  ir_generation : Z;
  ir_runtime_state : string;
  ir_recon_state : string;
  ir_recon_codes : list string;
  ir_reconciled_at : string;
  ir_repaired_at : string;
  ir_source : string;
  ir_created : string;
  ir_updated : string
}.
#[export] Instance installationRow_eta : Eta installationRow := fun r =>
  Build_installationRow (ir_application r) (ir_release r) (ir_desired r) (ir_generation r) (ir_runtime_state r) (ir_recon_state r)
    (ir_recon_codes r) (ir_reconciled_at r) (ir_repaired_at r) (ir_source r) (ir_created r) (ir_updated r).
#[export] Instance set_ir_release : Setter ir_release := ltac:(mk_setter).
#[export] Instance set_ir_desired : Setter ir_desired := ltac:(mk_setter).
#[export] Instance set_ir_generation : Setter ir_generation := ltac:(mk_setter).
#[export] Instance set_ir_runtime_state : Setter ir_runtime_state := ltac:(mk_setter).
#[export] Instance set_ir_recon_state : Setter ir_recon_state := ltac:(mk_setter).
#[export] Instance set_ir_recon_codes : Setter ir_recon_codes := ltac:(mk_setter).
#[export] Instance set_ir_reconciled_at : Setter ir_reconciled_at := ltac:(mk_setter).
#[export] Instance set_ir_repaired_at : Setter ir_repaired_at := ltac:(mk_setter).
#[export] Instance set_ir_source : Setter ir_source := ltac:(mk_setter).
#[export] Instance set_ir_updated : Setter ir_updated := ltac:(mk_setter).

Record control_db : Type := {
  cd_operations : gmap string operationRow;
  cd_installations : gmap string installationRow;
  cd_exposures : exposures;
  cd_selections : gmap (string * string * string) string
}.
#[export] Instance control_db_eta : Eta control_db := fun d =>
  Build_control_db (cd_operations d) (cd_installations d) (cd_exposures d) (cd_selections d).
#[export] Instance set_cd_operations : Setter cd_operations := ltac:(mk_setter).
#[export] Instance set_cd_installations : Setter cd_installations := ltac:(mk_setter).
#[export] Instance set_cd_exposures : Setter cd_exposures := ltac:(mk_setter).
#[export] Instance set_cd_selections : Setter cd_selections := ltac:(mk_setter).

(** ** Operation records *)
Definition insert_operation (id typ instance now : string) : tx control_db unit := fun d =>
  match cd_operations d !! id with
  | Some _ => Err (ErrSQL "UNIQUE constraint failed: operations.id")
  | None =>
      let row := {| or_Type := typ; or_RequestedAt := now; or_Status := "accepted"; or_InstanceID := instance; or_Summary := "" |} in
      Ok (tt, d <| cd_operations := <[id := row]> (cd_operations d) |>)
  end.

Definition update_operation (id status summary : string) (d : control_db) : control_db :=
  d <| cd_operations := alter (fun r => r <| or_Status := status |> <| or_Summary := summary |>) id (cd_operations d) |>.

Definition RecoverAccepted (d : control_db) : Z * control_db :=
  let await r := if decide (or_Summary r = "") then r <| or_Summary := "awaiting helper state" |> else r in
  (Z.of_nat (affected (fun _ r => or_Status r = "accepted") (cd_operations d)),
   d <| cd_operations := update (fun _ r => or_Status r = "accepted") await (cd_operations d) |>).

Definition get_operation (id : string) (d : control_db) : option operationRow := cd_operations d !! id.

(** The order of equal times is not given by the statement. *)
Definition list_operations (d : control_db) : list (string * operationRow) :=
  take 20 (rev (sort_by (fun kr => or_RequestedAt kr.2) (map_to_list (cd_operations d)))).

(** ** Results of the helper *)
Record committedLifecycleResult : Type := {
  cl_Generation : Z;
  cl_ReleaseID : string;
  cl_RuntimeState : string;
  cl_Bindings : list ServiceBinding
}.

Record reconciliationResult : Type := {
  rc_InstallationID : string;
  rc_CheckedGeneration : Z;
  rc_State : string;
  rc_RuntimeState : string;
  rc_ObservedAt : string;
  rc_MismatchCodes : list string;
  rc_RecommendedAction : string;
  rc_Projection : option committedLifecycleResult
}.

(** ** The outside *)

(** One exchange with the helper.  The cause of [DialFailed] is that of
    [net.Dial] or of the write deadline, that of [WriteFailed] of
    [protocol.Write], that of [ReadFailed] of the read deadline or of
    [protocol.ReadResponse]. *)
Inductive exchange : Type :=
  | DialFailed (cause : error)
  | WriteFailed (cause : error)
  | ReadFailed (cause : error)
  | Replied (response : Response).

Class ControlHost (E : Type) : Type := {
  ch_exchange : Request -> E -> exchange * E;
  ch_deadline : E -> string * E;
  ch_listen : string -> string -> E -> res unit * E;
  ch_open : E -> string -> res string;
  ch_now : E -> string * E;
  ch_random : nat -> E -> list N * E;
  ch_begin : E -> res unit * E
}.

Record cworld {E : Type} : Type := { cw_db : control_db; cw_env : E; cw_log : list (Request * exchange) }.
Arguments cworld : clear implicits.

(** A part of a handler: a result and the world after it. *)
Definition cprog (E A : Type) : Type := cworld E -> A * cworld E.
Definition cret {E A} (x : A) : cprog E A := fun w => (x, w).
Definition cbind {E A B} (m : cprog E A) (f : A -> cprog E B) : cprog E B := fun w => let '(x, w) := m w in f x w.

Declare Scope control_scope.
Delimit Scope control_scope with control.
Notation "'via*' x ':=' m 'in' k" := (cbind m (fun x => k))
  (at level 200, x pattern, m at level 100, k at level 200, right associativity) : control_scope.
Open Scope control_scope.

Definition read_db {E A} (f : control_db -> A) : cprog E A := fun w => (f (cw_db w), w).
Definition change_db {E} (f : control_db -> control_db) : cprog E unit := fun w =>
  (tt, {| cw_db := f (cw_db w); cw_env := cw_env w; cw_log := cw_log w |}).
Definition from_env {E A} (f : E -> A * E) : cprog E A := fun w =>
  let '(x, e) := f (cw_env w) in (x, {| cw_db := cw_db w; cw_env := e; cw_log := cw_log w |}).

(** A transaction, or one statement: rolled back when it fails. *)
Definition commit {E A} (t : tx control_db A) : cprog E (res A) := fun w =>
  match t (cw_db w) with
  | Ok (x, d) => (Ok x, {| cw_db := d; cw_env := cw_env w; cw_log := cw_log w |})
  | Err e => (Err e, w)
  end.

(** The parameters of a request: of its URL, or of its form. *)
Notation query := (gmap string string).

Section control.
Context {E : Type} `{Host : ControlHost E} (P : string -> option URL) (Quote : string -> string).
Context (catalog : gmap string Manifest) (configuredLAN : string).
Context (decode_committed : option json -> option committedLifecycleResult)
        (decode_reconciliation : option json -> option reconciliationResult).

(** ** Identities *)
Definition NewID : cprog E string := via* b := from_env (ch_random 16) in cret ("op-" +:+ EncodeToString b).
Definition NewRequestID : cprog E string := via* b := from_env (ch_random 16) in cret ("req-" +:+ EncodeToString b).
Definition NewInstallation : cprog E string := via* b := from_env (ch_random 8) in cret ("inst-" +:+ EncodeToString b).

(** ** Calling the helper *)
Record helperTransportError : Type := { te_cause : error; te_acceptancePossible : bool }.

Definition callHelper (request : Request) : cprog E (Response + helperTransportError) :=
  via* deadline := from_env ch_deadline in
  let request := if decide (rq_Deadline request = "") then request <| rq_Deadline := deadline |> else request in
  via* x := (fun w => let '(x, e) := ch_exchange request (cw_env w) in
                      (x, {| cw_db := cw_db w; cw_env := e; cw_log := (cw_log w ++ [(request, x)])%list |})) in
  cret (match x with
        | DialFailed cause => inr {| te_cause := cause; te_acceptancePossible := false |}
        | WriteFailed cause | ReadFailed cause => inr {| te_cause := cause; te_acceptancePossible := true |}
        | Replied response => inl response
        end).

(** [protocol.Request{Version: 2, ...}] with the fields every operation has. *)
Definition operation_request (requestID operationID operation : string) (revision : Z) (installation : string) : Request :=
  ProtocolProps.empty_request <| rq_Version := 2 |> <| rq_ID := requestID |> <| rq_OperationID := operationID |>
    <| rq_Operation := operation |> <| rq_OperationRevision := revision |> <| rq_InstanceID := installation |>.

Definition unknown_outcome (request : Request) : Response :=
  {| rs_OK := true; rs_RequestID := rq_ID request; rs_OperationID := rq_OperationID request; rs_State := "accepted";
     rs_Phase := "transport_outcome_unknown"; rs_ActiveOperationID := ""; rs_Result := None; rs_ErrorCode := ""; rs_Error := "";
     rs_Retryable := false |}.

Definition callHelperOperation (request : Request) : cprog E (res Response) :=
  via* first := callHelper request in
  match first with
  | inl response => cret (Ok response)
  | inr transport =>
      via* requestID := NewRequestID in
      via* lookup := callHelper (operation_request requestID (rq_OperationID request) "GetOperation" 0 "") in
      let fallback := if te_acceptancePossible transport then Ok (unknown_outcome request) else Err (te_cause transport) in
      cret (match lookup with
            | inl response => if decide (rs_ErrorCode response <> "OperationNotFound") then Ok response else fallback
            | inr _ => fallback
            end)
  end.

Definition helperStatePending (state : string) : bool := bool_decide (state ∈ ["accepted"; "executing"; "reconciling"]).

Definition isCommittedLifecycleOperation (operation : string) : bool :=
  bool_decide (operation ∈ ["InstallApplication"; "UpdateApplication"; "ConfigureServiceExposure"; "RecreateApplication";
                            "StartApplication"; "StopApplication"; "RestartApplication"; "RemoveApplication"]).

(** ** Projections *)
Definition bad_committed_binding (b : ServiceBinding) : bool :=
  bool_decide (ServiceID b = "") || bool_decide (ContainerPort b < 1)
  || (negb (bool_decide (Transport b = TCP)) && negb (bool_decide (Transport b = UDP))).

Definition decodeCommittedLifecycleResult (value : option json) : res committedLifecycleResult :=
  match decode_committed value with
  | None => Err (ErrMsg "helper returned no committed lifecycle result")
  | Some result =>
      refuse (~ (1 <= cl_Generation result /\ cl_ReleaseID result <> "" /\ cl_RuntimeState result ∈ ["running"; "stopped"; "runtime_removed"]
                 /\ Z.of_nat (length (cl_Bindings result)) <= MaxBindings))
      with "helper returned no committed lifecycle result" in
      refuse (existsb bad_committed_binding (cl_Bindings result) = true) with "helper returned invalid committed bindings" in
      Ok result
  end.

Definition decodeReconciliationResult (value : option json) : res reconciliationResult :=
  match decode_reconciliation value with
  | None => Err (ErrMsg "helper returned no reconciliation result")
  | Some result =>
      refuse (rc_InstallationID result = "" \/ rc_State result = "" \/ rc_ObservedAt result = "")
      with "helper returned no reconciliation result" in Ok result
  end.

Definition upsertExposureProjection (installationID : string) (binding : ServiceBinding) (now : string) : tx control_db unit := fun d =>
  match ValidateBinding binding configuredLAN (HostPort binding) with
  | Err e => Err e
  | Ok _ =>
      let key := (installationID, ServiceID binding) in
      let created := match cd_exposures d !! key with Some old => er_CreatedAt old | None => now end in
      let row := {| er_InstallationID := installationID; er_ServiceID := ServiceID binding; er_Transport := Transport binding;
                    er_Mode := Mode binding; er_HostAddress := HostAddress binding; er_HostPort := HostPort binding;
                    er_CreatedAt := created; er_UpdatedAt := now |} in
      if decide (exposure_checks row /\ endpoint_free (cd_exposures d) key row)
      then Ok (tt, d <| cd_exposures := <[key := row]> (cd_exposures d) |>)
      else Err (ErrSQL "installation_service_exposure")
  end.

Fixpoint project_bindings (installationID : string) (bindings : list ServiceBinding) (now : string) : tx control_db unit :=
  match bindings with
  | [] => tret tt
  | b :: bindings => do* upsertExposureProjection installationID b now in project_bindings installationID bindings now
  end.

Definition get_installation (installationID : string) : tx control_db installationRow :=
  trow (fun d => cd_installations d !! installationID).

(** [UPDATE installations SET f WHERE installation_id = ?] *)
Definition set_installation (installationID : string) (f : installationRow -> installationRow) : tx control_db unit := fun d =>
  Ok (tt, d <| cd_installations := alter f installationID (cd_installations d) |>).

Definition repair_projection (installationID sourceOperation : string) (committed : committedLifecycleResult) (updateDesired : bool)
    (now : string) : tx control_db unit :=
  let* current := get_installation installationID in
  do* tassert (ir_generation current <= cl_Generation committed) "control projection is newer than helper generation" in
  do* set_installation installationID (fun r =>
        let r := r <| ir_generation := cl_Generation committed |> <| ir_release := cl_ReleaseID committed |>
                   <| ir_runtime_state := cl_RuntimeState committed |> <| ir_repaired_at := now |>
                   <| ir_source := sourceOperation |> <| ir_updated := now |> in
        if updateDesired then r <| ir_desired := cl_RuntimeState committed |> else r) in
  project_bindings installationID (cl_Bindings committed) now.

Definition repairCommittedProjection (installationID sourceOperation : string) (value : option json) (updateDesired : bool)
    : cprog E (res unit) :=
  match decodeCommittedLifecycleResult value with
  | Err e => cret (Err e)
  | Ok committed =>
      via* now := from_env ch_now in
      via* begun := from_env ch_begin in
      match begun with
      | Err e => cret (Err e)
      | Ok _ => commit (repair_projection installationID sourceOperation committed updateDesired now)
      end
  end.

Definition reconcile_projection (sourceOperation : string) (result : reconciliationResult) (now : string) : tx control_db unit :=
  let installationID := rc_InstallationID result in
  let* current := (fun d => match cd_installations d !! installationID with
                            | Some row => Ok (row, d)
                            | None => Err (ErrMsg "reconciliation projection installation mismatch")
                            end) in
  do* set_installation installationID (fun r =>
        r <| ir_runtime_state := rc_RuntimeState result |> <| ir_recon_state := rc_State result |>
          <| ir_recon_codes := rc_MismatchCodes result |> <| ir_reconciled_at := rc_ObservedAt result |> <| ir_updated := now |>) in
  match rc_Projection result with
  | None => tret tt
  | Some projection =>
      do* tassert (ir_generation current <= cl_Generation projection) "control projection is newer than helper generation" in
      do* set_installation installationID (fun r =>
            r <| ir_generation := cl_Generation projection |> <| ir_release := cl_ReleaseID projection |>
              <| ir_repaired_at := rc_ObservedAt result |> <| ir_source := sourceOperation |>) in
      project_bindings installationID (cl_Bindings projection) (rc_ObservedAt result)
  end.

Definition projectReconciliation (sourceOperation : string) (value : option json) : cprog E (res reconciliationResult) :=
  match decodeReconciliationResult value with
  | Err e => cret (Err e)
  | Ok result =>
      via* begun := from_env ch_begin in
      via* now := from_env ch_now in
      match begun with
      | Err e => cret (Err e)
      | Ok _ =>
          via* done := commit (reconcile_projection sourceOperation result now) in
          cret (match done with Err e => Err e | Ok _ => Ok result end)
      end
  end.

(** ** Service bindings *)

(** [strconv.Atoi], whose error is ignored. *)
Definition atoi (s : string) : Z :=
  let '(negative, digits) := match text s with
                             | 45%N :: l => (true, l)
                             | 43%N :: l => (false, l)
                             | l => (false, l)
                             end in
  if bool_decide (digits <> []) && forallb is_digit digits then
    let v := foldl (fun v c => v * 10 + (Z.of_N c - 48)) 0 digits in
    if negative then Z.max (- v) (- 2 ^ 63) else Z.min v (2 ^ 63 - 1)
  else 0.

Definition query_get (q : query) (name : string) : string := default "" (q !! name).

(** The ports of [allocateDefaultServicePort] that are taken. *)
Definition used_ports (installation : string) (binding : ServiceBinding) (pending : list ServiceBinding) (d : control_db) : gset Z :=
  let taken kr :=
    let r := kr.2 in
    let candidate := {| ServiceID := ServiceID binding; Transport := Transport binding; ContainerPort := ContainerPort binding;
                        Mode := Mode binding; HostAddress := HostAddress binding; HostPort := er_HostPort r |} in
    let other := {| ServiceID := ""; Transport := er_Transport r; ContainerPort := 0; Mode := er_Mode r;
                    HostAddress := er_HostAddress r; HostPort := er_HostPort r |} in
    bool_decide (0 < er_HostPort r) && negb (bool_decide (er_InstallationID r = installation)) && BindingsConflict candidate other in
  list_to_set (map (fun kr => er_HostPort kr.2) (List.filter taken (map_to_list (cd_exposures d)))) ∪
  list_to_set (map HostPort (List.filter (fun current =>
    bool_decide (Transport current = Transport binding) && bool_decide (HostAddress current = HostAddress binding)
    && bool_decide (0 < HostPort current)) pending)).

Definition allocateDefaultServicePort (installation : string) (binding : ServiceBinding) (pending : list ServiceBinding)
    : cprog E (res Z) :=
  via* used := read_db (used_ports installation binding pending) in
  from_env (AllocateAvailableTransport ch_listen used (HostAddress binding) (Transport binding)).

Definition stored_bindings (d : control_db) : list (string * ServiceBinding) :=
  map (fun kr => (er_InstallationID kr.2,
    {| ServiceID := er_ServiceID kr.2; Transport := er_Transport kr.2; ContainerPort := 0; Mode := er_Mode kr.2;
       HostAddress := er_HostAddress kr.2; HostPort := er_HostPort kr.2 |}))
    (sort_by (fun kr => kr.1.1) (sort_by (fun kr => kr.1.2) (select (fun _ r => er_Mode r <> Internal) (cd_exposures d)))).

Definition binding_text (b : ServiceBinding) : string := HostAddress b +:+ ":" +:+ itoa (HostPort b) +:+ "/" +:+ Transport b.

Definition same_host_endpoint (a b : ServiceBinding) : bool :=
  bool_decide (Transport a = Transport b) && bool_decide (HostAddress a = HostAddress b) && bool_decide (HostPort a = HostPort b).

Definition preflight_reserved (requested reserved : list ServiceBinding) : res unit :=
  match find (fun want => existsb (BindingsConflict want) reserved) requested with
  | Some want => Err (ErrMsg ("binding is reserved by another KITPro installation: " +:+ binding_text want))
  | None => Ok tt
  end.

Definition foreign_listener (own listeners : list ServiceBinding) (want : ServiceBinding) : option ServiceBinding :=
  find (fun listener => BindingsConflict want listener && negb (existsb (fun current => same_host_endpoint current want) own)) listeners.

Fixpoint preflight_listeners (own listeners requested : list ServiceBinding) : res unit :=
  match requested with
  | [] => Ok tt
  | want :: requested =>
      match foreign_listener own listeners want with
      | Some listener => Err (ErrMsg ("host listener " +:+ binding_text listener +:+ " conflicts with requested " +:+ binding_text want))
      | None => preflight_listeners own listeners requested
      end
  end.

Definition preflightBindings (installation : string) (requested : list ServiceBinding) : cprog E (res unit) := fun w =>
  (ensure ValidateConflicts requested in
   if negb (existsb (fun b => negb (bool_decide (Mode b = Internal))) requested) then Ok tt
   else
     let stored := stored_bindings (cw_db w) in
     let reserved := map snd (List.filter (fun ob => negb (bool_decide (ob.1 = installation))) stored) in
     let own := map snd (List.filter (fun ob => bool_decide (ob.1 = installation)) stored) in
     ensure preflight_reserved requested reserved in
     match HostListeners (ch_open (cw_env w)) with
     | Err e => Err (ErrWrap "host listener preflight unavailable" e)
     | Ok listeners => preflight_listeners own listeners requested
     end, w).

(** The address and the port of a default exposure. *)
Definition default_binding (installation : string) (service : ManifestService) (binding : ServiceBinding)
    (bindings : list ServiceBinding) : cprog E (res ServiceBinding) :=
  let mode := ms_DefaultExposure service in
  let with_mode address port := {| ServiceID := ServiceID binding; Transport := Transport binding; ContainerPort := ContainerPort binding;
                                   Mode := mode; HostAddress := address; HostPort := port |} in
  via* address := (if decide (mode = Loopback) then cret (Ok "127.0.0.1")
                   else if decide (mode = LAN) then
                     if decide (configuredLAN = "") then cret (Err (ErrMsg "LAN bind address not configured"))
                     else via* local := from_env (VerifyLocalAddress ch_listen configuredLAN) in
                          cret (match local with Ok _ => Ok configuredLAN | Err _ => Err (ErrMsg "LAN bind address is not assigned") end)
                   else cret (Ok (HostAddress binding))) in
  match address with
  | Err e => cret (Err e)
  | Ok address =>
      if decide (mode <> Internal /\ ms_FixedHostPort service = 0) then
        via* port := allocateDefaultServicePort installation (with_mode address (HostPort binding)) bindings in
        cret (rbind port (fun port => Ok (with_mode address port)))
      else cret (Ok (with_mode address (HostPort binding)))
  end.

Definition configured_binding (q : query) (service : ManifestService) (binding : ServiceBinding) : ServiceBinding :=
  let mode := query_get q "exposure_mode" in
  {| ServiceID := ServiceID binding; Transport := Transport binding; ContainerPort := ContainerPort binding; Mode := mode;
     HostAddress := if decide (mode = Internal) then "" else query_get q "host_address";
     HostPort := if decide (ms_FixedHostPort service <> 0) then ms_FixedHostPort service else atoi (query_get q "host_port") |}.

Definition service_binding (installation operation : string) (q : query) (bindings : list ServiceBinding) (service : ManifestService)
    : cprog E (res ServiceBinding) :=
  match TransportFor (ms_Protocol service) with
  | Err e => cret (Err e)
  | Ok transport =>
      let binding := {| ServiceID := ms_ID service; Transport := transport; ContainerPort := ms_ContainerPort service; Mode := Internal;
                        HostAddress := ""; HostPort := ms_FixedHostPort service |} in
      via* record := read_db (fun d => cd_exposures d !! (installation, ms_ID service)) in
      via* chosen := (match record with
                      | Some r =>
                          if decide (er_Transport r <> transport)
                          then cret (Err (ErrMsg "stored service transport does not match trusted manifest"))
                          else cret (Ok {| ServiceID := ms_ID service; Transport := transport; ContainerPort := ms_ContainerPort service;
                                           Mode := er_Mode r; HostAddress := er_HostAddress r; HostPort := er_HostPort r |})
                      | None =>
                          if decide (operation ∈ ["InstallApplication"; "RecreateApplication"] /\ ms_DefaultExposure service <> "")
                          then default_binding installation service binding bindings else cret (Ok binding)
                      end) in
      cret (rbind chosen (fun binding =>
        let binding := if decide (operation = "ConfigureServiceExposure" /\ query_get q "service_id" = ms_ID service)
                       then configured_binding q service binding else binding in
        ensure ValidateBinding binding configuredLAN (ms_FixedHostPort service) in Ok binding))
  end.

Fixpoint service_bindings (installation operation : string) (q : query) (services : list ManifestService) (bindings : list ServiceBinding)
    : cprog E (res (list ServiceBinding)) :=
  match services with
  | [] => cret (Ok bindings)
  | service :: services =>
      via* b := service_binding installation operation q bindings service in
      match b with
      | Err e => cret (Err e)
      | Ok binding => service_bindings installation operation q services (bindings ++ [binding])
      end
  end.

Definition wire_binding (b : ServiceBinding) : WireBinding :=
  {| sb_ServiceID := ServiceID b; sb_Transport := Transport b; sb_ContainerPort := ContainerPort b; sb_Mode := Mode b;
     sb_HostAddress := HostAddress b; sb_HostPort := HostPort b |}.

Definition buildServiceBindings (installation : string) (services : list ManifestService) (operation : string) (q : query)
    : cprog E (res (list WireBinding)) :=
  via* built := service_bindings installation operation q services [] in
  match built with
  | Err e => cret (Err e)
  | Ok bindings =>
      if decide (operation = "ConfigureServiceExposure" /\ query_get q "service_id" = "")
      then cret (Err (ErrMsg "service binding target is required"))
      else via* checked := preflightBindings installation bindings in
           cret (ensure checked in Ok (map wire_binding (Normalize bindings)))
  end.

Definition exposureBindings (bindings : list WireBinding) : list ServiceBinding := Normalize (map exposure_binding bindings).

(** ** Failures *)
Definition operationErrorCategory (err : error) : string :=
  let message := ToLower (error_text err) in
  if Contains message "storage unavailable" || Contains message "storage identity changed" then "storage_unavailable"
  else if Contains message "docker address-pool prerequisite failed" then "host_prerequisite_failed"
  else if Contains message "address already in use" || Contains message "port is already allocated" || Contains message "port collision"
          || HasPrefix message "binding conflict:" || HasPrefix message "binding is reserved by another kitpro installation:"
          || HasPrefix message "host listener " then "port_collision"
  else if Contains message "validation" || Contains message "mismatch" || Contains message "rejected" then "policy_rejected"
  else "helper_failed".

Definition safeBindingConflictSummary (err : error) : string :=
  let message := error_text err in
  if existsb (HasPrefix (ToLower message))
       ["binding conflict:"; "binding is reserved by another kitpro installation:"; "host listener "] then message else "".

Definition safeOperationSummary (category : string) : string :=
  if decide (category = "storage_unavailable") then "storage unavailable"
  else if decide (category = "port_collision") then "host port unavailable"
  else if decide (category = "policy_rejected") then "operation rejected by helper policy"
  else if decide (category = "host_prerequisite_failed") then
    "Docker address-pool prerequisite is not satisfied; configure a non-overlapping default address pool, restart Docker, and retry"
  else "privileged operation failed".

(** ** Requests built from the catalogue *)
Definition wire_environment (e : Env) : EnvVar :=
  {| ev_Name := mev_Name e; ev_Value := mev_Value e; ev_Secret := mev_Secret e; ev_Generate := mev_Generate e |}.
Definition wire_mount (root : string) (s : Storage) : WireMount :=
  {| sm_ID := mst_ID s; sm_ContainerPath := mst_ContainerPath s; sm_HostPath := root +:+ "/" +:+ mst_ID s;
     sm_ReadOnly := mst_ReadOnly s; sm_OwnerUID := mst_OwnerUID s; sm_OwnerGID := mst_OwnerGID s |}.
Definition wire_service (s : ManifestService) : Service :=
  {| sv_ID := ms_ID s; sv_Protocol := ms_Protocol s; sv_ContainerPort := ms_ContainerPort s |}.
Definition wire_requirement (a : Accelerator) : HardwareRequirement :=
  {| hw_Class := mac_Class a; hw_Optional := mac_Optional a; hw_CPUFallback := mac_CPUFallback a |}.
Definition wire_identity (i : option ManifestIdentity) : option RuntimeIdentity :=
  match i with Some i => Some {| ri_UID := mri_UID i; ri_GID := mri_GID i |} | None => None end.

(** The root chosen for a slot: that of the form, or the one recorded. *)
Definition chosen_root (form : query) (installation component slot : string) (d : control_db) : string :=
  let field := if decide (component = "") then "storage_" +:+ slot else "storage_" +:+ component +:+ "_" +:+ slot in
  let root := TrimSpace (query_get form field) in
  if decide (root = "") then default "" (cd_selections d !! (installation, component, slot)) else root.

Definition wire_slots (form : query) (installation component : string) (slots : list ExternalStorage) (d : control_db)
    : list ExternalStorageBinding :=
  map (fun slot => {| es_SlotID := mxs_ID slot; es_RootID := chosen_root form installation component (mxs_ID slot) d |}) slots.

Definition wire_component (form : query) (application installation : string) (d : control_db) (c : ResolvedComponent) : WireComponent :=
  {| co_ID := mrs_ID c; co_Image := mrs_ImageDigest c; co_Command := mrs_Command c;
     co_Environment := map wire_environment (mrs_Environment c);
     co_Storage := map (wire_mount ("/srv/kitpro/apps/" +:+ application +:+ "/" +:+ installation +:+ "/" +:+ mrs_ID c)) (mrs_Storage c);
     co_Services := map wire_service (mrs_Services c); co_DependsOn := mrs_DependsOn c; co_Restart := mrs_Restart c;
     co_Hardware := map wire_requirement (mrs_Hardware c);
     co_ExternalStorage := wire_slots form installation (mrs_ID c) (mrs_ExternalStorage c) d;
     co_RunAs := wire_identity (mrs_RunAs c) |}.

Definition plan_request (requestID id operation repairAction : string) (generation : Z) (plan : ManifestPlan) (form : query)
    (bindings : list WireBinding) (d : control_db) : Request :=
  let installation := mpl_InstanceID plan in
  operation_request requestID id operation 1 installation
    <| rq_RuntimeGeneration := generation |> <| rq_Image := mpl_ImageDigest plan |> <| rq_ApplicationID := mpl_ApplicationID plan |>
    <| rq_ReleaseID := mpl_ReleaseID plan |> <| rq_NetworkName := mpl_NetworkName plan |> <| rq_DataPath := mpl_DataPath plan |>
    <| rq_RestartPolicy := mpl_Restart plan |>
    <| rq_Configuration := match mpl_Configuration plan with
                           | Some c => Some {| cp_Type := mcp_Type c; cp_StorageID := mcp_StorageID c |}
                           | None => None
                           end |>
    <| rq_RepairAction := repairAction |> <| rq_Hardware := map wire_requirement (mpl_Hardware plan) |>
    <| rq_Command := mpl_Command plan |> <| rq_Environment := map wire_environment (mpl_Environment plan) |>
    <| rq_Storage := map (wire_mount ("/srv/kitpro/apps/" +:+ mpl_ApplicationID plan +:+ "/" +:+ installation)) (mpl_Storage plan) |>
    <| rq_RunAs := wire_identity (mpl_RunAs plan) |>
    <| rq_ExternalStorage := wire_slots form installation "" (mpl_ExternalStorage plan) d |>
    <| rq_Services := map wire_service (mpl_Services plan) |> <| rq_Bindings := bindings |>
    <| rq_Components := map (fun c => wire_component form (mpl_ApplicationID plan) installation d c) (mpl_ResolvedComponents plan) |>.

Definition select_root (installation component : string) (selections : gmap (string * string * string) string)
    (b : ExternalStorageBinding) : gmap (string * string * string) string :=
  if decide (es_RootID b = "") then selections else <[(installation, component, es_SlotID b) := es_RootID b]> selections.

Definition persistStorageSelections (installation : string) (request : Request) (d : control_db) : control_db :=
  let selections := foldl (select_root installation "") (cd_selections d) (rq_ExternalStorage request) in
  d <| cd_selections := foldl (fun selections c => foldl (select_root installation (co_ID c)) selections (co_ExternalStorage c))
                          selections (rq_Components request) |>.

(** ** Dispatching an operation ([ops] with method POST) *)
Record apiAnswer : Type := { aa_code : Z; aa_id : string; aa_status : string }.
Definition refusal (code : Z) : apiAnswer := {| aa_code := code; aa_id := ""; aa_status := "" |}.

Record dispatchInput : Type := { di_install_path : bool; di_trusted : bool; di_query : query; di_form : query }.

Record target : Type := { ta_installation : string; ta_application : string; ta_release : string; ta_generation : Z }.

Definition chosen_target (q : query) (fresh : string) (d : control_db) : option target :=
  let existing := query_get q "installation_id" in
  if decide (existing = "") then
    let appID := if decide (query_get q "app_id" = "") then "busybox" else query_get q "app_id" in
    Some {| ta_installation := fresh; ta_application := appID; ta_release := ""; ta_generation := 1 |}
  else match cd_installations d !! existing with
       | None => None
       | Some row => Some {| ta_installation := existing; ta_application := ir_application row; ta_release := ir_release row;
                             ta_generation := ir_generation row + 1 |}
       end.

(** A loaded manifest has a release. *)
Definition chosen_release (q : query) (m : Manifest) (t : target) : string :=
  let default_release := match ma_Components m with
                         | [] => default zero_release (last (ma_Releases m))
                         | _ => default zero_release (head (ma_Releases m))
                         end in
  let release := if decide (ta_release t = "") then mrl_Version default_release else ta_release t in
  if decide (query_get q "target_release" = "") then release else query_get q "target_release".

Definition resolved_plan (q : query) (m : Manifest) (t : target) : res ManifestPlan :=
  Resolve P Quote m (chosen_release q m t) (ta_installation t)
    ("kitpro-net-" +:+ ta_installation t +:+ "-g" +:+ itoa (ta_generation t))
    ("/srv/kitpro/apps/" +:+ ma_ID m +:+ "/" +:+ ta_installation t +:+ "/data").

Definition operation_type (q : query) : string :=
  if decide (query_get q "operation_type" = "") then "InstallApplication" else query_get q "operation_type".

Definition helper_operation (opType : string) : string :=
  if decide (opType = "ConfigureServiceExposure" \/ opType = "UpdateApplication") then opType else "InstallApplication".

Definition new_installation (plan : ManifestPlan) (now : string) : installationRow :=
  {| ir_application := mpl_ApplicationID plan; ir_release := mpl_ReleaseID plan; ir_desired := "runtime_removed"; ir_generation := 0;
     ir_runtime_state := "unknown"; ir_recon_state := "runtime_unknown"; ir_recon_codes := []; ir_reconciled_at := "";
     ir_repaired_at := ""; ir_source := ""; ir_created := now; ir_updated := now |}.

Definition insert_installation (id : string) (row : installationRow) : tx control_db unit := fun d =>
  match cd_installations d !! id with
  | Some _ => Err (ErrSQL "UNIQUE constraint failed: installations.installation_id")
  | None => Ok (tt, d <| cd_installations := <[id := row]> (cd_installations d) |>)
  end.

Definition project_committed (id opType installation : string) (request : Request) (committed : committedLifecycleResult) (now : string)
    : tx control_db unit :=
  do* set_installation installation (fun r =>
        let r := r <| ir_desired := cl_RuntimeState committed |> <| ir_runtime_state := cl_RuntimeState committed |>
                   <| ir_generation := cl_Generation committed |> <| ir_updated := now |> <| ir_source := id |> in
        if decide (opType = "UpdateApplication" \/ rq_Components request = [])
        then r <| ir_release := cl_ReleaseID committed |> else r) in
  project_bindings installation (cl_Bindings committed) now.

Definition pending_summary : string := "privileged operation completed; control projection repair pending".

(** What the helper committed, or the request where it did not say. *)
Definition committed_result (request : Request) (release : string) (response : Response) : res committedLifecycleResult :=
  if decide (rs_State response <> "") then decodeCommittedLifecycleResult (rs_Result response)
  else Ok {| cl_Generation := rq_RuntimeGeneration request; cl_ReleaseID := release; cl_RuntimeState := "running";
             cl_Bindings := exposureBindings (rq_Bindings request) |}.

(** The end of an operation the helper completed: the status and the summary. *)
Definition project_outcome (id opType : string) (request : Request) (release : string) (response : Response) (now : string)
    : cprog E (res (string * string)) :=
  match committed_result request release response with
  | Err e => cret (Err e)
  | Ok committed =>
      via* begun := from_env ch_begin in
      match begun with
      | Err _ => cret (Ok ("helper_succeeded_projection_pending", pending_summary))
      | Ok _ =>
          via* projected := commit (project_committed id opType (rq_InstanceID request) request committed now) in
          cret (Ok (match projected with
                    | Ok _ => ("succeeded", "helper accepted")
                    | Err _ => ("helper_succeeded_projection_pending", pending_summary)
                    end))
      end
  end.

Definition failed_summary (e : error) : string :=
  if decide (safeBindingConflictSummary e = "") then safeOperationSummary (operationErrorCategory e) else safeBindingConflictSummary e.

Definition reset_installation (installation now : string) (d : control_db) : control_db :=
  d <| cd_installations := alter (fun r => r <| ir_desired := "runtime_removed" |> <| ir_generation := 0 |> <| ir_updated := now |>)
                             installation (cd_installations d) |>.

Definition finish_operation (id status summary : string) (code : Z) : cprog E apiAnswer :=
  via* _ := change_db (update_operation id status summary) in
  cret {| aa_code := code; aa_id := id; aa_status := status |}.

(** From the answer of the helper to that of the API. *)
Definition settle (existing : bool) (id opType : string) (request : Request) (release now : string) (outcome : res Response)
    : cprog E apiAnswer :=
  match outcome with
  | Err e => finish_operation id "failed" (safeOperationSummary (operationErrorCategory e)) 202
  | Ok response =>
      if negb (rs_OK response) then
        via* _ := change_db (if existing then (fun d => d) else reset_installation (rq_InstanceID request) now) in
        finish_operation id "failed" (safeOperationSummary (operationErrorCategory (ErrMsg ("helper: " +:+ rs_Error response)))) 202
      else if helperStatePending (rs_State response)
      then finish_operation id "accepted" "privileged operation continues in helper" 202
      else
        via* _ := change_db (persistStorageSelections (rq_InstanceID request) request) in
        via* projected := project_outcome id opType request release response now in
        match projected with
        | Err _ => finish_operation id "failed" "helper result could not be projected" 502
        | Ok (status, summary) => finish_operation id status summary 202
        end
  end.

(** From the recorded operation on. *)
Definition run_operation (existing : bool) (id opType : string) (input : dispatchInput) (generation : Z) (plan : ManifestPlan)
    (now : string) : cprog E apiAnswer :=
  via* requestID := NewRequestID in
  via* bindings := buildServiceBindings (mpl_InstanceID plan) (mpl_Services plan) opType (di_query input) in
  let wire := match bindings with Ok bindings => bindings | Err _ => [] end in
  via* request := read_db (plan_request requestID id (helper_operation opType) (query_get (di_query input) "repair_action") generation
                             plan (di_form input) wire) in
  via* _ := change_db (if existing then (fun d => d) else persistStorageSelections (mpl_InstanceID plan) request) in
  match bindings with
  | Err e => finish_operation id "failed" (failed_summary e) 202
  | Ok _ =>
      via* outcome := callHelperOperation request in
      settle existing id opType request (mpl_ReleaseID plan) now outcome
  end.

Definition dispatch (input : dispatchInput) : cprog E apiAnswer :=
  let q := di_query input in
  if di_install_path input then cret (refusal 400)
  else if negb (di_trusted input) then cret (refusal 400)
  else
    via* id := NewID in
    via* fresh := NewInstallation in
    via* chosen := read_db (chosen_target q fresh) in
    match chosen with
    | None => cret (refusal 404)
    | Some t =>
        match catalog !! ta_application t with
        | None => cret (refusal 500)
        | Some m =>
            match resolved_plan q m t with
            | Err _ => cret (refusal 500)
            | Ok plan =>
                let opType := operation_type q in
                let existing := negb (bool_decide (query_get q "installation_id" = "")) in
                if decide (opType ∉ ["InstallApplication"; "ConfigureServiceExposure"; "UpdateApplication"; "RecreateApplication"])
                then cret (refusal 400)
                else if decide (opType = "UpdateApplication" /\ existing = false) then cret (refusal 400)
                else
                  via* requested := from_env ch_now in
                  via* inserted := commit (insert_operation id opType (ta_installation t) requested) in
                  match inserted with
                  | Err _ => cret (refusal 500)
                  | Ok _ =>
                      via* now := from_env ch_now in
                      via* created := (if existing then cret (Ok tt)
                                       else commit (insert_installation (ta_installation t) (new_installation plan now))) in
                      match created with
                      | Err e => via* _ := change_db (update_operation id "failed" (error_text e)) in cret (refusal 500)
                      | Ok _ => run_operation existing id opType input (ta_generation t) plan now
                      end
                  end
            end
        end
    end.

(** ** Reading an operation ([ops] with method GET) *)
Definition open_status (status : string) : bool := bool_decide (status ∈ ["accepted"; "helper_succeeded_projection_pending"]).

Definition reconciles (opType : string) : bool := bool_decide (opType ∈ ["ReconcileInstallation"; "RepairInstallation"]).

(** The status and the summary after the helper said that it succeeded. *)
Definition poll_succeeded (id : string) (row : operationRow) (result : option json) : cprog E (string * string) :=
  via* committed := (if isCommittedLifecycleOperation (or_Type row)
                     then repairCommittedProjection (or_InstanceID row) id result true else cret (Ok tt)) in
  via* reconciled := (if reconciles (or_Type row)
                      then via* r := projectReconciliation id result in cret (rbind r (fun _ => Ok tt)) else cret (Ok tt)) in
  cret (match reconciled, committed with
        | Err _, _ => ("accepted", "privileged operation completed; reconciliation projection pending")
        | Ok _, Err _ => ("helper_succeeded_projection_pending", pending_summary)
        | Ok _, Ok _ => ("succeeded", "privileged operation completed")
        end).

Definition poll (id : string) : cprog E (option operationRow) :=
  via* found := read_db (get_operation id) in
  match found with
  | None => cret None
  | Some row =>
      if negb (open_status (or_Status row)) then cret (Some row)
      else
        via* requestID := NewRequestID in
        via* reply := callHelper (operation_request requestID id "GetOperation" 0 "") in
        match reply with
        | inr _ => cret (Some row)
        | inl response =>
            if decide (rs_ErrorCode response = "OperationNotFound") then cret (Some row)
            else
              via* outcome := (if decide (rs_State response = "succeeded") then poll_succeeded id row (rs_Result response)
                               else if decide (rs_State response ∈ ["failed"; "action_required"; "cancelled"; "superseded"])
                               then cret ("failed", "privileged operation requires review")
                               else cret (or_Status row, "privileged operation continues in helper")) in
              via* _ := change_db (update_operation id outcome.1 outcome.2) in
              cret (Some (row <| or_Status := outcome.1 |> <| or_Summary := outcome.2 |>))
        end
  end.

(** ** Actions on an installation ([runInstallationLifecycle]) *)
Definition lifecycle_operation (action : string) : string * string :=
  if decide (action = "start") then ("StartApplication", "running")
  else if decide (action = "stop") then ("StopApplication", "stopped")
  else if decide (action = "restart") then ("RestartApplication", "running")
  else if decide (action = "remove") then ("RemoveApplication", "runtime_removed")
  else ("", "").

Definition requiresLifecycleAcknowledgement (appID : string) : bool :=
  match catalog !! appID with
  | Some m => bool_decide (ma_Kind m = "network-service")
              && match ma_LifecycleNotice m with Some n => mln_RequireAcknowledgement n | None => false end
  | None => false
  end.

Definition lifecycle_outcome (id installationID desired : string) (response : Response) : cprog E (string * string) :=
  if helperStatePending (rs_State response) then cret ("accepted", "privileged operation continues in helper")
  else if decide (rs_State response <> "") then
    via* projected := repairCommittedProjection installationID id (rs_Result response) true in
    cret (match projected with
          | Ok _ => ("succeeded", "helper accepted")
          | Err _ => ("helper_succeeded_projection_pending", pending_summary)
          end)
  else
    via* now := from_env ch_now in
    via* _ := change_db (fun d => d <| cd_installations :=
                alter (fun r => r <| ir_desired := desired |> <| ir_runtime_state := desired |> <| ir_updated := now |>) installationID
                  (cd_installations d) |>) in
    cret ("succeeded", "helper accepted").

(** [acknowledged] is what [lifecycleAcknowledgement] reads of the request. *)
Definition runInstallationLifecycle (installationID action : string) (acknowledged : res bool) : cprog E apiAnswer :=
  via* found := read_db (fun d => cd_installations d !! installationID) in
  match found, acknowledged with
  | None, _ => cret (refusal 404)
  | Some _, Err _ => cret (refusal 400)
  | Some row, Ok acknowledged =>
      if requiresLifecycleAcknowledgement (ir_application row) && negb (bool_decide (action = "start")) && negb acknowledged
      then cret (refusal 428)
      else
        let '(operationType, desired) := lifecycle_operation action in
        via* id := NewID in
        via* requested := from_env ch_now in
        via* inserted := commit (insert_operation id operationType installationID requested) in
        match inserted with
        | Err _ => cret (refusal 500)
        | Ok _ =>
            via* requestID := NewRequestID in
            via* outcome := callHelperOperation (operation_request requestID id operationType 1 installationID
                                                   <| rq_RuntimeGeneration := ir_generation row |>) in
            match outcome with
            | Err e => finish_operation id "failed" (safeOperationSummary (operationErrorCategory e)) 503
            | Ok response =>
                if negb (rs_OK response)
                then finish_operation id "failed" (safeOperationSummary (operationErrorCategory (ErrMsg "helper rejected operation"))) 503
                else via* settled := lifecycle_outcome id installationID desired response in
                     finish_operation id settled.1 settled.2 202
            end
        end
  end.

(** ** Reconciliation and repair

    The part [installationReconciliation] and [installationRepair] share: from
    the recorded operation on. *)
Definition reconciling_operation (operationType installationID repairAction completed continues failed : string) : cprog E apiAnswer :=
  via* id := NewID in
  via* requested := from_env ch_now in
  via* inserted := commit (insert_operation id operationType installationID requested) in
  match inserted with
  | Err _ => cret (refusal 500)
  | Ok _ =>
      via* requestID := NewRequestID in
      via* outcome := callHelperOperation (operation_request requestID id operationType 1 installationID <| rq_RepairAction := repairAction |>) in
      match outcome with
      | Err _ => finish_operation id "failed" failed 503
      | Ok response =>
          if negb (rs_OK response) then finish_operation id "failed" failed 503
          else if helperStatePending (rs_State response) then finish_operation id "accepted" continues 200
          else via* projected := projectReconciliation id (rs_Result response) in
               match projected with
               | Ok _ => finish_operation id "succeeded" completed 200
               | Err _ => finish_operation id "failed" failed 503
               end
      end
  end.

(** [installationReconciliation] with method POST *)
Definition reconcileInstallation (installationID : string) : cprog E apiAnswer :=
  via* found := read_db (fun d => cd_installations d !! installationID) in
  match found with
  | None => cret (refusal 404)
  | Some _ => reconciling_operation "ReconcileInstallation" installationID "" "installation reconciled" "reconciliation continues in helper"
                "installation reconciliation failed"
  end.

(** [installationRepair] with an action other than [recreate_generation] *)
Definition repairInstallation (installationID action : string) : cprog E apiAnswer :=
  if decide (action ∉ ["start_active"; "cleanup_resources"; "acknowledge_retained_missing"]) then cret (refusal 400)
  else reconciling_operation "RepairInstallation" installationID action "installation repair completed"
         "installation repair continues in helper" "installation repair failed".

(** ** Sequences of requests *)
Inductive apiStep : Type :=
  | ApiDispatch (input : dispatchInput)
  | ApiPoll (id : string)
  | ApiLifecycle (installationID action : string) (acknowledged : res bool)
  | ApiReconcile (installationID : string)
  | ApiRepair (installationID action : string)
  | ApiStarted.

Definition api_step (w : cworld E) (s : apiStep) : cworld E :=
  match s with
  | ApiDispatch input => (dispatch input w).2
  | ApiPoll id => (poll id w).2
  | ApiLifecycle installationID action acknowledged => (runInstallationLifecycle installationID action acknowledged w).2
  | ApiReconcile installationID => (reconcileInstallation installationID w).2
  | ApiRepair installationID action => (repairInstallation installationID action w).2
  | ApiStarted => (change_db (fun d => (RecoverAccepted d).2) w).2
  end.

Definition api_run (w : cworld E) (steps : list apiStep) : cworld E := foldl api_step w steps.
End control.

Definition empty_control : control_db := {| cd_operations := ∅; cd_installations := ∅; cd_exposures := ∅; cd_selections := ∅ |}.
Definition api_start {E} (e : E) : cworld E := {| cw_db := empty_control; cw_env := e; cw_log := [] |}.
