(* ===== verification/ControlPlaneProps.v ===== *)
(** * The control plane: its requests are accepted, its records are those of the
    helper *)

From S2P Require Import Prelude Protocol Exposure HelperDB Coordinator NetIP ExposurePolicy ExposureProps Containers Topology LifecycleStore MultiStore ReconciliationStore Ingress IngressProofs IngressRender Manifest ManifestProofs ManifestSamples ManifestProps ExternalStorage HelperPlan HelperPlanProofs HelperCreate HelperPlanProps ControlPlane.
From stdpp Require Import base strings list gmap sorting.
From Stdlib Require Import ZArith Lia Ascii.

Import Wire.
Open Scope Z_scope.

(** ** Paths without a dot *)
Definition dotless (s : string) : Prop := 46%N ∉ text s.

Lemma dotless_app s t : dotless (s +:+ t) <-> dotless s /\ dotless t.
Proof. unfold dotless. rewrite text_app, elem_of_app. tauto. Qed.

Lemma dotless_id s : idPattern s = true -> dotless s.
Proof.
  unfold idPattern, pattern, dotless. destruct (text s) as [|c l]; [set_solver|].
  rewrite !andb_true_iff. intros [[Hc _] Hl] [<-|Hin]%elem_of_cons; [done|].
  rewrite forallb_forall in Hl. by apply list_elem_of_In, Hl in Hin.
Qed.

Lemma dotless_Contains s : dotless s -> Contains s ".." = false.
Proof.
  unfold dotless. induction s as [|c s IH]; [done|]. rewrite text_cons, not_elem_of_cons. intros [Hc Hs].
  change (String.prefix ".." (String c s) || Contains s ".." = false). rewrite IH by done. rewrite orb_false_r.
  unfold String.prefix. destruct (ascii_dec "." c) as [<-|]; [by destruct Hc|done].
Qed.

Lemma split_at_chars sep (l cur : list N) part c : part ∈ split_at sep l cur -> c ∈ part -> c ∈ l \/ c ∈ cur.
Proof.
  revert cur. induction l as [|x l IH]; intros cur; cbn.
  - intros ->%list_elem_of_singleton. auto.
  - case_match; [rewrite elem_of_cons; intros [->|Hp] Hc|intros Hp Hc]; [set_solver| |].
    + destruct (IH _ Hp Hc); set_solver.
    + destruct (IH _ Hp Hc); set_solver.
Qed.

Lemma dotless_socket s : dotless s -> containsRuntimeSocket s = false.
Proof.
  intros H. unfold containsRuntimeSocket. apply not_true_is_false. intros (part & Hp & Hs)%existsb_exists.
  apply list_elem_of_In in Hp. apply bool_decide_eq_true in Hs.
  assert (46%N ∈ part) as Hd.
  { unfold runtime_sockets in Hs. cbn [map] in Hs. rewrite !elem_of_cons, elem_of_nil in Hs.
    destruct Hs as [->|[->|[->|[]]]]; apply (bool_decide_unpack _); vm_compute; exact I. }
  destruct (split_at_chars _ _ _ _ _ Hp Hd); [done|set_solver].
Qed.

Lemma mount_sound v root s : dotless root -> HasPrefix (root +:+ "/" +:+ mst_ID s) "/srv/kitpro/apps/" = true -> storage_ok v s ->
  bad_mount (mount_of root s) = false.
Proof.
  intros Hroot Hpre (Hid & Hpath & _). unfold bad_mount. cbn [mount_of sm_ID sm_ContainerPath sm_HostPath].
  assert (dotless (root +:+ "/" +:+ mst_ID s)) as Hd.
  { rewrite !dotless_app. split_and!; [done| |by apply dotless_id]. unfold dotless. cbn. set_solver. }
  rewrite Hpre, (dotless_Contains _ Hd), (dotless_socket _ Hd).
  assert (mst_ID s <> "") as Hne by (intros E; by rewrite E in Hid).
  unfold safeContainerPath in Hpath. destruct (negb (HasPrefix (mst_ContainerPath s) "/") || _ || _ || _ || _ || _ || _) eqn:E; [done|].
  repeat (apply orb_false_iff in E as [E ?]). rewrite negb_false_iff in E.
  assert (mst_ContainerPath s <> "") as Hne' by (intros E'; by rewrite E' in E).
  rewrite !bool_decide_eq_false_2 by done. repeat match goal with H : _ = false |- _ => rewrite H end. done.
Qed.

(** ** Bindings the API builds *)
Lemma pairwise_apart_perm l k : l ≡ₚ k -> pairwise_apart l -> pairwise_apart k.
Proof.
  induction 1 as [|b l k HP IH|a b l|l1 l2 l3 _ IH1 _ IH2]; auto.
  - rewrite !pairwise_apart_cons. intros [Ha Hl]. split; [|auto]. intros x y Hx Hy. apply Ha; [done|]. by rewrite HP.
  - rewrite !pairwise_apart_cons. intros (Hb & Ha & Hl). split_and!; [|intros x y Hx Hy; apply Hb; [done|by right]|done].
    intros x y ->%list_elem_of_singleton [->|Hy]%elem_of_cons.
    + rewrite BindingsConflict_sym. apply Hb; [by apply list_elem_of_singleton|by left].
    + apply Ha; [by apply list_elem_of_singleton|done].
Qed.

Section requests.
Context {E : Type} `{Host : ControlHost E} (P : string -> option URL) (Quote : string -> string) (lan : string).

(** A binding for a service, in policy. *)
Definition binds (s : ManifestService) (b : ServiceBinding) : Prop :=
  ServiceID b = ms_ID s /\ ContainerProtocol (ms_Protocol s) = Ok (Transport b) /\ ContainerPort b = ms_ContainerPort s
  /\ ValidateBinding b lan (ms_FixedHostPort s) = Ok tt.

Lemma service_binding_ok installation operation q bindings s (w : cworld E) b w' :
  service_binding lan installation operation q bindings s w = (Ok b, w') -> binds s b.
Proof.
  unfold service_binding, TransportFor. destruct (ContainerProtocol (ms_Protocol s)) as [t|] eqn:Et; [|done].
  unfold cbind at 1, read_db. cbn [fst]. unfold cbind.
  match goal with |- context [let '(x, w) := ?m w in _] => destruct (m w) as [chosen w1] eqn:Ec end.
  unfold cret. intros [= H _]. apply rbind_Ok in H as (b0 & -> & H). apply ensure_unit_Ok in H as (Hv & [= <-]).
  assert (ServiceID b0 = ms_ID s /\ Transport b0 = t /\ ContainerPort b0 = ms_ContainerPort s) as (Hid & Ht & Hp).
  { clear Hv. destruct (cd_exposures (cw_db w) !! (installation, ms_ID s)).
    - unfold cret in Ec. case_decide; [done|]. by injection Ec as <- _.
    - unfold cret in Ec. case_decide; [|by injection Ec as <- _]. revert Ec. unfold default_binding, cbind, cret.
      match goal with |- context [let '(x, w) := ?m w in _] => destruct (m w) as [[address|] w2] end; [|by intros [= ]].
      case_decide; [|by intros [= <- _]]. destruct (allocateDefaultServicePort _ _ _ w2) as [[port|] w3]; by intros [= <- _]. }
  unfold binds. case_decide; (split_and!; [exact Hid|cbn; congruence|exact Hp|exact Hv]).
Qed.

Lemma service_bindings_ok installation operation q services acc (w : cworld E) l w' :
  service_bindings lan installation operation q services acc w = (Ok l, w') ->
  exists k, l = (acc ++ k)%list /\ Forall2 binds services k.
Proof.
  revert acc w. induction services as [|s services IH]; intros acc w; cbn.
  { intros [= <- _]. exists []. by rewrite app_nil_r. }
  unfold cbind. destruct (service_binding _ _ _ _ _ s w) as [[b|e] w1] eqn:Eb; [|done].
  intros (k & -> & Hk)%IH. exists (b :: k). rewrite <- app_assoc. split; [done|]. constructor; [|done]. by eapply service_binding_ok.
Qed.

Lemma built_bindings_ok installation services operation q (w : cworld E) l w' :
  buildServiceBindings lan installation services operation q w = (Ok l, w') ->
  exists k, map exposure_binding l ≡ₚ k /\ Forall2 binds services k /\ pairwise_apart k.
Proof.
  unfold buildServiceBindings, cbind. destruct (service_bindings _ _ _ _ _ _ w) as [[k|e] w1] eqn:Ek; [|done].
  apply service_bindings_ok in Ek as (k' & -> & Hk). cbn [app] in *. case_decide; [done|].
  destruct (preflightBindings _ _ w1) as [checked w2] eqn:Ep. unfold cret. intros [= Hb _].
  apply ensure_unit_Ok in Hb as (-> & [= <-]). exists k'. split_and!; [|done|].
  - rewrite map_map. cbn. rewrite (map_ext _ id) by (by intros []). rewrite map_id. apply sort_by_perm.
  - unfold preflightBindings in Ep. injection Ep as Ep _. apply ensure_unit_Ok in Ep as (Hc & _).
    unfold ValidateConflicts in Hc. by apply validate_conflicts_spec in Hc as [_ ?].
Qed.

Lemma Resolve_Ok m release instance network dataPath plan :
  Resolve P Quote m release instance network dataPath = Ok plan ->
  idPattern instance = true /\ exists rel, rel ∈ ma_Releases m /\
  plan = {| mpl_ApplicationID := ma_ID m; mpl_ReleaseID := mrl_Version rel; mpl_InstanceID := instance;
            mpl_ImageDigest := image_of rel; mpl_NetworkName := network; mpl_DataPath := dataPath;
            mpl_Restart := ma_Restart m; mpl_Command := ma_Command m; mpl_Environment := ma_Environment m;
            mpl_Storage := ma_Storage m; mpl_Services := ma_Services m; mpl_Components := ma_Components m;
            mpl_ResolvedComponents := map (resolve_component (ma_Releases m)) (ma_Components m);
            mpl_Hardware := ma_Hardware m; mpl_ExternalStorage := ma_ExternalStorage m; mpl_RunAs := ma_RunAs m;
            mpl_Backup := cloneBackupPolicy (ma_Backup m); mpl_Configuration := cloneConfigurationPolicy (ma_Configuration m) |}.
Proof.
  unfold Resolve. intros (_ & H)%ensure_unit_Ok. apply refuse_Ok in H as [Hv H]. apply refuse_Ok in H as [Hp [= <-]].
  split; [by destruct (idPattern instance); tauto|]. exists (last_release (ma_Releases m) release). split; [|done].
  destruct (last_release_from (ma_Releases m) release zero_release) as [[E' _]|[? _]]; [|done].
  unfold last_release in Hv. cbn zeta in E'. by rewrite E' in Hv.
Qed.

(** *** What makes a catalogued application installable *)
Definition required_chosen (form : query) (installation component : string) (slots : list ExternalStorage) (d : control_db) : Prop :=
  Forall (fun s => mxs_Required s = true -> chosen_root form installation component (mxs_ID s) d <> "") slots.

Definition installable (m : Manifest) (plan : ManifestPlan) (form : query) (d : control_db) : Prop :=
  if decide (ma_Components m = []) then
    Forall (fun c => bad_command_argument c = false) (ma_Command m) /\ Forall sound_variable (map env_of (ma_Environment m))
    /\ required_chosen form (mpl_InstanceID plan) "" (ma_ExternalStorage m) d
  else
    (2 <= length (ma_Components m))%nat /\ mpl_ReleaseID plan = mrl_Version (default zero_release (head (ma_Releases m)))
    /\ (exists order, StartOrder (map (fun c => {| n_ID := mco_ID c; n_DependsOn := mco_DependsOn c |}) (ma_Components m)) = Ok order)
    /\ Forall (fun c => Forall (fun arg => shell_argument arg = false) (mco_Command c)
                        /\ Forall sound_variable (map env_of (mco_Environment c))
                        /\ required_chosen form (mpl_InstanceID plan) (mco_ID c) (mco_ExternalStorage c) d) (ma_Components m).

Lemma wire_slots_chosen form installation component slots d :
  slots_chosen (wire_slots form installation component slots d) slots <-> required_chosen form installation component slots d.
Proof.
  unfold slots_chosen, required_chosen, wire_slots. induction slots as [|s slots IH]; cbn; [done|].
  rewrite Forall2_cons, Forall_cons, IH. cbn. naive_solver.
Qed.

Lemma binds_trusted m l k r :
  rq_Version r = 2 -> rq_Bindings r = l -> ~ legacy_scalar r -> (length (ma_Services m) <= 8)%nat ->
  map exposure_binding l ≡ₚ k -> Forall2 binds (ma_Services m) k -> pairwise_apart k -> bindings_trusted lan r m.
Proof.
  intros Hver Hl Hleg Hlen HP HF Hap. unfold bindings_trusted, bindings_input.
  rewrite decide_False by lia. rewrite Hl. split_and!; [tauto|done|..].
  - assert (sb_ServiceID <$> l = ServiceID <$> map exposure_binding l) as -> by (by rewrite <- list_fmap_compose).
    rewrite HP. clear -HF. induction HF as [|s b services k (Hid & _) _ IH]; cbn; [done|]. by rewrite Hid, IH.
  - apply Forall_forall. intros b Hb. assert (exposure_binding b ∈ k) as Hk by (rewrite <- HP; by apply list_elem_of_fmap_2).
    apply list_elem_of_lookup in Hk as [i Hi]. destruct (Forall2_lookup_r _ _ _ _ _ HF Hi) as (s & Hs & Hid & Hpr & Hport & Hv).
    exists s. split_and!; [by eapply list_elem_of_lookup_2|done|exact Hpr|done|done].
  - unfold ValidateConflicts. apply validate_conflicts_spec. split; [by intros x y _ ?%elem_of_nil|].
    by apply (pairwise_apart_perm k).
Qed.

Section plan.
Context (catalog : gmap string Manifest) (Hcat : catalogue_ok P catalog).
Context (q form : query) (m : Manifest) (t : target) (plan : ManifestPlan) (requestID id opType repairAction : string)
        (bindings : list WireBinding) (d : control_db) (w w' : cworld E).
Context (Hm : catalog !! ta_application t = Some m) (Hplan : resolved_plan P Quote q m t = Ok plan) (Hgen : 1 <= ta_generation t)
        (Hbuilt : buildServiceBindings lan (mpl_InstanceID plan) (mpl_Services plan) opType q w = (Ok bindings, w')).

Let r : Request := plan_request requestID id (helper_operation opType) repairAction (ta_generation t) plan form bindings d.

Lemma request_bindings : bindings_trusted lan r m.
Proof.
  destruct (Hcat _ _ Hm) as [_ Hwf]. pose proof Hplan as (_ & rel & _ & Ep)%Resolve_Ok.
  destruct (built_bindings_ok _ _ _ _ _ _ _ Hbuilt) as (k & HP & HF & Hap). rewrite Ep in HF. cbn in HF.
  apply (binds_trusted m bindings k r); try done.
  - unfold legacy_scalar. cbn. naive_solver.
  - unfold well_formed, services_ok in Hwf. cbn zeta in Hwf. tauto.
Qed.

Lemma request_root : installation_root r = "/srv/kitpro/apps/" +:+ ma_ID m +:+ "/" +:+ ta_installation t /\ dotless (installation_root r).
Proof.
  destruct (Hcat _ _ Hm) as [_ Hwf]. pose proof Hplan as (Hinst & rel & _ & Ep)%Resolve_Ok.
  assert (installation_root r = "/srv/kitpro/apps/" +:+ ma_ID m +:+ "/" +:+ ta_installation t) as E1 by (unfold installation_root; cbn; by rewrite Ep).
  split; [done|]. rewrite E1, !dotless_app. split_and!.
  - unfold dotless. intros H%(bool_decide_pack _). by vm_compute in H.
  - apply dotless_id. unfold well_formed, identity_text_ok in Hwf. cbn zeta in Hwf. tauto.
  - unfold dotless. intros H%(bool_decide_pack _). by vm_compute in H.
  - by apply dotless_id.
Qed.

Lemma request_mounts : Forall (fun s => bad_mount s = false) (map (mount_of (installation_root r)) (ma_Storage m)).
Proof.
  destruct (Hcat _ _ Hm) as [_ Hwf]. destruct request_root as [Er Hd]. apply Forall_fmap, Forall_forall. intros s Hs.
  apply (mount_sound (ma_SchemaVersion m)); [done| |].
  - rewrite Er. rewrite !append_assoc. apply prefix_self.
  - unfold well_formed in Hwf. cbn zeta in Hwf. destruct Hwf as (_ & _ & _ & _ & _ & _ & [HF _] & _).
    by eapply Forall_forall in HF.
Qed.

(** The parts of the request that every plan has from the manifest. *)
Lemma request_fields :
  (exists rel, rel ∈ ma_Releases m /\ mrl_Version rel = rq_ReleaseID r /\ rq_Image r = image_of rel) /\
  rq_RestartPolicy r = ma_Restart m /\ rq_Command r = ma_Command m /\
  rq_Environment r = map env_of (ma_Environment m) /\ rq_Storage r = map (mount_of (installation_root r)) (ma_Storage m) /\
  rq_Services r = map service_of (ma_Services m) /\ rq_Hardware r = map requirement_of (ma_Hardware m) /\
  rq_RunAs r = identity_of <$> ma_RunAs m /\ rq_Configuration r = policy_of <$> ma_Configuration m /\
  rq_ExternalStorage r = wire_slots form (mpl_InstanceID plan) "" (ma_ExternalStorage m) d /\
  rq_Components r = map (fun c => wire_component form (ma_ID m) (mpl_InstanceID plan) d (resolve_component (ma_Releases m) c)) (ma_Components m).
Proof.
  destruct request_root as [Er _]. pose proof Hplan as (Hinst & rel & Hrel & Ep)%Resolve_Ok. rewrite Er. subst r. rewrite Ep.
  split_and!; try done.
  - by exists rel.
  - cbn. by destruct (ma_Configuration m).
  - cbn. by rewrite map_map.
Qed.

Lemma request_addressed :
  rq_InstanceID r <> "" /\ rq_NetworkName r = generation_network r /\ rq_DataPath r = installation_root r +:+ "/data"
  /\ catalog !! rq_ApplicationID r = Some m /\ rq_ApplicationID r = ma_ID m.
Proof.
  destruct (Hcat _ _ Hm) as [Hid Hwf]. destruct request_root as [Er _]. pose proof Hplan as (Hinst & rel & Hrel & Ep)%Resolve_Ok.
  rewrite Er. unfold generation_network. subst r. rewrite Ep.
  cbn. split_and!; [|done|by rewrite !append_assoc|by rewrite Hid|done]. intros E'. by rewrite E' in Hinst.
Qed.

Lemma request_single : ma_Components m = [] -> trusted_single lan r m <-> installable m plan form d.
Proof.
  intros Hc. unfold installable. rewrite decide_True by done. rewrite <- wire_slots_chosen. unfold trusted_single.
  destruct request_fields as (? & ? & Ec & Ee & Es & ? & ? & ? & ? & Ex & _). rewrite Ec, Ee, Es, Ex.
  pose proof request_bindings. pose proof request_mounts. tauto.
Qed.

Lemma request_component c : c ∈ ma_Components m ->
  trusted_component r m (wire_component form (ma_ID m) (mpl_InstanceID plan) d (resolve_component (ma_Releases m) c)) c <->
  Forall (fun arg => shell_argument arg = false) (mco_Command c) /\ Forall sound_variable (map env_of (mco_Environment c))
  /\ required_chosen form (mpl_InstanceID plan) (mco_ID c) (mco_ExternalStorage c) d.
Proof.
  intros Hc. unfold trusted_component. rewrite <- wire_slots_chosen. cbn. destruct request_root as [-> _].
  pose proof Hplan as (Hinst & rel & Hrel & Ep)%Resolve_Ok. rewrite Ep. cbn. rewrite !append_assoc.
  assert (wire_identity (mco_RunAs c) = identity_of <$> mco_RunAs c) as -> by (by destruct (mco_RunAs c)).
  split; [tauto|]. intros H. split_and!; try done; tauto.
Qed.

Lemma request_multi : ma_Components m <> [] -> trusted_multi lan r m <-> installable m plan form d.
Proof.
  intros Hc. unfold installable. rewrite decide_False by done. unfold trusted_multi.
  destruct request_fields as ((rel & Hrel & Hv & Himg) & _ & _ & _ & _ & Hs & _ & _ & _ & _ & Ecs).
  destruct request_addressed as (_ & Hnet & _ & _ & Happ). destruct (Hcat _ _ Hm) as [_ Hwf].
  pose proof request_bindings as Hb. rewrite Ecs.
  assert (rq_ReleaseID r = mpl_ReleaseID plan) as Erel by done.
  assert (co_ID <$> map (fun c => wire_component form (ma_ID m) (mpl_InstanceID plan) d (resolve_component (ma_Releases m) c)) (ma_Components m)
          = mco_ID <$> ma_Components m) as -> by (by rewrite <- list_fmap_compose).
  assert (NoDup (mco_ID <$> ma_Components m)) as Hnd by (unfold well_formed in Hwf; cbn zeta in Hwf; tauto).
  rewrite map_map. cbn [component_node wire_component resolve_component co_ID co_DependsOn mrs_ID mrs_DependsOn].
  assert (forall l, l ⊆ ma_Components m ->
    Forall2 (trusted_component r m) (map (fun c => wire_component form (ma_ID m) (mpl_InstanceID plan) d (resolve_component (ma_Releases m) c)) l) l <->
    Forall (fun c => Forall (fun arg => shell_argument arg = false) (mco_Command c) /\ Forall sound_variable (map env_of (mco_Environment c))
      /\ required_chosen form (mpl_InstanceID plan) (mco_ID c) (mco_ExternalStorage c) d) l) as HF.
  { induction l as [|c l IH]; intros Hl; cbn; [by split; constructor|].
    rewrite Forall2_cons, Forall_cons, IH, request_component by set_solver. done. }
  rewrite HF by done. split.
  - intros ((first & rest & El & _ & Hr & _) & ? & _ & _ & ? & _ & ? & _). split_and!; [done| |done..]. rewrite El. cbn. congruence.
  - intros (Hlen & Hr & Hord & HF'). split_and!; try done.
    destruct (ma_Releases m) as [|first rest] eqn:El; [by apply elem_of_nil in Hrel|]. exists first, rest. cbn in Hr.
    split_and!; [done..|congruence|]. rewrite Himg. f_equal. rewrite <- El in Hrel.
    eapply (release_unique (ma_Releases m)); [by eapply wf_release_ids|done|rewrite El; by left|congruence].
Qed.

Lemma request_accepted : validateApplicationPlan (Ok catalog) lan r = Ok tt <-> installable m plan form d.
Proof.
  rewrite (plan_spec P) by done. unfold trusted_request. destruct request_addressed as (? & ? & ? & Hm' & _).
  transitivity (if decide (ma_Components m = []) then trusted_single lan r m else trusted_multi lan r m).
  - split; [|intros H'; split_and!; [done..|]; by exists m].
    intros (_ & _ & _ & _ & m' & Hm2 & H'). rewrite Hm' in Hm2. by injection Hm2 as <-.
  - case_decide; [by apply request_single|by apply request_multi].
Qed.
End plan.
End requests.

(** ** Exchanges and records *)

(** A mutation of the operation was, at least in part, written to the helper. *)
Definition written (log : list (Request * exchange)) (id : string) : Prop :=
  exists r x, (r, x) ∈ log /\ rq_OperationID r = id /\ rq_Operation r <> "GetOperation"
    /\ match x with DialFailed _ => False | _ => True end.

Definition answered (log : list (Request * exchange)) (id : string) (response : Response) : Prop :=
  exists r, (r, Replied response) ∈ log /\ rq_OperationID r = id.

(** The helper says that the operation succeeded, or at least that it ended. *)
Definition completed (response : Response) : Prop :=
  (rs_OK response = true /\ helperStatePending (rs_State response) = false) \/ rs_State response = "succeeded".
Definition ended (response : Response) : Prop := rs_OK response = false \/ helperStatePending (rs_State response) = false.

Definition status_ok (log : list (Request * exchange)) (id status : string) : Prop :=
  status = "accepted"
  \/ (status ∈ ["succeeded"; "helper_succeeded_projection_pending"] /\ exists response, answered log id response /\ completed response)
  \/ (status = "failed" /\ (~ written log id \/ exists response, answered log id response /\ ended response)).

Lemma answered_app log l id response : answered log id response \/ answered l id response -> answered (log ++ l) id response.
Proof. intros [(r & ? & ?)|(r & ? & ?)]; exists r; rewrite elem_of_app; auto. Qed.

(** More exchanges, of other operations. *)
Lemma status_ok_other log l id status :
  status_ok log id status -> Forall (fun rx => rq_OperationID rx.1 <> id) l -> status_ok (log ++ l) id status.
Proof.
  intros H Hl. destruct H as [?|[(? & r & ? & ?)|(? & H)]]; [by left|right; left|do 2 right].
  - split; [done|]. exists r. split; [apply answered_app; auto|done].
  - split; [done|]. destruct H as [Hw|(r & ? & ?)]; [left|right; exists r; split; [apply answered_app; auto|done]].
    intros (q & x & [Hin|Hin]%elem_of_app & Hid & Ho & Hx); [apply Hw; by exists q, x|].
    rewrite Forall_forall in Hl. by apply (Hl _ Hin).
Qed.

(** Earlier exchanges, of other operations. *)
Lemma status_ok_before log l id status :
  status_ok l id status -> Forall (fun rx => rq_OperationID rx.1 <> id) log -> status_ok (log ++ l) id status.
Proof.
  intros H Hl. destruct H as [?|[(? & r & ? & ?)|(? & H)]]; [by left|right; left|do 2 right].
  - split; [done|]. exists r. split; [apply answered_app; auto|done].
  - split; [done|]. destruct H as [Hw|(r & ? & ?)]; [left|right; exists r; split; [apply answered_app; auto|done]].
    intros (q & x & [Hin|Hin]%elem_of_app & Hid & Ho & Hx); [|apply Hw; by exists q, x].
    rewrite Forall_forall in Hl. by apply (Hl _ Hin).
Qed.

(** A query of an operation changes nothing that is justified. *)
Lemma status_ok_query log r e id status : rq_Operation r = "GetOperation" -> status_ok log id status -> status_ok (log ++ [(r, e)]) id status.
Proof.
  intros Hop H. destruct H as [?|[(? & q & ? & ?)|(? & H)]]; [by left|right; left|do 2 right].
  - split; [done|]. exists q. split; [apply answered_app; auto|done].
  - split; [done|]. destruct H as [Hw|(q & ? & ?)]; [left|right; exists q; split; [apply answered_app; auto|done]].
    intros (q & x & [Hin|[= -> ->]%list_elem_of_singleton]%elem_of_app & Hid & Ho & Hx); [apply Hw; by exists q, x|done].
Qed.

Section records.
Context {E : Type} `{Host : ControlHost E} (P : string -> option URL) (Quote : string -> string).
Context (catalog : gmap string Manifest) (lan : string).
Context (decode_committed : option json -> option committedLifecycleResult)
        (decode_reconciliation : option json -> option reconciliationResult).

(** *** Programs that leave operations and exchanges alone *)
Definition quiet {A} (m : cprog E A) : Prop := forall w,
  cd_operations (cw_db (m w).2) = cd_operations (cw_db w) /\ cw_log (m w).2 = cw_log w.

Definition keeps_operations {A} (t : tx control_db A) : Prop := forall d x d', t d = Ok (x, d') -> cd_operations d' = cd_operations d.

Lemma quiet_ret {A} (x : A) : quiet (cret x).
Proof. done. Qed.

Lemma quiet_sequence {A B} (m : cprog E A) (f : A -> cprog E B) : quiet m -> (forall x, quiet (f x)) -> quiet (cbind m f).
Proof. intros Hm Hf w. unfold cbind. specialize (Hm w). destruct (m w) as [x w1]. cbn in Hm. destruct (Hf x w1), Hm. split; congruence. Qed.

Lemma quiet_read {A} (f : control_db -> A) : quiet (read_db f).
Proof. done. Qed.

Lemma quiet_env {A} (f : E -> A * E) : quiet (from_env f).
Proof. intros w. unfold from_env. by destruct (f (cw_env w)). Qed.

Lemma quiet_change f : (forall d, cd_operations (f d) = cd_operations d) -> quiet (change_db f).
Proof. intros H w. by split; [apply H|]. Qed.

Lemma quiet_commit {A} (t : tx control_db A) : keeps_operations t -> quiet (commit t).
Proof. intros H w. unfold commit. destruct (t (cw_db w)) as [[x d]|] eqn:Et; [|done]. split; [by eapply H|done]. Qed.

Lemma keeps_operations_ret {A} (x : A) : keeps_operations (tret x).
Proof. by intros d ? ? [= _ <-]. Qed.

Lemma keeps_operations_bind {A B} (t : tx control_db A) (f : A -> tx control_db B) :
  keeps_operations t -> (forall x, keeps_operations (f x)) -> keeps_operations (tbind t f).
Proof.
  intros Ht Hf d y d' H. unfold tbind in H. destruct (t d) as [[x d1]|] eqn:E1; [|done].
  rewrite (Hf _ _ _ _ H). by eapply Ht.
Qed.

Lemma keeps_assert Q `{!Decision Q} msg : keeps_operations (tassert Q msg).
Proof. intros d [] d' H. by apply tassert_Ok in H as [_ ->]. Qed.

Lemma keeps_set installation f : keeps_operations (set_installation installation f).
Proof. by intros d ? ? [= _ <-]. Qed.

Lemma keeps_get installation : keeps_operations (get_installation installation).
Proof. intros d x d'. unfold get_installation, trow. destruct (_ !! _); [|done]. by intros [= _ <-]. Qed.

Lemma keeps_bindings installation bindings now : keeps_operations (project_bindings lan installation bindings now).
Proof.
  induction bindings as [|b bindings IH]; [apply keeps_operations_ret|]. apply keeps_operations_bind; [|done].
  intros d x d'. unfold upsertExposureProjection. destruct (ValidateBinding _ _ _); [|done]. case_decide; [|done]. by intros [= _ <-].
Qed.
#[local] Hint Resolve quiet_ret quiet_sequence quiet_read quiet_env quiet_change quiet_commit keeps_operations_ret keeps_operations_bind keeps_assert keeps_set
  keeps_get keeps_bindings : quiet.

Lemma quiet_repair installation id value desired : quiet (repairCommittedProjection lan decode_committed installation id value desired).
Proof.
  unfold repairCommittedProjection. destruct (decodeCommittedLifecycleResult _ _); [|auto with quiet].
  apply quiet_sequence; [auto with quiet|]. intros now. apply quiet_sequence; [auto with quiet|]. intros [[]|]; [|auto with quiet].
  apply quiet_commit. unfold repair_projection. auto 10 with quiet.
Qed.

Lemma quiet_reconciliation id value : quiet (projectReconciliation lan decode_reconciliation id value).
Proof.
  unfold projectReconciliation. destruct (decodeReconciliationResult _ _) as [r|]; [|auto with quiet].
  apply quiet_sequence; [auto with quiet|]. intros begun. apply quiet_sequence; [auto with quiet|]. intros now.
  destruct begun; [|auto with quiet]. apply quiet_sequence; [|intros []; auto with quiet]. apply quiet_commit.
  unfold reconcile_projection. apply keeps_operations_bind.
  - intros d x d'. destruct (_ !! _); [|done]. by intros [= _ <-].
  - intros row. apply keeps_operations_bind; [auto with quiet|]. intros _. destruct (rc_Projection r); auto 10 with quiet.
Qed.

Lemma quiet_service installation operation q bindings s : quiet (service_binding lan installation operation q bindings s).
Proof.
  unfold service_binding. destruct (TransportFor _); [|auto with quiet].
  apply quiet_sequence; [auto with quiet|]. intros record. apply quiet_sequence; [|auto with quiet].
  destruct record; [case_decide; auto with quiet|]. case_decide; [|auto with quiet].
  unfold default_binding. apply quiet_sequence.
  - repeat case_decide; auto with quiet.
  - intros [address|]; [|auto with quiet]. case_decide; [|auto with quiet]. unfold allocateDefaultServicePort. auto with quiet.
Qed.

Lemma quiet_bindings installation services operation q : quiet (buildServiceBindings lan installation services operation q).
Proof.
  unfold buildServiceBindings. apply quiet_sequence.
  - generalize (@nil ServiceBinding). induction services as [|s services IH]; intros acc; cbn; [auto with quiet|].
    apply quiet_sequence; [apply quiet_service|]. intros []; auto with quiet.
  - intros [bindings|]; [|auto with quiet]. case_decide; [auto with quiet|]. apply quiet_sequence; [done|auto with quiet].
Qed.
#[local] Hint Resolve quiet_repair quiet_reconciliation quiet_bindings : quiet.

(** *** Calls *)
Definition of_operation (id : string) (l : list (Request * exchange)) : Prop := Forall (fun rx => rq_OperationID rx.1 = id) l.

Lemma callHelper_spec r w :
  let x := (callHelper r w).1 in
  let w' := (callHelper r w).2 in
  cw_db w' = cw_db w /\ exists r' e, cw_log w' = (cw_log w ++ [(r', e)])%list
    /\ rq_OperationID r' = rq_OperationID r /\ rq_Operation r' = rq_Operation r
    /\ match e with
       | Replied response => x = inl response
       | DialFailed cause => x = inr {| te_cause := cause; te_acceptancePossible := false |}
       | WriteFailed cause | ReadFailed cause => x = inr {| te_cause := cause; te_acceptancePossible := true |}
       end.
Proof.
  unfold callHelper, cbind, from_env, cret. destruct (ch_deadline (cw_env w)) as [deadline e0]. cbn zeta.
  cbn [cw_env cw_db cw_log]. set (r' := if decide (rq_Deadline r = "") then _ else r).
  destruct (ch_exchange r' e0) as [e e1]. cbn. split; [done|]. exists r', e. split_and!; [done| | |by destruct e].
  - subst r'. by case_decide.
  - subst r'. by case_decide.
Qed.

(** What the result of [callHelperOperation] says about its exchanges. *)
Definition outcome_of (id : string) (l : list (Request * exchange)) (outcome : res Response) : Prop :=
  match outcome with
  | Ok response => answered l id response \/ (rs_OK response = true /\ helperStatePending (rs_State response) = true)
  | Err _ => ~ written l id
  end.

Lemma callHelperOperation_spec r w :
  rq_Operation r <> "GetOperation" ->
  let w' := (callHelperOperation r w).2 in
  cd_operations (cw_db w') = cd_operations (cw_db w) /\ exists l, cw_log w' = (cw_log w ++ l)%list
    /\ of_operation (rq_OperationID r) l /\ outcome_of (rq_OperationID r) l (callHelperOperation r w).1.
Proof.
  intros Hop. unfold callHelperOperation, cbind. pose proof (callHelper_spec r w) as H1. cbn zeta in H1.
  destruct (callHelper r w) as [x w1]. cbn [fst snd] in H1. destruct H1 as (Hd1 & r1 & e1 & Hl1 & Hi1 & Ho1 & Hx).
  destruct x as [response|te].
  { cbn. rewrite Hd1. split; [done|]. exists [(r1, e1)]. split_and!; [done|by constructor|]. left.
    destruct e1; try done. injection Hx as ->. exists r1. split; [by left|done]. }
  unfold NewRequestID, cbind, from_env, cret. destruct (ch_random 16 (cw_env w1)) as [b e2]. cbn [fst snd].
  match goal with |- context [callHelper ?rq ?w2] => pose proof (callHelper_spec rq w2) as H2; cbn zeta in H2;
    destruct (callHelper rq w2) as [y w3] end.
  cbn [fst snd] in H2 |- *. destruct H2 as (Hd2 & r2 & e3 & Hl2 & Hi2 & Ho2 & Hy). cbn [cw_db cw_log] in Hd2, Hl2.
  rewrite Hd2. split; [congruence|]. exists [(r1, e1); (r2, e3)]. rewrite Hl2, Hl1, <- app_assoc. split_and!; [done|by repeat constructor|].
  assert (forall f, f = (if te_acceptancePossible te then Ok (unknown_outcome r) else Err (te_cause te)) ->
    outcome_of (rq_OperationID r) [(r1, e1); (r2, e3)] f) as Hfall.
  { intros f ->. destruct (te_acceptancePossible te) eqn:Ea; cbn.
    - right. split; [done|by vm_compute].
    - intros (q & z & Hin & _ & Hq & Hz). rewrite !elem_of_cons, elem_of_nil in Hin.
      destruct Hin as [[= -> ->]|[[= -> ->]|[]]]; [|by rewrite Ho2 in Hq]. destruct e1; try done; injection Hx as ->; done. }
  destruct y as [response|te2]; [|by apply Hfall]. case_decide; [|by apply Hfall]. cbn. left.
  destruct e3; try done. injection Hy as ->. exists r2. split; [by right; left|done].
Qed.

(** *** How an operation ends *)

(** After the exchanges [l0] of the operation, [m] makes more of them and gives
    its record a status they justify. *)
Definition concludes {A} (id : string) (l0 : list (Request * exchange)) (m : cprog E A) : Prop := forall w,
  exists l f, cw_log (m w).2 = (cw_log w ++ l)%list /\ of_operation id l
    /\ cd_operations (cw_db (m w).2) = alter f id (cd_operations (cw_db w)) /\ forall row, status_ok (l0 ++ l) id (or_Status (f row)).

Lemma concludes_quiet {A B} id l0 (m : cprog E A) (f : A -> cprog E B) :
  quiet m -> (forall x, concludes id l0 (f x)) -> concludes id l0 (cbind m f).
Proof.
  intros Hm Hf w. unfold cbind. specialize (Hm w). destruct (m w) as [x w1]. cbn in Hm. destruct Hm as [Ho Hl].
  destruct (Hf x w1) as (l & g & H1 & H2 & H3 & H4). exists l, g. rewrite <- Ho, <- Hl. done.
Qed.

Lemma concludes_call {B} id r (f : res Response -> cprog E B) :
  rq_OperationID r = id -> rq_Operation r <> "GetOperation" ->
  (forall l outcome, outcome_of id l outcome -> concludes id l (f outcome)) -> concludes id [] (cbind (callHelperOperation r) f).
Proof.
  intros <- Hop Hf w. unfold cbind. pose proof (callHelperOperation_spec r w Hop) as H. cbn zeta in H.
  destruct (callHelperOperation r w) as [outcome w1]. cbn [fst snd] in H. destruct H as (Ho & l & Hl & Hown & Hout).
  destruct (Hf l outcome Hout w1) as (l' & g & H1 & H2 & H3 & H4). exists (l ++ l')%list, g.
  split_and!; [by rewrite H1, Hl, app_assoc|by apply Forall_app|by rewrite H3, Ho|exact H4].
Qed.

Lemma concludes_finish id l0 status summary code : status_ok l0 id status -> concludes id l0 (finish_operation id status summary code).
Proof.
  intros H w. exists [], (fun r => r <| or_Status := status |> <| or_Summary := summary |>). cbn.
  rewrite !app_nil_r. split_and!; [done|constructor|done|done].
Qed.

Lemma status_failed l id outcome : outcome_of id l outcome ->
  match outcome with Ok response => ended response /\ (rs_OK response = true -> helperStatePending (rs_State response) = false) | Err _ => True end ->
  status_ok l id "failed".
Proof.
  intros Ho H. do 2 right. split; [done|]. destruct outcome as [response|]; [|by left]. right. exists response. destruct H as [He Hp].
  split; [|done]. destruct Ho as [?|[H1 H2]]; [done|]. rewrite (Hp H1) in H2. done.
Qed.

Lemma status_succeeded l id response status : outcome_of id l (Ok response) -> rs_OK response = true ->
  helperStatePending (rs_State response) = false -> status ∈ ["succeeded"; "helper_succeeded_projection_pending"; "failed"] ->
  status_ok l id status.
Proof.
  intros Ho Hok Hp Hs. destruct Ho as [Ha|[_ Hp']]; [|by rewrite Hp in Hp'].
  rewrite !elem_of_cons, elem_of_nil in Hs. destruct Hs as [->|[->|[->|[]]]]; [right; left|right; left|do 2 right].
  - split; [set_solver|]. exists response. split; [done|by left].
  - split; [set_solver|]. exists response. split; [done|by left].
  - split; [done|]. right. exists response. split; [done|by right].
Qed.

Lemma concludes_post {A B} id l0 (Q : A -> Prop) (m : cprog E A) (f : A -> cprog E B) :
  quiet m -> (forall w, Q (m w).1) -> (forall x, Q x -> concludes id l0 (f x)) -> concludes id l0 (cbind m f).
Proof.
  intros Hm HQ Hf w. unfold cbind. specialize (Hm w). specialize (HQ w). destruct (m w) as [x w1]. cbn in Hm, HQ. destruct Hm as [Ho Hl].
  destruct (Hf x HQ w1) as (l & g & H1 & H2 & H3 & H4). exists l, g. rewrite <- Ho, <- Hl. done.
Qed.

Lemma settle_concludes existing id opType r release now l outcome :
  outcome_of id l outcome -> concludes id l (settle lan decode_committed existing id opType r release now outcome).
Proof.
  intros Ho. unfold settle. destruct outcome as [response|e]; [|by eapply concludes_finish, status_failed].
  destruct (rs_OK response) eqn:Eok; cbn [negb].
  2:{ apply concludes_quiet; [apply quiet_change; by destruct existing|]. intros _.
      apply concludes_finish. eapply status_failed; [done|]. cbn. split; [by left|congruence]. }
  destruct (helperStatePending (rs_State response)) eqn:Ep; [apply concludes_finish; by left|].
  apply concludes_quiet; [by apply quiet_change|]. intros _.
  apply (concludes_post _ _ (fun x => match x with Ok y => y.1 ∈ ["succeeded"; "helper_succeeded_projection_pending"; "failed"] | Err _ => True end)).
  - unfold project_outcome. destruct (committed_result _ _ _ _); [|auto with quiet]. apply quiet_sequence; [auto with quiet|].
    intros []; [|auto with quiet]. apply quiet_sequence; [|auto with quiet]. apply quiet_commit. unfold project_committed. auto 10 with quiet.
  - intros w. unfold project_outcome. destruct (committed_result _ _ _ _); [|done]. unfold cbind.
    destruct (from_env ch_begin w) as [[] w1]; cbn; [|set_solver]. destruct (commit _ w1) as [[] w2]; cbn; set_solver.
  - intros [[status summary]|] Hs; apply concludes_finish; eapply status_succeeded; try done. set_solver.
Qed.

Lemma failed_unsent id : status_ok [] id "failed".
Proof. do 2 right. split; [done|]. left. intros (? & ? & []%elem_of_nil & _). Qed.

Lemma run_operation_concludes existing id opType input generation plan now :
  concludes id [] (run_operation lan decode_committed existing id opType input generation plan now).
Proof.
  unfold run_operation. apply concludes_quiet; [unfold NewRequestID; auto with quiet|]. intros requestID.
  apply concludes_quiet; [auto with quiet|]. intros bindings.
  apply (concludes_post _ _ (fun r => rq_OperationID r = id /\ rq_Operation r = helper_operation opType)); [auto with quiet|done|].
  intros r [Hid Hop]. apply concludes_quiet; [apply quiet_change; by destruct existing|]. intros _.
  destruct bindings as [bindings|e]; [|apply concludes_finish, failed_unsent].
  apply concludes_call; [done| |intros; by apply settle_concludes]. rewrite Hop. unfold helper_operation. case_decide as H; [|done].
  by destruct H as [-> | ->].
Qed.

(** *** Every handler keeps records and exchanges consistent *)
Definition consistent (w : cworld E) : Prop :=
  (forall r x, (r, x) ∈ cw_log w -> is_Some (cd_operations (cw_db w) !! rq_OperationID r)) /\
  (forall id row, cd_operations (cw_db w) !! id = Some row -> status_ok (cw_log w) id (or_Status row)).

Definition preserves {A} (m : cprog E A) : Prop := forall w, consistent w -> consistent (m w).2.

Lemma preserves_quiet {A} (m : cprog E A) : quiet m -> preserves m.
Proof. intros Hm w H. destruct (Hm w) as [Ho Hl]. unfold consistent. by rewrite Ho, Hl. Qed.

Lemma preserves_bind {A B} (m : cprog E A) (f : A -> cprog E B) : quiet m -> (forall x, preserves (f x)) -> preserves (cbind m f).
Proof.
  intros Hm Hf w H. apply (preserves_quiet m Hm) in H. unfold cbind. destruct (m w) as [x w1]. by apply Hf.
Qed.

Lemma preserves_insert {B} id typ instance now (f : res unit -> cprog E B) :
  (forall e, preserves (f (Err e))) -> concludes id [] (f (Ok tt)) ->
  preserves (cbind (commit (insert_operation id typ instance now)) f).
Proof.
  intros Hfail Hok w [H1 H2]. unfold cbind, commit, insert_operation. destruct (cd_operations (cw_db w) !! id) eqn:Eid.
  { apply Hfail. by split. }
  match goal with |- consistent (f _ ?w1).2 => destruct (Hok w1) as (l & g & Hl & Hown & Ho & Hst) end.
  cbn [cw_log cw_db] in Hl, Ho. cbn in Ho. rewrite alter_insert_eq in Ho.
  assert (Forall (fun rx : Request * exchange => rq_OperationID rx.1 <> id) (cw_log w)) as Hfresh.
  { apply Forall_forall. intros [r x] Hin Heq. cbn in Heq. destruct (H1 r x Hin) as [row Hrow]. congruence. }
  split; rewrite Ho, Hl.
  - intros r x [Hin|Hin]%elem_of_app.
    + destruct (H1 r x Hin) as [row Hrow]. destruct (decide (rq_OperationID r = id)) as [->|Hne]; [by rewrite lookup_insert_eq|].
      rewrite lookup_insert_ne by done. eauto.
    + unfold of_operation in Hown. rewrite Forall_forall in Hown. specialize (Hown _ Hin). cbn in Hown. by rewrite Hown, lookup_insert_eq.
  - intros id' row. rewrite lookup_insert_Some. intros [[<- <-]|[Hne Hrow]].
    + by apply status_ok_before.
    + apply status_ok_other; [by apply H2|]. eapply Forall_impl; [exact Hown|]. cbn. congruence.
Qed.

Lemma dispatch_preserves input : preserves (dispatch P Quote catalog lan decode_committed input).
Proof.
  unfold dispatch. destruct (di_install_path input); [by apply preserves_quiet|]. destruct (di_trusted input); [|by apply preserves_quiet]. cbn [negb].
  apply preserves_bind; [unfold NewID; auto with quiet|]. intros id. apply preserves_bind; [unfold NewInstallation; auto with quiet|]. intros fresh.
  apply preserves_bind; [auto with quiet|]. intros [t|]; [|by apply preserves_quiet].
  destruct (catalog !! ta_application t) as [m|]; [|by apply preserves_quiet].
  destruct (resolved_plan _ _ _ m t) as [plan|]; [|by apply preserves_quiet].
  case_decide; [by apply preserves_quiet|]. case_decide; [by apply preserves_quiet|].
  apply preserves_bind; [auto with quiet|]. intros requested. apply preserves_insert; [intros; by apply preserves_quiet|].
  apply concludes_quiet; [auto with quiet|]. intros now. apply concludes_quiet.
  - case_match; [auto with quiet|]. apply quiet_commit. intros d x d'. unfold insert_installation. destruct (_ !! _); [done|]. by intros [= _ <-].
  - intros [[]|e]; [apply run_operation_concludes|]. intros w.
    exists [], (fun r => r <| or_Status := "failed" |> <| or_Summary := error_text e |>). cbn. rewrite app_nil_r.
    split_and!; [done|constructor|done|intros; apply failed_unsent].
Qed.

Lemma lifecycle_preserves installation action acknowledged :
  preserves (runInstallationLifecycle catalog lan decode_committed installation action acknowledged).
Proof.
  unfold runInstallationLifecycle. apply preserves_bind; [auto with quiet|]. intros [row|]; [|by apply preserves_quiet].
  destruct acknowledged as [ack|]; [|by apply preserves_quiet]. case_match; [by apply preserves_quiet|].
  destruct (lifecycle_operation action) as [operationType desired] eqn:El.
  apply preserves_bind; [unfold NewID; auto with quiet|]. intros id. apply preserves_bind; [auto with quiet|]. intros requested.
  apply preserves_insert; [intros; by apply preserves_quiet|]. apply concludes_quiet; [unfold NewRequestID; auto with quiet|]. intros requestID.
  apply concludes_call; [done| |].
  { cbn. unfold lifecycle_operation in El. repeat case_decide; by injection El as <- _. }
  intros l [response|e] Ho; [|by eapply concludes_finish, status_failed].
  destruct (rs_OK response) eqn:Eok; cbn [negb].
  2:{ apply concludes_finish. eapply status_failed; [done|]. cbn. split; [by left|congruence]. }
  apply (concludes_post _ _ (fun settled => settled.1 = "accepted" \/
    (helperStatePending (rs_State response) = false /\ settled.1 ∈ ["succeeded"; "helper_succeeded_projection_pending"; "failed"]))).
  - unfold lifecycle_outcome. destruct (helperStatePending _); [auto with quiet|]. destruct (decide (rs_State response <> "")); [auto with quiet|].
    apply quiet_sequence; [auto with quiet|]. intros now. apply quiet_sequence; [by apply quiet_change|auto with quiet].
  - intros w. unfold lifecycle_outcome. destruct (helperStatePending _); [by left|]. right. split; [done|].
    destruct (decide (rs_State response <> "")); unfold cbind.
    + destruct (repairCommittedProjection _ _ _ _ _ _ w) as [[] w1]; cbn; set_solver.
    + destruct (from_env ch_now w) as [now w1]. cbn. set_solver.
  - intros settled [->|[Hp Hs]]; apply concludes_finish; [by left|]. by eapply status_succeeded.
Qed.

Lemma reconciling_preserves operationType installation repairAction done_ continues failed :
  operationType <> "GetOperation" ->
  preserves (reconciling_operation lan decode_reconciliation operationType installation repairAction done_ continues failed).
Proof.
  intros Hop. unfold reconciling_operation. apply preserves_bind; [unfold NewID; auto with quiet|]. intros id.
  apply preserves_bind; [auto with quiet|]. intros requested.
  apply preserves_insert; [intros; by apply preserves_quiet|]. apply concludes_quiet; [unfold NewRequestID; auto with quiet|]. intros requestID.
  apply concludes_call; [done|done|]. intros l [response|e] Ho; [|by eapply concludes_finish, status_failed].
  destruct (rs_OK response) eqn:Eok; cbn [negb].
  2:{ apply concludes_finish. eapply status_failed; [done|]. cbn. split; [by left|congruence]. }
  destruct (helperStatePending (rs_State response)) eqn:Ep; [apply concludes_finish; by left|].
  apply concludes_quiet; [auto with quiet|]. intros []; apply concludes_finish; eapply status_succeeded; try done; set_solver.
Qed.

(** A poll adds a query of the operation and at most what its answer says. *)
Lemma poll_result id row response (w : cworld E) :
  let '(outcome, w') := (if decide (rs_State response = "succeeded")
                         then poll_succeeded lan decode_committed decode_reconciliation id row (rs_Result response)
                         else if decide (rs_State response ∈ ["failed"; "action_required"; "cancelled"; "superseded"])
                         then cret ("failed", "privileged operation requires review")
                         else cret (or_Status row, "privileged operation continues in helper")) w in
  cd_operations (cw_db w') = cd_operations (cw_db w) /\ cw_log w' = cw_log w /\
  (outcome.1 = or_Status row \/ forall log, answered log id response -> status_ok log id outcome.1).
Proof.
  case_decide as Hs.
  - destruct (poll_succeeded _ _ _ id row (rs_Result response) w) as [outcome w'] eqn:Ep.
    assert (quiet (poll_succeeded lan decode_committed decode_reconciliation id row (rs_Result response))) as Hq.
    { unfold poll_succeeded. apply quiet_sequence; [case_match; auto with quiet|]. intros c.
      apply quiet_sequence; [case_match; auto with quiet|auto with quiet]. }
    specialize (Hq w). rewrite Ep in Hq. destruct Hq as [Ho Hl]. split_and!; [done..|]. right. intros log Ha.
    revert Ep. unfold poll_succeeded. unfold cbind at 1. destruct ((if isCommittedLifecycleOperation (or_Type row) return cprog E (res unit) then _ else _) w) as [c w1].
    unfold cbind at 1. destruct ((if reconciles (or_Type row) return cprog E (res unit) then _ else _) w1) as [c' w2]. intros [= <- _].
    assert (completed response) by (by right).
    destruct c' as [[]|]; [|by left]. destruct c as [[]|]; right; left; (split; [set_solver|by exists response]).
  - case_decide as Hf; cbn; (split_and!; [done..|]); [right|by left]. intros log Ha. do 2 right. split; [done|]. right. exists response.
    split; [done|]. right. revert Hf. rewrite !elem_of_cons, elem_of_nil. intros [->|[->|[->|[->|[]]]]]; done.
Qed.

Lemma poll_preserves id : preserves (poll lan decode_committed decode_reconciliation id).
Proof.
  intros w [H1 H2]. unfold poll. unfold cbind at 1, read_db, get_operation. cbn [fst snd].
  destruct (cd_operations (cw_db w) !! id) as [row|] eqn:Er; [|by split]. destruct (open_status (or_Status row)) eqn:Eo; [|by split]. cbn [negb].
  unfold cbind. assert (quiet NewRequestID) as Hq by (unfold NewRequestID; auto with quiet). specialize (Hq w).
  destruct (NewRequestID w) as [requestID w1]. cbn in Hq. destruct Hq as [Ho1 Hl1].
  match goal with |- context [callHelper ?rq w1] => pose proof (callHelper_spec rq w1) as Hc; cbn zeta in Hc; destruct (callHelper rq w1) as [x w2] end.
  cbn [fst snd] in Hc. destruct Hc as (Hd2 & r & e & Hl2 & Hid & Hop & Hx). cbn in Hid, Hop.
  assert (forall log w', cw_log w' = log -> cd_operations (cw_db w') = cd_operations (cw_db w) -> log = (cw_log w ++ [(r, e)])%list ->
            consistent w') as Hsame.
  { intros log w' Hl Ho Hlog. split; rewrite Ho, Hl, Hlog.
    - intros r' x' [Hin|[= -> ->]%list_elem_of_singleton]%elem_of_app; [eauto|]. rewrite Hid, Er. eauto.
    - intros id' row' Hrow'. apply (status_ok_query _ _ _ _ _ Hop), (H2 _ _ Hrow'). }
  assert (cw_log w2 = cw_log w ++ [(r, e)] /\ cd_operations (cw_db w2) = cd_operations (cw_db w)) as [Hlog2 Hops2] by (split; congruence).
  destruct x as [response|te]; [|by eapply Hsame]. case_decide; [by eapply Hsame|].
  pose proof (poll_result id row response w2) as Hp.
  match type of Hp with (let '(_, _) := ?m in _) => destruct m as [outcome w3] end. destruct Hp as (Ho3 & Hl3 & Hst).
  assert (consistent w3) as [H1' H2'] by (eapply (Hsame (cw_log w3)); congruence).
  assert (answered (cw_log w3) id response) as Ha.
  { rewrite Hl3, Hlog2. apply answered_app. right. destruct e; try done. injection Hx as ->. exists r. split; [by left|done]. }
  cbn. split; cbn [cw_log cw_db]; cbn.
  - intros r' x' Hin. apply lookup_alter_is_Some. by eapply H1'.
  - intros id' row'. rewrite lookup_alter_Some. intros [(<- & row0 & Hrow0 & ->)|[_ Hrow']]; [|by apply H2'].
    cbn. destruct Hst as [->|Hst]; [|by apply Hst]. assert (row0 = row) as -> by congruence. by apply H2'.
Qed.

Notation api_run := (api_run P Quote catalog lan decode_committed decode_reconciliation).

Lemma api_consistent steps w : consistent w -> consistent (api_run w steps).
Proof.
  revert w. induction steps as [|s steps IH]; intros w H; [done|]. apply IH. destruct s; cbn [api_step].
  - by apply dispatch_preserves.
  - by apply poll_preserves.
  - by apply lifecycle_preserves.
  - unfold reconcileInstallation. revert w H. apply preserves_bind; [auto with quiet|].
    intros [row|]; [by apply reconciling_preserves|by apply preserves_quiet].
  - unfold repairInstallation. case_decide; [by apply preserves_quiet|by apply reconciling_preserves].
  - destruct H as [H1 H2]. split; cbn; setoid_rewrite lookup_update.
    + intros r x Hin. apply fmap_is_Some. by eapply H1.
    + intros id row (row0 & Hrow0 & ->)%fmap_Some. specialize (H2 _ _ Hrow0). repeat case_decide; done.
Qed.
End records.

(** ** Replies of the helper *)

(** An answer to a request of an operation: a refusal before it was accepted, or
    its record ([responseFor] of [Coordinator]). *)
Definition helper_reply (id : string) (response : Response) : Prop :=
  (rs_OK response = false /\ rs_State response = "")
  \/ exists unmarshal record requestID, response = responseFor unmarshal id record requestID.

(** The helper showed a record of the operation in a state. *)
Definition shown (log : list (Request * exchange)) (id : string) (Q : op_state_t -> Prop) : Prop :=
  exists unmarshal record requestID, answered log id (responseFor unmarshal id record requestID) /\ Q (op_state record).

Lemma completed_reply log id response :
  answered log id response -> helper_reply id response -> completed response -> shown log id (fun s => s = StateSucceeded).
Proof.
  intros Ha [[Hok Hs]|(u & record & rid & ->)] Hc.
  - destruct Hc as [[? _]|Hs']; congruence.
  - exists u, record, rid. split; [done|]. unfold completed, responseFor in Hc. cbn in Hc. rewrite bool_decide_eq_true in Hc.
    destruct (op_state record), Hc as [[H1 H2]|H2]; try done; naive_solver.
Qed.

Lemma ended_reply log id response :
  answered log id response -> helper_reply id response -> ended response ->
  (exists refusal, answered log id refusal /\ rs_OK refusal = false /\ rs_State refusal = "")
  \/ shown log id (fun s => s ∉ [StateAccepted; StateExecuting; StateReconciling]).
Proof.
  intros Ha [[Hok Hs]|(u & record & rid & ->)] Hc; [left; by exists response|right].
  exists u, record, rid. split; [done|]. unfold ended, responseFor in Hc. cbn in Hc. rewrite bool_decide_eq_false in Hc.
  cbv beta. destruct (op_state record); try (apply (bool_decide_unpack _); exact I); destruct Hc as [H1|H2]; try done; naive_solver.
Qed.

Module ControlClaims.

(** C12. A request the API builds for a catalogued application is accepted by the
    helper, with the same catalogue and LAN address, exactly when the
    application is installable: for one container, its command has no shell and
    its variables are sound; for several, the first release is asked for, the
    components can be ordered and are sound; and a root is chosen for every
    required slot of imported storage.  Nothing else in what the API sends can
    be refused. *)
Theorem api_request_accepted {E} `{ControlHost E} P Quote lan catalog q form m t plan requestID id opType repairAction bindings d
    (w w' : cworld E) :
  catalogue_ok P catalog -> catalog !! ta_application t = Some m -> resolved_plan P Quote q m t = Ok plan -> 1 <= ta_generation t ->
  buildServiceBindings lan (mpl_InstanceID plan) (mpl_Services plan) opType q w = (Ok bindings, w') ->
  validateApplicationPlan (Ok catalog) lan
    (plan_request requestID id (helper_operation opType) repairAction (ta_generation t) plan form bindings d) = Ok tt
  <-> installable m plan form d.
Proof. intros. by eapply request_accepted. Qed.


(** *** Witnesses: a host that answers every request with the same record *)
Definition sample_host (reply : Request -> exchange) : ControlHost unit :=
  {| ch_exchange r e := (reply r, e); ch_deadline e := ("2026-01-01T00:30:00Z", e); ch_listen _ _ e := (Ok tt, e);
     ch_open _ _ := Ok ""; ch_now e := ("2026-01-01T00:00:00Z", e); ch_random n e := (repeat 1%N n, e); ch_begin e := (Ok tt, e) |}.

Definition sample_record (kind : string) (state : op_state_t) : opRow :=
  {| op_request_hash := ""; op_request_json := ""; op_protocol_version := 2; op_operation_revision := 1; op_kind := kind;
     op_installation := "inst-0101010101010101"; op_caller_uid := 0; op_state := state; op_phase := "complete";
     op_outcome := ConfirmedApplied; op_recovery := Completed; op_expected_generation := None; op_token := Some 1;
     op_accepted_at := ""; op_started_at := None; op_updated_at := ""; op_completed_at := None; op_result_json := "";
     op_error_code := ""; op_error_detail := "" |}.

Definition show (state : op_state_t) (r : Request) : exchange :=
  Replied (responseFor (fun _ => None) (rq_OperationID r) (sample_record (rq_Operation r) state) (rq_ID r)).

Definition sample_target : target :=
  {| ta_installation := "inst-0101010101010101"; ta_application := "paperless-ngx"; ta_release := ""; ta_generation := 1 |}.

Definition sample_plan : res ManifestPlan := resolved_plan https_uri plain_quote ∅ paperless sample_target.

Definition no_plan : ManifestPlan :=
  {| mpl_ApplicationID := ""; mpl_ReleaseID := ""; mpl_InstanceID := ""; mpl_ImageDigest := ""; mpl_NetworkName := ""; mpl_DataPath := "";
     mpl_Restart := ""; mpl_Command := []; mpl_Environment := []; mpl_Storage := []; mpl_Services := []; mpl_Components := [];
     mpl_ResolvedComponents := []; mpl_Hardware := []; mpl_ExternalStorage := []; mpl_RunAs := None; mpl_Backup := None;
     mpl_Configuration := None |}.
Definition sample_planned : ManifestPlan := match sample_plan with Ok plan => plan | Err _ => no_plan end.
Definition sample_built : res (list WireBinding) * cworld unit :=
  buildServiceBindings (Host := sample_host (show StateSucceeded)) "" (mpl_InstanceID sample_planned) (mpl_Services sample_planned)
    "InstallApplication" ∅ (api_start tt).
Definition sample_bindings : list WireBinding := match sample_built.1 with Ok bindings => bindings | Err _ => [] end.

Lemma api_request_accepted_witness :
  sample_plan = Ok sample_planned /\ sample_built.1 = Ok sample_bindings /\ installable paperless sample_planned ∅ empty_control.
Proof.
  assert (sample_plan = Ok sample_planned) as Ep by (vm_compute; reflexivity).
  assert (sample_built.1 = Ok sample_bindings) as Eb by (vm_compute; reflexivity).
  split; [exact Ep|]. split; [exact Eb|].
  apply (api_request_accepted (H := sample_host (show StateSucceeded)) https_uri plain_quote "" two_entries ∅ ∅ paperless sample_target
           sample_planned "req-1" "op-1" "InstallApplication" "" sample_bindings empty_control (api_start tt) sample_built.2 two_entries_ok).
  - vm_compute. reflexivity.
  - exact Ep.
  - vm_compute. discriminate.
  - rewrite <- Eb. exact (surjective_pairing sample_built).
  - vm_compute. reflexivity.
Defined.

Definition running_result (generation : Z) (state : string) : committedLifecycleResult :=
  {| cl_Generation := generation; cl_ReleaseID := "2.20.14"; cl_RuntimeState := state; cl_Bindings := [] |}.

Definition install_paperless : apiStep :=
  ApiDispatch {| di_install_path := false; di_trusted := true; di_query := {["app_id" := "paperless-ngx"]}; di_form := ∅ |}.

Definition installed : cworld unit :=
  api_run (Host := sample_host (show StateSucceeded)) https_uri plain_quote two_entries "" (fun _ => Some (running_result 1 "running"))
    (fun _ => None) (api_start tt) [install_paperless; ApiStarted].

Definition sample_id : string := "op-01010101010101010101010101010101".

Lemma all_shown log st r response :
  map snd log = map (fun rx => show st rx.1) log -> (r, Replied response) ∈ log -> helper_reply (rq_OperationID r) response.
Proof.
  intros Hlog [i Hi]%list_elem_of_lookup. right. apply (f_equal (lookup i)) in Hlog.
  rewrite !list_lookup_fmap, Hi in Hlog. cbn in Hlog. unfold show in Hlog. injection Hlog as ->. eauto.
Qed.


(** A result is projected unless the record has a newer generation, and actions
    keep the generation: the poll of a stop whose answer was lost, made after a
    later start, sets the started application to stopped again. *)
Definition started_since : cworld unit :=
  let row := {| ir_application := "paperless-ngx"; ir_release := "2.20.14"; ir_desired := "running"; ir_generation := 1;
                ir_runtime_state := "running"; ir_recon_state := "consistent"; ir_recon_codes := []; ir_reconciled_at := "";
                ir_repaired_at := ""; ir_source := "op-later-start"; ir_created := ""; ir_updated := "" |} in
  let stop := {| or_Type := "StopApplication"; or_RequestedAt := ""; or_Status := "accepted"; or_InstanceID := "inst-0101010101010101";
                 or_Summary := "" |} in
  {| cw_db := empty_control <| cd_operations := {["op-stop" := stop]} |> <| cd_installations := {["inst-0101010101010101" := row]} |>;
     cw_env := tt; cw_log := [] |}.

Example stale_result_projected :
  let w := api_step (Host := sample_host (show StateSucceeded)) https_uri plain_quote two_entries "" (fun _ => Some (running_result 1 "stopped"))
             (fun _ => None) started_since (ApiPoll "op-stop") in
  (fun r => (ir_desired r, ir_runtime_state r, ir_source r)) <$> cd_installations (cw_db w) !! "inst-0101010101010101"
  = Some ("stopped", "stopped", "op-stop").
Proof. vm_compute. reflexivity. Qed.
End ControlClaims.
