(* ===== verification/IngressApply.v ===== *)
(** * The helper's ingress operation ([cmd/kitpro-helper/ingress.go])

    [applyIngressGeneration]: routes are resolved against the trusted catalogue
    and the active runtime generations, rendered, applied by the nginx runtime
    and recorded in the helper's tables.  The loaded catalogue, the entries of
    the generations directory, the hash and the clock are arguments, and so is
    which of the operation's database statements fail. *)

From S2P Require Import Prelude Exposure HelperDB Protocol NetIP ExposurePolicy Ingress IngressRuntime Manifest.
From stdpp Require Import base gmap strings list.
From Stdlib Require Import ZArith Lia Ascii.

Import Wire.
Open Scope Z_scope.

(** ** Services of a manifest *)
Definition find_service (services : list ManifestService) (serviceID : string) : option ManifestService :=
  list_find (fun s => ms_ID s = serviceID) services ≫= fun p => Some p.2.

Definition findManifestService (value : Manifest) (serviceID : string) : option ManifestService :=
  match find_service (ma_Services value) serviceID with
  | Some s => Some s
  | None => find_service (concat (map mco_Services (ma_Components value))) serviceID
  end.

(** ** Tables ([state.go], helper schema) *)
Inductive ingress_status : Type :=
| IngPrepared | IngValidated | IngActivating | IngActive | IngFailed | IngRollbackPending
| IngRolledBack | IngCleanupPending.
#[export] Instance ingress_status_eq_dec : EqDecision ingress_status.
Proof. solve_decision. Defined.

(** [ingress_generations], keyed by [generation]. *)
Record igenRow : Type := {
  ig_operation : string;
  ig_sha256 : string;
  ig_status : ingress_status;
  ig_previous : option Z;
  ig_path : string;
  ig_created_at : string;
  ig_validated_at : option string;
  ig_activated_at : option string;
  ig_failure_code : string;
  ig_evidence : string
}.
#[export] Instance igenRow_eta : Eta igenRow := fun r => Build_igenRow (ig_operation r) (ig_sha256 r)
  (ig_status r) (ig_previous r) (ig_path r) (ig_created_at r) (ig_validated_at r) (ig_activated_at r)
  (ig_failure_code r) (ig_evidence r).
#[export] Instance set_ig_sha256 : Setter ig_sha256 := ltac:(mk_setter).
#[export] Instance set_ig_status : Setter ig_status := ltac:(mk_setter).
#[export] Instance set_ig_validated_at : Setter ig_validated_at := ltac:(mk_setter).
#[export] Instance set_ig_activated_at : Setter ig_activated_at := ltac:(mk_setter).
#[export] Instance set_ig_failure_code : Setter ig_failure_code := ltac:(mk_setter).

(** [ingress_generation_routes], keyed by generation and route. *)
Record irouteRow : Type := {
  ir_installation : string;
  ir_service : string;
  ir_hostname : string;
  ir_backend_address : string;
  ir_backend_port : Z;
  ir_exposure_mode : string;
  ir_tls_policy : string;
  ir_certificate : string;
  ir_provider : string
}.

Record ingress_db : Type := {
  ib_runtime : db;
  ib_gens : gmap Z igenRow;
  ib_routes : gmap (Z * string) irouteRow
}.
#[export] Instance ingress_db_eta : Eta ingress_db := fun d =>
  Build_ingress_db (ib_runtime d) (ib_gens d) (ib_routes d).
#[export] Instance set_ib_gens : Setter ib_gens := ltac:(mk_setter).
#[export] Instance set_ib_routes : Setter ib_routes := ltac:(mk_setter).

(** The unique index on the active status. *)
Definition active_ingress_rows (gens : gmap Z igenRow) : list (Z * igenRow) :=
  select (fun _ r => ig_status r = IngActive) gens.

(** [COALESCE(MAX(generation),0)] of some rows *)
Definition max_generation (rows : list (Z * igenRow)) : Z :=
  match map fst rows with
  | [] => 0
  | g :: gs => foldr Z.max g gs
  end.

Definition insert_generation (g : Z) (r : igenRow) : tx ingress_db unit := fun d =>
  if decide (is_Some (ib_gens d !! g)) then Err (ErrSQL "UNIQUE constraint failed: ingress_generations.generation")
  else if decide (Exists (fun kr => ig_operation kr.2 = ig_operation r) (map_to_list (ib_gens d)))
  then Err (ErrSQL "UNIQUE constraint failed: ingress_generations.operation_id")
  else Ok (tt, d <| ib_gens := <[g := r]> (ib_gens d) |>).

(** [UPDATE ingress_generations SET f WHERE generation = g] *)
Definition update_generation (g : Z) (f : igenRow -> igenRow) : tx ingress_db unit := fun d =>
  let gens := update (fun k _ => k = g) f (ib_gens d) in
  if decide (1 < length (active_ingress_rows gens))%nat
  then Err (ErrSQL "UNIQUE constraint failed: ingress_generations.status")
  else Ok (tt, d <| ib_gens := gens |>).

Definition route_checks (r : irouteRow) : Prop :=
  ir_exposure_mode r ∈ ["lan"; "managed-https"; "cloudflare-tunnel"] /\
  ir_tls_policy r ∈ ["none"; "provided"; "acme"; "cloudflare"] /\ 0 <= ir_backend_port r <= 65535.
#[export] Instance route_checks_dec r : Decision (route_checks r).
Proof. unfold route_checks. apply _. Defined.

Definition insert_generation_route (g : Z) (id : string) (r : irouteRow) : tx ingress_db unit := fun d =>
  if decide (~ route_checks r) then Err (ErrSQL "CHECK constraint failed: ingress_generation_routes")
  else if decide (is_Some (ib_routes d !! (g, id)))
  then Err (ErrSQL "UNIQUE constraint failed: ingress_generation_routes.generation, ingress_generation_routes.route_id")
  else if decide (Exists (fun kr => kr.1.1 = g /\ ir_hostname kr.2 = ir_hostname r) (map_to_list (ib_routes d)))
  then Err (ErrSQL "UNIQUE constraint failed: ingress_generation_routes.generation, ingress_generation_routes.hostname")
  else if decide (ib_gens d !! g = None) then Err (ErrSQL "FOREIGN KEY constraint failed")
  else Ok (tt, d <| ib_routes := <[(g, id) := r]> (ib_routes d) |>).

(** ** Resolving the requested routes *)

(** The newest active runtime generation of an installation. *)
Definition active_runtime_generation (d : db) (installationID : string) : option (string * Z) :=
  let rows := select (fun k r => k.1 = installationID /\ g_status r = GenActive) (db_gens d) in
  foldr (fun kr best => match best with
                        | Some (_, g) => if decide (g < kr.1.2) then Some (g_application kr.2, kr.1.2) else best
                        | None => Some (g_application kr.2, kr.1.2)
                        end) None rows.

Definition requested_route (candidate : IngressRoute) : Route :=
  {| r_ID := ir_RouteID candidate; r_InstallationID := ir_InstallationID candidate;
     r_ServiceID := ir_ServiceID candidate; r_Hostname := ir_Hostname candidate;
     r_ExposureMode := ir_ExposureMode candidate; r_UpstreamProtocol := ir_UpstreamProtocol candidate;
     r_TLSPolicy := ir_TLSPolicy candidate; r_CertificateID := ir_CertificateID candidate;
     r_ProviderID := ir_ProviderID candidate; r_DesiredState := Enabled; r_AppliedGeneration := 0;
     r_CreatedAt := ""; r_UpdatedAt := "" |}.

(** The database statements of the operation, those made for a route with its
    position. *)
Inductive ingress_statement : Type :=
| StTarget (i : nat) | StBinding (i : nat) | StNext | StPrevious | StPrepare | StFailure
| StBegin | StRetire | StActivate | StRoute (i : nat) | StCommit.

Notation db_faults := (ingress_statement -> option error).

(** A statement, which fails without effect if it is to fail. *)
Definition executed (fault : db_faults) (statement : ingress_statement) (m : tx ingress_db unit) : tx ingress_db unit := fun d =>
  match fault statement with Some e => Err e | None => m d end.

Definition resolve_route (fault : db_faults) (i : nat) (entries : gmap string Manifest) (d : db) (candidate : IngressRoute) : res AppliedRoute :=
  match (if fault (StTarget i) then None else active_runtime_generation d (ir_InstallationID candidate)) with
  | None => Err (ErrMsg "route target is not an active managed installation")
  | Some (applicationID, generation) =>
  match entries !! applicationID with
  | None => Err (ErrMsg "route application is not trusted")
  | Some entry =>
  match findManifestService entry (ir_ServiceID candidate) ≫= ms_Ingress with
  | None => Err (ErrMsg "service is not ingress eligible")
  | Some policy =>
  match (if fault (StBinding i) then None else db_binds d !! (ir_InstallationID candidate, generation, ir_ServiceID candidate)) with
  | None => Err (ErrMsg "route target binding is unavailable")
  | Some b =>
      if decide (Mode b <> "loopback" \/ Transport b <> "tcp" \/ HostAddress b <> "127.0.0.1")
      then Err (ErrMsg "route target must be a managed loopback TCP binding")
      else
        let route := requested_route candidate in
        rbind (ValidateRoute route (ie_ExposureModes policy) (ie_External policy)) (fun _ =>
        Ok {| ar_Route := route; ar_Backend := {| b_Address := HostAddress b; b_Port := HostPort b |} |})
  end end end end.

Fixpoint resolve_routes (fault : db_faults) (i : nat) (entries : gmap string Manifest) (d : db) (candidates : list IngressRoute)
    : res (list AppliedRoute) :=
  match candidates with
  | [] => Ok []
  | c :: cs => rbind (resolve_route fault i entries d c) (fun r =>
               rbind (resolve_routes fault (S i) entries d cs) (fun rs => Ok (r :: rs)))
  end.

(** ** Recording the outcome *)
Definition nullableInt64 (value : Z) : option Z := if decide (value = 0) then None else Some value.

Definition generations_path (generation : Z) : string :=
  Ingress.Join ["/var/lib/kitpro-helper/ingress/generations"; itoa generation].

Definition prepared_row (operationID : string) (previous generation : Z) (now : string) : igenRow :=
  {| ig_operation := operationID; ig_sha256 := ""; ig_status := IngPrepared;
     ig_previous := nullableInt64 previous; ig_path := generations_path generation; ig_created_at := now;
     ig_validated_at := None; ig_activated_at := None; ig_failure_code := ""; ig_evidence := "{}" |}.

Definition failed_status (e : ApplyError) : ingress_status :=
  if ae_RecoveryNow e then IngRollbackPending
  else if ae_RolledBack e then IngRolledBack else IngFailed.

Definition route_row (route : AppliedRoute) : irouteRow :=
  let r := ar_Route route in
  {| ir_installation := r_InstallationID r; ir_service := r_ServiceID r; ir_hostname := r_Hostname r;
     ir_backend_address := b_Address (ar_Backend route); ir_backend_port := b_Port (ar_Backend route);
     ir_exposure_mode := r_ExposureMode r; ir_tls_policy := r_TLSPolicy r;
     ir_certificate := r_CertificateID r; ir_provider := r_ProviderID r |}.

Fixpoint insert_routes (fault : db_faults) (i : nat) (generation : Z) (applied : list AppliedRoute) : tx ingress_db unit :=
  match applied with
  | [] => tret tt
  | route :: rest =>
      do* executed fault (StRoute i) (insert_generation_route generation (r_ID (ar_Route route)) (route_row route)) in
      insert_routes fault (S i) generation rest
  end.

(** From [BeginTx] to [Commit]. *)
Definition commit_active (fault : db_faults) (generation previous : Z) (sha now : string) (applied : list AppliedRoute)
    : tx ingress_db unit :=
  do* executed fault StBegin (tret tt) in
  do* (if decide (0 < previous)
       then executed fault StRetire (update_generation previous (fun r => r <| ig_status := IngRolledBack |>)) else tret tt) in
  do* executed fault StActivate (update_generation generation (fun r =>
        r <| ig_sha256 := sha |> <| ig_status := IngActive |> <| ig_validated_at := Some now |>
          <| ig_activated_at := Some now |>)) in
  do* insert_routes fault 0 generation applied in
  executed fault StCommit (tret tt).

(** The error of the apply transaction as the caller reports it. *)
Definition apply_failure (e : ApplyError) : error := ErrWrap (ae_Code e) (ae_Cause e).

Record ApplyResult : Type := {
  rs_generation : Z;
  rs_previous_generation : Z;
  rs_configuration_sha256 : string;
  rs_route_ids : list string
}.

Section apply.
Context {E : Type} (fault : db_faults) (sha256_hex : string -> string) (now : string)
        (load : res (gmap string Manifest)) (readDir : fsworld E -> string -> option (res (list string)))
        (rt : Runtime (fsworld E)).

(** From the insertion of the prepared row to the end. *)
Definition apply_prepared (operationID : string) (applied : list AppliedRoute) (configuration : string)
    (generation previous : Z) (d : ingress_db) (w : fsworld E) : res ApplyResult * (ingress_db * fsworld E) :=
  match executed fault StPrepare (insert_generation generation (prepared_row operationID previous generation now)) d with
  | Err e => (Err e, (d, w))
  | Ok (_, d) =>
      match Apply sha256_hex (Some rt) generation previous configuration w with
      | ((result, Some e), w) =>
          let d := (atomically (executed fault StFailure (update_generation generation (fun r =>
                      r <| ig_sha256 := cd_SHA256 result |> <| ig_status := failed_status e |>
                        <| ig_failure_code := ae_Code e |>))) d).2 in
          (Err (apply_failure e), (d, w))
      | ((result, None), w) =>
          match atomically (commit_active fault generation previous (cd_SHA256 result) now applied) d with
          | (Err e, d) => (Err e, (d, w))
          | (Ok _, d) =>
              (Ok {| rs_generation := generation; rs_previous_generation := previous;
                     rs_configuration_sha256 := cd_SHA256 result;
                     rs_route_ids := map (fun r => r_ID (ar_Route r)) applied |}, (d, w))
          end
      end
  end.

Definition applyIngressGeneration (request : Request) (d : ingress_db) (w : fsworld E)
    : res ApplyResult * (ingress_db * fsworld E) :=
  if decide (128 < length (rq_IngressRoutes request))%nat then (Err (ErrMsg "too many ingress routes"), (d, w))
  else match load with
  | Err _ => (Err (ErrMsg "trusted catalog unavailable"), (d, w))
  | Ok entries =>
  match resolve_routes fault 0 entries (ib_runtime d) (rq_IngressRoutes request) with
  | Err e => (Err e, (d, w))
  | Ok applied =>
  match RenderNginx applied {| o_CertificateRoot := ""; o_WorkerUser := "" |} with
  | Err e => (Err e, (d, w))
  | Ok configuration =>
      match fault StNext, fault StPrevious with
      | Some e, _ | None, Some e => (Err e, (d, w))
      | None, None =>
      let generation := max_generation (map_to_list (ib_gens d)) + 1 in
      let previous := max_generation (active_ingress_rows (ib_gens d)) in
      match NextUnusedGeneration (readDir w) defaultIngressRoot generation with
      | Err e => (Err e, (d, w))
      | Ok generation => apply_prepared (rq_OperationID request) applied configuration generation previous d w
      end end
  end end end.
End apply.

(** [ingressErrorCode]: only an error of the apply transaction has a code. *)
Definition ingressErrorCode (applyError : option ApplyError) : string :=
  match applyError with Some e => "Ingress" +:+ ae_Code e | None => "IngressRejected" end.
