(* ===== verification/IngressApplyProofs.v ===== *)
(** * Lemmas on the helper's ingress operation

    The active row of the generation table, the statements of the commit, and
    what a run of [apply_prepared] leaves in the tables and in the runtime. *)

From S2P Require Import Prelude Exposure HelperDB Protocol NetIP ExposurePolicy Ingress IngressProofs IngressRender IngressRuntime IngressSwitch Manifest IngressApply.
From stdpp Require Import base gmap strings list.
From Stdlib Require Import ZArith Lia Ascii Bool.

Open Scope Z_scope.

(** ** The active row *)
Definition unique_active (gens : gmap Z igenRow) : Prop :=
  forall g1 g2 r1 r2, gens !! g1 = Some r1 -> gens !! g2 = Some r2 ->
    ig_status r1 = IngActive -> ig_status r2 = IngActive -> g1 = g2.

(** What the schema guarantees of the tables, with generations numbered from 1. *)
Definition ingress_wf (d : ingress_db) : Prop :=
  (forall g r, ib_gens d !! g = Some r -> 1 <= g) /\
  unique_active (ib_gens d) /\
  (forall g id r, ib_routes d !! (g, id) = Some r -> is_Some (ib_gens d !! g)).

Definition active_of (d : ingress_db) : Z := max_generation (active_ingress_rows (ib_gens d)).

Lemma elem_of_active gens g r :
  (g, r) ∈ active_ingress_rows gens <-> gens !! g = Some r /\ ig_status r = IngActive.
Proof. apply (elem_of_select (fun _ r => ig_status r = IngActive)). Qed.

Lemma active_rows_unique gens : unique_active gens <-> (length (active_ingress_rows gens) <= 1)%nat.
Proof.
  split.
  - intros Hu. assert (NoDup (map fst (active_ingress_rows gens))) as Hnd.
    { unfold active_ingress_rows, select. apply NoDup_fst_map_to_list. }
    destruct (active_ingress_rows gens) as [|[g1 r1] [|[g2 r2] rest]] eqn:E; cbn; [lia | lia |].
    exfalso. apply NoDup_cons in Hnd as [Hn _]. apply Hn. cbn.
    assert ((g1, r1) ∈ active_ingress_rows gens /\ (g2, r2) ∈ active_ingress_rows gens) as [[H1 A1]%elem_of_active [H2 A2]%elem_of_active]
      by (rewrite E; set_solver).
    rewrite (Hu g1 g2 r1 r2) by done. apply list_elem_of_here.
  - intros Hl g1 g2 r1 r2 H1 H2 A1 A2.
    assert ((g1, r1) ∈ active_ingress_rows gens /\ (g2, r2) ∈ active_ingress_rows gens) as [I1 I2] by (rewrite !elem_of_active; done).
    destruct (active_ingress_rows gens) as [|x [|y rest]]; [set_solver | | cbn in Hl; lia].
    apply list_elem_of_singleton in I1, I2. congruence.
Qed.

Lemma max_generation_ge rows g r : (g, r) ∈ rows -> g <= max_generation rows.
Proof.
  intros Hin. apply (list_elem_of_fmap_2 fst) in Hin. cbn in Hin. unfold max_generation.
  change (fst <$> rows) with (map fst rows) in Hin.
  destruct (map fst rows) as [|x xs]; [set_solver|].
  assert (forall y, y ∈ x :: xs -> y <= foldr Z.max x xs) as H; [|by apply H].
  clear. induction xs as [|z xs IH]; intros y Hy; cbn.
  - apply list_elem_of_singleton in Hy. lia.
  - apply elem_of_cons in Hy as [->|[->|Hy]%elem_of_cons]; [|lia|].
    + specialize (IH x). assert (x ∈ x :: xs) by set_solver. apply IH in H. lia.
    + assert (y ∈ x :: xs) as H by set_solver. apply IH in H. lia.
Qed.

Lemma max_generation_in rows : rows = [] \/ exists r, (max_generation rows, r) ∈ rows.
Proof.
  destruct rows as [|[g r] rows]; [by left|right]. unfold max_generation. cbn [map fst].
  assert (foldr Z.max g (map fst rows) ∈ g :: map fst rows) as Hin.
  { induction rows as [|[g' r'] rows IH]; cbn [map fst foldr]; [set_solver|].
    destruct (Z.max_spec g' (foldr Z.max g (map fst rows))) as [[_ ->]|[_ ->]]; set_solver. }
  change (g :: map fst rows) with (fst <$> (g, r) :: rows) in Hin.
  apply list_elem_of_fmap in Hin as ([g' r'] & -> & Hin). by exists r'.
Qed.

(** The active generation, from the rows. *)
Lemma active_of_spec d g :
  ingress_wf d ->
  active_of d = g <->
  (g = 0 /\ (forall k r, ib_gens d !! k = Some r -> ig_status r <> IngActive)) \/
  (exists r, ib_gens d !! g = Some r /\ ig_status r = IngActive).
Proof.
  intros (Hpos & Hu & _). unfold active_of.
  destruct (max_generation_in (active_ingress_rows (ib_gens d))) as [E|[r Hr]].
  - rewrite E. cbn. assert (forall k r, ib_gens d !! k = Some r -> ig_status r <> IngActive) as Hn.
    { intros k r Hk Ha. assert ((k, r) ∈ active_ingress_rows (ib_gens d)) as Hin by (by apply elem_of_active).
      rewrite E in Hin. set_solver. }
    split; [intros <-; by left|]. intros [[-> _]|(r & Hr & Ha)]; [done|]. by apply Hn in Hr.
  - apply elem_of_active in Hr as [Hr Ha]. split; [intros <-; right; eauto|].
    intros [[-> Hn]|(r' & Hr' & Ha')]; [by apply Hn in Hr|]. by eapply Hu.
Qed.

Lemma active_of_same d d' :
  ingress_wf d -> ingress_wf d' ->
  (forall g r, ib_gens d !! g = Some r -> ig_status r = IngActive -> exists r', ib_gens d' !! g = Some r' /\ ig_status r' = IngActive) ->
  (forall g r, ib_gens d' !! g = Some r -> ig_status r = IngActive -> exists r', ib_gens d !! g = Some r' /\ ig_status r' = IngActive) ->
  active_of d' = active_of d.
Proof.
  intros Hw Hw' H1 H2. apply active_of_spec; [done|].
  destruct (proj1 (active_of_spec d (active_of d) Hw) eq_refl) as [[-> Hn]|(r & Hr & Ha)].
  - left. split; [done|]. intros k r Hk Ha. destruct (H2 k r Hk Ha) as (r' & Hr' & Ha'). by apply Hn in Hr'.
  - right. eauto.
Qed.

(** ** Statements *)
Lemma insert_generation_Ok g r d u d' :
  insert_generation g r d = Ok (u, d') ->
  ib_gens d !! g = None /\ d' = d <| ib_gens := <[g := r]> (ib_gens d) |>.
Proof.
  unfold insert_generation. case_decide as H1; [done|]. case_decide; [done|]. intros [= _ <-].
  split; [|done]. by apply eq_None_not_Some.
Qed.

(** An update of one row succeeds when it leaves at most one active row. *)
Lemma update_generation_Ok g f d r :
  ib_gens d !! g = Some r -> unique_active (<[g := f r]> (ib_gens d)) ->
  update_generation g f d = Ok (tt, d <| ib_gens := <[g := f r]> (ib_gens d) |>).
Proof.
  intros Hg Hu. unfold update_generation.
  rewrite (update_pk (fun k _ => k = g) f (ib_gens d) g r) by done.
  apply active_rows_unique in Hu. by rewrite decide_False by lia.
Qed.

(** Writing a row that is not active keeps the active row unique. *)
Lemma unique_active_insert gens g r :
  ig_status r <> IngActive -> unique_active gens -> unique_active (<[g := r]> gens).
Proof.
  intros Hn Hu g1 g2 r1 r2 H1 H2 A1 A2.
  apply lookup_insert_Some in H1 as [[<- <-]|[Hg1 H1]]; [done|].
  apply lookup_insert_Some in H2 as [[<- <-]|[Hg2 H2]]; [done|]. by eapply Hu.
Qed.

Lemma wf_insert d g r :
  1 <= g -> unique_active (<[g := r]> (ib_gens d)) -> ingress_wf d ->
  ingress_wf (d <| ib_gens := <[g := r]> (ib_gens d) |>).
Proof.
  intros Hg Hu (Hpos & _ & Hfk). split_and!; cbn.
  - intros k r' [[<- _]|[_ Hk]]%lookup_insert_Some; [done | by eapply Hpos].
  - done.
  - intros k id r' Hk. apply Hfk in Hk. rewrite lookup_insert_is_Some. destruct (decide (g = k)); auto.
Qed.

Lemma active_of_insert d g r :
  (forall r0, ib_gens d !! g = Some r0 -> ig_status r0 <> IngActive) ->
  1 <= g -> ig_status r <> IngActive -> ingress_wf d ->
  ingress_wf (d <| ib_gens := <[g := r]> (ib_gens d) |>) /\
  active_of (d <| ib_gens := <[g := r]> (ib_gens d) |>) = active_of d.
Proof.
  intros Hold Hg Hr Hw.
  assert (ingress_wf (d <| ib_gens := <[g := r]> (ib_gens d) |>)) as Hw'.
  { apply wf_insert; [done | apply unique_active_insert; [done | apply Hw] | done]. }
  split; [done|]. apply active_of_same; [done | done | |]; cbn.
  - intros k r' Hk Ha. exists r'. split; [|done]. rewrite lookup_insert_ne; [done|].
    intros <-. by eapply Hold.
  - intros k r' [[<- <-]|[_ Hk]]%lookup_insert_Some Ha; [done | eauto].
Qed.

(** ** The rows of the routes *)
Lemma route_row_checks route : servable route -> route_checks (route_row route).
Proof.
  intros (_ & HV & (_ & Hp)%ValidateBackend_Ok). pose proof (ValidateRoute_Ok _ _ _ HV) as (_ & _ & Hm & _).
  split_and!; [done | | cbn; lia | cbn; lia]. cbn.
  unfold ValidateRoute in HV. destruct (_ || _); [done|]. do 3 (case_decide; [done|]).
  apply rbind_Ok in HV as (u & Hmode & _).
  unfold TLSNone, TLSProvided, TLSACME, TLSCloudflare in *.
  destruct (decide (r_TLSPolicy (ar_Route route) ∈ ["none"; "provided"; "acme"; "cloudflare"])) as [|Hn]; [done|].
  exfalso. repeat (apply not_elem_of_cons in Hn as [? Hn]).
  repeat (case_decide; try done; try tauto).
Qed.

(** No row of the generation has one of these routes or names yet. *)
Definition route_absent (d : ingress_db) (g : Z) (route : AppliedRoute) : Prop :=
  ib_routes d !! (g, rid route) = None /\
  (forall id r, ib_routes d !! (g, id) = Some r -> ir_hostname r <> host route).

Lemma executed_cases fault statement m d :
  (exists e, fault statement = Some e /\ executed fault statement m d = Err e) \/
  executed fault statement m d = m d.
Proof. unfold executed. destruct (fault statement) as [e|]; [left; by exists e|by right]. Qed.

(** The statements after the proxy was switched. *)
Definition commit_statement (s : ingress_statement) : Prop :=
  match s with StBegin | StRetire | StActivate | StRoute _ | StCommit => True | _ => False end.

(** A transaction that fails for a reason of the database alone. *)
Definition fails_or {A} (fault : db_faults) (r : res A) (P : A -> Prop) : Prop :=
  match r with Ok a => P a | Err e => exists s, commit_statement s /\ fault s = Some e end.

Lemma insert_routes_Ok fault i g applied d :
  is_Some (ib_gens d !! g) -> acceptable applied -> Forall (route_absent d g) applied ->
  fails_or fault (insert_routes fault i g applied d) (fun '(_, d') => ib_gens d' = ib_gens d /\
    (forall route, route ∈ applied -> ib_routes d' !! (g, rid route) = Some (route_row route)) /\
    (forall k, (forall route, route ∈ applied -> k <> (g, rid route)) -> ib_routes d' !! k = ib_routes d !! k)).
Proof.
  intros Hg Ha. revert i d Hg. induction applied as [|route rest IH]; intros i d Hg Habs.
  { cbn. split_and!; try done. set_solver. }
  destruct Ha as (Hs & Hnh & Hni). cbn in Hnh, Hni.
  apply Forall_cons in Hs as [Hs Hss], Habs as [[Hab Hhost] Habs].
  apply NoDup_cons in Hnh as [Hh Hnh], Hni as [Hi Hni].
  cbn [insert_routes]. set (d1 := d <| ib_routes := <[(g, rid route) := route_row route]> (ib_routes d) |>).
  assert (insert_generation_route g (r_ID (ar_Route route)) (route_row route) d = Ok (tt, d1)) as Hins.
  { unfold insert_generation_route.
    rewrite decide_False by (pose proof (route_row_checks route Hs); tauto).
    rewrite decide_False by (fold (rid route); rewrite Hab; by intros []).
    rewrite decide_False.
    2:{ rewrite Exists_exists. intros ([[g' id] r] & Hin%elem_of_map_to_list & Hg' & Hr). cbn in *. subst g'.
        by eapply Hhost. }
    by rewrite decide_False by (destruct Hg as [x ->]; done). }
  unfold tbind at 1. destruct (executed_cases fault (StRoute i) (insert_generation_route g (r_ID (ar_Route route)) (route_row route)) d)
    as [(e & He & ->)| ->]; [by exists (StRoute i)|]. rewrite Hins.
  assert (Forall (route_absent d1 g) rest) as Habs1.
  { rewrite Forall_forall in Habs |- *. intros r' Hr'. destruct (Habs r' Hr') as [Hab' Hhost'].
    split; cbn.
    + rewrite lookup_insert_ne; [done|]. intros [= E]. apply Hi. rewrite E. by apply list_elem_of_fmap_2.
    + intros id r [[[= <-] <-]|[_ Hr]]%lookup_insert_Some; [|by eapply Hhost'].
      intros E. apply Hh. change (host route = host r') in E. rewrite E. by apply list_elem_of_fmap_2. }
  specialize (IH ltac:(by split_and!) (S i) d1 ltac:(done) Habs1).
  destruct (insert_routes fault (S i) g rest d1) as [[u d']|e]; [|done]. destruct IH as (Hgens & Hin & Hout). split_and!; [done | |].
    + intros r' [->|Hr']%elem_of_cons; [|by apply Hin]. rewrite Hout; [cbn; by rewrite lookup_insert_eq|].
      intros r' Hr' [= E]. apply Hi. rewrite E. by apply list_elem_of_fmap_2.
    + intros k Hk. rewrite Hout; [|set_solver]. cbn. rewrite lookup_insert_ne; [done|].
      intros <-. by apply (Hk route); [set_solver|].
Qed.

(** ** The commit *)

(** The routes recorded for a generation. *)
Definition records (d : ingress_db) (g : Z) (applied : list AppliedRoute) : Prop :=
  forall id r, ib_routes d !! (g, id) = Some r <->
               exists route, route ∈ applied /\ rid route = id /\ r = route_row route.

Lemma retire_previous fault d previous :
  ingress_wf d -> previous = active_of d ->
  fails_or fault ((if decide (0 < previous)
              then executed fault StRetire (update_generation previous (fun r => r <| ig_status := IngRolledBack |>)) else tret tt) d)
  (fun '(_, d1) => ingress_wf d1 /\ ib_routes d1 = ib_routes d /\
    (forall k r, ib_gens d1 !! k = Some r -> ig_status r <> IngActive) /\
    (forall k, k <> previous -> ib_gens d1 !! k = ib_gens d !! k)).
Proof.
  intros Hw Hprev. destruct (proj1 (active_of_spec d previous Hw) (eq_sym Hprev)) as [[-> Hn]|(r & Hr & Ha)].
  - rewrite decide_False by lia. done.
  - pose proof (proj1 Hw _ _ Hr) as Hpos. rewrite decide_True by lia.
    set (r' := r <| ig_status := IngRolledBack |>).
    assert (unique_active (<[previous := r']> (ib_gens d))) as Hu by (apply unique_active_insert; [done | apply Hw]).
    destruct (executed_cases fault StRetire (update_generation previous (fun r => r <| ig_status := IngRolledBack |>)) d)
      as [(e & He & ->)| ->]; [by exists StRetire|].
    rewrite (update_generation_Ok previous _ d r) by done. split_and!; cbn.
    + by apply wf_insert.
    + done.
    + intros k x [[<- <-]|[Hne Hk]]%lookup_insert_Some; [done|]. intros Hx. apply Hne.
      destruct Hw as (_ & Hu' & _). by eapply Hu'.
    + intros k Hk. by rewrite lookup_insert_ne.
Qed.

Lemma commit_active_Ok fault d g previous sha now applied row :
  ingress_wf d -> ib_gens d !! g = Some row -> ig_status row <> IngActive -> 1 <= g ->
  previous = active_of d -> acceptable applied -> (forall id, ib_routes d !! (g, id) = None) ->
  fails_or fault (commit_active fault g previous sha now applied d)
    (fun '(_, d') => ingress_wf d' /\ active_of d' = g /\ records d' g applied).
Proof.
  intros Hw Hg Hrow Hpos Hprev Hacc Hfree. unfold commit_active, tbind.
  destruct (executed_cases fault StBegin (tret tt) d) as [(e & He & ->)| ->]; [by exists StBegin|]. cbn [tret].
  pose proof (retire_previous fault d previous Hw Hprev) as Hretire.
  match type of Hretire with fails_or _ ?step _ => destruct step as [[u1 d1]|e] end; [|done]. destruct Hretire as (Hw1 & Hr1 & Hn1 & Hk1).
  assert (ib_gens d1 !! g = Some row) as Hg1.
  { rewrite Hk1; [done|]. intros ->. symmetry in Hprev.
    destruct (proj1 (active_of_spec d previous Hw) Hprev) as [[-> _]|(r & Hr & Ha)]; [lia | congruence]. }
  set (f := fun r : igenRow => _). set (row' := f row).
  assert (unique_active (<[g := row']> (ib_gens d1))) as Hu.
  { intros k1 k2 r1 r2 H1 H2 A1 A2.
    apply lookup_insert_Some in H1 as [[<- _]|[_ H1]]; [|by apply Hn1 in H1].
    apply lookup_insert_Some in H2 as [[<- _]|[_ H2]]; [done | by apply Hn1 in H2]. }
  destruct (executed_cases fault StActivate (update_generation g f) d1) as [(e & He & ->)| ->]; [by exists StActivate|].
  rewrite (update_generation_Ok g f d1 row) by done. fold row'.
  set (d2 := d1 <| ib_gens := <[g := row']> (ib_gens d1) |>).
  assert (ib_gens d2 !! g = Some row') as Hg2 by (cbn; by rewrite lookup_insert_eq).
  assert (ib_routes d2 = ib_routes d) as Hr2 by done.
  assert (Forall (route_absent d2 g) applied) as Habs.
  { apply Forall_true. intros route. split; [by rewrite Hr2|]. intros id r. by rewrite Hr2, Hfree. }
  pose proof (insert_routes_Ok fault 0 g applied d2 ltac:(eauto) Hacc Habs) as Hroutes.
  destruct (insert_routes fault 0 g applied d2) as [[u2 d']|e]; [|done]. destruct Hroutes as (Hgens & Hin & Hout).
  destruct (executed_cases fault StCommit (tret tt) d') as [(e & He & ->)| ->]; [by exists StCommit|]. cbn [tret fails_or].
  assert (ingress_wf d2) as (Hp2 & Hu2 & Hf2) by by apply wf_insert.
  assert (records d' g applied) as Hrec.
  { intros id r. split.
    - intros Hr. destruct (decide (Exists (fun route => rid route = id) applied)) as [(route & Hi & Hid)%Exists_exists|Hn].
      + exists route. split_and!; [done | done|]. apply Hin in Hi. rewrite Hid in Hi. congruence.
      + rewrite Hout, Hr2, Hfree in Hr; [done|]. intros route Hi [= E]. apply Hn, Exists_exists. eauto.
    - intros (route & Hi & <- & ->). by apply Hin. }
  assert (ingress_wf d') as Hw'.
  { split_and!; rewrite ?Hgens; try done. intros k id r Hr.
    destruct (decide (k = g)) as [->|Hne]; [rewrite Hg2; eauto|].
    rewrite Hout in Hr; [by eapply Hf2|]. intros route _ [= ? ?]. done. }
  split_and!; try done. apply active_of_spec; [done|]. right. exists row'. by rewrite Hgens.
Qed.

(** ** The operation *)
Section operation.
Context {E : Type} (n : NginxRuntime E) (Hroot : clean_abs (Root n)) (Hvalid : validate n = Ok tt).
Context (fault : db_faults) (sha256_hex : string -> string) (now : string).

(** The link agrees with the table: it leads to the active generation, or to
    the bootstrap configuration, or nowhere, when there is none. *)
Definition agrees (d : ingress_db) (w : fsworld E) : Prop :=
  active_link n w = Some (place n (active_of d)) \/ (active_of d = 0 /\ active_link n w = None).

(** A generation of this operation awaits recovery. *)
Definition recovery_pending (d d' : ingress_db) : Prop :=
  exists g r, ib_gens d !! g = None /\ ib_gens d' !! g = Some r /\ ig_status r = IngRollbackPending.

(** A statement failed when the outcome was to be recorded: the row of this
    operation's generation says [prepared], and where it was the outcome of a
    switch that succeeded, the link already leads to that generation. *)
Definition left_prepared (d d' : ingress_db) (w' : fsworld E) : Prop :=
  exists g r, ib_gens d !! g = None /\ ib_gens d' !! g = Some r /\ ig_status r = IngPrepared /\
    (fault StFailure <> None \/
     (exists s, commit_statement s /\ fault s <> None) /\ active_link n w' = Some (place n g)).

Lemma cleanup_never_fails c w : 0 <= cd_PreviousGeneration c -> n_Cleanup n c w = (Ok tt, w).
Proof.
  intros Hp. unfold n_Cleanup. case_decide; [done|]. unfold ibind, ilift, generationPath. rewrite Hvalid. cbn.
  by rewrite decide_False by lia.
Qed.

Lemma no_cleanup_pending c w :
  0 <= cd_PreviousGeneration c ->
  match (apply_candidate (nginx n) c w).1.2 with
  | Some e => ae_Code e <> "cleanup_pending"
  | None => True
  end.
Proof.
  intros Hp. unfold apply_candidate.
  destruct (Prepare (nginx n) c w) as [[[]|e1] w1]; [|done].
  destruct (Validate (nginx n) c w1) as [[[]|e2] w2]; [|done].
  assert (forall code cause w, code <> "cleanup_pending" ->
            ae_Code (rollback (nginx n) c code cause w).1 <> "cleanup_pending") as Hrb.
  { intros code cause w' Hc. unfold rollback. destruct (Rollback _ _ _) as [[[]|e] w4]; [|done].
    case_decide; [|done]. by destruct (VerifyGeneration _ _ _) as [[[]|e] w5]. }
  destruct (Activate (nginx n) c w2) as [[[]|e3] w3].
  2:{ pose proof (Hrb "activation_failed" e3 w3 ltac:(done)). by destruct (rollback _ _ _ _ _). }
  destruct (Verify (nginx n) c w3) as [[[]|e4] w4].
  2:{ pose proof (Hrb "verification_failed" e4 w4 ltac:(done)). by destruct (rollback _ _ _ _ _). }
  change (Cleanup (nginx n) c w4) with (n_Cleanup n c w4). by rewrite cleanup_never_fails.
Qed.

(** The generation was seen active, accepted by the checker, by the runtime. *)
Definition seen_active (g : Z) : Prop :=
  exists w1 f, eval_links 255 w1 (Ingress.Join [Root n; "current"]) = Ok (place n g) /\
               Check n = Some f /\ (f "generation" g w1).1 = Ok tt.

Definition outcome_ok (d : ingress_db) (w : fsworld E) (applied : list AppliedRoute) (configuration : string)
    (g previous : Z) (result : res ApplyResult * (ingress_db * fsworld E)) : Prop :=
  let '(r, (d', w')) := result in
  ingress_wf d' /\
  match r with
  | Ok res =>
      rs_generation res = g /\ rs_previous_generation res = previous /\
      ib_gens d !! g = None /\ active_of d' = g /\
      active_link n w' = Some (place n g) /\
      w_files w' !! Ingress.Join [place n g; "nginx.conf"] = Some configuration /\
      records d' g applied /\ seen_active g
  | Err _ => active_of d' = active_of d /\ (agrees d w -> agrees d' w' \/ recovery_pending d d' \/ left_prepared d d' w')
  end.

(** Recording the failure of a fresh generation keeps the active one. *)
Lemma record_failure d g row f :
  ingress_wf d -> ib_gens d !! g = Some row -> ig_status row <> IngActive -> ig_status (f row) <> IngActive ->
  let d' := (atomically (update_generation g f) d).2 in
  ingress_wf d' /\ active_of d' = active_of d /\ ib_gens d' !! g = Some (f row).
Proof.
  intros Hw Hg Hrow Hf. cbv zeta. unfold atomically.
  rewrite (update_generation_Ok g f d row Hg) by (apply unique_active_insert; [done | apply Hw]). cbn [snd].
  destruct (active_of_insert d g (f row)) as [Hw' Ha]; try done.
  - intros r0 Hr0. congruence.
  - by eapply Hw.
  - split_and!; try done. cbn. by rewrite lookup_insert_eq.
Qed.

Lemma failed_status_inactive e : failed_status e <> IngActive.
Proof. unfold failed_status. by destruct (ae_RecoveryNow e), (ae_RolledBack e). Qed.

Lemma agrees_ext d d' w w' :
  active_of d' = active_of d -> active_link n w' = active_link n w -> agrees d w -> agrees d' w'.
Proof. unfold agrees. by intros -> ->. Qed.

(** A failed apply of a fresh generation, recorded. *)
Lemma failure_recorded applied configuration g previous d w row c sha e w' :
  ingress_wf d -> previous = active_of d -> ib_gens d !! g = None -> 1 <= g -> ig_status row = IngPrepared ->
  cd_PreviousGeneration c = previous ->
  failure_leaves (place n) c (active_link n w) (active_link n w') e -> ae_Code e <> "cleanup_pending" ->
  outcome_ok d w applied configuration g previous
    (Err (apply_failure e), ((atomically (executed fault StFailure (update_generation g (fun r =>
       r <| ig_sha256 := sha |> <| ig_status := failed_status e |> <| ig_failure_code := ae_Code e |>)))
       (d <| ib_gens := <[g := row]> (ib_gens d) |>)).2, w')).
Proof.
  intros Hw Hprev Hfree Hpos Hrow Hc Hl Hcode. set (d1 := d <| ib_gens := _ |>).
  destruct (active_of_insert d g row) as [Hw1 Ha1]; try done; [congruence | congruence |]. fold d1 in Hw1, Ha1.
  assert (ib_gens d1 !! g = Some row) as Hg1 by (cbn; by rewrite lookup_insert_eq).
  destruct (fault StFailure) as [x|] eqn:Hx.
  { unfold atomically, executed. rewrite Hx. cbn [snd]. split; [done|]. split; [done|]. intros _. right. right. exists g, row.
    split_and!; try done. left. by rewrite Hx. }
  assert (forall m d, atomically (executed fault StFailure m) d = atomically m d) as -> by (intros m d2; unfold atomically, executed; by rewrite Hx).
  destruct (record_failure d1 g row (fun r =>
    r <| ig_sha256 := sha |> <| ig_status := failed_status e |> <| ig_failure_code := ae_Code e |>))
    as (Hw2 & Ha2 & Hg2); [done | done | congruence | apply failed_status_inactive |].
  split; [done|]. split; [congruence|]. intros Hag.
  destruct Hl as [(_ & _ & Hl)|[(_ & Hrec & _)|(_ & _ & [[? _]|[_ Hl]])]].
  - left. left. rewrite Hl, Ha2, Ha1, Hc, <- Hprev. done.
  - right. left. eexists g, _. split_and!; [done | exact Hg2 |]. cbn. unfold failed_status. by rewrite Hrec.
  - done.
  - left. eapply agrees_ext; [| exact Hl | exact Hag]. congruence.
Qed.

Lemma apply_prepared_spec operationID applied configuration g previous d w :
  ingress_wf d -> previous = active_of d -> 1 <= g -> acceptable applied ->
  outcome_ok d w applied configuration g previous
    (apply_prepared fault sha256_hex now (nginx n) operationID applied configuration g previous d w).
Proof.
  intros Hw Hprev Hpos Hacc. unfold apply_prepared.
  destruct (executed_cases fault StPrepare (insert_generation g (prepared_row operationID previous g now)) d)
    as [(e & He & ->)| ->]; [by split_and!; auto|].
  destruct (insert_generation _ _ d) as [[u d1]|e] eqn:Hins; [|by split_and!; auto].
  apply insert_generation_Ok in Hins as [Hfree ->].
  set (row := prepared_row _ _ _ _). set (d1 := d <| ib_gens := _ |>).
  destruct (active_of_insert d g row) as [Hw1 Ha1]; try done; [intros r0 Hr0; congruence|]. fold d1 in Hw1, Ha1.
  assert (ib_gens d1 !! g = Some row) as Hg1 by (cbn; by rewrite lookup_insert_eq).
  assert (0 <= previous) as Hpp.
  { destruct (proj1 (active_of_spec d previous Hw) (eq_sym Hprev)) as [[-> _]|(r & Hr & _)]; [lia|].
    apply Hw in Hr. lia. }
  set (c := the_candidate sha256_hex g previous configuration).
  pose proof (fun sha e w' => failure_recorded applied configuration g previous d w row c sha e w'
    Hw Hprev Hfree Hpos eq_refl eq_refl) as Hfail. fold d1 in Hfail.
  unfold Apply. case_decide as Hbad.
  { apply Hfail; [|done]. right. right. split_and!; try done. right. split; [cbn; set_solver | done]. }
  fold c. pose proof (apply_candidate_leaves (nginx n) (active_link n) (place n) (config_in_place n)
    (Switch0 := nginx_switches n Hroot) c w) as [Hl _].
  pose proof (no_cleanup_pending c w Hpp) as Hnc.
  destruct (apply_candidate (nginx n) c w) as [[c' [e|]] w'] eqn:Eap; cbn [fst snd] in *; [by apply Hfail|].
  destruct Hl as (Hnew & Hhold & w1 & w2 & Hver & _).
  assert (forall id, ib_routes d1 !! (g, id) = None) as Hnone.
  { intros id. apply eq_None_not_Some. intros [r Hr]. change (ib_routes d !! (g, id) = Some r) in Hr.
    destruct Hw as (_ & _ & Hfk). apply Hfk in Hr as [x Hx]. congruence. }
  pose proof (commit_active_Ok fault d1 g previous (cd_SHA256 c') now applied row Hw1 Hg1 ltac:(done) Hpos ltac:(congruence) Hacc Hnone) as Hcommit.
  unfold atomically. destruct (commit_active _ _ _ _ _ _ d1) as [[u' d']|x].
  - destruct Hcommit as (Hw' & Ha' & Hrec). split; [done|]. split_and!; try done.
    apply verify_sees in Hver as (Hseen & f & Hf & Hok). exists w1, f. done.
  - destruct Hcommit as (s & Hs & Hfs). split; [done|]. split; [done|]. intros _. right. right. exists g, row.
    split_and!; try done. right. split; [exists s; by rewrite Hfs|exact Hnew].
Qed.
End operation.
