(* ===== verification/IngressProps.v ===== *)
(** * Properties of the ingress

    Host names, the active set of routes, the rendered configuration, the
    apply transaction on the nginx runtime, and the helper's operation as a
    whole. *)

From S2P Require Import Prelude Exposure HelperDB Protocol NetIP ExposurePolicy Ingress IngressProofs IngressRender IngressRuntime IngressSwitch Manifest IngressApply IngressApplyProofs.
From stdpp Require Import base gmap strings list sorting.
From Stdlib Require Import ZArith Lia Ascii Bool.

Import Wire.
Open Scope Z_scope.

(** What [NormalizeHostname] returns is a host name of the grammar (at least
    two labels of 1 to 63 letters, digits and inner hyphens, at most 253
    bytes, not an address), and the names of the grammar are exactly those it
    returns unchanged: the comparison form never differs from the stored one. *)
Theorem hostname_normal_form (value h : string) :
  (NormalizeHostname value = Ok h -> valid_hostname h) /\
  (valid_hostname h <-> NormalizeHostname h = Ok h).
Proof.
  split; [apply normalize_sound|]. split; [apply normalize_accepts | apply normalize_sound].
Qed.

(** [NormalizeRoutes] accepts exactly the sets in which every route is enabled,
    valid and has a loopback backend and no host name or identity occurs
    twice; its result is a rearrangement in the order of host names and does
    not depend on the order in which the routes were given. *)
Theorem routes_canonical (routes routes' : list AppliedRoute) :
  ((exists out, NormalizeRoutes routes = Ok out) <-> acceptable routes) /\
  (forall out, NormalizeRoutes routes = Ok out ->
     out ≡ₚ routes /\ StronglySorted (key_le host) out /\
     (routes ≡ₚ routes' -> NormalizeRoutes routes' = Ok out)).
Proof.
  split.
  - split; [intros (out & [Ha _]%NormalizeRoutes_Ok); done|].
    intros Ha. exists (sort_routes routes). by apply NormalizeRoutes_Ok.
  - intros out [Ha ->]%NormalizeRoutes_Ok.
    split_and!; [apply sort_routes_perm | apply sort_routes_sorted|].
    intros Hp. apply NormalizeRoutes_Ok. split; [by rewrite <- Hp | by apply sort_routes_canonical].
Qed.

(** C40. Reading the rendered configuration line by line gives back exactly the
    server blocks the routes ask for, in the order of their host names: where
    each listens, the one name it serves, its certificate files directly below
    the certificate root, and the targets it passes to.  Every word taken from
    a route is free of blanks, quotes, semicolons, braces and variables, so no
    field can add or end a directive. *)
Theorem render_read_back (routes : list AppliedRoute) (options : RenderOptions) (out : string)
    (Hplain : plain_text (default_root (o_CertificateRoot options)))
    (Hok : RenderNginx routes options = Ok out) :
  read_servers out = concat (map (servers_of (default_root (o_CertificateRoot options))) (sort_routes routes)) /\
  Forall (fun s => Forall plain_text (words s)) (read_servers out).
Proof.
  apply RenderNginx_Ok in Hok as (Ha & Hroot & Hu & ->).
  assert (Forall servable (sort_routes routes)) as Hs by (rewrite sort_routes_perm; apply Ha).
  rewrite read_config by done. split; [done|].
  apply Forall_concat, Forall_fmap. eapply Forall_impl; [exact Hs|]. intros r. by apply servable_words.
Qed.

Definition default_options : RenderOptions := {| o_CertificateRoot := ""; o_WorkerUser := "" |}.

Lemma render_read_back_witness :
  match RenderNginx [sample_applied] default_options with
  | Ok out =>
      map (fun s => (sv_listen s, sv_name s, sv_targets s)) (read_servers out) =
        [("80", "app.example.org", [acme_target]); ("443 ssl", "app.example.org", ["http://127.0.0.1:20001"])] /\
      Forall (fun s => Forall plain_text (words s)) (read_servers out)
  | Err _ => False
  end.
Proof.
  destruct (RenderNginx [sample_applied] default_options) as [out|e] eqn:Hok; [|vm_compute in Hok; discriminate Hok].
  destruct (render_read_back [sample_applied] default_options out eq_refl Hok) as [Hr Hw].
  split; [rewrite Hr; vm_compute; reflexivity | exact Hw].
Defined.

(** However system calls, the checker, the reload or the process check fail,
    [Apply] over the nginx runtime leaves the active link as it says.  Success
    means that the link leads to the new generation, whose configuration file
    has the given content and which was verified while it was active.  An error
    marked as rolled back leaves the link on the previous generation (or the
    bootstrap configuration), an error before activation leaves it where it
    was, and only an error that asks for recovery leaves it open which of the
    three it is.  The link never moves before the candidate was prepared and
    accepted by the checker. *)
Theorem apply_switches_as_reported {E : Type} (sha : string -> string)
    (check : string -> Z -> fsworld E -> res unit * E) (reload verify : fsworld E -> res unit * E)
    (generation previous : Z) (configuration : string) (w : fsworld E) :
  let n := NewNginxRuntime check reload verify in
  let c := the_candidate sha generation previous configuration in
  let '((_, result), w') := Apply sha (Some (nginx n)) generation previous configuration w in
  match result with
  | None =>
      active_link n w' = Some (place n generation) /\
      w_files w' !! Ingress.Join [place n generation; "nginx.conf"] = Some configuration /\ seen_active n generation
  | Some e => failure_leaves (place n) c (active_link n w) (active_link n w') e
  end /\
  (active_link n w' <> active_link n w ->
   exists w1 w2, n_Prepare n c w = (Ok tt, w1) /\ n_Validate n c w1 = (Ok tt, w2) /\ config_in_place n c w2).
Proof.
  cbv zeta. set (n := NewNginxRuntime check reload verify).
  set (c := the_candidate sha generation previous configuration).
  assert (clean_abs (Root n)) as Hroot by (split; vm_compute; reflexivity).
  unfold Apply. case_decide.
  { split; [|done]. right. right. split_and!; try done. right. split; [cbn; set_solver | done]. }
  fold c. pose proof (apply_candidate_leaves (nginx n) (active_link n) (place n) (config_in_place n)
    (Switch0 := nginx_switches n Hroot) c w) as [Hl Hp].
  destruct (apply_candidate (nginx n) c w) as [[c' result] w']. cbn [fst snd] in *. split; [|exact Hp].
  destruct result as [e|]; [exact Hl|]. destruct Hl as (Hnew & Hhold & w1 & w2 & Hver & _).
  split_and!; [done | done |]. apply verify_sees in Hver as (Hseen & f & Hf & Hok). by exists w1, f.
Qed.

(** ** Generation numbers *)
Lemma next_unused_spec entries next g :
  next_unused entries next = Ok g ->
  next <= g /\ (g = next \/ exists name, name ∈ entries /\ ParseInt name = Some (g - 1)) /\
  (forall name k, name ∈ entries -> ParseInt name = Some k -> k < g).
Proof.
  revert next. induction entries as [|name entries IH]; intros next; cbn.
  { intros [= <-]. split_and!; [lia | by left | set_solver]. }
  destruct (ParseInt name) as [k|] eqn:Hk; [case_decide; [|case_decide; [done|]]|];
    intros (Hle & Hg & Hall)%IH; (split_and!; [lia | | intros nm j [->|Hin]%elem_of_cons Hj; [simplify_eq; lia | eauto]]).
  - destruct Hg as [->|(nm & ? & ?)]; [by left | right; set_solver].
  - right. destruct Hg as [->|(nm & ? & ?)]; [|set_solver].
    exists name. split; [set_solver|]. rewrite Hk. f_equal. lia.
  - destruct Hg as [->|(nm & ? & ?)]; [by left | right; set_solver].
Qed.

(** The generation [NextUnusedGeneration] chooses is not below the one asked
    for, lies above every numbered entry of the directory and skips no number
    that is not taken. *)
Theorem next_unused_generation (readDir : string -> option (res (list string))) (root : string) (minimum g : Z)
    (Hok : NextUnusedGeneration readDir root minimum = Ok g) :
  1 <= minimum <= g /\
  match readDir (Ingress.Join [root; "generations"]) with
  | Some (Ok entries) =>
      (forall name k, name ∈ entries -> ParseInt name = Some k -> k < g) /\
      (g = minimum \/ exists name, name ∈ entries /\ ParseInt name = Some (g - 1))
  | _ => g = minimum
  end.
Proof.
  revert Hok. unfold NextUnusedGeneration. case_decide; [done|].
  destruct (readDir _) as [[entries|e]|]; [| done |].
  - intros (? & ? & ?)%next_unused_spec. split_and!; [lia.. | done | done].
  - intros [= <-]. split; [lia | done].
Qed.

Lemma next_unused_generation_witness :
  NextUnusedGeneration (fun _ => Some (Ok ["2"; "7"; "current"])) "/srv" 3 = Ok 8 /\ 1 <= 3 <= 8.
Proof.
  split; [vm_compute; reflexivity|].
  apply (next_unused_generation (fun _ => Some (Ok ["2"; "7"; "current"])) "/srv" 3 8). vm_compute. reflexivity.
Defined.

(** ** The helper's operation *)

(** C35. [applyIngressGeneration] keeps the tables and the proxy in agreement,
    whichever calls on the file system, nginx or the database fail.  On success a
    fresh generation is the one active row, the link leads to it, it was verified
    there, its configuration file reads back as the server blocks of the resolved
    routes, and exactly those routes are recorded for it.  On any error the
    active row is the old one, and if the link agreed with the table before it
    still does, with two exceptions the table shows: the row of the failed
    generation says that a rollback is pending, or it still says that it is
    prepared, because the statement that was to record a failed apply failed, or
    because a statement of the commit did after the link moved to it. *)
Theorem ingress_agreement {E : Type} (fault : db_faults) (sha : string -> string) (now : string)
    (load : res (gmap string Manifest)) (readDir : fsworld E -> string -> option (res (list string)))
    (check : string -> Z -> fsworld E -> res unit * E) (reload verify : fsworld E -> res unit * E)
    (request : Request) (d : ingress_db) (w : fsworld E) (Hwf : ingress_wf d) :
  let n := NewNginxRuntime check reload verify in
  let '(r, (d', w')) := applyIngressGeneration fault sha now load readDir (nginx n) request d w in
  ingress_wf d' /\
  match r with
  | Ok res =>
      exists entries applied configuration,
        load = Ok entries /\ resolve_routes fault 0 entries (ib_runtime d) (rq_IngressRoutes request) = Ok applied /\
        ib_gens d !! rs_generation res = None /\ active_of d' = rs_generation res /\
        active_link n w' = Some (place n (rs_generation res)) /\ seen_active n (rs_generation res) /\
        w_files w' !! Ingress.Join [place n (rs_generation res); "nginx.conf"] = Some configuration /\
        read_servers configuration = concat (map (servers_of (default_root "")) (sort_routes applied)) /\
        records d' (rs_generation res) applied
  | Err _ => active_of d' = active_of d /\ (agrees n d w -> agrees n d' w' \/ recovery_pending d d' \/ left_prepared n fault d d' w')
  end.
Proof.
  cbv zeta. set (n := NewNginxRuntime check reload verify). unfold applyIngressGeneration.
  case_decide; [by auto|]. destruct load as [entries|e]; [|by auto].
  destruct (resolve_routes _ _ _ _ _) as [applied|e] eqn:Hres; [|by auto].
  destruct (RenderNginx applied _) as [configuration|e] eqn:Hrender; [|by auto].
  destruct (fault StNext); [by auto|]. destruct (fault StPrevious); [by auto|].
  destruct (NextUnusedGeneration _ _ _) as [g|e] eqn:Hnext; [|by auto].
  apply next_unused_generation in Hnext as [Hg _].
  pose proof (RenderNginx_Ok _ _ _ Hrender) as (Hacc & _).
  pose proof (apply_prepared_spec n ltac:(split; vm_compute; reflexivity) eq_refl fault sha now
    (rq_OperationID request) applied configuration g (active_of d) d w Hwf eq_refl ltac:(lia) Hacc) as Hout.
  fold (active_of d). destruct (apply_prepared _ _ _ _ _ _ _ _ _ _ _) as [r [d' w']].
  destruct Hout as [Hw' Hout]. split; [done|]. destruct r as [res|e]; [|done].
  destruct Hout as (-> & _ & Hfree & Hact & Hlink & Hfile & Hrec & Hseen).
  exists entries, applied, configuration. split_and!; try done.
  pose proof (RenderNginx_Ok _ _ _ Hrender) as (_ & Hroot & Hu & ->).
  apply read_config; [reflexivity | done | rewrite sort_routes_perm; apply Hacc].
Qed.

(** ** Two runs *)
#[local] Instance set_rq_IngressRoutes : Setter rq_IngressRoutes := ltac:(mk_setter).

Definition sample_request : Request :=
  ProtocolProps.empty_request <| rq_OperationID := "op-00000000000000000000000000000001" |>
    <| rq_IngressRoutes := [{| ir_RouteID := "route-0123456789abcdef"; ir_InstallationID := "inst-a";
         ir_ServiceID := "web"; ir_Hostname := "app.example.org"; ir_ExposureMode := "lan";
         ir_UpstreamProtocol := "http"; ir_TLSPolicy := "none"; ir_CertificateID := "";
         ir_ProviderID := "" |}] |>.

Definition sample_service : ManifestService :=
  {| ms_ID := "web"; ms_Name := "Web"; ms_Protocol := "http"; ms_ContainerPort := 80; ms_DefaultExposure := "";
     ms_FixedHostPort := 0; ms_Ingress := Some {| ie_ExposureModes := ["lan"]; ie_External := false |};
     ms_Readiness := None |}.
Definition sample_catalogue : gmap string Manifest :=
  {[ "app" := zero_manifest <| ma_Services := [sample_service] |> ]}.

Definition sample_tables : ingress_db :=
  {| ib_runtime := empty_db
       <| db_gens := {[ ("inst-a", 3) := {| g_operation := "op"; g_application := "app"; g_release := "1";
            g_status := GenActive; g_network_name := ""; g_network_id := ""; g_plan_hash := "";
            g_topology_hash := ""; g_data_path := ""; g_exposure_mode := ""; g_service_id := "";
            g_host_address := ""; g_host_port := 0; g_container_port := 0; g_service_protocol := "";
            g_created_at := ""; g_verified_at := None; g_committed_at := None; g_retired_at := None;
            g_cleanup := CleanupNotRequired |} ]} |>
       <| db_binds := {[ ("inst-a", 3, "web") := {| ServiceID := "web"; Transport := "tcp";
            ContainerPort := 80; Mode := "loopback"; HostAddress := "127.0.0.1"; HostPort := 20001 |} ]} |>;
     ib_gens := ∅; ib_routes := ∅ |}.

(** The reload fails as often as the environment says. *)
Definition sample_nginx : NginxRuntime nat :=
  NewNginxRuntime (fun _ _ w => (Ok tt, w_env w))
    (fun w => match w_env w with O => (Ok tt, O) | S k => (Err (ErrMsg "reload failed"), k) end)
    (fun w => (Ok tt, w_env w)).
Definition sample_world (failures : nat) : fsworld nat :=
  {| w_files := ∅; w_links := ∅; w_dirs := ∅; w_script := []; w_env := failures |}.

Definition no_faults : db_faults := fun _ => None.

Definition faulty_run (fault : db_faults) (failures : nat) : res ApplyResult * (ingress_db * fsworld nat) :=
  applyIngressGeneration fault (fun s => s) "now" (Ok sample_catalogue) (fun _ _ => None) (nginx sample_nginx)
    sample_request sample_tables (sample_world failures).
Definition sample_run : nat -> res ApplyResult * (ingress_db * fsworld nat) := faulty_run no_faults.

Lemma sample_wf : ingress_wf sample_tables.
Proof. split_and!; cbn; [intros ? ?; by rewrite lookup_empty | intros ? ? ? ?; by rewrite lookup_empty |
       intros ? ? ?; by rewrite lookup_empty]. Qed.

Lemma ingress_agreement_witness :
  (exists res, (sample_run 0).1 = Ok res /\ rs_generation res = 1 /\
     active_link sample_nginx (sample_run 0).2.2 = Some "/var/lib/kitpro-helper/ingress/generations/1") /\
  ingress_wf (sample_run 0).2.1.
Proof.
  split.
  - eexists. split_and!; vm_compute; reflexivity.
  - pose proof (ingress_agreement no_faults (fun s => s) "now" (Ok sample_catalogue) (fun _ _ => None)
      (fun _ _ w => (Ok tt, w_env w))
      (fun w => match w_env w with O => (Ok tt, O) | S k => (Err (ErrMsg "reload failed"), k) end)
      (fun w => (Ok tt, w_env w)) sample_request sample_tables (sample_world 0) sample_wf) as H.
    cbv zeta in H. change (applyIngressGeneration _ _ _ _ _ _ _ _ _) with (sample_run 0) in H.
    destruct (sample_run 0) as [r [d' w']]. exact (proj1 H).
Defined.

(** One failing reload is rolled back to the bootstrap configuration, two leave
    a pending rollback. *)
Example rolled_back_run :
  (active_link sample_nginx (sample_run 1).2.2, ig_status <$> ib_gens (sample_run 1).2.1 !! 1,
   ig_status <$> ib_gens (sample_run 2).2.1 !! 1) =
  (Some "/var/lib/kitpro-helper/ingress/bootstrap", Some IngRolledBack, Some IngRollbackPending).
Proof. vm_compute. reflexivity. Qed.

(** A commit that fails after the switch: the proxy serves generation 1, whose
    row says [prepared], and the table has no active generation. *)
Example switch_unrecorded :
  let run := faulty_run (fun s => match s with StCommit => Some (ErrSQL "disk I/O error") | _ => None end) 0 in
  (active_link sample_nginx run.2.2, ig_status <$> ib_gens run.2.1 !! 1, active_of run.2.1, is_ok run.1) =
  (Some "/var/lib/kitpro-helper/ingress/generations/1", Some IngPrepared, 0, false).
Proof. vm_compute. reflexivity. Qed.

(** ** Two forms the code lets through *)

(** A backend on the IPv6 loopback address is accepted and rendered without
    the brackets a URL needs around it. *)
Example ipv6_backend_unbracketed :
  (ValidateBackend {| b_Address := "::1"; b_Port := 8080 |},
   upstream {| ar_Route := sample_route; ar_Backend := {| b_Address := "::1"; b_Port := 8080 |} |}) =
  (Ok tt, "http://::1:8080").
Proof. vm_compute. reflexivity. Qed.

(** A runtime without a root passes its own validation and works on relative
    paths: the default is assigned to a copy of the receiver. *)
Example empty_root_accepted :
  let n := {| Root := ""; Check := Some (fun _ _ w => (Ok tt, w_env w)); Reload := Some (fun w => (Ok tt, w_env w));
              VerifyProcess := Some (fun w : fsworld unit => (Ok tt, w_env w)) |} in
  (validate n, generationPath n 5) = (Ok tt, Ok "generations/5").
Proof. vm_compute. reflexivity. Qed.
