(* ===== verification/IngressStore.v ===== *)
(** * The control side's ingress records ([internal/ingress/store.go])

    [ingress_routes] and [ingress_generations] of the unprivileged database:
    creating and toggling routes, numbering and recording generations, and the
    commit that makes one active.  [now] is the clock. *)

From S2P Require Import Prelude NetIP ExposurePolicy Ingress IngressProofs IngressRuntime Manifest IngressApply.
From stdpp Require Import base gmap strings list.
From Stdlib Require Import ZArith Lia.

Open Scope Z_scope.

Record cgenRow : Type := {
  cg_operation : string;
  cg_sha256 : string;
  cg_status : string;
  cg_previous : option Z;
  cg_created_at : string;
  cg_updated_at : string;
  cg_failure_code : string
}.
#[export] Instance cgenRow_eta : Eta cgenRow := fun r => Build_cgenRow (cg_operation r) (cg_sha256 r)
  (cg_status r) (cg_previous r) (cg_created_at r) (cg_updated_at r) (cg_failure_code r).
#[export] Instance set_cg_status : Setter cg_status := ltac:(mk_setter).
#[export] Instance set_cg_updated_at : Setter cg_updated_at := ltac:(mk_setter).
#[export] Instance set_cg_failure_code : Setter cg_failure_code := ltac:(mk_setter).

Record control_db : Type := {
  ct_installations : gset string;
  ct_routes : gmap string Route;
  ct_gens : gmap Z cgenRow
}.
#[export] Instance control_db_eta : Eta control_db := fun d =>
  Build_control_db (ct_installations d) (ct_routes d) (ct_gens d).
#[export] Instance set_ct_routes : Setter ct_routes := ltac:(mk_setter).
#[export] Instance set_ct_gens : Setter ct_gens := ltac:(mk_setter).

(** ** Constraints of the two tables *)
Definition control_route_checks (r : Route) : Prop :=
  r_ExposureMode r ∈ ["lan"; "managed-https"; "cloudflare-tunnel"] /\
  r_UpstreamProtocol r ∈ ["http"; "https"] /\
  r_TLSPolicy r ∈ ["none"; "provided"; "acme"; "cloudflare"] /\
  r_DesiredState r ∈ ["disabled"; "enabled"].
#[export] Instance control_route_checks_dec r : Decision (control_route_checks r).
Proof. unfold control_route_checks. apply _. Defined.

Definition generation_statuses : list string :=
  ["prepared"; "validated"; "activating"; "active"; "failed"; "rollback_pending"; "rolled_back"; "cleanup_pending"].

Definition active_count (gens : gmap Z cgenRow) : nat := affected (fun _ r => cg_status r = "active") gens.

(** An [UPDATE] of the generations under the unique index on the active one. *)
Definition update_control_gens (P : Z -> cgenRow -> Prop) `{!forall k r, Decision (P k r)} (f : cgenRow -> cgenRow)
    : tx control_db nat := fun d =>
  let gens := update P f (ct_gens d) in
  if decide (1 < active_count gens)%nat
  then Err (ErrSQL "UNIQUE constraint failed: ingress_generations.status")
  else Ok (affected P (ct_gens d), d <| ct_gens := gens |>).

(** ** Routes *)
Definition CreateRoute (now : string) (route : Route) : tx control_db Route := fun d =>
  let route := route <| r_CreatedAt := now |> <| r_UpdatedAt := now |> in
  if decide (control_route_checks route /\ ct_routes d !! r_ID route = None /\
             Forall (fun kr => r_Hostname kr.2 <> r_Hostname route) (map_to_list (ct_routes d)) /\
             r_InstallationID route ∈ ct_installations d)
  then Ok (route, d <| ct_routes := <[r_ID route := route]> (ct_routes d) |>)
  else Err (ErrWrap "create ingress route" (ErrSQL "constraint failed")).

Definition GetRoute (routeID : string) : tx control_db Route := trow (fun d => ct_routes d !! routeID).

(** [ORDER BY hostname, route_id]; host names are unique. *)
Definition ListRoutes (installationID : string) (d : control_db) : list Route :=
  sort_by r_Hostname (snd <$> select (fun _ r => installationID = "" \/ r_InstallationID r = installationID)
                                (ct_routes d)).

Definition SetDesiredState (now routeID state : string) : tx control_db Route :=
  do* tassert (state = Enabled \/ state = Disabled) "invalid desired state" in
  let* d := tget in
  match ct_routes d !! routeID with
  | None => tfail ErrNoRows
  | Some r =>
      do* (fun d => Ok (tt, d <| ct_routes := <[routeID := r <| r_DesiredState := state |>
                                                             <| r_UpdatedAt := now |>]> (ct_routes d) |>)) in
      GetRoute routeID
  end.

(** ** Generations *)
Definition max_key (rows : list (Z * cgenRow)) : Z :=
  match map fst rows with [] => 0 | g :: gs => foldr Z.max g gs end.

Definition NextGeneration (d : control_db) : Z * Z :=
  (max_key (map_to_list (ct_gens d)) + 1, max_key (select (fun _ r => cg_status r = "active") (ct_gens d))).

Definition nullableGeneration (generation : Z) : option Z :=
  if decide (generation = 0) then None else Some generation.

(** Insert, or update the status of the row that is there; a row of another
    generation with the same operation is a conflict of its own. *)
Definition RecordGeneration (now : string) (candidate : Candidate) (operationID status failureCode : string)
    : tx control_db unit :=
  do* tassert (status ∈ generation_statuses) "invalid generation status" in
  let* d := tget in
  match ct_gens d !! cd_Generation candidate with
  | Some _ =>
      do* update_control_gens (fun k _ => k = cd_Generation candidate)
            (fun r => r <| cg_status := status |> <| cg_updated_at := now |> <| cg_failure_code := failureCode |>) in
      tret tt
  | None =>
      if decide (Exists (fun kr => cg_operation kr.2 = operationID) (map_to_list (ct_gens d)))
      then tfail (ErrSQL "UNIQUE constraint failed: ingress_generations.operation_id")
      else
        let row := {| cg_operation := operationID; cg_sha256 := cd_SHA256 candidate; cg_status := status;
                      cg_previous := nullableGeneration (cd_PreviousGeneration candidate);
                      cg_created_at := now; cg_updated_at := now; cg_failure_code := failureCode |} in
        let gens := <[cd_Generation candidate := row]> (ct_gens d) in
        if decide (1 < active_count gens)%nat
        then tfail (ErrSQL "UNIQUE constraint failed: ingress_generations.status")
        else fun d => Ok (tt, d <| ct_gens := gens |>)
  end.

Fixpoint apply_routes (now : string) (generation : Z) (routeIDs : list string) : tx control_db unit :=
  match routeIDs with
  | [] => tret tt
  | id :: ids =>
      do* tassert (routePattern id = true) "invalid route identity" in
      do* (fun d => Ok (tt, d <| ct_routes :=
             update (fun k r => k = id /\ r_DesiredState r = "enabled")
                    (fun r => r <| r_AppliedGeneration := generation |> <| r_UpdatedAt := now |>) (ct_routes d) |>)) in
      apply_routes now generation ids
  end.

Definition CommitGeneration (now : string) (candidate : Candidate) (routeIDs : list string) : tx control_db unit :=
  do* (if decide (0 < cd_PreviousGeneration candidate)
       then update_control_gens (fun k r => k = cd_PreviousGeneration candidate /\ cg_status r = "active")
              (fun r => r <| cg_status := "rolled_back" |> <| cg_updated_at := now |>)
       else tret 0%nat) in
  let* changed := update_control_gens (fun k _ => k = cd_Generation candidate)
        (fun r => r <| cg_status := "active" |> <| cg_updated_at := now |> <| cg_failure_code := "" |>) in
  do* tassert (changed = 1%nat) "candidate generation not found" in
  apply_routes now (cd_Generation candidate) routeIDs.

(** ** The commit *)
Definition active_key (d : control_db) (g : Z) : Prop :=
  exists r, ct_gens d !! g = Some r /\ cg_status r = "active".

Lemma active_count_unique gens g1 g2 r1 r2 :
  (active_count gens <= 1)%nat -> gens !! g1 = Some r1 -> gens !! g2 = Some r2 ->
  cg_status r1 = "active" -> cg_status r2 = "active" -> g1 = g2.
Proof.
  intros Hl H1 H2 A1 A2. unfold active_count, affected in Hl.
  assert ((g1, r1) ∈ select (fun _ r => cg_status r = "active") gens /\
          (g2, r2) ∈ select (fun _ r => cg_status r = "active") gens) as [I1 I2]
    by (rewrite !(elem_of_select (fun _ r => cg_status r = "active")); done).
  destruct (select _ gens) as [|x [|y rest]]; [set_solver | | cbn in Hl; lia].
  apply list_elem_of_singleton in I1, I2. congruence.
Qed.

Lemma apply_routes_gens now g ids d u d' : apply_routes now g ids d = Ok (u, d') -> ct_gens d' = ct_gens d.
Proof.
  revert d. induction ids as [|id ids IH]; intros d H; cbn in H; inv_tx; [done|].
  by rewrite (IH _ H).
Qed.

Lemma apply_routes_row now g ids d u d' k r :
  apply_routes now g ids d = Ok (u, d') -> ct_routes d !! k = Some r ->
  exists r', ct_routes d' !! k = Some r' /\ r_DesiredState r' = r_DesiredState r /\
    r_AppliedGeneration r' = (if decide (k ∈ ids /\ r_DesiredState r = "enabled") then g else r_AppliedGeneration r).
Proof.
  revert d r. induction ids as [|id ids IH]; intros d r H Hk; cbn in H.
  { apply tret_Ok in H as [_ <-]. exists r. split_and!; [done | done|]. case_decide as Hin; [|done]. by destruct (not_elem_of_nil k (proj1 Hin)). }
  apply tbind_Ok in H as ([] & d1 & [_ <-]%tassert_Ok & H).
  apply tbind_Ok in H as ([] & d1 & [= <-] & H).
  set (r1 := if decide (k = id /\ r_DesiredState r = "enabled")
             then r <| r_AppliedGeneration := g |> <| r_UpdatedAt := now |> else r).
  assert (r_DesiredState r1 = r_DesiredState r) as E1.
  { subst r1. by destruct (decide (k = id /\ r_DesiredState r = "enabled")). }
  destruct (IH _ r1 H) as (r' & Hr' & Hd & Ha).
  { cbn. rewrite lookup_update, Hk. done. }
  exists r'. split_and!; [done | congruence|]. rewrite Ha, E1. clear Ha Hd E1 IH H.
  subst r1. repeat case_decide; try done; set_solver.
Qed.

(** A commit of the control side that succeeds leaves the candidate as the one
    active generation, and stamps it on exactly the listed routes that are
    enabled. *)
Theorem control_commit_exact (now : string) (candidate : Candidate) (ids : list string) (d d' : control_db)
    (Hok : CommitGeneration now candidate ids d = Ok (tt, d')) :
  (forall g, active_key d' g <-> g = cd_Generation candidate) /\
  (forall k r, ct_routes d !! k = Some r ->
     exists r', ct_routes d' !! k = Some r' /\ r_DesiredState r' = r_DesiredState r /\
       r_AppliedGeneration r' = (if decide (k ∈ ids /\ r_DesiredState r = "enabled")
                                 then cd_Generation candidate else r_AppliedGeneration r)).
Proof.
  unfold CommitGeneration in Hok. apply tbind_Ok in Hok as (c0 & d1 & H1 & Hok).
  assert (ct_routes d1 = ct_routes d) as Hr1.
  { case_decide; [|by inv_tx]. unfold update_control_gens in H1. case_decide; [done|]. by injection H1 as _ <-. }
  apply tbind_Ok in Hok as (changed & d2 & H2 & Hok). inv_tx.
  unfold update_control_gens in H2. case_decide as Hcount; [done|]. injection H2 as Haff <-.
  apply (affected_pk_1 _ _ (cd_Generation candidate)) in Haff as (r0 & Hr0 & _); [|done].
  pose proof (apply_routes_gens _ _ _ _ _ _ Hok) as Hg. cbn in Hg. split.
  - assert (active_key d' (cd_Generation candidate)) as Hact.
    { eexists. rewrite Hg, lookup_update, Hr0. cbn. by rewrite decide_True. }
    intros g. split; [|by intros ->]. intros (r & Hr & Ha). destruct Hact as (rc & Hrc & Hac).
    rewrite Hg in Hr, Hrc. eapply active_count_unique; [|exact Hr | exact Hrc | done..]. lia.
  - intros k r Hk. apply (apply_routes_row _ _ _ _ _ _ k r Hok). cbn. by rewrite Hr1.
Qed.

Definition control_sample : control_db :=
  {| ct_installations := {[ "inst-a" ]};
     ct_routes := {[ r_ID sample_route := sample_route ]};
     ct_gens := list_to_map [(1, {| cg_operation := "op-1"; cg_sha256 := ""; cg_status := "active"; cg_previous := None;
                                    cg_created_at := ""; cg_updated_at := ""; cg_failure_code := "" |});
                             (2, {| cg_operation := "op-2"; cg_sha256 := ""; cg_status := "prepared"; cg_previous := Some 1;
                                    cg_created_at := ""; cg_updated_at := ""; cg_failure_code := "" |})] |}.

Lemma control_commit_exact_witness :
  match CommitGeneration "now" (the_candidate (fun s => s) 2 1 "x") [r_ID sample_route] control_sample with
  | Ok (_, d') => forall g, active_key d' g <-> g = 2
  | Err _ => False
  end.
Proof.
  destruct (CommitGeneration "now" (the_candidate (fun s => s) 2 1 "x") [r_ID sample_route] control_sample)
    as [[[] d']|e] eqn:H; [|vm_compute in H; discriminate H].
  apply (control_commit_exact "now" (the_candidate (fun s => s) 2 1 "x") [r_ID sample_route] control_sample d' H).
Defined.
